(* ===== verification/_CoqProject ===== *)
-Q . S2P
Prelude.v
KList.v
KListSpec.v
Bitmap.v
Hash.v
Arith64.v
Random.v
CString.v
StdLib.v
Printf.v
Ustar.v
Palloc.v
Malloc.v
Process.v
Elf.v
PageDir.v
UserMem.v
Block.v
Partition.v
Swap.v
Spt.v
Frame.v
Fault.v
Uptr.v
Store.v
Cache.v
Inode.v
File.v
InodeIO.v
VmFile.v
Dir.v
FreeMap.v
FileSys.v
Thread.v
FdTable.v
Syscall.v
Life.v
Synch.v
Timer.v
Sched.v
Mutex.v
Intq.v
Kbd.v
Descr.v
Intr.v
Pit.v
Rtc.v
Vga.v
Boot.v
Handler.v
Mmap.v
Serial.v
Ide.v
Console.v
Exc.v
Fsutil.v
