(* ===== verification/Prelude.v ===== *)
(** * Pintos: a verification of the kernel

    The program is Pintos (src/pintos/src), a teaching kernel for the 80x86 with
    threads, user processes, virtual memory and a file system.  This library
    models its C code and proves what makes the parts correct.  Names are those
    of the source; paths below are relative to src/pintos/src.

    ** The parts and how they interact

    Base library: lib/kernel/list.c (KList, KListSpec), lib/kernel/bitmap.c
    (Bitmap), lib/kernel/hash.c (Hash), lib/arithmetic.c (Arith64), lib/random.c
    (Random), lib/string.c (CString), lib/stdlib.c (StdLib), lib/stdio.c (Printf),
    lib/ustar.c (Ustar).

    Memory: threads/palloc.c hands out pages (Palloc, on Bitmap), threads/malloc.c
    blocks (Malloc, on Palloc); userprog/pagedir.c keeps page tables in pages of
    the kernel pool (PageDir, with the processor's table walk and its translation
    cache; UserMem separates tables from frames); vm/swap.c (Swap, on Block and
    Bitmap), vm/page.c (Spt, on Hash), vm/frame.c (Frame: eviction) and
    userprog/exception.c (Fault: page faults) make demand paging.  Frame and Fault
    are proved against the interfaces [SptOps]/[SptTable] and [FileOps]/[FileLaws];
    Spt and VmFile discharge them.

    Files: devices/block.c (Block), devices/partition.c (Partition),
    filesys/cache.c (Cache), filesys/inode.c (Inode, InodeIO), filesys/file.c and
    filesys/free-map.c (File, FreeMap), filesys/directory.c (Dir),
    filesys/filesys.c (FileSys: paths, creating and opening by name), filesys/fsutil.c
    (Fsutil: commands on files and archives, on FileSys and Ustar).  The inode layer is proved against the interface
    [SectorOps]/[SectorStore] of Store, which Cache discharges.

    Threads: threads/thread.c (Thread, FdTable), threads/synch.c (Synch),
    devices/timer.c (Timer), threads/interrupt.c (the timer path, in Sched),
    devices/intq.c (Intq), devices/kbd.c and devices/input.c (Kbd, on Intq).  Sched and Mutex hold the step relation that
    interleaves threads and interrupts, and its invariants.

    Machine: threads/interrupt.c (Intr: controllers, descriptor table, dispatch),
    userprog/gdt.c and userprog/tss.c (Descr: segment descriptors and gates), the
    exceptions of userprog/exception.c (Exc, on Intr),
    devices/pit.c (Pit), devices/rtc.c (Rtc), devices/vga.c (Vga), devices/serial.c
    (Serial, on Intq and Kbd), lib/kernel/console.c (Console, on Serial and Vga),
    devices/ide.c (Ide, on an interface to the controller), and the command line of
    threads/init.c (Boot, on Block and Random).

    Processes: userprog/process.c (Process: command line and argument passing;
    Elf: executables); userprog/syscall.c (Uptr: pointers that programs pass, on
    Fault; Handler: the dispatch of system calls, on Uptr; Mmap: memory mapped files,
    on Frame; Syscall: the calls on files, on FileSys and FdTable); exec, wait and exit
    with process_wait and thread_exit (Life: a step relation that interleaves
    processes).

    ** How the model corresponds to the code

    A C function is a Rocq function with the state it reads and writes as an
    argument and a result, in the monad [outcome]: a failed [ASSERT] or a [PANIC]
    is [Err Panic], an access outside every object is [Err Fault].  Machine
    integers are [Z]; the operations [u32], [s32], [u64] wrap around where the C
    types do.  Pointers are addresses ([Z]) into explicit heaps (finite maps or
    byte arrays), with aliasing as in the code; the null pointer is 0 or [None].
    [malloc] and [palloc] may fail wherever the caller tests for it; the models of
    higher layers take the sequence of answers as an argument.  Code that runs
    with interrupts off is one step; what a thread still has to do after it gave
    the processor away is an explicit list of frames.

    Loops that are not structural take fuel, and running out of it is [Err NoFuel].
    The callers pass an amount that the theorems prove to be enough: the number of
    elements for traversals, the size of memory for string loops, the number of
    entries that the length of a directory allows, 2 faults for an instruction.
    The theorems state that there is a result, not only that a result would be right;
    where one is about a branch that the code may take or not, as growing the stack in
    [page_fault], it names that branch.

    ** What the theorems show

    Refinement of an abstract state: the buffer cache is a disk (Cache), the hash
    table a set of elements (Hash), swap a map from slots to pages (Swap), a
    directory a map from names to sectors (Dir), an interrupt queue a sequence
    (Intq), paged memory a plain memory (Fault), a volume a map that creation
    extends (FileSys), an open file under any sequence of calls a string of bytes with a
    position for each descriptor (Syscall), the screen the end of a roll of paper (Vga),
    the console a printer that one thread has at a time (Console), disks on their controller
    the block devices that the file system uses (Ide), mmap an addition to the memory of
    a process (Mmap).  Invariants of all reachable
    states: the scheduler's queues (Sched), mutual exclusion (Mutex), page tables
    and translation cache (PageDir), contents of pages under eviction (Frame),
    whose thread still exists, and that chains of waiting processes lead to one that
    can step (Life), the gates of the
    interrupt table (Intr).
    Functional correctness of operations on every branch: lists and sorting, the
    bitmap scan, inode reads and writes, allocators, string functions, 64-bit
    division, formatted output, argument passing, the descriptor table, what [load] maps
    for the headers of any executable (Elf), the partitions of a disk, the kernel command line, what a system call
    gets from its caller and what it leaves pinned (Handler), the serial port (Serial), what an
    archive holds after a file was appended (Fsutil), who may raise which exception (Exc).
    Round trips: map and unmap, allocate and free, the free map on the device after a
    flush and a restart, open and close, headers of archives, keys and
    the text typed, descriptors and what the processor reads.  Errors: where the code fails an assertion, loops, or gives
    a wrong result, a theorem says for which inputs.

    Each property carries its claim number in its comment, and a lemma named after
    it with the suffix _witness applies it to a concrete input.

    ** Not modelled

    What [process_exit] frees.  The drivers of the speaker and the power switch; [main] and
    [paging_init]; assembly, user programs, host utilities and tests.  The background
    threads of the buffer cache, so that its locks are those of a single thread.
    Processes are interleaved between instructions, not inside the page fault handler,
    which holds [pf_sema].  Printing by interrupt handlers and [console_panic] (Console).
    The bytes in which malloc.c keeps arena headers and free lists are not part of the
    memory of the model, only where they lie (Malloc); the buckets of a hash table are
    lists of addresses (Hash); thread identifiers do not wrap around (Life).  Creating a
    thread is an operation of Thread and Life, not a step of Sched and Mutex, which are
    about the threads there are. *)
From Stdlib Require Export ssreflect.
From Stdlib Require Export ZArith Lia.
From stdpp Require Export base decidable list list_numbers sorting gmap strings.
#[global] Set Default Goal Selector "!".
#[global] Open Scope general_if_scope.
#[global] Open Scope Z_scope.

(** ** Outcomes

    A C function of the kernel either returns, or fails in one of three ways:
    [Panic] is an [ASSERT], [PANIC] or [NOT_REACHED] that fires; [Fault] is an
    access outside every object (undefined behaviour in C, a page fault on the
    machine); [NoFuel] is a loop whose bound was chosen too small, which the
    termination theorems exclude. *)
Inductive error := Panic | Fault | NoFuel.

Inductive outcome (A : Type) : Type :=
| Ok (a : A)
| Err (e : error).
Arguments Ok {A} a.
Arguments Err {A} e.

#[export] Instance error_eq_dec : EqDecision error.
Proof. solve_decision. Defined.

Definition obind {A B} (m : outcome A) (k : A -> outcome B) : outcome B :=
  match m with Ok a => k a | Err e => Err e end.

Declare Scope pintos_scope.
Delimit Scope pintos_scope with pintos.
Notation "'let!' x := m 'in' k" := (obind m (fun x => k))
  (at level 10, x pattern, m at level 100, k at level 200,
   format "'[v' 'let!'  x  :=  m  'in' '/' k ']'") : pintos_scope.
#[global] Open Scope pintos_scope.

(** [ASSERT (b)] of lib/debug.h in a build without NDEBUG. *)
Definition ASSERT (b : bool) : outcome unit := if b then Ok tt else Err Panic.

(** [assert! b in k]: check an assertion, then continue. *)
Notation "'assert!' b 'in' k" := (obind (ASSERT b) (fun _ => k))
  (at level 10, b at level 100, k at level 200,
   format "'[v' 'assert!'  b  'in' '/' k ']'") : pintos_scope.

(** Reading an array element; out of bounds is a [Fault]. *)
Definition oget {A} (o : option A) : outcome A :=
  match o with Some a => Ok a | None => Err Fault end.

Lemma obind_ok {A B} (m : outcome A) (k : A -> outcome B) a :
  m = Ok a -> obind m k = k a.
Proof. by move=> ->. Qed.

Lemma obind_Ok_inv {A B} (m : outcome A) (k : A -> outcome B) b :
  obind m k = Ok b -> exists a, m = Ok a /\ k a = Ok b.
Proof. destruct m; naive_solver. Qed.

Lemma obind_assoc {A B C} (m : outcome A) (f : A -> outcome B) (g : B -> outcome C) :
  obind (obind m f) g = obind m (fun a => obind (f a) g).
Proof. by destruct m. Qed.

(** ** Machine integers

    A w-bit unsigned integer is a [Z] in [0, 2^w); arithmetic on it is
    arithmetic on [Z] followed by the wrap-around below. *)
Definition wrap (w z : Z) : Z := z mod 2 ^ w.
Abbreviation u8 := (wrap 8).
Abbreviation u16 := (wrap 16).
Abbreviation u32 := (wrap 32).
Abbreviation u64 := (wrap 64).

(** Two's complement reading of the low [w] bits. *)
Definition swrap (w z : Z) : Z := (z + 2 ^ (w - 1)) mod 2 ^ w - 2 ^ (w - 1).
Abbreviation s8 := (swrap 8).
Abbreviation s32 := (swrap 32).
Abbreviation s64 := (swrap 64).

Definition INT_MAX : Z := 2 ^ 31 - 1.
Definition UINT_MAX : Z := 2 ^ 32 - 1.
Definition SIZE_MAX : Z := 2 ^ 32 - 1.

Lemma wrap_small w z : 0 <= z < 2 ^ w -> wrap w z = z.
Proof. apply Z.mod_small. Qed.

Lemma wrap_range w z : 0 <= w -> 0 <= wrap w z < 2 ^ w.
Proof. move=> ?. apply Z.mod_pos_bound. lia. Qed.

Lemma swrap_small w z : 0 < w -> - 2 ^ (w - 1) <= z < 2 ^ (w - 1) -> swrap w z = z.
Proof.
  move=> Hw Hz. rw /swrap Z.mod_small; [|lia].
  have ->: 2 ^ w = 2 ^ (w - 1) + 2 ^ (w - 1); [|lia].
  rw -{1}(Z.sub_add 1 w) Z.pow_add_r; lia.
Qed.

Lemma swrap_range w z : 0 < w -> - 2 ^ (w - 1) <= swrap w z < 2 ^ (w - 1).
Proof.
  move=> Hw. rw /swrap.
  have Hp : 2 ^ w = 2 ^ (w - 1) + 2 ^ (w - 1).
  { rw -{1}(Z.sub_add 1 w) Z.pow_add_r; lia. }
  have := Z.mod_pos_bound (z + 2 ^ (w - 1)) (2 ^ w). lia.
Qed.

(** [DIV_ROUND_UP] and [ROUND_UP] of lib/round.h. *)
Definition DIV_ROUND_UP (x step : Z) : Z := (x + step - 1) / step.
Definition ROUND_UP (x step : Z) : Z := (x + step - 1) / step * step.

Lemma DIV_ROUND_UP_spec x step q :
  0 < step -> DIV_ROUND_UP x step = q <-> (q - 1) * step < x <= q * step.
Proof.
  move=> Hs. rw /DIV_ROUND_UP. split.
  - move=> <-. have := Z.div_mod (x + step - 1) step. have := Z.mod_pos_bound (x + step - 1) step. lia.
  - move=> ?. symmetry. apply (Z.div_unique _ _ _ (x + step - 1 - q * step)); lia.
Qed.

(** ** Automation *)
Create HintDb pintos.
#[export] Hint Resolve wrap_small swrap_small : pintos.

(** Case analysis on the boolean comparisons that guard C branches. *)
Ltac zbool :=
  repeat match goal with
  | H : context [Z.eqb ?a ?b] |- _ => destruct (Z.eqb_spec a b); simplify_eq/=
  | H : context [Z.ltb ?a ?b] |- _ => destruct (Z.ltb_spec a b); simplify_eq/=
  | H : context [Z.leb ?a ?b] |- _ => destruct (Z.leb_spec a b); simplify_eq/=
  | |- context [Z.eqb ?a ?b] => destruct (Z.eqb_spec a b); simplify_eq/=
  | |- context [Z.ltb ?a ?b] => destruct (Z.ltb_spec a b); simplify_eq/=
  | |- context [Z.leb ?a ?b] => destruct (Z.leb_spec a b); simplify_eq/=
  end.

(** Invert a successful run of a sequence of statements. *)
Ltac inv_ok :=
  repeat match goal with
  | H : obind _ _ = Ok _ |- _ =>
      let a := fresh "r" in let E := fresh "E" in
      apply obind_Ok_inv in H as (a & E & H)
  | H : ASSERT ?b = Ok _ |- _ => destruct b eqn:?; [clear H | discriminate H]
  | H : Ok _ = Ok _ |- _ => injection H as H
  | H : Err _ = Ok _ |- _ => discriminate H
  end; simplify_eq/=.

(** Rewrite with the equations of calls already known to succeed. *)
Ltac run_ok :=
  repeat (match goal with
  | H : ?m = Ok _ |- context [obind ?m _] => rw (obind_ok _ _ _ H)
  | H : ?b = true |- context [ASSERT ?b] => rw H
  end; simpl).

(** ** Lists *)
Lemma NoDup_app_inv {A} (xs ys : list A) :
  NoDup (xs ++ ys) -> NoDup xs /\ NoDup ys /\ (forall x, x ∈ xs -> x ∈ ys -> False).
Proof. rw NoDup_app. intros (Hx & Hd & Hy). eauto. Qed.

Lemma list_lookup_total_Z {A} (l : list A) (i : Z) :
  0 <= i < Z.of_nat (length l) -> is_Some (l !! Z.to_nat i).
Proof. move=> ?. apply lookup_lt_is_Some. lia. Qed.

(** Normalise concatenations to the right-associated form. *)
Ltac app_norm := repeat progress (cbn [app]; rw -?app_assoc).

(** Linear arithmetic with division and remainder by constants. *)
Ltac dlia := Z.to_euclidean_division_equations; lia.

Lemma filter_Forall_true {A} (P : A -> Prop) `{!forall x, Decision (P x)} (l : list A) :
  Forall P l -> filter P l = l.
Proof. induction 1; [done|]. rw filter_cons_True //. by f_equal. Qed.

Lemma filter_Forall_false {A} (P : A -> Prop) `{!forall x, Decision (P x)} (l : list A) :
  Forall (fun x => ~ P x) l -> filter P l = [].
Proof. induction 1; [done|]. by rw filter_cons_False. Qed.

(** Exchanging two elements. *)
Lemma insert_swap_perm {A} (l : list A) i j a b :
  l !! i = Some a -> l !! j = Some b -> <[j := a]> (<[i := b]> l) ≡ₚ l.
Proof.
  intros Hi Hj. destruct (decide (i = j)) as [->|Hne].
  - rw list_insert_insert_eq. have -> : a = b by congruence. by rw list_insert_id.
  - apply Permutation_inj. split; [by rw !length_insert|].
    exists (fun k => if decide (k = i) then j else if decide (k = j) then i else k). split.
    + intros x y. repeat case_decide; congruence.
    + intros k. have Hli := lookup_lt_Some _ _ _ Hi. have Hlj := lookup_lt_Some _ _ _ Hj.
      destruct (decide (k = i)) as [->|]; [|destruct (decide (k = j)) as [->|]].
      * rw list_lookup_insert_ne // list_lookup_insert_eq //.
      * rw list_lookup_insert_eq ?length_insert //.
      * rw !list_lookup_insert_ne //.
Qed.

(** ** Byte memory

    A contiguous object is the list of its bytes.  [memcpy] out of it and into
    it, with any access outside the object a [Fault]. *)
Definition slice {A} (m : list A) (o n : Z) : list A := take (Z.to_nat n) (drop (Z.to_nat o) m).

Definition in_object {A} (m : list A) (o n : Z) : bool :=
  (0 <=? o) && (0 <=? n) && (o + n <=? Z.of_nat (length m)).

Definition mem_read {A} (m : list A) (o n : Z) : outcome (list A) :=
  if in_object m o n then Ok (slice m o n) else Err Fault.

Definition splice {A} (m : list A) (o : Z) (bs : list A) : list A :=
  take (Z.to_nat o) m ++ bs ++ drop (Z.to_nat o + length bs) m.

Definition mem_write {A} (m : list A) (o : Z) (bs : list A) : outcome (list A) :=
  if in_object m o (Z.of_nat (length bs)) then Ok (splice m o bs) else Err Fault.

Section memory.
Context {A : Type}.
Implicit Types m bs : list A.

Lemma in_object_spec m o n :
  in_object m o n = true <-> 0 <= o /\ 0 <= n /\ o + n <= Z.of_nat (length m).
Proof. rw /in_object !andb_true_iff. lia. Qed.

Lemma mem_read_ok m o n :
  0 <= o -> 0 <= n -> o + n <= Z.of_nat (length m) -> mem_read m o n = Ok (slice m o n).
Proof. move=> ???. by rw /mem_read (proj2 (in_object_spec m o n)). Qed.

Lemma mem_write_ok m o bs :
  0 <= o -> o + Z.of_nat (length bs) <= Z.of_nat (length m) ->
  mem_write m o bs = Ok (splice m o bs).
Proof. move=> ??. rw /mem_write (proj2 (in_object_spec _ _ _)) //. lia. Qed.

Lemma length_slice m o n :
  0 <= o -> 0 <= n -> o + n <= Z.of_nat (length m) -> length (slice m o n) = Z.to_nat n.
Proof. move=> ???. rw /slice length_take length_drop. lia. Qed.

Lemma length_splice m o bs :
  0 <= o -> o + Z.of_nat (length bs) <= Z.of_nat (length m) ->
  length (splice m o bs) = length m.
Proof. move=> ??. rw /splice !length_app length_take length_drop. lia. Qed.

(** The characteristic equations: byte [k] of a slice and of a splice. *)
Lemma lookup_slice m o n k :
  slice m o n !! k = if decide (k < Z.to_nat n)%nat then m !! (Z.to_nat o + k)%nat else None.
Proof.
  rw /slice. case_decide.
  - by rw lookup_take_lt // lookup_drop.
  - rw lookup_take_ge //. lia.
Qed.

Lemma lookup_splice m o bs k :
  0 <= o -> o + Z.of_nat (length bs) <= Z.of_nat (length m) ->
  splice m o bs !! k =
    if decide (Z.to_nat o <= k < Z.to_nat o + length bs)%nat then bs !! (k - Z.to_nat o)%nat
    else m !! k.
Proof.
  move=> ??. rw /splice. case_decide.
  - rw lookup_app_r length_take; [lia|]. rw lookup_app_l; [lia|]. f_equal. lia.
  - destruct (decide (k < Z.to_nat o)%nat).
    + rw lookup_app_l ?length_take; [lia|]. by rw lookup_take_lt.
    + rw lookup_app_r length_take; [lia|]. rw lookup_app_r; [lia|].
      rw lookup_drop. f_equal. lia.
Qed.

Lemma splice_nil m o : splice m o [] = m.
Proof. by rw /splice /= Nat.add_0_r take_drop. Qed.

Lemma slice_full m n : n = Z.of_nat (length m) -> slice m 0 n = m.
Proof. move=> ->. rw /slice drop_0 take_ge //. lia. Qed.

Lemma slice_splice_same m o bs n :
  0 <= o -> o + Z.of_nat (length bs) <= Z.of_nat (length m) -> n = Z.of_nat (length bs) ->
  slice (splice m o bs) o n = bs.
Proof.
  move=> ?? ->. apply list_eq => k. rw lookup_slice lookup_splice //. case_decide.
  - rw decide_True; [lia|]. f_equal. lia.
  - symmetry. apply lookup_ge_None. lia.
Qed.

Lemma slice_splice_disjoint m o bs o' n :
  0 <= o -> o + Z.of_nat (length bs) <= Z.of_nat (length m) -> 0 <= o' ->
  o' + n <= o \/ o + Z.of_nat (length bs) <= o' ->
  slice (splice m o bs) o' n = slice m o' n.
Proof.
  move=> ????. apply list_eq => k. rw !lookup_slice lookup_splice //. case_decide; [|done].
  rw decide_False //. lia.
Qed.

Lemma slice_slice m o n o' n' :
  0 <= o -> 0 <= o' -> o' + n' <= n -> slice (slice m o n) o' n' = slice m (o + o') n'.
Proof.
  move=> ???. apply list_eq => k. rw !lookup_slice. case_decide; [|done].
  rw decide_True; [lia|]. f_equal. lia.
Qed.

(** Writing inside a sub-object is writing in the slice that is the sub-object. *)
Lemma slice_splice_inside m o bs o' n :
  0 <= o' -> o' <= o -> o + Z.of_nat (length bs) <= o' + n -> o' + n <= Z.of_nat (length m) ->
  slice (splice m o bs) o' n = splice (slice m o' n) (o - o') bs.
Proof.
  move=> ????. apply list_eq => k.
  rw lookup_splice ?length_slice; [lia..|].
  rw !lookup_slice lookup_splice; [lia..|].
  repeat case_decide; try done; try lia; try (f_equal; lia).
Qed.
End memory.
