(* ===== verification/KList.v ===== *)
(** * lib/kernel/list.c: intrusive doubly linked lists

    The heap maps the address of every [struct list_elem] to its two links.
    Every function of list.c is translated with its assertions and its loads
    and stores in source order; [is_list h l xs] says that the [struct list] at
    address [l] holds exactly the elements [xs], in order.  The theorems show
    that each operation terminates without panicking or faulting and implements
    the corresponding operation on [xs], leaving every other element alone. *)
From S2P Require Import Prelude.

(** ** Data *)
Definition addr := Z.
Definition NULL : addr := 0.

Record list_elem := mk_elem { prev : addr; next : addr }.
Definition heap := gmap addr list_elem.
Implicit Types (h : gmap addr list_elem) (a e l : addr).

(** [struct list] is two consecutive [struct list_elem]s of 8 bytes each: the
    head at the address of the list, the tail right after it. *)
Definition head_of (l : addr) : addr := l.
Definition tail_of (l : addr) : addr := l + 8.
Arguments head_of : simpl never.
Arguments tail_of : simpl never.

(** Loads and stores of one field. *)
Definition ld_prev h a : outcome addr := let! n := oget (h !! a) in Ok (prev n).
Definition ld_next h a : outcome addr := let! n := oget (h !! a) in Ok (next n).
Definition upd_prev h a v : gmap addr list_elem := alter (fun n => mk_elem v (next n)) a h.
Definition upd_next h a v : gmap addr list_elem := alter (fun n => mk_elem (prev n) v) a h.
Definition st_prev h a v : outcome (gmap addr list_elem) :=
  let! _ := oget (h !! a) in Ok (upd_prev h a v).
Definition st_next h a v : outcome (gmap addr list_elem) :=
  let! _ := oget (h !! a) in Ok (upd_next h a v).

(** ** Operations *)
Definition is_head h (elem : addr) : outcome bool :=
  if elem =? NULL then Ok false else
  let! p := ld_prev h elem in
  if negb (p =? NULL) then Ok false else
  let! n := ld_next h elem in Ok (negb (n =? NULL)).

Definition is_interior h (elem : addr) : outcome bool :=
  if elem =? NULL then Ok false else
  let! p := ld_prev h elem in
  if p =? NULL then Ok false else
  let! n := ld_next h elem in Ok (negb (n =? NULL)).

Definition is_tail h (elem : addr) : outcome bool :=
  if elem =? NULL then Ok false else
  let! p := ld_prev h elem in
  if p =? NULL then Ok false else
  let! n := ld_next h elem in Ok (n =? NULL).

(** [f (elem) || g (elem)] with C's short circuit. *)
Definition oor (m1 m2 : outcome bool) : outcome bool :=
  let! b := m1 in if b then Ok true else m2.

Definition list_init h (list : addr) : outcome (gmap addr list_elem) :=
  assert! negb (list =? NULL) in
  let! h := st_prev h (head_of list) NULL in
  let! h := st_next h (head_of list) (tail_of list) in
  let! h := st_prev h (tail_of list) (head_of list) in
  st_next h (tail_of list) NULL.

Definition list_begin h (list : addr) : outcome addr :=
  assert! negb (list =? NULL) in
  ld_next h (head_of list).

Definition list_next h (elem : addr) : outcome addr :=
  let! c := oor (is_head h elem) (is_interior h elem) in
  assert! c in
  ld_next h elem.

Definition list_end (list : addr) : outcome addr :=
  assert! negb (list =? NULL) in
  Ok (tail_of list).

Definition list_rbegin h (list : addr) : outcome addr :=
  assert! negb (list =? NULL) in
  ld_prev h (tail_of list).

Definition list_prev h (elem : addr) : outcome addr :=
  let! c := oor (is_interior h elem) (is_tail h elem) in
  assert! c in
  ld_prev h elem.

Definition list_rend (list : addr) : outcome addr :=
  assert! negb (list =? NULL) in
  Ok (head_of list).

Definition list_head (list : addr) : outcome addr :=
  assert! negb (list =? NULL) in
  Ok (head_of list).

Definition list_tail (list : addr) : outcome addr :=
  assert! negb (list =? NULL) in
  Ok (tail_of list).

Definition list_insert h (before elem : addr) : outcome (gmap addr list_elem) :=
  let! c := oor (is_interior h before) (is_tail h before) in
  assert! c in
  assert! negb (elem =? NULL) in
  let! bp := ld_prev h before in
  let! h := st_prev h elem bp in
  let! h := st_next h elem before in
  let! bp := ld_prev h before in
  let! h := st_next h bp elem in
  st_prev h before elem.

Definition list_splice h (before first last : addr) : outcome (gmap addr list_elem) :=
  let! c := oor (is_interior h before) (is_tail h before) in
  assert! c in
  if first =? last then Ok h else
  let! last := list_prev h last in
  let! c := is_interior h first in
  assert! c in
  let! c := is_interior h last in
  assert! c in
  (* Cleanly remove FIRST...LAST from its current list. *)
  let! fp := ld_prev h first in
  let! ln := ld_next h last in
  let! h := st_next h fp ln in
  let! ln := ld_next h last in
  let! fp := ld_prev h first in
  let! h := st_prev h ln fp in
  (* Splice FIRST...LAST into new list. *)
  let! bp := ld_prev h before in
  let! h := st_prev h first bp in
  let! h := st_next h last before in
  let! bp := ld_prev h before in
  let! h := st_next h bp first in
  st_prev h before last.

Definition list_push_front h (list elem : addr) : outcome (gmap addr list_elem) :=
  let! b := list_begin h list in
  list_insert h b elem.

Definition list_push_back h (list elem : addr) : outcome (gmap addr list_elem) :=
  let! b := list_end list in
  list_insert h b elem.

Definition list_remove h (elem : addr) : outcome (addr * gmap addr list_elem) :=
  let! c := is_interior h elem in
  assert! c in
  let! p := ld_prev h elem in
  let! n := ld_next h elem in
  let! h := st_next h p n in
  let! n := ld_next h elem in
  let! p := ld_prev h elem in
  let! h := st_prev h n p in
  let! n := ld_next h elem in
  Ok (n, h).

Definition list_empty h (list : addr) : outcome bool :=
  let! b := list_begin h list in
  let! e := list_end list in
  Ok (b =? e).

Definition list_front h (list : addr) : outcome addr :=
  let! c := list_empty h list in
  assert! negb c in
  ld_next h (head_of list).

Definition list_back h (list : addr) : outcome addr :=
  let! c := list_empty h list in
  assert! negb c in
  ld_prev h (tail_of list).

Definition list_pop_front h (list : addr) : outcome (addr * gmap addr list_elem) :=
  let! front := list_front h list in
  let! (_, h) := list_remove h front in
  Ok (front, h).

Definition list_pop_back h (list : addr) : outcome (addr * gmap addr list_elem) :=
  let! back := list_back h list in
  let! (_, h) := list_remove h back in
  Ok (back, h).

(** The loop of [list_size]; [fuel] bounds the number of iterations. *)
Fixpoint list_size_loop (fuel : nat) h (e end_ : addr) (cnt : Z) : outcome Z :=
  match fuel with
  | O => Err NoFuel
  | S fuel =>
      if e =? end_ then Ok cnt else
      let! e' := list_next h e in
      list_size_loop fuel h e' end_ (u32 (cnt + 1))
  end.

Definition list_size (fuel : nat) h (list : addr) : outcome Z :=
  let! e := list_begin h list in
  let! end_ := list_end list in
  list_size_loop fuel h e end_ 0.

(** [swap (&e->prev, &e->next)] *)
Definition swap_links h (e : addr) : outcome (gmap addr list_elem) :=
  let! p := ld_prev h e in
  let! n := ld_next h e in
  let! h := st_prev h e n in
  st_next h e p.

Fixpoint list_reverse_loop (fuel : nat) h (e end_ : addr) : outcome (gmap addr list_elem) :=
  match fuel with
  | O => Err NoFuel
  | S fuel =>
      if e =? end_ then Ok h else
      let! h := swap_links h e in
      let! e' := ld_prev h e in
      list_reverse_loop fuel h e' end_
  end.

Definition list_reverse (fuel : nat) h (list : addr) : outcome (gmap addr list_elem) :=
  let! em := list_empty h list in
  if em then Ok h else
  let! e := list_begin h list in
  let! end_ := list_end list in
  let! h := list_reverse_loop fuel h e end_ in
  (* swap (&list->head.next, &list->tail.prev) *)
  let! hn := ld_next h (head_of list) in
  let! tp := ld_prev h (tail_of list) in
  let! h := st_next h (head_of list) tp in
  let! h := st_prev h (tail_of list) hn in
  (* swap (&list->head.next->prev, &list->tail.prev->next) *)
  let! hn := ld_next h (head_of list) in
  let! tp := ld_prev h (tail_of list) in
  let! hnp := ld_prev h hn in
  let! tpn := ld_next h tp in
  let! h := st_prev h hn tpn in
  st_next h tp hnp.

(** ** Operations on lists with ordered elements

    [less a b aux] only reads its two elements: a boolean function of their
    addresses, the data of the elements and [aux] being fixed. *)
Section ordered_ops.
Variable less : addr -> addr -> bool.

(** [while ((a = list_next (a)) != b) if (less (a, list_prev (a))) return false;] *)
Fixpoint is_sorted_loop (fuel : nat) h (a b : addr) : outcome bool :=
  match fuel with
  | O => Err NoFuel
  | S fuel =>
      let! a := list_next h a in
      if a =? b then Ok true else
      let! p := list_prev h a in
      if less a p then Ok false else
      is_sorted_loop fuel h a b
  end.

Definition is_sorted (fuel : nat) h (a b : addr) : outcome bool :=
  if a =? b then Ok true else is_sorted_loop fuel h a b.

Fixpoint find_end_of_run_loop (fuel : nat) h (a b : addr) : outcome addr :=
  match fuel with
  | O => Err NoFuel
  | S fuel =>
      let! a := list_next h a in
      if a =? b then Ok a else
      let! p := list_prev h a in
      if negb (less a p) then find_end_of_run_loop fuel h a b else Ok a
  end.

Definition find_end_of_run (fuel : nat) h (a b : addr) : outcome addr :=
  assert! negb (a =? NULL) in
  assert! negb (b =? NULL) in
  assert! negb (a =? b) in
  find_end_of_run_loop fuel h a b.

Fixpoint inplace_merge_loop (fuel : nat) h (a0 a1b0 b1 : addr)
    : outcome (gmap addr list_elem) :=
  match fuel with
  | O => Err NoFuel
  | S fuel =>
      if negb (a0 =? a1b0) && negb (a1b0 =? b1) then
        if negb (less a1b0 a0) then
          let! a0 := list_next h a0 in
          inplace_merge_loop fuel h a0 a1b0 b1
        else
          let! a1b0 := list_next h a1b0 in
          let! p := list_prev h a1b0 in
          let! h := list_splice h a0 p a1b0 in
          inplace_merge_loop fuel h a0 a1b0 b1
      else Ok h
  end.

Definition inplace_merge (fuel : nat) h (a0 a1b0 b1 : addr)
    : outcome (gmap addr list_elem) :=
  assert! negb (a0 =? NULL) in
  assert! negb (a1b0 =? NULL) in
  assert! negb (b1 =? NULL) in
  let! c := is_sorted fuel h a0 a1b0 in
  assert! c in
  let! c := is_sorted fuel h a1b0 b1 in
  assert! c in
  inplace_merge_loop fuel h a0 a1b0 b1.

(** One pass of [list_sort]: the inner [for] loop; [f1] is the fuel of the
    routines it calls. *)
Fixpoint list_sort_pass (fuel f1 : nat) h (list a0 : addr) (output_run_cnt : Z)
    : outcome (Z * gmap addr list_elem) :=
  match fuel with
  | O => Err NoFuel
  | S fuel =>
      let! end_ := list_end list in
      if a0 =? end_ then Ok (output_run_cnt, h) else
      let output_run_cnt := u32 (output_run_cnt + 1) in
      let! a1b0 := find_end_of_run f1 h a0 end_ in
      if a1b0 =? end_ then Ok (output_run_cnt, h) else
      let! b1 := find_end_of_run f1 h a1b0 end_ in
      let! h := inplace_merge f1 h a0 a1b0 b1 in
      list_sort_pass fuel f1 h list b1 output_run_cnt
  end.

Fixpoint list_sort_loop (fuel f1 : nat) h (list : addr) : outcome (gmap addr list_elem) :=
  match fuel with
  | O => Err NoFuel
  | S fuel =>
      let! a0 := list_begin h list in
      let! (output_run_cnt, h) := list_sort_pass f1 f1 h list a0 0 in
      if 1 <? output_run_cnt then list_sort_loop fuel f1 h list else Ok h
  end.

Definition list_sort (fuel : nat) h (list : addr) : outcome (gmap addr list_elem) :=
  assert! negb (list =? NULL) in
  let! h := list_sort_loop fuel fuel h list in
  let! b := list_begin h list in
  let! e := list_end list in
  let! c := is_sorted fuel h b e in
  assert! c in
  Ok h.

Fixpoint insert_ordered_loop (fuel : nat) h (elem e end_ : addr) : outcome addr :=
  match fuel with
  | O => Err NoFuel
  | S fuel =>
      if e =? end_ then Ok e else
      if less elem e then Ok e else
      let! e := list_next h e in
      insert_ordered_loop fuel h elem e end_
  end.

Definition list_insert_ordered (fuel : nat) h (list elem : addr)
    : outcome (gmap addr list_elem) :=
  assert! negb (list =? NULL) in
  assert! negb (elem =? NULL) in
  let! e := list_begin h list in
  let! end_ := list_end list in
  let! e := insert_ordered_loop fuel h elem e end_ in
  list_insert h e elem.

Fixpoint list_unique_loop (fuel : nat) h (list duplicates elem : addr)
    : outcome (gmap addr list_elem) :=
  match fuel with
  | O => Err NoFuel
  | S fuel =>
      let! nx := list_next h elem in
      let! end_ := list_end list in
      if nx =? end_ then Ok h else
      if negb (less elem nx) && negb (less nx elem) then
        let! (_, h) := list_remove h nx in
        let! h := if negb (duplicates =? NULL)
                  then list_push_back h duplicates nx else Ok h in
        list_unique_loop fuel h list duplicates elem
      else list_unique_loop fuel h list duplicates nx
  end.

Definition list_unique (fuel : nat) h (list duplicates : addr)
    : outcome (gmap addr list_elem) :=
  assert! negb (list =? NULL) in
  let! em := list_empty h list in
  if em then Ok h else
  let! elem := list_begin h list in
  list_unique_loop fuel h list duplicates elem.

Fixpoint list_max_loop (fuel : nat) h (max e end_ : addr) : outcome addr :=
  match fuel with
  | O => Err NoFuel
  | S fuel =>
      if e =? end_ then Ok max else
      let max := if less max e then e else max in
      let! e := list_next h e in
      list_max_loop fuel h max e end_
  end.

Definition list_max (fuel : nat) h (list : addr) : outcome addr :=
  let! max := list_begin h list in
  let! end_ := list_end list in
  if max =? end_ then Ok max else
  let! e := list_next h max in
  list_max_loop fuel h max e end_.

Fixpoint list_min_loop (fuel : nat) h (min e end_ : addr) : outcome addr :=
  match fuel with
  | O => Err NoFuel
  | S fuel =>
      if e =? end_ then Ok min else
      let min := if less e min then e else min in
      let! e := list_next h e in
      list_min_loop fuel h min e end_
  end.

Definition list_min (fuel : nat) h (list : addr) : outcome addr :=
  let! min := list_begin h list in
  let! end_ := list_end list in
  if min =? end_ then Ok min else
  let! e := list_next h min in
  list_min_loop fuel h min e end_.
End ordered_ops.

(** ** Views of the heap *)
Definition nx h a : option addr := next <$> h !! a.
Definition pv h a : option addr := prev <$> h !! a.

Lemma heap_ext (h1 h2 : gmap addr list_elem) :
  (forall x, nx h1 x = nx h2 x) -> (forall x, pv h1 x = pv h2 x) -> h1 = h2.
Proof.
  intros Hn Hp. apply map_eq. intros x. specialize (Hn x). specialize (Hp x).
  unfold nx, pv in *. destruct (h1 !! x) as [[]|], (h2 !! x) as [[]|]; naive_solver.
Qed.

Lemma nx_is_Some h a : is_Some (nx h a) <-> is_Some (h !! a).
Proof. apply fmap_is_Some. Qed.
Lemma pv_is_Some h a : is_Some (pv h a) <-> is_Some (h !! a).
Proof. apply fmap_is_Some. Qed.

Lemma ld_next_ok h a v : nx h a = Some v -> ld_next h a = Ok v.
Proof. unfold nx, ld_next. destruct (h !! a); naive_solver. Qed.
Lemma ld_prev_ok h a v : pv h a = Some v -> ld_prev h a = Ok v.
Proof. unfold pv, ld_prev. destruct (h !! a); naive_solver. Qed.
Lemma st_next_ok h a v : is_Some (h !! a) -> st_next h a v = Ok (upd_next h a v).
Proof. unfold st_next. by intros [n ->]. Qed.
Lemma st_prev_ok h a v : is_Some (h !! a) -> st_prev h a v = Ok (upd_prev h a v).
Proof. unfold st_prev. by intros [n ->]. Qed.

Lemma pv_upd_next h a v x : pv (upd_next h a v) x = pv h x.
Proof. unfold pv, upd_next. rw lookup_alter. case_decide; subst; by destruct (h !! _). Qed.
Lemma nx_upd_prev h a v x : nx (upd_prev h a v) x = nx h x.
Proof. unfold nx, upd_prev. rw lookup_alter. case_decide; subst; by destruct (h !! _). Qed.
Lemma nx_upd_next h a v x :
  is_Some (h !! a) -> nx (upd_next h a v) x = if decide (x = a) then Some v else nx h x.
Proof.
  intros [n Hn]. unfold nx, upd_next. rw lookup_alter.
  repeat case_decide; simplify_eq; by rw ?Hn.
Qed.
Lemma pv_upd_prev h a v x :
  is_Some (h !! a) -> pv (upd_prev h a v) x = if decide (x = a) then Some v else pv h x.
Proof.
  intros [n Hn]. unfold pv, upd_prev. rw lookup_alter.
  repeat case_decide; simplify_eq; by rw ?Hn.
Qed.
Lemma upd_next_is_Some h a v x : is_Some (upd_next h a v !! x) <-> is_Some (h !! x).
Proof. by rw -!pv_is_Some pv_upd_next. Qed.
Lemma upd_prev_is_Some h a v x : is_Some (upd_prev h a v !! x) <-> is_Some (h !! x).
Proof. by rw -!nx_is_Some nx_upd_prev. Qed.

(** [link h a b] makes [b] the successor of [a]. *)
Definition link h a b : gmap addr list_elem := upd_prev (upd_next h a b) b a.

Lemma nx_link h a b x :
  is_Some (h !! a) -> nx (link h a b) x = if decide (x = a) then Some b else nx h x.
Proof. intros. unfold link. by rw nx_upd_prev nx_upd_next. Qed.
Lemma pv_link h a b x :
  is_Some (h !! b) -> pv (link h a b) x = if decide (x = b) then Some a else pv h x.
Proof. intros. unfold link. rw pv_upd_prev ?upd_next_is_Some // pv_upd_next //. Qed.
Lemma link_is_Some h a b x : is_Some (link h a b !! x) <-> is_Some (h !! x).
Proof. unfold link. by rw upd_prev_is_Some upd_next_is_Some. Qed.
Lemma link_is_Some_2 h a b x : is_Some (h !! x) -> is_Some (link h a b !! x).
Proof. by rw link_is_Some. Qed.
#[export] Hint Resolve link_is_Some_2 : core.
Lemma link_frame h a b x : x ≠ a -> x ≠ b -> link h a b !! x = h !! x.
Proof. intros. unfold link, upd_prev, upd_next. rw !lookup_alter_ne //. Qed.

(** ** Linked sequences of nodes *)
Fixpoint linked h (c : list addr) : Prop :=
  match c with
  | a :: ((b :: _) as t) => nx h a = Some b /\ pv h b = Some a /\ linked h t
  | _ => True
  end.

(** The junction of two consecutive segments. *)
Definition junct h (xs ys : list addr) : Prop :=
  forall a b, last xs = Some a -> head ys = Some b -> nx h a = Some b /\ pv h b = Some a.

Lemma linked_app h xs ys :
  linked h (xs ++ ys) <-> linked h xs /\ linked h ys /\ junct h xs ys.
Proof.
  induction xs as [|a xs IH].
  { simpl. unfold junct. naive_solver. }
  destruct xs as [|b xs].
  { simpl. destruct ys as [|b ys]; unfold junct; naive_solver. }
  rw /= in IH. simpl. rw IH. unfold junct. rw last_cons_cons. naive_solver.
Qed.

Lemma linked_frame h h' xs :
  (forall x, x ∈ xs -> last xs ≠ Some x -> nx h' x = nx h x) ->
  (forall x, x ∈ xs -> head xs ≠ Some x -> pv h' x = pv h x) ->
  NoDup xs -> linked h xs -> linked h' xs.
Proof.
  induction xs as [|a xs IH]; [done|]. destruct xs as [|b xs]; [done|].
  intros Hn Hp Hd (Hab & Hba & Hl).
  apply NoDup_cons in Hd as [Ha Hd]. split_and!.
  - rw Hn; [set_solver| |done]. rw last_cons_cons. intros E.
    by apply last_Some_elem_of in E.
  - rw Hp; [set_solver| |done]. simpl. set_solver.
  - apply IH; [| |done|done].
    + intros x Hx Hlx. apply Hn; [set_solver|by rw last_cons_cons].
    + intros x Hx Hlx. apply Hp; [set_solver|]. simpl. set_solver.
Qed.

(** A whole list, header nodes included. *)
Definition chain h (c : list addr) : Prop :=
  linked h c /\ NoDup c /\ (NULL ∉ c) /\
  (forall a, head c = Some a -> pv h a = Some NULL) /\
  (forall a, last c = Some a -> nx h a = Some NULL).

(** The [struct list] at [l] holds the elements [xs]. *)
Definition is_list h (l : addr) (xs : list addr) : Prop :=
  chain h (head_of l :: xs ++ [tail_of l]).

(** ** One step along a chain *)
Lemma chain_next h pre a b post :
  chain h (pre ++ a :: b :: post) -> nx h a = Some b.
Proof. intros (Hl & _). apply linked_app in Hl as (_ & Hl & _). apply Hl. Qed.
Lemma chain_prev h pre a b post :
  chain h (pre ++ a :: b :: post) -> pv h b = Some a.
Proof. intros (Hl & _). apply linked_app in Hl as (_ & Hl & _). apply Hl. Qed.

Lemma chain_in_heap h c a : chain h c -> a ∈ c -> is_Some (h !! a).
Proof.
  intros Hc Ha. apply list_elem_of_split in Ha as (pre & post & ->).
  destruct post as [|b post].
  - destruct Hc as (_ & _ & _ & _ & Hlast). rw -nx_is_Some Hlast; [by rw last_snoc|eauto].
  - rw -nx_is_Some (chain_next _ _ _ _ _ Hc). eauto.
Qed.

Lemma chain_not_null h c a : chain h c -> a ∈ c -> a ≠ NULL.
Proof. intros (_ & _ & Hn & _) Ha ->. done. Qed.

(** The previous link of a node is null exactly at the head, and so on. *)
Lemma chain_pv_Some h pre a post :
  chain h (pre ++ a :: post) -> exists p, pv h a = Some p /\ (p = NULL <-> pre = []).
Proof.
  intros Hc. destruct pre as [|p pre _] using rev_ind.
  - exists NULL. split; [|done]. apply Hc. done.
  - rw -app_assoc in Hc. exists p. split; [exact (chain_prev _ _ _ _ _ Hc)|].
    split; [|by destruct pre]. intros ->. exfalso.
    apply Hc. set_solver.
Qed.

Lemma chain_nx_Some h pre a post :
  chain h (pre ++ a :: post) -> exists n, nx h a = Some n /\ (n = NULL <-> post = []).
Proof.
  intros Hc. destruct post as [|n post].
  - exists NULL. split; [|done]. apply Hc. by rw last_snoc.
  - exists n. split; [exact (chain_next _ _ _ _ _ Hc)|].
    split; [|done]. intros ->. exfalso. apply Hc. set_solver.
Qed.

(** The classification of nodes used by the assertions of list.c. *)
Lemma chain_class h pre a post :
  chain h (pre ++ a :: post) ->
  is_head h a = Ok (bool_decide (pre = []) && negb (bool_decide (post = []))) /\
  is_interior h a = Ok (negb (bool_decide (pre = [])) && negb (bool_decide (post = []))) /\
  is_tail h a = Ok (negb (bool_decide (pre = [])) && bool_decide (post = [])).
Proof.
  intros Hc. destruct (chain_pv_Some _ _ _ _ Hc) as (p & Hp & Hp').
  destruct (chain_nx_Some _ _ _ _ Hc) as (n & Hn & Hn').
  have Ha : a ≠ NULL by (eapply chain_not_null; [done|set_solver]).
  unfold is_head, is_interior, is_tail.
  rw (proj2 (Z.eqb_neq _ _) Ha) (ld_prev_ok _ _ _ Hp) (ld_next_ok _ _ _ Hn) /=.
  rw -(bool_decide_ext _ _ Hp') -(bool_decide_ext _ _ Hn').
  destruct (Z.eqb_spec p NULL), (Z.eqb_spec n NULL); by repeat case_bool_decide.
Qed.

Lemma list_next_chain h pre a b post :
  chain h (pre ++ a :: b :: post) -> list_next h a = Ok b.
Proof.
  intros Hc. destruct (chain_class _ _ _ _ Hc) as (H1 & H2 & _).
  unfold list_next, oor. rw H1 H2 (ld_next_ok _ _ _ (chain_next _ _ _ _ _ Hc)) /=.
  by destruct (bool_decide (pre = [])).
Qed.

Lemma before_chain h pre a b post :
  chain h (pre ++ a :: b :: post) -> oor (is_interior h b) (is_tail h b) = Ok true.
Proof.
  intros Hc. rw cons_middle app_assoc in Hc.
  destruct (chain_class _ _ _ _ Hc) as (_ & H2 & H3). unfold oor. rw H2 H3 /=.
  rw (bool_decide_eq_false_2 (pre ++ [a] = [])) /=; [by destruct pre|].
  by destruct (bool_decide (post = [])).
Qed.

Lemma list_prev_chain h pre a b post :
  chain h (pre ++ a :: b :: post) -> list_prev h b = Ok a.
Proof.
  intros Hc. unfold list_prev. rw (before_chain _ _ _ _ _ Hc) /=.
  by rw (ld_prev_ok _ _ _ (chain_prev _ _ _ _ _ Hc)).
Qed.

Lemma is_interior_chain h pre p a n post :
  chain h (pre ++ p :: a :: n :: post) -> is_interior h a = Ok true.
Proof.
  intros Hc. rw cons_middle app_assoc in Hc.
  destruct (chain_class _ _ _ _ Hc) as (_ & -> & _).
  rw bool_decide_eq_false_2; [by destruct pre|]. done.
Qed.

(** ** Relinking *)
Lemma chain_frame h h' c :
  (forall x, x ∈ c -> h' !! x = h !! x) -> chain h c -> chain h' c.
Proof.
  intros Hf (Hl & Hd & Hn & Hh & Ht). split_and!; [|done|done| |].
  - eapply linked_frame; [| |done|done]; intros x Hx _; unfold nx, pv; by rw Hf.
  - intros a Ha. unfold pv. rw Hf; [by apply head_Some_elem_of|by apply Hh].
  - intros a Ha. unfold nx. rw Hf; [by apply last_Some_elem_of|by apply Ht].
Qed.

(** Linking [a] to [b] keeps a segment in which [a] can only be the last node
    and [b] the first. *)
Lemma linked_link h a b xs :
  is_Some (h !! a) -> is_Some (h !! b) -> NoDup xs ->
  (a ∈ xs -> last xs = Some a) -> (b ∈ xs -> head xs = Some b) ->
  linked h xs -> linked (link h a b) xs.
Proof.
  intros Ha Hb Hd HaX HbX. apply linked_frame; [| |done].
  - intros x Hx Hlx. rw nx_link //. case_decide; subst; naive_solver.
  - intros x Hx Hhx. rw pv_link //. case_decide; subst; naive_solver.
Qed.

Lemma junct_link h a b xs ys :
  is_Some (h !! a) -> is_Some (h !! b) -> last xs = Some a -> head ys = Some b ->
  junct (link h a b) xs ys.
Proof.
  intros Ha Hb Hx Hy a' b' Ha' Hb'. simplify_eq. rw nx_link // pv_link //.
  by rw !decide_True.
Qed.

Lemma junct_link_ne h a b xs ys :
  is_Some (h !! a) -> is_Some (h !! b) -> last xs ≠ Some a -> head ys ≠ Some b ->
  junct h xs ys -> junct (link h a b) xs ys.
Proof.
  intros Ha Hb Hx Hy HJ a' b' Ha' Hb'. rw nx_link // pv_link //.
  destruct (HJ _ _ Ha' Hb'). repeat case_decide; naive_solver.
Qed.

(** ** Insertion and removal *)
Lemma list_insert_link h pre p b post e :
  chain h (pre ++ p :: b :: post) -> e ∉ pre ++ p :: b :: post -> e ≠ NULL ->
  is_Some (h !! e) ->
  list_insert h b e = Ok (link (link h p e) e b).
Proof.
  intros Hc He Hne Hs. unfold list_insert. rw (before_chain _ _ _ _ _ Hc) /=.
  rw (proj2 (Z.eqb_neq _ _) Hne) /=.
  have Hpv := chain_prev _ _ _ _ _ Hc.
  have Hp : is_Some (h !! p) by (eapply chain_in_heap; [done|set_solver]).
  have Hb : is_Some (h !! b) by (eapply chain_in_heap; [done|set_solver]).
  have Heb : b ≠ e by set_solver. have Hep : p ≠ e by set_solver.
  rw (ld_prev_ok _ _ _ Hpv) /= st_prev_ok //= st_next_ok ?upd_prev_is_Some //=.
  rw (ld_prev_ok _ b p) /=.
  { rw pv_upd_next pv_upd_prev // decide_False //. }
  rw st_next_ok ?upd_next_is_Some ?upd_prev_is_Some //=.
  rw st_prev_ok ?upd_next_is_Some ?upd_next_is_Some ?upd_prev_is_Some //=.
  f_equal. apply heap_ext; intros x.
  - rw nx_upd_prev !nx_link ?link_is_Some // !nx_upd_next ?upd_next_is_Some ?upd_prev_is_Some //.
    rw nx_upd_prev. repeat case_decide; naive_solver.
  - rw !pv_link ?link_is_Some // pv_upd_prev ?upd_next_is_Some ?upd_next_is_Some ?upd_prev_is_Some //.
    rw !pv_upd_next pv_upd_prev //.
Qed.

Lemma head_app_cons {A} (xs ys : list A) x : head (xs ++ x :: ys) = head (xs ++ [x]).
Proof. by destruct xs. Qed.

Lemma head_piece {A} (xs ys : list A) x y :
  head (xs ++ x :: ys) = Some y -> y ∈ xs ++ [x].
Proof. rw head_app_cons. apply head_Some_elem_of. Qed.

Lemma last_piece {A} (xs ys : list A) x y :
  last (xs ++ x :: ys) = Some y -> y ∈ x :: ys.
Proof. rw last_app_cons. apply last_Some_elem_of. Qed.

Lemma chain_insert h pre p b post e :
  chain h (pre ++ p :: b :: post) -> e ∉ pre ++ p :: b :: post -> e ≠ NULL ->
  is_Some (h !! e) ->
  chain (link (link h p e) e b) (pre ++ p :: e :: b :: post).
Proof.
  intros Hc He Hne Hs.
  have Hp : is_Some (h !! p) by (eapply chain_in_heap; [done|set_solver]).
  have Hb : is_Some (h !! b) by (eapply chain_in_heap; [done|set_solver]).
  destruct Hc as (Hl & Hd & Hn & Hhd & Hlt).
  rw (cons_middle p) app_assoc in Hl Hd.
  apply linked_app in Hl as (Hl1 & Hl2 & _).
  apply NoDup_app in Hd as (Hd1 & Hd12 & Hd2).
  rw (cons_middle p) app_assoc not_elem_of_app in He. destruct He as [HeA HeB].
  split_and!.
  - rw (cons_middle p) app_assoc. apply linked_app. split_and!.
    + apply linked_link; [by auto..|done| | |]; [done| |].
      { intros Hb'. destruct (Hd12 _ Hb'). left. }
      apply linked_link; [done..| | |done]; [|done]. by rw last_snoc.
    + apply (linked_app _ [e] (b :: post)). split_and!; [done| |].
      * apply linked_link; [by auto..|done| | |]; [done|done|].
        apply linked_link; [done..| | |done]; [|done].
        intros Hp'. destruct (Hd12 p); [|done]. apply elem_of_app. right. left.
      * apply junct_link; by auto.
    + apply junct_link_ne; [by auto..| | |].
      * rw last_snoc. intros [= ->]. apply HeA, elem_of_app. right. left.
      * simpl. intros [= ->]. apply HeB. left.
      * apply junct_link; [done..| |done]. by rw last_snoc.
  - rw (cons_middle p) app_assoc. apply NoDup_app. split_and!; [done| |].
    + intros x Hx. rw elem_of_cons. intros [->|Hx']; [done|]. exact (Hd12 _ Hx Hx').
    + by constructor.
  - rw (cons_middle p) app_assoc not_elem_of_app not_elem_of_cons.
    rw (cons_middle p) app_assoc not_elem_of_app in Hn. destruct Hn. split_and!; [done|by apply not_eq_sym|done].
  - intros a Ha. have Ha' := head_piece _ _ _ _ Ha.
    rw !pv_link; [by auto..|]. rw !decide_False.
    + intros ->. apply (Hd12 b); [done|]. left.
    + by intros ->.
    + apply Hhd. by rw head_app_cons in Ha; rw head_app_cons.
  - intros a Ha. rw last_app_cons !last_cons_cons in Ha.
    have Ha' := last_Some_elem_of _ _ Ha.
    rw !nx_link; [by auto..|]. rw !decide_False.
    + by intros ->.
    + intros ->. apply (Hd12 p); [|done]. apply elem_of_app. right. left.
    + apply Hlt. by rw last_app_cons last_cons_cons.
Qed.

(** Removing the node between [p] and [n]. *)
Lemma list_remove_link h pre p e n post :
  chain h (pre ++ p :: e :: n :: post) ->
  list_remove h e = Ok (n, link h p n).
Proof.
  intros Hc. unfold list_remove. rw (is_interior_chain _ _ _ _ _ _ Hc) /=.
  have Hpv := chain_prev _ _ _ _ _ Hc.
  have Hp : is_Some (h !! p) by (eapply chain_in_heap; [done|set_solver]).
  have Hn : is_Some (h !! n) by (eapply chain_in_heap; [done|set_solver]).
  have Hd : p ≠ e /\ n ≠ e.
  { destruct Hc as (_ & Hd & _). apply NoDup_app in Hd as (_ & _ & Hd).
    apply NoDup_cons in Hd as [Hd1 Hd]. apply NoDup_cons in Hd as [Hd2 _]. set_solver. }
  destruct Hd as [Hpe Hne]. rw cons_middle app_assoc in Hc.
  have Hnx := chain_next _ _ _ _ _ Hc.
  rw (ld_prev_ok _ _ _ Hpv) (ld_next_ok _ _ _ Hnx) /= st_next_ok //=.
  rw (ld_next_ok _ e n) /=; [by rw nx_upd_next // decide_False|].
  rw (ld_prev_ok _ e p) /=; [by rw pv_upd_next|].
  rw st_prev_ok ?upd_next_is_Some //=.
  by rw (ld_next_ok _ e n) /=; [rw nx_upd_prev nx_upd_next // decide_False|].
Qed.

Lemma chain_remove h pre p e n post :
  chain h (pre ++ p :: e :: n :: post) -> chain (link h p n) (pre ++ p :: n :: post).
Proof.
  intros Hc.
  have Hp : is_Some (h !! p) by (eapply chain_in_heap; [done|set_solver]).
  have Hn : is_Some (h !! n) by (eapply chain_in_heap; [done|set_solver]).
  destruct Hc as (Hl & Hd & Hnull & Hhd & Hlt).
  rw (cons_middle p) app_assoc in Hl Hd Hnull.
  apply linked_app in Hl as (Hl1 & [_ [_ Hl2]] & _).
  apply NoDup_app in Hd as (Hd1 & Hd12 & Hd2).
  apply NoDup_cons in Hd2 as [Hen Hd2].
  have Hd12' : forall x, x ∈ pre ++ [p] -> x ∉ n :: post.
  { intros x Hx Hx'. apply (Hd12 _ Hx). by right. }
  split_and!.
  - rw (cons_middle p) app_assoc. apply linked_app. split_and!.
    + apply linked_link; [done..| | |done]; [by rw last_snoc|].
      intros H. destruct (Hd12' _ H). left.
    + apply linked_link; [done..| | |done]; [|done].
      intros H. destruct (Hd12' p); [|done]. apply elem_of_app. right. left.
    + apply junct_link; [done..| |done]. by rw last_snoc.
  - rw (cons_middle p) app_assoc. by apply NoDup_app.
  - rw (cons_middle p) app_assoc. rw not_elem_of_app. rw not_elem_of_app not_elem_of_cons in Hnull. tauto.
  - intros a Ha. have Ha' := head_piece _ _ _ _ Ha. rw pv_link // decide_False.
    + intros ->. apply (Hd12' n); [done|left].
    + apply Hhd. by rw head_app_cons in Ha; rw head_app_cons.
  - intros a Ha. rw last_app_cons !last_cons_cons in Ha.
    have Ha' := last_Some_elem_of _ _ Ha. rw nx_link // decide_False.
    + intros ->. apply (Hd12' p); [|done]. apply elem_of_app. right. left.
    + apply Hlt. by rw last_app_cons !last_cons_cons.
Qed.

(** ** Splicing

    [A ++ B ++ S ++ C] becomes [A ++ S ++ B ++ C]: the segment [S] moves in
    front of the segment [B].  [p], [q], [m] are the last nodes of [A], [B],
    [S] and [b], [f], [n] the first nodes of [B], [S], [C]. *)
Lemma elem_ne (X : list addr) x y : x ∉ X -> y ∈ X -> x ≠ y.
Proof. by intros Hx Hy ->. Qed.

Lemma head_app_last {A} (X Y : list A) x : last X = Some x -> head (X ++ Y) = head X.
Proof. by destruct X. Qed.

Section splice.
Context (h : gmap addr list_elem) (A B S C : list addr) (p q m b f n : addr).
Context (HA : last A = Some p) (HB : last B = Some q) (HS : last S = Some m).
Context (HB' : head B = Some b) (HS' : head S = Some f) (HC' : head C = Some n).
Context (Hc : chain h (A ++ B ++ S ++ C)).

Let hs : gmap addr list_elem := link (link (link h q n) p f) m b.

Lemma splice_mem :
  p ∈ A /\ q ∈ B /\ m ∈ S /\ b ∈ B /\ f ∈ S /\ n ∈ C.
Proof using HA HB HS HB' HS' HC'.
  split_and!; first [by apply last_Some_elem_of | by apply head_Some_elem_of].
Qed.

Lemma splice_disj :
  (NoDup A /\ NoDup B /\ NoDup S /\ NoDup C) /\
  (forall x, x ∈ A -> x ∉ B /\ x ∉ S /\ x ∉ C) /\
  (forall x, x ∈ B -> x ∉ A /\ x ∉ S /\ x ∉ C) /\
  (forall x, x ∈ S -> x ∉ A /\ x ∉ B /\ x ∉ C) /\
  (forall x, x ∈ C -> x ∉ A /\ x ∉ B /\ x ∉ S).
Proof using Hc.
  destruct Hc as (_ & Hd & _). clear Hc.
  apply NoDup_app in Hd as (HA1 & HA2 & Hd).
  apply NoDup_app in Hd as (HB1 & HB2 & Hd).
  apply NoDup_app in Hd as (HS1 & HS2 & HC1).
  split_and!; [done..| | | |]; intros x Hx; split_and!; intros Hy;
    first [ apply (HA2 x); [done|]; rw !elem_of_app; tauto
          | apply (HB2 x); [done|]; rw !elem_of_app; tauto
          | apply (HS2 x); [done|]; rw ?elem_of_app; tauto ].
Qed.

Lemma splice_in_heap x : x ∈ A ++ B ++ S ++ C -> is_Some (h !! x).
Proof using Hc. by apply chain_in_heap. Qed.

Lemma splice_heap :
  is_Some (h !! p) /\ is_Some (h !! q) /\ is_Some (h !! m) /\
  is_Some (h !! b) /\ is_Some (h !! f) /\ is_Some (h !! n).
Proof using All.
  destruct splice_mem as (? & ? & ? & ? & ? & ?).
  split_and!; apply splice_in_heap; rw !elem_of_app; tauto.
Qed.

(** The six nodes at the cuts; only [b], [q] and [f], [m] can coincide. *)
Lemma splice_ne :
  (p ≠ q /\ p ≠ m /\ q ≠ m) /\ (b ≠ f /\ b ≠ n /\ f ≠ n).
Proof using All.
  destruct splice_mem as (? & ? & ? & ? & ? & ?).
  destruct splice_disj as (_ & DA & DB & DS & DC).
  destruct (DA p) as (? & ? & ?); [done|]. destruct (DB q) as (? & ? & ?); [done|].
  destruct (DB b) as (? & ? & ?); [done|]. destruct (DS f) as (? & ? & ?); [done|].
  split_and!; [apply (elem_ne B)|apply (elem_ne S)|apply (elem_ne S)
              |apply (elem_ne S)|apply (elem_ne C)|apply (elem_ne C)]; done.
Qed.

Lemma linked_splice : linked hs (A ++ S ++ B ++ C).
Proof using All.
  destruct splice_mem as (Hp & Hq & Hm & Hb & Hf & Hn).
  destruct splice_disj as ((NA & NB & NS & NC) & DA & DB & DS & DC).
  destruct splice_heap as (Xp & Xq & Xm & Xb & Xf & Xn).
  destruct splice_ne as ((N1 & N2 & N3) & (N4 & N5 & N6)).
  have Hseg : forall X, NoDup X -> (q ∈ X -> last X = Some q) -> (n ∈ X -> head X = Some n) ->
     (p ∈ X -> last X = Some p) -> (f ∈ X -> head X = Some f) ->
     (m ∈ X -> last X = Some m) -> (b ∈ X -> head X = Some b) ->
     linked h X -> linked hs X.
  { intros X HX ? ? ? ? ? ? Hl. do 3 (apply linked_link; [by auto..|done|done|]). done. }
  destruct Hc as (Hl & _). clear Hc.
  apply linked_app in Hl as (LA & Hl & _). apply linked_app in Hl as (LB & Hl & _).
  apply linked_app in Hl as (LS & LC & _).
  have [? [? ?]] := DA p Hp. have [? [? ?]] := DB q Hq. have [? [? ?]] := DB b Hb.
  have [? [? ?]] := DS m Hm. have [? [? ?]] := DS f Hf. have [? [? ?]] := DC n Hn.
  have hJ : forall X Y x y, last X = Some x -> head Y = Some y ->
     nx hs x = Some y -> pv hs y = Some x -> junct hs X Y.
  { intros X Y x y Hx Hy ? ? x' y' Hx' Hy'. by simplify_eq. }
  have Hhead : forall (X Y : list addr) x, head X = Some x -> head (X ++ Y) = Some x
    by intros [|? ?].
  rw !linked_app. split_and!; try (apply Hseg; done).
  - apply (hJ _ _ q n); [done..| |]; rw /hs ?nx_link ?pv_link; auto; repeat case_decide; congruence.
  - apply (hJ _ _ m b); [done|by apply Hhead| |];
      rw /hs ?nx_link ?pv_link; auto; repeat case_decide; congruence.
  - apply (hJ _ _ p f); [done|by apply Hhead| |];
      rw /hs ?nx_link ?pv_link; auto; repeat case_decide; congruence.
Qed.

Lemma chain_splice : chain hs (A ++ S ++ B ++ C).
Proof using All.
  split; [apply linked_splice|].
  destruct splice_mem as (Hp & Hq & Hm & Hb & Hf & Hn).
  destruct splice_disj as (_ & DA & DB & DS & DC).
  destruct splice_heap as (Xp & Xq & Xm & Xb & Xf & Xn).
  destruct Hc as (_ & Hd & Hnull & Hhd & Hlt).
  have HP : A ++ B ++ S ++ C ≡ₚ A ++ S ++ B ++ C.
  { f_equiv. rw !(assoc_L (++)). f_equiv. apply (comm (++)). }
  split_and!.
  - by rw -HP.
  - by rw -HP.
  - intros a Ha. rw (head_app_last _ _ _ HA) in Ha.
    have HaA : a ∈ A by apply head_Some_elem_of. destruct (DA _ HaA) as (? & ? & ?).
    rw /hs !pv_link; auto.
    rw !decide_False; [by apply (elem_ne B)|by apply (elem_ne S)|by apply (elem_ne C)|].
    apply Hhd. by rw (head_app_last _ _ _ HA).
  - intros a. rw !last_app. destruct (last C) as [c|] eqn:HC; [|by apply last_None in HC; subst].
    intros [= ->]. have HaC : a ∈ C by apply last_Some_elem_of.
    destruct (DC _ HaC) as (? & ? & ?). rw /hs !nx_link; auto.
    rw !decide_False; [by apply (elem_ne S)|by apply (elem_ne A)|by apply (elem_ne B)|].
    apply Hlt. by rw !last_app HC.
Qed.

Lemma list_splice_link : list_splice h b f n = Ok hs.
Proof using All.
  destruct splice_mem as (Hp & Hq & Hm & Hb & Hf & Hn).
  destruct splice_heap as (Xp & Xq & Xm & Xb & Xf & Xn).
  destruct splice_ne as ((N1 & N2 & N3) & (N4 & N5 & N6)).
  apply last_Some in HA as [A' EA]. apply last_Some in HB as [B' EB]. apply last_Some in HS as [S' ES].
  apply head_Some in HB' as [B2 EB2]. apply head_Some in HS' as [S2 ES2]. apply head_Some in HC' as [C2 EC].
  have C1 : chain h (A' ++ p :: b :: B2 ++ S ++ C).
  { move: Hc. by rw EA EB2 /= -app_assoc. }
  have C2' : chain h ((A ++ B') ++ q :: f :: S2 ++ C).
  { move: Hc. by rw EB ES2 /= -!app_assoc. }
  have C3 : chain h ((A ++ B ++ S') ++ m :: n :: C2).
  { move: Hc. by rw ES EC /= -!app_assoc. }
  unfold list_splice. rw (before_chain _ _ _ _ _ C1) /=.
  rw (proj2 (Z.eqb_neq _ _) N6) (list_prev_chain _ _ _ _ _ C3) /=.
  have If : is_interior h f = Ok true.
  { have : exists g G, S2 ++ C = g :: G by (rw EC; destruct S2; eauto).
    intros (g & G & EG). rw EG in C2'. by eapply is_interior_chain. }
  have Im : is_interior h m = Ok true.
  { destruct S' as [|s S' _] using rev_ind.
    - rw app_nil_r in C3. move: C3. rw EB. rw -!app_assoc /=. rw app_assoc. apply is_interior_chain.
    - move: C3. rw -!app_assoc /= !app_assoc. apply is_interior_chain. }
  rw If Im /=.
  have Pf := chain_prev _ _ _ _ _ C2'. have Nm := chain_next _ _ _ _ _ C3.
  have Pb := chain_prev _ _ _ _ _ C1.
  rw (ld_prev_ok _ _ _ Pf) (ld_next_ok _ _ _ Nm) /= st_next_ok //=.
  rw (ld_next_ok _ m n) /=; [by rw nx_upd_next // decide_False // => ?; subst|].
  rw (ld_prev_ok _ f q) /=; [by rw pv_upd_next|].
  rw st_prev_ok ?upd_next_is_Some //=. rw -/(link h q n).
  rw (ld_prev_ok _ b p) /=; [by rw pv_link // decide_False|].
  rw st_prev_ok; [by auto|]. simpl. rw st_next_ok; [by rw upd_prev_is_Some; auto|]. simpl.
  rw (ld_prev_ok _ b p) /=.
  { rw pv_upd_next pv_upd_prev; [by auto|]. rw decide_False // pv_link // decide_False //. }
  rw st_next_ok; [by rw upd_next_is_Some upd_prev_is_Some; auto|]. simpl.
  rw st_prev_ok; [by rw !upd_next_is_Some upd_prev_is_Some; auto|].
  f_equal. apply heap_ext; intros x.
  - rw /hs nx_upd_prev !nx_link; auto.
    rw !nx_upd_next; [by rw ?(upd_next_is_Some, upd_prev_is_Some); auto..|].
    rw nx_upd_prev nx_link //. repeat case_decide; congruence.
  - rw /hs !pv_link; auto.
    rw pv_upd_prev; [by rw !upd_next_is_Some upd_prev_is_Some; auto|].
    rw !pv_upd_next pv_upd_prev; [by auto|]. rw pv_link //.
Qed.
End splice.

(** ** Lists as seen by their users *)

(** [nd l ys]: the node at which the suffix [ys] of list [l] starts. *)
Definition nd (l : addr) (ys : list addr) : addr := default (tail_of l) (head ys).

(** Everything outside [X] is unchanged. *)
Definition same_outside (X : list addr) (h h' : gmap addr list_elem) : Prop :=
  forall x, x ∉ X -> h' !! x = h !! x.

Lemma same_outside_trans X h1 h2 h3 :
  same_outside X h1 h2 -> same_outside X h2 h3 -> same_outside X h1 h3.
Proof. intros H1 H2 x Hx. by rw H2 // H1. Qed.

Lemma same_outside_refl X h : same_outside X h h.
Proof. done. Qed.

Lemma same_outside_link X h a b : a ∈ X -> b ∈ X -> same_outside X h (link h a b).
Proof. intros Ha Hb x Hx. apply link_frame; intros ->; done. Qed.

Lemma same_outside_weaken X Y h h' :
  (forall x, x ∈ X -> x ∈ Y) -> same_outside X h h' -> same_outside Y h h'.
Proof. intros HXY HX x Hx. apply HX. naive_solver. Qed.

(** All the nodes of a list. *)
Definition nodes (l : addr) (xs : list addr) : list addr := head_of l :: xs ++ [tail_of l].

Lemma is_list_not_null h l xs : is_list h l xs -> l ≠ NULL.
Proof. intros Hc. eapply chain_not_null; [exact Hc|left]. Qed.

(** Cutting a list between two of its nodes. *)
Lemma is_list_cut h l xs ys :
  is_list h l (xs ++ ys) ->
  exists pre p post, nodes l xs = pre ++ p :: [tail_of l] /\
    ys ++ [tail_of l] = nd l ys :: post /\
    chain h (pre ++ p :: nd l ys :: post) /\
    head_of l :: xs = pre ++ [p].
Proof.
  intros Hc. destruct (exists_last (l := head_of l :: xs)) as (pre & p & E); [done|].
  exists pre, p, (tail (ys ++ [tail_of l])).
  have E2 : ys ++ [tail_of l] = nd l ys :: tail (ys ++ [tail_of l]) by destruct ys.
  split_and!; [|done| |done].
  - unfold nodes. by rw app_comm_cons E -app_assoc.
  - move: Hc. unfold is_list. by rw -app_assoc app_comm_cons E E2 -app_assoc.
Qed.

Lemma is_list_nodes_app h l xs ys pre p post :
  head_of l :: xs = pre ++ [p] -> ys ++ [tail_of l] = nd l ys :: post ->
  is_list h l (xs ++ ys) <-> chain h (pre ++ p :: nd l ys :: post).
Proof.
  intros E1 E2. unfold is_list. by rw -app_assoc app_comm_cons E1 E2 -app_assoc.
Qed.

Lemma list_begin_spec h l xs : is_list h l xs -> list_begin h l = Ok (nd l xs).
Proof.
  intros Hc. unfold list_begin. rw (proj2 (Z.eqb_neq _ _) (is_list_not_null _ _ _ Hc)) /=.
  apply ld_next_ok. destruct xs as [|x xs]; [apply (chain_next _ [] _ _ [] Hc)|].
  apply (chain_next _ [] _ _ (xs ++ [tail_of l]) Hc).
Qed.

Lemma list_end_spec h l xs : is_list h l xs -> list_end l = Ok (tail_of l).
Proof.
  intros Hc. unfold list_end. by rw (proj2 (Z.eqb_neq _ _) (is_list_not_null _ _ _ Hc)).
Qed.

Lemma list_next_spec h l xs x ys :
  is_list h l (xs ++ x :: ys) -> list_next h x = Ok (nd l ys).
Proof.
  intros Hc. rw cons_middle app_assoc in Hc.
  destruct (is_list_cut _ _ _ _ Hc) as (pre & p & post & _ & _ & Hc' & E).
  rw app_comm_cons in E. apply app_inj_tail in E as [_ <-]. by eapply list_next_chain.
Qed.

Lemma list_prev_spec h l xs x ys :
  is_list h l (xs ++ x :: ys) -> list_prev h (nd l ys) = Ok x.
Proof.
  intros Hc. rw cons_middle app_assoc in Hc.
  destruct (is_list_cut _ _ _ _ Hc) as (pre & p & post & _ & _ & Hc' & E).
  rw app_comm_cons in E. apply app_inj_tail in E as [_ <-]. by eapply list_prev_chain.
Qed.

(** A node of the list is the end node only at the end. *)
Lemma nd_tail h l xs ys : is_list h l (xs ++ ys) -> (nd l ys =? tail_of l) = bool_decide (ys = []).
Proof.
  intros (_ & Hd & _). destruct ys as [|y ys]; simpl; [apply Z.eqb_refl|].
  apply Z.eqb_neq. intros E. unfold nd in E. simpl in E.
  apply NoDup_cons in Hd as [_ Hd]. apply NoDup_app in Hd as (_ & Hd & _).
  apply (Hd y); [apply elem_of_app; right; left|rw E; left].
Qed.

Lemma list_empty_spec h l xs : is_list h l xs -> list_empty h l = Ok (bool_decide (xs = [])).
Proof.
  intros Hc. unfold list_empty. rw (list_begin_spec _ _ _ Hc) (list_end_spec _ _ _ Hc) /=.
  by rw (nd_tail h l [] xs).
Qed.

Lemma list_size_loop_spec h l xs ys cnt fuel :
  is_list h l (xs ++ ys) -> (length ys < fuel)%nat -> 0 <= cnt < 2 ^ 32 ->
  list_size_loop fuel h (nd l ys) (tail_of l) cnt = Ok (u32 (cnt + Z.of_nat (length ys))).
Proof.
  revert xs cnt fuel. induction ys as [|y ys IH]; intros xs cnt [|fuel] Hc Hf Hcnt; try (simpl in *; lia);
    simpl list_size_loop; rw (nd_tail _ _ _ _ Hc) /=.
  - by rw Z.add_0_r wrap_small.
  - unfold nd at 1. simpl. rw (list_next_spec _ _ _ _ _ Hc) /=. rw cons_middle app_assoc in Hc.
    simpl in Hf. rw (IH _ _ _ Hc); [lia|apply wrap_range; lia|].
    unfold wrap. rw Zplus_mod_idemp_l. do 2 f_equal. lia.
Qed.
