(* ===== verification/KListSpec.v ===== *)
(** * lib/kernel/list.c: what every operation does

    Correctness of the operations of [KList] against sequences of elements:
    construction, insertion, removal, traversal, reversal, and the ordered
    operations (insertion, natural merge sort, duplicate removal, extrema). *)
From S2P Require Import Prelude KList.

(** ** Construction, insertion, removal *)
Lemma list_init_spec h l :
  l ≠ NULL -> tail_of l ≠ NULL -> is_Some (h !! head_of l) -> is_Some (h !! tail_of l) ->
  exists h', list_init h l = Ok h' /\ is_list h' l [] /\ same_outside (nodes l []) h h'.
Proof.
  intros Hn Ht [nh Hh] [nt Ht'].
  have Hne : head_of l ≠ tail_of l by (unfold head_of, tail_of; lia).
  unfold list_init. rw (proj2 (Z.eqb_neq _ _) Hn) /=.
  rw st_prev_ok ?Hh; [by eauto|]. simpl. rw st_next_ok; [by rw upd_prev_is_Some Hh; eauto|]. simpl.
  rw st_prev_ok; [by rw upd_next_is_Some upd_prev_is_Some Ht'; eauto|]. simpl.
  rw st_next_ok; [by rw upd_prev_is_Some upd_next_is_Some upd_prev_is_Some Ht'; eauto|].
  eexists. split_and!; [done| |].
  - unfold is_list, chain. simpl. unfold nx, pv, upd_next, upd_prev.
    split_and!; try done.
    + simplify_map_eq; by rw ?Hh.
    + simplify_map_eq; by rw ?Ht'.
    + by apply NoDup_cons; split; [set_solver|apply NoDup_singleton].
    + set_solver.
    + intros a [= <-]. simplify_map_eq; by rw ?Hh.
    + intros a [= <-]. simplify_map_eq; by rw ?Ht'.
  - intros x Hx. unfold upd_next, upd_prev.
    rw !lookup_alter_ne //; set_solver.
Qed.

Lemma list_insert_spec h l xs ys e :
  is_list h l (xs ++ ys) -> e ∉ nodes l (xs ++ ys) -> e ≠ NULL -> is_Some (h !! e) ->
  exists h', list_insert h (nd l ys) e = Ok h' /\ is_list h' l (xs ++ e :: ys) /\
    same_outside (e :: nodes l (xs ++ ys)) h h'.
Proof.
  intros Hc He Hne Hs.
  destruct (is_list_cut _ _ _ _ Hc) as (pre & p & post & _ & E2 & Hc' & E1).
  have En : nodes l (xs ++ ys) = pre ++ p :: nd l ys :: post.
  { unfold nodes. by rw -app_assoc app_comm_cons E1 E2 -app_assoc. }
  rw En in He *. rw (list_insert_link _ _ _ _ _ _ Hc') //.
  eexists. split_and!; [done| |].
  - move: (chain_insert _ _ _ _ _ _ Hc' He Hne Hs). unfold is_list.
    by rw -app_assoc app_comm_cons E1 /= E2 -app_assoc.
  - apply (same_outside_trans _ _ (link h p e)); apply same_outside_link; set_solver.
Qed.

Lemma list_remove_spec h l xs e ys :
  is_list h l (xs ++ e :: ys) ->
  exists h', list_remove h e = Ok (nd l ys, h') /\ is_list h' l (xs ++ ys) /\
    same_outside (nodes l (xs ++ ys)) h h' /\ is_Some (h' !! e).
Proof.
  intros Hc. destruct (is_list_cut _ _ _ _ Hc) as (pre & p & post & _ & E2 & Hc' & E1).
  have E3 : ys ++ [tail_of l] = nd l ys :: tail (ys ++ [tail_of l]) by destruct ys.
  have Epost : post = nd l ys :: tail (ys ++ [tail_of l]).
  { rw -E3. simpl in E2. by injection E2. }
  rw Epost in Hc'. change (nd l (e :: ys)) with e in Hc'.
  rw (list_remove_link _ _ _ _ _ _ Hc'). eexists. split_and!; [done| | |].
  - move: (chain_remove _ _ _ _ _ _ Hc'). unfold is_list.
    by rw -app_assoc app_comm_cons E1 E3 -app_assoc.
  - have En : nodes l (xs ++ ys) = pre ++ p :: nd l ys :: tail (ys ++ [tail_of l]).
    { unfold nodes. by rw -app_assoc app_comm_cons E1 E3 -app_assoc. }
    rw En. apply same_outside_link; set_solver.
  - apply link_is_Some_2. eapply chain_in_heap; [exact Hc'|set_solver].
Qed.

Lemma list_push_front_spec h l xs e :
  is_list h l xs -> e ∉ nodes l xs -> e ≠ NULL -> is_Some (h !! e) ->
  exists h', list_push_front h l e = Ok h' /\ is_list h' l (e :: xs) /\
    same_outside (e :: nodes l xs) h h'.
Proof.
  intros Hc ???. unfold list_push_front. rw (list_begin_spec _ _ _ Hc) /=.
  by apply (list_insert_spec h l [] xs).
Qed.

Lemma list_push_back_spec h l xs e :
  is_list h l xs -> e ∉ nodes l xs -> e ≠ NULL -> is_Some (h !! e) ->
  exists h', list_push_back h l e = Ok h' /\ is_list h' l (xs ++ [e]) /\
    same_outside (e :: nodes l xs) h h'.
Proof.
  intros Hc ???. unfold list_push_back. rw (list_end_spec _ _ _ Hc) /=.
  have := list_insert_spec h l xs [] e. rw app_nil_r. apply; done.
Qed.

Lemma list_front_spec h l x xs : is_list h l (x :: xs) -> list_front h l = Ok x.
Proof.
  intros Hc. unfold list_front. rw (list_empty_spec _ _ _ Hc) /=.
  apply ld_next_ok. apply (chain_next _ [] _ _ (xs ++ [tail_of l]) Hc).
Qed.

Lemma list_back_spec h l xs x : is_list h l (xs ++ [x]) -> list_back h l = Ok x.
Proof.
  intros Hc. unfold list_back. rw (list_empty_spec _ _ _ Hc) /=.
  rw bool_decide_eq_false_2; [by destruct xs|]. simpl. apply ld_prev_ok.
  move: Hc. unfold is_list. rw -app_assoc /= app_comm_cons. apply chain_prev.
Qed.

Lemma list_pop_front_spec h l x xs :
  is_list h l (x :: xs) ->
  exists h', list_pop_front h l = Ok (x, h') /\ is_list h' l xs /\
    same_outside (nodes l xs) h h' /\ is_Some (h' !! x).
Proof.
  intros Hc. unfold list_pop_front. rw (list_front_spec _ _ _ _ Hc) /=.
  destruct (list_remove_spec h l [] x xs Hc) as (h' & -> & ? & ? & ?). eauto.
Qed.

Lemma list_pop_back_spec h l x xs :
  is_list h l (xs ++ [x]) ->
  exists h', list_pop_back h l = Ok (x, h') /\ is_list h' l xs /\
    same_outside (nodes l xs) h h' /\ is_Some (h' !! x).
Proof.
  intros Hc. unfold list_pop_back. rw (list_back_spec _ _ _ _ Hc) /=.
  destruct (list_remove_spec h l xs x [] Hc) as (h' & -> & Hl & ? & ?).
  rw app_nil_r in Hl. rw app_nil_r in H. eauto.
Qed.

(** ** Ordered insertion and extrema *)
Section ordered.
Context (less : addr -> addr -> bool).

(** The reference insertion: before the first element that [elem] is less
    than. *)
Fixpoint insert_ref (e : addr) (xs : list addr) : list addr :=
  match xs with
  | [] => [e]
  | x :: xs => if less e x then e :: x :: xs else x :: insert_ref e xs
  end.

Lemma insert_ordered_loop_spec h l xs ys e fuel :
  is_list h l (xs ++ ys) -> (length ys < fuel)%nat ->
  exists zs ws, ys = zs ++ ws /\ insert_ref e ys = zs ++ e :: ws /\
    insert_ordered_loop less fuel h e (nd l ys) (tail_of l) = Ok (nd l ws).
Proof.
  revert xs fuel. induction ys as [|y ys IH]; intros xs [|fuel] Hc Hf; simpl in Hf; try lia;
    simpl insert_ordered_loop; rw (nd_tail _ _ _ _ Hc) /=.
  - exists [], []. done.
  - change (nd l (y :: ys)) with y. destruct (less e y) eqn:E.
    { exists [], (y :: ys). done. }
    rw (list_next_spec _ _ _ _ _ Hc) /=. rw cons_middle app_assoc in Hc.
    destruct (IH _ fuel Hc) as (zs & ws & -> & -> & ->); [lia|].
    by exists (y :: zs), ws.
Qed.

Lemma list_insert_ordered_ref h l xs e fuel :
  is_list h l xs -> e ∉ nodes l xs -> e ≠ NULL -> is_Some (h !! e) -> (length xs < fuel)%nat ->
  exists h', list_insert_ordered less fuel h l e = Ok h' /\ is_list h' l (insert_ref e xs) /\
    same_outside (e :: nodes l xs) h h'.
Proof.
  intros Hc He Hne Hs Hf. unfold list_insert_ordered.
  rw (proj2 (Z.eqb_neq _ _) (is_list_not_null _ _ _ Hc)) (proj2 (Z.eqb_neq _ _) Hne) /=.
  rw (list_begin_spec _ _ _ Hc) (list_end_spec _ _ _ Hc) /=.
  destruct (insert_ordered_loop_spec h l [] xs e fuel Hc Hf) as (zs & ws & -> & -> & ->). simpl.
  by apply list_insert_spec.
Qed.

Lemma insert_ref_perm e xs : insert_ref e xs ≡ₚ e :: xs.
Proof.
  induction xs as [|x xs IH]; simpl; [done|]. destruct (less e x); [done|].
  rw IH. by apply Permutation_swap.
Qed.

(** [xle a b]: [b] is not less than [a]. *)
Definition xle (a b : addr) : Prop := less b a = false.

Lemma insert_ref_sorted e xs :
  (forall a b, less a b = true -> less b a = false) ->
  Sorted xle xs -> Sorted xle (insert_ref e xs).
Proof.
  intros Hasym. induction 1 as [|x xs Hs IH Hx]; simpl; [by repeat constructor|].
  destruct (less e x) eqn:E.
  - constructor; [by constructor|]. constructor. by apply Hasym.
  - constructor; [done|]. destruct xs as [|y xs]; simpl; [by constructor|].
    inversion_clear Hx. destruct (less e y); by constructor.
Qed.

(** The reference maximum and minimum: the first extremal element. *)
Definition max_ref (m : addr) (xs : list addr) : addr :=
  fold_left (fun m e => if less m e then e else m) xs m.
Definition min_ref (m : addr) (xs : list addr) : addr :=
  fold_left (fun m e => if less e m then e else m) xs m.

Lemma list_max_loop_spec h l xs ys m fuel :
  is_list h l (xs ++ ys) -> (length ys < fuel)%nat ->
  list_max_loop less fuel h m (nd l ys) (tail_of l) = Ok (max_ref m ys).
Proof.
  revert xs m fuel. induction ys as [|y ys IH]; intros xs m [|fuel] Hc Hf; simpl in Hf; try lia;
    simpl list_max_loop; rw (nd_tail _ _ _ _ Hc) /=; [done|].
  change (nd l (y :: ys)) with y. rw (list_next_spec _ _ _ _ _ Hc) /=.
  rw cons_middle app_assoc in Hc. apply (IH _ _ _ Hc). lia.
Qed.

Lemma list_min_loop_spec h l xs ys m fuel :
  is_list h l (xs ++ ys) -> (length ys < fuel)%nat ->
  list_min_loop less fuel h m (nd l ys) (tail_of l) = Ok (min_ref m ys).
Proof.
  revert xs m fuel. induction ys as [|y ys IH]; intros xs m [|fuel] Hc Hf; simpl in Hf; try lia;
    simpl list_min_loop; rw (nd_tail _ _ _ _ Hc) /=; [done|].
  change (nd l (y :: ys)) with y. rw (list_next_spec _ _ _ _ _ Hc) /=.
  rw cons_middle app_assoc in Hc. apply (IH _ _ _ Hc). lia.
Qed.

Lemma list_max_ref h l xs fuel :
  is_list h l xs -> (length xs < fuel)%nat ->
  list_max less fuel h l =
    Ok (match xs with [] => tail_of l | x :: xs => max_ref x xs end).
Proof.
  intros Hc Hf. unfold list_max. rw (list_begin_spec _ _ _ Hc) (list_end_spec _ _ _ Hc) /=.
  rw (nd_tail h l [] xs Hc). destruct xs as [|x xs]; simpl; [done|].
  change (nd l (x :: xs)) with x. rw (list_next_spec h l [] x xs Hc) /=.
  apply (list_max_loop_spec h l [x]); [done|]. simpl in Hf. lia.
Qed.

Lemma list_min_ref h l xs fuel :
  is_list h l xs -> (length xs < fuel)%nat ->
  list_min less fuel h l =
    Ok (match xs with [] => tail_of l | x :: xs => min_ref x xs end).
Proof.
  intros Hc Hf. unfold list_min. rw (list_begin_spec _ _ _ Hc) (list_end_spec _ _ _ Hc) /=.
  rw (nd_tail h l [] xs Hc). destruct xs as [|x xs]; simpl; [done|].
  change (nd l (x :: xs)) with x. rw (list_next_spec h l [] x xs Hc) /=.
  apply (list_min_loop_spec h l [x]); [done|]. simpl in Hf. lia.
Qed.

(** A strict weak ordering, which is what [list_less_func] promises. *)
Class StrictWeak := {
  less_asym a b : less a b = true -> less b a = false;
  less_ntrans a b c : less a b = false -> less b c = false -> less a c = false }.

Lemma less_irrefl `{!StrictWeak} a : less a a = false.
Proof. destruct (less a a) eqn:E; [|done]. rewrite <-E. by apply less_asym. Qed.

(** Contrapositive of [less_ntrans]. *)
Lemma less_split `{!StrictWeak} a b c : less a c = true -> less b c = false -> less a b = true.
Proof.
  intros H1 H2. destruct (less a b) eqn:E; [done|].
  by rw (less_ntrans _ _ _ E H2) in H1.
Qed.

(** The maximum is the first of the greatest elements. *)
Lemma max_ref_spec `{!StrictWeak} m xs :
  exists zs ws, m :: xs = zs ++ max_ref m xs :: ws /\
    (forall z, z ∈ zs -> less z (max_ref m xs) = true) /\
    (forall w, w ∈ ws -> less (max_ref m xs) w = false).
Proof.
  revert m. induction xs as [|y xs IH]; intros m; simpl.
  { exists [], []. split_and!; [done|set_solver..]. }
  destruct (less m y) eqn:E.
  - destruct (IH y) as (zs & ws & Eq & I1 & I2). fold (max_ref y xs) in *.
    exists (m :: zs), ws. split_and!; [by rw Eq| |done].
    intros z [->|Hz]%elem_of_cons; [|by apply I1].
    destruct zs as [|z zs]; simpl in Eq; injection Eq as Hy Hxs; [by rw -Hy|]. subst z.
    destruct (less m (max_ref y xs)) eqn:E2; [done|].
    have Hz : less y (max_ref y xs) = true by (apply I1; left).
    by rw (less_ntrans _ _ _ E2 (less_asym _ _ Hz)) in E.
  - destruct (IH m) as (zs & ws & Eq & I1 & I2). fold (max_ref m xs) in *.
    destruct zs as [|z zs]; simpl in Eq; injection Eq as Hy Hxs.
    + exists [], (y :: xs). split_and!; [by rw -Hy|set_solver|].
      intros w [->|Hw]%elem_of_cons; [by rw -Hy|apply I2; by rw -Hxs].
    + subst z. exists (m :: y :: zs), ws. split_and!; [by rw {1}Hxs| |done].
      have Hz : less m (max_ref m xs) = true by (apply I1; left).
      intros z' [->|[->|Hz']%elem_of_cons]%elem_of_cons; [done| |apply I1; by right].
      destruct (less y (max_ref m xs)) eqn:E2; [done|].
      by rw (less_ntrans _ _ _ E E2) in Hz.
Qed.

Lemma min_ref_spec `{!StrictWeak} m xs :
  exists zs ws, m :: xs = zs ++ min_ref m xs :: ws /\
    (forall z, z ∈ zs -> less (min_ref m xs) z = true) /\
    (forall w, w ∈ ws -> less w (min_ref m xs) = false).
Proof.
  revert m. induction xs as [|y xs IH]; intros m; simpl.
  { exists [], []. split_and!; [done|set_solver..]. }
  destruct (less y m) eqn:E.
  - destruct (IH y) as (zs & ws & Eq & I1 & I2). fold (min_ref y xs) in *.
    exists (m :: zs), ws. split_and!; [by rw Eq| |done].
    intros z [->|Hz]%elem_of_cons; [|by apply I1].
    destruct zs as [|z zs]; simpl in Eq; injection Eq as Hy Hxs; [by rw -Hy|]. subst z.
    have Hz : less (min_ref y xs) y = true by (apply I1; left).
    destruct (less (min_ref y xs) m) eqn:E2; [done|].
    by rw (less_ntrans _ _ _ (less_asym _ _ Hz) E2) in E.
  - destruct (IH m) as (zs & ws & Eq & I1 & I2). fold (min_ref m xs) in *.
    destruct zs as [|z zs]; simpl in Eq; injection Eq as Hy Hxs.
    + exists [], (y :: xs). split_and!; [by rw -Hy|set_solver|].
      intros w [->|Hw]%elem_of_cons; [by rw -Hy|apply I2; by rw -Hxs].
    + subst z. exists (m :: y :: zs), ws. split_and!; [by rw {1}Hxs| |done].
      have Hz : less (min_ref m xs) m = true by (apply I1; left).
      intros z' [->|[->|Hz']%elem_of_cons]%elem_of_cons; [done| |apply I1; by right].
      destruct (less (min_ref m xs) y) eqn:E2; [done|].
      by rw (less_ntrans _ _ _ E2 E) in Hz.
Qed.

(** ** Natural merge sort *)

(** The run that continues after [p], and the rest. *)
Fixpoint take_run (p : addr) (ys : list addr) : list addr * list addr :=
  match ys with
  | [] => ([], [])
  | y :: ys' => if less y p then ([], ys) else let (r, t) := take_run y ys' in (y :: r, t)
  end.

(** The reference merge; the elements of the first run win ties. *)
Fixpoint merge (xs ys : list addr) : list addr :=
  let fix go ys :=
    match xs, ys with
    | [], _ => ys
    | _, [] => xs
    | x :: xs', y :: ys' => if less y x then y :: go ys' else x :: merge xs' ys
    end in go ys.

Lemma merge_nil_l ys : merge [] ys = ys.
Proof. by destruct ys. Qed.
Lemma merge_nil_r xs : merge xs [] = xs.
Proof. by destruct xs. Qed.
Lemma merge_cons x xs y ys :
  merge (x :: xs) (y :: ys) = if less y x then y :: merge (x :: xs) ys else x :: merge xs (y :: ys).
Proof. done. Qed.

#[local] Arguments merge : simpl never.

Lemma merge_perm xs ys : merge xs ys ≡ₚ xs ++ ys.
Proof.
  revert ys. induction xs as [|x xs IHx]; intros ys; [by rw merge_nil_l|].
  induction ys as [|y ys IHy]; [by rw merge_nil_r app_nil_r|]. rw merge_cons.
  destruct (less y x); [rw IHy; by apply (Permutation_middle (x :: xs))|by rw IHx].
Qed.

Lemma merge_sorted xs ys :
  (forall a b, less a b = true -> less b a = false) ->
  Sorted xle xs -> Sorted xle ys -> Sorted xle (merge xs ys).
Proof.
  intros Hasym. revert ys. induction xs as [|x xs IHx]; intros ys Hx Hy; [by rw merge_nil_l|].
  induction ys as [|y ys IHy]; [by rw merge_nil_r|]. rw merge_cons.
  inversion_clear Hx as [|? ? Hx1 Hx2]. inversion_clear Hy as [|? ? Hy1 Hy2].
  destruct (less y x) eqn:E; constructor; [by apply IHy| |by apply IHx; [|constructor]|].
  - destruct ys as [|y' ys]; [rw merge_nil_r; constructor; by apply Hasym|].
    rw merge_cons. destruct (less y' x); constructor; [by inversion Hy2|by apply Hasym].
  - destruct xs as [|x' xs]; [rw merge_nil_l; by constructor|].
    rw merge_cons. destruct (less y x'); constructor; [done|by inversion Hx2].
Qed.

Lemma take_run_app p ys r t : take_run p ys = (r, t) -> ys = r ++ t.
Proof.
  revert p r t. induction ys as [|y ys IH]; intros p r t; simpl; [naive_solver|].
  destruct (less y p); [naive_solver|]. destruct (take_run y ys) eqn:E. intros. simplify_eq/=.
  f_equal. by eapply IH.
Qed.

Lemma take_run_sorted p ys : Sorted xle (p :: (take_run p ys).1).
Proof.
  revert p. induction ys as [|y ys IH]; intros p; simpl; [by repeat constructor|].
  destruct (less y p) eqn:E; simpl; [by repeat constructor|].
  specialize (IH y). destruct (take_run y ys); simpl in *. by constructor; [|constructor].
Qed.

Lemma find_end_of_run_loop_spec h l xs p ys fuel :
  is_list h l (xs ++ p :: ys) -> (length ys < fuel)%nat ->
  find_end_of_run_loop less fuel h p (tail_of l) = Ok (nd l (take_run p ys).2).
Proof.
  revert xs p fuel. induction ys as [|y ys IH]; intros xs p [|fuel] Hc Hf; simpl in Hf; try lia;
    simpl find_end_of_run_loop; rw (list_next_spec _ _ _ _ _ Hc) /=.
  - unfold nd at 1. simpl. by rw Z.eqb_refl.
  - have Hc' := Hc. rw cons_middle app_assoc in Hc'. rw (nd_tail _ _ _ _ Hc') /=.
    rw (list_prev_spec _ _ _ _ _ Hc) /=. change (nd l (y :: ys)) with y.
    destruct (less y p); simpl; [done|]. rw (IH _ _ _ Hc'); [lia|].
    by destruct (take_run y ys).
Qed.

Lemma find_end_of_run_spec h l xs p ys fuel :
  is_list h l (xs ++ p :: ys) -> (length ys < fuel)%nat ->
  find_end_of_run less fuel h p (tail_of l) = Ok (nd l (take_run p ys).2).
Proof.
  intros Hc Hf. unfold find_end_of_run.
  have Hp : p ≠ NULL by (eapply chain_not_null; [exact Hc|set_solver]).
  have Ht : tail_of l ≠ NULL by (eapply chain_not_null; [exact Hc|set_solver]).
  have Hpt := nd_tail _ _ _ _ Hc. change (nd l (p :: ys)) with p in Hpt.
  rw (proj2 (Z.eqb_neq _ _) Hp) (proj2 (Z.eqb_neq _ _) Ht) Hpt /=.
  by eapply find_end_of_run_loop_spec.
Qed.

(** Two nodes of a list that start suffixes of different lengths differ. *)
Lemma nd_neq h l xs y ys zs :
  is_list h l (xs ++ (y :: ys) ++ zs) -> (nd l ((y :: ys) ++ zs) =? nd l zs) = false.
Proof.
  intros (_ & Hd & _). apply Z.eqb_neq. change (nd l ((y :: ys) ++ zs)) with y. intros E.
  apply NoDup_cons in Hd as [_ Hd]. rw -!app_assoc in Hd. apply NoDup_app in Hd as (_ & _ & Hd).
  simpl in Hd. apply NoDup_cons in Hd as [Hd _]. apply Hd. rw E elem_of_app. right.
  destruct zs; left.
Qed.

Lemma is_sorted_loop_spec h l xs p ys zs fuel :
  is_list h l (xs ++ p :: ys ++ zs) -> Sorted xle (p :: ys) -> (length ys < fuel)%nat ->
  is_sorted_loop less fuel h p (nd l zs) = Ok true.
Proof.
  revert xs p fuel. induction ys as [|y ys IH]; intros xs p [|fuel] Hc Hs Hf; simpl in Hf; try lia;
    simpl is_sorted_loop; rw (list_next_spec _ _ _ _ _ Hc) /=.
  - by rw Z.eqb_refl.
  - have Hc' := Hc. rw cons_middle app_assoc in Hc'. rw (nd_neq _ _ _ _ _ _ Hc').
    rw (list_prev_spec _ _ _ _ _ Hc) /=. change (nd l (y :: ys ++ zs)) with y.
    inversion_clear Hs as [|? ? Hs1 Hs2]. inversion_clear Hs2 as [|? ? Hle].
    rw Hle. apply (IH _ _ _ Hc'); [done|lia].
Qed.

Lemma is_sorted_spec h l xs ys zs fuel :
  is_list h l (xs ++ ys ++ zs) -> Sorted xle ys -> (length ys < fuel)%nat ->
  is_sorted less fuel h (nd l (ys ++ zs)) (nd l zs) = Ok true.
Proof.
  intros Hc Hs Hf. unfold is_sorted. destruct ys as [|y ys]; [by rw /= Z.eqb_refl|].
  rw (nd_neq _ _ _ _ _ _ Hc). change (nd l ((y :: ys) ++ zs)) with y.
  simpl in Hf. eapply is_sorted_loop_spec; [done|done|lia].
Qed.

Lemma inplace_merge_loop_spec h l pre xs ys post fuel :
  is_list h l (pre ++ xs ++ ys ++ post) -> (length xs + length ys < fuel)%nat ->
  exists h', inplace_merge_loop less fuel h (nd l (xs ++ ys ++ post)) (nd l (ys ++ post)) (nd l post) = Ok h' /\
    is_list h' l (pre ++ merge xs ys ++ post) /\
    same_outside (nodes l (pre ++ xs ++ ys ++ post)) h h'.
Proof.
  revert h pre xs ys. induction fuel as [|fuel IH]; intros h pre xs ys Hc Hf; [lia|].
  simpl inplace_merge_loop.
  destruct xs as [|x xs].
  { simpl. rw Z.eqb_refl /= merge_nil_l. eauto using same_outside_refl. }
  rw (nd_neq _ _ _ _ _ _ Hc) /=.
  destruct ys as [|y ys].
  { simpl. rw Z.eqb_refl /=. eauto using same_outside_refl. }
  have Hc2 := Hc. rw app_assoc in Hc2. rw (nd_neq _ _ _ _ _ _ Hc2) /=.
  change (nd l ((y :: ys) ++ post)) with y. change (nd l ((x :: xs) ++ (y :: ys) ++ post)) with x.
  change (nd l (y :: ys ++ post)) with y. change (nd l (x :: xs ++ y :: ys ++ post)) with x.
  simpl in Hf. rw merge_cons. destruct (less y x) eqn:E; simpl.
  - rw (list_next_spec _ _ _ _ _ Hc2) /=. rw (list_prev_spec _ _ _ _ _ Hc2) /=.
    destruct (exists_last (l := head_of l :: pre)) as (A & p & EA); [done|].
    destruct (exists_last (l := x :: xs)) as (B & q & EB); [done|].
    have HS := list_splice_link h (head_of l :: pre) (x :: xs) [y] ((ys ++ post) ++ [tail_of l])
       p q y x y (nd l (ys ++ post)).
    have HC := chain_splice h (head_of l :: pre) (x :: xs) [y] ((ys ++ post) ++ [tail_of l])
       p q y x y (nd l (ys ++ post)).
    move: HS HC. set hs := link _ _ _ => HS HC.
    have Hchain : chain h ((head_of l :: pre) ++ (x :: xs) ++ [y] ++ (ys ++ post) ++ [tail_of l]).
    { move: Hc. unfold is_list. by app_norm. }
    have Hhead : head ((ys ++ post) ++ [tail_of l]) = Some (nd l (ys ++ post)) by destruct (ys ++ post).
    rw EA EB !last_snoc in HS HC. rw -EA -EB in HS HC.
    rw HS //=. specialize (HC eq_refl eq_refl eq_refl eq_refl eq_refl Hhead Hchain).
    destruct (IH hs (pre ++ [y]) (x :: xs) ys) as (h' & Hm & Hl & Hso).
    { move: HC. unfold is_list. by app_norm. }
    { simpl. lia. }
    exists h'. split_and!.
    + done.
    + move: Hl. by rw -app_assoc.
    + apply (same_outside_trans _ _ hs).
      * have Hin : forall z, (z ∈ head_of l :: pre \/ z ∈ x :: xs \/ z = y \/
            z ∈ (ys ++ post) ++ [tail_of l]) -> z ∈ nodes l (pre ++ x :: xs ++ y :: ys ++ post).
        { intros z. unfold nodes. set_solver. }
        have Hp : p ∈ head_of l :: pre by (rw EA; set_solver).
        have Hq : q ∈ x :: xs by (rw EB; set_solver).
        have Hn : nd l (ys ++ post) ∈ (ys ++ post) ++ [tail_of l] by apply head_Some_elem_of.
        have Hx : x ∈ x :: xs by left.
        apply (same_outside_trans _ _ (link (link h q (nd l (ys ++ post))) p y));
          [apply (same_outside_trans _ _ (link h q (nd l (ys ++ post))))|];
          apply same_outside_link; apply Hin; tauto.
      * eapply same_outside_weaken; [|exact Hso]. intros z. unfold nodes. set_solver.
  - rw (list_next_spec h l pre x (xs ++ y :: ys ++ post) Hc) /=.
    destruct (IH h (pre ++ [x]) xs (y :: ys)) as (h' & Hm & Hl & Hso).
    { move: Hc. by rw -app_assoc. }
    { simpl. lia. }
    exists h'. split_and!; [exact Hm| |].
    + move: Hl. by rw -app_assoc.
    + move: Hso. by rw -app_assoc.
Qed.

(** The reference for one pass: merge runs pairwise, count the output runs. *)
Fixpoint sort_pass (fuel : nat) (xs : list addr) : nat * list addr :=
  match fuel, xs with
  | S fuel, a :: xs' =>
      let (r, t) := take_run a xs' in
      match t with
      | [] => (1%nat, a :: r)
      | b :: t' =>
          let (r2, t2) := take_run b t' in
          let (n, out) := sort_pass fuel t2 in
          (S n, merge (a :: r) (b :: r2) ++ out)
      end
  | _, _ => (0%nat, xs)
  end.

(** Number of maximal runs of a sequence. *)
Fixpoint breaks (p : addr) (ys : list addr) : nat :=
  match ys with
  | [] => O
  | y :: ys' => ((if less y p then 1 else 0) + breaks y ys')%nat
  end.
Definition nruns (xs : list addr) : nat :=
  match xs with [] => O | x :: xs' => S (breaks x xs') end.

Lemma breaks_take_run p ys :
  breaks p ys = match (take_run p ys).2 with [] => 0%nat | b :: t => S (breaks b t) end.
Proof.
  revert p. induction ys as [|y ys IH]; intros p; simpl; [done|].
  destruct (less y p); simpl; [done|]. rw IH. by destruct (take_run y ys).
Qed.

Lemma breaks_sorted_app p ys o :
  Sorted xle (p :: ys) -> (breaks p (ys ++ o) <= nruns o)%nat.
Proof.
  revert p. induction ys as [|y ys IH]; intros p Hs; simpl.
  - destruct o as [|b o]; simpl; [lia|]. destruct (less b p); lia.
  - inversion_clear Hs as [|? ? Hs1 Hs2]. inversion_clear Hs2 as [|? ? Hle]. rw Hle /=. by apply IH.
Qed.

Lemma nruns_sorted_app s o : Sorted xle s -> (nruns (s ++ o) <= S (nruns o))%nat.
Proof. destruct s as [|x s]; simpl; [lia|]. intros Hs. have := breaks_sorted_app _ _ o Hs. lia. Qed.

Lemma nruns_length xs : (nruns xs <= length xs)%nat.
Proof.
  destruct xs as [|x xs]; simpl; [lia|]. enough (breaks x xs <= length xs)%nat by lia.
  revert x. induction xs as [|y xs IH]; intros x; simpl; [lia|]. specialize (IH y). destruct (less y x); lia.
Qed.

Lemma nruns_sorted xs : (nruns xs <= 1)%nat -> Sorted xle xs.
Proof.
  destruct xs as [|x xs]; simpl; [by constructor|]. revert x.
  induction xs as [|y xs IH]; intros x Hr; simpl in *; [by repeat constructor|].
  destruct (less y x) eqn:E; [lia|]. constructor; [apply IH; lia|by constructor].
Qed.

Lemma sort_pass_props fuel xs n out :
  (forall a b, less a b = true -> less b a = false) ->
  (length xs <= fuel)%nat -> sort_pass fuel xs = (n, out) ->
  out ≡ₚ xs /\ (nruns xs = 2 * n \/ S (nruns xs) = 2 * n)%nat /\ (nruns out <= n)%nat.
Proof.
  intros Hasym. revert xs n out. induction fuel as [|fuel IH]; intros [|a xs] n out Hlen E;
    simpl in Hlen; try lia; try (simplify_eq/=; split_and!; [done|by left|done]).
  simpl in E. destruct (take_run a xs) as [r t] eqn:Er.
  have Ex := take_run_app _ _ _ _ Er. have Hsr := take_run_sorted a xs.
  have Hb := breaks_take_run a xs. rw Er /= in Hsr Hb. destruct t as [|b t].
  { rw app_nil_r in Ex. simplify_eq. split_and!; [done|simpl; lia|].
    have := nruns_sorted_app (a :: r) [] Hsr. rw app_nil_r. simpl. lia. }
  destruct (take_run b t) as [r2 t2] eqn:Er2.
  have Et := take_run_app _ _ _ _ Er2. have Hsr2 := take_run_sorted b t.
  have Hb2 := breaks_take_run b t. rw Er2 /= in Hsr2 Hb2.
  destruct (sort_pass fuel t2) as [n' out'] eqn:Ep. simplify_eq.
  rw !length_app /= !length_app in Hlen.
  destruct (IH t2 n' out') as (I1 & I2 & I3); [lia|done|].
  have Hm := merge_sorted _ _ Hasym Hsr Hsr2. split_and!.
  - rw merge_perm I1. by app_norm.
  - simpl. rw Hb Hb2. destruct t2 as [|c t2]; simpl in I2; lia.
  - have := nruns_sorted_app _ out' Hm. lia.
Qed.

Lemma list_sort_pass_spec h l pre ys cnt fuel f1 :
  (forall a b, less a b = true -> less b a = false) ->
  is_list h l (pre ++ ys) -> (length ys < fuel)%nat -> (length ys < f1)%nat ->
  0 <= cnt -> cnt + Z.of_nat (length ys) < 2 ^ 32 ->
  exists h', list_sort_pass less fuel f1 h l (nd l ys) cnt
      = Ok (cnt + Z.of_nat (sort_pass (length ys) ys).1, h') /\
    is_list h' l (pre ++ (sort_pass (length ys) ys).2) /\
    same_outside (nodes l (pre ++ ys)) h h'.
Proof.
  intros Hasym.
  enough (forall k, (length ys <= k)%nat -> is_list h l (pre ++ ys) -> (length ys < fuel)%nat ->
    (length ys < f1)%nat -> 0 <= cnt -> cnt + Z.of_nat (length ys) < 2 ^ 32 ->
    exists h', list_sort_pass less fuel f1 h l (nd l ys) cnt
      = Ok (cnt + Z.of_nat (sort_pass k ys).1, h') /\
    is_list h' l (pre ++ (sort_pass k ys).2) /\
    same_outside (nodes l (pre ++ ys)) h h') as Hk by (apply Hk; lia).
  revert h pre ys cnt. induction fuel as [|fuel IH]; intros h pre ys cnt k Hk Hc Hf Hf1 Hc0 Hc1; [lia|].
  simpl list_sort_pass. rw (list_end_spec _ _ _ Hc) /= (nd_tail _ _ _ _ Hc).
  destruct ys as [|a ys]; destruct k as [|k]; simpl in Hk, Hf, Hf1, Hc1; try lia;
    rw ?Z.add_0_r; try (simpl; rw ?Z.add_0_r; eauto using same_outside_refl; fail).
  change (nd l (a :: ys)) with a. rw bool_decide_eq_false_2 //.
  rw wrap_small; [lia|]. rw (find_end_of_run_spec _ _ _ _ _ _ Hc); [lia|].
  simpl sort_pass. destruct (take_run a ys) as [r t] eqn:Er.
  have Ex := take_run_app _ _ _ _ Er. have Hsr := take_run_sorted a ys. rw Er /= in Hsr.
  cbn [obind snd]. subst ys. rw length_app in Hk Hf Hf1 Hc1.
  have Hct : is_list h l ((pre ++ a :: r) ++ t) by (move: Hc; app_norm).
  rw (nd_tail _ _ _ _ Hct). destruct t as [|b t].
  { rw app_nil_r in Hc *. exists h. by split_and!. }
  change (nd l (b :: t)) with b. rw bool_decide_eq_false_2 //. simpl in Hk, Hf, Hf1, Hc1.
  rw (find_end_of_run_spec _ _ _ _ _ _ Hct); [lia|]. cbn [obind].
  destruct (take_run b t) as [r2 t2] eqn:Er2.
  have Et := take_run_app _ _ _ _ Er2. have Hsr2 := take_run_sorted b t. rw Er2 /= in Hsr2.
  cbn [snd]. subst t. rw length_app in Hk Hf Hf1 Hc1.
  have Hm : is_list h l (pre ++ (a :: r) ++ (b :: r2) ++ t2) by (move: Hc; app_norm).
  have Hm2 : is_list h l ((pre ++ a :: r) ++ (b :: r2) ++ t2) by (move: Hc; app_norm).
  unfold inplace_merge.
  have Na : a ≠ NULL by (eapply chain_not_null; [exact Hc|set_solver]).
  have Nb : b ≠ NULL by (eapply chain_not_null; [exact Hc|set_solver]).
  have Nt : nd l t2 ≠ NULL.
  { eapply chain_not_null; [exact Hc|]. unfold nd. destruct t2; set_solver. }
  rw (proj2 (Z.eqb_neq _ _) Na) (proj2 (Z.eqb_neq _ _) Nb) (proj2 (Z.eqb_neq _ _) Nt) /=.
  have S1 := is_sorted_spec h l pre (a :: r) ((b :: r2) ++ t2) f1 Hm Hsr.
  have S2 := is_sorted_spec h l _ (b :: r2) t2 f1 Hm2 Hsr2.
  cbn [nd head app default length] in S1, S2. unfold nd in S1, S2. cbn [head default app] in S1, S2.
  rw S1; [lia|]. rw S2; [lia|]. cbn [obind ASSERT].
  destruct (inplace_merge_loop_spec h l pre (a :: r) (b :: r2) t2 f1 Hm) as (h1 & Hr & Hl & Ho); [simpl; lia|].
  unfold nd in Hr at 1 2. cbn [head default app] in Hr. rw Hr. cbn [obind].
  have Hl' : is_list h1 l ((pre ++ merge (a :: r) (b :: r2)) ++ t2) by (move: Hl; app_norm).
  destruct (IH h1 (pre ++ merge (a :: r) (b :: r2)) t2 (cnt + 1) k) as (h2 & Hr2 & Hl2 & Ho2); [lia|exact Hl'|lia|lia|lia|lia|].
  rw Hr2. destruct (sort_pass k t2) as [n out]. cbn [fst snd] in *.
  exists h2. split_and!.
  - do 2 f_equal. lia.
  - move: Hl2. by app_norm.
  - eapply same_outside_trans; [exact Ho|]. eapply same_outside_weaken; [|exact Ho2].
    intros z. unfold nodes. rw !(elem_of_cons, elem_of_app).
    rw (elem_of_Permutation_proper z _ _ (merge_perm (a :: r) (b :: r2))) !(elem_of_cons, elem_of_app). tauto.
Qed.

Lemma list_sort_loop_spec h l xs fuel f1 :
  (forall a b, less a b = true -> less b a = false) ->
  is_list h l xs -> (nruns xs < fuel)%nat -> (length xs < f1)%nat -> Z.of_nat (length xs) < 2 ^ 32 ->
  exists h' ys, list_sort_loop less fuel f1 h l = Ok h' /\ is_list h' l ys /\ ys ≡ₚ xs /\
    Sorted xle ys /\ same_outside (nodes l xs) h h'.
Proof.
  intros Hasym. revert h xs. induction fuel as [|fuel IH]; intros h xs Hc Hf Hf1 Hlen; [lia|].
  simpl. rw (list_begin_spec _ _ _ Hc) /=.
  destruct (list_sort_pass_spec h l [] xs 0 f1 f1 Hasym) as (h1 & Hp & Hl & Ho); [done..|lia|lia|].
  rw Hp Z.add_0_l. cbn [obind]. destruct (sort_pass (length xs) xs) as [n out] eqn:E. cbn [fst snd app] in *.
  destruct (sort_pass_props _ _ _ _ Hasym (le_n _) E) as (HP & Hn & Hr).
  destruct (Z.ltb_spec 1 (Z.of_nat n)).
  - destruct (IH h1 out Hl) as (h' & ys & Hs & Hl' & HP' & Hsort & Ho'); [lia|by rw (Permutation_length HP)|by rw (Permutation_length HP)|].
    exists h', ys. split_and!; [done|done|by trans out|done|].
    eapply same_outside_trans; [exact Ho|]. eapply same_outside_weaken; [|exact Ho'].
    intros z. unfold nodes. by rw !elem_of_cons !elem_of_app HP.
  - exists h1, out. split_and!; try done. apply nruns_sorted. lia.
Qed.

Lemma list_sort_local h l xs fuel :
  (forall a b, less a b = true -> less b a = false) ->
  is_list h l xs -> (length xs < fuel)%nat -> Z.of_nat (length xs) < 2 ^ 32 ->
  exists h' ys, list_sort less fuel h l = Ok h' /\ is_list h' l ys /\ ys ≡ₚ xs /\
    Sorted xle ys /\ same_outside (nodes l xs) h h'.
Proof.
  intros Hasym Hc Hf Hlen. unfold list_sort.
  rw (proj2 (Z.eqb_neq _ _) (is_list_not_null _ _ _ Hc)) /=.
  destruct (list_sort_loop_spec h l xs fuel fuel Hasym Hc) as (h' & ys & -> & Hl & HP & Hs & Ho); [|done|done|].
  { have := nruns_length xs. lia. }
  simpl. rw (list_begin_spec _ _ _ Hl) (list_end_spec _ _ _ Hl) /=.
  have HS := is_sorted_spec h' l [] ys [] fuel. rw !app_nil_r in HS. change (nd l []) with (tail_of l) in HS.
  rw HS //=; [by rw (Permutation_length HP)|]. by exists h', ys.
Qed.

(** ** Removing adjacent duplicates *)

(** The reference: the elements kept after [elem], and the ones removed. *)
Fixpoint unique_ref (elem : addr) (xs : list addr) : list addr * list addr :=
  match xs with
  | [] => ([], [])
  | x :: xs =>
      if negb (less elem x) && negb (less x elem)
      then let (k, d) := unique_ref elem xs in (k, x :: d)
      else let (k, d) := unique_ref x xs in (x :: k, d)
  end.

(** The [duplicates] argument: a null pointer, or a list of its own. *)
Definition dup_list h (d : addr) (ds : list addr) (l : addr) (xs : list addr) : Prop :=
  d = NULL \/ (is_list h d ds /\ forall x, x ∈ nodes d ds -> x ∉ nodes l xs).

Lemma nodes_middle l xs y ys : nodes l (xs ++ y :: ys) ≡ₚ y :: nodes l (xs ++ ys).
Proof.
  unfold nodes. rw -!app_assoc. etrans; [|apply perm_swap]. f_equiv. symmetry. apply Permutation_middle.
Qed.

Lemma list_unique_loop_spec h l d ds pre e ys fuel :
  is_list h l (pre ++ e :: ys) -> dup_list h d ds l (pre ++ e :: ys) -> (length ys < fuel)%nat ->
  exists h', list_unique_loop less fuel h l d e = Ok h' /\
    is_list h' l (pre ++ e :: (unique_ref e ys).1) /\
    (d = NULL \/ is_list h' d (ds ++ (unique_ref e ys).2)).
Proof.
  revert h pre e ds fuel. induction ys as [|y ys IH]; intros h pre e ds [|fuel] Hc Hd Hf;
    simpl in Hf; try lia; simpl list_unique_loop; rw (list_next_spec _ _ _ _ _ Hc) (list_end_spec _ _ _ Hc) /=.
  { unfold nd. rw /= Z.eqb_refl. exists h. split_and!; [done|done|].
    destruct Hd as [?|[? _]]; [by left|right; by rw app_nil_r]. }
  have Hc' : is_list h l ((pre ++ [e]) ++ y :: ys) by (move: Hc; app_norm).
  rw (nd_tail _ _ _ _ Hc') bool_decide_eq_false_2 //. change (nd l (y :: ys)) with y.
  destruct (negb (less e y) && negb (less y e)) eqn:E; last first.
  { destruct (IH h (pre ++ [e]) y ds fuel) as (h' & -> & Hl & Hds); [done|by move: Hd; app_norm|lia|].
    destruct (unique_ref y ys) as [k dd]. simpl in *. exists h'. split_and!; [done| |done].
    move: Hl. by app_norm. }
  destruct (list_remove_spec _ _ _ _ _ Hc') as (h1 & -> & Hl1 & Ho1 & Hs1). cbn [obind].
  have Hny : y ∉ nodes l ((pre ++ [e]) ++ ys) /\ y ≠ NULL.
  { destruct Hc' as (_ & Hnd & Hnull & _). unfold nodes. split; [|intros ->; apply Hnull; set_solver].
    eapply NoDup_cons. by rw -nodes_middle. }
  destruct Hny as [Hny Hyn]. app_norm. rw -app_assoc /= in Hl1 Ho1 Hny.
  destruct Hd as [->|[Hd Hdisj]].
  { simpl. destruct (IH h1 pre e ds fuel Hl1) as (h' & -> & Hl & _); [by left|lia|].
    destruct (unique_ref e ys). eauto. }
  rw (proj2 (Z.eqb_neq _ _) (is_list_not_null _ _ _ Hd)) /=.
  have Hd1 : is_list h1 d ds.
  { eapply chain_frame; [|exact Hd]. intros x Hx. apply Ho1. have := Hdisj _ Hx.
    unfold nodes. rw !(elem_of_cons, elem_of_app). tauto. }
  have Hyd : y ∉ nodes d ds.
  { intros Hx. apply (Hdisj _ Hx). unfold nodes. rw !(elem_of_cons, elem_of_app). tauto. }
  destruct (list_push_back_spec h1 d ds y) as (h2 & -> & Hd2 & Ho2); [done..|]. cbn [obind].
  have Hl2 : is_list h2 l (pre ++ e :: ys).
  { eapply chain_frame; [|exact Hl1]. intros x Hx. apply Ho2. apply not_elem_of_cons. split.
    { intros ->. by apply Hny. }
    intros Hx'. apply (Hdisj _ Hx'). move: Hx. unfold nodes. rw !(elem_of_cons, elem_of_app). tauto. }
  destruct (IH h2 pre e (ds ++ [y]) fuel Hl2) as (h' & -> & Hl & Hds); [|lia|].
  { right. split; [done|]. intros x. unfold nodes. rw !(elem_of_cons, elem_of_app, elem_of_nil).
    have Hx := Hdisj x. unfold nodes in Hx. rw !(elem_of_cons, elem_of_app, elem_of_nil) in Hx.
    unfold nodes in Hny. rw !(elem_of_cons, elem_of_app, elem_of_nil) in Hny.
    intros [?|[[?|[->|[]]]|?]]; tauto. }
  destruct (unique_ref e ys) as [k dd]. simpl in *. exists h'. split_and!; [done..|].
  move: Hds. by rw -app_assoc.
Qed.

Lemma list_unique_ref h l d ds xs fuel :
  is_list h l xs -> dup_list h d ds l xs -> (length xs < fuel)%nat ->
  exists h', list_unique less fuel h l d = Ok h' /\
    match xs with
    | [] => h' = h
    | x :: xs => is_list h' l (x :: (unique_ref x xs).1) /\
                 (d = NULL \/ is_list h' d (ds ++ (unique_ref x xs).2))
    end.
Proof.
  intros Hc Hd Hf. unfold list_unique.
  rw (proj2 (Z.eqb_neq _ _) (is_list_not_null _ _ _ Hc)) /= (list_empty_spec _ _ _ Hc) /=.
  destruct xs as [|x xs]; [by exists h|]. simpl in Hf.
  rw bool_decide_eq_false_2 // (list_begin_spec _ _ _ Hc) /=. change (nd l (x :: xs)) with x.
  destruct (list_unique_loop_spec h l d ds [] x xs fuel Hc Hd) as (h' & -> & ? & ?); [lia|]. eauto.
Qed.

(** What [unique_ref] keeps has no two equal neighbours, and nothing is lost. *)
Lemma unique_ref_spec e xs :
  (unique_ref e xs).1 ++ (unique_ref e xs).2 ≡ₚ xs /\
  Sorted (fun a b => less a b = true \/ less b a = true) (e :: (unique_ref e xs).1).
Proof.
  revert e. induction xs as [|x xs IH]; intros e; simpl; [split; [done|by repeat constructor]|].
  destruct (less e x) eqn:E1, (less x e) eqn:E2; simpl;
    [destruct (IH x) as [H1 H2]; destruct (unique_ref x xs)..|
     destruct (IH e) as [H1 H2]; destruct (unique_ref e xs)]; simpl in *; split;
    try (by rw H1); try (constructor; [done|]; constructor; by auto); [|done].
  rw -H1. by rw Permutation_middle.
Qed.
End ordered.

(** ** Reversal *)
Definition swap_node (n : list_elem) : list_elem := mk_elem (next n) (prev n).
Definition swap_all h (ys : list addr) : gmap addr list_elem :=
  fold_left (fun h y => alter swap_node y h) ys h.

Lemma swap_links_ok h e : is_Some (h !! e) -> swap_links h e = Ok (alter swap_node e h).
Proof.
  intros [n Hn]. unfold swap_links, ld_prev, ld_next, st_prev, st_next, upd_prev, upd_next.
  rw Hn /= lookup_alter_eq Hn /=. f_equal. apply map_eq. intros x.
  rw !lookup_alter. repeat case_decide; subst; try congruence. by rw Hn.
Qed.

Lemma lookup_swap_all h ys x :
  NoDup ys -> swap_all h ys !! x = if decide (x ∈ ys) then swap_node <$> h !! x else h !! x.
Proof.
  unfold swap_all. revert h. induction ys as [|y ys IH]; intros h Hd; cbn [fold_left].
  - case_decide as Hx; [by apply not_elem_of_nil in Hx|done].
  - apply NoDup_cons in Hd as [Hy Hd]. rw IH // lookup_alter.
    destruct (decide (x ∈ ys)) as [Hx|Hx], (decide (x ∈ y :: ys)) as [Hx'|Hx'];
      rw elem_of_cons in Hx'; destruct (decide (y = x)); naive_solver.
Qed.

Lemma list_reverse_loop_spec h l ys fuel :
  (forall pre y post, ys = pre ++ y :: post -> nx h y = Some (nd l post)) ->
  NoDup ys -> tail_of l ∉ ys -> (length ys < fuel)%nat ->
  list_reverse_loop fuel h (nd l ys) (tail_of l) = Ok (swap_all h ys).
Proof.
  revert h fuel. induction ys as [|y ys IH]; intros h [|fuel] Hn Hd Ht Hf; simpl in Hf; try lia;
    simpl list_reverse_loop.
  { unfold nd. by rw /= Z.eqb_refl. }
  change (nd l (y :: ys)) with y.
  rw (proj2 (Z.eqb_neq y (tail_of l))); [intros ->; apply Ht; left|].
  have Hy := Hn [] y ys eq_refl. have Hs : is_Some (h !! y) by rw -nx_is_Some Hy.
  rw swap_links_ok //=. rw (ld_prev_ok _ y (nd l ys)) /=.
  { move: Hy. unfold pv, nx. rw lookup_alter_eq. by destruct (h !! y). }
  apply NoDup_cons in Hd as [Hy' Hd]. apply IH; [|done| |lia].
  - intros pre z post ->. unfold nx. rw lookup_alter_ne; [intros ->; apply Hy'; set_solver|].
    apply (Hn (y :: pre)). done.
  - intros Hx. apply Ht. by right.
Qed.

Lemma linked_reverse h h' xs :
  NoDup xs -> linked h xs ->
  (forall x, x ∈ xs -> last xs ≠ Some x -> pv h' x = nx h x) ->
  (forall x, x ∈ xs -> head xs ≠ Some x -> nx h' x = pv h x) ->
  linked h' (reverse xs).
Proof.
  induction xs as [|a xs IH]; [done|]. intros Hd Hl Hp Hn. rw reverse_cons.
  apply NoDup_cons in Hd as [Ha Hd]. destruct xs as [|b xs]; [done|].
  destruct Hl as (Hab & Hba & Hl). apply linked_app. split_and!; [|done|].
  - apply IH; [done|done| |].
    + intros x Hx Hlx. apply Hp; [by right|by rw last_cons_cons].
    + intros x Hx _. apply Hn; [by right|]. simpl. by intros [= ->].
  - intros x y Hx Hy. simpl in Hy. rw last_reverse in Hx. simplify_eq/=. split.
    + rw Hn; [right; left| |done]. simpl. intros [= ->]. apply Ha. left.
    + rw Hp; [left| |done]. intros E. apply Ha. by apply last_Some_elem_of.
Qed.

Lemma list_reverse_nonempty h l xs f b fuel :
  is_list h l xs -> head xs = Some f -> last xs = Some b -> (length xs < fuel)%nat ->
  exists h', list_reverse fuel h l = Ok h' /\
    (forall x, nx h' x = if decide (x = f) then Some (tail_of l)
                         else if decide (x = head_of l) then Some b
                         else if decide (x ∈ xs) then pv h x else nx h x) /\
    (forall x, pv h' x = if decide (x = b) then Some (head_of l)
                         else if decide (x = tail_of l) then Some f
                         else if decide (x ∈ xs) then nx h x else pv h x).
Proof.
  intros Hc Hf Hb Hfuel.
  have Hne : xs ≠ [] by intros ->.
  have Hfx := head_Some_elem_of _ _ Hf. have Hbx := last_Some_elem_of _ _ Hb.
  have [Hd [Hdt Hdh]] : NoDup xs /\ tail_of l ∉ xs /\ head_of l ∉ xs.
  { destruct Hc as (_ & Hd & _). apply NoDup_cons in Hd as [Hd1 Hd]. apply NoDup_app in Hd as (? & Hd2 & _).
    split_and!; [done| |]; intros Hx; [by apply (Hd2 _ Hx); left|apply Hd1, elem_of_app; by left]. }
  have Hht : head_of l ≠ tail_of l by (unfold head_of, tail_of; lia).
  have Hin : forall x, x ∈ nodes l xs -> is_Some (h !! x) by (intros; by eapply chain_in_heap).
  unfold list_reverse. rw (list_empty_spec _ _ _ Hc) /= bool_decide_eq_false_2 //.
  rw (list_begin_spec _ _ _ Hc) (list_end_spec _ _ _ Hc) /=.
  rw (list_reverse_loop_spec h l xs fuel) //.
  { intros pre y post ->. destruct (is_list_cut h l (pre ++ [y]) post) as (p0 & p & po & _ & _ & Hc' & E).
    { move: Hc. by app_norm. }
    rw app_comm_cons in E. apply app_inj_tail in E as [_ <-]. by eapply chain_next. }
  simpl. set h1 := swap_all h xs.
  have L1 : forall x, h1 !! x = if decide (x ∈ xs) then swap_node <$> h !! x else h !! x
    by intros; apply lookup_swap_all.
  have N1 : forall x, nx h1 x = if decide (x ∈ xs) then pv h x else nx h x.
  { intros x. unfold nx. rw L1. case_decide; [|done]. unfold pv. by destruct (h !! x). }
  have P1 : forall x, pv h1 x = if decide (x ∈ xs) then nx h x else pv h x.
  { intros x. unfold pv. rw L1. case_decide; [|done]. unfold nx. by destruct (h !! x). }
  have S1 : forall x, is_Some (h !! x) -> is_Some (h1 !! x).
  { intros x Hx. rw L1. case_decide; [by apply fmap_is_Some|done]. }
  have Hnh : nx h (head_of l) = Some f.
  { destruct xs as [|x0 xs]; [done|]. simplify_eq/=. by apply (chain_next _ [] _ _ (xs ++ [tail_of l]) Hc). }
  have Hpt : pv h (tail_of l) = Some b.
  { apply last_Some in Hb as [xs' ->]. move: Hc. unfold is_list. app_norm. rw app_comm_cons. apply chain_prev. }
  have Sh : is_Some (h !! head_of l) by (apply Hin; left).
  have St : is_Some (h !! tail_of l) by (apply Hin; right; apply elem_of_app; right; left).
  have Sf : is_Some (h !! f) by (apply Hin; right; apply elem_of_app; by left).
  have Sb : is_Some (h !! b) by (apply Hin; right; apply elem_of_app; by left).
  have Hf1 : f ≠ head_of l by intros ->. have Hf2 : f ≠ tail_of l by intros ->.
  have Hb1 : b ≠ head_of l by intros ->. have Hb2 : b ≠ tail_of l by intros ->.
  rw (ld_next_ok _ _ f) /=; [by rw N1 decide_False|]. rw (ld_prev_ok _ _ b) /=; [by rw P1 decide_False|].
  rw st_next_ok; [by apply S1|]. cbn [obind]. rw st_prev_ok; [by rw upd_next_is_Some; apply S1|]. cbn [obind].
  rw (ld_next_ok _ _ b); [by rw nx_upd_prev nx_upd_next ?decide_True //; apply S1|]. cbn [obind].
  rw (ld_prev_ok _ _ f); [by rw pv_upd_prev ?decide_True // upd_next_is_Some; apply S1|]. cbn [obind].
  have Pb : nx h b = Some (tail_of l).
  { apply last_Some in Hb as [xs' ->]. move: Hc. unfold is_list. app_norm. rw app_comm_cons. apply chain_next. }
  have Pf : pv h f = Some (head_of l).
  { destruct xs as [|x0 xs]; [done|]. simplify_eq/=. by apply (chain_prev _ [] _ _ (xs ++ [tail_of l]) Hc). }
  rw (ld_prev_ok _ b (tail_of l)).
  { rw pv_upd_prev; [by rw upd_next_is_Some; apply S1|]. by rw decide_False // pv_upd_next P1 decide_True. }
  cbn [obind]. rw (ld_next_ok _ f (head_of l)).
  { rw nx_upd_prev nx_upd_next; [by apply S1|]. by rw decide_False // N1 decide_True. }
  cbn [obind]. rw st_prev_ok; [by rw upd_prev_is_Some upd_next_is_Some; apply S1|]. cbn [obind].
  rw st_next_ok; [by rw !upd_prev_is_Some upd_next_is_Some; apply S1|].
  eexists. split_and!; [done| |]; intros x.
  - rw nx_upd_next; [by rw !upd_prev_is_Some upd_next_is_Some; apply S1|].
    rw !nx_upd_prev nx_upd_next; [by apply S1|]. by rw N1.
  - rw pv_upd_next pv_upd_prev; [by rw upd_prev_is_Some upd_next_is_Some; apply S1|].
    rw pv_upd_prev; [by rw upd_next_is_Some; apply S1|]. by rw pv_upd_next P1.
Qed.

Lemma list_reverse_spec h l xs fuel :
  is_list h l xs -> (length xs < fuel)%nat ->
  exists h', list_reverse fuel h l = Ok h' /\ is_list h' l (reverse xs) /\
    same_outside (nodes l xs) h h'.
Proof.
  intros Hc Hfuel. destruct (head xs) as [f|] eqn:Hf; last first.
  { apply head_None in Hf as ->. exists h. unfold list_reverse. by rw (list_empty_spec _ _ _ Hc). }
  destruct (last xs) as [b|] eqn:Hb; last by apply last_None in Hb as ->.
  destruct (list_reverse_nonempty _ _ _ _ _ _ Hc Hf Hb Hfuel) as (h' & -> & Hn & Hp).
  have Hfx := head_Some_elem_of _ _ Hf. have Hbx := last_Some_elem_of _ _ Hb.
  destruct Hc as (Hl & Hd & Hnull & Hhd & Hlt).
  have Hht : head_of l ≠ tail_of l by (unfold head_of, tail_of; lia).
  have Hd' := Hd. apply NoDup_cons in Hd as [Hd1 Hd]. apply NoDup_app in Hd as (Hd2 & Hd3 & _).
  have Hdt : tail_of l ∉ xs by (intros Hx; apply (Hd3 _ Hx); left).
  have Hdh : head_of l ∉ xs by (intros Hx; apply Hd1, elem_of_app; by left).
  have Hf1 : f ≠ head_of l by intros ->. have Hf2 : f ≠ tail_of l by intros ->.
  have Hb1 : b ≠ head_of l by intros ->. have Hb2 : b ≠ tail_of l by intros ->.
  exists h'. split_and!; [done| |].
  - split_and!.
    + apply (linked_app _ [head_of l]) in Hl as (_ & Hl & _). apply linked_app in Hl as (Hl & _ & _).
      apply (linked_app _ [head_of l]). split_and!; [done| |].
      * apply linked_app. split_and!; [|done|].
        { eapply linked_reverse; [done|exact Hl| |].
          - intros x Hx Hlx. rw Hp decide_False; [congruence|]. rw decide_False; [congruence|]. by rw decide_True.
          - intros x Hx Hhx. rw Hn decide_False; [congruence|]. rw decide_False; [congruence|]. by rw decide_True. }
        intros x y Hx Hy. rw last_reverse Hf in Hx. simplify_eq/=.
        rw Hn Hp decide_True // decide_False // decide_True //.
      * intros x y Hx Hy. simplify_eq/=.
        have -> : y = b. { move: Hy. apply last_Some in Hb as [xs' ->]. rw reverse_snoc /=. congruence. }
        rw Hn Hp decide_False // decide_True // decide_True //.
    + by rw reverse_Permutation.
    + move: Hnull. rw !(elem_of_cons, elem_of_app, elem_of_reverse). done.
    + intros a [= <-]. rw Hp decide_False // decide_False // decide_False //. by apply Hhd.
    + intros a. rw app_comm_cons last_snoc. intros [= <-].
      rw Hn decide_False // decide_False; [done|]. rw decide_False //. apply Hlt. by rw app_comm_cons last_snoc.
  - intros x. unfold nodes. rw !(elem_of_cons, elem_of_app, elem_of_nil). intros Hx.
    have Hx' : x ≠ head_of l /\ x ∉ xs /\ x ≠ tail_of l by tauto. destruct Hx' as (X1 & X2 & X3).
    have X4 : x ≠ f by intros ->. have X5 : x ≠ b by intros ->.
    specialize (Hn x). specialize (Hp x). rw !decide_False // in Hn. rw !decide_False // in Hp.
    move: Hn Hp. unfold nx, pv. destruct (h !! x) as [[]|], (h' !! x) as [[]|]; naive_solver.
Qed.

(** ** Theorems *)

(** A small heap for the witnesses: a list at 1000 holding 2000, 2016, 2032,
    an empty list at 1016, and a free element at 2048. *)
Definition ex_heap : gmap addr list_elem :=
  list_to_map [(1000, mk_elem 0 2000); (2000, mk_elem 1000 2016); (2016, mk_elem 2000 2032);
               (2032, mk_elem 2016 1008); (1008, mk_elem 2032 0);
               (1016, mk_elem 0 1024); (1024, mk_elem 1016 0); (2048, mk_elem 5 7)].

(** Order of the elements by their low bits: 2016 < 2000 = 2048 < 2032. *)
Definition ex_less (a b : addr) : bool := (a / 16) mod 3 <? (b / 16) mod 3.

Lemma ex_list : is_list ex_heap 1000 [2000; 2016; 2032].
Proof.
  split_and!; [vm_compute; by split_and!|by apply (bool_decide_unpack _); vm_compute| | |].
  - by apply (bool_decide_unpack _); vm_compute.
  - by intros a [= <-].
  - by intros a [= <-].
Defined.

Lemma ex_empty : is_list ex_heap 1016 [].
Proof.
  split_and!; [vm_compute; by split_and!|by apply (bool_decide_unpack _); vm_compute| | |].
  - by apply (bool_decide_unpack _); vm_compute.
  - by intros a [= <-].
  - by intros a [= <-].
Defined.

#[export] Instance ex_less_weak : StrictWeak ex_less.
Proof. unfold ex_less. split; intros *; rw ?Z.ltb_lt ?Z.ltb_ge; lia. Defined.

(** [list_insert] puts a fresh element in front of any node of a list, and
    [list_remove] takes it out again: it returns the element that followed and
    gives back the original list; nothing outside the list is touched. *)
Theorem list_insert_remove h l xs ys e :
  is_list h l (xs ++ ys) -> e ∉ nodes l (xs ++ ys) -> e ≠ NULL -> is_Some (h !! e) ->
  exists h1 h2, list_insert h (nd l ys) e = Ok h1 /\ is_list h1 l (xs ++ e :: ys) /\
    list_remove h1 e = Ok (nd l ys, h2) /\ is_list h2 l (xs ++ ys) /\
    same_outside (e :: nodes l (xs ++ ys)) h h2.
Proof.
  intros Hc He Hn Hs. destruct (list_insert_spec _ _ _ _ _ Hc He Hn Hs) as (h1 & H1 & L1 & O1).
  destruct (list_remove_spec _ _ _ _ _ L1) as (h2 & H2 & L2 & O2 & _).
  exists h1, h2. split_and!; try done. eapply same_outside_trans; [done|].
  eapply same_outside_weaken; [|done]. intros x Hx. by right.
Qed.

Lemma list_insert_remove_witness :
  exists h1 h2, list_insert ex_heap 2016 2048 = Ok h1 /\ is_list h1 1000 ([2000] ++ 2048 :: [2016; 2032]) /\
    list_remove h1 2048 = Ok (2016, h2) /\ is_list h2 1000 [2000; 2016; 2032] /\
    same_outside (2048 :: nodes 1000 [2000; 2016; 2032]) ex_heap h2.
Proof.
  apply (list_insert_remove ex_heap 1000 [2000] [2016; 2032] 2048); [apply ex_list| |done|by eexists].
  by apply (bool_decide_unpack _); vm_compute.
Defined.

(** C32: [list_sort] terminates on every list, within as many passes and loop
    iterations as the list has elements, without failing any of its
    assertions; the result is the same elements in nondecreasing order, and no
    other memory is touched. *)
Theorem list_sort_correct less `{!StrictWeak less} h l xs :
  is_list h l xs -> Z.of_nat (length xs) < 2 ^ 32 ->
  exists h' ys, list_sort less (S (length xs)) h l = Ok h' /\ is_list h' l ys /\ ys ≡ₚ xs /\
    StronglySorted (xle less) ys /\ same_outside (nodes l xs) h h'.
Proof.
  intros Hc Hlen.
  destruct (list_sort_local less h l xs (S (length xs))) as (h' & ys & ? & ? & ? & Hs & ?);
    [exact: less_asym|done|lia|done|].
  exists h', ys. split_and!; try done. apply Sorted_StronglySorted; [|done].
  intros a b c Hab Hbc. unfold xle in *. by eapply less_ntrans.
Qed.

Lemma list_sort_correct_witness :
  exists h' ys, list_sort ex_less 4 ex_heap 1000 = Ok h' /\ is_list h' 1000 ys /\ ys ≡ₚ [2000; 2016; 2032] /\
    StronglySorted (xle ex_less) ys /\ same_outside (nodes 1000 [2000; 2016; 2032]) ex_heap h'.
Proof. apply (list_sort_correct ex_less ex_heap 1000 [2000; 2016; 2032]); [apply ex_list|done]. Defined.

(** [list_insert_ordered] inserts after every element that is not greater:
    a sorted list stays sorted, and equal elements keep their order of
    arrival. *)
Theorem list_insert_ordered_correct less `{!StrictWeak less} h l xs e :
  is_list h l xs -> StronglySorted (xle less) xs ->
  e ∉ nodes l xs -> e ≠ NULL -> is_Some (h !! e) ->
  exists h' zs ws, list_insert_ordered less (S (length xs)) h l e = Ok h' /\
    xs = zs ++ ws /\ is_list h' l (zs ++ e :: ws) /\
    (forall z, z ∈ zs -> less e z = false) /\ (forall w, w ∈ ws -> less e w = true) /\
    StronglySorted (xle less) (zs ++ e :: ws).
Proof.
  intros Hc Hs He Hn Hse.
  destruct (list_insert_ordered_ref less h l xs e (S (length xs)) Hc He Hn Hse) as (h' & H1 & H2 & _); [lia|].
  have Hsort : StronglySorted (xle less) (insert_ref less e xs).
  { apply Sorted_StronglySorted; [intros a b c; unfold xle; intros; by eapply less_ntrans|].
    apply insert_ref_sorted; [exact: less_asym|]. by apply StronglySorted_Sorted. }
  have Hsplit : exists zs ws, xs = zs ++ ws /\ insert_ref less e xs = zs ++ e :: ws /\
    (forall z, z ∈ zs -> less e z = false) /\ (forall w, w ∈ ws -> less e w = true).
  { clear -Hs StrictWeak0. induction Hs as [|x xs Hs IH Hx]; simpl.
    { exists [], []. split_and!; [done|done|set_solver..]. }
    destruct (less e x) eqn:E.
    - exists [], (x :: xs). split_and!; [done|done|set_solver|].
      intros w [->|Hw]%elem_of_cons; [done|]. rw Forall_forall in Hx.
      apply (less_split less e w x); [done|]. by apply Hx.
    - destruct IH as (zs & ws & -> & -> & I1 & I2). exists (x :: zs), ws. split_and!; try done.
      intros z [->|Hz]%elem_of_cons; [done|by apply I1]. }
  destruct Hsplit as (zs & ws & E1 & E2 & I1 & I2). rw E2 in H2 Hsort. exists h', zs, ws. by split_and!.
Qed.

Lemma list_insert_ordered_correct_witness :
  exists h' zs ws, list_insert_ordered ex_less 1 ex_heap 1016 2048 = Ok h' /\
    [] = zs ++ ws /\ is_list h' 1016 (zs ++ 2048 :: ws) /\
    (forall z, z ∈ zs -> ex_less 2048 z = false) /\ (forall w, w ∈ ws -> ex_less 2048 w = true) /\
    StronglySorted (xle ex_less) (zs ++ 2048 :: ws).
Proof.
  apply (list_insert_ordered_correct ex_less ex_heap 1016 [] 2048);
    [apply ex_empty|constructor| |done|by eexists].
  by apply (bool_decide_unpack _); vm_compute.
Defined.

(** C25: [list_reverse] reverses the list in place, for every length, and
    touches nothing else. *)
Theorem list_reverse_correct h l xs :
  is_list h l xs ->
  exists h', list_reverse (S (length xs)) h l = Ok h' /\ is_list h' l (reverse xs) /\
    same_outside (nodes l xs) h h'.
Proof. intros Hc. apply list_reverse_spec; [done|lia]. Qed.

Lemma list_reverse_correct_witness :
  exists h', list_reverse 4 ex_heap 1000 = Ok h' /\ is_list h' 1000 [2032; 2016; 2000] /\
    same_outside (nodes 1000 [2000; 2016; 2032]) ex_heap h'.
Proof. apply (list_reverse_correct ex_heap 1000 [2000; 2016; 2032]), ex_list. Defined.

(** [list_unique] moves every element equal to its last kept predecessor
    to [duplicates] (or drops it when that is null): the elements are the same
    ones, no two neighbours that are kept are equal, and the removed ones are
    appended in order. *)
Theorem list_unique_correct less h l d ds x xs :
  is_list h l (x :: xs) -> dup_list h d ds l (x :: xs) ->
  exists h' kept dups, list_unique less (S (S (length xs))) h l d = Ok h' /\
    is_list h' l (x :: kept) /\ (d = NULL \/ is_list h' d (ds ++ dups)) /\
    kept ++ dups ≡ₚ xs /\ Sorted (fun a b => less a b = true \/ less b a = true) (x :: kept).
Proof.
  intros Hc Hd.
  destruct (list_unique_ref less h l d ds (x :: xs) (S (S (length xs))) Hc Hd) as (h' & H1 & H2 & H3);
    [simpl; lia|].
  destruct (unique_ref_spec less x xs) as [H4 H5].
  exists h', (unique_ref less x xs).1, (unique_ref less x xs).2. by split_and!.
Qed.

Lemma list_unique_correct_witness :
  exists h' kept dups, list_unique ex_less 4 ex_heap 1000 1016 = Ok h' /\
    is_list h' 1000 (2000 :: kept) /\ (1016 = NULL \/ is_list h' 1016 ([] ++ dups)) /\
    kept ++ dups ≡ₚ [2016; 2032] /\
    Sorted (fun a b => ex_less a b = true \/ ex_less b a = true) (2000 :: kept).
Proof.
  apply (list_unique_correct ex_less ex_heap 1000 1016 [] 2000 [2016; 2032]); [apply ex_list|].
  right. split; [apply ex_empty|]. unfold nodes, head_of, tail_of. set_solver by lia.
Defined.

(** C26: [list_max] returns the first of the greatest elements, [list_min] the
    first of the least ones, and both return the tail of an empty list. *)
Theorem list_max_min_correct less `{!StrictWeak less} h l xs :
  is_list h l xs ->
  exists M m, list_max less (S (length xs)) h l = Ok M /\ list_min less (S (length xs)) h l = Ok m /\
    (xs = [] -> M = tail_of l /\ m = tail_of l) /\
    (xs ≠ [] -> exists zs ws, xs = zs ++ M :: ws /\
       (forall z, z ∈ zs -> less z M = true) /\ (forall w, w ∈ ws -> less M w = false)) /\
    (xs ≠ [] -> exists zs ws, xs = zs ++ m :: ws /\
       (forall z, z ∈ zs -> less m z = true) /\ (forall w, w ∈ ws -> less w m = false)).
Proof.
  intros Hc. rw (list_max_ref less h l xs) //; [lia|]. rw (list_min_ref less h l xs) //; [lia|].
  eexists _, _. split_and!; [done|done|by intros ->| |]; destruct xs as [|x xs]; try done; intros _.
  - by apply max_ref_spec.
  - by apply min_ref_spec.
Qed.

Lemma list_max_min_correct_witness :
  exists M m, list_max ex_less 4 ex_heap 1000 = Ok M /\ list_min ex_less 4 ex_heap 1000 = Ok m /\
    ([2000; 2016; 2032] = [] -> M = tail_of 1000 /\ m = tail_of 1000) /\
    ([2000; 2016; 2032] ≠ [] -> exists zs ws, [2000; 2016; 2032] = zs ++ M :: ws /\
       (forall z, z ∈ zs -> ex_less z M = true) /\ (forall w, w ∈ ws -> ex_less M w = false)) /\
    ([2000; 2016; 2032] ≠ [] -> exists zs ws, [2000; 2016; 2032] = zs ++ m :: ws /\
       (forall z, z ∈ zs -> ex_less m z = true) /\ (forall w, w ∈ ws -> ex_less w m = false)).
Proof. apply (list_max_min_correct ex_less ex_heap 1000 [2000; 2016; 2032]), ex_list. Defined.
