(* ===== verification/Bitmap.v ===== *)
(** * lib/kernel/bitmap.c: bitmaps

    A bitmap is an array of 32-bit elements; [bit b i] is the bit it represents
    at index [i].  The operations are translated with their masks and their
    unchecked array accesses; the theorems describe them on [bit]. *)
From S2P Require Import Prelude.

(** ** Data and operations *)
Definition ELEM_BITS : Z := 32.
Definition BITMAP_ERROR : Z := SIZE_MAX.

Record bitmap := mk_bitmap { bit_cnt : Z; bits : list Z }.
Implicit Types (b : bitmap) (i idx start cnt : Z) (v value : bool).

Definition elem_idx (bit_idx : Z) : Z := bit_idx / ELEM_BITS.
Definition bit_mask (bit_idx : Z) : Z := u32 (Z.shiftl 1 (bit_idx mod ELEM_BITS)).
Definition elem_cnt (n : Z) : Z := DIV_ROUND_UP n ELEM_BITS.
Definition byte_cnt (n : Z) : Z := 4 * elem_cnt n.

Definition last_mask b : Z :=
  let last_bits := bit_cnt b mod ELEM_BITS in
  if negb (last_bits =? 0) then Z.shiftl 1 last_bits - 1 else UINT_MAX.

(** [b->bits[idx] = f (b->bits[idx])] *)
Definition upd_elem b (idx : Z) (f : Z -> Z) : outcome bitmap :=
  let! e := oget (bits b !! Z.to_nat idx) in
  Ok (mk_bitmap (bit_cnt b) (<[Z.to_nat idx := f e]> (bits b))).

Definition bitmap_mark b (bit_idx : Z) : outcome bitmap :=
  let idx := elem_idx bit_idx in
  let mask := bit_mask bit_idx in
  upd_elem b idx (fun e => Z.lor e mask).

Definition bitmap_reset b (bit_idx : Z) : outcome bitmap :=
  let idx := elem_idx bit_idx in
  let mask := bit_mask bit_idx in
  upd_elem b idx (fun e => Z.land e (u32 (Z.lnot mask))).

Definition bitmap_flip b (bit_idx : Z) : outcome bitmap :=
  let idx := elem_idx bit_idx in
  let mask := bit_mask bit_idx in
  upd_elem b idx (fun e => Z.lxor e mask).

Definition bitmap_size b : Z := bit_cnt b.

Definition bitmap_set b idx value : outcome bitmap :=
  assert! idx <? bit_cnt b in
  if value then bitmap_mark b idx else bitmap_reset b idx.

Definition bitmap_test b idx : outcome bool :=
  assert! idx <? bit_cnt b in
  let! e := oget (bits b !! Z.to_nat (elem_idx idx)) in
  Ok (negb (Z.land e (bit_mask idx) =? 0)).

(** [for (i = ...; i < cnt; i++) bitmap_set (b, start + i, value);] with [n]
    iterations left. *)
Fixpoint set_multiple_loop (n : nat) b start i value : outcome bitmap :=
  match n with
  | O => Ok b
  | S n => let! b := bitmap_set b (u32 (start + i)) value in
           set_multiple_loop n b start (i + 1) value
  end.

Definition bitmap_set_multiple b start cnt value : outcome bitmap :=
  assert! start <=? bit_cnt b in
  assert! u32 (start + cnt) <=? bit_cnt b in
  set_multiple_loop (Z.to_nat cnt) b start 0 value.

Definition bitmap_set_all b value : outcome bitmap :=
  bitmap_set_multiple b 0 (bitmap_size b) value.

(** The two blocks come from malloc(): [blk] is whether the first request
    succeeds, [mem] what the second one returns, with its old contents. *)
Definition bitmap_create (blk : bool) (mem : option (list Z)) (n : Z) : outcome (option bitmap) :=
  if blk then
    match mem with
    | Some words =>
        let! b := bitmap_set_all (mk_bitmap n words) false in Ok (Some b)
    | None =>
        if n =? 0
        then let! b := bitmap_set_all (mk_bitmap n []) false in Ok (Some b)
        else Ok None
    end
  else Ok None.

Definition bitmap_buf_size (n : Z) : Z := 8 + byte_cnt n.

(** The words that follow the 8-byte header in the block. *)
Definition bitmap_create_in_buf (n : Z) (words : list Z) (block_size : Z) : outcome bitmap :=
  assert! bitmap_buf_size n <=? block_size in
  bitmap_set_all (mk_bitmap n words) false.

Fixpoint count_loop (n : nat) b start i value (value_cnt : Z) : outcome Z :=
  match n with
  | O => Ok value_cnt
  | S n => let! t := bitmap_test b (u32 (start + i)) in
           count_loop n b start (i + 1) value
             (if eqb t value then u32 (value_cnt + 1) else value_cnt)
  end.

Definition bitmap_count b start cnt value : outcome Z :=
  assert! start <=? bit_cnt b in
  assert! u32 (start + cnt) <=? bit_cnt b in
  count_loop (Z.to_nat cnt) b start 0 value 0.

Fixpoint contains_loop (n : nat) b start i value : outcome bool :=
  match n with
  | O => Ok false
  | S n => let! t := bitmap_test b (u32 (start + i)) in
           if eqb t value then Ok true else contains_loop n b start (i + 1) value
  end.

Definition bitmap_contains b start cnt value : outcome bool :=
  assert! start <=? bit_cnt b in
  assert! u32 (start + cnt) <=? bit_cnt b in
  contains_loop (Z.to_nat cnt) b start 0 value.

Definition bitmap_any b start cnt : outcome bool := bitmap_contains b start cnt true.

Definition bitmap_none b start cnt : outcome bool :=
  let! c := bitmap_contains b start cnt true in Ok (negb c).

Definition bitmap_all b start cnt : outcome bool :=
  let! c := bitmap_contains b start cnt false in Ok (negb c).

(** [for (i = start; i <= last; i++)], [n] iterations left. *)
Fixpoint scan_loop (n : nat) b i cnt value : outcome Z :=
  match n with
  | O => Ok BITMAP_ERROR
  | S n => let! c := bitmap_contains b i cnt (negb value) in
           if negb c then Ok i else scan_loop n b (i + 1) cnt value
  end.

Definition bitmap_scan b start cnt value : outcome Z :=
  assert! start <=? bit_cnt b in
  if cnt <=? bit_cnt b then
    let last := bit_cnt b - cnt in
    scan_loop (Z.to_nat (last + 1 - start)) b start cnt value
  else Ok BITMAP_ERROR.

Definition bitmap_scan_and_flip b start cnt value : outcome (Z * bitmap) :=
  let! idx := bitmap_scan b start cnt value in
  if negb (idx =? BITMAP_ERROR)
  then let! b := bitmap_set_multiple b idx cnt (negb value) in Ok (idx, b)
  else Ok (idx, b).

(** Little-endian bytes of the elements, as they lie in memory and in files. *)
Definition word_bytes (w : Z) : list Z :=
  [w mod 256; (w / 256) mod 256; (w / 65536) mod 256; (w / 16777216) mod 256].
Definition words_bytes (ws : list Z) : list Z := mjoin (word_bytes <$> ws).
Fixpoint bytes_words (n : nat) (bs : list Z) : list Z :=
  match n with
  | O => []
  | S n => match bs with
           | b0 :: b1 :: b2 :: b3 :: bs =>
               (b0 + 256 * b1 + 65536 * b2 + 16777216 * b3) :: bytes_words n bs
           | _ => []
           end
  end.

Definition bitmap_file_size b : Z := byte_cnt (bit_cnt b).

(** [file_read_at (file, b->bits, size, 0)] stores the bytes [data] it read
    over the start of the array. *)
Definition bitmap_read b (data : list Z) : outcome (bool * bitmap) :=
  if 0 <? bit_cnt b then
    let size := byte_cnt (bit_cnt b) in
    let old := words_bytes (bits b) in
    let mem := data ++ drop (length data) old in
    let b1 := mk_bitmap (bit_cnt b) (bytes_words (length (bits b)) mem) in
    let success := Z.of_nat (length data) =? size in
    let! b2 := upd_elem b1 (elem_cnt (bit_cnt b) - 1) (fun e => Z.land e (last_mask b)) in
    Ok (success, b2)
  else Ok (true, b).

(** [written] is the count that [file_write_at (file, b->bits, size, 0)]
    returns when it is given the bytes of the bitmap. *)
Definition bitmap_write b (write : list Z -> Z) : bool :=
  let size := byte_cnt (bit_cnt b) in
  write (take (Z.to_nat size) (words_bytes (bits b))) =? size.

(** ** The bits a bitmap represents *)
Definition bit b i : bool :=
  Z.testbit (bits b !!! Z.to_nat (elem_idx i)) (i mod ELEM_BITS).

(** The array has exactly the elements that the bits need, each of 32 bits. *)
Definition wf b : Prop :=
  0 <= bit_cnt b < SIZE_MAX /\
  Z.of_nat (length (bits b)) = elem_cnt (bit_cnt b) /\
  Forall (fun e => 0 <= e < 2 ^ 32) (bits b).

Lemma elem_idx_range b i :
  wf b -> 0 <= i < bit_cnt b -> 0 <= elem_idx i < Z.of_nat (length (bits b)).
Proof.
  intros (_ & -> & _) Hi. unfold elem_idx, elem_cnt, DIV_ROUND_UP, ELEM_BITS.
  split; [apply Z.div_pos; lia|]. apply Z.div_lt_upper_bound; [lia|].
  have := Z.div_mod (bit_cnt b + 32 - 1) 32. have := Z.mod_pos_bound (bit_cnt b + 32 - 1) 32. lia.
Qed.

Lemma bit_mask_eq i : bit_mask i = 2 ^ (i mod ELEM_BITS).
Proof.
  unfold bit_mask. rw Z.shiftl_1_l. apply wrap_small. unfold ELEM_BITS.
  have := Z.mod_pos_bound i 32. intros H. split; [lia|]. apply Z.pow_lt_mono_r; lia.
Qed.

Lemma testbit_mask i j : 0 <= j < 32 -> Z.testbit (bit_mask i) j = (j =? i mod ELEM_BITS).
Proof.
  intros Hj. rw bit_mask_eq Z.pow2_bits_eqb; [unfold ELEM_BITS; have := Z.mod_pos_bound i 32; lia|].
  apply Z.eqb_sym.
Qed.

Lemma testbit_u32 z j : 0 <= j < 32 -> Z.testbit (u32 z) j = Z.testbit z j.
Proof. intros. apply Z.mod_pow2_bits_low. lia. Qed.

Lemma u32_bounds_bits z :
  0 <= z -> (forall j, 32 <= j -> Z.testbit z j = false) -> z < 2 ^ 32.
Proof.
  intros Hz Hb. destruct (Z.ltb_spec z (2 ^ 32)) as [?|Hge]; [done|exfalso].
  have Hl : 32 <= Z.log2 z by apply Z.log2_le_pow2; lia.
  have := Hb _ Hl. rw Z.bit_log2 //. lia.
Qed.

Lemma bits_high e j : 0 <= e < 2 ^ 32 -> 32 <= j -> Z.testbit e j = false.
Proof.
  intros He Hj. destruct (Z.eqb_spec e 0) as [->|]; [apply Z.bits_0|].
  apply Z.bits_above_log2; [lia|]. have : Z.log2 e < 32 by apply Z.log2_lt_pow2; lia. lia.
Qed.

(** One element is replaced: the effect on the bits. *)
Lemma upd_elem_spec b i (f : Z -> Z) :
  wf b -> 0 <= i < bit_cnt b ->
  (forall e, 0 <= e < 2 ^ 32 -> 0 <= f e < 2 ^ 32) ->
  exists b', upd_elem b (elem_idx i) f = Ok b' /\ wf b' /\ bit_cnt b' = bit_cnt b /\
    forall j, 0 <= j -> bit b' j = if elem_idx j =? elem_idx i
      then Z.testbit (f (bits b !!! Z.to_nat (elem_idx i))) (j mod ELEM_BITS) else bit b j.
Proof.
  intros Hw Hi Hf. have Hr := elem_idx_range _ _ Hw Hi.
  destruct (list_lookup_total_Z (bits b) (elem_idx i) Hr) as [e He].
  unfold upd_elem. rw He /=. eexists. split_and!; [done| |done|].
  - destruct Hw as (H1 & H2 & H3). split; [done|]. split; [by simpl; rw length_insert|].
    simpl. apply Forall_insert; [done|]. apply Hf. rw Forall_lookup in H3. by eapply H3.
  - intros j Hj. unfold bit. simpl.
    have Hj' : 0 <= elem_idx j by apply Z.div_pos.
    destruct (Z.eqb_spec (elem_idx j) (elem_idx i)) as [->|Hne].
    + rw list_lookup_total_insert_eq; [lia|]. by rw (list_lookup_total_correct _ _ _ He).
    + rw list_lookup_total_insert_ne //. lia.
Qed.

Lemma bit_index_inj i j :
  elem_idx i = elem_idx j -> i mod ELEM_BITS = j mod ELEM_BITS -> i = j.
Proof. unfold elem_idx, ELEM_BITS. intros. have := Z.div_mod i 32. have := Z.div_mod j 32. lia. Qed.

Lemma mod_bits_range i : 0 <= i mod ELEM_BITS < 32.
Proof. unfold ELEM_BITS. apply Z.mod_pos_bound. lia. Qed.

(** The effect of a bitwise operation with the mask of bit [i]. *)
Lemma mask_op_bit i j b (f : Z -> Z) (g : bool -> bool) :
  (forall e k, 0 <= k < 32 -> Z.testbit (f e) k =
     if k =? i mod ELEM_BITS then g (Z.testbit e k) else Z.testbit e k) ->
  (if elem_idx j =? elem_idx i
   then Z.testbit (f (bits b !!! Z.to_nat (elem_idx i))) (j mod ELEM_BITS) else bit b j)
  = if j =? i then g (bit b j) else bit b j.
Proof.
  intros Hf. have Hm := mod_bits_range j.
  destruct (Z.eqb_spec (elem_idx j) (elem_idx i)) as [E|E].
  - rw Hf //. unfold bit. rw E. destruct (Z.eqb_spec (j mod ELEM_BITS) (i mod ELEM_BITS)) as [E2|E2].
    + by rw (bit_index_inj _ _ E E2) Z.eqb_refl.
    + destruct (Z.eqb_spec j i) as [->|]; done.
  - destruct (Z.eqb_spec j i) as [->|]; done.
Qed.

Lemma bitmap_mark_spec b i :
  wf b -> 0 <= i < bit_cnt b ->
  exists b', bitmap_mark b i = Ok b' /\ wf b' /\ bit_cnt b' = bit_cnt b /\
    forall j, 0 <= j -> bit b' j = if j =? i then true else bit b j.
Proof.
  intros Hw Hi.
  destruct (upd_elem_spec b i (fun e => Z.lor e (bit_mask i)) Hw Hi) as (b' & E & Hw' & Hc & Hb).
  { intros e He. have Hn : 0 <= Z.lor e (bit_mask i).
    { apply Z.lor_nonneg. split; [lia|]. rw bit_mask_eq. lia. }
    split; [done|]. apply u32_bounds_bits; [done|]. intros j Hj. rw Z.lor_spec bits_high //=.
    rw bit_mask_eq Z.pow2_bits_false //. have := mod_bits_range i. lia. }
  exists b'. split_and!; [done..|]. intros j Hj. rw Hb //.
  apply (mask_op_bit i j b (fun e => Z.lor e (bit_mask i)) (fun _ => true)).
  intros e k Hk. rw Z.lor_spec testbit_mask //. by destruct (k =? _), (Z.testbit e k).
Qed.

Lemma testbit_not_mask i k : 0 <= k < 32 ->
  Z.testbit (u32 (Z.lnot (bit_mask i))) k = negb (k =? i mod ELEM_BITS).
Proof. intros Hk. rw testbit_u32 // Z.lnot_spec; [lia|]. by rw testbit_mask. Qed.

Lemma bitmap_reset_spec b i :
  wf b -> 0 <= i < bit_cnt b ->
  exists b', bitmap_reset b i = Ok b' /\ wf b' /\ bit_cnt b' = bit_cnt b /\
    forall j, 0 <= j -> bit b' j = if j =? i then false else bit b j.
Proof.
  intros Hw Hi.
  destruct (upd_elem_spec b i (fun e => Z.land e (u32 (Z.lnot (bit_mask i)))) Hw Hi) as (b' & E & Hw' & Hc & Hb).
  { intros e He. have Hn : 0 <= Z.land e (u32 (Z.lnot (bit_mask i))) by (apply Z.land_nonneg; lia).
    split; [done|]. apply u32_bounds_bits; [done|]. intros j Hj. by rw Z.land_spec bits_high. }
  exists b'. split_and!; [done..|]. intros j Hj. rw Hb //.
  apply (mask_op_bit i j b (fun e => Z.land e (u32 (Z.lnot (bit_mask i)))) (fun _ => false)).
  intros e k Hk. rw Z.land_spec testbit_not_mask //. by destruct (k =? _), (Z.testbit e k).
Qed.

Lemma bitmap_flip_spec b i :
  wf b -> 0 <= i < bit_cnt b ->
  exists b', bitmap_flip b i = Ok b' /\ wf b' /\ bit_cnt b' = bit_cnt b /\
    forall j, 0 <= j -> bit b' j = if j =? i then negb (bit b j) else bit b j.
Proof.
  intros Hw Hi.
  destruct (upd_elem_spec b i (fun e => Z.lxor e (bit_mask i)) Hw Hi) as (b' & E & Hw' & Hc & Hb).
  { intros e He. have Hn : 0 <= Z.lxor e (bit_mask i).
    { apply Z.lxor_nonneg. rw bit_mask_eq. lia. }
    split; [done|]. apply u32_bounds_bits; [done|]. intros j Hj. rw Z.lxor_spec bits_high //=.
    rw bit_mask_eq Z.pow2_bits_false //. have := mod_bits_range i. lia. }
  exists b'. split_and!; [done..|]. intros j Hj. rw Hb //.
  apply (mask_op_bit i j b (fun e => Z.lxor e (bit_mask i)) negb).
  intros e k Hk. rw Z.lxor_spec testbit_mask //. by destruct (k =? _), (Z.testbit e k).
Qed.

Lemma bitmap_set_spec b i v :
  wf b -> 0 <= i < bit_cnt b ->
  exists b', bitmap_set b i v = Ok b' /\ wf b' /\ bit_cnt b' = bit_cnt b /\
    forall j, 0 <= j -> bit b' j = if j =? i then v else bit b j.
Proof.
  intros Hw Hi. unfold bitmap_set. rw (proj2 (Z.ltb_lt _ _)) /=; [lia|].
  destruct v; [by apply bitmap_mark_spec|by apply bitmap_reset_spec].
Qed.

Lemma bitmap_test_spec b i :
  wf b -> 0 <= i < bit_cnt b -> bitmap_test b i = Ok (bit b i).
Proof.
  intros Hw Hi. unfold bitmap_test. rw (proj2 (Z.ltb_lt _ _)) /=; [lia|].
  destruct (list_lookup_total_Z (bits b) _ (elem_idx_range _ _ Hw Hi)) as [e He].
  rw He /=. unfold bit. rw (list_lookup_total_correct _ _ _ He). f_equal.
  have Hm := mod_bits_range i. destruct (Z.testbit e (i mod ELEM_BITS)) eqn:E.
  - apply negb_true_iff, Z.eqb_neq. intros H0.
    have : Z.testbit (Z.land e (bit_mask i)) (i mod ELEM_BITS) = false by rw H0 Z.bits_0.
    by rw Z.land_spec E testbit_mask // Z.eqb_refl.
  - apply negb_false_iff, Z.eqb_eq. rw bit_mask_eq. apply Z.bits_inj'. intros k Hk.
    rw Z.land_spec Z.bits_0 Z.pow2_bits_eqb; [lia|].
    destruct (Z.eqb_spec (i mod ELEM_BITS) k) as [<-|]; by rw ?E ?andb_false_r.
Qed.

Lemma set_multiple_loop_spec n b start i v :
  wf b -> 0 <= start -> 0 <= i -> start + i + Z.of_nat n <= bit_cnt b ->
  exists b', set_multiple_loop n b start i v = Ok b' /\ wf b' /\ bit_cnt b' = bit_cnt b /\
    forall j, 0 <= j ->
      bit b' j = if (start + i <=? j) && (j <? start + i + Z.of_nat n) then v else bit b j.
Proof.
  revert b i. induction n as [|n IH]; intros b i Hw Hs Hi Hle.
  { exists b. split_and!; [done..|]. intros j Hj. zbool; simpl; try done; lia. }
  simpl. rw wrap_small; [have [? _] := Hw; unfold SIZE_MAX in *; lia|].
  destruct (bitmap_set_spec b (start + i) v Hw) as (b1 & -> & W1 & C1 & B1); [lia|]. simpl.
  destruct (IH b1 (i + 1) W1 Hs) as (b2 & -> & W2 & C2 & B2); [lia|lia|].
  exists b2. split_and!; [done|done|congruence|]. intros j Hj. rw B2 // B1 //.
  zbool; simpl; try done; lia.
Qed.

Lemma bitmap_set_multiple_spec b start cnt v :
  wf b -> 0 <= start -> 0 <= cnt -> start + cnt <= bit_cnt b ->
  exists b', bitmap_set_multiple b start cnt v = Ok b' /\ wf b' /\ bit_cnt b' = bit_cnt b /\
    forall j, 0 <= j -> bit b' j = if (start <=? j) && (j <? start + cnt) then v else bit b j.
Proof.
  intros Hw Hs Hc Hle. have [Hsz _] := Hw. unfold SIZE_MAX in *.
  unfold bitmap_set_multiple. rw (proj2 (Z.leb_le start _)) /=; [lia|].
  rw wrap_small; [lia|]. rw (proj2 (Z.leb_le (start + cnt) _)) /=; [lia|].
  destruct (set_multiple_loop_spec (Z.to_nat cnt) b start 0 v Hw) as (b' & ? & ? & ? & Hb); [lia..|].
  exists b'. split_and!; [done..|]. intros j Hj. rw Hb //. by rw Z.add_0_r Z2Nat.id.
Qed.

(** No bit of a range has the value: the meaning of [bitmap_contains]. *)
Lemma contains_loop_spec n b start i v :
  wf b -> 0 <= start -> 0 <= i -> start + i + Z.of_nat n <= bit_cnt b ->
  exists c, contains_loop n b start i v = Ok c /\
    (c = true <-> exists j, start + i <= j < start + i + Z.of_nat n /\ bit b j = v).
Proof.
  revert i. induction n as [|n IH]; intros i Hw Hs Hi Hle.
  { exists false. split; [done|]. split; [done|]. intros (j & ? & _). lia. }
  simpl. rw wrap_small; [have [? _] := Hw; unfold SIZE_MAX in *; lia|].
  rw bitmap_test_spec //=; [lia|]. destruct (eqb (bit b (start + i)) v) eqn:E.
  { exists true. split; [done|]. split; [|done]. intros _. exists (start + i). split; [lia|]. by apply eqb_prop. }
  destruct (IH (i + 1) Hw Hs) as (c & -> & Hc); [lia|lia|]. exists c. split; [done|]. rw Hc. split.
  - intros (j & ? & ?). exists j. split; [lia|done].
  - intros (j & Hj & Hv). exists j. split; [|done]. destruct (Z.eqb_spec j (start + i)) as [->|]; [|lia].
    by rw Hv eqb_reflx in E.
Qed.

Lemma bitmap_contains_spec b start cnt v :
  wf b -> 0 <= start -> 0 <= cnt -> start + cnt <= bit_cnt b ->
  exists c, bitmap_contains b start cnt v = Ok c /\
    (c = true <-> exists j, start <= j < start + cnt /\ bit b j = v).
Proof.
  intros Hw Hs Hc Hle. have [Hsz _] := Hw. unfold SIZE_MAX in *.
  unfold bitmap_contains. rw (proj2 (Z.leb_le start _)) /=; [lia|].
  rw wrap_small; [lia|]. rw (proj2 (Z.leb_le (start + cnt) _)) /=; [lia|].
  destruct (contains_loop_spec (Z.to_nat cnt) b start 0 v Hw) as (c & ? & Hc'); [lia..|].
  exists c. split; [done|]. rw Hc'. by rw Z.add_0_r Z2Nat.id.
Qed.

(** All bits of the range [start, start + cnt) have the value [v]. *)
Definition range_is b start cnt v : Prop := forall j, start <= j < start + cnt -> bit b j = v.

Lemma bitmap_all_spec b start cnt :
  wf b -> 0 <= start -> 0 <= cnt -> start + cnt <= bit_cnt b ->
  exists c, bitmap_all b start cnt = Ok c /\ (c = true <-> range_is b start cnt true).
Proof.
  intros Hw Hs Hc Hle. unfold bitmap_all.
  destruct (bitmap_contains_spec b start cnt false Hw Hs Hc Hle) as (c & -> & Hc'). simpl.
  eexists. split; [done|]. rw negb_true_iff -not_true_iff_false Hc'. unfold range_is. split.
  - intros H j Hj. destruct (bit b j) eqn:E; [done|]. exfalso. eauto.
  - intros H (j & Hj & Hb). by rw H in Hb.
Qed.

Lemma scan_loop_spec n b i cnt v :
  wf b -> 0 <= i -> 0 <= cnt -> i + Z.of_nat n + cnt <= bit_cnt b + 1 ->
  exists r, scan_loop n b i cnt v = Ok r /\
    ((r = BITMAP_ERROR /\ forall k, i <= k < i + Z.of_nat n -> ~ range_is b k cnt v) \/
     (i <= r < i + Z.of_nat n /\ range_is b r cnt v /\ forall k, i <= k < r -> ~ range_is b k cnt v)).
Proof.
  revert i. induction n as [|n IH]; intros i Hw Hi Hc Hle; simpl.
  { eexists. split; [done|]. left. split; [done|]. lia. }
  destruct (bitmap_contains_spec b i cnt (negb v) Hw) as (c & -> & Hc'); [lia..|]. simpl.
  have Hr : c = false <-> range_is b i cnt v.
  { rw -not_true_iff_false Hc'. unfold range_is. split.
    - intros H j Hj. destruct (bit b j) eqn:E, v; try done; exfalso; eauto.
    - intros H (j & Hj & Hb). rw H // in Hb. by destruct v. }
  destruct c; simpl.
  - destruct (IH (i + 1) Hw) as (r & -> & Hr'); [lia..|]. exists r. split; [done|].
    have Hi' : ~ range_is b i cnt v by (intros H; by apply Hr in H).
    destruct Hr' as [[-> H]|(Hb & Hr' & H)]; [left|right]; split_and!; try done; try lia.
    + intros k Hk. destruct (Z.eqb_spec k i) as [->|]; [done|]. apply H. lia.
    + intros k Hk. destruct (Z.eqb_spec k i) as [->|]; [done|]. apply H. lia.
  - exists i. split; [done|]. right. split_and!; [lia|lia|by apply Hr|lia].
Qed.

(** [first_fit b start cnt v r]: [r] is the first index at or after [start] of
    [cnt] bits that are all [v]. *)
Definition first_fit b start cnt v (r : Z) : Prop :=
  start <= r /\ r + cnt <= bit_cnt b /\ range_is b r cnt v /\
  forall k, start <= k < r -> ~ range_is b k cnt v.

Lemma bitmap_scan_spec b start cnt v :
  wf b -> 0 <= start <= bit_cnt b -> 0 <= cnt ->
  exists r, bitmap_scan b start cnt v = Ok r /\
    ((r = BITMAP_ERROR /\ forall k, start <= k -> k + cnt <= bit_cnt b -> ~ range_is b k cnt v) \/
     (r ≠ BITMAP_ERROR /\ first_fit b start cnt v r)).
Proof.
  intros Hw Hs Hc. have [Hsz _] := Hw. unfold bitmap_scan. rw (proj2 (Z.leb_le start _)) /=; [lia|].
  destruct (Z.leb_spec cnt (bit_cnt b)).
  - destruct (Z.leb_spec start (bit_cnt b - cnt + 1)).
    + destruct (scan_loop_spec (Z.to_nat (bit_cnt b - cnt + 1 - start)) b start cnt v Hw) as (r & -> & Hr); [lia..|].
      exists r. split; [done|]. destruct Hr as [[-> Hr]|(Hb & Hr & Hr')]; [left|right].
      * split; [done|]. intros k Hk1 Hk2. apply Hr. lia.
      * split; [unfold BITMAP_ERROR; lia|]. split_and!; [lia|lia|done|done].
    + have -> : Z.to_nat (bit_cnt b - cnt + 1 - start) = 0%nat by lia.
      eexists. split; [done|]. left. split; [done|]. lia.
  - eexists. split; [done|]. left. split; [done|]. lia.
Qed.

(** What an allocation from a bitmap does. *)
Lemma bitmap_scan_and_flip_spec b start cnt v :
  wf b -> 0 <= start <= bit_cnt b -> 0 <= cnt ->
  exists r b', bitmap_scan_and_flip b start cnt v = Ok (r, b') /\ wf b' /\ bit_cnt b' = bit_cnt b /\
    ((r = BITMAP_ERROR /\ b' = b /\
        forall k, start <= k -> k + cnt <= bit_cnt b -> ~ range_is b k cnt v) \/
     (r ≠ BITMAP_ERROR /\ first_fit b start cnt v r /\
        forall j, 0 <= j -> bit b' j = if (r <=? j) && (j <? r + cnt) then negb v else bit b j)).
Proof.
  intros Hw Hs Hc. unfold bitmap_scan_and_flip.
  destruct (bitmap_scan_spec b start cnt v Hw Hs Hc) as (r & -> & Hr). simpl.
  destruct Hr as [[-> Hr]|[Hr Hf]].
  - rw Z.eqb_refl /=. exists BITMAP_ERROR, b. split_and!; [done..|]. by left.
  - rw (proj2 (Z.eqb_neq _ _) Hr) /=. have Hf' := Hf. destruct Hf' as (F1 & F2 & F3 & F4).
    destruct (bitmap_set_multiple_spec b r cnt (negb v) Hw) as (b' & -> & W & C & B); [lia..|]. simpl.
    exists r, b'. split_and!; [done..|]. right. by split_and!.
Qed.

(** ** Counting *)
Lemma count_loop_spec n b start i v c :
  wf b -> 0 <= start -> 0 <= i -> start + i + Z.of_nat n <= bit_cnt b ->
  0 <= c <= i ->
  count_loop n b start i v c =
    Ok (c + Z.of_nat (length (filter (fun j => bit b j = v) (seqZ (start + i) (Z.of_nat n))))).
Proof.
  revert i c. induction n as [|n IH]; intros i c Hw Hs Hi Hle Hc.
  { simpl. by rw Z.add_0_r. }
  have [Hsz _] := Hw. unfold SIZE_MAX in *. cbn [count_loop].
  rw wrap_small; [lia|]. rw bitmap_test_spec //; [lia|]. cbn [obind].
  rw Nat2Z.inj_succ seqZ_cons; [lia|]. rw filter_cons Z.pred_succ.
  have -> : Z.succ (start + i) = start + (i + 1) by lia.
  destruct (decide (bit b (start + i) = v)) as [<-|Hne].
  - rw eqb_reflx wrap_small; [lia|]. rw IH //; [lia..|]. f_equal. simpl length. lia.
  - have -> : eqb (bit b (start + i)) v = false by apply eqb_false_iff. by rw IH //; lia.
Qed.

Lemma bitmap_count_spec b start cnt v :
  wf b -> 0 <= start -> 0 <= cnt -> start + cnt <= bit_cnt b ->
  bitmap_count b start cnt v = Ok (Z.of_nat (length (filter (fun j => bit b j = v) (seqZ start cnt)))).
Proof.
  intros Hw Hs Hc Hle. have [Hsz _] := Hw. unfold SIZE_MAX in *.
  unfold bitmap_count. rw (proj2 (Z.leb_le start _)) /=; [lia|].
  rw wrap_small; [lia|]. rw (proj2 (Z.leb_le (start + cnt) _)) /=; [lia|].
  rw count_loop_spec //; [lia..|]. by rw Z.add_0_r Z2Nat.id.
Qed.

(** ** Files *)
Lemma length_words_bytes ws : length (words_bytes ws) = (4 * length ws)%nat.
Proof.
  unfold words_bytes. induction ws as [|w ws IH]; [done|]. rw fmap_cons /= IH. lia.
Qed.

Lemma word_bytes_value w : 0 <= w < 2 ^ 32 ->
  w mod 256 + 256 * ((w / 256) mod 256) + 65536 * ((w / 65536) mod 256) +
    16777216 * ((w / 16777216) mod 256) = w.
Proof.
  intros Hw. have -> : w / 65536 = w / 256 / 256 by rw Z.div_div.
  have -> : w / 16777216 = w / 256 / 256 / 256 by rw !Z.div_div.
  have H1 := Z.div_mod w 256. have H2 := Z.div_mod (w / 256) 256.
  have H3 := Z.div_mod (w / 256 / 256) 256.
  rw (Z.mod_small (w / 256 / 256 / 256)); [|lia].
  split; [repeat apply Z.div_pos; lia|]. rw !Z.div_div //. apply Z.div_lt_upper_bound; lia.
Qed.

Lemma bytes_words_bytes ws t :
  Forall (fun e => 0 <= e < 2 ^ 32) ws -> bytes_words (length ws) (words_bytes ws ++ t) = ws.
Proof.
  unfold words_bytes. induction 1 as [|w ws Hw _ IH]; [done|].
  rw fmap_cons. cbn [length bytes_words mjoin list_join word_bytes app]. by rw word_bytes_value // IH.
Qed.

Lemma last_mask_bits b k : 0 <= k < 32 ->
  Z.testbit (last_mask b) k =
    if bit_cnt b mod ELEM_BITS =? 0 then true else k <? bit_cnt b mod ELEM_BITS.
Proof.
  intros Hk. unfold last_mask. have Hm := mod_bits_range (bit_cnt b).
  destruct (Z.eqb_spec (bit_cnt b mod ELEM_BITS) 0) as [|Hne]; simpl negb; cbv iota.
  - change UINT_MAX with (Z.ones 32). apply Z.ones_spec_low; lia.
  - rw Z.shiftl_1_l Z.sub_1_r -Z.ones_equiv. destruct (Z.ltb_spec k (bit_cnt b mod ELEM_BITS)).
    + apply Z.ones_spec_low; lia.
    + apply Z.ones_spec_high. lia.
Qed.

Lemma last_elem_spec b j :
  wf b -> 0 <= j < bit_cnt b -> elem_idx j = elem_cnt (bit_cnt b) - 1 ->
  bit_cnt b mod ELEM_BITS ≠ 0 -> j mod ELEM_BITS < bit_cnt b mod ELEM_BITS.
Proof.
  unfold elem_idx, elem_cnt, DIV_ROUND_UP, ELEM_BITS. intros _ Hj He Hne. dlia.
Qed.

(** Reading back the bytes of a bitmap. *)
Lemma bitmap_read_bytes b b0 :
  wf b -> wf b0 -> bit_cnt b0 = bit_cnt b ->
  exists b', bitmap_read b0 (words_bytes (bits b)) = Ok (true, b') /\ bit_cnt b' = bit_cnt b /\
    forall j, 0 <= j < bit_cnt b -> bit b' j = bit b j.
Proof.
  intros Hw Hw0 Hcnt. have Hw' := Hw. have Hw0' := Hw0.
  destruct Hw' as (Hsz & Hlen & Hr). destruct Hw0' as (_ & Hlen0 & _).
  unfold bitmap_read. rw Hcnt. destruct (Z.ltb_spec 0 (bit_cnt b)) as [Hpos|]; last first.
  { exists b0. split_and!; [done|done|]. lia. }
  have Hl : length (bits b0) = length (bits b) by (rw Hcnt -Hlen in Hlen0; lia).
  rw Hl bytes_words_bytes // length_words_bytes.
  have -> : (Z.of_nat (4 * length (bits b)) =? byte_cnt (bit_cnt b)) = true.
  { apply Z.eqb_eq. unfold byte_cnt. rw -Hlen. lia. }
  have Hi : elem_idx (bit_cnt b - 1) = elem_cnt (bit_cnt b) - 1.
  { unfold elem_idx, elem_cnt, DIV_ROUND_UP, ELEM_BITS. dlia. }
  have Hwm : wf (mk_bitmap (bit_cnt b) (bits b)) by done.
  destruct (upd_elem_spec (mk_bitmap (bit_cnt b) (bits b)) (bit_cnt b - 1)
     (fun e => Z.land e (last_mask b0)) Hwm) as (b' & E & W & C & B).
  { simpl. lia. }
  { intros e He. have Hn : 0 <= Z.land e (last_mask b0) by (apply Z.land_nonneg; lia).
    split; [done|]. apply u32_bounds_bits; [done|]. intros j Hj. by rw Z.land_spec bits_high. }
  rw Hi in E. rw E /=. exists b'. split_and!; [done|done|]. intros j Hj. rw B; [lia|]. simpl.
  destruct (Z.eqb_spec (elem_idx j) (elem_idx (bit_cnt b - 1))) as [Ej|]; [|done].
  rw Z.land_spec last_mask_bits; [apply mod_bits_range|]. rw Hcnt. unfold bit. rw Ej.
  destruct (Z.eqb_spec (bit_cnt b mod ELEM_BITS) 0) as [|Hne]; [by rw andb_true_r|].
  rw (proj2 (Z.ltb_lt _ _)); [|by rw andb_true_r].
  apply last_elem_spec; [done|done|by rw Ej|done].
Qed.

(** ** Theorems *)
Definition ex_bitmap : bitmap := mk_bitmap 40 [4294967295; 5].

Lemma ex_bitmap_wf : wf ex_bitmap.
Proof.
  unfold wf, ex_bitmap, SIZE_MAX. simpl. split; [lia|]. split; [done|].
  repeat constructor; lia.
Defined.

(** Allocation from a bitmap.  [bitmap_scan_and_flip] returns the first
    group of [cnt] bits equal to [v] and flips exactly those bits, or it
    returns [BITMAP_ERROR] and changes nothing, which happens only when there
    is no such group; releasing the group with [bitmap_set_multiple] gives back
    all the bits there were. *)
Theorem bitmap_scan_and_flip_correct b start cnt v :
  wf b -> 0 <= start <= bit_cnt b -> 0 <= cnt ->
  exists r b', bitmap_scan_and_flip b start cnt v = Ok (r, b') /\ wf b' /\ bit_cnt b' = bit_cnt b /\
    ((r = BITMAP_ERROR /\ b' = b /\
        forall k, start <= k -> k + cnt <= bit_cnt b -> ~ range_is b k cnt v) \/
     (r ≠ BITMAP_ERROR /\ first_fit b start cnt v r /\
        (forall j, 0 <= j -> bit b' j = if (r <=? j) && (j <? r + cnt) then negb v else bit b j) /\
        exists b'', bitmap_set_multiple b' r cnt v = Ok b'' /\ forall j, 0 <= j -> bit b'' j = bit b j)).
Proof.
  intros Hw Hs Hc.
  destruct (bitmap_scan_and_flip_spec b start cnt v Hw Hs Hc) as (r & b' & E & W & C & H).
  exists r, b'. split_and!; [done..|]. destruct H as [?|(Hr & Hf & Hb)]; [by left|right].
  have Hf' := Hf. destruct Hf' as (F1 & F2 & F3 & _).
  destruct (bitmap_set_multiple_spec b' r cnt v W) as (b'' & E2 & _ & _ & B2); [lia..|].
  split_and!; [done..|]. exists b''. split; [done|]. intros j Hj. rw B2 // Hb //.
  destruct ((r <=? j) && (j <? r + cnt)) eqn:Ej; [|done].
  apply andb_true_iff in Ej as [?%Z.leb_le ?%Z.ltb_lt]. symmetry. apply F3. lia.
Qed.

Lemma bitmap_scan_and_flip_correct_witness :
  exists r b', bitmap_scan_and_flip ex_bitmap 0 2 false = Ok (r, b') /\ wf b' /\ bit_cnt b' = 40 /\
    ((r = BITMAP_ERROR /\ b' = ex_bitmap /\
        forall k, 0 <= k -> k + 2 <= 40 -> ~ range_is ex_bitmap k 2 false) \/
     (r ≠ BITMAP_ERROR /\ first_fit ex_bitmap 0 2 false r /\
        (forall j, 0 <= j -> bit b' j = if (r <=? j) && (j <? r + 2) then negb false else bit ex_bitmap j) /\
        exists b'', bitmap_set_multiple b' r 2 false = Ok b'' /\ forall j, 0 <= j -> bit b'' j = bit ex_bitmap j)).
Proof. apply (bitmap_scan_and_flip_correct ex_bitmap 0 2 false); [apply ex_bitmap_wf|simpl; lia|lia]. Defined.

(** A bitmap written to a file and read back into a bitmap of the same
    size has the same bits; the unused bits of the last element are cleared,
    whatever was in memory. *)
Theorem bitmap_file_roundtrip b b0 :
  wf b -> wf b0 -> bit_cnt b0 = bit_cnt b ->
  exists file b', bitmap_write b (fun bytes => if decide (bytes = file) then Z.of_nat (length bytes) else -1) = true /\
    bitmap_read b0 file = Ok (true, b') /\ bit_cnt b' = bit_cnt b /\
    forall j, 0 <= j < bit_cnt b -> bit b' j = bit b j.
Proof.
  intros Hw Hw0 Hc. destruct (bitmap_read_bytes b b0 Hw Hw0 Hc) as (b' & H1 & H2 & H3).
  exists (words_bytes (bits b)), b'. split_and!; try done.
  destruct Hw as (_ & Hlen & _). unfold bitmap_write.
  have Hl : byte_cnt (bit_cnt b) = Z.of_nat (length (words_bytes (bits b))).
  { unfold byte_cnt. rw -Hlen length_words_bytes. lia. }
  rw Hl Nat2Z.id firstn_all. rw decide_True //. apply Z.eqb_refl.
Qed.

Lemma bitmap_file_roundtrip_witness :
  exists file b', bitmap_write ex_bitmap (fun bytes => if decide (bytes = file) then Z.of_nat (length bytes) else -1) = true /\
    bitmap_read (mk_bitmap 40 [0; 0]) file = Ok (true, b') /\ bit_cnt b' = 40 /\
    forall j, 0 <= j < 40 -> bit b' j = bit ex_bitmap j.
Proof.
  apply (bitmap_file_roundtrip ex_bitmap (mk_bitmap 40 [0; 0])); [apply ex_bitmap_wf| |done].
  unfold wf, SIZE_MAX. simpl. split; [lia|]. split; [done|]. repeat constructor; lia.
Defined.

(** A new bitmap has all its bits false, whatever the memory it was
    created in held, and [bitmap_count] returns the number of bits of a range
    with the given value. *)
Theorem bitmap_create_count words n start cnt :
  wf (mk_bitmap n words) -> 0 <= start -> 0 <= cnt -> start + cnt <= n ->
  exists b, bitmap_create true (Some words) n = Ok (Some b) /\ wf b /\ bit_cnt b = n /\
    (forall j, 0 <= j < n -> bit b j = false) /\
    bitmap_count b start cnt false = Ok cnt /\ bitmap_count b start cnt true = Ok 0.
Proof.
  intros Hw Hs Hc Hle. unfold bitmap_create, bitmap_set_all, bitmap_size.
  have [[Hn _] _] := Hw. cbn [bit_cnt] in Hn.
  destruct (bitmap_set_multiple_spec (mk_bitmap n words) 0 n false Hw) as (b & E & W & C & B); [simpl; lia..|].
  cbn [bit_cnt] in *. rw E /=. exists b.
  have Hb : forall j, 0 <= j < n -> bit b j = false.
  { intros j Hj. rw B; [lia|]. zbool; simpl; try done; lia. }
  have Hin : forall j, j ∈ seqZ start cnt -> bit b j = false.
  { intros j Hj%elem_of_seqZ. apply Hb. lia. }
  split_and!; [done|done|done|done| |].
  - rw bitmap_count_spec //; [lia|]. rw filter_Forall_true; [by apply Forall_forall|]. rw length_seqZ. f_equal. lia.
  - rw bitmap_count_spec //; [lia|]. rw filter_Forall_false //. apply Forall_forall. intros j Hj. by rw Hin.
Qed.

Lemma bitmap_create_count_witness :
  exists b, bitmap_create true (Some [7; 9]) 40 = Ok (Some b) /\ wf b /\ bit_cnt b = 40 /\
    (forall j, 0 <= j < 40 -> bit b j = false) /\
    bitmap_count b 3 10 false = Ok 10 /\ bitmap_count b 3 10 true = Ok 0.
Proof.
  apply (bitmap_create_count [7; 9] 40 3 10); [|lia..].
  unfold wf, SIZE_MAX. simpl. split; [lia|]. split; [done|]. repeat constructor; lia.
Defined.
