(* ===== verification/Hash.v ===== *)
(** * lib/kernel/hash.c: hash tables with chaining

    A table is an array of buckets, each a kernel list of elements.  The hash
    and comparison functions that the client supplies are section variables;
    [mem] is what [malloc] answers for the new bucket array of [rehash].  The
    theorems: every operation keeps the table well formed, and on the multiset
    of its elements it acts as the documentation of the function says, whatever
    [rehash] does in between. *)
From S2P Require Import Prelude.

Definition MIN_ELEMS_PER_BUCKET : Z := 1.
Definition BEST_ELEMS_PER_BUCKET : Z := 2.
Definition MAX_ELEMS_PER_BUCKET : Z := 4.
Definition FNV_32_PRIME : Z := 16777619.
Definition FNV_32_BASIS : Z := 2166136261.

Section hash.
Variable hash_fn : Z -> Z.                (* h->hash, an unsigned *)
Variable less : Z -> Z -> bool.           (* h->less *)

(** Elements are named by address. *)
Record hash := mk_hash { elem_cnt : Z; bucket_cnt : Z; buckets : list (list Z) }.

(** [find_bucket]: the index of the bucket. *)
Definition bucket_idx (h : hash) (e : Z) : Z := Z.land (hash_fn e) (bucket_cnt h - 1).

Definition get_bucket (h : hash) (i : Z) : outcome (list Z) := oget (buckets h !! Z.to_nat i).

Definition equal_elem (a b : Z) : bool := negb (less a b) && negb (less b a).

Fixpoint find_elem (bucket : list Z) (e : Z) : option Z :=
  match bucket with
  | [] => None
  | hi :: bucket => if equal_elem hi e then Some hi else find_elem bucket e
  end.

(** [elem_cnt] is a [size_t]. *)
Definition insert_elem (h : hash) (i e : Z) : outcome hash :=
  let! b := get_bucket h i in
  Ok (mk_hash (u32 (elem_cnt h + 1)) (bucket_cnt h) (<[Z.to_nat i := e :: b]> (buckets h))).

(** [list_remove] unlinks the element wherever it is. *)
Definition remove_elem (h : hash) (e : Z) : hash :=
  mk_hash (u32 (elem_cnt h - 1)) (bucket_cnt h) (filter (fun x => x <> e) <$> buckets h).

Definition turn_off_least_1bit (x : Z) : Z := Z.land x (x - 1).
Definition is_power_of_2 (x : Z) : bool := negb (x =? 0) && (turn_off_least_1bit x =? 0).

(** [while (!is_power_of_2 (new_bucket_cnt)) ...]: a pass clears a bit, so that
    a [size_t] needs at most 32. *)
Fixpoint power_loop (fuel : nat) (x : Z) : outcome Z :=
  if is_power_of_2 x then Ok x
  else match fuel with O => Err NoFuel | S fuel => power_loop fuel (turn_off_least_1bit x) end.

(** Moving the elements of one old bucket, then of all. *)
Fixpoint move_bucket (b : list Z) (h : hash) : outcome hash :=
  match b with
  | [] => Ok h
  | e :: b =>
    let i := bucket_idx h e in
    let! nb := get_bucket h i in
    move_bucket b (mk_hash (elem_cnt h) (bucket_cnt h) (<[Z.to_nat i := e :: nb]> (buckets h)))
  end.
Fixpoint move_all (bs : list (list Z)) (h : hash) : outcome hash :=
  match bs with
  | [] => Ok h
  | b :: bs => let! h := move_bucket b h in move_all bs h
  end.

Definition rehash (mem : bool) (h : hash) : outcome hash :=
  let new_bucket_cnt := elem_cnt h / BEST_ELEMS_PER_BUCKET in
  let new_bucket_cnt := if new_bucket_cnt <? 4 then 4 else new_bucket_cnt in
  let! new_bucket_cnt := power_loop 32 new_bucket_cnt in
  if new_bucket_cnt =? bucket_cnt h then Ok h
  else if negb mem then Ok h
  else move_all (buckets h)
         (mk_hash (elem_cnt h) new_bucket_cnt (replicate (Z.to_nat new_bucket_cnt) [])).

(** ** Operations *)
Definition hash_clear (h : hash) : hash :=
  mk_hash 0 (bucket_cnt h) (replicate (Z.to_nat (bucket_cnt h)) []).

(** The elements that [destructor] is called on, in order. *)
Definition hash_clear_calls (h : hash) : list Z := mjoin (buckets h).

(** [hash_destroy]: the elements that the destructor sees, if there is one, and
    the table, whose buckets are freed. *)
Definition hash_destroy (destructor : bool) (h : hash) : list Z * hash :=
  let h' := if destructor then hash_clear h else h in
  (if destructor then hash_clear_calls h else [], mk_hash (elem_cnt h') (bucket_cnt h') []).

Definition hash_init (mem : bool) : option hash :=
  if mem then Some (hash_clear (mk_hash 0 4 (replicate 4 []))) else None.

Definition hash_insert (mem : bool) (h : hash) (new : Z) : outcome (option Z * hash) :=
  let i := bucket_idx h new in
  let! b := get_bucket h i in
  let old := find_elem b new in
  let! h := match old with None => insert_elem h i new | Some _ => Ok h end in
  let! h := rehash mem h in
  Ok (old, h).

Definition hash_replace (mem : bool) (h : hash) (new : Z) : outcome (option Z * hash) :=
  let i := bucket_idx h new in
  let! b := get_bucket h i in
  let old := find_elem b new in
  let h := match old with Some o => remove_elem h o | None => h end in
  let! h := insert_elem h i new in
  let! h := rehash mem h in
  Ok (old, h).

Definition hash_find (h : hash) (e : Z) : outcome (option Z) :=
  let! b := get_bucket h (bucket_idx h e) in Ok (find_elem b e).

Definition hash_delete (mem : bool) (h : hash) (e : Z) : outcome (option Z * hash) :=
  let! b := get_bucket h (bucket_idx h e) in
  match find_elem b e with
  | None => Ok (None, h)
  | Some found => let! h := rehash mem (remove_elem h found) in Ok (Some found, h)
  end.

Definition hash_size (h : hash) : Z := elem_cnt h.
Definition hash_empty (h : hash) : bool := elem_cnt h =? 0.

(** The elements that [action] is called on, in order. *)
Definition hash_apply_calls (h : hash) : list Z := mjoin (buckets h).

(** ** Iteration

    [bucket] is an index; [at_] the position of [i->elem] in its bucket, -1 for
    the list head that [hash_first] leaves there; [None] is [NULL]. *)
Record hash_iterator := mk_iter { it_bucket : Z; it_at : option Z }.

Definition hash_first (h : hash) : hash_iterator := mk_iter 0 (Some (-1)).

Definition elem_at (h : hash) (b p : Z) : outcome Z :=
  let! l := get_bucket h b in if p <? 0 then Err Fault else oget (l !! Z.to_nat p).

(** The loop over empty buckets; a pass advances the bucket. *)
Fixpoint next_loop (fuel : nat) (h : hash) (b p : Z) : outcome hash_iterator :=
  let! l := get_bucket h b in
  if p =? Z.of_nat (length l) then
    if bucket_cnt h <=? b + 1 then Ok (mk_iter (b + 1) None)
    else match fuel with O => Err NoFuel | S fuel => next_loop fuel h (b + 1) 0 end
  else Ok (mk_iter b (Some p)).

Definition hash_next (h : hash) (i : hash_iterator) : outcome (option Z * hash_iterator) :=
  match it_at i with
  | None => Err Fault
  | Some p =>
    let! i := next_loop (Z.to_nat (bucket_cnt h)) h (it_bucket i) (p + 1) in
    match it_at i with
    | None => Ok (None, i)
    | Some p => let! e := elem_at h (it_bucket i) p in Ok (Some e, i)
    end
  end.

(** [hash_cur]: before the first [hash_next] it is not an element of the table. *)
Definition hash_cur (h : hash) (i : hash_iterator) : outcome (option Z) :=
  match it_at i with
  | None => Ok None
  | Some p => let! e := elem_at h (it_bucket i) p in Ok (Some e)
  end.

(** The iteration idiom: all the elements that [hash_next] returns. *)
Fixpoint iterate (fuel : nat) (h : hash) (i : hash_iterator) : outcome (list Z) :=
  let! (e, i) := hash_next h i in
  match e with
  | None => Ok []
  | Some e => match fuel with
              | O => Err NoFuel
              | S fuel => let! es := iterate fuel h i in Ok (e :: es)
              end
  end.
End hash.

(** ** Sample hash functions *)
Definition hash_bytes (buf : list Z) : Z :=
  fold_left (fun h c => Z.lxor (u32 (h * FNV_32_PRIME)) c) buf FNV_32_BASIS.
Definition hash_string (s : list Z) : Z := hash_bytes s.
Definition hash_int (i : Z) : Z :=
  let w := u32 i in
  hash_bytes [w mod 256; (w / 256) mod 256; (w / 65536) mod 256; (w / 16777216) mod 256].

(** ** Powers of two *)
Lemma turn_off_odd t p :
  0 <= t -> 0 <= p -> turn_off_least_1bit (2 ^ t * (2 * p + 1)) = 2 ^ (t + 1) * p.
Proof.
  intros Ht Hp. have Hpt : 0 < 2 ^ t by apply Z.pow_pos_nonneg.
  have Hp1 : 2 ^ (t + 1) = 2 * 2 ^ t by rw Z.pow_add_r //; lia.
  have Hp2 : 0 < 2 ^ (t + 1) by lia.
  rw /turn_off_least_1bit. set b := _ - 1. have Hb : b = 2 ^ t - 1 + p * 2 ^ (t + 1) by rw /b Hp1; lia.
  have Hmod : b mod 2 ^ (t + 1) = Z.ones t.
  { rw Hb Z.mod_add; [lia|]. rw Z.mod_small; [lia|]. rw Z.ones_equiv. lia. }
  have Hdiv : b / 2 ^ (t + 1) = p.
  { rw Hb Z.div_add; [lia|]. rw Z.div_small; lia. }
  apply Z.bits_inj'. intros m Hm. rw Z.land_spec.
  have -> : 2 ^ t * (2 * p + 1) = (2 * p + 1) * 2 ^ t by lia. rw Z.mul_pow2_bits // (Z.mul_comm (2 ^ (t + 1))).
  rw Z.mul_pow2_bits; [lia|]. destruct (Z.lt_ge_cases m (t + 1)) as [Hlt|Hge].
  - rw (Z.testbit_neg_r p); [lia|]. rw -(Z.mod_pow2_bits_low b (t + 1) m) // Hmod.
    destruct (Z.lt_ge_cases m t) as [Hlt2|Hge2].
    + rw (Z.testbit_neg_r (2 * p + 1)); [lia|]. done.
    + rw Z.ones_spec_high; [lia|]. by rw andb_false_r.
  - have -> : Z.testbit b m = Z.testbit p (m - (t + 1)).
    { rw -Hdiv Z.div_pow2_bits; [lia..|]. f_equal. lia. }
    have -> : m - t = Z.succ (m - (t + 1)) by lia. rw Z.testbit_odd_succ; [lia|]. by rw andb_diag.
Qed.

Lemma turn_off_pow t : 0 <= t -> turn_off_least_1bit (2 ^ t) = 0.
Proof. intros Ht. have := turn_off_odd t 0 Ht ltac:(lia). by rw Z.mul_0_r Z.mul_1_r Z.mul_0_r. Qed.

(** The loop ends at a power of two that is at most [x] and more than half of it. *)
Lemma power_loop_spec (y : positive) t fuel :
  0 <= t -> (Pos.size_nat y <= S fuel)%nat ->
  exists k, power_loop fuel (2 ^ t * Z.pos y) = Ok (2 ^ k) /\ 0 <= k /\ 2 ^ k <= 2 ^ t * Z.pos y < 2 * 2 ^ k.
Proof.
  revert t fuel. induction y as [p IH|p IH|]; intros t fuel Ht Hf.
  - have Hpt : 0 < 2 ^ t by apply Z.pow_pos_nonneg.
    have He : 2 ^ t * Z.pos p~1 = 2 ^ t * (2 * Z.pos p + 1) by lia. rw He.
    have Hoff := turn_off_odd t (Z.pos p) Ht ltac:(lia).
    have Hp1 : 0 < 2 ^ (t + 1) by apply Z.pow_pos_nonneg; lia.
    have Hnp : is_power_of_2 (2 ^ t * (2 * Z.pos p + 1)) = false.
    { rw /is_power_of_2 Hoff (proj2 (Z.eqb_neq (2 ^ (t + 1) * _) 0)); [nia|]. by rw andb_false_r. }
    destruct fuel as [|fuel]; [simpl in Hf; have := Pos.size_nat_monotone 1 p; destruct p; simpl in Hf; lia|].
    cbn [power_loop]. rw Hnp Hoff. destruct (IH (t + 1) fuel) as (k & -> & Hk & Hb1 & Hb2); [lia|simpl in Hf; lia|].
    have Hp2 : 2 ^ (t + 1) = 2 * 2 ^ t by rw Z.pow_add_r //; lia. rw Hp2 in Hb1 Hb2. exists k. split_and!; [done|lia|lia|].
    have Htk : t < k.
    { apply (Z.pow_lt_mono_r_iff 2); [lia|lia|]. nia. }
    have Hk2 : exists j, 2 * 2 ^ k = 2 ^ (t + 1) * j.
    { exists (2 ^ (k - t)). rw -Z.pow_add_r; [lia|lia|]. rw -Z.pow_succ_r; [lia|]. f_equal. lia. }
    destruct Hk2 as [j Hj]. rw Hp2 in Hj. set P := 2 ^ t in Hpt Hj Hb2 |- *.
    have Hpj : Z.pos p < j by (apply (Z.mul_lt_mono_pos_l P); lia). have : P * (Z.pos p + 1) <= P * j by (apply Z.mul_le_mono_nonneg_l; lia). lia.
  - have -> : 2 ^ t * Z.pos p~0 = 2 ^ (t + 1) * Z.pos p by rw Z.pow_add_r; lia.
    apply IH; [lia|simpl in Hf; lia].
  - exists t. rw Z.mul_1_r. have Hpt : 0 < 2 ^ t by apply Z.pow_pos_nonneg.
    have Hp : is_power_of_2 (2 ^ t) = true by rw /is_power_of_2 turn_off_pow // (proj2 (Z.eqb_neq _ _)) //; lia.
    split_and!; [|done|lia|lia]. by destruct fuel; cbn [power_loop]; rw Hp.
Qed.

(** ** Specification

    What the table promises, on the plain list of its elements. *)
Inductive hash_request := HInsert (e : Z) | HReplace (e : Z) | HFind (e : Z) | HDelete (e : Z).

(** The laws that a client's functions must satisfy: elements neither of which
    is less than the other are equal, equal elements have equal hashes, and a
    hash is an [unsigned]. *)
Class HashLaws (hash_fn : Z -> Z) (less : Z -> Z -> bool) : Prop := {
  less_irrefl a : less a a = false;
  equal_trans a b c :
    equal_elem less a b = true -> equal_elem less b c = true -> equal_elem less a c = true;
  hash_equal a b : equal_elem less a b = true -> hash_fn a = hash_fn b;
  hash_range a : 0 <= hash_fn a < 2 ^ 32 }.

Section refinement.
Context (hash_fn : Z -> Z) (less : Z -> Z -> bool) `{!HashLaws hash_fn less}.
Implicit Types (h : hash) (l : list Z).

Definition hserve (r : hash_request) (mem : bool) (h : hash) : outcome (option Z * hash) :=
  match r with
  | HInsert e => hash_insert hash_fn less mem h e
  | HReplace e => hash_replace hash_fn less mem h e
  | HFind e => let! o := hash_find hash_fn less h e in Ok (o, h)
  | HDelete e => hash_delete hash_fn less mem h e
  end.

Definition drop_elem (o : option Z) (l : list Z) : list Z :=
  match o with Some o => filter (fun x => x <> o) l | None => l end.

Definition hspec (r : hash_request) (l : list Z) : option Z * list Z :=
  match r with
  | HInsert e => let o := find_elem less l e in (o, if o then l else e :: l)
  | HReplace e => let o := find_elem less l e in (o, e :: drop_elem o l)
  | HFind e => (find_elem less l e, l)
  | HDelete e => let o := find_elem less l e in (o, drop_elem o l)
  end.

(** A sequence of requests, with what [malloc] answers at each. *)
Fixpoint hserve_all (rs : list (hash_request * bool)) (h : hash) : outcome (list (option Z) * hash) :=
  match rs with
  | [] => Ok ([], h)
  | (r, mem) :: rs => let! (o, h) := hserve r mem h in let! (os, h) := hserve_all rs h in Ok (o :: os, h)
  end.
Fixpoint hspec_all (rs : list hash_request) (l : list Z) : list (option Z) * list Z :=
  match rs with
  | [] => ([], l)
  | r :: rs => let ol := hspec r l in let osl := hspec_all rs ol.2 in (ol.1 :: osl.1, osl.2)
  end.

Definition elems (h : hash) : list Z := mjoin (buckets h).

(** No two different elements are equal. *)
Definition distinct l : Prop := NoDup l /\ forall a b, a ∈ l -> b ∈ l -> equal_elem less a b = true -> a = b.

Definition sized h : Prop :=
  exists k, 2 <= k < 32 /\ bucket_cnt h = 2 ^ k /\ Z.of_nat (length (buckets h)) = 2 ^ k.
Definition placed h : Prop :=
  forall i b e, buckets h !! i = Some b -> e ∈ b -> Z.to_nat (bucket_idx hash_fn h e) = i.

Record hash_wf h : Prop := {
  wf_sized : sized h;
  wf_placed : placed h;
  wf_distinct : distinct (elems h);
  wf_count : elem_cnt h = Z.of_nat (length (elems h)) }.

Lemma equal_refl a : equal_elem less a a = true.
Proof. by rw /equal_elem less_irrefl. Qed.
Lemma equal_sym a b : equal_elem less a b = equal_elem less b a.
Proof. by rw /equal_elem andb_comm. Qed.

Lemma bucket_in h e : sized h -> exists b, get_bucket h (bucket_idx hash_fn h e) = Ok b /\
  buckets h !! Z.to_nat (bucket_idx hash_fn h e) = Some b.
Proof.
  intros (k & Hk & Hc & Hl). have Hp : 0 < 2 ^ k by apply Z.pow_pos_nonneg; lia.
  have Hb : 0 <= bucket_idx hash_fn h e < 2 ^ k.
  { rw /bucket_idx Hc. have -> : 2 ^ k - 1 = Z.ones k by rw Z.ones_equiv; lia.
    rw Z.land_ones; [lia|]. by apply Z.mod_pos_bound. }
  destruct (lookup_lt_is_Some_2 (buckets h) (Z.to_nat (bucket_idx hash_fn h e))) as [b Hlk]; [lia|].
  exists b. split; [|done]. by rw /get_bucket Hlk.
Qed.

Lemma find_elem_Some l e x : find_elem less l e = Some x -> x ∈ l /\ equal_elem less x e = true.
Proof.
  induction l as [|y l IH]; simpl; [done|]. destruct (equal_elem less y e) eqn:He.
  - intros [= ->]. split; [apply list_elem_of_here|done].
  - intros [Hin Heq]%IH. split; [by apply list_elem_of_further|done].
Qed.
Lemma find_elem_None l e : find_elem less l e = None <-> forall x, x ∈ l -> equal_elem less x e = false.
Proof.
  induction l as [|y l IH]; simpl.
  - split; [|done]. intros _ x Hx. by apply not_elem_of_nil in Hx.
  - destruct (equal_elem less y e) eqn:He.
    + split; [done|]. intros Hall. specialize (Hall y (list_elem_of_here _ _)). congruence.
    + rw IH. split.
      * intros Hall x [-> | Hx]%elem_of_cons; [done|by apply Hall].
      * intros Hall x Hx. apply Hall. by apply list_elem_of_further.
Qed.

(** What is found is the only element equal to [e]. *)
Lemma find_elem_unique l e x :
  distinct l -> x ∈ l -> equal_elem less x e = true -> find_elem less l e = Some x.
Proof.
  intros [_ Hd] Hx He. destruct (find_elem less l e) as [y|] eqn:Hf.
  - apply find_elem_Some in Hf as [Hy Hye]. f_equal. apply Hd; [done..|].
    apply (equal_trans y e x); [done|]. by rw equal_sym.
  - have := proj1 (find_elem_None l e) Hf x Hx. congruence.
Qed.

Lemma distinct_perm l l' : l ≡ₚ l' -> distinct l -> distinct l'.
Proof.
  intros Hp [Hn Hd]. split; [by rw -Hp|]. intros a b Ha Hb. rewrite <- Hp in Ha, Hb. by apply Hd.
Qed.

Lemma find_elem_perm l l' e : l ≡ₚ l' -> distinct l -> find_elem less l e = find_elem less l' e.
Proof.
  intros Hp Hd. have Hd' := distinct_perm _ _ Hp Hd. destruct (find_elem less l e) as [x|] eqn:Hf; symmetry.
  - apply find_elem_Some in Hf as [Hx Hxe]. apply find_elem_unique; [done|by rewrite <- Hp|done].
  - apply find_elem_None. intros x Hx. rewrite <- Hp in Hx. by apply (proj1 (find_elem_None l e) Hf).
Qed.

Lemma elem_of_elems h x : x ∈ elems h <-> exists i b, buckets h !! i = Some b /\ x ∈ b.
Proof.
  rw /elems list_elem_of_join. split.
  - intros (b & Hx & Hb). apply list_elem_of_lookup in Hb as [i Hi]. eauto.
  - intros (i & b & Hi & Hx). exists b. split; [done|]. by eapply list_elem_of_lookup_2.
Qed.

(** Looking in the bucket of [e] is looking in the whole table. *)
Lemma find_in_bucket h e b :
  placed h -> distinct (elems h) -> buckets h !! Z.to_nat (bucket_idx hash_fn h e) = Some b ->
  find_elem less b e = find_elem less (elems h) e.
Proof.
  intros Hpl Hd Hb. destruct (find_elem less b e) as [x|] eqn:Hf; symmetry.
  - apply find_elem_Some in Hf as [Hx Hxe]. apply find_elem_unique; [done| |done]. apply elem_of_elems. eauto.
  - apply find_elem_None. intros x Hx. apply elem_of_elems in Hx as (i & b' & Hi & Hx).
    destruct (equal_elem less x e) eqn:Hxe; [|done]. exfalso.
    have Hi' := Hpl _ _ _ Hi Hx. rewrite /bucket_idx (hash_equal x e Hxe) in Hi'.
    rewrite /bucket_idx Hi' Hi in Hb. injection Hb as ->.
    have := proj1 (find_elem_None b e) Hf x Hx. congruence.
Qed.

Lemma join_insert_cons (bs : list (list Z)) i b e :
  bs !! i = Some b -> mjoin (<[i := e :: b]> bs) ≡ₚ e :: mjoin bs.
Proof.
  revert i. induction bs as [|c bs IH]; intros [|i] Hi; simpl in *; [done|done| |].
  - by injection Hi as ->.
  - rewrite (IH i Hi). by rewrite -Permutation_middle.
Qed.
Lemma join_filter (P : Z -> Prop) `{!forall x, Decision (P x)} (bs : list (list Z)) :
  mjoin (filter P <$> bs) = filter P (mjoin bs).
Proof. induction bs as [|c bs IH]; simpl; [done|]. by rewrite filter_app IH. Qed.
Lemma join_replicate_nil n : mjoin (replicate n ([] : list Z)) = [].
Proof. by induction n. Qed.

(** Pushing [e] on its bucket. *)
Lemma bucket_push_ok h e n : sized h -> placed h ->
  exists b, get_bucket h (bucket_idx hash_fn h e) = Ok b /\
  let h' := mk_hash n (bucket_cnt h) (<[Z.to_nat (bucket_idx hash_fn h e) := e :: b]> (buckets h)) in
  sized h' /\ placed h' /\ elems h' ≡ₚ e :: elems h.
Proof.
  intros Hs Hp. destruct (bucket_in h e Hs) as (b & Hg & Hb). exists b. split; [done|]. simpl. split_and!.
  - destruct Hs as (k & Hk & Hc & Hl). exists k. by rewrite /= length_insert.
  - intros i c x Hi Hx. simpl in Hi. destruct (decide (i = Z.to_nat (bucket_idx hash_fn h e))) as [-> | Hne].
    + rewrite list_lookup_insert_eq in Hi; [by eapply lookup_lt_Some|]. injection Hi as <-.
      apply elem_of_cons in Hx as [-> | Hx]; [done|]. by apply (Hp _ b).
    + rewrite list_lookup_insert_ne // in Hi. by apply (Hp _ c).
  - by apply join_insert_cons.
Qed.

Lemma move_bucket_ok b h : sized h -> placed h ->
  exists h', move_bucket hash_fn b h = Ok h' /\ sized h' /\ placed h' /\ elem_cnt h' = elem_cnt h /\
    bucket_cnt h' = bucket_cnt h /\ elems h' ≡ₚ b ++ elems h.
Proof.
  revert h. induction b as [|e b IH]; intros h Hs Hp; [by exists h|].
  destruct (bucket_push_ok h e (elem_cnt h) Hs Hp) as (c & Hg & Hs1 & Hp1 & He1).
  destruct (IH _ Hs1 Hp1) as (h' & Hm & Hs' & Hp' & Hc' & Hb' & He'). exists h'. split_and!; [|done..|].
  - by rewrite /= Hg.
  - rewrite He' He1. by rewrite -Permutation_middle.
Qed.

Lemma move_all_ok bs h : sized h -> placed h ->
  exists h', move_all hash_fn bs h = Ok h' /\ sized h' /\ placed h' /\ elem_cnt h' = elem_cnt h /\
    elems h' ≡ₚ mjoin bs ++ elems h.
Proof.
  revert h. induction bs as [|b bs IH]; intros h Hs Hp; [by exists h|].
  destruct (move_bucket_ok b h Hs Hp) as (h1 & Hm1 & Hs1 & Hp1 & Hc1 & _ & He1).
  destruct (IH _ Hs1 Hp1) as (h' & Hm & Hs' & Hp' & Hc' & He'). exists h'. split_and!; [|done..|congruence|].
  - by rewrite /= Hm1.
  - rewrite He' He1 /=. rewrite !(assoc_L (++)). by rewrite (Permutation_app_comm (mjoin bs)).
Qed.

Lemma power_loop_ok x : 4 <= x < 2 ^ 32 -> exists k, 2 <= k < 32 /\ power_loop 32 x = Ok (2 ^ k).
Proof.
  intros Hx. destruct x as [|x|x]; [lia| |lia].
  destruct (power_loop_spec x 0 32) as (k & Hl & Hk & Hb); [lia| |].
  - have Hs := Pos.size_le x. have Hn : Pos.size_nat x = Pos.to_nat (Pos.size x).
    { clear. induction x; simpl; rewrite ?IHx ?Pos2Nat.inj_succ //. }
    have Hle : (2 ^ (Z.pos (Pos.size x)) <= 2 * Z.pos x).
    { rewrite -Pos2Z.inj_pow. lia. }
    have : Z.pos (Pos.size x) < 34; [|lia]. apply (Z.pow_lt_mono_r_iff 2); lia.
  - rewrite Z.pow_0_r Z.mul_1_l in Hl Hb. exists k. split; [|done]. split.
    + have : 2 < k + 1; [|lia]. apply (Z.pow_lt_mono_r_iff 2); [lia..|]. rewrite Z.pow_add_r; lia.
    + apply (Z.pow_lt_mono_r_iff 2); lia.
Qed.

(** Whatever [malloc] answers, [rehash] keeps the table and its elements. *)
Lemma rehash_ok mem h : hash_wf h -> elem_cnt h < 2 ^ 32 ->
  exists h', rehash hash_fn mem h = Ok h' /\ hash_wf h' /\ elems h' ≡ₚ elems h.
Proof.
  intros Hwf Hn. destruct (Hwf) as [Hs Hp Hd Hc]. rewrite /rehash.
  set x := if _ <? 4 then _ else _. have Hx : 4 <= x < 2 ^ 32.
  { rewrite /x. rewrite /BEST_ELEMS_PER_BUCKET. destruct (Z.ltb_spec (elem_cnt h / 2) 4); [lia|].
    split; [lia|]. apply Z.div_lt_upper_bound; lia. }
  destruct (power_loop_ok x Hx) as (k & Hk & ->). cbn [obind].
  destruct (2 ^ k =? bucket_cnt h); [by exists h|]. destruct mem; [|by exists h]. cbn [negb].
  set h0 := mk_hash _ _ _. have H2 : 0 < 2 ^ k by apply Z.pow_pos_nonneg; lia.
  destruct (move_all_ok (buckets h) h0) as (h' & Hm & Hs' & Hp' & Hc' & He').
  - exists k. split_and!; [lia..|done|]. rewrite /= length_replicate. lia.
  - intros i b e Hi He. apply lookup_replicate in Hi as [-> _]. by apply not_elem_of_nil in He.
  - have Hel : elems h' ≡ₚ elems h by rewrite He' /elems join_replicate_nil app_nil_r.
    exists h'. split_and!; [done| |done]. split; [done..| |].
    + by apply (distinct_perm (elems h)).
    + rewrite Hc' /= Hc. by rewrite Hel.
Qed.

Lemma insert_elem_ok h e :
  sized h -> placed h -> elem_cnt h = Z.of_nat (length (elems h)) -> distinct (e :: elems h) ->
  elem_cnt h + 1 < 2 ^ 32 ->
  exists h', insert_elem h (bucket_idx hash_fn h e) e = Ok h' /\ hash_wf h' /\ elems h' ≡ₚ e :: elems h /\
    elem_cnt h' = elem_cnt h + 1.
Proof.
  intros Hs Hp Hc Hd Hn. destruct (bucket_push_ok h e (u32 (elem_cnt h + 1)) Hs Hp) as (b & Hg & Hs' & Hp' & He').
  have Hw : u32 (elem_cnt h + 1) = elem_cnt h + 1 by apply wrap_small; lia.
  rewrite /insert_elem Hg /=. eexists; split; [done|]. split_and!; [|done|done]. split; [done..| |].
  - by eapply distinct_perm.
  - rewrite He' /= Hw Hc. lia.
Qed.

Lemma distinct_sub l l' : l' `sublist_of` l -> distinct l -> distinct l'.
Proof.
  intros Hsub [Hn Hd]. split; [by eapply sublist_NoDup|]. intros a b Ha Hb.
  apply Hd; by eapply sublist_subseteq.
Qed.

Lemma remove_elem_ok h x : hash_wf h -> x ∈ elems h -> elem_cnt h < 2 ^ 32 ->
  hash_wf (remove_elem h x) /\ elems (remove_elem h x) = filter (fun y => y <> x) (elems h) /\
  elem_cnt (remove_elem h x) = elem_cnt h - 1.
Proof.
  intros [Hs Hp Hd Hc] Hx Hn.
  have He : elems (remove_elem h x) = filter (fun y => y <> x) (elems h) by apply join_filter.
  have Hlen : length (elems h) = S (length (filter (fun y => y <> x) (elems h))).
  { destruct Hd as [Hnd _]. clear -Hx Hnd. induction (elems h) as [|y l IH]; [by apply not_elem_of_nil in Hx|].
    apply NoDup_cons in Hnd as [Hy Hnd]. destruct (decide (y = x)) as [-> | Hne].
    - rewrite filter_cons_False; [tauto|]. simpl. f_equal. rewrite filter_Forall_true //.
      apply Forall_forall. intros z Hz ->. done.
    - rewrite filter_cons_True // /=. f_equal. apply IH; try done. by apply elem_of_cons in Hx as [-> | ?]. }
  have Hw : u32 (elem_cnt h - 1) = elem_cnt h - 1 by apply wrap_small; lia.
  split_and!; [|done|done]. split.
  - destruct Hs as (k & Hk & Hb & Hl). exists k. by rewrite /= length_fmap.
  - intros i b e Hi Heb. simpl in Hi. apply list_lookup_fmap_Some in Hi as (c & -> & Hi).
    apply list_elem_of_filter in Heb as [_ Heb]. by apply (Hp _ c).
  - rewrite He. eapply distinct_sub; [|done]. apply sublist_filter.
  - rewrite He /= Hw Hc Hlen. lia.
Qed.

(** Looking for [e] is looking in any list of the elements. *)
Lemma find_ok h l e : hash_wf h -> l ≡ₚ elems h ->
  exists b, get_bucket h (bucket_idx hash_fn h e) = Ok b /\ find_elem less b e = find_elem less l e.
Proof.
  intros [Hs Hp Hd Hc] Hl. destruct (bucket_in h e Hs) as (b & Hg & Hb). exists b. split; [done|].
  rewrite (find_in_bucket h e b) //. by apply find_elem_perm.
Qed.

(** Adding an element that equals none, then [rehash]. *)
Lemma insert_fresh_ok mem h i e : hash_wf h -> i = bucket_idx hash_fn h e -> elem_cnt h + 1 < 2 ^ 32 ->
  (forall x, x ∈ elems h -> equal_elem less x e = false) ->
  exists h2 h3, insert_elem h i e = Ok h2 /\ rehash hash_fn mem h2 = Ok h3 /\ hash_wf h3 /\
    elems h3 ≡ₚ e :: elems h.
Proof.
  intros [Hs Hp Hd Hc] -> Hn Hno. destruct (insert_elem_ok h e) as (h2 & Hi & Hw2 & He2 & Hc2); [done..| |lia|].
  - split.
    + apply NoDup_cons. split; [|apply Hd]. intros Hin%Hno. by rewrite equal_refl in Hin.
    + intros a b [-> | Ha]%elem_of_cons [-> | Hb]%elem_of_cons Hab; [done| | |by apply Hd].
      * apply Hno in Hb. rewrite equal_sym in Hb. congruence.
      * apply Hno in Ha. congruence.
  - destruct (rehash_ok mem h2 Hw2) as (h3 & Hr & Hw3 & He3); [lia|]. exists h2, h3. split_and!; [done..|].
    by rewrite He3.
Qed.

(** Unlinking what was found. *)
Lemma drop_ok h l e x : hash_wf h -> l ≡ₚ elems h -> elem_cnt h < 2 ^ 32 -> find_elem less l e = Some x ->
  hash_wf (remove_elem h x) /\ drop_elem (Some x) l ≡ₚ elems (remove_elem h x) /\
  elem_cnt (remove_elem h x) = elem_cnt h - 1.
Proof.
  intros Hwf Hl Hn [Hx Hxe]%find_elem_Some. rewrite Hl in Hx.
  destruct (remove_elem_ok h x Hwf Hx) as (Hw' & He' & Hc'); [lia|]. split_and!; [done| |done].
  rewrite He' /=. by rewrite Hl.
Qed.

(** One request. *)
Lemma hserve_ok r mem h l : hash_wf h -> l ≡ₚ elems h -> Z.of_nat (length l) + 1 < 2 ^ 32 ->
  exists h', hserve r mem h = Ok ((hspec r l).1, h') /\ hash_wf h' /\ (hspec r l).2 ≡ₚ elems h' /\
    (length (hspec r l).2 <= S (length l))%nat.
Proof.
  intros Hwf Hl Hn. destruct (Hwf) as [Hs Hp Hd Hc].
  have Hdl : distinct l by eapply distinct_perm; [symmetry|].
  have Hcl : elem_cnt h = Z.of_nat (length l) by rewrite Hc Hl.
  have Hfind : forall e, exists b, get_bucket h (bucket_idx hash_fn h e) = Ok b /\
    find_elem less b e = find_elem less l e by intros e; apply find_ok.
  have Hnone : forall e, find_elem less l e = None -> forall x, x ∈ elems h -> equal_elem less x e = false.
  { intros e Hx x Hin. rewrite -Hl in Hin. by apply (proj1 (find_elem_None l e) Hx). }
  have Hlen : forall x, (length (drop_elem x l) <= length l)%nat.
  { intros [x|]; [|done]. apply length_filter. }
  destruct r as [e|e|e|e]; simpl.
  - rewrite /hash_insert. destruct (Hfind e) as (b & -> & Hf). cbn [obind]. rewrite Hf.
    destruct (find_elem less l e) as [x|] eqn:Hx.
    + destruct (rehash_ok mem h Hwf) as (h' & Hr & Hw' & He'); [lia|]. exists h'. rewrite /= Hr. split_and!; [done..| |lia].
      by rewrite He'.
    + destruct (insert_fresh_ok mem h _ e Hwf eq_refl) as (h2 & h3 & Hi & Hr & Hw & He); [lia|by apply Hnone|].
      exists h3. rewrite Hi /= Hr. split_and!; [done..| |lia]. by rewrite He Hl.
  - rewrite /hash_replace. destruct (Hfind e) as (b & -> & Hf). cbn [obind]. rewrite Hf.
    destruct (find_elem less l e) as [x|] eqn:Hx.
    + destruct (drop_ok h l e x Hwf Hl ltac:(lia) Hx) as (Hw1 & He1 & Hc1).
      destruct (insert_fresh_ok mem (remove_elem h x) (bucket_idx hash_fn h e) e Hw1) as (h2 & h3 & Hi & Hr & Hw & He); [done|lia| |].
      { intros y Hy. rewrite -He1 in Hy. apply list_elem_of_filter in Hy as [Hne Hy].
        destruct (equal_elem less y e) eqn:Hye; [|done]. exfalso. apply Hne.
        have := find_elem_unique l e y Hdl Hy Hye. congruence. }
      exists h3. rewrite Hi /= Hr. split_and!; [done..| |have := Hlen (Some x); simpl; lia]. rewrite He. by rewrite -He1.
    + destruct (insert_fresh_ok mem h _ e Hwf eq_refl) as (h2 & h3 & Hi & Hr & Hw & He); [lia|by apply Hnone|].
      exists h3. rewrite Hi /= Hr. split_and!; [done..| |lia]. by rewrite He Hl.
  - rewrite /hash_find. destruct (Hfind e) as (b & -> & Hf). cbn [obind]. rewrite Hf. exists h. split_and!; [done..|lia].
  - rewrite /hash_delete. destruct (Hfind e) as (b & -> & Hf). cbn [obind]. rewrite Hf.
    destruct (find_elem less l e) as [x|] eqn:Hx; [|by exists h; split_and!; [..|simpl; lia]].
    destruct (drop_ok h l e x Hwf Hl ltac:(lia) Hx) as (Hw1 & He1 & Hc1).
    destruct (rehash_ok mem _ Hw1) as (h' & -> & Hw' & He'); [lia|]. exists h'. split_and!; [done..| |].
    + by rewrite He' -He1.
    + have := Hlen (Some x). simpl. lia.
Qed.

Lemma hserve_all_ok rs h l :
  hash_wf h -> l ≡ₚ elems h -> Z.of_nat (length l + length rs) < 2 ^ 32 ->
  exists h', hserve_all rs h = Ok ((hspec_all rs.*1 l).1, h') /\ hash_wf h' /\ (hspec_all rs.*1 l).2 ≡ₚ elems h'.
Proof.
  revert h l. induction rs as [|[r mem] rs IH]; intros h l Hwf Hl Hn; [by exists h|].
  destruct (hserve_ok r mem h l Hwf Hl) as (h1 & Hr & Hw1 & Hl1 & Hb); [simpl in Hn; lia|].
  destruct (IH h1 (hspec r l).2 Hw1 Hl1) as (h' & Ha & Hw' & Hl'); [simpl in Hn; lia|].
  exists h'. cbn [hserve_all]. rewrite Hr. cbn [obind]. by rewrite Ha.
Qed.

(** ** Iteration visits every element once *)
Definition rest h (b p : Z) : list Z :=
  match drop (Z.to_nat b) (buckets h) with
  | [] => []
  | l :: ls => drop (Z.to_nat p) l ++ mjoin ls
  end.

Lemma next_loop_ok fuel h b p l : sized h -> 0 <= b -> 0 <= p ->
  buckets h !! Z.to_nat b = Some l -> p <= Z.of_nat (length l) -> bucket_cnt h - b <= Z.of_nat fuel ->
  exists i, next_loop fuel h b p = Ok i /\
    match it_at i with
    | None => rest h b p = []
    | Some q => 0 <= it_bucket i /\ 0 <= q /\ exists l' x, buckets h !! Z.to_nat (it_bucket i) = Some l' /\
        l' !! Z.to_nat q = Some x /\ rest h b p = x :: rest h (it_bucket i) (q + 1)
    end.
Proof.
  intros Hs. destruct (Hs) as (k & Hk & Hbc & Hlen). revert b p l.
  induction fuel as [|fuel IH]; intros b p l Hb Hp Hl Hpl Hf;
    have Hlt := lookup_lt_Some _ _ _ Hl; [lia|].
  cbn [next_loop]. rewrite /get_bucket Hl. cbn [obind oget].
  have Hr : rest h b p = drop (Z.to_nat p) l ++ mjoin (drop (Z.to_nat (b + 1)) (buckets h)).
  { rewrite /rest. rewrite (drop_S (buckets h) l (Z.to_nat b) Hl). do 2 f_equal. by have -> : Z.to_nat (b + 1) = S (Z.to_nat b) by lia. }
  destruct (Z.eqb_spec p (Z.of_nat (length l))) as [-> | Hne].
  - rewrite Nat2Z.id drop_all /= in Hr. destruct (Z.leb_spec (bucket_cnt h) (b + 1)) as [Hle|Hgt].
    + exists (mk_iter (b + 1) None). split; [done|]. simpl. rewrite Hr drop_ge; [lia|done].
    + destruct (lookup_lt_is_Some_2 (buckets h) (Z.to_nat (b + 1))) as [l1 Hl1]; [lia|].
      destruct (IH (b + 1) 0 l1) as (i & Hi & Hm); [lia..|done|lia|lia|]. exists i. split; [done|].
      have Heq : rest h b (Z.of_nat (length l)) = rest h (b + 1) 0.
      { rewrite Hr /rest (drop_S (buckets h) l1 _ Hl1). done. }
      by rewrite Heq.
  - exists (mk_iter b (Some p)). split; [done|]. simpl.
    destruct (lookup_lt_is_Some_2 l (Z.to_nat p)) as [x Hx]; [lia|]. split_and!; [done..|].
    exists l, x. split_and!; [done..|]. rewrite Hr (drop_S l x _ Hx) /=. f_equal.
    rewrite /rest (drop_S (buckets h) l (Z.to_nat b) Hl). have -> : Z.to_nat (p + 1) = S (Z.to_nat p) by lia.
    by have -> : Z.to_nat (b + 1) = S (Z.to_nat b) by lia.
Qed.

Lemma hash_next_ok h b p l : sized h -> 0 <= b -> -1 <= p ->
  buckets h !! Z.to_nat b = Some l -> p < Z.of_nat (length l) ->
  exists i, hash_next h (mk_iter b (Some p)) = Ok (head (rest h b (p + 1)), i) /\
    forall x xs, rest h b (p + 1) = x :: xs -> hash_cur h i = Ok (Some x) /\
      exists b' p' l', i = mk_iter b' (Some p') /\ 0 <= b' /\ 0 <= p' /\
        buckets h !! Z.to_nat b' = Some l' /\ p' < Z.of_nat (length l') /\ rest h b' (p' + 1) = xs.
Proof.
  intros Hs Hb Hp Hl Hpl. destruct (Hs) as (k & Hk & Hbc & Hlen).
  destruct (next_loop_ok (Z.to_nat (bucket_cnt h)) h b (p + 1) l) as (i & Hi & Hm); [done|lia|lia|done|lia|lia|].
  rewrite /hash_next /= Hi. cbn [obind]. destruct i as [b' [q|]]; cbn [it_at it_bucket] in *.
  - destruct Hm as (Hb' & Hq & l' & x & Hl' & Hx & Hr). have Hlt := lookup_lt_Some _ _ _ Hx.
    have He : elem_at h b' q = Ok x.
    { rewrite /elem_at /get_bucket Hl' /=. destruct (Z.ltb_spec q 0); [lia|]. by rewrite Hx. }
    rewrite He Hr. cbn [obind]. eexists. split; [done|]. intros y ys [= <- <-]. split; [by rewrite /hash_cur /= He|].
    exists b', q, l'. split_and!; [done..|lia|done].
  - rewrite Hm. eexists. split; [done|]. done.
Qed.

Lemma iterate_ok fuel h b p l : sized h -> 0 <= b -> -1 <= p ->
  buckets h !! Z.to_nat b = Some l -> p < Z.of_nat (length l) ->
  (length (rest h b (p + 1)) <= fuel)%nat ->
  iterate fuel h (mk_iter b (Some p)) = Ok (rest h b (p + 1)).
Proof.
  intros Hs. revert b p l. induction fuel as [|fuel IH]; intros b p l Hb Hp Hl Hpl Hf;
    destruct (hash_next_ok h b p l Hs Hb Hp Hl Hpl) as (i & Hn & Hx); cbn [iterate]; rewrite Hn; cbn [obind];
    destruct (rest h b (p + 1)) as [|x xs]; try done; simpl in Hf; [lia|].
  destruct (Hx x xs eq_refl) as (_ & b' & p' & l' & -> & Hb' & Hp' & Hl' & Hlt & Hr).
  cbn [head]. rewrite (IH b' p' l'); [done|lia|done|done|rewrite Hr; lia|]. by rewrite Hr.
Qed.
End refinement.

Lemma hash_init_wf hash_fn less : hash_wf hash_fn less (hash_clear (mk_hash 0 4 (replicate 4 []))).
Proof.
  have He : elems (hash_clear (mk_hash 0 4 (replicate 4 []))) = [] by reflexivity.
  split.
  - exists 2. split_and!; [lia..|done|done].
  - intros i b e Hi Hin. apply lookup_replicate in Hi as [-> _]. by apply not_elem_of_nil in Hin.
  - rewrite He. split; [by apply NoDup_nil|]. intros a b Ha. by apply not_elem_of_nil in Ha.
  - by rewrite He.
Qed.

(** Comparing integers and hashing them with [hash_int] satisfies the laws. *)
Lemma hash_bytes_range buf : Forall (fun c => 0 <= c < 256) buf -> 0 <= hash_bytes buf < 2 ^ 32.
Proof.
  rewrite /hash_bytes. have : 0 <= FNV_32_BASIS < 2 ^ 32 by rewrite /FNV_32_BASIS; lia.
  generalize FNV_32_BASIS. intros h Hh Hb. revert h Hh. induction Hb as [|c buf Hc Hb IH]; intros h Hh; [done|].
  simpl. apply IH. have Hw := wrap_range 32 (h * FNV_32_PRIME) ltac:(lia). set w := wrap 32 _ in Hw |- *.
  split; [apply Z.lxor_nonneg; lia|]. destruct (Z.eq_dec (Z.lxor w c) 0) as [-> | Hn]; [lia|].
  have Hx : 0 <= Z.lxor w c by apply Z.lxor_nonneg; lia. apply Z.log2_lt_pow2; [lia|].
  eapply Z.le_lt_trans; [apply Z.log2_lxor; lia|]. apply Z.max_lub_lt.
  - destruct (Z.eq_dec w 0) as [-> | ?]; [done|]. apply Z.log2_lt_pow2; lia.
  - destruct (Z.eq_dec c 0) as [-> | ?]; [done|]. apply Z.log2_lt_pow2; lia.
Qed.

#[export] Instance hash_int_laws : HashLaws hash_int Z.ltb.
Proof.
  have He : forall a b, equal_elem Z.ltb a b = true -> a = b.
  { intros a b. rewrite /equal_elem. destruct (Z.ltb_spec a b), (Z.ltb_spec b a); simpl; try done. lia. }
  split.
  - apply Z.ltb_irrefl.
  - intros a b c Hab Hbc. apply He in Hab as ->. done.
  - intros a b Hab. by apply He in Hab as ->.
  - intros a. apply hash_bytes_range. repeat constructor; apply Z.mod_pos_bound; lia.
Qed.

(** Iterating visits the elements in the order of the buckets. *)
Lemma iterate_all hash_fn less h : hash_wf hash_fn less h -> iterate (Z.to_nat (hash_size h)) h (hash_first h) = Ok (elems h).
Proof.
  intros [Hs _ Hd Hc]. rewrite /hash_first. destruct (Hs) as (k & Hk & Hbc & Hlen).
  have Hp : 0 < 2 ^ k by apply Z.pow_pos_nonneg; lia.
  destruct (lookup_lt_is_Some_2 (buckets h) (Z.to_nat 0)) as [l0 Hl0]; [lia|].
  have Hr0 : rest h 0 (-1 + 1) = elems h by rewrite /rest /elems; simpl; destruct (buckets h).
  rewrite (iterate_ok _ h 0 (-1) l0) //; [lia| |by rewrite Hr0]. rewrite Hr0 /hash_size Hc. lia.
Qed.

(** C33: hash tables implement the set that lib/kernel/hash.c documents: from
    [hash_init], through any sequence of insertions, replacements, searches and
    deletions, with [malloc] succeeding or failing at each rehash, every call
    answers as a linear search of the plain list of elements does, [hash_size]
    is the length of that list, and iterating with [hash_first] and [hash_next]
    visits exactly its elements, each once. *)
Theorem hash_table_correct hash_fn less `{!HashLaws hash_fn less} (rs : list (hash_request * bool)) h0 :
  hash_init true = Some h0 -> Z.of_nat (length rs) < 2 ^ 32 ->
  exists h visited,
    hserve_all hash_fn less rs h0 = Ok ((hspec_all less rs.*1 []).1, h) /\
    hash_size h = Z.of_nat (length (hspec_all less rs.*1 []).2) /\
    iterate (Z.to_nat (hash_size h)) h (hash_first h) = Ok visited /\
    NoDup visited /\ visited ≡ₚ (hspec_all less rs.*1 []).2.
Proof.
  intros [= <-] Hn.
  destruct (hserve_all_ok hash_fn less rs _ [] (hash_init_wf hash_fn less)) as (h & Hr & Hw & Hl); [done|done|].
  destruct (Hw) as [Hs _ Hd Hc]. exists h, (elems h). split_and!; [done| | |apply Hd|by rewrite Hl].
  - by rewrite /hash_size Hc Hl.
  - by apply (iterate_all hash_fn less).
Qed.

Lemma hash_table_correct_witness :
  hash_init true = Some (hash_clear (mk_hash 0 4 (replicate 4 []))) /\
  exists h visited,
    hserve_all hash_int Z.ltb [(HInsert 7, true); (HInsert 9, false); (HFind 7, true); (HDelete 9, true)]
      (hash_clear (mk_hash 0 4 (replicate 4 []))) = Ok ([None; None; Some 7; Some 9], h) /\
    hash_size h = 1 /\
    iterate (Z.to_nat (hash_size h)) h (hash_first h) = Ok visited /\
    NoDup visited /\ visited ≡ₚ [7].
Proof.
  split; [reflexivity|].
  apply (hash_table_correct hash_int Z.ltb
    [(HInsert 7, true); (HInsert 9, false); (HFind 7, true); (HDelete 9, true)]
    (hash_clear (mk_hash 0 4 (replicate 4 [])))); reflexivity.
Defined.
