(* ===== verification/Arith64.v ===== *)
(** * lib/arithmetic.c: 64-bit division for a 32-bit machine

    [divl] is the x86 instruction: it divides a 64-bit number by a 32-bit one
    and traps when the quotient does not fit in 32 bits or the divisor is 0.
    The routines that GCC calls are built on it; the theorems say that they
    divide, and that they never trap for a non-zero divisor. *)
From S2P Require Import Prelude.

Definition divl (n d : Z) : outcome Z :=
  if (d =? 0) || (2 ^ 32 <=? n / d) then Err Fault else Ok (n / d).

Definition nlz (x : Z) : Z :=
  let n := 0 in
  let (n, x) := if x <=? 0x0000FFFF then (n + 16, u32 (Z.shiftl x 16)) else (n, x) in
  let (n, x) := if x <=? 0x00FFFFFF then (n + 8, u32 (Z.shiftl x 8)) else (n, x) in
  let (n, x) := if x <=? 0x0FFFFFFF then (n + 4, u32 (Z.shiftl x 4)) else (n, x) in
  let (n, x) := if x <=? 0x3FFFFFFF then (n + 2, u32 (Z.shiftl x 2)) else (n, x) in
  if x <=? 0x7FFFFFFF then n + 1 else n.

Definition udiv64 (n d : Z) : outcome Z :=
  if Z.shiftr d 32 =? 0 then
    let b := Z.shiftl 1 32 in
    let n1 := u32 (Z.shiftr n 32) in
    let n0 := u32 n in
    let d0 := u32 d in
    if d0 =? 0 then Err Fault else
    let! q := divl (u64 (b * (n1 mod d0) + n0)) d0 in
    Ok (u64 (q + b * (n1 / d0)))
  else if n <? d then Ok 0
  else
    let d1 := u32 (Z.shiftr d 32) in
    let s := nlz d1 in
    let! q := divl (Z.shiftr n 1) (u32 (Z.shiftr (u64 (Z.shiftl d s)) 32)) in
    let q := Z.shiftr q (31 - s) in
    Ok (if u64 (n - u64 ((q - 1) * d)) <? d then q - 1 else q).

(** The result type is [uint32_t]. *)
Definition umod64 (n d : Z) : outcome Z :=
  let! q := udiv64 n d in Ok (u32 (n - d * q)).

Definition sdiv64 (n d : Z) : outcome Z :=
  let n_abs := if 0 <=? n then n else u64 (- u64 n) in
  let d_abs := if 0 <=? d then d else u64 (- u64 d) in
  let! q_abs := udiv64 n_abs d_abs in
  Ok (if eqb (n <? 0) (d <? 0) then s64 q_abs else s64 (- s64 q_abs)).

(** The result type is [int32_t]. *)
Definition smod64 (n d : Z) : outcome Z :=
  let! q := sdiv64 n d in Ok (s32 (n - d * q)).

Definition __divdi3 (n d : Z) : outcome Z := sdiv64 n d.
Definition __moddi3 (n d : Z) : outcome Z := smod64 n d.
Definition __udivdi3 (n d : Z) : outcome Z := udiv64 n d.
Definition __umoddi3 (n d : Z) : outcome Z := umod64 n d.

(** ** Leading zeros *)
Lemma shiftl_mul x k : 0 <= k -> Z.shiftl x k = x * 2 ^ k.
Proof. apply Z.shiftl_mul_pow2. Qed.


(** One step of the binary search: the shift does not overflow. *)
Lemma nlz_shift x k lim : 0 <= k -> lim = 2 ^ (32 - k) - 1 -> k <= 32 -> 0 <= x <= lim -> u32 (Z.shiftl x k) = x * 2 ^ k.
Proof.
  intros Hk -> Hk2 Hx. rw shiftl_mul // wrap_small //.
  have -> : 2 ^ 32 = 2 ^ k * 2 ^ (32 - k); [rw -Z.pow_add_r; [lia..|]; f_equal; lia|].
  have ? : 0 < 2 ^ k by apply Z.pow_pos_nonneg. nia.
Qed.

Ltac nlz_step lim k :=
  match goal with |- context [?y <=? lim] =>
    destruct (Z.leb_spec y lim); [rw (nlz_shift y k lim); [lia|done|lia|lia|]|] end; cbv beta iota zeta.

Lemma nlz_spec x : 0 < x < 2 ^ 32 -> 0 <= nlz x <= 31 /\ 2 ^ 31 <= x * 2 ^ nlz x < 2 ^ 32.
Proof.
  intros Hx. rw /nlz.
  nlz_step 0x0000FFFF 16; nlz_step 0x00FFFFFF 8; nlz_step 0x0FFFFFFF 4; nlz_step 0x3FFFFFFF 2.
  all: match goal with |- context [?y <=? 0x7FFFFFFF] => destruct (Z.leb_spec y 0x7FFFFFFF) end.
  all: match goal with |- context [2 ^ ?e] => let v := eval vm_compute in e in change e with v end; lia.
Qed.

(** ** Unsigned division *)
Lemma divl_ok n d : 0 < d -> n / d < 2 ^ 32 -> divl n d = Ok (n / d).
Proof.
  intros Hd Hq. rw /divl (proj2 (Z.eqb_neq d 0)); [lia|]. by rw (proj2 (Z.leb_gt _ _)).
Qed.

(** The short case: the comment in the source, as a proof. *)
Lemma udiv64_short n d :
  0 <= n < 2 ^ 64 -> 0 < d < 2 ^ 32 -> udiv64 n d = Ok (n / d).
Proof.
  intros Hn Hd. rw /udiv64 !Z.shiftr_div_pow2 // (Z.div_small d); [lia|]. rw Z.eqb_refl.
  change (Z.shiftl 1 32) with (2 ^ 32). rw (wrap_small 32 d); [lia|]. rw (proj2 (Z.eqb_neq d 0)); [lia|].
  have Hn1 : 0 <= n / 2 ^ 32 < 2 ^ 32 by split; [apply Z.div_pos; lia|apply Z.div_lt_upper_bound; lia].
  rw (wrap_small 32 (n / 2 ^ 32)) //. have Hn0 : u32 n = n mod 2 ^ 32 by done. rw Hn0.
  set n1 := n / 2 ^ 32 in Hn1 *. set n0 := n mod 2 ^ 32.
  have Hn0r : 0 <= n0 < 2 ^ 32 by apply Z.mod_pos_bound.
  have Heq : n = 2 ^ 32 * n1 + n0 by apply Z.div_mod.
  have Hm := Z.mod_pos_bound n1 d ltac:(lia). have Hdm := Z.div_mod n1 d ltac:(lia).
  have Hq0 : 0 <= n1 / d <= n1 by split; [apply Z.div_pos; lia|apply Z.div_le_upper_bound; nia].
  rw (wrap_small 64); [nia|].
  have Hfit : (2 ^ 32 * (n1 mod d) + n0) / d < 2 ^ 32 by apply Z.div_lt_upper_bound; nia.
  rw divl_ok //; [lia|]. cbn [obind]. f_equal.
  have Hsum : n / d = (2 ^ 32 * (n1 mod d) + n0) / d + 2 ^ 32 * (n1 / d).
  { rw -Z.div_add; [lia|]. f_equal. rw Heq. nia. }
  rw Hsum wrap_small //. rw -Hsum. split; [apply Z.div_pos; lia|].
  apply Z.div_lt_upper_bound; nia.
Qed.

(** The estimate of the long case is at most one too large: with
    [D = v1 * w <= d < (v1 + 1) * w] and [v1 >= 2^31], [n / D] is [n / d] or one more. *)
Lemma estimate n d v1 w :
  0 < n < 2 ^ 64 -> 2 ^ 31 <= v1 -> 1 <= w -> v1 * w <= d < (v1 + 1) * w ->
  n / d <= n / (v1 * w) <= n / d + 1.
Proof.
  intros Hn Hv Hw Hd0. have Hd : v1 * w <= d < v1 * w + w by lia. clear Hd0.
  have HD1 : 2 ^ 31 * w <= v1 * w by nia. set D := v1 * w in Hd HD1 *. have HD : 0 < D by lia.
  split; [apply Z.div_le_compat_l; lia|].
  have Hkey : n * (d - D) < D * d.
  { destruct (decide (d = D)) as [->|Hne]; [nia|].
    have H1 : 1 <= d - D <= w - 1 by lia.
    have H2 : n * (d - D) <= (2 ^ 64 - 1) * (w - 1) by nia.
    have H3 : 2 ^ 31 * w * (2 ^ 31 * w + 1) <= D * d by apply Z.mul_le_mono_nonneg; lia.
    have H4 : (2 ^ 64 - 1) * (w - 1) < 2 ^ 31 * w * (2 ^ 31 * w + 1).
    { change (2 ^ 64) with (4 * 2 ^ 62). have -> : 2 ^ 31 * w * (2 ^ 31 * w + 1) = 2 ^ 62 * (w * w) + 2 ^ 31 * w by lia.
      have : 0 <= (w - 2) * (w - 2) by nia. lia. }
    lia. }
  have Hlt : n / D < n / d + 2; [|lia].
  apply Z.div_lt_upper_bound; [lia|].
  have Hdm := Z.div_mod n d ltac:(lia). have Hm := Z.mod_pos_bound n d ltac:(lia). nia.
Qed.

Lemma udiv64_long n d :
  0 <= n < 2 ^ 64 -> 2 ^ 32 <= d < 2 ^ 64 -> udiv64 n d = Ok (n / d).
Proof.
  intros Hn Hd.
  have Hd1 : 0 < d / 2 ^ 32 < 2 ^ 32 by split; [apply Z.div_str_pos; lia|apply Z.div_lt_upper_bound; lia].
  rw /udiv64 !Z.shiftr_div_pow2 // (proj2 (Z.eqb_neq (d / 2 ^ 32) 0)); [lia|].
  destruct (Z.ltb_spec n d); [by rw Z.div_small; [lia|]|].
  rw (wrap_small 32 (d / 2 ^ 32)); [lia|].
  have [Hs Hb] := nlz_spec (d / 2 ^ 32) Hd1. set s := nlz (d / 2 ^ 32) in Hs Hb *.
  set S := 2 ^ s in Hb *. set w := 2 ^ (32 - s).
  have HS : 0 < S by apply Z.pow_pos_nonneg; lia. have Hw : 1 <= w by apply (Z.pow_le_mono_r 2 0); lia.
  have HSw : S * w = 2 ^ 32 by rw /S /w -Z.pow_add_r; [lia..|]; f_equal; lia.
  have Hdm := Z.div_mod d (2 ^ 32) ltac:(lia). have Hm := Z.mod_pos_bound d (2 ^ 32) ltac:(lia).
  have HdS : 0 <= d * S < 2 ^ 64 by nia.
  rw shiftl_mul; [lia|]. rw (wrap_small 64) //.
  set v1 := d * S / 2 ^ 32.
  have Hdm1 := Z.div_mod (d * S) (2 ^ 32) ltac:(lia). have Hm1 := Z.mod_pos_bound (d * S) (2 ^ 32) ltac:(lia).
  have Hv1 : 2 ^ 31 <= v1 < 2 ^ 32.
  { split; [apply Z.div_le_lower_bound; nia|apply Z.div_lt_upper_bound; lia]. }
  rw -/v1 (wrap_small 32 v1); [lia|].
  have Hfit : n / 2 ^ 1 / v1 < 2 ^ 32.
  { apply Z.div_lt_upper_bound; [lia|]. have : n / 2 ^ 1 < 2 ^ 63 by apply Z.div_lt_upper_bound; lia. nia. }
  rw divl_ok //; [lia|]. cbn [obind]. rw Z.shiftr_div_pow2; [lia|].
  rw Z.div_div; [lia|lia|]. rw Z.div_div; [lia|nia|].
  have -> : 2 ^ 1 * (v1 * 2 ^ (31 - s)) = v1 * w.
  { rw /w. have -> : 32 - s = 1 + (31 - s) by lia. rw Z.pow_add_r; lia. }
  have Hest : n / d <= n / (v1 * w) <= n / d + 1.
  { apply estimate; try lia. unfold v1 in *. nia. }
  set q := n / (v1 * w) in Hest *.
  have Hdn := Z.div_mod n d ltac:(lia). have Hmn := Z.mod_pos_bound n d ltac:(lia).
  have HQ : 1 <= n / d by apply Z.div_le_lower_bound; lia.
  have HQ2 : n / d <= n by apply Z.div_le_upper_bound; nia.
  have [Hq|Hq] : q = n / d \/ q = n / d + 1 by lia.
  - have Hr : n - (q - 1) * d = d + n mod d by nia.
    rw (wrap_small 64 ((q - 1) * d)); [nia|]. rw Hr wrap_small; [nia|]. rw (proj2 (Z.ltb_ge _ _)); [lia|]. by f_equal.
  - have Hr : n - (q - 1) * d = n mod d by nia.
    rw (wrap_small 64 ((q - 1) * d)); [nia|]. rw Hr wrap_small; [lia|]. rw (proj2 (Z.ltb_lt _ _)); [lia|]. f_equal. lia.
Qed.

Lemma udiv64_spec n d : 0 <= n < 2 ^ 64 -> 0 < d < 2 ^ 64 -> udiv64 n d = Ok (n / d).
Proof.
  intros Hn Hd. destruct (Z.lt_ge_cases d (2 ^ 32)); [apply udiv64_short|apply udiv64_long]; lia.
Qed.

(** Unsigned 64-bit division divides, and the remainder routine returns
    the low 32 bits of the remainder: the remainder itself exactly when it fits
    in the [uint32_t] that [umod64] returns. *)
Theorem unsigned_division_correct (n d : Z) :
  0 <= n < 2 ^ 64 -> 0 < d < 2 ^ 64 ->
  __udivdi3 n d = Ok (n / d) /\ __umoddi3 n d = Ok ((n mod d) mod 2 ^ 32).
Proof.
  intros Hn Hd. rw /__udivdi3 /__umoddi3 /umod64 udiv64_spec //=. split; [done|].
  f_equal. rw /wrap. f_equal. have := Z.div_mod n d. lia.
Qed.

Lemma unsigned_division_correct_witness :
  __udivdi3 18446744073709551615 4294967297 = Ok 4294967295 /\
  __umoddi3 18446744073709551615 4294967299 = Ok ((18446744073709551615 mod 4294967299) mod 2 ^ 32).
Proof.
  split.
  - exact (proj1 (unsigned_division_correct 18446744073709551615 4294967297 ltac:(lia) ltac:(lia))).
  - exact (proj2 (unsigned_division_correct 18446744073709551615 4294967299 ltac:(lia) ltac:(lia))).
Defined.

(** C19: [umod64] is wrong as soon as the remainder needs more than 32 bits:
    2^33 modulo 2^40 comes out as 0. *)
Theorem umod64_truncates : __umoddi3 (2 ^ 33) (2 ^ 40) = Ok 0 /\ 2 ^ 33 mod 2 ^ 40 <> 0.
Proof. split; [vm_compute; reflexivity|]. by vm_compute. Qed.

(** ** Signed division *)
Lemma neg_u64 n : - 2 ^ 63 <= n < 0 -> u64 (- u64 n) = - n.
Proof. intros Hn. rw /wrap. change (2 ^ 64) with 18446744073709551616. change (2 ^ 63) with 9223372036854775808 in Hn. dlia. Qed.

(** The quotient towards zero, from absolute values. *)
Lemma quot_abs n d : d <> 0 ->
  Z.quot n d = if eqb (n <? 0) (d <? 0) then Z.abs n / Z.abs d else - (Z.abs n / Z.abs d).
Proof.
  intros Hd. destruct (Z.ltb_spec n 0), (Z.ltb_spec d 0); cbn [eqb].
  - rw -Z.quot_opp_opp // Z.quot_div_nonneg; [lia|lia|]. f_equal; lia.
  - rw -(Z.opp_involutive (Z.quot n d)) -Z.quot_opp_l // Z.quot_div_nonneg; [lia|lia|]. do 2 f_equal; lia.
  - rw -(Z.opp_involutive (Z.quot n d)) -Z.quot_opp_r // Z.quot_div_nonneg; [lia|lia|]. do 2 f_equal; lia.
  - rw Z.quot_div_nonneg; [lia|lia|]. f_equal; lia.
Qed.

(** Signed division truncates towards zero, as C demands, for every pair
    of operands except the overflowing INT64_MIN / -1. *)
Theorem signed_division_correct (n d : Z) :
  - 2 ^ 63 <= n < 2 ^ 63 -> - 2 ^ 63 <= d < 2 ^ 63 -> d <> 0 -> ~ (n = - 2 ^ 63 /\ d = -1) ->
  __divdi3 n d = Ok (Z.quot n d) /\ __moddi3 n d = Ok (s32 (Z.rem n d)).
Proof.
  intros Hn Hd Hd0 Hov.
  have Hdiv : sdiv64 n d = Ok (Z.quot n d).
  { rw /sdiv64.
    have -> : (if 0 <=? n then n else u64 (- u64 n)) = Z.abs n.
    { destruct (Z.leb_spec 0 n); [lia|]. rw neg_u64; lia. }
    have -> : (if 0 <=? d then d else u64 (- u64 d)) = Z.abs d.
    { destruct (Z.leb_spec 0 d); [lia|]. rw neg_u64; lia. }
    rw udiv64_spec; [lia|lia|]. cbn [obind]. f_equal. rw quot_abs //.
    have Hq0 : 0 <= Z.abs n / Z.abs d by apply Z.div_pos; lia.
    have Hq1 : Z.abs n / Z.abs d <= 2 ^ 63 by apply Z.div_le_upper_bound; nia.
    destruct (eqb _ _) eqn:E.
    - apply swrap_small; [lia|]. change (64 - 1) with 63.
      have : Z.abs n / Z.abs d < 2 ^ 63; [|lia]. apply Z.div_lt_upper_bound; [lia|].
      apply eqb_prop in E. destruct (Z.ltb_spec n 0), (Z.ltb_spec d 0); try done; nia.
    - rw /swrap. change (2 ^ (64 - 1)) with (2 ^ 63). change (2 ^ 64) with (2 * 2 ^ 63).
      generalize dependent (Z.abs n / Z.abs d). change (2 ^ 63) with 9223372036854775808. intros. dlia. }
  rw /__divdi3 /__moddi3 /smod64 Hdiv /=. split; [done|]. do 2 f_equal.
  have := Z.quot_rem' n d. lia.
Qed.

Lemma signed_division_correct_witness :
  __divdi3 (-7) 2 = Ok (Z.quot (-7) 2) /\ __moddi3 (-7) 2 = Ok (s32 (Z.rem (-7) 2)).
Proof. apply signed_division_correct; lia. Defined.
