(* ===== verification/Random.v ===== *)
(** * lib/random.c: the RC4 pseudo-random number generator *)
From S2P Require Import Prelude.

Record rc4 := mk_rc4 { s : list Z; s_i : Z; s_j : Z; inited : bool }.

(** [swap_byte (s + i, s + j)] *)
Definition swap_byte (l : list Z) (i j : Z) : outcome (list Z) :=
  let! a := oget (l !! Z.to_nat i) in
  let! b := oget (l !! Z.to_nat j) in
  Ok (<[Z.to_nat j := a]> (<[Z.to_nat i := b]> l)).

(** [seedp[n]]: byte [n] of the seed in memory. *)
Definition seed_byte (seed n : Z) : Z := Z.shiftr seed (8 * n) mod 256.

(** [for (i = j = 0; i < 256; i++)] with [n] passes left. *)
Fixpoint init_loop (n : nat) (l : list Z) (i j seed : Z) : outcome (list Z) :=
  match n with
  | O => Ok l
  | S n =>
    let! si := oget (l !! Z.to_nat i) in
    let j := u8 (j + (si + seed_byte seed (i mod 4))) in
    let! l := swap_byte l i j in
    init_loop n l (i + 1) j seed
  end.

Definition random_init (seed : Z) : outcome rc4 :=
  let! l := init_loop 256 (seqZ 0 256) 0 0 seed in
  Ok (mk_rc4 l 0 0 true).

(** One output byte. *)
Definition random_byte (r : rc4) : outcome (Z * rc4) :=
  let i := u8 (s_i r + 1) in
  let! si := oget (s r !! Z.to_nat i) in
  let j := u8 (s_j r + si) in
  let! l := swap_byte (s r) i j in
  let! a := oget (l !! Z.to_nat i) in
  let! b := oget (l !! Z.to_nat j) in
  let s_k := u8 (a + b) in
  let! byte := oget (l !! Z.to_nat s_k) in
  Ok (byte, mk_rc4 l i j (inited r)).

(** [for (buf = buf_; size-- > 0; buf++)] *)
Fixpoint bytes_loop (size : nat) (r : rc4) : outcome (list Z * rc4) :=
  match size with
  | O => Ok ([], r)
  | S size =>
    let! (b, r) := random_byte r in
    let! (bs, r) := bytes_loop size r in
    Ok (b :: bs, r)
  end.

Definition random_bytes (size : nat) (r : rc4) : outcome (list Z * rc4) :=
  let! r := if inited r then Ok r else random_init 0 in
  bytes_loop size r.

Definition random_ulong (r : rc4) : outcome (Z * rc4) :=
  let! (bs, r) := random_bytes 4 r in
  match bs with
  | [a; b; c; d] => Ok (a + 256 * b + 65536 * c + 16777216 * d, r)
  | _ => Err Fault
  end.

(** ** The state is a permutation of the byte values *)
Definition rc4_ok (r : rc4) : Prop :=
  inited r = true -> s r ≡ₚ seqZ 0 256 /\ 0 <= s_i r < 256 /\ 0 <= s_j r < 256.

Lemma swap_byte_ok (l : list Z) i j :
  l ≡ₚ seqZ 0 256 -> 0 <= i < 256 -> 0 <= j < 256 -> exists l', swap_byte l i j = Ok l' /\ l' ≡ₚ seqZ 0 256.
Proof.
  intros Hl Hi Hj. have Hlen : length l = 256%nat by rw Hl length_seqZ.
  destruct (lookup_lt_is_Some_2 l (Z.to_nat i)) as [a Ha]; [lia|].
  destruct (lookup_lt_is_Some_2 l (Z.to_nat j)) as [b Hb]; [lia|].
  rw /swap_byte Ha /= Hb /=. eexists. split; [done|]. rw -Hl. by apply insert_swap_perm.
Qed.

Lemma perm_lookup (l : list Z) i : l ≡ₚ seqZ 0 256 -> 0 <= i < 256 ->
  exists x, l !! Z.to_nat i = Some x /\ 0 <= x < 256.
Proof.
  intros Hl Hi. have Hlen : length l = 256%nat by rw Hl length_seqZ.
  destruct (lookup_lt_is_Some_2 l (Z.to_nat i)) as [a Ha]; [lia|]. exists a. split; [done|].
  apply list_elem_of_lookup_2 in Ha. rw Hl elem_of_seqZ in Ha. lia.
Qed.

Lemma u8_range z : 0 <= u8 z < 256.
Proof. apply (wrap_range 8). lia. Qed.

Lemma init_loop_ok n l i j seed :
  l ≡ₚ seqZ 0 256 -> 0 <= i -> i + Z.of_nat n = 256 ->
  exists l', init_loop n l i j seed = Ok l' /\ l' ≡ₚ seqZ 0 256.
Proof.
  revert l i j. induction n as [|n IH]; intros l i j Hl Hi Hn; [by exists l|]. cbn [init_loop].
  destruct (perm_lookup l i Hl) as (x & -> & _); [lia|]. cbn [oget obind].
  destruct (swap_byte_ok l i (u8 (j + (x + seed_byte seed (i mod 4)))) Hl) as (l' & -> & Hl'); [lia|apply u8_range|].
  apply IH; [done|lia|lia].
Qed.

Lemma random_byte_ok r :
  s r ≡ₚ seqZ 0 256 ->
  exists b r', random_byte r = Ok (b, r') /\ 0 <= b < 256 /\ s r' ≡ₚ seqZ 0 256 /\
    0 <= s_i r' < 256 /\ 0 <= s_j r' < 256 /\ inited r' = inited r.
Proof.
  intros Hl. rw /random_byte. have Hi := u8_range (s_i r + 1).
  destruct (perm_lookup (s r) _ Hl Hi) as (x & -> & _). cbn [oget obind].
  have Hj := u8_range (s_j r + x). destruct (swap_byte_ok _ _ _ Hl Hi Hj) as (l & -> & Hl'). cbn [obind].
  destruct (perm_lookup l _ Hl' Hi) as (a & -> & _). destruct (perm_lookup l _ Hl' Hj) as (b & -> & _). cbn [oget obind].
  destruct (perm_lookup l _ Hl' (u8_range (a + b))) as (c & -> & Hc). cbn [oget obind].
  do 2 eexists. split; [done|]. by split_and!; try apply Hc; try apply Hi; try apply Hj.
Qed.

Lemma bytes_loop_ok n r :
  s r ≡ₚ seqZ 0 256 -> 0 <= s_i r < 256 -> 0 <= s_j r < 256 ->
  exists bs r', bytes_loop n r = Ok (bs, r') /\ length bs = n /\ Forall (fun b => 0 <= b < 256) bs /\
    s r' ≡ₚ seqZ 0 256 /\ 0 <= s_i r' < 256 /\ 0 <= s_j r' < 256 /\ inited r' = inited r.
Proof.
  revert r. induction n as [|n IH]; intros r Hl Hi Hj; [exists [], r; split_and!; try done; lia|]. cbn [bytes_loop].
  destruct (random_byte_ok r Hl) as (b & r1 & -> & Hb & Hl1 & Hi1 & Hj1 & Hn1). cbn [obind].
  destruct (IH r1 Hl1 Hi1 Hj1) as (bs & r2 & -> & Hlen & Hbs & ? & ? & ? & Hn2). cbn [obind].
  exists (b :: bs), r2. split_and!; try done; [by rw /= Hlen|by constructor|tauto..|congruence].
Qed.

(** The generator never reads or writes outside its table: it returns
    exactly the bytes asked for, all of them byte values, whether or not it was
    initialised, and its table stays a permutation of 0..255. *)
Theorem random_bytes_correct (size : nat) (r : rc4) :
  rc4_ok r ->
  exists bs r', random_bytes size r = Ok (bs, r') /\ length bs = size /\
    Forall (fun b => 0 <= b < 256) bs /\ inited r' = true /\ rc4_ok r'.
Proof.
  intros Hr. rw /random_bytes.
  have [r0 [-> [Hl [Hi [Hj Hn]]]]] : exists r0, (if inited r then Ok r else random_init 0) = Ok r0 /\
      s r0 ≡ₚ seqZ 0 256 /\ 0 <= s_i r0 < 256 /\ 0 <= s_j r0 < 256 /\ inited r0 = true.
  { destruct (inited r) eqn:En.
    - destruct (Hr En) as (? & ? & ?). by exists r.
    - rw /random_init. destruct (init_loop_ok 256 (seqZ 0 256) 0 0 0) as (l & -> & Hl); [done|done|done|].
      exists (mk_rc4 l 0 0 true). by split_and!. }
  cbn [obind]. destruct (bytes_loop_ok size r0 Hl Hi Hj) as (bs & r' & -> & H1 & H2 & H3 & H4 & H5 & H6).
  exists bs, r'. by split_and!; [..|rw H6|intros _].
Qed.

Lemma random_bytes_correct_witness :
  exists bs r', random_bytes 8 (mk_rc4 (replicate 256 0) 0 0 false) = Ok (bs, r') /\ length bs = 8%nat /\
    Forall (fun b => 0 <= b < 256) bs /\ inited r' = true /\ rc4_ok r'.
Proof. apply random_bytes_correct. done. Defined.
