(* ===== verification/CString.v ===== *)
(** * lib/string.c: blocks of memory and strings

    Memory is one array of bytes; a pointer is an index into it and the null
    pointer is 0, so that byte 0 of the array is never read or written.  An
    access outside the array is a [Fault].  A loop over a string that has a
    terminator in memory stops there; [fuel m], the size of the memory, is
    enough for every loop, since a pass advances a pointer. *)
From S2P Require Import Prelude.

Definition NULL : Z := 0.

(** [*p], and [*p = b]. *)
Definition ld (m : list Z) (p : Z) : outcome Z :=
  if p <=? 0 then Err Fault else oget (m !! Z.to_nat p).
Definition st (m : list Z) (p b : Z) : outcome (list Z) :=
  let! _ := ld m p in Ok (<[Z.to_nat p := b]> m).

Definition fuel (m : list Z) : nat := length m.

(** ** Blocks *)
Fixpoint copy_up (n : nat) (m : list Z) (dst src : Z) : outcome (list Z) :=
  match n with
  | O => Ok m
  | S n => let! b := ld m src in let! m := st m dst b in copy_up n m (dst + 1) (src + 1)
  end.

(** [while (size-- > 0) *--dst = *--src;] *)
Fixpoint copy_down (n : nat) (m : list Z) (dst src : Z) : outcome (list Z) :=
  match n with
  | O => Ok m
  | S n => let! b := ld m (src - 1) in let! m := st m (dst - 1) b in copy_down n m (dst - 1) (src - 1)
  end.

Definition memcpy (m : list Z) (dst src size : Z) : outcome (Z * list Z) :=
  assert! negb (dst =? NULL) || (size =? 0) in
  assert! negb (src =? NULL) || (size =? 0) in
  let! m := copy_up (Z.to_nat size) m dst src in
  Ok (dst, m).

(** The value returned is the local [dst], which the first loop advances. *)
Definition memmove (m : list Z) (dst src size : Z) : outcome (Z * list Z) :=
  assert! negb (dst =? NULL) || (size =? 0) in
  assert! negb (src =? NULL) || (size =? 0) in
  if dst <? src then let! m := copy_up (Z.to_nat size) m dst src in Ok (dst + size, m)
  else let! m := copy_down (Z.to_nat size) m (dst + size) (src + size) in Ok (dst, m).

Fixpoint memcmp_loop (n : nat) (m : list Z) (a b : Z) : outcome Z :=
  match n with
  | O => Ok 0
  | S n => let! x := ld m a in let! y := ld m b in
           if x =? y then memcmp_loop n m (a + 1) (b + 1) else Ok (if y <? x then 1 else -1)
  end.
Definition memcmp (m : list Z) (a b size : Z) : outcome Z :=
  assert! negb (a =? NULL) || (size =? 0) in
  assert! negb (b =? NULL) || (size =? 0) in
  memcmp_loop (Z.to_nat size) m a b.

Fixpoint memchr_loop (n : nat) (m : list Z) (block ch : Z) : outcome Z :=
  match n with
  | O => Ok NULL
  | S n => let! x := ld m block in if x =? ch then Ok block else memchr_loop n m (block + 1) ch
  end.
Definition memchr (m : list Z) (block ch size : Z) : outcome Z :=
  assert! negb (block =? NULL) || (size =? 0) in
  memchr_loop (Z.to_nat size) m block (u8 ch).

Fixpoint memset_loop (n : nat) (m : list Z) (dst value : Z) : outcome (list Z) :=
  match n with
  | O => Ok m
  | S n => let! m := st m dst (u8 value) in memset_loop n m (dst + 1) value
  end.
Definition memset (m : list Z) (dst value size : Z) : outcome (Z * list Z) :=
  assert! negb (dst =? NULL) || (size =? 0) in
  let! m := memset_loop (Z.to_nat size) m dst value in Ok (dst, m).

(** ** Strings *)
Fixpoint strcmp_loop (n : nat) (m : list Z) (a b : Z) : outcome Z :=
  match n with
  | O => Err NoFuel
  | S n => let! x := ld m a in let! y := ld m b in
           if negb (x =? 0) && (x =? y) then strcmp_loop n m (a + 1) (b + 1)
           else Ok (if x <? y then -1 else if y <? x then 1 else 0)
  end.
Definition strcmp (m : list Z) (a b : Z) : outcome Z :=
  assert! negb (a =? NULL) in
  assert! negb (b =? NULL) in
  strcmp_loop (fuel m) m a b.

Fixpoint strchr_loop (n : nat) (m : list Z) (string c : Z) : outcome Z :=
  match n with
  | O => Err NoFuel
  | S n => let! x := ld m string in
           if x =? c then Ok string else if x =? 0 then Ok NULL else strchr_loop n m (string + 1) c
  end.
Definition strchr (m : list Z) (string c : Z) : outcome Z :=
  assert! negb (string =? NULL) in strchr_loop (fuel m) m string (u8 c).

(** [strchr (set, *s) != NULL] *)
Definition in_set (m : list Z) (set x : Z) : outcome bool :=
  let! p := strchr m set x in Ok (negb (p =? NULL)).

(** [strcspn] (with [skip = false]) and [strspn] (with [skip = true]). *)
Fixpoint span_loop (n : nat) (skip : bool) (m : list Z) (string set len : Z) : outcome Z :=
  match n with
  | O => Err NoFuel
  | S n => let! x := ld m (string + len) in
           if x =? 0 then Ok len else
           let! i := in_set m set x in
           if Bool.eqb i skip then span_loop n skip m string set (len + 1) else Ok len
  end.
Definition strcspn (m : list Z) (string stop : Z) : outcome Z := span_loop (fuel m) false m string stop 0.
Definition strspn (m : list Z) (string skip : Z) : outcome Z := span_loop (fuel m) true m string skip 0.

Fixpoint strpbrk_loop (n : nat) (m : list Z) (string stop : Z) : outcome Z :=
  match n with
  | O => Err NoFuel
  | S n => let! x := ld m string in
           if x =? 0 then Ok NULL else
           let! i := in_set m stop x in
           if i then Ok string else strpbrk_loop n m (string + 1) stop
  end.
Definition strpbrk (m : list Z) (string stop : Z) : outcome Z := strpbrk_loop (fuel m) m string stop.

Fixpoint strrchr_loop (n : nat) (m : list Z) (string c p : Z) : outcome Z :=
  match n with
  | O => Err NoFuel
  | S n => let! x := ld m string in
           if x =? 0 then Ok p else strrchr_loop n m (string + 1) c (if x =? c then string else p)
  end.
Definition strrchr (m : list Z) (string c : Z) : outcome Z := strrchr_loop (fuel m) m string (u8 c) NULL.

Fixpoint strlen_loop (n : nat) (m : list Z) (string p : Z) : outcome Z :=
  match n with
  | O => Err NoFuel
  | S n => let! x := ld m p in if x =? 0 then Ok (p - string) else strlen_loop n m string (p + 1)
  end.
Definition strlen (m : list Z) (string : Z) : outcome Z :=
  assert! negb (string =? NULL) in strlen_loop (fuel m) m string string.

(** The character is read before [length < maxlen] is checked. *)
Fixpoint strnlen_loop (n : nat) (m : list Z) (string maxlen len : Z) : outcome Z :=
  match n with
  | O => Err NoFuel
  | S n => let! x := ld m (string + len) in
           if negb (x =? 0) && (len <? maxlen) then strnlen_loop n m string maxlen (len + 1) else Ok len
  end.
Definition strnlen (m : list Z) (string maxlen : Z) : outcome Z := strnlen_loop (fuel m) m string maxlen 0.

(** [i] runs up to [haystack_len - needle_len]: [n] positions are left. *)
Fixpoint strstr_loop (n : nat) (m : list Z) (haystack needle needle_len i : Z) : outcome Z :=
  match n with
  | O => Ok NULL
  | S n => let! r := memcmp m (haystack + i) needle needle_len in
           if r =? 0 then Ok (haystack + i) else strstr_loop n m haystack needle needle_len (i + 1)
  end.
Definition strstr (m : list Z) (haystack needle : Z) : outcome Z :=
  let! haystack_len := strlen m haystack in
  let! needle_len := strlen m needle in
  if needle_len <=? haystack_len
  then strstr_loop (Z.to_nat (haystack_len - needle_len + 1)) m haystack needle needle_len 0
  else Ok NULL.

Definition strlcpy (m : list Z) (dst src size : Z) : outcome (Z * list Z) :=
  assert! negb (dst =? NULL) in
  assert! negb (src =? NULL) in
  let! src_len := strlen m src in
  if 0 <? size then
    let dst_len := size - 1 in
    let dst_len := if src_len <? dst_len then src_len else dst_len in
    let! (_, m) := memcpy m dst src dst_len in
    let! m := st m (dst + dst_len) 0 in
    Ok (src_len, m)
  else Ok (src_len, m).

Definition strlcat (m : list Z) (dst src size : Z) : outcome (Z * list Z) :=
  assert! negb (dst =? NULL) in
  assert! negb (src =? NULL) in
  let! src_len := strlen m src in
  let! dst_len := strlen m dst in
  if (0 <? size) && (dst_len <? size) then
    let copy_cnt := size - dst_len - 1 in
    let copy_cnt := if src_len <? copy_cnt then src_len else copy_cnt in
    let! (_, m) := memcpy m (dst + dst_len) src copy_cnt in
    let! m := st m (dst + dst_len + copy_cnt) 0 in
    Ok (src_len + dst_len, m)
  else Ok (src_len + dst_len, m).

(** ** strtok_r

    [skip_delims] is the first loop: [None] when it meets the end of the
    string; [skip_token] the second.  Both return the position reached. *)
Fixpoint skip_delims (n : nat) (m : list Z) (delimiters s : Z) : outcome (bool * Z) :=
  match n with
  | O => Err NoFuel
  | S n => let! x := ld m s in
           let! d := in_set m delimiters x in
           if d then if x =? 0 then Ok (false, s) else skip_delims n m delimiters (s + 1) else Ok (true, s)
  end.
Fixpoint skip_token (n : nat) (m : list Z) (delimiters s : Z) : outcome Z :=
  match n with
  | O => Err NoFuel
  | S n => let! x := ld m s in
           let! d := in_set m delimiters x in
           if d then Ok s else skip_token n m delimiters (s + 1)
  end.

(** (token, *save_ptr, memory) *)
Definition strtok_r (m : list Z) (s delimiters save_ptr : Z) : outcome (Z * Z * list Z) :=
  assert! negb (delimiters =? NULL) in
  let s := if s =? NULL then save_ptr else s in
  assert! negb (s =? NULL) in
  let! (more, s) := skip_delims (fuel m) m delimiters s in
  if negb more then Ok (NULL, s, m) else
  let token := s in
  let! s := skip_token (fuel m) m delimiters s in
  let! x := ld m s in
  if negb (x =? 0) then let! m := st m s 0 in Ok (token, s + 1, m)
  else Ok (token, s, m).

(** ** Specification *)

(** [s] is the string at [p]: bytes other than 0, then a terminator. *)
Fixpoint cstr (m : list Z) (p : Z) (s : list Z) : Prop :=
  match s with
  | [] => ld m p = Ok 0
  | c :: s => ld m p = Ok c /\ 0 < c < 256 /\ cstr m (p + 1) s
  end.

Abbreviation len s := (Z.of_nat (length s)).

(** Memories that agree on the addresses from [p] up to, not including, [q]. *)
Definition agree (m m' : list Z) (p q : Z) : Prop := forall a, p <= a < q -> ld m' a = ld m a.

Lemma ld_range m p x : ld m p = Ok x -> 0 < p < len m.
Proof.
  rw /ld. destruct (Z.leb_spec p 0); [done|]. destruct (m !! Z.to_nat p) as [y|] eqn:Hy; [|done].
  intros _. apply lookup_lt_Some in Hy. lia.
Qed.
Lemma ld_lookup m p : 0 < p -> ld m p = oget (m !! Z.to_nat p).
Proof. intros Hp. rw /ld. by destruct (Z.leb_spec p 0); [lia|]. Qed.
Lemma ld_ok m p : 0 < p < len m -> exists x, ld m p = Ok x.
Proof. intros Hp. rw ld_lookup; [lia|]. destruct (lookup_lt_is_Some_2 m (Z.to_nat p)) as [x ->]; [lia|]. by exists x. Qed.
Lemma st_ok m p b : 0 < p < len m -> st m p b = Ok (<[Z.to_nat p := b]> m).
Proof. intros Hp. rw /st. by destruct (ld_ok m p Hp) as [x ->]. Qed.
Lemma ld_insert m p q b : 0 < p < len m ->
  ld (<[Z.to_nat p := b]> m) q = if decide (q = p) then Ok b else ld m q.
Proof.
  intros Hp. case_decide as Hq.
  - subst q. rw ld_lookup; [lia|]. rw list_lookup_insert_eq //. lia.
  - rw /ld. destruct (Z.leb_spec q 0); [done|]. rw list_lookup_insert_ne //. lia.
Qed.

Lemma cstr_range m p s : cstr m p s -> 0 < p /\ p + len s < len m.
Proof.
  revert p. induction s as [|c s IH]; intros p; simpl.
  - intros H%ld_range. lia.
  - intros (H%ld_range & _ & Hs%IH). lia.
Qed.
Lemma cstr_agree m m' p s : agree m m' p (p + len s + 1) -> cstr m p s -> cstr m' p s.
Proof.
  revert p. induction s as [|c s IH]; intros p Ha; simpl in *.
  - intros H. rw Ha //. lia.
  - intros (H & Hc & Hs). split_and!; [rw Ha //; lia|lia|lia|]. apply IH; [|done]. intros a Hr. apply Ha. lia.
Qed.
Lemma cstr_app m p s t : cstr m p (s ++ t) -> cstr m (p + len s) t.
Proof.
  revert p. induction s as [|c s IH]; intros p; simpl; [by rw Z.add_0_r|].
  intros (_ & _ & Hs%IH). by replace (p + Z.of_nat (S (length s))) with (p + 1 + len s) by lia.
Qed.
Lemma cstr_fuel m p s : cstr m p s -> (length s < fuel m)%nat.
Proof. intros H%cstr_range. rw /fuel. lia. Qed.
Lemma cstr_not_null m p s : cstr m p s -> (p =? NULL) = false.
Proof. intros H%cstr_range. rw /NULL. destruct (Z.eqb_spec p 0); [lia|done]. Qed.

(** ** Blocks *)
Lemma copy_up_ok n m dst src : 0 < dst -> 0 < src -> dst <= src \/ src + Z.of_nat n <= dst ->
  dst + Z.of_nat n <= len m -> src + Z.of_nat n <= len m ->
  copy_up n m dst src = Ok (splice m dst (slice m src (Z.of_nat n))).
Proof.
  revert m dst src. induction n as [|n IH]; intros m dst src Hd Hs Ho Hdm Hsm.
  { by rw /= /slice /= splice_nil. }
  cbn [copy_up]. destruct (ld_ok m src) as [b Hb]; [lia|]. rw Hb. cbn [obind]. rw st_ok; [lia|]. cbn [obind].
  rw IH ?length_insert; [lia..|]. f_equal. rewrite ld_lookup in Hb; [lia|].
  destruct (m !! Z.to_nat src) as [b'|] eqn:Hl; [injection Hb as ->|done].
  apply list_eq. intros k. rw !lookup_splice ?length_slice ?length_insert; [lia..|].
  rw !lookup_slice. destruct (decide (k = Z.to_nat dst)) as [-> | Hk].
  - rw decide_False; [lia|]. rw list_lookup_insert_eq; [lia|]. rw decide_True; [lia|]. rw decide_True; [lia|].
    rw -Hl. f_equal. lia.
  - repeat case_decide; try lia; try done; (rw list_lookup_insert_ne; [lia|]); try done; f_equal; lia.
Qed.

Lemma copy_down_ok n m dst src : 0 < dst - Z.of_nat n -> 0 < src - Z.of_nat n -> src <= dst ->
  dst <= len m ->
  copy_down n m dst src = Ok (splice m (dst - Z.of_nat n) (slice m (src - Z.of_nat n) (Z.of_nat n))).
Proof.
  revert m dst src. induction n as [|n IH]; intros m dst src Hd Hs Ho Hdm.
  { by rw /= /slice /= splice_nil. }
  cbn [copy_down]. destruct (ld_ok m (src - 1)) as [b Hb]; [lia|]. rw Hb. cbn [obind]. rw st_ok; [lia|]. cbn [obind].
  rw IH ?length_insert; [lia..|]. f_equal. rewrite ld_lookup in Hb; [lia|].
  destruct (m !! Z.to_nat (src - 1)) as [b'|] eqn:Hl; [injection Hb as ->|done].
  apply list_eq. intros k. rw !lookup_splice ?length_slice ?length_insert; [lia..|].
  rw !lookup_slice. destruct (decide (k = Z.to_nat (dst - 1))) as [-> | Hk].
  - rw decide_False; [lia|]. rw list_lookup_insert_eq; [lia|]. rw decide_True; [lia|]. rw decide_True; [lia|].
    rw -Hl. f_equal. lia.
  - repeat case_decide; try lia; try done; (rw list_lookup_insert_ne; [lia|]); try done; f_equal; lia.
Qed.

(** ** Searching *)
Lemma strlen_ok m p s : cstr m p s -> strlen m p = Ok (len s).
Proof.
  intros Hs. rw /strlen (cstr_not_null _ _ _ Hs) /=. have Hf := cstr_fuel _ _ _ Hs.
  have -> : len s = p - p + len s by lia. move: Hf Hs. generalize (fuel m) as n. generalize p at 1 3 4 as q.
  induction s as [|c s IH]; intros q [|n] Hn Hs; simpl in *; try lia.
  - rw Hs /=. f_equal. lia.
  - destruct Hs as (-> & Hc & Hs). cbn [obind]. destruct (Z.eqb_spec c 0); [lia|]. rw IH //; [lia|]. f_equal. lia.
Qed.

(** The first position of [c] in [s]. *)
Fixpoint index_of (c : Z) (s : list Z) : option Z :=
  match s with
  | [] => None
  | x :: s => if x =? c then Some 0 else (Z.add 1) <$> index_of c s
  end.

Lemma index_of_None c s : index_of c s = None <-> c ∉ s.
Proof.
  induction s as [|x s IH]; simpl; [by split; [intros _ ?%not_elem_of_nil|]|].
  rw not_elem_of_cons. destruct (Z.eqb_spec x c) as [-> | Hne].
  - split; [done|]. by intros [? _].
  - rw -IH. destruct (index_of c s); simpl; split; try done; by intros [_ ?].
Qed.

Lemma strchr_ok m p s c : cstr m p s -> 0 <= c < 256 ->
  strchr m p c = Ok (if c =? 0 then p + len s else match index_of c s with Some i => p + i | None => NULL end).
Proof.
  intros Hs Hc. rw /strchr (cstr_not_null _ _ _ Hs) /=. have Hf := cstr_fuel _ _ _ Hs.
  have -> : u8 c = c by rw wrap_small.
  move: Hf Hs. generalize (fuel m) as n. revert p.
  induction s as [|x s IH]; intros p [|n] Hn Hs; simpl in *; try lia.
  - rw Hs. cbn [obind]. destruct (Z.eqb_spec 0 c), (Z.eqb_spec c 0); try lia; try done; f_equal; lia.
  - destruct Hs as (-> & Hx & Hs). cbn [obind]. destruct (Z.eqb_spec x c) as [-> | Hne].
    + destruct (Z.eqb_spec c 0); [lia|]. f_equal. lia.
    + destruct (Z.eqb_spec x 0); [lia|]. rw IH //; [lia|]. f_equal.
      destruct (c =? 0); [lia|]. destruct (index_of c s); simpl; lia.
Qed.

(** Searching a set of characters; the terminator belongs to every set. *)
Definition member (ds : list Z) (x : Z) : bool := (x =? 0) || bool_decide (x ∈ ds).
Lemma index_of_bound c s i : index_of c s = Some i -> 0 <= i < len s.
Proof.
  revert i. induction s as [|x s IH]; intros i; simpl; [done|]. destruct (x =? c); [intros [= <-]; lia|].
  destruct (index_of c s) as [j|]; [|done]. intros [= <-]. specialize (IH j eq_refl). lia.
Qed.
Lemma in_set_ok m d ds x : cstr m d ds -> 0 <= x < 256 -> in_set m d x = Ok (member ds x).
Proof.
  intros Hd Hx. rw /in_set (strchr_ok m d ds x) //. cbn [obind]. f_equal. rw /member /NULL.
  have Hr := cstr_range _ _ _ Hd. destruct (Z.eqb_spec x 0); simpl.
  - by destruct (Z.eqb_spec (d + len ds) 0); [lia|].
  - destruct (index_of x ds) as [i|] eqn:Hi.
    + have Hb := index_of_bound _ _ _ Hi. destruct (Z.eqb_spec (d + i) 0); [lia|]. symmetry. apply bool_decide_eq_true.
      destruct (decide (x ∈ ds)) as [?|Hn]; [done|]. apply index_of_None in Hn. congruence.
    + symmetry. apply bool_decide_eq_false. by apply index_of_None.
Qed.

(** The longest prefix whose characters satisfy [f]. *)
Fixpoint span (f : Z -> bool) (s : list Z) : list Z :=
  match s with [] => [] | x :: s => if f x then x :: span f s else [] end.

Lemma span_ok skip m p s d ds : cstr m p s -> cstr m d ds ->
  span_loop (fuel m) skip m p d 0 = Ok (len (span (fun x => Bool.eqb (member ds x) skip) s)).
Proof.
  intros Hs Hd. have Hf := cstr_fuel _ _ _ Hs. have -> : forall k, len k = 0 + len k by done.
  move: Hf Hs. generalize (fuel m) as n. have {1}-> : p = p + 0 by lia. generalize 0 as i.
  induction s as [|x s IH]; intros i n Hn Hs; destruct n as [|n]; simpl in *; try lia.
  - rw Hs /=. f_equal. lia.
  - destruct Hs as (-> & Hx & Hs). cbn [obind]. destruct (Z.eqb_spec x 0); [lia|].
    rw (in_set_ok m d ds x) //; [lia|]. cbn [obind]. destruct (Bool.eqb (member ds x) skip); simpl; [|f_equal; lia].
    rw IH; [lia|by have -> : p + (i + 1) = p + i + 1 by lia|]. f_equal. lia.
Qed.

(** ** Tokens

    The tokens of [s]: its longest pieces without a character of [ds].  [split]
    also returns the piece that [s] starts with, which may be empty. *)
Definition add_token (w : list Z) (ws : list (list Z)) : list (list Z) :=
  match w with [] => ws | _ => w :: ws end.
Fixpoint split (ds s : list Z) : list Z * list (list Z) :=
  match s with
  | [] => ([], [])
  | c :: s => let r := split ds s in
              if member ds c then ([], add_token r.1 r.2) else (c :: r.1, r.2)
  end.
Definition tokens (ds s : list Z) : list (list Z) := add_token (split ds s).1 (split ds s).2.

(** [for (token = strtok_r (s, ...); token != NULL; token = strtok_r (NULL, ...))]:
    the tokens found, in order. *)
Fixpoint tokenize (n : nat) (m : list Z) (s delimiters save_ptr : Z) : outcome (list Z * list Z) :=
  let! (token, save_ptr, m) := strtok_r m s delimiters save_ptr in
  if token =? NULL then Ok ([], m)
  else match n with
       | O => Err NoFuel
       | S n => let! (ts, m) := tokenize n m NULL delimiters save_ptr in Ok (token :: ts, m)
       end.

Lemma skip_delims_ok n m d ds p s : cstr m d ds -> cstr m p s -> (length s < n)%nat ->
  exists pre rest, s = pre ++ rest /\ tokens ds rest = tokens ds s /\ match rest with
    | [] => skip_delims n m d p = Ok (false, p + len pre)
    | c :: _ => skip_delims n m d p = Ok (true, p + len pre) /\ member ds c = false
    end.
Proof.
  intros Hd. revert n p. induction s as [|c s IH]; intros [|n] p Hs Hn; simpl in *; try lia.
  - exists [], []. split_and!; [done..|]. rw Hs. cbn [obind]. rw (in_set_ok m d ds 0) //. simpl. by rw Z.add_0_r.
  - destruct Hs as (Hl & Hc & Hs). rw Hl. cbn [obind]. rw (in_set_ok m d ds c) //; [lia|]. cbn [obind].
    destruct (member ds c) eqn:Hm.
    + destruct (Z.eqb_spec c 0); [lia|]. destruct (IH n (p + 1) Hs) as (pre & rest & -> & Ht & Hr); [lia|].
      exists (c :: pre), rest. split_and!; [done|rw Ht /tokens /= Hm //|].
      have Hp : p + len (c :: pre) = p + 1 + len pre by simpl; lia. rw Hp. by destruct rest.
    + exists [], (c :: s). split_and!; try done. by rw /= Z.add_0_r.
Qed.

Lemma skip_token_ok n m d ds p s : cstr m d ds -> cstr m p s -> (length s < n)%nat ->
  skip_token n m d p = Ok (p + len (split ds s).1).
Proof.
  intros Hd. revert n p. induction s as [|c s IH]; intros [|n] p Hs Hn; simpl in *; try lia.
  - rw Hs. cbn [obind]. rw (in_set_ok m d ds 0) //. simpl. by rw Z.add_0_r.
  - destruct Hs as (Hl & Hc & Hs). rw Hl. cbn [obind]. rw (in_set_ok m d ds c) //; [lia|]. cbn [obind].
    destruct (member ds c) eqn:Hm; simpl; [by rw Z.add_0_r|]. rw IH //; [lia|]. f_equal. lia.
Qed.

(** The first piece, what follows it, and the tokens there. *)
Lemma split_spec ds s : exists rest, s = (split ds s).1 ++ rest /\
  match rest with [] => (split ds s).2 = [] | c :: rest => member ds c = true /\ (split ds s).2 = tokens ds rest end.
Proof.
  induction s as [|c s IH]; simpl; [by exists []|]. destruct IH as (rest & Hs & Hr).
  destruct (member ds c) eqn:Hm; simpl.
  - exists (c :: s). by split.
  - exists rest. split; [by f_equal|done].
Qed.

Lemma cstr_cut m p s t b : cstr m p (s ++ t) -> 0 < p + len s < len m -> b = 0 ->
  cstr (<[Z.to_nat (p + len s) := b]> m) p s.
Proof.
  intros Hs Hr ->. have Hp := cstr_range _ _ _ Hs.
  have : forall q u, p <= q -> q + len u = p + len s -> cstr m q (u ++ t) -> cstr (<[Z.to_nat (p + len s) := 0]> m) q u.
  { intros q u. revert q. induction u as [|c u IH]; intros q Hq Hlen Hu; simpl in *.
    - rw ld_insert //. rw decide_True //. lia.
    - destruct Hu as (Hl & Hc & Hu). split_and!; [|lia..|].
      + rw ld_insert //. rw decide_False //. lia.
      + apply IH; [lia..|done]. }
  intros H. by apply H.
Qed.

(** One call: [q] is the position it starts from. *)
Lemma strtok_r_ok m s save d ds q str : (if s =? NULL then save else s) = q ->
  cstr m d ds -> cstr m q str -> d + len ds < q \/ q + len str < d ->
  match tokens ds str with
  | [] => exists save', strtok_r m s d save = Ok (NULL, save', m)
  | w :: ws => exists token save' m' rest, strtok_r m s d save = Ok (token, save', m') /\
      q <= token /\ token + len w <= save' /\ save' + len rest <= q + len str /\ (length rest < length str)%nat /\
      cstr m' token w /\ (token + len w < save' \/ rest = []) /\
      cstr m' save' rest /\ tokens ds rest = ws /\ length m' = length m /\
      (forall a, a < q \/ q + len str <= a -> ld m' a = ld m a) /\ cstr m' d ds
  end.
Proof.
  intros Hq Hd Hstr Hdis. have Hqr := cstr_range _ _ _ Hstr. have Hf := cstr_fuel _ _ _ Hstr.
  rw /strtok_r (cstr_not_null _ _ _ Hd) Hq (cstr_not_null _ _ _ Hstr) /=.
  destruct (skip_delims_ok (fuel m) m d ds q str Hd Hstr Hf) as (pre & str1 & -> & Ht & Hsk). rw -Ht.
  have Hs1 := cstr_app _ _ _ _ Hstr. rewrite length_app in Hqr Hf Hdis |- *.
  destruct str1 as [|c str2].
  { rw Hsk /=. eauto. }
  destruct Hsk as [-> Hc]. cbn [obind negb]. set str1 := c :: str2 in Hs1 Hqr Hf Hdis |- *.
  rw (skip_token_ok _ m d ds _ str1) //; [rw /str1; simpl in *; lia|]. cbn [obind].
  destruct (split_spec ds str1) as (rest & Hsp & Hr).
  have Hw : exists w', (split ds str1).1 = c :: w' by rw /str1 /= Hc /=; eauto.
  rw /tokens. set w := (split ds str1).1 in Hsp Hw |- *. destruct Hw as [w' Hw].
  have -> : add_token w (split ds str1).2 = w :: (split ds str1).2 by rw Hw.
  have Hlen : length str1 = (length w + length rest)%nat by rw Hsp length_app.
  have Hwl : (0 < length w)%nat by rw Hw /=; lia.
  set t := q + len pre in Hs1 |- *. rewrite Hsp in Hs1. have Hrs := cstr_app _ _ _ _ Hs1.
  destruct rest as [|e rest]; simpl in Hrs.
  - rw Hrs. cbn [obind Z.eqb negb]. exists t, (t + len w), m, []. rewrite app_nil_r in Hs1. simpl in *.
    split_and!; try done; try lia; rw ?Hr; auto.
  - destruct Hrs as (He & Her & Hrs). rw He. cbn [obind]. destruct (Z.eqb_spec e 0); [lia|]. cbn [negb].
    have Hin := ld_range _ _ _ He. rw st_ok //. cbn [obind]. set m' := <[_ := 0]> m.
    have Hag : forall a, a <> t + len w -> ld m' a = ld m a.
    { intros a Ha. rw /m' ld_insert // decide_False //. }
    exists t, (t + len w + 1), m', rest. simpl in *. destruct Hr as [_ Hr].
    split_and!; try done; try lia.
    + by eapply cstr_cut.
    + eapply cstr_agree; [|done]. intros a Ha. apply Hag. lia.
    + by rw /m' length_insert.
    + intros a Ha. apply Hag. lia.
    + eapply cstr_agree; [|done]. intros a Ha. apply Hag. lia.
Qed.

Lemma tokenize_ok n m s save d ds q str : (if s =? NULL then save else s) = q ->
  cstr m d ds -> cstr m q str -> d + len ds < q \/ q + len str < d -> (length str <= n)%nat ->
  exists ts m', tokenize n m s d save = Ok (ts, m') /\ Forall2 (cstr m') ts (tokens ds str) /\
    (forall a, a < q \/ q + len str <= a -> ld m' a = ld m a).
Proof.
  revert m s save q str. induction n as [|n IH]; intros m s save q str Hq Hd Hstr Hdis Hn.
  all: have H1 := strtok_r_ok m s save d ds q str Hq Hd Hstr Hdis.
  all: destruct (tokens ds str) as [|w ws] eqn:Ht; cbn [tokenize].
  1, 3: destruct H1 as (save' & ->); exists [], m; split_and!; [done..|intros; done].
  all: destruct H1 as (token & save' & m1 & rest & -> & Hqt & Hts & Hse & Hlt & Hw & Hor & Hrest & Htr & Hlm & Hag & Hd1).
  { lia. }
  cbn [obind]. rw (cstr_not_null _ _ _ Hw).
  destruct (IH m1 NULL save' save' rest) as (ts & m' & Htk & Hall & Hag'); [done..|lia|lia|].
  exists (token :: ts), m'. rw Htk. split_and!; [done| |].
  - constructor; [|by rw -Htr]. eapply cstr_agree; [|exact Hw]. intros a Ha. apply Hag'. destruct Hor as [?|Hnil]; [lia|]. rewrite Hnil in Hse |- *. simpl in *. lia.
  - intros a Ha. rw Hag'; [lia|]. apply Hag. lia.
Qed.

(** ** Comparing *)
Fixpoint lex (a b : list Z) : Z :=
  match a, b with
  | [], [] => 0
  | [], _ => -1
  | _, [] => 1
  | x :: a, y :: b => if x =? y then lex a b else if x <? y then -1 else 1
  end.
Lemma lex_eq a b : lex a b = 0 <-> a = b.
Proof.
  revert b. induction a as [|x a IH]; intros [|y b]; simpl; try done.
  destruct (Z.eqb_spec x y) as [-> | Hne].
  - rw IH. split; [by intros ->|by intros [= ->]].
  - destruct (x <? y); split; try done; intros [= ?]; done.
Qed.
Lemma strcmp_ok m p s q t : cstr m p s -> cstr m q t -> strcmp m p q = Ok (lex s t).
Proof.
  intros Hs Ht. rw /strcmp (cstr_not_null _ _ _ Hs) (cstr_not_null _ _ _ Ht). cbn [obind ASSERT negb].
  have Hf := cstr_fuel _ _ _ Hs. move: Hf Hs Ht. generalize (fuel m) as n. revert p q t.
  induction s as [|x s IH]; intros p q [|y t] [|n] Hn Hs Ht; simpl in Hn; try lia; cbn [strcmp_loop].
  - simpl in Hs, Ht. by rw Hs Ht.
  - simpl in Hs. destruct Ht as (-> & Hy & _). rw Hs. cbn [obind Z.eqb negb andb]. simpl lex.
    by destruct (Z.ltb_spec 0 y); [|lia].
  - simpl in Ht. destruct Hs as (-> & Hx & _). rw Ht. cbn [obind]. rw (proj2 (Z.eqb_neq x 0)); [lia|].
    cbn [negb andb]. simpl lex. destruct (Z.ltb_spec x 0); [lia|]. by destruct (Z.ltb_spec 0 x); [|lia].
  - destruct Hs as (-> & Hx & Hs). destruct Ht as (-> & Hy & Ht). cbn [obind]. rw (proj2 (Z.eqb_neq x 0)); [lia|].
    cbn [negb andb lex]. destruct (Z.eqb_spec x y) as [-> | Hne]; [by apply IH; [lia|..]|].
    destruct (Z.ltb_spec x y); [done|]. by destruct (Z.ltb_spec y x); [|lia].
Qed.

(** ** Copying strings *)
Lemma cstr_lookup m p s k c : cstr m p s -> s !! k = Some c -> ld m (p + Z.of_nat k) = Ok c /\ 0 < c < 256.
Proof.
  revert p k. induction s as [|x s IH]; intros p [|k] Hs Hk; simpl in *; try done.
  - destruct Hs as (Hl & Hc & _). injection Hk as <-. by rw Z.add_0_r.
  - destruct Hs as (_ & _ & Hs). destruct (IH (p + 1) k Hs Hk) as [Hl Hc]. split; [|done]. rw -Hl. f_equal. lia.
Qed.
Lemma cstr_intro m p s : (forall k c, s !! k = Some c -> ld m (p + Z.of_nat k) = Ok c /\ 0 < c < 256) ->
  ld m (p + len s) = Ok 0 -> cstr m p s.
Proof.
  revert p. induction s as [|x s IH]; intros p Hs H0; simpl in *; [by rewrite Z.add_0_r in H0|].
  destruct (Hs 0%nat x eq_refl) as [Hl Hc]. rewrite Z.add_0_r in Hl. split_and!; [done|lia|lia|]. apply IH.
  - intros k c Hk. destruct (Hs (S k) c Hk) as [Hlk ?]. split; [|done]. rw -Hlk. f_equal. lia.
  - rw -H0. f_equal. lia.
Qed.

Lemma ld_splice m o bs a : 0 < o -> o + len bs <= len m ->
  ld (splice m o bs) a = if decide (o <= a < o + len bs) then oget (bs !! Z.to_nat (a - o)) else ld m a.
Proof.
  intros Ho Hb. rw /ld. destruct (Z.leb_spec a 0).
  - by rw decide_False; [lia|].
  - rw lookup_splice; [lia..|]. repeat case_decide; try lia; [|done]. do 2 f_equal. lia.
Qed.

(** Copy [cnt] characters of the string at [src] to [dst] and terminate them. *)
Lemma copy_string_ok m dst src s cnt : 0 < dst -> cstr m src s -> 0 <= cnt <= len s -> dst + cnt < len m ->
  src + len s < dst \/ dst + cnt < src ->
  exists m1 m2, memcpy m dst src cnt = Ok (dst, m1) /\ st m1 (dst + cnt) 0 = Ok m2 /\
    cstr m2 dst (take (Z.to_nat cnt) s) /\ (forall a, a < dst \/ dst + cnt < a -> ld m2 a = ld m a).
Proof.
  intros Hd Hs Hc Hm Hdis. have Hr := cstr_range _ _ _ Hs. rw /memcpy (cstr_not_null _ _ _ Hs).
  rw (proj2 (Z.eqb_neq dst NULL)); [rw /NULL; lia|]. cbn [negb orb ASSERT obind].
  rw copy_up_ok; [lia..|]. cbn [obind]. have Hz : Z.of_nat (Z.to_nat cnt) = cnt by lia. rw Hz.
  set m1 := splice _ _ _. have Hl1 : length m1 = length m by rw /m1 length_splice // ?length_slice; lia.
  have Hld1 : forall a, ld m1 a = if decide (dst <= a < dst + cnt) then oget (slice m src cnt !! Z.to_nat (a - dst)) else ld m a.
  { intros a. rw /m1 ld_splice ?length_slice; [lia..|]. by rw Z2Nat.id; [lia|]. }
  exists m1, (<[Z.to_nat (dst + cnt) := 0]> m1). split; [done|]. split; [by rw st_ok; [lia|]|]. split.
  - apply cstr_intro.
    + intros k c Hk. have Hkl := lookup_lt_Some _ _ _ Hk. rewrite length_take in Hkl.
      rewrite lookup_take_lt in Hk; [lia|]. destruct (cstr_lookup _ _ _ _ _ Hs Hk) as [Hl ?]. split; [|done].
      rw ld_insert; [lia|]. rw decide_False; [lia|]. rw Hld1 decide_True; [lia|]. rw lookup_slice decide_True; [lia|].
      rewrite ld_lookup in Hl; [lia|]. rw -Hl. do 2 f_equal. lia.
    + rw length_take. have -> : dst + Z.of_nat (Z.to_nat cnt `min` length s) = dst + cnt by lia.
      rw ld_insert; [lia|]. by rw decide_True.
  - intros a Ha. rw ld_insert; [lia|]. rw decide_False; [lia|]. by rw Hld1 decide_False; [lia|].
Qed.

Lemma cstr_extend m p s t : (forall k c, s !! k = Some c -> ld m (p + Z.of_nat k) = Ok c /\ 0 < c < 256) ->
  cstr m (p + len s) t -> cstr m p (s ++ t).
Proof.
  revert p. induction s as [|x s IH]; intros p Hs Ht; simpl in *; [by rewrite Z.add_0_r in Ht|].
  destruct (Hs 0%nat x eq_refl) as [Hl Hc]. rewrite Z.add_0_r in Hl. split_and!; [done|lia|lia|]. apply IH.
  - intros k c Hk. destruct (Hs (S k) c Hk) as [Hlk ?]. split; [|done]. rw -Hlk. f_equal. lia.
  - by have -> : p + 1 + len s = p + Z.of_nat (S (length s)) by lia.
Qed.

(** ** Theorems *)

(** An example memory: "/a/bc" at 1, "/" at 8, 16 free bytes at 12. *)
Definition ex_mem : list Z := [0; 47; 97; 47; 98; 99; 0; 0; 47; 0; 7; 7] ++ replicate 16 7.

(** Tokenizing.  The idiom of the documentation of [strtok_r] finds exactly
    the tokens of the string, in order: its maximal nonempty pieces without a
    delimiter; each token found is a terminated string, and memory outside the
    string is unchanged. *)
Theorem strtok_r_correct (m : list Z) (s d save : Z) (str ds : list Z) :
  cstr m s str -> cstr m d ds -> d + len ds < s \/ s + len str < d ->
  exists ts m', tokenize (length str) m s d save = Ok (ts, m') /\
    Forall2 (cstr m') ts (tokens ds str) /\
    (forall a, a < s \/ s + len str <= a -> ld m' a = ld m a).
Proof.
  intros Hs Hd Hdis. apply tokenize_ok; [|done..|lia]. by rw (cstr_not_null _ _ _ Hs).
Qed.

Lemma strtok_r_correct_witness :
  cstr ex_mem 1 [47; 97; 47; 98; 99] /\ tokens [47] [47; 97; 47; 98; 99] = [[97]; [98; 99]] /\
  exists ts m', tokenize 5 ex_mem 1 8 0 = Ok (ts, m') /\ Forall2 (cstr m') ts [[97]; [98; 99]] /\
    (forall a, a < 1 \/ 1 + len [47; 97; 47; 98; 99] <= a -> ld m' a = ld ex_mem a).
Proof.
  split; [repeat split|]. split; [reflexivity|].
  apply (strtok_r_correct ex_mem 1 8 0 [47; 97; 47; 98; 99] [47]); [repeat split|repeat split|simpl; lia].
Defined.

(** Bounded string copies.  [strlcpy] and [strlcat] return the length of
    the string they tried to make, leave at [dst] a terminated string that is
    that string cut to [size - 1] characters, and write no byte outside the
    [size] bytes at [dst]. *)
Theorem strlcpy_strlcat_correct (m : list Z) (dst src size : Z) (s t : list Z) :
  cstr m src s -> cstr m dst t -> len t < size -> dst + size <= len m ->
  src + len s < dst \/ dst + size <= src ->
  (exists m', strlcpy m dst src size = Ok (len s, m') /\ cstr m' dst (take (Z.to_nat (size - 1)) s) /\
     forall a, a < dst \/ dst + size <= a -> ld m' a = ld m a) /\
  (exists m', strlcat m dst src size = Ok (len s + len t, m') /\ cstr m' dst (take (Z.to_nat (size - 1)) (t ++ s)) /\
     forall a, a < dst \/ dst + size <= a -> ld m' a = ld m a).
Proof.
  intros Hs Ht Hsz Hm Hdis. have Hd := cstr_range _ _ _ Ht. split.
  - set cnt := if len s <? size - 1 then len s else size - 1.
    have Hcnt : cnt = Z.min (len s) (size - 1) by rw /cnt; destruct (Z.ltb_spec (len s) (size - 1)); lia.
    destruct (copy_string_ok m dst src s cnt) as (m1 & m2 & H1 & H2 & Hc & Ha); [lia|done|lia|lia|lia|].
    exists m2. rw /strlcpy (cstr_not_null _ _ _ Hs) (cstr_not_null _ _ _ Ht) (strlen_ok _ _ _ Hs).
    cbn [obind ASSERT negb]. destruct (Z.ltb_spec 0 size); [|lia]. rw -/cnt H1. cbn [obind]. rw H2. split_and!; [done| |].
    + destruct (Z.lt_ge_cases (size - 1) (len s)); [by have <- : cnt = size - 1 by lia|].
      rewrite take_ge in Hc; [lia|]. by rw take_ge; [lia|].
    + intros a Har. apply Ha. lia.
  - set cnt := if len s <? size - len t - 1 then len s else size - len t - 1.
    have Hcnt : cnt = Z.min (len s) (size - len t - 1) by rw /cnt; destruct (Z.ltb_spec (len s) (size - len t - 1)); lia.
    destruct (copy_string_ok m (dst + len t) src s cnt) as (m1 & m2 & H1 & H2 & Hc & Ha); [lia|done|lia|lia|lia|].
    exists m2. rw /strlcat (cstr_not_null _ _ _ Hs) (cstr_not_null _ _ _ Ht) (strlen_ok _ _ _ Hs) (strlen_ok _ _ _ Ht).
    cbn [obind ASSERT negb]. destruct (Z.ltb_spec 0 size); [|lia]. destruct (Z.ltb_spec (len t) size); [|lia].
    cbn [andb]. rw -/cnt H1. cbn [obind]. rw H2. split_and!; [done| |].
    + rw take_app take_ge; [lia|]. apply cstr_extend.
      * intros k c Hk. have Hkl := lookup_lt_Some _ _ _ Hk. rw Ha; [lia|]. by apply (cstr_lookup m dst t).
      * have -> : (Z.to_nat (size - 1) - length t)%nat = Z.to_nat (size - len t - 1) by lia.
        destruct (Z.lt_ge_cases (size - len t - 1) (len s)); [by have <- : cnt = size - len t - 1 by lia|].
        rewrite take_ge in Hc; [lia|]. by rw take_ge; [lia|].
    + intros a Har. apply Ha. lia.
Qed.

Lemma strlcpy_strlcat_correct_witness :
  let m := <[12%nat := 120]> (<[13%nat := 0]> ex_mem) in
  cstr m 1 [47; 97; 47; 98; 99] /\ cstr m 12 [120] /\
  (exists m', strlcpy m 12 1 4 = Ok (5, m') /\ cstr m' 12 [47; 97; 47] /\
     forall a, a < 12 \/ 12 + 4 <= a -> ld m' a = ld m a) /\
  (exists m', strlcat m 12 1 4 = Ok (6, m') /\ cstr m' 12 [120; 47; 97] /\
     forall a, a < 12 \/ 12 + 4 <= a -> ld m' a = ld m a).
Proof.
  intros m. split; [repeat split|]. split; [repeat split|].
  apply (strlcpy_strlcat_correct m 12 1 4 [47; 97; 47; 98; 99] [120]);
    [repeat split|repeat split|simpl; lia|vm_compute; discriminate|simpl; lia].
Defined.

(** [memmove] copies the block right however source and destination
    overlap, but it returns [DST], as its documentation says, only when it
    copies downwards: upwards it returns the address after the block. *)
Theorem memmove_correct (m : list Z) (dst src size : Z) :
  0 < dst -> 0 < src -> 0 <= size -> dst + size <= len m -> src + size <= len m ->
  memmove m dst src size =
    Ok (if dst <? src then dst + size else dst, splice m dst (slice m src size)).
Proof.
  intros Hd Hs Hz Hdm Hsm. rw /memmove /NULL (proj2 (Z.eqb_neq dst 0)); [lia|]. rw (proj2 (Z.eqb_neq src 0)); [lia|].
  cbn [negb orb ASSERT obind]. destruct (Z.ltb_spec dst src).
  - rw copy_up_ok; [lia..|]. by rw Z2Nat.id; [lia|].
  - rw copy_down_ok; [lia..|]. rw Z2Nat.id; [lia|]. cbn [obind]. by rw !Z.add_simpl_r.
Qed.

Lemma memmove_correct_witness :
  memmove ex_mem 1 2 4 = Ok (5, splice ex_mem 1 (slice ex_mem 2 4)).
Proof. apply (memmove_correct ex_mem 1 2 4); [lia..|vm_compute; discriminate|vm_compute; discriminate]. Defined.

(** The search functions agree with their definitions on lists: length,
    first occurrence, longest prefix outside or inside a set, lexicographic
    comparison (0 exactly for equal strings). *)
Theorem string_search_correct (m : list Z) (p q : Z) (s t : list Z) (c : Z) :
  cstr m p s -> cstr m q t -> 0 < c < 256 ->
  strlen m p = Ok (len s) /\
  strchr m p c = Ok (match index_of c s with Some i => p + i | None => NULL end) /\
  strcspn m p q = Ok (len (span (fun x => negb (bool_decide (x ∈ t))) s)) /\
  strspn m p q = Ok (len (span (fun x => bool_decide (x ∈ t)) s)) /\
  strcmp m p q = Ok (lex s t) /\ (lex s t = 0 <-> s = t).
Proof.
  intros Hs Ht Hc.
  have Hspan : forall f g, (forall x, 0 < x -> f x = g x) -> span f s = span g s.
  { intros f g Hfg. clear Ht. revert p Hs. induction s as [|x u IH]; intros p; simpl; [done|]. intros (_ & Hx & Hu).
    rw Hfg; [lia|]. by rw (IH _ Hu). }
  split_and!; [by apply strlen_ok| | | |by apply strcmp_ok|apply lex_eq].
  - rw (strchr_ok m p s c) //; [lia|]. by destruct (Z.eqb_spec c 0); [lia|].
  - rw /strcspn (span_ok false m p s q t) //. do 3 f_equal. apply Hspan. intros x Hx. rw /member.
    destruct (Z.eqb_spec x 0); [lia|]. by destruct (bool_decide (x ∈ t)).
  - rw /strspn (span_ok true m p s q t) //. do 3 f_equal. apply Hspan. intros x Hx. rw /member.
    destruct (Z.eqb_spec x 0); [lia|]. by destruct (bool_decide (x ∈ t)).
Qed.

Lemma string_search_correct_witness :
  cstr ex_mem 2 [97; 47; 98; 99] /\ strlen ex_mem 2 = Ok 4 /\ strchr ex_mem 2 98 = Ok 4 /\
  strcspn ex_mem 2 8 = Ok 1 /\ strspn ex_mem 2 8 = Ok 0 /\ strcmp ex_mem 2 8 = Ok 1 /\
  (lex [97; 47; 98; 99] [47] = 0 <-> [97; 47; 98; 99] = [47]).
Proof.
  split; [repeat split|].
  apply (string_search_correct ex_mem 2 8 [97; 47; 98; 99] [47] 98); [repeat split|repeat split|lia].
Defined.
