(* ===== verification/StdLib.v ===== *)
(** * lib/stdlib.c: atoi, heap sort, binary search

    An array of [cnt] elements of [size] bytes is the list of its elements, each
    the list of its bytes; element [i] of the code, which counts from 1, is
    element [i - 1] of the list.  The client's [compare] is a section variable. *)
From S2P Require Import Prelude CString.

(** ** atoi *)
Definition isspace (c : Z) : bool :=
  (c =? 32) || (c =? 12) || (c =? 10) || (c =? 13) || (c =? 9) || (c =? 11).
Definition isdigit (c : Z) : bool := (48 <=? c) && (c <=? 57).

Fixpoint skip_space (n : nat) (m : list Z) (s : Z) : outcome Z :=
  match n with
  | O => Err NoFuel
  | S n => let! c := ld m s in if isspace c then skip_space n m (s + 1) else Ok s
  end.
(** The value is kept negative; an overflow wraps around. *)
Fixpoint parse_digits (n : nat) (m : list Z) (s value : Z) : outcome Z :=
  match n with
  | O => Err NoFuel
  | S n => let! c := ld m s in
           if isdigit c then parse_digits n m (s + 1) (s32 (value * 10 - (c - 48))) else Ok value
  end.
Definition atoi (m : list Z) (s : Z) : outcome Z :=
  assert! negb (s =? NULL) in
  let! s := skip_space (fuel m) m s in
  let! c := ld m s in
  let '(negative, s) := if c =? 43 then (false, s + 1) else if c =? 45 then (true, s + 1) else (false, s) in
  let! value := parse_digits (fuel m) m s 0 in
  Ok (if negative then value else s32 (- value)).

Section sort.
Variable compare : list Z -> list Z -> Z.

(** ** Heap sort *)
Definition get1 (array : list (list Z)) (idx : Z) : outcome (list Z) :=
  if idx <=? 0 then Err Fault else oget (array !! Z.to_nat (idx - 1)).

(** The loop of [do_swap] on the bytes of two elements. *)
Fixpoint swap_bytes (n : nat) (i : nat) (a b : list Z) : outcome (list Z * list Z) :=
  match n with
  | O => Ok (a, b)
  | S n => let! x := oget (a !! i) in let! y := oget (b !! i) in
           swap_bytes n (S i) (<[i := y]> a) (<[i := x]> b)
  end.
Definition do_swap (array : list (list Z)) (a_idx b_idx size : Z) : outcome (list (list Z)) :=
  let! a := get1 array a_idx in
  let! b := get1 array b_idx in
  let! (a', b') := swap_bytes (Z.to_nat size) 0 a b in
  Ok (<[Z.to_nat (b_idx - 1) := b']> (<[Z.to_nat (a_idx - 1) := a']> array)).

Definition do_compare (array : list (list Z)) (a_idx b_idx : Z) : outcome Z :=
  let! a := get1 array a_idx in let! b := get1 array b_idx in Ok (compare a b).

(** [size_t] arithmetic: [2 * i] wraps around at 2^32. *)
Fixpoint heapify (n : nat) (array : list (list Z)) (i cnt size : Z) : outcome (list (list Z)) :=
  match n with
  | O => Err NoFuel
  | S n =>
    let left := u32 (2 * i) in
    let right := u32 (2 * i + 1) in
    let! max := if left <=? cnt
                then let! c := do_compare array left i in Ok (if 0 <? c then left else i)
                else Ok i in
    let! max := if right <=? cnt
                then let! c := do_compare array right max in Ok (if 0 <? c then right else max)
                else Ok max in
    if max =? i then Ok array
    else let! array := do_swap array i max size in heapify n array max cnt size
  end.

Definition heap_fuel (cnt : Z) : nat := S (Z.to_nat cnt).

(** [for (i = k; i > 0; i--) heapify (array, i, cnt, size, compare, aux);] *)
Fixpoint build_loop (k : nat) (array : list (list Z)) (cnt size : Z) : outcome (list (list Z)) :=
  match k with
  | O => Ok array
  | S k' => let! array := heapify (heap_fuel cnt) array (Z.of_nat k) cnt size in build_loop k' array cnt size
  end.
(** [for (i = k; i > 1; i--)] of the second loop. *)
Fixpoint sort_loop (k : nat) (array : list (list Z)) (size : Z) : outcome (list (list Z)) :=
  match k with
  | O | 1%nat => Ok array
  | S k' => let! array := do_swap array 1 (Z.of_nat k) size in
            let! array := heapify (heap_fuel (Z.of_nat k')) array 1 (Z.of_nat k') size in
            sort_loop k' array size
  end.
Definition sort (array : list (list Z)) (cnt size : Z) : outcome (list (list Z)) :=
  assert! 0 <? size in
  let! array := build_loop (Z.to_nat (cnt / 2)) array cnt size in
  sort_loop (Z.to_nat cnt) array size.
Definition qsort (array : list (list Z)) (cnt size : Z) : outcome (list (list Z)) := sort array cnt size.

(** ** Binary search

    [first] and [last] are element indices; a pass shrinks the range. *)
Fixpoint search_loop (n : nat) (key : list Z) (array : list (list Z)) (first last : Z) : outcome (option Z) :=
  if first <? last then
    match n with
    | O => Err NoFuel
    | S n =>
      let range := last - first in
      let middle := first + range / 2 in
      let! e := oget (array !! Z.to_nat middle) in
      let cmp := compare key e in
      if cmp <? 0 then search_loop n key array first middle
      else if 0 <? cmp then search_loop n key array (middle + 1) last
      else Ok (Some middle)
    end
  else Ok None.
Definition binary_search (key : list Z) (array : list (list Z)) (cnt : Z) : outcome (option Z) :=
  search_loop (Z.to_nat cnt) key array 0 cnt.
Definition bsearch (key : list Z) (array : list (list Z)) (cnt : Z) : outcome (option Z) :=
  binary_search key array cnt.
End sort.

(** ** Heap sort is correct *)

(** What the documentation asks of [compare]: a strcmp()-type result. *)
Class Compare (compare : list Z -> list Z -> Z) : Prop := {
  cmp_opp a b : 0 < compare a b <-> compare b a < 0;
  cmp_trans a b c : compare a b <= 0 -> compare b c <= 0 -> compare a c <= 0 }.

Section heap.
Context (compare : list Z -> list Z -> Z) `{!Compare compare}.
Implicit Types (a arr : list (list Z)).

Definition le (x y : list Z) : Prop := compare x y <= 0.
Definition at1 arr (k : Z) : list Z := arr !!! Z.to_nat (k - 1).
Definition swap1 arr (i j : Z) : list (list Z) :=
  <[Z.to_nat (j - 1) := at1 arr i]> (<[Z.to_nat (i - 1) := at1 arr j]> arr).
Definition sized_as (size : Z) arr : Prop := Forall (fun x => Z.of_nat (length x) = size) arr.

(** Only the first [cnt] elements are rearranged. *)
Definition shuffle (cnt : Z) arr arr' : Prop :=
  take (Z.to_nat cnt) arr' ≡ₚ take (Z.to_nat cnt) arr /\ drop (Z.to_nat cnt) arr' = drop (Z.to_nat cnt) arr.

Lemma le_refl x : le x x.
Proof. unfold le. destruct (Z.lt_ge_cases 0 (compare x x)) as [Hlt|]; [|lia]. apply cmp_opp in Hlt. lia. Qed.
Lemma le_total x y : 0 < compare x y -> le y x.
Proof. intros H%cmp_opp. unfold le. lia. Qed.

Lemma get1_ok arr k : 1 <= k <= len arr -> get1 arr k = Ok (at1 arr k).
Proof.
  intros Hk. rw /get1 /at1. destruct (Z.leb_spec k 0); [lia|].
  have Hl := list_lookup_lookup_total_lt arr (Z.to_nat (k - 1)). by rw Hl; [lia|].
Qed.
Lemma at1_swap arr i j k : 1 <= i <= len arr -> 1 <= j <= len arr -> 1 <= k <= len arr ->
  at1 (swap1 arr i j) k = if decide (k = j) then at1 arr i else if decide (k = i) then at1 arr j else at1 arr k.
Proof.
  intros Hi Hj Hk. rw {1}/at1 /swap1 !list_lookup_total_alt. repeat case_decide; subst.
  - rw list_lookup_insert_eq ?length_insert //. lia.
  - rw list_lookup_insert_ne; [lia|]. rw list_lookup_insert_eq //. lia.
  - rw !list_lookup_insert_ne; [lia..|]. by rw -list_lookup_total_alt.
Qed.
Lemma swap_bytes_ok n i x y : length x = length y -> (i + n)%nat = length x ->
  swap_bytes n i x y = Ok (take i x ++ drop i y, take i y ++ drop i x).
Proof.
  revert i x y. induction n as [|n IH]; intros i x y Hl Hn; simpl.
  - rw !drop_ge; [lia..|]. rw !take_ge; [lia..|]. by rw !app_nil_r.
  - destruct (lookup_lt_is_Some_2 x i) as [u Hu]; [lia|]. destruct (lookup_lt_is_Some_2 y i) as [v Hv]; [lia|].
    rw Hu Hv. cbn [obind oget]. rw IH ?length_insert; [lia..|].
    rw (drop_S x u i Hu) (drop_S y v i Hv) !drop_insert_lt; [lia..|].
    rw (take_S_r (<[i:=v]> x) i v); [by rw list_lookup_insert_eq; [lia|]|].
    rw (take_S_r (<[i:=u]> y) i u); [by rw list_lookup_insert_eq; [lia|]|].
    rw !take_insert_ge; [lia..|]. by rw -!app_assoc.
Qed.
Lemma do_swap_ok arr i j size : sized_as size arr -> 0 <= size -> 1 <= i <= len arr -> 1 <= j <= len arr ->
  do_swap arr i j size = Ok (swap1 arr i j).
Proof.
  intros Hs Hz Hi Hj. have Hat : forall k, 1 <= k <= len arr -> Z.of_nat (length (at1 arr k)) = size.
  { intros k Hk. rewrite /sized_as Forall_forall in Hs. apply Hs. apply list_elem_of_lookup_total_2. lia. }
  rw /do_swap !get1_ok //. cbn [obind]. have H1 := Hat i Hi. have H2 := Hat j Hj.
  rw swap_bytes_ok; [lia..|]. done.
Qed.
Lemma length_swap1 arr i j : length (swap1 arr i j) = length arr.
Proof. by rw /swap1 !length_insert. Qed.
Lemma shuffle_swap cnt arr i j : 1 <= i <= cnt -> 1 <= j <= cnt -> cnt <= len arr -> shuffle cnt arr (swap1 arr i j).
Proof.
  intros Hi Hj Hc. rw /shuffle /swap1. set c := Z.to_nat cnt. rw !drop_insert_lt; [lia..|]. split; [|done].
  rw !take_insert_lt; [lia..|]. apply insert_swap_perm; rw lookup_take_lt; try lia;
  apply list_lookup_lookup_total_lt; lia.
Qed.
Lemma shuffle_perm cnt arr arr' : shuffle cnt arr arr' -> arr' ≡ₚ arr.
Proof. intros [H1 H2]. rw -(take_drop (Z.to_nat cnt) arr') -(take_drop (Z.to_nat cnt) arr) H2. by rewrite H1. Qed.
Lemma shuffle_trans cnt a1 a2 a3 : shuffle cnt a1 a2 -> shuffle cnt a2 a3 -> shuffle cnt a1 a3.
Proof. intros [H1 H2] [H3 H4]. split; [by rewrite H3|congruence]. Qed.

(** Element [j] is not above its parent [j / 2], for the parents from [l] on
    other than [i]. *)
Definition heap_but (l i cnt : Z) arr : Prop :=
  forall j, l <= j / 2 -> j <= cnt -> j / 2 <> i -> le (at1 arr j) (at1 arr (j / 2)).
Definition heap (l cnt : Z) arr : Prop := forall j, l <= j / 2 -> j <= cnt -> le (at1 arr j) (at1 arr (j / 2)).

(** The index that a pass of [heapify] chooses. *)
Lemma choose_max arr i cnt : 1 <= i <= cnt -> cnt <= len arr -> cnt < 2 ^ 31 ->
  exists mx,
    (let! max := if u32 (2 * i) <=? cnt
                 then let! c := do_compare compare arr (u32 (2 * i)) i in Ok (if 0 <? c then u32 (2 * i) else i)
                 else Ok i in
     if u32 (2 * i + 1) <=? cnt
     then let! c := do_compare compare arr (u32 (2 * i + 1)) max in Ok (if 0 <? c then u32 (2 * i + 1) else max)
     else Ok max) = Ok mx /\
    (mx = i \/ mx / 2 = i) /\ i <= mx <= cnt /\ le (at1 arr i) (at1 arr mx) /\
    forall j, j / 2 = i -> j <= cnt -> le (at1 arr j) (at1 arr mx).
Proof.
  intros Hi Hc H31. have -> : u32 (2 * i) = 2 * i by apply wrap_small; lia.
  have -> : u32 (2 * i + 1) = 2 * i + 1 by apply wrap_small; lia.
  have Hpick : forall k m, 1 <= k <= cnt -> 1 <= m <= cnt -> exists p,
    (let! c := do_compare compare arr k m in Ok (if 0 <? c then k else m)) = Ok p /\ (p = k \/ p = m) /\
    le (at1 arr k) (at1 arr p) /\ le (at1 arr m) (at1 arr p).
  { intros k m Hk Hm. rw /do_compare !get1_ok; [lia..|]. cbn [obind].
    destruct (Z.ltb_spec 0 (compare (at1 arr k) (at1 arr m))) as [Hlt|Hge].
    - exists k. split_and!; [done|by left|apply le_refl|by apply le_total].
    - exists m. split_and!; [done|by right|done|apply le_refl]. }
  destruct (Z.leb_spec (2 * i) cnt) as [Hl|Hl].
  - destruct (Hpick (2 * i) i) as (p & Hp & Hpi & Hp1 & Hp2); [lia..|]. rw Hp. cbn [obind].
    destruct (Z.leb_spec (2 * i + 1) cnt) as [Hr|Hr].
    + destruct (Hpick (2 * i + 1) p) as (q & Hq & Hqi & Hq1 & Hq2); [lia..|]. exists q. split; [done|]. split_and!; try dlia.
      * by apply (cmp_trans _ (at1 arr p)).
      * intros j Hj Hjc. have [-> | ->] : j = 2 * i \/ j = 2 * i + 1 by dlia.
        -- by apply (cmp_trans _ (at1 arr p)).
        -- done.
    + exists p. split; [done|]. split_and!; try dlia; [done|]. intros j Hj Hjc. by have -> : j = 2 * i by dlia.
  - destruct (Z.leb_spec (2 * i + 1) cnt); [lia|]. exists i. split; [done|]. split_and!; try lia; [apply le_refl|].
    intros j Hj Hjc. exfalso. dlia.
Qed.

Lemma heapify_ok n arr l i cnt size :
  sized_as size arr -> 0 <= size -> 1 <= l <= i -> i <= cnt -> cnt <= len arr -> cnt < 2 ^ 31 ->
  cnt - i < Z.of_nat n -> heap_but l i cnt arr ->
  (forall j, j / 2 = i -> j <= cnt -> l <= i / 2 -> le (at1 arr j) (at1 arr (i / 2))) ->
  exists arr', heapify compare n arr i cnt size = Ok arr' /\ shuffle cnt arr arr' /\ heap l cnt arr'.
Proof.
  intros Hs Hz Hl Hi Hc H31. revert arr i Hs Hl Hi Hc.
  induction n as [|n IH]; intros arr i Hs Hl Hi Hc Hn Hb Hg; [lia|].
  cbn [heapify]. destruct (choose_max arr i cnt) as (mx & Hmx & Hor & Hr & Him & Hch); [lia..|].
  rewrite -obind_assoc Hmx. cbn [obind]. destruct (Z.eqb_spec mx i) as [-> | Hne].
  - exists arr. split_and!; [done|done|]. intros j Hlj Hj. destruct (decide (j / 2 = i)) as [He|He].
    + rewrite He. by apply Hch.
    + by apply Hb.
  - have Hmi : mx / 2 = i by tauto. rw (do_swap_ok _ _ _ _ Hs); [lia..|]. cbn [obind].
    have Hsw : forall k, 1 <= k <= cnt -> at1 (swap1 arr i mx) k =
      if decide (k = mx) then at1 arr i else if decide (k = i) then at1 arr mx else at1 arr k.
    { intros k Hk. apply at1_swap; lia. }
    destruct (IH (swap1 arr i mx) mx) as (arr' & Hh & Hsh & Hheap); try lia.
    + apply (Forall_Permutation (fun x => Z.of_nat (length x) = size) _ (fun x => iff_refl _) arr); [|done].
      symmetry. by apply (shuffle_perm cnt), shuffle_swap; lia.
    + rw length_swap1. lia.
    + intros j Hlj Hj Hjm. have Hj1 : 1 <= j / 2 < j by dlia. rw !Hsw; [lia..|].
      destruct (decide (j / 2 = i)) as [He|He].
      * rewrite (decide_False (P := j / 2 = mx)) //. repeat case_decide; subst; try done; try lia. by apply Hch.
      * rewrite (decide_False (P := j / 2 = mx)) // (decide_False (P := j = mx)); [congruence|].
        destruct (decide (j = i)) as [-> | Hji]; [apply Hg; [done|lia|done]|by apply Hb].
    + intros j Hj Hjc Hlm. rw !Hsw; [dlia..|]. rewrite Hmi. rewrite (decide_False (P := i = mx)); [lia|]. rewrite (decide_True (P := i = i)) //.
      rewrite (decide_False (P := j = mx)); [dlia|]. rewrite (decide_False (P := j = i)); [dlia|]. rewrite -Hj. apply Hb; lia.
    + exists arr'. split_and!; [done| |done]. eapply shuffle_trans; [|done]. apply shuffle_swap; lia.
Qed.

Lemma sized_shuffle size cnt arr arr' : shuffle cnt arr arr' -> sized_as size arr -> sized_as size arr'.
Proof. intros Hp%shuffle_perm Hs. rewrite /sized_as. by rewrite Hp. Qed.
Lemma len_shuffle cnt arr arr' : shuffle cnt arr arr' -> length arr' = length arr.
Proof. intros Hp%shuffle_perm. by rewrite Hp. Qed.

Lemma build_loop_ok k arr cnt size : sized_as size arr -> 0 <= size -> cnt <= len arr -> cnt < 2 ^ 31 ->
  Z.of_nat k <= cnt -> heap (Z.of_nat k + 1) cnt arr ->
  exists arr', build_loop compare k arr cnt size = Ok arr' /\ shuffle cnt arr arr' /\ heap 1 cnt arr'.
Proof.
  intros Hs Hz Hc H31. revert arr Hs Hc. induction k as [|k IH]; intros arr Hs Hc Hk Hh; [by exists arr|].
  cbn [build_loop].
  destruct (heapify_ok (heap_fuel cnt) arr (Z.of_nat (S k)) (Z.of_nat (S k)) cnt size) as (a1 & H1 & Hs1 & Hh1); try lia; [done| | | |].
  - rewrite /heap_fuel. lia.
  - intros j Hl Hj Hne. apply Hh; lia.
  - intros j Hj Hjc Hlt. exfalso. dlia.
  - rewrite H1. cbn [obind]. destruct (IH a1) as (a2 & H2 & Hs2 & Hh2); [by eapply sized_shuffle|by rewrite (len_shuffle _ _ _ Hs1)|lia| |].
    + intros j Hl Hj. apply Hh1; lia.
    + exists a2. split_and!; [done| |done]. by eapply shuffle_trans.
Qed.

(** The root is a greatest element. *)
Lemma heap_root cnt arr j : heap 1 cnt arr -> 1 <= j <= cnt -> le (at1 arr j) (at1 arr 1).
Proof.
  intros Hh. induction (Z.lt_wf 0 j) as [j _ IH]. intros Hj. destruct (decide (j = 1)) as [-> | Hne]; [apply le_refl|].
  apply (cmp_trans _ (at1 arr (j / 2))); [apply Hh; dlia|]. apply IH; dlia.
Qed.

(** The elements from [k] on are sorted and not below the first [k]. *)
Definition sorted_from (k : nat) arr : Prop :=
  StronglySorted le (drop k arr) /\ Forall (fun x => Forall (le x) (drop k arr)) (take k arr).

Lemma elem_take_at1 k arr x : x ∈ take k arr -> exists j, 1 <= j <= Z.of_nat k /\ j <= len arr /\ x = at1 arr j.
Proof.
  intros Hx. apply list_elem_of_lookup in Hx as [i Hi]. have Hl := lookup_lt_Some _ _ _ Hi.
  rewrite length_take in Hl. rewrite lookup_take_lt in Hi; [lia|]. exists (Z.of_nat i + 1). split_and!; [lia..|].
  rewrite /at1. have -> : Z.to_nat (Z.of_nat i + 1 - 1) = i by lia. symmetry. by apply list_lookup_total_correct.
Qed.

(** Moving the root to place [k]. *)
Lemma sorted_from_swap k arr : (0 < k)%nat -> (k <= length arr)%nat -> heap 1 (Z.of_nat k) arr -> sorted_from k arr ->
  sorted_from (k - 1) (swap1 arr 1 (Z.of_nat k)).
Proof.
  intros Hk Hl Hh [Hss Hall]. set arr' := swap1 _ _ _.
  have Hsh : shuffle (Z.of_nat k) arr arr' by apply shuffle_swap; lia.
  destruct Hsh as [Hp Hd]. rewrite Nat2Z.id in Hp Hd.
  have Hat : at1 arr' (Z.of_nat k) = at1 arr 1 by rewrite /arr' at1_swap ?decide_True //; lia.
  have Hlook : arr' !! (k - 1)%nat = Some (at1 arr 1).
  { rewrite -Hat /at1. have -> : Z.to_nat (Z.of_nat k - 1) = (k - 1)%nat by lia.
    apply list_lookup_lookup_total_lt. rewrite /arr' length_swap1. lia. }
  have Hdk : drop (k - 1) arr' = at1 arr 1 :: drop k arr.
  { rewrite (drop_S arr' _ _ Hlook). f_equal. have -> : S (k - 1) = k by lia. done. }
  have Hin : forall x, x ∈ take (k - 1) arr' -> x ∈ take k arr.
  { intros x Hx. rewrite -Hp. have -> : k = S (k - 1) by lia. rewrite (take_S_r _ _ _ Hlook).
    apply elem_of_app. by left. }
  have H1 : at1 arr 1 ∈ take k arr.
  { rewrite -Hp. have -> : k = S (k - 1) by lia. rewrite (take_S_r _ _ _ Hlook).
    apply elem_of_app. right. apply list_elem_of_singleton. done. }
  rewrite /sorted_from Hdk. rewrite Forall_forall in Hall. split.
  - constructor; [done|]. by apply Hall.
  - apply Forall_forall. intros x Hx%Hin. constructor; [|by apply Hall].
    destruct (elem_take_at1 _ _ _ Hx) as (j & Hj & _ & ->). apply (heap_root (Z.of_nat k)); [done|lia].
Qed.

Lemma sorted_from_shuffle k arr arr' : shuffle (Z.of_nat k) arr arr' -> sorted_from k arr -> sorted_from k arr'.
Proof.
  intros [Hp Hd] [Hs Ha]. rewrite Nat2Z.id in Hp Hd. split; [by rewrite Hd|]. rewrite Hd. by rewrite Hp.
Qed.

Lemma sort_loop_ok k arr size : sized_as size arr -> 0 <= size -> (k <= length arr)%nat -> len arr < 2 ^ 31 ->
  heap 1 (Z.of_nat k) arr -> sorted_from k arr ->
  exists arr', sort_loop compare k arr size = Ok arr' /\ arr' ≡ₚ arr /\ StronglySorted le arr'.
Proof.
  intros Hs Hz. revert arr Hs. induction k as [|k IH]; intros arr Hs Hk H31 Hh Hsf.
  { exists arr. split_and!; [done..|]. by destruct Hsf as [Hss _]. }
  destruct k as [|k].
  { exists arr. split_and!; [done..|]. destruct Hsf as [Hss Ha]. destruct arr as [|x arr]; [constructor|].
    constructor; [done|]. rewrite /= Forall_singleton in Ha. done. }
  cbn [sort_loop]. set i := Z.of_nat (S (S k)). have Hi : i = Z.of_nat k + 2 by lia.
  rewrite (do_swap_ok _ _ _ _ Hs); [lia..|]. cbn [obind]. set arr1 := swap1 arr 1 i.
  have Hsh1 : shuffle i arr arr1 by apply shuffle_swap; lia.
  have Hsf1 : sorted_from (S k) arr1.
  { have := sorted_from_swap (S (S k)) arr ltac:(lia) Hk Hh Hsf. by have -> : (S (S k) - 1)%nat = S k by lia. }
  have Hl1 : length arr1 = length arr by rewrite /arr1 length_swap1.
  destruct (heapify_ok (heap_fuel (Z.of_nat (S k))) arr1 1 1 (Z.of_nat (S k)) size) as (arr2 & H2 & Hs2 & Hh2);
    try lia; [by eapply sized_shuffle| | | |].
  - rewrite /heap_fuel. lia.
  - intros j Hl Hj Hne. rewrite /arr1 !at1_swap; try dlia. rewrite !decide_False; [dlia..|]. apply Hh; dlia.
  - intros j Hj Hjc Hlt. exfalso. dlia.
  - rewrite H2. cbn [obind]. have Hl2 := len_shuffle _ _ _ Hs2.
    destruct (IH arr2) as (arr3 & H3 & Hp3 & Hss3); [|lia|lia|done|by eapply sorted_from_shuffle|].
    + eapply sized_shuffle; [exact Hs2|]. by eapply sized_shuffle.
    + exists arr3. split_and!; [done| |done]. rewrite Hp3. rewrite (shuffle_perm _ _ _ Hs2). by apply (shuffle_perm i).
Qed.

Lemma sort_ok arr size : sized_as size arr -> 0 < size -> len arr < 2 ^ 31 ->
  exists arr', sort compare arr (len arr) size = Ok arr' /\ arr' ≡ₚ arr /\ StronglySorted le arr'.
Proof.
  intros Hs Hz H31. rewrite /sort. destruct (Z.ltb_spec 0 size); [|lia]. cbn [ASSERT obind].
  destruct (build_loop_ok (Z.to_nat (len arr / 2)) arr (len arr) size) as (a1 & H1 & Hs1 & Hh1); try lia; [done|dlia| |].
  { intros j Hl Hj. exfalso. dlia. }
  rewrite H1. cbn [obind]. have Hl1 := len_shuffle _ _ _ Hs1. rewrite Nat2Z.id.
  destruct (sort_loop_ok (length arr) a1 size) as (a2 & H2 & Hp & Hss); [by eapply sized_shuffle|lia|lia|lia|done| |].
  { rewrite /sorted_from drop_ge; [lia|]. split; [constructor|]. apply Forall_forall. intros x _. constructor. }
  exists a2. split_and!; [done| |done]. rewrite Hp. by eapply shuffle_perm.
Qed.

(** ** Binary search *)
Lemma sorted_lookup arr i j x y : StronglySorted le arr -> arr !! i = Some x -> arr !! j = Some y -> (i <= j)%nat -> le x y.
Proof.
  intros Hs Hi Hj Hij. destruct (decide (i = j)) as [-> | Hne].
  - have -> : x = y by congruence. apply le_refl.
  - revert i j Hi Hj Hij Hne. induction Hs as [|z arr Hs IH Hz]; intros i j Hi Hj Hij Hne; [done|].
    destruct j as [|j]; [lia|]. destruct i as [|i]; simpl in *.
    + injection Hi as ->. rewrite Forall_forall in Hz. apply Hz. by eapply list_elem_of_lookup_2.
    + apply (IH i j); [done|done|lia|lia].
Qed.

Lemma search_loop_ok n key arr first last :
  StronglySorted le arr -> 0 <= first -> last <= len arr -> last - first <= Z.of_nat n ->
  (forall k e, arr !! k = Some e -> compare key e = 0 -> first <= Z.of_nat k < last) ->
  exists r, search_loop compare n key arr first last = Ok r /\
    match r with
    | Some i => exists e, 0 <= i /\ arr !! Z.to_nat i = Some e /\ compare key e = 0
    | None => forall k e, arr !! k = Some e -> compare key e <> 0
    end.
Proof.
  intros Hs. revert first last. induction n as [|n IH]; intros first last Hf Hl Hn Hin; cbn [search_loop];
    destruct (Z.ltb_spec first last) as [Hlt|Hge]; try lia.
  1, 3: exists None; split; [done|]; intros k e Hk He; specialize (Hin k e Hk He); lia.
  set mid := first + (last - first) / 2. have Hmid : first <= mid < last by rewrite /mid; dlia.
  destruct (lookup_lt_is_Some_2 arr (Z.to_nat mid)) as [e He]; [lia|]. rewrite He. cbn [obind oget].
  destruct (Z.ltb_spec (compare key e) 0) as [H1|H1].
  - apply IH; [lia..|]. intros k x Hk Hx. have := Hin k x Hk Hx. split; [lia|].
    destruct (Z.lt_ge_cases (Z.of_nat k) mid) as [?|Hkm]; [done|]. exfalso.
    have Hex := sorted_lookup arr _ _ _ _ Hs He Hk ltac:(lia). apply cmp_opp in H1.
    have : compare e key <= 0; [|lia]. apply (cmp_trans _ x); [done|].
    destruct (Z.lt_ge_cases 0 (compare x key)) as [Hgt|?]; [|done]. apply cmp_opp in Hgt. lia.
  - destruct (Z.ltb_spec 0 (compare key e)) as [H2|H2].
    + apply IH; [lia..|]. intros k x Hk Hx. have := Hin k x Hk Hx. split; [|lia].
      destruct (Z.lt_ge_cases mid (Z.of_nat k)) as [?|Hkm]; [lia|]. exfalso.
      have Hex := sorted_lookup arr _ _ _ _ Hs Hk He ltac:(lia).
      have : compare key e <= 0; [|lia]. apply (cmp_trans _ x); [lia|done].
    + exists (Some mid). split; [done|]. exists e. split_and!; [lia|done|lia].
Qed.
End heap.

(** ** atoi *)
Definition dec (ds : list Z) : Z := fold_left (fun v c => v * 10 + (c - 48)) ds 0.

Lemma skip_space_ok m p bs s : cstr m p (bs ++ s) -> Forall (fun c => isspace c = true) bs ->
  (forall c s', s = c :: s' -> isspace c = false) ->
  forall n, (length (bs ++ s) < n)%nat -> skip_space n m p = Ok (p + len bs).
Proof.
  intros Hs Hb Hn. revert p Hs. induction Hb as [|c bs Hc Hb IH]; intros p Hs [|n] Hf; simpl in *; try lia.
  - destruct s as [|c s]; simpl in Hs.
    + rewrite Hs /=. f_equal. lia.
    + destruct Hs as (-> & _). cbn [obind]. rewrite (Hn c s) //. f_equal. lia.
  - destruct Hs as (-> & _ & Hs). cbn [obind]. rewrite Hc IH //; [lia|]. f_equal. lia.
Qed.

Lemma dec_nonneg ds v : Forall (fun c => isdigit c = true) ds -> 0 <= v ->
  v <= fold_left (fun v c => v * 10 + (c - 48)) ds v.
Proof.
  intros Hd. revert v. induction Hd as [|c ds Hc Hd IH]; intros v Hv; simpl; [lia|].
  have Hr : 48 <= c <= 57 by move: Hc; rewrite /isdigit; destruct (Z.leb_spec 48 c), (Z.leb_spec c 57); simpl; try done; lia.
  etransitivity; [|apply IH]; lia.
Qed.

Lemma parse_digits_ok m p ds s v : cstr m p (ds ++ s) -> Forall (fun c => isdigit c = true) ds ->
  (forall c s', s = c :: s' -> isdigit c = false) -> 0 <= v ->
  fold_left (fun v c => v * 10 + (c - 48)) ds v <= 2 ^ 31 ->
  forall n, (length (ds ++ s) < n)%nat ->
  parse_digits n m p (- v) = Ok (- fold_left (fun v c => v * 10 + (c - 48)) ds v).
Proof.
  intros Hs Hd Hn. revert p v Hs. induction Hd as [|c ds Hc Hd IH]; intros p v Hs Hv Hb [|n] Hf; simpl in *; try lia.
  - destruct s as [|c s]; simpl in Hs; [by rewrite Hs|]. destruct Hs as (-> & _). cbn [obind]. by rewrite (Hn c s).
  - destruct Hs as (-> & _ & Hs). cbn [obind]. rewrite Hc.
    have Hr : 48 <= c <= 57 by move: Hc; rewrite /isdigit; destruct (Z.leb_spec 48 c), (Z.leb_spec c 57); simpl; try done; lia.
    have Hge := dec_nonneg ds (v * 10 + (c - 48)) Hd ltac:(lia).
    have -> : s32 (- v * 10 - (c - 48)) = - (v * 10 + (c - 48)) by rewrite swrap_small; lia.
    by apply IH; try lia.
Qed.

(** ** Theorems *)

(** Comparing one-byte elements. *)
Definition ex_compare (a b : list Z) : Z := nth 0 a 0 - nth 0 b 0.
#[export] Instance ex_compare_laws : Compare ex_compare.
Proof. split; rewrite /ex_compare; intros; lia. Qed.

(** [sort] and [qsort] sort: for elements of any size and any array of
    fewer than 2^31 elements, with a [compare] that behaves as documented, every
    loop ends, no access is out of bounds, and the result is the same elements
    in nondecreasing order. *)
Theorem sort_correct (compare : list Z -> list Z -> Z) `{!Compare compare} (arr : list (list Z)) (size : Z) :
  Forall (fun x => Z.of_nat (length x) = size) arr -> 0 < size -> len arr < 2 ^ 31 ->
  exists arr', qsort compare arr (len arr) size = Ok arr' /\ arr' ≡ₚ arr /\
    StronglySorted (fun x y => compare x y <= 0) arr'.
Proof. apply sort_ok. done. Qed.

Lemma sort_correct_witness :
  exists arr', qsort ex_compare [[3]; [1]; [2]; [1]] 4 1 = Ok arr' /\ arr' ≡ₚ [[3]; [1]; [2]; [1]] /\
    StronglySorted (fun x y => ex_compare x y <= 0) arr'.
Proof. apply (sort_correct ex_compare [[3]; [1]; [2]; [1]] 1); [repeat constructor|lia|simpl; lia]. Defined.

(** [bsearch] on a sorted array finds an element equal to the key whenever
    there is one, in as many passes as there are elements at most. *)
Theorem bsearch_correct (compare : list Z -> list Z -> Z) `{!Compare compare} (key : list Z) (arr : list (list Z)) :
  StronglySorted (fun x y => compare x y <= 0) arr ->
  exists r, bsearch compare key arr (len arr) = Ok r /\
    match r with
    | Some i => exists e, 0 <= i /\ arr !! Z.to_nat i = Some e /\ compare key e = 0
    | None => forall k e, arr !! k = Some e -> compare key e <> 0
    end.
Proof.
  intros Hs. apply search_loop_ok; [done|done|lia|lia|lia|]. intros k e Hk _. have := lookup_lt_Some _ _ _ Hk. lia.
Qed.

Lemma bsearch_correct_witness :
  StronglySorted (fun x y => ex_compare x y <= 0) [[1]; [4]; [9]] /\
  exists r, bsearch ex_compare [4] [[1]; [4]; [9]] 3 = Ok r /\
    match r with
    | Some i => exists e, 0 <= i /\ [[1]; [4]; [9]] !! Z.to_nat i = Some e /\ ex_compare [4] e = 0
    | None => forall k e, [[1]; [4]; [9]] !! k = Some e -> ex_compare [4] e <> 0
    end.
Proof.
  assert (H : StronglySorted (fun x y => ex_compare x y <= 0) [[1]; [4]; [9]]).
  { repeat constructor; vm_compute; discriminate. }
  split; [exact H|]. apply (bsearch_correct ex_compare [4] [[1]; [4]; [9]]). exact H.
Defined.

(** [atoi] reads white space, an optional sign and digits, up to the first
    other character, and returns their value, for every value that an [int] can
    hold, the least one included. *)
Theorem atoi_correct (m : list Z) (p : Z) (blanks ds rest : list Z) (sign : option bool) :
  cstr m p (blanks ++ match sign with None => [] | Some true => [45] | Some false => [43] end ++ ds ++ rest) ->
  Forall (fun c => isspace c = true) blanks -> Forall (fun c => isdigit c = true) ds ->
  (forall c s, rest = c :: s -> isdigit c = false) -> (sign = None -> ds <> []) ->
  dec ds <= (if decide (sign = Some true) then 2 ^ 31 else 2 ^ 31 - 1) ->
  atoi m p = Ok (if decide (sign = Some true) then - dec ds else dec ds).
Proof.
  intros Hs Hb Hd Hr Hne Hv. rewrite /atoi (cstr_not_null _ _ _ Hs). cbn [negb ASSERT obind].
  set sg := match sign with None => [] | _ => _ end in Hs |- *.
  have Hf := cstr_fuel _ _ _ Hs.
  have Hdig : forall c, isdigit c = true -> 48 <= c <= 57.
  { intros c. rewrite /isdigit. destruct (Z.leb_spec 48 c), (Z.leb_spec c 57); simpl; try done; lia. }
  have Hsp : forall c s', sg ++ ds ++ rest = c :: s' -> isspace c = false.
  { intros c s' He. destruct sign as [[]|]; rewrite /sg in He; simpl in He; try by injection He as <- _.
    destruct ds as [|x ds]; [by destruct (Hne eq_refl)|]. injection He as <- _.
    apply Forall_cons in Hd as [Hx%Hdig _]. rewrite /isspace. repeat (rewrite (proj2 (Z.eqb_neq x _)); [lia|]). done. }
  rewrite (skip_space_ok m p blanks (sg ++ ds ++ rest) Hs Hb Hsp _ Hf). cbn [obind].
  have Hs1 := cstr_app _ _ _ _ Hs. have Hs2 := cstr_app _ _ _ _ Hs1.
  have Hdec := dec_nonneg ds 0 Hd ltac:(lia). change (0 <= dec ds) in Hdec.
  have Hpd : parse_digits (fuel m) m (p + len blanks + len sg) 0 = Ok (- dec ds).
  { change 0 with (- 0) at 1. apply (parse_digits_ok m _ ds rest); [done|done|done|lia| |].
    - change (dec ds <= 2 ^ 31). case_decide; lia.
    - rewrite !length_app in Hf |- *. lia. }
  have Hs32 : sign <> Some true -> s32 (- - dec ds) = dec ds.
  { intros Hsg. rewrite decide_False // in Hv. rewrite swrap_small; lia. }
  destruct sign as [[]|]; rewrite /sg in Hs1 Hpd; simpl in Hs1, Hpd.
  - destruct Hs1 as (-> & _). cbn [obind Z.eqb Pos.eqb]. by rewrite Hpd.
  - destruct Hs1 as (-> & _). cbn [obind Z.eqb Pos.eqb]. rewrite Hpd. cbn [obind]. by rewrite Hs32.
  - rewrite Z.add_0_r in Hpd. destruct ds as [|x ds]; [by destruct (Hne eq_refl)|]. simpl in Hs1.
    apply Forall_cons in Hd as [Hx%Hdig _]. destruct Hs1 as (-> & _). cbn [obind].
    rewrite (proj2 (Z.eqb_neq x 43)); [lia|]. rewrite (proj2 (Z.eqb_neq x 45)); [lia|]. rewrite Hpd. cbn [obind]. by rewrite Hs32.
Qed.

Lemma atoi_correct_witness : atoi [0; 32; 45; 52; 50; 0] 1 = Ok (-42).
Proof.
  apply (atoi_correct [0; 32; 45; 52; 50; 0] 1 [32] [52; 50] [] (Some true));
    [repeat split|repeat constructor|repeat constructor|discriminate|discriminate|vm_compute; discriminate].
Defined.
