(* ===== verification/Printf.v ===== *)
(** * lib/stdio.c: formatted output

    Memory is a finite map from addresses to bytes; a pointer to characters is
    an address or a position in a string literal of the program.  The caller's
    [output] function and its auxiliary data are parameters: an output function
    takes a character, the memory and the data, and may change both.  Variable
    arguments are the 32-bit words that the caller has pushed.

    The theorems: whatever the output function does with the characters, they
    are the same; [format_integer] is equivalent to a reference definition of
    the field and never overruns its buffer; [vsnprintf] stays inside the buffer
    and reports the untruncated length; what %d prints, [atoi] reads. *)
From S2P Require Import Prelude CString StdLib.

(** ** Pointers to characters *)
Inductive cptr := Mem (p : Z) | Lit (s : list Z) (i : Z).
Abbreviation bytes := (gmap Z Z).

(** [p[k]] *)
Definition char_at (m : bytes) (p : cptr) (k : Z) : outcome Z :=
  match p with
  | Mem p => oget (m !! (p + k))
  | Lit s i => if (i + k) =? Z.of_nat (length s) then Ok 0
               else if (i + k) <? 0 then Err Fault else oget (s !! Z.to_nat (i + k))
  end.
Definition next (p : cptr) : cptr := match p with Mem p => Mem (p + 1) | Lit s i => Lit s (i + 1) end.
(** A loop over a string reads a different byte in each pass. *)
Definition string_fuel (m : bytes) (p : cptr) : nat :=
  match p with Mem _ => S (stdpp.base.size m) | Lit s _ => S (length s) end.

(** The characters of a literal. *)
Definition chars (s : string) : list Z := (fun c => Z.of_nat (Ascii.nat_of_ascii c)) <$> String.list_ascii_of_string s.
Definition ch (s : string) : Z := default 0 (head (chars s)).

(** ** va_list: the words on the stack *)
Definition va_word (args : list Z) : outcome (Z * list Z) :=
  match args with [] => Err Fault | w :: args => Ok (u32 w, args) end.
Definition va_two (args : list Z) : outcome (Z * list Z) :=
  let! (lo, args) := va_word args in let! (hi, args) := va_word args in Ok (lo + 2 ^ 32 * hi, args).

(** ** Conversions *)
Definition MINUS : Z := Z.shiftl 1 0.
Definition PLUS : Z := Z.shiftl 1 1.
Definition SPACE : Z := Z.shiftl 1 2.
Definition POUND : Z := Z.shiftl 1 3.
Definition ZERO : Z := Z.shiftl 1 4.
Definition GROUP : Z := Z.shiftl 1 5.

Inductive arg_type := CHAR | SHORT | INT | INTMAX | LONG | LONGLONG | PTRDIFFT | SIZET.

Record printf_conversion := mk_conv { flags : Z; width : Z; precision : Z; type : arg_type }.
Definition has (fl flag : Z) : bool := negb (Z.land fl flag =? 0).

Record integer_base := mk_base { base : Z; digits : list Z; xchar : Z; group : Z }.
Definition base_d : integer_base := mk_base 10 (chars "0123456789") 0 3.
Definition base_o : integer_base := mk_base 8 (chars "01234567") 0 3.
Definition base_x : integer_base := mk_base 16 (chars "0123456789abcdef") (ch "x") 4.
Definition base_X : integer_base := mk_base 16 (chars "0123456789ABCDEF") (ch "X") 4.

(** The first loop: flag characters. *)
Definition flag_of (c : Z) : option Z :=
  if c =? ch "-" then Some MINUS else if c =? ch "+" then Some PLUS else
  if c =? ch " " then Some SPACE else if c =? ch "#" then Some POUND else
  if c =? ch "0" then Some ZERO else if c =? ch "'" then Some GROUP else None.
Fixpoint flags_loop (fuel : nat) (m : bytes) (format : cptr) (fl : Z) : outcome (cptr * Z) :=
  let! c := char_at m format 0 in
  match flag_of c with
  | None => Ok (format, fl)
  | Some x => match fuel with O => Err NoFuel | S fuel => flags_loop fuel m (next format) (Z.lor fl x) end
  end.

(** [for (; isdigit ( *format); format++) n = n * 10 + *format - '0';] *)
Fixpoint number_loop (fuel : nat) (m : bytes) (format : cptr) (n : Z) : outcome (cptr * Z) :=
  let! c := char_at m format 0 in
  if isdigit c then
    match fuel with O => Err NoFuel | S fuel => number_loop fuel m (next format) (s32 (n * 10 + c - ch "0")) end
  else Ok (format, n).

(** A number, or an argument for an asterisk. *)
Definition star_or_number (m : bytes) (format : cptr) (args : list Z) : outcome (cptr * Z * list Z) :=
  let! c := char_at m format 0 in
  if c =? ch "*" then let! (w, args) := va_word args in Ok (next format, s32 w, args)
  else let! (format, n) := number_loop (string_fuel m format) m format 0 in Ok (format, n, args).

Definition parse_type (m : bytes) (format : cptr) : outcome (cptr * arg_type) :=
  let! c := char_at m format 0 in
  if c =? ch "h" then
    let! c := char_at m (next format) 0 in
    Ok (if c =? ch "h" then (next (next format), CHAR) else (next format, SHORT))
  else if c =? ch "j" then Ok (next format, INTMAX)
  else if c =? ch "l" then
    let! c := char_at m (next format) 0 in
    Ok (if c =? ch "l" then (next (next format), LONGLONG) else (next format, LONG))
  else if c =? ch "t" then Ok (next format, PTRDIFFT)
  else if c =? ch "z" then Ok (next format, SIZET)
  else Ok (format, INT).

Definition parse_conversion (m : bytes) (format : cptr) (args : list Z)
    : outcome (cptr * printf_conversion * list Z) :=
  let! (format, fl) := flags_loop (string_fuel m format) m format 0 in
  let fl := if has fl MINUS then Z.ldiff fl ZERO else fl in
  let fl := if has fl PLUS then Z.ldiff fl SPACE else fl in
  let! (format, w, args) := star_or_number m format args in
  let (w, fl) := if w <? 0 then (s32 (- w), Z.lor fl MINUS) else (w, fl) in
  let! c := char_at m format 0 in
  let! (format, prec, args) :=
    if c =? ch "." then
      let! (format, p, args) := star_or_number m (next format) args in
      Ok (format, (if p <? 0 then -1 else p), args)
    else Ok (format, -1, args) in
  let fl := if 0 <=? prec then Z.ldiff fl ZERO else fl in
  let! (format, t) := parse_type m format in
  Ok (format, mk_conv fl w prec t, args).

(** ** Output *)
Section output.
Context {A : Type} (output : Z -> bytes * A -> outcome (bytes * A)).
Abbreviation state := (bytes * A)%type.

Fixpoint output_loop (n : nat) (c : Z) (st : state) : outcome state :=
  match n with O => Ok st | S n => let! st := output c st in output_loop n c st end.
Definition output_dup (c cnt : Z) (st : state) : outcome state := output_loop (Z.to_nat cnt) c st.

(** [*cp++ = c], with [char buf[64]]. *)
Definition BUF_SIZE : Z := 64.
Definition put (buf : list Z) (c : Z) : outcome (list Z) :=
  if Z.of_nat (length buf) <? BUF_SIZE then Ok (buf ++ [c]) else Err Fault.

(** A pass divides [value] by at least 2: 64 passes are enough for 64 bits. *)
Fixpoint digits_loop (fuel : nat) (b : integer_base) (fl value digit_cnt : Z) (buf : list Z) : outcome (list Z) :=
  if 0 <? value then
    match fuel with
    | O => Err NoFuel
    | S fuel =>
      let! buf := if has fl GROUP && (0 <? digit_cnt) && (digit_cnt mod group b =? 0) then put buf (ch ",") else Ok buf in
      let! d := oget (digits b !! Z.to_nat (value mod base b)) in
      let! buf := put buf d in
      digits_loop fuel b fl (value / base b) (digit_cnt + 1) buf
    end
  else Ok buf.

(** [while (cp - buf < precision && cp < buf + sizeof buf - 1) *cp++ = '0';] *)
Fixpoint zeros_loop (fuel : nat) (prec : Z) (buf : list Z) : outcome (list Z) :=
  if (Z.of_nat (length buf) <? prec) && (Z.of_nat (length buf) <? BUF_SIZE - 1) then
    match fuel with O => Err NoFuel | S fuel => let! buf := put buf (ch "0") in zeros_loop fuel prec buf end
  else Ok buf.

(** [while (cp > buf) output ( *--cp, aux);] *)
Fixpoint output_all (cs : list Z) (st : state) : outcome state :=
  match cs with [] => Ok st | c :: cs => let! st := output c st in output_all cs st end.

Definition sign_char (fl : Z) (is_signed negative : bool) : Z :=
  if is_signed then
    if has fl PLUS then if negative then ch "-" else ch "+"
    else if has fl SPACE then if negative then ch "-" else ch " "
    else if negative then ch "-" else 0
  else 0.

Definition format_integer (value : Z) (is_signed negative : bool) (b : integer_base) (c : printf_conversion)
    (st : state) : outcome state :=
  let fl := flags c in
  let sign := sign_char fl is_signed negative in
  let x := if has fl POUND && negb (value =? 0) then xchar b else 0 in
  let! buf := digits_loop 64 b fl value 0 [] in
  let prec := if precision c <? 0 then 1 else precision c in
  let! buf := zeros_loop (Z.to_nat BUF_SIZE) prec buf in
  let! buf := if has fl POUND && (base b =? 8) &&
                 match last buf with None => true | Some d => negb (d =? ch "0") end
              then put buf (ch "0") else Ok buf in
  let pad_cnt := s32 (width c - Z.of_nat (length buf) - (if x =? 0 then 0 else 2) - (if sign =? 0 then 0 else 1)) in
  let pad_cnt := if pad_cnt <? 0 then 0 else pad_cnt in
  let! st := if Z.land fl (Z.lor MINUS ZERO) =? 0 then output_dup (ch " ") pad_cnt st else Ok st in
  let! st := if negb (sign =? 0) then output sign st else Ok st in
  let! st := if negb (x =? 0) then let! st := output (ch "0") st in output x st else Ok st in
  let! st := if has fl ZERO then output_dup (ch "0") pad_cnt st else Ok st in
  let! st := output_all (rev buf) st in
  if has fl MINUS then output_dup (ch " ") pad_cnt st else Ok st.

Fixpoint string_loop (n : nat) (s : cptr) (i : Z) (st : state) : outcome state :=
  match n with
  | O => Ok st
  | S n => let! c := char_at st.1 s i in let! st := output c st in string_loop n s (i + 1) st
  end.
Definition format_string (s : cptr) (len : Z) (c : printf_conversion) (st : state) : outcome state :=
  let! st := if (len <? width c) && negb (has (flags c) MINUS) then output_dup (ch " ") (width c - len) st else Ok st in
  let! st := string_loop (Z.to_nat len) s 0 st in
  if (len <? width c) && has (flags c) MINUS then output_dup (ch " ") (width c - len) st else Ok st.

(** The argument of a signed conversion, and of an unsigned one. *)
Definition signed_arg (t : arg_type) (args : list Z) : outcome (Z * list Z) :=
  match t with
  | CHAR => let! (w, args) := va_word args in Ok (s8 w, args)
  | SHORT => let! (w, args) := va_word args in Ok (swrap 16 w, args)
  | INT | LONG | PTRDIFFT => let! (w, args) := va_word args in Ok (s32 w, args)
  | INTMAX | LONGLONG => let! (w, args) := va_two args in Ok (s64 w, args)
  | SIZET => let! (w, args) := va_word args in
             Ok (if SIZE_MAX / 2 <? w then w - SIZE_MAX - 1 else w, args)
  end.
Definition PTRDIFF_MAX : Z := 2 ^ 31 - 1.
Definition unsigned_arg (t : arg_type) (args : list Z) : outcome (Z * list Z) :=
  match t with
  | CHAR => let! (w, args) := va_word args in Ok (u8 w, args)
  | SHORT => let! (w, args) := va_word args in Ok (u16 w, args)
  | INT | LONG | SIZET => va_word args
  | INTMAX | LONGLONG => va_two args
  | PTRDIFFT => let! (w, args) := va_word args in
                Ok (Z.land (u64 (s32 w)) (Z.lor (u64 (Z.shiftl PTRDIFF_MAX 1)) 1), args)
  end.
Definition unsigned_base (c : Z) : integer_base :=
  if c =? ch "o" then base_o else if c =? ch "u" then base_d else if c =? ch "x" then base_x else base_X.

(** [strnlen (s, maxlen)] *)
Fixpoint strnlen_from (fuel : nat) (m : bytes) (s : cptr) (maxlen i : Z) : outcome Z :=
  let! c := char_at m s i in
  if negb (c =? 0) && (i <? maxlen) then
    match fuel with O => Err NoFuel | S fuel => strnlen_from fuel m s maxlen (i + 1) end
  else Ok i.
Definition string_len (m : bytes) (s : cptr) (maxlen : Z) : outcome Z :=
  strnlen_from (string_fuel m s) m s maxlen 0.

(** [switch ( *format)]; [nested] is the recursive call of [__vprintf]. *)
Definition is_one_of (c : Z) (s : string) : bool := bool_decide (c ∈ chars s).
Definition convert (nested : cptr -> list Z -> state -> outcome state) (c : Z) (conv : printf_conversion)
    (args : list Z) (st : state) : outcome (list Z * state) :=
  if is_one_of c "di" then
    let! (value, args) := signed_arg (type conv) args in
    let! st := format_integer (u64 (if value <? 0 then - value else value)) true (value <? 0) base_d conv st in
    Ok (args, st)
  else if is_one_of c "ouxX" then
    let! (value, args) := unsigned_arg (type conv) args in
    let! st := format_integer value false false (unsigned_base c) conv st in
    Ok (args, st)
  else if c =? ch "c" then
    let! (w, args) := va_word args in
    let! st := format_string (Lit [u8 w] 0) 1 conv st in
    Ok (args, st)
  else if c =? ch "s" then
    let! (w, args) := va_word args in
    let s := if w =? 0 then Lit (chars "(null)") 0 else Mem w in
    let! len := string_len st.1 s (u32 (precision conv)) in
    let! st := format_string s (s32 len) conv st in
    Ok (args, st)
  else if c =? ch "p" then
    let! (w, args) := va_word args in
    let! st := format_integer w false false base_x (mk_conv POUND (width conv) (precision conv) (type conv)) st in
    Ok (args, st)
  else if is_one_of c "feEgGn" then
    let! st := nested (Lit (chars "<<no %%%c in kernel>>") 0) [c] st in Ok (args, st)
  else
    let! st := nested (Lit (chars "<<no %%%c conversion>>") 0) [c] st in Ok (args, st).

(** A pass reads on in the format; [next format] after a conversion skips its
    last character, also when that is the terminator. *)
Fixpoint vprintf_loop (nested : cptr -> list Z -> state -> outcome state) (fuel : nat) (format : cptr)
    (args : list Z) (st : state) : outcome state :=
  let! c := char_at st.1 format 0 in
  if c =? 0 then Ok st else
  match fuel with
  | O => Err NoFuel
  | S fuel =>
    if negb (c =? ch "%") then let! st := output c st in vprintf_loop nested fuel (next format) args st
    else
      let format := next format in
      let! c := char_at st.1 format 0 in
      if c =? ch "%" then let! st := output (ch "%") st in vprintf_loop nested fuel (next format) args st
      else
        let! (format, conv, args) := parse_conversion st.1 format args in
        let! c := char_at st.1 format 0 in
        let! (args, st) := convert nested c conv args st in
        vprintf_loop nested fuel (next format) args st
  end.

(** [__vprintf] to a depth of recursive calls.  The formats of the recursive
    calls have no conversion that makes another one: depth 2 is enough. *)
Fixpoint vprintf_depth (n : nat) (format : cptr) (args : list Z) (st : state) : outcome state :=
  match n with
  | O => Err NoFuel
  | S n => vprintf_loop (vprintf_depth n) (string_fuel st.1 format) format args st
  end.
Definition __vprintf (format : cptr) (args : list Z) (st : state) : outcome state := vprintf_depth 2 format args st.
Definition __printf := __vprintf.
End output.

(** ** vsnprintf *)
Record vsnprintf_aux := mk_aux { p : Z; length : Z; max_length : Z }.
Definition vsnprintf_helper (c : Z) (st : bytes * vsnprintf_aux) : outcome (bytes * vsnprintf_aux) :=
  let (m, aux) := st in
  if length aux <? max_length aux then
    let! _ := oget (m !! p aux) in
    Ok (<[p aux := c]> m, mk_aux (p aux + 1) (s32 (length aux + 1)) (max_length aux))
  else Ok (m, mk_aux (p aux) (s32 (length aux + 1)) (max_length aux)).

Definition vsnprintf (m : bytes) (buffer buf_size : Z) (format : cptr) (args : list Z) : outcome (Z * bytes) :=
  let aux := mk_aux buffer 0 (if 0 <? buf_size then s32 (buf_size - 1) else 0) in
  let! (m, aux) := __vprintf vsnprintf_helper format args (m, aux) in
  let! m := if 0 <? buf_size then let! _ := oget (m !! p aux) in Ok (<[p aux := 0]> m) else Ok m in
  Ok (length aux, m).
Definition snprintf (m : bytes) (buffer buf_size : Z) (format : cptr) (args : list Z) : outcome (Z * bytes) :=
  vsnprintf m buffer buf_size format args.

(** ** Output to the console: the characters in order *)
Definition console (c : Z) (st : bytes * list Z) : outcome (bytes * list Z) := Ok (st.1, st.2 ++ [c]).
Definition printf (m : bytes) (format : cptr) (args : list Z) : outcome (list Z) :=
  let! st := __vprintf console format args (m, []) in Ok st.2.

(** A sequence of [printf] calls with literal formats. *)
Definition say (out : list Z) (format : string) (args : list Z) : outcome (list Z) :=
  let! l := printf ∅ (Lit (chars format) 0) args in Ok (out ++ l).
Fixpoint say_times (n : nat) (out : list Z) (format : string) : outcome (list Z) :=
  match n with O => Ok out | S n => let! out := say out format [] in say_times n out format end.
Definition isprint (c : Z) : bool := (32 <=? c) && (c <? 127).
Definition per_line : Z := 16.

(** The loops over the bytes of a line; [i] is the column of the first. *)
Fixpoint dump_bytes (bs : list Z) (i : Z) (out : list Z) : outcome (list Z) :=
  match bs with
  | [] => Ok out
  | b :: bs => let! out := say out "%02hhx%c" [b; if i =? per_line / 2 - 1 then ch "-" else ch " "] in
               dump_bytes bs (i + 1) out
  end.
Fixpoint dump_ascii (bs : list Z) (out : list Z) : outcome (list Z) :=
  match bs with
  | [] => Ok out
  | b :: bs => let! out := say out "%c" [if isprint b then b else ch "."] in dump_ascii bs out
  end.
Definition dump_line (ofs : Z) (line : list Z) (start stop : Z) (ascii : bool) (out : list Z) : outcome (list Z) :=
  let! out := say out "%08jx  " [ofs / per_line * per_line; 0] in
  let! out := say_times (Z.to_nat start) out "   " in
  let! out := dump_bytes line start out in
  let! out :=
    if ascii then
      let! out := say_times (Z.to_nat (per_line - stop)) out "   " in
      let! out := say out "|" [] in
      let! out := say_times (Z.to_nat start) out " " in
      let! out := dump_ascii line out in
      let! out := say_times (Z.to_nat (per_line - stop)) out " " in
      say out "|" []
    else Ok out in
  Ok (out ++ [10]).

(** [buf] holds the bytes that are left.  A pass prints at least one. *)
Fixpoint hex_dump_loop (fuel : nat) (ofs : Z) (buf : list Z) (ascii : bool) (out : list Z) : outcome (list Z) :=
  let size := Z.of_nat (List.length buf) in
  if 0 <? size then
    match fuel with
    | O => Err NoFuel
    | S fuel =>
      let start := ofs mod per_line in
      let stop := if size <? per_line - start then start + size else per_line in
      let n := stop - start in
      let! out := dump_line ofs (take (Z.to_nat n) buf) start stop ascii out in
      hex_dump_loop fuel (u32 (ofs + n)) (drop (Z.to_nat n) buf) ascii out
    end
  else Ok out.
Definition hex_dump (ofs : Z) (buf : list Z) (ascii : bool) : outcome (list Z) :=
  hex_dump_loop (List.length buf) ofs buf ascii [].

(** The conversion %s of a string without width or precision copies it.
    [fp] moves along "bytes", "kB", "MB", "GB", "TB". *)
Fixpoint human_loop (fp : list string) (size : Z) : outcome (Z * string) :=
  match fp with
  | [] => Err Fault
  | f :: fp => if (1024 <=? size) && negb (bool_decide (fp = [])) then human_loop fp (size / 1024) else Ok (size, f)
  end.
Definition print_human_readable_size (size : Z) : outcome (list Z) :=
  if size =? 1 then say [] "1 byte" [] else
  let! (size, f) := human_loop ["bytes"; "kB"; "MB"; "GB"; "TB"]%string size in
  let! out := say [] "%llu " [u32 size; size / 2 ^ 32] in
  Ok (out ++ chars f).

(** ** Reference definitions *)

(** How many digits [v] has in base [b]: as many as there are powers of [b] up
    to [v].  64-bit values have at most 22, in base 8. *)
Definition num_digits (N : nat) (b v : Z) : nat := List.length (filter (fun k => b ^ Z.of_nat k <= v) (seq 0 N)).
Definition MAX_DIGITS : nat := 22.
(** Digit [k], counted from the right, and the separator after it. *)
Definition digit (b : integer_base) (v : Z) (k : nat) : Z := digits b !!! Z.to_nat ((v / base b ^ Z.of_nat k) mod base b).
Definition separator (b : integer_base) (fl : Z) (k : nat) : list Z :=
  if has fl GROUP && (0 <? Z.of_nat k) && (Z.of_nat k mod group b =? 0) then [ch ","] else [].
Definition number (b : integer_base) (fl v : Z) : list Z :=
  mjoin ((fun k => digit b v k :: separator b fl k) <$> rev (seq 0 (num_digits MAX_DIGITS (base b) v))).

(** The number with the zeros that the precision asks for, 63 characters at
    most, and the leading zero of the alternative octal form. *)
Definition with_precision (prec : Z) (ds : list Z) : list Z :=
  replicate (Z.to_nat (Z.min (if prec <? 0 then 1 else prec) 63) - List.length ds) (ch "0") ++ ds.
Definition with_octal_zero (b : integer_base) (fl : Z) (ds : list Z) : list Z :=
  if has fl POUND && (base b =? 8) && negb (bool_decide (head ds = Some (ch "0"))) then ch "0" :: ds else ds.

(** The field: sign and prefix, the number, and padding to the width on the
    left, on the right or, as zeros, between them. *)
Definition integer_field (value : Z) (is_signed negative : bool) (b : integer_base) (c : printf_conversion) : list Z :=
  let fl := flags c in
  let sign := sign_char fl is_signed negative in
  let lead := (if sign =? 0 then [] else [sign]) ++
              (if has fl POUND && negb (value =? 0) && negb (xchar b =? 0) then [ch "0"; xchar b] else []) in
  let body := with_octal_zero b fl (with_precision (precision c) (number b fl value)) in
  let pad := Z.to_nat (width c - Z.of_nat (List.length lead) - Z.of_nat (List.length body)) in
  let spaces := replicate pad (ch " ") in
  (if has fl MINUS || has fl ZERO then [] else spaces) ++ lead ++
  (if has fl ZERO && negb (has fl MINUS) then replicate pad (ch "0") else []) ++ body ++ (if has fl MINUS then spaces else []).

(** ** Digits *)
Lemma num_digits_S N b v : 1 < b -> 0 < v -> num_digits (S N) b v = S (num_digits N b (v / b)).
Proof.
  intros Hb Hv. rw /num_digits. cbn [seq]. rw filter_cons_True; [simpl; lia|]. cbn [List.length]. f_equal.
  rw -fmap_S_seq. generalize (seq 0 N). intros l. induction l as [|k l IH]; [done|].
  have Hk : b ^ Z.of_nat (S k) <= v <-> b ^ Z.of_nat k <= v / b.
  { rw Nat2Z.inj_succ Z.pow_succ_r; [lia|]. split; intros H; [apply Z.div_le_lower_bound; lia|].
    etrans; [apply Z.mul_le_mono_nonneg_l; [lia|exact H]|]. apply Z.mul_div_le. lia. }
  rw fmap_cons !filter_cons. destruct (decide (b ^ Z.of_nat k <= v / b)) as [H|H].
  - rw decide_True; [by apply Hk|]. cbn [List.length]. by rw IH.
  - rw decide_False //. by intros ?%Hk.
Qed.

Lemma num_digits_0 N b v : 1 < b -> v <= 0 -> num_digits N b v = 0%nat.
Proof.
  intros Hb Hv. rw /num_digits. generalize (seq 0 N). intros l. induction l as [|k l IH]; [done|].
  rw filter_cons_False //. have := Z.pow_pos_nonneg b (Z.of_nat k). lia.
Qed.

Lemma num_digits_le N b v : (num_digits N b v <= N)%nat.
Proof. rw /num_digits. etrans; [apply length_filter|]. by rw length_seq. Qed.

(** The digits from the right, from digit [k] on. *)
Fixpoint ls_digits (b : integer_base) (fl : Z) (n k : nat) (v : Z) : list Z :=
  match n with
  | O => []
  | S n => separator b fl k ++ (digits b !!! Z.to_nat (v mod base b)) :: ls_digits b fl n (S k) (v / base b)
  end.

Lemma ls_digits_fields b fl n k v : 0 < base b -> 
  rev (ls_digits b fl n k v) = mjoin ((fun j => digit b v j :: separator b fl (k + j)) <$> rev (seq 0 n)).
Proof.
  intros Hb. revert k v. induction n as [|n IH]; intros k v; [done|]. cbn [ls_digits seq rev].
  rw rev_app_distr /= IH -app_assoc fmap_app join_app -fmap_S_seq -map_rev.
  rw -/(fmap S (rev (seq 0 n))) -list_fmap_compose /=. f_equal.
  - f_equal. apply list_fmap_ext. intros _ j _. simpl. f_equal; [|f_equal; lia].
    rw /digit Nat2Z.inj_succ Z.pow_succ_r; [lia|]. by rw Z.div_div; [lia|lia|].
  - rw Nat.add_0_r /digit Z.pow_0_r Z.div_1_r /separator. by case_match.
Qed.

(** The four bases of the code. *)
Definition known_base (b : integer_base) : Prop := b ∈ [base_d; base_o; base_x; base_X].

Lemma known_base_ok b : known_base b ->
  8 <= base b <= 16 /\ Z.of_nat (List.length (digits b)) = base b /\ 0 < group b.
Proof.
  intros H. do 4 (apply elem_of_cons in H as [->|H]; [by vm_compute|]). by apply not_elem_of_nil in H.
Qed.

Lemma digits_loop_ok N b fl v k fuel buf :
  known_base b -> 0 <= v < base b ^ Z.of_nat N -> (N <= fuel)%nat -> (List.length buf + 2 * N <= 64)%nat ->
  digits_loop fuel b fl v (Z.of_nat k) buf = Ok (buf ++ ls_digits b fl (num_digits N (base b) v) k v).
Proof.
  intros Hb. have [H8 [Hd Hg]] := known_base_ok b Hb.
  revert v k fuel buf. induction N as [|N IH]; intros v k fuel buf Hv Hf Hl.
  { have -> : v = 0 by lia. destruct fuel; simpl; by rw app_nil_r. }
  destruct fuel as [|fuel]; [lia|]. cbn [digits_loop]. destruct (Z.ltb_spec 0 v) as [Hpos|Hz].
  - rw num_digits_S; [lia|lia|]. cbn [ls_digits].
    have Hput : forall bf c, (List.length bf < 64)%nat -> put bf c = Ok (bf ++ [c]).
    { intros bf c Hc. rw /put /BUF_SIZE. by destruct (Z.ltb_spec (Z.of_nat (List.length bf)) 64); [|lia]. }
    have Hdig : digits b !! Z.to_nat (v mod base b) = Some (digits b !!! Z.to_nat (v mod base b)).
    { apply list_lookup_lookup_total_lt. have := Z.mod_pos_bound v (base b). lia. }
    have HIH : forall bf, (List.length bf + 2 * N <= 64)%nat ->
      digits_loop fuel b fl (v / base b) (Z.of_nat k + 1) bf = Ok (bf ++ ls_digits b fl (num_digits N (base b) (v / base b)) (S k) (v / base b)).
    { intros bf Hbf. have <- : Z.of_nat (S k) = Z.of_nat k + 1 by lia. apply IH; [|lia|done].
      split; [by apply Z.div_pos; lia|]. apply Z.div_lt_upper_bound; [lia|]. rw Nat2Z.inj_succ Z.pow_succ_r in Hv; lia. }
    rw /separator. destruct (has fl GROUP && (0 <? Z.of_nat k) && (Z.of_nat k mod group b =? 0)).
    + rw Hput; [lia|]. cbn [obind]. rw Hdig. cbn [oget obind]. rw Hput; [rw length_app /=; lia|]. cbn [obind].
      rw HIH; [rw !length_app /=; lia|]. by rw -!app_assoc.
    + cbn [obind]. rw Hdig. cbn [oget obind]. rw Hput; [lia|]. cbn [obind]. rw HIH; [rw length_app /=; lia|]. by rw -app_assoc.
  - rw num_digits_0; [lia|lia|]. by rw app_nil_r.
Qed.

Lemma length_ls_digits b fl n k v : (n <= List.length (ls_digits b fl n k v) <= 2 * n)%nat.
Proof.
  revert k v. induction n as [|n IH]; intros k v; [simpl; lia|]. cbn [ls_digits]. rw length_app /=.
  have := IH (S k) (v / base b). rw /separator. case_match; simpl; lia.
Qed.

Lemma zeros_loop_ok fuel prec buf :
  (List.length buf <= 63)%nat -> (63 - List.length buf <= fuel)%nat ->
  zeros_loop fuel prec buf = Ok (buf ++ replicate (Z.to_nat (Z.min prec 63) - List.length buf) (ch "0")).
Proof.
  revert buf. induction fuel as [|fuel IH]; intros buf Hl Hf; cbn [zeros_loop].
  - rw (proj2 (Z.ltb_ge (Z.of_nat (List.length buf)) (BUF_SIZE - 1))); [rw /BUF_SIZE; lia|]. rw andb_false_r.
    have -> : (Z.to_nat (Z.min prec 63) - List.length buf = 0)%nat by lia. by rw app_nil_r.
  - destruct (Z.ltb_spec (Z.of_nat (List.length buf)) prec) as [H1|H1].
    + destruct (Z.ltb_spec (Z.of_nat (List.length buf)) (BUF_SIZE - 1)) as [H2|H2]; rw /BUF_SIZE in H2; cbn [andb].
      * rw /put /BUF_SIZE. rw (proj2 (Z.ltb_lt _ _)); [lia|]. cbn [obind]. rw IH; [rw length_app /=; lia|rw length_app /=; lia|].
        have -> : (Z.to_nat (Z.min prec 63) - List.length buf = S (Z.to_nat (Z.min prec 63) - List.length (buf ++ [ch "0"])))%nat.
        { rw length_app /=. lia. }
        by rw -app_assoc.
      * have -> : (Z.to_nat (Z.min prec 63) - List.length buf = 0)%nat by lia. by rw app_nil_r.
    + cbn [andb]. have -> : (Z.to_nat (Z.min prec 63) - List.length buf = 0)%nat by lia. by rw app_nil_r.
Qed.

Lemma rev_replicate (n : nat) (c : Z) : rev (replicate n c) = replicate n c.
Proof. induction n as [|n IH]; [done|]. by rw {1}replicate_S_end rev_app_distr IH. Qed.

(** The characters in the buffer, in the order in which they are output. *)
Definition buffer_of (b : integer_base) (fl prec value : Z) : outcome (list Z) :=
  let! buf := digits_loop 64 b fl value 0 [] in
  let! buf := zeros_loop (Z.to_nat BUF_SIZE) (if prec <? 0 then 1 else prec) buf in
  if has fl POUND && (base b =? 8) && match last buf with None => true | Some d => negb (d =? ch "0") end
  then put buf (ch "0") else Ok buf.

Lemma last_rev (l : list Z) : last l = head (rev l).
Proof.
  induction l as [|x l IH]; [done|]. destruct l as [|y l]; [done|]. 
  change (last (x :: y :: l)) with (last (y :: l)). rw IH. change (rev (x :: y :: l)) with (rev (y :: l) ++ [x]).
  destruct (rev (y :: l)) eqn:E; [|done]. apply (f_equal (@List.length Z)) in E. by rw length_rev in E.
Qed.

Lemma buffer_ok b fl prec value : known_base b -> 0 <= value < 2 ^ 64 ->
  exists buf, buffer_of b fl prec value = Ok buf /\
    rev buf = with_octal_zero b fl (with_precision prec (number b fl value)) /\ (List.length buf <= 64)%nat.
Proof.
  intros Hb Hv. have [H8 [Hd Hg]] := known_base_ok b Hb. rw /buffer_of.
  have Hlt : value < base b ^ Z.of_nat MAX_DIGITS.
  { apply (Z.lt_le_trans _ (8 ^ 22)); [lia|]. change (Z.of_nat MAX_DIGITS) with 22. apply Z.pow_le_mono_l. lia. }
  rw (digits_loop_ok MAX_DIGITS b fl value 0 64 []) //; [lia|rw /MAX_DIGITS; lia|simpl; rw /MAX_DIGITS; lia|]. cbn [obind app].
  set (ds := ls_digits b fl _ 0 value).
  have Hds : rev ds = number b fl value by rw /ds ls_digits_fields //; lia.
  have Hlen : (List.length ds <= 44)%nat.
  { have := length_ls_digits b fl (num_digits MAX_DIGITS (base b) value) 0 value.
    have := num_digits_le MAX_DIGITS (base b) value. rw -/ds /MAX_DIGITS. lia. }
  rw zeros_loop_ok; [lia|rw /BUF_SIZE; lia|]. cbn [obind].
  set (ds' := ds ++ replicate _ (ch "0")).
  have Hds' : rev ds' = with_precision prec (number b fl value).
  { rw /ds' rev_app_distr rev_replicate /with_precision -Hds length_rev //. }
  have Hlen' : (List.length ds' <= 63)%nat by rw /ds' length_app length_replicate; lia.
  have Hlast : match last ds' with None => true | Some d => negb (d =? ch "0") end = negb (bool_decide (head (rev ds') = Some (ch "0"))).
  { rw last_rev. destruct (head (rev ds')) as [d|]; [|done]. f_equal.
    destruct (Z.eqb_spec d (ch "0")) as [->|Hne]; [by rw bool_decide_eq_true_2|]. rw bool_decide_eq_false_2 //. congruence. }
  rw Hlast /with_octal_zero -Hds'. destruct (has fl POUND && (base b =? 8) && _).
  - rw /put /BUF_SIZE (proj2 (Z.ltb_lt _ _)); [lia|]. exists (ds' ++ [ch "0"]). split_and!; [done|by rw rev_app_distr|rw length_app /=; lia].
  - exists ds'. split_and!; [done..|lia].
Qed.

(** ** Output: the characters do not depend on the output function *)
Section emission.
Context {A : Type} (output : Z -> bytes * A -> outcome (bytes * A)).

Lemma output_all_app cs ds st :
  output_all output (cs ++ ds) st = obind (output_all output cs st) (output_all output ds).
Proof.
  revert st. induction cs as [|c cs IH]; intros st; [done|]. simpl. destruct (output c st); simpl; [apply IH|done].
Qed.

Lemma output_dup_all c n st : output_dup output c n st = output_all output (replicate (Z.to_nat n) c) st.
Proof.
  rw /output_dup. generalize (Z.to_nat n). intros k. revert st.
  induction k as [|k IH]; intros st; [done|]. simpl. destruct (output c st); simpl; [apply IH|done].
Qed.

Lemma output_one c st : output c st = output_all output [c] st.
Proof. simpl. by destruct (output c st). Qed.

Lemma output_if (b : bool) cs st :
  (if b then output_all output cs st else Ok st) = output_all output (if b then cs else []) st.
Proof. by destruct b. Qed.

Lemma emit_seq cs ds st k :
  (forall st', k st' = output_all output ds st') ->
  obind (output_all output cs st) k = output_all output (cs ++ ds) st.
Proof. intros H. rw output_all_app. by destruct (output_all output cs st); simpl. Qed.

Lemma format_integer_ok value is_signed negative b c st :
  known_base b -> 0 <= value < 2 ^ 64 -> 0 <= width c <= INT_MAX -> has (flags c) MINUS && has (flags c) ZERO = false ->
  format_integer output value is_signed negative b c st =
    output_all output (integer_field value is_signed negative b c) st.
Proof.
  intros Hb Hv Hw Hmz. rw /format_integer /integer_field.
  destruct (buffer_ok b (flags c) (precision c) value Hb Hv) as (buf & Eb & Hrev & Hlen).
  rw /buffer_of in Eb. apply obind_Ok_inv in Eb as (b1 & -> & Eb). cbn [obind].
  apply obind_Ok_inv in Eb as (b2 & -> & Eb). cbn [obind]. rw Eb. cbn [obind]. clear Eb b1 b2. rw -Hrev length_rev.
  set (sign := sign_char _ _ _). set (fl := flags c) in *.
  set (x := if has fl POUND && negb (value =? 0) then xchar b else 0).
  have Hx : (if has fl POUND && negb (value =? 0) && negb (xchar b =? 0) then [ch "0"; xchar b] else []) =
            (if negb (x =? 0) then [ch "0"; x] else []).
  { rw /x. by destruct (has fl POUND && negb (value =? 0)). }
  rw Hx. set (lead := (if sign =? 0 then [] else [sign]) ++ _).
  have Hl : Z.of_nat (List.length lead) = (if x =? 0 then 0 else 2) + (if sign =? 0 then 0 else 1).
  { rw /lead length_app. by destruct (sign =? 0), (x =? 0). }
  have Hr : 0 <= (if x =? 0 then 0 else 2) <= 2 /\ 0 <= (if sign =? 0 then 0 else 1) <= 1.
  { destruct (x =? 0), (sign =? 0); lia. }
  rw swrap_small; [lia|unfold INT_MAX in *; lia|].
  set (pad := width c - Z.of_nat (List.length buf) - _ - _).
  have Hpad : Z.to_nat (if pad <? 0 then 0 else pad) = Z.to_nat (width c - Z.of_nat (List.length lead) - Z.of_nat (List.length buf)).
  { rw Hl. destruct (Z.ltb_spec pad 0); rw /pad; [|f_equal; lia]. rw /pad in H. lia. }
  set (n := Z.to_nat (width c - _ - _)) in *.
  have Hland : (Z.land fl (Z.lor MINUS ZERO) =? 0) = negb (has fl MINUS || has fl ZERO).
  { rw Z.land_lor_distr_r /has -negb_andb negb_involutive. apply Bool.eq_iff_eq_true.
    rw andb_true_iff !Z.eqb_eq. apply Z.lor_eq_0_iff. }
  rw Hland !output_dup_all Hpad output_if. set (spaces := replicate n (ch " ")).
  have Hsp : (if has fl MINUS || has fl ZERO then [] else spaces) = (if negb (has fl MINUS || has fl ZERO) then spaces else []).
  { by destruct (has fl MINUS || has fl ZERO). }
  rw Hsp. apply emit_seq. intros st1. rw /lead -app_assoc.
  have Hsg : (if sign =? 0 then [] else [sign]) = (if negb (sign =? 0) then [sign] else []) by destruct (sign =? 0).
  rw Hsg (output_one sign) output_if. apply emit_seq. intros st2.
  have Hx2 : (if negb (x =? 0) then let! st0 := output (ch "0") st2 in output x st0 else Ok st2) =
             output_all output (if negb (x =? 0) then [ch "0"; x] else []) st2.
  { destruct (x =? 0); simpl; [done|]. destruct (output (ch "0") st2); simpl; [apply output_one|done]. }
  have Hz : has fl ZERO && negb (has fl MINUS) = has fl ZERO by move: Hmz; destruct (has fl MINUS), (has fl ZERO).
  rw Hx2 Hz. apply emit_seq. intros st3. rw output_dup_all Hpad output_if. apply emit_seq. intros st4.
  apply emit_seq. intros st5. by rw output_dup_all Hpad output_if.
Qed.

(** States from which [n] more characters can be output while the bytes of [m0]
    stay in memory. *)
Context (m0 : bytes) (ok : nat -> bytes * A -> Prop).
Context (Hsub : forall n st, ok n st -> m0 ⊆ st.1).
Context (Hkeep : forall n c st st', ok (S n) st -> output c st = Ok st' -> ok n st').

(** [f1], which writes to the console, and [f2], which writes to [output],
    produce the same characters. *)
Definition same_output (f1 : bytes * list Z -> outcome (bytes * list Z)) (f2 : bytes * A -> outcome (bytes * A)) : Prop :=
  forall cs r, f1 (m0, cs) = Ok r -> exists l, r = (m0, cs ++ l) /\
    forall n st, ok (List.length l + n) st -> f2 st = output_all output l st.

Lemma output_all_keeps l n st st' : ok (List.length l + n) st -> output_all output l st = Ok st' -> ok n st'.
Proof.
  revert st. induction l as [|c l IH]; intros st Hok; simpl; [by intros [= <-]|].
  intros (s & E & H)%obind_Ok_inv. eapply IH, H. by eapply Hkeep.
Qed.

Lemma same_bind f1 f2 g1 g2 :
  same_output f1 f2 -> same_output g1 g2 -> same_output (fun st => obind (f1 st) g1) (fun st => obind (f2 st) g2).
Proof.
  intros Hf Hg cs r (s & E & H)%obind_Ok_inv. destruct (Hf _ _ E) as (l1 & -> & H1).
  destruct (Hg _ _ H) as (l2 & -> & H2). exists (l1 ++ l2). split; [by rw app_assoc|].
  intros n st Hok. rw length_app -Nat.add_assoc in Hok. rw (H1 _ _ Hok) output_all_app.
  destruct (output_all output l1 st) as [st1|] eqn:E1; simpl; [|done].
  apply (H2 n). by eapply output_all_keeps.
Qed.

Lemma same_ret : same_output (fun st => Ok st) (fun st => Ok st).
Proof. intros cs r [= <-]. exists []. by rw app_nil_r. Qed.

Lemma same_one c : same_output (console c) (output c).
Proof. intros cs r [= <-]. exists [c]. split; [done|]. intros n st _. apply output_one. Qed.

Lemma same_if (b : bool) f1 f2 g1 g2 :
  same_output f1 f2 -> same_output g1 g2 ->
  same_output (fun st => if b then f1 st else g1 st) (fun st => if b then f2 st else g2 st).
Proof. by destruct b. Qed.

Lemma same_dup c n : same_output (output_dup console c n) (output_dup output c n).
Proof.
  rw /output_dup. generalize (Z.to_nat n). intros k. induction k as [|k IH]; [apply same_ret|].
  apply (same_bind (console c) (output c)); [apply same_one|done].
Qed.

Lemma same_all l : same_output (output_all console l) (output_all output l).
Proof. induction l as [|c l IH]; [apply same_ret|]. apply (same_bind (console c) (output c)); [apply same_one|done]. Qed.

Ltac same := repeat first [apply same_ret | apply same_one | apply same_dup | apply same_all
                          | apply same_bind | apply same_if].

Lemma same_integer value is_signed negative b c :
  same_output (format_integer console value is_signed negative b c) (format_integer output value is_signed negative b c).
Proof.
  rw /format_integer. destruct (digits_loop _ _ _ _ _ _) as [b1|]; [cbn [obind]|by intros cs r].
  destruct (zeros_loop _ _ b1) as [b2|]; [cbn [obind]|by intros cs r].
  destruct (if has (flags c) POUND && (base b =? 8) && _ then _ else _) as [b3|]; [cbn [obind]|by intros cs r].
  same.
Qed.

(** Reading in a larger memory. *)
Lemma char_at_mono m m' s i c : m ⊆ m' -> char_at m s i = Ok c -> char_at m' s i = Ok c.
Proof.
  intros Hm. destruct s as [a|l j]; [|done]. simpl. destruct (m !! (a + i)) as [x|] eqn:E; [|done].
  by rw (lookup_weaken _ _ _ _ E Hm).
Qed.

Lemma string_fuel_mono m m' s : m ⊆ m' -> (string_fuel m s <= string_fuel m' s)%nat.
Proof. intros Hm. destruct s; simpl; [|lia]. by apply le_n_S, map_subseteq_size. Qed.

Lemma same_string_loop n s i : same_output (string_loop console n s i) (string_loop output n s i).
Proof.
  revert i. induction n as [|n IH]; intros i; [apply same_ret|]. intros cs r. cbn [string_loop fst].
  intros (c & Ec & H)%obind_Ok_inv.
  destruct (same_bind (console c) (output c) _ _ (same_one c) (IH (i + 1)) cs r H) as (l & -> & Hl).
  exists l. split; [done|]. intros k st Hok. rw (char_at_mono _ _ _ _ _ (Hsub _ _ Hok) Ec). cbn [obind]. by apply (Hl k).
Qed.

Lemma same_string s len c : same_output (format_string console s len c) (format_string output s len c).
Proof. rw /format_string. repeat first [apply same_string_loop | progress same]. Qed.

Lemma flags_loop_mono fuel fuel' m m' s fl r : m ⊆ m' -> (fuel <= fuel')%nat ->
  flags_loop fuel m s fl = Ok r -> flags_loop fuel' m' s fl = Ok r.
Proof.
  intros Hm. revert fuel' s fl. induction fuel as [|fuel IH]; intros fuel' s fl Hf;
    (destruct fuel' as [|fuel']; [try lia|]); cbn [flags_loop]; intros (c & Ec & H)%obind_Ok_inv;
    rw (char_at_mono _ _ _ _ _ Hm Ec); cbn [obind]; destruct (flag_of c); try done. apply IH; [lia|done].
Qed.

Lemma number_loop_mono fuel fuel' m m' s n r : m ⊆ m' -> (fuel <= fuel')%nat ->
  number_loop fuel m s n = Ok r -> number_loop fuel' m' s n = Ok r.
Proof.
  intros Hm. revert fuel' s n. induction fuel as [|fuel IH]; intros fuel' s n Hf;
    (destruct fuel' as [|fuel']; [try lia|]); cbn [number_loop]; intros (c & Ec & H)%obind_Ok_inv;
    rw (char_at_mono _ _ _ _ _ Hm Ec); cbn [obind]; destruct (isdigit c); try done. apply IH; [lia|done].
Qed.

Lemma strnlen_from_mono fuel fuel' m m' s n i r : m ⊆ m' -> (fuel <= fuel')%nat ->
  strnlen_from fuel m s n i = Ok r -> strnlen_from fuel' m' s n i = Ok r.
Proof.
  intros Hm. revert fuel' i. induction fuel as [|fuel IH]; intros fuel' i Hf;
    (destruct fuel' as [|fuel']; [try lia|]); cbn [strnlen_from]; intros (c & Ec & H)%obind_Ok_inv;
    rw (char_at_mono _ _ _ _ _ Hm Ec); cbn [obind]; destruct (negb (c =? 0) && (i <? n)); try done. apply IH; [lia|done].
Qed.

Lemma star_or_number_mono m m' s args r : m ⊆ m' -> star_or_number m s args = Ok r -> star_or_number m' s args = Ok r.
Proof.
  intros Hm. rw /star_or_number. intros (c & Ec & H)%obind_Ok_inv. rw (char_at_mono _ _ _ _ _ Hm Ec). cbn [obind].
  destruct (c =? ch "*"); [done|]. apply obind_Ok_inv in H as ([s' n] & En & H).
  by rw (number_loop_mono _ _ _ _ _ _ _ Hm (string_fuel_mono _ _ s Hm) En).
Qed.

Lemma parse_type_mono m m' s r : m ⊆ m' -> parse_type m s = Ok r -> parse_type m' s = Ok r.
Proof.
  intros Hm. rw /parse_type. intros (c & Ec & H)%obind_Ok_inv. rw (char_at_mono _ _ _ _ _ Hm Ec). cbn [obind].
  destruct (c =? ch "h"); [|destruct (c =? ch "j"); [done|destruct (c =? ch "l"); [|done]]];
    apply obind_Ok_inv in H as (c2 & Ec2 & H); by rw (char_at_mono _ _ _ _ _ Hm Ec2).
Qed.

Lemma parse_conversion_mono m m' s args r : m ⊆ m' -> parse_conversion m s args = Ok r -> parse_conversion m' s args = Ok r.
Proof.
  intros Hm. rw /parse_conversion. intros ([s1 fl] & E1 & H)%obind_Ok_inv.
  rw (flags_loop_mono _ _ _ _ _ _ _ Hm (string_fuel_mono _ _ s Hm) E1). cbn [obind]. cbv zeta in H |- *.
  apply obind_Ok_inv in H as ([[s2 w] args2] & E2 & H). rw (star_or_number_mono _ _ _ _ _ Hm E2). cbn [obind].
  destruct (if w <? 0 then _ else _) as [w' fl'].
  apply obind_Ok_inv in H as (c & Ec & H). rw (char_at_mono _ _ _ _ _ Hm Ec). cbn [obind].
  apply obind_Ok_inv in H as ([[s3 prec] args3] & E3 & H).
  have -> : (if c =? ch "." then let! (format, p, args0) := star_or_number m' (next s2) args2 in
      Ok (format, if p <? 0 then -1 else p, args0) else Ok (s2, -1, args2)) = Ok (s3, prec, args3).
  { destruct (c =? ch "."); [|done]. apply obind_Ok_inv in E3 as (r3 & E3 & E4). by rw (star_or_number_mono _ _ _ _ _ Hm E3). }
  cbn [obind]. apply obind_Ok_inv in H as (r4 & E4 & H). by rw (parse_type_mono _ _ _ _ Hm E4).
Qed.

Section conversions.
Context (nested1 : cptr -> list Z -> bytes * list Z -> outcome (bytes * list Z)).
Context (nested2 : cptr -> list Z -> bytes * A -> outcome (bytes * A)).
Context (Hnested : forall s args, same_output (nested1 s args) (nested2 s args)).

(** The same for a conversion, which also returns the arguments that are left. *)
Lemma same_with_args f1 f2 (args : list Z) cs args' r :
  same_output f1 f2 -> (let! st := f1 (m0, cs) in Ok (args, st)) = Ok (args', r) ->
  exists l, r = (m0, cs ++ l) /\ forall n st, ok (List.length l + n) st -> (let! st := f2 st in Ok (args, st)) = (let! st := output_all output l st in Ok (args', st)).
Proof.
  intros Hf (s & E & H)%obind_Ok_inv. simplify_eq/=. destruct (Hf _ _ E) as (l & -> & Hl). exists l.
  split; [done|]. intros n st Hok. by rw (Hl n).
Qed.

Lemma same_convert c conv args cs args' r :
  convert console nested1 c conv args (m0, cs) = Ok (args', r) ->
  exists l, r = (m0, cs ++ l) /\ forall n st, ok (List.length l + n) st ->
    convert output nested2 c conv args st = (let! st := output_all output l st in Ok (args', st)).
Proof.
  rw /convert. destruct (is_one_of c "di").
  { intros ([v a] & E & H)%obind_Ok_inv. rw E. cbn [obind]. eapply same_with_args, H. apply same_integer. }
  destruct (is_one_of c "ouxX").
  { intros ([v a] & E & H)%obind_Ok_inv. rw E. cbn [obind]. eapply same_with_args, H. apply same_integer. }
  destruct (c =? ch "c").
  { intros ([v a] & E & H)%obind_Ok_inv. rw E. cbn [obind]. eapply same_with_args, H. apply same_string. }
  destruct (c =? ch "s").
  { intros ([v a] & E & H)%obind_Ok_inv. rw E. cbn [obind]. apply obind_Ok_inv in H as (n & En & H). cbn [fst] in En.
    destruct (same_with_args _ _ _ _ _ _ (same_string _ _ _) H) as (l & -> & Hl). exists l. split; [done|].
    intros k st Hok. have Hm := Hsub _ _ Hok. rw /string_len (strnlen_from_mono _ _ _ _ _ _ _ _ Hm (string_fuel_mono _ _ _ Hm) En). cbn [obind]. by apply (Hl k). }
  destruct (c =? ch "p").
  { intros ([v a] & E & H)%obind_Ok_inv. rw E. cbn [obind]. eapply same_with_args, H. apply same_integer. }
  destruct (is_one_of c "feEgGn"); intros H; eapply same_with_args, H; apply Hnested.
Qed.

Lemma same_loop fuel fuel' s args : (fuel <= fuel')%nat ->
  same_output (vprintf_loop console nested1 fuel s args) (vprintf_loop output nested2 fuel' s args).
Proof.
  revert fuel' s args. induction fuel as [|fuel IH]; intros fuel' s args Hf cs r;
    (destruct fuel' as [|fuel']; [try lia|]); cbn [vprintf_loop fst]; intros (c & Ec & H)%obind_Ok_inv.
  1,2: destruct (c =? 0) eqn:Hc; [|done]; injection H as <-; exists []; (split; [by rw app_nil_r|]); intros k st Hok; have Hm := Hsub _ _ Hok;
    by rw (char_at_mono _ _ _ _ _ Hm Ec) /= Hc.
  destruct (c =? 0) eqn:Hc.
  { injection H as <-; exists []; (split; [by rw app_nil_r|]); intros k st Hok. have Hm := Hsub _ _ Hok. by rw (char_at_mono _ _ _ _ _ Hm Ec) /= Hc. }
  have Hf' : (fuel <= fuel')%nat by lia.
  destruct (negb (c =? ch "%")) eqn:Hp.
  { destruct (same_bind (console c) (output c) _ _ (same_one c) (IH fuel' (next s) args Hf') cs r H) as (l & -> & Hl).
    exists l. split; [done|]. intros k st Hok. have Hm := Hsub _ _ Hok. rw (char_at_mono _ _ _ _ _ Hm Ec). cbn [obind]. rw Hc Hp. by apply (Hl k). }
  apply obind_Ok_inv in H as (c2 & Ec2 & H). destruct (c2 =? ch "%") eqn:Hc2.
  { destruct (same_bind (console (ch "%")) (output (ch "%")) _ _ (same_one _) (IH fuel' (next (next s)) args Hf') cs r H) as (l & -> & Hl).
    exists l. split; [done|]. intros k st Hok. have Hm := Hsub _ _ Hok. rw (char_at_mono _ _ _ _ _ Hm Ec). cbn [obind]. rw Hc Hp (char_at_mono _ _ _ _ _ Hm Ec2). cbn [obind]. rw Hc2. by apply (Hl k). }
  apply obind_Ok_inv in H as ([[s2 conv] args2] & Ep & H). apply obind_Ok_inv in H as (c3 & Ec3 & H).
  apply obind_Ok_inv in H as ([args3 r3] & Ev & H).
  destruct (same_convert _ _ _ _ _ _ Ev) as (l1 & -> & Hl1). destruct (IH fuel' (next s2) args3 Hf' _ _ H) as (l2 & -> & Hl2).
  exists (l1 ++ l2). split; [by rw app_assoc|]. intros k st Hok. have Hm := Hsub _ _ Hok. rw length_app -Nat.add_assoc in Hok.
  rw (char_at_mono _ _ _ _ _ Hm Ec). cbn [obind]. rw Hc Hp (char_at_mono _ _ _ _ _ Hm Ec2). cbn [obind]. rw Hc2.
  rw (parse_conversion_mono _ _ _ _ _ Hm Ep). cbn [obind]. rw (char_at_mono _ _ _ _ _ Hm Ec3). cbn [obind]. rw (Hl1 _ _ Hok) output_all_app.
  destruct (output_all output l1 st) as [st1|] eqn:E1; simpl; [|done]. apply (Hl2 k). by eapply output_all_keeps.
Qed.
End conversions.

Lemma same_depth n s args : same_output (vprintf_depth console n s args) (vprintf_depth output n s args).
Proof.
  revert s args. induction n as [|n IH]; intros s args; [by intros cs r|]. intros cs r H. cbn [vprintf_depth fst] in H.
  destruct (same_loop _ (vprintf_depth output n) IH _ _ s args (le_n _) cs r H) as (l & -> & _). exists l. split; [done|].
  intros k st Hok. have Hm := Hsub _ _ Hok. cbn [vprintf_depth].
  destruct (same_loop _ (vprintf_depth output n) IH _ _ s args (string_fuel_mono _ _ s Hm) cs _ H) as (l' & E & Hl').
  injection E as E. apply app_inv_head in E as ->. by apply (Hl' k).
Qed.

Lemma vprintf_emits format args l :
  printf m0 format args = Ok l ->
  forall st, ok (List.length l) st -> __vprintf output format args st = output_all output l st.
Proof.
  rw /printf /__vprintf. intros ([m1 cs] & E & [= <-])%obind_Ok_inv. destruct (same_depth _ _ _ _ _ E) as (l' & [= -> ->] & H). intros st Hok. apply (H 0%nat). by rw Nat.add_0_r.
Qed.
End emission.

(** ** vsnprintf *)
Section snprintf.
Context (buffer N : Z) (m0 : bytes).
Context (HN : 0 <= N) (Hfree : forall a, buffer <= a < buffer + N -> m0 !! a = None).
Abbreviation aux_at k := (mk_aux (buffer + Z.min k N) k N).

Definition room (n : nat) (st : bytes * vsnprintf_aux) : Prop :=
  exists k, st.2 = aux_at k /\ 0 <= k /\ k + Z.of_nat n <= INT_MAX /\ m0 ⊆ st.1.

Lemma helper_step m k c : 0 <= k < INT_MAX -> (k < N -> is_Some (m !! (buffer + k))) ->
  vsnprintf_helper c (m, aux_at k) = Ok (if k <? N then <[buffer + k := c]> m else m, aux_at (k + 1)).
Proof.
  intros Hk Hm. rw /vsnprintf_helper /=. rw swrap_small; [lia|unfold INT_MAX in *; lia|].
  destruct (Z.ltb_spec k N) as [H|H].
  - destruct (Hm H) as [x Hx]. rw Z.min_l; [lia|]. rw Hx. cbn [oget obind]. do 3 f_equal. lia.
  - do 3 f_equal. lia.
Qed.

Lemma room_keep n c st st' : room (S n) st -> vsnprintf_helper c st = Ok st' -> room n st'.
Proof.
  destruct st as [m aux]. intros (k & Hx & Hk & Hb & Hs) E. simpl in Hx, Hs. subst aux.
  have Hsome : k < N -> is_Some (m !! (buffer + k)).
  { intros H. rw /vsnprintf_helper /= (proj2 (Z.ltb_lt _ _) H) Z.min_l in E; [lia|].
    destruct (m !! (buffer + k)); [done|discriminate]. }
  rw helper_step in E; [lia|done|]. injection E as <-. exists (k + 1). split_and!; [done|lia|lia|]. simpl.
  destruct (Z.ltb_spec k N); [|done]. apply insert_subseteq_r; [|done]. apply Hfree. lia.
Qed.

Lemma helper_all l m k : 0 <= k -> k + Z.of_nat (List.length l) <= INT_MAX ->
  (forall a, buffer + k <= a < buffer + N -> is_Some (m !! a)) ->
  exists m', output_all vsnprintf_helper l (m, aux_at k) = Ok (m', aux_at (k + Z.of_nat (List.length l))) /\
    forall a, m' !! a = if decide (buffer + k <= a < buffer + Z.min (k + Z.of_nat (List.length l)) N)
                        then l !! Z.to_nat (a - buffer - k) else m !! a.
Proof.
  revert m k. induction l as [|c l IH]; intros m k Hk Hb Hm.
  - exists m. rw Z.add_0_r. split; [done|]. intros a. by rw decide_False; [lia|].
  - cbn [output_all]. cbn [List.length] in Hb. rw helper_step; [lia|intros H; apply Hm; lia|]. cbn [obind].
    destruct (IH (if k <? N then <[buffer + k := c]> m else m) (k + 1)) as (m' & E & Hm'); [lia|lia| |].
    { intros a Ha. destruct (k <? N); [|apply Hm; lia]. rw lookup_insert_ne; [lia|]. apply Hm. lia. }
    exists m'. have Hl : k + Z.of_nat (List.length (c :: l)) = k + 1 + Z.of_nat (List.length l) by cbn [List.length]; lia.
    rw Hl. split; [done|]. intros a. rw Hm'.
    destruct (Z.ltb_spec k N) as [Hkn|Hkn].
    + destruct (decide (a = buffer + k)) as [->|Hne].
      * rw decide_False; [lia|]. rw lookup_insert_eq decide_True; [lia|].
        have -> : Z.to_nat (buffer + k - buffer - k) = 0%nat by lia. done.
      * rw lookup_insert_ne //. repeat case_decide; try lia; [|done].
        have -> : Z.to_nat (a - buffer - k) = S (Z.to_nat (a - buffer - (k + 1))) by lia. done.
    + rw decide_False; [lia|]. by rw decide_False; [lia|].
Qed.
End snprintf.

Lemma vsnprintf_ok m m0 buffer buf_size format args l :
  printf m0 format args = Ok l -> m0 ⊆ m -> 0 <= buf_size <= INT_MAX -> Z.of_nat (List.length l) <= INT_MAX ->
  (forall a, buffer <= a < buffer + buf_size -> m0 !! a = None /\ is_Some (m !! a)) ->
  exists m', vsnprintf m buffer buf_size format args = Ok (Z.of_nat (List.length l), m') /\
    forall a, m' !! a = if decide (buffer <= a < buffer + Z.min (Z.of_nat (List.length l) + 1) buf_size)
                        then (take (Z.to_nat (buf_size - 1)) l ++ [0]) !! Z.to_nat (a - buffer) else m !! a.
Proof.
  intros Hp Hsub Hsz Hlen Hbuf. set (N := if 0 <? buf_size then buf_size - 1 else 0).
  have HN : 0 <= N <= buf_size by rw /N; destruct (Z.ltb_spec 0 buf_size); lia.
  have Hfree : forall a, buffer <= a < buffer + N -> m0 !! a = None by intros a Ha; apply Hbuf; lia.
  have HNs : (if 0 <? buf_size then s32 (buf_size - 1) else 0) = N.
  { rw /N. destruct (Z.ltb_spec 0 buf_size); [|done]. apply swrap_small; unfold INT_MAX in *; lia. }
  rw /vsnprintf HNs.
  have Haux : mk_aux buffer 0 N = mk_aux (buffer + Z.min 0 N) 0 N by f_equal; lia. rw Haux.
  rw (vprintf_emits vsnprintf_helper m0 (room buffer N m0) _ _ format args l Hp).
  - by intros n st (k & _ & _ & _ & H).
  - intros n c st st'. by apply room_keep.
  - exists 0. split_and!; [done|lia|lia|done].
  - destruct (helper_all buffer N l m 0) as (m1 & E & Hm1); [lia|lia| |].
    { intros a Ha. apply Hbuf. lia. }
    rw E. cbn [obind p length]. rw Z.add_0_l.
    destruct (Z.ltb_spec 0 buf_size) as [H0|H0].
    + have HNe : N = buf_size - 1 by rw /N; destruct (Z.ltb_spec 0 buf_size); lia.
      set (a0 := buffer + Z.min _ N).
      have [x Hx] : is_Some (m1 !! a0).
      { rw Hm1 decide_False; [rw /a0; lia|]. apply Hbuf. rw /a0. lia. }
      rw Hx. cbn [oget obind]. eexists. split; [done|]. intros a.
      have Hlt : List.length (take (Z.to_nat (buf_size - 1)) l) = Z.to_nat (a0 - buffer) by rw length_take /a0; lia.
      destruct (decide (a = a0)) as [->|Hne].
      * rw lookup_insert_eq decide_True; [rw /a0; lia|]. by rw lookup_app_r Hlt // Nat.sub_diag.
      * rw lookup_insert_ne // Hm1. rw /a0 in Hne Hlt. repeat case_decide; try lia; [|done].
        rw lookup_app_l; [lia|]. rw lookup_take_lt; [lia|]. f_equal. lia.
    + eexists. split; [done|]. intros a. rw Hm1. have ? : N = 0 by lia. by rw !decide_False; [lia|lia|].
Qed.

(** ** The value of decimal and octal digits *)
Definition value_of (b : Z) (ds : list Z) : Z := fold_left (fun v c => v * b + (c - 48)) ds 0.

Lemma value_of_app b xs c : value_of b (xs ++ [c]) = value_of b xs * b + (c - 48).
Proof. by rw /value_of fold_left_app. Qed.

Lemma value_of_zeros b n ds : value_of b (replicate n 48 ++ ds) = value_of b ds.
Proof. rw /value_of fold_left_app. f_equal. induction n as [|n IH]; [done|]. by rw /= IH. Qed.

(** Bases whose digits are 0 to 9. *)
Definition plain_base (b : integer_base) : Prop := b ∈ [base_d; base_o].
Lemma plain_known b : plain_base b -> known_base b.
Proof. intros H. do 2 (apply elem_of_cons in H as [-> | H]; [rw /known_base; set_solver|]). by apply not_elem_of_nil in H. Qed.

Lemma plain_digit b d : plain_base b -> 0 <= d < base b -> digits b !!! Z.to_nat d = 48 + d.
Proof.
  intros Hb Hd. have H : d ∈ seqZ 0 (base b) by apply elem_of_seqZ; lia. clear Hd. revert d H. apply Forall_forall.
  do 2 (apply elem_of_cons in Hb as [-> | Hb]; [repeat constructor|]). by apply not_elem_of_nil in Hb.
Qed.

Lemma ls_digits_value b fl N k v : plain_base b -> has fl GROUP = false -> 0 <= v < base b ^ Z.of_nat N ->
  value_of (base b) (rev (ls_digits b fl (num_digits N (base b) v) k v)) = v /\
  Forall (fun c => 48 <= c < 48 + base b) (rev (ls_digits b fl (num_digits N (base b) v) k v)).
Proof.
  intros Hb Hfl. have [H8 _] := known_base_ok b (plain_known b Hb).
  revert k v. induction N as [|N IH]; intros k v Hv.
  { have -> : v = 0 by lia. split; [done|constructor]. }
  destruct (Z.ltb_spec 0 v) as [Hpos|Hz].
  - rw num_digits_S; [lia|lia|]. cbn [ls_digits].
    have Hs : separator b fl k = [] by rw /separator Hfl. rw Hs. cbn [app rev].
    have Hm := Z.mod_pos_bound v (base b). have Hdm := Z.div_mod v (base b).
    rw value_of_app plain_digit //; [lia|].
    destruct (IH (S k) (v / base b)) as [E F].
    { split; [apply Z.div_pos; lia|]. apply Z.div_lt_upper_bound; [lia|]. rw Nat2Z.inj_succ Z.pow_succ_r in Hv; lia. }
    rw E. split; [lia|]. apply Forall_app. split; [done|]. constructor; [lia|constructor].
  - have -> : v = 0 by lia. rw num_digits_0; [lia|lia|]. split; [done|constructor].
Qed.

Lemma number_value b fl v : plain_base b -> has fl GROUP = false -> 0 <= v < 2 ^ 64 ->
  value_of (base b) (with_precision (-1) (number b fl v)) = v /\
  Forall (fun c => 48 <= c < 48 + base b) (with_precision (-1) (number b fl v)) /\
  with_precision (-1) (number b fl v) <> [].
Proof.
  intros Hb Hfl Hv. have [H8 _] := known_base_ok b (plain_known b Hb).
  destruct (ls_digits_value b fl MAX_DIGITS 0 v Hb Hfl) as [E F].
  { split; [lia|]. change (Z.of_nat MAX_DIGITS) with 22. apply (Z.lt_le_trans _ (8 ^ 22)); [lia|]. apply Z.pow_le_mono_l. lia. }
  rw ls_digits_fields in E F; [lia|]. cbn [Nat.add] in E, F. change (mjoin _) with (number b fl v) in E, F.
  rw /with_precision. cbn [Z.ltb Z.compare]. change (Z.to_nat (Z.min 1 63)) with 1%nat.
  split_and!.
  - change (ch "0") with 48. by rw value_of_zeros.
  - apply Forall_app. split; [|done]. apply Forall_replicate. change (ch "0") with 48. lia.
  - by destruct (number b fl v).
Qed.

(** A format that is a single conversion. *)
Lemma printf_one m s c1 args k c conv args1 :
  char_at m (Lit s 0) 0 = Ok (ch "%") -> char_at m (Lit s 1) 0 = Ok c1 -> (c1 =? ch "%") = false ->
  parse_conversion m (Lit s 1) args = Ok (Lit s k, conv, args1) -> char_at m (Lit s k) 0 = Ok c ->
  char_at m (Lit s (k + 1)) 0 = Ok 0 -> (0 < List.length s)%nat ->
  printf m (Lit s 0) args =
    (let! r := convert console (vprintf_depth console 1) c conv args1 (m, []) in
     let! st := vprintf_loop console (vprintf_depth console 1) (List.length s) (Lit s (k + 1)) r.1 r.2 in Ok st.2).
Proof.
  intros H0 H1 Hc Hp Hk Hend Hl. rw /printf /__vprintf. cbn [vprintf_depth fst string_fuel].
  cbn [vprintf_loop fst]. rw H0. cbn [obind]. change (ch "%" =? 0) with false. change (negb (ch "%" =? ch "%")) with false. cbv iota.
  cbn [next]. change (0 + 1) with 1. rw H1. cbn [obind]. rw Hc Hp. cbn [obind]. rw Hk. cbn [obind next].
  destruct (convert _ _ _ _ _ _) as [[args2 st2]|]; done.
Qed.

Lemma printf_end m s k n nested args cs : char_at m (Lit s k) 0 = Ok 0 ->
  vprintf_loop console nested n (Lit s k) args (m, cs) = Ok (m, cs).
Proof. intros H. destruct n; cbn [vprintf_loop fst]; by rw H. Qed.

Lemma console_all l m cs : output_all console l (m, cs) = Ok (m, cs ++ l).
Proof. revert cs. induction l as [|c l IH]; intros cs; simpl; [by rw app_nil_r|]. by rw IH -app_assoc. Qed.

Lemma printf_d m w : printf m (Lit (chars "%d") 0) [w] =
  Ok (let v := s32 (u32 w) in integer_field (u64 (Z.abs v)) true (v <? 0) base_d (mk_conv 0 0 (-1) INT)).
Proof.
  rw (printf_one m (chars "%d") (ch "d") [w] 1 (ch "d") (mk_conv 0 0 (-1) INT) [w]) //; [simpl; lia|]. rw /convert.
  change (is_one_of (ch "d") "di") with true. cbv iota. cbn [signed_arg type va_word obind].
  have Hr := swrap_range 32 (u32 w) eq_refl. have Habs : (if s32 (u32 w) <? 0 then - s32 (u32 w) else s32 (u32 w)) = Z.abs (s32 (u32 w)).
  { destruct (Z.ltb_spec (s32 (u32 w)) 0); lia. }
  rw Habs format_integer_ok.
  - by left.
  - apply wrap_range. lia.
  - done.
  - done.
  - rw console_all. cbn [obind fst snd]. by rw printf_end.
Qed.

(** The field of %d for a 32-bit integer. *)
Lemma integer_field_d v : - 2 ^ 31 <= v < 2 ^ 31 ->
  integer_field (u64 (Z.abs v)) true (v <? 0) base_d (mk_conv 0 0 (-1) INT) =
    (if v <? 0 then [45] else []) ++ with_precision (-1) (number base_d 0 (Z.abs v)).
Proof.
  intros Hv. rw /integer_field. cbn [flags precision width].
  change (has 0 MINUS) with false. change (has 0 ZERO) with false. change (has 0 POUND) with false. cbn [orb andb].
  rw wrap_small; [lia|]. rw /with_octal_zero. change (has 0 POUND) with false. cbn [andb].
  match goal with |- context [Z.to_nat (0 - ?a - ?b)] => replace (Z.to_nat (0 - a - b)) with 0%nat by lia end. rw !app_nil_r. cbn [replicate app]. by destruct (v <? 0).
Qed.

(** ** Theorems *)

(** C30: [format_integer] is equivalent to the reference definition of the field: for
    every 64-bit value, base, sign, precision, width from 0 to [INT_MAX] and flags in which
    - and 0 are not both set, it passes to the output function, whatever that is, exactly
    the characters of [integer_field]: the padding, the sign, the prefix, the zeros and the
    digits of the value with separators.  In particular its 64-byte buffer is never
    overrun. *)
Theorem format_integer_correct {A : Type} (output : Z -> bytes * A -> outcome (bytes * A)) (value : Z)
    (is_signed negative : bool) (b : integer_base) (c : printf_conversion) (st : bytes * A) :
  known_base b -> 0 <= value < 2 ^ 64 -> 0 <= width c <= INT_MAX -> has (flags c) MINUS && has (flags c) ZERO = false ->
  format_integer output value is_signed negative b c st =
    output_all output (integer_field value is_signed negative b c) st.
Proof. apply format_integer_ok. Qed.

Lemma format_integer_correct_witness :
  format_integer console 1234567 true true base_d (mk_conv GROUP 12 (-1) INT) (∅, []) =
    output_all console (integer_field 1234567 true true base_d (mk_conv GROUP 12 (-1) INT)) (∅, []) /\
  integer_field 1234567 true true base_d (mk_conv GROUP 12 (-1) INT) = chars "  -1,234,567".
Proof.
  split; [|by vm_compute]. apply format_integer_correct; [by left|lia|by vm_compute|done].
Defined.

(** C31: [vsnprintf] stays inside its buffer.  Let [l] be what [printf] outputs
    for the same format and arguments.  When the strings do not overlap the
    buffer, [vsnprintf] returns the length of [l]; the buffer then holds the first
    [buf_size - 1] characters of [l] and a terminator, and no other byte of
    memory has changed, also when the buffer is too small or empty. *)
Theorem vsnprintf_correct (m m0 : bytes) (buffer buf_size : Z) (format : cptr) (args l : list Z) :
  printf m0 format args = Ok l -> m0 ⊆ m -> 0 <= buf_size <= INT_MAX -> Z.of_nat (List.length l) <= INT_MAX ->
  (forall a, buffer <= a < buffer + buf_size -> m0 !! a = None /\ is_Some (m !! a)) ->
  exists m', vsnprintf m buffer buf_size format args = Ok (Z.of_nat (List.length l), m') /\
    forall a, m' !! a = if decide (buffer <= a < buffer + Z.min (Z.of_nat (List.length l) + 1) buf_size)
                        then (take (Z.to_nat (buf_size - 1)) l ++ [0]) !! Z.to_nat (a - buffer) else m !! a.
Proof. apply vsnprintf_ok. Qed.

Definition ex_bytes : bytes := <[100 := 7]> (<[101 := 7]> (<[102 := 7]> ∅)).
Lemma vsnprintf_correct_witness :
  exists m', vsnprintf ex_bytes 100 3 (Lit (chars "%d%c") 0) [42; 33] = Ok (3, m') /\
    forall a, m' !! a = if decide (100 <= a < 100 + Z.min 4 3)
                        then [52; 50; 0] !! Z.to_nat (a - 100)
                        else ex_bytes !! a.
Proof.
  apply (vsnprintf_correct ex_bytes ∅ 100 3 (Lit (chars "%d%c") 0) [42; 33] [52; 50; 33]).
  - by vm_compute.
  - apply map_empty_subseteq.
  - by vm_compute.
  - by vm_compute.
  - intros a Ha. split; [done|]. have H : a = 100 \/ a = 101 \/ a = 102 by lia. destruct H as [-> | [-> | ->]]; eexists; reflexivity.
Defined.

(** What [printf] prints for %d, [atoi] reads: for every 32-bit integer, the
    least one included, the characters, as a string in memory, are read back as
    the same integer. *)
Theorem printf_atoi_roundtrip (m : bytes) (v : Z) :
  - 2 ^ 31 <= v < 2 ^ 31 ->
  exists l, printf m (Lit (chars "%d") 0) [u32 v] = Ok l /\ atoi ([0] ++ l ++ [0]) 1 = Ok v.
Proof.
  intros Hv. rw printf_d. cbv zeta. have Hw : s32 (u32 (u32 v)) = v.
  { rw (wrap_small 32 (u32 v)); [apply wrap_range; lia|]. rw /wrap /swrap Zplus_mod_idemp_l.
    apply swrap_small; lia. }
  rw !Hw integer_field_d //. eexists. split; [done|]. have Ha : 0 <= Z.abs v <= 2 ^ 31 by lia.
  destruct (number_value base_d 0 (Z.abs v)) as (E & F & Hne); [by left|done|lia|].
  change (value_of (base base_d)) with dec in E. set (ds := with_precision _ _) in *.
  have Hcstr : forall l pre, Forall (fun c => 0 < c < 256) l -> cstr (0 :: pre ++ l ++ [0]) (1 + Z.of_nat (List.length pre)) l.
  { intros l. induction l as [|c l IH]; intros pre Hl; simpl.
    - rw ld_lookup; [lia|]. have -> : Z.to_nat (1 + Z.of_nat (List.length pre)) = S (List.length pre) by lia. simpl.
      by rw lookup_app_r // Nat.sub_diag.
    - apply Forall_cons in Hl as [Hc Hl]. split_and!; [|lia|lia|].
      + rw ld_lookup; [lia|]. have -> : Z.to_nat (1 + Z.of_nat (List.length pre)) = S (List.length pre) by lia. simpl.
        by rw lookup_app_r // Nat.sub_diag.
      + have := IH (pre ++ [c]) Hl. rw -app_assoc length_app /=.
        by replace (1 + Z.of_nat (List.length pre + 1)) with (1 + Z.of_nat (List.length pre) + 1) by lia. }
  have Hdig : Forall (fun c => 0 < c < 256) ds.
  { eapply Forall_impl; [exact F|]. simpl. lia. }
  have Fd : Forall (fun c => isdigit c = true) ds.
  { eapply Forall_impl; [exact F|]. intros c. rw /= /isdigit andb_true_iff !Z.leb_le. lia. }
  have Hat := atoi_correct ([0] ++ ((if v <? 0 then [45] else []) ++ ds) ++ [0]) 1 [] ds [] (if v <? 0 then Some true else None).
  have Hc := Hcstr ((if v <? 0 then [45] else []) ++ ds) [].
  destruct (Z.ltb_spec v 0) as [Hn|Hn].
  - rw Hat //; [rw app_nil_r; apply Hc; constructor; [lia|done]|rw E /=; lia|]. rw E /=. f_equal. lia.
  - rw Hat //; [rw app_nil_r; by apply Hc|rw E /=; lia|]. rw E /=. f_equal. lia.
Qed.

Lemma printf_atoi_roundtrip_witness :
  exists l, printf ∅ (Lit (chars "%d") 0) [u32 (- 2 ^ 31)] = Ok l /\ atoi ([0] ++ l ++ [0]) 1 = Ok (- 2 ^ 31).
Proof. apply (printf_atoi_roundtrip ∅ (- 2 ^ 31)). lia. Defined.

(** With the flag 0 and a negative width from an argument, a number is padded on
    both sides; a format that ends in % is read beyond its terminator. *)
Lemma printf_pads_twice : printf ∅ (Lit (chars "%0*d") 0) [u32 (-5); 7] = Ok (chars "00007    ").
Proof. by vm_compute. Qed.
Lemma printf_reads_past_end : printf ∅ (Lit (chars "50%") 0) [] = Err Fault.
Proof. by vm_compute. Qed.
