(* ===== verification/Ustar.v ===== *)
(** * lib/ustar.c: archive headers

    A header is the list of its 512 bytes, at the offsets of [struct
    ustar_header]; strings are lists of characters without their terminator.
    [snprintf] into a field stores what Printf.v shows that it stores.

    The theorem: a header made by [ustar_make_header] is parsed back to the
    stripped name, the type and the size. *)
From S2P Require Import Prelude Printf.

Definition USTAR_HEADER_SIZE : Z := 512.
Definition USTAR_REGULAR : Z := 48.
Definition USTAR_DIRECTORY : Z := 53.
Definition USTAR_EOF : Z := -1.

(** Offset and size of the fields. *)
Definition f_name : Z * Z := (0, 100).
Definition f_mode : Z * Z := (100, 8).
Definition f_uid : Z * Z := (108, 8).
Definition f_gid : Z * Z := (116, 8).
Definition f_size : Z * Z := (124, 12).
Definition f_mtime : Z * Z := (136, 12).
Definition f_chksum : Z * Z := (148, 8).
Definition f_typeflag : Z * Z := (156, 1).
Definition f_magic : Z * Z := (257, 6).
Definition f_version : Z * Z := (263, 2).
Definition f_uname : Z * Z := (265, 32).
Definition f_gname : Z * Z := (297, 32).
Definition f_prefix : Z * Z := (345, 155).

Definition get_field (h : list Z) (f : Z * Z) : list Z := slice h f.1 f.2.
Definition set_field (h : list Z) (f : Z * Z) (bs : list Z) : list Z := splice h f.1 bs.
(** [strlcpy (field, s, sizeof field)] and [snprintf (field, sizeof field, ...)] *)
Definition set_string (h : list Z) (f : Z * Z) (s : list Z) : list Z :=
  set_field h f (take (Z.to_nat (f.2 - 1)) s ++ [0]).
Definition set_printf (h : list Z) (f : Z * Z) (format : string) (v : Z) : outcome (list Z) :=
  let! l := printf ∅ (Lit (chars format) 0) [v] in Ok (set_string h f l).

Fixpoint chksum_loop (bs : list Z) (i chksum : Z) : Z :=
  match bs with
  | [] => chksum
  | b :: bs =>
    let in_chksum_field := (f_chksum.1 <=? i) && (i <? f_chksum.1 + f_chksum.2) in
    chksum_loop bs (i + 1) (u32 (chksum + (if in_chksum_field then ch " " else b)))
  end.
Definition calculate_chksum (h : list Z) : Z := chksum_loop h 0 0.

(** [strchr (file_name, '/') + 1] *)
Fixpoint after_slash (s : list Z) : list Z :=
  match s with [] => [] | c :: s => if c =? ch "/" then s else after_slash s end.
(** [!memcmp (s, prefix, strlen (prefix))] on a string: it stops at the first difference. *)
Fixpoint has_prefix (prefix s : list Z) : bool :=
  match prefix, s with
  | [], _ => true
  | c :: prefix, d :: s => (c =? d) && has_prefix prefix s
  | _, [] => false
  end.
Definition antisocial (s : list Z) : bool :=
  has_prefix (chars "/") s || has_prefix (chars "./") s || has_prefix (chars "../") s.
(** Each pass drops at least the slash. *)
Fixpoint strip_loop (fuel : nat) (s : list Z) : outcome (list Z) :=
  if antisocial s then match fuel with O => Err NoFuel | S fuel => strip_loop fuel (after_slash s) end else Ok s.
Definition strip_antisocial_prefixes (s : list Z) : outcome (list Z) :=
  let! s := strip_loop (List.length s) s in
  Ok (if bool_decide (s = []) || bool_decide (s = chars "..") then chars "." else s).

(** The header, when the result is true. *)
Definition ustar_make_header (file_name : list Z) (type size : Z) : outcome (option (list Z)) :=
  assert! (type =? USTAR_REGULAR) || (type =? USTAR_DIRECTORY) in
  let! file_name := strip_antisocial_prefixes file_name in
  if 99 <? Z.of_nat (List.length file_name) then Ok None else
  let h := replicate (Z.to_nat USTAR_HEADER_SIZE) 0 in
  let h := set_string h f_name file_name in
  let! h := set_printf h f_mode "%07o" (if type =? USTAR_REGULAR then 420 else 493) in
  let h := set_string h f_uid (chars "0000000") in
  let h := set_string h f_gid (chars "0000000") in
  let! h := set_printf h f_size "%011o" size in
  let! h := set_printf h f_mtime "%011o" 1136102400 in
  let h := set_field h f_typeflag [type] in
  let h := set_string h f_magic (chars "ustar") in
  let h := set_field h f_version [ch "0"; ch "0"] in
  let h := set_string h f_gname (chars "root") in
  let h := set_string h f_uname (chars "root") in
  let! h := set_printf h f_chksum "%07o" (calculate_chksum h) in
  Ok (Some h).

Definition ULONG_MAX : Z := 2 ^ 32 - 1.
(** [ofs] is the number of characters before [s]. *)
Fixpoint octal_loop (s : list Z) (ofs value : Z) : option Z :=
  match s with
  | [] => None
  | c :: s =>
    if (48 <=? c) && (c <=? 55) then
      if ULONG_MAX / 8 <? value then None else octal_loop s (ofs + 1) (u32 (c - 48 + value * 8))
    else if (c =? 32) || (c =? 0) then if 0 <? ofs then Some value else None
    else None
  end.
Definition parse_octal_field (s : list Z) : option Z := octal_loop s 0 0.

Fixpoint is_all_zeros (block : list Z) : bool :=
  match block with [] => true | c :: block => if negb (c =? 0) then false else is_all_zeros block end.

(** The string in a field that ends in a null byte. *)
Fixpoint field_string (bs : list Z) : list Z :=
  match bs with [] => [] | c :: bs => if c =? 0 then [] else c :: field_string bs end.

(** An error message, or name, type and size. *)
Definition ustar_parse_header (h : list Z) : outcome (string + (option (list Z) * Z * Z)) :=
  if is_all_zeros h then Ok (inr (None, USTAR_EOF, 0)) else
  if negb (bool_decide (get_field h f_magic = chars "ustar" ++ [0])) then Ok (inl "not a ustar archive"%string) else
  if negb (bool_decide (get_field h f_version = [ch "0"; ch "0"])) then Ok (inl "invalid ustar version"%string) else
  match parse_octal_field (get_field h f_chksum) with
  | None => Ok (inl "corrupt chksum field"%string)
  | Some chksum =>
    if negb (chksum =? calculate_chksum h) then Ok (inl "checksum mismatch"%string) else
    if negb (h !!! Z.to_nat 99 =? 0) || negb (h !!! Z.to_nat f_prefix.1 =? 0) then Ok (inl "file name too long"%string) else
    let typeflag := h !!! Z.to_nat f_typeflag.1 in
    if negb (typeflag =? USTAR_REGULAR) && negb (typeflag =? USTAR_DIRECTORY) then Ok (inl "unimplemented file type"%string) else
    let finish size :=
      let! name := strip_antisocial_prefixes (field_string (get_field h f_name)) in
      Ok (inr (Some name, typeflag, size)) in
    if typeflag =? USTAR_REGULAR then
      match parse_octal_field (get_field h f_size) with
      | None => Ok (inl "corrupt file size field"%string)
      | Some size => if INT_MAX <? size then Ok (inl "file too large"%string) else finish size
      end
    else finish 0
  end.

(** ** Names *)
Lemma after_slash_length s : (List.length (after_slash s) <= List.length s)%nat.
Proof. induction s as [|c s IH]; simpl; [lia|]. destruct (c =? ch "/"); lia. Qed.

Lemma antisocial_shorter s : antisocial s = true -> (List.length (after_slash s) < List.length s)%nat.
Proof.
  destruct s as [|c s]; [done|]. intros _. simpl. have := after_slash_length s. destruct (c =? ch "/"); lia.
Qed.

Lemma after_slash_elem s x : x ∈ after_slash s -> x ∈ s.
Proof.
  induction s as [|c s IH]; simpl; [done|]. intros H. apply list_elem_of_further. destruct (c =? ch "/"); [done|by apply IH].
Qed.

Lemma strip_loop_ok fuel s : (List.length s <= fuel)%nat ->
  exists r, strip_loop fuel s = Ok r /\ antisocial r = false /\ (List.length r <= List.length s)%nat /\ forall x, x ∈ r -> x ∈ s.
Proof.
  revert s. induction fuel as [|fuel IH]; intros s Hl; simpl; destruct (antisocial s) eqn:Ha.
  - apply antisocial_shorter in Ha. lia.
  - by exists s.
  - have Hs := antisocial_shorter s Ha. destruct (IH (after_slash s)) as (r & E & Hr & Hle & Hx); [lia|].
    exists r. split_and!; [done|done|lia|]. intros x Hin. by apply after_slash_elem, Hx.
  - by exists s.
Qed.

(** Stripping ends, and stripping a stripped name changes nothing. *)
Lemma strip_ok s : exists r, strip_antisocial_prefixes s = Ok r /\ strip_antisocial_prefixes r = Ok r /\
  r <> [] /\ forall x, x ∈ r -> x ∈ s \/ x = ch ".".
Proof.
  rw /strip_antisocial_prefixes. destruct (strip_loop_ok (List.length s) s) as (r & E & Ha & _ & Hx); [lia|].
  rw E. cbn [obind]. destruct (bool_decide (r = []) || bool_decide (r = chars "..")) eqn:Hb.
  - exists (chars "."). split_and!; try done. intros x Hin. right. by apply list_elem_of_singleton in Hin.
  - exists r. apply orb_false_iff in Hb as Hb'. destruct Hb' as [Hn%bool_decide_eq_false _]. split_and!; [done| |done|auto].
    have -> : strip_loop (List.length r) r = Ok r by destruct (List.length r); simpl; rw Ha. cbn [obind]. by rw Hb.
Qed.

(** ** Octal fields *)
Lemma octal_loop_ok l ofs acc : Forall (fun c => 48 <= c < 56) l -> 0 <= acc -> 0 <= ofs -> 0 < ofs + Z.of_nat (List.length l) ->
  fold_left (fun v c => v * 8 + (c - 48)) l acc <= ULONG_MAX ->
  octal_loop (l ++ [0]) ofs acc = Some (fold_left (fun v c => v * 8 + (c - 48)) l acc).
Proof.
  intros Hl. revert ofs acc. induction Hl as [|c l Hc Hl IH]; intros ofs acc Ha Ho Hpos Hb; simpl in *.
  - by destruct (Z.ltb_spec 0 ofs); [|lia].
  - have Hge : forall l a, Forall (fun c => 48 <= c < 56) l -> 0 <= a -> a <= fold_left (fun v c => v * 8 + (c - 48)) l a.
    { intros l0 a Hl0. revert a. induction Hl0 as [|x l0 Hx Hl0 IH0]; intros a Ha0; simpl; [lia|]. etrans; [|apply IH0]; lia. }
    have := Hge l (acc * 8 + (c - 48)) Hl ltac:(lia). intros Hle.
    rw (proj2 (Z.leb_le _ _)); [lia|]. rw (proj2 (Z.leb_le _ _)); [lia|]. cbn [andb].
    have Hq : acc <= ULONG_MAX / 8 by apply Z.div_le_lower_bound; lia.
    rw (proj2 (Z.ltb_ge _ _)) //. rw wrap_small; [unfold ULONG_MAX in *; lia|].
    have -> : c - 48 + acc * 8 = acc * 8 + (c - 48) by lia. apply IH; lia.
Qed.

Lemma num_digits_bound N b v n : 1 < b -> v < b ^ Z.of_nat n -> (num_digits N b v <= n)%nat.
Proof.
  intros Hb. revert N v. induction n as [|n IH]; intros N v Hv.
  { rw num_digits_0; [lia|simpl in Hv; lia|lia]. }
  destruct N as [|N]; [by rw /num_digits /=; lia|]. destruct (Z.ltb_spec 0 v); [|rw num_digits_0; lia].
  rw num_digits_S; [lia|lia|]. apply le_n_S, IH. apply Z.div_lt_upper_bound; [lia|].
  rw Nat2Z.inj_succ Z.pow_succ_r in Hv; lia.
Qed.

(** The characters of a zero-padded octal number that fits its width. *)
Lemma octal_field (w : nat) v : (1 <= w)%nat -> 0 <= v < 8 ^ Z.of_nat w -> v < 2 ^ 32 ->
  exists l, integer_field v false false base_o (mk_conv ZERO (Z.of_nat w) (-1) INT) = l /\ List.length l = w /\
    Forall (fun c => 48 <= c < 56) l /\ value_of 8 l = v.
Proof.
  intros Hw Hv Hv'. eexists. split; [done|]. rw /integer_field. cbn [flags precision width].
  change (has ZERO MINUS) with false. change (has ZERO ZERO) with true. change (has ZERO POUND) with false. cbn [orb andb negb sign_char].
  rw /with_octal_zero. change (has ZERO POUND) with false. cbn [andb app List.length Z.eqb].
  destruct (number_value base_o ZERO v) as (E & F & Hne); [by right; left|done|lia|]. change (base base_o) with 8 in E, F.
  set (ds := with_precision _ _) in *. rw app_nil_r.
  have Hl : (List.length ds <= w)%nat.
  { rw /ds /with_precision length_app length_replicate. cbn [Z.ltb Z.compare]. change (Z.to_nat (Z.min 1 63)) with 1%nat.
    have Hn : List.length (number base_o ZERO v) = num_digits MAX_DIGITS 8 v.
    { rw /number. have -> : (fun k => digit base_o v k :: separator base_o ZERO k) = (fun k => [digit base_o v k]) by done.
      have Hgen : forall ks, List.length (mjoin ((fun k => [digit base_o v k]) <$> ks)) = List.length ks.
      { induction ks as [|k ks IH]; [done|]. by rw fmap_cons /= IH. }
      by rw Hgen length_rev length_seq. }
    have := num_digits_bound MAX_DIGITS 8 v w. rw Hn. lia. }
  split_and!.
  - rw length_app length_replicate. lia.
  - apply Forall_app. split; [|done]. apply Forall_replicate. change (ch "0") with 48. lia.
  - change (ch "0") with 48. by rw value_of_zeros.
Qed.

Lemma printf_octal format (w : nat) v :
  (w = 7%nat /\ format = "%07o"%string \/ w = 11%nat /\ format = "%011o"%string) -> 0 <= v < 2 ^ 32 ->
  printf ∅ (Lit (chars format) 0) [v] = Ok (integer_field v false false base_o (mk_conv ZERO (Z.of_nat w) (-1) INT)).
Proof.
  intros Hf Hv.
  have H : printf ∅ (Lit (chars format) 0) [v] =
    (let! r := convert console (vprintf_depth console 1) (ch "o") (mk_conv ZERO (Z.of_nat w) (-1) INT) [v] (∅, []) in
     let! st := vprintf_loop console (vprintf_depth console 1) (List.length (chars format)) (Lit (chars format) (Z.of_nat (List.length (chars format)))) r.1 r.2 in Ok st.2).
  { destruct Hf as [[-> ->]|[-> ->]].
    - apply (printf_one ∅ (chars "%07o") (ch "0") [v] 3); try done; simpl; lia.
    - apply (printf_one ∅ (chars "%011o") (ch "0") [v] 4); try done; simpl; lia. }
  rw H /convert. change (is_one_of (ch "o") "di") with false. change (is_one_of (ch "o") "ouxX") with true. cbv iota.
  cbn [unsigned_arg type va_word obind]. rw wrap_small //. change (unsigned_base (ch "o")) with base_o.
  rw format_integer_ok; [rw /known_base; set_solver|lia|cbn [width]; unfold INT_MAX; destruct Hf as [[-> _]|[-> _]]; lia|done|].
  rw console_all. cbn [obind fst snd]. rw printf_end //. by destruct Hf as [[_ ->]|[_ ->]].
Qed.

Lemma parse_octal_ok (w : nat) v : (1 <= w)%nat -> 0 <= v < 8 ^ Z.of_nat w -> v < 2 ^ 32 ->
  parse_octal_field (integer_field v false false base_o (mk_conv ZERO (Z.of_nat w) (-1) INT) ++ [0]) = Some v.
Proof.
  intros Hw Hv Hv'. destruct (octal_field w v Hw Hv Hv') as (l & -> & Hlen & Hf & E). rw /parse_octal_field octal_loop_ok //.
  - lia.
  - change (value_of 8 l <= ULONG_MAX). rw E /ULONG_MAX. lia.
  - by rw -E.
Qed.

(** ** Headers as sequences of writes *)
Definition write_all (h : list Z) (ws : list (Z * list Z)) : list Z := foldl (fun h w => splice h w.1 w.2) h ws.
Definition byte_in (c : Z) : Prop := 0 <= c < 256.
Definition write_ok (w : Z * list Z) : Prop :=
  0 <= w.1 /\ w.1 + Z.of_nat (List.length w.2) <= 512 /\ Forall byte_in w.2.
Definition avoids (o n : Z) (w : Z * list Z) : Prop := o + n <= w.1 \/ w.1 + Z.of_nat (List.length w.2) <= o.
Definition header_ok (h : list Z) : Prop := List.length h = 512%nat /\ Forall byte_in h.

Lemma splice_header h w : header_ok h -> write_ok w -> header_ok (splice h w.1 w.2).
Proof.
  intros [Hl Hf] (H1 & H2 & H3). split; [by rw length_splice ?Hl //; lia|].
  rw /splice. apply Forall_app. split; [by apply Forall_take|]. apply Forall_app. split; [done|by apply Forall_drop].
Qed.

Lemma write_all_header h ws : header_ok h -> Forall write_ok ws -> header_ok (write_all h ws).
Proof.
  intros Hh Hw. revert h Hh. induction Hw as [|w ws Hw Hws IH]; intros h Hh; [done|]. by apply IH, splice_header.
Qed.

(** What is not overwritten stays. *)
Lemma slice_write_all h ws o n : header_ok h -> Forall write_ok ws -> 0 <= o -> Forall (avoids o n) ws ->
  slice (write_all h ws) o n = slice h o n.
Proof.
  intros Hh Hw Ho. revert h Hh. induction Hw as [|w ws Hw Hws IH]; intros h Hh Ha; [done|].
  apply Forall_cons in Ha as [Ha1 Ha]. simpl. rw IH //; [by apply splice_header|].
  destruct Hh as [Hl _]. destruct Hw as (H1 & H2 & _). apply slice_splice_disjoint; try done. rw Hl. lia.
Qed.

Lemma field_write_all h ws1 o bs ws2 : header_ok h -> Forall write_ok (ws1 ++ (o, bs) :: ws2) ->
  Forall (avoids o (Z.of_nat (List.length bs))) ws2 ->
  slice (write_all h (ws1 ++ (o, bs) :: ws2)) o (Z.of_nat (List.length bs)) = bs.
Proof.
  intros Hh Hw Ha. apply Forall_app in Hw as [Hw1 Hw]. apply Forall_cons in Hw as [Hw Hw2].
  rw /write_all foldl_app /=. have Hh1 := write_all_header _ _ Hh Hw1. rw /write_all in Hh1.
  rw -/(write_all (splice _ o bs) ws2) slice_write_all //; [exact (splice_header _ (o, bs) Hh1 Hw)|by destruct Hw|].
  destruct Hh1 as [Hl _]. destruct Hw as (H1 & H2 & _). simpl in *. apply slice_splice_same; [done|lia|done].
Qed.

Lemma slice_one (h : list Z) o x : slice h o 1 = [x] -> h !!! Z.to_nat o = x.
Proof.
  intros H. have E : slice h o 1 !! 0%nat = Some x by rw H. rw lookup_slice Nat.add_0_r in E. case_decide; [|done].
  by rw list_lookup_total_alt E.
Qed.

(** ** Checksums *)
Lemma chksum_loop_ext bs bs' i c : List.length bs = List.length bs' ->
  (forall k, ~ (148 <= i + Z.of_nat k < 156) -> bs !! k = bs' !! k) -> chksum_loop bs i c = chksum_loop bs' i c.
Proof.
  revert bs' i c. induction bs as [|b bs IH]; intros [|b' bs'] i c Hl Hk; try done. cbn [chksum_loop].
  have -> : (if (f_chksum.1 <=? i) && (i <? f_chksum.1 + f_chksum.2) then ch " " else b) =
            (if (f_chksum.1 <=? i) && (i <? f_chksum.1 + f_chksum.2) then ch " " else b').
  { simpl. destruct (Z.leb_spec 148 i), (Z.ltb_spec i (148 + 8)); simpl; try done;
      (assert (Some b = Some b') as E; [apply (Hk 0%nat); lia|congruence]). }
  apply IH; [simpl in Hl; lia|]. intros k Hki. apply (Hk (S k)). lia.
Qed.

Lemma chksum_loop_range bs i c : Forall byte_in bs -> 0 <= c -> c + 255 * Z.of_nat (List.length bs) < 2 ^ 32 ->
  0 <= chksum_loop bs i c <= c + 255 * Z.of_nat (List.length bs).
Proof.
  intros Hf. revert i c. induction Hf as [|b bs Hb Hf IH]; intros i c Hc Hlt; cbn [chksum_loop List.length] in *; [lia|].
  set (x := if (f_chksum.1 <=? i) && (i <? f_chksum.1 + f_chksum.2) then ch " " else b). have Hx : 0 <= x <= 255 by rw /x; case_match; [by vm_compute|rw /byte_in in Hb; lia].
  rw wrap_small; [lia|]. have := IH (i + 1) (c + x). lia.
Qed.

Lemma calculate_chksum_range h : header_ok h -> 0 <= calculate_chksum h < 8 ^ 7.
Proof. intros [Hl Hf]. have := chksum_loop_range h 0 0 Hf. rw Hl /calculate_chksum. lia. Qed.

Lemma calculate_chksum_splice h bs : header_ok h -> List.length bs = 8%nat ->
  calculate_chksum (splice h 148 bs) = calculate_chksum h.
Proof.
  intros [Hl _] Hb. apply chksum_loop_ext; [rw length_splice // Hl Hb; lia|]. intros k Hk.
  rw lookup_splice ?Hl ?Hb; [lia|lia|]. by rw decide_False; [lia|].
Qed.

Lemma is_all_zeros_slice h o c : slice h o 1 = [c] -> c <> 0 -> is_all_zeros h = false.
Proof.
  intros H Hc. have E : slice h o 1 !! 0%nat = Some c by rw H. rw lookup_slice Nat.add_0_r in E. case_decide; [|done].
  revert E. generalize (Z.to_nat o). clear H. induction h as [|x h IH]; intros k E; [done|]. simpl.
  destruct k as [|k]; simpl in E; [simplify_eq; by destruct (Z.eqb_spec c 0)|]. destruct (x =? 0); simpl; [by apply (IH k)|done].
Qed.

Lemma field_string_app s rest : 0 ∉ s -> field_string (s ++ 0 :: rest) = s.
Proof.
  induction s as [|c s IH]; intros Hn; [done|]. simpl. apply not_elem_of_cons in Hn as [Hc Hn].
  destruct (Z.eqb_spec c 0); [congruence|]. by rw IH.
Qed.

(** ** The header that [ustar_make_header] composes *)
Abbreviation octal w v := (integer_field v false false base_o (mk_conv ZERO w (-1) INT)).
Definition zero_header : list Z := replicate (Z.to_nat USTAR_HEADER_SIZE) 0.
Definition mode_of (type : Z) : Z := if type =? USTAR_REGULAR then 420 else 493.
Definition header_writes (name : list Z) (type size : Z) : list (Z * list Z) :=
  [(0, name ++ [0]); (100, octal 7 (mode_of type) ++ [0]); (108, chars "0000000" ++ [0]); (116, chars "0000000" ++ [0]);
   (124, octal 11 size ++ [0]); (136, octal 11 1136102400 ++ [0]); (156, [type]); (257, chars "ustar" ++ [0]);
   (263, [ch "0"; ch "0"]); (297, chars "root" ++ [0]); (265, chars "root" ++ [0])].
Definition checksum_write (h : list Z) : Z * list Z := (148, octal 7 (calculate_chksum h) ++ [0]).

#[local] Opaque integer_field calculate_chksum splice.

Lemma octal_bytes (w : nat) v : (1 <= w)%nat -> 0 <= v < 8 ^ Z.of_nat w -> v < 2 ^ 32 ->
  List.length (octal (Z.of_nat w) v) = w /\ Forall byte_in (octal (Z.of_nat w) v ++ [0]).
Proof.
  intros H1 H2 H3. destruct (octal_field w v H1 H2 H3) as (l & -> & Hl & Hf & _). split; [done|].
  apply Forall_app. split; [|repeat constructor; rw /byte_in; lia]. eapply Forall_impl; [exact Hf|]. rw /byte_in /=. lia.
Qed.

Lemma zero_header_ok : header_ok zero_header.
Proof. split; [done|]. apply Forall_replicate. rw /byte_in. lia. Qed.

(** What is written last. *)
Lemma checksum_write_ok h : header_ok h -> write_ok (checksum_write h) /\ List.length (checksum_write h).2 = 8%nat.
Proof.
  intros Hh. have Hc := calculate_chksum_range h Hh. destruct (octal_bytes 7 (calculate_chksum h)) as [L F]; [lia|lia|lia|].
  rw /checksum_write /write_ok. cbn [fst snd]. change (Z.of_nat 7) with 7 in *. rewrite length_app L. cbn [List.length]. split_and!; [lia|lia|done|lia].
Qed.

Lemma set_string_splice h f s : (List.length s <= Z.to_nat (f.2 - 1))%nat -> set_string h f s = splice h f.1 (s ++ [0]).
Proof. intros Hs. by rewrite /set_string take_ge. Qed.

Lemma write_all_app h ws1 ws2 : write_all h (ws1 ++ ws2) = write_all (write_all h ws1) ws2.
Proof. apply foldl_app. Qed.

Section header.
Context (name : list Z) (type size : Z).
Context (Hname : Forall (fun c => 0 < c < 256) name) (Hlen : (List.length name <= 99)%nat).
Context (Htype : type = USTAR_REGULAR \/ type = USTAR_DIRECTORY) (Hsize : 0 <= size <= INT_MAX).

Lemma mode_range : 0 <= mode_of type < 8 ^ 7.
Proof. rw /mode_of. destruct (type =? USTAR_REGULAR); lia. Qed.

Lemma header_writes_ok : Forall write_ok (header_writes name type size).
Proof.
  have Hm := mode_range. destruct (octal_bytes 7 (mode_of type)) as [L1 F1]; [lia|lia|lia|].
  destruct (octal_bytes 11 size) as [L2 F2]; [lia|unfold INT_MAX in *; lia|unfold INT_MAX in *; lia|].
  destruct (octal_bytes 11 1136102400) as [L3 F3]; [lia|lia|lia|].
  have Hn : Forall byte_in (name ++ [0]).
  { apply Forall_app. split; [|repeat constructor; rw /byte_in; lia]. eapply Forall_impl; [exact Hname|]. rw /byte_in /=. lia. }
  have Ht : Forall byte_in [type].
  { repeat constructor; destruct Htype as [-> | ->]; rw /byte_in /USTAR_REGULAR /USTAR_DIRECTORY; lia. }
  have Hi : forall o bs, 0 <= o -> o + Z.of_nat (List.length bs) <= 512 -> Forall byte_in bs -> write_ok (o, bs) by done.
  have Hb : forall (bs : list Z), forallb (fun c => (0 <=? c) && (c <? 256)) bs = true -> Forall byte_in bs.
  { intros bs H. apply Forall_forall. intros c Hc%list_elem_of_In. rw forallb_forall in H. apply H in Hc. rw /byte_in. lia. }
  change (Z.of_nat 7) with 7 in *. change (Z.of_nat 11) with 11 in *.
  rw /header_writes. repeat (apply Forall_cons; split); [apply Hi..|apply Forall_nil].
  all: try done. all: try (by apply Hb). all: rewrite length_app; cbn [List.length]; lia.
Qed.

Lemma make_header_ok file_name : strip_antisocial_prefixes file_name = Ok name ->
  ustar_make_header file_name type size =
    Ok (Some (write_all zero_header (header_writes name type size ++ [checksum_write (write_all zero_header (header_writes name type size))]))).
Proof.
  intros Hs. rw /ustar_make_header.
  have Ht : (type =? USTAR_REGULAR) || (type =? USTAR_DIRECTORY) = true by destruct Htype as [-> | ->]. rw Ht Hs.
  cbn [ASSERT obind]. rw (proj2 (Z.ltb_ge _ _)); [lia|].
  have Hm := mode_range. rewrite /set_printf (printf_octal "%07o" 7); [by left|rewrite -/(mode_of type); lia|]. cbn [obind].
  rewrite (printf_octal "%011o" 11); [by right|unfold INT_MAX in *; lia|]. cbn [obind].
  rewrite (printf_octal "%011o" 11); [by right|lia|]. cbn [obind]. rewrite -/(mode_of type).
  destruct (octal_bytes 7 (mode_of type)) as [L1 _]; [lia|lia|lia|].
  destruct (octal_bytes 11 size) as [L2 _]; [lia|unfold INT_MAX in *; lia|unfold INT_MAX in *; lia|].
  destruct (octal_bytes 11 1136102400) as [L3 _]; [lia|lia|lia|].
  rewrite (set_string_splice _ f_name name); [cbn [f_name snd]; lia|].
  rewrite (set_string_splice _ f_mode (octal _ _)); [cbn [f_mode snd]; lia|].
  rewrite (set_string_splice _ f_size (octal _ _)); [cbn [f_size snd]; lia|].
  rewrite (set_string_splice _ f_mtime (octal _ _)); [cbn [f_mtime snd]; lia|].
  rewrite (set_string_splice _ f_uid (chars "0000000")); [by apply Nat.leb_le|]. rewrite (set_string_splice _ f_gid (chars "0000000")); [by apply Nat.leb_le|].
  rewrite (set_string_splice _ f_magic (chars "ustar")); [by apply Nat.leb_le|]. rewrite (set_string_splice _ f_gname (chars "root")); [by apply Nat.leb_le|].
  rewrite (set_string_splice _ f_uname (chars "root")); [by apply Nat.leb_le|]. rewrite /set_field.
  change (Z.of_nat 7) with 7 in *. change (Z.of_nat 11) with 11 in *. change (replicate (Z.to_nat USTAR_HEADER_SIZE) 0) with zero_header.
  set (h := splice (splice _ f_gname.1 _) f_uname.1 _).
  have Hh : h = write_all zero_header (header_writes name type size).
  { rewrite /h /write_all /header_writes. cbn [foldl fst snd f_name f_mode f_uid f_gid f_size f_mtime f_typeflag f_magic f_version f_gname f_uname].
    reflexivity. }
  clearbody h.
  have Hok : header_ok h by rewrite Hh; apply write_all_header; [apply zero_header_ok|apply header_writes_ok].
  have Hc := calculate_chksum_range h Hok. destruct (octal_bytes 7 (calculate_chksum h)) as [L4 _]; [lia|lia|lia|].
  rewrite (printf_octal "%07o" 7); [by left|lia|]. cbn [obind].
  rewrite (set_string_splice _ f_chksum (octal _ _)); [cbn [f_chksum snd]; lia|].
  by rewrite write_all_app -Hh.
Qed.

(** Every field of the finished header. *)
Lemma header_fields h ws1 o bs ws2 :
  header_writes name type size = ws1 ++ (o, bs) :: ws2 ->
  h = write_all zero_header (header_writes name type size ++ [checksum_write (write_all zero_header (header_writes name type size))]) ->
  Forall (avoids o (Z.of_nat (List.length bs))) ws2 -> o + Z.of_nat (List.length bs) <= 148 \/ 156 <= o ->
  slice h o (Z.of_nat (List.length bs)) = bs.
Proof.
  intros Hw -> Ha Ho. have Hok := header_writes_ok. have Hh := write_all_header _ _ zero_header_ok Hok.
  destruct (checksum_write_ok _ Hh) as [Hc Hl]. set (cw := checksum_write _) in *.
  have E : header_writes name type size ++ [cw] = ws1 ++ (o, bs) :: (ws2 ++ [cw]) by rewrite Hw -app_assoc.
  rewrite E. apply field_write_all; [apply zero_header_ok| |].
  - rewrite -E. apply Forall_app. split; [done|]. by constructor.
  - apply Forall_app. split; [done|]. constructor; [|constructor]. rewrite /avoids Hl. change cw.1 with 148. lia.
Qed.

(** Field number [k] of the writes, when all later ones start behind it. *)
Lemma nth_field h (k : nat) o bs n :
  h = write_all zero_header (header_writes name type size ++ [checksum_write (write_all zero_header (header_writes name type size))]) ->
  header_writes name type size !! k = Some (o, bs) -> Z.of_nat (List.length bs) = n ->
  forallb (fun s => o + n <=? s) (drop (S k) [0; 100; 108; 116; 124; 136; 156; 257; 263; 297; 265]) = true ->
  o + n <= 148 \/ 156 <= o -> slice h o n = bs.
Proof.
  intros Hh Hk <- Hlater Ho. apply (header_fields h (take k (header_writes name type size)) o bs (drop (S k) (header_writes name type size))); try done.
  - by rewrite take_drop_middle.
  - have Hst : fst <$> header_writes name type size = [0; 100; 108; 116; 124; 136; 156; 257; 263; 297; 265] by done.
    rewrite -Hst -fmap_drop in Hlater. apply Forall_forall. intros w Hw. rewrite forallb_forall in Hlater. left.
    apply Z.leb_le, Hlater. apply list_elem_of_In, list_elem_of_fmap. by exists w.
Qed.

(** The writes that start after the name, or somewhere else outside the prefix. *)
Lemma header_writes_avoid o n :
  o + n <= 0 \/ Z.of_nat (List.length name) + 1 <= o /\ o + n <= 100 \/ 329 <= o ->
  Forall (avoids o n) (header_writes name type size).
Proof.
  intros Ho. have Hm := mode_range. destruct (octal_bytes 7 (mode_of type)) as [L1 _]; [lia|lia|lia|].
  destruct (octal_bytes 11 size) as [L2 _]; [lia|unfold INT_MAX in *; lia|unfold INT_MAX in *; lia|].
  destruct (octal_bytes 11 1136102400) as [L3 _]; [lia|lia|lia|].
  change (Z.of_nat 7) with 7 in *. change (Z.of_nat 11) with 11 in *.
  have C1 : List.length (chars "0000000") = 7%nat by done. have C2 : List.length (chars "ustar") = 5%nat by done.
  have C3 : List.length (chars "root") = 4%nat by done.
  rewrite /header_writes. repeat (apply Forall_cons; split); [rewrite /avoids; cbn [fst snd]..|apply Forall_nil];
    rewrite ?(length_app _ [0]) ?C1 ?C2 ?C3; cbn [List.length]; lia.
Qed.

Lemma parse_header_ok h : strip_antisocial_prefixes name = Ok name ->
  h = write_all zero_header (header_writes name type size ++ [checksum_write (write_all zero_header (header_writes name type size))]) ->
  ustar_parse_header h = Ok (inr (Some name, type, if type =? USTAR_REGULAR then size else 0)).
Proof.
  intros Hs Hh. have Hok0 := header_writes_ok. have Hh0 := write_all_header _ _ zero_header_ok Hok0.
  set (h0 := write_all zero_header (header_writes name type size)) in *.
  destruct (checksum_write_ok _ Hh0) as [Hcw Hcl]. have Hc := calculate_chksum_range h0 Hh0.
  destruct (octal_bytes 11 size) as [L2 _]; [lia|unfold INT_MAX in *; lia|unfold INT_MAX in *; lia|].
  change (Z.of_nat 11) with 11 in *.
  have Hsp : h = splice h0 148 (octal 7 (calculate_chksum h0) ++ [0]) by rewrite Hh write_all_app.
  have Hck : calculate_chksum h = calculate_chksum h0 by rewrite Hsp; apply calculate_chksum_splice; [done|exact Hcl].
  have Hcw' : Forall write_ok (header_writes name type size ++ [checksum_write h0]).
  { apply Forall_app. split; [done|]. by constructor. }
  have Hzero : forall o n, 0 <= o -> Z.of_nat (List.length name) + 1 <= o /\ o + n <= 100 \/ 329 <= o -> slice h o n = slice zero_header o n.
  { intros o n Ho Hr. rewrite Hh. apply slice_write_all; [apply zero_header_ok|done|done|].
    apply Forall_app. split; [apply header_writes_avoid; lia|]. constructor; [|constructor].
    rewrite /avoids Hcl. change (checksum_write h0).1 with 148. lia. }
  have Hmagic : get_field h f_magic = chars "ustar" ++ [0] by apply (nth_field h 7); try done; right; done.
  have Hversion : get_field h f_version = [ch "0"; ch "0"] by apply (nth_field h 8); try done; right; done.
  have Htypef : slice h 156 1 = [type] by apply (nth_field h 6); try done; right; done.
  have Hsizef : get_field h f_size = octal 11 size ++ [0].
  { apply (nth_field h 4); try done; [|left; done]. rewrite length_app L2. done. }
  have Hnamef : slice h 0 (Z.of_nat (List.length name) + 1) = name ++ [0].
  { apply (nth_field h 0); try done; [rewrite length_app; cbn [List.length]; lia| |left; lia].
    rewrite forallb_forall. intros x Hx. apply Z.leb_le. cbn in Hx. lia. }
  have H0 : 0 ∉ name by intros H0; apply (proj1 (Forall_forall _ _) Hname) in H0; lia.
  have Hfull : field_string (get_field h f_name) = name.
  { have Hsplit : get_field h f_name = (name ++ [0]) ++ drop (S (List.length name)) (get_field h f_name).
    { have E1 : take (S (List.length name)) (get_field h f_name) = name ++ [0].
      { rewrite -Hnamef /get_field /slice /=. rewrite take_take. f_equal; lia. }
      by rewrite -E1 take_drop. }
    rewrite Hsplit -app_assoc. by apply field_string_app. }
  have H99 : h !!! Z.to_nat 99 = 0.
  { apply slice_one. destruct (decide (List.length name = 99%nat)) as [E|E].
    - have -> : slice h 99 1 = slice (slice h 0 (Z.of_nat (List.length name) + 1)) 99 1 by rewrite slice_slice //; lia.
      rewrite Hnamef /slice drop_app_length'; [by rewrite E|]. done.
    - rewrite Hzero; [lia|lia|]. done. }
  have H345 : h !!! Z.to_nat f_prefix.1 = 0 by apply slice_one; rewrite Hzero; [done|right; done|]; done.
  have Hty : h !!! Z.to_nat f_typeflag.1 = type by apply slice_one.
  have Hckf : get_field h f_chksum = octal 7 (calculate_chksum h0) ++ [0].
  { rewrite Hsp. apply slice_splice_same; [done| |by rewrite Hcl]. destruct Hh0 as [-> _]. change (octal _ _ ++ [0]) with (checksum_write h0).2. rewrite Hcl. done. }
  rewrite /ustar_parse_header. rewrite (is_all_zeros_slice h 156 type Htypef); [by destruct Htype as [-> | ->]|].
  rewrite Hmagic Hversion !bool_decide_eq_true_2 //. cbn [negb]. rewrite Hckf (parse_octal_ok 7); [lia|lia|lia|].
  rewrite Hck Z.eqb_refl. cbn [negb]. rewrite H99 H345 Hty. cbn [negb orb Z.eqb]. rewrite Hfull Hs. cbn [obind].
  destruct Htype as [-> | ->]; [|done]. cbn [negb andb]. rewrite !Z.eqb_refl. cbn [negb andb].
  rewrite Hsizef (parse_octal_ok 11); [lia|unfold INT_MAX in *; lia|unfold INT_MAX in *; lia|].
  by rewrite (proj2 (Z.ltb_ge _ _)); [lia|].
Qed.
End header.

(** Archive headers round trip.  For a file name of characters other than the
    null character, a regular file or a directory, and a size that is not
    negative: if the name without its leading "/", "./" and "../" has at most 99
    characters, [ustar_make_header] makes a 512-byte header that
    [ustar_parse_header] accepts, and gives back that name, the type and the size
    of the file, 0 for a directory; if it is longer, no header is made. *)
Theorem ustar_roundtrip (file_name : list Z) (type size : Z) :
  Forall (fun c => 0 < c < 256) file_name -> type = USTAR_REGULAR \/ type = USTAR_DIRECTORY -> 0 <= size <= INT_MAX ->
  exists name, strip_antisocial_prefixes file_name = Ok name /\
    ((List.length name <= 99)%nat -> exists h, ustar_make_header file_name type size = Ok (Some h) /\
      List.length h = 512%nat /\ ustar_parse_header h = Ok (inr (Some name, type, if type =? USTAR_REGULAR then size else 0))) /\
    ((99 < List.length name)%nat -> ustar_make_header file_name type size = Ok None).
Proof.
  intros Hn Ht Hs. destruct (strip_ok file_name) as (name & E & Ei & _ & Hx). exists name. split; [done|]. split.
  - intros Hl. have Hname : Forall (fun c => 0 < c < 256) name.
    { apply Forall_forall. intros x [Hin|Heq]%Hx; [by apply (proj1 (Forall_forall _ _) Hn)|by rewrite Heq]. }
    eexists. split; [by apply make_header_ok|]. split; [|by apply parse_header_ok].
    have Hok := header_writes_ok name type size Hname Hl Ht Hs. have Hh := write_all_header _ _ zero_header_ok Hok.
    destruct (checksum_write_ok _ Hh) as [Hc _]. apply write_all_header; [apply zero_header_ok|].
    apply Forall_app. split; [done|]. by constructor.
  - intros Hl. rewrite /ustar_make_header.
    have -> : (type =? USTAR_REGULAR) || (type =? USTAR_DIRECTORY) = true by destruct Ht as [-> | ->]. rewrite E. cbn [ASSERT obind].
    by rewrite (proj2 (Z.ltb_lt _ _)); [lia|].
Qed.

Lemma ustar_roundtrip_witness :
  exists name, strip_antisocial_prefixes (chars "../bin/ls") = Ok name /\
    ((List.length name <= 99)%nat -> exists h, ustar_make_header (chars "../bin/ls") USTAR_REGULAR 4711 = Ok (Some h) /\
      List.length h = 512%nat /\ ustar_parse_header h = Ok (inr (Some name, USTAR_REGULAR, 4711))) /\
    ((99 < List.length name)%nat -> ustar_make_header (chars "../bin/ls") USTAR_REGULAR 4711 = Ok None).
Proof.
  apply (ustar_roundtrip (chars "../bin/ls") USTAR_REGULAR 4711); [repeat constructor|by left|by vm_compute].
Defined.
