(* ===== verification/Palloc.v ===== *)
(** * threads/palloc.c and threads/vaddr.h: the page allocator

    Two pools of pages, each a base address and a bitmap of its used pages
    (Bitmap.v).  Memory is a function from addresses to bytes.  The bitmap of a
    pool is kept apart from the memory it lives in, at the start of the pool,
    which no page of the pool overlaps. *)
From S2P Require Import Prelude Bitmap.

(** ** threads/vaddr.h *)
Definition PGBITS : Z := 12.
Definition PGSIZE : Z := 4096.
Definition PGMASK : Z := Z.ones PGBITS.
Definition PHYS_BASE : Z := 0xc0000000.

Definition pg_ofs (va : Z) : Z := Z.land va PGMASK.
Definition pg_no (va : Z) : Z := Z.shiftr va PGBITS.
Definition pg_round_up (va : Z) : Z := Z.ldiff (u32 (va + PGSIZE - 1)) PGMASK.
Definition pg_round_down (va : Z) : Z := Z.ldiff va PGMASK.
Definition is_user_vaddr (va : Z) : bool := va <? PHYS_BASE.
Definition is_kernel_vaddr (va : Z) : bool := PHYS_BASE <=? va.
Definition ptov (paddr : Z) : outcome Z := assert! paddr <? PHYS_BASE in Ok (u32 (paddr + PHYS_BASE)).
Definition vtop (va : Z) : outcome Z := assert! is_kernel_vaddr va in Ok (va - PHYS_BASE).

(** ** Memory *)
Definition memory := Z -> Z.
Definition fill (m : memory) (p v n : Z) : memory := fun a => if (p <=? a) && (a <? p + n) then v else m a.
(** The 32-bit word at [p]. *)
Definition word_at (m : memory) (p : Z) : Z :=
  m p mod 256 + 256 * (m (p + 1) mod 256) + 65536 * (m (p + 2) mod 256) + 16777216 * (m (p + 3) mod 256).
Definition words_at (m : memory) (p n : Z) : list Z := (fun i => word_at m (p + 4 * i)) <$> seqZ 0 n.

(** ** Pools *)
Definition PAL_ASSERT : Z := 1.
Definition PAL_ZERO : Z := 2.
Definition PAL_USER : Z := 4.
Definition flag (flags f : Z) : bool := negb (Z.land flags f =? 0).

Record pool := mk_pool { lock : bool; used_map : bitmap; base : Z }.
Record palloc := mk_palloc { kernel_pool : pool; user_pool : pool; mem : memory }.

Definition get_pool (s : palloc) (user : bool) : pool := if user then user_pool s else kernel_pool s.
Definition put_pool (s : palloc) (user : bool) (p : pool) : palloc :=
  if user then mk_palloc (kernel_pool s) p (mem s) else mk_palloc p (user_pool s) (mem s).
Definition set_memory (s : palloc) (m : memory) : palloc := mk_palloc (kernel_pool s) (user_pool s) m.

Definition init_pool (m : memory) (b page_cnt : Z) : outcome pool :=
  let bm_pages := DIV_ROUND_UP (bitmap_buf_size page_cnt) PGSIZE in
  if page_cnt <? bm_pages then Err Panic else
  let page_cnt := page_cnt - bm_pages in
  let! map := bitmap_create_in_buf page_cnt (words_at m (b + 8) (elem_cnt page_cnt)) (bm_pages * PGSIZE) in
  Ok (mk_pool false map (b + bm_pages * PGSIZE)).

Definition palloc_init (m : memory) (init_ram_pages user_page_limit : Z) : outcome palloc :=
  let! free_start := ptov (1024 * 1024) in
  let! free_end := ptov (init_ram_pages * PGSIZE) in
  let free_pages := (free_end - free_start) / PGSIZE in
  let user_pages := free_pages / 2 in
  let user_pages := if user_page_limit <? user_pages then user_page_limit else user_pages in
  let kernel_pages := free_pages - user_pages in
  let! k := init_pool m free_start kernel_pages in
  let! u := init_pool m (free_start + kernel_pages * PGSIZE) user_pages in
  Ok (mk_palloc k u m).

(** The lock of a pool, by one thread at a time. *)
Definition acquire_pool (p : pool) : outcome pool :=
  assert! negb (lock p) in Ok (mk_pool true (used_map p) (base p)).
Definition release_pool (p : pool) : outcome pool :=
  assert! lock p in Ok (mk_pool false (used_map p) (base p)).

(** 0 is the null pointer. *)
Definition palloc_get_multiple (s : palloc) (flags page_cnt : Z) : outcome (Z * palloc) :=
  assert! negb (flag flags PAL_ASSERT) || negb (flag flags PAL_USER) in
  let user := flag flags PAL_USER in
  if page_cnt =? 0 then Ok (0, s) else
  let! p := acquire_pool (get_pool s user) in
  let! (page_idx, map) := bitmap_scan_and_flip (used_map p) 0 page_cnt false in
  let! p := release_pool (mk_pool (lock p) map (base p)) in
  let s := put_pool s user p in
  let pages := if page_idx =? BITMAP_ERROR then 0 else base p + PGSIZE * page_idx in
  if negb (pages =? 0) then
    Ok (pages, if flag flags PAL_ZERO then set_memory s (fill (mem s) pages 0 (PGSIZE * page_cnt)) else s)
  else if flag flags PAL_ASSERT then Err Panic else Ok (0, s).

Definition palloc_get_page (s : palloc) (flags : Z) : outcome (Z * palloc) := palloc_get_multiple s flags 1.

Definition page_from_pool (p : pool) (page : Z) : bool :=
  let page_no := pg_no page in
  let start_page := pg_no (base p) in
  let end_page := start_page + bitmap_size (used_map p) in
  (start_page <=? page_no) && (page_no <? end_page).

Definition palloc_free_multiple (s : palloc) (pages page_cnt : Z) : outcome palloc :=
  assert! pg_ofs pages =? 0 in
  if (pages =? 0) || (page_cnt =? 0) then Ok s else
  let! user := if page_from_pool (kernel_pool s) pages then Ok false
               else if page_from_pool (user_pool s) pages then Ok true else Err Panic in
  let p := get_pool s user in
  let page_idx := pg_no pages - pg_no (base p) in
  let s := set_memory s (fill (mem s) pages 0xcc (PGSIZE * page_cnt)) in
  let! all := bitmap_all (used_map p) page_idx page_cnt in
  assert! all in
  let! map := bitmap_set_multiple (used_map p) page_idx page_cnt false in
  Ok (put_pool s user (mk_pool (lock p) map (base p))).

Definition palloc_free_page (s : palloc) (page : Z) : outcome palloc := palloc_free_multiple s page 1.

(** ** Addresses *)
Lemma pg_ofs_mod va : pg_ofs va = va mod PGSIZE.
Proof. rewrite /pg_ofs /PGMASK Z.land_ones //. Qed.
Lemma pg_no_div va : pg_no va = va / PGSIZE.
Proof. rewrite /pg_no Z.shiftr_div_pow2 //. Qed.
Lemma pg_round_down_eq va : pg_round_down va = va - va mod PGSIZE.
Proof.
  rewrite /pg_round_down /PGMASK Z.ldiff_ones_r // Z.shiftl_mul_pow2 // Z.shiftr_div_pow2 //.
  change (2 ^ PGBITS) with PGSIZE. have := Z.div_mod va PGSIZE ltac:(done). lia.
Qed.

(** ** Well-formed pools

    Bases are page-aligned, the kernel pool lies below the user pool, and both
    lie inside the address space, away from the null pointer. *)
Definition pool_end (p : pool) : Z := base p + PGSIZE * bit_cnt (used_map p).
Record palloc_wf (s : palloc) : Prop := {
  wf_k : wf (used_map (kernel_pool s));
  wf_u : wf (used_map (user_pool s));
  wf_free : lock (kernel_pool s) = false /\ lock (user_pool s) = false;
  wf_align : base (kernel_pool s) mod PGSIZE = 0 /\ base (user_pool s) mod PGSIZE = 0;
  wf_order : 0 < base (kernel_pool s) /\ pool_end (kernel_pool s) <= base (user_pool s) /\
             pool_end (user_pool s) <= 2 ^ 32 }.

(** Is page number [n] of a pool in use? *)
Definition used (s : palloc) (user : bool) (n : Z) : bool := bit (used_map (get_pool s user)) n.

Lemma wf_pool s user : palloc_wf s ->
  wf (used_map (get_pool s user)) /\ lock (get_pool s user) = false /\ base (get_pool s user) mod PGSIZE = 0 /\
  0 < base (get_pool s user) /\ pool_end (get_pool s user) <= 2 ^ 32.
Proof.
  intros [Hk Hu [Hlk Hlu] [Hak Hau] (H1 & H2 & H3)]. have [[Hn1 _] _] := Hk. have [[Hn2 _] _] := Hu.
  rewrite /pool_end /PGSIZE in H2 H3 |- *. destruct user; simpl; split_and!; try done; lia.
Qed.

Lemma put_pool_wf s user map : palloc_wf s -> wf map -> bit_cnt map = bit_cnt (used_map (get_pool s user)) ->
  palloc_wf (put_pool s user (mk_pool false map (base (get_pool s user)))).
Proof.
  intros [Hk Hu [Hlk Hlu] [Hak Hau] (H1 & H2 & H3)] Hm Hc.
  destruct user; split; simpl in *; try done; rewrite /pool_end /= in H2 H3 |- *; rewrite ?Hc; done.
Qed.

(** Allocation: the first free group, or null when there is none. *)
Lemma palloc_get_ok s flags cnt : palloc_wf s -> flag flags PAL_ASSERT = false -> 0 < cnt ->
  let user := flag flags PAL_USER in
  let p := get_pool s user in
  exists pages s', palloc_get_multiple s flags cnt = Ok (pages, s') /\ palloc_wf s' /\
    base (get_pool s' user) = base p /\ bit_cnt (used_map (get_pool s' user)) = bit_cnt (used_map p) /\
    get_pool s' (negb user) = get_pool s (negb user) /\
    ((pages = 0 /\ s' = s /\ forall k, 0 <= k -> k + cnt <= bit_cnt (used_map p) ->
        ~ forall j, k <= j < k + cnt -> used s user j = false) \/
     exists idx, pages = base p + PGSIZE * idx /\ 0 < pages /\ 0 <= idx /\ idx + cnt <= bit_cnt (used_map p) /\
       (forall j, idx <= j < idx + cnt -> used s user j = false) /\
       (forall j, 0 <= j -> used s' user j = if (idx <=? j) && (j <? idx + cnt) then true else used s user j) /\
       (forall a, mem s' a = if flag flags PAL_ZERO && ((pages <=? a) && (a <? pages + PGSIZE * cnt)) then 0 else mem s a)).
Proof.
  intros Hwf Ha Hc user p. have [Hw [Hl [Hal [Hb He]]]] := wf_pool s user Hwf.
  rewrite /palloc_get_multiple Ha -/user. cbn [negb orb ASSERT obind].
  destruct (Z.eqb_spec cnt 0); [lia|]. rewrite /acquire_pool Hl. cbn [negb ASSERT obind lock used_map base]. rewrite -/p.
  have [[Hn0 Hn1] _] := Hw. change (get_pool s user) with p in Hw, Hl, Hal, Hb, He, Hn0, Hn1.
  destruct (bitmap_scan_and_flip_spec (used_map p) 0 cnt false Hw) as (r & map & -> & Hwm & Hcm & Hr); [lia..|].
  cbn [obind release_pool lock used_map base ASSERT].
  have Hid : put_pool s user (mk_pool false (used_map p) (base p)) = s.
  { rewrite /p /put_pool /get_pool. rewrite /get_pool in Hl. destruct s as [[kl km kb] [ul um ub] mm], user; simpl in *; by rewrite Hl. }
  destruct Hr as [(-> & -> & Hno)|(Hne & (Hf1 & Hf2 & Hf3 & _) & Hbits)].
  - rewrite Z.eqb_refl. cbn [Z.eqb negb]. exists 0, s. rewrite Hid. split_and!; try done. left. split_and!; [done..|].
    intros k Hk1 Hk2 Hall. by apply (Hno k).
  - rewrite (proj2 (Z.eqb_neq r BITMAP_ERROR) Hne).
    have Hpos : 0 < base p + PGSIZE * r by rewrite /PGSIZE; lia.
    rewrite (proj2 (Z.eqb_neq (base p + PGSIZE * r) 0)); [lia|]. cbn [negb].
    have Hwf' : palloc_wf (put_pool s user (mk_pool false map (base p))) by apply put_pool_wf.
    exists (base p + PGSIZE * r), (if flag flags PAL_ZERO
      then set_memory (put_pool s user (mk_pool false map (base p)))
             (fill (mem (put_pool s user (mk_pool false map (base p)))) (base p + PGSIZE * r) 0 (PGSIZE * cnt))
      else put_pool s user (mk_pool false map (base p))).
    split; [done|]. split; [by destruct (flag flags PAL_ZERO); [destruct Hwf'; split|]|].
    split; [by destruct (flag flags PAL_ZERO), user|]. split; [by destruct (flag flags PAL_ZERO), user|].
    split; [by destruct (flag flags PAL_ZERO), user|]. right. exists r. split_and!; [done..| |].
    + intros j Hj. rewrite -Hbits //. by destruct (flag flags PAL_ZERO), user.
    + intros a. have Hmem : mem (put_pool s user (mk_pool false map (base p))) = mem s by destruct user.
      destruct (flag flags PAL_ZERO); cbn [andb]; [|by rewrite Hmem]. rewrite /= /fill Hmem. done.
Qed.

(** Releasing pages that are in use. *)
Lemma palloc_free_ok s user idx cnt : palloc_wf s -> 0 < cnt -> 0 <= idx ->
  idx + cnt <= bit_cnt (used_map (get_pool s user)) -> (forall j, idx <= j < idx + cnt -> used s user j = true) ->
  let pages := base (get_pool s user) + PGSIZE * idx in
  exists s', palloc_free_multiple s pages cnt = Ok s' /\ palloc_wf s' /\
    base (get_pool s' user) = base (get_pool s user) /\
    bit_cnt (used_map (get_pool s' user)) = bit_cnt (used_map (get_pool s user)) /\
    get_pool s' (negb user) = get_pool s (negb user) /\
    (forall j, 0 <= j -> used s' user j = if (idx <=? j) && (j <? idx + cnt) then false else used s user j) /\
    (forall a, a < pages \/ pages + PGSIZE * cnt <= a -> mem s' a = mem s a).
Proof.
  intros Hwf Hc Hi Hle Hused pages. have [Hw [Hl [Hal [Hb He]]]] := wf_pool s user Hwf.
  set p := get_pool s user in Hw Hl Hal Hb He Hle |- *.
  have Hmod : pages mod PGSIZE = 0 by rewrite /pages (Z.mul_comm PGSIZE) Z.mod_add.
  have Hdiv : pages / PGSIZE = base p / PGSIZE + idx by rewrite /pages (Z.mul_comm PGSIZE) Z.div_add.
  rewrite /palloc_free_multiple pg_ofs_mod Hmod. cbn [Z.eqb ASSERT obind].
  rewrite (proj2 (Z.eqb_neq pages 0)); [rewrite /pages -/p /PGSIZE; lia|]. rewrite (proj2 (Z.eqb_neq cnt 0)); [lia|]. cbn [orb].
  have Hmine : page_from_pool p pages = true.
  { rewrite /page_from_pool !pg_no_div Hdiv /bitmap_size. destruct (Z.leb_spec (base p / PGSIZE) (base p / PGSIZE + idx)); [|lia].
    destruct (Z.ltb_spec (base p / PGSIZE + idx) (base p / PGSIZE + bit_cnt (used_map p))); [done|lia]. }
  have -> : (if page_from_pool (kernel_pool s) pages then Ok false
             else if page_from_pool (user_pool s) pages then Ok true else Err Panic) = Ok user.
  { rewrite /p /get_pool in Hmine. destruct user; [|by rewrite Hmine]. rewrite Hmine.
    have -> : page_from_pool (kernel_pool s) pages = false; [|done].
    rewrite /page_from_pool !pg_no_div Hdiv /p /= /bitmap_size. destruct Hwf as [_ _ _ [Hak Hau] (_ & Hord & _)].
    rewrite /pool_end in Hord. apply andb_false_iff. right. apply Z.ltb_ge.
    have := Z.div_mod (base (kernel_pool s)) PGSIZE ltac:(done). have := Z.div_mod (base (user_pool s)) PGSIZE ltac:(done).
    rewrite /PGSIZE in Hak Hau Hord |- *. lia. }
  cbn [obind]. rewrite -/p !pg_no_div Hdiv. have -> : base p / PGSIZE + idx - base p / PGSIZE = idx by lia.
  destruct (bitmap_all_spec (used_map p) idx cnt Hw) as (c & -> & Hall); [lia..|]. cbn [obind].
  have -> : c = true by apply Hall; intros j Hj; apply Hused. cbn [ASSERT obind].
  destruct (bitmap_set_multiple_spec (used_map p) idx cnt false Hw) as (map & -> & Hwm & Hcm & Hbits); [lia..|]. cbn [obind].
  eexists. split; [done|].
  have Hwf1 : palloc_wf (put_pool s user (mk_pool false map (base p))) by apply put_pool_wf.
  split_and!.
  - rewrite Hl. destruct Hwf1. destruct user; split; done.
  - by destruct user.
  - by destruct user.
  - by destruct user.
  - intros j Hj. rewrite -Hbits //. by destruct user.
  - intros a Ha. have -> : mem (put_pool (set_memory s (fill (mem s) pages 204 (PGSIZE * cnt))) user (mk_pool (lock p) map (base p)))
      = fill (mem s) pages 204 (PGSIZE * cnt) by destruct user.
    rewrite /fill. destruct (Z.leb_spec pages a), (Z.ltb_spec a (pages + PGSIZE * cnt)); simpl; try done. lia.
Qed.

(** ** Initialisation *)
Lemma word_at_range m p : 0 <= word_at m p < 2 ^ 32.
Proof.
  rewrite /word_at. have H0 := Z.mod_pos_bound (m p) 256. have H1 := Z.mod_pos_bound (m (p + 1)) 256.
  have H2 := Z.mod_pos_bound (m (p + 2)) 256. have H3 := Z.mod_pos_bound (m (p + 3)) 256. lia.
Qed.

Lemma init_pool_ok m b n : 1 <= n < 2 ^ 18 -> b mod PGSIZE = 0 ->
  exists p, init_pool m b n = Ok p /\ wf (used_map p) /\ lock p = false /\ base p mod PGSIZE = 0 /\
    b < base p /\ pool_end p = b + PGSIZE * n /\ (forall j, 0 <= j < bit_cnt (used_map p) -> bit (used_map p) j = false).
Proof.
  intros Hn Hb. rewrite /init_pool. set bm := DIV_ROUND_UP _ _.
  have Hbm : 1 <= bm <= n.
  { rewrite /bm /bitmap_buf_size /byte_cnt /elem_cnt /DIV_ROUND_UP /ELEM_BITS /PGSIZE. dlia. }
  destruct (Z.ltb_spec n bm); [lia|].
  have Hfit : bitmap_buf_size (n - bm) <= bm * PGSIZE.
  { rewrite /bm /bitmap_buf_size /byte_cnt /elem_cnt /DIV_ROUND_UP /ELEM_BITS /PGSIZE in Hbm |- *. dlia. }
  rewrite /bitmap_create_in_buf (proj2 (Z.leb_le _ _) Hfit). cbn [ASSERT obind]. rewrite /bitmap_set_all.
  set b0 := mk_bitmap _ _. have Hw0 : wf b0.
  { rewrite /wf /b0 /=. split_and!; [lia|rewrite /SIZE_MAX; lia| |].
    - rewrite /words_at length_fmap length_seqZ. rewrite /elem_cnt /DIV_ROUND_UP /ELEM_BITS. dlia.
    - apply Forall_fmap, Forall_forall. intros i _. apply word_at_range. }
  destruct (bitmap_set_multiple_spec b0 0 (bitmap_size b0) false Hw0) as (map & -> & Hwm & Hcm & Hbits);
    [rewrite /bitmap_size /=; lia..|]. cbn [obind]. rewrite /= in Hcm.
  eexists. split; [done|]. cbn [used_map lock base]. split_and!; [done|done| |rewrite /PGSIZE; lia| |].
  - by rewrite Z.mod_add.
  - rewrite /pool_end /= Hcm. rewrite /PGSIZE. lia.
  - intros j Hj. rewrite Hbits; [lia|]. rewrite /bitmap_size /=.
    destruct (Z.leb_spec 0 j), (Z.ltb_spec j (0 + (n - bm))); simpl; try done; lia.
Qed.

(** ** Theorems *)

(** Booting the allocator.  With between 258 pages and 1 GB of memory and
    room for at least one user page, [palloc_init] succeeds whatever memory
    holds: two disjoint, page-aligned pools inside the address space, all of
    whose pages are free. *)
Theorem palloc_init_correct (m : memory) (ram limit : Z) :
  258 <= ram < 2 ^ 18 -> 1 <= limit ->
  exists s, palloc_init m ram limit = Ok s /\ palloc_wf s /\ mem s = m /\
    forall user j, 0 <= j < bit_cnt (used_map (get_pool s user)) -> used s user j = false.
Proof.
  intros Hr Hl. rewrite /palloc_init /ptov /PHYS_BASE /PGSIZE.
  rewrite (proj2 (Z.ltb_lt (1024 * 1024) _)); [lia|]. rewrite (proj2 (Z.ltb_lt (ram * 4096) _)); [lia|].
  cbn [ASSERT obind]. rewrite !wrap_small; [lia..|]. set free := _ / 4096. have Hfree : free = ram - 256 by rewrite /free; dlia.
  set up := if _ <? _ then _ else _. have Hup : 1 <= up <= free / 2.
  { rewrite /up. destruct (Z.ltb_spec limit (free / 2)); [lia|]. split; [dlia|lia]. }
  have Hkp : 1 <= free - up < 2 ^ 18 by dlia. rewrite -/PGSIZE.
  destruct (init_pool_ok m (1024 * 1024 + 0xc0000000) (free - up)) as (k & -> & Hwk & Hlk & Hak & Hbk & Hek & Hzk); [lia|done|].
  cbn [obind]. set b2 := _ + (free - up) * 4096. have Hb2 : b2 mod PGSIZE = 0 by rewrite /b2 Z.mod_add.
  destruct (init_pool_ok m b2 up) as (u & -> & Hwu & Hlu & Hau & Hbu & Heu & Hzu); [dlia|done|].
  cbn [obind]. eexists. split; [done|]. split; [|split; [done|by intros [] j Hj; [apply Hzu|apply Hzk]]].
  have Hadd : base u mod PGSIZE = 0 by done.
  split; cbn [kernel_pool user_pool]; try done.
  rewrite Hek Heu. rewrite /b2 /PGSIZE in Hbu |- *. split_and!; [lia|lia|dlia].
Qed.

Lemma palloc_init_correct_witness :
  exists s, palloc_init (fun _ => 255) 1024 4096 = Ok s /\ palloc_wf s /\ mem s = (fun _ => 255) /\
    forall user j, 0 <= j < bit_cnt (used_map (get_pool s user)) -> used s user j = false.
Proof. apply (palloc_init_correct (fun _ => 255) 1024 4096); lia. Defined.

(** Page allocation.  [palloc_get_multiple] returns the null pointer,
    changing nothing, exactly when the pool has no [cnt] consecutive free pages;
    otherwise a page-aligned group inside the pool, no page of which was in use,
    zeroed if asked; all other pages and the other pool are as before.  Giving
    the group back with [palloc_free_multiple] succeeds and makes exactly these
    pages free again, without touching memory outside them. *)
Theorem palloc_get_free_correct (s : palloc) (flags cnt : Z) :
  palloc_wf s -> flag flags PAL_ASSERT = false -> 0 < cnt ->
  let user := flag flags PAL_USER in
  exists pages s1, palloc_get_multiple s flags cnt = Ok (pages, s1) /\ palloc_wf s1 /\
    ((pages = 0 /\ s1 = s /\ forall k, 0 <= k -> k + cnt <= bit_cnt (used_map (get_pool s user)) ->
        exists j, k <= j < k + cnt /\ used s user j = true) \/
     exists idx s2, pages = base (get_pool s user) + PGSIZE * idx /\ pg_ofs pages = 0 /\
       0 <= idx /\ idx + cnt <= bit_cnt (used_map (get_pool s user)) /\
       (forall j, idx <= j < idx + cnt -> used s user j = false /\ used s1 user j = true) /\
       (forall j, 0 <= j -> ~ idx <= j < idx + cnt -> used s1 user j = used s user j) /\
       (forall j, used s1 (negb user) j = used s (negb user) j) /\
       (forall a, mem s1 a = if flag flags PAL_ZERO && ((pages <=? a) && (a <? pages + PGSIZE * cnt)) then 0 else mem s a) /\
       palloc_free_multiple s1 pages cnt = Ok s2 /\ palloc_wf s2 /\
       (forall u j, 0 <= j -> used s2 u j = used s u j) /\
       (forall a, a < pages \/ pages + PGSIZE * cnt <= a -> mem s2 a = mem s1 a)).
Proof.
  intros Hwf Ha Hc user.
  destruct (palloc_get_ok s flags cnt Hwf Ha Hc) as (pages & s1 & Hg & Hw1 & Hb1 & Hc1 & Ho1 & Hr). fold user in Hb1, Hc1, Ho1, Hr.
  exists pages, s1. split; [done|]. split; [done|]. destruct Hr as [(-> & -> & Hno)|(idx & -> & Hpos & Hi & Hle & Hf & Hu & Hm)].
  - left. split_and!; [done..|]. intros k Hk Hkc. specialize (Hno k Hk Hkc).
    destruct (decide (Exists (fun j => used s user j = true) (seqZ k cnt))) as [Hex|Hex].
    + apply Exists_exists in Hex as (j & Hj%elem_of_seqZ & Hjt). exists j. split; [lia|done].
    + exfalso. apply Hno. intros j Hj. destruct (used s user j) eqn:Hjt; [|done]. exfalso. apply Hex.
      apply Exists_exists. exists j. split; [|done]. apply elem_of_seqZ. lia.
  - right. have Hon : forall j, idx <= j < idx + cnt -> used s1 user j = true.
    { intros j Hj. rewrite Hu; [lia|]. destruct (Z.leb_spec idx j), (Z.ltb_spec j (idx + cnt)); simpl; try done; lia. }
    destruct (palloc_free_ok s1 user idx cnt Hw1) as (s2 & Hfr & Hw2 & Hb2 & Hc2 & Ho2 & Hu2 & Hm2); [lia|lia|lia|done|].
    rewrite Hb1 in Hfr Hm2. exists idx, s2. split; [done|]. split.
    { have [_ [_ [Hal _]]] := wf_pool s user Hwf. by rewrite pg_ofs_mod (Z.mul_comm PGSIZE) Z.mod_add. }
    split_and!; try done.
    + intros j Hj. by split; [apply Hf|apply Hon].
    + intros j Hj Hnj. rewrite Hu //. destruct (Z.leb_spec idx j), (Z.ltb_spec j (idx + cnt)); simpl; try done; lia.
    + intros j. by rewrite /used Ho1.
    + intros u j Hj. destruct (decide (u = user)) as [-> | Hne].
      * rewrite Hu2 // Hu //. destruct (Z.leb_spec idx j), (Z.ltb_spec j (idx + cnt)); simpl; try done. symmetry. apply Hf. lia.
      * have -> : u = negb user by destruct u, user. by rewrite /used Ho2 Ho1.
Qed.

(** Pools of 4 kernel and 3 user pages. *)
Definition ex_palloc : palloc :=
  mk_palloc (mk_pool false (mk_bitmap 4 [5]) 4096) (mk_pool false (mk_bitmap 3 [0]) 24576) (fun _ => 1).
Lemma ex_palloc_wf : palloc_wf ex_palloc.
Proof.
  split; try done.
  - split; [done|]. split; [done|]. constructor; [lia|constructor].
  - split; [done|]. split; [done|]. constructor; [lia|constructor].
Qed.

Lemma palloc_get_free_correct_witness :
  palloc_wf ex_palloc /\ exists pages s1, palloc_get_multiple ex_palloc 2 1 = Ok (pages, s1) /\ palloc_wf s1 /\
    ((pages = 0 /\ s1 = ex_palloc /\ forall k, 0 <= k -> k + 1 <= 4 ->
        exists j, k <= j < k + 1 /\ used ex_palloc false j = true) \/
     exists idx s2, pages = 4096 + PGSIZE * idx /\ pg_ofs pages = 0 /\
       0 <= idx /\ idx + 1 <= 4 /\
       (forall j, idx <= j < idx + 1 -> used ex_palloc false j = false /\ used s1 false j = true) /\
       (forall j, 0 <= j -> ~ idx <= j < idx + 1 -> used s1 false j = used ex_palloc false j) /\
       (forall j, used s1 true j = used ex_palloc true j) /\
       (forall a, mem s1 a = if (pages <=? a) && (a <? pages + PGSIZE * 1) then 0 else 1) /\
       palloc_free_multiple s1 pages 1 = Ok s2 /\ palloc_wf s2 /\
       (forall u j, 0 <= j -> used s2 u j = used ex_palloc u j) /\
       (forall a, a < pages \/ pages + PGSIZE * 1 <= a -> mem s2 a = mem s1 a)).
Proof.
  split; [exact ex_palloc_wf|].
  apply (palloc_get_free_correct ex_palloc 2 1); [exact ex_palloc_wf|reflexivity|lia].
Defined.
