(* ===== verification/Malloc.v ===== *)
(** * threads/malloc.c: blocks of memory

    Descriptors manage blocks of one size; an arena is a page divided into such
    blocks, or the pages of one big block.  The free list of a descriptor is the
    list of the addresses of its free blocks; the [struct arena] at the start of
    a page is kept in the map [arenas], under the address of the page.  The bytes
    in which malloc.c keeps the arenas and the links of the free lists are not
    written to the model's memory; where they lie is [bookkeeping]. *)
From S2P Require Import Prelude Bitmap Palloc.

Definition ARENA_MAGIC : Z := 0x9a548eed.
Definition ARENA_SIZE : Z := 12.        (* sizeof (struct arena) *)

Record desc := mk_desc { block_size : Z; blocks_per_arena : Z; free_list : list Z; desc_lock : bool }.
Record arena := mk_arena { magic : Z; arena_desc : option nat; free_cnt : Z }.
Record mstate := mk_mstate { pal : palloc; descs : list desc; arenas : gmap Z arena }.

Definition set_pal (s : mstate) (p : palloc) : mstate := mk_mstate p (descs s) (arenas s).
Definition put_desc (s : mstate) (i : nat) (d : desc) : mstate := mk_mstate (pal s) (<[i := d]> (descs s)) (arenas s).
Definition put_arena (s : mstate) (a : Z) (x : arena) : mstate := mk_mstate (pal s) (descs s) (<[a := x]> (arenas s)).
Definition set_free_list (d : desc) (l : list Z) : desc := mk_desc (block_size d) (blocks_per_arena d) l (desc_lock d).

(** ** Initialisation *)
Fixpoint init_loop (fuel : nat) (bs : Z) (ds : list desc) : outcome (list desc) :=
  if bs <? PGSIZE / 2 then
    match fuel with
    | O => Err NoFuel
    | S fuel =>
      assert! Z.of_nat (length ds) + 1 <=? 10 in
      init_loop fuel (bs * 2) (ds ++ [mk_desc bs ((PGSIZE - ARENA_SIZE) / bs) [] false])
    end
  else Ok ds.
Definition malloc_init (p : palloc) : outcome mstate :=
  let! ds := init_loop 10 16 [] in Ok (mk_mstate p ds ∅).

(** ** Arenas and blocks *)
Definition get_arena (s : mstate) (a : Z) : outcome arena :=
  assert! negb (a =? 0) in
  let! x := oget (arenas s !! a) in
  assert! magic x =? ARENA_MAGIC in Ok x.

Definition arena_to_block (s : mstate) (a idx : Z) : outcome Z :=
  let! x := get_arena s a in
  let! i := oget (arena_desc x) in
  let! d := oget (descs s !! i) in
  assert! idx <? blocks_per_arena d in
  Ok (a + ARENA_SIZE + idx * block_size d).

Definition block_to_arena (s : mstate) (b : Z) : outcome (Z * arena) :=
  let a := pg_round_down b in
  let! x := get_arena s a in
  match arena_desc x with
  | Some i => let! d := oget (descs s !! i) in
              assert! u32 (pg_ofs b - ARENA_SIZE) mod block_size d =? 0 in Ok (a, x)
  | None => assert! pg_ofs b =? ARENA_SIZE in Ok (a, x)
  end.

(** [for (i = 0; i < d->blocks_per_arena; i++) list_push_back (..., arena_to_block (a, i))] *)
Fixpoint push_blocks (n : nat) (s : mstate) (a i : Z) (l : list Z) : outcome (list Z) :=
  match n with
  | O => Ok l
  | S n => let! b := arena_to_block s a i in push_blocks n s a (i + 1) (l ++ [b])
  end.
(** The same loop with [list_remove]; the block must be in the list. *)
Fixpoint remove_blocks (n : nat) (s : mstate) (a i : Z) (l : list Z) : outcome (list Z) :=
  match n with
  | O => Ok l
  | S n => let! b := arena_to_block s a i in
           if bool_decide (b ∈ l) then remove_blocks n s a (i + 1) (filter (fun x => x <> b) l) else Err Fault
  end.

(** The first descriptor whose blocks are big enough. *)
Fixpoint find_desc (ds : list desc) (i : nat) (size : Z) : option nat :=
  match ds with
  | [] => None
  | d :: ds => if size <=? block_size d then Some i else find_desc ds (S i) size
  end.

Definition acquire_desc (s : mstate) (i : nat) : outcome mstate :=
  let! d := oget (descs s !! i) in
  assert! negb (desc_lock d) in
  Ok (put_desc s i (mk_desc (block_size d) (blocks_per_arena d) (free_list d) true)).
Definition release_desc (s : mstate) (i : nat) : outcome mstate :=
  let! d := oget (descs s !! i) in
  assert! desc_lock d in
  Ok (put_desc s i (mk_desc (block_size d) (blocks_per_arena d) (free_list d) false)).

(** A big block: [size_t] arithmetic wraps around. *)
Definition malloc_big (s : mstate) (size : Z) : outcome (Z * mstate) :=
  let page_cnt := u32 (u32 (size + ARENA_SIZE) + PGSIZE - 1) / PGSIZE in
  let! (a, p) := palloc_get_multiple (pal s) 0 page_cnt in
  let s := set_pal s p in
  if a =? 0 then Ok (0, s)
  else Ok (a + ARENA_SIZE, put_arena s a (mk_arena ARENA_MAGIC None page_cnt)).

(** [if (list_empty (&d->free_list))]: a new arena; [false] when there is no page. *)
Definition new_arena (s : mstate) (i : nat) : outcome (bool * mstate) :=
  let! d := oget (descs s !! i) in
  match free_list d with
  | _ :: _ => Ok (true, s)
  | [] =>
    let! (a, p) := palloc_get_page (pal s) 0 in
    let s := set_pal s p in
    if a =? 0 then Ok (false, s) else
    let s := put_arena s a (mk_arena ARENA_MAGIC (Some i) (blocks_per_arena d)) in
    let! l := push_blocks (Z.to_nat (blocks_per_arena d)) s a 0 (free_list d) in
    Ok (true, put_desc s i (set_free_list d l))
  end.

(** [b = list_pop_front (...); a = block_to_arena (b); a->free_cnt--;] *)
Definition take_block (s : mstate) (i : nat) : outcome (Z * mstate) :=
  let! d := oget (descs s !! i) in
  match free_list d with
  | [] => Err Panic
  | b :: l =>
    let s := put_desc s i (set_free_list d l) in
    let! (a, x) := block_to_arena s b in
    Ok (b, put_arena s a (mk_arena (magic x) (arena_desc x) (u32 (free_cnt x - 1))))
  end.

Definition malloc (s : mstate) (size : Z) : outcome (Z * mstate) :=
  if size =? 0 then Ok (0, s) else
  match find_desc (descs s) 0 size with
  | None => malloc_big s size
  | Some i =>
    let! s := acquire_desc s i in
    let! (ok, s) := new_arena s i in
    if ok then
      let! (b, s) := take_block s i in
      let! s := release_desc s i in Ok (b, s)
    else let! s := release_desc s i in Ok (0, s)
  end.

Definition set_mem (s : mstate) (m : memory) : mstate := set_pal s (set_memory (pal s) m).

Definition calloc (s : mstate) (a b : Z) : outcome (Z * mstate) :=
  let size := u32 (a * b) in
  if (size <? a) || (size <? b) then Ok (0, s) else
  let! (p, s) := malloc s size in
  Ok (p, if p =? 0 then s else set_mem s (fill (mem (pal s)) p 0 size)).

(** The function [block_size] of the source. *)
Definition size_of_block (s : mstate) (block : Z) : outcome Z :=
  let! (a, x) := block_to_arena s block in
  match arena_desc x with
  | Some i => let! d := oget (descs s !! i) in Ok (block_size d)
  | None => Ok (PGSIZE * free_cnt x - pg_ofs block)
  end.

(** [list_push_front], [++a->free_cnt] and the release of an unused arena. *)
Definition give_back (s : mstate) (i : nat) (a b : Z) : outcome mstate :=
  let! d := oget (descs s !! i) in
  let! x := oget (arenas s !! a) in
  let d := set_free_list d (b :: free_list d) in
  let x := mk_arena (magic x) (arena_desc x) (u32 (free_cnt x + 1)) in
  let s := put_arena (put_desc s i d) a x in
  if blocks_per_arena d <=? free_cnt x then
    assert! free_cnt x =? blocks_per_arena d in
    let! l := remove_blocks (Z.to_nat (blocks_per_arena d)) s a 0 (free_list d) in
    let! p := palloc_free_page (pal s) a in
    Ok (mk_mstate p (<[i := set_free_list d l]> (descs s)) (delete a (arenas s)))
  else Ok s.

Definition free (s : mstate) (p : Z) : outcome mstate :=
  if p =? 0 then Ok s else
  let! (a, x) := block_to_arena s p in
  match arena_desc x with
  | Some i =>
    let! d := oget (descs s !! i) in
    let s := set_mem s (fill (mem (pal s)) p 0xcc (block_size d)) in
    let! s := acquire_desc s i in
    let! s := give_back s i a p in
    release_desc s i
  | None =>
    let! q := palloc_free_multiple (pal s) a (free_cnt x) in
    Ok (mk_mstate q (descs s) (delete a (arenas s)))
  end.

(** [memcpy] between two blocks. *)
Definition copy_block (m : memory) (dst src n : Z) : memory :=
  fun a => if (dst <=? a) && (a <? dst + n) then m (src + (a - dst)) else m a.

Definition realloc (s : mstate) (old_block new_size : Z) : outcome (Z * mstate) :=
  if new_size =? 0 then let! s := free s old_block in Ok (0, s)
  else
    let! (new_block, s) := malloc s new_size in
    if negb (old_block =? 0) && negb (new_block =? 0) then
      let! old_size := size_of_block s old_block in
      let min_size := if new_size <? old_size then new_size else old_size in
      let s := set_mem s (copy_block (mem (pal s)) new_block old_block min_size) in
      let! s := free s old_block in Ok (new_block, s)
    else Ok (new_block, s).

(** ** The invariant *)
Definition blocks (a : Z) (d : desc) : list Z :=
  (fun i => a + ARENA_SIZE + i * block_size d) <$> seqZ 0 (blocks_per_arena d).
Definition desc_ok (d : desc) : Prop :=
  16 <= block_size d /\ 1 <= blocks_per_arena d /\ ARENA_SIZE + blocks_per_arena d * block_size d <= PGSIZE.
Definition npages (x : arena) : Z := match arena_desc x with Some _ => 1 | None => free_cnt x end.

(** The [n] pages at [a] are allocated from the kernel pool. *)
Definition owned (p : palloc) (a n : Z) : Prop :=
  exists idx, a = base (kernel_pool p) + PGSIZE * idx /\ 0 <= idx /\ idx + n <= bit_cnt (used_map (kernel_pool p)) /\
    forall j, idx <= j < idx + n -> used p false j = true.

(** The free blocks of an arena. *)
Definition free_in (a : Z) (d : desc) : list Z := filter (fun b => pg_round_down b = a) (free_list d).

(** An arena other than [E] has a block in use. *)
Record minv (E : option Z) (s : mstate) : Prop := {
  mi_pal : palloc_wf (pal s);
  mi_desc i d : descs s !! i = Some d -> desc_ok d /\ NoDup (free_list d) /\
    forall b, b ∈ free_list d -> exists x, arenas s !! pg_round_down b = Some x /\ arena_desc x = Some i /\
      b ∈ blocks (pg_round_down b) d;
  mi_arena a x : arenas s !! a = Some x -> magic x = ARENA_MAGIC /\ 1 <= npages x /\ owned (pal s) a (npages x);
  mi_small a x i : arenas s !! a = Some x -> arena_desc x = Some i -> exists d, descs s !! i = Some d /\
    free_cnt x = Z.of_nat (length (free_in a d)) /\ (E <> Some a -> free_cnt x < blocks_per_arena d);
  mi_disj a1 a2 x1 x2 : arenas s !! a1 = Some x1 -> arenas s !! a2 = Some x2 -> a1 <> a2 ->
    a1 + PGSIZE * npages x1 <= a2 \/ a2 + PGSIZE * npages x2 <= a1 }.

(** The blocks that a client holds, with the bytes it may use. *)
Definition live (s : mstate) (p n : Z) : Prop :=
  exists a x, arenas s !! a = Some x /\
    match arena_desc x with
    | Some i => exists d, descs s !! i = Some d /\ p ∈ blocks a d /\ p ∉ free_list d /\ n = block_size d
    | None => p = a + ARENA_SIZE /\ n = PGSIZE * free_cnt x - ARENA_SIZE
    end.

(** States that differ in descriptor locks only. *)
Definition same_desc (d d' : desc) : Prop :=
  block_size d' = block_size d /\ blocks_per_arena d' = blocks_per_arena d /\ free_list d' = free_list d.
Definition sim (s s' : mstate) : Prop := pal s' = pal s /\ arenas s' = arenas s /\ Forall2 same_desc (descs s) (descs s').

Lemma same_blocks a d d' : same_desc d d' -> blocks a d' = blocks a d.
Proof. intros (H1 & H2 & _). by rewrite /blocks H1 H2. Qed.
Lemma sim_minv E s s' : sim s s' -> minv E s -> minv E s'.
Proof.
  intros (Hp & Ha & Hd) [H1 H2 H3 H4 H5]. split; rewrite ?Hp ?Ha; try done.
  - intros i d' Hi. destruct (Forall2_lookup_r _ _ _ _ _ Hd Hi) as (d & Hi' & Hs). destruct (H2 i d Hi') as (Hok & Hn & Hf).
    destruct (Hs) as (Hb & Hn' & Hl). rewrite Hl. split_and!; [by rewrite /desc_ok Hb Hn'|done|].
    intros b Hbl. rewrite (same_blocks _ _ _ Hs). by apply Hf.
  - intros a x i Hx Hi. destruct (H4 a x i Hx Hi) as (d & Hdi & Hc & Hlt).
    destruct (Forall2_lookup_l _ _ _ _ _ Hd Hdi) as (d' & Hdi' & Hs). exists d'. destruct Hs as (Hb & Hn' & Hl).
    by rewrite /free_in Hl Hn'.
Qed.
Lemma sim_sym s s' : sim s s' -> sim s' s.
Proof.
  intros (Hp & Ha & Hd). split_and!; [done..|]. apply Forall2_flip. eapply Forall2_impl; [done|].
  intros d d' (H1 & H2 & H3). by rewrite /flip /same_desc.
Qed.
Lemma sim_live_1 s s' p n : sim s s' -> live s p n -> live s' p n.
Proof.
  intros (Hp & Ha & Hd) (a & x & Hx & Hl). exists a, x. rewrite Ha. split; [done|]. destruct (arena_desc x) as [i|]; [|done].
  destruct Hl as (d & Hdi & Hin & Hnin & ->). destruct (Forall2_lookup_l _ _ _ _ _ Hd Hdi) as (d' & Hdi' & Hs).
  exists d'. rewrite (same_blocks _ _ _ Hs). destruct Hs as (H1 & H2 & H3). by rewrite H1 H3.
Qed.
Lemma sim_live s s' p n : sim s s' -> live s p n <-> live s' p n.
Proof. intros H. split; apply sim_live_1; [done|by apply sim_sym]. Qed.

Lemma put_desc_sim s i d d' : descs s !! i = Some d -> same_desc d d' -> sim s (put_desc s i d').
Proof.
  intros Hi Hs. split_and!; [done..|]. simpl. apply Forall2_same_length_lookup. split; [by rewrite length_insert|].
  intros j x y Hx Hy. destruct (decide (j = i)) as [-> | Hne].
  - rewrite list_lookup_insert_eq in Hy; [by eapply lookup_lt_Some|]. congruence.
  - rewrite list_lookup_insert_ne // in Hy. have -> : x = y by congruence. by split_and!.
Qed.

(** ** Geometry *)
Lemma block_spec a d b : desc_ok d -> a mod PGSIZE = 0 -> b ∈ blocks a d ->
  exists k, 0 <= k < blocks_per_arena d /\ b = a + ARENA_SIZE + k * block_size d /\
    ARENA_SIZE + k * block_size d + block_size d <= PGSIZE /\ pg_round_down b = a /\ pg_ofs b = ARENA_SIZE + k * block_size d.
Proof.
  intros (H1 & H2 & H3) Ha Hb. apply list_elem_of_fmap in Hb as (k & -> & Hk%elem_of_seqZ). exists k.
  have Hle : ARENA_SIZE + k * block_size d + block_size d <= PGSIZE.
  { have : (k + 1) * block_size d <= blocks_per_arena d * block_size d by apply Z.mul_le_mono_nonneg_r; lia. lia. }
  have Hk0 : 0 <= k * block_size d by apply Z.mul_nonneg_nonneg; lia.
  have Hm : (a + ARENA_SIZE + k * block_size d) mod PGSIZE = ARENA_SIZE + k * block_size d.
  { rewrite -Z.add_assoc -Z.add_mod_idemp_l // Ha. apply Z.mod_small. rewrite /ARENA_SIZE in Hle |- *. lia. }
  split_and!; [lia..|done|lia| |by rewrite pg_ofs_mod]. rewrite pg_round_down_eq Hm. lia.
Qed.
Lemma blocks_NoDup a d : desc_ok d -> NoDup (blocks a d).
Proof. intros (H1 & _). apply NoDup_fmap_2; [|apply NoDup_seqZ]. intros i j Hij. nia. Qed.
Lemma length_blocks a d : desc_ok d -> Z.of_nat (length (blocks a d)) = blocks_per_arena d.
Proof. intros (_ & H2 & _). rewrite /blocks length_fmap length_seqZ. lia. Qed.

Lemma owned_align p a n : palloc_wf p -> owned p a n -> 1 <= n -> a mod PGSIZE = 0 /\ 0 < a.
Proof.
  intros Hwf (idx & -> & Hi & Hle & _) Hn. have [_ [_ [Ha [Hb _]]]] := wf_pool p false Hwf. simpl in *.
  split; [by rewrite (Z.mul_comm PGSIZE) Z.mod_add|rewrite /PGSIZE; lia].
Qed.
Lemma minv_align E s a x : minv E s -> arenas s !! a = Some x -> a mod PGSIZE = 0 /\ 0 < a.
Proof. intros H Hx. destruct (mi_arena E s H a x Hx) as (_ & Hn & Ho). by eapply owned_align; [apply (mi_pal E s H)|..]. Qed.

(** Two blocks that clients hold do not overlap. *)
Lemma live_range E s p n : minv E s -> live s p n -> exists a x, arenas s !! a = Some x /\ a + 12 <= p /\
  0 < n /\ p + n <= a + PGSIZE * npages x /\ pg_round_down p = a.
Proof.
  intros H (a & x & Hx & Hl). exists a, x. have [Ha Hpos] := minv_align E s a x H Hx.
  destruct (mi_arena E s H a x Hx) as (_ & Hn & _). rewrite /npages in Hn |- *.
  destruct (arena_desc x) as [i|] eqn:Hd.
  - destruct Hl as (d & Hdi & Hin & _ & ->). destruct (mi_desc E s H i d Hdi) as (Hok & _).
    destruct (block_spec a d p Hok Ha Hin) as (k & Hk & -> & Hle & Hr & _). destruct Hok as (H1 & _).
    have Hk0 : 0 <= k * block_size d by apply Z.mul_nonneg_nonneg; lia. rewrite /ARENA_SIZE in Hle |- *. split_and!; try done; lia.
  - destruct Hl as (-> & ->). rewrite /ARENA_SIZE /PGSIZE in Ha |- *. split_and!; [done|lia|lia|lia|].
    rewrite pg_round_down_eq /PGSIZE. dlia.
Qed.
Lemma live_disjoint E s p n q k : minv E s -> live s p n -> live s q k -> p <> q -> p + n <= q \/ q + k <= p.
Proof.
  intros H Hp Hq Hne. destruct (live_range E s p n H Hp) as (a & x & Hx & Ha1 & _ & Ha2 & Hra).
  destruct (live_range E s q k H Hq) as (b & y & Hy & Hb1 & _ & Hb2 & Hrb).
  destruct (decide (a = b)) as [Heq|Hab]; [|have := mi_disj E s H a b x y Hx Hy Hab; lia]. rewrite -Heq in Hy, Hrb, Hb1, Hb2. clear b Heq.
  have Hxy : x = y by congruence. rewrite -Hxy in Hy, Hb2. clear y Hxy Hy.
  have [Ha _] := minv_align E s a x H Hx.
  destruct Hp as (a1 & x1 & Hx1 & Hp). destruct Hq as (a2 & x2 & Hx2 & Hq).
  have Hsame : forall c z r m, arenas s !! c = Some z -> pg_round_down r = a ->
    match arena_desc z with
    | Some i => exists d, descs s !! i = Some d /\ r ∈ blocks c d /\ r ∉ free_list d /\ m = block_size d
    | None => r = c + ARENA_SIZE /\ m = PGSIZE * free_cnt z - ARENA_SIZE end -> c = a.
  { intros c z r m Hz Hr Hl. have [Hc _] := minv_align E s c z H Hz. destruct (arena_desc z) as [i|].
    - destruct Hl as (d & Hdi & Hin & _). destruct (mi_desc E s H i d Hdi) as (Hok & _).
      destruct (block_spec c d r Hok Hc Hin) as (_ & _ & _ & _ & Hr' & _). congruence.
    - destruct Hl as (-> & _). rewrite pg_round_down_eq /ARENA_SIZE /PGSIZE in Hr. rewrite /PGSIZE in Hc. dlia. }
  have E1 := Hsame a1 x1 p n Hx1 Hra Hp. have E2 := Hsame a2 x2 q k Hx2 Hrb Hq. subst a1 a2.
  have Hx12 : x1 = x2 by congruence. subst x2. destruct (arena_desc x1) as [i|]; [|destruct Hp as (-> & _), Hq as (-> & _); done].
  destruct Hp as (d & Hdi & Hpin & _ & ->). destruct Hq as (d' & Hdi' & Hqin & _ & ->).
  have Hdd : d = d' by congruence. subst d'. destruct (mi_desc E s H i d Hdi) as (Hok & _).
  destruct (block_spec a d p Hok Ha Hpin) as (k1 & Hk1 & -> & _). destruct (block_spec a d q Hok Ha Hqin) as (k2 & Hk2 & -> & _).
  destruct Hok as (H16 & _). destruct (Z.lt_trichotomy k1 k2) as [Hlt|[-> |Hgt]]; [left|done|right]; nia.
Qed.

(** Where malloc.c keeps its own data: the [struct arena] at the start of a page, and the
    free blocks, whose first bytes are the links of the free list. *)
Definition bookkeeping (s : mstate) (b k : Z) : Prop :=
  (exists x, arenas s !! b = Some x /\ k = ARENA_SIZE) \/
  exists i d, descs s !! i = Some d /\ b ∈ free_list d /\ k = block_size d.
Lemma live_bookkeeping E s p n b k : minv E s -> live s p n -> bookkeeping s b k -> p + n <= b \/ b + k <= p.
Proof.
  intros H Hp Hb. destruct (live_range E s p n H Hp) as (a & x & Hx & Ha1 & _ & Ha2 & Hra). destruct Hb as [(y & Hy & ->)|(i & d & Hi & Hin & ->)].
  - destruct (decide (a = b)) as [->|Hab]; [rewrite /ARENA_SIZE; lia|]. have [_ [Hy1 _]] := mi_arena E s H b y Hy. have := mi_disj E s H a b x y Hx Hy Hab. rewrite /ARENA_SIZE. unfold PGSIZE in *. lia.
  - destruct (mi_desc E s H i d Hi) as (Hok & _ & Hfree). destruct (Hfree b Hin) as (y & Hy & Hyd & Hbl). set (c := pg_round_down b) in *.
    have [Hc _] := minv_align E s c y H Hy. destruct (block_spec c d b Hok Hc Hbl) as (k1 & Hk1 & Eb & Hb1 & _ & Hb2).
    destruct (decide (a = c)) as [Eac|Hab].
    2:{ have [_ [Hy1 _]] := mi_arena E s H c y Hy. have := mi_disj E s H a c x y Hx Hy Hab. have Hk0 : 0 <= k1 * block_size d by (apply Z.mul_nonneg_nonneg; [lia|]; destruct Hok; lia). unfold PGSIZE, ARENA_SIZE in *. lia. }
    destruct Hp as (a1 & x1 & Hx1 & Hp). have E1 : a1 = c.
    { have [Ha _] := minv_align E s a1 x1 H Hx1. rewrite -Eac -Hra. destruct (arena_desc x1) as [j|].
      - destruct Hp as (d1 & Hd1 & Hp1 & _). destruct (mi_desc E s H j d1 Hd1) as (Hok1 & _). by destruct (block_spec a1 d1 p Hok1 Ha Hp1) as (_ & _ & _ & _ & Hr' & _).
      - destruct Hp as (-> & _). rewrite pg_round_down_eq /ARENA_SIZE /PGSIZE. rewrite /PGSIZE in Ha. dlia. }
    subst a1. have Exy : x1 = y by congruence. subst x1. rewrite Hyd in Hp. destruct Hp as (d1 & Hd1 & Hp1 & Hnf & ->). have Ed : d1 = d by congruence. subst d1.
    destruct (block_spec c d p Hok Hc Hp1) as (k2 & Hk2 & Ep & _). have Hne : p <> b by intros ->. destruct Hok as (H16 & _).
    have Hk : k1 <> k2 by congruence. destruct (Z.lt_ge_cases k2 k1); [left|right]; rewrite Ep Eb; nia.
Qed.

(** ** Operations on one arena *)
Section arena.
Context (s : mstate) (a : Z) (x : arena) (i : nat) (d : desc).
Context (Hx : arenas s !! a = Some x) (Hm : magic x = ARENA_MAGIC) (Hpos : 0 < a) (Ha : a mod PGSIZE = 0).
Context (Hd : arena_desc x = Some i) (Hi : descs s !! i = Some d) (Hok : desc_ok d).

Lemma get_arena_ok : get_arena s a = Ok x.
Proof. rewrite /get_arena (proj2 (Z.eqb_neq a 0)); [lia|]. cbn [negb ASSERT obind]. rewrite Hx. cbn [oget obind]. by rewrite Hm Z.eqb_refl. Qed.

Lemma block_to_arena_ok b : b ∈ blocks a d -> block_to_arena s b = Ok (a, x).
Proof.
  intros Hb. destruct (block_spec a d b Hok Ha Hb) as (k & Hk & _ & Hle & Hr & Ho).
  rewrite /block_to_arena Hr get_arena_ok. cbn [obind]. rewrite Hd Hi. cbn [oget obind]. rewrite Ho.
  have -> : ARENA_SIZE + k * block_size d - ARENA_SIZE = k * block_size d by lia. destruct Hok as (H16 & _ & _).
  rewrite wrap_small; [|rewrite Z.mod_mul; [lia|done]]. rewrite /PGSIZE /ARENA_SIZE in Hle. nia.
Qed.

Lemma arena_to_block_ok k : k < blocks_per_arena d -> arena_to_block s a k = Ok (a + ARENA_SIZE + k * block_size d).
Proof.
  intros Hk. rewrite /arena_to_block get_arena_ok. cbn [obind]. rewrite Hd. cbn [oget obind]. rewrite Hi. cbn [oget obind].
  by rewrite (proj2 (Z.ltb_lt _ _) Hk).
Qed.

Lemma push_blocks_ok n k l : k + Z.of_nat n <= blocks_per_arena d ->
  push_blocks n s a k l = Ok (l ++ ((fun i => a + ARENA_SIZE + i * block_size d) <$> seqZ k (Z.of_nat n))).
Proof.
  revert k l. induction n as [|n IH]; intros k l Hk; [by rewrite /= app_nil_r|]. cbn [push_blocks].
  rewrite arena_to_block_ok; [lia|]. cbn [obind]. rewrite IH; [lia|]. f_equal. rewrite -app_assoc. f_equal.
  rewrite (seqZ_cons k); [lia|]. rewrite fmap_cons /=. do 3 f_equal; lia.
Qed.

Lemma remove_blocks_ok n k l : k + Z.of_nat n <= blocks_per_arena d -> NoDup l ->
  (forall j, k <= j < k + Z.of_nat n -> a + ARENA_SIZE + j * block_size d ∈ l) ->
  remove_blocks n s a k l =
    Ok (filter (fun b => b ∉ ((fun i => a + ARENA_SIZE + i * block_size d) <$> seqZ k (Z.of_nat n))) l).
Proof.
  revert k l. induction n as [|n IH]; intros k l Hk Hn Hin.
  { rewrite /= filter_Forall_true //. apply Forall_forall. intros b _. apply not_elem_of_nil. }
  cbn [remove_blocks]. rewrite arena_to_block_ok; [lia|]. cbn [obind]. rewrite bool_decide_true; [apply Hin; lia|].
  rewrite IH; [lia|by apply NoDup_filter| |].
  - intros j Hj. apply list_elem_of_filter. split; [|apply Hin; lia]. destruct Hok as (H16 & _). nia.
  - f_equal. rewrite list_filter_filter. apply list_filter_iff. intros b. rewrite (seqZ_cons k); [lia|].
    rewrite fmap_cons not_elem_of_cons. have -> : Z.pred (Z.of_nat (S n)) = Z.of_nat n by lia.
    have -> : Z.succ k = k + 1 by lia. tauto.
Qed.
End arena.

(** The same arenas and free blocks as before, on other pages. *)
Lemma owned_ext p p' a n : base (kernel_pool p') = base (kernel_pool p) ->
  bit_cnt (used_map (kernel_pool p')) = bit_cnt (used_map (kernel_pool p)) ->
  (forall idx j, a = base (kernel_pool p) + PGSIZE * idx -> idx <= j < idx + n -> used p false j = true -> used p' false j = true) ->
  owned p a n -> owned p' a n.
Proof.
  intros Hb Hc Hu (idx & Ha & Hi & Hle & Hall). exists idx. rewrite Hb Hc. split_and!; [done..|].
  intros j Hj. by apply (Hu idx); [done..|apply Hall].
Qed.

(** Pages that [palloc_get_multiple] returns overlap no arena. *)
Lemma fresh_pages E s idx cnt a x : minv E s -> arenas s !! a = Some x -> 0 < cnt -> 0 <= idx ->
  (forall j, idx <= j < idx + cnt -> used (pal s) false j = false) ->
  let p := base (kernel_pool (pal s)) + PGSIZE * idx in
  a + PGSIZE * npages x <= p \/ p + PGSIZE * cnt <= a.
Proof.
  intros H Hx Hc Hi Hf p. destruct (mi_arena E s H a x Hx) as (_ & Hn & (k & -> & Hk & Hle & Hu)).
  rewrite /p /PGSIZE. destruct (Z.lt_ge_cases (k + npages x) (idx + 1)) as [?|H1]; [lia|].
  destruct (Z.lt_ge_cases (idx + cnt) (k + 1)) as [?|H2]; [lia|]. exfalso.
  have : used (pal s) false (Z.max k idx) = true by apply Hu; lia. by rewrite Hf; [lia|].
Qed.

(** Recording a new arena on fresh pages, with the free blocks [l] of its descriptor. *)
Lemma add_arena E s p' a idx x :
  minv E s -> palloc_wf p' -> base (kernel_pool p') = base (kernel_pool (pal s)) ->
  bit_cnt (used_map (kernel_pool p')) = bit_cnt (used_map (kernel_pool (pal s))) ->
  a = base (kernel_pool (pal s)) + PGSIZE * idx -> 0 <= idx -> 1 <= npages x ->
  idx + npages x <= bit_cnt (used_map (kernel_pool (pal s))) ->
  (forall j, idx <= j < idx + npages x -> used (pal s) false j = false) ->
  (forall j, 0 <= j -> used p' false j = if (idx <=? j) && (j <? idx + npages x) then true else used (pal s) false j) ->
  magic x = ARENA_MAGIC ->
  (forall a1 x1, arenas s !! a1 = Some x1 -> a1 <> a) /\
  (forall a1 x1, <[a := x]> (arenas s) !! a1 = Some x1 ->
     magic x1 = ARENA_MAGIC /\ 1 <= npages x1 /\ owned p' a1 (npages x1)) /\
  (forall a1 a2 x1 x2, <[a := x]> (arenas s) !! a1 = Some x1 -> <[a := x]> (arenas s) !! a2 = Some x2 -> a1 <> a2 ->
    a1 + PGSIZE * npages x1 <= a2 \/ a2 + PGSIZE * npages x2 <= a1).
Proof.
  intros H Hwf Hb Hc Ha Hi Hn Hle Hf Hu Hm.
  have Hfresh : forall a1 x1, arenas s !! a1 = Some x1 -> a1 + PGSIZE * npages x1 <= a \/ a + PGSIZE * npages x <= a1.
  { intros a1 x1 H1. rewrite Ha. apply (fresh_pages E s idx (npages x)); [done|done|lia|done|done]. }
  have Hne : forall a1 x1, arenas s !! a1 = Some x1 -> a1 <> a.
  { intros a1 x1 H1 ->. have := Hfresh a x1 H1. destruct (mi_arena E s H a x1 H1) as (_ & Hn1 & _). rewrite /PGSIZE. lia. }
  split_and!; [done| |].
  - intros a1 x1. destruct (decide (a1 = a)) as [-> | Hna].
    + rewrite lookup_insert_eq. intros [= <-]. split_and!; [done..|]. exists idx. rewrite Hb Hc. split_and!; [done..|].
      intros j Hj. rewrite Hu; [lia|]. destruct (Z.leb_spec idx j), (Z.ltb_spec j (idx + npages x)); simpl; try done; lia.
    + rewrite lookup_insert_ne //. intros H1. destruct (mi_arena E s H a1 x1 H1) as (Hm1 & Hn1 & Ho). split_and!; [done..|].
      destruct Ho as (k & Hk & Hk0 & Hkl & Hall). exists k. rewrite Hb Hc. split_and!; [done..|].
      intros j Hj. rewrite Hu; [lia|]. rewrite Hall //. by destruct (_ && _).
  - intros a1 a2 x1 x2 H1 H2 H12. destruct (decide (a1 = a)) as [-> | Hn1]; destruct (decide (a2 = a)) as [-> | Hn2].
    + done.
    + rewrite lookup_insert_eq in H1. rewrite lookup_insert_ne // in H2. injection H1 as <-. have := Hfresh _ _ H2. lia.
    + rewrite lookup_insert_eq in H2. rewrite lookup_insert_ne // in H1. injection H2 as <-. have := Hfresh _ _ H1. lia.
    + rewrite !lookup_insert_ne // in H1 H2. by apply (mi_disj E s H a1 a2).
Qed.

(** ** Changing one free list *)

(** The arena of a live block is where its address says. *)
Lemma live_arena E s q m : minv E s -> live s q m ->
  exists x, arenas s !! pg_round_down q = Some x /\
    match arena_desc x with
    | Some i => exists d, descs s !! i = Some d /\ q ∈ blocks (pg_round_down q) d /\ q ∉ free_list d /\ m = block_size d
    | None => q = pg_round_down q + ARENA_SIZE /\ m = PGSIZE * free_cnt x - ARENA_SIZE
    end.
Proof.
  intros H (a & x & Hx & Hl). have [Ha _] := minv_align E s a x H Hx.
  have Hr : pg_round_down q = a.
  { destruct (arena_desc x) as [i|].
    - destruct Hl as (d & Hdi & Hin & _). destruct (mi_desc E s H i d Hdi) as (Hok & _).
      by destruct (block_spec a d q Hok Ha Hin) as (_ & _ & _ & _ & Hr & _).
    - destruct Hl as (-> & _). rewrite pg_round_down_eq /ARENA_SIZE /PGSIZE. rewrite /PGSIZE in Ha. dlia. }
  rewrite Hr. by exists x.
Qed.

Section update.
Context (E : option Z) (s : mstate) (a : Z) (x : arena) (i : nat) (d : desc) (H : minv E s).
Context (Hx : arenas s !! a = Some x) (Hd : arena_desc x = Some i) (Hi : descs s !! i = Some d).

Lemma live_block q m : q ∈ blocks a d -> live s q m <-> q ∉ free_list d /\ m = block_size d.
Proof.
  intros Hq. have [Ha _] := minv_align E s a x H Hx. destruct (mi_desc E s H i d Hi) as (Hok & _).
  destruct (block_spec a d q Hok Ha Hq) as (_ & _ & _ & _ & Hr & _). split.
  - intros Hl. destruct (live_arena E s q m H Hl) as (x' & Hx' & Hl'). rewrite Hr in Hx', Hl'.
    have Hxx : x' = x by congruence. subst x'. rewrite Hd in Hl'. destruct Hl' as (d' & Hi' & _ & Hn & ->).
    have Hdd : d' = d by congruence. by subst.
  - intros (Hn & ->). exists a, x. split; [done|]. rewrite Hd. by exists d.
Qed.

(** The free blocks of an arena are some of its blocks. *)
Lemma free_in_blocks b : b ∈ free_in a d -> b ∈ blocks a d.
Proof.
  intros [Hr Hb]%list_elem_of_filter. destruct (mi_desc E s H i d Hi) as (_ & _ & Hf).
  destruct (Hf b Hb) as (y & _ & _ & Hin). by rewrite Hr in Hin.
Qed.
Lemma free_in_le l : NoDup l -> (forall b, b ∈ l -> b ∈ blocks a d) -> Z.of_nat (length l) <= blocks_per_arena d.
Proof.
  intros Hn Hin. destruct (mi_desc E s H i d Hi) as (Hok & _). rewrite -(length_blocks a d Hok).
  apply inj_le. apply submseteq_length. by apply NoDup_submseteq.
Qed.

(** Replacing the free list [free_list d] by [l], which differs in blocks of arena [a] only. *)
Context (l : list Z) (Hl : NoDup l) (Hin : forall b, b ∈ l -> b ∈ free_list d \/ b ∈ blocks a d).
Context (Hother : forall a1, a1 <> a -> filter (fun b => pg_round_down b = a1) l = free_in a1 d).
Let n : Z := Z.of_nat (length (filter (fun b => pg_round_down b = a) l)).
Let s' : mstate := put_arena (put_desc s i (set_free_list d l)) a (mk_arena (magic x) (arena_desc x) n).

Lemma update_desc j d' : descs s' !! j = Some d' ->
  (j = i /\ d' = set_free_list d l) \/ (j <> i /\ descs s !! j = Some d').
Proof.
  rewrite /s' /=. destruct (decide (j = i)) as [-> | Hne].
  - rewrite list_lookup_insert_eq; [by eapply lookup_lt_Some|]. intros [= <-]. by left.
  - rewrite list_lookup_insert_ne //. by right.
Qed.
Lemma update_desc_i : descs s' !! i = Some (set_free_list d l).
Proof. rewrite /s' /= list_lookup_insert_eq //. by eapply lookup_lt_Some. Qed.
Lemma update_arena a1 x1 : arenas s' !! a1 = Some x1 ->
  exists x0, arenas s !! a1 = Some x0 /\ arena_desc x1 = arena_desc x0 /\ magic x1 = magic x0 /\ npages x1 = npages x0 /\
    (a1 <> a -> x1 = x0) /\ (a1 = a -> free_cnt x1 = n).
Proof.
  rewrite /s' /=. destruct (decide (a1 = a)) as [-> | Hne].
  - rewrite lookup_insert_eq. intros [= <-]. exists x. split_and!; try done. by rewrite /npages /= Hd.
  - rewrite lookup_insert_ne //. intros H1. by exists x1.
Qed.

Lemma update_inv : E = None \/ E = Some a -> n < blocks_per_arena d -> minv None s'.
Proof.
  intros HE Hlt. have [Ha _] := minv_align E s a x H Hx. destruct (mi_desc E s H i d Hi) as (Hok & _ & Hf). split.
  - apply (mi_pal E s H).
  - have Hsome : forall c y, arenas s !! c = Some y -> exists y', arenas s' !! c = Some y' /\ arena_desc y' = arena_desc y.
    { intros c y Hy. rewrite /s' /=. destruct (decide (c = a)) as [-> | Hne].
      - rewrite lookup_insert_eq. eexists. split; [done|]. simpl. congruence.
      - rewrite lookup_insert_ne //. eauto. }
    intros j d' [(-> & ->)|(Hji & Hj)]%update_desc.
    + split_and!; [done..|]. intros b Hb. change (b ∈ l) in Hb. change (blocks (pg_round_down b) (set_free_list d l)) with (blocks (pg_round_down b) d).
      destruct (Hin b Hb) as [Hb'|Hb'].
      * destruct (Hf b Hb') as (y & Hy & Hyd & Hbl). destruct (Hsome _ _ Hy) as (y' & Hy' & Hyd'). exists y'. split_and!; [done|congruence|done].
      * destruct (block_spec a d b Hok Ha Hb') as (_ & _ & _ & _ & Hr & _). rewrite Hr.
        destruct (Hsome a x Hx) as (y' & Hy' & Hyd'). exists y'. split_and!; [done|congruence|done].
    + destruct (mi_desc E s H j d' Hj) as (Hok' & Hn' & Hf'). split_and!; [done..|]. intros b Hb.
      destruct (Hf' b Hb) as (y & Hy & Hyd & Hbl). destruct (Hsome _ _ Hy) as (y' & Hy' & Hyd'). exists y'. split_and!; [done|congruence|done].
  - intros a1 x1 (x0 & Hx0 & _ & Hm & Hn & _)%update_arena. rewrite Hm Hn. by apply (mi_arena E s H).
  - intros a1 x1 i1 H1 Hd1. destruct (update_arena a1 x1 H1) as (x0 & Hx0 & Hdd & _ & _ & Hsame & Hcnt).
    destruct (mi_small E s H a1 x0 i1 Hx0 ltac:(congruence)) as (d1 & Hi1 & Hc1 & Hlt1).
    destruct (decide (a1 = a)) as [-> | Hne].
    + have Hxx : x0 = x by congruence. subst x0. have Hii : i1 = i by congruence. subst i1.
      exists (set_free_list d l). rewrite update_desc_i. split_and!; [done|by rewrite (Hcnt eq_refl)|]. intros _. by rewrite (Hcnt eq_refl).
    + rewrite (Hsame Hne). destruct (decide (i1 = i)) as [-> | Hni].
      * have Hde : d1 = d by congruence. subst d1. exists (set_free_list d l). rewrite update_desc_i. split_and!; [done| |].
        -- by rewrite {1}/free_in /= Hother.
        -- intros _. apply Hlt1. destruct HE as [-> | ->]; congruence.
      * exists d1. rewrite /s' /= list_lookup_insert_ne //. split_and!; [done..|]. intros _. apply Hlt1. destruct HE as [-> | ->]; congruence.
  - intros a1 a2 x1 x2 (y1 & Hy1 & _ & _ & Hn1 & _)%update_arena (y2 & Hy2 & _ & _ & Hn2 & _)%update_arena Hne.
    rewrite Hn1 Hn2. by apply (mi_disj E s H).
Qed.

Lemma update_live q m : (forall b, b ∈ free_list d -> b ∈ l \/ b ∈ blocks a d) ->
  live s' q m <-> (q ∈ blocks a d /\ q ∉ l /\ m = block_size d) \/ (q ∉ blocks a d /\ live s q m).
Proof.
  intros Hback. have [Ha _] := minv_align E s a x H Hx. destruct (mi_desc E s H i d Hi) as (Hok & _).
  destruct (decide (q ∈ blocks a d)) as [Hq|Hq].
  - split; [|intros [(_ & Hnl & ->)|[? _]]; [|done]].
    + intros (a1 & x1 & H1 & Hl1). left. destruct (update_arena a1 x1 H1) as (x0 & Hx0 & Hdd & _ & _ & Hsame & _).
      have [Ha1 _] := minv_align E s a1 x0 H Hx0. rewrite Hdd in Hl1.
      have Haa : a1 = a.
      { destruct (block_spec a d q Hok Ha Hq) as (_ & _ & _ & _ & Hr & _). rewrite -Hr.
        destruct (arena_desc x0) as [i1|] eqn:Hd1.
        - destruct Hl1 as (d1 & Hi1 & Hq1 & _). have Hg : desc_ok d1 /\ q ∈ blocks a1 d1.
          { destruct (update_desc i1 d1 Hi1) as [(-> & ->)|(_ & Hj)]; [done|]. by destruct (mi_desc E s H i1 d1 Hj) as (? & _). }
          destruct Hg as [Hok1 Hq1']. by destruct (block_spec a1 d1 q Hok1 Ha1 Hq1') as (_ & _ & _ & _ & Hr1 & _).
        - destruct Hl1 as (-> & _). rewrite pg_round_down_eq /ARENA_SIZE /PGSIZE. rewrite /PGSIZE in Ha1. dlia. }
      subst a1. have Hxx : x0 = x by congruence. subst x0. rewrite Hd in Hl1. destruct Hl1 as (d1 & Hi1 & _ & Hn1 & ->).
      rewrite update_desc_i in Hi1. injection Hi1 as <-. done.
    + exists a, (mk_arena (magic x) (arena_desc x) n). rewrite /s' /= lookup_insert_eq. split; [done|]. rewrite Hd.
      exists (set_free_list d l). by rewrite -/(descs s') update_desc_i.
  - have Hql : q ∈ l <-> q ∈ free_list d.
    { split; intros Hql; [by destruct (Hin q Hql)|by destruct (Hback q Hql)]. }
    have Hcase : forall a1 i1 m1, (exists d1, descs s' !! i1 = Some d1 /\ q ∈ blocks a1 d1 /\ q ∉ free_list d1 /\ m1 = block_size d1) <->
      (exists d1, descs s !! i1 = Some d1 /\ q ∈ blocks a1 d1 /\ q ∉ free_list d1 /\ m1 = block_size d1).
    { intros a1 i1 m1. destruct (decide (i1 = i)) as [-> | Hni].
      - rewrite update_desc_i Hi. split; intros (d1 & [= <-] & H1 & H2 & ->); eexists; (split; [done|]); split_and!; try done.
        + by rewrite -Hql.
        + by rewrite /= Hql.
      - rewrite /s' /= list_lookup_insert_ne //. }
    split; [intros (a1 & x1 & H1 & Hl1); right; split; [done|]|intros [[? _]|(_ & (a1 & x1 & H1 & Hl1))]; [done|]].
    + destruct (update_arena a1 x1 H1) as (x0 & Hx0 & Hdd & _ & _ & Hsame & _). exists a1, x0. split; [done|].
      rewrite Hdd in Hl1. destruct (arena_desc x0) as [i1|] eqn:Hd1; [by apply Hcase|].
      destruct (decide (a1 = a)) as [-> | Hne]; [|by rewrite -(Hsame Hne)]. congruence.
    + destruct (decide (a1 = a)) as [-> | Hne].
      * exists a, (mk_arena (magic x) (arena_desc x) n). rewrite /s' /= lookup_insert_eq. split; [done|].
        have Hxx : x1 = x by congruence. subst x1. rewrite Hd in Hl1 |- *. by apply Hcase.
      * exists a1, x1. rewrite /s' /= lookup_insert_ne //. split; [done|]. destruct (arena_desc x1); [by apply Hcase|done].
Qed.
End update.

(** ** Operations *)
Definition locks (s : mstate) : list bool := desc_lock <$> descs s.

(** [list_pop_front] and [a->free_cnt--]. *)
Lemma take_block_ok E s i d b l : minv E s -> descs s !! i = Some d -> free_list d = b :: l ->
  E = None \/ E = Some (pg_round_down b) ->
  exists s', take_block s i = Ok (b, s') /\ minv None s' /\ locks s' = locks s /\ pal s' = pal s /\ 0 < b /\
    (forall m, ~ live s b m) /\ (forall q m, live s' q m <-> live s q m \/ (q = b /\ m = block_size d)).
Proof.
  intros H Hi Hfl HE. destruct (mi_desc E s H i d Hi) as (Hok & Hnd & Hf). rewrite Hfl in Hnd, Hf.
  destruct (Hf b (list_elem_of_here _ _)) as (x & Hx & Hxd & Hb). set a := pg_round_down b in Hx, Hb, HE |- *.
  have [Ha Hpos] := minv_align E s a x H Hx. destruct (mi_arena E s H a x Hx) as (Hm & _).
  destruct (mi_small E s H a x i Hx Hxd) as (d' & Hi' & Hcnt & _). have Hdd : d' = d by congruence. subst d'.
  apply NoDup_cons in Hnd as [Hbl Hnd].
  have Hlen : length (free_in a d) = S (length (filter (fun c => pg_round_down c = a) l)).
  { by rewrite /free_in Hfl filter_cons_True. }
  have Hle : Z.of_nat (length (free_in a d)) <= blocks_per_arena d.
  { apply (free_in_le E s a i d H Hi); [|by apply (free_in_blocks E s a i d H Hi)]. apply NoDup_filter. rewrite Hfl. by apply NoDup_cons. }
  destruct (Hok) as (H16 & _ & Hsz). rewrite /PGSIZE /ARENA_SIZE in Hsz.
  have Hw : u32 (free_cnt x - 1) = Z.of_nat (length (filter (fun c => pg_round_down c = a) l)).
  { rewrite Hcnt Hlen wrap_small; [nia|lia]. }
  have Hin : forall c, c ∈ l -> c ∈ free_list d \/ c ∈ blocks a d by intros c Hc; left; rewrite Hfl; by apply list_elem_of_further.
  have Hoth : forall a1, a1 <> a -> filter (fun c => pg_round_down c = a1) l = free_in a1 d.
  { intros a1 Hne. by rewrite /free_in Hfl filter_cons_False. }
  have Hbd : forall m, live s b m <-> b ∉ free_list d /\ m = block_size d by intros m; apply (live_block E s a x i d H Hx Hxd Hi).
  rewrite /take_block Hi. cbn [oget obind]. rewrite Hfl.
  rewrite (block_to_arena_ok (put_desc s i (set_free_list d l)) a x i (set_free_list d l)) //;
    [by rewrite /= list_lookup_insert_eq //; eapply lookup_lt_Some|]. cbn [obind].
  eexists. split; [done|]. rewrite Hw. split; [|split; [|split; [done|split; [|split]]]].
  - apply (update_inv E s a x i d H Hx Hxd Hi l Hnd Hin Hoth); [done|]. lia.
  - rewrite /locks /= list_fmap_insert /=. apply list_insert_id. by rewrite list_lookup_fmap Hi.
  - destruct (block_spec a d b Hok Ha Hb) as (k & Hk & Hbk & _). rewrite /ARENA_SIZE in Hbk. nia.
  - intros m [Hn _]%Hbd. apply Hn. rewrite Hfl. apply list_elem_of_here.
  - intros q m. rewrite (update_live E s a x i d H Hx Hxd Hi l Hin).
    { intros c Hc. rewrite Hfl in Hc. apply elem_of_cons in Hc as [-> | Hc]; [by right|by left]. }
    destruct (decide (q ∈ blocks a d)) as [Hq|Hq].
    + rewrite (live_block E s a x i d H Hx Hxd Hi) // Hfl not_elem_of_cons. destruct (decide (q = b)) as [-> | Hqb]; tauto.
    + split; [intros [[? _]|[_ ?]]; [done|by left]|]. intros [Hl | [-> ->]]; [right; done|done].
Qed.

(** A new arena when the free list is empty. *)
Lemma new_arena_ok s i d : minv None s -> descs s !! i = Some d ->
  exists ok s', new_arena s i = Ok (ok, s') /\ locks s' = locks s /\ (forall q m, live s' q m <-> live s q m) /\
    (forall c, mem (pal s') c = mem (pal s) c) /\
    if ok then exists E d' b l, minv E s' /\ descs s' !! i = Some d' /\ block_size d' = block_size d /\
                 free_list d' = b :: l /\ (E = None \/ E = Some (pg_round_down b))
    else minv None s'.
Proof.
  intros H Hi. destruct (mi_desc None s H i d Hi) as (Hok & Hnd & Hf). rewrite /new_arena Hi. cbn [oget obind].
  destruct (free_list d) as [|b l] eqn:Hfl.
  2: { exists true, s. split_and!; [done..|]. exists None, d, b, l. split_and!; try done. by left. }
  destruct (palloc_get_ok (pal s) 0 1 (mi_pal None s H) eq_refl ltac:(lia)) as (a & p & Hg & Hwp & Hb & Hc & _ & Hr).
  rewrite /palloc_get_page Hg. cbn [obind]. cbn [flag Z.land Z.eqb negb get_pool] in Hb, Hc, Hr.
  destruct Hr as [(-> & -> & _)|(idx & Ha & Hpos & Hidx & Hle & Hfree & Hused & Hmem)].
  { exists false, s. destruct s; simpl. by split_and!. }
  rewrite (proj2 (Z.eqb_neq a 0)); [lia|]. set x := mk_arena ARENA_MAGIC (Some i) (blocks_per_arena d).
  set s1 := put_arena (set_pal s p) a x.
  have Hal : a mod PGSIZE = 0.
  { have [_ [_ [Ha0 _]]] := wf_pool (pal s) false (mi_pal None s H). by rewrite Ha (Z.mul_comm PGSIZE) Z.mod_add. }
  destruct (add_arena None s p a idx x H Hwp Hb Hc Ha Hidx ltac:(done) Hle Hfree Hused eq_refl) as (Hne & Hown & Hdis).
  destruct (Hok) as (H16 & Hn1 & Hsz).
  rewrite (push_blocks_ok s1 a x i d); [by rewrite /s1 /= lookup_insert_eq|done|done|done|done|lia|]. cbn [obind app].
  rewrite Z2Nat.id; [lia|]. fold (blocks a d).
  have Hrd : forall c, c ∈ blocks a d -> pg_round_down c = a.
  { intros c Hcb. by destruct (block_spec a d c Hok Hal Hcb) as (_ & _ & _ & _ & ? & _). }
  set d' := set_free_list d (blocks a d). set s' := put_desc s1 i d'.
  have Hdi : descs s' !! i = Some d' by rewrite /s' /= list_lookup_insert_eq //; eapply lookup_lt_Some.
  have Hdj : forall j, j <> i -> descs s' !! j = descs s !! j by intros j Hj; rewrite /s' /= list_lookup_insert_ne.
  have Harn : forall c y, arenas s !! c = Some y -> arenas s' !! c = Some y.
  { intros c y Hy. rewrite /s' /s1 /= lookup_insert_ne //. apply not_eq_sym. by eapply Hne. }
  exists true, s'. split; [done|]. split.
  { rewrite /locks /s' /s1 /= list_fmap_insert /=. apply list_insert_id. by rewrite list_lookup_fmap Hi. }
  split_and!.
  - intros q m. split.
    + intros (a1 & x1 & H1 & Hl). rewrite /s' /s1 /= in H1. destruct (decide (a1 = a)) as [-> | Hna].
      * rewrite lookup_insert_eq in H1. injection H1 as <-. simpl in Hl. rewrite Hdi in Hl. destruct Hl as (d1 & [= <-] & Hq & Hnq & _). done.
      * rewrite lookup_insert_ne // in H1. exists a1, x1. split; [done|]. destruct (arena_desc x1) as [j|]; [|done].
        destruct (decide (j = i)) as [-> | Hji]; [|by rewrite -(Hdj j Hji)]. destruct Hl as (d1 & Hd1 & Hq & Hnq & ->).
        rewrite Hdi in Hd1. injection Hd1 as <-. exists d. rewrite Hfl. split_and!; try done. apply not_elem_of_nil.
    + intros (a1 & x1 & H1 & Hl). exists a1, x1. split; [by apply Harn|]. destruct (arena_desc x1) as [j|]; [|done].
      destruct (decide (j = i)) as [-> | Hji]; [|by rewrite (Hdj j Hji)]. destruct Hl as (d1 & Hd1 & Hq & Hnq & ->).
      have Hdd : d1 = d by congruence. subst d1. exists d'. split_and!; try done. simpl. intros Hqa. apply (Hne a1 x1 H1).
      rewrite -(Hrd q Hqa). have [Ha1 _] := minv_align None s a1 x1 H H1.
      by destruct (block_spec a1 d q Hok Ha1 Hq) as (_ & _ & _ & _ & ? & _).
  - intros c. by rewrite /s' /s1 /= Hmem.
  - destruct (blocks a d) as [|b l] eqn:Hbl.
    { exfalso. have := length_blocks a d Hok. rewrite Hbl /=. lia. }
    exists (Some a), d', b, l. split_and!; [|done|done|done|right; rewrite (Hrd b) //; apply list_elem_of_here].
    rewrite -Hbl in d' s' Hdi Hdj Harn Hrd |- *. split.
    + done.
    + intros j dj Hj. destruct (decide (j = i)) as [-> | Hji].
      * rewrite Hdi in Hj. injection Hj as <-. split_and!; [done|by apply blocks_NoDup|]. intros c Hcb. rewrite (Hrd c Hcb).
        exists x. split_and!; [|done|done]. by rewrite /s' /s1 /= lookup_insert_eq.
      * rewrite (Hdj j Hji) in Hj. destruct (mi_desc None s H j dj Hj) as (Hokj & Hnj & Hfj). split_and!; [done..|]. intros c Hcj.
        destruct (Hfj c Hcj) as (y & Hy & Hyd & Hbj). exists y. split_and!; [by apply Harn|done|done].
    + intros a1 x1 H1. by apply Hown.
    + intros a1 x1 j H1 Hj. rewrite /s' /s1 /= in H1. destruct (decide (a1 = a)) as [-> | Hna].
      * rewrite lookup_insert_eq in H1. injection H1 as <-. injection Hj as <-. exists d'. split_and!; [done| |done].
        rewrite /free_in /d' /=. rewrite filter_Forall_true; [by apply Forall_forall|]. by rewrite length_blocks.
      * rewrite lookup_insert_ne // in H1. destruct (mi_small None s H a1 x1 j H1 Hj) as (dj & Hdj1 & Hcj & Hltj).
        destruct (decide (j = i)) as [-> | Hji].
        -- have Hdd : dj = d by congruence. subst dj. exists d'. split_and!; [done| |intros _; by apply Hltj].
           rewrite Hcj. do 2 f_equal. rewrite /free_in Hfl /d' /=. symmetry. apply filter_Forall_false.
           apply Forall_forall. intros c Hcb. rewrite (Hrd c Hcb). by apply not_eq_sym.
        -- exists dj. rewrite (Hdj j Hji). split_and!; [done..|intros _; by apply Hltj].
    + intros a1 a2 x1 x2 H1 H2 H12. by apply (Hdis a1 a2).
Qed.

(** A block of more than a page. *)
Lemma malloc_big_ok s size : minv None s -> 0 < size -> size + ARENA_SIZE + PGSIZE <= 2 ^ 32 ->
  exists p s', malloc_big s size = Ok (p, s') /\ minv None s' /\ locks s' = locks s /\
    (forall c, mem (pal s') c = mem (pal s) c) /\
    ((p = 0 /\ forall q m, live s' q m <-> live s q m) \/
     exists n, 0 < p /\ size <= n /\ (forall m, ~ live s p m) /\
       forall q m, live s' q m <-> live s q m \/ (q = p /\ m = n)).
Proof.
  intros H Hs Hlt. rewrite /malloc_big. rewrite /ARENA_SIZE /PGSIZE in Hlt. set cnt := _ / PGSIZE.
  have Hcnt : 1 <= cnt /\ size + 12 <= PGSIZE * cnt.
  { rewrite /cnt /ARENA_SIZE /PGSIZE. rewrite (wrap_small 32 (size + 12)); [lia|]. rewrite wrap_small; [lia|]. dlia. }
  destruct (palloc_get_ok (pal s) 0 cnt (mi_pal None s H) eq_refl ltac:(lia)) as (a & p & Hg & Hwp & Hb & Hc & _ & Hr).
  rewrite Hg. cbn [obind]. cbn [flag Z.land Z.eqb negb get_pool] in Hb, Hc, Hr.
  destruct Hr as [(-> & -> & _)|(idx & Ha & Hpos & Hidx & Hle & Hfree & Hused & Hmem)].
  { exists 0, s. destruct s; simpl. split_and!; try done. by left. }
  rewrite (proj2 (Z.eqb_neq a 0)); [lia|]. set x := mk_arena ARENA_MAGIC None cnt.
  have Hal : a mod PGSIZE = 0.
  { have [_ [_ [Ha0 _]]] := wf_pool (pal s) false (mi_pal None s H). by rewrite Ha (Z.mul_comm PGSIZE) Z.mod_add. }
  destruct (add_arena None s p a idx x H Hwp Hb Hc Ha Hidx (proj1 Hcnt) Hle Hfree Hused eq_refl) as (Hne & Hown & Hdis).
  set s' := put_arena (set_pal s p) a x.
  have Harn : forall c y, arenas s !! c = Some y -> arenas s' !! c = Some y.
  { intros c y Hy. rewrite /s' /= lookup_insert_ne //. apply not_eq_sym. by eapply Hne. }
  exists (a + ARENA_SIZE), s'. split; [done|]. split_and!; [|done|intros c; by rewrite /s' /= Hmem|].
  - split.
    + done.
    + intros j dj Hj. destruct (mi_desc None s H j dj Hj) as (Hokj & Hnj & Hfj). split_and!; [done..|]. intros c Hcj.
      destruct (Hfj c Hcj) as (y & Hy & Hyd & Hbj). exists y. split_and!; [by apply Harn|done|done].
    + intros a1 x1 H1. by apply Hown.
    + intros a1 x1 j H1 Hj. rewrite /s' /= in H1. destruct (decide (a1 = a)) as [-> | Hna].
      * rewrite lookup_insert_eq in H1. injection H1 as <-. done.
      * rewrite lookup_insert_ne // in H1. by apply (mi_small None s H a1 x1 j).
    + intros a1 a2 x1 x2 H1 H2 H12. by apply (Hdis a1 a2).
  - right. exists (PGSIZE * cnt - ARENA_SIZE). rewrite /ARENA_SIZE. destruct Hcnt as [Hcnt1 Hcnt2]. split_and!; [lia|clearbody cnt; lia| |].
    + intros m Hl. destruct (live_arena None s _ m H Hl) as (y & Hy & _). apply (Hne _ y Hy).
      rewrite pg_round_down_eq /PGSIZE. rewrite /PGSIZE in Hal. dlia.
    + intros q m. split.
      * intros (a1 & x1 & H1 & Hl). rewrite /s' /= in H1. destruct (decide (a1 = a)) as [-> | Hna].
        -- rewrite lookup_insert_eq in H1. injection H1 as <-. right. by destruct Hl.
        -- rewrite lookup_insert_ne // in H1. left. exists a1, x1. by split.
      * intros [(a1 & x1 & H1 & Hl)|[-> ->]]; [exists a1, x1; split; [by apply Harn|done]|].
        exists a, x. split; [by rewrite /s' /= lookup_insert_eq|done].
Qed.

(** ** Freeing *)

(** Giving the pages of an arena without live blocks back. *)
Lemma drop_arena s a x p' ds : minv None s -> arenas s !! a = Some x -> palloc_wf p' ->
  base (kernel_pool p') = base (kernel_pool (pal s)) ->
  bit_cnt (used_map (kernel_pool p')) = bit_cnt (used_map (kernel_pool (pal s))) ->
  (forall j idx, a = base (kernel_pool (pal s)) + PGSIZE * idx -> 0 <= j -> ~ idx <= j < idx + npages x ->
     used p' false j = used (pal s) false j) ->
  length ds = length (descs s) ->
  (forall i d', ds !! i = Some d' -> exists d, descs s !! i = Some d /\
     block_size d' = block_size d /\ blocks_per_arena d' = blocks_per_arena d /\
     free_list d' `sublist_of` free_list d /\
     (forall c, c ∈ free_list d -> c ∈ free_list d' <-> pg_round_down c <> a)) ->
  let s' := mk_mstate p' ds (delete a (arenas s)) in
  minv None s' /\ forall q m, live s' q m <-> live s q m /\ pg_round_down q <> a.
Proof.
  intros H Hx Hwp Hb Hc Hu Hlen Hds s'.
  have Hdesc : forall i d, descs s !! i = Some d -> exists d', ds !! i = Some d' /\
     block_size d' = block_size d /\ blocks_per_arena d' = blocks_per_arena d /\ free_list d' `sublist_of` free_list d /\
     (forall c, c ∈ free_list d -> c ∈ free_list d' <-> pg_round_down c <> a).
  { intros i d Hi. destruct (lookup_lt_is_Some_2 ds i) as [d' Hd']; [rewrite Hlen; by eapply lookup_lt_Some|].
    destruct (Hds i d' Hd') as (d1 & Hd1 & Hrest). have Hdd : d1 = d by congruence. subst d1. eauto. }
  have Hblk : forall c d d', block_size d' = block_size d -> blocks_per_arena d' = blocks_per_arena d -> blocks c d' = blocks c d.
  { intros c d d' H1 H2. by rewrite /blocks H1 H2. }
  split.
  - split.
    + done.
    + intros i d' Hi. destruct (Hds i d' Hi) as (d & Hd & Hbs & Hbp & Hsub & Hmem). destruct (mi_desc None s H i d Hd) as (Hok & Hnd & Hf).
      split_and!; [by rewrite /desc_ok Hbs Hbp|by eapply sublist_NoDup|]. intros c Hcin.
      have Hcd : c ∈ free_list d by eapply sublist_subseteq. destruct (Hf c Hcd) as (y & Hy & Hyd & Hbl). exists y.
      rewrite (Hblk _ d) //. split_and!; [|done|done]. rewrite /s' /= lookup_delete_ne //. apply not_eq_sym. by apply Hmem.
    + intros a1 x1 H1. rewrite /s' /= lookup_delete_Some in H1. destruct H1 as [Hne H1].
      destruct (mi_arena None s H a1 x1 H1) as (Hm1 & Hn1 & (k & Hk & Hk0 & Hkl & Hall)). split_and!; [done..|].
      exists k. rewrite Hb Hc. split_and!; [done..|]. intros j Hj.
      destruct (mi_arena None s H a x Hx) as (_ & Hn & (idx & Hia & Hi0 & Hil & _)).
      rewrite (Hu j idx Hia); [lia| |by apply Hall].
      have := mi_disj None s H a a1 x x1 Hx H1 Hne. rewrite Hk Hia /PGSIZE. lia.
    + intros a1 x1 i H1 Hi. rewrite /s' /= lookup_delete_Some in H1. destruct H1 as [Hne H1].
      destruct (mi_small None s H a1 x1 i H1 Hi) as (d & Hd & Hcnt & Hlt). destruct (Hdesc i d Hd) as (d' & Hd' & Hbs & Hbp & Hsub & Hmem).
      exists d'. rewrite Hbp. split_and!; [done| |intros _; by apply Hlt]. rewrite Hcnt. f_equal. apply Permutation_length.
      apply NoDup_Permutation.
      * apply NoDup_filter. by destruct (mi_desc None s H i d Hd) as (_ & ? & _).
      * apply NoDup_filter. eapply sublist_NoDup; [|exact Hsub]. by destruct (mi_desc None s H i d Hd) as (_ & ? & _).
      * intros c. rewrite !list_elem_of_filter. split; intros [Hr Hcin]; split; try done.
        -- apply Hmem; [done|]. congruence.
        -- by eapply sublist_subseteq.
    + intros a1 a2 x1 x2 H1 H2. rewrite /s' /= in H1 H2. rewrite lookup_delete_Some in H1. rewrite lookup_delete_Some in H2.
      destruct H1 as [_ H1], H2 as [_ H2]. by apply (mi_disj None s H).
  - intros q m. split.
    + intros (a1 & x1 & H1 & Hl). rewrite /s' /= lookup_delete_Some in H1. destruct H1 as [Hne H1].
      have Hls : live s q m.
      { exists a1, x1. split; [done|]. destruct (arena_desc x1) as [i|]; [|done]. destruct Hl as (d' & Hd' & Hq & Hnq & ->).
        destruct (Hds i d' Hd') as (d & Hd & Hbs & Hbp & Hsub & Hmem). exists d. rewrite (Hblk _ d) // in Hq. split_and!; [done..| |done].
        intros Hqd. apply Hnq. apply Hmem; [done|]. have [Ha1 _] := minv_align None s a1 x1 H H1.
        destruct (mi_desc None s H i d Hd) as (Hok & _). destruct (block_spec a1 d q Hok Ha1 Hq) as (_ & _ & _ & _ & Hr & _). congruence. }
      split; [done|]. destruct (live_arena None s q m H Hls) as (y & Hy & _). intros Hra.
      destruct (live_range None s q m H Hls) as (a2 & x2 & H2 & _ & _ & _ & Hr2).
      have [Ha1 _] := minv_align None s a1 x1 H H1. destruct (arena_desc x1) as [i|].
      * destruct Hl as (d' & Hd' & Hq & _). destruct (Hds i d' Hd') as (d & Hd & Hbs & Hbp & _). rewrite (Hblk _ d) // in Hq.
        destruct (mi_desc None s H i d Hd) as (Hok & _). destruct (block_spec a1 d q Hok Ha1 Hq) as (_ & _ & _ & _ & Hr & _). congruence.
      * destruct Hl as (-> & _). rewrite pg_round_down_eq /ARENA_SIZE /PGSIZE in Hra. rewrite /PGSIZE in Ha1. dlia.
    + intros (Hl & Hne). destruct (live_arena None s q m H Hl) as (y & Hy & Hl'). exists (pg_round_down q), y.
      split; [by rewrite /s' /= lookup_delete_ne //; apply not_eq_sym|]. destruct (arena_desc y) as [i|]; [|done].
      destruct Hl' as (d & Hd & Hq & Hnq & ->). destruct (Hdesc i d Hd) as (d' & Hd' & Hbs & Hbp & Hsub & _). exists d'.
      rewrite (Hblk _ d) // Hbs. split_and!; [done..| |done]. intros Hqd. apply Hnq. by eapply sublist_subseteq.
Qed.

Lemma give_back_ok s i a b x d : minv None s -> arenas s !! a = Some x -> arena_desc x = Some i ->
  descs s !! i = Some d -> b ∈ blocks a d -> b ∉ free_list d ->
  exists s', give_back s i a b = Ok s' /\ minv None s' /\ locks s' = locks s /\
    (forall q m, live s' q m <-> live s q m /\ q <> b) /\
    (forall q m c, live s' q m -> q <= c < q + m -> mem (pal s') c = mem (pal s) c).
Proof.
  intros H Hx Hxd Hi Hb Hnb. have [Ha Hpos] := minv_align None s a x H Hx. destruct (mi_desc None s H i d Hi) as (Hok & Hnd & Hf).
  destruct (mi_arena None s H a x Hx) as (Hm & _ & Hown). have Hnp : npages x = 1 by rewrite /npages Hxd. rewrite Hnp in Hown.
  destruct (mi_small None s H a x i Hx Hxd) as (d' & Hi' & Hcnt & Hlt). have Hdd : d' = d by congruence. subst d'.
  destruct (block_spec a d b Hok Ha Hb) as (_ & _ & _ & _ & Hrb & _). destruct (Hok) as (H16 & H1 & Hsz). rewrite /ARENA_SIZE /PGSIZE in Hsz.
  rewrite /give_back Hi Hx. cbn [oget obind free_cnt blocks_per_arena set_free_list free_list magic arena_desc].
  set l := b :: free_list d. have Hl : NoDup l by apply NoDup_cons.
  have Hfl : filter (fun c => pg_round_down c = a) l = b :: free_in a d by rewrite /l filter_cons_True.
  have Hw : u32 (free_cnt x + 1) = Z.of_nat (length (filter (fun c => pg_round_down c = a) l)).
  { rewrite Hfl Hcnt /= wrap_small; [|lia]. specialize (Hlt ltac:(done)). nia. }
  have Hin : forall c, c ∈ l -> c ∈ free_list d \/ c ∈ blocks a d by intros c [-> | Hc]%elem_of_cons; [right|left].
  have Hoth : forall a1, a1 <> a -> filter (fun c => pg_round_down c = a1) l = free_in a1 d.
  { intros a1 Hne. rewrite /l filter_cons_False //. rewrite Hrb. by apply not_eq_sym. }
  have Hinv := update_inv None s a x i d H Hx Hxd Hi l Hl Hin Hoth (or_introl eq_refl).
  rewrite Hw. set n := Z.of_nat (length (filter _ l)) in Hinv |- *.
  set s1 := put_arena _ _ _ in Hinv |- *.
  have Hlive1 : forall q m, q <> b -> live s q m -> q ∈ blocks a d -> q ∉ l.
  { intros q m Hqb Hq Hqa. apply (live_block None s a x i d H Hx Hxd Hi q m Hqa) in Hq as [Hq _]. rewrite /l not_elem_of_cons. done. }
  destruct (Z.leb_spec (blocks_per_arena d) n) as [Hfull|Hnf].
  - (* the arena is unused *)
    have Hblocks : forall c, c ∈ l -> pg_round_down c = a -> c ∈ blocks a d.
    { intros c Hc Hr. destruct (Hin c Hc) as [Hcd|?]; [|done]. destruct (Hf c Hcd) as (_ & _ & _ & Hcb). by rewrite Hr in Hcb. }
    have Hn : n = blocks_per_arena d.
    { apply Z.le_antisymm; [|done]. apply (free_in_le None s a i d H Hi); [by apply NoDup_filter|].
      intros c [Hr Hc]%list_elem_of_filter. by apply Hblocks. }
    have Hall : forall c, c ∈ blocks a d -> c ∈ l.
    { intros c Hc. have Hsub : filter (fun c => pg_round_down c = a) l ≡ₚ blocks a d.
      { apply submseteq_length_Permutation; [apply NoDup_submseteq; [by apply NoDup_filter|]|].
        - intros e [Hr He]%list_elem_of_filter. by apply Hblocks.
        - have := length_blocks a d Hok. rewrite -Hn /n. lia. }
      rewrite -Hsub in Hc. by apply list_elem_of_filter in Hc as [_ Hc]. }
    rewrite (proj2 (Z.eqb_eq n _) Hn). cbn [ASSERT obind]. set x1 := mk_arena _ _ n in s1 Hinv |- *.
    rewrite (remove_blocks_ok s1 a x1 i (set_free_list d l)); [by rewrite /s1 /= lookup_insert_eq|done|done|done|
      by rewrite /s1 /= list_lookup_insert_eq //; eapply lookup_lt_Some|done|simpl; lia|done| |].
    { intros j Hj. apply Hall. apply list_elem_of_fmap. exists j. split; [done|]. apply elem_of_seqZ. simpl in Hj. lia. }
    cbn [obind]. destruct (Hown) as (idx & Hia & Hi0 & Hil & Hus).
    destruct (palloc_free_ok (pal s) false idx 1 (mi_pal None s H)) as (p' & Hfr & Hwp & Hbp & Hcp & _ & Hup & Hmp); [lia|lia|done|done|].
    cbn [get_pool] in Hfr, Hbp, Hcp, Hmp. rewrite -Hia in Hfr Hmp. rewrite /palloc_free_page /s1 /= Hfr. cbn [obind].
    eexists. split; [done|]. rewrite Z2Nat.id; [lia|]. fold (blocks a (set_free_list d l)). change (blocks a (set_free_list d l)) with (blocks a d).
    rewrite delete_insert_eq list_insert_insert_eq. set l' := filter _ l. set ds := <[i := _]> (descs s).
    have Hl' : l' = filter (fun c => c ∉ blocks a d) (free_list d) by rewrite /l' /l filter_cons_False; [tauto|].
    have Hdsi : ds !! i = Some (set_free_list (set_free_list d l) l') by rewrite /ds list_lookup_insert_eq //; eapply lookup_lt_Some.
    destruct (drop_arena s a x p' ds H Hx Hwp Hbp Hcp) as [Hinv' Hlive'].
    { intros j k Hk Hj Hjk. rewrite Hup //. have Hki : k = idx by rewrite Hia /PGSIZE in Hk; lia. subst k. rewrite Hnp in Hjk.
      destruct (Z.leb_spec idx j), (Z.ltb_spec j (idx + 1)); simpl; try done; lia. }
    { by rewrite /ds length_insert. }
    { intros j dj Hj. destruct (decide (j = i)) as [-> | Hji].
      - rewrite Hdsi in Hj. injection Hj as <-. exists d. rewrite /= Hl'. split_and!; [done..|apply sublist_filter|].
        intros c Hc. rewrite list_elem_of_filter. destruct (Hf c Hc) as (_ & _ & _ & Hcb). split.
        + intros [Hnc _] Hr. by rewrite Hr in Hcb.
        + intros Hr. split; [|done]. intros Hca. apply Hr. by destruct (block_spec a d c Hok Ha Hca) as (_ & _ & _ & _ & ? & _).
      - rewrite /ds list_lookup_insert_ne // in Hj. exists dj. split_and!; [done..|]. intros c Hc. split; [|done]. intros _ Hr.
        destruct (mi_desc None s H j dj Hj) as (_ & _ & Hfj). destruct (Hfj c Hc) as (y & Hy & Hyd & _). congruence. }
    split_and!; [done| | |].
    + rewrite /locks /= /ds list_fmap_insert /=. apply list_insert_id. by rewrite list_lookup_fmap Hi.
    + intros q m. rewrite Hlive'. split; intros [Hq Hne]; split; try done.
      * intros ->. done.
      * intros Hr. destruct (live_arena None s q m H Hq) as (y & Hy & Hl1). rewrite Hr in Hy, Hl1. have Hyx : y = x by congruence. subst y.
        rewrite Hxd in Hl1. destruct Hl1 as (d1 & Hd1 & Hqb & Hqn & _). have Hdd : d1 = d by congruence. subst d1.
        have := Hall q Hqb. rewrite /l elem_of_cons. tauto.
    + intros q m c Hq Hcr. cbn [pal]. apply Hmp. apply Hlive' in Hq as [Hq Hne].
      destruct (live_range None s q m H Hq) as (a2 & x2 & H2 & Hlo & _ & Hhi & Hr2). rewrite Hr2 in Hne.
      have := mi_disj None s H a a2 x x2 Hx H2 ltac:(by apply not_eq_sym). rewrite Hnp. lia.
  - exists s1. split; [done|]. split_and!; [by apply Hinv| | |done].
    + rewrite /locks /s1 /= list_fmap_insert /=. apply list_insert_id. by rewrite list_lookup_fmap Hi.
    + intros q m. rewrite (update_live None s a x i d H Hx Hxd Hi l Hin).
      { intros c Hc. left. by apply list_elem_of_further. }
      destruct (decide (q ∈ blocks a d)) as [Hq|Hq].
      * rewrite (live_block None s a x i d H Hx Hxd Hi) // /l not_elem_of_cons. tauto.
      * split; [intros [[? _]|[_ ?]]; [done|split; [done|by intros ->]]|intros [? _]; by right].
Qed.

(** Writing inside a block leaves the invariant and the other blocks alone. *)
Lemma set_mem_inv E s m : minv E s -> minv E (set_mem s m).
Proof.
  intros [H1 H2 H3 H4 H5]. split; try done. destruct H1. split; try done.
Qed.

Definition unlocked (s : mstate) : Prop := Forall (fun b => b = false) (locks s).

Lemma find_desc_ok ds k size i : find_desc ds k size = Some i ->
  exists d, ds !! (i - k)%nat = Some d /\ (k <= i)%nat /\ size <= block_size d.
Proof.
  revert k. induction ds as [|d ds IH]; intros k; simpl; [done|]. destruct (Z.leb_spec size (block_size d)).
  - intros [= ->]. exists d. by rewrite Nat.sub_diag.
  - intros (e & He & Hk & Hs)%IH. exists e. split_and!; [|lia|done]. by have -> : (i - k)%nat = S (i - S k) by lia.
Qed.

Lemma acquire_ok s i d : descs s !! i = Some d -> unlocked s ->
  exists s' d', acquire_desc s i = Ok s' /\ sim s s' /\ pal s' = pal s /\ locks s' = <[i := true]> (locks s) /\
    descs s' !! i = Some d' /\ block_size d' = block_size d.
Proof.
  intros Hi Hu. have Hl : desc_lock d = false.
  { rewrite /unlocked Forall_forall in Hu. apply Hu. apply list_elem_of_fmap. exists d. split; [done|]. by eapply list_elem_of_lookup_2. }
  rewrite /acquire_desc Hi. cbn [oget obind]. rewrite Hl. cbn [negb ASSERT obind]. eexists _, _. split; [done|].
  split; [by apply (put_desc_sim s i d)|]. split; [done|]. split; [by rewrite /locks /= list_fmap_insert|]. simpl.
  split; [by apply list_lookup_insert_eq; eapply lookup_lt_Some|done].
Qed.
Lemma release_ok s s0 i : locks s = <[i := true]> (locks s0) -> unlocked s0 -> (i < length (descs s0))%nat ->
  exists s', release_desc s i = Ok s' /\ sim s s' /\ pal s' = pal s /\ unlocked s'.
Proof.
  intros Hl Hu Hi. have Hlen : length (descs s) = length (descs s0).
  { have := f_equal length Hl. by rewrite /locks length_insert !length_fmap. }
  destruct (lookup_lt_is_Some_2 (descs s) i) as [d Hd]; [by rewrite Hlen|].
  have Hld : desc_lock d = true.
  { have : locks s !! i = Some (desc_lock d) by rewrite /locks list_lookup_fmap Hd.
    rewrite Hl list_lookup_insert_eq; [by rewrite length_fmap|]. by intros [= ->]. }
  rewrite /release_desc Hd. cbn [oget obind]. rewrite Hld. cbn [ASSERT obind]. eexists. split; [done|].
  split; [by apply (put_desc_sim s i d)|]. split; [done|].
  rewrite /unlocked /locks /= list_fmap_insert /=. change (desc_lock <$> descs s) with (locks s). rewrite Hl list_insert_insert_eq.
  by apply Forall_insert.
Qed.

Lemma malloc_ok s size : minv None s -> unlocked s -> 0 < size -> size + ARENA_SIZE + PGSIZE <= 2 ^ 32 ->
  exists p s', malloc s size = Ok (p, s') /\ minv None s' /\ unlocked s' /\
    (forall c, mem (pal s') c = mem (pal s) c) /\
    ((p = 0 /\ forall q m, live s' q m <-> live s q m) \/
     exists n, 0 < p /\ size <= n /\ (forall m, ~ live s p m) /\
       forall q m, live s' q m <-> live s q m \/ (q = p /\ m = n)).
Proof.
  intros H Hu Hs Hlt. rewrite /malloc. destruct (Z.eqb_spec size 0); [lia|].
  destruct (find_desc (descs s) 0 size) as [i|] eqn:Hfd.
  2: { destruct (malloc_big_ok s size H Hs Hlt) as (p & s' & Hm & Hi & Hl & Hmem & Hr). exists p, s'.
       split_and!; [done..|by rewrite /unlocked Hl|done|done]. }
  destruct (find_desc_ok _ _ _ _ Hfd) as (d & Hi & _ & Hsz). rewrite Nat.sub_0_r in Hi.
  destruct (acquire_ok s i d Hi Hu) as (s1 & d1 & -> & Hsim1 & Hp1 & Hl1 & Hi1 & Hb1). cbn [obind].
  have H1 := sim_minv None s s1 Hsim1 H. have Hlen : (i < length (descs s))%nat by eapply lookup_lt_Some.
  destruct (new_arena_ok s1 i d1 H1 Hi1) as (ok & s2 & -> & Hl2 & Hlive2 & Hmem2 & Hr). cbn [obind]. destruct ok.
  - destruct Hr as (E & d2 & b & l & H2 & Hi2 & Hb2 & Hf2 & HE).
    destruct (take_block_ok E s2 i d2 b l H2 Hi2 Hf2 HE) as (s3 & -> & H3 & Hl3 & Hp3 & Hpos & Hnb & Hlive3). cbn [obind].
    destruct (release_ok s3 s i) as (s4 & -> & Hsim4 & Hp4 & Hu4); [congruence|done|done|]. cbn [obind].
    exists b, s4. split; [done|]. split_and!; [by eapply sim_minv|done|by intros c; rewrite Hp4 Hp3 Hmem2 Hp1|].
    right. exists (block_size d2). split_and!; [done|lia| |].
    + intros m Hm. apply (Hnb m). rewrite Hlive2. by apply (sim_live s s1).
    + intros q m. rewrite -(sim_live s3 s4) // Hlive3 Hlive2 -(sim_live s s1) //.
  - destruct (release_ok s2 s i) as (s4 & -> & Hsim4 & Hp4 & Hu4); [congruence|done|done|]. cbn [obind].
    exists 0, s4. split; [done|]. split_and!; [by eapply sim_minv|done|by intros c; rewrite Hp4 Hmem2 Hp1|].
    left. split; [done|]. intros q m. rewrite -(sim_live s2 s4) // Hlive2 -(sim_live s s1) //.
Qed.

Lemma free_ok s p n : minv None s -> unlocked s -> live s p n ->
  exists s', free s p = Ok s' /\ minv None s' /\ unlocked s' /\
    (forall q m, live s' q m <-> live s q m /\ q <> p) /\
    (forall q m c, live s' q m -> q <= c < q + m -> mem (pal s') c = mem (pal s) c).
Proof.
  intros H Hu Hp. destruct (live_range None s p n H Hp) as (a0 & x0 & _ & Hlo & Hn0 & _ & Hr0).
  destruct (live_arena None s p n H Hp) as (x & Hx & Hl). have [Ha Hpos] := minv_align None s _ x H Hx.
  destruct (mi_arena None s H _ x Hx) as (Hm & Hnp & Hown). set a := pg_round_down p in Hx, Hl, Ha, Hpos, Hown |- *.
  rewrite /free. rewrite (proj2 (Z.eqb_neq p 0)); [fold a in Hr0; lia|]. destruct (arena_desc x) as [i|] eqn:Hxd.
  - destruct Hl as (d & Hi & Hb & Hnb & ->). destruct (mi_desc None s H i d Hi) as (Hok & _).
    rewrite (block_to_arena_ok s a x i d) //. cbn [obind]. rewrite Hxd Hi. cbn [oget obind].
    set s0 := set_mem s _. have H0 : minv None s0 by apply set_mem_inv. have Hlive0 : forall q m, live s0 q m <-> live s q m by done.
    destruct (acquire_ok s0 i d Hi Hu) as (s1 & d1 & -> & Hsim1 & Hp1 & Hl1 & Hi1 & Hb1). cbn [obind].
    have H1 := sim_minv None s0 s1 Hsim1 H0. destruct (Hsim1) as (_ & Ha1 & Hd1).
    destruct (Forall2_lookup_l _ _ _ _ _ Hd1 Hi) as (d1' & Hi1' & Hsd). have Hdd : d1' = d1 by congruence. subst d1'.
    destruct (give_back_ok s1 i a p x d1 H1) as (s2 & -> & H2 & Hl2 & Hlive2 & Hmem2); [by rewrite Ha1|done|done|
      by rewrite (same_blocks a d d1 Hsd)|by destruct Hsd as (_ & _ & ->)|]. cbn [obind].
    destruct (release_ok s2 s0 i) as (s4 & -> & Hsim4 & Hp4 & Hu4); [congruence|done|by eapply lookup_lt_Some|].
    have Hlive : forall q m, live s4 q m <-> live s q m /\ q <> p.
    { intros q m. rewrite -(sim_live s2 s4) // Hlive2 -(sim_live s0 s1) //. }
    exists s4. split; [done|]. split_and!; [by eapply sim_minv|done|done|].
    intros q m c Hq Hc. rewrite Hp4 (Hmem2 q m) //; [by apply (sim_live s2 s4)|]. rewrite Hp1 /s0 /= /fill.
    apply Hlive in Hq as [Hq Hne]. have := live_disjoint None s p (block_size d) q m H Hp Hq ltac:(by apply not_eq_sym).
    intros Hdis. destruct (Z.leb_spec p c), (Z.ltb_spec c (p + block_size d)); simpl; try done. lia.
  - destruct Hl as (Hpa & ->). have Ho : pg_ofs p = ARENA_SIZE.
    { rewrite pg_ofs_mod Hpa -Z.add_mod_idemp_l // Ha. done. }
    rewrite /block_to_arena -/a (get_arena_ok s a x) //. cbn [obind]. rewrite Hxd Ho Z.eqb_refl. cbn [ASSERT obind]. rewrite Hxd.
    rewrite /npages Hxd in Hnp Hown. destruct (Hown) as (idx & Hia & Hi0 & Hil & Hus).
    destruct (palloc_free_ok (pal s) false idx (free_cnt x) (mi_pal None s H)) as (p' & Hfr & Hwp & Hbp & Hcp & _ & Hup & Hmp); [lia|lia|done|done|].
    cbn [get_pool] in Hfr, Hbp, Hcp, Hmp. rewrite -Hia in Hfr Hmp. rewrite Hfr. cbn [obind].
    have Hnp' : npages x = free_cnt x by rewrite /npages Hxd.
    destruct (drop_arena s a x p' (descs s) H Hx Hwp Hbp Hcp) as [Hinv' Hlive'].
    { intros j k Hk Hj Hjk. rewrite Hup //. have Hki : k = idx by rewrite Hia /PGSIZE in Hk; lia. subst k. rewrite Hnp' in Hjk.
      destruct (Z.leb_spec idx j), (Z.ltb_spec j (idx + free_cnt x)); simpl; try done; lia. }
    { done. }
    { intros j dj Hj. exists dj. split_and!; [done..|]. intros c Hc. split; [|done]. intros _ Hr.
      destruct (mi_desc None s H j dj Hj) as (_ & _ & Hfj). destruct (Hfj c Hc) as (y & Hy & Hyd & _). congruence. }
    exists (mk_mstate p' (descs s) (delete a (arenas s))). split; [done|]. split_and!; [done|done| |].
    + intros q m. rewrite Hlive'. split; intros [Hq Hne]; split; try done.
      * intros ->. done.
      * intros Hr. apply Hne. destruct (live_arena None s q m H Hq) as (y & Hy & Hl1). rewrite Hr in Hy, Hl1. have Hyx : y = x by congruence.
        subst y. rewrite Hxd in Hl1. destruct Hl1 as [-> _]. by rewrite Hpa.
    + intros q m c Hq Hc. cbn [pal]. apply Hmp. apply Hlive' in Hq as [Hq Hne].
      destruct (live_range None s q m H Hq) as (a2 & x2 & H2 & Hlo2 & _ & Hhi2 & Hr2). rewrite Hr2 in Hne.
      have := mi_disj None s H a a2 x x2 Hx H2 ltac:(by apply not_eq_sym). rewrite Hnp'. lia.
Qed.

(** ** Theorems *)
Lemma malloc_init_ok p : palloc_wf p -> exists s, malloc_init p = Ok s /\ minv None s /\ unlocked s /\
  (forall q m, ~ live s q m) /\ forall c, mem (pal s) c = mem p c.
Proof.
  intros Hp. eexists. split; [reflexivity|]. split; [|split; [repeat constructor|split; [|done]]].
  - split; cbn [pal arenas descs]; try done.
    intros i d Hi. have Hin : free_list d = [] /\ desc_ok d.
    { apply list_elem_of_lookup_2 in Hi. revert Hi. rewrite !elem_of_cons elem_of_nil. intros Hi.
      repeat destruct Hi as [-> | Hi]; try done; split; try done; by rewrite /desc_ok /=; split_and!. }
    destruct Hin as [Hf Hok]. split_and!; [done|rewrite Hf; constructor|]. rewrite Hf. intros b Hb. by apply not_elem_of_nil in Hb.
  - intros q m (a & x & Hx & _). done.
Qed.

(** What clients may do: allocate, and free a block that they hold. *)
Inductive mstep : mstate -> mstate -> Prop :=
| step_malloc s size p s' : 0 < size -> size + ARENA_SIZE + PGSIZE <= 2 ^ 32 -> malloc s size = Ok (p, s') -> mstep s s'
| step_free s p n s' : live s p n -> free s p = Ok s' -> mstep s s'.

Lemma mstep_inv s s' : mstep s s' -> minv None s /\ unlocked s -> minv None s' /\ unlocked s'.
Proof.
  intros [s0 size p s1 Hs Hlt Hm|s0 p n s1 Hl Hf] [H Hu].
  - destruct (malloc_ok s0 size H Hu Hs Hlt) as (p' & s2 & Hm' & H2 & Hu2 & _). have Heq : s2 = s1 by congruence. by subst.
  - destruct (free_ok s0 p n H Hu Hl) as (s2 & Hf' & H2 & Hu2 & _). have Heq : s2 = s1 by congruence. by subst.
Qed.

Lemma reachable_inv p0 s0 s : palloc_wf p0 -> malloc_init p0 = Ok s0 -> rtc mstep s0 s -> minv None s /\ unlocked s.
Proof.
  intros Hp H0 Hr. destruct (malloc_init_ok p0 Hp) as (s0' & H0' & Hinv0 & Hu0 & _). have Heq : s0' = s0 by congruence. subst s0'.
  clear -Hr Hinv0 Hu0. induction Hr; [done|]. destruct (mstep_inv x y) as [? ?]; auto.
Qed.

(** C9: malloc.  In every state that allocations and releases can reach from
    [malloc_init], with requests that leave [size + ARENA_SIZE + PGSIZE] within 32 bits
    ([calloc_malloc_overflow] is about the others), such a request of [size] bytes does
    not fail an assertion; it returns null and leaves the client's blocks alone, or a new
    block of at least [size] bytes that overlaps none of them.  No block in use overlaps
    what the allocator writes for itself, the arena headers and the free blocks. *)
Theorem malloc_correct (p0 : palloc) (s0 s : mstate) (size : Z) :
  palloc_wf p0 -> malloc_init p0 = Ok s0 -> rtc mstep s0 s -> 0 < size -> size + ARENA_SIZE + PGSIZE <= 2 ^ 32 ->
  exists p s', malloc s size = Ok (p, s') /\
    (forall q m b k, live s' q m -> bookkeeping s' b k -> q + m <= b \/ b + k <= q) /\
    ((p = 0 /\ forall q m, live s' q m <-> live s q m) \/
     exists n, 0 < p /\ size <= n /\ (forall q m, live s' q m <-> live s q m \/ (q = p /\ m = n)) /\
       forall q m, live s q m -> p + n <= q \/ q + m <= p).
Proof.
  intros Hp H0 Hr Hs Hlt. have [H Hu] := reachable_inv p0 s0 s Hp H0 Hr.
  destruct (malloc_ok s size H Hu Hs Hlt) as (p & s' & Hm & H' & _ & _ & Hres). exists p, s'. split; [done|].
  split; [intros q m b k; by apply (live_bookkeeping None)|]. destruct Hres as [?|(n & Hpos & Hsz & Hnew & Hlive)]; [by left|right]. exists n. split_and!; [done..|].
  intros q m Hq. apply (live_disjoint None s' p n q m H').
  - apply Hlive. by right.
  - apply Hlive. by left.
  - intros <-. by apply (Hnew m).
Qed.

Lemma malloc_correct_witness :
  palloc_wf ex_palloc /\ exists s0, malloc_init ex_palloc = Ok s0 /\ exists p s', malloc s0 100 = Ok (p, s') /\
    (forall q m b k, live s' q m -> bookkeeping s' b k -> q + m <= b \/ b + k <= q) /\
    ((p = 0 /\ forall q m, live s' q m <-> live s0 q m) \/
     exists n, 0 < p /\ 100 <= n /\ (forall q m, live s' q m <-> live s0 q m \/ (q = p /\ m = n)) /\
       forall q m, live s0 q m -> p + n <= q \/ q + m <= p).
Proof.
  split; [exact ex_palloc_wf|]. eexists. split; [reflexivity|].
  eapply (malloc_correct ex_palloc _ _ 100); [exact ex_palloc_wf|reflexivity|apply rtc_refl|lia|vm_compute; discriminate].
Defined.

(** Free.  In every reachable state a block that a client holds can be
    freed without failing an assertion; afterwards the client holds the same
    blocks except that one, and what they contain is unchanged, also when the
    page of the block goes back to the page allocator. *)
Theorem free_correct (p0 : palloc) (s0 s : mstate) (p n : Z) :
  palloc_wf p0 -> malloc_init p0 = Ok s0 -> rtc mstep s0 s -> live s p n ->
  exists s', free s p = Ok s' /\ (forall q m, live s' q m <-> live s q m /\ q <> p) /\
    (forall q m c, live s' q m -> q <= c < q + m -> mem (pal s') c = mem (pal s) c).
Proof.
  intros Hp H0 Hr Hl. have [H Hu] := reachable_inv p0 s0 s Hp H0 Hr.
  destruct (free_ok s p n H Hu Hl) as (s' & Hf & _ & _ & Hlive & Hmem). by exists s'.
Qed.

Lemma free_correct_witness :
  exists s0 s1, malloc_init ex_palloc = Ok s0 /\ malloc s0 100 = Ok (8204, s1) /\ live s1 8204 128 /\
  exists s', free s1 8204 = Ok s' /\ (forall q m, live s' q m <-> live s1 q m /\ q <> 8204) /\
    (forall q m c, live s' q m -> q <= c < q + m -> mem (pal s') c = mem (pal s1) c).
Proof.
  eexists _, _. split; [reflexivity|]. split; [vm_compute; reflexivity|].
  match goal with |- live ?s _ _ /\ _ => assert (Hl : live s 8204 128) end.
  { eexists 8192, _. split; [vm_compute; reflexivity|]. simpl. eexists. split; [vm_compute; reflexivity|].
    split_and!; [|apply (bool_decide_unpack _); vm_compute; exact I|reflexivity].
    apply (bool_decide_unpack _). vm_compute. exact I. }
  split; [exact Hl|].
  eapply (free_correct ex_palloc _ _ 8204 128); [exact ex_palloc_wf|reflexivity| |exact Hl].
  apply rtc_once. eapply (step_malloc _ 100 8204); [lia|vm_compute; discriminate|vm_compute; reflexivity].
Defined.

Lemma find_desc_none ds k size : (forall d, d ∈ ds -> block_size d < size) -> find_desc ds k size = None.
Proof.
  revert k. induction ds as [|d ds IH]; intros k Hd; simpl; [done|].
  have Hlt := Hd d (list_elem_of_here _ _). destruct (Z.leb_spec size (block_size d)); [lia|].
  apply IH. intros e He. by apply Hd, list_elem_of_further.
Qed.

(** A request above the largest block size gives null or a block that ends with
    the pages that [malloc_big] counted. *)
Lemma malloc_big_live s size p s' : malloc_big s size = Ok (p, s') ->
  p = 0 \/ live s' p (PGSIZE * (u32 (u32 (size + ARENA_SIZE) + PGSIZE - 1) / PGSIZE) - ARENA_SIZE).
Proof.
  intros H. rewrite /malloc_big in H. apply obind_Ok_inv in H as ([a p'] & _ & H).
  destruct (a =? 0); injection H as <- <-; [by left|right]. eexists a, _. split; [apply lookup_insert_eq|]. done.
Qed.
Lemma malloc_above s size : minv None s -> PGSIZE < size -> malloc s size = malloc_big s size.
Proof.
  intros H Hs. rewrite /malloc. rewrite (proj2 (Z.eqb_neq size 0)); [rewrite /PGSIZE in Hs; lia|]. rewrite find_desc_none; [|done].
  intros d (i & Hi)%list_elem_of_lookup. destruct (mi_desc _ _ H i d Hi) as [Hd _]. rewrite /desc_ok /ARENA_SIZE /PGSIZE in Hd. rewrite /PGSIZE in Hs. nia.
Qed.

(** The size arithmetic of [malloc] and [calloc] wraps around.  In every
    reachable state a request for 2^32 - 8 bytes gives null or a block of 4084
    bytes, as a request for one byte beyond the small blocks would; and
    [calloc], whose test [size < a || size < b] does not see every overflow,
    gives for 65537 times 65537 bytes, more than the address space, null or a
    block of 135156 bytes. *)
Theorem calloc_malloc_overflow (p0 : palloc) (s0 s : mstate) :
  palloc_wf p0 -> malloc_init p0 = Ok s0 -> rtc mstep s0 s ->
  (exists p s', malloc s (2 ^ 32 - 8) = Ok (p, s') /\ (p = 0 \/ live s' p 4084)) /\
  (exists p s', calloc s 65537 65537 = Ok (p, s') /\ (p = 0 \/ live s' p 135156)).
Proof.
  intros Hp H0 Hr. have [H Hu] := reachable_inv p0 s0 s Hp H0 Hr. split.
  - destruct (malloc_big_ok s 1 H) as (p & s' & Hm & _); [lia|done|]. exists p, s'. split.
    + rewrite malloc_above; [done|by rewrite /PGSIZE|exact Hm].
    + by apply malloc_big_live in Hm.
  - destruct (malloc_big_ok s 131073 H) as (p & s' & Hm & _); [lia|done|].
    rewrite /calloc. change (u32 (65537 * 65537)) with 131073. cbn [orb Z.ltb Z.compare].
    change (131073 <? 65537) with false. cbn [orb]. rewrite malloc_above; [done|by rewrite /PGSIZE|]. rewrite Hm. cbn [obind].
    eexists p, _. split; [done|]. apply malloc_big_live in Hm. destruct Hm as [?|Hl]; [by left|right].
    destruct (p =? 0); [done|]. destruct Hl as (a & x & Hx & Hl). by exists a, x.
Qed.

(** The request for 2^32 - 8 bytes is served from a fresh pool. *)
Lemma calloc_malloc_overflow_witness :
  exists s0, malloc_init ex_palloc = Ok s0 /\ (exists s', malloc s0 (2 ^ 32 - 8) = Ok (8204, s')) /\
  (exists p s', malloc s0 (2 ^ 32 - 8) = Ok (p, s') /\ (p = 0 \/ live s' p 4084)) /\
  (exists p s', calloc s0 65537 65537 = Ok (p, s') /\ (p = 0 \/ live s' p 135156)).
Proof.
  eexists. split; [reflexivity|]. split; [eexists; vm_compute; reflexivity|]. eapply (calloc_malloc_overflow ex_palloc); [exact ex_palloc_wf|reflexivity|apply rtc_refl].
Defined.
