(* ===== verification/Process.v ===== *)
(** * userprog/process.c: the command line of a new process

    [process_execute] copies the command line and cuts the program's name out of
    it; [start_process] counts and cuts the arguments in the kernel's copy and
    lays them out on the user stack, as the start-up code of a user program
    expects them.  The kernel's memory is an array of bytes, as in CString.v; the
    user pages that [load] has mapped are a finite map from addresses to bytes,
    and a store to another address is a [Fault].

    The theorems: the stack has the arguments of the command line, a terminated
    array of pointers to them, their number and a return address, aligned and
    below the initial stack pointer; a blank command line panics the kernel. *)
From S2P Require Import Prelude CString Bitmap Palloc.

Abbreviation user_bytes := (gmap Z Z).

(** ** process_execute *)
Definition TID_ERROR : Z := -1.

Section execute.
(** [thread_create (name, PRI_DEFAULT, start_process, aux)], in the memory it finds. *)
Variable thread_create : list Z -> Z -> Z -> Z.

(** [fn_copy] and [fn_copy2] are what the two calls of [palloc_get_page] return,
    [dels] is the address of the local array of delimiters.  The copies are freed
    by the caller or by the new thread. *)
Definition process_execute (m : list Z) (file_name fn_copy fn_copy2 dels : Z) : outcome (Z * list Z) :=
  if fn_copy =? NULL then Ok (TID_ERROR, m) else
  let! (_, m) := strlcpy m fn_copy file_name PGSIZE in
  let! i := strspn m fn_copy dels in
  let! j := strcspn m (fn_copy + i) dels in
  let! (_, m) := memcpy m fn_copy2 (fn_copy + i) j in
  let! m := st m (fn_copy2 + j) 0 in
  Ok (thread_create m fn_copy2 fn_copy, m).
End execute.

(** ** start_process: the arguments *)

(** [for (i = ...; i < size;)]; a pass moves over at least one character. *)
Fixpoint argc_loop (fuel : nat) (m : list Z) (file_name dels size i argc : Z) : outcome Z :=
  if i <? size then
    match fuel with
    | O => Err NoFuel
    | S fuel =>
      let! a := strcspn m (file_name + i) dels in
      let i := i + a in
      let! b := strspn m (file_name + i) dels in
      argc_loop fuel m file_name dels size (i + b) (argc + 1)
    end
  else Ok argc.

(** [argv[i] = strtok_r (p, dels, &p)], [argc] times. *)
Fixpoint argv_loop (argc : nat) (m : list Z) (p dels : Z) : outcome (list Z * list Z) :=
  match argc with
  | O => Ok ([], m)
  | S argc =>
    let! (token, p, m) := strtok_r m p dels p in
    let! (argv, m) := argv_loop argc m p dels in
    Ok (token :: argv, m)
  end.

(** ** The user stack *)
Fixpoint store_bytes (u : user_bytes) (a : Z) (bs : list Z) : outcome user_bytes :=
  match bs with
  | [] => Ok u
  | b :: bs => let! _ := oget (u !! a) in store_bytes (<[a := b]> u) (a + 1) bs
  end.
(** The [size] bytes at [p], for [memcpy]. *)
Fixpoint load_bytes (size : nat) (m : list Z) (p : Z) : outcome (list Z) :=
  match size with
  | O => Ok []
  | S size => let! b := ld m p in let! bs := load_bytes size m (p + 1) in Ok (b :: bs)
  end.

(** The loop over the strings, from the last one to the first: the new stack
    pointer, the size of the strings, and their addresses on the stack. *)
Fixpoint push_strings (m : list Z) (argv : list Z) (u : user_bytes) (esp total : Z) (out : list Z)
    : outcome (user_bytes * Z * Z * list Z) :=
  match argv with
  | [] => Ok (u, esp, total, out)
  | a :: argv =>
    let! n := strlen m a in
    let size := n + 1 in
    let esp := u32 (esp - size) in
    let! bs := load_bytes (Z.to_nat size) m a in
    let! u := store_bytes u esp bs in
    push_strings m argv u esp (total + size) (esp :: out)
  end.

(** [esp -= 4; *esp = w] *)
Definition push (w : Z) (ue : user_bytes * Z) : outcome (user_bytes * Z) :=
  let esp := u32 (ue.2 - 4) in
  let! u := store_bytes ue.1 esp (word_bytes w) in
  Ok (u, esp).
Fixpoint push_all (ws : list Z) (ue : user_bytes * Z) : outcome (user_bytes * Z) :=
  match ws with [] => Ok ue | w :: ws => let! ue := push w ue in push_all ws ue end.

(** The null pointer that ends the array, the array of addresses, its address,
    the number of arguments and the return address. *)
Definition push_pointers (argc : Z) (argv : list Z) (ue : user_bytes * Z) : outcome (user_bytes * Z) :=
  let! ue := push 0 ue in
  let! ue := push_all (rev argv) ue in
  let! ue := push ue.2 ue in
  let! ue := push argc ue in
  push 0 ue.

Definition push_arguments (m : list Z) (argc : Z) (argv : list Z) (u : user_bytes) (esp : Z) : outcome (user_bytes * Z) :=
  let! (u, esp, total, argv) := push_strings m (rev argv) u esp 0 [] in
  let word_align := if total mod 4 =? 0 then 0 else 4 - total mod 4 in
  push_pointers argc argv (u, u32 (esp - word_align)).

(** [start_process] up to the end of the argument passing.  [file_name] is the
    page it allocates for its copy; [load] gives the mapped user memory and the
    initial stack pointer, or fails. *)
Section start.
Variable load : list Z -> Z -> option (user_bytes * Z).

Definition start_process (m : list Z) (file_name_ file_name dels : Z) : outcome (option (user_bytes * Z)) :=
  let! n := strlen m file_name_ in
  let! (_, m) := memcpy m file_name file_name_ n in
  let! m := st m (file_name + n) 0 in
  let! size := strlen m file_name in
  let! i := strspn m file_name dels in
  let! argc := argc_loop (fuel m) m file_name dels size i 0 in
  assert! negb (argc =? 0) in
  let! (argv, m) := argv_loop (Z.to_nat argc) m file_name dels in
  let! a0 := oget (head argv) in
  match load m a0 with
  | None => Ok None
  | Some (u, esp) => let! ue := push_arguments m argc argv u esp in Ok (Some ue)
  end.
End start.

(** ** Counting and cutting the arguments *)
Lemma span_split ds s : span (fun x => Bool.eqb (member ds x) false) s = (split ds s).1.
Proof. induction s as [|c s IH]; [done|]. simpl. destruct (member ds c); simpl; [done|]. by rw IH. Qed.

Lemma span_skip ds s : exists rest, s = span (fun x => Bool.eqb (member ds x) true) s ++ rest /\
  tokens ds rest = tokens ds s /\ (forall c t, rest = c :: t -> member ds c = false).
Proof.
  induction s as [|c s IH]; simpl; [by exists []|]. destruct (member ds c) eqn:Hm; simpl.
  - destruct IH as (rest & Hs & Ht & Hr). exists rest. split_and!; [by rw -Hs|by rw Ht /tokens /= Hm|done].
  - exists (c :: s). split_and!; try done. by intros ? ? [= <- <-].
Qed.

Lemma argc_loop_ok n m f d ds size i k r : cstr m d ds -> cstr m (f + i) r -> len r = size - i ->
  (forall c t, r = c :: t -> member ds c = false) -> (length r <= n)%nat ->
  argc_loop n m f d size i k = Ok (k + len (tokens ds r)).
Proof.
  intros Hd. revert i k r. induction n as [|n IH]; intros i k r Hr Hl Hc Hn.
  { destruct r; [|simpl in Hn; lia]. simpl in *. rw (proj2 (Z.ltb_ge _ _)); [lia|]. by rw Z.add_0_r. }
  cbn [argc_loop]. destruct r as [|c r]; [simpl in *; rw (proj2 (Z.ltb_ge _ _)); [lia|]; by rw Z.add_0_r|].
  rw (proj2 (Z.ltb_lt _ _)); [simpl in Hl; lia|]. have Hm := Hc _ _ eq_refl.
  rw /strcspn (span_ok false m (f + i) (c :: r) d ds) // span_split. cbn [obind].
  destruct (split_spec ds (c :: r)) as (rest & Hsp & Hrest).
  have Hw : exists w', (split ds (c :: r)).1 = c :: w' by rw /= Hm /=; eauto. destruct Hw as [w' Hw].
  rewrite Hsp in Hr. have Hr2 := cstr_app _ _ _ _ Hr. rw /strspn.
  have -> : f + (i + len (split ds (c :: r)).1) = f + i + len (split ds (c :: r)).1 by lia.
  rw (span_ok true m _ rest d ds) //. cbn [obind].
  destruct (span_skip ds rest) as (rest2 & Hs2 & Ht2 & Hc2).
  have Hlen : length (c :: r) = (length (split ds (c :: r)).1 + length rest)%nat by rw {1}Hsp length_app.
  have Hlen2 : length rest = (length (span (fun x => Bool.eqb (member ds x) true) rest) + length rest2)%nat by rw {1}Hs2 length_app.
  rewrite Hs2 in Hr2. have Hr3 := cstr_app _ _ _ _ Hr2.
  have Htok : len (tokens ds (c :: r)) = 1 + len (tokens ds rest2).
  { rw /tokens Hw. cbn [add_token length]. rw -/(tokens ds rest2) Ht2. destruct rest as [|e rest].
    - rw Hrest. simpl. lia.
    - destruct Hrest as [He ->]. have -> : tokens ds (e :: rest) = tokens ds rest by rw /tokens /= He. lia. }
  rw (IH _ _ rest2); [|lia|done| |].
  - by have -> : f + (i + len (split ds (c :: r)).1 + len (span (fun x => Bool.eqb (member ds x) true) rest)) =
      f + i + len (split ds (c :: r)).1 + len (span (fun x => Bool.eqb (member ds x) true) rest) by lia.
  - rw Hw in Hlen. cbn [length] in *. lia.
  - f_equal. lia.
Qed.

Lemma argv_loop_ok m d ds q str : cstr m d ds -> cstr m q str -> d + len ds < q \/ q + len str < d ->
  exists argv m', argv_loop (length (tokens ds str)) m q d = Ok (argv, m') /\ Forall2 (cstr m') argv (tokens ds str) /\
    forall a, a < q \/ q + len str <= a -> ld m' a = ld m a.
Proof.
  remember (tokens ds str) as ws eqn:Hws. revert m q str Hws. induction ws as [|w ws IH]; intros m q str Hws Hd Hstr Hdis.
  { exists [], m. split_and!; [done|constructor|done]. }
  have Hq : (if q =? NULL then q else q) = q by destruct (q =? NULL).
  have H1 := strtok_r_ok m q q d ds q str Hq Hd Hstr Hdis. rw -Hws in H1.
  destruct H1 as (token & save' & m1 & rest & E1 & Hqt & Hts & Hse & Hlt & Hw & Hor & Hrest & Htr & Hlm & Hag & Hd1).
  cbn [length argv_loop]. rw E1. cbn [obind].
  destruct (IH m1 save' rest) as (argv & m' & E & Hall & Hag'); [done..|lia|].
  rw E. cbn [obind]. exists (token :: argv), m'. split_and!; [done| |].
  - constructor; [|done]. eapply cstr_agree; [|exact Hw]. intros a Ha. apply Hag'.
    destruct Hor as [?|Hnil]; [lia|]. rewrite Hnil in Hse |- *. simpl in *. lia.
  - intros a Ha. rw Hag'; [lia|]. apply Hag. lia.
Qed.

(** ** What is on the stack *)
Definition mapped (u : user_bytes) (a b : Z) : Prop := forall x, a <= x < b -> is_Some (u !! x).
(** The terminated string [s] at [a]. *)
Definition string_at (u : user_bytes) (a : Z) (s : list Z) : Prop :=
  forall k c, (s ++ [0]) !! k = Some c -> u !! (a + Z.of_nat k) = Some c.
(** The word at [a]. *)
Definition user_word (u : user_bytes) (a w : Z) : Prop :=
  forall k c, word_bytes w !! k = Some c -> u !! (a + Z.of_nat k) = Some c.
(** The words from [a] upwards. *)
Definition words_from (u : user_bytes) (a : Z) (ws : list Z) : Prop :=
  forall k w, ws !! k = Some w -> user_word u (a + 4 * Z.of_nat k) w.

Lemma store_bytes_ok u a bs : mapped u a (a + len bs) ->
  exists u', store_bytes u a bs = Ok u' /\
    forall x, u' !! x = if decide (a <= x < a + len bs) then bs !! Z.to_nat (x - a) else u !! x.
Proof.
  revert u a. induction bs as [|b bs IH]; intros u a Hm; cbn [store_bytes].
  { exists u. split; [done|]. intros x. rw decide_False //. simpl. lia. }
  destruct (Hm a) as [y Hy]; [simpl; lia|]. rw Hy. cbn [oget obind].
  destruct (IH (<[a := b]> u) (a + 1)) as (u' & E & Hu).
  { intros x Hx. rw lookup_insert_ne; [lia|]. apply Hm. cbn [length]. lia. }
  exists u'. split; [done|]. intros x. rw Hu. cbn [length]. destruct (decide (x = a)) as [->|Hx].
  - rw decide_False; [lia|]. rw lookup_insert_eq decide_True; [lia|]. by rw Z.sub_diag.
  - rw lookup_insert_ne //. repeat case_decide; try lia; [|done].
    have -> : Z.to_nat (x - a) = S (Z.to_nat (x - (a + 1))) by lia. done.
Qed.

Lemma store_bytes_reads (u u' : user_bytes) a (bs : list Z) k c :
  (forall x, u' !! x = if decide (a <= x < a + len bs) then bs !! Z.to_nat (x - a) else u !! x) ->
  bs !! k = Some c -> u' !! (a + Z.of_nat k) = Some c.
Proof.
  intros Hu Hk. have Hl := lookup_lt_Some _ _ _ Hk. rw Hu decide_True; [lia|].
  by have -> : Z.to_nat (a + Z.of_nat k - a) = k by lia.
Qed.

Lemma store_bytes_mapped (u u' : user_bytes) a (bs : list Z) x y :
  (forall x, u' !! x = if decide (a <= x < a + len bs) then bs !! Z.to_nat (x - a) else u !! x) ->
  mapped u x y -> mapped u' x y.
Proof.
  intros Hu Hm z Hz. rw Hu. case_decide; [|by apply Hm]. apply lookup_lt_is_Some_2. lia.
Qed.

Lemma load_bytes_ok m p s : cstr m p s -> load_bytes (Z.to_nat (len s + 1)) m p = Ok (s ++ [0]).
Proof.
  have -> : Z.to_nat (len s + 1) = S (length s) by lia.
  revert p. induction s as [|c s IH]; intros p Hs; simpl in Hs |- *; [by rw Hs|].
  destruct Hs as (-> & _ & Hs). cbn [obind]. have H := IH _ Hs. cbn [load_bytes] in H. by rw H.
Qed.

(** Memory above [a] is unchanged. *)
Definition same_above (u u' : user_bytes) (a : Z) : Prop := forall x, a <= x -> u' !! x = u !! x.

Lemma string_at_above u u' a b s : same_above u u' b -> b <= a -> string_at u a s -> string_at u' a s.
Proof. intros Hs Hb H k c Hk. rw Hs; [lia|]. by apply H. Qed.
Lemma user_word_above u u' a b w : same_above u u' b -> b <= a -> user_word u a w -> user_word u' a w.
Proof. intros Hs Hb H k c Hk. rw Hs; [lia|]. by apply H. Qed.

(** The size of the strings with their terminators. *)
Definition strings_size (ws : list (list Z)) : Z := foldr (fun s n => len s + 1 + n) 0 ws.

Lemma strings_size_app ws vs : strings_size (ws ++ vs) = strings_size ws + strings_size vs.
Proof. induction ws as [|w ws IH]; [done|]. simpl. rw IH. lia. Qed.
Lemma strings_size_nonneg ws : 0 <= strings_size ws.
Proof. induction ws as [|w ws IH]; simpl; lia. Qed.

Lemma push_strings_ok m argv ws u esp total out : Forall2 (cstr m) argv ws ->
  0 <= esp - strings_size ws -> esp < 2 ^ 32 -> mapped u (esp - strings_size ws) esp ->
  exists u' addrs, push_strings m argv u esp total out = Ok (u', esp - strings_size ws, total + strings_size ws, addrs ++ out) /\
    Forall2 (string_at u') addrs (rev ws) /\ Forall (fun a => esp - strings_size ws <= a < esp) addrs /\
    same_above u u' esp /\ (forall x y, mapped u x y -> mapped u' x y).
Proof.
  intros Hall. revert u esp total out. induction Hall as [|a w argv ws Ha Hall IH]; intros u esp total out H0 H32 Hm.
  { exists u, []. simpl. rw Z.sub_0_r Z.add_0_r. by split_and!. }
  cbn [push_strings]. rw (strlen_ok _ _ _ Ha). cbn [obind strings_size foldr] in *. rw -/(strings_size ws) in H0 Hm |- *.
  have Hn := strings_size_nonneg ws. rw (wrap_small 32 (esp - (len w + 1))); [lia|].
  rw (load_bytes_ok _ _ _ Ha). cbn [obind].
  have Hlen : len (w ++ [0]) = len w + 1 by rw length_app /=; lia.
  destruct (store_bytes_ok u (esp - (len w + 1)) (w ++ [0])) as (u1 & E1 & Hu1).
  { rw Hlen. intros x Hx. apply Hm. lia. }
  rw E1. cbn [obind].
  destruct (IH u1 (esp - (len w + 1)) (total + (len w + 1)) (esp - (len w + 1) :: out)) as (u' & addrs & E & Hst & Hr & Hab & Hmp); [lia|lia| |].
  { eapply store_bytes_mapped; [exact Hu1|]. intros x Hx. apply Hm. lia. }
  exists u', (addrs ++ [esp - (len w + 1)]). split_and!.
  - rw E -app_assoc. do 3 f_equal; [|lia]. f_equal. lia.
  - simpl. apply Forall2_app; [done|]. constructor; [|constructor]. eapply string_at_above; [exact Hab|lia|].
    intros k c Hk. by eapply store_bytes_reads.
  - apply Forall_app. split; [eapply Forall_impl; [exact Hr|]; simpl; lia|]. constructor; [lia|constructor].
  - intros x Hx. rw Hab; [lia|]. rw Hu1 decide_False //. rw Hlen. lia.
  - intros x y Hxy. apply Hmp. by eapply store_bytes_mapped.
Qed.

Lemma push_word_ok u esp w : 4 <= esp < 2 ^ 32 -> mapped u (esp - 4) esp ->
  exists u', push w (u, esp) = Ok (u', esp - 4) /\ user_word u' (esp - 4) w /\ same_above u u' esp /\
    forall x y, mapped u x y -> mapped u' x y.
Proof.
  intros He Hm. rw /push. cbn [fst snd]. rw wrap_small; [lia|].
  have Hl : len (word_bytes w) = 4 by done.
  destruct (store_bytes_ok u (esp - 4) (word_bytes w)) as (u' & E & Hu).
  { rw Hl. intros x Hx. apply Hm. lia. }
  rw E. cbn [obind]. exists u'. split_and!; [done| | |].
  - intros k c Hk. by eapply store_bytes_reads.
  - intros x Hx. rw Hu decide_False //. rw Hl. lia.
  - intros x y Hxy. by eapply store_bytes_mapped.
Qed.

Lemma push_all_ok ws u esp : 0 <= esp - 4 * len ws -> esp < 2 ^ 32 -> mapped u (esp - 4 * len ws) esp ->
  exists u', push_all ws (u, esp) = Ok (u', esp - 4 * len ws) /\ words_from u' (esp - 4 * len ws) (rev ws) /\
    same_above u u' esp /\ forall x y, mapped u x y -> mapped u' x y.
Proof.
  revert u esp. induction ws as [|w ws IH]; intros u esp H0 H32 Hm; cbn [length push_all] in *.
  { exists u. have -> : esp - 4 * Z.of_nat 0 = esp by lia. by split_and!. }
  destruct (push_word_ok u esp w) as (u1 & E1 & Hw & Hab & Hmp); [lia|intros x Hx; apply Hm; lia|]. rw E1. cbn [obind].
  destruct (IH u1 (esp - 4)) as (u' & E & Hws & Hab' & Hmp'); [lia|lia|apply Hmp; intros x Hx; apply Hm; lia|].
  have Hs : esp - 4 - 4 * len ws = esp - 4 * Z.of_nat (S (length ws)) by lia. rw Hs in E Hws.
  exists u'. split_and!; [done| | |].
  - intros k v Hk. simpl in Hk. destruct (decide (k < length (rev ws))%nat) as [Hlt|Hge].
    + apply Hws. by rw lookup_app_l in Hk.
    + rw lookup_app_r in Hk; [lia|]. rw length_rev in Hge Hk. destruct (k - length ws)%nat eqn:Ek; [|by destruct n]. injection Hk as <-.
      eapply user_word_above; [exact Hab'|lia|]. by have -> : esp - 4 * Z.of_nat (S (length ws)) + 4 * Z.of_nat k = esp - 4 by lia.
  - intros x Hx. rw Hab'; [lia|]. by apply Hab.
  - intros x y Hxy. by apply Hmp', Hmp.
Qed.

(** The words below the strings. *)
Definition pointers (u : user_bytes) (esp : Z) (argc : Z) (addrs : list Z) : Prop :=
  user_word u esp 0 /\ user_word u (esp + 4) argc /\ user_word u (esp + 8) (esp + 12) /\ words_from u (esp + 12) (addrs ++ [0]).

Lemma push_pointers_ok argc addrs u e : let low := e - 4 * (len addrs + 4) in
  0 <= low -> e < 2 ^ 32 -> mapped u low e ->
  exists u', push_pointers argc addrs (u, e) = Ok (u', low) /\ pointers u' low argc addrs /\ same_above u u' e.
Proof.
  intros low Hlow He Hm. rw /push_pointers.
  destruct (push_word_ok u e 0) as (u2 & E2 & Hw2 & Hab2 & Hmp2); [lia|intros x Hx; apply Hm; lia|]. rw E2. cbn [obind].
  destruct (push_all_ok (rev addrs) u2 (e - 4)) as (u3 & E3 & Hw3 & Hab3 & Hmp3);
    [rw length_rev; lia|lia|rw length_rev; apply Hmp2; intros x Hx; apply Hm; lia|].
  rw length_rev rev_involutive in E3 Hw3. rw E3. cbn [obind fst snd]. set (e1 := e - 4 - 4 * len addrs) in *.
  have He1 : low = e1 - 12 by rw /e1 /low; lia.
  destruct (push_word_ok u3 e1 e1) as (u4 & E4 & Hw4 & Hab4 & Hmp4); [lia|apply Hmp3, Hmp2; intros x Hx; apply Hm; lia|].
  rw E4. cbn [obind].
  destruct (push_word_ok u4 (e1 - 4) argc) as (u5 & E5 & Hw5 & Hab5 & Hmp5); [lia|apply Hmp4, Hmp3, Hmp2; intros x Hx; apply Hm; lia|].
  rw E5. cbn [obind].
  destruct (push_word_ok u5 (e1 - 4 - 4) 0) as (u6 & E6 & Hw6 & Hab6 & _); [lia|apply Hmp5, Hmp4, Hmp3, Hmp2; intros x Hx; apply Hm; lia|].
  rw E6. have Hab36 : same_above u3 u6 e1 by intros x Hx; rw Hab6; [lia|]; rw Hab5; [lia|]; by apply Hab4.
  have Hab26 : same_above u2 u6 (e - 4) by intros x Hx; rw Hab36; [rw /e1; lia|]; by apply Hab3.
  exists u6. have -> : e1 - 4 - 4 - 4 = low by lia. split; [done|]. split; [|intros x Hx; rw Hab26; [lia|]; by apply Hab2].
  rw He1. split_and!.
  - by have -> : e1 - 12 = e1 - 4 - 4 - 4 by lia.
  - have -> : e1 - 12 + 4 = e1 - 4 - 4 by lia. eapply user_word_above; [exact Hab6|lia|done].
  - have -> : e1 - 12 + 8 = e1 - 4 by lia. have -> : e1 - 12 + 12 = e1 by lia.
    eapply user_word_above; [exact Hab6|lia|]. eapply user_word_above; [exact Hab5|lia|done].
  - have -> : e1 - 12 + 12 = e1 by lia. intros k v Hk. destruct (decide (k < length addrs)%nat) as [Hlt|Hge].
    + rw lookup_app_l // in Hk. eapply user_word_above; [exact Hab36|lia|]. by apply Hw3.
    + rw lookup_app_r in Hk; [lia|]. destruct (k - length addrs)%nat eqn:Ek; [|by destruct n]. injection Hk as <-.
      have -> : e1 + 4 * Z.of_nat k = e - 4 by rw /e1; lia. eapply user_word_above; [exact Hab26|lia|done].
Qed.

(** The bytes that the arguments take at most, with the words below them. *)
Definition stack_need (ws : list (list Z)) : Z := strings_size ws + 3 + 4 * (len ws + 4).

(** The stack that a program with arguments [ws] starts with: at [esp] a return
    address, the number of arguments, the address of the array of their addresses,
    which a null pointer ends, and the strings above. *)
Definition initial_stack (u : user_bytes) (esp top : Z) (ws : list (list Z)) : Prop :=
  esp mod 4 = 0 /\ top - stack_need ws <= esp /\ exists addrs, pointers u esp (len ws) addrs /\
    Forall2 (string_at u) addrs ws /\ Forall (fun a => esp + 4 * (len ws + 4) <= a < top) addrs.

Definition align_of (n : Z) : Z := if n mod 4 =? 0 then 0 else 4 - n mod 4.
Lemma align_ok n : 0 <= align_of n <= 3 /\ (n + align_of n) mod 4 = 0.
Proof.
  have Hmod := Z.mod_pos_bound n 4. rw /align_of. destruct (Z.eqb_spec (n mod 4) 0) as [Hz|Hz].
  - rw Z.add_0_r. lia.
  - split; [lia|]. have -> : n + (4 - n mod 4) = (1 + n / 4) * 4 by have := Z.div_mod n 4; lia. apply Z.mod_mul. lia.
Qed.

Lemma push_arguments_ok m argv ws u top : Forall2 (cstr m) argv ws -> top mod 4 = 0 -> stack_need ws <= top < 2 ^ 32 ->
  mapped u (top - stack_need ws) top ->
  exists u' esp, push_arguments m (len ws) argv u top = Ok (u', esp) /\ initial_stack u' esp top ws /\ same_above u u' top.
Proof.
  intros Hall Htop Hneed Hm. rw /stack_need in Hneed Hm.
  have Hsz : strings_size (rev ws) = strings_size ws.
  { clear. induction ws as [|w ws IH]; [done|]. simpl. rw strings_size_app IH /=. lia. }
  have Hnn := strings_size_nonneg ws. have [Hal Hal4] := align_ok (strings_size ws).
  destruct (push_strings_ok m (rev argv) (rev ws) u top 0 []) as (u1 & addrs & E1 & Hst & Hr & Hab1 & Hmp1);
    [rw !rev_alt; by apply Forall2_reverse|rw Hsz; lia|lia|rw Hsz; intros x Hx; apply Hm; lia|].
  rw Hsz in E1 Hr. rw /push_arguments E1 app_nil_r. cbn [obind]. rw rev_involutive in Hst. have Hlen := Forall2_length _ _ _ Hst.
  rw Z.add_0_l -/(align_of (strings_size ws)) wrap_small; [lia|].
  set (e := top - strings_size ws - align_of (strings_size ws)).
  have Hlow : e - 4 * (len addrs + 4) = top - (strings_size ws + align_of (strings_size ws)) + (- len ws - 4) * 4 by rw /e Hlen; lia.
  destruct (push_pointers_ok (len ws) addrs u1 e) as (u' & E & Hp & Hab); [rw /e Hlen; lia|rw /e; lia| |].
  { apply Hmp1. intros x Hx. apply Hm. rw Hlen /e in Hx. lia. }
  exists u', (e - 4 * (len addrs + 4)). split; [done|]. split; [|intros x Hx; rw Hab; [rw /e; lia|]; by apply Hab1].
  split_and!.
  - rw Hlow Z.mod_add // Zminus_mod Htop Hal4. done.
  - rw /stack_need. lia.
  - exists addrs. split_and!; [done| |].
    + apply Forall2_same_length_lookup in Hst as [_ Hst]. apply Forall2_same_length_lookup. split; [done|]. intros i a s Ha Hs.
      eapply string_at_above; [exact Hab| |by eapply Hst]. have Hi := proj1 (Forall_lookup _ _) Hr i a Ha. simpl in Hi. rw /e. lia.
    + eapply Forall_impl; [exact Hr|]. simpl. intros a Ha. rw Hlen /e. lia.
Qed.

(** Where [start_process] keeps its copy: a page apart from the command line and the delimiters. *)
Definition copy_area (m : list Z) (cmd file_name_ file_name dels : Z) : Prop :=
  0 < file_name /\ file_name + cmd < Z.of_nat (length m) /\
  (file_name_ + cmd < file_name \/ file_name + cmd < file_name_) /\ (dels + 1 < file_name \/ file_name + cmd < dels).

(** The copy, and the number of arguments in it. *)
Lemma start_process_parse load m cmd file_name_ file_name dels :
  cstr m file_name_ cmd -> cstr m dels [32] -> copy_area m (len cmd) file_name_ file_name dels ->
  exists m1, cstr m1 file_name cmd /\ cstr m1 dels [32] /\
    start_process load m file_name_ file_name dels =
      (assert! negb (len (tokens [32] cmd) =? 0) in
       let! (argv, m) := argv_loop (length (tokens [32] cmd)) m1 file_name dels in
       let! a0 := oget (head argv) in
       match load m a0 with
       | None => Ok None
       | Some (u, esp) => let! ue := push_arguments m (len (tokens [32] cmd)) argv u esp in Ok (Some ue)
       end).
Proof.
  intros Hc Hd (H1 & H2 & H3 & H4). rw /start_process (strlen_ok _ _ _ Hc). cbn [obind].
  destruct (copy_string_ok m file_name file_name_ cmd (len cmd)) as (m0 & m1 & E0 & E1 & Hs & Hag); [done|done|lia|lia|lia|].
  rw E0. cbn [obind]. rw E1. cbn [obind]. rw take_ge in Hs; [lia|]. rw (strlen_ok _ _ _ Hs). cbn [obind].
  have Hd1 : cstr m1 dels [32] by eapply cstr_agree; [|exact Hd]; intros a Ha; apply Hag; simpl in Ha; lia.
  exists m1. split; [done|]. split; [done|].
  rw /strspn (span_ok true m1 file_name cmd dels [32]) //. cbn [obind].
  destruct (span_skip [32] cmd) as (rest & Hsp & Ht & Hr). set (pre := span _ cmd) in *.
  have Hs' := Hs. rewrite Hsp in Hs'. have Hrest := cstr_app _ _ _ _ Hs'.
  have Hl : len cmd = len pre + len rest by rw {1}Hsp length_app; lia.
  rw (argc_loop_ok _ m1 file_name dels [32] (len cmd) (len pre) 0 rest) //; [lia|have := cstr_fuel _ _ _ Hs; lia|].
  cbn [obind]. rw Ht Z.add_0_l Nat2Z.id. done.
Qed.

(** C28: the arguments of a new process.  For every command line with at least one word,
    when [load] succeeds and the strings, the vector and the rest ([stack_need]) fit into
    the mapped stack below its top, which is aligned: [start_process] leaves on it the words
    of the command line as strings, an array of their addresses that a null pointer ends,
    its address, the number of words and a return address, with the stack pointer aligned
    and everything below the top of the stack: the state in which the start-up code of a
    program finds argc and argv.  A longer command line is not covered. *)
Theorem start_process_stack (load : list Z -> Z -> option (user_bytes * Z)) (m : list Z) (cmd : list Z)
    (file_name_ file_name dels : Z) (w : list Z) (ws : list (list Z)) (u : user_bytes) (top : Z) :
  cstr m file_name_ cmd -> cstr m dels [32] -> copy_area m (len cmd) file_name_ file_name dels ->
  tokens [32] cmd = w :: ws -> (forall m' a, cstr m' a w -> load m' a = Some (u, top)) ->
  top mod 4 = 0 -> stack_need (w :: ws) <= top < 2 ^ 32 -> mapped u (top - stack_need (w :: ws)) top ->
  exists u' esp, start_process load m file_name_ file_name dels = Ok (Some (u', esp)) /\
    initial_stack u' esp top (w :: ws) /\ same_above u u' top.
Proof.
  intros Hc Hd Ha Ht Hload Htop Hneed Hm.
  destruct (start_process_parse load m cmd file_name_ file_name dels Hc Hd Ha) as (m1 & Hs & Hd1 & E). rw E Ht.
  have -> : negb (len (w :: ws) =? 0) = true by apply negb_true_iff, Z.eqb_neq; cbn [length]; lia. cbn [ASSERT obind].
  destruct (argv_loop_ok m1 dels [32] file_name cmd Hd1 Hs) as (argv & m2 & E2 & Hall & _).
  { destruct Ha as (_ & _ & _ & H). simpl. lia. }
  rw Ht in E2 Hall. rw E2. cbn [obind]. inversion Hall as [|a ? argv' ? Hw Hall']; subst. cbn [head oget obind]. rw (Hload _ _ Hw).
  destruct (push_arguments_ok m2 (a :: argv') (w :: ws) u top Hall Htop Hneed Hm) as (u' & esp & E3 & Hst & Hab).
  rw E3. cbn [obind]. by exists u', esp.
Qed.

(** A user page below an aligned address, and a command line in kernel memory. *)
Definition ex_user : user_bytes := list_to_map ((fun a => (a, 7)) <$> seqZ 4000 96).
Definition ex_kernel : list Z := [0; 32; 0; 108; 115; 32; 32; 97; 0] ++ replicate 16 5.

Lemma start_process_stack_witness :
  exists u' esp, start_process (fun _ _ => Some (ex_user, 4096)) ex_kernel 3 10 1 = Ok (Some (u', esp)) /\
    initial_stack u' esp 4096 [[108; 115]; [97]] /\ same_above ex_user u' 4096.
Proof.
  apply (start_process_stack (fun _ _ => Some (ex_user, 4096)) ex_kernel [108; 115; 32; 32; 97] 3 10 1 [108; 115] [[97]] ex_user 4096).
  - by repeat split.
  - by repeat split.
  - by vm_compute; auto.
  - by vm_compute.
  - done.
  - done.
  - by vm_compute.
  - intros x Hx. have Hn : stack_need [[108; 115]; [97]] = 32 by done. rw Hn in Hx.
    have Hs : x ∈ seqZ 4000 96 by apply elem_of_seqZ; lia.
    exists 7. apply elem_of_list_to_map_1; [|by apply list_elem_of_fmap; exists x].
    rw -list_fmap_compose list_fmap_id. apply NoDup_seqZ.
Defined.

(** A command line without a word stops the kernel.  [start_process] counts no
    argument and fails its assertion: a user program can panic the kernel by
    executing an empty command line. *)
Theorem start_process_blank_panics (load : list Z -> Z -> option (user_bytes * Z)) (m : list Z) (cmd : list Z)
    (file_name_ file_name dels : Z) :
  cstr m file_name_ cmd -> cstr m dels [32] -> copy_area m (len cmd) file_name_ file_name dels ->
  Forall (fun c => c = 32) cmd -> start_process load m file_name_ file_name dels = Err Panic.
Proof.
  intros Hc Hd Ha Hb. destruct (start_process_parse load m cmd file_name_ file_name dels Hc Hd Ha) as (m1 & _ & _ & E). rw E.
  have -> : tokens [32] cmd = [] by clear -Hb; induction Hb as [|c cmd -> _ IH]; [done|]; exact IH. done.
Qed.

Lemma start_process_blank_panics_witness :
  start_process (fun _ _ => None) ([0; 32; 0; 32; 32; 0] ++ replicate 16 5) 3 10 1 = Err Panic.
Proof.
  apply (start_process_blank_panics (fun _ _ => None) ([0; 32; 0; 32; 32; 0] ++ replicate 16 5) [32; 32] 3 10 1).
  - by repeat split.
  - by repeat split.
  - by vm_compute; auto.
  - repeat constructor.
Defined.
