(* ===== verification/Elf.v ===== *)
(** * userprog/process.c: executables

    [load] reads the headers of an ELF file and loads the segments they name.
    Here the file is the list of its bytes, as inode.c presents it to
    [file_read]; the result is the sequence of calls of [load_segment] that
    [load] makes, in order, each with the pages it set up and its return value, and
    the entry point if [load] goes on to set up the stack.  Parameters say, for the
    page that is read at once, whether [falloc_get_frame] finds a frame and whether
    [install_page] succeeds.

    The theorem: whatever the file contains, every call of [load_segment] meets its
    assertions and ends, and the pages it fills are distinct pages of user memory,
    never page 0; each byte of them comes from the position in the file that the
    program header says, or is zero. *)
From S2P Require Import Prelude Palloc.

(** ** Headers *)
Definition half (bs : list Z) (o : nat) : Z := bs !!! o + 256 * bs !!! (o + 1)%nat.
Definition word (bs : list Z) (o : nat) : Z := half bs o + 65536 * half bs (o + 2).

Definition EHDR_SIZE : Z := 52.
Record Elf32_Ehdr := mk_ehdr {
  e_ident : list Z; e_type : Z; e_machine : Z; e_version : Z; e_entry : Z; e_phoff : Z; e_phentsize : Z; e_phnum : Z }.
Definition read_ehdr (bs : list Z) : Elf32_Ehdr :=
  mk_ehdr (take 16 bs) (half bs 16) (half bs 18) (word bs 20) (word bs 24) (word bs 28) (half bs 42) (half bs 44).

Definition PHDR_SIZE : Z := 32.
Record Elf32_Phdr := mk_phdr {
  p_type : Z; p_offset : Z; p_vaddr : Z; p_filesz : Z; p_memsz : Z; p_flags : Z }.
Definition read_phdr (bs : list Z) : Elf32_Phdr :=
  mk_phdr (word bs 0) (word bs 4) (word bs 8) (word bs 16) (word bs 20) (word bs 24).

Definition PT_LOAD : Z := 1.
Definition PT_DYNAMIC : Z := 2.
Definition PT_INTERP : Z := 3.
Definition PT_SHLIB : Z := 5.
Definition PF_W : Z := 2.

(** [file_read (file, buffer, size)] at [pos]: the bytes there are. *)
Definition read_at (file : list Z) (pos size : Z) : list Z := slice file pos size.
Definition file_len (file : list Z) : Z := Z.of_nat (length file).

Definition ehdr_ok (e : Elf32_Ehdr) : bool :=
  bool_decide (take 7 (e_ident e) = [127; 69; 76; 70; 1; 1; 1]) && (e_type e =? 2) && (e_machine e =? 3) &&
  (e_version e =? 1) && (e_phentsize e =? PHDR_SIZE) && (e_phnum e <=? 1024).

Definition validate_segment (phdr : Elf32_Phdr) (file : list Z) : bool :=
  if negb (Z.land (p_offset phdr) PGMASK =? Z.land (p_vaddr phdr) PGMASK) then false else
  if u32 (file_len file) <? p_offset phdr then false else
  if p_memsz phdr <? p_filesz phdr then false else
  if p_memsz phdr =? 0 then false else
  if negb (is_user_vaddr (p_vaddr phdr)) then false else
  if negb (is_user_vaddr (u32 (p_vaddr phdr + p_memsz phdr))) then false else
  if u32 (p_vaddr phdr + p_memsz phdr) <? p_vaddr phdr then false else
  if p_vaddr phdr <? PGSIZE then false else true.

(** The arguments of [load_segment]. *)
Record segment := mk_segment { s_ofs : Z; s_upage : Z; s_read : Z; s_zero : Z; s_writable : bool }.
Definition round_up32 (x : Z) : Z := u32 (u32 (x + PGSIZE - 1) / PGSIZE * PGSIZE).
Definition segment_of (phdr : Elf32_Phdr) : segment :=
  let file_page := Z.ldiff (p_offset phdr) PGMASK in
  let mem_page := Z.ldiff (p_vaddr phdr) PGMASK in
  let page_offset := Z.land (p_vaddr phdr) PGMASK in
  let round := round_up32 (u32 (page_offset + p_memsz phdr)) in
  let '(read_bytes, zero_bytes) :=
    if 0 <? p_filesz phdr then
      let read_bytes := u32 (page_offset + p_filesz phdr) in (read_bytes, u32 (round - read_bytes))
    else (0, round) in
  mk_segment (s32 file_page) mem_page read_bytes zero_bytes (negb (Z.land (p_flags phdr) PF_W =? 0)).

(** ** load_segment: what becomes of each page *)

(** Zero, to be read from the file when it is touched, or read now, the first [n] bytes. *)
Inductive page_source := Zero | FromFile (pos : Z) | Partial (pos n : Z).

Section loader.
(** For each user page: a frame is found, and the page table takes it. *)
Context (frame install : Z -> bool).

(** The loop, from page [upage] on, with [pos] the position in the file: the pages
    in order, and false when there is no frame for a partial page, the file is too
    short for it or the page cannot be installed.  A pass takes a page off: one for
    each page is enough. *)
Fixpoint segment_loop (fuel : nat) (file : list Z) (upage pos read_bytes zero_bytes : Z)
    : outcome (list (Z * page_source) * bool) :=
  if (0 <? read_bytes) || (0 <? zero_bytes) then
    match fuel with
    | O => Err NoFuel
    | S fuel =>
      let page_read_bytes := if read_bytes <? PGSIZE then read_bytes else PGSIZE in
      let page_zero_bytes := PGSIZE - page_read_bytes in
      let next source pos :=
        let! (rest, ok) := segment_loop fuel file (u32 (upage + PGSIZE)) pos
                             (u32 (read_bytes - page_read_bytes)) (u32 (zero_bytes - page_zero_bytes)) in
        Ok ((upage, source) :: rest, ok) in
      if page_zero_bytes =? PGSIZE then next Zero pos
      else if page_read_bytes =? PGSIZE then
        assert! 0 <=? s32 (pos + PGSIZE) in              (* [file_seek] *)
        next (FromFile pos) (s32 (pos + PGSIZE))
      else if negb (frame upage) then Ok ([], false)
      else if negb (Z.of_nat (length (read_at file pos page_read_bytes)) =? page_read_bytes) then Ok ([], false)
      else if negb (install upage) then Ok ([], false)
      else next (Partial pos page_read_bytes) (s32 (pos + page_read_bytes))
    end
  else Ok ([], true).
Definition segment_fuel (s : segment) : nat := Z.to_nat ((s_read s + s_zero s) / PGSIZE + 1).
Definition load_segment (file : list Z) (s : segment) : outcome (list (Z * page_source) * bool) :=
  assert! u32 (s_read s + s_zero s) mod PGSIZE =? 0 in
  assert! Palloc.pg_ofs (s_upage s) =? 0 in
  assert! Z.rem (s_ofs s) PGSIZE =? 0 in
  assert! 0 <=? s_ofs s in                               (* [file_seek] *)
  segment_loop (segment_fuel s) file (s_upage s) (s_ofs s) (s_read s) (s_zero s).

(** The loop over the program headers: the calls of [load_segment] with what they
    did, and false where the code gives up. *)
Definition call : Type := segment * (list (Z * page_source) * bool).
Fixpoint phdr_loop (n : nat) (file : list Z) (file_ofs : Z) : outcome (list call * bool) :=
  match n with
  | O => Ok ([], true)
  | S n =>
    if (file_ofs <? 0) || (file_len file <? file_ofs) then Ok ([], false) else
    let bs := read_at file file_ofs PHDR_SIZE in
    if negb (Z.of_nat (length bs) =? PHDR_SIZE) then Ok ([], false) else
    let file_ofs := s32 (file_ofs + PHDR_SIZE) in
    let phdr := read_phdr bs in
    if (p_type phdr =? PT_DYNAMIC) || (p_type phdr =? PT_INTERP) || (p_type phdr =? PT_SHLIB) then Ok ([], false)
    else if p_type phdr =? PT_LOAD then
      if validate_segment phdr file then
        let s := segment_of phdr in
        let! r := load_segment file s in
        if negb r.2 then Ok ([(s, r)], false) else
        let! (cs, ok) := phdr_loop n file file_ofs in Ok ((s, r) :: cs, ok)
      else Ok ([], false)
    else phdr_loop n file file_ofs
  end.

(** The calls of [load_segment], and the entry point if all succeed. *)
Definition load (file : list Z) : outcome (list call * option Z) :=
  let bs := read_at file 0 EHDR_SIZE in
  let e := read_ehdr bs in
  if negb (Z.of_nat (length bs) =? EHDR_SIZE) || negb (ehdr_ok e) then Ok ([], None) else
  let! (cs, ok) := phdr_loop (Z.to_nat (e_phnum e)) file (s32 (e_phoff e)) in
  Ok (cs, if ok then Some (e_entry e) else None).
End loader.

(** ** Segments of valid headers *)
Definition is_byte (b : Z) : Prop := 0 <= b < 256.

Lemma word_range bs o : Forall is_byte bs -> 0 <= word bs o < 2 ^ 32.
Proof.
  intros H. have Hb : forall k, 0 <= bs !!! k < 256.
  { intros k. rewrite list_lookup_total_alt. destruct (bs !! k) as [b|] eqn:E; [|done].
    by apply (proj1 (Forall_lookup _ _) H k b). }
  rewrite /word /half. have := Hb o. have := Hb (o + 1)%nat. have := Hb (o + 2)%nat. have := Hb (o + 2 + 1)%nat. lia.
Qed.

(** What the code relies on in a segment. *)
Record segment_ok (s : segment) : Prop := {
  sg_page : s_upage s mod PGSIZE = 0;
  sg_low : PGSIZE <= s_upage s;
  sg_high : s_upage s + (s_read s + s_zero s) <= PHYS_BASE;
  sg_read : 0 <= s_read s;
  sg_zero : 0 <= s_zero s;
  sg_size : (s_read s + s_zero s) mod PGSIZE = 0;
  sg_nonempty : 0 < s_read s + s_zero s;
  sg_ofs : s_ofs s mod PGSIZE = 0;
  sg_ofs_range : 0 <= s_ofs s <= INT_MAX }.

Lemma round_up_spec x : 0 <= x < 2 ^ 32 - PGSIZE ->
  round_up32 x mod PGSIZE = 0 /\ x <= round_up32 x < x + PGSIZE.
Proof.
  intros Hx. rewrite /round_up32 /PGSIZE in Hx |- *. have Hd := Z.div_mod (x + 4096 - 1) 4096. have Hm := Z.mod_pos_bound (x + 4096 - 1) 4096.
  rewrite (wrap_small 32 (x + 4096 - 1)); [lia|]. rewrite wrap_small; [lia|]. split; [apply Z.mod_mul; lia|lia].
Qed.

Lemma validate_segment_ok phdr file : validate_segment phdr file = true ->
  0 <= p_offset phdr < 2 ^ 32 -> 0 <= p_vaddr phdr < 2 ^ 32 -> 0 <= p_filesz phdr < 2 ^ 32 -> 0 <= p_memsz phdr < 2 ^ 32 ->
  file_len file <= INT_MAX ->
  p_offset phdr mod PGSIZE = p_vaddr phdr mod PGSIZE /\ p_offset phdr <= file_len file /\ p_filesz phdr <= p_memsz phdr /\
  0 < p_memsz phdr /\ PGSIZE <= p_vaddr phdr /\ p_vaddr phdr + p_memsz phdr < PHYS_BASE.
Proof.
  intros H Ho Hv Hf Hm Hl. have Hl0 : 0 <= file_len file by rewrite /file_len; lia.
  rewrite /validate_segment -/(pg_ofs (p_offset phdr)) -/(pg_ofs (p_vaddr phdr)) !pg_ofs_mod in H.
  destruct (Z.eqb_spec (p_offset phdr mod PGSIZE) (p_vaddr phdr mod PGSIZE)); [|done]. cbn [negb] in H.
  rewrite (wrap_small 32 (file_len file)) in H; [unfold INT_MAX in *; lia|].
  destruct (Z.ltb_spec (file_len file) (p_offset phdr)); [done|]. destruct (Z.ltb_spec (p_memsz phdr) (p_filesz phdr)); [done|].
  destruct (Z.eqb_spec (p_memsz phdr) 0); [done|].
  destruct (is_user_vaddr (p_vaddr phdr)) eqn:Hu; [|done]. destruct (is_user_vaddr (u32 (p_vaddr phdr + p_memsz phdr))) eqn:Hu2; [|done].
  cbn [negb] in H. destruct (Z.ltb_spec (u32 (p_vaddr phdr + p_memsz phdr)) (p_vaddr phdr)) as [|Hw]; [done|].
  destruct (Z.ltb_spec (p_vaddr phdr) PGSIZE); [done|]. rewrite /is_user_vaddr in Hu Hu2. apply Z.ltb_lt in Hu, Hu2.
  have Hnw : p_vaddr phdr + p_memsz phdr < 2 ^ 32.
  { destruct (Z.lt_ge_cases (p_vaddr phdr + p_memsz phdr) (2 ^ 32)) as [|Hge]; [done|]. exfalso.
    have Hu3 : u32 (p_vaddr phdr + p_memsz phdr) = p_vaddr phdr + p_memsz phdr - 2 ^ 32.
    { rewrite /wrap. symmetry. apply (Z.mod_unique_pos _ _ 1); lia. }
    lia. }
  rewrite wrap_small in Hu2; [lia|]. split_and!; try done; lia.
Qed.

Lemma ldiff_page x : Z.ldiff x PGMASK = x - x mod PGSIZE.
Proof. apply pg_round_down_eq. Qed.

(** The arguments that [load] computes from a valid header, without wrap-around. *)
Lemma segment_of_fields phdr file : validate_segment phdr file = true ->
  0 <= p_offset phdr < 2 ^ 32 -> 0 <= p_vaddr phdr < 2 ^ 32 -> 0 <= p_filesz phdr < 2 ^ 32 -> 0 <= p_memsz phdr < 2 ^ 32 ->
  file_len file <= INT_MAX ->
  let off := p_vaddr phdr mod PGSIZE in let s := segment_of phdr in let round := s_read s + s_zero s in
  s_ofs s = p_offset phdr - off /\ s_upage s = p_vaddr phdr - off /\
  s_read s = (if 0 <? p_filesz phdr then off + p_filesz phdr else 0) /\
  round mod PGSIZE = 0 /\ off + p_memsz phdr <= round < off + p_memsz phdr + PGSIZE /\ 0 <= s_zero s.
Proof.
  intros Hval Ho Hv Hf Hm Hl. destruct (validate_segment_ok _ _ Hval Ho Hv Hf Hm Hl) as (Hmod & Hol & Hfm & Hm0 & Hlow & Hhigh).
  rewrite /segment_of !ldiff_page -/(pg_ofs (p_vaddr phdr)) pg_ofs_mod Hmod. set (off := p_vaddr phdr mod PGSIZE) in *.
  have Hoff : 0 <= off < PGSIZE by apply Z.mod_pos_bound. have Hoo := Z.mod_le (p_offset phdr) PGSIZE. rewrite Hmod in Hoo.
  rewrite (wrap_small 32 (off + p_memsz phdr)); [unfold PHYS_BASE, PGSIZE in *; lia|].
  destruct (round_up_spec (off + p_memsz phdr)) as [Hr1 Hr2]; [unfold PHYS_BASE, PGSIZE in *; lia|].
  set (round := round_up32 (off + p_memsz phdr)) in *. have HPB : PHYS_BASE < 2 ^ 32 - PGSIZE by done.
  rewrite (swrap_small 32 (p_offset phdr - off)); [done|unfold INT_MAX, PGSIZE in *; lia|].
  destruct (Z.ltb_spec 0 (p_filesz phdr)).
  - rewrite (wrap_small 32 (off + p_filesz phdr)); [lia|]. rewrite (wrap_small 32 (round - (off + p_filesz phdr))); [lia|].
    cbn [s_ofs s_upage s_read s_zero]. have -> : off + p_filesz phdr + (round - (off + p_filesz phdr)) = round by lia. split_and!; try done; lia.
  - cbn [s_ofs s_upage s_read s_zero]. rewrite Z.add_0_l. split_and!; try done; lia.
Qed.

Lemma segment_of_ok phdr file : validate_segment phdr file = true ->
  0 <= p_offset phdr < 2 ^ 32 -> 0 <= p_vaddr phdr < 2 ^ 32 -> 0 <= p_filesz phdr < 2 ^ 32 -> 0 <= p_memsz phdr < 2 ^ 32 ->
  file_len file <= INT_MAX -> segment_ok (segment_of phdr).
Proof.
  intros Hval Ho Hv Hf Hm Hl. destruct (validate_segment_ok _ _ Hval Ho Hv Hf Hm Hl) as (Hmod & Hol & Hfm & Hm0 & Hlow & Hhigh).
  destruct (segment_of_fields _ _ Hval Ho Hv Hf Hm Hl) as (E1 & E2 & E3 & E4 & E5 & E6). set (s := segment_of phdr) in *.
  have Hoff := Z.mod_pos_bound (p_vaddr phdr) PGSIZE. have Hdv := Z.div_mod (p_vaddr phdr) PGSIZE. have Hdo := Z.div_mod (p_offset phdr) PGSIZE.
  have Hdr := Z.div_mod (s_read s + s_zero s) PGSIZE. have Hr0 : 0 <= s_read s by (rewrite E3; destruct (Z.ltb_spec 0 (p_filesz phdr)); unfold PGSIZE in *; lia).
  have Hmul : forall x q, x = q * PGSIZE -> x mod PGSIZE = 0 by (intros x q ->; apply Z.mod_mul).
  split; rewrite ?E1 ?E2; try done; try (unfold PHYS_BASE, INT_MAX, PGSIZE in *; lia).
  - apply (Hmul _ (p_vaddr phdr / PGSIZE)). unfold PGSIZE in *. lia.
  - apply (Hmul _ (p_offset phdr / PGSIZE)). rewrite Hmod in Hdo. unfold PGSIZE in *. lia.
Qed.

(** ** The pages of a segment *)

(** Where the program header says that the contents of page [k] come from. *)
Definition page_plan (upage pos read : Z) (k : nat) : Z * page_source :=
  let b := PGSIZE * Z.of_nat k in
  (upage + b, if read <=? b then Zero else if b + PGSIZE <=? read then FromFile (pos + b) else Partial (pos + b) (read - b)).
Definition plan (upage pos read : Z) (n : nat) : list (Z * page_source) := page_plan upage pos read <$> seq 0 n.

Lemma plan_S upage pos read n : 0 <= read ->
  plan upage pos read (S n) = page_plan upage pos read 0 ::
    plan (upage + PGSIZE) (pos + Z.min read PGSIZE) (Z.max 0 (read - PGSIZE)) n.
Proof.
  intros Hr. rewrite /plan. cbn [seq]. rewrite fmap_cons. f_equal. rewrite -fmap_S_seq -list_fmap_compose.
  apply list_fmap_ext. intros _ k _. rewrite /page_plan /=. unfold PGSIZE in *.
  have -> : 4096 * Z.of_nat (S k) = 4096 + 4096 * Z.of_nat k by lia. f_equal; [lia|].
  destruct (Z.leb_spec read (4096 + 4096 * Z.of_nat k)), (Z.leb_spec (Z.max 0 (read - 4096)) (4096 * Z.of_nat k)); try lia; [done|].
  destruct (Z.leb_spec (4096 + 4096 * Z.of_nat k + 4096) read), (Z.leb_spec (4096 * Z.of_nat k + 4096) (Z.max 0 (read - 4096))); try lia; f_equal; lia.
Qed.

Lemma read_at_short file pos n : 0 <= pos -> 0 <= n ->
  (Z.of_nat (length (read_at file pos n)) =? n) = (n =? 0) || (pos + n <=? file_len file).
Proof.
  intros Hp Hn. rewrite /read_at /slice length_take length_drop /file_len.
  destruct (Z.eqb_spec n 0); [apply Z.eqb_eq; lia|]. simpl. destruct (Z.leb_spec (pos + n) (Z.of_nat (length file))); [apply Z.eqb_eq|apply Z.eqb_neq]; lia.
Qed.

Section loader_proofs.
Context (frame install : Z -> bool).

(** The call succeeds: the page that holds the end of the bytes of the file, if they
    do not end at a page boundary, gets a frame, is in the file and is installed. *)
Definition complete (file : list Z) (upage pos read : Z) : bool :=
  (read mod PGSIZE =? 0) ||
  (frame (upage + read / PGSIZE * PGSIZE) && (pos + read <=? file_len file) && install (upage + read / PGSIZE * PGSIZE)).

(** The loop of [load_segment] ends and does what the header says; it gives up at
    the partial page when that page cannot be had. *)
Lemma segment_loop_ok n fuel file upage pos read zero :
  read + zero = PGSIZE * Z.of_nat n -> 0 <= read -> 0 <= zero -> 0 <= pos -> pos + read <= INT_MAX ->
  0 <= upage -> upage + PGSIZE * Z.of_nat n <= PHYS_BASE -> (n <= fuel)%nat ->
  segment_loop frame install fuel file upage pos read zero =
    Ok (if complete file upage pos read then plan upage pos read n else take (Z.to_nat (read / PGSIZE)) (plan upage pos read n),
        complete file upage pos read).
Proof.
  revert fuel upage pos read zero. induction n as [|n IH]; intros fuel upage pos read zero Hs Hr Hz Hp Hpi Hu Hup Hf.
  { have -> : read = 0 by unfold PGSIZE in *; lia. have -> : zero = 0 by unfold PGSIZE in *; lia. by destruct fuel. }
  destruct fuel as [|fuel]; [lia|]. cbn [segment_loop].
  have Hgo : (0 <? read) || (0 <? zero) = true.
  { apply orb_true_iff. rewrite !Z.ltb_lt. unfold PGSIZE in *. lia. }
  rewrite Hgo plan_S //. have HPB : PHYS_BASE < 2 ^ 32 by done.
  rewrite (wrap_small 32 (upage + PGSIZE)); [unfold PGSIZE in *; lia|].
  destruct (Z.ltb_spec read PGSIZE) as [Hlt|Hge].
  - rewrite (wrap_small 32 (read - read)); [lia|]. rewrite Z.sub_diag.
    rewrite (wrap_small 32 (zero - (PGSIZE - read))); [unfold PGSIZE in *; lia|].
    have HIH : forall p, 0 <= p <= INT_MAX -> segment_loop frame install fuel file (upage + PGSIZE) p 0 (zero - (PGSIZE - read)) = Ok (plan (upage + PGSIZE) p 0 n, true).
    { intros p Hpp. rewrite IH //; try lia; unfold PGSIZE in *; lia. }
    rewrite Z.min_l; [lia|]. rewrite Z.max_l; [lia|].
    have Hdiv : read / PGSIZE = 0 by apply Z.div_small; lia. have Hmod : read mod PGSIZE = read by apply Z.mod_small; lia.
    destruct (Z.eqb_spec (PGSIZE - read) PGSIZE) as [Hr0|Hr0].
    + have Hr00 : read = 0 by lia. subst read. rewrite /complete Zmod_0_l. cbn [Z.eqb orb]. rewrite HIH; [lia|]. rewrite Z.add_0_r /page_plan. cbn [obind]. rewrite Z.mul_0_r Z.add_0_r. done.
    + rewrite (proj2 (Z.eqb_neq read PGSIZE)); [lia|]. rewrite read_at_short // /complete Hmod.
      rewrite (proj2 (Z.eqb_neq read 0)); [lia|]. cbn [orb]. rewrite Hdiv Z.mul_0_l Z.add_0_r. destruct (frame upage); cbn [negb andb]; [|done].
      destruct (Z.leb_spec (pos + read) (file_len file)); cbn [negb andb]; [|done]. destruct (install upage); cbn [negb]; [|done].
      rewrite swrap_small; [done|unfold INT_MAX in *; lia|]. rewrite HIH; [lia|]. cbn [obind]. do 3 f_equal. rewrite /page_plan Z.mul_0_r !Z.add_0_r Z.sub_0_r.
      rewrite (proj2 (Z.leb_gt read 0)); [lia|]. by rewrite (proj2 (Z.leb_gt (0 + PGSIZE) read)); [lia|].
  - rewrite Z.sub_diag. rewrite (proj2 (Z.eqb_neq 0 PGSIZE)) //. rewrite Z.eqb_refl Z.sub_0_r.
    rewrite (wrap_small 32 (read - PGSIZE)); [unfold PGSIZE, PHYS_BASE in *; lia|]. rewrite (wrap_small 32 zero); [unfold PGSIZE, PHYS_BASE in *; lia|].
    rewrite swrap_small; [done|unfold INT_MAX, PGSIZE in *; lia|]. rewrite (proj2 (Z.leb_le 0 (pos + PGSIZE))); [unfold PGSIZE in *; lia|]. cbn [ASSERT obind].
    rewrite IH; [unfold PGSIZE in *; lia..|]. cbn [obind]. rewrite Z.min_r; [lia|]. rewrite Z.max_r; [lia|].
    have Hq : (read - PGSIZE) / PGSIZE = read / PGSIZE - 1.
    { have -> : read - PGSIZE = read + (-1) * PGSIZE by lia. by rewrite Z.div_add. }
    have Hc : complete file (upage + PGSIZE) (pos + PGSIZE) (read - PGSIZE) = complete file upage pos read.
    { have Eu : upage + PGSIZE + (read - PGSIZE) / PGSIZE * PGSIZE = upage + read / PGSIZE * PGSIZE by rewrite Hq; lia. rewrite /complete Eu. have -> : (read - PGSIZE) mod PGSIZE = read mod PGSIZE by rewrite -(Z.mod_add (read - PGSIZE) 1) // Z.mul_1_l Z.sub_add.
      by have -> : pos + PGSIZE + (read - PGSIZE) = pos + read by lia. }
    have Hd : Z.to_nat (read / PGSIZE) = S (Z.to_nat ((read - PGSIZE) / PGSIZE)).
    { rewrite Hq. have := Z.div_pos (read - PGSIZE) PGSIZE. unfold PGSIZE in *. lia. }
    rewrite Hc Hd. have Hpp : page_plan upage pos read 0 = (upage, FromFile pos).
    { rewrite /page_plan Z.mul_0_r !Z.add_0_r. rewrite (proj2 (Z.leb_gt read 0)); [unfold PGSIZE in *; lia|]. by rewrite (proj2 (Z.leb_le (0 + PGSIZE) read)). }
    rewrite Hpp. by destruct (complete file upage pos read).
Qed.

(** Beyond 2 GB in the file, the position becomes negative and [file_seek] fails. *)
Lemma segment_loop_panics n fuel file upage pos read zero :
  read + zero = PGSIZE * Z.of_nat n -> 0 <= read -> 0 <= zero -> 0 <= pos < 2 ^ 31 -> pos mod PGSIZE = 0 -> 2 ^ 31 <= pos + read ->
  0 <= upage -> upage + PGSIZE * Z.of_nat n <= PHYS_BASE -> (n <= fuel)%nat ->
  segment_loop frame install fuel file upage pos read zero = Err Panic.
Proof.
  revert fuel upage pos read zero. induction n as [|n IH]; intros fuel upage pos read zero Hs Hr Hz Hp Hal Hbig Hu Hup Hf; [unfold PGSIZE in *; lia|].
  destruct fuel as [|fuel]; [lia|]. cbn [segment_loop]. have Hd := Z.div_mod pos PGSIZE.
  have Hroom : pos + PGSIZE <= 2 ^ 31 by unfold PGSIZE in *; lia.
  rewrite (proj2 (Z.ltb_lt 0 read)); [lia|]. cbn [orb]. rewrite (proj2 (Z.ltb_ge read PGSIZE)); [lia|].
  rewrite Z.sub_diag (proj2 (Z.eqb_neq 0 PGSIZE)) // Z.eqb_refl Z.sub_0_r.
  have HPB : PHYS_BASE < 2 ^ 32 by done.
  destruct (Z.eq_dec (pos + PGSIZE) (2 ^ 31)) as [-> | Hne]; [done|].
  rewrite swrap_small; [done|unfold PGSIZE in *; lia|]. rewrite (proj2 (Z.leb_le 0 (pos + PGSIZE))); [unfold PGSIZE in *; lia|]. cbn [ASSERT obind].
  rewrite (wrap_small 32 (upage + PGSIZE)); [unfold PGSIZE in *; lia|].
  rewrite (wrap_small 32 (read - PGSIZE)); [unfold PGSIZE, PHYS_BASE in *; lia|]. rewrite (wrap_small 32 zero); [unfold PGSIZE, PHYS_BASE in *; lia|].
  rewrite IH //; try (unfold PGSIZE in *; lia). by rewrite -(Z.mul_1_l PGSIZE) Z.mod_add.
Qed.

(** ** What [load] passes to [load_segment] *)

(** The pages of a segment. *)
Definition page_count (s : segment) : nat := Z.to_nat ((s_read s + s_zero s) / PGSIZE).
Definition segment_plan (s : segment) : list (Z * page_source) := plan (s_upage s) (s_ofs s) (s_read s) (page_count s).

Lemma load_segment_assertions file s : segment_ok s ->
  load_segment frame install file s = segment_loop frame install (segment_fuel s) file (s_upage s) (s_ofs s) (s_read s) (s_zero s) /\
  s_read s + s_zero s = PGSIZE * Z.of_nat (page_count s) /\ (page_count s <= segment_fuel s)%nat.
Proof.
  intros [H1 H2 H3 H4 H5 H6 H7 H8 H9]. have HPB : PHYS_BASE < 2 ^ 32 by done.
  have Hd := Z.div_mod (s_read s + s_zero s) PGSIZE. have Hp := Z.div_pos (s_read s + s_zero s) PGSIZE.
  split; [|rewrite /page_count /segment_fuel; unfold PGSIZE in *; lia].
  rewrite /load_segment wrap_small; [unfold PGSIZE in *; lia|]. rewrite H6 pg_ofs_mod H1 Z.rem_mod_nonneg //; [lia|]. rewrite H8.
  by rewrite (proj2 (Z.leb_le 0 (s_ofs s))); [lia|].
Qed.

(** Where byte [i] of a page comes from: a position in the file, or nowhere (zero). *)
Definition source_pos (src : page_source) (i : Z) : option Z :=
  match src with
  | Zero => None
  | FromFile pos => Some (pos + i)
  | Partial pos n => if i <? n then Some (pos + i) else None
  end.

(** What the program header [phdr] asks of a call of [load_segment]: [s] are its
    arguments, [pages] what it sets up and [ok] its return value.  The byte of memory
    at [p_vaddr + d] is the byte of the file at [p_offset + d], below [p_filesz], and
    zero from there; the bytes of the first page below [p_vaddr] are those of the file
    below [p_offset].  The call fails if the bytes of the file end within a page and
    that page has no frame, is not all in the file, or cannot be installed. *)
Record loaded (file : list Z) (phdr : Elf32_Phdr) (c : call) : Prop := {
  ld_type : p_type phdr = PT_LOAD;
  ld_space : PGSIZE <= p_vaddr phdr /\ p_vaddr phdr + p_memsz phdr < PHYS_BASE /\ 0 < p_memsz phdr;
  ld_writable : s_writable c.1 = Z.testbit (p_flags phdr) 1;
  ld_distinct : NoDup c.2.1.*1;
  ld_user : forall u, u ∈ c.2.1.*1 -> u mod PGSIZE = 0 /\ PGSIZE <= u /\ u + PGSIZE <= PHYS_BASE;
  ld_cover : c.2.2 = true -> forall u, u ∈ c.2.1.*1 <-> u mod PGSIZE = 0 /\ p_vaddr phdr < u + PGSIZE /\ u < p_vaddr phdr + p_memsz phdr;
  ld_bytes : forall u src i, (u, src) ∈ c.2.1 -> 0 <= i < PGSIZE ->
    source_pos src i = if (0 <? p_filesz phdr) && (u + i <? p_vaddr phdr + p_filesz phdr)
                       then Some (p_offset phdr + (u + i - p_vaddr phdr)) else None;
  ld_fails : let fend := p_vaddr phdr + p_filesz phdr in let u := fend - fend mod PGSIZE in
    c.2.2 = false <-> 0 < p_filesz phdr /\ fend mod PGSIZE <> 0 /\
      (frame u = false \/ file_len file < p_offset phdr + p_filesz phdr \/ install u = false) }.

Lemma plan_elem upage pos read n u src : (u, src) ∈ plan upage pos read n -> exists k, (k < n)%nat /\ (u, src) = page_plan upage pos read k.
Proof. rewrite /plan list_elem_of_fmap. intros (k & -> & Hk%elem_of_seq). exists k. split; [lia|done]. Qed.
Lemma plan_pages upage pos read n u : u ∈ (plan upage pos read n).*1 <-> exists k, (k < n)%nat /\ u = upage + PGSIZE * Z.of_nat k.
Proof.
  rewrite /plan -list_fmap_compose list_elem_of_fmap. setoid_rewrite elem_of_seq. rewrite /page_plan /compose /=. split; intros (k & H1 & H2); exists k; (split; [lia|lia]).
Qed.
Lemma plan_NoDup upage pos read n : NoDup (plan upage pos read n).*1.
Proof.
  rewrite /plan -list_fmap_compose. apply NoDup_fmap_2_strong; [|apply NoDup_seq]. intros x y _ _. rewrite /page_plan /compose /=. unfold PGSIZE. lia.
Qed.
Lemma land_2 x : negb (Z.land x 2 =? 0) = Z.testbit x 1.
Proof.
  have Hb : Z.testbit (Z.land x 2) 1 = Z.testbit x 1 by rewrite Z.land_spec andb_true_r. destruct (Z.eqb_spec (Z.land x 2) 0) as [E|E].
  - by rewrite -Hb E.
  - symmetry. rewrite -Hb. destruct (Z.testbit (Z.land x 2) 1) eqn:E1; [done|]. destruct E. apply Z.bits_inj' => k Hk. rewrite Z.bits_0.
    destruct (Z.eq_dec k 1) as [->|Hne]; [done|]. rewrite Z.land_spec (Z.pow2_bits_false 1 k) ?andb_false_r //.
Qed.

Lemma plan_bytes upage pos read k u src i : (u, src) = page_plan upage pos read k -> 0 <= i < PGSIZE ->
  upage <= u /\ source_pos src i = if u + i <? upage + read then Some (pos + (u + i - upage)) else None.
Proof.
  rewrite /page_plan. intros [= -> ->] Hi. split; [unfold PGSIZE; lia|].
  destruct (Z.leb_spec read (PGSIZE * Z.of_nat k)); [|destruct (Z.leb_spec (PGSIZE * Z.of_nat k + PGSIZE) read)]; cbn [source_pos];
    [|destruct (Z.ltb_spec (upage + PGSIZE * Z.of_nat k + i) (upage + read)); [f_equal; lia|lia]|
      destruct (Z.ltb_spec i (read - PGSIZE * Z.of_nat k))];
    destruct (Z.ltb_spec (upage + PGSIZE * Z.of_nat k + i) (upage + read)); try lia; try done. f_equal. lia.
Qed.
Lemma complete_false file upage pos read : complete file upage pos read = false <->
  read mod PGSIZE <> 0 /\ (frame (upage + read - read mod PGSIZE) = false \/ file_len file < pos + read \/ install (upage + read - read mod PGSIZE) = false).
Proof.
  rewrite /complete. have -> : upage + read / PGSIZE * PGSIZE = upage + read - read mod PGSIZE by (have := Z.div_mod read PGSIZE; unfold PGSIZE; lia).
  rewrite orb_false_iff !andb_false_iff Z.eqb_neq Z.leb_gt. tauto.
Qed.

(** A call that [load] makes for a valid header does what the header asks. *)
Lemma call_loaded file phdr : validate_segment phdr file = true -> p_type phdr = PT_LOAD ->
  0 <= p_offset phdr < 2 ^ 32 -> 0 <= p_vaddr phdr < 2 ^ 32 -> 0 <= p_filesz phdr < 2 ^ 32 -> 0 <= p_memsz phdr < 2 ^ 32 ->
  file_len file <= INT_MAX -> p_offset phdr + p_filesz phdr <= INT_MAX ->
  exists r, load_segment frame install file (segment_of phdr) = Ok r /\ loaded file phdr (segment_of phdr, r).
Proof.
  intros Hval Ht Ho Hv Hf Hm Hl Hi. have Hok := segment_of_ok _ _ Hval Ho Hv Hf Hm Hl. destruct (load_segment_assertions file _ Hok) as (E & Hn & Hfu).
  destruct (validate_segment_ok _ _ Hval Ho Hv Hf Hm Hl) as (Hmod & Hol & Hfm & Hm0 & Hlow & Hhigh).
  destruct (segment_of_fields _ _ Hval Ho Hv Hf Hm Hl) as (E1 & E2 & E3 & E4 & E5 & E6).
  have Hw : s_writable (segment_of phdr) = Z.testbit (p_flags phdr) 1 by rewrite -land_2 /segment_of; destruct (0 <? p_filesz phdr).
  set (s := segment_of phdr) in *. destruct Hok as [H1 H2 H3 H4 H5 H6 H7 H8 H9]. have Hoff := Z.mod_pos_bound (p_vaddr phdr) PGSIZE.
  have Hdv := Z.div_mod (p_vaddr phdr) PGSIZE.
  have Hir : s_ofs s + s_read s <= INT_MAX by (rewrite E1 E3; destruct (Z.ltb_spec 0 (p_filesz phdr)); unfold PGSIZE in *; lia).
  rewrite E (segment_loop_ok (page_count s)); [unfold PGSIZE in *; lia..|]. eexists. split; [done|].
  set (ok := complete file (s_upage s) (s_ofs s) (s_read s)). rewrite -/(segment_plan s).
  have Hsub : forall k (l : list (Z * page_source)) x, x ∈ take k l -> x ∈ l by (intros k l x Hx; rewrite -(take_drop k l); apply elem_of_app; by left).
  have Hin : forall x, x ∈ (if ok then segment_plan s else take (Z.to_nat (s_read s / PGSIZE)) (segment_plan s)) -> x ∈ segment_plan s by (intros x; destruct ok; [done|apply Hsub]).
  have Hcov : forall u, u ∈ (segment_plan s).*1 <-> u mod PGSIZE = 0 /\ p_vaddr phdr < u + PGSIZE /\ u < p_vaddr phdr + p_memsz phdr.
  { intros u. rewrite /segment_plan plan_pages. split.
    - intros (k & Hk & ->). rewrite Z.mul_comm Z.mod_add // H1. unfold PGSIZE in *. lia.
    - intros (Hu & Hu1 & Hu2). have Hdu := Z.div_mod u PGSIZE. have Hds := Z.div_mod (s_upage s) PGSIZE. have Hdr := Z.div_mod (s_read s + s_zero s) PGSIZE.
      exists (Z.to_nat (u / PGSIZE - s_upage s / PGSIZE)). unfold PGSIZE in *. lia. }
  have Hcov' : forall u, u ∈ (segment_plan s).*1 -> u mod PGSIZE = 0 /\ PGSIZE <= u /\ u + PGSIZE <= PHYS_BASE.
  { intros u (k & Hk & ->)%plan_pages. rewrite Z.mul_comm Z.mod_add // H1. unfold PGSIZE in *. lia. }
  split; cbn [fst snd]; try done.
  - destruct ok; [apply plan_NoDup|]. rewrite fmap_take. eapply sublist_NoDup; [apply plan_NoDup|]. apply sublist_take.
  - intros u Hu. apply Hcov'. apply list_elem_of_fmap in Hu as (x & -> & Hx). apply list_elem_of_fmap_2. by apply Hin.
  - by intros ->.
  - intros u src i Hx Hi0. apply Hin, plan_elem in Hx as (k & Hk & Hx). destruct (plan_bytes _ _ _ _ _ _ i Hx Hi0) as [Hge ->].
    rewrite E1 E3. rewrite E2 in Hge |- *. destruct (Z.ltb_spec 0 (p_filesz phdr)); cbn [andb].
    + have -> : p_vaddr phdr - p_vaddr phdr mod PGSIZE + (p_vaddr phdr mod PGSIZE + p_filesz phdr) = p_vaddr phdr + p_filesz phdr by lia.
      destruct (u + i <? _); [f_equal; lia|done].
    + by rewrite (proj2 (Z.ltb_ge _ _)); [lia|].
  - rewrite complete_false E1 E2 E3. destruct (Z.ltb_spec 0 (p_filesz phdr)); [|rewrite Zmod_0_l; split; [tauto|lia]].
    have -> : p_vaddr phdr - p_vaddr phdr mod PGSIZE + (p_vaddr phdr mod PGSIZE + p_filesz phdr) = p_vaddr phdr + p_filesz phdr by lia.
    have -> : p_offset phdr - p_vaddr phdr mod PGSIZE + (p_vaddr phdr mod PGSIZE + p_filesz phdr) = p_offset phdr + p_filesz phdr by lia.
    rewrite Zplus_mod_idemp_l. tauto.
Qed.

(** A segment that ends beyond 2 GB in the file makes [file_seek] panic. *)
Lemma call_panics file phdr : validate_segment phdr file = true ->
  0 <= p_offset phdr < 2 ^ 32 -> 0 <= p_vaddr phdr < 2 ^ 32 -> 0 <= p_filesz phdr < 2 ^ 32 -> 0 <= p_memsz phdr < 2 ^ 32 ->
  file_len file <= INT_MAX -> INT_MAX < p_offset phdr + p_filesz phdr ->
  load_segment frame install file (segment_of phdr) = Err Panic.
Proof.
  intros Hval Ho Hv Hf Hm Hl Hi. have Hok := segment_of_ok _ _ Hval Ho Hv Hf Hm Hl. destruct (load_segment_assertions file _ Hok) as (-> & Hn & Hfu).
  destruct (validate_segment_ok _ _ Hval Ho Hv Hf Hm Hl) as (_ & Hol & _).
  destruct (segment_of_fields _ _ Hval Ho Hv Hf Hm Hl) as (E1 & E2 & E3 & _). set (s := segment_of phdr) in *. destruct Hok as [H1 H2 H3 H4 H5 H6 H7 H8 H9].
  have Hir : INT_MAX < s_ofs s + s_read s by (rewrite E1 E3; destruct (Z.ltb_spec 0 (p_filesz phdr)); lia).
  apply (segment_loop_panics (page_count s)); unfold INT_MAX, PGSIZE in *; try done; lia.
Qed.

(** ** The program headers *)
Fixpoint headers_from (n : nat) (file : list Z) (ofs : Z) : list Elf32_Phdr :=
  match n with O => [] | S n => read_phdr (read_at file ofs PHDR_SIZE) :: headers_from n file (s32 (ofs + PHDR_SIZE)) end.
(** The headers of type [PT_LOAD] in the table that the header of the file describes. *)
Definition load_headers (file : list Z) : list Elf32_Phdr :=
  let e := read_ehdr (read_at file 0 EHDR_SIZE) in
  filter (fun h => p_type h = PT_LOAD) (headers_from (Z.to_nat (e_phnum e)) file (s32 (e_phoff e))).

(** What a walk over the headers [hs] does: calls for a first part of them, all
    successful but perhaps the last, and for all of them if the walk succeeds. *)
Definition walked (file : list Z) (hs : list Elf32_Phdr) (r : outcome (list call * bool)) : Prop :=
  match r with
  | Ok (cs, ok) => exists hs1 hs2, hs = hs1 ++ hs2 /\ Forall2 (loaded file) hs1 cs /\ (forall k c, cs !! k = Some c -> c.2.2 = false -> S k = length cs) /\
                     (ok = true -> hs2 = [] /\ Forall (fun c => c.2.2 = true) cs)
  | Err e => e = Panic /\ exists h, h ∈ hs /\ validate_segment h file = true /\ INT_MAX < p_offset h + p_filesz h
  end.
Lemma walked_stop file hs : walked file hs (Ok ([], false)).
Proof. exists [], hs. split_and!; try done. Qed.
Lemma phdr_loop_ok n file ofs : Forall is_byte file -> file_len file <= INT_MAX ->
  walked file (filter (fun h => p_type h = PT_LOAD) (headers_from n file ofs)) (phdr_loop frame install n file ofs).
Proof.
  intros Hb Hl. revert ofs. induction n as [|n IH]; intros ofs; cbn [phdr_loop headers_from].
  { exists [], []. split_and!; try done; constructor. }
  destruct ((ofs <? 0) || _); [apply walked_stop|]. destruct (negb _); [apply walked_stop|].
  have Hw : forall o, 0 <= word (read_at file ofs PHDR_SIZE) o < 2 ^ 32 by (intros o; apply word_range; by apply Forall_take, Forall_drop).
  set phdr := read_phdr _. destruct ((p_type phdr =? PT_DYNAMIC) || _ || _) eqn:Ebad; [apply walked_stop|].
  destruct (Z.eqb_spec (p_type phdr) PT_LOAD) as [Et|Et]; [|by rewrite filter_cons_False]. rewrite filter_cons_True //.
  destruct (validate_segment phdr file) eqn:Hv; [|apply walked_stop].
  destruct (Z.le_gt_cases (p_offset phdr + p_filesz phdr) INT_MAX) as [Hi|Hi].
  2:{ rewrite (call_panics file phdr) //; try apply Hw. split; [done|]. exists phdr. split; [apply list_elem_of_here|done]. }
  destruct (call_loaded file phdr) as (r & -> & Hld); try done; try apply Hw. cbn [obind].
  have H := IH (s32 (ofs + PHDR_SIZE)). set hs := filter _ (headers_from _ _ _) in H |- *. destruct r as [pages [|]]; cbn [negb snd].
  2:{ exists [phdr], hs. split_and!; try done; [by apply Forall2_cons_2; [|apply Forall2_nil_2]|]. intros [|k] c; [done|]. by rewrite /= lookup_nil. }
  destruct (phdr_loop frame install n file _) as [[cs ok]|e]; cbn [obind walked] in H |- *.
  - destruct H as (hs1 & hs2 & -> & H2 & Hlast & Hall). exists (phdr :: hs1), hs2. split_and!; [done|by constructor| |].
    + intros [|k] c Hk Hc; [by simplify_eq/=|]. cbn [length]. f_equal. by apply (Hlast k c).
    + intros Hok. destruct (Hall Hok). split; [done|by constructor].
  - destruct H as (-> & h & Hh & Hr). split; [done|]. exists h. split; [by apply list_elem_of_further|done].
Qed.
End loader_proofs.

(** C29: [load] maps what the program headers say.  For every file of at most 2 GB,
    whatever bytes it holds, and whatever the frame table and the page table answer:
    if [load] returns, it has called [load_segment] for the headers of type [PT_LOAD]
    in the order of the table, for a first part of them, and each call did what its
    header asks ([loaded]): distinct pages of user memory above page 0, each byte from
    the position in the file that [p_offset], [p_vaddr] and [p_filesz] give or zero,
    writable as [p_flags] says; only the last call can have failed.  If it goes on to
    set up the stack, every header was loaded, all pages of [p_vaddr], [p_memsz], and
    the entry point is that of the file's header.  The only panic is that of a segment
    that claims to end beyond 2 GB in the file. *)
Theorem load_segments_safe (frame install : Z -> bool) (file : list Z) :
  Forall is_byte file -> file_len file <= INT_MAX ->
  match load frame install file with
  | Ok (cs, entry) =>
    exists hs1 hs2, load_headers file = hs1 ++ hs2 /\ Forall2 (loaded frame install file) hs1 cs /\
      (forall k c, cs !! k = Some c -> c.2.2 = false -> S k = length cs) /\
      (forall e, entry = Some e -> hs2 = [] /\ Forall (fun c => c.2.2 = true) cs /\ e = e_entry (read_ehdr (read_at file 0 EHDR_SIZE)))
  | Err e => e = Panic /\ exists h, h ∈ load_headers file /\ validate_segment h file = true /\ INT_MAX < p_offset h + p_filesz h
  end.
Proof.
  intros Hb Hl. rewrite /load /load_headers. set e := read_ehdr _. destruct (negb _ || negb _).
  { eexists [], _. split; [done|]. split; [constructor|done]. }
  have H := phdr_loop_ok frame install (Z.to_nat (e_phnum e)) file (s32 (e_phoff e)) Hb Hl.
  destruct (phdr_loop _ _ _ _ _) as [[cs ok]|x]; cbn [obind walked] in H |- *; [|done].
  destruct H as (hs1 & hs2 & -> & H2 & H3 & H4). exists hs1, hs2. split_and!; try done.
  intros x. destruct ok; [|done]. intros [= <-]. by destruct H4.
Qed.

(** An executable with one segment of 5 bytes of file and 5000 of memory. *)
Definition ex_elf : list Z :=
  [127; 69; 76; 70; 1; 1; 1; 0; 0; 0; 0; 0; 0; 0; 0; 0] ++ [2; 0; 3; 0; 1; 0; 0; 0] ++ [84; 128; 4; 8] ++ [52; 0; 0; 0] ++
  [0; 0; 0; 0; 0; 0; 0; 0] ++ [52; 0; 32; 0; 1; 0; 0; 0; 0; 0; 0; 0] ++
  [1; 0; 0; 0] ++ [84; 0; 0; 0] ++ [84; 128; 4; 8] ++ [0; 0; 0; 0] ++ [5; 0; 0; 0] ++ [136; 19; 0; 0] ++ [6; 0; 0; 0] ++ [0; 16; 0; 0] ++
  [144; 144; 144; 144; 195].
Definition ex_call : call := (mk_segment 0 0x8048000 89 8103 true, ([(0x8048000, Partial 0 89); (0x8049000, Zero)], true)).
Definition ex_phdr : Elf32_Phdr := mk_phdr 1 84 0x8048054 5 5000 6.

Lemma load_segments_safe_witness :
  load (fun _ => true) (fun _ => true) ex_elf = Ok ([ex_call], Some 0x8048054) /\
  load_headers ex_elf = [ex_phdr] /\ loaded (fun _ => true) (fun _ => true) ex_elf ex_phdr ex_call.
Proof.
  have E : load (fun _ => true) (fun _ => true) ex_elf = Ok ([ex_call], Some 0x8048054) by vm_compute.
  have Eh : load_headers ex_elf = [ex_phdr] by vm_compute.
  have H := load_segments_safe (fun _ => true) (fun _ => true) ex_elf. rewrite E Eh in H.
  destruct H as (hs1 & hs2 & Hh & H2 & _ & He); [repeat constructor; rewrite /is_byte; lia|by vm_compute|]. destruct (He 0x8048054) as (-> & _); [done|].
  rewrite app_nil_r in Hh. rewrite -Hh in H2. split_and!; [done|done|]. by inversion H2.
Defined.
