(* ===== verification/PageDir.v ===== *)
(** * threads/pte.h and userprog/pagedir.c: page directories

    Page directories and page tables are pages of the kernel pool of Palloc.v,
    read and written as 32-bit words of its memory.  [cr3] is the page directory
    base register and [tlb] what the processor has cached of the active
    directory, by virtual page number: the reason for [invalidate_pagedir].
    [translate] is the mapping that a directory represents; the theorems say what
    each function does to it, for every directory at once, and that the cache
    never disagrees with the tables. *)
From S2P Require Import Prelude Bitmap Palloc.

(** ** threads/pte.h *)
Definition PTSHIFT : Z := PGBITS.
Definition PTBITS : Z := 10.
Definition PTMASK : Z := Z.shiftl (Z.ones PTBITS) PTSHIFT.
Definition PDSHIFT : Z := PTSHIFT + PTBITS.
Definition pt_no (va : Z) : Z := Z.shiftr (Z.land va PTMASK) PTSHIFT.
Definition pd_no (va : Z) : Z := Z.shiftr va PDSHIFT.

Definition PTE_ADDR : Z := 0xfffff000.
Definition PTE_P : Z := 0x1.
Definition PTE_W : Z := 0x2.
Definition PTE_U : Z := 0x4.
Definition PTE_A : Z := 0x20.
Definition PTE_D : Z := 0x40.
(** [(pte & f) != 0] *)
Definition has (pte f : Z) : bool := negb (Z.land pte f =? 0).

Definition pde_create (pt : Z) : outcome Z :=
  assert! pg_ofs pt =? 0 in
  let! p := vtop pt in Ok (Z.lor (Z.lor (Z.lor p PTE_U) PTE_P) PTE_W).
Definition pde_get_pt (pde : Z) : outcome Z :=
  assert! has pde PTE_P in ptov (Z.land pde PTE_ADDR).
Definition pte_create_kernel (page : Z) (writable : bool) : outcome Z :=
  assert! pg_ofs page =? 0 in
  let! p := vtop page in Ok (Z.lor (Z.lor p PTE_P) (if writable then PTE_W else 0)).
Definition pte_create_user (page : Z) (writable : bool) : outcome Z :=
  let! pte := pte_create_kernel page writable in Ok (Z.lor pte PTE_U).
Definition pte_get_page (pte : Z) : outcome Z := ptov (Z.land pte PTE_ADDR).

(** ** State *)
Record mmu := mk_mmu { pal : palloc; cr3 : Z; tlb : gmap Z Z }.
Definition set_pal (s : mmu) (p : palloc) : mmu := mk_mmu p (cr3 s) (tlb s).

(** [*p] and [*p = w] for a [uint32_t *p]. *)
Definition load (s : mmu) (a : Z) : Z := word_at (mem (pal s)) a.
Definition store_word (m : memory) (a w : Z) : memory :=
  fun x => if (a <=? x) && (x <? a + 4) then Z.shiftr w (8 * (x - a)) mod 256 else m x.
Definition store (s : mmu) (a w : Z) : mmu := set_pal s (set_memory (pal s) (store_word (mem (pal s)) a w)).

(** ** userprog/pagedir.c *)
Section pagedir.
(** Set by threads/init.c at boot. *)
Context (init_page_dir init_ram_pages : Z).

(** [memcpy (pd, init_page_dir, PGSIZE)] *)
Definition copy_page (m : memory) (dst src : Z) : memory :=
  fun x => if (dst <=? x) && (x <? dst + PGSIZE) then m (src + (x - dst)) else m x.

Definition pagedir_create (s : mmu) : outcome (Z * mmu) :=
  let! (pd, p) := palloc_get_page (pal s) 0 in
  if negb (pd =? 0) then Ok (pd, set_pal s (set_memory p (copy_page (mem p) pd init_page_dir)))
  else Ok (pd, set_pal s p).

(** The address of the page table entry, or [None] for the null pointer. *)
Definition lookup_page (s : mmu) (pd vaddr : Z) (create : bool) : outcome (option Z * mmu) :=
  assert! negb (pd =? 0) in
  assert! negb create || is_user_vaddr vaddr in
  let pde := pd + 4 * pd_no vaddr in
  let! (found, s) :=
    if load s pde =? 0 then
      if create then
        let! (pt, p) := palloc_get_page (pal s) PAL_ZERO in
        let s := set_pal s p in
        if pt =? 0 then Ok (false, s)
        else let! e := pde_create pt in Ok (true, store s pde e)
      else Ok (false, s)
    else Ok (true, s) in
  if found then
    let! pt := pde_get_pt (load s pde) in
    Ok (Some (pt + 4 * pt_no vaddr), s)
  else Ok (None, s).

Definition pagedir_set_page (s : mmu) (pd upage kpage : Z) (writable : bool) : outcome (bool * mmu) :=
  assert! pg_ofs upage =? 0 in
  assert! pg_ofs kpage =? 0 in
  assert! is_user_vaddr upage in
  let! paddr := vtop kpage in
  assert! Z.shiftr paddr PTSHIFT <? init_ram_pages in
  assert! negb (pd =? init_page_dir) in
  let! (pte, s) := lookup_page s pd upage true in
  match pte with
  | Some p =>
    assert! negb (has (load s p) PTE_P) in
    let! w := pte_create_user kpage writable in
    Ok (true, store s p w)
  | None => Ok (false, s)
  end.

(** 0 is the null pointer. *)
Definition pagedir_get_page (s : mmu) (pd uaddr : Z) : outcome Z :=
  assert! is_user_vaddr uaddr in
  let! (pte, s) := lookup_page s pd uaddr false in
  match pte with
  | Some p => if has (load s p) PTE_P then let! page := pte_get_page (load s p) in Ok (page + pg_ofs uaddr) else Ok 0
  | None => Ok 0
  end.

(** Loading [cr3] empties the translation lookaside buffer. *)
Definition pagedir_activate (s : mmu) (pd : Z) : outcome mmu :=
  let pd := if pd =? 0 then init_page_dir else pd in
  let! p := vtop pd in
  Ok (mk_mmu (pal s) p ∅).
Definition active_pd (s : mmu) : outcome Z := ptov (cr3 s).
Definition invalidate_pagedir (s : mmu) (pd : Z) : outcome mmu :=
  let! a := active_pd s in
  if a =? pd then pagedir_activate s pd else Ok s.

Definition pagedir_clear_page (s : mmu) (pd upage : Z) : outcome mmu :=
  assert! pg_ofs upage =? 0 in
  assert! is_user_vaddr upage in
  let! (pte, s) := lookup_page s pd upage false in
  match pte with
  | Some p => if has (load s p) PTE_P then invalidate_pagedir (store s p (Z.ldiff (load s p) PTE_P)) pd else Ok s
  | None => Ok s
  end.

(** [pagedir_is_dirty] and [pagedir_is_accessed] with [f] = [PTE_D], [PTE_A]. *)
Definition pagedir_is (f : Z) (s : mmu) (pd vpage : Z) : outcome bool :=
  let! (pte, s) := lookup_page s pd vpage false in
  Ok (match pte with Some p => has (load s p) f | None => false end).
Definition pagedir_is_dirty := pagedir_is PTE_D.
Definition pagedir_is_accessed := pagedir_is PTE_A.

(** [pagedir_set_dirty] and [pagedir_set_accessed]. *)
Definition pagedir_set (f : Z) (s : mmu) (pd vpage : Z) (b : bool) : outcome mmu :=
  let! (pte, s) := lookup_page s pd vpage false in
  match pte with
  | Some p =>
    if b then Ok (store s p (Z.lor (load s p) f))
    else invalidate_pagedir (store s p (Z.ldiff (load s p) f)) pd
  | None => Ok s
  end.
Definition pagedir_set_dirty := pagedir_set PTE_D.
Definition pagedir_set_accessed := pagedir_set PTE_A.

(** [free_frame] is what [pagedir_destroy] does with a mapped page:
    [palloc_free_page], or with VM [falloc_free_frame] and [ft_remove]. *)
Fixpoint destroy_table (free_frame : mmu -> Z -> outcome mmu) (n : nat) (s : mmu) (pte : Z) : outcome mmu :=
  match n with
  | O => Ok s
  | S n =>
    let! s := if has (load s pte) PTE_P then let! page := pte_get_page (load s pte) in free_frame s page else Ok s in
    destroy_table free_frame n s (pte + 4)
  end.
Fixpoint destroy_dir (free_frame : mmu -> Z -> outcome mmu) (n : nat) (s : mmu) (pde : Z) : outcome mmu :=
  match n with
  | O => Ok s
  | S n =>
    let! s := if has (load s pde) PTE_P then
                let! pt := pde_get_pt (load s pde) in
                let! s := destroy_table free_frame (Z.to_nat (PGSIZE / 4)) s pt in
                let! p := palloc_free_page (pal s) pt in Ok (set_pal s p)
              else Ok s in
    destroy_dir free_frame n s (pde + 4)
  end.
Definition pagedir_destroy (free_frame : mmu -> Z -> outcome mmu) (s : mmu) (pd : Z) : outcome mmu :=
  if pd =? 0 then Ok s else
  assert! negb (pd =? init_page_dir) in
  let! s := destroy_dir free_frame (Z.to_nat (pd_no PHYS_BASE)) s pd in
  let! p := palloc_free_page (pal s) pd in Ok (set_pal s p).
Definition free_user_page (s : mmu) (page : Z) : outcome mmu :=
  let! p := palloc_free_page (pal s) page in Ok (set_pal s p).
End pagedir.

(** ** Words and flags *)
Lemma has_testbit w n : 0 <= n -> has w (2 ^ n) = Z.testbit w n.
Proof.
  intros Hn. rewrite /has. destruct (Z.testbit w n) eqn:Hb.
  - destruct (Z.eqb_spec (Z.land w (2 ^ n)) 0) as [H|]; [|done]. have := Z.land_spec w (2 ^ n) n.
    by rewrite H Hb Z.bits_0 Z.pow2_bits_true.
  - have -> : Z.land w (2 ^ n) = 0; [|done]. apply Z.bits_inj'. intros i Hi. rewrite Z.land_spec Z.bits_0 Z.pow2_bits_eqb //.
    destruct (Z.eqb_spec n i) as [<- | ]; [by rewrite Hb|]. by rewrite andb_false_r.
Qed.
Lemma land_addr w : 0 <= w < 2 ^ 32 -> Z.land w PTE_ADDR = pg_round_down w.
Proof.
  intros Hw. change PTE_ADDR with (Z.ldiff (Z.ones 32) (Z.ones 12)). rewrite /pg_round_down /PGMASK /PGBITS. apply Z.bits_inj'. intros i Hi.
  rewrite Z.land_spec !Z.ldiff_spec. have Hmod : w = Z.land w (Z.ones 32) by rewrite Z.land_ones // Z.mod_small.
  rewrite {2}Hmod Z.land_spec. by destruct (Z.testbit w i), (Z.testbit (Z.ones 32) i).
Qed.
Lemma page_bits p i : p mod PGSIZE = 0 -> 0 <= i < 12 -> Z.testbit p i = false.
Proof.
  intros Hp Hi. have -> : p = Z.shiftl (p / PGSIZE) 12.
  { rewrite Z.shiftl_mul_pow2 //. have := Z.div_mod p PGSIZE ltac:(done). change (2 ^ 12) with PGSIZE. lia. }
  apply Z.shiftl_spec_low. lia.
Qed.
Lemma flags_bits f i : 0 <= f < PGSIZE -> 12 <= i -> Z.testbit f i = false.
Proof.
  intros Hf Hi. destruct (decide (f = 0)) as [-> | Hn]; [apply Z.bits_0|]. apply Z.bits_above_log2; [lia|].
  have := Z.log2_lt_pow2 f 12 ltac:(lia). change (2 ^ 12) with PGSIZE. lia.
Qed.
(** An entry is a page-aligned address and flags. *)
Lemma lor_flags p f : p mod PGSIZE = 0 -> 0 <= f < PGSIZE -> Z.lor p f = p + f.
Proof.
  intros Hp Hf. have H0 : Z.land p f = 0.
  { apply Z.bits_inj'. intros i Hi. rewrite Z.land_spec Z.bits_0. destruct (decide (i < 12)); [by rewrite page_bits|].
    rewrite (flags_bits f) //; [lia|]. by rewrite andb_false_r. }
  by rewrite Z.add_nocarry_lxor // Z.lxor_lor.
Qed.
Lemma u32_bits a : 0 <= a < 2 ^ 32 <-> 0 <= a /\ forall i, 32 <= i -> Z.testbit a i = false.
Proof.
  split.
  - intros Ha. split; [lia|]. intros i Hi. rewrite -(Z.mod_small a (2 ^ 32)) //. apply Z.mod_pow2_bits_high. lia.
  - intros [H0 Hb]. split; [done|]. have -> : a = a mod 2 ^ 32; [|by apply Z.mod_pos_bound].
    apply Z.bits_inj'. intros i Hi. destruct (decide (i < 32)); [by rewrite Z.mod_pow2_bits_low|].
    rewrite Z.mod_pow2_bits_high; [lia|]. apply Hb. lia.
Qed.
Lemma lor_range a b : 0 <= a < 2 ^ 32 -> 0 <= b < 2 ^ 32 -> 0 <= Z.lor a b < 2 ^ 32.
Proof.
  rewrite !u32_bits. intros [Ha Ha'] [Hb Hb']. split; [by apply Z.lor_nonneg|]. intros i Hi. by rewrite Z.lor_spec Ha' // Hb'.
Qed.
Lemma ldiff_range a b : 0 <= a < 2 ^ 32 -> 0 <= Z.ldiff a b < 2 ^ 32.
Proof.
  rewrite !u32_bits. intros [Ha Ha']. split; [apply Z.ldiff_nonneg; lia|]. intros i Hi. by rewrite Z.ldiff_spec Ha'.
Qed.

Lemma byte_of w k : 0 <= k -> Z.shiftr w (8 * k) mod 256 mod 256 = w / 2 ^ (8 * k) mod 256.
Proof. intros Hk. rewrite Z.shiftr_div_pow2; [lia|]. by rewrite Zmod_mod. Qed.
Lemma word_at_store m a w : 0 <= w < 2 ^ 32 -> word_at (store_word m a w) a = w.
Proof.
  intros Hw. rewrite /word_at /store_word. rewrite !(proj2 (Z.leb_le _ _)); [lia..|]. rewrite !(proj2 (Z.ltb_lt _ _)); [lia..|]. cbn [andb].
  have -> : a - a = 0 by lia. have -> : a + 1 - a = 1 by lia. have -> : a + 2 - a = 2 by lia. have -> : a + 3 - a = 3 by lia.
  rewrite !byte_of; [lia..|]. change (2 ^ (8 * 0)) with 1. change (2 ^ (8 * 1)) with 256. change (2 ^ (8 * 2)) with 65536. change (2 ^ (8 * 3)) with 16777216.
  dlia.
Qed.
Lemma word_at_ext m m' a : (forall x, a <= x < a + 4 -> m' x = m x) -> word_at m' a = word_at m a.
Proof. intros H. rewrite /word_at !H; lia. Qed.
Lemma store_other m a w x : x < a \/ a + 4 <= x -> store_word m a w x = m x.
Proof. intros H. rewrite /store_word. destruct (Z.leb_spec a x), (Z.ltb_spec x (a + 4)); simpl; try done; lia. Qed.

Lemma load_store s a w : 0 <= w < 2 ^ 32 -> load (store s a w) a = w.
Proof. apply word_at_store. Qed.
Lemma load_store_ne s a w b : b + 4 <= a \/ a + 4 <= b -> load (store s a w) b = load s b.
Proof. intros H. apply word_at_ext. intros x Hx. apply store_other. lia. Qed.
Lemma load_range s a : 0 <= load s a < 2 ^ 32.
Proof. apply word_at_range. Qed.

(** Indices. *)
Lemma pd_no_div va : pd_no va = va / (PGSIZE * 1024).
Proof. rewrite /pd_no Z.shiftr_div_pow2 //. Qed.
Lemma pt_no_mod va : pt_no va = (va / PGSIZE) mod 1024.
Proof.
  rewrite /pt_no. have -> : Z.shiftr (Z.land va PTMASK) PTSHIFT = Z.land (Z.shiftr va PTSHIFT) (Z.ones PTBITS).
  { by rewrite Z.shiftr_land. }
  rewrite Z.land_ones // Z.shiftr_div_pow2 //.
Qed.
Lemma pt_no_range va : 0 <= pt_no va < 1024.
Proof. rewrite pt_no_mod. by apply Z.mod_pos_bound. Qed.
Lemma pd_no_user va : 0 <= va -> is_user_vaddr va = true -> 0 <= pd_no va < 768.
Proof. rewrite /is_user_vaddr /PHYS_BASE pd_no_div /PGSIZE. intros H0 H%Z.ltb_lt. dlia. Qed.
(** The two indices determine the page. *)
Lemma same_page va va' : pd_no va = pd_no va' -> pt_no va = pt_no va' -> pg_no va = pg_no va'.
Proof. rewrite !pd_no_div !pt_no_mod !pg_no_div /PGSIZE. intros. dlia. Qed.
Lemma same_page_inv va va' : pg_no va = pg_no va' -> pd_no va = pd_no va' /\ pt_no va = pt_no va'.
Proof. rewrite !pd_no_div !pt_no_mod !pg_no_div /PGSIZE. intros. split; dlia. Qed.

(** ** What a directory represents *)
Definition table (s : mmu) (pd i : Z) : option Z :=
  let w := load s (pd + 4 * i) in if w =? 0 then None else Some (Z.land w PTE_ADDR + PHYS_BASE).
(** The entry that maps [va], if it is present. *)
Definition translate (s : mmu) (pd va : Z) : option Z :=
  match table s pd (pd_no va) with
  | None => None
  | Some pt => let w := load s (pt + 4 * pt_no va) in if has w PTE_P then Some w else None
  end.

(** A page of the kernel pool that is in use. *)
Definition kpage (s : mmu) (a : Z) : Prop :=
  exists idx, a = base (kernel_pool (pal s)) + PGSIZE * idx /\ 0 <= idx < bit_cnt (used_map (kernel_pool (pal s))) /\
    used (pal s) false idx = true.

(** The directories in [D] and their page tables are distinct kernel pages. *)
Record pd_inv (D : gset Z) (s : mmu) : Prop := {
  pd_pal : palloc_wf (pal s);
  pd_base : PHYS_BASE <= base (kernel_pool (pal s));
  pd_page : forall pd, pd ∈ D -> kpage s pd;
  pd_table : forall pd i, pd ∈ D -> 0 <= i < 768 -> load s (pd + 4 * i) <> 0 ->
    has (load s (pd + 4 * i)) PTE_P = true /\ exists pt, table s pd i = Some pt /\ kpage s pt;
  pd_apart : forall pd pd' i, pd ∈ D -> pd' ∈ D -> 0 <= i < 768 -> table s pd i <> Some pd';
  pd_own : forall pd pd' i i' pt, pd ∈ D -> pd' ∈ D -> 0 <= i < 768 -> 0 <= i' < 768 ->
    table s pd i = Some pt -> table s pd' i' = Some pt -> pd = pd' /\ i = i' }.

Lemma kpage_range s a : palloc_wf (pal s) -> PHYS_BASE <= base (kernel_pool (pal s)) -> kpage s a ->
  a mod PGSIZE = 0 /\ PHYS_BASE <= a /\ a + PGSIZE <= 2 ^ 32.
Proof.
  intros Hp Hb (idx & -> & Hi & _). have [[Hn _] _] := wf_u _ Hp. destruct Hp as [_ _ _ [Hal _] (_ & Ho & He)].
  split_and!; [|rewrite /PGSIZE; lia|].
  - by rewrite (Z.mul_comm PGSIZE) Z.mod_add.
  - rewrite /pool_end in Ho, He. rewrite /PGSIZE in Ho, He |- *. lia.
Qed.
(** Entries of different pages, or different entries of one page, are apart. *)
Lemma slots_apart p p' i j : p mod PGSIZE = 0 -> p' mod PGSIZE = 0 -> 0 <= i < 1024 -> 0 <= j < 1024 -> p <> p' \/ i <> j ->
  p' + 4 * j + 4 <= p + 4 * i \/ p + 4 * i + 4 <= p' + 4 * j.
Proof. rewrite /PGSIZE. intros. dlia. Qed.

Section inv.
Context (D : gset Z) (s : mmu) (H : pd_inv D s).

Lemma kpage_ok a : kpage s a -> a mod PGSIZE = 0 /\ PHYS_BASE <= a /\ a + PGSIZE <= 2 ^ 32.
Proof. apply kpage_range; apply H. Qed.
Lemma table_kpage pd i pt : pd ∈ D -> 0 <= i < 768 -> table s pd i = Some pt ->
  kpage s pt /\ has (load s (pd + 4 * i)) PTE_P = true /\ load s (pd + 4 * i) <> 0.
Proof.
  intros Hpd Hi Ht. have Hn : load s (pd + 4 * i) <> 0 by intros Hz; rewrite /table Hz in Ht.
  destruct (pd_table _ _ H pd i Hpd Hi Hn) as (Hp & pt' & Ht' & Hk). by have -> : pt = pt' by congruence.
Qed.
Lemma pde_get_pt_ok pd i pt : pd ∈ D -> 0 <= i < 768 -> table s pd i = Some pt -> pde_get_pt (load s (pd + 4 * i)) = Ok pt.
Proof.
  intros Hpd Hi Ht. destruct (table_kpage pd i pt Hpd Hi Ht) as (Hk & Hp & Hn). destruct (kpage_ok pt Hk) as (_ & H1 & H2).
  rewrite /pde_get_pt Hp. cbn [ASSERT obind]. rewrite /table (proj2 (Z.eqb_neq _ _) Hn) in Ht. injection Ht as <-.
  rewrite /ptov. rewrite /PHYS_BASE /PGSIZE in H1, H2 |- *. destruct (Z.ltb_spec (Z.land (load s (pd + 4 * i)) PTE_ADDR) 0xc0000000); [|lia].
  simpl. rewrite wrap_small //. lia.
Qed.

(** Looking up without creating. *)
Lemma lookup_page_ok pd va : pd ∈ D -> 0 <= va -> is_user_vaddr va = true ->
  lookup_page s pd va false = Ok (match table s pd (pd_no va) with Some pt => Some (pt + 4 * pt_no va) | None => None end, s).
Proof.
  intros Hpd Hva Hu. have Hi := pd_no_user va Hva Hu. destruct (kpage_ok pd (pd_page _ _ H pd Hpd)) as (_ & Hb & _).
  rewrite /lookup_page (proj2 (Z.eqb_neq pd 0)); [rewrite /PHYS_BASE in Hb; lia|]. cbn [negb orb ASSERT obind].
  destruct (Z.eqb_spec (load s (pd + 4 * pd_no va)) 0) as [Hz|Hz]; cbn [obind].
  - by rewrite /table Hz.
  - destruct (pd_table _ _ H pd _ Hpd Hi Hz) as (_ & pt & Ht & _). rewrite (pde_get_pt_ok pd _ pt) //. by rewrite Ht.
Qed.

(** ** Writing an entry of a page table *)
Section write.
Context (pd i j pt w : Z) (Hpd : pd ∈ D) (Hi : 0 <= i < 768) (Hj : 0 <= j < 1024) (Ht : table s pd i = Some pt) (Hw : 0 <= w < 2 ^ 32).
Abbreviation s1 := (store s (pt + 4 * j) w).

Lemma write_dir pd' i' : pd' ∈ D -> 0 <= i' < 768 -> load s1 (pd' + 4 * i') = load s (pd' + 4 * i').
Proof using H Hpd Hi Hj Ht.
  intros Hd Hi'. destruct (table_kpage pd i pt Hpd Hi Ht) as (Hk & _). apply load_store_ne.
  apply slots_apart; [apply (kpage_ok _ Hk)|apply (kpage_ok _ (pd_page _ _ H _ Hd))|lia|lia|]. left. intros ->. by apply (pd_apart _ _ H pd pd' i).
Qed.
Lemma write_table pd' i' : pd' ∈ D -> 0 <= i' < 768 -> table s1 pd' i' = table s pd' i'.
Proof using H Hpd Hi Hj Ht. intros Hd Hi'. by rewrite /table write_dir. Qed.
Lemma write_inv : pd_inv D s1.
Proof using H Hpd Hi Hj Ht.
  have Hwd := write_dir. have Hwt := write_table. destruct H as [H1 H2 H3 H4 H5 H6]. split.
  - by destruct H1; split.
  - done.
  - done.
  - intros pd' i' Hd Hi'. rewrite Hwd // Hwt //. by apply H4.
  - intros pd' pd2 i' Hd Hd2 Hi'. rewrite Hwt //. by apply H5.
  - intros pd' pd2 i' i2 pt' Hd Hd2 Hi' Hi2. rewrite !Hwt //. by apply H6.
Qed.
Lemma write_translate pd' va : pd' ∈ D -> 0 <= va -> is_user_vaddr va = true ->
  translate s1 pd' va = if bool_decide (pd' = pd /\ pd_no va = i /\ pt_no va = j)
                        then (if has w PTE_P then Some w else None) else translate s pd' va.
Proof using H Hpd Hi Hj Ht Hw.
  intros Hd Hva Hu. have Hi' := pd_no_user va Hva Hu. rewrite /translate write_table //. case_bool_decide as Hc.
  - destruct Hc as (-> & -> & ->). rewrite Ht load_store //.
  - destruct (table s pd' (pd_no va)) as [pt'|] eqn:Ht'; [|done]. rewrite load_store_ne //.
    destruct (table_kpage pd i pt Hpd Hi Ht) as (Hk & _). destruct (table_kpage pd' _ pt' Hd Hi' Ht') as (Hk' & _).
    apply slots_apart; [apply (kpage_ok _ Hk)|apply (kpage_ok _ Hk')|done|apply pt_no_range|].
    destruct (decide (pt = pt')) as [<- | ]; [|by left]. right. intros ->. destruct (pd_own _ _ H pd' pd _ i pt Hd Hpd Hi' Hi Ht' Ht) as [-> Hii]. by apply Hc.
Qed.
End write.
End inv.

(** ** A new page table *)
Lemma pde_create_ok pt : pt mod PGSIZE = 0 -> PHYS_BASE <= pt -> pt + PGSIZE <= 2 ^ 32 ->
  pde_create pt = Ok (pt - PHYS_BASE + 7).
Proof.
  intros Hm Hb He. rewrite /pde_create pg_ofs_mod Hm /vtop /is_kernel_vaddr (proj2 (Z.leb_le _ _) Hb). cbn [Z.eqb ASSERT obind]. f_equal.
  have Hm' : (pt - PHYS_BASE) mod PGSIZE = 0 by rewrite /PHYS_BASE /PGSIZE in Hm |- *; dlia.
  rewrite -!Z.lor_assoc lor_flags //.
Qed.
Lemma entry_addr p f : p mod PGSIZE = 0 -> 0 <= p < 2 ^ 32 -> 0 <= f < PGSIZE -> 0 <= p + f < 2 ^ 32 /\ Z.land (p + f) PTE_ADDR = p.
Proof.
  intros Hp Hr Hf. have Hs : 0 <= p + f < 2 ^ 32 by rewrite /PGSIZE in Hp Hf |- *; dlia. split; [done|].
  rewrite land_addr // pg_round_down_eq. rewrite /PGSIZE in Hp Hf |- *. dlia.
Qed.

Section new.
Context (D : gset Z) (s : mmu) (H : pd_inv D s).
Context (pd i pt : Z) (p : palloc) (Hpd : pd ∈ D) (Hi : 0 <= i < 768) (Hn : table s pd i = None).
(** The page that [palloc_get_page (PAL_ZERO)] found. *)
Context (idx : Z) (Hpt : pt = base (kernel_pool (pal s)) + PGSIZE * idx) (Hidx : 0 <= idx < bit_cnt (used_map (kernel_pool (pal s))))
  (Hfree : used (pal s) false idx = false) (Hp : palloc_wf p) (Hbase : base (kernel_pool p) = base (kernel_pool (pal s)))
  (Hcnt : bit_cnt (used_map (kernel_pool p)) = bit_cnt (used_map (kernel_pool (pal s))))
  (Hused : forall j, 0 <= j -> used p false j = if (idx <=? j) && (j <? idx + 1) then true else used (pal s) false j)
  (Hmem : forall a, mem p a = if (pt <=? a) && (a <? pt + PGSIZE) then 0 else mem (pal s) a).
Abbreviation s1 := (set_pal s p).
Abbreviation s2 := (store (set_pal s p) (pd + 4 * i) (pt - PHYS_BASE + 7)).

Lemma new_kpage a : kpage s a -> kpage s2 a /\ a <> pt.
Proof using Hpt Hfree Hbase Hcnt Hused Hidx.
  intros (j & -> & Hj & Hu). have Hne : j <> idx by intros ->; congruence. split.
  - exists j. rewrite /= Hbase Hcnt. split_and!; [done|lia|lia|]. change (used p false j = true). rewrite Hused; [lia|].
    destruct (Z.leb_spec idx j), (Z.ltb_spec j (idx + 1)); simpl; try done.
  - rewrite Hpt /PGSIZE. lia.
Qed.
Lemma new_pt : kpage s2 pt /\ pt mod PGSIZE = 0 /\ PHYS_BASE <= pt /\ pt + PGSIZE <= 2 ^ 32.
Proof using H Hpt Hidx Hbase Hcnt Hused Hp.
  clear Hi Hpd Hn Hfree Hmem. have Hk : kpage s2 pt.
  { exists idx. rewrite /= Hbase Hcnt. split_and!; [done|lia|lia|]. change (used p false idx = true). rewrite Hused; [lia|].
    destruct (Z.leb_spec idx idx), (Z.ltb_spec idx (idx + 1)); simpl; try done; lia. }
  split; [done|]. have Hr := kpage_range s2 pt. apply Hr; [by destruct Hp; split|rewrite /= Hbase; apply H|done].
Qed.
Lemma new_load a j : kpage s a -> 0 <= j < 1024 -> a + 4 * j <> pd + 4 * i -> load s2 (a + 4 * j) = load s (a + 4 * j).
Proof using H Hpd Hi Hpt Hidx Hfree Hp Hbase Hcnt Hused Hmem.
  intros Ha Hj Hne. destruct new_pt as (_ & Hm & _). destruct (new_kpage a Ha) as [_ Hap].
  destruct (kpage_ok D s H a Ha) as (Ham & _). destruct (kpage_ok D s H pd (pd_page _ _ H pd Hpd)) as (Hpm & _).
  rewrite load_store_ne; [apply slots_apart; [done|done|lia|done|]; destruct (decide (pd = a)) as [<- | ]; [right; lia|by left]|].
  apply word_at_ext. intros x Hx. rewrite /= Hmem. destruct (Z.leb_spec pt x), (Z.ltb_spec x (pt + PGSIZE)); simpl; try done.
  exfalso. rewrite /PGSIZE in Hm Ham Hap |- *. rewrite /PGSIZE in H1. dlia.
Qed.
Lemma new_zero j : 0 <= j < 1024 -> load s2 (pt + 4 * j) = 0.
Proof using H Hpd Hi Hpt Hidx Hfree Hp Hbase Hcnt Hused Hmem.
  intros Hj. destruct new_pt as (_ & Hm & _). destruct (new_kpage pd (pd_page _ _ H pd Hpd)) as [_ Hap].
  destruct (kpage_ok D s H pd (pd_page _ _ H pd Hpd)) as (Hpm & _).
  rewrite load_store_ne; [apply slots_apart; [done|done|lia|done|by left]|].
  have Hz : forall x, pt + 4 * j <= x < pt + 4 * j + 4 -> mem p x = 0.
  { intros x Hx. rewrite Hmem. rewrite /PGSIZE. destruct (Z.leb_spec pt x), (Z.ltb_spec x (pt + 4096)); simpl; try done; lia. }
  rewrite /load /word_at /= !Hz; [lia..|]. done.
Qed.
Lemma new_entry : load s2 (pd + 4 * i) = pt - PHYS_BASE + 7 /\ Z.land (pt - PHYS_BASE + 7) PTE_ADDR = pt - PHYS_BASE /\
  has (pt - PHYS_BASE + 7) PTE_P = true.
Proof using H Hpt Hidx Hbase Hcnt Hused Hp.
  clear Hi Hpd Hn Hfree Hmem. destruct new_pt as (_ & Hm & Hb & He). have Hm' : (pt - PHYS_BASE) mod PGSIZE = 0 by rewrite /PHYS_BASE /PGSIZE in Hm |- *; dlia.
  destruct (entry_addr (pt - PHYS_BASE) 7 Hm') as [Hr Ha]; [rewrite /PHYS_BASE in Hb |- *; rewrite /PGSIZE in He; lia|done|].
  split_and!; [by rewrite load_store|done|]. change PTE_P with (2 ^ 0). rewrite has_testbit // -lor_flags // Z.lor_spec. by rewrite orb_true_r.
Qed.
Lemma new_table_other pd' i' : pd' ∈ D -> 0 <= i' < 768 -> (pd', i') <> (pd, i) -> table s2 pd' i' = table s pd' i' /\ load s2 (pd' + 4 * i') = load s (pd' + 4 * i').
Proof using H Hpd Hi Hpt Hidx Hfree Hp Hbase Hcnt Hused Hmem.
  intros Hd Hi' Hne. have Hl : load s2 (pd' + 4 * i') = load s (pd' + 4 * i').
  { apply new_load; [by apply (pd_page _ _ H)|lia|]. destruct (kpage_ok D s H pd (pd_page _ _ H pd Hpd)) as (Hpm & _).
    destruct (kpage_ok D s H pd' (pd_page _ _ H pd' Hd)) as (Hpm' & _). intros Heq. apply Hne. rewrite /PGSIZE in Hpm Hpm'.
    have : pd' = pd /\ i' = i by dlia. by intros [-> ->]. }
  by rewrite /table Hl.
Qed.
Lemma new_table_this : table s2 pd i = Some pt.
Proof using H Hpt Hidx Hbase Hcnt Hused Hp.
  destruct new_entry as (He & Ha & _). destruct new_pt as (_ & _ & Hb & _). rewrite /table He Ha.
  clear Hi Hpd Hn Hfree Hmem. rewrite (proj2 (Z.eqb_neq _ _)); [lia|]. f_equal. lia.
Qed.
Lemma new_table_inv : pd_inv D s2.
Proof using H Hpd Hi Hpt Hidx Hfree Hp Hbase Hcnt Hused Hmem.
  have Hk := new_kpage. have Ho := new_table_other. have Ht := new_table_this. destruct new_pt as (Hkp & _). destruct new_entry as (Hee & _ & Hep).
  have Hcase : forall pd' i', {(pd', i') = (pd, i)} + {(pd', i') <> (pd, i)} by intros; apply decide; apply _.
  have Hfresh : forall pd' i', pd' ∈ D -> 0 <= i' < 768 -> table s pd' i' <> Some pt.
  { intros pd' i' Hd Hi' Htt. destruct (table_kpage D s H pd' i' pt Hd Hi' Htt) as [Hkk _]. by destruct (Hk _ Hkk). }
  split.
  - by destruct Hp; split.
  - rewrite /= Hbase. apply H.
  - intros pd' Hd. by apply Hk, (pd_page _ _ H).
  - intros pd' i' Hd Hi'. destruct (Hcase pd' i') as [[= -> ->]|Hne]; [intros _; rewrite Hee Ht; split; eauto|].
    destruct (Ho pd' i' Hd Hi' Hne) as [-> ->]. intros Hnz. destruct (pd_table _ _ H pd' i' Hd Hi' Hnz) as (? & pt' & ? & ?).
    split; [done|]. exists pt'. split; [done|]. by apply Hk.
  - intros pd' pd2 i' Hd Hd2 Hi'. destruct (Hcase pd' i') as [[= -> ->]|Hne].
    + rewrite Ht. intros [= ->]. by destruct (Hk pd2 (pd_page _ _ H pd2 Hd2)).
    + destruct (Ho pd' i' Hd Hi' Hne) as [-> _]. by apply (pd_apart _ _ H).
  - intros pd' pd2 i' i2 pt' Hd Hd2 Hi' Hi2. destruct (Hcase pd' i') as [[= -> ->]|Hne], (Hcase pd2 i2) as [[= -> ->]|Hne2]; [done| | |].
    + rewrite Ht. destruct (Ho pd2 i2 Hd2 Hi2 Hne2) as [-> _]. intros [= <-] Hx. by apply Hfresh in Hx.
    + rewrite Ht. destruct (Ho pd' i' Hd Hi' Hne) as [-> _]. intros Hx [= <-]. by apply Hfresh in Hx.
    + destruct (Ho pd' i' Hd Hi' Hne) as [-> _]. destruct (Ho pd2 i2 Hd2 Hi2 Hne2) as [-> _]. by apply (pd_own _ _ H).
Qed.
Lemma new_translate pd' va : pd' ∈ D -> 0 <= va -> is_user_vaddr va = true -> translate s2 pd' va = translate s pd' va.
Proof using H Hpd Hi Hn Hpt Hidx Hfree Hp Hbase Hcnt Hused Hmem.
  intros Hd Hva Hu. have Hi' := pd_no_user va Hva Hu. rewrite /translate.
  destruct (decide ((pd', pd_no va) = (pd, i))) as [[= -> ->]|Hne].
  - rewrite new_table_this Hn new_zero //. apply pt_no_range.
  - destruct (new_table_other pd' _ Hd Hi' Hne) as [-> _]. destruct (table s pd' (pd_no va)) as [pt'|] eqn:Ht'; [|done].
    destruct (table_kpage D s H pd' _ pt' Hd Hi' Ht') as [Hk' _]. rewrite new_load //; [apply pt_no_range|].
    destruct (kpage_ok D s H pt' Hk') as (Hm' & _). destruct (kpage_ok D s H pd (pd_page _ _ H pd Hpd)) as (Hpm & _).
    intros Heq. have := pt_no_range va. intros Hr. have Hpp : pt' = pd by rewrite /PGSIZE in Hm' Hpm; dlia.
    rewrite Hpp in Ht'. by apply (pd_apart _ _ H pd' pd (pd_no va)).
Qed.
End new.

(** Looking up, creating a table if there is none. *)
Lemma lookup_create_ok D s pd va : pd_inv D s -> pd ∈ D -> 0 <= va -> is_user_vaddr va = true ->
  exists r s', lookup_page s pd va true = Ok (r, s') /\ pd_inv D s' /\ cr3 s' = cr3 s /\ tlb s' = tlb s /\
    (forall pd' va', pd' ∈ D -> 0 <= va' -> is_user_vaddr va' = true -> translate s' pd' va' = translate s pd' va') /\
    match r with
    | Some a => exists pt, table s' pd (pd_no va) = Some pt /\ a = pt + 4 * pt_no va
    | None => s' = s
    end.
Proof.
  intros H Hpd Hva Hu. have Hi := pd_no_user va Hva Hu. destruct (kpage_ok D s H pd (pd_page _ _ H pd Hpd)) as (_ & Hb & _).
  rewrite /lookup_page (proj2 (Z.eqb_neq pd 0)); [rewrite /PHYS_BASE in Hb; lia|]. rewrite Hu. cbn [negb orb ASSERT obind].
  destruct (Z.eqb_spec (load s (pd + 4 * pd_no va)) 0) as [Hz|Hz].
  - destruct (palloc_get_ok (pal s) PAL_ZERO 1 (pd_pal _ _ H)) as (pt & p & Hg & Hp & Hbase & Hcnt & _ & Hr); [done|lia|].
    rewrite /palloc_get_page Hg. cbn [obind]. destruct Hr as [(-> & -> & _)|(idx & Hpt & Hpos & Hi0 & Hi1 & Hf & Hus & Hmem)].
    + cbn [Z.eqb obind]. exists None, s. split; [by destruct s|]. by split_and!.
    + rewrite (proj2 (Z.eqb_neq pt 0)); [lia|]. have Hn : table s pd (pd_no va) = None by rewrite /table Hz.
      have Hfr : used (pal s) false idx = false by apply Hf; lia. have Hix : 0 <= idx < bit_cnt (used_map (kernel_pool (pal s))) by simpl in Hi1; lia.
      destruct (new_pt D s H pd (pd_no va) pt p idx Hpt Hix Hp Hbase Hcnt Hus) as (_ & Hm & Hb1 & He).
      rewrite pde_create_ok //. cbn [obind].
      have Hinv := new_table_inv D s H pd (pd_no va) pt p Hpd Hi idx Hpt Hix Hfr Hp Hbase Hcnt Hus Hmem.
      have Ht := new_table_this D s H pd (pd_no va) pt p idx Hpt Hix Hp Hbase Hcnt Hus.
      rewrite (pde_get_pt_ok D _ Hinv pd (pd_no va) pt) //. cbn [obind]. eexists _, _. split; [done|]. split_and!; try done; [|by exists pt].
      intros pd' va' Hd Hva' Hu'. by apply (new_translate D s H pd (pd_no va) pt p Hpd Hi Hn idx).
  - destruct (pd_table _ _ H pd _ Hpd Hi Hz) as (_ & pt & Ht & _). cbn [obind]. rewrite (pde_get_pt_ok D s H pd _ pt) //. cbn [obind].
    eexists _, _. split; [done|]. split_and!; try done. by exists pt.
Qed.

(** ** The functions *)
Section functions.
Context (init_page_dir init_ram_pages : Z) (D : gset Z).
Abbreviation set_page := (pagedir_set_page init_page_dir init_ram_pages).
Abbreviation get_page := pagedir_get_page.

(** The entry for [kpage]. *)
Definition user_pte (kpage : Z) (writable : bool) : Z := kpage - PHYS_BASE + (if writable then 7 else 5).

Lemma pte_create_user_ok kpage writable : kpage mod PGSIZE = 0 -> PHYS_BASE <= kpage ->
  pte_create_user kpage writable = Ok (user_pte kpage writable).
Proof.
  intros Hm Hb. rewrite /pte_create_user /pte_create_kernel pg_ofs_mod Hm /vtop /is_kernel_vaddr (proj2 (Z.leb_le _ _) Hb). cbn [Z.eqb ASSERT obind]. f_equal.
  have Hm' : (kpage - PHYS_BASE) mod PGSIZE = 0 by rewrite /PHYS_BASE /PGSIZE in Hm |- *; dlia.
  rewrite -!Z.lor_assoc lor_flags //; by destruct writable.
Qed.
Lemma user_pte_ok kpage writable : kpage mod PGSIZE = 0 -> PHYS_BASE <= kpage < 2 ^ 32 ->
  0 <= user_pte kpage writable < 2 ^ 32 /\ has (user_pte kpage writable) PTE_P = true /\ pte_get_page (user_pte kpage writable) = Ok kpage.
Proof.
  intros Hm Hb. have Hm' : (kpage - PHYS_BASE) mod PGSIZE = 0 by rewrite /PHYS_BASE /PGSIZE in Hm |- *; dlia.
  destruct (entry_addr (kpage - PHYS_BASE) (if writable then 7 else 5) Hm') as [Hr Ha]; [rewrite /PHYS_BASE in Hb |- *; lia|by destruct writable|].
  split_and!; [apply Hr|apply Hr| |].
  - change PTE_P with (2 ^ 0). rewrite has_testbit // /user_pte -lor_flags //; [by destruct writable|]. rewrite Z.lor_spec. destruct writable; by rewrite orb_true_r.
  - rewrite /pte_get_page /user_pte Ha /ptov. rewrite /PHYS_BASE in Hb |- *. destruct (Z.ltb_spec (kpage - 0xc0000000) 0xc0000000); [|lia].
    simpl. f_equal. rewrite wrap_small; lia.
Qed.

(** Two addresses of one page of [pd]: the condition of [write_translate]. *)
Lemma page_cond (pd pd' va va' : Z) :
  bool_decide (pd' = pd /\ pd_no va = pd_no va' /\ pt_no va = pt_no va') = bool_decide (pd' = pd /\ pg_no va = pg_no va').
Proof.
  apply bool_decide_ext. split; intros (-> & Hp).
  - split; [done|]. destruct Hp. by apply same_page.
  - split; [done|]. by apply same_page_inv.
Qed.

Lemma set_page_ok s pd upage kpage writable : pd_inv D s -> pd ∈ D -> pd <> init_page_dir ->
  0 <= upage -> is_user_vaddr upage = true -> upage mod PGSIZE = 0 ->
  kpage mod PGSIZE = 0 -> PHYS_BASE <= kpage < 2 ^ 32 -> (kpage - PHYS_BASE) / PGSIZE < init_ram_pages ->
  translate s pd upage = None ->
  exists ok s', set_page s pd upage kpage writable = Ok (ok, s') /\ pd_inv D s' /\ cr3 s' = cr3 s /\ tlb s' = tlb s /\
    if ok then forall pd' va, pd' ∈ D -> 0 <= va -> is_user_vaddr va = true ->
      translate s' pd' va = if bool_decide (pd' = pd /\ pg_no va = pg_no upage) then Some (user_pte kpage writable) else translate s pd' va
    else s' = s.
Proof.
  intros H Hpd Hne Hu0 Hu Hum Hkm Hk Hram Hn. rewrite /pagedir_set_page !pg_ofs_mod Hum Hkm Hu /vtop /is_kernel_vaddr (proj2 (Z.leb_le _ _) (proj1 Hk)).
  cbn [Z.eqb ASSERT obind]. rewrite Z.shiftr_div_pow2 //. change (2 ^ PTSHIFT) with PGSIZE. rewrite (proj2 (Z.ltb_lt _ _) Hram) (proj2 (Z.eqb_neq _ _) Hne).
  cbn [negb ASSERT obind]. destruct (lookup_create_ok D s pd upage H Hpd Hu0 Hu) as (r & s1 & -> & H1 & Hc & Ht & Htr & Hr). cbn [obind].
  destruct r as [a|]; [|subst s1; by exists false, s]. destruct Hr as (pt & Hpt & ->). have Hi := pd_no_user _ Hu0 Hu.
  have Hnp : has (load s1 (pt + 4 * pt_no upage)) PTE_P = false.
  { have := Htr pd upage Hpd Hu0 Hu. rewrite Hn /translate Hpt. by destruct (has _ PTE_P). }
  rewrite Hnp. cbn [negb ASSERT obind]. rewrite pte_create_user_ok //; [apply Hk|]. cbn [obind].
  destruct (user_pte_ok kpage writable Hkm Hk) as (Hr & Hp & _). have Hj := pt_no_range upage.
  eexists true, _. split; [done|]. split; [by apply (write_inv D s1 H1 pd (pd_no upage))|]. split_and!; [done|done|].
  intros pd' va Hd Hva Hu'. rewrite (write_translate D s1 H1 pd (pd_no upage) (pt_no upage) pt) // page_cond Hp.
  case_bool_decide; [done|]. by apply Htr.
Qed.

Lemma get_page_ok s pd ua : pd_inv D s -> pd ∈ D -> 0 <= ua -> is_user_vaddr ua = true ->
  pagedir_get_page s pd ua = match translate s pd ua with Some w => let! page := pte_get_page w in Ok (page + pg_ofs ua) | None => Ok 0 end.
Proof.
  intros H Hpd H0 Hu. rewrite /pagedir_get_page Hu. cbn [ASSERT obind]. rewrite (lookup_page_ok D s H) //. cbn [obind]. rewrite /translate.
  destruct (table s pd (pd_no ua)); [|done]. by destruct (has _ PTE_P).
Qed.

(** Changing the entry of a page keeps the rest; then the cache is emptied if
    the directory is active. *)
Lemma invalidate_ok s pd : pd_inv D s -> pd ∈ D -> cr3 s + PHYS_BASE ∈ D ->
  invalidate_pagedir init_page_dir s pd = Ok (mk_mmu (pal s) (cr3 s) (if bool_decide (cr3 s + PHYS_BASE = pd) then ∅ else tlb s)).
Proof.
  intros H Hpd Hc. destruct (kpage_ok D s H _ (pd_page _ _ H _ Hc)) as (_ & Hb & He). destruct (kpage_ok D s H _ (pd_page _ _ H _ Hpd)) as (_ & Hb' & He').
  rewrite /invalidate_pagedir /active_pd /ptov. rewrite /PHYS_BASE /PGSIZE in Hb He Hb' He' |- *.
  destruct (Z.ltb_spec (cr3 s) 0xc0000000); [|lia]. cbn [ASSERT obind]. rewrite wrap_small; [lia|].
  case_bool_decide as Heq.
  - rewrite (proj2 (Z.eqb_eq _ _) Heq) /pagedir_activate. rewrite (proj2 (Z.eqb_neq pd 0)); [lia|]. rewrite /vtop /is_kernel_vaddr /PHYS_BASE.
    rewrite (proj2 (Z.leb_le _ pd)); [lia|]. cbn [ASSERT obind]. do 2 f_equal. lia.
  - rewrite (proj2 (Z.eqb_neq _ _) Heq). by destruct s.
Qed.
Lemma tlb_inv s t : pd_inv D s -> pd_inv D (mk_mmu (pal s) (cr3 s) t).
Proof. by intros [H1 H2 H3 H4 H5 H6]; split. Qed.
End functions.

(** ** Flags of a changed entry *)
Lemma has_lor a b n : 0 <= n -> has (Z.lor a b) (2 ^ n) = has a (2 ^ n) || has b (2 ^ n).
Proof. intros Hn. by rewrite !has_testbit // Z.lor_spec. Qed.
Lemma has_ldiff a b n : 0 <= n -> has (Z.ldiff a b) (2 ^ n) = has a (2 ^ n) && negb (has b (2 ^ n)).
Proof. intros Hn. by rewrite !has_testbit // Z.ldiff_spec. Qed.
Lemma lor_P a b : has (Z.lor a b) PTE_P = has a PTE_P || has b PTE_P.
Proof. exact (has_lor a b 0 ltac:(done)). Qed.
Lemma ldiff_P a b : has (Z.ldiff a b) PTE_P = has a PTE_P && negb (has b PTE_P).
Proof. exact (has_ldiff a b 0 ltac:(done)). Qed.
Lemma lor_W a b : has (Z.lor a b) PTE_W = has a PTE_W || has b PTE_W.
Proof. exact (has_lor a b 1 ltac:(done)). Qed.
Lemma ldiff_W a b : has (Z.ldiff a b) PTE_W = has a PTE_W && negb (has b PTE_W).
Proof. exact (has_ldiff a b 1 ltac:(done)). Qed.
Lemma lor_A a b : has (Z.lor a b) PTE_A = has a PTE_A || has b PTE_A.
Proof. exact (has_lor a b 5 ltac:(done)). Qed.
Lemma ldiff_A a b : has (Z.ldiff a b) PTE_A = has a PTE_A && negb (has b PTE_A).
Proof. exact (has_ldiff a b 5 ltac:(done)). Qed.
Lemma lor_D a b : has (Z.lor a b) PTE_D = has a PTE_D || has b PTE_D.
Proof. exact (has_lor a b 6 ltac:(done)). Qed.
Lemma ldiff_D a b : has (Z.ldiff a b) PTE_D = has a PTE_D && negb (has b PTE_D).
Proof. exact (has_ldiff a b 6 ltac:(done)). Qed.
Lemma addr_lor w f : f = PTE_A \/ f = PTE_D \/ f = Z.lor PTE_A PTE_D -> Z.land (Z.lor w f) PTE_ADDR = Z.land w PTE_ADDR.
Proof.
  intros Hf. rewrite Z.land_lor_distr_l. have -> : Z.land f PTE_ADDR = 0 by destruct Hf as [-> | [-> | ->]]. apply Z.lor_0_r.
Qed.

Lemma addr_ldiff w f : Z.land f PTE_ADDR = 0 -> Z.land (Z.ldiff w f) PTE_ADDR = Z.land w PTE_ADDR.
Proof.
  intros Hf. apply Z.bits_inj'. intros i Hi. have Hb := f_equal (fun z => Z.testbit z i) Hf. simpl in Hb.
  rewrite Z.land_spec Z.bits_0 in Hb. rewrite !Z.land_spec Z.ldiff_spec. by destruct (Z.testbit w i), (Z.testbit f i), (Z.testbit PTE_ADDR i).
Qed.

(** ** The processor *)
Definition active (s : mmu) : Z := cr3 s + PHYS_BASE.
(** Set flags in the entry of [va] in the active directory. *)
Definition set_flags (s : mmu) (va f : Z) : mmu :=
  match table s (active s) (pd_no va) with
  | Some pt => let a := pt + 4 * pt_no va in store s a (Z.lor (load s a) f)
  | None => s
  end.
Definition cache (s : mmu) (v w : Z) : mmu := mk_mmu (pal s) (cr3 s) (<[v := w]> (tlb s)).
(** A read or write of a user address: the kernel address of the byte, or
    [None] for a page fault.  A cached entry is used as it is, except that the
    first write sets the dirty flag; otherwise the tables are walked, the
    accessed flag is set, and the entry is cached. *)
Definition access (s : mmu) (va : Z) (write : bool) : option (Z * mmu) :=
  let v := pg_no va in
  match tlb s !! v with
  | Some w =>
    if write && negb (has w PTE_W) then None else
    Some (Z.land w PTE_ADDR + PHYS_BASE + pg_ofs va,
          if write && negb (has w PTE_D) then cache (set_flags s va PTE_D) v (Z.lor w PTE_D) else s)
  | None =>
    match translate s (active s) va with
    | None => None
    | Some w =>
      if write && negb (has w PTE_W) then None else
      let f := if write then Z.lor PTE_A PTE_D else PTE_A in
      Some (Z.land w PTE_ADDR + PHYS_BASE + pg_ofs va, cache (set_flags s va f) v (Z.lor w f))
    end
  end.

(** A cached entry and the entry in the table. *)
Definition agrees (w w' : Z) : Prop :=
  Z.land w PTE_ADDR = Z.land w' PTE_ADDR /\ has w PTE_W = has w' PTE_W /\ has w PTE_A = true /\ has w' PTE_A = true /\
  (has w PTE_D = true -> has w' PTE_D = true).
Definition user_page (va : Z) : Prop := 0 <= va /\ is_user_vaddr va = true.
(** The frame of an entry lies in the kernel's part of the address space. *)
Definition frame_in (w : Z) : Prop := Z.land w PTE_ADDR + PHYS_BASE < 2 ^ 32.
Record coherent (D : gset Z) (s : mmu) : Prop := {
  c_inv : pd_inv D s;
  c_active : active s ∈ D;
  c_frames : forall pd va w, pd ∈ D -> user_page va -> translate s pd va = Some w -> frame_in w;
  c_tlb : forall v w, tlb s !! v = Some w -> 0 <= v * PGSIZE /\ is_user_vaddr (v * PGSIZE) = true /\
    exists w', translate s (active s) (v * PGSIZE) = Some w' /\ agrees w w' }.

Lemma agrees_lor w w' f : f = PTE_A \/ f = PTE_D \/ f = Z.lor PTE_A PTE_D -> agrees w w' -> agrees w (Z.lor w' f).
Proof.
  intros Hf (H1 & H2 & H3 & H4 & H5). split_and!; [by rewrite addr_lor| |done| |].
  - rewrite lor_W H2. destruct Hf as [-> | [-> | ->]]; by rewrite orb_false_r.
  - by rewrite lor_A H4.
  - intros H. by rewrite lor_D H5.
Qed.

Lemma user_pte_frame kpage writable : kpage mod PGSIZE = 0 -> PHYS_BASE <= kpage < 2 ^ 32 -> frame_in (user_pte kpage writable).
Proof.
  intros Hm Hb. have Hm' : (kpage - PHYS_BASE) mod PGSIZE = 0 by rewrite /PHYS_BASE /PGSIZE in Hm |- *; dlia.
  destruct (entry_addr (kpage - PHYS_BASE) (if writable then 7 else 5) Hm') as [_ Ha]; [rewrite /PHYS_BASE in Hb |- *; lia|by destruct writable|].
  rewrite /frame_in /user_pte Ha. lia.
Qed.

(** Translation depends on the page only. *)
Lemma translate_page s pd va va' : pg_no va = pg_no va' -> translate s pd va = translate s pd va'.
Proof. intros [H1 H2]%same_page_inv. by rewrite /translate H1 H2. Qed.
Lemma page_start va : 0 <= va -> is_user_vaddr va = true -> 0 <= pg_no va * PGSIZE /\ is_user_vaddr (pg_no va * PGSIZE) = true /\ pg_no (pg_no va * PGSIZE) = pg_no va.
Proof.
  rewrite /is_user_vaddr !pg_no_div. intros H0 Hu%Z.ltb_lt. rewrite Z.div_mul //. split_and!; [rewrite /PGSIZE; dlia| |done].
  apply Z.ltb_lt. rewrite /PHYS_BASE /PGSIZE in Hu |- *. dlia.
Qed.

Section tlb.
Context (init_page_dir init_ram_pages : Z) (D : gset Z).

Lemma set_flags_ok s va f w : pd_inv D s -> active s ∈ D -> 0 <= va -> is_user_vaddr va = true ->
  f = PTE_A \/ f = PTE_D \/ f = Z.lor PTE_A PTE_D -> translate s (active s) va = Some w ->
  pd_inv D (set_flags s va f) /\ cr3 (set_flags s va f) = cr3 s /\ tlb (set_flags s va f) = tlb s /\
  forall pd' va', pd' ∈ D -> 0 <= va' -> is_user_vaddr va' = true ->
    translate (set_flags s va f) pd' va' = if bool_decide (pd' = active s /\ pg_no va' = pg_no va) then Some (Z.lor w f) else translate s pd' va'.
Proof.
  intros H Ha Hva Hu Hf Ht. have Hi := pd_no_user va Hva Hu. have Hj := pt_no_range va. rewrite /set_flags. rewrite /translate in Ht.
  destruct (table s (active s) (pd_no va)) as [pt|] eqn:Hpt; [|done]. destruct (has (load s (pt + 4 * pt_no va)) PTE_P) eqn:Hp; [|done]. injection Ht as Hw.
  have Hr : 0 <= Z.lor (load s (pt + 4 * pt_no va)) f < 2 ^ 32 by apply lor_range; [apply load_range|destruct Hf as [-> | [-> | ->]]; done].
  split; [by apply (write_inv D s H (active s) (pd_no va))|]. split_and!; [done|done|]. intros pd' va' Hd H0 Hu'.
  rewrite (write_translate D s H (active s) (pd_no va) (pt_no va) pt) // page_cond. by rewrite lor_P Hp Hw.
Qed.

Lemma access_ok s va write a s' : coherent D s -> 0 <= va -> is_user_vaddr va = true -> access s va write = Some (a, s') ->
  exists w w', translate s (active s) va = Some w /\ a = Z.land w PTE_ADDR + PHYS_BASE + pg_ofs va /\ coherent D s' /\ active s' = active s /\
    translate s' (active s) va = Some w' /\ has w' PTE_A = true /\ (write = true -> has w' PTE_D = true).
Proof.
  intros [H Ha Hfr Hc] Hva Hu. destruct (page_start va Hva Hu) as (Hp0 & Hpu & Hpp). rewrite /access.
  destruct (tlb s !! pg_no va) as [w|] eqn:Htlb.
  - destruct (Hc _ _ Htlb) as (_ & _ & w' & Ht & Hag). rewrite (translate_page _ _ _ va Hpp) in Ht. have Hag' := Hag. destruct Hag' as (Had & Hww & HA & HA' & HD).
    destruct (write && negb (has w PTE_W)); [done|]. intros [= <- <-]. exists w'.
    destruct (write && negb (has w PTE_D)) eqn:Hwd.
    + destruct (set_flags_ok s va PTE_D w' H Ha Hva Hu) as (Hi & Hcr & Htl & Htr); [auto|done|].
      set s1 := set_flags s va PTE_D in Hi Hcr Htl Htr |- *. have Hact : active (cache s1 (pg_no va) (Z.lor w PTE_D)) = active s by rewrite /active /= Hcr.
      have Hfr1 : forall pd' va' u, pd' ∈ D -> user_page va' -> translate s1 pd' va' = Some u -> frame_in u.
      { intros pd' va' u Hd [H0' Hu'']. rewrite Htr //. case_bool_decide; [|by apply Hfr]. intros [= <-]. rewrite /frame_in addr_lor; [by auto|]. by apply (Hfr (active s) va). }
      have Hc1 : coherent D (cache s1 (pg_no va) (Z.lor w PTE_D)).
      { split; [by apply tlb_inv|by rewrite Hact|by apply Hfr1|]. intros v u. rewrite Hact /= Htl. destruct (decide (v = pg_no va)) as [-> | Hne].
        - rewrite lookup_insert_eq. intros [= <-]. split_and!; [done|done|]. exists (Z.lor w' PTE_D).
          change (translate (cache s1 _ _)) with (translate s1). rewrite Htr // bool_decide_eq_true_2 //. split; [done|].
          split_and!; [rewrite !addr_lor //; auto|by rewrite !lor_W Hww|by rewrite lor_A HA|by rewrite lor_A HA'|by rewrite !lor_D !orb_true_r].
        - rewrite lookup_insert_ne //. intros Hv. destruct (Hc v u Hv) as (H0 & H1 & u' & Hu1 & Hu2). split_and!; [done|done|]. exists u'. split; [|done].
          change (translate (cache s1 _ _)) with (translate s1). rewrite Htr // bool_decide_eq_false_2 //. intros [_ Hpg]. apply Hne. rewrite -Hpg pg_no_div Z.div_mul //. }
      exists (Z.lor w' PTE_D). split; [done|]. split; [by rewrite Had|]. split; [done|]. split; [done|].
      change (translate (cache s1 _ _)) with (translate s1). rewrite Htr // bool_decide_eq_true_2 //. split; [done|].
      split; [by rewrite lor_A HA'|]. by rewrite lor_D orb_true_r.
    + exists w'. split; [done|]. split; [by rewrite Had|]. split_and!; try done. intros ->. apply HD. by destruct (has w PTE_D).
  - destruct (translate s (active s) va) as [w|] eqn:Ht; [|done]. destruct (write && negb (has w PTE_W)); [done|]. intros [= <- <-].
    set f := if write then Z.lor PTE_A PTE_D else PTE_A. have Hf : f = PTE_A \/ f = PTE_D \/ f = Z.lor PTE_A PTE_D by rewrite /f; destruct write; auto.
    destruct (set_flags_ok s va f w H Ha Hva Hu Hf Ht) as (Hi & Hcr & Htl & Htr).
    set s1 := set_flags s va f in Hi Hcr Htl Htr |- *. have Hact : active (cache s1 (pg_no va) (Z.lor w f)) = active s by rewrite /active /= Hcr.
    have HfA : has (Z.lor w f) PTE_A = true by rewrite lor_A /f; destruct write; rewrite orb_true_r.
    have Hfr1 : forall pd' va' u, pd' ∈ D -> user_page va' -> translate s1 pd' va' = Some u -> frame_in u.
    { intros pd' va' u Hd [H0' Hu'']. rewrite Htr //. case_bool_decide; [|by apply Hfr]. intros [= <-]. rewrite /frame_in addr_lor; [done|]. by apply (Hfr (active s) va). }
    exists w, (Z.lor w f). split; [done|]. split; [done|]. change (translate (cache s1 (pg_no va) (Z.lor w f))) with (translate s1).
    split_and!; [| done | by rewrite Htr // bool_decide_eq_true_2 | done | intros ->; by rewrite lor_D orb_true_r].
    split; [by apply tlb_inv|by rewrite Hact|by apply Hfr1|]. intros v u. rewrite Hact /= Htl. destruct (decide (v = pg_no va)) as [-> | Hne].
    + rewrite lookup_insert_eq. intros [= <-]. split_and!; [done|done|]. exists (Z.lor w f).
      change (translate (cache s1 _ _)) with (translate s1). rewrite Htr // bool_decide_eq_true_2 //.
    + rewrite lookup_insert_ne //. intros Hv. destruct (Hc v u Hv) as (H0 & H1 & u' & Hu1 & Hu2). split_and!; [done|done|]. exists u'. split; [|done].
      change (translate (cache s1 _ _)) with (translate s1). rewrite Htr // bool_decide_eq_false_2 //. intros [_ Hpg]. apply Hne. rewrite -Hpg pg_no_div Z.div_mul //.
Qed.
End tlb.

(** ** Interleavings of the kernel and the processor *)
Section steps.
Context (init_page_dir init_ram_pages : Z) (D : gset Z).

(** A frame that may be mapped. *)
Definition frame_ok (kpage : Z) : Prop :=
  kpage mod PGSIZE = 0 /\ PHYS_BASE <= kpage < 2 ^ 32 /\ (kpage - PHYS_BASE) / PGSIZE < init_ram_pages.

Inductive pstep : mmu -> mmu -> Prop :=
| ps_set s pd upage kpage writable ok s' : pd ∈ D -> pd <> init_page_dir -> user_page upage -> upage mod PGSIZE = 0 ->
    frame_ok kpage -> translate s pd upage = None ->
    pagedir_set_page init_page_dir init_ram_pages s pd upage kpage writable = Ok (ok, s') -> pstep s s'
| ps_clear s pd upage s' : pd ∈ D -> user_page upage -> upage mod PGSIZE = 0 ->
    pagedir_clear_page init_page_dir s pd upage = Ok s' -> pstep s s'
| ps_dirty s pd vpage b s' : pd ∈ D -> user_page vpage -> pagedir_set_dirty init_page_dir s pd vpage b = Ok s' -> pstep s s'
| ps_accessed s pd vpage b s' : pd ∈ D -> user_page vpage -> pagedir_set_accessed init_page_dir s pd vpage b = Ok s' -> pstep s s'
| ps_activate s pd s' : pd ∈ D -> pagedir_activate init_page_dir s pd = Ok s' -> pstep s s'
| ps_access s va write a s' : user_page va -> access s va write = Some (a, s') -> pstep s s'.

(** A state whose tables differ from those of [s] in one page only, for which
    the cache holds nothing that disagrees. *)
Lemma coherent_change s s' : coherent D s -> pd_inv D s' -> cr3 s' = cr3 s ->
  (forall pd va w, pd ∈ D -> user_page va -> translate s' pd va = Some w -> frame_in w) ->
  (forall v w, tlb s' !! v = Some w -> tlb s !! v = Some w) ->
  (forall v w w', tlb s' !! v = Some w -> user_page (v * PGSIZE) -> translate s (active s) (v * PGSIZE) = Some w' -> agrees w w' ->
     exists w2, translate s' (active s) (v * PGSIZE) = Some w2 /\ agrees w w2) -> coherent D s'.
Proof.
  intros [H Ha Hf0 Hc] H' Hcr Hfr Hsub Htr. have Hact : active s' = active s by rewrite /active Hcr. split; [done|by rewrite Hact|done|].
  intros v w Hv. destruct (Hc v w (Hsub _ _ Hv)) as (H0 & Hu & w' & Ht & Hg). rewrite Hact. split_and!; [done|done|]. by apply (Htr v w w').
Qed.

(** The functions that change the entry of a page that is there. *)
Lemma change_entry_ok s pd va g : pd_inv D s -> pd ∈ D -> user_page va ->
  (forall w, 0 <= w < 2 ^ 32 -> 0 <= g w < 2 ^ 32) -> forall pt, table s pd (pd_no va) = Some pt ->
  let s1 := store s (pt + 4 * pt_no va) (g (load s (pt + 4 * pt_no va))) in
  pd_inv D s1 /\ forall pd' va', pd' ∈ D -> user_page va' ->
    translate s1 pd' va' = if bool_decide (pd' = pd /\ pg_no va' = pg_no va)
      then (let w := g (load s (pt + 4 * pt_no va)) in if has w PTE_P then Some w else None) else translate s pd' va'.
Proof.
  intros H Hpd [Hva Hu] Hg pt Hpt s1. have Hi := pd_no_user va Hva Hu. have Hj := pt_no_range va. have Hr := Hg _ (load_range s (pt + 4 * pt_no va)).
  split; [by apply (write_inv D s H pd (pd_no va))|]. intros pd' va' Hd [H0 Hu']. rewrite /s1 (write_translate D s H pd (pd_no va) (pt_no va) pt) //. by rewrite page_cond.
Qed.
Lemma coherent_invalidated s pd s1 : coherent D s -> pd ∈ D -> pd_inv D s1 -> cr3 s1 = cr3 s -> tlb s1 = tlb s ->
  (forall pd' va' w, pd' ∈ D -> user_page va' -> translate s1 pd' va' = Some w -> frame_in w) ->
  (forall pd' va', pd' ∈ D -> user_page va' -> pd' <> pd -> translate s1 pd' va' = translate s pd' va') ->
  exists s', invalidate_pagedir init_page_dir s1 pd = Ok s' /\ coherent D s' /\ pal s' = pal s1 /\ active s' = active s.
Proof.
  intros Hc Hpd H1 Hcr Htl Hfr Htr. have Ha := c_active _ _ Hc. rewrite (invalidate_ok init_page_dir D) //; [by rewrite Hcr|]. eexists. split; [done|].
  split; [|split; [done|by rewrite /active /= Hcr]]. apply (coherent_change s); [done|by apply tlb_inv|done|by apply Hfr| |].
  - simpl. rewrite Hcr Htl. by case_bool_decide.
  - simpl. rewrite Hcr Htl. intros v w w'. case_bool_decide as Heq; [done|]. intros Hv Hu Ht Hg. exists w'. split; [|done].
    change (translate (mk_mmu (pal s1) (cr3 s) (tlb s))) with (translate s1). rewrite Htr //.
Qed.

Lemma clear_page_ok s pd upage : coherent D s -> pd ∈ D -> user_page upage -> upage mod PGSIZE = 0 ->
  exists s', pagedir_clear_page init_page_dir s pd upage = Ok s' /\ coherent D s' /\ active s' = active s /\
    forall pd' va, pd' ∈ D -> user_page va ->
      translate s' pd' va = if bool_decide (pd' = pd /\ pg_no va = pg_no upage) then None else translate s pd' va.
Proof.
  intros Hc Hpd Hup Hm. have H := c_inv _ _ Hc. destruct (Hup) as [H0 Hu]. rewrite /pagedir_clear_page pg_ofs_mod Hm Hu. cbn [Z.eqb ASSERT obind].
  rewrite (lookup_page_ok D s H) //. cbn [obind]. destruct (table s pd (pd_no upage)) as [pt|] eqn:Hpt.
  - destruct (has (load s (pt + 4 * pt_no upage)) PTE_P) eqn:Hp.
    + destruct (change_entry_ok s pd upage (fun w => Z.ldiff w PTE_P) H Hpd Hup) with (pt := pt) as [H1 Htr]; [by intros w Hw; apply ldiff_range|done|].
      set s1 := store _ _ _ in H1 Htr |- *. destruct (coherent_invalidated s pd s1 Hc Hpd H1) as (s' & -> & Hc' & Hp' & Ha'); [done|done| | |].
      { intros pd' va' w Hd Hv. rewrite Htr //. case_bool_decide; [|by apply (c_frames _ _ Hc)]. cbv zeta beta. by rewrite ldiff_P Hp. }
      { intros pd' va' Hd Hv Hne. rewrite Htr // bool_decide_eq_false_2 //. by intros [? _]. }
      exists s'. split; [done|]. split; [done|]. split; [done|]. intros pd' va Hd Hv. have -> : translate s' pd' va = translate s1 pd' va by rewrite /translate /table /load Hp'.
      rewrite Htr //. case_bool_decide; [|done]. cbv zeta beta. by rewrite ldiff_P Hp.
    + exists s. split; [done|]. split; [done|]. split; [done|]. intros pd' va Hd Hv. case_bool_decide as Hcond; [|done]. destruct Hcond as [-> Hpg].
      rewrite (translate_page s pd va upage Hpg) /translate Hpt. by rewrite Hp.
  - exists s. split; [done|]. split; [done|]. split; [done|]. intros pd' va Hd Hv. case_bool_decide as Hcond; [|done]. destruct Hcond as [-> Hpg].
    by rewrite (translate_page s pd va upage Hpg) /translate Hpt.
Qed.

Lemma pagedir_set_ok f s pd vpage b : coherent D s -> pd ∈ D -> user_page vpage -> f = PTE_A \/ f = PTE_D ->
  exists s', pagedir_set init_page_dir f s pd vpage b = Ok s' /\ coherent D s' /\ active s' = active s /\
    forall pd' va, pd' ∈ D -> user_page va ->
      translate s' pd' va = (fun w => if bool_decide (pd' = pd /\ pg_no va = pg_no vpage) then (if b then Z.lor w f else Z.ldiff w f) else w) <$> translate s pd' va.
Proof.
  intros Hc Hpd Hup Hf. have H := c_inv _ _ Hc. destruct (Hup) as [H0 Hu]. rewrite /pagedir_set. rewrite (lookup_page_ok D s H) //. cbn [obind].
  destruct (table s pd (pd_no vpage)) as [pt|] eqn:Hpt.
  2: { exists s. split; [done|]. split; [done|]. split; [done|]. intros pd' va Hd Hv. case_bool_decide as Hcond; [|by destruct (translate s pd' va)].
       destruct Hcond as [-> Hpg]. by rewrite (translate_page s pd va vpage Hpg) /translate Hpt. }
  have Hf32 : 0 <= f < 2 ^ 32 by destruct Hf as [-> | ->]. have HfP : has f PTE_P = false by destruct Hf as [-> | ->].
  have Hkeep : forall (g : Z -> Z) s1, (forall w, has (g w) PTE_P = has w PTE_P) ->
    (forall pd' va', pd' ∈ D -> user_page va' -> translate s1 pd' va' = if bool_decide (pd' = pd /\ pg_no va' = pg_no vpage)
      then (let w := g (load s (pt + 4 * pt_no vpage)) in if has w PTE_P then Some w else None) else translate s pd' va') ->
    forall pd' va, pd' ∈ D -> user_page va -> translate s1 pd' va = (fun w => if bool_decide (pd' = pd /\ pg_no va = pg_no vpage) then g w else w) <$> translate s pd' va.
  { intros g s1 HgP Htr pd' va Hd Hv. rewrite Htr //. case_bool_decide as Hcond; [|by destruct (translate s pd' va)]. destruct Hcond as [-> Hpg].
    rewrite (translate_page s pd va vpage Hpg) /translate Hpt. cbv zeta beta. rewrite HgP. destruct (has (load s (pt + 4 * pt_no vpage)) PTE_P); by rewrite /= ?bool_decide_eq_true_2. }
  have HfA : Z.land f PTE_ADDR = 0 by destruct Hf as [-> | ->].
  have Hfr : forall (g : Z -> Z) s1, (forall w, frame_in w -> frame_in (g w)) ->
    (forall pd' va, pd' ∈ D -> user_page va -> translate s1 pd' va = (fun w => if bool_decide (pd' = pd /\ pg_no va = pg_no vpage) then g w else w) <$> translate s pd' va) ->
    forall pd' va w, pd' ∈ D -> user_page va -> translate s1 pd' va = Some w -> frame_in w.
  { intros g s1 Hgf Htr pd' va w Hd Hv. rewrite Htr //. destruct (translate s pd' va) as [u|] eqn:Hu1; [|done]. intros [= <-].
    have Hu2 := c_frames _ _ Hc pd' va u Hd Hv Hu1. case_bool_decide; [by apply Hgf|done]. }
  destruct b.
  - destruct (change_entry_ok s pd vpage (fun w => Z.lor w f) H Hpd Hup) with (pt := pt) as [H1 Htr]; [by intros w Hw; apply lor_range|done|].
    set s1 := store _ _ _ in H1 Htr |- *. exists s1. split; [done|].
    have Htr' := Hkeep (fun w => Z.lor w f) s1 ltac:(by intros w; rewrite lor_P HfP orb_false_r) Htr. split; [|by split].
    apply (coherent_change s); [done|done|done| |done|].
    { apply (Hfr (fun w => Z.lor w f) s1); [|done]. intros w Hw. rewrite /frame_in addr_lor //. by destruct Hf; auto. }
    intros v w w' Hv Hu' Ht Hg. rewrite Htr' //; [by apply Hc|]. rewrite Ht /=.
    eexists. split; [done|]. case_bool_decide; [|done]. apply agrees_lor; [|done]. by destruct Hf; auto.
  - destruct (change_entry_ok s pd vpage (fun w => Z.ldiff w f) H Hpd Hup) with (pt := pt) as [H1 Htr]; [by intros w Hw; apply ldiff_range|done|].
    set s1 := store _ _ _ in H1 Htr |- *. destruct (coherent_invalidated s pd s1 Hc Hpd H1) as (s' & -> & Hc' & Hp' & Ha'); [done|done| | |].
    { apply (Hfr (fun w => Z.ldiff w f) s1); [|by apply (Hkeep (fun w => Z.ldiff w f) s1 ltac:(by intros w; rewrite ldiff_P HfP andb_true_r) Htr)].
      intros w Hw. rewrite /frame_in. by have -> : Z.land (Z.ldiff w f) PTE_ADDR = Z.land w PTE_ADDR by apply addr_ldiff. }
    { intros pd' va' Hd Hv Hne. rewrite Htr // bool_decide_eq_false_2 //. by intros [? _]. }
    exists s'. split; [done|]. split; [done|]. split; [done|]. intros pd' va Hd Hv. have -> : translate s' pd' va = translate s1 pd' va by rewrite /translate /table /load Hp'.
    by apply (Hkeep (fun w => Z.ldiff w f) s1 ltac:(by intros w; rewrite ldiff_P HfP andb_true_r) Htr).
Qed.

Lemma pstep_coherent s s' : pstep s s' -> coherent D s -> coherent D s'.
Proof.
  intros Hst Hc. have H := c_inv _ _ Hc. destruct Hst as [s pd upage kpage wr ok s' Hpd Hne [H0 Hu] Hm (Hk1 & Hk2 & Hk3) Hn Hx|s pd upage s' Hpd Hup Hm Hx|s pd vpage b s' Hpd Hup Hx|s pd vpage b s' Hpd Hup Hx|s pd s' Hpd Hx|s va wr a s' [H0 Hu] Hx].
  - destruct (set_page_ok init_page_dir init_ram_pages D s pd upage kpage wr) as (ok' & s2 & Hx2 & H2 & Hcr & Htl & Hr); try done.
    have Heq : ok' = ok /\ s2 = s' by split; congruence. destruct Heq as [-> ->]. destruct ok; [|by subst].
    apply (coherent_change s); [done|done|done| |by intros v w; rewrite Htl|].
    { intros pd' va w Hd [Hv0 Hvu]. rewrite Hr //. case_bool_decide; [|by apply (c_frames _ _ Hc)]. intros [= <-]. by apply user_pte_frame. } intros v w w' _ [Hv0 Hvu] Ht Hg. exists w'. split; [|done].
    rewrite Hr //; [by apply Hc|]. case_bool_decide as Hcond; [|done]. destruct Hcond as [Ha Hpg]. rewrite Ha (translate_page s pd _ upage Hpg) Hn in Ht. done.
  - destruct (clear_page_ok s pd upage Hc Hpd Hup Hm) as (s2 & Hx2 & Hc2 & _). congruence.
  - destruct (pagedir_set_ok PTE_D s pd vpage b Hc Hpd Hup) as (s2 & Hx2 & Hc2 & _); [by right|]. rewrite /pagedir_set_dirty in Hx. congruence.
  - destruct (pagedir_set_ok PTE_A s pd vpage b Hc Hpd Hup) as (s2 & Hx2 & Hc2 & _); [by left|]. rewrite /pagedir_set_accessed in Hx. congruence.
  - destruct (kpage_ok D s H _ (pd_page _ _ H _ Hpd)) as (_ & Hb & He). rewrite /pagedir_activate in Hx. rewrite (proj2 (Z.eqb_neq pd 0)) in Hx; [rewrite /PHYS_BASE in Hb; lia|].
    rewrite /vtop /is_kernel_vaddr (proj2 (Z.leb_le _ _) Hb) in Hx. cbn [ASSERT obind] in Hx. injection Hx as <-.
    have Hact : active (mk_mmu (pal s) (pd - PHYS_BASE) ∅) = pd by rewrite /active /=; lia.
    split; [by destruct H; split|by rewrite Hact|by apply (c_frames _ _ Hc)|done].
  - by destruct (access_ok D s va wr a s' Hc H0 Hu Hx) as (w & w' & _ & _ & ? & _).
Qed.
End steps.

(** ** New directories *)
Lemma pagedir_create_ok init_page_dir D s : pd_inv D s -> (forall i, 0 <= i < 768 -> load s (init_page_dir + 4 * i) = 0) ->
  (forall idx, 0 <= idx < bit_cnt (used_map (kernel_pool (pal s))) -> used (pal s) false idx = false ->
     let a := base (kernel_pool (pal s)) + PGSIZE * idx in a + PGSIZE <= init_page_dir \/ init_page_dir + PGSIZE <= a) ->
  exists pd s', pagedir_create init_page_dir s = Ok (pd, s') /\
    ((pd = 0 /\ s' = s) \/
     (pd ∉ D /\ pd_inv ({[pd]} ∪ D) s' /\ cr3 s' = cr3 s /\ tlb s' = tlb s /\
      (forall va, user_page va -> translate s' pd va = None) /\
      (forall pd' va, pd' ∈ D -> user_page va -> translate s' pd' va = translate s pd' va))).
Proof.
  intros H Hz Hout. rewrite /pagedir_create /palloc_get_page.
  destruct (palloc_get_ok (pal s) 0 1 (pd_pal _ _ H)) as (pt & p & -> & Hp & Hbase & Hcnt & _ & Hr); [done|lia|]. cbn [obind].
  change (get_pool p (flag 0 PAL_USER)) with (kernel_pool p) in Hbase, Hcnt, Hr. change (get_pool (pal s) (flag 0 PAL_USER)) with (kernel_pool (pal s)) in Hbase, Hcnt, Hr.
  change (used p (flag 0 PAL_USER)) with (used p false) in Hr. change (used (pal s) (flag 0 PAL_USER)) with (used (pal s) false) in Hr.
  destruct Hr as [(-> & -> & _)|(idx & Hpt & Hpos & Hi0 & Hi1 & Hf & Hus & Hmem)].
  { exists 0, s. split; [by destruct s|]. by left. }
  rewrite (proj2 (Z.eqb_neq pt 0)); [lia|]. cbn [negb]. exists pt. eexists. split; [done|]. right. set s' := set_pal s _.
  have Hfr : used (pal s) false idx = false by apply Hf; lia. cbn [flag andb] in Hmem.
  have Hm0 : forall a, mem p a = mem (pal s) a by done. clear Hmem.
  have Hk : forall a, kpage s a -> kpage s' a /\ a <> pt.
  { intros a (j & -> & Hj & Hu). have Hne : j <> idx by intros ->; congruence. split; [|rewrite Hpt /PGSIZE; lia].
    exists j. rewrite /= Hbase Hcnt. split_and!; [done|lia|lia|]. change (used p false j = true). rewrite Hus; [lia|].
    destruct (Z.leb_spec idx j), (Z.ltb_spec j (idx + 1)); simpl; try done. }
  have Hkp : kpage s' pt.
  { exists idx. rewrite /= Hbase Hcnt. split_and!; [done|lia|lia|]. change (used p false idx = true). rewrite Hus; [lia|].
    destruct (Z.leb_spec idx idx), (Z.ltb_spec idx (idx + 1)); simpl; try done; lia. }
  have Hptr : pt mod PGSIZE = 0 /\ PHYS_BASE <= pt /\ pt + PGSIZE <= 2 ^ 32.
  { apply (kpage_range s'); [by destruct Hp; split|rewrite /= Hbase; apply H|done]. }
  have Hload : forall a j, kpage s a -> 0 <= j < 1024 -> load s' (a + 4 * j) = load s (a + 4 * j).
  { intros a j Ha Hj. destruct (Hk a Ha) as [_ Hne]. destruct (kpage_ok D s H a Ha) as (Hm & _). destruct Hptr as (Hpm & _).
    apply word_at_ext. intros x Hx. rewrite /= /copy_page. destruct (Z.leb_spec pt x), (Z.ltb_spec x (pt + PGSIZE)); simpl; rewrite ?Hm0 //.
    exfalso. rewrite /PGSIZE in Hm Hpm H1. dlia. }
  have Hnew : forall i, 0 <= i < 768 -> load s' (pt + 4 * i) = 0.
  { intros i Hi. rewrite -(Hz i Hi) /load /= /word_at /copy_page. rewrite !(proj2 (Z.leb_le _ _)); [lia..|]. rewrite /PGSIZE. rewrite !(proj2 (Z.ltb_lt _ _)); [lia..|].
    cbn [andb]. rewrite !Hm0.
    have -> : init_page_dir + (pt + 4 * i - pt) = init_page_dir + 4 * i by lia. have -> : init_page_dir + (pt + 4 * i + 1 - pt) = init_page_dir + 4 * i + 1 by lia.
    have -> : init_page_dir + (pt + 4 * i + 2 - pt) = init_page_dir + 4 * i + 2 by lia. have -> : init_page_dir + (pt + 4 * i + 3 - pt) = init_page_dir + 4 * i + 3 by lia. done. }
  have Htab : forall pd i, pd ∈ D -> 0 <= i < 768 -> table s' pd i = table s pd i.
  { intros pd i Hd Hi. rewrite /table Hload //; [by apply (pd_page _ _ H)|lia]. }
  have Htn : forall i, 0 <= i < 768 -> table s' pt i = None by intros i Hi; rewrite /table Hnew.
  have Hnd : pt ∉ D by intros Hd; destruct (Hk pt (pd_page _ _ H pt Hd)).
  split; [done|]. split_and!; try done.
  - split.
    + by destruct Hp; split.
    + rewrite /= Hbase. apply H.
    + intros pd [->%elem_of_singleton|Hd]%elem_of_union; [done|]. by apply Hk, (pd_page _ _ H).
    + intros pd i [->%elem_of_singleton|Hd]%elem_of_union Hi; [by rewrite Hnew|]. rewrite Hload; [by apply (pd_page _ _ H)|lia|]. intros Hnz.
      destruct (pd_table _ _ H pd i Hd Hi Hnz) as (? & t & ? & ?). split; [done|]. exists t. rewrite Htab //. split; [done|]. by apply Hk.
    + intros pd pd' i [->%elem_of_singleton|Hd]%elem_of_union Hd' Hi; [by rewrite Htn|]. rewrite Htab //.
      apply elem_of_union in Hd' as [->%elem_of_singleton|Hd']; [|by apply (pd_apart _ _ H)].
      intros Ht. destruct (table_kpage D s H pd i pt Hd Hi Ht) as [Hkk _]. by destruct (Hk pt Hkk).
    + intros pd pd' i i' t [->%elem_of_singleton|Hd]%elem_of_union [->%elem_of_singleton|Hd']%elem_of_union Hi Hi'; rewrite ?Htn // !Htab //. by apply (pd_own _ _ H).
  - intros va [H0 Hu]. rewrite /translate Htn //. by apply pd_no_user.
  - intros pd' va Hd [H0 Hu]. have Hi := pd_no_user va H0 Hu. rewrite /translate Htab //. destruct (table s pd' (pd_no va)) as [t|] eqn:Ht; [|done].
    destruct (table_kpage D s H pd' _ t Hd Hi Ht) as [Hkk _]. rewrite Hload //. apply pt_no_range.
Qed.

Lemma addr_nonneg w : 0 <= Z.land w PTE_ADDR.
Proof. apply Z.land_nonneg. by right. Qed.
Lemma page_of_entry w : frame_in w -> pte_get_page w = Ok (Z.land w PTE_ADDR + PHYS_BASE).
Proof.
  rewrite /frame_in /pte_get_page /ptov /PHYS_BASE. intros Hf. have := addr_nonneg w. intros H0.
  rewrite (proj2 (Z.ltb_lt _ _)); [lia|]. cbn [ASSERT obind]. rewrite wrap_small //. lia.
Qed.

(** Mapping and unmapping.  In every coherent state a page that is not
    mapped can be mapped to a frame: [pagedir_set_page] fails, changing nothing,
    or afterwards [pagedir_get_page] finds every byte of the frame at its place
    and everything else in every directory is as before; and
    [pagedir_clear_page] then takes the mapping away and nothing else. *)
Theorem pagedir_map_unmap (init_page_dir init_ram_pages : Z) (D : gset Z) (s : mmu) (pd upage kpage : Z) (writable : bool) :
  coherent D s -> pd ∈ D -> pd <> init_page_dir -> user_page upage -> upage mod PGSIZE = 0 -> frame_ok init_ram_pages kpage ->
  pagedir_get_page s pd upage = Ok 0 ->
  exists ok s', pagedir_set_page init_page_dir init_ram_pages s pd upage kpage writable = Ok (ok, s') /\ coherent D s' /\
    if ok then
      (forall k, 0 <= k < PGSIZE -> pagedir_get_page s' pd (upage + k) = Ok (kpage + k)) /\
      (forall pd' va, pd' ∈ D -> user_page va -> ~ (pd' = pd /\ pg_no va = pg_no upage) -> pagedir_get_page s' pd' va = pagedir_get_page s pd' va) /\
      exists s2, pagedir_clear_page init_page_dir s' pd upage = Ok s2 /\ coherent D s2 /\
        forall pd' va, pd' ∈ D -> user_page va -> pagedir_get_page s2 pd' va = pagedir_get_page s pd' va
    else s' = s.
Proof.
  intros Hc Hpd Hne Hup Hm Hfr Hg. have H := c_inv _ _ Hc. destruct (Hup) as [H0 Hu]. destruct (Hfr) as (Hk1 & Hk2 & Hk3).
  have Hn : translate s pd upage = None.
  { rewrite (get_page_ok D) // in Hg. destruct (translate s pd upage) as [w|] eqn:Hw; [|done]. exfalso. rewrite (page_of_entry w) in Hg.
    { by apply (c_frames _ _ Hc pd upage). }
    cbn [obind] in Hg. injection Hg as Hg. rewrite pg_ofs_mod Hm in Hg. have := addr_nonneg w. rewrite /PHYS_BASE in Hg. lia. }
  destruct (set_page_ok init_page_dir init_ram_pages D s pd upage kpage writable) as (ok & s' & Hx & H' & Hcr & Htl & Hr); try done.
  have Hc' : coherent D s' by apply (pstep_coherent init_page_dir init_ram_pages D s); [by eapply ps_set|].
  exists ok, s'. split; [done|]. split; [done|]. destruct ok; [|done]. destruct (user_pte_ok kpage writable Hk1 Hk2) as (_ & _ & Hpg).
  destruct (clear_page_ok init_page_dir D s' pd upage Hc' Hpd Hup Hm) as (s2 & Hx2 & Hc2 & _ & Hr2). split_and!.
  - intros k Hk. have Hs : pg_no (upage + k) = pg_no upage /\ 0 <= upage + k /\ is_user_vaddr (upage + k) = true /\ pg_ofs (upage + k) = k.
    { rewrite !pg_no_div pg_ofs_mod /is_user_vaddr. rewrite /is_user_vaddr in Hu. apply Z.ltb_lt in Hu. split_and!; [|lia|apply Z.ltb_lt|]; rewrite /PHYS_BASE /PGSIZE in Hm Hk Hu |- *; dlia. }
    destruct Hs as (Hs & Hs0 & Hsu & Hso). rewrite (get_page_ok D) // Hr // bool_decide_eq_true_2 // Hpg. cbn [obind]. by rewrite Hso.
  - intros pd' va Hd [Hv0 Hvu] Hno. rewrite !(get_page_ok D) // Hr // bool_decide_eq_false_2 //.
  - exists s2. split; [done|]. split; [done|]. intros pd' va Hd [Hv0 Hvu]. rewrite !(get_page_ok D) //; [by apply Hc2|]. rewrite Hr2 //. case_bool_decide as Hcond.
    + destruct Hcond as [-> Hp]. by rewrite (translate_page s pd va upage Hp) Hn.
    + by rewrite Hr // bool_decide_eq_false_2.
Qed.

(** C10: the tables and the processor agree.  After any interleaving of the
    functions of pagedir.c on the directories in [D] and of memory accesses by
    the processor, whose translation lookaside buffer may hold entries of the
    active directory, an access that does not fault reaches the very byte that
    [pagedir_get_page] names, and afterwards the page counts as accessed, and as
    dirty after a write: no use of a page escapes [pagedir_is_accessed] and
    [pagedir_is_dirty]. *)
Theorem pagedir_tlb_coherent (init_page_dir init_ram_pages : Z) (D : gset Z) (s0 s : mmu) (va a : Z) (write : bool) (s' : mmu) :
  coherent D s0 -> rtc (pstep init_page_dir init_ram_pages D) s0 s -> user_page va -> access s va write = Some (a, s') ->
  pagedir_get_page s (active s) va = Ok a /\ pagedir_is_accessed s' (active s) va = Ok true /\
  (write = true -> pagedir_is_dirty s' (active s) va = Ok true).
Proof.
  intros Hc0 Hr Hup Hx. destruct (Hup) as [H0 Hu]. have Hc : coherent D s by clear -Hr Hc0; induction Hr; [done|]; eauto using pstep_coherent.
  destruct (access_ok D s va write a s' Hc H0 Hu Hx) as (w & w' & Ht & -> & Hc' & Ha & Ht' & HA & HD).
  have Hd := c_active _ _ Hc. have H := c_inv _ _ Hc. have H' := c_inv _ _ Hc'.
  have His : forall f, pagedir_is f s' (active s) va = Ok (has w' f).
  { intros f. rewrite /pagedir_is (lookup_page_ok D s' H') //. cbn [obind]. rewrite /translate in Ht'. destruct (table s' (active s) (pd_no va)); [|done].
    destruct (has _ PTE_P); [|done]. by injection Ht' as ->. }
  split_and!; [|by rewrite /pagedir_is_accessed His HA|by intros Hw; rewrite /pagedir_is_dirty His HD].
  rewrite (get_page_ok D) // Ht page_of_entry //.
  by apply (c_frames _ _ Hc (active s) va).
Qed.

(** ** An example: one empty directory *)
Definition ex_mmu : mmu :=
  mk_mmu (mk_palloc (mk_pool false (mk_bitmap 4 [1]) 0xc0100000) (mk_pool false (mk_bitmap 3 [0]) 0xc0200000) (fun _ => 0)) 0x100000 ∅.
Definition ex_dirs : gset Z := {[0xc0100000]}.

Lemma ex_mmu_coherent : coherent ex_dirs ex_mmu.
Proof.
  have Hl : forall a, load ex_mmu a = 0 by done. have Ht : forall pd i, table ex_mmu pd i = None by intros pd i; rewrite /table Hl.
  split.
  - split.
    + split; try done; (split; [done|]; split; [done|]; constructor; [lia|constructor]).
    + done.
    + intros pd ->%elem_of_singleton. by exists 0.
    + intros pd i _ _. by rewrite Hl.
    + intros pd pd' i _ _ _. by rewrite Ht.
    + intros pd pd' i i' pt _ _ _ _. by rewrite Ht.
  - by apply elem_of_singleton.
  - intros pd va w _ _. by rewrite /translate Ht.
  - done.
Qed.

Lemma pagedir_map_unmap_witness :
  exists ok s', pagedir_set_page 0xc0300000 4096 ex_mmu 0xc0100000 0x8048000 0xc0200000 true = Ok (ok, s') /\ coherent ex_dirs s' /\
    if ok then
      (forall k, 0 <= k < PGSIZE -> pagedir_get_page s' 0xc0100000 (0x8048000 + k) = Ok (0xc0200000 + k)) /\
      (forall pd' va, pd' ∈ ex_dirs -> user_page va -> ~ (pd' = 0xc0100000 /\ pg_no va = pg_no 0x8048000) ->
         pagedir_get_page s' pd' va = pagedir_get_page ex_mmu pd' va) /\
      exists s2, pagedir_clear_page 0xc0300000 s' 0xc0100000 0x8048000 = Ok s2 /\ coherent ex_dirs s2 /\
        forall pd' va, pd' ∈ ex_dirs -> user_page va -> pagedir_get_page s2 pd' va = pagedir_get_page ex_mmu pd' va
    else s' = ex_mmu.
Proof.
  apply (pagedir_map_unmap 0xc0300000 4096 ex_dirs ex_mmu 0xc0100000 0x8048000 0xc0200000 true).
  - exact ex_mmu_coherent.
  - by apply elem_of_singleton.
  - done.
  - split; [lia|done].
  - done.
  - split; [done|]. split; [by split|done].
  - vm_compute. reflexivity.
Defined.

(** The page is mapped, then written. *)
Lemma pagedir_tlb_coherent_witness :
  exists s s', rtc (pstep 0xc0300000 4096 ex_dirs) ex_mmu s /\ access s 0x8048004 true = Some (0xc0200004, s') /\
    pagedir_get_page s (active s) 0x8048004 = Ok 0xc0200004 /\ pagedir_is_accessed s' (active s) 0x8048004 = Ok true /\
    (true = true -> pagedir_is_dirty s' (active s) 0x8048004 = Ok true).
Proof.
  assert (Hs : exists s, rtc (pstep 0xc0300000 4096 ex_dirs) ex_mmu s /\ exists s', access s 0x8048004 true = Some (0xc0200004, s')).
  { have Hd : 0xc0100000 ∈ ex_dirs by apply elem_of_singleton.
    have Hn : translate ex_mmu 0xc0100000 0x8048000 = None by vm_compute.
    destruct (set_page_ok 0xc0300000 4096 ex_dirs ex_mmu 0xc0100000 0x8048000 0xc0200000 true) as (ok & s & Hx & _ & Hcr & Htl & Hr); [apply ex_mmu_coherent|done|done|lia|done|done|done|by split|done|done|].
    have Hok : match pagedir_set_page 0xc0300000 4096 ex_mmu 0xc0100000 0x8048000 0xc0200000 true with Ok (b, _) => b | _ => false end = true by vm_compute.
    rewrite Hx in Hok. subst ok. exists s. split; [apply rtc_once, (ps_set _ _ _ _ 0xc0100000 0x8048000 0xc0200000 true true); [done|done|split; [lia|done]|done|split_and!; done|done|done]|].
    rewrite /access Htl. have -> : active s = 0xc0100000 by rewrite /active Hcr. rewrite (Hr 0xc0100000 0x8048004) //. by eexists. }
  destruct Hs as (s & Hr & s' & Hx). exists s, s'. split; [exact Hr|]. split; [exact Hx|].
  exact (pagedir_tlb_coherent 0xc0300000 4096 ex_dirs ex_mmu s 0x8048004 0xc0200004 true s' ex_mmu_coherent Hr ltac:(split; done) Hx).
Defined.
