(* ===== verification/UserMem.v ===== *)
(** * Page tables and user frames are apart

    Page directories and tables live in the kernel pool, the frames that user
    pages are mapped to in the user pool.  So the functions of pagedir.c and the
    processor's table walks leave the contents of frames alone ([tables_only]),
    and writing to frames or allocating them leaves every mapping alone
    ([coherent_frames]). *)
From S2P Require Import Prelude Bitmap Palloc PageDir.

Record tables_only (s s' : mmu) : Prop := {
  to_user : user_pool (pal s') = user_pool (pal s);
  to_kbase : base (kernel_pool (pal s')) = base (kernel_pool (pal s));
  to_kcnt : bit_cnt (used_map (kernel_pool (pal s'))) = bit_cnt (used_map (kernel_pool (pal s)));
  to_mem : forall a, base (user_pool (pal s)) <= a -> mem (pal s') a = mem (pal s) a }.

#[export] Instance tables_only_preorder : PreOrder tables_only.
Proof.
  split; [by split|]. intros s1 s2 s3 [Hu Hb Hc Hm] [Hu' Hb' Hc' Hm'].
  split; [congruence..|]. intros a Ha. rewrite Hm' ?Hm //. by rewrite Hu.
Qed.
Lemma tables_pal s s' : pal s' = pal s -> tables_only s s'.
Proof. intros E. split; by rewrite E. Qed.

Lemma kpage_below D s p : pd_inv D s -> kpage s p -> p + PGSIZE <= base (user_pool (pal s)).
Proof.
  intros H (idx & -> & Hi & _). destruct (pd_pal _ _ H) as [_ _ _ _ (_ & Ho & _)]. rewrite /pool_end in Ho. rewrite /PGSIZE in Ho |- *. lia.
Qed.
Lemma store_tables D s p j w : pd_inv D s -> kpage s p -> 0 <= j < 1024 -> tables_only s (store s (p + 4 * j) w).
Proof.
  intros H Hk Hj. have Hb := kpage_below D s p H Hk. rewrite /PGSIZE in Hb. split; [done..|].
  intros a Ha. simpl. rewrite /store_word. destruct (Z.leb_spec (p + 4 * j) a), (Z.ltb_spec a (p + 4 * j + 4)); try done. lia.
Qed.

Section functions.
Context (init_page_dir init_ram_pages : Z) (D : gset Z).

Lemma lookup_create_tables s pd va r s' : pd_inv D s -> pd ∈ D -> user_page va -> lookup_page s pd va true = Ok (r, s') -> tables_only s s'.
Proof.
  intros H Hpd [Hva Hu]. have Hi := pd_no_user va Hva Hu. destruct (kpage_ok D s H pd (pd_page _ _ H pd Hpd)) as (_ & Hb & _).
  rewrite /lookup_page (proj2 (Z.eqb_neq pd 0)); [rewrite /PHYS_BASE in Hb; lia|]. rewrite Hu. cbn [negb orb ASSERT obind].
  destruct (load s (pd + 4 * pd_no va) =? 0) eqn:Hz; last first.
  { cbn [obind]. intros E. inv_ok. done. }
  destruct (palloc_get_ok (pal s) PAL_ZERO 1 (pd_pal _ _ H)) as (pt & p & E & Hp & Hbase & Hcnt & Huser & Hcase); [done|done|].
  cbn [Palloc.flag] in *. change (Palloc.flag PAL_ZERO PAL_USER) with false in *. simpl get_pool in *.
  rewrite /palloc_get_page E. cbn [obind].
  have Hst : tables_only s (set_pal s p).
  { split; [done..|]. intros a Ha. simpl. destruct Hcase as [(_ & -> & _)|(idx & Hpt & _ & Hi0 & Hic & _ & _ & Hmem)]; [done|].
    rewrite Hmem. destruct (Z.ltb_spec a (pt + PGSIZE * 1)); [|by rewrite !andb_false_r].
    destruct (pd_pal _ _ H) as [_ _ _ _ (_ & Ho & _)]. rewrite /pool_end in Ho. rewrite /PGSIZE in Ho, Hpt |- *.
    have : base (kernel_pool (pal s)) + 4096 * bit_cnt (used_map (kernel_pool (pal s))) >= pt + 4096 by lia. rewrite /PGSIZE in H0. lia. }
  destruct (pt =? 0); cbn [obind].
  { intros [= <- <-]. done. }
  intros E2. inv_ok. apply obind_Ok_inv in E2 as (x & _ & [= <- <-]). etrans; [exact Hst|].
  have Hpdb := kpage_below D s pd H (pd_page _ _ H pd Hpd).
  split; [done..|]. intros a Ha. simpl in Ha |- *. rewrite /store_word. rewrite Huser in Ha. rewrite /PGSIZE in Hpdb.
  destruct (Z.leb_spec (pd + 4 * pd_no va) a), (Z.ltb_spec a (pd + 4 * pd_no va + 4)); try done. lia.
Qed.

Lemma set_page_tables s pd upage kpage writable ok s' : pd_inv D s -> pd ∈ D -> user_page upage ->
  pagedir_set_page init_page_dir init_ram_pages s pd upage kpage writable = Ok (ok, s') -> tables_only s s'.
Proof.
  intros H Hpd [Hva Hu] E. destruct (lookup_create_ok D s pd upage H Hpd Hva Hu) as (r & s1 & E1 & H1 & _ & _ & _ & Hr).
  have Ht := lookup_create_tables s pd upage r s1 H Hpd (conj Hva Hu) E1.
  rewrite /pagedir_set_page in E. inv_ok. match goal with E7 : lookup_page _ _ _ _ = Ok ?r6 |- _ => have ? : r6 = (r, s1) by congruence end.
  subst. destruct r as [a|]; inv_ok; [|done].
  destruct Hr as (pt & Hpt & ->). etrans; [exact Ht|]. eapply store_tables; [done| |apply pt_no_range].
  by apply (table_kpage D s1 H1 pd (pd_no upage) pt Hpd (pd_no_user upage Hva ltac:(done))).
Qed.

Lemma entry_tables s pd va r s' w : pd_inv D s -> pd ∈ D -> user_page va -> lookup_page s pd va false = Ok (Some r, s') -> s' = s /\ tables_only s (store s r w).
Proof.
  intros H Hpd [Hva Hu]. rewrite (lookup_page_ok D s H) //. destruct (table s pd (pd_no va)) as [pt|] eqn:Ht; [|done].
  intros [= <- <-]. split; [done|]. eapply store_tables; [done| |apply pt_no_range].
  by apply (table_kpage D s H pd (pd_no va) pt Hpd (pd_no_user va Hva Hu)).
Qed.
Lemma invalidate_tables s pd s' : invalidate_pagedir init_page_dir s pd = Ok s' -> tables_only s s'.
Proof. rewrite /invalidate_pagedir /pagedir_activate. intros E. apply tables_pal. inv_ok. destruct (_ =? pd); inv_ok; done. Qed.

Lemma pagedir_set_tables f s pd va b s' : pd_inv D s -> pd ∈ D -> user_page va -> pagedir_set init_page_dir f s pd va b = Ok s' -> tables_only s s'.
Proof.
  intros H Hpd Hva. rewrite /pagedir_set. intros E. inv_ok. destruct r as [[a|] s1]; last first.
  { injection E as <-. destruct Hva. rewrite (lookup_page_ok D s H) // in E0. by injection E0 as _ <-. }
  destruct (entry_tables s pd va a s1 (if b then Z.lor (load s a) f else Z.ldiff (load s a) f) H Hpd Hva E0) as [-> Ht].
  destruct b; [by inv_ok|]. etrans; [exact Ht|]. by eapply invalidate_tables.
Qed.
Lemma clear_page_tables s pd va s' : pd_inv D s -> pd ∈ D -> user_page va -> pagedir_clear_page init_page_dir s pd va = Ok s' -> tables_only s s'.
Proof.
  intros H Hpd Hva. rewrite /pagedir_clear_page. intros E. inv_ok. destruct r1 as [[a|] s1]; last first.
  { injection E as <-. destruct Hva. rewrite (lookup_page_ok D s H) // in E2. by injection E2 as _ <-. }
  destruct (entry_tables s pd va a s1 (Z.ldiff (load s a) PTE_P) H Hpd Hva E2) as [-> Ht].
  destruct (has (load s a) PTE_P); [|by inv_ok]. etrans; [exact Ht|]. by eapply invalidate_tables.
Qed.
End functions.

Lemma access_tables D s va write a s' : coherent D s -> user_page va -> access s va write = Some (a, s') -> tables_only s s'.
Proof.
  intros [H Ha _ _] [Hva Hu]. have Hf : forall f, tables_only s (set_flags s va f).
  { intros f. rewrite /set_flags. destruct (table s (active s) (pd_no va)) as [pt|] eqn:Ht; [|done].
    eapply store_tables; [done| |apply pt_no_range]. by apply (table_kpage D s H (active s) (pd_no va) pt Ha (pd_no_user va Hva Hu)). }
  have Hc : forall s v w, tables_only s (cache s v w) by intros; by apply tables_pal.
  rewrite /access. destruct (tlb s !! pg_no va) as [w|].
  - destruct (write && negb (has w PTE_W)); [done|]. intros [= _ <-]. destruct (_ && _); [|done]. etrans; [apply Hf|apply Hc].
  - destruct (translate s (active s) va) as [w|]; [|done]. destruct (_ && _); [done|]. intros [= _ <-]. etrans; [apply Hf|apply Hc].
Qed.

(** ** Frames may change *)
Section frames.
Context (D : gset Z) (s s' : mmu).
Context (Hwf : palloc_wf (pal s')) (Hk : kernel_pool (pal s') = kernel_pool (pal s)) (Hcr : cr3 s' = cr3 s) (Htlb : tlb s' = tlb s)
  (Hmem : forall a, a < base (user_pool (pal s)) -> mem (pal s') a = mem (pal s) a).

Lemma frames_kpage a : kpage s' a <-> kpage s a.
Proof using Hk. rewrite /kpage /used /= Hk //. Qed.
Lemma frames_load a j : pd_inv D s -> kpage s a -> 0 <= j < 1024 -> load s' (a + 4 * j) = load s (a + 4 * j).
Proof using Hmem.
  intros H Ha Hj. have Hb := kpage_below D s a H Ha. rewrite /PGSIZE in Hb. rewrite /load /word_at !Hmem //; lia.
Qed.
Lemma frames_table pd i : pd_inv D s -> pd ∈ D -> 0 <= i < 768 -> table s' pd i = table s pd i.
Proof using Hmem. intros H Hpd Hi. rewrite /table frames_load //; [by apply (pd_page _ _ H)|lia]. Qed.
Lemma frames_translate pd va : pd_inv D s -> pd ∈ D -> user_page va -> translate s' pd va = translate s pd va.
Proof using Hmem.
  intros H Hpd [Hva Hu]. have Hi := pd_no_user va Hva Hu. rewrite /translate frames_table //.
  destruct (table s pd (pd_no va)) as [pt|] eqn:Ht; [|done]. rewrite frames_load //; [|apply pt_no_range].
  by apply (table_kpage D s H pd _ pt Hpd Hi).
Qed.
Lemma frames_inv : pd_inv D s -> pd_inv D s'.
Proof using Hmem Hk Hwf.
  intros H. have Ht := fun pd i => frames_table pd i H. have Hl := fun a j => frames_load a j H. split; [done|..].
  - rewrite Hk. apply H.
  - intros pd Hpd. apply frames_kpage. by apply (pd_page _ _ H).
  - intros pd i Hpd Hi. rewrite Ht // Hl; [by apply (pd_page _ _ H)|lia|]. intros Hn.
    destruct (pd_table _ _ H pd i Hpd Hi Hn) as (? & pt & ? & ?). split; [done|]. exists pt. by rewrite frames_kpage.
  - intros pd pd' i Hpd Hpd' Hi. rewrite Ht //. by apply (pd_apart _ _ H).
  - intros pd pd' i i' pt Hpd Hpd' Hi Hi'. rewrite !Ht //. by apply (pd_own _ _ H).
Qed.
Lemma coherent_frames : coherent D s -> coherent D s'.
Proof using Hmem Hk Hwf Hcr Htlb.
  intros [H Ha Hf Ht]. have Hac : active s' = active s by rewrite /active Hcr. split; [by apply frames_inv|by rewrite Hac|..].
  - intros pd va w Hpd Hva. rewrite frames_translate //. by apply Hf.
  - intros v w. rewrite Htlb Hac. intros Hw. destruct (Ht v w Hw) as (? & ? & w' & ? & ?). split_and!; [done|done|].
    exists w'. by rewrite frames_translate.
Qed.
End frames.

(** ** When a page cannot be mapped

    Looking up with creation fails only for want of kernel pages. *)
Lemma lookup_create_none D s pd va : pd_inv D s -> pd ∈ D -> user_page va ->
  (exists s', lookup_page s pd va true = Ok (None, s')) <->
  (table s pd (pd_no va) = None /\ forall k, 0 <= k < bit_cnt (used_map (kernel_pool (pal s))) -> used (pal s) false k = true).
Proof.
  intros H Hpd [Hva Hu]. have Hi := pd_no_user va Hva Hu. destruct (kpage_ok D s H pd (pd_page _ _ H pd Hpd)) as (_ & Hb & _).
  rewrite /lookup_page (proj2 (Z.eqb_neq pd 0)); [rewrite /PHYS_BASE in Hb; lia|]. rewrite Hu. cbn [negb orb ASSERT obind].
  rewrite {1}/table. destruct (load s (pd + 4 * pd_no va) =? 0) eqn:Hz; last first.
  { cbn [obind]. split; [intros [s' E]; inv_ok|by intros [? _]]. }
  destruct (palloc_get_ok (pal s) PAL_ZERO 1 (pd_pal _ _ H)) as (pt & p & E & Hp & Hbase & Hcnt & Huser & Hcase); [done|done|].
  change (Palloc.flag PAL_ZERO PAL_USER) with false in *. simpl get_pool in *. rewrite /palloc_get_page E. cbn [obind].
  destruct Hcase as [(-> & -> & Hfull)|(idx & Hpt & Hpos & Hi0 & Hic & Hfree & _)].
  - rewrite Z.eqb_refl. cbn [obind]. split; [|by eauto]. intros _. split; [done|]. intros k Hk. apply not_false_iff_true. intros Hf.
    apply (Hfull k); [lia|lia|]. intros j Hj. by have -> : j = k by lia.
  - rewrite (proj2 (Z.eqb_neq pt 0)); [lia|]. split.
    + intros [s' E2]. inv_ok. by apply obind_Ok_inv in E2 as (x & _ & ?).
    + intros [_ Hall]. have := Hall idx ltac:(lia). rewrite Hfree //. lia.
Qed.

(** An access only sets flags. *)
Lemma access_flags D s va write a s' : coherent D s -> user_page va -> access s va write = Some (a, s') ->
  forall pd' va', pd' ∈ D -> user_page va' ->
    (translate s pd' va' = None /\ translate s' pd' va' = None) \/
    exists w w', translate s pd' va' = Some w /\ translate s' pd' va' = Some w' /\ Z.land w' PTE_ADDR = Z.land w PTE_ADDR /\
      (has w' PTE_D = false -> has w PTE_D = false).
Proof.
  intros [H Ha Hfr Htl] [Hva Hu] E pd' va' Hpd' [Hva' Hu'].
  have Hsame : (translate s pd' va' = None /\ translate s pd' va' = None) \/
    exists w w', translate s pd' va' = Some w /\ translate s pd' va' = Some w' /\ Z.land w' PTE_ADDR = Z.land w PTE_ADDR /\
      (has w' PTE_D = false -> has w PTE_D = false).
  { destruct (translate s pd' va') as [w|]; [right; by exists w, w|by left]. }
  have Hset : forall w f v x, translate s (active s) va = Some w -> f = PTE_A \/ f = PTE_D \/ f = Z.lor PTE_A PTE_D -> s' = cache (set_flags s va f) v x ->
    (translate s pd' va' = None /\ translate s' pd' va' = None) \/
    exists w w', translate s pd' va' = Some w /\ translate s' pd' va' = Some w' /\ Z.land w' PTE_ADDR = Z.land w PTE_ADDR /\
      (has w' PTE_D = false -> has w PTE_D = false).
  { intros w f v x Hw Hf ->. destruct (set_flags_ok D s va f w H Ha Hva Hu Hf Hw) as (_ & _ & _ & Ht).
    change (translate (cache (set_flags s va f) v x) pd' va') with (translate (set_flags s va f) pd' va'). rewrite Ht //. case_bool_decide as Hb; [|done].
    destruct Hb as [-> Hpg]. right. exists w, (Z.lor w f). split; [by rewrite (translate_page _ _ va' va)|]. split; [done|].
    rewrite addr_lor // lor_D. split; [done|]. by intros [? _]%orb_false_iff. }
  rewrite /access in E. destruct (tlb s !! pg_no va) as [w|] eqn:Hv.
  - destruct (write && negb (has w PTE_W)); [done|]. destruct (write && negb (has w PTE_D)); injection E as _ <-; [|done].
    destruct (Htl _ _ Hv) as (_ & _ & w' & Hw' & _). destruct (page_start va Hva Hu) as (_ & _ & Hpn).
    eapply (Hset w'); [|by right; left|done]. rewrite -Hw'. by apply translate_page.
  - destruct (translate s (active s) va) as [w|] eqn:Hw; [|done]. destruct (_ && _); [done|]. injection E as _ <-.
    eapply (Hset w); [done| |done]. destruct write; [by right; right|by left].
Qed.
