(* ===== verification/Block.v ===== *)
(** * devices/block.c: block devices

    A device holds [size] sectors of [BLOCK_SECTOR_SIZE] bytes.  The driver
    operations behind [block->ops] transfer whole sectors: the contents of the
    device are a map from sector numbers to sectors. *)
From S2P Require Import Prelude.

Definition BLOCK_SECTOR_SIZE : Z := 512.
Definition sector_len : nat := 512.
Definition zero_sector : list Z := replicate sector_len 0.

(** [enum block_type] of devices/block.h; the first four are also roles. *)
Inductive block_type :=
  BLOCK_KERNEL | BLOCK_FILESYS | BLOCK_SCRATCH | BLOCK_SWAP | BLOCK_RAW | BLOCK_FOREIGN.
#[export] Instance block_type_eq_dec : EqDecision block_type.
Proof. solve_decision. Defined.

Definition block_type_no (t : block_type) : Z :=
  match t with BLOCK_KERNEL => 0 | BLOCK_FILESYS => 1 | BLOCK_SCRATCH => 2
             | BLOCK_SWAP => 3 | BLOCK_RAW => 4 | BLOCK_FOREIGN => 5 end.
Definition BLOCK_ROLE_CNT : Z := 4.
Definition BLOCK_CNT : Z := 6.

Record block := mk_block {
  block_name : string;
  type : block_type;
  size : Z;                        (* sectors *)
  content : gmap Z (list Z);       (* what the driver transfers *)
  read_cnt : Z;
  write_cnt : Z }.

(** The bytes of sector [s]; a sector never written is zero. *)
Definition sector_at (d : block) (s : Z) : list Z := default zero_sector (content d !! s).

Definition check_sector (d : block) (sector : Z) : outcome unit :=
  if size d <=? sector then Err Panic else Ok tt.

Definition block_read (d : block) (sector : Z) : outcome (list Z * block) :=
  let! _ := check_sector d sector in
  Ok (sector_at d sector,
      mk_block (block_name d) (type d) (size d) (content d) (u64 (read_cnt d + 1)) (write_cnt d)).

Definition block_write (d : block) (sector : Z) (buffer : list Z) : outcome block :=
  let! _ := check_sector d sector in
  assert! negb (bool_decide (type d = BLOCK_FOREIGN)) in
  Ok (mk_block (block_name d) (type d) (size d) (<[sector := buffer]> (content d))
        (read_cnt d) (u64 (write_cnt d + 1))).

Definition block_size (d : block) : Z := size d.

(** ** The device table: [all_blocks] in probe order and the role table *)
Record block_table := mk_table {
  all_blocks : list block;
  block_by_role : list (option nat) }.   (* index into [all_blocks] *)

Definition no_blocks : block_table := mk_table [] [None; None; None; None].

Definition block_get_role (t : block_table) (role : block_type) : outcome (option nat) :=
  assert! block_type_no role <? BLOCK_ROLE_CNT in
  oget (block_by_role t !! Z.to_nat (block_type_no role)).

Definition block_set_role (t : block_table) (role : block_type) (b : option nat) : outcome block_table :=
  assert! block_type_no role <? BLOCK_ROLE_CNT in
  Ok (mk_table (all_blocks t) (<[Z.to_nat (block_type_no role) := b]> (block_by_role t))).

Definition block_first (t : block_table) : option nat :=
  match all_blocks t with [] => None | _ => Some O end.

Definition block_next (t : block_table) (i : nat) : option nat :=
  if bool_decide (S i < length (all_blocks t))%nat then Some (S i) else None.

Fixpoint get_by_name_loop (bs : list block) (i : nat) (name : string) : option nat :=
  match bs with
  | [] => None
  | b :: bs => if String.eqb name (block_name b) then Some i else get_by_name_loop bs (S i) name
  end.
Definition block_get_by_name (t : block_table) (name : string) : option nat :=
  get_by_name_loop (all_blocks t) O name.

(** [strlcpy (block->name, name, sizeof block->name)] keeps 15 characters. *)
Definition block_register (t : block_table) (name : string) (ty : block_type) (sz : Z)
    (driver : gmap Z (list Z)) : nat * block_table :=
  (length (all_blocks t),
   mk_table (all_blocks t ++ [mk_block (String.substring 0 15 name) ty sz driver 0 0]) (block_by_role t)).

(** ** Facts about sectors *)
Lemma sector_at_write d s buf n :
  forall d', block_write d s buf = Ok d' ->
  sector_at d' n = if decide (n = s) then buf else sector_at d n.
Proof.
  intros d' H. unfold block_write in H. inv_ok. unfold sector_at. simpl.
  rw lookup_insert. repeat case_decide; naive_solver.
Qed.

Lemma block_write_ok d s buf :
  s < size d -> type d ≠ BLOCK_FOREIGN ->
  exists d', block_write d s buf = Ok d' /\ size d' = size d /\ type d' = type d /\
    (forall n, sector_at d' n = if decide (n = s) then buf else sector_at d n).
Proof.
  intros Hs Ht. unfold block_write, check_sector.
  rw (proj2 (Z.leb_gt _ _) Hs) /= bool_decide_eq_false_2 //=.
  eexists. split_and!; [done..|]. intros n. unfold sector_at. simpl.
  rw lookup_insert. repeat case_decide; naive_solver.
Qed.

Lemma block_read_ok d s :
  s < size d -> exists d', block_read d s = Ok (sector_at d s, d') /\ size d' = size d /\
    type d' = type d /\ content d' = content d.
Proof.
  intros Hs. unfold block_read, check_sector. rw (proj2 (Z.leb_gt _ _) Hs) /=. by eexists.
Qed.
