(* ===== verification/Partition.v ===== *)
(** * devices/partition.c: partitions of a disk

    A partition table is 512 bytes: four entries of 16 bytes at byte 446 and a
    signature.  [parts] are the partitions registered so far, the devices that
    [block_register] makes, each with its first sector on the disk; [memory] says
    which calls of [malloc] fail, and all succeed after its end.  What is printed is
    not modelled.  The recursion of [read_partition_table] takes kernel stack at each
    level: [fuel] is the number of levels there is room for.

    The theorems: reading and writing partitions stays inside them; a disk with an
    extended partition makes the recursion go on until the stack is used up. *)
From S2P Require Import Prelude CString Printf Block.

(** ** Data *)
Record partition := mk_part { p_name : list Z; p_type : block_type; p_info : list Z; p_size : Z; p_start : Z }.
Record partition_table_entry := mk_pte { pe_type : Z; pe_offset : Z; pe_size : Z }.
Definition word_at (bs : list Z) (o : nat) : Z :=
  bs !!! o + 256 * bs !!! (o + 1)%nat + 65536 * bs !!! (o + 2)%nat + 16777216 * bs !!! (o + 3)%nat.
(** [pt->partitions[i]] *)
Definition read_pte (pt : list Z) (i : nat) : partition_table_entry :=
  let o := (446 + 16 * i)%nat in mk_pte (pt !!! (o + 4)%nat) (word_at pt (o + 8)) (word_at pt (o + 12)).
Definition signature (pt : list Z) : Z := pt !!! 510%nat + 256 * pt !!! 511%nat.

(** [disk] is the device that is scanned. *)
Record scan := mk_scan { disk : block; parts : list partition; part_nr : Z; memory : list bool }.
Definition alloc (s : scan) : bool * scan :=
  match memory s with [] => (true, s) | b :: l => (b, mk_scan (disk s) (parts s) (part_nr s) l) end.
Definition set_disk (s : scan) (d : block) : scan := mk_scan d (parts s) (part_nr s) (memory s).

Definition type_names : list (Z * string) :=
  [(0x00, "Empty"); (0x01, "FAT12"); (0x02, "XENIX root"); (0x03, "XENIX usr"); (0x04, "FAT16 <32M"); (0x05, "Extended"); (0x06, "FAT16");
   (0x07, "HPFS/NTFS"); (0x08, "AIX"); (0x09, "AIX bootable"); (0x0a, "OS/2 Boot Manager"); (0x0b, "W95 FAT32"); (0x0c, "W95 FAT32 (LBA)");
   (0x0e, "W95 FAT16 (LBA)"); (0x0f, "W95 Ext'd (LBA)"); (0x10, "OPUS"); (0x11, "Hidden FAT12"); (0x12, "Compaq diagnostics");
   (0x14, "Hidden FAT16 <32M"); (0x16, "Hidden FAT16"); (0x17, "Hidden HPFS/NTFS"); (0x18, "AST SmartSleep"); (0x1b, "Hidden W95 FAT32");
   (0x1c, "Hidden W95 FAT32 (LBA)"); (0x1e, "Hidden W95 FAT16 (LBA)"); (0x20, "Pintos OS kernel"); (0x21, "Pintos file system");
   (0x22, "Pintos scratch"); (0x23, "Pintos swap"); (0x24, "NEC DOS"); (0x39, "Plan 9"); (0x3c, "PartitionMagic recovery"); (0x40, "Venix 80286");
   (0x41, "PPC PReP Boot"); (0x42, "SFS"); (0x4d, "QNX4.x"); (0x4e, "QNX4.x 2nd part"); (0x4f, "QNX4.x 3rd part"); (0x50, "OnTrack DM");
   (0x51, "OnTrack DM6 Aux1"); (0x52, "CP/M"); (0x53, "OnTrack DM6 Aux3"); (0x54, "OnTrackDM6"); (0x55, "EZ-Drive"); (0x56, "Golden Bow");
   (0x5c, "Priam Edisk"); (0x61, "SpeedStor"); (0x63, "GNU HURD or SysV"); (0x64, "Novell Netware 286"); (0x65, "Novell Netware 386");
   (0x70, "DiskSecure Multi-Boot"); (0x75, "PC/IX"); (0x80, "Old Minix"); (0x81, "Minix / old Linux"); (0x82, "Linux swap / Solaris");
   (0x83, "Linux"); (0x84, "OS/2 hidden C: drive"); (0x85, "Linux extended"); (0x86, "NTFS volume set"); (0x87, "NTFS volume set");
   (0x88, "Linux plaintext"); (0x8e, "Linux LVM"); (0x93, "Amoeba"); (0x94, "Amoeba BBT"); (0x9f, "BSD/OS"); (0xa0, "IBM Thinkpad hibernation");
   (0xa5, "FreeBSD"); (0xa6, "OpenBSD"); (0xa7, "NeXTSTEP"); (0xa8, "Darwin UFS"); (0xa9, "NetBSD"); (0xab, "Darwin boot"); (0xb7, "BSDI fs");
   (0xb8, "BSDI swap"); (0xbb, "Boot Wizard hidden"); (0xbe, "Solaris boot"); (0xbf, "Solaris"); (0xc1, "DRDOS/sec (FAT-12)");
   (0xc4, "DRDOS/sec (FAT-16 < 32M)"); (0xc6, "DRDOS/sec (FAT-16)"); (0xc7, "Syrinx"); (0xda, "Non-FS data"); (0xdb, "CP/M / CTOS / ...");
   (0xde, "Dell Utility"); (0xdf, "BootIt"); (0xe1, "DOS access"); (0xe3, "DOS R/O"); (0xe4, "SpeedStor"); (0xeb, "BeOS fs"); (0xee, "EFI GPT");
   (0xef, "EFI (FAT-12/16/32)"); (0xf0, "Linux/PA-RISC boot"); (0xf1, "SpeedStor"); (0xf4, "SpeedStor"); (0xf2, "DOS secondary");
   (0xfd, "Linux raid autodetect"); (0xfe, "LANstep"); (0xff, "BBT")].
Fixpoint type_name_of (l : list (Z * string)) (type : Z) : option string :=
  match l with [] => None | (t, n) :: l => if t =? type then Some n else type_name_of l type end.
Definition partition_type_name (type : Z) : string := default "Unknown"%string (type_name_of type_names type).

(** ** Operations *)
Definition part_type_of (part_type : Z) : block_type :=
  if part_type =? 0x20 then BLOCK_KERNEL else if part_type =? 0x21 then BLOCK_FILESYS
  else if part_type =? 0x22 then BLOCK_SCRATCH else if part_type =? 0x23 then BLOCK_SWAP else BLOCK_FOREIGN.

(** [snprintf] keeps one character less than the size of the buffer; [block_register] copies 15. *)
Definition found_partition (s : scan) (part_type start size : Z) : outcome scan :=
  if block_size (disk s) <=? start then Ok s
  else if (u32 (start + size) <? start) || (block_size (disk s) <? u32 (start + size)) then Ok s
  else
    let (ok, s) := alloc s in
    if negb ok then Err Panic else
    let! nr := printf ∅ (Lit (chars "%d") 0) [u32 (part_nr s)] in
    let! hex := printf ∅ (Lit (chars "%02x") 0) [part_type] in
    let name := take 15 (chars (block_name (disk s)) ++ nr) in
    let extra_info := take 127 (chars (partition_type_name part_type) ++ chars " (" ++ hex ++ chars ")") in
    let (ok, s) := alloc s in                         (* in [block_register] *)
    if negb ok then Err Panic else
    Ok (mk_scan (disk s) (parts s ++ [mk_part name (part_type_of part_type) extra_info size start]) (part_nr s) (memory s)).

Definition is_extended (type : Z) : bool := (type =? 0x05) || (type =? 0x0f) || (type =? 0x85) || (type =? 0xc5).
(** The loop over the entries; [recur] is the recursive call. *)
Fixpoint entries_loop (recur : scan -> Z -> Z -> outcome scan) (s : scan) (sector primary_extended_sector : Z) (es : list partition_table_entry) : outcome scan :=
  match es with
  | [] => Ok s
  | e :: es =>
    let! s :=
      if (pe_size e =? 0) || (pe_type e =? 0) then Ok s
      else if is_extended (pe_type e) then
        if sector =? 0 then recur s (pe_offset e) (pe_offset e)
        else recur s (u32 (pe_offset e + primary_extended_sector)) primary_extended_sector
      else
        let s := mk_scan (disk s) (parts s) (s32 (part_nr s + 1)) (memory s) in
        found_partition s (pe_type e) (u32 (pe_offset e + sector)) (pe_size e) in
    entries_loop recur s sector primary_extended_sector es
  end.
(** Whatever [sector] is, sector 0 is read. *)
Fixpoint read_partition_table (fuel : nat) (s : scan) (sector primary_extended_sector : Z) : outcome scan :=
  match fuel with
  | O => Err NoFuel
  | S fuel =>
    if block_size (disk s) <=? sector then Ok s else
    let (ok, s) := alloc s in
    if negb ok then Err Panic else
    let! (pt, d) := block_read (disk s) 0 in
    let s := set_disk s d in
    if negb (signature pt =? 0xaa55) then Ok s
    else entries_loop (read_partition_table fuel) s sector primary_extended_sector (read_pte pt <$> seq 0 4)
  end.
Definition partition_scan (fuel : nat) (d : block) (memory : list bool) : outcome scan :=
  read_partition_table fuel (mk_scan d [] 0 memory) 0 0.

Definition partition_read (d : block) (p : partition) (sector : Z) : outcome (list Z * block) := block_read d (u32 (p_start p + sector)).
Definition partition_write (d : block) (p : partition) (sector : Z) (buffer : list Z) : outcome block := block_write d (u32 (p_start p + sector)) buffer.
(** [block_read] and [block_write] on the device of the partition (block.c) *)
Definition part_block_read (d : block) (p : partition) (sector : Z) : outcome (list Z * block) :=
  if p_size p <=? sector then Err Panic else partition_read d p sector.
Definition part_block_write (d : block) (p : partition) (sector : Z) (buffer : list Z) : outcome block :=
  if p_size p <=? sector then Err Panic else
  assert! negb (bool_decide (p_type p = BLOCK_FOREIGN)) in partition_write d p sector buffer.

(** ** What a scan finds *)
(** A disk of at most 2^32 - 1 sectors whose first sector holds 512 bytes. *)
Record disk_ok (d : block) : Prop := {
  dk_size : 0 < size d < 2 ^ 32;
  dk_length : List.length (sector_at d 0) = sector_len;
  dk_bytes : Forall (fun b => 0 <= b < 256) (sector_at d 0) }.
Definition table_of (d : block) : list partition_table_entry := read_pte (sector_at d 0) <$> seq 0 4.
Definition empty_entry (e : partition_table_entry) : bool := (pe_size e =? 0) || (pe_type e =? 0).
(** The entry is a partition that lies on the disk. *)
Definition on_disk (d : block) (e : partition_table_entry) : bool :=
  negb (empty_entry e) && (pe_offset e <? size d) && (pe_offset e + pe_size e <=? size d).
Definition found (p : partition) : block_type * Z * Z := (p_type p, p_start p, p_size p).
Definition wanted (e : partition_table_entry) : block_type * Z * Z := (part_type_of (pe_type e), pe_offset e, pe_size e).

Record pte_ok (e : partition_table_entry) : Prop := {
  po_type : 0 <= pe_type e < 256;
  po_offset : 0 <= pe_offset e < 2 ^ 32;
  po_size : 0 <= pe_size e < 2 ^ 32 }.
Lemma word_at_bounds bs o : Forall (fun b => 0 <= b < 256) bs -> (o + 3 < List.length bs)%nat -> 0 <= word_at bs o < 2 ^ 32.
Proof.
  intros H Hl. have Hb : forall k, (k < List.length bs)%nat -> 0 <= bs !!! k < 256.
  { intros k Hk. destruct (lookup_lt_is_Some_2 bs k Hk) as [x Hx]. rw (list_lookup_total_correct _ _ _ Hx). by apply (Forall_lookup_1 _ _ _ _ H Hx). }
  have H0 := Hb o. have H1 := Hb (o + 1)%nat. have H2 := Hb (o + 2)%nat. have H3 := Hb (o + 3)%nat. rw /word_at. lia.
Qed.
Lemma table_ok d : disk_ok d -> Forall pte_ok (table_of d).
Proof.
  intros [_ Hl Hb]. rw /table_of. apply Forall_fmap, Forall_forall. intros i Hi%elem_of_seq. rw /read_pte. have Hll : List.length (sector_at d 0) = 512%nat by rw Hl.
  split; cbn [pe_type pe_offset pe_size compose]; [|apply word_at_bounds; [done|lia]..].
  destruct (lookup_lt_is_Some_2 (sector_at d 0) (446 + 16 * i + 4)%nat) as [x Hx]; [lia|]. rw /= (list_lookup_total_correct _ _ _ Hx). by apply (Forall_lookup_1 _ _ _ _ Hb Hx).
Qed.
Lemma printf_02x t : 0 <= t < 256 -> exists l, printf ∅ (Lit (chars "%02x") 0) [t] = Ok l.
Proof.
  intros Ht. have Hall : forallb (fun k => match printf ∅ (Lit (chars "%02x") 0) [Z.of_nat k] with Ok _ => true | Err _ => false end) (seq 0 256) = true by vm_compute.
  rewrite forallb_forall in Hall. specialize (Hall (Z.to_nat t)). rewrite in_seq in Hall. specialize (Hall ltac:(lia)). rewrite Z2Nat.id in Hall; [lia|].
  destruct (printf ∅ _ [t]) as [l|]; [by exists l|done].
Qed.

(** [found_partition] registers the partition exactly when it lies on the disk. *)
Lemma found_partition_ok s e sector : memory s = [] -> pte_ok e -> 0 <= size (disk s) < 2 ^ 32 -> 0 <= sector < 2 ^ 32 -> let start := u32 (pe_offset e + sector) in
  exists s', found_partition s (pe_type e) start (pe_size e) = Ok s' /\ disk s' = disk s /\ memory s' = [] /\ part_nr s' = part_nr s /\
    if (start <? size (disk s)) && (start + pe_size e <=? size (disk s))
    then exists p, parts s' = parts s ++ [p] /\ found p = (part_type_of (pe_type e), start, pe_size e) else parts s' = parts s.
Proof.
  intros Hm [Ht Ho Hz] Hd Hs start. have Hst : 0 <= start < 2 ^ 32 by apply wrap_range. rw /found_partition /block_size.
  destruct (Z.leb_spec (size (disk s)) start) as [H1|H1]; [rw (proj2 (Z.ltb_ge _ _) H1); by exists s|]. rw (proj2 (Z.ltb_lt _ _) H1). cbn [andb].
  have Hu : (u32 (start + pe_size e) <? start) || (size (disk s) <? u32 (start + pe_size e)) = negb (start + pe_size e <=? size (disk s)).
  { destruct (Z.ltb_spec (start + pe_size e) (2 ^ 32)) as [H2|H2].
    - rw wrap_small; [lia|]. rw (proj2 (Z.ltb_ge _ start)); [lia|]. by rw orb_false_l Z.ltb_antisym.
    - have -> : u32 (start + pe_size e) = start + pe_size e - 2 ^ 32. { rw /wrap -(Z.mod_add _ (-1)); [lia|]. rw Z.mod_small; lia. }
      rw (proj2 (Z.ltb_lt _ start)); [lia|]. rw (proj2 (Z.leb_gt _ _)); lia. }
  rw Hu. destruct (start + pe_size e <=? size (disk s)); cbn [negb]; [|by exists s]. rw /alloc Hm. cbn [negb]. rw printf_d. cbn [obind].
  destruct (printf_02x (pe_type e) Ht) as [l ->]. cbn [obind]. rw Hm. cbn [negb]. eexists. split; [done|]. split_and!; try done. by eexists.
Qed.

(** The loop over entries without an extended partition. *)
Lemma entries_loop_ok recur s es : memory s = [] -> Forall pte_ok es -> 0 <= size (disk s) < 2 ^ 32 -> Forall (fun e => empty_entry e = true \/ is_extended (pe_type e) = false) es ->
  exists s', entries_loop recur s 0 0 es = Ok s' /\ disk s' = disk s /\ found <$> parts s' = (found <$> parts s) ++ (wanted <$> filter (fun e => on_disk (disk s) e = true) es).
Proof.
  intros Hm Hok Hd. revert s Hm Hd. induction Hok as [|e es He Hes IH]; intros s Hm Hd Hx; [exists s; by rw app_nil_r|]. inversion Hx as [|? ? Hx1 Hx2]; subst. cbn [entries_loop].
  have Hof := po_offset _ He. rw -/(empty_entry e). destruct (empty_entry e) eqn:Ee.
  - cbn [obind]. destruct (IH s Hm Hd Hx2) as (s' & E & Hds & Hp). exists s'. rw filter_cons_False; [rw /on_disk Ee //|]. done.
  - destruct Hx1 as [?|Hx1]; [done|]. rw Hx1. set s1 := mk_scan _ _ _ _. destruct (found_partition_ok s1 e 0 Hm He Hd) as (s2 & E2 & Hd2 & Hm2 & _ & Hp2); [lia|]. rw E2. cbn [obind].
    destruct (IH s2 Hm2) as (s' & E & Hds & Hp); [by rw Hd2|done|]. exists s'. split; [done|]. split; [by rw Hds Hd2|]. rw Hp Hd2. rw Z.add_0_r wrap_small // in Hp2. cbn [disk parts s1] in Hp2 |- *.
    have Hon : on_disk (disk s) e = (pe_offset e <? size (disk s)) && (pe_offset e + pe_size e <=? size (disk s)) by rw /on_disk Ee.
    destruct (_ && _) eqn:Eb.
    + destruct Hp2 as (p & -> & Hf). rw fmap_app /= Hf filter_cons_True // fmap_cons -app_assoc //.
    + rw Hp2 filter_cons_False //. by rw Hon.
Qed.

(** The loop gets to the first extended partition, and what the recursive call does there is what it does. *)
Lemma entries_loop_recurs recur s sector primary es1 e es2 : memory s = [] -> Forall pte_ok (es1 ++ e :: es2) -> 0 <= size (disk s) < 2 ^ 32 -> 0 <= sector < 2 ^ 32 ->
  Forall (fun e => empty_entry e = true \/ is_extended (pe_type e) = false) es1 -> empty_entry e = false -> is_extended (pe_type e) = true ->
  (forall s1, memory s1 = [] -> disk s1 = disk s ->
    (if sector =? 0 then recur s1 (pe_offset e) (pe_offset e) else recur s1 (u32 (pe_offset e + primary)) primary) = Err NoFuel) ->
  entries_loop recur s sector primary (es1 ++ e :: es2) = Err NoFuel.
Proof.
  revert s. induction es1 as [|x es1 IH]; intros s Hm Hok Hd Hs Hx He Hext Hrec; cbn [app entries_loop].
  - rw -/(empty_entry e) He Hext. by rw Hrec.
  - inversion Hok as [|? ? Hox Hok']; subst. inversion Hx as [|? ? Hx1 Hx2]; subst. rw -/(empty_entry x). destruct (empty_entry x) eqn:Ex; [cbn [obind]; by apply IH|].
    destruct Hx1 as [?|Hx1]; [done|]. rw Hx1. set s1 := mk_scan _ _ _ _. destruct (found_partition_ok s1 x sector Hm Hox Hd Hs) as (s2 & -> & Hd2 & Hm2 & _). cbn [obind].
    apply IH; try done; [by rw Hd2|]. intros s3 Hm3 Hd3. apply Hrec; [done|]. by rw Hd3 Hd2.
Qed.

(** The disk is the same but for its statistics. *)
Definition same_disk (d d' : block) : Prop := size d' = size d /\ content d' = content d.
Lemma same_disk_sector d d' : same_disk d d' -> sector_at d' 0 = sector_at d 0 /\ table_of d' = table_of d.
Proof. intros [_ Hc]. by rw /table_of /sector_at Hc. Qed.

Lemma read_table_step fuel s d sector primary es1 e es2 : same_disk d (disk s) -> disk_ok d -> memory s = [] -> signature (sector_at d 0) = 0xaa55 ->
  table_of d = es1 ++ e :: es2 -> Forall (fun e => empty_entry e = true \/ is_extended (pe_type e) = false) es1 -> empty_entry e = false -> is_extended (pe_type e) = true ->
  0 <= sector < size d ->
  (forall s1, memory s1 = [] -> same_disk d (disk s1) ->
    (if sector =? 0 then read_partition_table fuel s1 (pe_offset e) (pe_offset e) else read_partition_table fuel s1 (u32 (pe_offset e + primary)) primary) = Err NoFuel) ->
  read_partition_table (S fuel) s sector primary = Err NoFuel.
Proof.
  intros Hsd Hok Hm Hsig Ht Hx He Hext Hs Hrec. have [Hsz Hct] := Hsd. have Hd := dk_size _ Hok. cbn [read_partition_table]. rw /block_size Hsz (proj2 (Z.leb_gt _ _)); [lia|]. rw /alloc Hm. cbn [negb].
  destruct (block_read_ok (disk s) 0) as (d' & E & Hs' & _ & Hc'); [lia|]. rw E. cbn [obind]. destruct (same_disk_sector _ _ Hsd) as [-> _]. rw Hsig. cbn [negb Z.eqb Pos.eqb].
  have Htab := table_ok d Hok. change (read_pte (sector_at d 0) <$> seq 0 4) with (table_of d). rw Ht in Htab |- *.
  apply entries_loop_recurs; try done; cbn [disk set_disk]; [lia|lia|]. intros s1 Hm1 Hd1. apply Hrec; [done|]. rw Hd1. split; simpl; congruence.
Qed.

(** ** Example: a disk of 100 sectors *)
Definition ex_pte (type offset size : Z) : list Z := [0; 0; 0; 0; type; 0; 0; 0; offset; 0; 0; 0; size; 0; 0; 0].
Definition ex_mbr (t : Z) : list Z := replicate 446 0 ++ ex_pte 0x21 10 20 ++ ex_pte t 30 40 ++ ex_pte 0x23 90 20 ++ ex_pte 0 0 0 ++ [0x55; 0xaa].
Definition ex_disk (t : Z) : block := mk_block "hda" BLOCK_RAW 100 {[0 := ex_mbr t]} 0 0.
Lemma ex_disk_ok t : 0 <= t < 256 -> disk_ok (ex_disk t).
Proof.
  intros Ht. split; [done|done|]. change (sector_at (ex_disk t) 0) with (ex_mbr t). rw /ex_mbr. apply Forall_app. split; [apply Forall_replicate; lia|]. repeat (apply Forall_cons; split; [lia|]). apply Forall_nil. done.
Qed.

(** C26: partitions.  On a disk with a valid table without extended partitions
    [partition_scan] succeeds and registers exactly the entries that are not empty and
    lie on the disk, in order, with their start, size and type.  Reading sector [k] of
    a partition, below its size, gives sector [start + k] of the disk, which is below
    the size of the disk; writing it changes that sector and no other; beyond its size
    both panic. *)
Theorem partition_scan_correct (n : nat) (d : block) :
  disk_ok d -> signature (sector_at d 0) = 0xaa55 -> Forall (fun e => empty_entry e = true \/ is_extended (pe_type e) = false) (table_of d) ->
  exists s, partition_scan (S n) d [] = Ok s /\ content (disk s) = content d /\ found <$> parts s = wanted <$> filter (fun e => on_disk d e = true) (table_of d) /\
    forall p k buffer, p ∈ parts s -> 0 <= k ->
      if k <? p_size p then
        p_start p + k < size d /\ (exists d', part_block_read (disk s) p k = Ok (sector_at d (p_start p + k), d')) /\
        (p_type p <> BLOCK_FOREIGN -> type d <> BLOCK_FOREIGN -> exists d', part_block_write (disk s) p k buffer = Ok d' /\
          forall t, sector_at d' t = if decide (t = p_start p + k) then buffer else sector_at d t)
      else part_block_read (disk s) p k = Err Panic /\ part_block_write (disk s) p k buffer = Err Panic.
Proof.
  intros Hok Hsig Hx. have Hd := dk_size _ Hok. rw /partition_scan. cbn [read_partition_table disk]. rw /block_size (proj2 (Z.leb_gt _ _)); [lia|]. cbn [alloc memory negb disk].
  rw /block_read /check_sector (proj2 (Z.leb_gt _ _)); [lia|]. cbn [obind]. rw Hsig. cbn [negb Z.eqb Pos.eqb]. change (read_pte (sector_at d 0) <$> seq 0 4) with (table_of d).
  set s0 := set_disk _ _. destruct (entries_loop_ok (read_partition_table n) s0 (table_of d) eq_refl (table_ok d Hok)) as (s & E & Hds & Hp); [simpl; lia|done|].
  exists s. rw Hds. split_and!; try done. intros p k buffer Hin Hk.
  have Hf : found p ∈ found <$> parts s by apply list_elem_of_fmap; exists p. rw Hp /= in Hf. apply list_elem_of_fmap in Hf as (e & He & [Hon Hin']%list_elem_of_filter).
  injection He as _ Hstart Hsize. have Hpe := proj1 (Forall_forall _ _) (table_ok d Hok) e Hin'. apply andb_true_iff in Hon as [[_ H1%Z.ltb_lt]%andb_true_iff H2%Z.leb_le].
  cbn [disk s0 set_disk] in H1, H2. simpl in H1, H2. have Ho := po_offset _ Hpe. have Hz := po_size _ Hpe. rw /part_block_read /part_block_write /partition_read /partition_write.
  destruct (Z.ltb_spec k (p_size p)) as [Hlt|Hge]; [|by rw (proj2 (Z.leb_le _ _) Hge)]. rw (proj2 (Z.leb_gt _ _)) //. rw wrap_small; [lia|]. split; [lia|]. split.
  - rw /block_read /check_sector /=. rw (proj2 (Z.leb_gt _ _)); [lia|]. by eexists.
  - intros Ht1 Ht2. rw bool_decide_eq_false_2 //. cbn [negb ASSERT obind]. destruct (block_write_ok (disk s0) (p_start p + k) buffer) as (d' & E' & _ & _ & Hw); [simpl; lia|done|]. rw E'. by exists d'.
Qed.
Lemma partition_scan_correct_witness : exists s, partition_scan 1 (ex_disk 0x83) [] = Ok s /\ List.length (parts s) = 2%nat.
Proof.
  destruct (partition_scan_correct 0 (ex_disk 0x83)) as (s & E & _ & Hp & _).
  - by apply ex_disk_ok.
  - by vm_compute.
  - repeat constructor; by (left; vm_compute) || (right; vm_compute).
  - exists s. split; [exact E|]. rewrite -(length_fmap found) Hp. by vm_compute.
Defined.

(** Extended partitions.  [read_partition_table] reads sector 0 whatever sector it
    is given.  So an extended partition makes it find the same table again, with the
    same entry: when its offset and twice its offset are on the disk the recursion has
    no end, and uses up the kernel stack, whatever its size. *)
Theorem extended_partition_no_end (fuel : nat) (d : block) (es1 : list partition_table_entry) (e : partition_table_entry) (es2 : list partition_table_entry) :
  disk_ok d -> signature (sector_at d 0) = 0xaa55 -> table_of d = es1 ++ e :: es2 -> Forall (fun e => empty_entry e = true \/ is_extended (pe_type e) = false) es1 ->
  empty_entry e = false -> is_extended (pe_type e) = true -> 0 < pe_offset e -> 2 * pe_offset e < size d ->
  partition_scan fuel d [] = Err NoFuel.
Proof.
  intros Hok Hsig Ht Hx He Hext Ho Ho2. have Hd := dk_size _ Hok.
  have Hdeep : forall n s, memory s = [] -> same_disk d (disk s) -> read_partition_table n s (2 * pe_offset e) (pe_offset e) = Err NoFuel.
  { induction n as [|n IH]; intros s Hm Hs; [done|]. eapply read_table_step; [done..|lia|]. intros s1 Hm1 Hs1. rw (proj2 (Z.eqb_neq _ 0)); [lia|]. rw wrap_small; [lia|].
    have -> : pe_offset e + pe_offset e = 2 * pe_offset e by lia. by apply IH. }
  have Hmid : forall n s, memory s = [] -> same_disk d (disk s) -> read_partition_table n s (pe_offset e) (pe_offset e) = Err NoFuel.
  { intros [|n] s Hm Hs; [done|]. eapply read_table_step; [done..|lia|]. intros s1 Hm1 Hs1. rw (proj2 (Z.eqb_neq _ 0)); [lia|]. rw wrap_small; [lia|].
    have -> : pe_offset e + pe_offset e = 2 * pe_offset e by lia. by apply Hdeep. }
  rw /partition_scan. destruct fuel as [|n]; [done|]. eapply (read_table_step n _ d); [done..|lia|]. intros s1 Hm1 Hs1. rw Z.eqb_refl. by apply Hmid.
Qed.
Lemma extended_partition_no_end_witness : partition_scan 50 (ex_disk 5) [] = Err NoFuel.
Proof.
  apply (extended_partition_no_end 50 (ex_disk 5) [mk_pte 0x21 10 20] (mk_pte 5 30 40) [mk_pte 0x23 90 20; mk_pte 0 0 0]).
  - by apply ex_disk_ok.
  - by vm_compute.
  - by vm_compute.
  - repeat constructor; right; by vm_compute.
  - done.
  - done.
  - done.
  - done.
Defined.
