(* ===== verification/Swap.v ===== *)
(** * vm/swap.c: the swap device

    A page goes to [SLOT_CNT] consecutive sectors of the swap device; the bitmap
    [st] has a bit per sector.  A slot is named by the address of the device
    structure plus its first byte on the device.  What is shown: a page read back
    is the page that was written, whatever was swapped in and out in between, and
    slots in use never overlap. *)
From S2P Require Import Prelude Bitmap Block Palloc.

Definition SLOT_CNT : Z := PGSIZE / BLOCK_SECTOR_SIZE.

(** [swap_block] is the address of the [struct block]. *)
Record swap := mk_swap { st : bitmap; dev : block; swap_block : Z; swap_lock : bool }.

Definition swap_init (t : block_table) (addr : Z) (blk : bool) (words : option (list Z)) : outcome swap :=
  let! role := block_get_role t BLOCK_SWAP in
  match role with
  | None => Err Panic
  | Some i =>
    let! d := oget (all_blocks t !! i) in
    let! b := bitmap_create blk words (block_size d) in
    match b with
    | None => Err Fault    (* [st] is null: the first use faults *)
    | Some b => Ok (mk_swap b d addr false)
    end
  end.

Definition acquire_swap (s : swap) : outcome swap :=
  assert! negb (swap_lock s) in Ok (mk_swap (st s) (dev s) (swap_block s) true).
Definition release_swap (s : swap) : outcome swap :=
  assert! swap_lock s in Ok (mk_swap (st s) (dev s) (swap_block s) false).

(** [for (i = ...; i < SLOT_CNT; i++) block_read (swap_block, start + i, ...)]
    with [n] sectors left: the bytes stored from [buf + i * BLOCK_SECTOR_SIZE] on. *)
Fixpoint read_slot (n : nat) (d : block) (sec : Z) : outcome (list Z * block) :=
  match n with
  | O => Ok ([], d)
  | S n =>
    let! (bs, d) := block_read d sec in
    let! (rest, d) := read_slot n d (sec + 1) in
    Ok (bs ++ rest, d)
  end.
Fixpoint write_slot (n : nat) (d : block) (sec : Z) (buf : list Z) : outcome block :=
  match n with
  | O => Ok d
  | S n =>
    let! bs := mem_read buf 0 BLOCK_SECTOR_SIZE in
    let! d := block_write d sec bs in
    write_slot n d (sec + 1) (drop (Z.to_nat BLOCK_SECTOR_SIZE) buf)
  end.

(** The page, when the result is true. *)
Definition swap_in (s : swap) (slot : Z) : outcome (option (list Z) * swap) :=
  let! s := acquire_swap s in
  let start := u32 (Z.quot (s32 (slot - swap_block s)) BLOCK_SECTOR_SIZE) in
  let! all := bitmap_all (st s) start SLOT_CNT in
  if negb all then let! s := release_swap s in Ok (None, s)
  else
    let! b := bitmap_set_multiple (st s) start SLOT_CNT false in
    let! (buf, d) := read_slot (Z.to_nat SLOT_CNT) (dev s) start in
    let! s := release_swap (mk_swap b d (swap_block s) (swap_lock s)) in
    Ok (Some buf, s).

(** 0 is the null pointer. *)
Definition swap_out (s : swap) (buf : list Z) : outcome (Z * swap) :=
  let! s := acquire_swap s in
  let! (start, b) := bitmap_scan_and_flip (st s) 0 SLOT_CNT false in
  let s := mk_swap b (dev s) (swap_block s) (swap_lock s) in
  let! s := release_swap s in
  if start =? BITMAP_ERROR then Ok (0, s)
  else
    let! d := write_slot (Z.to_nat SLOT_CNT) (dev s) start buf in
    Ok (u32 (swap_block s + start * BLOCK_SECTOR_SIZE), mk_swap (st s) d (swap_block s) (swap_lock s)).

(** ** Slots *)
Record swap_wf (s : swap) : Prop := {
  sw_map : wf (st s);
  sw_cnt : bit_cnt (st s) = size (dev s);
  sw_type : type (dev s) <> BLOCK_FOREIGN;
  sw_lock : swap_lock s = false;
  sw_addr : 0 < swap_block s /\ swap_block s + size (dev s) * BLOCK_SECTOR_SIZE < 2 ^ 32 /\ size (dev s) * BLOCK_SECTOR_SIZE < 2 ^ 31;
  sw_sector : forall n, length (sector_at (dev s) n) = sector_len }.

(** The page in the slot that starts at sector [start]. *)
Definition slot_page (d : block) (start : Z) : list Z := mjoin (sector_at d <$> seqZ start SLOT_CNT).
(** The slots in use, by their first sectors. *)
Definition slot_used (s : swap) (start : Z) : Prop :=
  0 <= start /\ start + SLOT_CNT <= bit_cnt (st s) /\ forall j, start <= j < start + SLOT_CNT -> bit (st s) j = true.
Definition slot_addr (s : swap) (start : Z) : Z := swap_block s + start * BLOCK_SECTOR_SIZE.

Lemma slot_addr_ok s start : swap_wf s -> slot_used s start ->
  0 < slot_addr s start < 2 ^ 32 /\ u32 (slot_addr s start) = slot_addr s start /\
  u32 (Z.quot (s32 (slot_addr s start - swap_block s)) BLOCK_SECTOR_SIZE) = start.
Proof.
  intros [[[Hn0 Hn1] _] Hc _ _ (H0 & H1 & H2) _] (Hs & Hle & _). rewrite /slot_addr /BLOCK_SECTOR_SIZE in H1 H2 |- *. change SLOT_CNT with 8 in Hle.
  have Hr : 0 < swap_block s + start * 512 < 2 ^ 32 by lia. split; [done|]. split; [rewrite wrap_small; lia|].
  have -> : swap_block s + start * 512 - swap_block s = start * 512 by lia. rewrite swrap_small; [done|lia|]. rewrite Z.quot_mul // wrap_small //. lia.
Qed.

Lemma join_cons {A} (x : list A) (l : list (list A)) : mjoin (x :: l) = x ++ mjoin l.
Proof. done. Qed.
Lemma read_slot_ok n d sec : (forall j, sec <= j < sec + Z.of_nat n -> j < size d) ->
  exists d', read_slot n d sec = Ok (mjoin (sector_at d <$> seqZ sec (Z.of_nat n)), d') /\ size d' = size d /\ type d' = type d /\ content d' = content d.
Proof.
  revert d sec. induction n as [|n IH]; intros d sec Hb; [by exists d|]. cbn [read_slot].
  destruct (block_read_ok d sec) as (d1 & -> & E1 & E2 & E3); [apply Hb; lia|]. cbn [obind].
  destruct (IH d1 (sec + 1)) as (d2 & -> & F1 & F2 & F3). { intros j Hj. rewrite E1. apply Hb. lia. }
  cbn [obind]. exists d2. split; [|by rewrite F1 F2 F3]. rewrite (seqZ_cons sec); [lia|]. rewrite fmap_cons join_cons.
  have -> : Z.pred (Z.of_nat (S n)) = Z.of_nat n by lia. have -> : Z.succ sec = sec + 1 by lia. do 4 f_equal.
  by rewrite /sector_at E3.
Qed.

Lemma write_slot_ok n d sec buf : (forall j, sec <= j < sec + Z.of_nat n -> j < size d) -> type d <> BLOCK_FOREIGN ->
  length buf = (n * sector_len)%nat ->
  exists d', write_slot n d sec buf = Ok d' /\ size d' = size d /\ type d' = type d /\
    (forall j, j < sec \/ sec + Z.of_nat n <= j -> sector_at d' j = sector_at d j) /\
    (forall k, (k < n)%nat -> sector_at d' (sec + Z.of_nat k) = take sector_len (drop (k * sector_len) buf)).
Proof.
  revert d sec buf. induction n as [|n IH]; intros d sec buf Hb Ht Hl; [exists d; split_and!; try done; lia|]. cbn [write_slot].
  rewrite mem_read_ok; [done|done|rewrite Hl /sector_len /BLOCK_SECTOR_SIZE; lia|]. cbn [obind].
  destruct (block_write_ok d sec (slice buf 0 BLOCK_SECTOR_SIZE)) as (d1 & -> & E1 & E2 & E3); [apply Hb; lia|done|]. cbn [obind].
  destruct (IH d1 (sec + 1) (drop (Z.to_nat BLOCK_SECTOR_SIZE) buf)) as (d2 & -> & F1 & F2 & F3 & F4).
  { intros j Hj. rewrite E1. apply Hb. lia. }
  { by rewrite E2. }
  { rewrite length_drop Hl /sector_len /BLOCK_SECTOR_SIZE. lia. }
  exists d2. split; [done|]. split_and!; [by rewrite F1|by rewrite F2| |].
  - intros j Hj. rewrite F3; [lia|]. rewrite E3 decide_False //. lia.
  - intros [|k] Hk.
    + rewrite F3; [lia|]. rewrite E3 decide_True; [lia|]. done.
    + have -> : sec + Z.of_nat (S k) = sec + 1 + Z.of_nat k by lia. rewrite F4; [lia|]. by rewrite drop_drop.
Qed.

Lemma join_sectors (f : Z -> list Z) n buf start : length buf = (n * sector_len)%nat ->
  (forall k, (k < n)%nat -> f (start + Z.of_nat k) = take sector_len (drop (k * sector_len) buf)) ->
  mjoin (f <$> seqZ start (Z.of_nat n)) = buf.
Proof.
  revert start buf. induction n as [|n IH]; intros start buf Hl Hf; [by destruct buf|].
  rewrite seqZ_cons; [lia|]. rewrite fmap_cons join_cons. have -> : Z.pred (Z.of_nat (S n)) = Z.of_nat n by lia.
  rewrite (IH (Z.succ start) (drop sector_len buf)).
  - rewrite length_drop Hl /sector_len. lia.
  - intros k Hk. have -> : Z.succ start + Z.of_nat k = start + Z.of_nat (S k) by lia. rewrite Hf; [lia|]. by rewrite drop_drop.
  - have := Hf O ltac:(lia). rewrite Z.add_0_r /= drop_0 => ->. apply take_drop.
Qed.

Lemma slot_page_ext d d' start : (forall j, start <= j < start + SLOT_CNT -> sector_at d' j = sector_at d j) -> slot_page d' start = slot_page d start.
Proof. intros H. rewrite /slot_page. f_equal. apply list_fmap_ext. intros i j Hj. apply H. apply lookup_seqZ in Hj. lia. Qed.

Lemma swap_out_ok s buf : swap_wf s -> length buf = Z.to_nat PGSIZE ->
  exists slot s', swap_out s buf = Ok (slot, s') /\ swap_wf s' /\ swap_block s' = swap_block s /\ bit_cnt (st s') = bit_cnt (st s) /\
    ((slot = 0 /\ s' = s /\ forall k, 0 <= k -> k + SLOT_CNT <= bit_cnt (st s) -> ~ forall j, k <= j < k + SLOT_CNT -> bit (st s) j = false) \/
     exists start, slot = slot_addr s start /\ slot <> 0 /\ slot_used s' start /\ slot_page (dev s') start = buf /\
       (forall j, start <= j < start + SLOT_CNT -> bit (st s) j = false) /\
       (forall j, 0 <= j -> j < start \/ start + SLOT_CNT <= j -> bit (st s') j = bit (st s) j /\ sector_at (dev s') j = sector_at (dev s) j)).
Proof.
  intros H Hl. have [Hm Hc Ht Hk Ha Hs] := H. have [[Hn0 Hn1] _] := Hm. rewrite /swap_out /acquire_swap Hk. cbn [negb ASSERT obind st dev swap_block].
  destruct (bitmap_scan_and_flip_spec (st s) 0 SLOT_CNT false Hm) as (r & b & -> & Hwb & Hcb & Hr); [lia|done|].
  cbn [obind release_swap swap_lock ASSERT st dev swap_block]. destruct Hr as [(-> & -> & Hno)|(Hne & (Hf1 & Hf2 & Hf3 & _) & Hb)].
  - rewrite Z.eqb_refl. exists 0, s. split; [by destruct s; simpl in Hk; subst|]. split_and!; try done. left. split_and!; [done|done|]. exact Hno.
  - rewrite (proj2 (Z.eqb_neq r BITMAP_ERROR) Hne). change (Z.to_nat SLOT_CNT) with 8%nat. change SLOT_CNT with 8 in *.
    destruct (write_slot_ok 8 (dev s) r buf) as (d' & -> & E1 & E2 & E3 & E4); [intros j Hj; rewrite -Hc; lia|done|done|]. cbn [obind].
    set s' := mk_swap _ _ _ _. have Hu : slot_used s' r.
    { split_and!; [done|rewrite /= Hcb; done|]. change SLOT_CNT with 8. intros j Hj. simpl. rewrite Hb; [lia|]. destruct (Z.leb_spec r j), (Z.ltb_spec j (r + 8)); simpl; try done; lia. }
    have Hw' : swap_wf s'.
    { split; simpl; [done|by rewrite Hcb E1|by rewrite E2|done|by rewrite E1|]. intros n. destruct (decide (r <= n < r + 8)) as [Hin|Hout]; [|by rewrite E3; [lia|]].
      have -> : n = r + Z.of_nat (Z.to_nat (n - r)) by lia. rewrite E4; [lia|]. rewrite length_take length_drop Hl. change (Z.to_nat PGSIZE) with 4096%nat. rewrite /sector_len. lia. }
    destruct (slot_addr_ok s' r Hw' Hu) as (Hpos & Hwrap & _). eexists _, s'. split; [done|]. split; [done|]. split; [done|]. split; [done|]. right. exists r.
    change (slot_addr s' r) with (slot_addr s r) in Hpos, Hwrap. rewrite -/(slot_addr s r) Hwrap. split; [done|]. split; [lia|]. split; [done|]. split; [|split; [done|]].
    + by apply (join_sectors (sector_at d') 8 buf r).
    + intros j Hj Ho. simpl. rewrite Hb // E3 //. split; [|done]. destruct (Z.leb_spec r j), (Z.ltb_spec j (r + 8)); simpl; try done; lia.
Qed.

Lemma swap_in_ok s start : swap_wf s -> slot_used s start ->
  exists s', swap_in s (slot_addr s start) = Ok (Some (slot_page (dev s) start), s') /\ swap_wf s' /\ swap_block s' = swap_block s /\
    bit_cnt (st s') = bit_cnt (st s) /\ (forall j, sector_at (dev s') j = sector_at (dev s) j) /\
    (forall j, 0 <= j -> bit (st s') j = if (start <=? j) && (j <? start + SLOT_CNT) then false else bit (st s) j).
Proof.
  intros H Hu. have [Hm Hc Ht Hk Ha Hs] := H. have [[Hn0 Hn1] _] := Hm. destruct (slot_addr_ok s start H Hu) as (_ & _ & Hstart). destruct (Hu) as (Hu0 & Hu1 & Hu2).
  rewrite /swap_in /acquire_swap Hk. cbn [negb ASSERT obind st dev swap_block]. rewrite Hstart. change SLOT_CNT with 8 in *.
  destruct (bitmap_all_spec (st s) start 8 Hm) as (c & -> & Hall); [done|done|done|]. have -> : c = true by apply Hall; intros j Hj; apply Hu2. cbn [obind negb].
  destruct (bitmap_set_multiple_spec (st s) start 8 false Hm) as (b & -> & Hwb & Hcb & Hb); [done|done|done|]. cbn [obind].
  change (Z.to_nat 8) with 8%nat. destruct (read_slot_ok 8 (dev s) start) as (d' & -> & E1 & E2 & E3); [intros j Hj; rewrite -Hc; lia|].
  cbn [obind release_swap swap_lock ASSERT st dev swap_block]. eexists. split; [done|]. have Hsec : forall j, sector_at d' j = sector_at (dev s) j by intros j; rewrite /sector_at E3.
  split; [|by split_and!]. split; simpl; [done|by rewrite Hcb E1|by rewrite E2|done|by rewrite E1|]. intros n. by rewrite Hsec.
Qed.

(** ** The abstract swap space: pages by slot *)
Record swapped (s : swap) (m : gmap Z (list Z)) : Prop := {
  sp_wf : swap_wf s;
  sp_page : forall slot page, m !! slot = Some page -> exists start, slot = slot_addr s start /\ slot_used s start /\ slot_page (dev s) start = page;
  sp_apart : forall k k' page page', m !! slot_addr s k = Some page -> m !! slot_addr s k' = Some page' -> k <> k' ->
    k + SLOT_CNT <= k' \/ k' + SLOT_CNT <= k;
  sp_free : forall j, 0 <= j < bit_cnt (st s) -> bit (st s) j = true -> exists k page, m !! slot_addr s k = Some page /\ k <= j < k + SLOT_CNT }.

Lemma slot_addr_inj s k k' : slot_addr s k = slot_addr s k' -> k = k'.
Proof. rewrite /slot_addr /BLOCK_SECTOR_SIZE. lia. Qed.

Lemma swap_out_spec s m buf : swapped s m -> length buf = Z.to_nat PGSIZE ->
  exists slot s', swap_out s buf = Ok (slot, s') /\
    ((slot = 0 /\ s' = s) \/ (slot <> 0 /\ m !! slot = None /\ swapped s' (<[slot := buf]> m))).
Proof.
  intros [Hw Hp Hd Hf] Hl. destruct (swap_out_ok s buf Hw Hl) as (slot & s' & Hx & Hw' & Hsb & Hcnt & Hr). exists slot, s'. split; [done|].
  destruct Hr as [(-> & -> & _)|(r & -> & Hpos & Hu & Hpage & Hfree & Hoth)]; [by left|right]. change SLOT_CNT with 8 in *.
  have Hsa : forall k, slot_addr s' k = slot_addr s k by intros k; rewrite /slot_addr Hsb. have [Hu0 [Hu1 Hu2]] := Hu. change SLOT_CNT with 8 in *.
  have Hap : forall k page, m !! slot_addr s k = Some page -> (k + 8 <= r \/ r + 8 <= k) /\ 0 <= k.
  { intros k page Hk. destruct (Hp _ _ Hk) as (k' & ->%slot_addr_inj & (Hk0 & Hk1 & Hk2) & _). change SLOT_CNT with 8 in *. split; [|done].
    destruct (decide (k' + 8 <= r \/ r + 8 <= k')) as [|Hno]; [done|]. have := Hfree (Z.max k' r) ltac:(lia). rewrite Hk2 //. lia. }
  have Hnew : m !! slot_addr s r = None by destruct (m !! slot_addr s r) as [page|] eqn:Hk; [|done]; destruct (Hap _ _ Hk); lia.
  split; [done|]. split; [done|]. split.
  - done.
  - intros slot page. destruct (decide (slot = slot_addr s r)) as [-> | Hne]; [rewrite lookup_insert_eq; intros [= <-]; exists r; by rewrite Hsa|].
    rewrite lookup_insert_ne; [by apply not_eq_sym|]. intros Hk. destruct (Hp _ _ Hk) as (k & -> & (Hk0 & Hk1 & Hk2) & <-). exists k. rewrite Hsa. split; [done|].
    destruct (Hap _ _ Hk) as [Hor _]. change SLOT_CNT with 8 in *. split; [split_and!; [done|by rewrite Hcnt|]|].
    + change SLOT_CNT with 8. intros j Hj. destruct (Hoth j) as [-> _]; [lia|lia|]. apply Hk2. lia.
    + apply slot_page_ext. change SLOT_CNT with 8. intros j Hj. apply Hoth; lia.
  - intros k k' page page'. rewrite !Hsa. change SLOT_CNT with 8. destruct (decide (k = r)) as [-> | Hn], (decide (k' = r)) as [-> | Hn']; [done| | |].
    + rewrite (lookup_insert_ne _ _ (slot_addr s k')); [by intros ?%slot_addr_inj|]. intros _ Hk _. destruct (Hap _ _ Hk). lia.
    + rewrite (lookup_insert_ne _ _ (slot_addr s k)); [by intros ?%slot_addr_inj|]. intros Hk _ _. destruct (Hap _ _ Hk). lia.
    + rewrite !lookup_insert_ne; [by intros ?%slot_addr_inj..|]. apply Hd.
  - intros j Hj. rewrite Hcnt in Hj. destruct (decide (r <= j < r + 8)) as [Hin|Hout].
    + intros _. exists r, buf. rewrite Hsa lookup_insert_eq. done.
    + destruct (Hoth j) as [-> _]; [lia|lia|]. intros Hb. destruct (Hf j Hj Hb) as (k & page & Hk & Hin). exists k, page. rewrite Hsa. split; [|done].
      rewrite lookup_insert_ne //. intros ->%slot_addr_inj. change SLOT_CNT with 8 in Hin. lia.
Qed.
Lemma swap_in_spec s m slot page : swapped s m -> m !! slot = Some page ->
  exists s', swap_in s slot = Ok (Some page, s') /\ swapped s' (delete slot m).
Proof.
  intros [Hw Hp Hd Hf] Hm. destruct (Hp _ _ Hm) as (r & -> & Hu & <-). destruct (swap_in_ok s r Hw Hu) as (s' & Hx & Hw' & Hsb & Hcnt & Hsec & Hb).
  exists s'. split; [done|]. have Hsa : forall k, slot_addr s' k = slot_addr s k by intros k; rewrite /slot_addr Hsb. change SLOT_CNT with 8 in *. split.
  - done.
  - intros slot page [Hne Hk]%lookup_delete_Some. destruct (Hp _ _ Hk) as (k & -> & (Hk0 & Hk1 & Hk2) & <-). exists k. rewrite Hsa. split; [done|]. change SLOT_CNT with 8 in *.
    have Hkr : k <> r by intros ->. destruct (Hd _ _ _ _ Hk Hm Hkr) as [Ho|Ho]; change SLOT_CNT with 8 in Ho.
    all: split; [split_and!; [done|by rewrite Hcnt|]; change SLOT_CNT with 8; intros j Hj; rewrite Hb; [lia|]; destruct (Z.leb_spec r j), (Z.ltb_spec j (r + 8)); simpl; try lia; apply Hk2; lia|by apply slot_page_ext].
  - intros k k' p p'. rewrite !Hsa !lookup_delete_Some. intros [_ Hk] [_ Hk']. by apply (Hd _ _ _ _ Hk Hk').
  - intros j Hj. rewrite Hcnt in Hj. rewrite Hb; [lia|]. destruct (Z.leb_spec r j), (Z.ltb_spec j (r + 8)); simpl; try done; intros Hbit; destruct (Hf j Hj Hbit) as (k & p & Hk & Hin); change SLOT_CNT with 8 in Hin;
      (exists k, p; rewrite Hsa; split; [|done]; rewrite lookup_delete_ne //; intros ->%slot_addr_inj; lia).
Qed.

(** ** Sessions *)
Inductive swap_request := Out (page : list Z) | In (slot : Z).
Definition request_ok (m : gmap Z (list Z)) (r : swap_request) : Prop :=
  match r with Out page => length page = Z.to_nat PGSIZE | In slot => is_Some (m !! slot) end.
(** Serving a request, with the pages that the client has on the device. *)
Inductive served : swap * gmap Z (list Z) -> swap * gmap Z (list Z) -> Prop :=
| served_out s m page slot s' : request_ok m (Out page) -> swap_out s page = Ok (slot, s') ->
    served (s, m) (s', if slot =? 0 then m else <[slot := page]> m)
| served_in s m slot r s' : request_ok m (In slot) -> swap_in s slot = Ok (r, s') -> served (s, m) (s', delete slot m).

Lemma served_swapped x y : served x y -> swapped x.1 x.2 -> swapped y.1 y.2.
Proof.
  intros [s m page slot s' Hr Hx|s m slot r s' [page Hr] Hx]; simpl; intros H.
  - destruct (swap_out_spec s m page H Hr) as (slot' & s2 & Hx2 & Hor). have Heq : slot' = slot /\ s2 = s' by split; congruence. destruct Heq as [-> ->].
    destruct Hor as [[-> ->]|(Hne & _ & Hs)]; [done|]. by rewrite (proj2 (Z.eqb_neq slot 0)).
  - destruct (swap_in_spec s m slot page H Hr) as (s2 & Hx2 & Hs). by have <- : s2 = s' by congruence.
Qed.

(** A device for swapping and the memory of its bitmap. *)
Record swap_device (d : block) (addr : Z) (words : list Z) : Prop := {
  de_words : wf (mk_bitmap (size d) words);
  de_type : type d <> BLOCK_FOREIGN;
  de_addr : 0 < addr /\ addr + size d * BLOCK_SECTOR_SIZE < 2 ^ 32 /\ size d * BLOCK_SECTOR_SIZE < 2 ^ 31;
  de_sector : forall n, length (sector_at d n) = sector_len }.

Lemma swap_init_ok t i d addr words : block_get_role t BLOCK_SWAP = Ok (Some i) -> all_blocks t !! i = Some d -> swap_device d addr words ->
  exists s, swap_init t addr true (Some words) = Ok s /\ swapped s ∅.
Proof.
  intros Hr Hd [Hw Ht Ha Hs]. rewrite /swap_init Hr. cbn [obind]. rewrite Hd. cbn [oget obind]. rewrite /bitmap_create /bitmap_set_all /block_size /bitmap_size. cbn [bit_cnt].
  have [[Hn0 Hn1] _] := Hw. destruct (bitmap_set_multiple_spec (mk_bitmap (size d) words) 0 (size d) false Hw) as (b & -> & Hwb & Hcb & Hb); [lia|exact Hn0|done|]. cbn [obind].
  eexists. split; [done|]. simpl in Hn0, Hcb. split; [split; done|done|done|]. simpl. rewrite Hcb. intros j Hj. rewrite Hb; [lia|].
  destruct (Z.leb_spec 0 j), (Z.ltb_spec j (0 + size d)); simpl; try done; lia.
Qed.

(** C39: swapped pages come back.  From a freshly initialised swap device, after
    any sequence of pages swapped out and swapped in, every page that is still on
    the device is returned by [swap_in] as it was given to [swap_out]; and
    [swap_out] either reports that there is no room, changing nothing, or returns
    a slot that no other page uses.  Neither fails an assertion. *)
Theorem swap_refines (t : block_table) (i : nat) (d : block) (addr : Z) (words : list Z) (s0 s : swap) (m : gmap Z (list Z)) :
  block_get_role t BLOCK_SWAP = Ok (Some i) -> all_blocks t !! i = Some d -> swap_device d addr words ->
  swap_init t addr true (Some words) = Ok s0 -> rtc served (s0, ∅) (s, m) ->
  (forall slot page, m !! slot = Some page -> exists s', swap_in s slot = Ok (Some page, s')) /\
  (forall page, length page = Z.to_nat PGSIZE -> exists slot s', swap_out s page = Ok (slot, s') /\ ((slot = 0 /\ s' = s) \/ (slot <> 0 /\ m !! slot = None))).
Proof.
  intros Hr Hd Hdev H0 Hrtc. destruct (swap_init_ok t i d addr words Hr Hd Hdev) as (s0' & H0' & Hs0). have Heq : s0' = s0 by congruence. subst s0'.
  have Hs : swapped s m.
  { have : forall x y, rtc served x y -> swapped x.1 x.2 -> swapped y.1 y.2 by induction 1; eauto using served_swapped. intros Hall. by apply (Hall (s0, ∅) (s, m)). }
  split.
  - intros slot page Hm. destruct (swap_in_spec s m slot page Hs Hm) as (s' & ? & _). by exists s'.
  - intros page Hl. destruct (swap_out_spec s m page Hs Hl) as (slot & s' & Hx & Hor). exists slot, s'. split; [done|]. destruct Hor as [?|(? & ? & _)]; auto.
Qed.

Definition ex_swap_dev : block := mk_block "hdb" BLOCK_SWAP 32 ∅ 0 0.
Definition ex_swap_table : block_table := mk_table [ex_swap_dev] [None; None; None; Some O].
Lemma ex_swap_device : swap_device ex_swap_dev 0xc0104000 [7].
Proof.
  split; [|done|vm_compute; intuition congruence|]. 1: split; [split; done|]; split; [done|]; constructor; [done|constructor].
  intros n. rewrite /sector_at lookup_empty. reflexivity.
Qed.
(** One page on the device. *)
Lemma ex_swapped : exists sw, swapped sw {[0xc0104000 := replicate 4096 5]}.
Proof.
  destruct (swap_init_ok ex_swap_table 0 ex_swap_dev 0xc0104000 [7]) as (s0 & E0 & H0); [done|done|apply ex_swap_device|].
  destruct (swap_out_spec s0 ∅ (replicate 4096 5) H0 eq_refl) as (slot & s & E & H).
  vm_compute in E0. injection E0 as <-. vm_compute in E. injection E as <- <-.
  destruct H as [[? _]|(_ & _ & H)]; [done|]. eauto.
Qed.
Lemma swap_refines_witness :
  exists s0 s, swap_init ex_swap_table 0xc0104000 true (Some [7]) = Ok s0 /\ swap_out s0 (replicate 4096 5) = Ok (0xc0104000, s) /\
  (forall slot page, ({[0xc0104000 := replicate 4096 5]} : gmap Z (list Z)) !! slot = Some page -> exists s', swap_in s slot = Ok (Some page, s')) /\
  (forall page, length page = Z.to_nat PGSIZE -> exists slot s', swap_out s page = Ok (slot, s') /\
     ((slot = 0 /\ s' = s) \/ (slot <> 0 /\ ({[0xc0104000 := replicate 4096 5]} : gmap Z (list Z)) !! slot = None))).
Proof.
  eexists _, _. split; [vm_compute; reflexivity|]. split; [vm_compute; reflexivity|].
  eapply (swap_refines ex_swap_table 0 ex_swap_dev 0xc0104000 [7]); [reflexivity|reflexivity|apply ex_swap_device|vm_compute; reflexivity|].
  eapply rtc_once. eapply (served_out _ ∅ (replicate 4096 5) 0xc0104000); [reflexivity|vm_compute; reflexivity].
Defined.
