(* ===== verification/Spt.v ===== *)
(** * vm/page.c: the supplemental page table

    For every page of every process the table records where its contents are
    when the page is not in memory.  It is the hash table of Hash.v, whose
    elements are the addresses of [struct spte] objects; [objs] is the heap of
    these objects and [spare] the blocks that [malloc] will hand out for them,
    each with what it holds in the place of [saved_file_pos], which
    [spt_set_kernel] does not initialise.

    [SptOps] and [SptTable] are the interface that frame.c and exception.c are
    proved against: the table is a finite map from process and page to entries.
    The hash table discharges it at the end of this file. *)
From S2P Require Import Prelude Bitmap Hash Palloc Block Swap.

(** ** Entries *)
Inductive spte_flag := SPTE_MMRY | SPTE_FILE | SPTE_SWAP | SPTE_ZERO | SPTE_INVALID.
#[export] Instance spte_flag_eq_dec : EqDecision spte_flag.
Proof. solve_decision. Defined.

(** What an entry says of its page. *)
Record entry := mk_entry { ref : Z; saved_file_pos : Z; eflag : spte_flag; writable : bool }.
(** [struct spte] *)
Record spte := mk_spte { pid : Z; vaddr : Z; data : entry }.

(** ** The interface *)
Class SptOps (T : Type) := {
  spt_set_kernel : T -> Z -> Z -> Z -> spte_flag -> bool -> outcome T;
  spt_get_ref_kernel : T -> Z -> Z -> outcome (Z * T);
  spt_get_flag_kernel : T -> Z -> Z -> outcome (spte_flag * T);
  spt_get_writable_kernel : T -> Z -> Z -> outcome (bool * T);
  spte_file_seek : T -> Z -> Z -> Z -> outcome T;
  spte_file_tell : T -> Z -> Z -> outcome (Z * T) }.

(** [spt_is n t m]: sptab [t] holds [m], and [n] more entries can be allocated. *)
Class SptTable (T : Type) `{SptOps T} := {
  spt_is : nat -> T -> gmap (Z * Z) entry -> Prop;
  spt_mono : forall n t m, spt_is (S n) t m -> spt_is n t m;
  spt_ref_law : forall n t m p va, spt_is (S n) t m -> pg_ofs va = 0 ->
    exists t', spt_get_ref_kernel t p va = Ok (default 0 (ref <$> m !! (p, va)), t') /\ spt_is (S n) t' m;
  spt_flag_law : forall n t m p va, spt_is (S n) t m -> pg_ofs va = 0 ->
    exists t', spt_get_flag_kernel t p va = Ok (default SPTE_INVALID (eflag <$> m !! (p, va)), t') /\ spt_is (S n) t' m;
  spt_writable_law : forall n t m p va, spt_is (S n) t m -> pg_ofs va = 0 ->
    exists t', spt_get_writable_kernel t p va = Ok (default false (writable <$> m !! (p, va)), t') /\ spt_is (S n) t' m;
  spt_tell_law : forall n t m p va e, spt_is (S n) t m -> pg_ofs va = 0 -> m !! (p, va) = Some e ->
    exists t', spte_file_tell t p va = Ok (saved_file_pos e, t') /\ spt_is (S n) t' m;
  spt_seek_law : forall n t m p va e pos, spt_is (S n) t m -> pg_ofs va = 0 -> m !! (p, va) = Some e -> 0 <= pos ->
    exists t', spte_file_seek t p va pos = Ok t' /\
      spt_is (S n) t' (<[(p, va) := mk_entry (ref e) pos (eflag e) (writable e)]> m);
  (** The position of a new entry is whatever the block held. *)
  spt_set_law : forall n t m p va r f w, spt_is (S n) t m -> pg_ofs va = 0 -> va <> 0 -> f <> SPTE_INVALID ->
    exists t' pos, spt_set_kernel t p va r f w = Ok t' /\ spt_is n t' (<[(p, va) := mk_entry r pos f w]> m) }.

(** ** The hash table *)
Record sptab := mk_sptab { objs : gmap Z spte; spare : list (Z * Z); spt : hash; spt_lock : bool }.
Definition set_objs (t : sptab) (o : gmap Z spte) : sptab := mk_sptab o (spare t) (spt t) (spt_lock t).
Definition set_hash (t : sptab) (h : hash) : sptab := mk_sptab (objs t) (spare t) h (spt_lock t).

Definition key (o : gmap Z spte) (e : Z) : Z * Z := match o !! e with Some s => (pid s, vaddr s) | None => (0, 0) end.
Definition spte_hash_func (o : gmap Z spte) (e : Z) : Z := hash_int ((key o e).2 * (key o e).1).
Definition spte_less_func (o : gmap Z spte) (a b : Z) : bool :=
  let (pid_a, vaddr_a) := key o a in
  let (pid_b, vaddr_b) := key o b in
  if negb (pid_a =? pid_b) then pid_a <? pid_b else vaddr_a <? vaddr_b.

Definition acquire_spt (t : sptab) : outcome sptab :=
  assert! negb (spt_lock t) in Ok (mk_sptab (objs t) (spare t) (spt t) true).
Definition release_spt (t : sptab) : outcome sptab :=
  assert! spt_lock t in Ok (mk_sptab (objs t) (spare t) (spt t) false).

(** [malloc (sizeof *spte)] and the assignments to [pid] and [vaddr], which fault
    when there is no memory; [free]. *)
Definition spte_malloc (t : sptab) (p va : Z) (r : Z) (f : spte_flag) (w : bool) : outcome (Z * sptab) :=
  match spare t with
  | [] => Err Fault
  | (a, pos) :: l => Ok (a, mk_sptab (<[a := mk_spte p va (mk_entry r pos f w)]> (objs t)) l (spt t) (spt_lock t))
  end.
Definition spte_free (t : sptab) (a : Z) : outcome sptab :=
  let! s := oget (objs t !! a) in
  Ok (mk_sptab (delete a (objs t)) ((a, saved_file_pos (data s)) :: spare t) (spt t) (spt_lock t)).

Section sptab.
(** What [malloc] answers when the bucket array is resized. *)
Context (mem : hash -> bool).

Definition spt_init : option sptab :=
  match hash_init (mem (mk_hash 0 4 [])) with Some h => Some (mk_sptab ∅ [] h false) | None => None end.

Definition table_find (t : sptab) (e : Z) : outcome (option spte) :=
  let! target := hash_find (spte_hash_func (objs t)) (spte_less_func (objs t)) (spt t) e in
  match target with Some a => let! s := oget (objs t !! a) in Ok (Some s) | None => Ok None end.

Definition table_set (t : sptab) (p va r : Z) (f : spte_flag) (w : bool) : outcome sptab :=
  assert! pg_ofs va =? 0 in
  assert! negb (va =? 0) in
  assert! negb (bool_decide (f = SPTE_INVALID)) in
  let! (a, t) := spte_malloc t p va r f w in
  let! t := acquire_spt t in
  let! (_, h) := hash_replace (spte_hash_func (objs t)) (spte_less_func (objs t)) (mem (spt t)) (spt t) a in
  release_spt (set_hash t h).

(** [spt_get_ref_kernel], [spt_get_flag_kernel] and [spt_get_writable_kernel]: a
    search with a temporary entry; [d] is the answer when nothing is found. *)
Definition table_get {A} (get : entry -> A) (d : A) (t : sptab) (p va : Z) : outcome (A * sptab) :=
  assert! pg_ofs va =? 0 in
  let! (a, t) := spte_malloc t p va 0 SPTE_INVALID false in
  let! t := acquire_spt t in
  let! target := table_find t a in
  let r := match target with Some s => get (data s) | None => d end in
  let! t := release_spt t in
  let! t := spte_free t a in
  Ok (r, t).
Definition table_get_ref := table_get ref 0.
Definition table_get_flag := table_get eflag SPTE_INVALID.
Definition table_get_writable := table_get writable false.

Definition table_seek (t : sptab) (p va pos : Z) : outcome sptab :=
  assert! pg_ofs va =? 0 in
  let! (a, t) := spte_malloc t p va 0 SPTE_INVALID false in
  let! t := acquire_spt t in
  let! target := hash_find (spte_hash_func (objs t)) (spte_less_func (objs t)) (spt t) a in
  match target with
  | None => Err Panic
  | Some b =>
    let! s := oget (objs t !! b) in
    assert! 0 <=? pos in
    let e := data s in
    let t := set_objs t (<[b := mk_spte (pid s) (vaddr s) (mk_entry (ref e) pos (eflag e) (writable e))]> (objs t)) in
    let! t := release_spt t in
    spte_free t a
  end.

Definition table_tell (t : sptab) (p va : Z) : outcome (Z * sptab) :=
  assert! pg_ofs va =? 0 in
  let! (a, t) := spte_malloc t p va 0 SPTE_INVALID false in
  let! t := acquire_spt t in
  let! target := table_find t a in
  match target with
  | None => Err Panic
  | Some s => let! t := release_spt t in let! t := spte_free t a in Ok (saved_file_pos (data s), t)
  end.

(** The object is freed and its [ref] returned; a missing entry is a null
    pointer that is dereferenced. *)
Definition spt_remove (t : sptab) (p va : Z) : outcome (Z * sptab) :=
  assert! pg_ofs va =? 0 in
  let! (a, t) := spte_malloc t p va 0 SPTE_INVALID false in
  let! t := acquire_spt t in
  let! target := hash_find (spte_hash_func (objs t)) (spte_less_func (objs t)) (spt t) a in
  match target with
  | None => Err Fault
  | Some b =>
    let! s := oget (objs t !! b) in
    let! (_, h) := hash_delete (spte_hash_func (objs t)) (spte_less_func (objs t)) (mem (spt t)) (spt t) b in
    let! t := spte_free (set_hash t h) b in
    let! t := release_spt t in
    let! t := spte_free t a in
    Ok (ref (data s), t)
  end.

(** [spt_free_process], the first loop: the entries of process [p], with their
    swap slots released. *)
Fixpoint collect (p : Z) (t : sptab) (es : list Z) (sw : swap) : outcome (list Z * swap) :=
  match es with
  | [] => Ok ([], sw)
  | e :: es =>
    let! s := oget (objs t !! e) in
    if pid s =? p then
      let! sw :=
        match eflag (data s) with
        | SPTE_SWAP => let! (_, sw) := swap_in sw (ref (data s)) in Ok sw
        | SPTE_INVALID => Err Panic
        | _ => Ok sw
        end in
      let! (l, sw) := collect p t es sw in
      Ok (e :: l, sw)
    else collect p t es sw
  end.
(** The second loop. *)
Fixpoint delete_all (es : list Z) (t : sptab) : outcome sptab :=
  match es with
  | [] => Ok t
  | e :: es =>
    let! (_, h) := hash_delete (spte_hash_func (objs t)) (spte_less_func (objs t)) (mem (spt t)) (spt t) e in
    let! t := spte_free (set_hash t h) e in
    delete_all es t
  end.
(** The loop starts at [hash_cur] before the first [hash_next], which is not an
    element but the head of the first bucket seen as a [struct spte]; [head_pid]
    is what it has in the place of [pid]. *)
Definition spt_free_process (t : sptab) (p head_pid : Z) (sw : swap) : outcome (sptab * swap) :=
  let! t := acquire_spt t in
  if head_pid =? p then Err Fault else
  let! es := iterate (Z.to_nat (hash_size (spt t))) (spt t) (hash_first (spt t)) in
  let! (l, sw) := collect p t es sw in
  let! t := delete_all l t in
  let! t := release_spt t in
  Ok (t, sw).

#[export] Instance table_ops : SptOps sptab := {|
  spt_set_kernel := table_set;
  spt_get_ref_kernel := table_get_ref;
  spt_get_flag_kernel := table_get_flag;
  spt_get_writable_kernel := table_get_writable;
  spte_file_seek := table_seek;
  spte_file_tell := table_tell |}.
End sptab.

(** ** The hash table holds a finite map *)
Lemma equal_key o a b : equal_elem (spte_less_func o) a b = true <-> key o a = key o b.
Proof.
  rewrite /equal_elem /spte_less_func. destruct (key o a) as [p v], (key o b) as [q w].
  rewrite andb_true_iff !negb_true_iff. destruct (Z.eqb_spec p q), (Z.eqb_spec q p); simpl; rewrite !Z.ltb_ge; split;
    [intros [??]; f_equal; lia|intros [= -> ->]; lia|lia|congruence|lia|congruence|lia|intros [= -> ->]; lia].
Qed.

#[export] Instance spte_laws o : HashLaws (spte_hash_func o) (spte_less_func o).
Proof.
  split.
  - intros a. rewrite /spte_less_func. destruct (key o a). rewrite !Z.eqb_refl /=. apply Z.ltb_irrefl.
  - intros a b c. rewrite !equal_key. congruence.
  - intros a b. rewrite equal_key /spte_hash_func. by intros ->.
  - intros a. apply (hash_range (HashLaws := hash_int_laws)).
Qed.

(** The order of the table depends on the keys of its elements only. *)
Lemma hash_wf_ext o o' h : hash_wf (spte_hash_func o) (spte_less_func o) h -> (forall e, e ∈ elems h -> key o' e = key o e) ->
  hash_wf (spte_hash_func o') (spte_less_func o') h.
Proof.
  intros [Hs Hp [Hn Hd] Hc] Hk. split; [done| | |done].
  - intros i b e Hb He. rewrite -(Hp i b e Hb He) /bucket_idx /spte_hash_func Hk //. apply elem_of_elems. eauto.
  - split; [done|]. intros a b Ha Hb. rewrite equal_key !Hk // -equal_key. by apply Hd.
Qed.

Record spt_rep (locked : bool) (n : nat) (t : sptab) (m : gmap (Z * Z) entry) : Prop := {
  st_wf : hash_wf (spte_hash_func (objs t)) (spte_less_func (objs t)) (spt t);
  st_lock : spt_lock t = locked;
  st_nodup : NoDup (spare t).*1;
  st_spare : forall a, a ∈ (spare t).*1 -> objs t !! a = None;
  st_room : (n <= length (spare t))%nat;
  st_size : Z.of_nat (stdpp.base.size (objs t) + length (spare t)) + 1 < 2 ^ 32;
  st_obj : forall e, e ∈ elems (spt t) -> is_Some (objs t !! e);
  st_map : forall k x, m !! k = Some x <-> exists e s, e ∈ elems (spt t) /\ objs t !! e = Some s /\ (pid s, vaddr s) = k /\ data s = x }.

Lemma key_obj o e s : o !! e = Some s -> key o e = (pid s, vaddr s).
Proof. rewrite /key. by intros ->. Qed.

Lemma elems_bound locked n t m : spt_rep locked n t m -> (length (elems (spt t)) <= stdpp.base.size (objs t))%nat.
Proof.
  intros H. destruct (wf_distinct _ _ _ (st_wf _ _ _ _ H)) as [Hn _].
  rewrite -(size_list_to_set (C := gset Z)) // -size_dom. apply subseteq_size. intros e He.
  apply elem_of_dom, (st_obj _ _ _ _ H). by apply elem_of_list_to_set in He.
Qed.

Lemma acquire_rep n t m : spt_rep false n t m -> exists t', acquire_spt t = Ok t' /\ spt_rep true n t' m /\ objs t' = objs t /\ spt t' = spt t /\ spare t' = spare t.
Proof. intros H. rewrite /acquire_spt (st_lock _ _ _ _ H) /=. eexists. split; [done|]. split; [by destruct H|done]. Qed.
Lemma release_rep n t m : spt_rep true n t m -> exists t', release_spt t = Ok t' /\ spt_rep false n t' m /\ objs t' = objs t /\ spt t' = spt t /\ spare t' = spare t.
Proof. intros H. rewrite /release_spt (st_lock _ _ _ _ H) /=. eexists. split; [done|]. split; [by destruct H|done]. Qed.

Lemma malloc_rep locked n t m p va r f w : spt_rep locked (S n) t m ->
  exists a pos t', spte_malloc t p va r f w = Ok (a, t') /\ spt_rep locked n t' m /\ objs t' !! a = Some (mk_spte p va (mk_entry r pos f w)) /\
    a ∉ elems (spt t') /\ spt t' = spt t.
Proof.
  intros [Hw Hl Hn Hs Hr Hz Ho Hm]. rewrite /spte_malloc. destruct (spare t) as [|[a pos] l] eqn:E; [simpl in Hr; lia|].
  have Ha : objs t !! a = None by apply Hs; simpl; left.
  have Hne : forall e, e ∈ elems (spt t) -> e <> a. { intros e He ->. destruct (Ho a He) as [s Hsa]. congruence. }
  eexists a, pos, _. split; [done|]. split; [|simpl; rewrite lookup_insert_eq; split_and!; [done| |done]; by intros He; apply (Hne a)].
  simpl in Hn. apply NoDup_cons in Hn as [Hn1 Hn2]. split; simpl in *; try done.
  - apply (hash_wf_ext (objs t)); [done|]. intros e He. rewrite /key lookup_insert_ne //. by apply not_eq_sym, Hne.
  - intros b Hb. rewrite lookup_insert_ne; [by intros ->|]. apply Hs. by right.
  - lia.
  - rewrite map_size_insert_None //. lia.
  - intros e He. rewrite lookup_insert_ne; [by apply not_eq_sym, Hne|]. by apply Ho.
  - intros k x. rewrite Hm. split; intros (e & s & He & Hse & ?); exists e, s; rewrite lookup_insert_ne in Hse |- *; try done; by apply not_eq_sym, Hne.
Qed.

Lemma free_rep locked n t m a s : spt_rep locked n t m -> objs t !! a = Some s -> a ∉ elems (spt t) ->
  exists t', spte_free t a = Ok t' /\ spt_rep locked (S n) t' m.
Proof.
  intros [Hw Hl Hn Hs Hr Hz Ho Hm] Ha He. rewrite /spte_free Ha /=. eexists. split; [done|].
  have Hne : forall e, e ∈ elems (spt t) -> a <> e by intros e Hee ->.
  split; simpl; try done.
  - apply (hash_wf_ext (objs t)); [done|]. intros e Hee. rewrite /key lookup_delete_ne //. by apply Hne.
  - apply NoDup_cons. split; [|done]. intros Hin. rewrite Hs in Ha; done.
  - intros b [->|Hb]%elem_of_cons; [by rewrite lookup_delete_eq|]. apply lookup_delete_None. right. by apply Hs.
  - lia.
  - have Hsz : stdpp.base.size (objs t) = S (stdpp.base.size (delete a (objs t))); [|lia].
    rewrite -{1}(insert_delete_id (objs t) a s) // map_size_insert_None // lookup_delete_eq //.
  - intros e Hee. rewrite lookup_delete_ne; [by apply Hne|]. by apply Ho.
  - intros k x. rewrite Hm. split; intros (e & s' & Hee & Hse & ?); exists e, s'; rewrite lookup_delete_ne in Hse |- *; try done; by apply Hne.
Qed.

(** Searching with the key of object [a]. *)
Lemma find_rep locked n t m a s : spt_rep locked n t m -> objs t !! a = Some s ->
  exists target, hash_find (spte_hash_func (objs t)) (spte_less_func (objs t)) (spt t) a = Ok target /\
    match m !! (pid s, vaddr s) with
    | Some x => exists b s', target = Some b /\ b ∈ elems (spt t) /\ objs t !! b = Some s' /\ (pid s', vaddr s') = (pid s, vaddr s) /\ data s' = x
    | None => target = None
    end.
Proof.
  intros H Ha. destruct (find_ok (spte_hash_func (objs t)) (spte_less_func (objs t)) (spt t) (elems (spt t)) a) as (b & Hb & Hf); [apply H|done|].
  rewrite /hash_find Hb. cbn [obind]. eexists. split; [done|]. rewrite Hf. destruct (m !! (pid s, vaddr s)) as [x|] eqn:Hm.
  - apply (st_map _ _ _ _ H) in Hm as (e & s' & He & Hs' & Hk & Hd). exists e, s'. split; [|done].
    apply (find_elem_unique _ _ (HashLaws0 := spte_laws (objs t))); [apply H|done|]. apply equal_key. rewrite (key_obj _ _ _ Hs') (key_obj _ _ _ Ha) //.
  - apply (find_elem_None (spte_less_func (objs t))). intros e He. apply not_true_is_false. rewrite equal_key (key_obj _ _ _ Ha). intros Hk.
    destruct (st_obj _ _ _ _ H e He) as [s' Hs']. rewrite (key_obj _ _ _ Hs') in Hk.
    have Hx : m !! (pid s, vaddr s) = Some (data s'); [|congruence]. apply (st_map _ _ _ _ H). by exists e, s'.
Qed.

(** A table whose elements have changed. *)
Lemma set_hash_rep locked n t m h m' : spt_rep locked n t m ->
  hash_wf (spte_hash_func (objs t)) (spte_less_func (objs t)) h -> (forall e, e ∈ elems h -> is_Some (objs t !! e)) ->
  (forall k x, m' !! k = Some x <-> exists e s, e ∈ elems h /\ objs t !! e = Some s /\ (pid s, vaddr s) = k /\ data s = x) ->
  spt_rep locked n (set_hash t h) m'.
Proof. intros [] ???. by split. Qed.

Section proofs.
Context (mem : hash -> bool).

(** Inserting object [a], or replacing the object with its key. *)
Lemma replace_rep locked n t m a s mm : spt_rep locked n t m -> objs t !! a = Some s -> a ∉ elems (spt t) ->
  exists o h, hash_replace (spte_hash_func (objs t)) (spte_less_func (objs t)) mm (spt t) a = Ok (o, h) /\
    spt_rep locked n (set_hash t h) (<[(pid s, vaddr s) := data s]> m).
Proof.
  intros H Ha Hn. have Hb := elems_bound _ _ _ _ H.
  destruct (hserve_ok (spte_hash_func (objs t)) (spte_less_func (objs t)) (HReplace a) mm (spt t) (elems (spt t)))
    as (h & Hr & Hw & Hp & _); [apply H|done| |]. { have := st_size _ _ _ _ H. lia. }
  simpl in Hr, Hp. eexists _, h. split; [done|].
  have Hin : forall e, e ∈ elems h <-> e = a \/ (e ∈ elems (spt t) /\ key (objs t) e <> key (objs t) a).
  { intros e. rewrite -Hp elem_of_cons. destruct (find_elem (spte_less_func (objs t)) (elems (spt t)) a) as [x|] eqn:Hf; simpl.
    - apply find_elem_Some in Hf as [Hx Hk]. apply equal_key in Hk. rewrite list_elem_of_filter. split; [|naive_solver].
      intros [->|[Hne He]]; [by left|]. right. split; [done|]. intros Hke.
      apply Hne. destruct (wf_distinct _ _ _ (st_wf _ _ _ _ H)) as [_ Hd]. apply Hd; [done|done|]. apply equal_key. congruence.
    - split; [|naive_solver]. intros [->|He]; [by left|]. right. split; [done|].
      have := proj1 (find_elem_None _ _ _) Hf e He. intros Hne Hk. apply equal_key in Hk. congruence. }
  apply (set_hash_rep _ _ _ m); [done|done| |].
  - intros e [->|[He _]]%Hin; [eauto|]. by apply (st_obj _ _ _ _ H).
  - intros k x. destruct (decide (k = (pid s, vaddr s))) as [->|Hk].
    + rewrite lookup_insert_eq. split.
      * intros [= <-]. exists a, s. rewrite Hin. eauto.
      * intros (e & s' & [->|[_ Hne]]%Hin & Hs' & Hkk & <-); [congruence|].
        exfalso. apply Hne. rewrite (key_obj _ _ _ Hs') (key_obj _ _ _ Ha) //.
    + rewrite lookup_insert_ne // (st_map _ _ _ _ H). split; intros (e & s' & He & Hs' & <- & <-); exists e, s'; (split; [|done]).
      * apply Hin. right. split; [done|]. rewrite (key_obj _ _ _ Hs') (key_obj _ _ _ Ha) //.
      * apply Hin in He as [->|[??]]; [|done]. congruence.
Qed.

(** Deleting an element. *)
Lemma delete_rep locked n t m a s mm : spt_rep locked n t m -> objs t !! a = Some s -> a ∈ elems (spt t) ->
  exists o h, hash_delete (spte_hash_func (objs t)) (spte_less_func (objs t)) mm (spt t) a = Ok (o, h) /\
    spt_rep locked n (set_hash t h) (delete (pid s, vaddr s) m) /\ (forall e, e ∈ elems h <-> e ∈ elems (spt t) /\ e <> a).
Proof.
  intros H Ha Hn. have Hb := elems_bound _ _ _ _ H.
  destruct (hserve_ok (spte_hash_func (objs t)) (spte_less_func (objs t)) (HDelete a) mm (spt t) (elems (spt t)))
    as (h & Hr & Hw & Hp & _); [apply H|done| |]. { have := st_size _ _ _ _ H. lia. }
  simpl in Hr, Hp. destruct (wf_distinct _ _ _ (st_wf _ _ _ _ H)) as [Hnd Hd].
  rewrite (find_elem_unique _ _ (HashLaws0 := spte_laws (objs t)) _ _ a) // in Hp; [by apply equal_key|]. simpl in Hp.
  have Hin : forall e, e ∈ elems h <-> e ∈ elems (spt t) /\ e <> a. { intros e. rewrite -Hp list_elem_of_filter. naive_solver. }
  eexists _, h. split; [done|]. split; [|done]. apply (set_hash_rep _ _ _ m); [done|done| |].
  - intros e [He _]%Hin. by apply (st_obj _ _ _ _ H).
  - intros k x. rewrite lookup_delete_Some (st_map _ _ _ _ H). split.
    + intros [Hk (e & s' & He & Hs' & <- & <-)]. exists e, s'. split; [|done]. apply Hin. split; [done|]. intros ->. congruence.
    + intros (e & s' & [He Hne]%Hin & Hs' & <- & <-). split; [|by exists e, s'].
      intros Hk. apply Hne, Hd; [done|done|]. apply equal_key. rewrite (key_obj _ _ _ Hs') (key_obj _ _ _ Ha) //.
Qed.

(** Changing what an element says of its page. *)
Lemma update_rep locked n t m b s x : spt_rep locked n t m -> objs t !! b = Some s -> b ∈ elems (spt t) ->
  spt_rep locked n (set_objs t (<[b := mk_spte (pid s) (vaddr s) x]> (objs t))) (<[(pid s, vaddr s) := x]> m).
Proof.
  intros H Hs He. have Hk : forall e, key (<[b := mk_spte (pid s) (vaddr s) x]> (objs t)) e = key (objs t) e.
  { intros e. rewrite /key. destruct (decide (b = e)) as [->|]; [by rewrite lookup_insert_eq Hs|by rewrite lookup_insert_ne]. }
  destruct (wf_distinct _ _ _ (st_wf _ _ _ _ H)) as [Hnd Hd]. have Hmap := st_map _ _ _ _ H. destruct H. split; simpl; try done.
  - apply (hash_wf_ext (objs t)); [done|]. intros. apply Hk.
  - intros a Ha. rewrite lookup_insert_ne; [|by auto]. intros ->. rewrite st_spare0 // in Hs.
  - rewrite map_size_insert_Some //.
  - intros e Hee. destruct (decide (b = e)) as [->|]; [rewrite lookup_insert_eq; eauto|rewrite lookup_insert_ne; auto].
  - intros k y. destruct (decide (k = (pid s, vaddr s))) as [->|Hne].
    + rewrite lookup_insert_eq. split.
      * intros [= <-]. exists b. eexists. rewrite lookup_insert_eq. eauto.
      * intros (e & s' & Hee & Hs' & Hks & <-). destruct (decide (b = e)) as [->|Hbe]; [rewrite lookup_insert_eq in Hs'; by simplify_eq|].
        exfalso. apply Hbe, Hd; [done|done|]. apply equal_key. rewrite lookup_insert_ne // in Hs'. rewrite (key_obj _ _ _ Hs') (key_obj _ _ _ Hs) //.
    + rewrite lookup_insert_ne // Hmap. split; intros (e & s' & Hee & Hs' & <- & <-); exists e, s'; (split; [done|]).
      * rewrite lookup_insert_ne //. intros ->. congruence.
      * destruct (decide (b = e)) as [->|]; [rewrite lookup_insert_eq in Hs'; by simplify_eq|]. rewrite lookup_insert_ne // in Hs'.
Qed.

(** The temporary entry of a search: allocated, searched for, freed. *)
Lemma search_ok n t m p va : spt_rep false (S n) t m ->
  exists a t1 t2 target, spte_malloc t p va 0 SPTE_INVALID false = Ok (a, t1) /\ acquire_spt t1 = Ok t2 /\ spt_rep true n t2 m /\
    is_Some (objs t2 !! a) /\ a ∉ elems (spt t2) /\
    hash_find (spte_hash_func (objs t2)) (spte_less_func (objs t2)) (spt t2) a = Ok target /\
    match m !! (p, va) with
    | Some x => exists b s', target = Some b /\ b ∈ elems (spt t2) /\ objs t2 !! b = Some s' /\ (pid s', vaddr s') = (p, va) /\ data s' = x
    | None => target = None
    end.
Proof.
  intros H. destruct (malloc_rep _ _ _ _ p va 0 SPTE_INVALID false H) as (a & pos & t1 & E1 & H1 & Ha & Hn & _).
  destruct (acquire_rep _ _ _ H1) as (t2 & E2 & H2 & Ho & Hh & _). rewrite -Ho in Ha. rewrite -Hh in Hn.
  destruct (find_rep _ _ _ _ a _ H2 Ha) as (target & E3 & Hm). exists a, t1, t2, target. split_and!; eauto.
Qed.
Lemma search_done n t m a : spt_rep true n t m -> is_Some (objs t !! a) -> a ∉ elems (spt t) ->
  exists t1 t2, release_spt t = Ok t1 /\ spte_free t1 a = Ok t2 /\ spt_rep false (S n) t2 m.
Proof.
  intros H [s Ha] Hn. destruct (release_rep _ _ _ H) as (t1 & E1 & H1 & Ho & Hh & _).
  destruct (free_rep _ _ t1 m a s H1) as (t2 & E2 & H2); [by rewrite Ho|by rewrite Hh|]. eauto 6.
Qed.

Lemma table_get_ok {A} (get : entry -> A) (d : A) n t m p va : spt_rep false (S n) t m -> pg_ofs va = 0 ->
  exists t', table_get get d t p va = Ok (default d (get <$> m !! (p, va)), t') /\ spt_rep false (S n) t' m.
Proof.
  intros H Hva. destruct (search_ok n t m p va H) as (a & t1 & t2 & target & E1 & E2 & H2 & Ha & Hn & E3 & Hm).
  destruct (search_done n t2 m a H2 Ha Hn) as (t3 & t4 & E4 & E5 & H4).
  rewrite /table_get Hva E1. cbn [Z.eqb ASSERT obind]. rewrite E2. cbn [obind]. rewrite /table_find E3. cbn [obind].
  destruct (m !! (p, va)) as [x|].
  - destruct Hm as (b & s' & -> & _ & Hb & _ & <-). rewrite Hb /= E4 /= E5 /=. eauto.
  - subst target. rewrite /= E4 /= E5 /=. eauto.
Qed.

Lemma table_tell_ok n t m p va x : spt_rep false (S n) t m -> pg_ofs va = 0 -> m !! (p, va) = Some x ->
  exists t', table_tell t p va = Ok (saved_file_pos x, t') /\ spt_rep false (S n) t' m.
Proof.
  intros H Hva Hx. destruct (search_ok n t m p va H) as (a & t1 & t2 & target & E1 & E2 & H2 & Ha & Hn & E3 & Hm).
  destruct (search_done n t2 m a H2 Ha Hn) as (t3 & t4 & E4 & E5 & H4). rewrite Hx in Hm.
  destruct Hm as (b & s' & -> & _ & Hb & _ & <-).
  rewrite /table_tell Hva E1. cbn [Z.eqb ASSERT obind]. rewrite E2. cbn [obind]. rewrite /table_find E3 /= Hb /= E4 /= E5 /=. eauto.
Qed.

Lemma table_seek_ok n t m p va x pos : spt_rep false (S n) t m -> pg_ofs va = 0 -> m !! (p, va) = Some x -> 0 <= pos ->
  exists t', table_seek t p va pos = Ok t' /\ spt_rep false (S n) t' (<[(p, va) := mk_entry (ref x) pos (eflag x) (writable x)]> m).
Proof.
  intros H Hva Hx Hpos. destruct (search_ok n t m p va H) as (a & t1 & t2 & target & E1 & E2 & H2 & Ha & Hn & E3 & Hm).
  rewrite Hx in Hm. destruct Hm as (b & s' & -> & Hbe & Hb & Hk & <-). injection Hk as <- <-.
  have H3 := update_rep _ _ _ _ b s' (mk_entry (ref (data s')) pos (eflag (data s')) (writable (data s'))) H2 Hb Hbe.
  destruct (search_done n _ _ a H3) as (t3 & t4 & E4 & E5 & H4); [|done|].
  { simpl. destruct (decide (b = a)) as [->|]; [by rewrite lookup_insert_eq|by rewrite lookup_insert_ne]. }
  rewrite /table_seek Hva E1. cbn [Z.eqb ASSERT obind]. rewrite E2. cbn [obind]. rewrite E3. cbn [obind]. rewrite Hb. cbn [oget obind].
  rewrite (proj2 (Z.leb_le _ _) Hpos). cbn [ASSERT obind]. rewrite E4. cbn [obind]. rewrite E5. eauto.
Qed.

Lemma table_set_ok n t m p va r f w : spt_rep false (S n) t m -> pg_ofs va = 0 -> va <> 0 -> f <> SPTE_INVALID ->
  exists t' pos, table_set mem t p va r f w = Ok t' /\ spt_rep false n t' (<[(p, va) := mk_entry r pos f w]> m).
Proof.
  intros H Hva Hv0 Hf. destruct (malloc_rep _ _ _ _ p va r f w H) as (a & pos & t1 & E1 & H1 & Ha & Hn & _).
  destruct (acquire_rep _ _ _ H1) as (t2 & E2 & H2 & Ho & Hh & _). rewrite -Ho in Ha. rewrite -Hh in Hn.
  destruct (replace_rep _ _ _ _ a _ (mem (spt t2)) H2 Ha Hn) as (o & h & E3 & H3).
  destruct (release_rep _ _ _ H3) as (t4 & E4 & H4 & _).
  exists t4, pos. split; [|done]. rewrite /table_set Hva (proj2 (Z.eqb_neq _ _) Hv0) bool_decide_eq_false_2 // E1.
  cbn [Z.eqb negb ASSERT obind]. rewrite E2. cbn [obind]. by rewrite E3 /= E4.
Qed.

(** Removing an entry frees it. *)
Lemma spt_remove_ok n t m p va x : spt_rep false (S n) t m -> pg_ofs va = 0 -> m !! (p, va) = Some x ->
  exists t', spt_remove mem t p va = Ok (ref x, t') /\ spt_rep false (S (S n)) t' (delete (p, va) m).
Proof.
  intros H Hva Hx. destruct (search_ok n t m p va H) as (a & t1 & t2 & target & E1 & E2 & H2 & Ha & Hn & E3 & Hm).
  rewrite Hx in Hm. destruct Hm as (b & s' & -> & Hbe & Hb & Hk & <-). injection Hk as <- <-.
  destruct (delete_rep _ _ _ _ b s' (mem (spt t2)) H2 Hb Hbe) as (o & h & E4 & H4 & Hin).
  destruct (free_rep _ _ _ _ b s' H4) as (t5 & E5 & H5); [done|simpl; rewrite Hin; tauto|].
  have Hab : a <> b by intros ->.
  destruct (search_done _ t5 _ a H5) as (t6 & t7 & E6 & E7 & H7).
  { move: E5. rewrite /spte_free /= Hb. intros [= <-]. simpl. by rewrite lookup_delete_ne. }
  { move: E5. rewrite /spte_free /= Hb. intros [= <-]. simpl. rewrite Hin. tauto. }
  rewrite /spt_remove Hva E1. cbn [Z.eqb ASSERT obind]. rewrite E2. cbn [obind]. rewrite E3. cbn [obind]. rewrite Hb. cbn [oget obind].
  rewrite E4. cbn [obind]. rewrite E5. cbn [obind]. rewrite E6. cbn [obind]. rewrite E7. eauto.
Qed.

#[export] Instance table_spt : SptTable (H := table_ops mem) sptab.
Proof.
  refine (Build_SptTable sptab _ (spt_rep false) _ _ _ _ _ _ _).
  - intros n t m []. split; try done. lia.
  - intros. by apply table_get_ok.
  - intros. by apply table_get_ok.
  - intros. by apply table_get_ok.
  - intros. by apply table_tell_ok.
  - intros. by apply table_seek_ok.
  - intros. by apply table_set_ok.
Defined.
End proofs.

(** ** Releasing a process *)

(** Slot [r] holds a page of process [p]. *)
Definition owns (m : gmap (Z * Z) entry) (p r : Z) : Prop :=
  exists va x, m !! (p, va) = Some x /\ eflag x = SPTE_SWAP /\ ref x = r.

Lemma collect_ok p t es sw sm : swapped sw sm -> NoDup es ->
  (forall e, e ∈ es -> exists s, objs t !! e = Some s /\
     (pid s = p -> eflag (data s) <> SPTE_INVALID /\ (eflag (data s) = SPTE_SWAP -> is_Some (sm !! ref (data s))))) ->
  (forall e e' s s', e ∈ es -> e' ∈ es -> objs t !! e = Some s -> objs t !! e' = Some s' -> pid s = p -> pid s' = p ->
     eflag (data s) = SPTE_SWAP -> eflag (data s') = SPTE_SWAP -> ref (data s) = ref (data s') -> e = e') ->
  exists l sw' sm', collect p t es sw = Ok (l, sw') /\ swapped sw' sm' /\ l `sublist_of` es /\
    (forall e, e ∈ l <-> e ∈ es /\ exists s, objs t !! e = Some s /\ pid s = p) /\
    (forall r pg, sm' !! r = Some pg <-> sm !! r = Some pg /\
       forall e s, e ∈ es -> objs t !! e = Some s -> pid s = p -> eflag (data s) = SPTE_SWAP -> ref (data s) <> r).
Proof.
  intros Hsw Hnd. revert sw sm Hsw. induction Hnd as [|e es Hne Hnd IH]; intros sw sm Hsw Hob Hd; simpl.
  { exists [], sw, sm. split_and!; [done|done|done| |]; intros; set_solver. }
  destruct (Hob e) as (s & Hs & Hx); [left|]. rewrite Hs /=. destruct (Z.eqb_spec (pid s) p) as [Hp|Hp]; last first.
  { destruct (IH sw sm Hsw) as (l & sw' & sm' & E & H1 & H2 & H3 & H4).
    - intros e' He'. apply Hob. by right.
    - intros e1 e2 s1 s2 He1 He2. apply Hd; by right.
    - exists l, sw', sm'. split_and!; [done|done|by apply sublist_cons| |].
      + intros e'. rewrite H3 elem_of_cons. split; [naive_solver|]. intros [[->|?] (s' & ? & ?)]; [congruence|]. eauto.
      + intros r pg. rewrite H4. split; intros [? Hr]; (split; [done|]).
        * intros e' s' [->|?]%elem_of_cons; [congruence|]. by apply Hr.
        * intros e' s' ?. apply Hr. by right. }
  destruct (Hx Hp) as [Hinv Hswap].
  have [sw1 [sm1 [E1 [Hsw1 Hsm1]]]] : exists sw1 sm1,
    (match eflag (data s) with SPTE_SWAP => let! (_, sw) := swap_in sw (ref (data s)) in Ok sw | SPTE_INVALID => Err Panic | _ => Ok sw end) = Ok sw1 /\
    swapped sw1 sm1 /\ forall r pg, sm1 !! r = Some pg <-> sm !! r = Some pg /\ (eflag (data s) = SPTE_SWAP -> ref (data s) <> r).
  { destruct (eflag (data s)) eqn:Hf; try done; try (exists sw, sm; split_and!; [done|done|]; intros; split; [intros; split; congruence|tauto]).
    destruct (Hswap eq_refl) as [pg Hpg]. destruct (swap_in_spec sw sm _ pg Hsw Hpg) as (sw1 & E & H1).
    exists sw1, (delete (ref (data s)) sm). rewrite E. split_and!; [done|done|]. intros r pg'. rewrite lookup_delete_Some. naive_solver. }
  rewrite E1. cbn [obind]. destruct (IH sw1 sm1 Hsw1) as (l & sw' & sm' & E & H1 & H2 & H3 & H4).
  - intros e' He'. destruct (Hob e') as (s' & Hs' & Hx'); [by right|]. exists s'. split; [done|]. intros Hp'. destruct (Hx' Hp') as [? Hr].
    split; [done|]. intros Hf'. destruct (Hr Hf') as [pg Hpg]. exists pg. apply Hsm1. split; [done|]. intros Hf Heq.
    apply Hne. rewrite (Hd e e' s s') //; [left|by right].
  - intros e1 e2 s1 s2 He1 He2. apply Hd; by right.
  - rewrite E /=. exists (e :: l), sw', sm'. split_and!; [done|done|by apply sublist_skip| |].
    + intros e'. rewrite !elem_of_cons H3. naive_solver.
    + intros r pg. rewrite H4 Hsm1. split.
      * intros [[? Hr1] Hr2]. split; [done|]. intros e' s' [->|He']%elem_of_cons Hs'; [|exact (Hr2 e' s' He' Hs')]. have -> : s' = s by congruence. auto.
      * intros [? Hr]. split; [split; [done|]|].
        -- intros Hf. apply (Hr e s); [left|done..].
        -- intros e' s' ?. apply Hr. by right.
Qed.

Lemma delete_all_ok mem locked es n t m : NoDup es -> (forall e, e ∈ es -> e ∈ elems (spt t)) -> spt_rep locked n t m ->
  exists t' m', delete_all mem es t = Ok t' /\ spt_rep locked (n + length es) t' m' /\
    forall k x, m' !! k = Some x <-> m !! k = Some x /\ forall e, e ∈ es -> key (objs t) e <> k.
Proof.
  intros Hnd. revert n t m. induction Hnd as [|e es Hne Hnd IH]; intros n t m Hin H; simpl.
  { exists t, m. rewrite Nat.add_0_r. split_and!; [done|done|]. intros. set_solver. }
  destruct (st_obj _ _ _ _ H e) as [s Hs]; [apply Hin; left|].
  destruct (delete_rep mem _ _ _ _ e s (mem (spt t)) H Hs) as (o & h & E1 & H1 & Hh); [apply Hin; left|].
  destruct (free_rep _ _ _ _ e s H1) as (t2 & E2 & H2); [done|simpl; rewrite Hh; tauto|].
  rewrite E1. cbn [obind]. rewrite E2. cbn [obind].
  have [Ho Hsp] : objs t2 = delete e (objs t) /\ spt t2 = h. { move: E2. rewrite /spte_free /= Hs. by intros [= <-]. }
  have Hin2 : forall e', e' ∈ es -> e' ∈ elems (spt t2).
  { intros e' He'. rewrite Hsp Hh. split; [apply Hin; by right|by intros ->]. }
  destruct (IH _ _ _ Hin2 H2) as (t' & m' & E & H3 & Hm').
  exists t', m'. split; [done|]. split; [by rewrite -Nat.add_succ_comm|]. intros k x. rewrite Hm' lookup_delete_Some.
  have Hk : forall e', e' ∈ es -> key (objs t2) e' = key (objs t) e'. { intros e' He'. rewrite /key Ho lookup_delete_ne //. by intros ->. }
  rewrite -(key_obj _ _ _ Hs). split.
  - intros [[Hne' ?] Hr]. split; [done|]. intros e' [->|He']%elem_of_cons; [done|]. rewrite -Hk //. by apply Hr.
  - intros [? Hr]. split; [split; [|done]; apply Hr; left|]. intros e' He'. rewrite Hk //. apply Hr. by right.
Qed.

(** The entries of a process that exits are released.  When the table and
    the swap device agree, every slot that an entry names being in use by that
    entry alone, [spt_free_process] removes and frees exactly the entries of
    process [p] and releases exactly the swap slots that they name: the entries
    and swapped pages of the other processes are as before, and the memory of
    the entries can be allocated again.  This needs that the head of the first
    bucket, which the loop also takes for an entry, does not have [p] in the
    place of its process. *)
Theorem spt_free_process_correct (mem : hash -> bool) (n : nat) (t : sptab) (m : gmap (Z * Z) entry) (sw : swap) (sm : gmap Z (list Z)) (p head_pid : Z) :
  spt_is (SptTable := table_spt mem) n t m -> swapped sw sm -> head_pid <> p ->
  (forall va x, m !! (p, va) = Some x -> eflag x <> SPTE_INVALID) ->
  (forall va x, m !! (p, va) = Some x -> eflag x = SPTE_SWAP -> is_Some (sm !! ref x)) ->
  (forall va va' x x', m !! (p, va) = Some x -> m !! (p, va') = Some x' -> eflag x = SPTE_SWAP -> eflag x' = SPTE_SWAP -> ref x = ref x' -> va = va') ->
  exists t' sw' sm', spt_free_process mem t p head_pid sw = Ok (t', sw') /\
    spt_is (SptTable := table_spt mem) (n + stdpp.base.size (filter (fun kx => kx.1.1 = p) m)) t' (filter (fun kx => kx.1.1 <> p) m) /\
    swapped sw' sm' /\ (forall r pg, sm' !! r = Some pg <-> sm !! r = Some pg /\ ~ owns m p r).
Proof.
  intros H Hsw Hh Hinv Hslot Hdis. destruct (acquire_rep _ _ _ H) as (t1 & E1 & H1 & Ho & Hs & _).
  have Hmap := st_map _ _ _ _ H1. destruct (wf_distinct _ _ _ (st_wf _ _ _ _ H1)) as [Hnd Hd].
  have Hobj : forall e s, e ∈ elems (spt t1) -> objs t1 !! e = Some s -> m !! (pid s, vaddr s) = Some (data s).
  { intros e s He Hse. apply Hmap. by exists e, s. }
  have Heq : forall e e' s s', e ∈ elems (spt t1) -> e' ∈ elems (spt t1) -> objs t1 !! e = Some s -> objs t1 !! e' = Some s' ->
    (pid s, vaddr s) = (pid s', vaddr s') -> e = e'.
  { intros e e' s s' He He' Hse Hse' Hk. apply Hd; [done|done|]. apply equal_key. rewrite (key_obj _ _ _ Hse) (key_obj _ _ _ Hse') //. }
  destruct (collect_ok p t1 (elems (spt t1)) sw sm Hsw Hnd) as (l & sw' & sm' & E2 & Hsw' & Hsub & Hl & Hsm).
  { intros e He. destruct (st_obj _ _ _ _ H1 e He) as [s Hse]. exists s. split; [done|]. intros Hp.
    have Hm := Hobj e s He Hse. rewrite Hp in Hm. split; [by apply (Hinv _ _ Hm)|]. by apply (Hslot _ _ Hm). }
  { intros e e' s s' He He' Hse Hse' Hp Hp' Hf Hf' Hr. apply (Heq e e' s s'); [done..|]. rewrite Hp Hp'. f_equal.
    apply (Hdis _ _ (data s) (data s')); [| |done|done|done].
    - rewrite -Hp. by apply (Hobj e).
    - rewrite -Hp'. by apply (Hobj e'). }
  have Hlnd : NoDup l by eapply sublist_NoDup.
  have Hlin : forall e, e ∈ l -> e ∈ elems (spt t1) by intros e [? _]%Hl.
  destruct (delete_all_ok mem _ l _ _ _ Hlnd Hlin H1) as (t2 & m2 & E3 & H2 & Hm2).
  destruct (release_rep _ _ _ H2) as (t3 & E4 & H3 & _).
  have Hkey : forall k, (exists e, e ∈ l /\ key (objs t1) e = k) <-> exists x, m !! k = Some x /\ k.1 = p.
  { intros k. split.
    - intros (e & [He (s & Hse & Hp)]%Hl & <-). rewrite (key_obj _ _ _ Hse). exists (data s). split; [by apply (Hobj e)|done].
    - intros (x & (e & s & He & Hse & <- & _)%Hmap & Hp). exists e. rewrite (key_obj _ _ _ Hse). split; [|done]. apply Hl. eauto. }
  have Hmeq : m2 = filter (fun kx => kx.1.1 <> p) m.
  { apply map_eq. intros k. apply option_eq. intros x. rewrite Hm2 map_lookup_filter_Some. simpl. split.
    - intros [Hx Hne]. split; [done|]. intros Hp. destruct (proj2 (Hkey k)) as (e & He & Hke); [eauto|]. by apply (Hne e).
    - intros [Hx Hne]. split; [done|]. intros e He Hke. destruct (proj1 (Hkey k)) as (x' & _ & Hp); eauto. }
  have Hlen : length l = stdpp.base.size (filter (fun kx => kx.1.1 = p) m).
  { rewrite -(length_fmap (key (objs t1))) -size_dom. rewrite -(size_list_to_set (C := gset (Z * Z))).
    - apply NoDup_fmap_2_strong; [|done]. intros e e' [He (s & Hse & _)]%Hl [He' (s' & Hse' & _)]%Hl.
      rewrite (key_obj _ _ _ Hse) (key_obj _ _ _ Hse'). by apply Heq.
    - f_equal. apply leibniz_equiv. intros k. rewrite elem_of_list_to_set list_elem_of_fmap elem_of_dom.
      transitivity (exists e, e ∈ l /\ key (objs t1) e = k); [naive_solver|]. rewrite Hkey. split.
      + intros (x & Hx & Hp). exists x. by apply map_lookup_filter_Some.
      + intros [x [Hx Hp]%map_lookup_filter_Some]. eauto. }
  exists t3, sw', sm'. split; [|split; [by rewrite -Hmeq -Hlen|split; [done|]]].
  - rewrite /spt_free_process E1. cbn [obind]. rewrite (proj2 (Z.eqb_neq _ _) Hh).
    rewrite (iterate_all _ _ _ (st_wf _ _ _ _ H1)). cbn [obind]. rewrite E2. cbn [obind]. rewrite E3. cbn [obind]. by rewrite E4.
  - intros r pg. rewrite Hsm. split; intros [? Hr]; (split; [done|]).
    + intros (va & x & (e & s & He & Hse & Hk & <-)%Hmap & Hf & Hrr). injection Hk as Hp _. by apply (Hr e s).
    + intros e s He Hse Hp Hf Hrr. apply Hr. exists (vaddr s), (data s). split_and!; [|done..]. rewrite -Hp. by apply (Hobj e).
Qed.

(** ** An example: a page of process 3 on the swap device, a page of process 4 in memory *)
Definition ex_spt : sptab :=
  mk_sptab ∅ [(0xc0500000, 77); (0xc0500020, 0); (0xc0500040, 0)] (hash_clear (mk_hash 0 4 (replicate 4 []))) false.
Lemma ex_spt_rep : spt_rep false 3 ex_spt ∅.
Proof.
  split; try done.
  - apply hash_init_wf.
  - apply (bool_decide_unpack _). by vm_compute.
  - intros e He. vm_compute in He. by apply not_elem_of_nil in He.
  - intros k x. rewrite lookup_empty. split; [done|]. intros (e & s & He & _). vm_compute in He. by apply not_elem_of_nil in He.
Qed.

Lemma spt_free_process_correct_witness :
  exists t m sw t' sw' sm', m !! (3, 0x8048000) = Some (mk_entry 0xc0104000 77 SPTE_SWAP true) /\
    is_Some (m !! (4, 0x8048000)) /\
    spt_free_process (fun _ => true) t 3 0 sw = Ok (t', sw') /\
    spt_rep false (1 + stdpp.base.size (filter (fun kx => kx.1.1 = 3) m)) t' (filter (fun kx => kx.1.1 <> 3) m) /\
    swapped sw' sm' /\ (forall r pg, sm' !! r = Some pg <-> ({[0xc0104000 := replicate 4096 5]} : gmap Z (list Z)) !! r = Some pg /\ ~ owns m 3 r).
Proof.
  destruct ex_swapped as [sw Hsw].
  destruct (table_set_ok (fun _ => true) 2 ex_spt ∅ 3 0x8048000 0xc0104000 SPTE_SWAP true ex_spt_rep) as (t1 & pos & E1 & H1); [done|done|done|].
  have Hpos : pos = 77.
  { destruct (table_tell_ok _ _ _ 3 0x8048000 (mk_entry 0xc0104000 pos SPTE_SWAP true) H1) as (t2 & E2 & _); [done|apply lookup_insert_eq|].
    vm_compute in E1. injection E1 as <-. vm_compute in E2. by injection E2. }
  subst pos. destruct (table_set_ok (fun _ => true) 1 t1 _ 4 0x8048000 0 SPTE_MMRY true H1) as (t2 & pos & E2 & H2); [done|done|done|].
  destruct (spt_free_process_correct (fun _ => true) 1 t2 _ sw _ 3 0 H2 Hsw) as (t' & sw' & sm' & E & Hr & Hs & Hm); [done| | | |].
  - intros va x [[_ <-]|[_ [[_ <-]|[_ ?]]%lookup_insert_Some]]%lookup_insert_Some; done.
  - intros va x [[_ <-]|[_ [[_ <-]|[_ ?]]%lookup_insert_Some]]%lookup_insert_Some Hf; [done| |done]. rewrite /= lookup_singleton_eq. eauto.
  - intros va va' x x' [[[=] _]|[_ [[[=] _]|[_ ?]]%lookup_insert_Some]]%lookup_insert_Some
      [[[=] _]|[_ [[[=] _]|[_ ?]]%lookup_insert_Some]]%lookup_insert_Some; [congruence|done..].
  - exists t2, (<[(4, 0x8048000) := mk_entry 0 pos SPTE_MMRY true]> (<[(3, 0x8048000) := mk_entry 0xc0104000 77 SPTE_SWAP true]> ∅)), sw, t', sw', sm'.
    split_and!; [by rewrite lookup_insert_ne ?lookup_insert_eq|rewrite lookup_insert_eq; eauto|exact E|exact Hr|exact Hs|exact Hm].
Defined.
