(* ===== verification/Frame.v ===== *)
(** * vm/frame.c: the frame table and eviction

    [vm] is the state that virtual memory works on: the page allocator, page
    tables and processor of PageDir.v, the swap device of Swap.v, the
    supplemental page table, the open files, the frame table and the page
    directories of the processes.  The supplemental page table is used through
    the interface of Spt.v and files through [FileOps], so that the proofs rest
    on what these promise.

    [paged] relates a state to the contents of all user pages of all processes,
    wherever these are kept; [falloc_get_frame] is shown to preserve it, whatever
    page it evicts. *)
From S2P Require Import Prelude Bitmap Palloc PageDir UserMem Block Swap Spt.

(** ** Files, as far as demand paging uses them *)
Class FileOps (F : Type) := {
  vm_read_at : F -> Z -> Z -> Z -> outcome (list Z * F) }.  (* file, size, position: [file_read_at] *)
(** [file_is f p bs]: the open file at [p] has contents [bs]. *)
Class FileLaws (F : Type) `{FileOps F} := {
  file_is : F -> Z -> list Z -> Prop;
  file_read_law : forall f p bs size pos, file_is f p bs -> 0 <= pos <= INT_MAX -> 0 <= size ->
    exists f', vm_read_at f p size pos = Ok (slice bs pos (Z.min size (Z.of_nat (length bs) - pos)), f') /\
      forall q cs, file_is f q cs -> file_is f' q cs }.

(** ** Bytes of a page *)
Definition page_bytes (m : memory) (a : Z) : list Z := (fun k => m (a + k)) <$> seqZ 0 PGSIZE.
Definition put_bytes (m : memory) (a : Z) (bs : list Z) : memory :=
  fun x => if (a <=? x) && (x <? a + Z.of_nat (length bs)) then nth (Z.to_nat (x - a)) bs 0 else m x.

(** ** State *)
Record fte := mk_fte { f_kpage : Z; f_pid : Z; f_upage : Z; present : bool; pinned : bool }.

Record vm (T F : Type) := mk_vm {
  ms : mmu; sw : swap; tb : T; fl : F;
  ft : list fte; ft_lock : bool; victim_idx : Z;
  dirs : gmap Z Z;          (* [thread_from_tid (pid)->pagedir] *)
  running : Z }.            (* [thread_tid ()] *)
Arguments mk_vm {T F}. Arguments ms {T F}. Arguments sw {T F}. Arguments tb {T F}. Arguments fl {T F}.
Arguments ft {T F}. Arguments ft_lock {T F}. Arguments victim_idx {T F}. Arguments dirs {T F}. Arguments running {T F}.

Section frame.
Context {T F : Type} {spt_ops : SptOps T} {file_ops : FileOps F}.
(** Set by threads/init.c at boot. *)
Context (init_page_dir init_ram_pages : Z).
Implicit Types v : vm T F.

Definition set_ms v s : vm T F := mk_vm s (sw v) (tb v) (fl v) (ft v) (ft_lock v) (victim_idx v) (dirs v) (running v).
Definition set_sw v x : vm T F := mk_vm (ms v) x (tb v) (fl v) (ft v) (ft_lock v) (victim_idx v) (dirs v) (running v).
Definition set_tb v (t : T) : vm T F := mk_vm (ms v) (sw v) t (fl v) (ft v) (ft_lock v) (victim_idx v) (dirs v) (running v).
Definition set_fl v (f : F) : vm T F := mk_vm (ms v) (sw v) (tb v) f (ft v) (ft_lock v) (victim_idx v) (dirs v) (running v).
Definition set_ft v l : vm T F := mk_vm (ms v) (sw v) (tb v) (fl v) l (ft_lock v) (victim_idx v) (dirs v) (running v).
Definition set_ft_lock v b : vm T F := mk_vm (ms v) (sw v) (tb v) (fl v) (ft v) b (victim_idx v) (dirs v) (running v).
Definition set_victim v i : vm T F := mk_vm (ms v) (sw v) (tb v) (fl v) (ft v) (ft_lock v) i (dirs v) (running v).

(** [get_user_pool_bitmap] and [get_user_pool_base] of palloc.c *)
Definition upool v : pool := user_pool (pal (ms v)).
Definition set_upool v (p : pool) := set_ms v (set_pal (ms v) (put_pool (pal (ms v)) true p)).
Definition set_mem v (m : memory) := set_ms v (set_pal (ms v) (set_memory (pal (ms v)) m)).

Definition acquire_ft v : outcome (vm T F) := assert! negb (ft_lock v) in Ok (set_ft_lock v true).
Definition release_ft v : outcome (vm T F) := assert! ft_lock v in Ok (set_ft_lock v false).

(** ** The frame table *)
Definition ft_init v : vm T F :=
  let cleared := (fun e => mk_fte (f_kpage e) (f_pid e) (f_upage e) false false) <$> ft v in
  set_ft_lock (set_victim (set_ft v cleared) 0) false.

(** [&ft[(kpage - base) / PGSIZE]] *)
Definition ft_index v (kpage : Z) : Z := Z.quot (kpage - base (upool v)) PGSIZE.
Definition ft_entry v (kpage : Z) : outcome fte :=
  if ft_index v kpage <? 0 then Err Fault else oget (ft v !! Z.to_nat (ft_index v kpage)).
Definition ft_put v (kpage : Z) (e : fte) : vm T F := set_ft v (<[Z.to_nat (ft_index v kpage) := e]> (ft v)).

Definition ft_set v (kpage upage : Z) : outcome (vm T F) :=
  assert! (pg_ofs kpage =? 0) && (pg_ofs upage =? 0) in
  assert! is_kernel_vaddr kpage && is_user_vaddr upage in
  let! v := acquire_ft v in
  let! e := ft_entry v kpage in
  release_ft (ft_put v kpage (mk_fte kpage (running v) upage true (pinned e))).

(** 0 is the null pointer. *)
Definition ft_get v (kpage : Z) : outcome (Z * vm T F) :=
  assert! pg_ofs kpage =? 0 in
  assert! is_kernel_vaddr kpage in
  let! v := acquire_ft v in
  let! e := ft_entry v kpage in
  let! v := release_ft v in
  Ok (if present e then f_upage e else 0, v).

Definition ft_remove v (kpage : Z) : outcome (Z * vm T F) :=
  assert! pg_ofs kpage =? 0 in
  assert! is_kernel_vaddr kpage in
  let! v := acquire_ft v in
  let! e := ft_entry v kpage in
  let! v := release_ft (ft_put v kpage (mk_fte (f_kpage e) (f_pid e) (f_upage e) false (pinned e))) in
  Ok (if present e then f_upage e else 0, v).

(** [ft_pin] and [ft_unpin] *)
Definition ft_set_pinned (b : bool) v (kpage : Z) : outcome (vm T F) :=
  assert! pg_ofs kpage =? 0 in
  assert! is_kernel_vaddr kpage in
  let! v := acquire_ft v in
  let! e := ft_entry v kpage in
  release_ft (ft_put v kpage (mk_fte (f_kpage e) (f_pid e) (f_upage e) (present e) b)).
Definition ft_pin := ft_set_pinned true.
Definition ft_unpin := ft_set_pinned false.

(** ** Eviction *)

(** The loop that looks for a victim, with [n] passes left of [2 * cycle]. *)
Definition advance v : vm T F :=
  set_victim v (if victim_idx v =? bit_cnt (used_map (upool v)) - 1 then 0 else victim_idx v + 1).
Fixpoint clock (n : nat) v : outcome (option fte * vm T F) :=
  match n with
  | O => Ok (None, v)
  | S n =>
    let! victim := oget (ft v !! Z.to_nat (victim_idx v)) in
    let! pd := oget (dirs v !! f_pid victim) in
    let! accessed := pagedir_is_accessed (ms v) pd (f_upage victim) in
    if accessed then
      let! s := pagedir_set_accessed init_page_dir (ms v) pd (f_upage victim) false in
      clock n (advance (set_ms v s))
    else if negb (pinned victim) then Ok (Some victim, v)
    else clock n (advance v)
  end.

(** [swap_out] and the new entry. *)
Definition evict_to_swap v (victim : fte) (w : bool) : outcome (vm T F) :=
  let! (slot, x) := swap_out (sw v) (page_bytes (mem (pal (ms v))) (f_kpage victim)) in
  if slot =? 0 then Err Panic else
  let! t := spt_set_kernel (tb v) (f_pid victim) (f_upage victim) slot SPTE_SWAP w in
  Ok (set_tb (set_sw v x) t).

Definition evict v (victim : fte) : outcome (vm T F) :=
  let! (flag, t) := spt_get_flag_kernel (tb v) (f_pid victim) (f_upage victim) in
  let! (w, t) := spt_get_writable_kernel t (f_pid victim) (f_upage victim) in
  let v := set_tb v t in
  let! pd := oget (dirs v !! f_pid victim) in
  let! v :=
    match flag with
    | SPTE_MMRY => evict_to_swap v victim w
    | SPTE_FILE | SPTE_ZERO =>
      let! dirty := pagedir_is_dirty (ms v) pd (f_upage victim) in
      if dirty then evict_to_swap v victim w else Ok v
    | SPTE_SWAP => Err Panic
    | SPTE_INVALID => Err Panic
    end in
  let! s := pagedir_clear_page init_page_dir (ms v) pd (f_upage victim) in
  Ok (set_ms v s).

(** 0 is the null pointer. *)
Definition falloc_get_frame v (flags : Z) : outcome (Z * vm T F) :=
  let! p := acquire_pool (upool v) in
  let! (kpage_idx, map) := bitmap_scan_and_flip (used_map p) 0 1 false in
  let! p := release_pool (mk_pool (lock p) map (base p)) in
  let v := set_upool v p in
  let kpage := if negb (kpage_idx =? BITMAP_ERROR) then base p + PGSIZE * kpage_idx else 0 in
  assert! (kpage =? 0) || is_kernel_vaddr kpage in
  let! v := acquire_ft v in
  if negb (kpage =? 0) then
    let v := if Palloc.flag flags PAL_ZERO then set_mem v (fill (mem (pal (ms v))) kpage 0 PGSIZE) else v in
    let! v := release_ft v in
    Ok (kpage, v)
  else
    let cycle := bitmap_size (used_map (upool v)) in
    let! (victim, v) := clock (Z.to_nat (2 * cycle)) v in
    match victim with
    | None => let! v := release_ft v in Ok (0, v)
    | Some victim =>
      let! v := evict v victim in
      let kpage := base p + PGSIZE * victim_idx v in
      let! v := release_ft v in
      Ok (kpage, v)
    end.

Definition falloc_free_frame v (kpage : Z) : outcome (vm T F) :=
  assert! pg_ofs kpage =? 0 in
  assert! is_kernel_vaddr kpage in
  let! v := acquire_ft v in
  let! p := palloc_free_page (pal (ms v)) kpage in
  release_ft (set_ms v (set_pal (ms v) p)).
End frame.

(** ** The contents of all user pages *)

(** The user pages that the kernel manages; page 0 is never one. *)
Definition upage_ok (va : Z) : Prop := 0 < va /\ is_user_vaddr va = true /\ va mod PGSIZE = 0.
(** The frame of a page table entry. *)
Definition frame_of (w : Z) : Z := Z.land w PTE_ADDR + PHYS_BASE.
(** A page of a file, padded with zeros. *)
Definition page_of (data : list Z) (pos : Z) : list Z :=
  let d := slice data pos (Z.min PGSIZE (Z.of_nat (length data) - pos)) in d ++ replicate (Z.to_nat PGSIZE - length d) 0.

Section paged.
Context {T F : Type} {spt_ops : SptOps T} {file_ops : FileOps F} {spt_laws : SptTable T} {file_laws : FileLaws F}.
Context (init_page_dir init_ram_pages : Z) (D : gset Z).
Implicit Types v : vm T F.

Definition cnt v : Z := bit_cnt (used_map (upool v)).
Definition kaddr v (i : Z) : Z := base (upool v) + PGSIZE * i.
Definition uses v (i : Z) : bool := used (pal (ms v)) true i.
Definition frame_bytes v (w : Z) : list Z := page_bytes (mem (pal (ms v))) (frame_of w).

(** [bs] is what the place that entry [e] names holds. *)
Definition backed v (sm : gmap Z (list Z)) (e : entry) (bs : list Z) : Prop :=
  match eflag e with
  | SPTE_FILE => exists data, file_is (fl v) (ref e) data /\ 0 <= saved_file_pos e < Z.of_nat (length data) /\ Z.of_nat (length data) <= INT_MAX /\
      bs = page_of data (saved_file_pos e)
  | SPTE_SWAP => sm !! ref e = Some bs
  | SPTE_ZERO => bs = replicate (Z.to_nat PGSIZE) 0
  | SPTE_MMRY | SPTE_INVALID => False
  end.
(** A page that is in memory: its frame has the contents, and if it would be
    dropped without being written, the place it came from has them too. *)
Definition resident v (sm : gmap Z (list Z)) (e : entry) (w : Z) (bs : list Z) : Prop :=
  frame_bytes v w = bs /\
  match eflag e with
  | SPTE_MMRY => True
  | SPTE_FILE | SPTE_ZERO => has w PTE_D = false -> backed v sm e bs
  | SPTE_SWAP | SPTE_INVALID => False
  end.

(** [paged locked hole n v tm m sm]: the user pages of all processes have the
    contents [m] (by process and address).  [tm] is the supplemental page table,
    which can take [n] more entries, and [sm] the pages on the swap device.
    [hole] is a frame that is allocated but not yet mapped. *)
Record paged (locked : bool) (hole : option Z) (n : nat) v (tm : gmap (Z * Z) entry) (m : gmap (Z * Z) (list Z)) (sm : gmap Z (list Z)) : Prop := {
  g_coh : coherent D (ms v);
  g_dirs : forall p pd, dirs v !! p = Some pd -> pd ∈ D /\ pd <> init_page_dir;
  g_inj : forall p p' pd, dirs v !! p = Some pd -> dirs v !! p' = Some pd -> p = p';
  g_run : dirs v !! running v = Some (active (ms v));
  g_lock : ft_lock v = locked;
  g_len : Z.of_nat (length (ft v)) = cnt v;
  g_victim : 0 <= victim_idx v < cnt v;
  g_ram : pool_end (upool v) <= PHYS_BASE + PGSIZE * init_ram_pages;
  g_hole : forall i, hole = Some i -> 0 <= i < cnt v /\ uses v i = true;
  g_used : forall i, 0 <= i < cnt v -> uses v i = true -> hole <> Some i ->
    exists e pd w, ft v !! Z.to_nat i = Some e /\ f_kpage e = kaddr v i /\ dirs v !! f_pid e = Some pd /\ upage_ok (f_upage e) /\
      translate (ms v) pd (f_upage e) = Some w /\ frame_of w = kaddr v i;
  g_mapped : forall p pd va w, dirs v !! p = Some pd -> upage_ok va -> translate (ms v) pd va = Some w ->
    is_Some (m !! (p, va)) /\
    exists i e, 0 <= i < cnt v /\ uses v i = true /\ hole <> Some i /\ ft v !! Z.to_nat i = Some e /\ f_pid e = p /\ f_upage e = va /\
      frame_of w = kaddr v i;
  g_spt : spt_is n (tb v) tm;
  g_swap : swapped (sw v) sm;
  g_dom : forall k, is_Some (tm !! k) <-> is_Some (m !! k);
  g_page : forall p va e bs, tm !! (p, va) = Some e -> m !! (p, va) = Some bs ->
    upage_ok va /\ length bs = Z.to_nat PGSIZE /\
    exists pd, dirs v !! p = Some pd /\
      match translate (ms v) pd va with Some w => resident v sm e w bs | None => backed v sm e bs end;
  g_slots : forall k k' e e', tm !! k = Some e -> tm !! k' = Some e' -> eflag e = SPTE_SWAP -> eflag e' = SPTE_SWAP -> ref e = ref e' -> k = k';
  g_null : forall p pd, dirs v !! p = Some pd -> translate (ms v) pd 0 = None }.

Lemma upage_user va : upage_ok va -> user_page va.
Proof. intros (? & ? & _). split; [lia|done]. Qed.
Lemma upage_ofs va : upage_ok va -> pg_ofs va = 0 /\ va <> 0.
Proof. intros (? & _ & ?). rewrite pg_ofs_mod. lia. Qed.

Lemma kaddr_inj v i j : kaddr v i = kaddr v j -> i = j.
Proof. rewrite /kaddr /PGSIZE. lia. Qed.
(** Frames with different indices do not overlap. *)
Lemma kaddr_apart v i j : i <> j -> kaddr v i + PGSIZE <= kaddr v j \/ kaddr v j + PGSIZE <= kaddr v i.
Proof. rewrite /kaddr /PGSIZE. lia. Qed.

Lemma page_bytes_ext m m' a : (forall x, a <= x < a + PGSIZE -> m' x = m x) -> page_bytes m' a = page_bytes m a.
Proof. intros H. apply list_fmap_ext. intros i x Hx. apply lookup_seqZ in Hx as [-> Hx]. apply H. lia. Qed.
Lemma length_page_bytes m a : length (page_bytes m a) = Z.to_nat PGSIZE.
Proof. rewrite length_fmap length_seqZ //. Qed.

Section state.
Context (locked : bool) (hole : option Z) (n : nat) (v : vm T F) (tm : gmap (Z * Z) entry) (m : gmap (Z * Z) (list Z)) (sm : gmap Z (list Z)).
Context (H : paged locked hole n v tm m sm).

Lemma pool_ok : palloc_wf (pal (ms v)) /\ wf (used_map (upool v)) /\ Palloc.lock (upool v) = false /\ base (upool v) mod PGSIZE = 0 /\
  PHYS_BASE <= base (upool v) /\ pool_end (upool v) <= 2 ^ 32.
Proof using H.
  have Hw := pd_pal _ _ (c_inv _ _ (g_coh _ _ _ _ _ _ _ H)). have Hb := pd_base _ _ (c_inv _ _ (g_coh _ _ _ _ _ _ _ H)).
  destruct (wf_pool _ true Hw) as (? & ? & ? & ? & ?). simpl in *. split_and!; try done.
  destruct (wf_k _ Hw) as [[Hn _] _]. destruct Hw as [_ _ _ _ (_ & Ho & _)]. rewrite /pool_end /PGSIZE in Ho. rewrite /upool. lia.
Qed.
Lemma kaddr_ok i : 0 <= i < cnt v -> kaddr v i mod PGSIZE = 0 /\ PHYS_BASE <= kaddr v i < 2 ^ 32 /\ kaddr v i + PGSIZE <= 2 ^ 32 /\
  base (upool v) <= kaddr v i /\ (kaddr v i - PHYS_BASE) / PGSIZE < init_ram_pages.
Proof using H.
  intros Hi. destruct pool_ok as (_ & _ & _ & Ha & Hb & He). have Hr := g_ram _ _ _ _ _ _ _ H.
  rewrite /kaddr /pool_end -/(cnt v) in He, Hr |- *. split_and!.
  - by rewrite (Z.mul_comm PGSIZE) Z.mod_add.
  - rewrite /PGSIZE. lia.
  - rewrite /PGSIZE in He |- *. lia.
  - rewrite /PGSIZE in He |- *. lia.
  - rewrite /PGSIZE. lia.
  - rewrite /PGSIZE in Hr |- *. apply Z.div_lt_upper_bound; lia.
Qed.
Lemma frame_ok_kaddr i : 0 <= i < cnt v -> frame_ok init_ram_pages (kaddr v i).
Proof using H. intros Hi. destruct (kaddr_ok i Hi) as (? & ? & _ & _ & ?). by split. Qed.

(** No two pages share a frame. *)
Lemma mapped_inj p p' pd pd' va va' w w' : dirs v !! p = Some pd -> dirs v !! p' = Some pd' -> upage_ok va -> upage_ok va' ->
  translate (ms v) pd va = Some w -> translate (ms v) pd' va' = Some w' -> frame_of w = frame_of w' -> p = p' /\ va = va'.
Proof using H.
  intros Hp Hp' Hva Hva' Hw Hw' Hf. destruct (g_mapped _ _ _ _ _ _ _ H p pd va w Hp Hva Hw) as (_ & i & e & _ & _ & _ & He & <- & <- & Hi).
  destruct (g_mapped _ _ _ _ _ _ _ H p' pd' va' w' Hp' Hva' Hw') as (_ & j & e' & _ & _ & _ & He' & <- & <- & Hj).
  have Hij : i = j by apply (kaddr_inj v); congruence. subst j. by have -> : e' = e by congruence.
Qed.
End state.

(** ** Changes of the page tables that map nothing anew

    Frames, dirty flags and contents stay; only accessed flags are lost. *)
Lemma paged_tables locked hole n v tm m sm s' : paged locked hole n v tm m sm ->
  tables_only (ms v) s' -> coherent D s' -> active s' = active (ms v) ->
  (forall pd va, pd ∈ D -> user_page va ->
     (translate (ms v) pd va = None /\ translate s' pd va = None) \/
     exists w w', translate (ms v) pd va = Some w /\ translate s' pd va = Some w' /\ frame_of w' = frame_of w /\
       (has w' PTE_D = false -> has w PTE_D = false)) ->
  paged locked hole n (set_ms v s') tm m sm.
Proof.
  intros H [Hu _ _ Hm] Hc Ha Ht. have Hcnt : cnt (set_ms v s') = cnt v by rewrite /cnt /upool /= Hu.
  have Hk : forall i, kaddr (set_ms v s') i = kaddr v i by intros; rewrite /kaddr /upool /= Hu.
  have Hus : forall i, uses (set_ms v s') i = uses v i by intros; rewrite /uses /used /= Hu.
  have HD := g_dirs _ _ _ _ _ _ _ H. split; simpl; try apply H; rewrite ?Hcnt; try apply H; [done|..].
  - rewrite Ha. apply H.
  - rewrite /upool /= Hu. apply H.
  - intros i Hi. rewrite Hus. by apply (g_hole _ _ _ _ _ _ _ H).
  - intros i Hi. rewrite Hus Hk. intros Hui Hh. destruct (g_used _ _ _ _ _ _ _ H i Hi Hui Hh) as (e & pd & w & He & Hke & Hd & Hup & Hw & Hf).
    exists e, pd. destruct (Ht pd (f_upage e) (proj1 (HD _ _ Hd)) (upage_user _ Hup)) as [[? _]|(w1 & w' & Hw1 & Hw' & Hff & _)]; [congruence|].
    exists w'. split_and!; try done. congruence.
  - intros p pd va w' Hp Hva Hw'. destruct (Ht pd va (proj1 (HD _ _ Hp)) (upage_user _ Hva)) as [[_ ?]|(w & w2 & Hw & Hw2 & Hff & _)]; [congruence|].
    destruct (g_mapped _ _ _ _ _ _ _ H p pd va w Hp Hva Hw) as (? & i & e & ?). split; [done|]. exists i, e. rewrite Hus Hk.
    have -> : w' = w2 by congruence. by rewrite Hff.
  - intros p va e bs He Hbs. destruct (g_page _ _ _ _ _ _ _ H p va e bs He Hbs) as (Hva & Hl & pd & Hp & Hpg). split_and!; [done|done|].
    exists pd. split; [done|]. destruct (Ht pd va (proj1 (HD _ _ Hp)) (upage_user _ Hva)) as [[E1 E2]|(w & w' & E1 & E2 & Hff & Hd)]; rewrite E1 in Hpg; rewrite E2 //.
    destruct Hpg as [Hb Hr]. split.
    + rewrite -Hb /frame_bytes Hff. apply page_bytes_ext. intros x Hx. apply Hm.
      destruct (g_mapped _ _ _ _ _ _ _ H p pd va w Hp Hva E1) as (_ & i & _ & Hi & _ & _ & _ & _ & _ & Hwi).
      destruct (kaddr_ok _ _ _ _ _ _ _ H i Hi) as (_ & _ & _ & Hbi & _). rewrite /upool in Hbi. lia.
    + destruct (eflag e); try done; intros Hd'; apply Hr; auto.
  - intros p pd Hp. have Hn := g_null _ _ _ _ _ _ _ H p pd Hp. destruct (Ht pd 0 (proj1 (HD _ _ Hp))) as [[_ ?]|(w & w' & ? & _)]; [done|done|congruence].
Qed.

(** ** Changes of a frame that is not mapped *)
Lemma paged_hole locked hole n v tm m sm i (b : bool) s' : paged locked hole n v tm m sm ->
  0 <= i < cnt v -> (hole = None /\ uses v i = false) \/ hole = Some i ->
  palloc_wf (pal s') -> kernel_pool (pal s') = kernel_pool (pal (ms v)) -> cr3 s' = cr3 (ms v) -> tlb s' = tlb (ms v) ->
  base (user_pool (pal s')) = base (upool v) -> bit_cnt (used_map (user_pool (pal s'))) = cnt v ->
  (forall j, 0 <= j -> used (pal s') true j = if j =? i then b else uses v j) ->
  (forall a, a < kaddr v i \/ kaddr v i + PGSIZE <= a -> mem (pal s') a = mem (pal (ms v)) a) ->
  paged locked (if b then Some i else None) n (set_ms v s') tm m sm.
Proof.
  intros H Hi Hh Hwf Hkp Hcr Htl Hb Hbc Huse Hmem. have Hcoh := g_coh _ _ _ _ _ _ _ H. have Hinv := c_inv _ _ Hcoh.
  destruct (kaddr_ok _ _ _ _ _ _ _ H i Hi) as (_ & _ & _ & Hbi & _).
  have Hmu : forall a, a < base (user_pool (pal (ms v))) -> mem (pal s') a = mem (pal (ms v)) a.
  { intros a Ha. apply Hmem. rewrite /upool in Hbi. lia. }
  have Htr : forall pd va, pd ∈ D -> user_page va -> translate s' pd va = translate (ms v) pd va.
  { intros. by apply (frames_translate D). }
  have HD := g_dirs _ _ _ _ _ _ _ H.
  have Hcnt : cnt (set_ms v s') = cnt v by rewrite /cnt /upool /= Hbc.
  have Hk : forall j, kaddr (set_ms v s') j = kaddr v j by intros; rewrite /kaddr /upool /= Hb.
  have Hho : forall j, uses v j = true -> hole <> Some j -> j <> i. { intros j Hj Hne ->. destruct Hh as [[_ ?]|?]; congruence. }
  have Hnew : forall j, 0 <= j < cnt v -> uses (set_ms v s') j = true -> (if b then Some i else None) <> Some j -> j <> i /\ uses v j = true /\ hole <> Some j.
  { intros j Hj. rewrite {1}/uses /= Huse; [lia|]. destruct (Z.eqb_spec j i) as [->|Hne]; [destruct b; congruence|].
    intros ? _. split_and!; [done|done|]. destruct Hh as [[-> _] | ->]; congruence. }
  split; simpl; try apply H; rewrite ?Hcnt; try apply H.
  - by apply (coherent_frames D (ms v)).
  - rewrite /active Hcr. apply H.
  - rewrite /pool_end /upool /= Hb Hbc. apply H.
  - intros j. destruct b; [|done]. intros [= <-]. split; [done|]. rewrite /uses /= Huse ?Z.eqb_refl //. lia.
  - intros j Hj Hu Hne. destruct (Hnew j Hj Hu Hne) as (Hji & Huj & Hhj).
    destruct (g_used _ _ _ _ _ _ _ H j Hj Huj Hhj) as (e & pd & w & He & Hke & Hd & Hup & Hw & Hf).
    exists e, pd, w. rewrite Hk Htr //; [by apply (HD _ _ Hd)|by apply upage_user].
  - intros p pd va w Hp Hva. rewrite Htr; [by apply (HD _ _ Hp)|by apply upage_user|]. intros Hw.
    destruct (g_mapped _ _ _ _ _ _ _ H p pd va w Hp Hva Hw) as (? & j & e & Hj & Huj & Hhj & ?). split; [done|]. exists j, e.
    have Hji := Hho j Huj Hhj. rewrite Hk. split_and!; try tauto.
    + rewrite /uses /= Huse; [lia|]. by rewrite (proj2 (Z.eqb_neq _ _) Hji).
    + destruct b; congruence.
  - intros p va e bs He Hbs. destruct (g_page _ _ _ _ _ _ _ H p va e bs He Hbs) as (Hva & Hl & pd & Hp & Hpg). split_and!; [done|done|].
    exists pd. split; [done|]. rewrite Htr; [by apply (HD _ _ Hp)|by apply upage_user|]. destruct (translate (ms v) pd va) as [w|] eqn:E1; [|done].
    destruct Hpg as [Hbb Hr]. split; [|done]. rewrite -Hbb /frame_bytes. apply page_bytes_ext. intros x Hx. apply Hmem.
    destruct (g_mapped _ _ _ _ _ _ _ H p pd va w Hp Hva E1) as (_ & j & _ & Hj & Huj & Hhj & _ & _ & _ & Hwj).
    have := kaddr_apart v i j (not_eq_sym (Hho j Huj Hhj)). lia.
  - intros p pd Hp. rewrite Htr; [by apply (HD _ _ Hp)|done|]. by apply (g_null _ _ _ _ _ _ _ H p).
Qed.

(** ** The clock *)
Lemma pagedir_is_ok f s pd va w : pd_inv D s -> pd ∈ D -> user_page va -> translate s pd va = Some w -> pagedir_is f s pd va = Ok (has w f).
Proof.
  intros H Hpd [Hva Hu]. rewrite /translate /pagedir_is (lookup_page_ok D s H) //. destruct (table s pd (pd_no va)) as [pt|]; [|done].
  simpl. destruct (has _ PTE_P); [|done]. by intros [= <-].
Qed.
Lemma upage_same va va' : upage_ok va -> upage_ok va' -> pg_no va = pg_no va' -> va = va'.
Proof. intros (_ & _ & H) (_ & _ & H'). rewrite !pg_no_div. rewrite /PGSIZE in H, H' |- *. dlia. Qed.

(** What the clock leaves alone. *)
Record unchanged v v' : Prop := {
  un_sw : sw v' = sw v; un_tb : tb v' = tb v; un_fl : fl v' = fl v; un_ft : ft v' = ft v; un_lock : ft_lock v' = ft_lock v;
  un_dirs : dirs v' = dirs v; un_running : running v' = running v; un_pool : upool v' = upool v;
  un_mem : forall a, base (upool v) <= a -> mem (pal (ms v')) a = mem (pal (ms v)) a;
  un_none : forall pd va, pd ∈ D -> user_page va -> translate (ms v) pd va = None -> translate (ms v') pd va = None }.
#[local] Instance unchanged_preorder : PreOrder unchanged.
Proof.
  split; [by split|]. intros v1 v2 v3 [? ? ? ? ? ? ? ? Hm Hn] [? ? ? ? ? ? ? ? Hm' Hn']. split; [congruence..| |auto].
  intros a Ha. rewrite Hm' ?Hm //. congruence.
Qed.

(** Has the page of a frame been used? *)
Definition used_lately v (e : fte) : bool :=
  match dirs v !! f_pid e with
  | Some pd => match translate (ms v) pd (f_upage e) with Some w => has w PTE_A | None => false end
  | None => false
  end.
(** Passes until the clock stops at frame [j], if nothing stops it earlier. *)
Definition hand v (j : Z) : Z := if victim_idx v <=? j then j - victim_idx v else j - victim_idx v + cnt v.
Definition passes v (j : Z) (e : fte) : Z := hand v j + (if used_lately v e then cnt v else 0) + 1.

Lemma advance_ok locked hole n v tm m sm : paged locked hole n v tm m sm -> paged locked hole n (advance v) tm m sm /\ unchanged v (advance v).
Proof.
  intros H. split; [|by split]. have Hv := g_victim _ _ _ _ _ _ _ H.
  destruct H. split; try done. change (cnt (advance v)) with (cnt v). rewrite /advance -/(cnt v).
  destruct (Z.eqb_spec (victim_idx v) (cnt v - 1)); simpl; lia.
Qed.
Lemma hand_advance v j : 0 <= victim_idx v < cnt v -> 0 <= j < cnt v ->
  hand (advance v) j = if j =? victim_idx v then cnt v - 1 else hand v j - 1.
Proof.
  intros Hv Hj. rewrite /hand. change (cnt (advance v)) with (cnt v). rewrite /advance /= -/(cnt v).
  destruct (Z.eqb_spec (victim_idx v) (cnt v - 1)), (Z.eqb_spec j (victim_idx v)); zbool; lia.
Qed.

(** Clearing the accessed flag of a page. *)
Lemma forget_ok locked hole n v tm m sm p pd va w : paged locked hole n v tm m sm -> dirs v !! p = Some pd -> upage_ok va ->
  translate (ms v) pd va = Some w ->
  exists s', pagedir_set_accessed init_page_dir (ms v) pd va false = Ok s' /\ paged locked hole n (set_ms v s') tm m sm /\ unchanged v (set_ms v s') /\
    forall e, upage_ok (f_upage e) -> is_Some (dirs v !! f_pid e) ->
      used_lately (set_ms v s') e = if bool_decide (f_pid e = p /\ f_upage e = va) then false else used_lately v e.
Proof.
  intros H Hp Hva Hw. destruct (g_dirs _ _ _ _ _ _ _ H p pd Hp) as [Hpd _]. have Hcoh := g_coh _ _ _ _ _ _ _ H.
  destruct (pagedir_set_ok init_page_dir D PTE_A (ms v) pd va false Hcoh Hpd (upage_user _ Hva) (or_introl eq_refl)) as (s' & E & Hc & Ha & Ht).
  have Hto := pagedir_set_tables init_page_dir D PTE_A _ _ _ _ _ (c_inv _ _ Hcoh) Hpd (upage_user _ Hva) E.
  exists s'. split; [done|]. split; [|split].
  - apply (paged_tables _ _ _ _ _ _ _ _ H); [done..|]. intros pd' va' Hpd' Hva'. rewrite Ht //.
    destruct (translate (ms v) pd' va') as [w'|]; [right|by left]. simpl. eexists _, _. split; [done|]. split; [done|].
    destruct (bool_decide _); [|done]. rewrite /frame_of addr_ldiff // ldiff_D andb_true_r. done.
  - split; try done; [apply Hto|apply (to_mem _ _ Hto)|]. intros pd' va' Hpd' Hva' Hn. by rewrite Ht // Hn.
  - intros e He [pd' Hpd']. rewrite /used_lately /= Hpd' Ht; [by apply (g_dirs _ _ _ _ _ _ _ H _ _ Hpd')|by apply upage_user|].
    destruct (translate (ms v) pd' (f_upage e)) as [w'|]; simpl; [|by case_bool_decide].
    have -> : bool_decide (pd' = pd /\ pg_no (f_upage e) = pg_no va) = bool_decide (f_pid e = p /\ f_upage e = va).
    { apply bool_decide_ext. split.
      - intros [-> Hpg]. split; [by apply (g_inj _ _ _ _ _ _ _ H _ _ pd)|]. by apply upage_same.
      - intros [<- ->]. split; [congruence|done]. }
    case_bool_decide; [|done]. by rewrite ldiff_A andb_false_r.
Qed.

(** The clock with [k] passes left, when all frames are in use: it stops at a
    frame that is not pinned, or has not had the passes to find one. *)
Lemma clock_ok k n v tm m sm : paged true None n v tm m sm -> (forall i, 0 <= i < cnt v -> uses v i = true) ->
  exists r v', clock init_page_dir k v = Ok (r, v') /\ paged true None n v' tm m sm /\ unchanged v v' /\
    match r with
    | Some e => ft v !! Z.to_nat (victim_idx v') = Some e /\ pinned e = false
    | None => forall j e, 0 <= j < cnt v -> ft v !! Z.to_nat j = Some e -> pinned e = false -> Z.of_nat k < passes v j e
    end.
Proof.
  revert v. induction k as [|k IH]; intros v H Hall; simpl.
  { exists None, v. split_and!; [done|done|done|]. intros j e Hj _ _. have Hv := g_victim _ _ _ _ _ _ _ H. rewrite /passes /hand.
    destruct (used_lately v e); zbool; lia. }
  have Hv := g_victim _ _ _ _ _ _ _ H.
  destruct (g_used _ _ _ _ _ _ _ H _ Hv (Hall _ Hv)) as (e & pd & w & He & Hke & Hd & Hup & Hw & Hf); [done|].
  destruct (g_dirs _ _ _ _ _ _ _ H _ _ Hd) as [Hpd _].
  rewrite He. cbn [oget obind]. rewrite Hd. cbn [oget obind].
  rewrite /pagedir_is_accessed (pagedir_is_ok _ _ _ _ w (c_inv _ _ (g_coh _ _ _ _ _ _ _ H)) Hpd (upage_user _ Hup) Hw). cbn [obind].
  have Hul : used_lately v e = has w PTE_A by rewrite /used_lately Hd Hw.
  (* no other frame has the page of this one *)
  have Huniq : forall j ej, 0 <= j < cnt v -> ft v !! Z.to_nat j = Some ej -> j <> victim_idx v ->
    upage_ok (f_upage ej) /\ is_Some (dirs v !! f_pid ej) /\ ~ (f_pid ej = f_pid e /\ f_upage ej = f_upage e).
  { intros j ej Hj Hej Hne. destruct (g_used _ _ _ _ _ _ _ H _ Hj (Hall _ Hj)) as (e' & pd' & w' & He' & _ & Hd' & Hup' & Hw' & Hf'); [done|].
    have ? : e' = ej by congruence. subst e'. split_and!; [done|by eauto|]. intros [Hp1 Hp2]. apply Hne, (kaddr_inj v).
    rewrite -Hf' -Hf. rewrite Hp1 in Hd'. have ? : pd' = pd by congruence. subst pd'. rewrite Hp2 in Hw'. congruence. }
  destruct (has w PTE_A) eqn:HA.
  - destruct (forget_ok _ _ _ _ _ _ _ _ _ _ w H Hd Hup Hw) as (s' & E & H1 & Hun1 & Hul1). rewrite E. cbn [obind].
    destruct (advance_ok _ _ _ _ _ _ _ H1) as [H2 Hun2]. have Hun : unchanged v (advance (set_ms v s')) by etrans.
    have Hcnt : cnt (advance (set_ms v s')) = cnt v by rewrite /cnt (un_pool _ _ Hun).
    destruct (IH _ H2) as (r & v' & E' & H' & Hun' & Hr).
    { intros i. rewrite Hcnt. intros Hi. have := Hall i Hi. rewrite /uses /used /=. have := un_pool _ _ Hun1. rewrite /upool /=. by intros ->. }
    exists r, v'. split_and!; [done|done|by etrans|]. rewrite (un_ft _ _ Hun) Hcnt in Hr. destruct r as [r|]; [done|].
    intros j ej Hj Hej Hpin. have Hlt := Hr j ej Hj Hej Hpin. move: Hlt. rewrite /passes Hcnt.
    have Hh := hand_advance (set_ms v s') j. have Hc1 : cnt (set_ms v s') = cnt v by rewrite /cnt (un_pool _ _ Hun1).
    rewrite Hc1 in Hh. rewrite Hh //. change (victim_idx (set_ms v s')) with (victim_idx v).
    change (used_lately (advance (set_ms v s')) ej) with (used_lately (set_ms v s') ej).
    have Hhv : hand (set_ms v s') j = hand v j by rewrite /hand Hc1. rewrite Hhv.
    destruct (Z.eqb_spec j (victim_idx v)) as [->|Hne].
    + have ? : ej = e by congruence. subst ej. rewrite (Hul1 e Hup (mk_is_Some _ _ Hd)) bool_decide_eq_true_2 // Hul.
      rewrite /hand. destruct (Z.leb_spec (victim_idx v) (victim_idx v)); lia.
    + destruct (Huniq j ej Hj Hej Hne) as (Hu1 & Hu2 & Hu3). rewrite Hul1 // bool_decide_eq_false_2 //. lia.
  - destruct (pinned e) eqn:Hpin; simpl; last first. { exists (Some e), v. by split_and!. }
    destruct (advance_ok _ _ _ _ _ _ _ H) as [H2 Hun]. have Hcnt : cnt (advance v) = cnt v by done.
    destruct (IH _ H2) as (r & v' & E' & H' & Hun' & Hr); [done|].
    exists r, v'. split_and!; [done|done|by etrans|]. destruct r as [r|]; [done|].
    intros j ej Hj Hej Hpj. have Hlt := Hr j ej Hj Hej Hpj. move: Hlt. rewrite /passes Hcnt hand_advance //.
    change (used_lately (advance v) ej) with (used_lately v ej). destruct (Z.eqb_spec j (victim_idx v)) as [->|Hne]; [congruence|lia].
Qed.

(** ** Eviction *)
Lemma backed_mono v v' sm sm' e bs : fl v' = fl v -> sm ⊆ sm' -> backed v sm e bs -> backed v' sm' e bs.
Proof. intros Hf Hs. rewrite /backed Hf. destruct (eflag e); try done. intros ?. by eapply lookup_weaken. Qed.

Lemma paged_tb locked hole n n' v tm m sm t' : paged locked hole n v tm m sm -> spt_is n' t' tm -> paged locked hole n' (set_tb v t') tm m sm.
Proof. intros [] Ht. by split. Qed.

(** Taking a page away from its frame, once its contents are in the place that
    the new entry [x'] names. *)
Lemma unmap_ok n n' v tm m sm i e x' bs sw' tb' sm' : paged true None n v tm m sm -> 0 <= i < cnt v -> uses v i = true ->
  ft v !! Z.to_nat i = Some e -> m !! (f_pid e, f_upage e) = Some bs ->
  swapped sw' sm' -> spt_is n' tb' (<[(f_pid e, f_upage e) := x']> tm) -> sm ⊆ sm' -> backed v sm' x' bs ->
  (eflag x' = SPTE_SWAP -> forall k y, tm !! k = Some y -> eflag y = SPTE_SWAP -> k <> (f_pid e, f_upage e) -> ref y <> ref x') ->
  exists pd s', dirs v !! f_pid e = Some pd /\ pagedir_clear_page init_page_dir (ms v) pd (f_upage e) = Ok s' /\ tables_only (ms v) s' /\
    (forall pd' va', pd' ∈ D -> user_page va' -> translate (ms v) pd' va' = None -> translate s' pd' va' = None) /\
    paged true (Some i) n' (set_ms (set_tb (set_sw v sw') tb') s') (<[(f_pid e, f_upage e) := x']> tm) m sm'.
Proof.
  intros H Hi Hui He Hbs Hsw Hspt Hsub Hbk Hdis.
  destruct (g_used _ _ _ _ _ _ _ H i Hi Hui) as (e' & pd & w & He' & _ & Hd & Hup & Hw & Hf); [done|]. have ? : e' = e by congruence. subst e'.
  destruct (g_dirs _ _ _ _ _ _ _ H _ _ Hd) as [Hpd _]. have Hcoh := g_coh _ _ _ _ _ _ _ H. have HD := g_dirs _ _ _ _ _ _ _ H.
  destruct (clear_page_ok init_page_dir D (ms v) pd (f_upage e) Hcoh Hpd (upage_user _ Hup)) as (s' & E & Hc & Ha & Ht); [apply Hup|].
  have Hto := clear_page_tables init_page_dir D _ _ _ _ (c_inv _ _ Hcoh) Hpd (upage_user _ Hup) E.
  exists pd, s'. split; [done|]. split; [done|]. split; [done|]. split.
  { intros pd' va' Hpd' Hva' Hn. rewrite Ht // Hn. by case_bool_decide. }
  destruct Hto as [Hu _ _ Hm].
  have Hthis : forall p pd' va, dirs v !! p = Some pd' -> upage_ok va ->
    translate s' pd' va = if bool_decide ((p, va) = (f_pid e, f_upage e)) then None else translate (ms v) pd' va.
  { intros p pd' va Hp Hva. rewrite Ht; [by apply (HD _ _ Hp)|by apply upage_user|].
    have -> : bool_decide (pd' = pd /\ pg_no va = pg_no (f_upage e)) = bool_decide ((p, va) = (f_pid e, f_upage e)); [|done].
    apply bool_decide_ext. split.
    - intros [-> Hpg]. f_equal; [by apply (g_inj _ _ _ _ _ _ _ H _ _ pd)|by apply upage_same].
    - intros [= -> ->]. split; [congruence|done]. }
  set (v' := set_ms (set_tb (set_sw v sw') tb') s').
  have Hcnt : cnt v' = cnt v by rewrite /cnt /upool /= Hu.
  have Hk : forall j, kaddr v' j = kaddr v j by intros; rewrite /kaddr /upool /= Hu.
  have Hus : forall j, uses v' j = uses v j by intros; rewrite /uses /used /= Hu.
  have Hne : forall j ej, 0 <= j < cnt v -> ft v !! Z.to_nat j = Some ej -> j <> i ->
    uses v j = true -> (f_pid ej, f_upage ej) <> (f_pid e, f_upage e).
  { intros j ej Hj Hej Hji Huj [= Hp1 Hp2]. destruct (g_used _ _ _ _ _ _ _ H j Hj Huj) as (e' & pd' & w' & He2 & _ & Hd' & _ & Hw' & Hf'); [done|].
    have ? : e' = ej by congruence. subst e'. apply Hji, (kaddr_inj v). rewrite -Hf' -Hf. rewrite Hp1 Hd in Hd'. injection Hd' as <-. rewrite Hp2 in Hw'. congruence. }
  split; simpl; try apply H; rewrite ?Hcnt; try apply H; try done.
  - rewrite Ha. apply H.
  - rewrite /upool /= Hu. apply H.
  - intros j [= <-]. by rewrite Hus.
  - intros j Hj. rewrite Hus. intros Huj Hji. destruct (g_used _ _ _ _ _ _ _ H j Hj Huj) as (ej & pdj & wj & Hej & Hkj & Hdj & Hupj & Hwj & Hfj); [done|].
    exists ej, pdj, wj. rewrite Hk (Hthis (f_pid ej)) // bool_decide_eq_false_2 //. apply (Hne j); [done|done|congruence|done].
  - intros p pd' va w' Hp Hva. rewrite (Hthis p) //. case_bool_decide as Hb; [done|]. intros Hw'.
    destruct (g_mapped _ _ _ _ _ _ _ H p pd' va w' Hp Hva Hw') as (? & j & ej & Hj & Huj & _ & Hej & Hp1 & Hp2 & Hfj). split; [done|].
    exists j, ej. rewrite Hus Hk. split_and!; try done; [lia..|]. intros [= ->]. have ? : ej = e by congruence. subst ej. congruence.
  - intros k. destruct (decide (k = (f_pid e, f_upage e))) as [->|Hk']; [rewrite lookup_insert_eq Hbs; split; eauto|rewrite lookup_insert_ne //; apply H].
  - intros p va y bs' Hy Hbs'. destruct (decide ((p, va) = (f_pid e, f_upage e))) as [Heq|Hneq].
    + rewrite Heq lookup_insert_eq in Hy. injection Hy as <-. injection Heq as -> ->. have ? : bs' = bs by congruence. subst bs'.
      destruct (proj2 (g_dom _ _ _ _ _ _ _ H (f_pid e, f_upage e))) as [y Hy]; [eauto|].
      destruct (g_page _ _ _ _ _ _ _ H _ _ _ _ Hy Hbs) as (_ & Hl & _). split_and!; [done|done|]. exists pd. split; [done|].
      by rewrite (Hthis (f_pid e)) // bool_decide_eq_true_2.
    + rewrite lookup_insert_ne // in Hy. destruct (g_page _ _ _ _ _ _ _ H _ _ _ _ Hy Hbs') as (Hva & Hl & pd' & Hp & Hpg). split_and!; [done|done|].
      exists pd'. split; [done|]. rewrite (Hthis p) // bool_decide_eq_false_2 //. destruct (translate (ms v) pd' va) as [w'|] eqn:Hw'.
      * destruct Hpg as [Hb Hr]. split.
        -- rewrite -Hb /frame_bytes. apply page_bytes_ext. intros a Hra. apply Hm.
           destruct (g_mapped _ _ _ _ _ _ _ H p pd' va w' Hp Hva Hw') as (_ & j & _ & Hj & _ & _ & _ & _ & _ & Hwj).
           destruct (kaddr_ok _ _ _ _ _ _ _ H j Hj) as (_ & _ & _ & Hbj & _). rewrite /upool in Hbj. lia.
        -- destruct (eflag y); try done; intros Hdd; apply (backed_mono v _ sm); auto.
      * by apply (backed_mono v _ sm).
  - intros k k' y y' Hy Hy' Hs Hs' Hr. destruct (decide (k = (f_pid e, f_upage e))) as [->|Hkn], (decide (k' = (f_pid e, f_upage e))) as [->|Hkn'].
    + done.
    + rewrite lookup_insert_eq in Hy. injection Hy as <-. rewrite lookup_insert_ne // in Hy'. exfalso. by apply (Hdis Hs k' y').
    + rewrite lookup_insert_eq in Hy'. injection Hy' as <-. rewrite lookup_insert_ne // in Hy. exfalso. by apply (Hdis Hs' k y).
    + rewrite lookup_insert_ne // in Hy. rewrite lookup_insert_ne // in Hy'. by apply (g_slots _ _ _ _ _ _ _ H k k' y y').
  - intros p pd' Hp. rewrite Ht; [by apply (HD _ _ Hp)|done|]. rewrite (g_null _ _ _ _ _ _ _ H p pd' Hp). by case_bool_decide.
Qed.

Lemma paged_mono locked hole n v tm m sm : paged locked hole (S n) v tm m sm -> paged locked hole n v tm m sm.
Proof. intros []. split; try done. by apply spt_mono. Qed.
Lemma paged_le locked hole n n' v tm m sm : (n <= n')%nat -> paged locked hole n' v tm m sm -> paged locked hole n v tm m sm.
Proof. intros Hn. induction Hn as [|n' Hn IH]; [done|]. intros H. apply IH. by apply paged_mono. Qed.

(** There is no room on the swap device for another page. *)
Definition swap_full (x : swap) : Prop := exists page, length page = Z.to_nat PGSIZE /\ swap_out x page = Ok (0, x).

Lemma evict_to_swap_ok n v tm m sm e bs w : paged true None (S n) v tm m sm -> upage_ok (f_upage e) ->
  page_bytes (mem (pal (ms v))) (f_kpage e) = bs -> length bs = Z.to_nat PGSIZE ->
  (evict_to_swap v e w = Err Panic /\ swap_full (sw v)) \/
  exists slot pos x t', evict_to_swap v e w = Ok (set_tb (set_sw v x) t') /\ sm !! slot = None /\ swapped x (<[slot := bs]> sm) /\
    spt_is n t' (<[(f_pid e, f_upage e) := mk_entry slot pos SPTE_SWAP w]> tm).
Proof.
  intros H Hup Hbs Hl. rewrite /evict_to_swap Hbs. destruct (swap_out_spec (sw v) sm bs (g_swap _ _ _ _ _ _ _ H) Hl) as (slot & x & E & Hcase).
  rewrite E. cbn [obind]. destruct Hcase as [[-> ->]|(Hs0 & Hn & Hx)].
  { left. rewrite Z.eqb_refl. split; [done|]. by exists bs. }
  right. rewrite (proj2 (Z.eqb_neq _ _) Hs0). destruct (upage_ofs _ Hup) as [Ho H0].
  destruct (spt_set_law n (tb v) tm (f_pid e) (f_upage e) slot SPTE_SWAP w (g_spt _ _ _ _ _ _ _ H) Ho H0) as (t' & pos & E' & Ht'); [done|].
  rewrite E'. cbn [obind]. exists slot, pos, x, t'. by split_and!.
Qed.

(** [evict] takes the page of frame [i] away, keeping its contents, or panics
    because the swap device is full. *)
Lemma evict_ok n v tm m sm i e : paged true None (S n) v tm m sm -> 0 <= i < cnt v -> uses v i = true -> ft v !! Z.to_nat i = Some e ->
  (evict init_page_dir v e = Err Panic /\ swap_full (sw v)) \/
  exists s' x t' tm' sm', evict init_page_dir v e = Ok (set_ms (set_tb (set_sw v x) t') s') /\
    paged true (Some i) n (set_ms (set_tb (set_sw v x) t') s') tm' m sm' /\ tables_only (ms v) s' /\
    (forall pd va, pd ∈ D -> user_page va -> translate (ms v) pd va = None -> translate s' pd va = None) /\
    (forall k, k <> (f_pid e, f_upage e) -> tm' !! k = tm !! k).
Proof.
  intros H Hi Hui He.
  destruct (g_used _ _ _ _ _ _ _ H i Hi Hui) as (e' & pd & w & He' & Hke & Hd & Hup & Hw & Hf); [done|]. have ? : e' = e by congruence. subst e'.
  destruct (g_dirs _ _ _ _ _ _ _ H _ _ Hd) as [Hpd _]. have Hinv := c_inv _ _ (g_coh _ _ _ _ _ _ _ H). destruct (upage_ofs _ Hup) as [Ho H0].
  destruct (g_mapped _ _ _ _ _ _ _ H _ _ _ _ Hd Hup Hw) as ([bs Hbs] & _).
  destruct (proj2 (g_dom _ _ _ _ _ _ _ H _) (mk_is_Some _ _ Hbs)) as [x Hx].
  destruct (g_page _ _ _ _ _ _ _ H _ _ _ _ Hx Hbs) as (_ & Hl & pd' & Hd' & Hpg). have ? : pd' = pd by congruence. subst pd'.
  rewrite Hw in Hpg. destruct Hpg as [Hfb Hres]. rewrite /frame_bytes Hf -Hke in Hfb.
  destruct (spt_flag_law n (tb v) tm (f_pid e) (f_upage e) (g_spt _ _ _ _ _ _ _ H) Ho) as (t1 & E1 & H1). rewrite Hx /= in E1.
  destruct (spt_writable_law n t1 tm (f_pid e) (f_upage e) H1 Ho) as (t2 & E2 & H2). rewrite Hx /= in E2.
  have Hg := paged_tb _ _ _ _ _ _ _ _ _ H H2.
  rewrite /evict E1. cbn [obind]. rewrite E2. cbn [obind]. rewrite {1}/set_tb. cbn [dirs]. rewrite Hd. cbn [oget obind].
  have Hout : (evict_to_swap (set_tb v t2) e (writable x) = Err Panic /\ swap_full (sw v)) \/
    exists s' sw' t' tm' sm', (let! v := evict_to_swap (set_tb v t2) e (writable x) in
       let! s := pagedir_clear_page init_page_dir (ms v) pd (f_upage e) in Ok (set_ms v s)) = Ok (set_ms (set_tb (set_sw v sw') t') s') /\
      paged true (Some i) n (set_ms (set_tb (set_sw v sw') t') s') tm' m sm' /\ tables_only (ms v) s' /\
      (forall pd va, pd ∈ D -> user_page va -> translate (ms v) pd va = None -> translate s' pd va = None) /\
      (forall k, k <> (f_pid e, f_upage e) -> tm' !! k = tm !! k).
  { destruct (evict_to_swap_ok _ _ _ _ _ e bs (writable x) Hg Hup Hfb Hl) as [?|(slot & pos & sw' & t' & E3 & Hn & Hsw & Ht')]; [by left|right].
    destruct (unmap_ok _ n _ tm m sm i e (mk_entry slot pos SPTE_SWAP (writable x)) bs sw' t' (<[slot := bs]> sm) Hg Hi Hui He Hbs Hsw Ht')
      as (pd2 & s' & Hd2 & E4 & Hto & Hnone & Hp); [by apply insert_subseteq|by rewrite /backed /= lookup_insert_eq| |].
    { intros _ k y Hy Hys Hk Hr. simpl in Hr. destruct k as [p va].
      destruct (proj1 (g_dom _ _ _ _ _ _ _ H _) (mk_is_Some _ _ Hy)) as [bs' Hbs'].
      destruct (g_page _ _ _ _ _ _ _ H _ _ _ _ Hy Hbs') as (_ & _ & pd3 & _ & Hpg3).
      destruct (translate (ms v) pd3 va) as [w2|]; [destruct Hpg3 as [_ Hr2]; by rewrite Hys in Hr2|]. rewrite /backed Hys Hr Hn in Hpg3. done. }
    have ? : pd2 = pd by simpl in Hd2; congruence. subst pd2. simpl in E4. exists s', sw', t'. eexists _, (<[slot := bs]> sm). rewrite E3. cbn [obind]. simpl ms. rewrite E4.
    split_and!; [done|exact Hp|done|done|]. intros k Hk. by rewrite lookup_insert_ne. }
  have Hclean : has w PTE_D = false -> (eflag x = SPTE_FILE \/ eflag x = SPTE_ZERO) -> exists s' tm' sm',
    (let! s := pagedir_clear_page init_page_dir (ms v) pd (f_upage e) in Ok (set_ms (set_tb v t2) s)) = Ok (set_ms (set_tb (set_sw v (sw v)) t2) s') /\
    paged true (Some i) n (set_ms (set_tb (set_sw v (sw v)) t2) s') tm' m sm' /\ tables_only (ms v) s' /\
    (forall pd va, pd ∈ D -> user_page va -> translate (ms v) pd va = None -> translate s' pd va = None) /\
    (forall k, k <> (f_pid e, f_upage e) -> tm' !! k = tm !! k).
  { intros Hdirty Hfl. destruct (unmap_ok _ n _ tm m sm i e x bs (sw v) t2 sm (paged_mono _ _ _ _ _ _ _ Hg) Hi Hui He Hbs) as (pd2 & s' & Hd2 & E4 & Hto & Hnone & Hp);
      [apply H|rewrite insert_id //; by apply spt_mono|done|by destruct Hfl as [Hfl|Hfl]; rewrite Hfl in Hres; apply Hres|
       by intros Hs; destruct Hfl; congruence|].
    have ? : pd2 = pd by simpl in Hd2; congruence. subst pd2. simpl in E4. rewrite E4. exists s'. eexists _, sm. split_and!; [done|exact Hp|done|done|]. intros k Hk. by rewrite lookup_insert_ne. }
  have Hdirt : pagedir_is_dirty (ms (set_tb v t2)) pd (f_upage e) = Ok (has w PTE_D).
  { rewrite /pagedir_is_dirty. by apply pagedir_is_ok; [| |apply upage_user|]. }
  destruct (eflag x) eqn:Hfl; try done.
  - destruct Hout as [[-> ?]|(s' & x' & t' & tm' & sm' & ?)]; [by left|right; by exists s', x', t', tm', sm'].
  - rewrite Hdirt. cbn [obind]. destruct (has w PTE_D).
    + destruct Hout as [[-> ?]|(s' & x' & t' & tm' & sm' & ?)]; [by left|right; by exists s', x', t', tm', sm'].
    + destruct (Hclean eq_refl (or_introl eq_refl)) as (s' & tm' & sm' & ?). right. by exists s', (sw v), t2, tm', sm'.
  - rewrite Hdirt. cbn [obind]. destruct (has w PTE_D).
    + destruct Hout as [[-> ?]|(s' & x' & t' & tm' & sm' & ?)]; [by left|right; by exists s', x', t', tm', sm'].
    + destruct (Hclean eq_refl (or_intror eq_refl)) as (s' & tm' & sm' & ?). right. by exists s', (sw v), t2, tm', sm'.
Qed.

Lemma paged_lock locked hole n v tm m sm b : paged locked hole n v tm m sm -> paged b hole n (set_ft_lock v b) tm m sm.
Proof. intros []. by split. Qed.

(** What [falloc_get_frame] leaves alone. *)
Record kept v v' : Prop := {
  kp_dirs : dirs v' = dirs v; kp_run : running v' = running v; kp_fl : fl v' = fl v; kp_ft : ft v' = ft v;
  kp_base : base (upool v') = base (upool v); kp_cnt : cnt v' = cnt v;
  kp_none : forall pd va, pd ∈ D -> user_page va -> translate (ms v) pd va = None -> translate (ms v') pd va = None }.
(** Pinned frames stay with their pages; [h] is a frame that has no page yet. *)
Definition pins (h : option Z) v v' : Prop :=
  cnt v' = cnt v /\
  forall j e, 0 <= j < cnt v -> h <> Some j -> uses v j = true -> ft v !! Z.to_nat j = Some e -> pinned e = true ->
    uses v' j = true /\ ft v' !! Z.to_nat j = Some e.
(** Page [va] of process [p] is in memory, in a pinned frame. *)
Definition held v (p va : Z) : Prop :=
  exists i e, 0 <= i < cnt v /\ uses v i = true /\ ft v !! Z.to_nat i = Some e /\ f_pid e = p /\ f_upage e = va /\ pinned e = true.

Lemma pins_refl h v : pins h v v.
Proof. by split. Qed.
Lemma pins_trans h v1 v2 v3 : pins h v1 v2 -> pins h v2 v3 -> pins h v1 v3.
Proof. intros [Hc1 H1] [Hc2 H2]. split; [congruence|]. intros j e Hj Hh Hu He Hp. destruct (H1 j e) as [? ?]; try done. apply H2; try done. by rewrite Hc1. Qed.
(** The frame [i] was free or not pinned. *)
Lemma pins_hole v v' v'' i : pins None v v' -> pins (Some i) v' v'' -> (forall e, uses v i = true -> ft v !! Z.to_nat i = Some e -> pinned e = false) -> pins None v v''.
Proof.
  intros [Hc1 H1] [Hc2 H2] Hi. split; [congruence|]. intros j e Hj _ Hu He Hp. destruct (H1 j e) as [? ?]; try done. apply H2; try done; [by rewrite Hc1|].
  intros [= <-]. rewrite (Hi e) // in Hp.
Qed.
Lemma pins_held v v' p va : pins None v v' -> held v p va -> held v' p va.
Proof. intros [Hc H] (i & e & Hi & Hu & He & ? & ? & Hp). destruct (H i e) as [? ?]; try done. exists i, e. rewrite Hc. split; [done|]. by split_and!. Qed.
Lemma held_resident n v tm m sm p va : paged false None n v tm m sm -> held v p va ->
  exists pd w, dirs v !! p = Some pd /\ translate (ms v) pd va = Some w.
Proof.
  intros H (i & e & Hi & Hu & He & <- & <- & _). destruct (g_used _ _ _ _ _ _ _ H i Hi Hu) as (e' & pd & w & He' & _ & Hd & _ & Hw & _); [done|].
  have ? : e' = e by congruence. subst e'. eauto.
Qed.

(** Only the pool and the contents of frames change. *)
Record frames_only (s s' : mmu) : Prop := {
  fo_pool : kernel_pool (pal s') = kernel_pool (pal s); fo_cr3 : cr3 s' = cr3 s; fo_tlb : tlb s' = tlb s;
  fo_mem : forall a, a < base (user_pool (pal s)) -> mem (pal s') a = mem (pal s) a }.

Lemma kept_frames v v' : coherent D (ms v) -> frames_only (ms v) (ms v') -> dirs v' = dirs v -> running v' = running v -> fl v' = fl v ->
  ft v' = ft v -> base (upool v') = base (upool v) -> cnt v' = cnt v -> kept v v'.
Proof.
  intros Hc [_ _ _ Hm] ??????. split; try done. intros pd va Hpd Hva Hn. rewrite (frames_translate D (ms v)) //. apply Hc.
Qed.

Definition zero_page : list Z := replicate (Z.to_nat PGSIZE) 0.
Lemma page_bytes_fill m a : page_bytes (fill m a 0 PGSIZE) a = zero_page.
Proof.
  apply list_eq. intros i. rewrite list_lookup_fmap. destruct (decide (i < 4096)%nat) as [Hi|Hi].
  - rewrite lookup_seqZ_lt; [rewrite /PGSIZE; lia|]. rewrite lookup_replicate_2; [rewrite /PGSIZE; lia|]. simpl. rewrite /fill /PGSIZE.
    destruct (Z.leb_spec a (a + (0 + Z.of_nat i))), (Z.ltb_spec (a + (0 + Z.of_nat i)) (a + 4096)); try done; lia.
  - rewrite lookup_seqZ_ge; [rewrite /PGSIZE; lia|]. symmetry. apply lookup_replicate_None. rewrite /PGSIZE. lia.
Qed.

(** A frame of the pool that is free. *)
Lemma falloc_free n v tm m sm flags : paged false None n v tm m sm -> (exists i, 0 <= i < cnt v /\ uses v i = false) ->
  exists i v', falloc_get_frame init_page_dir v flags = Ok (kaddr v i, v') /\ paged false (Some i) n v' tm m sm /\ kept v v' /\
    0 <= i < cnt v /\ uses v i = false /\ frames_only (ms v) (ms v') /\
    (Palloc.flag flags PAL_ZERO = true -> page_bytes (mem (pal (ms v'))) (kaddr v i) = zero_page) /\ pins None v v'.
Proof.
  intros H (i0 & Hi0 & Hu0). destruct (pool_ok _ _ _ _ _ _ _ H) as (Hwf & Hw & Hl & Hal & Hb & He). have [[Hn0 Hn1] _] := Hw.
  rewrite /falloc_get_frame /acquire_pool Hl. cbn [negb ASSERT obind used_map base Palloc.lock].
  destruct (bitmap_scan_and_flip_spec (used_map (upool v)) 0 1 false Hw) as (r & map & -> & Hwm & Hcm & Hr); [lia..|].
  cbn [obind release_pool Palloc.lock used_map base ASSERT].
  destruct Hr as [(-> & -> & Hno)|(Hne & (Hf1 & Hf2 & Hf3 & _) & Hbits)].
  { exfalso. apply (Hno i0); [lia|rewrite /cnt in Hi0; lia|]. intros j Hj. have -> : j = i0 by lia. exact Hu0. }
  have Hr : 0 <= r < cnt v by rewrite /cnt; lia. have Hur : uses v r = false by apply Hf3; lia.
  destruct (kaddr_ok _ _ _ _ _ _ _ H r Hr) as (_ & Hka & _ & _ & _).
  rewrite (proj2 (Z.eqb_neq r BITMAP_ERROR) Hne). cbn [negb]. rewrite -/(kaddr v r).
  rewrite (proj2 (Z.eqb_neq (kaddr v r) 0)); [rewrite /PHYS_BASE in Hka; lia|]. cbn [orb].
  rewrite /is_kernel_vaddr (proj2 (Z.leb_le _ _) (proj1 Hka)). cbn [ASSERT obind].
  rewrite {1}/acquire_ft. cbn [ft_lock set_upool set_ms]. rewrite (g_lock _ _ _ _ _ _ _ H). cbn [negb ASSERT obind].
  have Hput : palloc_wf (put_pool (pal (ms v)) true (mk_pool false map (base (upool v)))) by apply put_pool_wf.
  have Hbit : forall p, user_pool p = mk_pool false map (base (upool v)) -> forall j, 0 <= j -> used p true j = if j =? r then true else uses v j.
  { intros p Hp j Hj. rewrite /used /= Hp /= Hbits //. destruct (Z.leb_spec r j), (Z.ltb_spec j (r + 1)), (Z.eqb_spec j r); try done; lia. }
  have Hcoh := g_coh _ _ _ _ _ _ _ H.
  destruct (Palloc.flag flags PAL_ZERO) eqn:Hz; rewrite {1}/release_ft; cbn [ft_lock set_ft_lock set_mem set_ms ASSERT obind].
  - exists r. eexists. split; [done|].
    match goal with |- paged _ _ _ ?x _ _ _ /\ _ => have Hfo : frames_only (ms v) (ms x) end.
    { split; [done..|]. intros a Ha. simpl. rewrite /fill. destruct (Z.leb_spec (kaddr v r) a); [|done]. exfalso. rewrite /kaddr /upool /PGSIZE in H0. lia. }
    split; [|split; [by apply kept_frames|split; [done|split; [done|split; [done|split]]]]].
    + apply (paged_lock false (Some r) n (set_ms v (set_pal (ms v) (set_memory (put_pool (pal (ms v)) true (mk_pool false map (base (upool v))))
        (fill (mem (pal (ms v))) (kaddr v r) 0 PGSIZE))))). apply (paged_hole false None n v tm m sm r true); try done.
      * by left.
      * destruct Hput. by split.
      * simpl. rewrite -/(upool v). intros j Hj. by apply Hbit.
      * simpl. intros a Ha. rewrite /fill. destruct (Z.leb_spec (kaddr v r) a), (Z.ltb_spec a (kaddr v r + PGSIZE)); try done. lia.
    + intros _. apply page_bytes_fill.
    + split; [done|]. intros j e Hj _ Hu Hej _. split; [|done]. rewrite /uses /= Hbit //; [lia|]. by destruct (j =? r).
  - exists r. eexists. split; [done|].
    match goal with |- paged _ _ _ ?x _ _ _ /\ _ => have Hfo : frames_only (ms v) (ms x) by split end.
    split; [|split; [by apply kept_frames|split; [done|split; [done|split; [done|split; [done|]]]]]]; last first.
    { split; [done|]. intros j e Hj _ Hu Hej _. split; [|done]. rewrite /uses /= Hbit //; [lia|]. by destruct (j =? r). }
    apply (paged_lock false (Some r) n (set_ms v (set_pal (ms v) (put_pool (pal (ms v)) true (mk_pool false map (base (upool v))))))).
    apply (paged_hole false None n v tm m sm r true); try done.
    + by left.
    + simpl. rewrite -/(upool v). intros j Hj. by apply Hbit.
Qed.

(** No frame is free: a page is evicted, or every frame is pinned. *)
Lemma falloc_evict n v tm m sm flags : paged false None (S n) v tm m sm -> (forall i, 0 <= i < cnt v -> uses v i = true) ->
  (falloc_get_frame init_page_dir v flags = Err Panic /\ swap_full (sw v) /\
     exists j e, 0 <= j < cnt v /\ ft v !! Z.to_nat j = Some e /\ pinned e = false) \/
  (exists v', falloc_get_frame init_page_dir v flags = Ok (0, v') /\ paged false None (S n) v' tm m sm /\ kept v v' /\
     (forall i, 0 <= i < cnt v' -> uses v' i = true) /\
     forall j e, 0 <= j < cnt v -> ft v !! Z.to_nat j = Some e -> pinned e = true) \/
  exists i v' tm' sm', falloc_get_frame init_page_dir v flags = Ok (kaddr v i, v') /\ paged false (Some i) n v' tm' m sm' /\ kept v v' /\ pins None v v' /\
    0 <= i < cnt v /\ page_bytes (mem (pal (ms v'))) (kaddr v i) = page_bytes (mem (pal (ms v))) (kaddr v i) /\
    exists e, ft v !! Z.to_nat i = Some e /\ pinned e = false /\ forall k, k <> (f_pid e, f_upage e) -> tm' !! k = tm !! k.
Proof.
  intros H Hall. destruct (pool_ok _ _ _ _ _ _ _ H) as (Hwf & Hw & Hl & Hal & Hb & He). have [[Hn0 Hn1] _] := Hw.
  rewrite /falloc_get_frame /acquire_pool Hl. cbn [negb ASSERT obind used_map base Palloc.lock].
  destruct (bitmap_scan_and_flip_spec (used_map (upool v)) 0 1 false Hw) as (r & map & -> & Hwm & Hcm & Hr); [lia..|].
  cbn [obind release_pool Palloc.lock used_map base ASSERT].
  destruct Hr as [(-> & -> & Hno)|(Hne & (Hf1 & Hf2 & Hf3 & _) & Hbits)]; last first.
  { exfalso. have := Hall r. rewrite /uses /used /= Hf3; [lia|]. rewrite /cnt. intros Hx. discriminate Hx. lia. }
  have Hid : set_upool v (mk_pool false (used_map (upool v)) (base (upool v))) = v.
  { move: Hl. rewrite /set_upool /set_ms /upool. destruct v as [[[k [l um ub] mm] c t] ????????]. simpl. by intros ->. }
  rewrite Hid Z.eqb_refl. cbn [negb Z.eqb orb ASSERT obind]. rewrite /acquire_ft (g_lock _ _ _ _ _ _ _ H). cbn [negb ASSERT obind].
  have Hg := paged_lock _ _ _ _ _ _ _ true H.
  destruct (clock_ok (Z.to_nat (2 * bitmap_size (used_map (upool (set_ft_lock v true))))) _ _ _ _ _ Hg Hall) as (r & v1 & E1 & H1 & Hun & Hcase).
  rewrite E1. cbn [obind]. have Hv1 := un_pool _ _ Hun. have Hc1 : cnt v1 = cnt v by rewrite /cnt Hv1.
  have Hu1 : forall i, uses v1 i = uses v i. { intros i. rewrite /uses /used /=. have := Hv1. rewrite /upool. by intros ->. }
  destruct r as [e|]; last first.
  { rewrite /release_ft (un_lock _ _ Hun). cbn [ft_lock set_ft_lock ASSERT obind]. right. left. eexists. split; [done|].
    split; [by eapply (paged_lock true)|]. split; [destruct Hun; split; try done; rewrite /cnt /upool /= -/(upool v1) Hv1 //|]. split.
    { intros i. rewrite -/(cnt v1). change (cnt (set_ft_lock v1 false)) with (cnt v1). rewrite Hc1. change (uses (set_ft_lock v1 false) i) with (uses v1 i). rewrite Hu1. apply Hall. }
    intros j e Hj Hej. apply not_false_iff_true. intros Hpin. have Hlt := Hcase j e Hj Hej Hpin. move: Hlt.
    rewrite /passes /hand. have Hv := g_victim _ _ _ _ _ _ _ Hg. rewrite /bitmap_size. change (bit_cnt (used_map (upool (set_ft_lock v true)))) with (cnt v).
    change (cnt (set_ft_lock v true)) with (cnt v). change (cnt (set_ft_lock v true)) with (cnt v) in Hv. destruct (used_lately _ e); zbool; lia. }
  destruct Hcase as [He1 Hpin]. have Hi := g_victim _ _ _ _ _ _ _ H1. change (ft (set_ft_lock v true)) with (ft v) in He1.
  have Hfv : ft v1 = ft v by rewrite (un_ft _ _ Hun).
  destruct (evict_ok n v1 tm m sm (victim_idx v1) e H1 Hi) as [[E2 Hfull]|(s' & x & t' & tm' & sm' & E2 & H2 & Hto & Hnone & Htm)].
  - rewrite Hu1. apply Hall. lia.
  - by rewrite Hfv.
  - left. rewrite E2. split; [done|]. rewrite (un_sw _ _ Hun) in Hfull. split; [done|]. exists (victim_idx v1), e. split; [lia|done].
  - right. right. rewrite E2. cbn [obind]. rewrite /release_ft. cbn [ft_lock set_ms set_tb set_sw]. rewrite (un_lock _ _ Hun). cbn [ft_lock set_ft_lock ASSERT obind victim_idx set_ms set_tb set_sw].
    exists (victim_idx v1). eexists _, tm', sm'. split; [by rewrite /kaddr|]. split; [by eapply (paged_lock true)|].
    have Hpool : user_pool (pal s') = upool v by rewrite (to_user _ _ Hto) -/(upool v1) Hv1.
    split; [destruct Hun; split; try done; [rewrite /cnt /upool /= Hpool //..|]; simpl; auto|].
    split; [split; [rewrite /cnt /upool /= Hpool //|]; intros j ej Hj _ Huj Hej _; split; [rewrite /uses /used /= Hpool //|by rewrite /= Hfv]|].
    split; [lia|]. split; [|by exists e].
    destruct (kaddr_ok _ _ _ _ _ _ _ H (victim_idx v1)) as (_ & _ & _ & Hbi & _); [lia|].
    apply page_bytes_ext. intros a Ha. simpl. rewrite (to_mem _ _ Hto); [rewrite -/(upool v1) Hv1; change (upool (set_ft_lock v true)) with (upool v); lia|].
    rewrite (un_mem _ _ Hun) //. change (upool (set_ft_lock v true)) with (upool v). lia.
Qed.

Lemma falloc_free_frame_ok i n v tm m sm : paged false (Some i) n v tm m sm ->
  exists v', falloc_free_frame v (kaddr v i) = Ok v' /\ paged false None n v' tm m sm /\ kept v v' /\ frames_only (ms v) (ms v') /\ uses v' i = false /\ pins (Some i) v v'.
Proof.
  intros H. destruct (pool_ok _ _ _ _ _ _ _ H) as (Hwf & Hw & Hl & Hal & Hb & He). destruct (g_hole _ _ _ _ _ _ _ H i eq_refl) as [Hi Hu].
  destruct (kaddr_ok _ _ _ _ _ _ _ H i Hi) as (Hm & Hka & _ & Hbi & _).
  destruct (palloc_free_ok (pal (ms v)) true i 1 Hwf) as (p & E & Hp & Hbase & Hcnt & Hk & Hbits & Hmem); [lia|lia|simpl; rewrite -/(upool v) -/(cnt v); lia| |].
  { intros j Hj. by have -> : j = i by lia. }
  simpl get_pool in *. rewrite -/(upool v) -/(kaddr v i) in E, Hbase, Hcnt, Hmem. rewrite Z.mul_1_r in Hmem.
  have Hus : forall j, 0 <= j -> used p true j = if j =? i then false else uses v j.
  { intros j Hj. rewrite Hbits //. destruct (Z.leb_spec i j), (Z.ltb_spec j (i + 1)), (Z.eqb_spec j i); try done; lia. }
  rewrite /falloc_free_frame pg_ofs_mod Hm /is_kernel_vaddr (proj2 (Z.leb_le _ _) (proj1 Hka)). cbn [Z.eqb ASSERT obind].
  rewrite /acquire_ft (g_lock _ _ _ _ _ _ _ H). cbn [negb ASSERT obind ms set_ft_lock]. rewrite /palloc_free_page E. cbn [obind].
  rewrite /release_ft. cbn [ft_lock set_ms ASSERT obind]. eexists. split; [done|]. split_and!.
  - apply (paged_lock false None n (set_ms v (set_pal (ms v) p))). apply (paged_hole false (Some i) n v tm m sm i false); try done. by right.
  - apply kept_frames; try done; [apply H|]. split; try done. intros a Ha. apply Hmem. rewrite /upool in Hbi. lia.
  - split; try done. intros a Ha. apply Hmem. rewrite /upool in Hbi. lia.
  - rewrite /uses /= Hus ?Z.eqb_refl //. lia.
  - split; [done|]. intros j e Hj Hne Hu' Hej _. split; [|done]. rewrite /uses /= Hus; [lia|]. destruct (Z.eqb_spec j i) as [->|]; done.
Qed.

Lemma all_used_dec v : {i | 0 <= i < cnt v /\ uses v i = false} + {forall i, 0 <= i < cnt v -> uses v i = true}.
Proof.
  destruct (decide (Forall (fun i => uses v i = true) (seqZ 0 (cnt v)))) as [H|H].
  - right. intros i Hi. rewrite Forall_forall in H. apply H, elem_of_seqZ. lia.
  - left. destruct (list_find (fun i => uses v i = false) (seqZ 0 (cnt v))) as [[k i]|] eqn:Hf.
    + exists i. apply list_find_Some in Hf as (Hi & Hu & _). apply lookup_seqZ in Hi. split; [lia|done].
    + exfalso. apply H, Forall_forall. intros i Hi. apply list_find_None in Hf. rewrite Forall_forall in Hf.
      have := Hf i Hi. by destruct (uses v i).
Qed.
End paged.

(** C13: eviction loses nothing.  Whatever the user pages of all processes
    contain, and wherever these contents are kept, [falloc_get_frame] either
    panics, when all frames are in use and the swap device is full; or returns the
    null pointer, when all frames are in use and pinned; or returns a frame of
    the user pool that maps no page: in the last two cases every page of every
    process has the contents it had.  The loop that looks for a victim ends. *)
Theorem falloc_get_frame_correct {T F : Type} {spt_ops : SptOps T} {file_ops : FileOps F} {spt_laws : SptTable T} {file_laws : FileLaws F}
    (init_page_dir init_ram_pages : Z) (D : gset Z) (n : nat) (v : vm T F) (tm : gmap (Z * Z) entry) (m : gmap (Z * Z) (list Z)) (sm : gmap Z (list Z)) (flags : Z) :
  paged init_page_dir init_ram_pages D false None (S n) v tm m sm ->
  (falloc_get_frame init_page_dir v flags = Err Panic /\ swap_full (sw v) /\ forall i, 0 <= i < cnt v -> uses v i = true) \/
  exists kpage v', falloc_get_frame init_page_dir v flags = Ok (kpage, v') /\
    ((kpage = 0 /\ paged init_page_dir init_ram_pages D false None (S n) v' tm m sm /\
      forall i e, 0 <= i < cnt v -> ft v !! Z.to_nat i = Some e -> uses v i = true /\ pinned e = true) \/
     exists i tm' sm', kpage = kaddr v i /\ paged init_page_dir init_ram_pages D false (Some i) n v' tm' m sm').
Proof.
  intros H. destruct (all_used_dec v) as [[i [Hi Hu]]|Hall].
  - destruct (falloc_free _ _ _ _ v tm m sm flags H) as (j & v' & E & Hp & _); [eauto|]. right. exists (kaddr v j), v'. split; [done|].
    right. exists j, tm, sm. split; [done|]. by apply paged_mono.
  - destruct (falloc_evict _ _ _ _ _ _ _ _ flags H Hall) as [(E & Hf & _)|[(v' & E & Hp & _ & _ & Hpin)|(i & v' & tm' & sm' & E & Hp & _)]].
    + left. done.
    + right. exists 0, v'. split; [done|]. left. split_and!; [done|done|]. intros i e Hi He. split; [by apply Hall|]. by apply (Hpin i).
    + right. exists (kaddr v i), v'. split; [done|]. right. eauto.
Qed.

(** ** An example: files that are plain lists, two processes, one frame *)
#[export] Instance plain_files : FileOps (gmap Z (list Z)) := {|
  vm_read_at f p size pos := match f !! p with
    | Some bs => Ok (slice bs pos (Z.min size (Z.of_nat (length bs) - pos)), f)
    | None => Err Fault
    end |}.
#[export] Instance plain_files_laws : FileLaws (gmap Z (list Z)).
Proof.
  refine (Build_FileLaws _ _ (fun f p bs => f !! p = Some bs) _).
  intros f p bs size pos Hf _ _. exists f. simpl. by rewrite Hf.
Defined.

Definition ex_frame_mmu : mmu :=
  mk_mmu (mk_palloc (mk_pool false (mk_bitmap 8 [3]) 0xc0100000) (mk_pool false (mk_bitmap 1 [0]) 0xc0200000) (fun _ => 0)) 0x100000 ∅.
Definition ex_frame_dirs : gset Z := {[0xc0100000; 0xc0101000]}.
Lemma ex_frame_coherent : coherent ex_frame_dirs ex_frame_mmu.
Proof.
  have Hl : forall a, load ex_frame_mmu a = 0 by done. have Ht : forall pd i, PageDir.table ex_frame_mmu pd i = None by intros pd i; rewrite /PageDir.table Hl.
  split.
  - split.
    + split; try done; (split; [done|]; split; [done|]; constructor; [lia|constructor]).
    + done.
    + intros pd [->%elem_of_singleton| ->%elem_of_singleton]%elem_of_union; [by exists 0|by exists 1].
    + intros pd i _ _. by rewrite Hl.
    + intros pd pd' i _ _ _. by rewrite Ht.
    + intros pd pd' i i' pt _ _ _ _. by rewrite Ht.
  - by apply elem_of_union_l, elem_of_singleton.
  - intros pd va w _ _. by rewrite /translate Ht.
  - done.
Qed.

(** Process 4 has a page of a file, with a string and a system call on a stack, process 3 a page of zeros. *)
Definition ex_data : list Z := [80; 105; 110; 116; 111; 115; 0; 0; 6; 0; 0; 0; 0; 128; 4; 8].
Definition ex_tab0 : sptab := mk_sptab ∅ ((fun i => (0xc0500000 + 32 * i, 0)) <$> seqZ 0 240) (Hash.hash_clear (Hash.mk_hash 0 4 (replicate 4 []))) false.
Definition ex_tab : sptab :=
  match (let! t := table_set (fun _ => true) ex_tab0 4 0x8048000 0x77 SPTE_FILE true in table_set (fun _ => true) t 3 0x8049000 0 SPTE_ZERO true) with
  | Ok t => t | Err _ => ex_tab0 end.
Definition ex_tm : gmap (Z * Z) entry :=
  <[(3, 0x8049000) := mk_entry 0 0 SPTE_ZERO true]> (<[(4, 0x8048000) := mk_entry 0x77 0 SPTE_FILE true]> ∅).
Definition ex_pages : gmap (Z * Z) (list Z) := <[(3, 0x8049000) := zero_page]> (<[(4, 0x8048000) := page_of ex_data 0]> ∅).
Definition ex_vm (x : swap) : vm sptab (gmap Z (list Z)) :=
  mk_vm ex_frame_mmu x ex_tab {[0x77 := ex_data]} [mk_fte 0 0 0 false false] false 0 {[3 := 0xc0100000; 4 := 0xc0101000]} 3.

Lemma ex_tab_rep : spt_rep false 238 ex_tab ex_tm.
Proof.
  have H0 : spt_rep false 240 ex_tab0 ∅.
  { split; try done.
    - apply Hash.hash_init_wf.
    - apply (bool_decide_unpack _). by vm_compute.
    - intros e He. vm_compute in He. by apply not_elem_of_nil in He.
    - intros k x. rewrite lookup_empty. split; [done|]. intros (e & s & He & _). vm_compute in He. by apply not_elem_of_nil in He. }
  destruct (table_set_ok (fun _ => true) _ _ _ 4 0x8048000 0x77 SPTE_FILE true H0) as (t1 & pos & E1 & H1); [done|done|done|].
  destruct (table_set_ok (fun _ => true) _ _ _ 3 0x8049000 0 SPTE_ZERO true H1) as (t2 & pos2 & E2 & H2); [done|done|done|].
  have Et : ex_tab = t2 by rewrite /ex_tab E1 /= E2.
  destruct (table_tell_ok _ _ _ 4 0x8048000 (mk_entry 0x77 pos SPTE_FILE true) H2) as (t3 & E3 & _); [done|by rewrite lookup_insert_ne ?lookup_insert_eq|].
  destruct (table_tell_ok _ _ _ 3 0x8049000 (mk_entry 0 pos2 SPTE_ZERO true) H2) as (t4 & E4 & _); [done|by rewrite lookup_insert_eq|].
  rewrite -Et in E3 E4 H2. vm_compute in E3. injection E3 as <- _. vm_compute in E4. injection E4 as <- _. exact H2.
Qed.

Lemma ex_paged x : swapped x ∅ -> paged (spt_laws := table_spt (fun _ => true)) 0xc0300000 4096 ex_frame_dirs false None 238 (ex_vm x) ex_tm ex_pages ∅.
Proof.
  intros Hx. have Ht : forall pd va, translate ex_frame_mmu pd va = None by intros; reflexivity.
  have Hd : forall p pd, dirs (ex_vm x) !! p = Some pd -> (p = 3 /\ pd = 0xc0100000) \/ (p = 4 /\ pd = 0xc0101000).
  { intros p pd. simpl. rewrite !lookup_insert_Some lookup_empty. naive_solver. }
  split.
  - apply ex_frame_coherent.
  - intros p pd [[_ ->]|[_ ->]]%Hd; (split; [|lia]); [by apply elem_of_union_l, elem_of_singleton|by apply elem_of_union_r, elem_of_singleton].
  - intros p p' pd [[-> ->]|[-> ->]]%Hd [[-> ?]|[-> ?]]%Hd; lia.
  - reflexivity.
  - reflexivity.
  - reflexivity.
  - vm_compute. split; [discriminate|reflexivity].
  - vm_compute. discriminate.
  - discriminate.
  - intros i Hi Hu _. have Hi0 : i = 0 by (change (cnt (ex_vm x)) with 1 in Hi; lia). subst i. discriminate Hu.
  - intros p pd va w _ _. change (ms (ex_vm x)) with ex_frame_mmu. rewrite Ht. discriminate.
  - apply ex_tab_rep.
  - exact Hx.
  - intros k. rewrite /ex_tm /ex_pages. destruct (decide (k = (3, 0x8049000))) as [->|]; [rewrite !lookup_insert_eq; split; eauto|rewrite !(lookup_insert_ne _ (3, _)) //].
    destruct (decide (k = (4, 0x8048000))) as [->|]; [rewrite !lookup_insert_eq; split; eauto|rewrite !lookup_insert_ne //; split; by intros []].
  - intros p va e bs He Hbs. rewrite /ex_tm in He. rewrite /ex_pages in Hbs.
    destruct (decide ((p, va) = (3, 0x8049000))) as [[= -> ->]|Hn1].
    + rewrite lookup_insert_eq in He. rewrite lookup_insert_eq in Hbs. injection He as <-. injection Hbs as <-. split; [done|]. split; [apply length_replicate|]. exists 0xc0100000. split; [reflexivity|]. change (ms (ex_vm x)) with ex_frame_mmu. rewrite Ht. reflexivity.
    + rewrite !(lookup_insert_ne _ (3, _)) // in He. rewrite !(lookup_insert_ne _ (3, _)) // in Hbs. destruct (decide ((p, va) = (4, 0x8048000))) as [[= -> ->]|Hn2].
      * rewrite lookup_insert_eq in He. rewrite lookup_insert_eq in Hbs. injection He as <-. injection Hbs as <-. split; [done|]. split; [reflexivity|]. exists 0xc0101000. split; [reflexivity|]. change (ms (ex_vm x)) with ex_frame_mmu. rewrite Ht.
        exists ex_data. split; [reflexivity|]. split; [by vm_compute|]. split; [by vm_compute|reflexivity].
      * by rewrite lookup_insert_ne in He.
  - intros k k' e e' He _ Hs. rewrite /ex_tm in He.
    apply lookup_insert_Some in He as [[_ <-]|[_ He]]; [done|]. by apply lookup_insert_Some in He as [[_ <-]|[_ He]].
  - intros p pd _. apply Ht.
Qed.

(** An empty swap device. *)
Definition ex_swap : swap := mk_swap (mk_bitmap 32 [0]) ex_swap_dev 0xc0104000 false.
Lemma ex_swap_empty : swapped ex_swap ∅.
Proof.
  destruct (swap_init_ok ex_swap_table 0 ex_swap_dev 0xc0104000 [7]) as (x & E & H); [done|done|apply ex_swap_device|].
  vm_compute in E. injection E as <-. exact H.
Qed.

Lemma falloc_get_frame_correct_witness :
  (falloc_get_frame (spt_ops := table_ops (fun _ => true)) 0xc0300000 (ex_vm ex_swap) 0 = Err Panic /\ swap_full ex_swap /\
     forall i, 0 <= i < 1 -> uses (ex_vm ex_swap) i = true) \/
  exists kpage v', falloc_get_frame (spt_ops := table_ops (fun _ => true)) 0xc0300000 (ex_vm ex_swap) 0 = Ok (kpage, v') /\
    ((kpage = 0 /\ paged (spt_laws := table_spt (fun _ => true)) 0xc0300000 4096 ex_frame_dirs false None 238 v' ex_tm ex_pages ∅ /\
      forall i e, 0 <= i < 1 -> ft (ex_vm ex_swap) !! Z.to_nat i = Some e -> uses (ex_vm ex_swap) i = true /\ pinned e = true) \/
     exists i tm' sm', kpage = kaddr (ex_vm ex_swap) i /\
       paged (spt_laws := table_spt (fun _ => true)) 0xc0300000 4096 ex_frame_dirs false (Some i) 237 v' tm' ex_pages sm').
Proof.
  apply (falloc_get_frame_correct (spt_laws := table_spt (fun _ => true)) 0xc0300000 4096 ex_frame_dirs 237 (ex_vm ex_swap) ex_tm ex_pages ∅ 0
    (ex_paged ex_swap ex_swap_empty)).
Defined.
