(* ===== verification/Fault.v ===== *)
(** * userprog/exception.c: page faults, and demand paging as programs see it

    [page_fault] loads the page that was missing, or grows the stack.  [touch]
    is a load or store instruction: the access of PageDir.v, repeated after the
    fault handler has returned.  The theorem: over any sequence of loads and
    stores by the processes, whatever is evicted and loaded again in between, a
    load returns the byte that was stored last. *)
From S2P Require Import Prelude Bitmap Palloc PageDir UserMem Block Swap Spt Frame.

(** userprog/exception.h *)
Definition PF_P : Z := 0x1.
Definition PF_W : Z := 0x2.
Definition PF_U : Z := 0x4.

(** The handler returns to the instruction, or the process exits. *)
Inductive verdict := Resumed | Exited.

Section fault.
Context {T F : Type} {spt_ops : SptOps T} {file_ops : FileOps F}.
Context (init_page_dir init_ram_pages : Z).
Implicit Types v : vm T F.

(** [pagedir_get_page (pd, fault_page) == NULL && pagedir_set_page (...)] *)
Definition install v (pd upage kpage : Z) (w : bool) : outcome (bool * vm T F) :=
  let! old := pagedir_get_page (ms v) pd upage in
  if old =? 0 then
    let! (ok, s) := pagedir_set_page init_page_dir init_ram_pages (ms v) pd upage kpage w in
    Ok (ok, set_ms v s)
  else Ok (false, v).

(** The switch on the kind of page. *)
Definition load_page v (f : spte_flag) (r fault_page kpage : Z) (w : bool) : outcome (vm T F) :=
  let memory := mem (pal (ms v)) in
  match f with
  | SPTE_MMRY => Err Panic
  | SPTE_FILE =>
    let! (pos, t) := spte_file_tell (tb v) (running v) fault_page in
    let! (bs, files) := vm_read_at (fl v) r PGSIZE pos in
    let page_read_bytes := Z.of_nat (length bs) in
    if page_read_bytes =? 0 then Err Panic else
    let memory := put_bytes memory kpage bs in
    let memory := if page_read_bytes <? PGSIZE then fill memory (kpage + page_read_bytes) 0 (PGSIZE - page_read_bytes) else memory in
    Ok (set_mem (set_fl (set_tb v t) files) memory)
  | SPTE_SWAP =>
    let! (page, x) := swap_in (sw v) r in
    match page with
    | None => Err Panic
    | Some bs =>
      let! t := spt_set_kernel (tb v) (running v) fault_page kpage SPTE_MMRY w in
      Ok (set_tb (set_mem (set_sw v x) (put_bytes memory kpage bs)) t)
    end
  | SPTE_ZERO => Ok (set_mem v (fill memory kpage 0 PGSIZE))
  | SPTE_INVALID => Err Panic
  end.

(** [ft_set (kpage, fault_page); if (!user) ft_pin (kpage);] *)
Definition record_frame v (kpage fault_page : Z) (user : bool) : outcome (vm T F) :=
  let! v := ft_set v kpage fault_page in
  if negb user then ft_pin v kpage else Ok v.

(** Loading a page that has an entry: has it been done? *)
Definition fault_load v (f : spte_flag) (fault_page : Z) (user : bool) : outcome (bool * vm T F) :=
  let! pd := oget (dirs v !! running v) in
  let! (r, t) := spt_get_ref_kernel (tb v) (running v) fault_page in
  let! (w, t) := spt_get_writable_kernel t (running v) fault_page in
  let! (kpage, v) := falloc_get_frame init_page_dir (set_tb v t) 0 in
  if negb (kpage =? 0) then
    let! (success, v) := install v pd fault_page kpage w in
    if success then
      let! v := load_page v f r fault_page kpage w in
      let! v := record_frame v kpage fault_page user in
      Ok (true, v)
    else let! v := falloc_free_frame v kpage in Ok (false, v)
  else Ok (false, v).

(** Growing the stack. *)
Definition fault_grow v (fault_page : Z) (user : bool) : outcome (bool * vm T F) :=
  let! pd := oget (dirs v !! running v) in
  let! (kpage, v) := falloc_get_frame init_page_dir v PAL_ZERO in
  if negb (kpage =? 0) then
    let! (success, v) := install v pd fault_page kpage true in
    if success then
      let! v := record_frame v kpage fault_page user in
      let! t := spt_set_kernel (tb v) (running v) fault_page 0 SPTE_ZERO true in
      Ok (true, set_tb v t)
    else let! v := falloc_free_frame v kpage in Ok (false, v)
  else Ok (false, v).

(** [pf_sema] is the value of the semaphore: with 0 the thread would wait for
    another to leave the handler.  [f_esp] is the stack pointer of the interrupt
    frame, [saved_esp] the one that a system call saved. *)
Definition page_fault v (pf_sema fault_addr error_code f_esp saved_esp : Z) : outcome (verdict * Z * vm T F) :=
  let not_present := Z.land error_code PF_P =? 0 in
  let user := negb (Z.land error_code PF_U =? 0) in
  if is_kernel_vaddr fault_addr then Ok (Exited, pf_sema, v) else
  assert! 0 <? pf_sema in
  let pf_sema := pf_sema - 1 in
  let fault_page := pg_round_down fault_addr in
  let! (f, t) := spt_get_flag_kernel (tb v) (running v) fault_page in
  let v := set_tb v t in
  let! (loaded, v) :=
    if not_present && negb (bool_decide (f = SPTE_INVALID)) then fault_load v f fault_page user else Ok (false, v) in
  if loaded then Ok (Resumed, pf_sema + 1, v) else
  let esp := if user then f_esp else saved_esp in
  let! (grown, v) :=
    if not_present && (u32 (esp - 32) <=? fault_addr) && (PHYS_BASE - Z.shiftl 1 23 <=? fault_page)
    then fault_grow v fault_page user else Ok (false, v) in
  if grown then Ok (Resumed, pf_sema + 1, v) else Ok (Exited, pf_sema + 1, v).

(** ** Instructions *)

(** What the processor pushes for a fault on [va], in user mode or in the kernel. *)
Definition error_code (user : bool) v (va : Z) (write : bool) : Z :=
  let present := match translate (ms v) (active (ms v)) va with Some _ => PF_P | None => 0 end in
  (if user then PF_U else 0) + (if write then PF_W else 0) + present.

(** An access to user memory with [fuel] faults allowed: the kernel address of the
    byte, or [None] if the process was killed. *)
Fixpoint touch (user : bool) (fuel : nat) v (pf_sema va esp saved_esp : Z) (write : bool) : outcome (option Z * Z * vm T F) :=
  match access (ms v) va write with
  | Some (a, s) => Ok (Some a, pf_sema, set_ms v s)
  | None =>
    match fuel with
    | O => Err NoFuel
    | S fuel =>
      let! (r, pf_sema, v) := page_fault v pf_sema va (error_code user v va write) esp saved_esp in
      match r with
      | Exited => Ok (None, pf_sema, v)
      | Resumed => touch user fuel v pf_sema va esp saved_esp write
      end
    end
  end.

(** [process_activate]: the page tables of the process that runs. *)
Definition switch v (p : Z) : outcome (vm T F) :=
  let! pd := oget (dirs v !! p) in
  let! s := pagedir_activate init_page_dir (ms v) pd in
  Ok (mk_vm s (sw v) (tb v) (fl v) (ft v) (ft_lock v) (victim_idx v) (dirs v) p).

(** A load and a store of one byte by process [p]. *)
Inductive request := Load (p va : Z) | Store (p va b : Z).
Definition serve v (pf_sema esp : Z) (r : request) : outcome (option Z * Z * vm T F) :=
  match r with
  | Load p va =>
    let! v := switch v p in
    let! (a, pf_sema, v) := touch true 2 v pf_sema va esp 0 false in
    Ok (option_map (mem (pal (ms v))) a, pf_sema, v)
  | Store p va b =>
    let! v := switch v p in
    let! (a, pf_sema, v) := touch true 2 v pf_sema va esp 0 true in
    match a with
    | Some a => Ok (Some b, pf_sema, set_mem v (put_bytes (mem (pal (ms v))) a [b]))
    | None => Ok (None, pf_sema, v)
    end
  end.
Fixpoint serve_all v (pf_sema esp : Z) (rs : list request) : outcome (list (option Z) * Z * vm T F) :=
  match rs with
  | [] => Ok ([], pf_sema, v)
  | r :: rs =>
    let! (o, pf_sema, v) := serve v pf_sema esp r in
    let! (os, pf_sema, v) := serve_all v pf_sema esp rs in
    Ok (o :: os, pf_sema, v)
  end.
End fault.

(** ** Mapping a frame *)
Section proofs.
Context {T F : Type} {spt_ops : SptOps T} {file_ops : FileOps F} {spt_laws : SptTable T} {file_laws : FileLaws F}.
Context (init_page_dir init_ram_pages : Z) (D : gset Z).
Implicit Types v : vm T F.
Abbreviation paged := (paged init_page_dir init_ram_pages D).

Lemma set_ms_id v : set_ms v (ms v) = v.
Proof. by destruct v. Qed.
Lemma frame_user_pte k w : k mod PGSIZE = 0 -> PHYS_BASE <= k < 2 ^ 32 -> frame_of (user_pte k w) = k.
Proof.
  intros Hm Hk. destruct (user_pte_ok k w Hm Hk) as (_ & _ & Hp). rewrite page_of_entry in Hp; [by apply user_pte_frame|]. by injection Hp.
Qed.

(** The tables of [s'] are those of [s] with page [va] of [pd] mapped by entry [w]. *)
Record mapped_to (s s' : mmu) (pd va w : Z) : Prop := {
  mt_coh : coherent D s'; mt_only : tables_only s s'; mt_act : active s' = active s;
  mt_tr : forall pd' va', pd' ∈ D -> user_page va' ->
    translate s' pd' va' = if bool_decide (pd' = pd /\ pg_no va' = pg_no va) then Some w else translate s pd' va' }.

Lemma install_ok i n v tm m sm p pd va w : paged false (Some i) n v tm m sm -> dirs v !! p = Some pd -> upage_ok va -> translate (ms v) pd va = None ->
  exists ok s', install init_page_dir init_ram_pages v pd va (kaddr v i) w = Ok (ok, set_ms v s') /\
    if (ok : bool) then mapped_to (ms v) s' pd va (user_pte (kaddr v i) w) /\ ~ exists s1, lookup_page (ms v) pd va true = Ok (None, s1)
    else s' = ms v /\ exists s1, lookup_page (ms v) pd va true = Ok (None, s1).
Proof.
  intros H Hp Hva Htr. destruct (g_dirs _ _ _ _ _ _ _ _ _ _ H _ _ Hp) as [Hpd Hni]. have Hcoh := g_coh _ _ _ _ _ _ _ _ _ _ H.
  have Hinv := c_inv _ _ Hcoh. destruct (upage_user _ Hva) as [Hv0 Hvu]. destruct (g_hole _ _ _ _ _ _ _ _ _ _ H i eq_refl) as [Hi _].
  destruct (kaddr_ok _ _ _ _ _ _ _ _ _ _ H i Hi) as (Hkm & Hkr & _ & _ & Hkram).
  rewrite /install (get_page_ok D _ _ _ Hinv Hpd Hv0 Hvu) Htr. cbn [obind Z.eqb].
  destruct (set_page_ok init_page_dir init_ram_pages D _ _ va (kaddr v i) w Hinv Hpd Hni Hv0 Hvu (proj2 (proj2 Hva)) Hkm Hkr Hkram Htr)
    as (ok & s' & E & Hinv' & Hcr & _ & Ht). rewrite E. cbn [obind]. exists ok, s'. split; [done|]. destruct ok.
  - split; last first.
    { intros [s1 E1]. rewrite /pagedir_set_page E1 in E. by inv_ok. }
    split; [|by eapply set_page_tables|by rewrite /active Hcr|by intros pd' va' ? [? ?]; apply Ht].
    eapply pstep_coherent; [|exact Hcoh]. eapply (ps_set init_page_dir init_ram_pages D _ _ _ (kaddr v i)); [done|done|done|apply Hva| |done|exact E]. by split.
  - split; [done|]. rewrite /pagedir_set_page in E. inv_ok.
    match goal with E1 : lookup_page _ _ _ _ = Ok ?r |- _ => destruct r as [[a|] s1] end; inv_ok. eauto.
Qed.

(** A page gets frame [i]: the page tables map it, the frame table records it,
    and its new entry [x'] agrees with the contents of the frame. *)
Lemma map_ok i n n' v tm m sm va w x' s' sw' tb' fl' pin sm' : paged false (Some i) n v tm m sm -> upage_ok va ->
  translate (ms v) (active (ms v)) va = None -> mapped_to (ms v) s' (active (ms v)) va (user_pte (kaddr v i) w) ->
  let k := (running v, va) in
  let bs := page_bytes (mem (pal (ms v))) (kaddr v i) in
  let v' := mk_vm s' sw' tb' fl' (<[Z.to_nat i := mk_fte (kaddr v i) (running v) va true pin]> (ft v)) false (victim_idx v) (dirs v) (running v) in
  swapped sw' sm' -> spt_is n' tb' (<[k := x']> tm) -> (forall q cs, file_is (fl v) q cs -> file_is fl' q cs) ->
  (forall k' y bs', k' <> k -> tm !! k' = Some y -> eflag y = SPTE_SWAP -> sm !! ref y = Some bs' -> sm' !! ref y = Some bs') ->
  match eflag x' with SPTE_MMRY => True | SPTE_FILE | SPTE_ZERO => backed v' sm' x' bs | _ => False end ->
  paged false None n' v' (<[k := x']> tm) (<[k := bs]> m) sm'.
Proof.
  intros H Hva Htr [Hc Hto Hact Ht] k bs v' Hsw Hspt Hfile Hslots Hx.
  have HD := g_dirs _ _ _ _ _ _ _ _ _ _ H. have Hrun := g_run _ _ _ _ _ _ _ _ _ _ H. destruct Hto as [Hu _ _ Hm].
  destruct (g_hole _ _ _ _ _ _ _ _ _ _ H i eq_refl) as [Hi Hui]. destruct (kaddr_ok _ _ _ _ _ _ _ _ _ _ H i Hi) as (Hkm & Hkr & _ & _ & _).
  have Hcnt : cnt v' = cnt v by rewrite /cnt /upool /= Hu.
  have Hk : forall j, kaddr v' j = kaddr v j by intros; rewrite /kaddr /upool /= Hu.
  have Hus : forall j, uses v' j = uses v j by intros; rewrite /uses /used /= Hu.
  have Hlen : (Z.to_nat i < length (ft v))%nat. { have := g_len _ _ _ _ _ _ _ _ _ _ H. lia. }
  have Hthis : forall p pd' va', dirs v !! p = Some pd' -> upage_ok va' ->
    translate s' pd' va' = if bool_decide ((p, va') = k) then Some (user_pte (kaddr v i) w) else translate (ms v) pd' va'.
  { intros p pd' va' Hp Hva'. rewrite Ht; [by apply (HD _ _ Hp)|by apply upage_user|].
    have -> : bool_decide (pd' = active (ms v) /\ pg_no va' = pg_no va) = bool_decide ((p, va') = k); [|done].
    apply bool_decide_ext. split.
    - intros [-> Hpg]. rewrite /k. f_equal; [by apply (g_inj _ _ _ _ _ _ _ _ _ _ H _ _ (active (ms v)))|by apply upage_same].
    - intros [= -> ->]. split; [congruence|done]. }
  have Hnm : forall e, e ∈ ft v -> forall j, ft v !! Z.to_nat j = Some e -> 0 <= j < cnt v -> uses v j = true -> j <> i -> (f_pid e, f_upage e) <> k.
  { intros e _ j He Hj Huj Hji [= Hp1 Hp2]. destruct (g_used _ _ _ _ _ _ _ _ _ _ H j Hj Huj) as (e' & pd & w' & He' & _ & Hd & _ & Hw & _); [congruence|].
    have ? : e' = e by congruence. subst e'. rewrite Hp1 Hrun in Hd. injection Hd as <-. rewrite Hp2 in Hw. congruence. }
  have Hbm : forall y bs', backed v sm y bs' -> (exists k', k' <> k /\ tm !! k' = Some y) -> backed v' sm' y bs'.
  { intros y bs' Hb (k' & Hk' & Hy). rewrite /backed in Hb |- *. destruct (eflag y) eqn:Hf; try done.
    - destruct Hb as (data & ? & ?). exists data. split; [by apply Hfile|done].
    - by apply (Hslots k'). }
  split; simpl; try apply H; rewrite ?Hcnt; try apply H; try done.
  - by rewrite Hact.
  - rewrite length_insert. apply H.
  - rewrite /upool /= Hu. apply H.
  - intros j Hj. rewrite Hus Hk. intros Huj _. destruct (decide (j = i)) as [->|Hji].
    + exists (mk_fte (kaddr v i) (running v) va true pin), (active (ms v)), (user_pte (kaddr v i) w). rewrite list_lookup_insert_eq //=.
      split_and!; try done; [|by apply frame_user_pte]. rewrite (Hthis (running v)) // bool_decide_eq_true_2 //.
    + destruct (g_used _ _ _ _ _ _ _ _ _ _ H j Hj Huj) as (e & pd & w' & He & Hke & Hd & Hup & Hw & Hf); [congruence|].
      exists e, pd, w'. rewrite list_lookup_insert_ne; [lia|]. rewrite (Hthis (f_pid e)) // bool_decide_eq_false_2 //.
      apply (Hnm e (list_elem_of_lookup_2 _ _ _ He) j); done.
  - intros p pd' va' w' Hp Hva'. rewrite (Hthis p) //. case_bool_decide as Hb.
    + intros [= <-]. injection Hb as -> ->. split; [rewrite lookup_insert_eq; eauto|]. exists i, (mk_fte (kaddr v i) (running v) va true pin). rewrite Hus Hk list_lookup_insert_eq //=.
      split_and!; try done; [lia..|]. by apply frame_user_pte.
    + intros Hw'. destruct (g_mapped _ _ _ _ _ _ _ _ _ _ H p pd' va' w' Hp Hva' Hw') as (? & j & e & Hj & Huj & Hhj & He & ? & ? & ?).
      split; [by rewrite lookup_insert_ne|]. exists j, e. rewrite Hus Hk list_lookup_insert_ne; [intros Heq; apply Hhj; f_equal; lia|]. split_and!; try done; lia.
  - intros k'. destruct (decide (k' = k)) as [->|Hne]; [rewrite !lookup_insert_eq; split; eauto|rewrite !lookup_insert_ne //; apply H].
  - intros p va' y bs' Hy Hbs'. destruct (decide ((p, va') = k)) as [Heq|Hne].
    + rewrite Heq !lookup_insert_eq in Hy Hbs'. injection Hy as <-. injection Hbs' as <-. injection Heq as -> ->.
      split_and!; [done|apply length_page_bytes|]. exists (active (ms v)). split; [done|]. rewrite (Hthis (running v)) // bool_decide_eq_true_2 //. split.
      * rewrite /frame_bytes frame_user_pte //. apply page_bytes_ext. intros a Ha. apply Hm. rewrite /kaddr /upool /PGSIZE in Ha. lia.
      * destruct (eflag x'); try done.
    + rewrite lookup_insert_ne // in Hy. rewrite lookup_insert_ne // in Hbs'.
      destruct (g_page _ _ _ _ _ _ _ _ _ _ H _ _ _ _ Hy Hbs') as (Hva' & Hl & pd' & Hp & Hpg). split_and!; [done|done|].
      exists pd'. split; [done|]. rewrite (Hthis p) // bool_decide_eq_false_2 //. destruct (translate (ms v) pd' va') as [w'|] eqn:Hw'; [|by eauto].
      destruct Hpg as [Hb Hr]. split; [|by destruct (eflag y); try done; intros Hd; eauto].
      rewrite -Hb /frame_bytes. apply page_bytes_ext. intros a Ha. apply Hm.
      destruct (g_mapped _ _ _ _ _ _ _ _ _ _ H p pd' va' w' Hp Hva' Hw') as (_ & j & _ & Hj & _ & _ & _ & _ & _ & Hwj).
      destruct (kaddr_ok _ _ _ _ _ _ _ _ _ _ H j Hj) as (_ & _ & _ & Hbj & _). rewrite /upool in Hbj. lia.
  - intros k1 k2 y y' Hy Hy' Hs Hs' Hr. have Hxs : eflag x' <> SPTE_SWAP by intros E; rewrite E in Hx.
    destruct (decide (k1 = k)) as [->|Hk1]; [rewrite lookup_insert_eq in Hy; congruence|].
    destruct (decide (k2 = k)) as [->|Hk2]; [rewrite lookup_insert_eq in Hy'; congruence|].
    rewrite lookup_insert_ne // in Hy. rewrite lookup_insert_ne // in Hy'. by apply (g_slots _ _ _ _ _ _ _ _ _ _ H k1 k2 y y').
  - intros p pd' Hp. rewrite Ht; [by apply (HD _ _ Hp)|done|]. rewrite (g_null _ _ _ _ _ _ _ _ _ _ H p pd' Hp).
    rewrite bool_decide_eq_false_2 //. intros [_ Hpg]. destruct Hva as (Hv0 & _ & Hvm). rewrite !pg_no_div /PGSIZE in Hpg. rewrite /PGSIZE in Hvm. dlia.
Qed.

(** Filling the frame before or after it is mapped is the same. *)
Record fills v (i : Z) (g : memory -> memory) : Prop := {
  gf_out : forall m a, a < kaddr v i \/ kaddr v i + PGSIZE <= a -> g m a = m a;
  gf_in : forall m m' a, kaddr v i <= a < kaddr v i + PGSIZE -> g m a = g m' a }.

Lemma fills_hole i n v tm m sm g : paged false (Some i) n v tm m sm -> fills v i g -> paged false (Some i) n (set_mem v (g (mem (pal (ms v))))) tm m sm.
Proof.
  intros H [Ho _]. destruct (g_hole _ _ _ _ _ _ _ _ _ _ H i eq_refl) as [Hi Hu].
  have Hwf := pd_pal _ _ (c_inv _ _ (g_coh _ _ _ _ _ _ _ _ _ _ H)).
  apply (paged_hole _ _ _ _ (Some i) n v tm m sm i true); try done.
  - by right.
  - destruct Hwf. by split.
  - intros j Hj. destruct (Z.eqb_spec j i) as [->|]; [exact Hu|done].
  - intros a Ha. simpl. by apply Ho.
Qed.
Lemma fills_mapped i n v tm m sm g s' pd va w : paged false (Some i) n v tm m sm -> fills v i g -> mapped_to (ms v) s' pd va w ->
  mapped_to (ms (set_mem v (g (mem (pal (ms v)))))) (set_pal s' (set_memory (pal s') (g (mem (pal s'))))) pd va w.
Proof.
  intros H [Ho Hi] [Hc [Hu Hb Hn Hm] Ha Ht]. destruct (g_hole _ _ _ _ _ _ _ _ _ _ H i eq_refl) as [Hir _].
  destruct (kaddr_ok _ _ _ _ _ _ _ _ _ _ H i Hir) as (_ & _ & _ & Hbi & _). rewrite /upool in Hbi.
  have Hlow : forall x a, a < base (user_pool (pal (ms v))) -> g x a = x a by intros x a Hx; apply Ho; lia.
  have Hwf := pd_pal _ _ (c_inv _ _ Hc). have Hwf' : palloc_wf (set_memory (pal s') (g (mem (pal s')))) by destruct Hwf; split.
  have Hwv := pd_pal _ _ (c_inv _ _ (g_coh _ _ _ _ _ _ _ _ _ _ H)).
  split; [|split; try done|done|].
  - apply (coherent_frames D s'); try done. simpl. intros a Hx. apply Hlow. by rewrite -Hu.
  - simpl. intros a Hx. destruct (decide (kaddr v i <= a < kaddr v i + PGSIZE)) as [Hin|Hout]; [by apply Hi|]. rewrite !Ho; [lia..|]. by apply Hm.
  - intros pd' va' Hpd' Hva'. rewrite (frames_translate D s') //; [|by apply Hc|].
    + simpl. intros a Hx. apply Hlow. by rewrite -Hu.
    + rewrite Ht //. case_bool_decide; [done|]. symmetry. apply (frames_translate D (ms v)); [|by apply (g_coh _ _ _ _ _ _ _ _ _ _ H)|done|done].
      simpl. intros a Hx. by apply Hlow.
Qed.

Lemma ft_index_kaddr v i : ft_index v (kaddr v i) = i.
Proof. rewrite /ft_index /kaddr /PGSIZE. have -> : base (upool v) + 4096 * i - base (upool v) = i * 4096 by lia. by apply Z.quot_mul. Qed.

(** [ft_set] and [ft_pin] for frame [i]. *)
Lemma record_frame_ok v i va user : ft_lock v = false -> 0 <= i < Z.of_nat (length (ft v)) -> kaddr v i mod PGSIZE = 0 -> PHYS_BASE <= kaddr v i -> upage_ok va ->
  exists pin, (user = false -> pin = true) /\ record_frame v (kaddr v i) va user =
    Ok (mk_vm (ms v) (sw v) (tb v) (fl v) (<[Z.to_nat i := mk_fte (kaddr v i) (running v) va true pin]> (ft v)) false (victim_idx v) (dirs v) (running v)).
Proof.
  intros Hl Hi Hm Hk Hva. destruct (upage_ofs _ Hva) as [Ho _]. destruct (lookup_lt_is_Some_2 (ft v) (Z.to_nat i)) as [e He]; [lia|].
  have Hset : ft_set v (kaddr v i) va =
    Ok (mk_vm (ms v) (sw v) (tb v) (fl v) (<[Z.to_nat i := mk_fte (kaddr v i) (running v) va true (pinned e)]> (ft v)) false (victim_idx v) (dirs v) (running v)).
  { rewrite /ft_set pg_ofs_mod Hm Ho /is_kernel_vaddr (proj2 (Z.leb_le _ _) Hk) (proj1 (proj2 Hva)) /acquire_ft Hl. cbn [Z.eqb andb ASSERT obind negb].
    rewrite /ft_entry. change (ft_index (set_ft_lock v true) (kaddr v i)) with (ft_index v (kaddr v i)). rewrite ft_index_kaddr.
    destruct (Z.ltb_spec i 0); [lia|]. change (ft (set_ft_lock v true)) with (ft v). rewrite He. cbn [oget obind].
    rewrite /ft_put. change (ft_index (set_ft_lock v true) (kaddr v i)) with (ft_index v (kaddr v i)). by rewrite ft_index_kaddr. }
  rewrite /record_frame Hset. cbn [obind]. destruct user; simpl negb; cbn iota; [by exists (pinned e)|]. exists true. split; [done|].
  set (v1 := mk_vm _ _ _ _ _ _ _ _ _). rewrite /ft_pin /ft_set_pinned pg_ofs_mod Hm /is_kernel_vaddr (proj2 (Z.leb_le _ _) Hk) /acquire_ft. cbn [Z.eqb ASSERT obind negb ft_lock v1].
  rewrite /ft_entry. change (ft_index (set_ft_lock v1 true) (kaddr v i)) with (ft_index v (kaddr v i)). rewrite ft_index_kaddr.
  destruct (Z.ltb_spec i 0); [lia|]. simpl ft. rewrite list_lookup_insert_eq; [lia|]. cbn [oget obind f_kpage f_pid f_upage present].
  rewrite /ft_put. change (ft_index (set_ft_lock v1 true) (kaddr v i)) with (ft_index v (kaddr v i)). rewrite ft_index_kaddr /release_ft /=. by rewrite list_insert_insert_eq.
Qed.

(** Frame [i] is mapped, filled and recorded. *)
Lemma fill_record_ok i n n' v tm m sm va w x' s' g sw' tb' fl' sm' user : paged false (Some i) n v tm m sm -> upage_ok va ->
  translate (ms v) (active (ms v)) va = None -> mapped_to (ms v) s' (active (ms v)) va (user_pte (kaddr v i) w) -> fills v i g ->
  let k := (running v, va) in
  let bs := page_bytes (g (mem (pal (ms v)))) (kaddr v i) in
  let v1 := mk_vm (set_pal s' (set_memory (pal s') (g (mem (pal s'))))) sw' tb' fl' (ft v) (ft_lock v) (victim_idx v) (dirs v) (running v) in
  swapped sw' sm' -> spt_is n' tb' (<[k := x']> tm) -> (forall q cs, file_is (fl v) q cs -> file_is fl' q cs) ->
  (forall k' y bs', k' <> k -> tm !! k' = Some y -> eflag y = SPTE_SWAP -> sm !! ref y = Some bs' -> sm' !! ref y = Some bs') ->
  match eflag x' with SPTE_MMRY => True | SPTE_FILE | SPTE_ZERO => backed v1 sm' x' bs | _ => False end ->
  exists v', record_frame v1 (kaddr v i) va user = Ok v' /\ paged false None n' v' (<[k := x']> tm) (<[k := bs]> m) sm' /\
    running v' = running v /\ translate (ms v') (active (ms v')) va = Some (user_pte (kaddr v i) w) /\
    pins (Some i) v v' /\ (user = false -> held v' (running v) va).
Proof.
  intros H Hva Htr Hmt Hg k bs v1 Hsw Hspt Hfile Hslots Hx.
  have H1 := fills_hole _ _ _ _ _ _ _ H Hg. have Hmt1 := fills_mapped _ _ _ _ _ _ _ _ _ _ _ H Hg Hmt.
  destruct (g_hole _ _ _ _ _ _ _ _ _ _ H i eq_refl) as [Hi _]. destruct (kaddr_ok _ _ _ _ _ _ _ _ _ _ H i Hi) as (Hkm & Hkr & _ & _ & _).
  have Hku : kaddr v1 i = kaddr v i. { rewrite /kaddr /upool /=. by rewrite (to_user _ _ (mt_only _ _ _ _ _ Hmt)). }
  destruct (record_frame_ok v1 i va user) as (pin & Hpin & E); rewrite ?Hku; try done; [apply H| |lia|].
  { simpl. rewrite (g_len _ _ _ _ _ _ _ _ _ _ H). done. }
  have Hlen : (Z.to_nat i < length (ft v))%nat. { have := g_len _ _ _ _ _ _ _ _ _ _ H. lia. }
  have Hpool := to_user _ _ (mt_only _ _ _ _ _ Hmt).
  rewrite Hku in E. rewrite E. eexists. split; [done|]. split; [|split; [done|split; [|split]]].
  - apply (map_ok i n n' _ tm m sm va w x' _ sw' tb' fl' pin sm' H1); try done. simpl.
    rewrite (frames_translate D (ms v)); [|apply (g_coh _ _ _ _ _ _ _ _ _ _ H)|by apply (c_active _ _ (g_coh _ _ _ _ _ _ _ _ _ _ H))|by apply upage_user|done].
    intros a Ha. simpl. destruct (kaddr_ok _ _ _ _ _ _ _ _ _ _ H i Hi) as (_ & _ & _ & Hbi & _). rewrite /upool in Hbi. apply (gf_out _ _ _ Hg). lia.
  - simpl. rewrite (mt_act _ _ _ _ _ Hmt1). rewrite (mt_tr _ _ _ _ _ Hmt1); [apply H|by apply upage_user|]. by rewrite bool_decide_eq_true_2.
  - split; [by rewrite /cnt /upool /= Hpool|]. intros j e Hj Hne Hu He _. split; [by rewrite /uses /used /= Hpool|].
    simpl. rewrite list_lookup_insert_ne //. intros Heq. apply Hne. f_equal. lia.
  - intros Hus. exists i. eexists. simpl. rewrite list_lookup_insert_eq //. split; [by rewrite /cnt /upool /= Hpool|].
    split; [rewrite /uses /used /= Hpool; by apply (g_hole _ _ _ _ _ _ _ _ _ _ H)|]. split_and!; [done..|]. by apply Hpin.
Qed.

(** ** Loading a page *)
Lemma page_bytes_eq m a (l : list Z) : length l = Z.to_nat PGSIZE -> (forall k x, l !! k = Some x -> m (a + Z.of_nat k) = x) -> page_bytes m a = l.
Proof.
  intros Hl Hm. apply list_eq. intros k. rewrite list_lookup_fmap. destruct (l !! k) as [x|] eqn:Hk.
  - have Hlt := lookup_lt_Some _ _ _ Hk. rewrite lookup_seqZ_lt; [lia|]. simpl. f_equal. by apply Hm.
  - apply lookup_ge_None in Hk. rewrite lookup_seqZ_ge //. lia.
Qed.
Lemma put_bytes_in m a bs k x : bs !! k = Some x -> put_bytes m a bs (a + Z.of_nat k) = x.
Proof.
  intros Hk. have Hlt := lookup_lt_Some _ _ _ Hk. rewrite /put_bytes.
  destruct (Z.leb_spec a (a + Z.of_nat k)), (Z.ltb_spec (a + Z.of_nat k) (a + Z.of_nat (length bs))); try lia. simpl.
  have -> : Z.to_nat (a + Z.of_nat k - a) = k by lia. by apply nth_lookup_Some.
Qed.
Lemma put_bytes_out m a bs x : x < a \/ a + Z.of_nat (length bs) <= x -> put_bytes m a bs x = m x.
Proof. intros H. rewrite /put_bytes. destruct (Z.leb_spec a x), (Z.ltb_spec x (a + Z.of_nat (length bs))); try done; lia. Qed.

(** The frame gets the bytes of a file and zeros. *)
Definition put_file (a : Z) (bs : list Z) (m : memory) : memory :=
  let m := put_bytes m a bs in
  if Z.of_nat (length bs) <? PGSIZE then fill m (a + Z.of_nat (length bs)) 0 (PGSIZE - Z.of_nat (length bs)) else m.
Lemma fills_ext v i g g' : (forall m a, g' m a = g m a) -> fills v i g -> fills v i g'.
Proof. intros He [Ho Hi]. split; intros; rewrite !He; auto. Qed.
Lemma fills_put v i bs : length bs = Z.to_nat PGSIZE -> fills v i (fun m => put_bytes m (kaddr v i) bs).
Proof.
  intros Hl. split.
  - intros m a Ha. apply put_bytes_out. rewrite Hl. lia.
  - intros m m' a Ha. have Hk : (Z.to_nat (a - kaddr v i) < length bs)%nat by lia. apply lookup_lt_is_Some_2 in Hk as [x Hx].
    have -> : a = kaddr v i + Z.of_nat (Z.to_nat (a - kaddr v i)) by lia. by rewrite !(put_bytes_in _ _ _ _ x).
Qed.
Lemma put_file_page a (bs : list Z) m x : (length bs <= Z.to_nat PGSIZE)%nat ->
  put_file a bs m x = put_bytes m a (bs ++ replicate (Z.to_nat PGSIZE - length bs) 0) x.
Proof.
  intros Hl. have Hlen : length (bs ++ replicate (Z.to_nat PGSIZE - length bs) 0) = Z.to_nat PGSIZE by rewrite length_app length_replicate; lia.
  rewrite /put_file. destruct (decide (a <= x < a + PGSIZE)) as [Hin|Hout].
  - have Hk : (Z.to_nat (x - a) < Z.to_nat PGSIZE)%nat by lia. rewrite -{1}Hlen in Hk. apply lookup_lt_is_Some_2 in Hk as [y Hy].
    have Hx : x = a + Z.of_nat (Z.to_nat (x - a)) by lia. rewrite {2}Hx (put_bytes_in _ _ _ _ y) //.
    apply lookup_app_Some in Hy as [Hy|[Hge Hy]].
    + have Hlt := lookup_lt_Some _ _ _ Hy. have Hpb : put_bytes m a bs x = y by rewrite Hx; apply put_bytes_in.
      destruct (_ <? _); [|done]. rewrite /fill. destruct (Z.leb_spec (a + Z.of_nat (length bs)) x); [lia|done].
    + apply lookup_replicate in Hy as [-> Hlt]. destruct (Z.ltb_spec (Z.of_nat (length bs)) PGSIZE); [|lia].
      rewrite /fill. destruct (Z.leb_spec (a + Z.of_nat (length bs)) x), (Z.ltb_spec x (a + Z.of_nat (length bs) + (PGSIZE - Z.of_nat (length bs)))); try done; lia.
  - rewrite put_bytes_out; [rewrite Hlen; lia|]. destruct (Z.ltb_spec (Z.of_nat (length bs)) PGSIZE).
    + rewrite /fill. destruct (Z.leb_spec (a + Z.of_nat (length bs)) x), (Z.ltb_spec x (a + Z.of_nat (length bs) + (PGSIZE - Z.of_nat (length bs)))); simpl; try lia; apply put_bytes_out; lia.
    + apply put_bytes_out. lia.
Qed.
Lemma fill_page a m x : fill m a 0 PGSIZE x = put_bytes m a zero_page x.
Proof.
  rewrite /fill /put_bytes /zero_page length_replicate. change (Z.of_nat (Z.to_nat PGSIZE)) with PGSIZE.
  destruct (Z.leb_spec a x), (Z.ltb_spec x (a + PGSIZE)); try done. cbn [andb]. symmetry. apply nth_lookup_Some, lookup_replicate_2. lia.
Qed.
Lemma page_put m a bs : length bs = Z.to_nat PGSIZE -> page_bytes (put_bytes m a bs) a = bs.
Proof. intros Hl. apply page_bytes_eq; [done|]. intros k x. apply put_bytes_in. Qed.
Lemma length_page_of data pos : 0 <= pos <= Z.of_nat (length data) ->
  length (slice data pos (Z.min PGSIZE (Z.of_nat (length data) - pos))) = Z.to_nat (Z.min PGSIZE (Z.of_nat (length data) - pos)) /\
  length (page_of data pos) = Z.to_nat PGSIZE.
Proof.
  intros Hp. have Hs : length (slice data pos (Z.min PGSIZE (Z.of_nat (length data) - pos))) = Z.to_nat (Z.min PGSIZE (Z.of_nat (length data) - pos)).
  { apply length_slice; rewrite /PGSIZE; lia. }
  split; [done|]. rewrite /page_of length_app length_replicate Hs. rewrite /PGSIZE. lia.
Qed.

Lemma load_record_ok i n v tm m sm va w x bs s' user : paged false (Some i) (S n) v tm m sm -> upage_ok va ->
  translate (ms v) (active (ms v)) va = None -> mapped_to (ms v) s' (active (ms v)) va (user_pte (kaddr v i) w) ->
  tm !! (running v, va) = Some x -> m !! (running v, va) = Some bs ->
  exists v' tm' sm', (let! v1 := load_page (set_ms v s') (eflag x) (ref x) va (kaddr v i) w in record_frame v1 (kaddr v i) va user) = Ok v' /\
    paged false None n v' tm' m sm' /\ running v' = running v /\ translate (ms v') (active (ms v')) va = Some (user_pte (kaddr v i) w) /\
    pins (Some i) v v' /\ (user = false -> held v' (running v) va).
Proof.
  intros H Hva Htr Hmt Hx Hbs. destruct (upage_ofs _ Hva) as [Hofs Hv0].
  destruct (g_page _ _ _ _ _ _ _ _ _ _ H _ _ _ _ Hx Hbs) as (_ & Hlen & pd & Hpd & Hpg).
  have ? : pd = active (ms v) by rewrite (g_run _ _ _ _ _ _ _ _ _ _ H) in Hpd; congruence. subst pd. rewrite Htr in Hpg.
  have Hspt := g_spt _ _ _ _ _ _ _ _ _ _ H. have Hswp := g_swap _ _ _ _ _ _ _ _ _ _ H. rewrite /load_page. cbn [ms set_ms tb running fl sw].
  rewrite {1}/backed in Hpg. destruct (eflag x) eqn:Hf; try done.
  - destruct Hpg as (data & Hfile & Hpos & Hmax & ->). have [Hls Hlp] := length_page_of data (saved_file_pos x) ltac:(lia).
    destruct (spt_tell_law n (tb v) tm (running v) va x Hspt Hofs Hx) as (t' & E1 & Ht'). rewrite E1. cbn [obind].
    destruct (file_read_law (fl v) (ref x) data PGSIZE (saved_file_pos x) Hfile) as (f' & E2 & Hf'); [lia|done|]. rewrite E2. cbn [obind].
    set (d := slice data (saved_file_pos x) (Z.min PGSIZE (Z.of_nat (length data) - saved_file_pos x))) in *.
    have Hd : 0 < Z.of_nat (length d) <= PGSIZE by rewrite Hls /PGSIZE; lia.
    rewrite (proj2 (Z.eqb_neq _ _)); [lia|]. cbn [obind].
    have Hg : fills v i (put_file (kaddr v i) d).
    { apply (fills_ext _ _ (fun m => put_bytes m (kaddr v i) (page_of data (saved_file_pos x)))); [|by apply fills_put].
      intros mm a. apply put_file_page. lia. }
    have Hpb : page_bytes (put_file (kaddr v i) d (mem (pal (ms v)))) (kaddr v i) = page_of data (saved_file_pos x).
    { rewrite -(page_put (mem (pal (ms v))) (kaddr v i) (page_of data (saved_file_pos x))) //. apply page_bytes_ext. intros a _. apply put_file_page. lia. }
    destruct (fill_record_ok i (S n) n v tm m sm va w x s' _ (sw v) t' f' sm user H Hva Htr Hmt Hg Hswp) as (v' & E3 & Hp' & Hr' & Ht2 & Hpi & Hhe); try done.
    + rewrite insert_id //. by apply spt_mono.
    + rewrite Hf /backed Hf. exists data. split; [by apply Hf'|]. by rewrite Hpb.
    + rewrite insert_id // in Hp'. rewrite Hpb insert_id // in Hp'. exists v', tm, sm. split; [exact E3|done].
  - destruct (swap_in_spec (sw v) sm (ref x) bs Hswp Hpg) as (sw' & E1 & Hsw'). rewrite E1. cbn [obind].
    destruct (spt_set_law n (tb v) tm (running v) va (kaddr v i) SPTE_MMRY w Hspt Hofs Hv0) as (t' & pos & E2 & Ht'); [done|]. rewrite E2. cbn [obind].
    destruct (fill_record_ok i (S n) n v tm m sm va w (mk_entry (kaddr v i) pos SPTE_MMRY w) s' _ sw' t' (fl v) (delete (ref x) sm) user H Hva Htr Hmt (fills_put v i bs Hlen) Hsw' Ht')
      as (v' & E3 & Hp' & Hr' & Ht2 & Hpi & Hhe); try done.
    + intros k' y bs' Hk' Hy Hys Hsm. rewrite lookup_delete_ne //. intros Heq. apply Hk'. by apply (g_slots _ _ _ _ _ _ _ _ _ _ H k' (running v, va) y x).
    + rewrite page_put // in Hp'. rewrite (insert_id m) // in Hp'. exists v'. eexists _, (delete (ref x) sm). split; [exact E3|]. split; [exact Hp'|done].
  - cbn [obind]. have Hg : fills v i (fun m => fill m (kaddr v i) 0 PGSIZE).
    { apply (fills_ext _ _ (fun m => put_bytes m (kaddr v i) zero_page)); [|by apply fills_put]. intros mm a. apply fill_page. }
    destruct (fill_record_ok i (S n) n v tm m sm va w x s' _ (sw v) (tb v) (fl v) sm user H Hva Htr Hmt Hg Hswp) as (v' & E3 & Hp' & Hr' & Ht2 & Hpi & Hhe); try done.
    + rewrite insert_id //. by apply spt_mono.
    + rewrite Hf /backed Hf. by rewrite page_bytes_fill.
    + rewrite insert_id // in Hp'. rewrite page_bytes_fill /zero_page -Hpg insert_id // in Hp'. exists v', tm, sm. split; [exact E3|done].
Qed.

(** ** The handler *)

(** Nothing more can be done for page [va]: every frame is pinned, or there is no
    kernel page for the page table it needs. *)
Definition stuck v (va : Z) : Prop :=
  ((forall i, 0 <= i < cnt v -> uses v i = true) /\ forall i e, 0 <= i < cnt v -> ft v !! Z.to_nat i = Some e -> pinned e = true) \/
  ((exists i, 0 <= i < cnt v /\ uses v i = false) /\ exists s1, lookup_page (ms v) (active (ms v)) va true = Ok (None, s1)).

Lemma lookup_none_frames s s' va : coherent D s -> coherent D s' -> frames_only s s' -> user_page va ->
  (exists s1, lookup_page s (active s) va true = Ok (None, s1)) -> exists s1, lookup_page s' (active s') va true = Ok (None, s1).
Proof.
  intros Hc Hc' [Hk Hcr _ Hm] Hva. have Ha : active s' = active s by rewrite /active Hcr. rewrite Ha.
  rewrite (lookup_create_none D s) //; [apply Hc|apply Hc|]. rewrite (lookup_create_none D s') //; [apply Hc'|rewrite -Ha; apply Hc'|].
  intros [Ht Hu]. rewrite (frames_table D s) //; [apply Hc|apply Hc|apply pd_no_user; apply Hva|]. split; [done|].
  rewrite Hk. intros k Hk'. rewrite /used /= Hk. by apply Hu.
Qed.

Lemma fault_load_ok n v tm m sm va x bs user : paged false None (S (S n)) v tm m sm -> upage_ok va ->
  translate (ms v) (active (ms v)) va = None -> tm !! (running v, va) = Some x -> m !! (running v, va) = Some bs ->
  (fault_load init_page_dir init_ram_pages v (eflag x) va user = Err Panic /\ swap_full (sw v)) \/
  exists done v' tm' sm', fault_load init_page_dir init_ram_pages v (eflag x) va user = Ok (done, v') /\ running v' = running v /\ pins None v v' /\
    (done = true -> user = false -> held v' (running v) va) /\
    if (done : bool) then paged false None n v' tm' m sm' /\ exists i, translate (ms v') (active (ms v')) va = Some (user_pte (kaddr v i) (writable x)) /\ PHYS_BASE <= kaddr v i < 2 ^ 32 /\ kaddr v i mod PGSIZE = 0
    else paged false None (S n) v' tm' m sm' /\ stuck v' va /\ translate (ms v') (active (ms v')) va = None.
Proof.
  intros H Hva Htr Hx Hbs. destruct (upage_ofs _ Hva) as [Hofs _]. have Hrun := g_run _ _ _ _ _ _ _ _ _ _ H.
  destruct (g_dirs _ _ _ _ _ _ _ _ _ _ H _ _ Hrun) as [Hpd _].
  rewrite /fault_load Hrun. cbn [oget obind].
  destruct (spt_ref_law _ (tb v) tm (running v) va (g_spt _ _ _ _ _ _ _ _ _ _ H) Hofs) as (t1 & E1 & H1). rewrite Hx /= in E1. rewrite E1. cbn [obind].
  destruct (spt_writable_law _ t1 tm (running v) va H1 Hofs) as (t2 & E2 & H2). rewrite Hx /= in E2. rewrite E2. cbn [obind].
  have Hg := paged_tb _ _ _ _ _ _ _ _ _ _ _ _ H H2. set (v0 := set_tb v t2) in *.
  (* with a frame *)
  have Hframe : forall i v1 tm1 sm1, paged false (Some i) (S n) v1 tm1 m sm1 -> kept D v0 v1 -> tm1 !! (running v, va) = Some x ->
    pins None v0 v1 -> (forall e, uses v0 i = true -> ft v0 !! Z.to_nat i = Some e -> pinned e = false) ->
    exists done v' tm' sm', (let! (success, v2) := install init_page_dir init_ram_pages v1 (active (ms v)) va (kaddr v0 i) (writable x) in
      if success then let! v3 := load_page v2 (eflag x) (ref x) va (kaddr v0 i) (writable x) in let! v4 := record_frame v3 (kaddr v0 i) va user in Ok (true, v4)
      else let! v3 := falloc_free_frame v2 (kaddr v0 i) in Ok (false, v3)) = Ok (done, v') /\ running v' = running v /\ pins None v v' /\
    (done = true -> user = false -> held v' (running v) va) /\
    if (done : bool) then paged false None n v' tm' m sm' /\ exists i, translate (ms v') (active (ms v')) va = Some (user_pte (kaddr v i) (writable x)) /\ PHYS_BASE <= kaddr v i < 2 ^ 32 /\ kaddr v i mod PGSIZE = 0
    else paged false None (S n) v' tm' m sm' /\ stuck v' va /\ translate (ms v') (active (ms v')) va = None.
  { intros i v1 tm1 sm1 Hp1 [Hdi Hru Hfl Hft Hba Hcn Hno] Hx1 Hpins Hnp.
    have Hact : active (ms v1) = active (ms v). { have := g_run _ _ _ _ _ _ _ _ _ _ Hp1. rewrite Hdi Hru /= Hrun. congruence. }
    have Htr1 : translate (ms v1) (active (ms v1)) va = None by rewrite Hact; apply Hno; [done|by apply upage_user|done].
    have Hka : kaddr v0 i = kaddr v1 i by rewrite /kaddr Hba. rewrite Hka -Hact.
    destruct (g_hole _ _ _ _ _ _ _ _ _ _ Hp1 i eq_refl) as [Hi _]. destruct (kaddr_ok _ _ _ _ _ _ _ _ _ _ Hp1 i Hi) as (Hkm & Hkr & _).
    destruct (install_ok i _ v1 _ _ _ (running v1) _ va (writable x) Hp1 (g_run _ _ _ _ _ _ _ _ _ _ Hp1) Hva Htr1) as (ok & s' & E & Hok). rewrite E. cbn [obind].
    destruct ok.
    - destruct Hok as [Hmt _]. destruct (load_record_ok i n v1 tm1 m sm1 va (writable x) x bs s' user Hp1 Hva Htr1 Hmt) as (v' & tm' & sm' & E' & Hp' & Hr' & Ht' & Hpi & Hhe); [by rewrite Hru|by rewrite Hru|].
      apply obind_Ok_inv in E' as (v3 & E3 & E4). rewrite E3. cbn [obind]. rewrite E4. cbn [obind]. exists true, v', tm', sm'. split; [done|].
      split; [by rewrite Hr' Hru|]. split; [by apply (pins_hole v0 v1 _ i)|]. split; [intros _ Hus; rewrite -[running v]Hru; by apply Hhe|]. split; [done|]. exists i. change (kaddr v i) with (kaddr v0 i). rewrite Hka. by split.
    - destruct Hok as [-> Hlk]. rewrite set_ms_id.
      destruct (falloc_free_frame_ok _ _ _ i _ v1 _ _ _ Hp1) as (v' & E' & Hp' & Hk' & Hfo & Huf & Hpi). rewrite E'. cbn [obind].
      have Ha' : active (ms v') = active (ms v1) by rewrite /active (fo_cr3 _ _ Hfo).
      exists false, v', tm1, sm1. split; [done|]. split; [by rewrite (kp_run _ _ _ Hk') Hru|]. split; [by apply (pins_hole v0 v1 _ i)|]. split; [done|]. split; [done|]. split.
      + right. split; [exists i; by rewrite (kp_cnt _ _ _ Hk')|]. apply (lookup_none_frames (ms v1)); [apply Hp1|apply Hp'|done|by apply upage_user|done].
      + rewrite Ha'. apply (kp_none _ _ _ Hk'); [rewrite Hact; done|by apply upage_user|done]. }
  destruct (all_used_dec v0) as [[i0 Hi0]|Hall].
  - destruct (falloc_free _ _ _ _ v0 tm m sm 0 Hg) as (i & v1 & E & Hp1 & Hk & Hi & Hu & Hfo & _ & Hpi); [eauto|]. rewrite E. cbn [obind].
    destruct (kaddr_ok _ _ _ _ _ _ _ _ _ _ Hg i Hi) as (_ & Hkr & _). rewrite (proj2 (Z.eqb_neq (kaddr v0 i) 0)); [rewrite /PHYS_BASE in Hkr; lia|].
    cbn [negb]. right. apply (Hframe i v1 tm sm); [by apply paged_mono|done..|]. intros e. congruence.
  - destruct (falloc_evict _ _ _ _ _ _ _ _ 0 Hg Hall) as [(E & Hf & _)|[(v' & E & Hp & Hk & Hall' & Hpin)|(i & v1 & tm1 & sm1 & E & Hp1 & Hk & Hpi & Hi & _ & e & He & Hnpin & Htm)]];
      rewrite E; cbn [obind].
    + by left.
    + right. rewrite Z.eqb_refl. cbn [negb]. exists false, v', tm, sm. split; [done|]. split; [by rewrite (kp_run _ _ _ Hk)|].
      split; [split; [apply Hk|intros j e Hj _ _ Hej _; split; [apply Hall'; by rewrite (kp_cnt _ _ _ Hk)|by rewrite (kp_ft _ _ _ Hk)]]|].
      split; [done|]. split; [by apply paged_mono|].
      have Ha' : active (ms v') = active (ms v). { have := g_run _ _ _ _ _ _ _ _ _ _ Hp. rewrite (kp_run _ _ _ Hk) (kp_dirs _ _ _ Hk) /= Hrun. congruence. }
      split; [|rewrite Ha'; apply (kp_none _ _ _ Hk); [done|by apply upage_user|done]].
      left. split; [done|]. intros i e Hi He. rewrite (kp_cnt _ _ _ Hk) in Hi. rewrite (kp_ft _ _ _ Hk) in He. by apply (Hpin i).
    + destruct (kaddr_ok _ _ _ _ _ _ _ _ _ _ Hg i Hi) as (_ & Hkr & _). rewrite (proj2 (Z.eqb_neq (kaddr v0 i) 0)); [rewrite /PHYS_BASE in Hkr; lia|].
      cbn [negb]. right. apply (Hframe i v1 tm1 sm1); [done|done| |done|by intros e' _ He'; congruence]. rewrite Htm //. intros [= Hp1' Hp2'].
      destruct (g_used _ _ _ _ _ _ _ _ _ _ Hg i Hi (Hall i Hi)) as (e' & pd & w & He' & _ & Hd & _ & Hw & _); [done|].
      have ? : e' = e by congruence. subst e'. rewrite -Hp1' Hrun in Hd. injection Hd as <-. rewrite -Hp2' in Hw. change (ms v0) with (ms v) in Hw. congruence.
Qed.

Lemma fault_grow_stuck n v tm m sm va user : paged false None (S n) v tm m sm -> upage_ok va ->
  translate (ms v) (active (ms v)) va = None -> stuck v va ->
  exists v', fault_grow init_page_dir init_ram_pages v va user = Ok (false, v') /\ paged false None n v' tm m sm /\ running v' = running v /\ stuck v' va /\ pins None v v'.
Proof.
  intros H Hva Htr Hst. have Hrun := g_run _ _ _ _ _ _ _ _ _ _ H. destruct (g_dirs _ _ _ _ _ _ _ _ _ _ H _ _ Hrun) as [Hpd _].
  rewrite /fault_grow Hrun. cbn [oget obind]. destruct Hst as [[Hall Hpin]|[Hfree Hlk]].
  - destruct (falloc_evict _ _ _ _ _ _ _ _ PAL_ZERO H Hall) as [(E & Hf & j & e & Hj & He & Hp)|[(v' & E & Hp & Hk & Hall' & _)|(i & v1 & tm1 & sm1 & E & Hp1 & Hk & _ & Hi & _ & e & He & Hpe & Htm)]].
    + rewrite (Hpin j e) // in Hp.
    + rewrite E. cbn [obind]. rewrite Z.eqb_refl. exists v'. split; [done|]. split; [by apply paged_mono|]. split; [apply Hk|]. split; last first.
      { split; [apply Hk|intros j e Hj _ _ Hej _; split; [apply Hall'; by rewrite (kp_cnt _ _ _ Hk)|by rewrite (kp_ft _ _ _ Hk)]]. }
      left. split; [done|]. intros i e Hi He. rewrite (kp_cnt _ _ _ Hk) in Hi. rewrite (kp_ft _ _ _ Hk) in He. by apply (Hpin i).
    + rewrite (Hpin i e) // in Hpe.
  - destruct (falloc_free _ _ _ _ v tm m sm PAL_ZERO H Hfree) as (i & v1 & E & Hp1 & Hk & Hi & Hu & Hfo & _ & Hpi). rewrite E. cbn [obind].
    destruct (kaddr_ok _ _ _ _ _ _ _ _ _ _ H i Hi) as (_ & Hkr & _). rewrite (proj2 (Z.eqb_neq (kaddr v i) 0)); [rewrite /PHYS_BASE in Hkr; lia|]. cbn [negb].
    have Hact : active (ms v1) = active (ms v) by rewrite /active (fo_cr3 _ _ Hfo).
    have Hka : kaddr v i = kaddr v1 i by rewrite /kaddr (kp_base _ _ _ Hk). rewrite Hka -Hact.
    have Htr1 : translate (ms v1) (active (ms v1)) va = None by rewrite Hact; apply (kp_none _ _ _ Hk); [done|by apply upage_user|done].
    destruct (install_ok i _ v1 _ _ _ (running v1) _ va true Hp1 (g_run _ _ _ _ _ _ _ _ _ _ Hp1) Hva Htr1) as (ok & s' & E' & Hok). rewrite E'. cbn [obind].
    destruct ok.
    + destruct Hok as [_ []]. apply (lookup_none_frames (ms v)); [apply H|apply Hp1|done|by apply upage_user|done].
    + destruct Hok as [-> _]. rewrite set_ms_id. destruct (falloc_free_frame_ok _ _ _ i _ v1 _ _ _ Hp1) as (v' & E2 & Hp' & Hk' & Hfo' & Huf & Hpi'). rewrite E2. cbn [obind].
      exists v'. split; [done|]. split; [by apply paged_mono|]. split; [by rewrite (kp_run _ _ _ Hk') (kp_run _ _ _ Hk)|].
      split; [|apply (pins_hole v v1 _ i); [done|done|intros e; congruence]].
      right. split; [exists i; by rewrite (kp_cnt _ _ _ Hk') (kp_cnt _ _ _ Hk)|].
      apply (lookup_none_frames (ms v1)); [apply Hp1|apply Hp'|done|by apply upage_user|].
      apply (lookup_none_frames (ms v)); [apply H|apply Hp1|done|by apply upage_user|done].
Qed.

Lemma page_fault_ok n v tm m sm sema va code esp saved bs : paged false None (S (S n)) v tm m sm -> user_page va -> 0 < sema ->
  m !! (running v, pg_round_down va) = Some bs -> (Z.land code PF_P = 0 -> translate (ms v) (active (ms v)) (pg_round_down va) = None) ->
  (page_fault init_page_dir init_ram_pages v sema va code esp saved = Err Panic /\ swap_full (sw v) /\ Z.land code PF_P = 0) \/
  exists r v' tm' sm', page_fault init_page_dir init_ram_pages v sema va code esp saved = Ok (r, sema, v') /\ paged false None n v' tm' m sm' /\ running v' = running v /\ pins None v v' /\
    match r with
    | Exited => if decide (Z.land code PF_P = 0) then stuck v' (pg_round_down va) else ms v' = ms v
    | Resumed => Z.land code PF_P = 0 /\ (exists kpage w, translate (ms v') (active (ms v')) (pg_round_down va) = Some (user_pte kpage w)) /\
        (Z.land code PF_U = 0 -> held v' (running v) (pg_round_down va))
    end.
Proof.
  intros H [Hva0 Hvau] Hsema Hbs Hnp. destruct (proj2 (g_dom _ _ _ _ _ _ _ _ _ _ H _) (mk_is_Some _ _ Hbs)) as [x Hx].
  destruct (g_page _ _ _ _ _ _ _ _ _ _ H _ _ _ _ Hx Hbs) as (Hva & _ & pd & Hpd & Hpg). destruct (upage_ofs _ Hva) as [Hofs _].
  rewrite /page_fault. have -> : is_kernel_vaddr va = false by move: Hvau; rewrite /is_kernel_vaddr /is_user_vaddr; zbool; try done; lia.
  rewrite (proj2 (Z.ltb_lt 0 sema) Hsema). cbn [ASSERT obind].
  destruct (spt_flag_law _ (tb v) tm (running v) (pg_round_down va) (g_spt _ _ _ _ _ _ _ _ _ _ H) Hofs) as (t & E & Ht). rewrite Hx /= in E. rewrite E. cbn [obind].
  have Hg := paged_tb _ _ _ _ _ _ _ _ _ _ _ _ H Ht. have Hs1 : sema - 1 + 1 = sema by lia. rewrite Hs1.
  destruct (Z.eqb_spec (Z.land code PF_P) 0) as [Hp|Hp]; last first.
  { cbn [andb obind]. right. exists Exited, (set_tb v t), tm, sm. split; [done|]. split; [by do 2 apply paged_mono|]. split; [done|]. split; [by apply (pins_refl None v)|]. by destruct (decide _). }
  specialize (Hnp Hp). have ? : pd = active (ms v) by rewrite (g_run _ _ _ _ _ _ _ _ _ _ H) in Hpd; congruence. subst pd. rewrite Hnp in Hpg.
  have -> : bool_decide (eflag x = SPTE_INVALID) = false. { apply bool_decide_eq_false_2. intros E2. by rewrite /backed E2 in Hpg. }
  cbn [andb negb].
  set (user := negb (Z.land code PF_U =? 0)).
  destruct (fault_load_ok n (set_tb v t) tm m sm _ x bs user Hg Hva Hnp Hx Hbs) as [[E2 Hf]|(dn & v' & tm' & sm' & E2 & Hr & Hpi & Hhe & Hdn)].
  { left. rewrite E2. done. }
  right. rewrite E2. cbn [obind]. destruct dn.
  - destruct Hdn as (Hp' & i & Hti & _). exists Resumed, v', tm', sm'. split_and!; [done|done|done|done|done|eauto|].
    intros Hus. apply (Hhe eq_refl). by rewrite /user Hus.
  - destruct Hdn as (Hp' & Hst & Htn). destruct ((u32 _ <=? va) && _).
    + destruct (fault_grow_stuck n v' tm' m sm' _ user Hp' Hva Htn Hst) as (v2 & E3 & Hp2 & Hr2 & Hst2 & Hpi2). rewrite E3. cbn [obind].
      exists Exited, v2, tm', sm'. split_and!; [done|done|by rewrite Hr2 Hr|by apply (pins_trans _ v v')|]. by destruct (decide _).
    + cbn [obind]. exists Exited, v', tm', sm'. split_and!; [done|by apply paged_mono|done|done|]. by destruct (decide _).
Qed.

(** ** Accesses *)
Lemma access_faults s va write w : coherent D s -> user_page va -> translate s (active s) va = Some w -> access s va write = None ->
  write = true /\ has w PTE_W = false.
Proof.
  intros Hc [Hva Hu] Hw. rewrite /access. destruct (tlb s !! pg_no va) as [w'|] eqn:Hv.
  - destruct (c_tlb _ _ Hc _ _ Hv) as (_ & _ & w2 & Hw2 & (_ & HW & _)). destruct (page_start va Hva Hu) as (_ & _ & Hpn).
    rewrite (translate_page _ _ _ va) // Hw in Hw2. injection Hw2 as <-. rewrite HW. destruct write, (has w PTE_W); done.
  - rewrite Hw. destruct write, (has w PTE_W); done.
Qed.

Lemma round_down_page va : user_page va -> pg_no (pg_round_down va) = pg_no va /\ pg_ofs va = va - pg_round_down va /\ 0 <= pg_ofs va < PGSIZE.
Proof. intros [Hva _]. rewrite pg_round_down_eq !pg_no_div pg_ofs_mod. rewrite /PGSIZE. split_and!; dlia. Qed.

(** A successful access, as the pages see it. *)
Record reached v (va a : Z) (write : bool) : Prop := {
  re_addr : exists w, translate (ms v) (active (ms v)) va = Some w /\ a = frame_of w + pg_ofs va /\ (write = true -> has w PTE_D = true) }.

Lemma access_paged n v tm m sm va write a s : paged false None n v tm m sm -> user_page va -> access (ms v) va write = Some (a, s) ->
  paged false None n (set_ms v s) tm m sm /\ reached (set_ms v s) va a write /\ pins None v (set_ms v s).
Proof.
  intros H Hva E. have Hc := g_coh _ _ _ _ _ _ _ _ _ _ H. destruct Hva as [Hv0 Hvu].
  destruct (access_ok D _ _ _ _ _ Hc Hv0 Hvu E) as (w & w' & Hw & -> & Hc' & Ha & Hw' & _ & Hd).
  have Hfl := access_flags D _ _ _ _ _ Hc (conj Hv0 Hvu) E. split; [|split].
  - apply (paged_tables _ _ _ _ _ _ _ _ _ _ _ H); [by eapply access_tables|done|done|]. intros pd' va' Hpd' Hva'.
    destruct (Hfl pd' va' Hpd' Hva') as [?|(w1 & w2 & ? & ? & He & ?)]; [by left|right]. exists w1, w2. rewrite /frame_of He. done.
  - split. exists w'. simpl. rewrite Ha. split; [done|]. split; [|done].
    destruct (Hfl (active (ms v)) va (c_active _ _ Hc) (conj Hv0 Hvu)) as [[? _]|(w1 & w2 & E1 & E2 & He & _)]; [congruence|].
    rewrite /frame_of. have -> : w' = w2 by congruence. rewrite He. have -> : w1 = w by congruence. done.
  - have Hto := access_tables D _ _ _ _ _ Hc (conj Hv0 Hvu) E. have Hu := to_user _ _ Hto.
    split; [by rewrite /cnt /upool /= Hu|]. intros j e _ _ Huj He _. split; [by rewrite /uses /used /= Hu|done].
Qed.

Lemma error_code_P user v va write : Z.land (error_code user v va write) PF_P = 0 <-> translate (ms v) (active (ms v)) va = None.
Proof. rewrite /error_code. destruct user, (translate _ _ va), write; split; done. Qed.

Lemma error_code_kernel v va write : Z.land (error_code false v va write) PF_U = 0.
Proof. rewrite /error_code. by destruct (translate _ _ va), write. Qed.

(** Why an access may be refused: a store to a page that is mapped read-only, or
    there is no frame or no page table for the page. *)
Definition denied v (va : Z) (write : bool) : Prop :=
  (write = true /\ exists w, translate (ms v) (active (ms v)) va = Some w /\ has w PTE_W = false) \/ stuck v (pg_round_down va).

Lemma touch_ok user n v tm m sm sema va esp saved write bs : paged false None (S (S (S (S n)))) v tm m sm -> user_page va -> 0 < sema ->
  m !! (running v, pg_round_down va) = Some bs ->
  (touch init_page_dir init_ram_pages user 2 v sema va esp saved write = Err Panic /\ swap_full (sw v)) \/
  exists a v' tm' sm', touch init_page_dir init_ram_pages user 2 v sema va esp saved write = Ok (a, sema, v') /\ paged false None n v' tm' m sm' /\ running v' = running v /\ pins None v v' /\
    match a with
    | None => denied v' va write
    | Some a => reached v' va a write /\ (user = false -> translate (ms v) (active (ms v)) va = None -> held v' (running v) (pg_round_down va))
    end.
Proof.
  intros H Hva Hsema Hbs. destruct (round_down_page va Hva) as [Hpn _].
  have Hmono : forall v tm m sm, paged false None (S (S (S (S n)))) v tm m sm -> paged false None n v tm m sm by intros; do 4 apply paged_mono.
  simpl. destruct (access (ms v) va write) as [[a s]|] eqn:E1.
  { right. destruct (access_paged _ _ _ _ _ _ _ _ _ H Hva E1) as (H1 & Hr & Hpi). exists (Some a), (set_ms v s), tm, sm. split_and!; [done|by apply Hmono|done|done|done|].
    intros _ Hn. destruct Hva as [Hv0 Hvu]. destruct (access_ok D _ _ _ _ _ (g_coh _ _ _ _ _ _ _ _ _ _ H) Hv0 Hvu E1) as (w & w' & Hw & _). congruence. }
  destruct (page_fault_ok (S (S n)) v tm m sm sema va (error_code user v va write) esp saved bs H Hva Hsema Hbs) as [(E2 & Hf & _)|(r & v1 & tm1 & sm1 & E2 & H1 & Hr1 & Hpi1 & Hv)].
  { rewrite error_code_P. intros Hn. by rewrite (translate_page _ _ _ va). }
  { left. rewrite E2. eauto. }
  rewrite E2. cbn [obind]. destruct r; last first.
  { right. exists None, v1, tm1, sm1. split_and!; [done|by do 2 apply paged_mono|done|done|]. destruct (decide _) as [|Hp]; [by right|]. left. rewrite Hv.
    destruct (translate (ms v) (active (ms v)) va) as [w|] eqn:Hw; [|by apply (error_code_P user _ _ write) in Hw].
    destruct (access_faults _ _ _ _ (g_coh _ _ _ _ _ _ _ _ _ _ H) Hva Hw E1). eauto. }
  destruct Hv as (_ & (kpage & w & Hw) & Hhe). have Hw' := Hw. rewrite (translate_page _ _ _ va) // in Hw'.
  destruct (access (ms v1) va write) as [[a s]|] eqn:E3.
  { right. destruct (access_paged _ _ _ _ _ _ _ _ _ H1 Hva E3) as (H2 & Hr & Hpi). exists (Some a), (set_ms v1 s), tm1, sm1.
    split_and!; [done|by do 2 apply paged_mono|done|by apply (pins_trans _ v v1)|done|]. intros -> _. apply (pins_held v1); [done|]. apply Hhe. by apply error_code_kernel. }
  have Hnp : Z.land (error_code user v1 va write) PF_P <> 0 by rewrite error_code_P; congruence.
  destruct (page_fault_ok n v1 tm1 m sm1 sema va (error_code user v1 va write) esp saved bs H1 Hva Hsema) as [(E4 & Hf & Hp)|(r & v2 & tm2 & sm2 & E4 & H2 & Hr2 & Hpi2 & Hv)]; [by rewrite Hr1|done|done|].
  rewrite E4. cbn [obind]. destruct r; [by destruct Hv|].
  right. exists None, v2, tm2, sm2. split_and!; [done|done|by rewrite Hr2|by apply (pins_trans _ v v1)|]. left. rewrite decide_False // in Hv. rewrite Hv.
  destruct (access_faults _ _ _ _ (g_coh _ _ _ _ _ _ _ _ _ _ H1) Hva Hw' E3). eauto.
Qed.

(** Reading and writing a byte of a page that is in memory. *)
Lemma page_byte n v tm m sm va a write bs : paged false None n v tm m sm -> user_page va -> reached v va a write ->
  m !! (running v, pg_round_down va) = Some bs -> bs !! Z.to_nat (pg_ofs va) = Some (mem (pal (ms v)) a).
Proof.
  intros H Hva [(w & Hw & -> & _)] Hbs. destruct (round_down_page va Hva) as (Hpn & _ & Hofs).
  destruct (proj2 (g_dom _ _ _ _ _ _ _ _ _ _ H _) (mk_is_Some _ _ Hbs)) as [x Hx].
  destruct (g_page _ _ _ _ _ _ _ _ _ _ H _ _ _ _ Hx Hbs) as (_ & _ & pd & Hpd & Hpg). rewrite (g_run _ _ _ _ _ _ _ _ _ _ H) in Hpd. injection Hpd as <-.
  rewrite (translate_page _ _ _ va) // Hw in Hpg. destruct Hpg as [<- _].
  rewrite /frame_bytes /page_bytes list_lookup_fmap lookup_seqZ_lt; [lia|]. simpl. do 2 f_equal. lia.
Qed.

Lemma paged_store n v tm m sm va a b bs : paged false None n v tm m sm -> user_page va -> reached v va a true ->
  m !! (running v, pg_round_down va) = Some bs ->
  paged false None n (set_mem v (put_bytes (mem (pal (ms v))) a [b])) tm (<[(running v, pg_round_down va) := <[Z.to_nat (pg_ofs va) := b]> bs]> m) sm.
Proof.
  intros H Hva [(w & Hw & -> & Hd)] Hbs. destruct (round_down_page va Hva) as (Hpn & _ & Hofs). have Hrun := g_run _ _ _ _ _ _ _ _ _ _ H.
  destruct (proj2 (g_dom _ _ _ _ _ _ _ _ _ _ H _) (mk_is_Some _ _ Hbs)) as [x0 Hx0].
  destruct (g_page _ _ _ _ _ _ _ _ _ _ H _ _ _ _ Hx0 Hbs) as (Hup & Hlen & pd0 & Hpd0 & Hpg0). rewrite Hrun in Hpd0. injection Hpd0 as <-.
  have Hw' := Hw. rewrite -(translate_page _ _ (pg_round_down va)) // in Hw'. rewrite Hw' in Hpg0.
  set (va' := pg_round_down va) in *. set (o := pg_ofs va) in *. set (k := (running v, va')) in *.
  destruct (g_mapped _ _ _ _ _ _ _ _ _ _ H _ _ _ _ Hrun Hup Hw') as (_ & i & e & Hi & Hui & _ & He & Hpid & Hupg & Hwi).
  destruct (kaddr_ok _ _ _ _ _ _ _ _ _ _ H i Hi) as (_ & _ & _ & Hbi & _).
  have Hout : forall x, x <> frame_of w + o -> put_bytes (mem (pal (ms v))) (frame_of w + o) [b] x = mem (pal (ms v)) x by intros x Hx; apply put_bytes_out; simpl; lia.
  have Hc := g_coh _ _ _ _ _ _ _ _ _ _ H.
  have Hlow : forall x, x < base (user_pool (pal (ms v))) -> put_bytes (mem (pal (ms v))) (frame_of w + o) [b] x = mem (pal (ms v)) x.
  { intros x Hx. apply Hout. rewrite /upool in Hbi. lia. }
  have Htr : forall pd va1, pd ∈ D -> user_page va1 -> translate (ms (set_mem v (put_bytes (mem (pal (ms v))) (frame_of w + o) [b]))) pd va1 = translate (ms v) pd va1.
  { intros. apply (frames_translate D); [done|apply Hc|done|done]. }
  have HD := g_dirs _ _ _ _ _ _ _ _ _ _ H. have Hwf := pd_pal _ _ (c_inv _ _ Hc).
  split; try apply H; try done.
  - apply (coherent_frames D (ms v)); try done. destruct Hwf. by split.
  - intros j Hj Huj Hh. destruct (g_used _ _ _ _ _ _ _ _ _ _ H j Hj Huj Hh) as (ej & pd & wj & Hej & Hkj & Hdj & Hupj & Hwj & Hfj).
    exists ej, pd, wj. rewrite Htr //; [by apply (HD _ _ Hdj)|by apply upage_user].
  - intros p pd va1 w1 Hp Hva1. rewrite Htr; [by apply (HD _ _ Hp)|by apply upage_user|]. intros Hw1.
    destruct (g_mapped _ _ _ _ _ _ _ _ _ _ H p pd va1 w1 Hp Hva1 Hw1) as (Hs & Hrest). split; [|done].
    destruct (decide ((p, va1) = k)) as [->|]; [rewrite lookup_insert_eq; eauto|by rewrite lookup_insert_ne].
  - intros k'. rewrite (g_dom _ _ _ _ _ _ _ _ _ _ H). destruct (decide (k' = k)) as [->|]; [rewrite lookup_insert_eq Hbs; split; eauto|by rewrite lookup_insert_ne].
  - intros p va1 x bs1 Hx Hbs1. destruct (decide ((p, va1) = k)) as [Heq|Hne].
    + rewrite Heq lookup_insert_eq in Hbs1. injection Hbs1 as <-. injection Heq as -> ->. split; [done|]. split; [by rewrite length_insert|].
      exists (active (ms v)). split; [done|]. rewrite Htr; [apply Hc|by apply upage_user|]. rewrite Hw'.
      have ? : x0 = x by rewrite /k in Hx0; congruence. subst x0. destruct Hpg0 as [Hb Hr]. split.
      * rewrite /frame_bytes. apply page_bytes_eq; [by rewrite length_insert|]. intros q y Hq. simpl.
        destruct (decide (q = Z.to_nat o)) as [->|Hqo].
        -- rewrite list_lookup_insert_eq in Hq; [lia|]. injection Hq as <-. have -> : frame_of w + Z.of_nat (Z.to_nat o) = frame_of w + o + Z.of_nat 0 by lia. by apply put_bytes_in.
        -- rewrite list_lookup_insert_ne // in Hq. rewrite Hout; [lia|]. rewrite -Hb /frame_bytes in Hq.
           rewrite /page_bytes list_lookup_fmap in Hq. have Hlt : (q < Z.to_nat PGSIZE)%nat.
           { destruct (decide (q < Z.to_nat PGSIZE)%nat); [done|]. rewrite lookup_seqZ_ge // in Hq. lia. }
           rewrite lookup_seqZ_lt in Hq; [lia|]. simpl in Hq. by injection Hq as <-.
      * destruct (eflag x); try done; rewrite Hd //.
    + rewrite lookup_insert_ne // in Hbs1. destruct (g_page _ _ _ _ _ _ _ _ _ _ H _ _ _ _ Hx Hbs1) as (Hva1 & Hl1 & pd & Hp & Hpg). split; [done|]. split; [done|].
      exists pd. split; [done|]. rewrite Htr; [by apply (HD _ _ Hp)|by apply upage_user|]. destruct (translate (ms v) pd va1) as [w1|] eqn:Hw1; [|done].
      destruct Hpg as [Hb Hr]. split; [|done]. rewrite -Hb /frame_bytes. apply page_bytes_ext. intros y Hy. apply Hout. intros ->.
      destruct (g_mapped _ _ _ _ _ _ _ _ _ _ H p pd va1 w1 Hp Hva1 Hw1) as (_ & j & ej & Hj & _ & _ & Hej & Hpj & Huj & Hwj).
      apply Hne. have Hij : i = j; [|subst j; rewrite /k; congruence]. destruct (decide (i = j)) as [|Hij]; [done|]. have := kaddr_apart v i j Hij. lia.
  - intros p pd Hp. rewrite Htr; [by apply (HD _ _ Hp)|done|]. by apply (g_null _ _ _ _ _ _ _ _ _ _ H p).
Qed.

Lemma switch_ok n v tm m sm p pd : paged false None n v tm m sm -> dirs v !! p = Some pd ->
  exists v', switch init_page_dir v p = Ok v' /\ paged false None n v' tm m sm /\ running v' = p /\ sw v' = sw v.
Proof.
  intros H Hp. destruct (g_dirs _ _ _ _ _ _ _ _ _ _ H _ _ Hp) as [Hpd Hni]. have Hc := g_coh _ _ _ _ _ _ _ _ _ _ H.
  destruct (kpage_ok D _ (c_inv _ _ Hc) pd (pd_page _ _ (c_inv _ _ Hc) pd Hpd)) as (_ & Hb & _).
  have E : pagedir_activate init_page_dir (ms v) pd = Ok (mk_mmu (pal (ms v)) (pd - PHYS_BASE) ∅).
  { rewrite /pagedir_activate. rewrite (proj2 (Z.eqb_neq pd 0)); [rewrite /PHYS_BASE in Hb; lia|]. rewrite /vtop /is_kernel_vaddr (proj2 (Z.leb_le _ _) Hb). done. }
  have Hc' : coherent D (mk_mmu (pal (ms v)) (pd - PHYS_BASE) ∅).
  { eapply (pstep_coherent init_page_dir init_ram_pages); [|exact Hc]. by eapply ps_activate. }
  rewrite /switch Hp. cbn [oget obind]. rewrite E. cbn [obind]. eexists. split; [done|]. split; [|done].
  destruct H. split; try done. simpl. rewrite Hp /active. simpl. f_equal. lia.
Qed.

(** ** Sessions *)

(** What a request returns, and the contents of the pages after it. *)
Definition spec (m : gmap (Z * Z) (list Z)) (r : request) : option (Z * gmap (Z * Z) (list Z)) :=
  match r with
  | Load p va => bs ← m !! (p, pg_round_down va); b ← bs !! Z.to_nat (pg_ofs va); Some (b, m)
  | Store p va b => bs ← m !! (p, pg_round_down va); Some (b, <[(p, pg_round_down va) := <[Z.to_nat (pg_ofs va) := b]> bs]> m)
  end.
(** The answers to a session: [None] for an instruction that was not executed,
    because its process was killed. *)
Fixpoint answers (m : gmap (Z * Z) (list Z)) (rs : list request) (os : list (option Z)) : Prop :=
  match rs, os with
  | [], [] => True
  | r :: rs, None :: os => answers m rs os
  | r :: rs, Some o :: os => exists m', spec m r = Some (o, m') /\ answers m' rs os
  | _, _ => False
  end.
Definition addr (r : request) : Z * Z := match r with Load p va => (p, va) | Store p va _ => (p, va) end.

Lemma spec_dom m r o m' k : spec m r = Some (o, m') -> is_Some (m' !! k) <-> is_Some (m !! k).
Proof.
  destruct r as [p va|p va b]; simpl; destruct (m !! (p, pg_round_down va)) as [bs|] eqn:Hb; simpl; try done.
  - destruct (bs !! _); [|done]. by intros [= _ <-].
  - intros [= _ <-]. destruct (decide (k = (p, pg_round_down va))) as [->|]; [rewrite lookup_insert_eq Hb; split; eauto|by rewrite lookup_insert_ne].
Qed.

Definition writes (r : request) : bool := match r with Load _ _ => false | Store _ _ _ => true end.

Lemma serve_ok n v tm m sm sema esp r : paged false None (S (S (S (S n)))) v tm m sm -> 0 < sema -> user_page (addr r).2 ->
  is_Some (m !! ((addr r).1, pg_round_down (addr r).2)) ->
  (serve init_page_dir init_ram_pages v sema esp r = Err Panic /\ swap_full (sw v)) \/
  exists o v' tm' m' sm', serve init_page_dir init_ram_pages v sema esp r = Ok (o, sema, v') /\ paged false None n v' tm' m' sm' /\
    match o with None => m' = m /\ denied v' (addr r).2 (writes r) | Some o => spec m r = Some (o, m') end.
Proof.
  intros H Hsema Hva [bs Hbs]. destruct (proj2 (g_dom _ _ _ _ _ _ _ _ _ _ H _) (mk_is_Some _ _ Hbs)) as [x Hx].
  destruct (g_page _ _ _ _ _ _ _ _ _ _ H _ _ _ _ Hx Hbs) as (_ & _ & pd & Hpd & _).
  destruct (switch_ok _ _ _ _ _ _ _ H Hpd) as (v0 & E0 & H0 & Hr0 & Hsw). rewrite -Hr0 in Hbs.
  destruct r as [p va|p va b]; cbn [serve addr fst snd writes] in *; rewrite E0; cbn [obind].
  - destruct (touch_ok true n v0 tm m sm sema va esp 0 false bs H0 Hva Hsema Hbs) as [[E Hf]|(a & v1 & tm' & sm' & E & H1 & Hr1 & _ & Ha)]; rewrite E; cbn [obind]; [by left; rewrite -Hsw|].
    right. destruct a as [a|]; [destruct Ha as [Ha _]|exists None, v1, tm', m, sm'; by split_and!]. exists (Some (mem (pal (ms v1)) a)), v1, tm', m, sm'. split_and!; [done|done|].
    have Hpb := page_byte _ _ _ _ _ _ _ _ bs H1 Hva Ha. rewrite Hr1 in Hpb. rewrite Hr0 in Hbs. cbn [spec]. rewrite Hbs /= Hpb ?Hr0 //.
  - destruct (touch_ok true n v0 tm m sm sema va esp 0 true bs H0 Hva Hsema Hbs) as [[E Hf]|(a & v1 & tm' & sm' & E & H1 & Hr1 & _ & Ha)]; rewrite E; cbn [obind]; [by left; rewrite -Hsw|].
    right. destruct a as [a|]; [destruct Ha as [Ha _]|exists None, v1, tm', m, sm'; by split_and!]. have Hst := paged_store _ _ _ _ _ _ _ b bs H1 Hva Ha. rewrite Hr1 in Hst.
    eexists _, _, tm', _, sm'. split; [done|]. split; [by apply Hst|]. rewrite Hr0 in Hbs |- *. cbn [spec]. by rewrite Hbs.
Qed.

(** A session stops with the panic for a full swap device, after [k] requests, or
    answers every request, where the requests that were not executed have been
    denied for a reason. *)
Definition session_panics v (sema esp : Z) (rs : list request) : Prop :=
  serve_all init_page_dir init_ram_pages v sema esp rs = Err Panic /\
  exists (k : nat) os v1, (k < length rs)%nat /\ serve_all init_page_dir init_ram_pages v sema esp (take k rs) = Ok (os, sema, v1) /\ swap_full (sw v1).
Definition session_ends v (sema esp : Z) (rs : list request) (m : gmap (Z * Z) (list Z)) (os : list (option Z)) : Prop :=
  answers m rs os /\
  forall (k : nat) r, rs !! k = Some r -> os !! k = Some None ->
    exists v1, serve_all init_page_dir init_ram_pages v sema esp (take (S k) rs) = Ok (take (S k) os, sema, v1) /\ denied v1 (addr r).2 (writes r).

Lemma serve_all_ok rs v tm m sm sema esp n : paged false None (n + 4 * length rs) v tm m sm -> 0 < sema ->
  (forall r, r ∈ rs -> user_page (addr r).2 /\ is_Some (m !! ((addr r).1, pg_round_down (addr r).2))) ->
  session_panics v sema esp rs \/
  exists os v', serve_all init_page_dir init_ram_pages v sema esp rs = Ok (os, sema, v') /\ session_ends v sema esp rs m os.
Proof.
  revert v tm m sm. induction rs as [|r rs IH]; intros v tm m sm H Hsema Hrs.
  { right. exists [], v. split; [done|]. split; [done|]. by intros k r. }
  destruct (Hrs r) as [Hva Hm]; [left|]. simpl length in H. have Hn : (n + 4 * S (length rs) = S (S (S (S (n + 4 * length rs)))))%nat by lia. rewrite Hn in H.
  rewrite /session_panics. cbn [serve_all].
  destruct (serve_ok _ v tm m sm sema esp r H Hsema Hva Hm) as [[E Hf]|(o & v1 & tm1 & m1 & sm1 & E & H1 & Ho)]; rewrite E; cbn [obind].
  { left. split; [done|]. exists O, [], v. simpl. split; [lia|done]. }
  destruct (IH v1 tm1 m1 sm1 H1 Hsema) as [(E2 & k & os & v2 & Hk & E3 & Hf)|(os & v2 & E2 & Ha & Hd)].
  { intros r' Hr'. destruct (Hrs r') as [? Hs]; [by right|]. split; [done|]. destruct o; [by eapply spec_dom|by destruct Ho as [-> _]]. }
  - left. rewrite E2. split; [done|]. exists (S k), (o :: os), v2. simpl. rewrite E. cbn [obind]. rewrite E3. split; [lia|done].
  - right. rewrite E2. cbn [obind]. exists (o :: os), v2. split; [done|]. split; [destruct o; simpl; [eauto|by destruct Ho as [-> _]]|].
    intros [|k] r' Hr' Ho'; simpl in Hr', Ho'.
    + injection Hr' as <-. injection Ho' as ->. exists v1. simpl. rewrite E. cbn [obind]. rewrite take_0 /=. by destruct Ho.
    + destruct (Hd k r' Hr' Ho') as (v3 & E3 & Hd3). exists v3. change (take (S (S k)) (r :: rs)) with (r :: take (S k) rs). cbn [serve_all]. rewrite E. cbn [obind]. by rewrite E3.
Qed.

(** ** Growing the stack *)

(** The condition under which [page_fault] grows the stack, [esp] being the stack pointer
    of the program: that of the interrupt frame for a fault of the program itself, the one
    saved by the system call for a fault of the kernel on its behalf. *)
Definition stack_access (va esp : Z) : Prop := u32 (esp - 32) <= va /\ PHYS_BASE - Z.shiftl 1 23 <= pg_round_down va.

Definition by_user (code : Z) : bool := negb (Z.land code PF_U =? 0).
Lemma page_fault_grows n v tm m sm sema va code esp saved : Z.land code PF_P = 0 -> paged false None (S n) v tm m sm -> user_page va -> 0 < sema -> upage_ok (pg_round_down va) ->
  stack_access va (if by_user code then esp else saved) -> m !! (running v, pg_round_down va) = None ->
  exists t, spt_is (S n) t tm /\
    page_fault init_page_dir init_ram_pages v sema va code esp saved =
      let! (grown, v) := fault_grow init_page_dir init_ram_pages (set_tb v t) (pg_round_down va) (by_user code) in
      Ok (if (grown : bool) then Resumed else Exited, sema, v).
Proof.
  intros Hcode H [Hva0 Hvau] Hsema Hup [He1 He2] Hm. destruct (upage_ofs _ Hup) as [Hofs _].
  have Hx : tm !! (running v, pg_round_down va) = None.
  { destruct (tm !! _) as [x|] eqn:Hx; [|done]. destruct (proj1 (g_dom _ _ _ _ _ _ _ _ _ _ H _) (mk_is_Some _ _ Hx)). congruence. }
  destruct (spt_flag_law _ (tb v) tm (running v) _ (g_spt _ _ _ _ _ _ _ _ _ _ H) Hofs) as (t & E & Ht). rewrite Hx /= in E. exists t. split; [done|].
  rewrite /page_fault. have -> : is_kernel_vaddr va = false by move: Hvau; rewrite /is_kernel_vaddr /is_user_vaddr; zbool; try done; lia.
  rewrite (proj2 (Z.ltb_lt 0 sema) Hsema). cbn [ASSERT obind]. rewrite E. cbn [obind].
  rewrite bool_decide_eq_true_2 //. rewrite Hcode Z.eqb_refl -/(by_user code). cbn [andb negb obind].
  rewrite (proj2 (Z.leb_le _ _) He1) (proj2 (Z.leb_le _ _) He2). cbn [andb].
  destruct (fault_grow _ _ _ _ _) as [[[] v']|]; cbn [obind]; [do 3 f_equal; lia..|done].
Qed.

(** The part of [fault_grow] after a frame has been found. *)
Lemma grow_frame_ok user i n v0 v tm m sm va : paged false (Some i) (S n) v tm m sm -> upage_ok va -> translate (ms v) (active (ms v)) va = None -> kaddr v i = kaddr v0 i ->
  exists grown v', (let! (success, v) := install init_page_dir init_ram_pages v (active (ms v)) va (kaddr v0 i) true in
    if success then
      let! v := record_frame v (kaddr v0 i) va user in
      let! t := spt_set_kernel (tb v) (running v) va 0 SPTE_ZERO true in
      Ok (true, set_tb v t)
    else let! v := falloc_free_frame v (kaddr v0 i) in Ok (false, v)) = Ok (grown, v') /\
    if (grown : bool) then
      (exists w, translate (ms v') (active (ms v')) va = Some w /\ frame_of w = kaddr v i /\ frame_bytes v' w = page_bytes (mem (pal (ms v))) (kaddr v i)) /\
      (page_bytes (mem (pal (ms v))) (kaddr v i) = zero_page -> exists tm', paged false None n v' tm' (<[(running v, va) := zero_page]> m) sm)
    else paged false None (S n) v' tm m sm.
Proof.
  intros H Hva Htr Hk. destruct (upage_ofs _ Hva) as [Hofs Hv0]. have Hrun := g_run _ _ _ _ _ _ _ _ _ _ H. rewrite -Hk.
  destruct (g_hole _ _ _ _ _ _ _ _ _ _ H i eq_refl) as [Hi _]. destruct (kaddr_ok _ _ _ _ _ _ _ _ _ _ H i Hi) as (Hkm & Hkr & _).
  destruct (install_ok i _ v _ _ _ _ _ va true H Hrun Hva Htr) as (ok & s' & E & Hok). rewrite E. cbn [obind]. destruct ok; last first.
  { destruct Hok as [-> _]. rewrite set_ms_id. destruct (falloc_free_frame_ok _ _ _ i _ v _ _ _ H) as (v' & E2 & Hp & _). rewrite E2. cbn [obind]. by exists false, v'. }
  destruct Hok as [Hmt _]. have Hku : kaddr (set_ms v s') i = kaddr v i. { rewrite /kaddr /upool /=. by rewrite (to_user _ _ (mt_only _ _ _ _ _ Hmt)). }
  destruct (record_frame_ok (set_ms v s') i va user) as (pin & _ & E2); rewrite ?Hku; try done; [apply H| |lia|].
  { simpl. rewrite (g_len _ _ _ _ _ _ _ _ _ _ H). done. }
  rewrite Hku in E2. rewrite E2. cbn [obind tb running].
  destruct (spt_set_law n (tb v) tm (running v) va 0 SPTE_ZERO true (g_spt _ _ _ _ _ _ _ _ _ _ H) Hofs Hv0) as (t & pos & E3 & Ht); [done|].
  change (tb (set_ms v s')) with (tb v). change (running (set_ms v s')) with (running v). rewrite E3. cbn [obind]. eexists true, _. split; [done|]. split.
  - exists (user_pte (kaddr v i) true). simpl. rewrite (mt_act _ _ _ _ _ Hmt) (mt_tr _ _ _ _ _ Hmt); [apply H|by apply upage_user|]. rewrite bool_decide_eq_true_2 //. split; [done|].
    rewrite /frame_bytes frame_user_pte //. split; [done|]. apply page_bytes_ext. intros a Ha. simpl. apply (to_mem _ _ (mt_only _ _ _ _ _ Hmt)). rewrite /kaddr /upool /PGSIZE in Ha. lia.
  - intros Hz. exists (<[(running v, va) := mk_entry 0 pos SPTE_ZERO true]> tm).
    have Hmp := map_ok i (S n) n v tm m sm va true (mk_entry 0 pos SPTE_ZERO true) s' (sw v) t (fl v) pin sm H Hva Htr Hmt (g_swap _ _ _ _ _ _ _ _ _ _ H) Ht.
    cbv zeta in Hmp. rewrite Hz in Hmp. by apply Hmp.
Qed.
End proofs.

(** C8: demand paging is transparent.  Given any contents of the user pages of
    all processes, kept in frames, on the swap device, in files or nowhere, and
    any sequence of loads and stores by these processes to these pages: unless
    the kernel panics, after some of the requests, because the swap device is
    full then, every instruction that is executed returns what the plain memory
    would, a load the byte that was stored last, whatever was evicted and loaded
    again in between.  An instruction is not executed, and its process killed,
    only for a store to a page mapped read-only, when all frames are pinned, or
    when there is no memory for a page table; that changes no page.  No
    instruction faults more than twice. *)
Theorem demand_paging_transparent {T F : Type} {spt_ops : SptOps T} {file_ops : FileOps F} {spt_laws : SptTable T} {file_laws : FileLaws F}
    (init_page_dir init_ram_pages : Z) (D : gset Z) (v : vm T F) (tm : gmap (Z * Z) entry) (m : gmap (Z * Z) (list Z)) (sm : gmap Z (list Z))
    (pf_sema esp : Z) (rs : list request) :
  paged init_page_dir init_ram_pages D false None (4 * length rs) v tm m sm -> 0 < pf_sema ->
  (forall r, r ∈ rs -> user_page (addr r).2 /\ is_Some (m !! ((addr r).1, pg_round_down (addr r).2))) ->
  session_panics init_page_dir init_ram_pages v pf_sema esp rs \/
  exists os v', serve_all init_page_dir init_ram_pages v pf_sema esp rs = Ok (os, pf_sema, v') /\ session_ends init_page_dir init_ram_pages v pf_sema esp rs m os.
Proof. intros H. apply (serve_all_ok _ _ D rs v tm m sm pf_sema esp 0 H). Qed.

(** C27: growing the stack.  The program, or the kernel on its behalf, reads or writes
    a page near its stack pointer that it does not have yet, and [page_fault] resumes it:
    the page is mapped.  If there was a free frame, the page is all zeros and no page of
    any process changes.  If there was none, the page is in a frame [i] that, before the
    fault, held an unpinned page of some process, and its bytes are still the bytes of that
    page: [falloc_get_frame] zeroes only frames from the pool. *)
Theorem stack_growth_contents {T F : Type} {spt_ops : SptOps T} {file_ops : FileOps F} {spt_laws : SptTable T} {file_laws : FileLaws F}
    (init_page_dir init_ram_pages : Z) (D : gset Z) (n : nat) (v v' : vm T F) (tm : gmap (Z * Z) entry) (m : gmap (Z * Z) (list Z)) (sm : gmap Z (list Z))
    (pf_sema pf_sema' va code esp saved : Z) :
  paged init_page_dir init_ram_pages D false None (S (S n)) v tm m sm -> user_page va -> 0 < pf_sema -> upage_ok (pg_round_down va) ->
  Z.land code PF_P = 0 -> stack_access va (if by_user code then esp else saved) -> m !! (running v, pg_round_down va) = None ->
  page_fault init_page_dir init_ram_pages v pf_sema va code esp saved = Ok (Resumed, pf_sema', v') ->
  exists w, translate (ms v') (active (ms v')) (pg_round_down va) = Some w /\
    (((exists i, 0 <= i < cnt v /\ uses v i = false) /\ frame_bytes v' w = zero_page /\
      exists tm', paged init_page_dir init_ram_pages D false None n v' tm' (<[(running v, pg_round_down va) := zero_page]> m) sm) \/
     ((forall i, 0 <= i < cnt v -> uses v i = true) /\
      exists i e pd w0, 0 <= i < cnt v /\ ft v !! Z.to_nat i = Some e /\ pinned e = false /\
        dirs v !! f_pid e = Some pd /\ translate (ms v) pd (f_upage e) = Some w0 /\ frame_of w0 = kaddr v i /\ frame_of w = kaddr v i /\
        m !! (f_pid e, f_upage e) = Some (frame_bytes v w0) /\ frame_bytes v' w = frame_bytes v w0)).
Proof.
  intros H Hva Hsema Hup Hcode Hst Hm E.
  have Htr : translate (ms v) (active (ms v)) (pg_round_down va) = None.
  { destruct (translate _ _ _) as [w|] eqn:Hw; [|done]. destruct (g_mapped _ _ _ _ _ _ _ _ _ _ H _ _ _ _ (g_run _ _ _ _ _ _ _ _ _ _ H) Hup Hw) as [[bs Hbs] _]. congruence. }
  destruct (page_fault_grows _ _ _ _ _ _ _ _ _ _ _ _ _ Hcode H Hva Hsema Hup Hst Hm) as (t & Ht & E1). rewrite E1 in E.
  have Hg := paged_tb _ _ _ _ _ _ _ _ _ _ _ _ H Ht. have Hrun := g_run _ _ _ _ _ _ _ _ _ _ Hg. destruct (g_dirs _ _ _ _ _ _ _ _ _ _ Hg _ _ Hrun) as [Hpd _].
  set (v0 := set_tb v t) in *. rewrite /fault_grow Hrun in E. cbn [oget obind] in E.
  have Hgrow : forall i v1 tm1 sm1, paged init_page_dir init_ram_pages D false (Some i) (S n) v1 tm1 m sm1 -> kept D v0 v1 ->
    falloc_get_frame init_page_dir v0 PAL_ZERO = Ok (kaddr v0 i, v1) -> kaddr v0 i <> 0 ->
    exists w, translate (ms v') (active (ms v')) (pg_round_down va) = Some w /\ frame_of w = kaddr v0 i /\ frame_bytes v' w = page_bytes (mem (pal (ms v1))) (kaddr v0 i) /\
      (page_bytes (mem (pal (ms v1))) (kaddr v0 i) = zero_page ->
         exists tm', paged init_page_dir init_ram_pages D false None n v' tm' (<[(running v, pg_round_down va) := zero_page]> m) sm1).
  { intros i v1 tm1 sm1 H1 Hk E2 Hk0. rewrite E2 in E. cbn [obind] in E. rewrite (proj2 (Z.eqb_neq _ _) Hk0) in E. cbn [negb] in E.
    have Hka : kaddr v1 i = kaddr v0 i by rewrite /kaddr (kp_base _ _ _ Hk).
    have Hact : active (ms v1) = active (ms v0). { have := g_run _ _ _ _ _ _ _ _ _ _ H1. rewrite (kp_dirs _ _ _ Hk) (kp_run _ _ _ Hk) Hrun. congruence. }
    have Htr1 : translate (ms v1) (active (ms v1)) (pg_round_down va) = None.
    { rewrite Hact. apply (kp_none _ _ _ Hk); [done|by apply upage_user|done]. }
    destruct (grow_frame_ok _ _ _ (by_user code) i n v0 v1 tm1 m sm1 _ H1 Hup Htr1 Hka) as (grown & v2 & E3 & Hgr). rewrite -Hact in E. rewrite E3 in E. cbn [obind] in E.
    destruct grown; [|done]. injection E as _ <-. destruct Hgr as [(w & Hw & Hfo & Hf) Hz]. exists w. rewrite -Hka. split_and!; [done|done|done|].
    rewrite (kp_run _ _ _ Hk) in Hz. exact Hz. }
  destruct (all_used_dec v0) as [[i0 Hi0]|Hall].
  - destruct (falloc_free _ _ _ _ v0 tm m sm PAL_ZERO Hg) as (i & v1 & E2 & H1 & Hk & Hi & _ & _ & Hz & _); [eauto|].
    destruct (kaddr_ok _ _ _ _ _ _ _ _ _ _ Hg i Hi) as (_ & Hkr & _).
    destruct (Hgrow i v1 tm sm (paged_mono _ _ _ _ _ _ _ _ _ _ H1) Hk E2) as (w & Hw & _ & Hf & Hp); [rewrite /PHYS_BASE in Hkr; lia|].
    specialize (Hz eq_refl). exists w. split; [done|]. left. split; [eauto|]. split; [by rewrite Hf|]. by apply Hp.
  - destruct (falloc_evict _ _ _ _ _ _ _ _ PAL_ZERO Hg Hall) as [(E2 & _)|[(v1 & E2 & _)|(i & v1 & tm1 & sm1 & E2 & H1 & Hk & _ & Hi & Hb & e & He & Hpin & _)]].
    + by rewrite E2 in E.
    + by rewrite E2 in E.
    + destruct (kaddr_ok _ _ _ _ _ _ _ _ _ _ Hg i Hi) as (_ & Hkr & _).
      destruct (Hgrow i v1 tm1 sm1 H1 Hk E2) as (w & Hw & Hfo & Hf & _); [rewrite /PHYS_BASE in Hkr; lia|]. exists w. split; [done|]. right. split; [done|].
      destruct (g_used _ _ _ _ _ _ _ _ _ _ Hg i Hi (Hall i Hi)) as (e' & pd & w' & He' & _ & Hd & Hue & Hw' & Hfw); [done|]. have ? : e' = e by congruence. subst e'.
      destruct (g_mapped _ _ _ _ _ _ _ _ _ _ Hg _ _ _ _ Hd Hue Hw') as ([bs Hbs] & _).
      destruct (proj2 (g_dom _ _ _ _ _ _ _ _ _ _ Hg _) (mk_is_Some _ _ Hbs)) as [x Hx].
      destruct (g_page _ _ _ _ _ _ _ _ _ _ Hg _ _ _ _ Hx Hbs) as (_ & _ & pd' & Hd' & Hpg). have ? : pd' = pd by congruence. subst pd'.
      rewrite Hw' in Hpg. destruct Hpg as [Hpg _]. exists i, e, pd, w'. split_and!; try done; try (by rewrite Hbs -Hpg); [apply Hi|apply Hi|]. by rewrite Hf Hb /frame_bytes Hfw.
Qed.

(** ** An example: two processes share one frame *)
Definition ex_requests : list request := [Load 4 0x8048001; Store 3 0x8049000 7; Load 4 0x8048005; Load 3 0x8049000].
Abbreviation ex_serve_all := (serve_all (spt_ops := table_ops (fun _ => true)) 0xc0300000 4096).

Lemma demand_paging_transparent_witness :
  exists v', ex_serve_all (ex_vm ex_swap) 1 0xbfffff00 ex_requests = Ok ([Some 105; Some 7; Some 115; Some 7], 1, v') /\
    answers ex_pages ex_requests [Some 105; Some 7; Some 115; Some 7].
Proof.
  destruct (demand_paging_transparent (spt_laws := table_spt (fun _ => true)) 0xc0300000 4096 ex_frame_dirs (ex_vm ex_swap) ex_tm ex_pages ∅ 1 0xbfffff00 ex_requests)
    as [[E _]|(os & v' & E & H & _)].
  - eapply paged_le; [|apply (ex_paged ex_swap ex_swap_empty)]. simpl. lia.
  - reflexivity.
  - intros r Hr. rewrite /ex_requests !elem_of_cons in Hr. destruct Hr as [->|[->|[->|[->|Hr]]]]; [split; [done|vm_compute; eauto]..|by apply not_elem_of_nil in Hr].
  - exfalso. have Hb : (match ex_serve_all (ex_vm ex_swap) 1 0xbfffff00 ex_requests with Ok _ => true | Err _ => false end) = true by vm_compute. by rewrite E in Hb.
  - exists v'. have Hb : (match ex_serve_all (ex_vm ex_swap) 1 0xbfffff00 ex_requests with Ok (os, _, _) => os | Err _ => [] end) = [Some 105; Some 7; Some 115; Some 7] by vm_compute.
    rewrite E in Hb. subst os. split; [exact E|exact H].
Defined.

(** Process 4 has used its page, then process 3 runs: no frame is free. *)
Definition ex_full : vm sptab (gmap Z (list Z)) :=
  match (let! (_, _, v) := serve (spt_ops := table_ops (fun _ => true)) 0xc0300000 4096 (ex_vm ex_swap) 1 0xbfffff00 (Load 4 0x8048001) in switch 0xc0300000 v 3) with
  | Ok v => v | Err _ => ex_vm ex_swap end.
Lemma ex_full_paged : exists tm sm, paged (spt_laws := table_spt (fun _ => true)) 0xc0300000 4096 ex_frame_dirs false None 234 ex_full tm ex_pages sm /\ running ex_full = 3.
Proof.
  destruct (serve_ok (spt_laws := table_spt (fun _ => true)) 0xc0300000 4096 ex_frame_dirs 234 (ex_vm ex_swap) ex_tm ex_pages ∅ 1 0xbfffff00 (Load 4 0x8048001) (ex_paged ex_swap ex_swap_empty))
    as [[E _]|(o & v1 & tm & m & sm & E & H & Ho)].
  - done.
  - done.
  - vm_compute. eauto.
  - exfalso. have Hb : (match serve (spt_ops := table_ops (fun _ => true)) 0xc0300000 4096 (ex_vm ex_swap) 1 0xbfffff00 (Load 4 0x8048001) with Ok _ => true | Err _ => false end) = true by vm_compute.
    by rewrite E in Hb.
  - have Hm : m = ex_pages. { destruct o; [|by destruct Ho]. move: Ho. cbn [spec]. destruct (ex_pages !! _) as [bs|]; [|done]. simpl. destruct (bs !! _); [|done]. by intros [= _ <-]. }
    subst m. have Hp : is_Some (ex_pages !! (3, 0x8049000)) by rewrite /ex_pages lookup_insert_eq; eauto.
    apply (g_dom _ _ _ _ _ _ _ _ _ _ H) in Hp as [e He]. have Hb : ex_pages !! (3, 0x8049000) = Some zero_page by rewrite /ex_pages lookup_insert_eq.
    destruct (g_page _ _ _ _ _ _ _ _ _ _ H _ _ _ _ He Hb) as (_ & _ & pd & Hd & _).
    destruct (switch_ok _ _ _ _ _ _ _ _ 3 pd H Hd) as (v2 & E2 & H2 & Hr & _). exists tm, sm. rewrite /ex_full E. cbn [obind]. rewrite E2. exact (conj H2 Hr).
Qed.

(** The new stack page, written by the program, holds bytes of the page of another process. *)
Lemma stack_growth_contents_witness :
  exists pf_sema' v' w, page_fault (spt_ops := table_ops (fun _ => true)) 0xc0300000 4096 ex_full 1 0xbfffeff0 (PF_U + PF_W) 0xbffff000 0 = Ok (Resumed, pf_sema', v') /\
    translate (ms v') (active (ms v')) 0xbfffe000 = Some w /\
    exists i e w0, ft ex_full !! Z.to_nat i = Some e /\ frame_of w = kaddr ex_full i /\
      ex_pages !! (f_pid e, f_upage e) = Some (frame_bytes ex_full w0) /\ frame_bytes v' w = frame_bytes ex_full w0.
Proof.
  have Hb : (match page_fault (spt_ops := table_ops (fun _ => true)) 0xc0300000 4096 ex_full 1 0xbfffeff0 (PF_U + PF_W) 0xbffff000 0 with Ok (Resumed, _, _) => true | _ => false end) = true by vm_compute.
  destruct (page_fault _ _ ex_full 1 0xbfffeff0 (PF_U + PF_W) 0xbffff000 0) as [[[[] sema'] v']|] eqn:E; [|discriminate Hb..]. clear Hb.
  destruct ex_full_paged as (tm & sm & H & Hr).
  destruct (stack_growth_contents (spt_laws := table_spt (fun _ => true)) 0xc0300000 4096 ex_frame_dirs 232 ex_full v' tm ex_pages sm 1 sema' 0xbfffeff0 (PF_U + PF_W) 0xbffff000 0 H)
    as (w & Hw & [((i & Hi & Hu) & _)|(_ & i & e & pd & w0 & _ & He & _ & _ & _ & _ & Hf & Hm & Hbs)]).
  - split; [lia|reflexivity].
  - lia.
  - split; [reflexivity|]. split; reflexivity.
  - reflexivity.
  - split; vm_compute; discriminate.
  - rewrite Hr. change (pg_round_down 0xbfffeff0) with 0xbfffe000. rewrite /ex_pages !lookup_insert_ne; [discriminate|discriminate|]. apply lookup_empty.
  - exact E.
  - exfalso. have Hc : cnt ex_full = 1 by vm_compute. have Hi0 : i = 0 by lia. subst i. have Hu0 : uses ex_full 0 = true by vm_compute. congruence.
  - exists sema', v', w. split; [reflexivity|]. split; [exact Hw|]. exists i, e, w0. exact (conj He (conj Hf (conj Hm Hbs))).
Defined.
