(* ===== verification/Uptr.v ===== *)
(** * userprog/syscall.c: pointers that user programs pass to the kernel

    Before a system call reads an argument, a string or a buffer of the program,
    [valid], [valid_str] and [valid_buf] check the address, pin the frames that
    hold it and touch it, so that missing pages are loaded; [unpin], [unpin_str]
    and [unpin_buf] release the frames afterwards.  The kernel's own accesses to
    user memory fault like those of the program, except that the handler takes the
    stack pointer from [saved_esp] and pins the frame.

    A word is loaded a byte at a time.  A function that ends the process returns
    [None]; the state goes on without it.

    The theorems: [valid_str] refuses every string that leaves the program's
    memory, and otherwise returns with all pages of the string in pinned frames
    and every page of every process unchanged; addresses at the end of the
    address space make the checks wrap around and panic the kernel; the checks
    read beyond the memory they were asked to check. *)
From S2P Require Import Prelude Bitmap Palloc PageDir UserMem Block Swap Spt Frame Fault.

Section uptr.
Context {T F : Type} {spt_ops : SptOps T} {file_ops : FileOps F}.
Context (init_page_dir init_ram_pages : Z).

(** [esp] is the static variable of syscall.c, [saved_esp] a member of the
    current thread. *)
Record ctx := mk_ctx { c_vm : vm T F; pf_sema : Z; esp : Z; saved_esp : Z }.
Implicit Types c : ctx.

Definition set_vm c v : ctx := mk_ctx v (pf_sema c) (esp c) (saved_esp c).
Definition set_sema c n : ctx := mk_ctx (c_vm c) n (esp c) (saved_esp c).
Definition set_saved c e : ctx := mk_ctx (c_vm c) (pf_sema c) (esp c) e.

(** [exit (-1)] and [thread_exit ()] do not return. *)
Definition ubind {A B : Type} (r : outcome (option A * ctx)) (k : A -> ctx -> outcome (option B * ctx)) : outcome (option B * ctx) :=
  let! (a, c) := r in match a with Some a => k a c | None => Ok (None, c) end.

(** ** Kernel accesses to memory *)

(** The kernel is mapped above [PHYS_BASE], as far as there is memory; a fault
    beyond ends the process. *)
Definition peek c (va : Z) : outcome (option Z * ctx) :=
  if is_kernel_vaddr va then
    Ok (if va <? PHYS_BASE + PGSIZE * init_ram_pages then Some (mem (pal (ms (c_vm c))) va) else None, c)
  else
    let! (a, n, v) := touch init_page_dir init_ram_pages false 2 (c_vm c) (pf_sema c) va 0 (saved_esp c) false in
    Ok (option_map (mem (pal (ms v))) a, set_sema (set_vm c v) n).

(** The word at an address, little-endian. *)
Fixpoint load_bytes (n : nat) c (va : Z) : outcome (option Z * ctx) :=
  match n with
  | O => Ok (Some 0, c)
  | S n => ubind (peek c va) (fun b c => ubind (load_bytes n c (u32 (va + 1))) (fun w c => Ok (Some (b + 256 * w), c)))
  end.
Definition load_word c (va : Z) := load_bytes 4 c va.

(** ** Pinning *)
Definition down c : outcome ctx := assert! 0 <? pf_sema c in Ok (set_sema c (pf_sema c - 1)).
Definition up c : ctx := set_sema c (pf_sema c + 1).
Definition get_page c (va : Z) : outcome Z :=
  let! pd := oget (dirs (c_vm c) !! running (c_vm c)) in pagedir_get_page (ms (c_vm c)) pd va.
(** [if (paddr != NULL) ft_pin (pg_round_down (paddr));] *)
Definition pin c (paddr : Z) : outcome ctx :=
  if paddr =? 0 then Ok c else let! v := ft_pin (c_vm c) (pg_round_down paddr) in Ok (set_vm c v).
Definition unpin_frame c (paddr : Z) : outcome ctx :=
  if paddr =? 0 then Ok c else let! v := ft_unpin (c_vm c) (pg_round_down paddr) in Ok (set_vm c v).
(** [if (addr >= esp - 32 && addr >= PHYS_BASE - (1 << 23)) thread_current ()->saved_esp = esp;] *)
Definition note_esp c (addr : Z) : ctx :=
  if (u32 (esp c - 32) <=? addr) && (PHYS_BASE - Z.shiftl 1 23 <=? addr) then set_saved c (esp c) else c.

(** ** The checks *)
Definition valid c (addr : Z) : outcome (option Z * ctx) :=
  if addr =? 0 then Ok (None, c) else
  if is_kernel_vaddr (u32 (addr + 3)) then Ok (None, c) else
  let! c := down c in
  let! paddr1 := get_page c addr in
  let! paddr2 := get_page c (u32 (addr + 3)) in
  let! c := pin c paddr1 in
  let! c := pin c paddr2 in
  let c := note_esp (up c) addr in
  ubind (load_word c addr) (fun _ c =>
  ubind (load_word c (u32 (addr + 3))) (fun _ c => Ok (Some addr, c))).

(** What the loops of [valid_buf] and [valid_str] do before they touch a byte. *)
Definition pin_byte c (va : Z) : outcome ctx :=
  let! c := down c in
  let! paddr := get_page c va in
  let! c := pin c paddr in
  Ok (note_esp (up c) va).

(** The loop of [valid_buf], with [n] bytes left. *)
Fixpoint buf_loop (n : nat) c (va : Z) : outcome (option unit * ctx) :=
  match n with
  | O => Ok (Some tt, c)
  | S n =>
    let! c := pin_byte c va in
    ubind (load_word c va) (fun _ c => buf_loop n c (u32 (va + 1)))
  end.
Definition valid_buf c (buf length : Z) : outcome (option Z * ctx) :=
  if buf =? 0 then Ok (None, c) else
  if is_kernel_vaddr (u32 (buf + length - 1)) then Ok (None, c) else
  ubind (buf_loop (Z.to_nat length) c buf) (fun _ c => Ok (Some buf, c)).

(** One turn of the loop of [valid_str]: the character. *)
Definition str_step c (va : Z) : outcome (option Z * ctx) :=
  if is_kernel_vaddr va then Ok (None, c) else
  let! c := pin_byte c va in peek c va.
Fixpoint str_loop (fuel : nat) c (va : Z) : outcome (option unit * ctx) :=
  match fuel with
  | O => Err NoFuel
  | S fuel => ubind (str_step c va) (fun b c => if b =? 0 then Ok (Some tt, c) else str_loop fuel c (u32 (va + 1)))
  end.
Definition valid_str (fuel : nat) c (str : Z) : outcome (option Z * ctx) :=
  if str =? 0 then Ok (None, c) else
  ubind (str_loop fuel c str) (fun _ c => Ok (Some str, c)).

(** ** Releasing the frames *)
Definition unpin c (addr : Z) : outcome ctx :=
  let! paddr1 := get_page c addr in
  let! paddr2 := get_page c (u32 (addr + 3)) in
  let! c := unpin_frame c paddr1 in
  unpin_frame c paddr2.
Fixpoint unpin_loop (n : nat) c (va : Z) : outcome ctx :=
  match n with
  | O => Ok c
  | S n => let! paddr := get_page c va in let! c := unpin_frame c paddr in unpin_loop n c (u32 (va + 1))
  end.
Definition unpin_buf c (buf length : Z) : outcome ctx := unpin_loop (Z.to_nat length) c buf.
(** [strlen (str)] by the kernel. *)
Fixpoint user_strlen (fuel : nat) c (va : Z) : outcome (option Z * ctx) :=
  match fuel with
  | O => Err NoFuel
  | S fuel => ubind (peek c va) (fun b c => if b =? 0 then Ok (Some 0, c) else
                ubind (user_strlen fuel c (u32 (va + 1))) (fun n c => Ok (Some (n + 1), c)))
  end.
Definition unpin_str (fuel : nat) c (str : Z) : outcome (option unit * ctx) :=
  ubind (user_strlen fuel c str) (fun n c => let! c := unpin_buf c str n in Ok (Some tt, c)).
End uptr.
Arguments ctx T F : clear implicits.

(** ** The frame of a page that is mapped *)
Section proofs.
Context {T F : Type} {spt_ops : SptOps T} {file_ops : FileOps F} {spt_laws : SptTable T} {file_laws : FileLaws F}.
Context (init_page_dir init_ram_pages : Z) (D : gset Z).
Implicit Types (v : vm T F) (c : ctx T F).
Abbreviation paged := (paged init_page_dir init_ram_pages D).

Lemma user_round va : user_page va -> 0 < pg_round_down va -> upage_ok (pg_round_down va).
Proof.
  intros [Hv0 Hvu] H0. split; [done|]. rewrite /is_user_vaddr in Hvu |- *. apply Z.ltb_lt in Hvu. rewrite pg_round_down_eq in H0 |- *.
  split; [apply Z.ltb_lt|]; rewrite /PGSIZE in H0 |- *; dlia.
Qed.

Lemma mapped_frame n v tm m sm va w : paged false None n v tm m sm -> user_page va -> translate (ms v) (active (ms v)) va = Some w ->
  is_Some (m !! (running v, pg_round_down va)) /\
  exists i e, 0 <= i < cnt v /\ uses v i = true /\ ft v !! Z.to_nat i = Some e /\ f_pid e = running v /\ f_upage e = pg_round_down va /\ frame_of w = kaddr v i.
Proof.
  intros H Hva Hw. have Hrun := g_run _ _ _ _ _ _ _ _ _ _ H. destruct (round_down_page va Hva) as (Hpn & Ho & Hor).
  have Hup : upage_ok (pg_round_down va).
  { apply user_round; [done|]. destruct (decide (pg_round_down va = 0)) as [Hz|]; [|destruct Hva as [? _]; rewrite pg_round_down_eq in n0 |- *; rewrite /PGSIZE in n0 |- *; dlia].
    have := g_null _ _ _ _ _ _ _ _ _ _ H _ _ Hrun. rewrite (translate_page _ _ 0 va); [|congruence]. by rewrite -Hpn Hz. }
  rewrite -(translate_page _ _ (pg_round_down va)) // in Hw.
  destruct (g_mapped _ _ _ _ _ _ _ _ _ _ H _ _ _ _ Hrun Hup Hw) as (? & i & e & Hi & Hu & _ & He & ? & ? & ?). split; [done|]. by exists i, e.
Qed.

Lemma get_page_spec n c tm m sm va : paged false None n (c_vm c) tm m sm -> user_page va ->
  get_page c va = Ok (match translate (ms (c_vm c)) (active (ms (c_vm c))) va with Some w => frame_of w + pg_ofs va | None => 0 end).
Proof.
  intros H Hva. have Hrun := g_run _ _ _ _ _ _ _ _ _ _ H. rewrite /get_page Hrun. cbn [oget obind].
  destruct (g_dirs _ _ _ _ _ _ _ _ _ _ H _ _ Hrun) as [Hpd _]. have [Hv0 Hvu] := Hva.
  rewrite (get_page_ok D _ _ _ (c_inv _ _ (g_coh _ _ _ _ _ _ _ _ _ _ H)) Hpd Hv0 Hvu). destruct (translate _ _ va) as [w|] eqn:Hw; [|done].
  destruct (mapped_frame _ _ _ _ _ _ _ H Hva Hw) as (_ & i & e & Hi & _ & _ & _ & _ & Hf). destruct (kaddr_ok _ _ _ _ _ _ _ _ _ _ H i Hi) as (_ & Hk & _).
  rewrite -Hf in Hk. rewrite /frame_of in Hk |- *. rewrite /pte_get_page /ptov (proj2 (Z.ltb_lt _ _)); [rewrite /PHYS_BASE in Hk |- *; lia|].
  cbn [ASSERT obind]. rewrite wrap_small //. rewrite /PHYS_BASE in Hk |- *. lia.
Qed.

(** ** Pinning changes no page *)
Definition same_page (e e' : fte) : Prop := f_kpage e' = f_kpage e /\ f_pid e' = f_pid e /\ f_upage e' = f_upage e.
Lemma paged_ft locked hole n v tm m sm l : paged locked hole n v tm m sm -> Forall2 same_page (ft v) l -> paged locked hole n (set_ft v l) tm m sm.
Proof.
  intros H HF. have Hl := Forall2_length _ _ _ HF.
  have Hto : forall i e, ft v !! i = Some e -> exists e', l !! i = Some e' /\ same_page e e' by intros i e He; apply (Forall2_lookup_l _ _ _ _ _ HF He).
  destruct H. split; try done; simpl.
  - by rewrite -Hl.
  - intros i Hi Hu Hh. destruct (g_used i Hi Hu Hh) as (e & pd & w & He & Hk & Hd & Hup & Hw & Hf).
    destruct (Hto _ _ He) as (e' & He' & Hk' & Hp' & Hu'). exists e', pd, w. by rewrite Hk' Hp' Hu'.
  - intros p pd va w Hp Hva Hw. destruct (g_mapped p pd va w Hp Hva Hw) as (? & i & e & Hi & Hu & Hh & He & Hpe & Hue & Hf). split; [done|].
    destruct (Hto _ _ He) as (e' & He' & Hk' & Hp' & Hu'). exists i, e'. by rewrite Hp' Hu'.
Qed.

(** What every step below keeps. *)
Record goes_on c c' : Prop := {
  go_run : running (c_vm c') = running (c_vm c); go_sema : pf_sema c' = pf_sema c; go_esp : esp c' = esp c;
  go_saved : saved_esp c' = saved_esp c \/ saved_esp c' = esp c; go_pins : pins None (c_vm c) (c_vm c') }.
#[export] Instance goes_on_preorder : PreOrder goes_on.
Proof.
  split.
  - intros c. split; [done..|by left|apply pins_refl].
  - intros c1 c2 c3 [] []. split; [congruence..| |by eapply pins_trans]. destruct go_saved1; [|right; congruence]. destruct go_saved0; [left|right]; congruence.
Qed.

Lemma round_kaddr n v tm m sm i va : paged false None n v tm m sm -> user_page va -> 0 <= i < cnt v -> pg_round_down (kaddr v i + pg_ofs va) = kaddr v i.
Proof.
  intros H Hva Hi. destruct (kaddr_ok _ _ _ _ _ _ _ _ _ _ H i Hi) as (Hm & _). destruct (round_down_page va Hva) as (_ & _ & Ho).
  rewrite pg_round_down_eq. rewrite /PGSIZE in Hm, Ho |- *. dlia.
Qed.

(** [ft_pin] and [ft_unpin] on the frame of a page. *)
Lemma set_pinned_ok b n v tm m sm va w : paged false None n v tm m sm -> user_page va -> translate (ms v) (active (ms v)) va = Some w ->
  frame_of w + pg_ofs va <> 0 /\
  exists i e, 0 <= i < cnt v /\ uses v i = true /\ ft v !! Z.to_nat i = Some e /\ f_pid e = running v /\ f_upage e = pg_round_down va /\
    let v' := set_ft v (<[Z.to_nat i := mk_fte (f_kpage e) (f_pid e) (f_upage e) (present e) b]> (ft v)) in
    ft_set_pinned b v (pg_round_down (frame_of w + pg_ofs va)) = Ok v' /\ paged false None n v' tm m sm.
Proof.
  intros H Hva Hw. destruct (mapped_frame _ _ _ _ _ _ _ H Hva Hw) as (_ & i & e & Hi & Hu & He & Hp & Hup & Hf).
  destruct (kaddr_ok _ _ _ _ _ _ _ _ _ _ H i Hi) as (Hkm & Hk & _). destruct (round_down_page va Hva) as (_ & _ & Ho).
  split; [rewrite Hf; rewrite /PHYS_BASE in Hk; lia|]. exists i, e. split_and!; [lia|lia|done..|]. intros v'. rewrite Hf (round_kaddr _ _ _ _ _ _ _ H) //.
  rewrite /ft_set_pinned pg_ofs_mod Hkm /is_kernel_vaddr (proj2 (Z.leb_le _ _) (proj1 Hk)) /acquire_ft (g_lock _ _ _ _ _ _ _ _ _ _ H).
  cbn [Z.eqb ASSERT obind negb]. rewrite /ft_entry. change (ft_index (set_ft_lock v true) (kaddr v i)) with (ft_index v (kaddr v i)).
  rewrite ft_index_kaddr. destruct (Z.ltb_spec i 0); [lia|]. change (ft (set_ft_lock v true)) with (ft v). rewrite He. cbn [oget obind].
  rewrite /ft_put. change (ft_index (set_ft_lock v true) (kaddr v i)) with (ft_index v (kaddr v i)). rewrite ft_index_kaddr /release_ft. cbn [ft_lock set_ft set_ft_lock ASSERT obind].
  have Hlk := g_lock _ _ _ _ _ _ _ _ _ _ H. split; [rewrite /v' /set_ft /set_ft_lock /=; by rewrite Hlk|].
  apply paged_ft; [done|]. apply Forall2_same_length_lookup. split; [by rewrite length_insert|]. have Hlen := lookup_lt_Some _ _ _ He. intros j x y Hx.
  destruct (decide (j = Z.to_nat i)) as [->|Hne]; [rewrite list_lookup_insert_eq //|rewrite list_lookup_insert_ne //]; intros Hy; [injection Hy as <-|]; rewrite ?He in Hx; simplify_eq; by split_and!.
Qed.

Lemma pin_ok n c tm m sm va w : paged false None n (c_vm c) tm m sm -> user_page va -> translate (ms (c_vm c)) (active (ms (c_vm c))) va = Some w ->
  exists c', pin c (frame_of w + pg_ofs va) = Ok c' /\ paged false None n (c_vm c') tm m sm /\ goes_on c c' /\
    ms (c_vm c') = ms (c_vm c) /\ sw (c_vm c') = sw (c_vm c) /\ saved_esp c' = saved_esp c /\ held (c_vm c') (running (c_vm c)) (pg_round_down va).
Proof.
  intros H Hva Hw. destruct (set_pinned_ok true _ _ _ _ _ _ _ H Hva Hw) as (H0 & i & e & Hi & Hu & He & Hp & Hup & E & Hpg). rewrite /pin (proj2 (Z.eqb_neq _ _) H0) /ft_pin E. cbn [obind].
  set (v := c_vm c) in *. have Hlen := lookup_lt_Some _ _ _ He. eexists. split; [done|]. cbn [c_vm set_vm]. split_and!; try done.
  - split; try done; [by left|]. split; [done|]. intros j ej Hj _ Huj Hej Hpj. split; [done|]. simpl. destruct (decide (j = i)) as [->|Hne].
    + rewrite list_lookup_insert_eq //. have ? : ej = e by rewrite -/v He in Hej; congruence. subst ej. f_equal. destruct e. simpl in *. by subst.
    + rewrite list_lookup_insert_ne //. lia.
  - exists i. eexists. simpl. rewrite list_lookup_insert_eq //.
Qed.

Lemma note_esp_ok c va : goes_on c (note_esp c va) /\ c_vm (note_esp c va) = c_vm c.
Proof. rewrite /note_esp. destruct (_ && _); [|done]. split; [|done]. split; try done; by right. Qed.

Lemma pin_byte_ok n c tm m sm va : paged false None n (c_vm c) tm m sm -> 0 < pf_sema c -> user_page va ->
  exists c', pin_byte c va = Ok c' /\ paged false None n (c_vm c') tm m sm /\ goes_on c c' /\ sw (c_vm c') = sw (c_vm c) /\
    ms (c_vm c') = ms (c_vm c) /\ (translate (ms (c_vm c)) (active (ms (c_vm c))) va = None \/ held (c_vm c') (running (c_vm c)) (pg_round_down va)).
Proof.
  intros H Hs Hva. rewrite /pin_byte /down (proj2 (Z.ltb_lt _ _) Hs). cbn [ASSERT obind].
  set (c0 := set_sema c (pf_sema c - 1)). have H0 : paged false None n (c_vm c0) tm m sm by done.
  rewrite (get_page_spec _ _ _ _ _ _ H0 Hva). cbn [obind]. have Hup : pf_sema c0 + 1 = pf_sema c by simpl; lia.
  destruct (translate (ms (c_vm c0)) (active (ms (c_vm c0))) va) as [w|] eqn:Hw.
  - destruct (pin_ok _ _ _ _ _ _ _ H0 Hva Hw) as (c1 & -> & H1 & Hg & Hms & Hsw & Hsv & Hh). cbn [obind].
    destruct (note_esp_ok (up c1) va) as [Hn Hv]. eexists. split; [done|]. rewrite Hv. split_and!; try done; [|by right].
    etrans; [|exact Hn]. destruct Hg. split; try done. simpl. lia.
  - rewrite /pin Z.eqb_refl. cbn [obind]. destruct (note_esp_ok (up c0) va) as [Hn Hv]. eexists. split; [done|]. rewrite Hv. split_and!; try done; [|by left].
    etrans; [|exact Hn]. split; try done; by left.
Qed.

Lemma user_not_kernel va : user_page va -> is_kernel_vaddr va = false.
Proof. intros [_ Hu]. move: Hu. rewrite /is_kernel_vaddr /is_user_vaddr. zbool; try done; lia. Qed.

(** A byte that the process has. *)
Lemma peek_ok n c tm m sm va bs : paged false None (4 + n) (c_vm c) tm m sm -> 0 < pf_sema c -> user_page va ->
  m !! (running (c_vm c), pg_round_down va) = Some bs ->
  (peek init_page_dir init_ram_pages c va = Err Panic /\ swap_full (sw (c_vm c))) \/
  exists o c' tm' sm', peek init_page_dir init_ram_pages c va = Ok (o, c') /\ paged false None n (c_vm c') tm' m sm' /\ goes_on c c' /\
    match o with
    | Some b => bs !! Z.to_nat (pg_ofs va) = Some b /\ (translate (ms (c_vm c)) (active (ms (c_vm c))) va = None -> held (c_vm c') (running (c_vm c)) (pg_round_down va))
    | None => stuck (c_vm c') (pg_round_down va)
    end.
Proof.
  intros H Hs Hva Hbs. rewrite /peek user_not_kernel //.
  destruct (touch_ok _ _ D false n (c_vm c) tm m sm (pf_sema c) va 0 (saved_esp c) false bs H Hva Hs Hbs) as [[E Hf]|(a & v' & tm' & sm' & E & H' & Hr & Hpi & Ha)];
    rewrite E; cbn [obind]; [by left|right].
  eexists _, _, tm', sm'. split; [done|]. split; [done|]. split; [split; try done; by left|]. destruct a as [a|]; simpl.
  - destruct Ha as [Ha Hh]. split; [|by apply Hh]. apply (page_byte _ _ _ _ _ _ _ _ _ _ _ bs H' Hva Ha). by rewrite Hr.
  - destruct Ha as [[? _]|Hst]; done.
Qed.

(** When does a fault of the kernel grow the stack? *)
Definition may_grow c (va : Z) : Prop := stack_access va (esp c) \/ stack_access va (saved_esp c).
Lemma goes_on_grow c c' va : goes_on c c' -> may_grow c' va -> may_grow c va.
Proof. intros [_ _ He Hs _] [Ha|Ha]; [left; by rewrite -He|]. destruct Hs as [Hs|Hs]; rewrite Hs in Ha; [by right|by left]. Qed.

(** A byte that the process does not have. *)
Lemma peek_missing n c tm m sm va : paged false None (S n) (c_vm c) tm m sm -> 0 < pf_sema c -> user_page va ->
  m !! (running (c_vm c), pg_round_down va) = None -> ~ may_grow c va ->
  exists c', peek init_page_dir init_ram_pages c va = Ok (None, c') /\ paged false None n (c_vm c') tm m sm /\ goes_on c c'.
Proof.
  intros H Hs Hva Hm Hg. rewrite /peek user_not_kernel //. have [Hv0 Hvu] := Hva.
  have Htr : translate (ms (c_vm c)) (active (ms (c_vm c))) va = None.
  { destruct (translate _ _ va) as [w|] eqn:Hw; [|done]. destruct (mapped_frame _ _ _ _ _ _ _ H Hva Hw) as ([bs Hbs] & _). congruence. }
  have Hacc : access (ms (c_vm c)) va false = None.
  { destruct (access (ms (c_vm c)) va false) as [[a s]|] eqn:Ha; [|done].
    destruct (access_ok D _ _ _ _ _ (g_coh _ _ _ _ _ _ _ _ _ _ H) Hv0 Hvu Ha) as (w & _ & Hw & _). congruence. }
  have Hx : tm !! (running (c_vm c), pg_round_down va) = None.
  { destruct (tm !! _) as [x|] eqn:Hx; [|done]. destruct (proj1 (g_dom _ _ _ _ _ _ _ _ _ _ H _) (mk_is_Some _ _ Hx)). congruence. }
  have Hofs : pg_ofs (pg_round_down va) = 0 by rewrite pg_ofs_mod pg_round_down_eq /PGSIZE; dlia.
  destruct (spt_flag_law _ (tb (c_vm c)) tm (running (c_vm c)) _ (g_spt _ _ _ _ _ _ _ _ _ _ H) Hofs) as (t & E & Ht). rewrite Hx /= in E.
  cbn [touch]. rewrite Hacc /page_fault user_not_kernel // (proj2 (Z.ltb_lt 0 _) Hs). cbn [ASSERT obind]. rewrite E. cbn [obind].
  rewrite bool_decide_eq_true_2 // andb_false_r. cbn [obind]. rewrite error_code_kernel. cbn [Z.eqb negb].
  have -> : (Z.land (error_code false (c_vm c) va false) PF_P =? 0) && (u32 (saved_esp c - 32) <=? va) && (PHYS_BASE - Z.shiftl 1 23 <=? pg_round_down va) = false.
  { apply not_true_iff_false. rewrite !andb_true_iff !Z.leb_le. intros [[_ H1] H2]. apply Hg. right. by split. }
  cbn [obind option_map]. eexists. split; [done|]. split; [apply paged_mono; exact (paged_tb _ _ _ _ _ _ _ _ _ _ _ _ H Ht)|]. split; try done; [simpl; lia|by left].
Qed.

(** ** Strings *)

(** What [valid_str] finds, in [n] characters from [a]: a terminator, or the end of
    the memory of process [p].  [grow] are the addresses at which the stack could
    grow; page 0 and the pages beyond the process are not among them. *)
Inductive scanned (m : gmap (Z * Z) (list Z)) (p : Z) (grow : Z -> Prop) : nat -> Z -> bool -> Prop :=
| sc_kernel a : PHYS_BASE <= a -> scanned m p grow 1 a false
| sc_missing a : user_page a -> m !! (p, pg_round_down a) = None -> ~ grow a -> scanned m p grow 1 a false
| sc_nul a bs : user_page a -> m !! (p, pg_round_down a) = Some bs -> bs !! Z.to_nat (pg_ofs a) = Some 0 -> scanned m p grow 1 a true
| sc_char a bs b n r : user_page a -> m !! (p, pg_round_down a) = Some bs -> bs !! Z.to_nat (pg_ofs a) = Some b -> b <> 0 ->
    scanned m p grow n (a + 1) r -> scanned m p grow (S n) a r.

(** One turn of the loop on a byte that the process has. *)
Lemma str_step_ok n c tm m sm va bs : paged false None (4 + n) (c_vm c) tm m sm -> 0 < pf_sema c -> user_page va ->
  m !! (running (c_vm c), pg_round_down va) = Some bs ->
  (str_step init_page_dir init_ram_pages c va = Err Panic /\ swap_full (sw (c_vm c))) \/
  exists o c' tm' sm', str_step init_page_dir init_ram_pages c va = Ok (o, c') /\ paged false None n (c_vm c') tm' m sm' /\ goes_on c c' /\
    match o with
    | Some b => bs !! Z.to_nat (pg_ofs va) = Some b /\ held (c_vm c') (running (c_vm c)) (pg_round_down va)
    | None => stuck (c_vm c') (pg_round_down va)
    end.
Proof.
  intros H Hs Hva Hbs. rewrite /str_step user_not_kernel //.
  destruct (pin_byte_ok _ _ _ _ _ _ H Hs Hva) as (c1 & E1 & H1 & Hg1 & Hsw & Hms & Hp). rewrite E1. cbn [obind].
  destruct (peek_ok n c1 tm m sm va bs H1) as [[E Hf]|(o & c2 & tm2 & sm2 & E & H2 & Hg2 & Ho)]; try done.
  - by rewrite (go_sema _ _ Hg1).
  - by rewrite (go_run _ _ Hg1).
  - left. by rewrite -Hsw.
  - right. exists o, c2, tm2, sm2. split_and!; [done|done|by etrans|]. destruct o as [b|]; [|done]. destruct Ho as [Hb Hh]. split; [done|].
    destruct Hp as [Hn|Hp]; [rewrite -(go_run _ _ Hg1); apply Hh; by rewrite Hms|]. by eapply pins_held; [apply Hg2|].
Qed.

(** The state after [j] characters other than the terminator. *)
Fixpoint str_prefix (j : nat) c (va : Z) : outcome (option (ctx T F)) :=
  match j with
  | O => Ok (Some c)
  | S j => let! (b, c) := str_step init_page_dir init_ram_pages c va in
           match b with Some b => if b =? 0 then Ok None else str_prefix j c (u32 (va + 1)) | None => Ok None end
  end.

Lemma str_loop_ok grow p m n a r : scanned m p grow n a r -> forall c tm sm fuel k, p = running (c_vm c) -> (forall x, may_grow c x -> grow x) ->
  paged false None (4 * n + k) (c_vm c) tm m sm -> 0 < pf_sema c -> (n <= fuel)%nat ->
  (str_loop init_page_dir init_ram_pages fuel c a = Err Panic /\
     exists (j : nat) c1, (j < n)%nat /\ str_prefix j c a = Ok (Some c1) /\ swap_full (sw (c_vm c1))) \/
  exists o c' tm' sm', str_loop init_page_dir init_ram_pages fuel c a = Ok (o, c') /\ paged false None k (c_vm c') tm' m sm' /\ goes_on c c' /\
    match o with
    | Some _ => r = true /\ forall x, a <= x < a + Z.of_nat n -> held (c_vm c') p (pg_round_down x)
    | None => r = false \/ exists x, a <= x < a + Z.of_nat n /\ stuck (c_vm c') (pg_round_down x)
    end.
Proof.
  intros Hsc. induction Hsc as [a Hk|a Hva Hm Hg|a bs Hva Hm Hb|a bs b n r Hva Hm Hb Hb0 Hsc IH]; intros c tm sm [|fuel] k -> Hgr H Hs Hf; try lia; simpl.
  - rewrite /str_step /is_kernel_vaddr (proj2 (Z.leb_le _ _) Hk). right. exists None, c, tm, sm. split; [done|]. split; [by do 4 apply paged_mono|]. split; [done|by left].
  - rewrite /str_step user_not_kernel //. destruct (pin_byte_ok _ _ _ _ _ _ H Hs Hva) as (c1 & E1 & H1 & Hg1 & _). rewrite E1. cbn [obind].
    destruct (peek_missing (3 + k) c1 tm m sm a H1) as (c2 & E2 & H2 & Hg2); [by rewrite (go_sema _ _ Hg1)|done|by rewrite (go_run _ _ Hg1)| |].
    { intros Hx. apply Hg, Hgr. by eapply goes_on_grow. }
    rewrite E2. right. exists None, c2, tm, sm. split; [done|]. split; [by do 3 apply paged_mono|]. split; [by etrans|by left].
  - destruct (str_step_ok k c tm m sm a bs H Hs Hva Hm) as [[E Hfl]|(o & c1 & tm1 & sm1 & E & H1 & Hg1 & Ho)]; rewrite E; [left|right].
    + split; [done|]. exists O, c. split; [lia|done].
    + destruct o as [b|]; simpl; last first. { exists None, c1, tm1, sm1. split_and!; [done..|]. right. exists a. split; [lia|done]. }
      destruct Ho as [Hb' Hh]. have ? : b = 0 by congruence. subst b. exists (Some tt), c1, tm1, sm1. split_and!; [done..|]. intros x Hx. by have -> : x = a by lia.
  - have Hn : (4 * S n + k = 4 + (4 * n + k))%nat by lia. rewrite Hn in H.
    destruct (str_step_ok _ c tm m sm a bs H Hs Hva Hm) as [[E Hfl]|(o & c1 & tm1 & sm1 & E & H1 & Hg1 & Ho)]; rewrite E; [left|].
    { split; [done|]. exists O, c. split; [lia|done]. }
    destruct o as [b'|]; simpl; last first. { right. exists None, c1, tm1, sm1. split_and!; [done|by eapply paged_le; [|done]; lia|done|]. right. exists a. split; [lia|done]. }
    destruct Ho as [Hb' Hh]. have ? : b' = b by congruence. subst b'. rewrite (proj2 (Z.eqb_neq _ _) Hb0).
    have Hw : u32 (a + 1) = a + 1. { apply wrap_small. destruct Hva as [? Hu]. apply Z.ltb_lt in Hu. rewrite /PHYS_BASE in Hu. lia. }
    rewrite Hw. destruct (IH c1 tm1 sm1 fuel k) as [(E2 & j & c2 & Hj & Hpre & Hfl)|(o & c2 & tm2 & sm2 & E2 & H2 & Hg2 & Ho)]; try done.
    + by rewrite (go_run _ _ Hg1).
    + intros x Hx. apply Hgr. by eapply goes_on_grow.
    + by rewrite (go_sema _ _ Hg1).
    + lia.
    + left. split; [done|]. exists (S j), c2. simpl. rewrite E. cbn [obind]. rewrite (proj2 (Z.eqb_neq _ _) Hb0) Hw. split; [lia|done].
    + right. exists o, c2, tm2, sm2. split_and!; [done|done|by etrans|]. destruct o as [[]|].
      * destruct Ho as [-> Hall]. split; [done|]. intros x Hx. destruct (decide (x = a)) as [->|]; [by eapply pins_held; [apply Hg2|]|apply Hall; lia].
      * destruct Ho as [->|(x & Hx & Hst)]; [by left|]. right. exists x. split; [lia|done].
Qed.

(** Every address is followed by a terminator or by the end of the memory. *)
Lemma scanned_total m p grow a : (forall k bs, m !! k = Some bs -> length bs = Z.to_nat PGSIZE) -> 0 <= a ->
  (forall x, a <= x -> user_page x -> m !! (p, pg_round_down x) = None -> ~ grow x) -> exists n r, scanned m p grow n a r.
Proof.
  intros Hl Ha Hg. remember (Z.to_nat (PHYS_BASE - a)) as d eqn:Hd. revert a Ha Hg Hd. induction d as [|d IH]; intros a Ha Hg Hd.
  { exists 1%nat, false. apply sc_kernel. lia. }
  have Hva : user_page a by split; [done|]; apply Z.ltb_lt; lia.
  destruct (m !! (p, pg_round_down a)) as [bs|] eqn:Hm; [|exists 1%nat, false; apply sc_missing; try done; apply Hg; [lia|done..]].
  destruct (round_down_page a Hva) as (_ & _ & Ho). destruct (lookup_lt_is_Some_2 bs (Z.to_nat (pg_ofs a))) as [b Hb]; [rewrite (Hl _ _ Hm); lia|].
  destruct (decide (b = 0)) as [->|Hb0]; [exists 1%nat, true; by eapply sc_nul|].
  destruct (IH (a + 1)) as (n & r & Hr); [lia|intros x ?; apply Hg; lia|lia|]. exists (S n), r. by eapply sc_char.
Qed.

(** ** Buffers that are in memory *)
Definition in_memory c (va : Z) : Prop := is_Some (translate (ms (c_vm c)) (active (ms (c_vm c))) va).

Lemma peek_in_memory n c tm m sm va : paged false None n (c_vm c) tm m sm -> user_page va -> in_memory c va ->
  exists b c', peek init_page_dir init_ram_pages c va = Ok (Some b, c') /\ paged false None n (c_vm c') tm m sm /\ goes_on c c' /\
    forall x, user_page x -> in_memory c x -> in_memory c' x.
Proof.
  intros H Hva [w Hw]. rewrite /peek user_not_kernel //. cbn [touch]. have Hc := g_coh _ _ _ _ _ _ _ _ _ _ H.
  destruct (access (ms (c_vm c)) va false) as [[a s]|] eqn:Ha; last first. { by destruct (access_faults _ _ _ _ _ Hc Hva Hw Ha). }
  destruct (access_paged _ _ _ _ _ _ _ _ _ _ _ _ H Hva Ha) as (H1 & _ & Hpi). cbn [obind option_map]. eexists _, _. split; [done|]. split; [done|].
  split; [split; try done; by left|]. intros x Hx [wx Hwx]. rewrite /in_memory. simpl.
  have Hact : active s = active (ms (c_vm c)). { have := g_run _ _ _ _ _ _ _ _ _ _ H1. rewrite /= (g_run _ _ _ _ _ _ _ _ _ _ H). by intros [= ->]. }
  rewrite Hact. destruct (access_flags D _ _ _ _ _ Hc Hva Ha (active (ms (c_vm c))) x (c_active _ _ Hc) Hx) as [[? _]|(w1 & w2 & _ & E & _)]; [congruence|eauto].
Qed.

(** [n] bytes of which [j] are in memory and the next is not the process's. *)
Lemma load_missing j n k c tm m sm va : (j < n)%nat -> paged false None (S k) (c_vm c) tm m sm -> 0 < pf_sema c -> 0 <= va ->
  (forall x, va <= x < va + Z.of_nat j -> in_memory c x) -> user_page (va + Z.of_nat j) ->
  m !! (running (c_vm c), pg_round_down (va + Z.of_nat j)) = None -> ~ may_grow c (va + Z.of_nat j) ->
  exists c', load_bytes init_page_dir init_ram_pages n c va = Ok (None, c').
Proof.
  revert n c va. induction j as [|j IH]; intros [|n] c va Hj H Hs Hv Hin Hu Hm Hg; try lia; simpl.
  - rewrite Z.add_0_r in Hu, Hm, Hg. destruct (peek_missing k c tm m sm va H Hs Hu Hm Hg) as (c' & E & _). rewrite E. by exists c'.
  - have Hva : user_page va. { split; [done|]. destruct Hu as [_ Hu]. move: Hu. rewrite /is_user_vaddr !Z.ltb_lt. lia. }
    destruct (peek_in_memory _ c tm m sm va H Hva) as (b & c1 & E & H1 & Hg1 & Hin1); [apply Hin; lia|]. rewrite E. cbn [ubind obind].
    have Hlt : va + 1 < 2 ^ 32. { destruct Hu as [_ Hu]. move: Hu. rewrite /is_user_vaddr Z.ltb_lt /PHYS_BASE. lia. }
    rewrite wrap_small; [lia|]. have Hnext : va + 1 + Z.of_nat j = va + Z.of_nat (S j) by lia.
    destruct (IH n c1 (va + 1)) as (c2 & E2); rewrite ?Hnext; try done; [lia|by rewrite (go_sema _ _ Hg1)|lia| |by rewrite (go_run _ _ Hg1)|by intros Hx; apply Hg; eapply goes_on_grow|].
    { intros x Hx. apply Hin1; [|apply Hin; lia]. split; [lia|]. destruct Hu as [_ Hu]. move: Hu. rewrite /is_user_vaddr !Z.ltb_lt. lia. }
    rewrite E2. by exists c2.
Qed.

Lemma load_in_memory n k c tm m sm va : paged false None k (c_vm c) tm m sm -> 0 <= va -> va + Z.of_nat n <= PHYS_BASE ->
  (forall x, va <= x < va + Z.of_nat n -> in_memory c x) ->
  exists w c', load_bytes init_page_dir init_ram_pages n c va = Ok (Some w, c') /\ paged false None k (c_vm c') tm m sm /\ goes_on c c' /\
    forall x, user_page x -> in_memory c x -> in_memory c' x.
Proof.
  revert c va. induction n as [|n IH]; intros c va H Hv Hb Hin; simpl.
  { exists 0, c. by split_and!. }
  have Hva : user_page va by split; [done|]; apply Z.ltb_lt; lia.
  destruct (peek_in_memory _ c tm m sm va H Hva) as (b & c1 & E & H1 & Hg1 & Hin1); [apply Hin; lia|]. rewrite E. cbn [ubind obind].
  rewrite wrap_small; [rewrite /PHYS_BASE in Hb; lia|].
  destruct (IH c1 (va + 1)) as (w & c2 & E2 & H2 & Hg2 & Hin2); [done|lia|lia| |].
  { intros x Hx. apply Hin1; [split; [lia|apply Z.ltb_lt; lia]|apply Hin; lia]. }
  rewrite E2. cbn [ubind obind]. eexists _, c2. split_and!; [done|done|by etrans|]. intros x Hx Hc. by apply Hin2, Hin1.
Qed.

Lemma buf_loop_kills n k c tm m sm va : (0 < n)%nat -> paged false None (S k) (c_vm c) tm m sm -> 0 < pf_sema c -> 0 <= va ->
  (forall x, va <= x < va + Z.of_nat n -> in_memory c x) -> user_page (va + Z.of_nat n) ->
  m !! (running (c_vm c), pg_round_down (va + Z.of_nat n)) = None -> ~ may_grow c (va + Z.of_nat n) ->
  exists c', buf_loop init_page_dir init_ram_pages n c va = Ok (None, c').
Proof.
  revert c va. induction n as [|n IH]; intros c va Hn H Hs Hv Hin Hu Hm Hg; [lia|]. cbn [buf_loop].
  have Hend : va + Z.of_nat (S n) < PHYS_BASE by destruct Hu as [_ Hu]; move: Hu; rewrite /is_user_vaddr Z.ltb_lt.
  have Hva : user_page va by split; [done|]; apply Z.ltb_lt; lia.
  destruct (pin_byte_ok _ _ _ _ _ _ H Hs Hva) as (c1 & E1 & H1 & Hg1 & _ & Hms & _). rewrite E1. cbn [obind].
  have Hin1 : forall x, in_memory c x -> in_memory c1 x by intros x; rewrite /in_memory Hms.
  have Hs1 : 0 < pf_sema c1 by rewrite (go_sema _ _ Hg1). have Hm1 := Hm. rewrite -(go_run _ _ Hg1) in Hm1.
  have Hg' : ~ may_grow c1 (va + Z.of_nat (S n)) by intros Hx; apply Hg; eapply goes_on_grow.
  rewrite /load_word. destruct (decide (S n < 4)%nat) as [Hlt|Hge].
  - destruct (load_missing (S n) 4 k c1 tm m sm va) as (c2 & E2); try done; [by intros x Hx; apply Hin1, Hin|]. rewrite E2. by exists c2.
  - destruct (load_in_memory 4 _ c1 tm m sm va H1 Hv) as (w & c2 & E2 & H2 & Hg2 & Hin2); [lia|by intros x Hx; apply Hin1, Hin; lia|].
    rewrite E2. cbn [ubind obind]. rewrite wrap_small; [rewrite /PHYS_BASE in Hend; lia|]. have Hnext : va + 1 + Z.of_nat n = va + Z.of_nat (S n) by lia.
    apply IH; rewrite ?Hnext; try done; [lia|by rewrite (go_sema _ _ Hg2)|lia| |by rewrite (go_run _ _ Hg2)|by intros Hx; apply Hg'; eapply goes_on_grow].
    intros x Hx. apply Hin2; [split; [lia|apply Z.ltb_lt; lia]|apply Hin1, Hin; lia].
Qed.
End proofs.

(** C16: strings that user programs pass.  For a non-null address from which [scanned] can
    read the memory of the process, that is, up to the terminator or to the end of the
    memory of the process no address is one at which the stack would grow: unless the
    kernel panics because the swap device is full, [valid_str] returns, and no page of any
    process changes.  If the string runs into kernel memory or into a page that the process
    does not have, the process is ended.  If the string has a terminator, the address is
    returned, and then every page of the string is in memory in a pinned frame, so that
    the kernel can use the string without a fault; or the process is ended because all
    frames are pinned or there is no memory for a page table. *)
Theorem valid_str_correct {T F : Type} {spt_ops : SptOps T} {file_ops : FileOps F} {spt_laws : SptTable T} {file_laws : FileLaws F}
    (init_page_dir init_ram_pages : Z) (D : gset Z) (c : ctx T F) (tm : gmap (Z * Z) entry) (m : gmap (Z * Z) (list Z)) (sm : gmap Z (list Z))
    (str : Z) (n k fuel : nat) (r : bool) :
  paged init_page_dir init_ram_pages D false None (4 * n + k) (c_vm c) tm m sm -> 0 < pf_sema c -> str <> 0 ->
  scanned m (running (c_vm c)) (may_grow c) n str r -> (n <= fuel)%nat ->
  (valid_str init_page_dir init_ram_pages fuel c str = Err Panic /\
     exists (j : nat) c1, (j < n)%nat /\ str_prefix init_page_dir init_ram_pages j c str = Ok (Some c1) /\ swap_full (sw (c_vm c1))) \/
  exists o c' tm' sm', valid_str init_page_dir init_ram_pages fuel c str = Ok (o, c') /\
    paged init_page_dir init_ram_pages D false None k (c_vm c') tm' m sm' /\
    match o with
    | Some a => a = str /\ r = true /\ forall x, str <= x < str + Z.of_nat n -> held (c_vm c') (running (c_vm c)) (pg_round_down x)
    | None => r = false \/ exists x, str <= x < str + Z.of_nat n /\ stuck (c_vm c') (pg_round_down x)
    end.
Proof.
  intros H Hs H0 Hsc Hf. rewrite /valid_str (proj2 (Z.eqb_neq _ _) H0).
  destruct (str_loop_ok _ _ _ _ _ _ _ _ _ Hsc c tm sm fuel k eq_refl (fun x Hx => Hx) H Hs Hf) as [[E Hp]|(o & c' & tm' & sm' & E & H' & _ & Ho)]; rewrite E; cbn [ubind obind].
  { by left. }
  right. destruct o as [[]|]; [exists (Some str)|exists None]; exists c', tm', sm'; (split; [done|split; [done|]]); [split; [done|]|]; done.
Qed.

(** The address checks wrap around.  For an argument at one of the last three
    addresses, [addr + 3] is a small address: the check for kernel addresses
    passes, and [pagedir_get_page] fails its assertion.  A buffer in kernel memory
    whose end wraps around to a user address does the same.  So a program can
    panic the kernel, with a stack pointer of -1 at a system call for example. *)
Theorem user_pointer_wraps_panics {T F : Type} {spt_ops : SptOps T} {file_ops : FileOps F}
    (init_page_dir init_ram_pages : Z) (c : ctx T F) (a length : Z) :
  0 < pf_sema c -> is_Some (dirs (c_vm c) !! running (c_vm c)) ->
  (2 ^ 32 - 3 <= a < 2 ^ 32 -> valid init_page_dir init_ram_pages c a = Err Panic) /\
  (PHYS_BASE <= a < 2 ^ 32 -> 2 ^ 32 < a + length <= 2 ^ 32 + PHYS_BASE -> valid_buf init_page_dir init_ram_pages c a length = Err Panic).
Proof.
  intros Hs [pd Hpd]. have Hget : forall (c0 : ctx T F), c_vm c0 = c_vm c -> PHYS_BASE <= a -> get_page c0 a = Err Panic.
  { intros c0 Hc Ha. rewrite /get_page Hc Hpd. cbn [oget obind]. rewrite /pagedir_get_page /is_user_vaddr (proj2 (Z.ltb_ge _ _) Ha) //. }
  split.
  - intros Ha. rewrite /valid (proj2 (Z.eqb_neq a 0)); [lia|]. have -> : u32 (a + 3) = a + 3 - 2 ^ 32.
    { rewrite /wrap. symmetry. apply (Z.mod_unique _ _ 1); lia. }
    rewrite /is_kernel_vaddr (proj2 (Z.leb_gt _ _)); [rewrite /PHYS_BASE; lia|]. rewrite /down (proj2 (Z.ltb_lt _ _) Hs). cbn [ASSERT obind].
    rewrite Hget //. rewrite /PHYS_BASE. lia.
  - intros Ha Hl. rewrite /valid_buf (proj2 (Z.eqb_neq a 0)); [rewrite /PHYS_BASE in Ha; lia|]. have -> : u32 (a + length - 1) = a + length - 1 - 2 ^ 32.
    { rewrite /wrap. symmetry. apply (Z.mod_unique _ _ 1); rewrite /PHYS_BASE in Hl; lia. }
    rewrite /is_kernel_vaddr (proj2 (Z.leb_gt _ _)); [lia|]. have [n ->] : exists n, Z.to_nat length = S n by exists (Nat.pred (Z.to_nat length)); lia.
    cbn [buf_loop]. rewrite /pin_byte /down (proj2 (Z.ltb_lt _ _) Hs). cbn [ASSERT obind]. rewrite Hget //. lia.
Qed.

(** [valid_buf] refuses good buffers.  It loads a word at every byte, so that it
    reads up to three bytes beyond the buffer: a buffer that is all in memory and
    ends with the last page of the process gets the process killed. *)
Theorem valid_buf_kills {T F : Type} {spt_ops : SptOps T} {file_ops : FileOps F} {spt_laws : SptTable T} {file_laws : FileLaws F}
    (init_page_dir init_ram_pages : Z) (D : gset Z) (c : ctx T F) (k : nat) (tm : gmap (Z * Z) entry) (m : gmap (Z * Z) (list Z)) (sm : gmap Z (list Z)) (buf length : Z) :
  paged init_page_dir init_ram_pages D false None (S k) (c_vm c) tm m sm -> 0 < pf_sema c -> 0 < buf -> 0 < length -> buf + length < PHYS_BASE ->
  (forall x, buf <= x < buf + length -> in_memory c x) ->
  m !! (running (c_vm c), pg_round_down (buf + length)) = None -> ~ may_grow c (buf + length) ->
  exists c', valid_buf init_page_dir init_ram_pages c buf length = Ok (None, c').
Proof.
  intros H Hs Hb Hl He Hin Hm Hg. rewrite /valid_buf (proj2 (Z.eqb_neq buf 0)); [lia|]. rewrite wrap_small; [rewrite /PHYS_BASE in He; lia|].
  rewrite /is_kernel_vaddr (proj2 (Z.leb_gt _ _)); [lia|]. have Hz : Z.of_nat (Z.to_nat length) = length by lia.
  destruct (buf_loop_kills init_page_dir init_ram_pages D (Z.to_nat length) k c tm m sm buf) as (c' & E); rewrite ?Hz; try done; [lia|lia|split; [lia|by apply Z.ltb_lt]|].
  rewrite E. by exists c'.
Qed.

(** ** An example: process 4 passes the string at the start of its page *)
Definition ex_run (p : Z) : vm sptab (gmap Z (list Z)) := match switch 0xc0300000 (ex_vm ex_swap) p with Ok v => v | Err _ => ex_vm ex_swap end.
Definition ex_ctx : ctx sptab (gmap Z (list Z)) := mk_ctx (ex_run 4) 1 0xbfffff00 0.

Lemma ex_run_paged : paged (spt_laws := table_spt (fun _ => true)) 0xc0300000 4096 ex_frame_dirs false None 238 (ex_run 4) ex_tm ex_pages ∅ /\ running (ex_run 4) = 4.
Proof.
  destruct (switch_ok (spt_laws := table_spt (fun _ => true)) 0xc0300000 4096 ex_frame_dirs 238 (ex_vm ex_swap) ex_tm ex_pages ∅ 4 0xc0101000 (ex_paged ex_swap ex_swap_empty)) as (v & E & H & Hr & _).
  - reflexivity.
  - rewrite /ex_run E. exact (conj H Hr).
Qed.
Lemma ex_scanned : scanned ex_pages 4 (may_grow ex_ctx) 7 0x8048000 true.
Proof.
  have Hm : ex_pages !! (4, 0x8048000) = Some (page_of ex_data 0) by rewrite /ex_pages lookup_insert_ne // lookup_insert_eq.
  do 6 (eapply sc_char; [by split|exact Hm|reflexivity|discriminate|]; cbn [Z.add Pos.add Pos.succ Pos.add_carry]).
  eapply sc_nul; [by split|exact Hm|reflexivity].
Qed.

Abbreviation ex_valid_str := (valid_str (spt_ops := table_ops (fun _ => true)) 0xc0300000 4096).
Lemma valid_str_correct_witness :
  exists c', ex_valid_str 7 ex_ctx 0x8048000 = Ok (Some 0x8048000, c') /\ held (c_vm c') 4 0x8048000.
Proof.
  destruct ex_run_paged as [H Hr].
  destruct (valid_str_correct (spt_laws := table_spt (fun _ => true)) 0xc0300000 4096 ex_frame_dirs ex_ctx ex_tm ex_pages ∅ 0x8048000 7 210 7 true)
    as [[E _]|(o & c' & tm' & sm' & E & _ & Ho)].
  - exact H.
  - reflexivity.
  - discriminate.
  - change (running (c_vm ex_ctx)) with (running (ex_run 4)). rewrite Hr. exact ex_scanned.
  - lia.
  - exfalso. have Hb : (match ex_valid_str 7 ex_ctx 0x8048000 with Ok _ => true | Err _ => false end) = true by vm_compute. by rewrite E in Hb.
  - have Hb : (match ex_valid_str 7 ex_ctx 0x8048000 with Ok (o, _) => o | Err _ => None end) = Some 0x8048000 by vm_compute.
    rewrite E in Hb. subst o. exists c'. split; [exact E|]. destruct Ho as (_ & _ & Ho). change (running (c_vm ex_ctx)) with (running (ex_run 4)) in Ho. rewrite Hr in Ho.
    apply (Ho 0x8048000). lia.
Defined.

Lemma user_pointer_wraps_panics_witness :
  valid (spt_ops := table_ops (fun _ => true)) 0xc0300000 4096 ex_ctx 0xffffffff = Err Panic.
Proof.
  apply (user_pointer_wraps_panics (spt_ops := table_ops (fun _ => true)) 0xc0300000 4096 ex_ctx 0xffffffff 0).
  - reflexivity.
  - exists 0xc0101000. reflexivity.
  - split; [discriminate|reflexivity].
Defined.

(** The page of process 4 has been loaded. *)
Definition ex_loaded : ctx sptab (gmap Z (list Z)) :=
  match serve (spt_ops := table_ops (fun _ => true)) 0xc0300000 4096 (ex_vm ex_swap) 1 0xbfffff00 (Load 4 0x8048001) with
  | Ok (_, n, v) => mk_ctx v n 0xbfffff00 0 | Err _ => ex_ctx end.
Lemma ex_loaded_paged : exists tm sm, paged (spt_laws := table_spt (fun _ => true)) 0xc0300000 4096 ex_frame_dirs false None 234 (c_vm ex_loaded) tm ex_pages sm.
Proof.
  destruct (serve_ok (spt_laws := table_spt (fun _ => true)) 0xc0300000 4096 ex_frame_dirs 234 (ex_vm ex_swap) ex_tm ex_pages ∅ 1 0xbfffff00 (Load 4 0x8048001) (ex_paged ex_swap ex_swap_empty))
    as [[E _]|(o & v1 & tm & m & sm & E & H & Ho)].
  - done.
  - done.
  - vm_compute. eauto.
  - exfalso. have Hb : (match serve (spt_ops := table_ops (fun _ => true)) 0xc0300000 4096 (ex_vm ex_swap) 1 0xbfffff00 (Load 4 0x8048001) with Ok _ => true | Err _ => false end) = true by vm_compute.
    by rewrite E in Hb.
  - have Hm : m = ex_pages. { destruct o; [|by destruct Ho]. move: Ho. cbn [spec]. destruct (ex_pages !! _) as [bs|]; [|done]. simpl. destruct (bs !! _); [|done]. by intros [= _ <-]. }
    subst m. exists tm, sm. rewrite /ex_loaded E. exact H.
Qed.

Lemma valid_buf_kills_witness :
  exists c', valid_buf (spt_ops := table_ops (fun _ => true)) 0xc0300000 4096 ex_loaded 0x8048ffe 2 = Ok (None, c').
Proof.
  destruct ex_loaded_paged as (tm & sm & H).
  apply (valid_buf_kills (spt_laws := table_spt (fun _ => true)) 0xc0300000 4096 ex_frame_dirs ex_loaded 233 tm ex_pages sm 0x8048ffe 2).
  - exact H.
  - vm_compute. reflexivity.
  - reflexivity.
  - reflexivity.
  - reflexivity.
  - intros x Hx. have Hc : x = 0x8048ffe \/ x = 0x8048fff by lia. destruct Hc as [-> | ->]; rewrite /in_memory; apply (bool_decide_unpack _); vm_compute; exact I.
  - have -> : running (c_vm ex_loaded) = 4 by vm_compute. change (pg_round_down (0x8048ffe + 2)) with 0x8049000. rewrite /ex_pages !lookup_insert_ne; [discriminate|discriminate|]. apply lookup_empty.
  - intros [[_ Hx]|[_ Hx]]; vm_compute in Hx; by apply Hx.
Defined.
