(* ===== verification/Store.v ===== *)
(** * The interface between the file system and its sector store

    filesys/inode.c reaches the disk only through [cache_read_at] and
    [cache_write_at].  [SectorOps] is that pair of calls, [SectorStore] what
    they promise: the store behaves as an array of 512-byte sectors.  The
    inode, directory and free-map layers are proved against this interface;
    Cache.v discharges it for the buffer cache. *)
From S2P Require Import Prelude Block.

Class SectorOps (St : Type) := {
  sec_read_at : St -> Z -> Z -> Z -> outcome (list Z * St);    (* sector, size, ofs *)
  sec_write_at : St -> Z -> list Z -> Z -> outcome St }.       (* sector, buffer, ofs *)

(** [sec_ok n st]: the store is consistent and can take [n] more writes
    before a dirty counter would overflow. *)
Class SectorStore (St : Type) `{SectorOps St} := {
  sec_view : St -> Z -> list Z;
  sec_count : St -> Z;
  sec_ok : Z -> St -> Prop;
  sec_ok_mono : forall n m st, sec_ok n st -> m <= n -> sec_ok m st;
  sec_view_len : forall n st s, sec_ok n st -> length (sec_view st s) = sector_len;
  sec_read_law : forall n st s size ofs, sec_ok n st -> 0 <= s < sec_count st ->
    0 <= ofs -> 0 <= size -> ofs + size <= BLOCK_SECTOR_SIZE ->
    exists st', sec_read_at st s size ofs = Ok (slice (sec_view st s) ofs size, st') /\
      sec_ok n st' /\ sec_count st' = sec_count st /\ forall t, sec_view st' t = sec_view st t;
  sec_write_law : forall n st s buffer ofs, sec_ok n st -> 1 <= n -> 0 <= s < sec_count st ->
    0 <= ofs -> ofs + Z.of_nat (length buffer) <= BLOCK_SECTOR_SIZE ->
    exists st', sec_write_at st s buffer ofs = Ok st' /\
      sec_ok (n - 1) st' /\ sec_count st' = sec_count st /\
      forall t, sec_view st' t = if decide (t = s) then splice (sec_view st s) ofs buffer else sec_view st t }.
