(* ===== verification/Cache.v ===== *)
(** * filesys/cache.c: the buffer cache

    64 sectors of [fs_device] are kept in one contiguous region [cache]; table
    [ct] says which sector each buffer holds, how often it was accessed and
    whether it is dirty.  Locks are booleans: in a run of one thread,
    [lock_acquire] on a lock that is held, or [lock_release] of one that is
    not, is the failed assertion of threads/synch.c. *)
From S2P Require Import Prelude Block Store.

Definition CACHE_SECTOR_CNT : Z := 64.

Record cte := mk_cte {
  sector : Z;
  accessed_cnt : Z;
  dirty_cnt : Z;
  lock : bool;
  in_use : bool }.

Record cache_state := mk_cache {
  ct : list cte;
  cache : list Z;
  cache_lock : bool;
  next_sector : Z;
  victim_idx : Z;
  fs_device : block }.

Definition set_ct (st : cache_state) (t : list cte) : cache_state :=
  mk_cache t (cache st) (cache_lock st) (next_sector st) (victim_idx st) (fs_device st).
Definition set_cache (st : cache_state) (m : list Z) : cache_state :=
  mk_cache (ct st) m (cache_lock st) (next_sector st) (victim_idx st) (fs_device st).
Definition set_lock (st : cache_state) (b : bool) : cache_state :=
  mk_cache (ct st) (cache st) b (next_sector st) (victim_idx st) (fs_device st).
Definition set_next (st : cache_state) (s : Z) : cache_state :=
  mk_cache (ct st) (cache st) (cache_lock st) s (victim_idx st) (fs_device st).
Definition set_victim (st : cache_state) (v : Z) : cache_state :=
  mk_cache (ct st) (cache st) (cache_lock st) (next_sector st) v (fs_device st).
Definition set_device (st : cache_state) (d : block) : cache_state :=
  mk_cache (ct st) (cache st) (cache_lock st) (next_sector st) (victim_idx st) d.

(** ** Locks of the cache *)
Definition acquire_cache (st : cache_state) : outcome cache_state :=
  assert! negb (cache_lock st) in Ok (set_lock st true).
Definition release_cache (st : cache_state) : outcome cache_state :=
  assert! cache_lock st in Ok (set_lock st false).

(** [ct[i]], and [ct[i] = e]. *)
Definition get_cte (st : cache_state) (i : Z) : outcome cte := oget (ct st !! Z.to_nat i).
Definition put_cte (st : cache_state) (i : Z) (e : cte) : cache_state :=
  set_ct st (<[Z.to_nat i := e]> (ct st)).

Definition lock_cte (e : cte) (b : bool) : cte :=
  mk_cte (sector e) (accessed_cnt e) (dirty_cnt e) b (in_use e).
Definition acquire_cte (st : cache_state) (i : Z) : outcome cache_state :=
  let! e := get_cte st i in
  assert! negb (lock e) in Ok (put_cte st i (lock_cte e true)).
Definition release_cte (st : cache_state) (i : Z) : outcome cache_state :=
  let! e := get_cte st i in
  assert! lock e in Ok (put_cte st i (lock_cte e false)).

(** [ct[i].accessed_cnt++], [ct[i].dirty_cnt++] and the reset of [cache_alloc]. *)
Definition accessed_inc (st : cache_state) (i : Z) : outcome cache_state :=
  let! e := get_cte st i in
  Ok (put_cte st i (mk_cte (sector e) (s32 (accessed_cnt e + 1)) (dirty_cnt e) (lock e) (in_use e))).
Definition dirty_inc (st : cache_state) (i : Z) : outcome cache_state :=
  let! e := get_cte st i in
  Ok (put_cte st i (mk_cte (sector e) (accessed_cnt e) (s32 (dirty_cnt e + 1)) (lock e) (in_use e))).
Definition assign_cte (st : cache_state) (i s : Z) : outcome cache_state :=
  let! e := get_cte st i in
  Ok (put_cte st i (mk_cte s 0 0 (lock e) true)).
Definition clean_cte (st : cache_state) (i : Z) : outcome cache_state :=
  let! e := get_cte st i in
  Ok (put_cte st i (mk_cte (sector e) (accessed_cnt e) 0 (lock e) (in_use e))).

(** Buffer [i] of the region: copies in and out, and device transfers. *)
Definition buf_ofs (i : Z) : Z := i * BLOCK_SECTOR_SIZE.
Definition copy_out (st : cache_state) (i ofs n : Z) : outcome (list Z) :=
  mem_read (cache st) (buf_ofs i + ofs) n.
Definition copy_in (st : cache_state) (i ofs : Z) (bs : list Z) : outcome cache_state :=
  let! m := mem_write (cache st) (buf_ofs i + ofs) bs in Ok (set_cache st m).
Definition load_buf (st : cache_state) (i s : Z) : outcome cache_state :=
  let! (bs, d) := block_read (fs_device st) s in
  let! m := mem_write (cache st) (buf_ofs i) bs in
  Ok (set_device (set_cache st m) d).
Definition store_buf (st : cache_state) (i s : Z) : outcome cache_state :=
  let! bs := mem_read (cache st) (buf_ofs i) BLOCK_SECTOR_SIZE in
  let! d := block_write (fs_device st) s bs in
  Ok (set_device st d).

(** ** Operations *)

(** [dev] is [fs_device], of which the cache holds nothing yet. *)
Definition cache_init (dev : block) : cache_state :=
  mk_cache (replicate (Z.to_nat CACHE_SECTOR_CNT) (mk_cte 0 0 0 false false))
    (replicate (Z.to_nat (BLOCK_SECTOR_SIZE * CACHE_SECTOR_CNT)) 0) false 0 0 dev.

(** The search [for (i = 0; i < CACHE_SECTOR_CNT; i++) if (ct[i].in_use && ct[i].sector == s)];
    [None] when the loop runs to its end. *)
Fixpoint find_loop (t : list cte) (i s : Z) : option Z :=
  match t with
  | [] => None
  | e :: t => if in_use e && (sector e =? s) then Some i else find_loop t (i + 1) s
  end.

(** The scan of [cache_alloc]: [inl i] when entry [i] is free and was taken,
    [inr result] with the victim when all 64 entries are in use.  [result] is
    [None] until it is assigned. *)
Fixpoint alloc_loop (fuel : nat) (i s : Z) (result : option Z) (min_accessed_cnt : Z)
    (st : cache_state) : outcome ((Z + option Z) * cache_state) :=
  match fuel with
  | O => Ok (inr result, st)
  | S fuel =>
    let! st := acquire_cte st i in
    let! e := get_cte st i in
    if negb (in_use e) then
      let! st := assign_cte st i s in
      let! st := release_cache st in
      Ok (inl i, st)
    else
      let! (result, min) :=
        if (min_accessed_cnt =? -1) || (accessed_cnt e <? min_accessed_cnt)
        then Ok (Some i, accessed_cnt e)
        else if accessed_cnt e =? min_accessed_cnt then
          let! r := oget result in
          Ok (Some (if (r <? victim_idx st) && (victim_idx st <=? i) then i else r), min_accessed_cnt)
        else Ok (result, min_accessed_cnt) in
      let! st := release_cte st i in
      alloc_loop fuel (i + 1) s result min st
  end.

Definition cache_alloc (st : cache_state) (s : Z) : outcome (Z * cache_state) :=
  let! (r, st) := alloc_loop (Z.to_nat CACHE_SECTOR_CNT) 0 s None (-1) st in
  match r with
  | inl i => Ok (i, st)
  | inr result =>
    let! result := oget result in
    let! st := acquire_cte st result in
    let! e := get_cte st result in
    let! st := if 0 <? dirty_cnt e then store_buf st result (sector e) else Ok st in
    let! st := assign_cte st result s in
    let! st := release_cache st in
    Ok (result, set_victim st (s32 (victim_idx st + 1)))
  end.

(** [cond_signal (&aheader_cond, &cache_lock)] has no waiter (the read-ahead
    thread is not created): what is left of it is its assertion. *)
Definition cond_signal_aheader (st : cache_state) : outcome unit := ASSERT (cache_lock st).

Definition cache_read_at (st : cache_state) (s size ofs : Z) : outcome (list Z * cache_state) :=
  assert! ofs + size <=? BLOCK_SECTOR_SIZE in
  let! st := acquire_cache st in
  let st := set_next st (u32 (s + 1)) in
  let! _ := cond_signal_aheader st in
  match find_loop (ct st) 0 s with
  | Some i =>
    let! st := release_cache st in
    let! st := acquire_cte st i in
    let! buffer := copy_out st i ofs size in
    let! st := accessed_inc st i in
    let! st := release_cte st i in
    Ok (buffer, st)
  | None =>
    let! (cache_idx, st) := cache_alloc st s in
    let! st := load_buf st cache_idx s in
    let! buffer := copy_out st cache_idx ofs size in
    let! st := accessed_inc st cache_idx in
    let! st := release_cte st cache_idx in
    Ok (buffer, st)
  end.

Definition cache_read (st : cache_state) (s : Z) : outcome (list Z * cache_state) :=
  cache_read_at st s BLOCK_SECTOR_SIZE 0.

(** [buffer] is the list of the [size] bytes at the source pointer. *)
Definition cache_write_at (st : cache_state) (s : Z) (buffer : list Z) (ofs : Z) : outcome cache_state :=
  let! st := acquire_cache st in
  match find_loop (ct st) 0 s with
  | Some i =>
    let! st := release_cache st in
    let! st := acquire_cte st i in
    let! st := copy_in st i ofs buffer in
    let! st := accessed_inc st i in
    let! st := dirty_inc st i in
    release_cte st i
  | None =>
    let! (cache_idx, st) := cache_alloc st s in
    let! st := load_buf st cache_idx s in
    let! st := copy_in st cache_idx ofs buffer in
    let! st := accessed_inc st cache_idx in
    let! st := dirty_inc st cache_idx in
    release_cte st cache_idx
  end.

Definition cache_write (st : cache_state) (s : Z) (buffer : list Z) : outcome cache_state :=
  cache_write_at st s buffer 0.

Fixpoint flush_loop (fuel : nat) (i : Z) (st : cache_state) : outcome cache_state :=
  match fuel with
  | O => Ok st
  | S fuel =>
    let! st := acquire_cte st i in
    let! e := get_cte st i in
    let! st := if in_use e && (0 <? dirty_cnt e)
               then let! st := store_buf st i (sector e) in clean_cte st i
               else Ok st in
    let! st := release_cte st i in
    flush_loop fuel (i + 1) st
  end.

Definition cache_flush (st : cache_state) : outcome cache_state :=
  let! st := acquire_cache st in
  let! st := flush_loop (Z.to_nat CACHE_SECTOR_CNT) 0 st in
  release_cache st.

#[local] Arguments cache_alloc : simpl never.
#[local] Arguments flush_loop : simpl never.
#[local] Arguments replicate : simpl never.

(** ** The logical disk and the cache invariant *)
Definition buf (st : cache_state) (i : Z) : list Z := slice (cache st) (buf_ofs i) BLOCK_SECTOR_SIZE.

(** Entry [i] of the table holds sector [n]. *)
Definition holds (t : list cte) (i n : Z) : Prop :=
  exists e, t !! Z.to_nat i = Some e /\ 0 <= i /\ in_use e = true /\ sector e = n.

(** What a client sees in sector [n]: the cached buffer if there is one, else the device. *)
Definition logical (st : cache_state) (n : Z) : list Z :=
  match find_loop (ct st) 0 n with
  | Some i => buf st i
  | None => sector_at (fs_device st) n
  end.

(** [cinv k]: the table is well formed, no sector is cached twice, a clean
    buffer agrees with the device, no entry is locked and no dirty counter
    exceeds [k]. *)
Record cinv (k : Z) (st : cache_state) : Prop := {
  ci_ct : length (ct st) = Z.to_nat CACHE_SECTOR_CNT;
  ci_cache : Z.of_nat (length (cache st)) = BLOCK_SECTOR_SIZE * CACHE_SECTOR_CNT;
  ci_dev : type (fs_device st) ≠ BLOCK_FOREIGN;
  ci_sectors : forall n, length (sector_at (fs_device st) n) = sector_len;
  ci_unlocked : forall i e, ct st !! i = Some e -> lock e = false;
  ci_range : forall i e, ct st !! i = Some e -> in_use e = true ->
    0 <= sector e < size (fs_device st) /\ 0 <= dirty_cnt e <= k;
  ci_distinct : forall i j n, holds (ct st) i n -> holds (ct st) j n -> i = j;
  ci_clean : forall i e, ct st !! Z.to_nat i = Some e -> 0 <= i -> in_use e = true -> dirty_cnt e = 0 ->
    buf st i = sector_at (fs_device st) (sector e) }.

Lemma find_loop_Some t i n j :
  find_loop t i n = Some j -> i <= j /\ holds t (j - i) n.
Proof.
  revert i. induction t as [|e t IH]; intros i; simpl; [done|].
  destruct (in_use e && (sector e =? n)) eqn:E.
  - intros [= ->]. apply andb_true_iff in E as [??]. split; [lia|].
    exists e. rw Z.sub_diag. split_and!; [done|lia|done|lia].
  - intros (? & e' & Hl & ? & ? & ?)%IH. split; [lia|]. exists e'.
    split_and!; [|lia|done|done].
    replace (Z.to_nat (j - i)) with (S (Z.to_nat (j - (i + 1)))) by lia. done.
Qed.

Lemma find_loop_None t i n j :
  find_loop t i n = None -> ~ holds t j n.
Proof.
  revert i j. induction t as [|e t IH]; intros i j; simpl; [by intros _ (?&?&_)|].
  destruct (in_use e && (sector e =? n)) eqn:E; [done|]. intros H (e' & Hl & Hj & Hu & Hn).
  destruct (Z.to_nat j) as [|j'] eqn:Ej; simpl in Hl.
  - simplify_eq. rw Hu Z.eqb_refl in E. done.
  - apply (IH (i + 1) (Z.of_nat j')) in H. apply H. exists e'. rw Nat2Z.id. split_and!; auto; lia.
Qed.

Lemma holds_range t i n : holds t i n -> 0 <= i < Z.of_nat (length t).
Proof. intros (e & Hl%lookup_lt_Some & ? & _). lia. Qed.

Lemma holds_insert t i e j n :
  0 <= i < Z.of_nat (length t) ->
  holds (<[Z.to_nat i := e]> t) j n <->
    (j = i /\ in_use e = true /\ sector e = n) \/ (j <> i /\ holds t j n).
Proof.
  intros Hi. split.
  - intros (e' & Hl & Hj & Hu & Hn). destruct (decide (j = i)) as [->|].
    + rw list_lookup_insert_eq in Hl; [lia|]. simplify_eq. by left.
    + rw list_lookup_insert_ne in Hl; [lia|]. right. split; [done|]. by exists e'.
  - intros [(-> & ? & ?)|(? & e' & Hl & ? & ? & ?)].
    + exists e. rw list_lookup_insert_eq; [lia|]. split_and!; auto; lia.
    + exists e'. rw list_lookup_insert_ne; [lia|]. by split_and!.
Qed.

Lemma logical_held k st i n : cinv k st -> holds (ct st) i n -> logical st n = buf st i.
Proof.
  intros Hc Hh. rw /logical. destruct (find_loop _ _ _) as [j|] eqn:E.
  - apply find_loop_Some in E as (? & E). rw Z.sub_0_r in E. by rw (ci_distinct _ _ Hc _ _ _ E Hh).
  - by apply (find_loop_None _ _ _ i) in E.
Qed.

Lemma logical_free st n :
  (forall i, ~ holds (ct st) i n) -> logical st n = sector_at (fs_device st) n.
Proof.
  intros Hh. rw /logical. destruct (find_loop _ _ _) as [j|] eqn:E; [|done].
  apply find_loop_Some in E as (? & E). by apply Hh in E.
Qed.

Lemma length_buf st i :
  Z.of_nat (length (cache st)) = BLOCK_SECTOR_SIZE * CACHE_SECTOR_CNT -> 0 <= i < CACHE_SECTOR_CNT ->
  length (buf st i) = sector_len.
Proof.
  rw /buf /buf_ofs /BLOCK_SECTOR_SIZE /CACHE_SECTOR_CNT. intros H ?. rw length_slice //; lia.
Qed.

Lemma cinv_idx k st i e : cinv k st -> ct st !! Z.to_nat i = Some e -> i < CACHE_SECTOR_CNT.
Proof. intros Hc Hl%lookup_lt_Some. rw (ci_ct _ _ Hc) in Hl. unfold CACHE_SECTOR_CNT in *. lia. Qed.

Lemma holds_cinv k st i n : cinv k st -> holds (ct st) i n -> 0 <= i < CACHE_SECTOR_CNT.
Proof. intros Hc (e & Hl & ? & _). by apply (cinv_idx _ _ _ _ Hc) in Hl. Qed.

Lemma length_logical k st n : cinv k st -> length (logical st n) = sector_len.
Proof.
  intros Hc. rw /logical. destruct (find_loop _ _ _) as [j|] eqn:E.
  - apply find_loop_Some in E as (? & E). rw Z.sub_0_r in E.
    apply length_buf; [apply (ci_cache _ _ Hc)|by eapply holds_cinv].
  - apply (ci_sectors _ _ Hc).
Qed.

(** Reusing entry [e] for sector [s] writes sector [n] back. *)
Definition evicts (e : cte) (s n : Z) : bool :=
  in_use e && (0 <? dirty_cnt e) && (sector e =? n) && negb (n =? s).

Lemma evicts_spec e s n :
  evicts e s n = true <-> in_use e = true /\ 0 < dirty_cnt e /\ sector e = n /\ n <> s.
Proof. rw /evicts !andb_true_iff negb_true_iff Z.ltb_lt Z.eqb_eq Z.eqb_neq. tauto. Qed.

(** ** Installing sector [s] in entry [i]

    Every read and write ends in a state that differs from the first one in
    entry [i], in buffer [i] and, when [i] held another dirty sector, in that
    sector of the device. *)
Record installed (st st' : cache_state) (i s : Z) (e e' : cte) (B : list Z) : Prop := {
  in_idx : 0 <= i < CACHE_SECTOR_CNT;
  in_old : ct st !! Z.to_nat i = Some e;
  in_ct : ct st' = <[Z.to_nat i := e']> (ct st);
  in_e' : in_use e' = true /\ sector e' = s /\ lock e' = false;
  in_hit : holds (ct st) i s \/ forall j, ~ holds (ct st) j s;
  in_len : length (cache st') = length (cache st);
  in_buf : forall j, 0 <= j < CACHE_SECTOR_CNT -> buf st' j = if decide (j = i) then B else buf st j;
  in_type : type (fs_device st') = type (fs_device st);
  in_size : size (fs_device st') = size (fs_device st);
  in_dev : forall n, sector_at (fs_device st') n =
    if evicts e s n then buf st i else sector_at (fs_device st) n }.

Section install.
Context (k k' : Z) (st st' : cache_state) (i s : Z) (e e' : cte) (B : list Z).
Context (Hc : cinv k st) (Hs : 0 <= s < size (fs_device st)) (Hk : k <= k').
Context (Hd : 0 <= dirty_cnt e' <= k') (HB : dirty_cnt e' = 0 -> B = sector_at (fs_device st) s).
Context (Hi : installed st st' i s e e' B).

Lemma install_holds j n :
    holds (ct st') j n <-> (j = i /\ n = s) \/ (j <> i /\ n <> s /\ holds (ct st) j n).
  Proof using All.
    destruct Hi as [Hidx Hold Hct [Hu [Hse _]] Hhit _ _ _ _ _].
    have Hl := ci_ct _ _ Hc. rw Hct holds_insert; [unfold CACHE_SECTOR_CNT in *; lia|].
    split; [|naive_solver].
    intros [(-> & _ & <-)|(Hne & Hh)]; [by left|]. right. split_and!; try done. intros ->.
    destruct Hhit as [Hhit|Hhit]; [|by apply Hhit in Hh].
    by apply Hne, (ci_distinct _ _ Hc j i s).
Qed.

Lemma install_cinv : cinv k' st'.
  Proof using All.
    have Hh := install_holds.
    destruct Hi as [Hidx Hold Hct [Hu [Hse Hlk]] Hhit Hlen Hbuf Hty Hsz Hdev].
    have Hl := ci_ct _ _ Hc.
    have Hlt : (Z.to_nat i < length (ct st))%nat by (unfold CACHE_SECTOR_CNT in *; lia).
    have Hget : forall j d, ct st' !! j = Some d -> (j = Z.to_nat i /\ d = e') \/
      (j <> Z.to_nat i /\ ct st !! j = Some d).
    { intros j d. rw Hct. destruct (decide (j = Z.to_nat i)) as [->|].
      - rw list_lookup_insert_eq //. naive_solver.
      - rw list_lookup_insert_ne //. naive_solver. }
    split.
    - by rw Hct length_insert.
    - rw Hlen. apply (ci_cache _ _ Hc).
    - rw Hty. apply (ci_dev _ _ Hc).
    - intros n. rw Hdev. destruct (evicts e s n); [|apply (ci_sectors _ _ Hc)].
      apply length_buf; [apply (ci_cache _ _ Hc)|done].
    - intros j d [[-> ->]|[_ ?]]%Hget; [done|by apply (ci_unlocked _ _ Hc) in H].
    - intros j d [[-> ->]|[_ Hj]]%Hget Hud; rw Hsz.
      + rw Hse. lia.
      + have := ci_range _ _ Hc _ _ Hj Hud. lia.
    - intros j1 j2 n. rw !Hh. intros [[-> ->]|(? & ? & H1)] [[-> ?]|(? & ? & H2)]; try done.
      by apply (ci_distinct _ _ Hc j1 j2 n).
    - intros j d Hj H0 Hud Hd0. have Hjr : 0 <= j < CACHE_SECTOR_CNT.
      { apply lookup_lt_Some in Hj. rw Hct length_insert Hl in Hj. unfold CACHE_SECTOR_CNT in *; lia. }
      rw Hbuf //. apply Hget in Hj as [[Hji ->]|[Hji Hj]].
      + have -> : j = i by lia. rw decide_True // Hdev Hse.
        destruct (evicts e s s) eqn:Ev; [apply evicts_spec in Ev; naive_solver|]. by apply HB.
      + rw decide_False; [by intros ->|]. rw (ci_clean _ _ Hc _ _ Hj) // Hdev.
        destruct (evicts _ _ _) eqn:Ev; [|done]. apply evicts_spec in Ev as (Hue & _ & Hsec & _).
        have : j = i; [|lia]. apply (ci_distinct _ _ Hc j i (sector d)); [by exists d|].
        exists e. split_and!; auto; lia.
Qed.

Lemma install_logical n :
    logical st' n = if decide (n = s) then B else logical st n.
  Proof using All.
    have Hc' := install_cinv. have Hh := install_holds.
    destruct Hi as [Hidx Hold Hct _ Hhit Hlen Hbuf Hty Hsz Hdev].
    case_decide as Hn.
    - rw (logical_held k' st' i n) //; [apply Hh; by left|]. by rw Hbuf // decide_True.
    - destruct (find_loop (ct st) 0 n) as [j|] eqn:Ef.
      + apply find_loop_Some in Ef as (_ & Ef). rw Z.sub_0_r in Ef.
        rw (logical_held k st j n) //. destruct (decide (j = i)) as [->|Hji].
        * rw logical_free; [intros j; rw Hh; intros [[??]|(Hj & _ & Hj')]; [done|]|].
          { by apply Hj, (ci_distinct _ _ Hc j i n). }
          destruct Ef as (e0 & He0 & _ & Hu0 & Hn0). rw Hold in He0. simplify_eq.
          rw Hdev. destruct (evicts _ _ _) eqn:Hd'; [done|].
          rw (ci_clean _ _ Hc i e0) //; [lia|]. have [_ ?] := ci_range _ _ Hc _ _ Hold Hu0.
          destruct (decide (dirty_cnt e0 = 0)) as [|?]; [done|]. have : evicts e0 s (sector e0) = true; [|congruence]. apply evicts_spec. split_and!; auto; lia.
        * rw (logical_held k' st' j n) //; [apply Hh; by right|].
          rw Hbuf; [exact (holds_cinv _ _ _ _ Hc Ef)|]. by rw decide_False.
      + have Hnh : forall j, ~ holds (ct st) j n by intros j; eapply find_loop_None.
        rw (logical_free st) // (logical_free st'); [intros j; rw Hh; naive_solver|].
        rw Hdev. destruct (evicts _ _ _) eqn:Ev; [|done]. apply evicts_spec in Ev as (Hue & _ & Hsec & _).
        exfalso. apply (Hnh i). exists e.
        split_and!; auto; lia.
Qed.
End install.

(** ** Running the operations *)
Lemma get_cte_ok st i e : ct st !! Z.to_nat i = Some e -> get_cte st i = Ok e.
Proof. by rw /get_cte => ->. Qed.

Lemma get_put st i e :
  (Z.to_nat i < length (ct st))%nat -> get_cte (put_cte st i e) i = Ok e.
Proof. intros ?. apply get_cte_ok. by rw /= list_lookup_insert_eq. Qed.

Lemma put_put st i e e' : put_cte (put_cte st i e) i e' = put_cte st i e'.
Proof. by rw /put_cte /set_ct /= list_insert_insert_eq. Qed.

Lemma put_id st i e : ct st !! Z.to_nat i = Some e -> put_cte st i e = st.
Proof. intros ?. rw /put_cte /set_ct list_insert_id //. by destruct st. Qed.

Lemma lock_cte_id e b : lock e = b -> lock_cte e b = e.
Proof. destruct e; rw /lock_cte /=. by intros ->. Qed.

Lemma acquire_cte_ok st i e :
  ct st !! Z.to_nat i = Some e -> lock e = false ->
  acquire_cte st i = Ok (put_cte st i (lock_cte e true)).
Proof. intros H ?. rw /acquire_cte (get_cte_ok _ _ _ H) /=. by rw H0. Qed.

Lemma put_lt st i e : (Z.to_nat i < length (ct st))%nat -> (Z.to_nat i < length (ct (put_cte st i e)))%nat.
Proof. by rw /= length_insert. Qed.

Lemma alloc_loop_spec k s fuel i result min st :
  cinv k st -> cache_lock st = true -> 0 <= i -> i + Z.of_nat fuel = CACHE_SECTOR_CNT ->
  (match result with
   | Some r => 0 <= r < CACHE_SECTOR_CNT
   | None => min = -1 /\ fuel <> O end) ->
  (exists j e, alloc_loop fuel i s result min st =
      Ok (inl j, set_lock (put_cte st j (mk_cte s 0 0 true true)) false) /\
      0 <= j < CACHE_SECTOR_CNT /\ ct st !! Z.to_nat j = Some e /\ in_use e = false) \/
  (exists r, alloc_loop fuel i s result min st = Ok (inr (Some r), st) /\ 0 <= r < CACHE_SECTOR_CNT /\
      forall j e, i <= Z.of_nat j -> ct st !! j = Some e -> in_use e = true).
Proof.
  intros Hc Hl. revert i result min. induction fuel as [|fuel IH]; intros i result min Hi Hf Hr.
  { right. destruct result as [r|]; [|naive_solver]. exists r. split_and!; [done|lia|lia|].
    intros j e Hj He%lookup_lt_Some. rw (ci_ct _ _ Hc) in He. unfold CACHE_SECTOR_CNT in *; lia. }
  destruct (ct st !! Z.to_nat i) as [e|] eqn:He.
  2:{ apply lookup_ge_None in He. rw (ci_ct _ _ Hc) in He. unfold CACHE_SECTOR_CNT in *; lia. }
  have Hlk := ci_unlocked _ _ Hc _ _ He. have Hlt := lookup_lt_Some _ _ _ He.
  rw /= (acquire_cte_ok _ _ _ He Hlk) /= get_put //=. destruct (in_use e) eqn:Hu; simpl.
  - have Hrel : release_cte (put_cte st i (lock_cte e true)) i = Ok st.
    { rw /release_cte get_put //= put_put. f_equal.
      rw /lock_cte /= -/(lock_cte e false) (lock_cte_id _ _ Hlk). by apply put_id. }
    set step := (X in obind X).
    have [r' [m' [-> Hr']]] : exists r' m', step = Ok (Some r', m') /\ 0 <= r' < CACHE_SECTOR_CNT.
    { subst step. destruct ((min =? -1) || (accessed_cnt e <? min)) eqn:Em; [exists i; eexists; split; [done|lia]|].
      destruct result as [r|]; [|by destruct Hr as [-> _]].
      destruct (accessed_cnt e =? min); simpl.
      - destruct (_ && _); [exists i|exists r]; eexists; split; done || lia.
      - exists r; eexists; split; done || lia. }
    simpl. rw Hrel /=.
    destruct (IH (i + 1) (Some r') m') as [?|(r & ? & ? & Hall)]; [lia..|by left|]. right. exists r.
    split_and!; [done|lia|lia|]. intros j d Hj Hjd. destruct (decide (j = Z.to_nat i)) as [->|]; [congruence|].
    apply (Hall j d); [lia|done].
  - left. exists i, e. rw /assign_cte get_put //= put_put /release_cache /= Hl /=.
    split_and!; [done|lia|lia|done|done].
Qed.

(** [cache_alloc] returns an entry it has locked and assigned to [s]; the only
    other effect is the write-back of the sector it evicted. *)
Lemma cache_alloc_spec k st s :
  cinv k st -> cache_lock st = true -> (forall j, ~ holds (ct st) j s) ->
  exists i e v d, cache_alloc st s =
      Ok (i, mk_cache (<[Z.to_nat i := mk_cte s 0 0 true true]> (ct st)) (cache st) false (next_sector st) v d) /\
    0 <= i < CACHE_SECTOR_CNT /\ ct st !! Z.to_nat i = Some e /\
    type d = type (fs_device st) /\ size d = size (fs_device st) /\
    forall n, sector_at d n = if evicts e s n then buf st i else sector_at (fs_device st) n.
Proof.
  intros Hc Hl Hn. rw /cache_alloc.
  have Hspec := alloc_loop_spec k s (Z.to_nat CACHE_SECTOR_CNT) 0 None (-1) st Hc Hl.
  destruct Hspec as [(j & e & -> & Hj & He & Hu)|(r & -> & Hr & Hall)]; [lia|done|done| |]; simpl.
  { exists j, e, (victim_idx st), (fs_device st). split_and!; try done; try lia.
    intros n. by rw /evicts Hu. }
  destruct (ct st !! Z.to_nat r) as [e|] eqn:He.
  2:{ apply lookup_ge_None in He. rw (ci_ct _ _ Hc) in He. unfold CACHE_SECTOR_CNT in *; lia. }
  have Hlk := ci_unlocked _ _ Hc _ _ He. have Hlt := lookup_lt_Some _ _ _ He.
  rw (acquire_cte_ok _ _ _ He Hlk) /= get_put //=.
  have Hbuf : mem_read (cache st) (buf_ofs r) BLOCK_SECTOR_SIZE = Ok (buf st r).
  { have := ci_cache _ _ Hc. rw /buf /buf_ofs; unfold BLOCK_SECTOR_SIZE, CACHE_SECTOR_CNT in *.
    intros. rw /buf /buf_ofs /BLOCK_SECTOR_SIZE. apply mem_read_ok; lia. }
  destruct (Z.ltb_spec 0 (dirty_cnt e)) as [Hd|Hd].
  - have Hu : in_use e = true by apply (Hall (Z.to_nat r)); [lia|].
    have [Hse _] := ci_range _ _ Hc _ _ He Hu.
    have [|d [Hw [Hsz [Hty Hat]]]] := block_write_ok (fs_device st) (sector e) (buf st r) _ (ci_dev _ _ Hc); [lia|].
    rw /store_buf /= Hbuf /= Hw /= /assign_cte /get_cte /= list_lookup_insert_eq //=.
    rw /put_cte /set_ct /= list_insert_insert_eq /release_cache /= Hl /=.
    eexists r, e, _, d. split_and!; try done; try lia. intros n. rw Hat.
    have Hse' : sector e <> s. { intros <-. apply (Hn r). exists e. split_and!; auto; lia. }
    destruct (evicts e s n) eqn:Ev.
    * apply evicts_spec in Ev as (_ & _ & <- & _). by rw decide_True.
    * rw decide_False //. intros ->. have : evicts e s (sector e) = true; [|congruence].
      by apply evicts_spec.
  - rw /= /assign_cte /get_cte /= list_lookup_insert_eq //=.
    rw /put_cte /set_ct /= list_insert_insert_eq /release_cache /= Hl /=.
    eexists r, e, _, _. split_and!; try done; try lia. intros n. rw /evicts.
    rw (proj2 (Z.ltb_ge _ _)) //. by rw andb_false_r.
Qed.

(** The invariant between operations: also the global lock is free. *)
Definition cache_ok (k : Z) (st : cache_state) : Prop := cinv k st /\ cache_lock st = false.

(** [cinv] does not depend on [cache_lock], [next_sector] and [victim_idx]. *)
Lemma cinv_ext k st st' :
  ct st' = ct st -> cache st' = cache st -> fs_device st' = fs_device st -> cinv k st -> cinv k st'.
Proof.
  destruct st, st'; simpl. intros -> -> -> [].
  split; auto.
Qed.

Lemma buf_splice st m i ofs bs j :
  m = splice (cache st) (buf_ofs i + ofs) bs ->
  Z.of_nat (length (cache st)) = BLOCK_SECTOR_SIZE * CACHE_SECTOR_CNT ->
  0 <= i < CACHE_SECTOR_CNT -> 0 <= j < CACHE_SECTOR_CNT ->
  0 <= ofs -> ofs + Z.of_nat (length bs) <= BLOCK_SECTOR_SIZE ->
  slice m (buf_ofs j) BLOCK_SECTOR_SIZE = if decide (j = i) then splice (buf st i) ofs bs else buf st j.
Proof.
  rw /buf /buf_ofs /BLOCK_SECTOR_SIZE /CACHE_SECTOR_CNT. intros -> ?????. case_decide as Hj.
  - rw Hj slice_splice_inside; [lia..|]. f_equal. lia.
  - apply slice_splice_disjoint; lia.
Qed.

Lemma release_put st i e e0 :
  ct st !! Z.to_nat i = Some e0 -> lock e = true ->
  release_cte (put_cte st i e) i = Ok (put_cte st i (lock_cte e false)).
Proof.
  intros ?%lookup_lt_Some He. by rw /release_cte get_put //= He /= put_put.
Qed.

Lemma copy_bounds st i :
  Z.of_nat (length (cache st)) = BLOCK_SECTOR_SIZE * CACHE_SECTOR_CNT -> 0 <= i < CACHE_SECTOR_CNT ->
  0 <= buf_ofs i /\ buf_ofs i + BLOCK_SECTOR_SIZE <= Z.of_nat (length (cache st)).
Proof. rw /buf_ofs /BLOCK_SECTOR_SIZE /CACHE_SECTOR_CNT. lia. Qed.

(** A slice of buffer [i]. *)
Lemma copy_out_ok st i ofs n :
  Z.of_nat (length (cache st)) = BLOCK_SECTOR_SIZE * CACHE_SECTOR_CNT -> 0 <= i < CACHE_SECTOR_CNT ->
  0 <= ofs -> 0 <= n -> ofs + n <= BLOCK_SECTOR_SIZE ->
  copy_out st i ofs n = Ok (slice (buf st i) ofs n).
Proof.
  intros H Hi ???. have [??] := copy_bounds st i H Hi. rw /copy_out mem_read_ok; [lia..|].
  by rw /buf slice_slice.
Qed.

Lemma copy_in_ok st i ofs bs :
  Z.of_nat (length (cache st)) = BLOCK_SECTOR_SIZE * CACHE_SECTOR_CNT -> 0 <= i < CACHE_SECTOR_CNT ->
  0 <= ofs -> ofs + Z.of_nat (length bs) <= BLOCK_SECTOR_SIZE ->
  copy_in st i ofs bs = Ok (set_cache st (splice (cache st) (buf_ofs i + ofs) bs)).
Proof.
  intros H Hi ??. have [??] := copy_bounds st i H Hi. rw /copy_in mem_write_ok; [lia..|]. done.
Qed.

(** ** The entry that serves sector [s], locked

    [slot st s i e st1]: in [st1] entry [i] is locked and holds sector [s]
    with the logical contents of [s]; [st] is the state before the request. *)
Record slot (st : cache_state) (s i : Z) (e : cte) (st1 : cache_state) : Prop := {
  sl_idx : 0 <= i < CACHE_SECTOR_CNT;
  sl_old : ct st !! Z.to_nat i = Some e;
  sl_entry : exists a dn, ct st1 = <[Z.to_nat i := mk_cte s a dn true true]> (ct st) /\
    (dn = 0 -> logical st s = sector_at (fs_device st) s) /\
    (dn = 0 \/ dn = dirty_cnt e /\ in_use e = true);
  sl_hit : holds (ct st) i s \/ forall j, ~ holds (ct st) j s;
  sl_lock : cache_lock st1 = false;
  sl_len : length (cache st1) = length (cache st);
  sl_buf : forall j, 0 <= j < CACHE_SECTOR_CNT -> buf st1 j = if decide (j = i) then logical st s else buf st j;
  sl_type : type (fs_device st1) = type (fs_device st);
  sl_size : size (fs_device st1) = size (fs_device st);
  sl_dev : forall n, sector_at (fs_device st1) n = if evicts e s n then buf st i else sector_at (fs_device st) n }.

Lemma slot_hit k st s i :
  cinv k st -> find_loop (ct st) 0 s = Some i ->
  exists e st1, obind (release_cache (set_lock st true)) (fun st => acquire_cte st i) = Ok st1 /\ slot st s i e st1.
Proof.
  intros Hc Hf. apply find_loop_Some in Hf as (_ & Hh). rw Z.sub_0_r in Hh.
  have Hi := holds_cinv _ _ _ _ Hc Hh. have Hlog := logical_held _ _ _ _ Hc Hh.
  destruct Hh as (e & He & Hi0 & Hu & Hs). have Hlk := ci_unlocked _ _ Hc _ _ He.
  exists e. rw /release_cache /= (acquire_cte_ok _ _ e) //. eexists. split; [done|].
  split; simpl; auto.
  - exists (accessed_cnt e), (dirty_cnt e). rw /lock_cte Hs Hu. split_and!; [done| |by right].
    intros Hd. by rw Hlog (ci_clean _ _ Hc i e) // Hs.
  - left. by exists e.
  - intros j Hj. case_decide as Hji; [by rw Hlog Hji|done].
  - intros n. destruct (evicts e s n) eqn:Ev; [|done]. apply evicts_spec in Ev as (_ & _ & ? & ?). congruence.
Qed.

Lemma slot_miss k st s :
  cinv k st -> 0 <= s < size (fs_device st) -> find_loop (ct st) 0 s = None ->
  exists i e st1, obind (cache_alloc (set_lock st true) s) (fun '(i, st) =>
      let! st := load_buf st i s in Ok (i, st)) = Ok (i, st1) /\ slot st s i e st1.
Proof.
  intros Hc Hs Hf. have Hn : forall j, ~ holds (ct st) j s by intros j; eapply find_loop_None.
  have Hlog := logical_free _ _ Hn.
  have Hc1 : cinv k (set_lock st true) by eapply cinv_ext; last exact Hc.
  have [i [e [v [d [-> [Hi [He [Hty [Hsz Hd]]]]]]]]] := cache_alloc_spec _ _ s Hc1 eq_refl Hn.
  simpl in Hty, Hsz, Hd, He.
  have Hds : sector_at d s = sector_at (fs_device st) s.
  { rw Hd. destruct (evicts e s s) eqn:Ev; [|done]. apply evicts_spec in Ev. naive_solver. }
  have [|d' [Hr [Hsz' [Hty' Hcon]]]] := block_read_ok d s; [rw Hsz; apply Hs|].
  have Hlen : length (sector_at (fs_device st) s) = sector_len by apply (ci_sectors _ _ Hc).
  have [Hb0 Hb1] := copy_bounds st i (ci_cache _ _ Hc) Hi.
  have Hlen' : Z.of_nat (length (sector_at (fs_device st) s)) = BLOCK_SECTOR_SIZE by rw Hlen.
  exists i, e. rw /= /load_buf /= Hr /= Hds mem_write_ok; [lia|rw Hlen'; lia|]. simpl.
  eexists. split; [done|]. split; simpl; auto; try congruence.
  - exists 0, 0. by split_and!; [|rw Hlog|left].
  - rw length_splice; [lia|rw Hlen'; lia|done].
  - intros j Hj.
    rw /buf /= -{1}(Z.add_0_r (buf_ofs i)).
    rw (buf_splice st _ i 0 (sector_at (fs_device st) s) j eq_refl (ci_cache _ _ Hc)) //; [lia|].
    case_decide; [|done]. rw Hlog /splice Hlen drop_ge ?app_nil_r //.
    by rw (length_buf st i (ci_cache _ _ Hc) Hi).
  - intros n. rw -Hd. by rw /sector_at Hcon.
Qed.

(** Leaving the slot: the counters are bumped, the entry unlocked. *)
Lemma slot_installed k k' st s i e st1 st' a dn B :
  cinv k st -> 0 <= s < size (fs_device st) -> slot st s i e st1 -> k <= k' -> 0 <= dn <= k' ->
  (dn = 0 -> B = sector_at (fs_device st) s) ->
  ct st' = <[Z.to_nat i := mk_cte s a dn false true]> (ct st) -> length (cache st') = length (cache st1) ->
  (forall j, 0 <= j < CACHE_SECTOR_CNT -> buf st' j = if decide (j = i) then B else buf st1 j) ->
  fs_device st' = fs_device st1 -> cache_lock st' = false ->
  cache_ok k' st' /\ size (fs_device st') = size (fs_device st) /\
  forall n, logical st' n = if decide (n = s) then B else logical st n.
Proof.
  intros Hc Hs Hsl Hk Hdn HB Hct Hlen Hbuf Hdev Hlk.
  have Hin : installed st st' i s e (mk_cte s a dn false true) B.
  { destruct Hsl as [Hi He _ Hhit _ Hlen1 Hbuf1 Hty Hsz Hdev1].
    split; auto; try (rw Hdev; done); [congruence|].
    intros j Hj. rw Hbuf //. case_decide; [done|]. by rw Hbuf1 // decide_False. }
  split_and!.
  - split; [|done]. exact (install_cinv k k' st st' i s e (mk_cte s a dn false true) B Hc Hs Hk Hdn HB Hin).
  - rw Hdev. apply Hsl.
  - exact (install_logical k k' st st' i s e (mk_cte s a dn false true) B Hc Hs Hk Hdn HB Hin).
Qed.

(** What follows the lookup: both branches of the code run the same tail on
    the slot. *)
Definition finish_read (i size ofs : Z) (st : cache_state) : outcome (list Z * cache_state) :=
  let! buffer := copy_out st i ofs size in
  let! st := accessed_inc st i in
  let! st := release_cte st i in
  Ok (buffer, st).

Definition finish_write (i : Z) (buffer : list Z) (ofs : Z) (st : cache_state) : outcome cache_state :=
  let! st := copy_in st i ofs buffer in
  let! st := accessed_inc st i in
  let! st := dirty_inc st i in
  release_cte st i.

Definition with_slot {A} (st : cache_state) (s : Z) (tail : Z -> cache_state -> outcome A) : outcome A :=
  match find_loop (ct st) 0 s with
  | Some i => obind (obind (release_cache st) (fun st => acquire_cte st i)) (tail i)
  | None => obind (obind (cache_alloc st s) (fun '(i, st) => let! st := load_buf st i s in Ok (i, st)))
              (fun '(i, st) => tail i st)
  end.

Lemma with_slot_ok {A} k st s (tail : Z -> cache_state -> outcome A) :
  cinv k st -> 0 <= s < size (fs_device st) ->
  exists i e st1, with_slot (set_lock st true) s tail = tail i st1 /\ slot st s i e st1.
Proof.
  intros Hc Hs. rw /with_slot /=. destruct (find_loop (ct st) 0 s) as [i|] eqn:Hf.
  - have [e [st1 [H Hsl]]] := slot_hit _ _ _ _ Hc Hf. exists i, e, st1. split; [|done].
    by rw (obind_ok _ _ _ H).
  - have [i [e [st1 [H Hsl]]]] := slot_miss _ _ _ Hc Hs Hf. exists i, e, st1. split; [|done].
    by rw (obind_ok _ _ _ H).
Qed.

Lemma cache_read_at_slot st s size ofs :
  ofs + size <= BLOCK_SECTOR_SIZE -> cache_lock st = false ->
  cache_read_at st s size ofs =
    with_slot (set_lock (set_next st (u32 (s + 1))) true) s (fun i => finish_read i size ofs).
Proof.
  intros Ho Hl. rw /cache_read_at (proj2 (Z.leb_le _ _) Ho) /= /acquire_cache Hl /= /with_slot /finish_read /=.
  destruct (find_loop _ _ _); [by rw !obind_assoc|].
  destruct (cache_alloc _ _) as [[i st']|]; [|done]. by rw /= obind_assoc.
Qed.

Lemma cache_write_at_slot st s buffer ofs :
  cache_lock st = false ->
  cache_write_at st s buffer ofs = with_slot (set_lock st true) s (fun i => finish_write i buffer ofs).
Proof.
  intros Hl. rw /cache_write_at /acquire_cache Hl /= /with_slot /finish_write /=.
  destruct (find_loop _ _ _); [by rw !obind_assoc|].
  destruct (cache_alloc _ _) as [[i st']|]; [|done]. by rw /= obind_assoc.
Qed.

Section slot_tail.
Context (k : Z) (st : cache_state) (s i : Z) (e : cte) (st1 : cache_state).
Context (Hc : cinv k st) (Hs : 0 <= s < size (fs_device st)) (Hsl : slot st s i e st1).

Lemma slot_len : Z.of_nat (length (cache st1)) = BLOCK_SECTOR_SIZE * CACHE_SECTOR_CNT.
  Proof using Hc Hsl. rw (sl_len _ _ _ _ _ Hsl). apply (ci_cache _ _ Hc). Qed.

Lemma slot_get : exists a dn, ct st1 !! Z.to_nat i = Some (mk_cte s a dn true true) /\
    ct st1 = <[Z.to_nat i := mk_cte s a dn true true]> (ct st) /\
    (dn = 0 -> logical st s = sector_at (fs_device st) s) /\ 0 <= dn <= Z.max 0 k.
  Proof using Hc Hsl.
    destruct Hsl as [Hi He (a & dn & Hct & Hcl & Hdn) _ _ _ _ _ _ _].
    exists a, dn. rw Hct list_lookup_insert_eq; [by apply lookup_lt_Some in He|].
    split_and!; try done; destruct Hdn as [->|[-> Hu]]; try lia;
      have [_ ?] := ci_range _ _ Hc _ _ He Hu; lia.
Qed.

Lemma finish_read_ok size ofs :
    0 <= k -> 0 <= ofs -> 0 <= size -> ofs + size <= BLOCK_SECTOR_SIZE ->
    exists st', finish_read i size ofs st1 = Ok (slice (logical st s) ofs size, st') /\
      cache_ok k st' /\ Block.size (fs_device st') = Block.size (fs_device st) /\
      forall n, logical st' n = logical st n.
  Proof using Hc Hs Hsl.
    intros Hk ???. have [a [dn [Hg [Hct [Hcl Hdn]]]]] := slot_get. have Hi := sl_idx _ _ _ _ _ Hsl.
    have Hlt := lookup_lt_Some _ _ _ Hg.
    rw /finish_read copy_out_ok //; [apply slot_len|].
    rw (sl_buf _ _ _ _ _ Hsl i Hi) decide_True //=.
    rw /accessed_inc (get_cte_ok _ _ _ Hg) /= (release_put _ _ _ _ Hg) //=.
    eexists. split; [done|].
    destruct (slot_installed k k st s i e st1
      (put_cte st1 i (mk_cte s (s32 (a + 1)) dn false true)) (s32 (a + 1)) dn (logical st s) Hc Hs Hsl)
      as (G1 & G2 & G3); simpl; try done; try lia.
    - by rw Hct list_insert_insert_eq.
    - intros j Hj. change (buf _ j) with (buf st1 j). case_decide as Hji; [|done].
      by rw Hji (sl_buf _ _ _ _ _ Hsl i Hi) decide_True.
    - apply (sl_lock _ _ _ _ _ Hsl).
    - split_and!; try done. intros n. rw G3. case_decide as Hn; [by rw Hn|done].
Qed.

Lemma finish_write_ok buffer ofs :
    0 <= k < INT_MAX -> 0 <= ofs -> ofs + Z.of_nat (length buffer) <= BLOCK_SECTOR_SIZE ->
    exists st', finish_write i buffer ofs st1 = Ok st' /\
      cache_ok (k + 1) st' /\ Block.size (fs_device st') = Block.size (fs_device st) /\
      forall n, logical st' n = if decide (n = s) then splice (logical st s) ofs buffer else logical st n.
  Proof using Hc Hs Hsl.
    intros Hk Ho Hb. have [a [dn [Hg [Hct [Hcl Hdn]]]]] := slot_get. have Hi := sl_idx _ _ _ _ _ Hsl.
    have Hlt := lookup_lt_Some _ _ _ Hg.
    rw /finish_write copy_in_ok //; [apply slot_len|]. simpl.
    rw /accessed_inc /get_cte /= Hg /= /dirty_inc get_put //= put_put (release_put (set_cache st1 _) i _ _ Hg) //=.
    have -> : s32 (dn + 1) = dn + 1. { apply swrap_small; [lia|]. unfold INT_MAX in *; lia. }
    eexists. split; [done|].
    eapply (slot_installed k (k + 1) st s i e st1 _ _ (dn + 1)); simpl; try done; try lia.
    - by rw Hct list_insert_insert_eq.
    - rw length_splice //; have [??] := copy_bounds st1 i slot_len Hi; lia.
    - intros j Hj. rw /buf /= (buf_splice st1 _ i ofs buffer j eq_refl slot_len) //.
      case_decide as Hji; [|done]. by rw (sl_buf _ _ _ _ _ Hsl i Hi) decide_True.
    - apply (sl_lock _ _ _ _ _ Hsl).
Qed.
End slot_tail.

(** Reading returns the bytes of the logical sector and changes no logical sector. *)
Lemma cache_read_at_spec k st s size ofs :
  cache_ok k st -> 0 <= k -> 0 <= s < Block.size (fs_device st) ->
  0 <= ofs -> 0 <= size -> ofs + size <= BLOCK_SECTOR_SIZE ->
  exists st', cache_read_at st s size ofs = Ok (slice (logical st s) ofs size, st') /\
    cache_ok k st' /\ Block.size (fs_device st') = Block.size (fs_device st) /\
    forall n, logical st' n = logical st n.
Proof.
  intros [Hc Hl] Hk Hs ???. rw cache_read_at_slot //.
  have Hc1 : cinv k (set_next st (u32 (s + 1))) by eapply cinv_ext; last exact Hc.
  have [i [e [st1 [-> Hsl]]]] := with_slot_ok k _ s (fun i => finish_read i size ofs) Hc1 Hs.
  exact (finish_read_ok k _ s i e st1 Hc1 Hs Hsl size ofs ltac:(done) ltac:(done) ltac:(done) ltac:(done)).
Qed.

Lemma cache_write_at_spec k st s buffer ofs :
  cache_ok k st -> 0 <= k < INT_MAX -> 0 <= s < Block.size (fs_device st) ->
  0 <= ofs -> ofs + Z.of_nat (length buffer) <= BLOCK_SECTOR_SIZE ->
  exists st', cache_write_at st s buffer ofs = Ok st' /\
    cache_ok (k + 1) st' /\ Block.size (fs_device st') = Block.size (fs_device st) /\
    forall n, logical st' n = if decide (n = s) then splice (logical st s) ofs buffer else logical st n.
Proof.
  intros [Hc Hl] Hk Hs ??. rw cache_write_at_slot //.
  have [i [e [st1 [-> Hsl]]]] := with_slot_ok k _ s (fun i => finish_write i buffer ofs) Hc Hs.
  exact (finish_write_ok k _ s i e st1 Hc Hs Hsl buffer ofs ltac:(done) ltac:(done) ltac:(done)).
Qed.

(** ** Write-back *)
Definition flush_step (i : Z) (st : cache_state) : outcome cache_state :=
  let! st := acquire_cte st i in
  let! e := get_cte st i in
  let! st := if in_use e && (0 <? dirty_cnt e)
             then let! st := store_buf st i (sector e) in clean_cte st i
             else Ok st in
  release_cte st i.

Lemma flush_loop_step fuel i st :
  flush_loop (S fuel) i st = let! st := flush_step i st in flush_loop fuel (i + 1) st.
Proof.
  rw /flush_step {1}/flush_loop -/flush_loop obind_assoc.
  destruct (acquire_cte st i) as [st1|]; [|done]. rw /= obind_assoc.
  destruct (get_cte st1 i) as [e|]; [|done]. by rw /= obind_assoc.
Qed.

Lemma clean_cinv k st st' i e :
  cinv k st -> ct st !! Z.to_nat i = Some e -> 0 <= i -> in_use e = true ->
  ct st' = <[Z.to_nat i := mk_cte (sector e) (accessed_cnt e) 0 false true]> (ct st) ->
  cache st' = cache st -> type (fs_device st') = type (fs_device st) ->
  size (fs_device st') = size (fs_device st) -> 0 <= k ->
  (forall n, sector_at (fs_device st') n = if decide (n = sector e) then buf st i else sector_at (fs_device st) n) ->
  cinv k st' /\ forall n, logical st' n = logical st n.
Proof.
  intros Hc He Hi Hu Hct Hca Hty Hsz Hk Hdev.
  have Hir : 0 <= i < CACHE_SECTOR_CNT by split; [done|by eapply cinv_idx].
  have Hlt := lookup_lt_Some _ _ _ He.
  have Hh : forall j n, holds (ct st') j n <-> holds (ct st) j n.
  { intros j n. rw Hct holds_insert; [lia|]. simpl. split.
    - intros [(-> & _ & <-)|[_ ?]]; [by exists e|done].
    - intros H. destruct (decide (j = i)) as [->|]; [|by right]. left. split_and!; try done.
      destruct H as (e2 & H2 & _ & _ & <-). congruence. }
  have Hbuf : forall j, buf st' j = buf st j by intros j; rw /buf Hca.
  have Hc' : cinv k st'.
  { split.
    - rw Hct length_insert. apply (ci_ct _ _ Hc).
    - rw Hca. apply (ci_cache _ _ Hc).
    - rw Hty. apply (ci_dev _ _ Hc).
    - intros n. rw Hdev. case_decide; [|apply (ci_sectors _ _ Hc)].
      by apply length_buf; [apply (ci_cache _ _ Hc)|].
    - intros j d. rw Hct. destruct (decide (j = Z.to_nat i)) as [->|].
      + rw list_lookup_insert_eq //. by intros [= <-].
      + rw list_lookup_insert_ne //. apply (ci_unlocked _ _ Hc).
    - intros j d. rw Hct Hsz. destruct (decide (j = Z.to_nat i)) as [->|].
      + rw list_lookup_insert_eq //. intros [= <-] _. simpl. have [? _] := ci_range _ _ Hc _ _ He Hu. lia.
      + rw list_lookup_insert_ne //. apply (ci_range _ _ Hc).
    - intros j1 j2 n. rw !Hh. apply (ci_distinct _ _ Hc).
    - intros j d. rw Hct Hbuf Hdev. destruct (decide (j = i)) as [->|Hj].
      + rw list_lookup_insert_eq //. intros [= <-] _ _ _. simpl. by rw decide_True.
      + intros Hl Hj0 Hud Hd0. rw list_lookup_insert_ne in Hl; [lia|]. rw (ci_clean _ _ Hc _ _ Hl) //.
        rw decide_False //. intros Heq. apply Hj, (ci_distinct _ _ Hc j i (sector e)); [by exists d|by exists e]. }
  split; [done|]. intros n. destruct (find_loop (ct st) 0 n) as [j|] eqn:Ef.
  - apply find_loop_Some in Ef as (_ & Ef). rw Z.sub_0_r in Ef.
    by rw (logical_held k st j n) // (logical_held k st' j n) ?Hbuf ?Hh.
  - have Hnh : forall j, ~ holds (ct st) j n by intros j; eapply find_loop_None.
    rw (logical_free st) // (logical_free st'); [by intros j; rw Hh|].
    rw Hdev decide_False //. intros ->. by apply (Hnh i); exists e.
Qed.

Lemma flush_step_ok k st i :
  cinv k st -> 0 <= k -> 0 <= i < CACHE_SECTOR_CNT ->
  exists st' e', flush_step i st = Ok st' /\ cinv k st' /\ cache_lock st' = cache_lock st /\
    size (fs_device st') = size (fs_device st) /\ (forall n, logical st' n = logical st n) /\
    ct st' = <[Z.to_nat i := e']> (ct st) /\ (in_use e' = true -> dirty_cnt e' = 0).
Proof.
  intros Hc Hk Hi. destruct (ct st !! Z.to_nat i) as [e|] eqn:He.
  2:{ apply lookup_ge_None in He. rw (ci_ct _ _ Hc) in He. unfold CACHE_SECTOR_CNT in *; lia. }
  have Hlk := ci_unlocked _ _ Hc _ _ He. have Hlt := lookup_lt_Some _ _ _ He.
  rw /flush_step (acquire_cte_ok _ _ _ He Hlk) /= get_put //=.
  destruct (in_use e && (0 <? dirty_cnt e)) eqn:Hd.
  - apply andb_true_iff in Hd as [Hu Hd%Z.ltb_lt].
    have [Hse _] := ci_range _ _ Hc _ _ He Hu.
    have [|d [Hw [Hsz [Hty Hat]]]] := block_write_ok (fs_device st) (sector e) (buf st i) _ (ci_dev _ _ Hc); [lia|].
    have [Hb0 Hb1] := copy_bounds st i (ci_cache _ _ Hc) Hi.
    rw /store_buf /= mem_read_ok //= -/(buf st i) Hw /= /clean_cte /get_cte /= list_lookup_insert_eq //=.
    rw /release_cte get_put /= ?length_insert //= /put_cte /set_ct /= list_insert_insert_eq list_insert_insert_eq Hu.
    set st' := mk_cache _ _ _ _ _ _. set e' := mk_cte (sector e) (accessed_cnt e) 0 false true.
    have [H1 H2] : cinv k st' /\ forall n, logical st' n = logical st n.
    { by apply (clean_cinv k st st' i e Hc He); [lia|..]. }
    by exists st', e'.
  - rw /= /release_cte get_put //= put_put.
    have -> : lock_cte (lock_cte e true) false = e by destruct e; simpl in *; rw /lock_cte /= Hlk.
    rw put_id //. exists st, e. split_and!; try done; [by rw list_insert_id|].
    intros Hu. rw Hu /= in Hd. have [_ ?] := ci_range _ _ Hc _ _ He Hu. lia.
Qed.

Lemma flush_loop_ok k fuel i st :
  cinv k st -> 0 <= k -> 0 <= i -> i + Z.of_nat fuel = CACHE_SECTOR_CNT ->
  (forall j e, Z.of_nat j < i -> ct st !! j = Some e -> in_use e = true -> dirty_cnt e = 0) ->
  exists st', flush_loop fuel i st = Ok st' /\ cinv 0 st' /\ cache_lock st' = cache_lock st /\
    size (fs_device st') = size (fs_device st) /\ (forall n, logical st' n = logical st n).
Proof.
  revert i st. induction fuel as [|fuel IH]; intros i st Hc Hk Hi Hf Hcl.
  - exists st. split_and!; try done. destruct Hc as [H1 H2 H3 H4 H5 H6 H7 H8]. split; try done.
    intros j e He Hu. have [? _] := H6 j e He Hu. split; [done|]. rw (Hcl j e) //.
    apply lookup_lt_Some in He. lia.
  - have [|st1 [e' [Hs [Hc1 [Hl [Hsz [Hlog [Hct Hd]]]]]]]] := flush_step_ok k st i Hc Hk; [lia|].
    rw flush_loop_step Hs /=. destruct (IH (i + 1) st1) as (st' & -> & ? & Hl' & Hsz' & Hlog'); try done; [lia..| |].
    + intros j e Hj. rw Hct. destruct (decide (j = Z.to_nat i)) as [->|].
      * intros He. rw list_lookup_insert_eq in He; [rw (ci_ct _ _ Hc); unfold CACHE_SECTOR_CNT in *; lia|].
        by simplify_eq.
      * rw list_lookup_insert_ne //. apply Hcl. lia.
    + exists st'. split_and!; try done; [congruence..|]. intros n. by rw Hlog' Hlog.
Qed.

(** After a flush the device holds every logical sector and all counters are reset. *)
Lemma cache_flush_spec k st :
  cache_ok k st -> 0 <= k ->
  exists st', cache_flush st = Ok st' /\ cache_ok 0 st' /\ size (fs_device st') = size (fs_device st) /\
    (forall n, logical st' n = logical st n) /\ forall n, sector_at (fs_device st') n = logical st n.
Proof.
  intros [Hc Hl] Hk. rw /cache_flush /acquire_cache Hl. cbn [ASSERT negb obind].
  have Hc1 : cinv k (set_lock st true) by eapply cinv_ext; last exact Hc.
  destruct (flush_loop_ok k (Z.to_nat CACHE_SECTOR_CNT) 0 (set_lock st true) Hc1)
    as (st1 & Hf & Hc2 & Hl2 & Hsz & Hlog); [done|done|done|by intros; lia|].
  rw Hf /= /release_cache Hl2 /=. eexists. split; [done|].
  have Hc3 : cinv 0 (set_lock st1 false) by eapply cinv_ext; last exact Hc2.
  split_and!; try done. intros n. change (logical st n) with (logical (set_lock st true) n). rw -(Hlog n).
  destruct (find_loop (ct st1) 0 n) as [j|] eqn:Ef.
  - apply find_loop_Some in Ef as (_ & Ef). rw Z.sub_0_r in Ef. rw (logical_held _ _ _ _ Hc2 Ef).
    destruct Ef as (e & He & ? & Hu & <-). have [_ ?] := ci_range _ _ Hc2 _ _ He Hu.
    rw (ci_clean _ _ Hc2 _ _ He) //. lia.
  - rw logical_free //. intros j. by eapply find_loop_None.
Qed.

Lemma cache_init_ok dev :
  type dev ≠ BLOCK_FOREIGN -> (forall n, length (sector_at dev n) = sector_len) ->
  cache_ok 0 (cache_init dev) /\ forall n, logical (cache_init dev) n = sector_at dev n.
Proof.
  intros Ht Hs.
  have Hr : forall i e, ct (cache_init dev) !! i = Some e -> in_use e = false /\ lock e = false.
  { intros i e. rw /cache_init /=. by intros [-> _]%lookup_replicate. }
  have Hh : forall i n, ~ holds (ct (cache_init dev)) i n.
  { intros i n (e & [? _]%Hr & _ & ? & _). congruence. }
  split; [split; [split|done]|].
  - apply length_replicate.
  - rw /cache_init. cbn [cache]. rw length_replicate Z2Nat.id //.
  - done.
  - done.
  - intros i e [_ ?]%Hr. done.
  - intros i e [? _]%Hr ?. congruence.
  - by intros i j n ?%Hh.
  - intros i e [? _]%Hr _ ?. congruence.
  - intros n. by apply logical_free.
Qed.

(** ** The cache implements an array of sectors *)
#[export] Instance cache_ops : SectorOps cache_state := {
  sec_read_at := cache_read_at;
  sec_write_at := cache_write_at }.

#[export] Program Instance cache_store : SectorStore cache_state := {
  sec_view := logical;
  sec_count st := size (fs_device st);
  sec_ok n st := exists k, cache_ok k st /\ 0 <= k /\ k + n <= INT_MAX }.
Next Obligation. intros n m st (k & ? & ? & ?) ?. exists k. split_and!; [done|lia..]. Qed.
Next Obligation. intros n st s (k & [? _] & _). by eapply length_logical. Qed.
Next Obligation.
  intros n st s size ofs (k & Hk & ? & ?) ????.
  destruct (cache_read_at_spec k st s size ofs) as (st' & ? & ? & ? & ?); try done.
  exists st'. split_and!; try done. by exists k.
Qed.
Next Obligation.
  intros n st s buffer ofs (k & Hk & ? & ?) ????.
  destruct (cache_write_at_spec k st s buffer ofs) as (st' & ? & ? & ? & ?); try done; [lia|].
  exists st'. split_and!; try done. exists (k + 1). split_and!; [done|lia..].
Qed.

(** A client's session: reads, writes and flushes. *)
Inductive request :=
| Read (s size ofs : Z)
| Write (s : Z) (buffer : list Z) (ofs : Z)
| Flush.

(** What the request may ask for on a device of [n] sectors. *)
Definition request_ok (n : Z) (r : request) : Prop :=
  match r with
  | Read s size ofs => 0 <= s < n /\ 0 <= ofs /\ 0 <= size /\ ofs + size <= BLOCK_SECTOR_SIZE
  | Write s buffer ofs => 0 <= s < n /\ 0 <= ofs /\ ofs + Z.of_nat (length buffer) <= BLOCK_SECTOR_SIZE
  | Flush => True
  end.

Definition serve (r : request) (st : cache_state) : outcome (list Z * cache_state) :=
  match r with
  | Read s size ofs => cache_read_at st s size ofs
  | Write s buffer ofs => let! st := cache_write_at st s buffer ofs in Ok ([], st)
  | Flush => let! st := cache_flush st in Ok ([], st)
  end.

Fixpoint serve_all (rs : list request) (st : cache_state) : outcome (list (list Z) * cache_state) :=
  match rs with
  | [] => Ok ([], st)
  | r :: rs =>
    let! (out, st) := serve r st in
    let! (outs, st) := serve_all rs st in
    Ok (out :: outs, st)
  end.

(** The specification: the disk is a function from sectors to contents. *)
Definition spec_serve (r : request) (disk : Z -> list Z) : list Z * (Z -> list Z) :=
  match r with
  | Read s size ofs => (slice (disk s) ofs size, disk)
  | Write s buffer ofs => ([], fun t => if decide (t = s) then splice (disk s) ofs buffer else disk t)
  | Flush => ([], disk)
  end.

Fixpoint spec_all (rs : list request) (disk : Z -> list Z) : list (list Z) * (Z -> list Z) :=
  match rs with
  | [] => ([], disk)
  | r :: rs =>
    let (out, disk) := spec_serve r disk in
    let (outs, disk) := spec_all rs disk in
    (out :: outs, disk)
  end.

Lemma serve_refines k st disk r :
  cache_ok k st -> 0 <= k < INT_MAX -> request_ok (size (fs_device st)) r ->
  (forall t, logical st t = disk t) ->
  exists st', serve r st = Ok (fst (spec_serve r disk), st') /\ cache_ok (k + 1) st' /\
    size (fs_device st') = size (fs_device st) /\ forall t, logical st' t = snd (spec_serve r disk) t.
Proof.
  have Hmono : forall k k' st, cache_ok k st -> k <= k' -> cache_ok k' st.
  { intros k1 k2 st1 [[H1 H2 H3 H4 H5 H6 H7 H8] Hl] ?. split; [split|]; try done.
    intros i e He Hu. have := H6 i e He Hu. lia. }
  intros Hc Hk Hr Hd. destruct r as [s n ofs|s b ofs|]; simpl in Hr.
  - destruct (cache_read_at_spec k st s n ofs) as (st' & Hs & Hc' & Hz & Hv); try tauto; try lia.
    exists st'. simpl. rw Hs Hd. split_and!; try done; [apply: Hmono; [exact Hc'|lia]|]. intros t. by rw Hv.
  - destruct (cache_write_at_spec k st s b ofs) as (st' & Hs & Hc' & Hz & Hv); try tauto; try lia.
    exists st'. simpl. rw Hs. split_and!; try done. intros t. rw Hv -!Hd. done.
  - destruct (cache_flush_spec k st) as (st' & Hs & Hc' & Hz & Hv & _); try done; [lia|].
    exists st'. simpl. rw Hs. split_and!; try done; [apply: Hmono; [exact Hc'|lia]|]. intros t. by rw Hv.
Qed.

Lemma serve_all_refines rs k st disk :
  cache_ok k st -> 0 <= k -> k + Z.of_nat (length rs) <= INT_MAX ->
  Forall (request_ok (size (fs_device st))) rs -> (forall t, logical st t = disk t) ->
  exists st', serve_all rs st = Ok (fst (spec_all rs disk), st') /\
    cache_ok (k + Z.of_nat (length rs)) st' /\
    size (fs_device st') = size (fs_device st) /\ forall t, logical st' t = snd (spec_all rs disk) t.
Proof.
  revert k st disk. induction rs as [|r rs IH]; intros k st disk Hc H0 Hk Hrs Hd; simpl.
  { exists st. by rw Z.add_0_r. }
  apply Forall_cons in Hrs as [Hr Hrs]. simpl in Hk.
  destruct (serve_refines k st disk r) as (st1 & -> & Hc1 & Hs1 & Hd1); try done; [lia|]. simpl.
  destruct (spec_serve r disk) as [out disk1]. simpl in Hd1 |- *.
  destruct (IH (k + 1) st1 disk1) as (st2 & -> & Hc2 & Hs2 & Hd2); try done; [lia|lia|by rw Hs1|]. simpl.
  destruct (spec_all rs disk1) as [outs disk2]. simpl in Hd2 |- *.
  exists st2. split_and!; [done| |congruence|done]. by replace (k + Z.of_nat (S (length rs))) with (k + 1 + Z.of_nat (length rs)) by lia.
Qed.

(** C1: the buffer cache refines an array of sectors.  A session of at most
    [INT_MAX] in-range requests on a freshly initialised cache never fails (no
    assertion fires, no buffer is left, no lock is acquired twice or released
    unheld); every read returns what an uncached disk would return, whatever
    was evicted in between; and a final [cache_flush] leaves the device itself
    equal to the abstract disk. *)
Theorem cache_session_refines (dev : block) (rs : list request) :
  type dev ≠ BLOCK_FOREIGN -> (forall n, length (sector_at dev n) = sector_len) ->
  Z.of_nat (length rs) <= INT_MAX -> Forall (request_ok (size dev)) rs ->
  exists st st', serve_all rs (cache_init dev) = Ok (fst (spec_all rs (sector_at dev)), st) /\
    (forall t, logical st t = snd (spec_all rs (sector_at dev)) t) /\
    cache_flush st = Ok st' /\
    forall t, sector_at (fs_device st') t = snd (spec_all rs (sector_at dev)) t.
Proof.
  intros Ht Hs Hn Hrs. have [Hc Hl] := cache_init_ok dev Ht Hs.
  destruct (serve_all_refines rs 0 (cache_init dev) (sector_at dev)) as (st & Hr & Hc' & _ & Hd); try done.
  destruct (cache_flush_spec _ st Hc') as (st' & Hf & _ & _ & _ & Hd'); [lia|].
  exists st, st'. split_and!; try done. intros t. by rw Hd' Hd.
Qed.

Definition ex_dev : block := mk_block "hdb1" BLOCK_FILESYS 100 ∅ 0 0.
Definition ex_session : list request :=
  [Write 7 [1; 2; 3] 10; Read 7 4 9; Flush; Write 7 [9] 11; Read 7 4 9].

Lemma cache_session_refines_witness :
  Forall (request_ok (size ex_dev)) ex_session /\
  fst (spec_all ex_session (sector_at ex_dev)) = [[]; [0; 1; 2; 3]; []; []; [0; 1; 9; 3]] /\
  exists st st', serve_all ex_session (cache_init ex_dev) = Ok (fst (spec_all ex_session (sector_at ex_dev)), st) /\
    (forall t, logical st t = snd (spec_all ex_session (sector_at ex_dev)) t) /\
    cache_flush st = Ok st' /\
    forall t, sector_at (fs_device st') t = snd (spec_all ex_session (sector_at ex_dev)) t.
Proof.
  have H : Forall (request_ok (size ex_dev)) ex_session.
  { repeat constructor; simpl; rw /BLOCK_SECTOR_SIZE; lia. }
  split_and!; [done|by vm_compute|].
  apply cache_session_refines; [done| |by vm_compute|done].
  intros n. rw /sector_at /= lookup_empty. apply length_replicate.
Defined.

(** ** The victim *)

(** [min_upto t i r]: entry [r] has the least access count of the first [i] entries. *)
Definition min_upto (t : list cte) (i r : Z) : Prop :=
  exists e, t !! Z.to_nat r = Some e /\ 0 <= r < i /\
    forall j d, Z.of_nat j < i -> t !! j = Some d -> accessed_cnt e <= accessed_cnt d.

Lemma alloc_loop_min k s fuel i result min st x st' :
  cinv k st -> 0 <= i -> i + Z.of_nat fuel = CACHE_SECTOR_CNT ->
  (forall j e, ct st !! j = Some e -> in_use e = true /\ 0 <= accessed_cnt e) ->
  (match result with
   | Some r => min_upto (ct st) i r /\ option_map accessed_cnt (ct st !! Z.to_nat r) = Some min
   | None => min = -1 /\ i = 0 end) ->
  alloc_loop fuel i s result min st = Ok (x, st') ->
  exists r, x = inr (Some r) /\ min_upto (ct st) CACHE_SECTOR_CNT r.
Proof.
  intros Hc. revert i result min. induction fuel as [|fuel IH]; intros i result min Hi Hf Hall Hr.
  { intros [= <- _]. unfold CACHE_SECTOR_CNT in *. destruct result as [r|]; [|lia]. exists r.
    split; [done|]. replace 64 with i by lia. apply Hr. }
  destruct (ct st !! Z.to_nat i) as [e|] eqn:He.
  2:{ apply lookup_ge_None in He. rw (ci_ct _ _ Hc) in He. unfold CACHE_SECTOR_CNT in *; lia. }
  have Hlk := ci_unlocked _ _ Hc _ _ He. have Hlt := lookup_lt_Some _ _ _ He.
  have [Hu Ha] := Hall _ _ He.
  rw /= (acquire_cte_ok _ _ _ He Hlk) /= get_put //= Hu /=.
  have Hrel : release_cte (put_cte st i (lock_cte e true)) i = Ok st.
  { rw (release_put _ _ _ _ He) //. f_equal.
    rw /lock_cte /= -/(lock_cte e false) (lock_cte_id _ _ Hlk). by apply put_id. }
  have Hext : forall r m, (forall j d, Z.of_nat j < i -> ct st !! j = Some d -> m <= accessed_cnt d) ->
    option_map accessed_cnt (ct st !! Z.to_nat r) = Some m -> 0 <= r <= i -> m <= accessed_cnt e ->
    min_upto (ct st) (i + 1) r.
  { intros r m Hm Hrm Hri Hme. destruct (ct st !! Z.to_nat r) as [er|] eqn:Er; [|done].
    simpl in Hrm. simplify_eq. exists er. split_and!; [done|lia|lia|]. intros j d Hj Hd.
    destruct (decide (j = Z.to_nat i)) as [->|]; [by simplify_eq|]. apply (Hm j d); [lia|done]. }
  set step := (X in obind X).
  have [r' [m' [-> Hr']]] : exists r' m', step = Ok (Some r', m') /\ min_upto (ct st) (i + 1) r' /\
      option_map accessed_cnt (ct st !! Z.to_nat r') = Some m'.
  { subst step. destruct result as [r|].
    - destruct Hr as [(er & Her & Hri & Hmin) Hm]. rw Her /= in Hm. injection Hm as Hm.
      have [_ Hr0] := Hall _ _ Her.
      destruct ((min =? -1) || (accessed_cnt e <? min)) eqn:Em.
      + apply orb_true_iff in Em. exists i, (accessed_cnt e). split_and!; [done| |by rw He].
        apply (Hext i (accessed_cnt e)); [|by rw He|lia|lia]. intros j d Hj Hd. have := Hmin j d Hj Hd. lia.
      + apply orb_false_iff in Em as [_ Em%Z.ltb_ge].
        have Hkeep : min_upto (ct st) (i + 1) r by apply (Hext r min); [by rw -Hm|by rw Her /= Hm|lia|lia].
        destruct (Z.eqb_spec (accessed_cnt e) min) as [Heq|]; simpl.
        * destruct (_ && _); [|exists r, min; split_and!; [done|done|by rw Her /= Hm]].
          exists i, min. split_and!; [done| |by rw He /= Heq].
          apply (Hext i min); [by rw -Hm|by rw He /= Heq|lia|lia].
        * exists r, min. split_and!; [done|done|by rw Her /= Hm].
    - destruct Hr as [-> ->]. simpl. exists 0, (accessed_cnt e). split_and!; [done| |by rw He].
      apply (Hext 0 (accessed_cnt e)); [intros; lia|by rw He|lia|lia]. }
  simpl. rw Hrel /=. apply IH; [lia|lia|done|done].
Qed.

(** When every entry is in use, [cache_alloc] evicts a least frequently
    used one, writing it back first if it is dirty, and no other entry or
    sector changes. *)
Theorem cache_alloc_lfu (k : Z) (st : cache_state) (s : Z) :
  cinv k st -> cache_lock st = true -> (forall j, ~ holds (ct st) j s) ->
  (forall j e, ct st !! j = Some e -> in_use e = true /\ 0 <= accessed_cnt e) ->
  exists i e st', cache_alloc st s = Ok (i, st') /\ ct st !! Z.to_nat i = Some e /\
    (forall j d, ct st !! j = Some d -> accessed_cnt e <= accessed_cnt d) /\
    ct st' = <[Z.to_nat i := mk_cte s 0 0 true true]> (ct st) /\
    forall n, sector_at (fs_device st') n = if evicts e s n then buf st i else sector_at (fs_device st) n.
Proof.
  intros Hc Hl Hn Hall.
  have [i [e [v [d [Ha [Hi [He [_ [_ Hd]]]]]]]]] := cache_alloc_spec k st s Hc Hl Hn.
  exists i, e. eexists. split; [done|]. split_and!; try done.
  rw /cache_alloc in Ha. apply obind_Ok_inv in Ha as ([x st1] & Hx & Ha).
  have Hx1 : st1 = st.
  { destruct (alloc_loop_spec k s (Z.to_nat CACHE_SECTOR_CNT) 0 None (-1) st) as [(j & e0 & Hj & Hjr & Hje & Hju)|(r & Hj & _)];
      try done; rw Hx in Hj; [|by simplify_eq]. have [? _] := Hall _ _ Hje. congruence. }
  subst st1.
  destruct (alloc_loop_min k s (Z.to_nat CACHE_SECTOR_CNT) 0 None (-1) st x st Hc)
    as (r & -> & er & Her & Hr & Hmin); try done.
  cbn [oget obind] in Ha. have Hri : r = i.
  { repeat (apply obind_Ok_inv in Ha as (? & _ & Ha)). by simplify_eq. }
  subst r. have -> : e = er by congruence. intros j d' Hj. apply (Hmin j); [|done].
  apply lookup_lt_Some in Hj. rw (ci_ct _ _ Hc) in Hj. lia.
Qed.

Definition ex_full : cache_state :=
  mk_cache ((fun i => mk_cte i (if i =? 5 then 1 else 2) 0 false true) <$> seqZ 0 64)
    (replicate (Z.to_nat (BLOCK_SECTOR_SIZE * CACHE_SECTOR_CNT)) 0) true 0 0 ex_dev.

Lemma ex_full_entry j e :
  ct ex_full !! j = Some e ->
  e = mk_cte (Z.of_nat j) (if Z.of_nat j =? 5 then 1 else 2) 0 false true /\ (j < 64)%nat.
Proof.
  rw /ex_full. cbn [ct]. rw list_lookup_fmap. intros (i & Hi & ->)%fmap_Some.
  apply lookup_seqZ in Hi as [-> ?]. split; [by rw Z.add_0_l|lia].
Qed.

Lemma ex_full_cinv : cinv 0 ex_full.
Proof.
  split.
  - by rw /ex_full.
  - rw /ex_full. cbn [cache]. by rw length_replicate Z2Nat.id.
  - done.
  - intros n. rw /sector_at lookup_empty. apply length_replicate.
  - by intros i e [-> _]%ex_full_entry.
  - intros i e [-> ?]%ex_full_entry _. simpl. lia.
  - intros i j n (e & [-> _]%ex_full_entry & ? & _ & <-) (e' & [-> _]%ex_full_entry & ? & _ & Heq).
    simpl in Heq. lia.
  - intros i e [-> Hi]%ex_full_entry ? _ _. rw /buf /slice /ex_full /sector_at lookup_empty. cbn [cache default].
    rw drop_replicate take_replicate /zero_sector. f_equal. rw /buf_ofs /BLOCK_SECTOR_SIZE /CACHE_SECTOR_CNT /sector_len. lia.
Qed.

Lemma cache_alloc_lfu_witness :
  exists i e st', cache_alloc ex_full 70 = Ok (i, st') /\ ct ex_full !! Z.to_nat i = Some e /\
    (forall j d, ct ex_full !! j = Some d -> accessed_cnt e <= accessed_cnt d) /\
    ct st' = <[Z.to_nat i := mk_cte 70 0 0 true true]> (ct ex_full) /\
    forall n, sector_at (fs_device st') n = if evicts e 70 n then buf ex_full i else sector_at (fs_device ex_full) n.
Proof.
  apply (cache_alloc_lfu 0).
  - apply ex_full_cinv.
  - reflexivity.
  - intros j (e & [-> ?]%ex_full_entry & ? & _ & Heq). simpl in Heq. lia.
  - intros j e [-> ?]%ex_full_entry. simpl. split; [done|]. by destruct (_ =? 5).
Defined.
