(* ===== verification/Inode.v ===== *)
(** * filesys/inode.c: indexed inodes

    The data model and the operations of the inode layer, over an abstract
    sector store (Store.v) and an abstract free map ([fm_ops], implemented in
    File.v).  In-memory inodes are shared objects: they live in a table
    [inodes] and are named by their address; [open_inodes] is the kernel list
    of the open ones.  [mem] is the sequence of outcomes of [malloc] and
    [calloc] (a request succeeds when it is used up). *)
From S2P Require Import Prelude Block Bitmap Store.

Definition INODE_MAGIC : Z := 0x494e4f44.
Definition TOTAL_SECTOR_CNT : Z := BLOCK_SECTOR_SIZE / 4 - 3.
Definition DIRECT_SECTOR_CNT : Z := 119.
Definition INDIRECT_SECTOR_CNT : Z := 5.
Definition FILESYS_LIMIT_SECTORS : Z := Z.shiftl 1 23 / BLOCK_SECTOR_SIZE.
Definition FREE_MAP_SECTOR : Z := 0.
Definition ROOT_DIR_SECTOR : Z := 1.

Record inode_disk := mk_disk {
  sector : list Z;          (* TOTAL_SECTOR_CNT sector numbers *)
  length : Z;
  parent : Z;
  magic : Z }.

Record inode := mk_inode {
  isector : Z;
  open_cnt : Z;
  removed : bool;
  deny_write_cnt : Z;
  grow_lock : bool;
  dir_lockp : Z;            (* the address of the lock *)
  data : inode_disk }.

(** [calloc (1, sizeof *disk_inode)] *)
Definition zero_disk : inode_disk := mk_disk (replicate (Z.to_nat TOTAL_SECTOR_CNT) 0) 0 0 0.
Definition zeros : list Z := zero_sector.

(** The layout of [struct inode_disk] in a sector: 128 little-endian words. *)
Definition encode (d : inode_disk) : list Z :=
  words_bytes (sector d ++ [u32 (length d); parent d; magic d]).
Definition decode (bs : list Z) : inode_disk :=
  let ws := bytes_words 128 bs in
  mk_disk (take (Z.to_nat TOTAL_SECTOR_CNT) ws) (s32 (ws !!! 125%nat)) (ws !!! 126%nat) (ws !!! 127%nat).

Definition set_sector (d : inode_disk) (i s : Z) : outcome inode_disk :=
  if (0 <=? i) && (i <? TOTAL_SECTOR_CNT)
  then Ok (mk_disk (<[Z.to_nat i := s]> (sector d)) (length d) (parent d) (magic d))
  else Err Fault.
Definition get_sector (d : inode_disk) (i : Z) : outcome Z :=
  if (0 <=? i) && (i <? TOTAL_SECTOR_CNT) then oget (sector d !! Z.to_nat i) else Err Fault.
Definition set_length (d : inode_disk) (l : Z) : inode_disk :=
  mk_disk (sector d) l (parent d) (magic d).
Definition set_parent (d : inode_disk) (p : Z) : inode_disk :=
  mk_disk (sector d) (length d) p (magic d).

Definition bytes_to_sectors (size : Z) : Z :=
  u32 (Z.quot (s32 (size + BLOCK_SECTOR_SIZE - 1)) BLOCK_SECTOR_SIZE).

(** [length_to_total_sectors]: its three loops, nested as in the source. *)
Fixpoint total_direct (n : nat) (length result : Z) : Z * Z :=
  match n with
  | O => (length, result)
  | S n => if 0 <? length then total_direct n (length - BLOCK_SECTOR_SIZE) (result + 1)
           else (length, result)
  end.
Fixpoint total_indirect (n : nat) (length result : Z) : Z * Z :=
  match n with
  | O => (length, result)
  | S n => if 0 <? length then
             let (length, result) := total_direct (Z.to_nat TOTAL_SECTOR_CNT) length (result + 1) in
             total_indirect n length result
           else (length, result)
  end.
Fixpoint total_doubly (n : nat) (length result : Z) : Z * Z :=
  match n with
  | O => (length, result)
  | S n => if 0 <? length then
             let (length, result) := total_indirect (Z.to_nat TOTAL_SECTOR_CNT) length (result + 1) in
             total_doubly n length result
           else (length, result)
  end.
Definition length_to_total_sectors (length : Z) : Z :=
  let (length, result) := total_direct (Z.to_nat DIRECT_SECTOR_CNT) length 1 in
  let (length, result) := total_indirect (Z.to_nat (DIRECT_SECTOR_CNT + INDIRECT_SECTOR_CNT)) length result in
  snd (total_doubly (Z.to_nat TOTAL_SECTOR_CNT) length result).

(** ** The file system state *)
Record file := mk_file { finode : Z; pos : Z; deny_write : bool }.

Record fs (St : Type) := mk_fs {
  store : St;
  mem : list bool;
  free_map : bitmap;
  free_map_lock : bool;
  free_map_file : option file;
  open_inodes : list Z;
  inodes : gmap Z inode;
  dir_locks : gmap Z bool;
  next_addr : Z }.
Arguments mk_fs {St}.
Arguments store {St}.
Arguments mem {St}.
Arguments free_map {St}.
Arguments free_map_lock {St}.
Arguments free_map_file {St}.
Arguments open_inodes {St}.
Arguments inodes {St}.
Arguments dir_locks {St}.
Arguments next_addr {St}.

(** What the inode layer calls in free-map.c. *)
Record fm_ops (St : Type) := mk_fm {
  fm_allocate : fs St -> Z -> outcome (option Z * fs St);
  fm_release : fs St -> Z -> Z -> outcome (fs St) }.
Arguments mk_fm {St}.
Arguments fm_allocate {St}.
Arguments fm_release {St}.

Section inode.
Context {St : Type} `{!SectorOps St}.
Implicit Types (f : fs St) (F : fm_ops St).

Definition set_store f (s : St) : fs St :=
  mk_fs s (mem f) (free_map f) (free_map_lock f) (free_map_file f) (open_inodes f) (inodes f)
    (dir_locks f) (next_addr f).
Definition set_mem f m : fs St :=
  mk_fs (store f) m (free_map f) (free_map_lock f) (free_map_file f) (open_inodes f) (inodes f)
    (dir_locks f) (next_addr f).
Definition set_open f (l : list Z) : fs St :=
  mk_fs (store f) (mem f) (free_map f) (free_map_lock f) (free_map_file f) l (inodes f)
    (dir_locks f) (next_addr f).
Definition set_inodes f m : fs St :=
  mk_fs (store f) (mem f) (free_map f) (free_map_lock f) (free_map_file f) (open_inodes f) m
    (dir_locks f) (next_addr f).
Definition set_locks f m : fs St :=
  mk_fs (store f) (mem f) (free_map f) (free_map_lock f) (free_map_file f) (open_inodes f) (inodes f)
    m (next_addr f).
Definition set_next f a : fs St :=
  mk_fs (store f) (mem f) (free_map f) (free_map_lock f) (free_map_file f) (open_inodes f) (inodes f)
    (dir_locks f) a.

(** [calloc] and [malloc]: does the request succeed? *)
Definition calloc f : bool * fs St :=
  match mem f with [] => (true, f) | b :: m => (b, set_mem f m) end.

Definition fs_read_at f (s size ofs : Z) : outcome (list Z * fs St) :=
  let! (bs, st) := sec_read_at (store f) s size ofs in Ok (bs, set_store f st).
Definition fs_write_at f (s : Z) (buffer : list Z) (ofs : Z) : outcome (fs St) :=
  let! st := sec_write_at (store f) s buffer ofs in Ok (set_store f st).
Definition fs_read f (s : Z) : outcome (list Z * fs St) := fs_read_at f s BLOCK_SECTOR_SIZE 0.
Definition fs_write f (s : Z) (buffer : list Z) : outcome (fs St) := fs_write_at f s buffer 0.

(** [cache_read (s, disk_inode)] and [cache_write (s, disk_inode)]. *)
Definition read_disk f (s : Z) : outcome (inode_disk * fs St) :=
  let! (bs, f) := fs_read f s in Ok (decode bs, f).
Definition write_disk f (s : Z) (d : inode_disk) : outcome (fs St) := fs_write f s (encode d).

(** The inode at an address, and [inode->... = ...]. *)
Definition get_inode f (a : Z) : outcome inode := oget (inodes f !! a).
Definition put_inode f (a : Z) (i : inode) : fs St := set_inodes f (<[a := i]> (inodes f)).
Definition set_data (i : inode) (d : inode_disk) : inode :=
  mk_inode (isector i) (open_cnt i) (removed i) (deny_write_cnt i) (grow_lock i) (dir_lockp i) d.
Definition set_grow_lock (i : inode) (b : bool) : inode :=
  mk_inode (isector i) (open_cnt i) (removed i) (deny_write_cnt i) b (dir_lockp i) (data i).
Definition set_open_cnt (i : inode) (n : Z) : inode :=
  mk_inode (isector i) n (removed i) (deny_write_cnt i) (grow_lock i) (dir_lockp i) (data i).
Definition set_removed (i : inode) (b : bool) : inode :=
  mk_inode (isector i) (open_cnt i) b (deny_write_cnt i) (grow_lock i) (dir_lockp i) (data i).
Definition set_deny (i : inode) (n : Z) : inode :=
  mk_inode (isector i) (open_cnt i) (removed i) n (grow_lock i) (dir_lockp i) (data i).

(** ** byte_to_sector *)
Definition NO_SECTOR : Z := u32 (-1).

Definition byte_to_sector f (d : inode_disk) (pos : Z) : outcome (Z * fs St) :=
  if length d <=? pos then Ok (NO_SECTOR, f) else
  let sector_idx := u32 (Z.quot pos BLOCK_SECTOR_SIZE) in
  if sector_idx <? DIRECT_SECTOR_CNT then
    let! s := get_sector d sector_idx in Ok (s, f)
  else
    let (ok, f) := calloc f in
    if negb ok then Ok (NO_SECTOR, f) else
    let sector_idx := sector_idx - DIRECT_SECTOR_CNT in
    if sector_idx <? INDIRECT_SECTOR_CNT * TOTAL_SECTOR_CNT then
      let! s := get_sector d (DIRECT_SECTOR_CNT + sector_idx / TOTAL_SECTOR_CNT) in
      let! (disk_inode, f) := read_disk f s in
      let! r := get_sector disk_inode (sector_idx mod TOTAL_SECTOR_CNT) in
      Ok (r, f)
    else
      let sector_idx := sector_idx - INDIRECT_SECTOR_CNT * TOTAL_SECTOR_CNT in
      let! s := get_sector d (DIRECT_SECTOR_CNT + INDIRECT_SECTOR_CNT
                                + sector_idx / (TOTAL_SECTOR_CNT * TOTAL_SECTOR_CNT)) in
      let! (disk_inode, f) := read_disk f s in
      let! s := get_sector disk_inode ((sector_idx / TOTAL_SECTOR_CNT) mod TOTAL_SECTOR_CNT) in
      let! (disk_inode, f) := read_disk f s in
      let! r := get_sector disk_inode (sector_idx mod TOTAL_SECTOR_CNT) in
      Ok (r, f).

(** ** Creation *)

(** The loop of [inode_create_direct].  Every pass stores into
    [disk_inode->sector[cur_sectors_data]], an array of [TOTAL_SECTOR_CNT]
    elements: that many passes and one more are enough. *)
Fixpoint create_direct_loop (fuel : nat) F f (d : inode_disk) (len sectors cur_sectors_data cur_sectors : Z)
    : outcome (bool * inode_disk * Z * fs St) :=
  if (cur_sectors_data <? sectors) && (cur_sectors <? FILESYS_LIMIT_SECTORS) then
    match fuel with
    | O => Err NoFuel
    | S fuel =>
      let! (r, f) := fm_allocate F f 1 in
      match r with
      | None => Ok (false, d, cur_sectors, f)
      | Some new_sector =>
        let! d := set_sector d cur_sectors_data new_sector in
        let! f := fs_write f new_sector zeros in
        let cur_sectors := cur_sectors + 1 in
        let cur_sectors_data := cur_sectors_data + 1 in
        let d := set_length d (if u32 len <? cur_sectors_data * BLOCK_SECTOR_SIZE
                               then u32 len else cur_sectors_data * BLOCK_SECTOR_SIZE) in
        create_direct_loop fuel F f d len sectors cur_sectors_data cur_sectors
      end
    end
  else Ok (true, d, cur_sectors, f).

Definition index_fuel : nat := Z.to_nat (TOTAL_SECTOR_CNT + 1).

Definition inode_create_direct F f (sec len cur_sectors : Z) : outcome (bool * Z * fs St) :=
  assert! 0 <=? len in
  let (ok, f) := calloc f in
  if ok then
    let sectors := bytes_to_sectors len in
    let d := mk_disk (sector zero_disk) 0 0 INODE_MAGIC in
    let! (success, d, cur_sectors, f) :=
      create_direct_loop index_fuel F f d len sectors 0 (cur_sectors + 1) in
    let! f := if success then write_disk f sec d else Ok f in
    Ok (success, cur_sectors, f)
  else Ok (false, cur_sectors, f).

Fixpoint create_indirect_loop (fuel : nat) F f (d : inode_disk) (length_left cur_inodes cur_sectors : Z)
    : outcome (bool * inode_disk * Z * fs St) :=
  if (0 <? length_left) && (cur_sectors <? FILESYS_LIMIT_SECTORS) then
    match fuel with
    | O => Err NoFuel
    | S fuel =>
      let! (r, f) := fm_allocate F f 1 in
      match r with
      | None => Ok (false, d, cur_sectors, f)
      | Some new_sector =>
        let next_length := Z.min length_left (TOTAL_SECTOR_CNT * BLOCK_SECTOR_SIZE) in
        let! (ok, cur_sectors, f) := inode_create_direct F f new_sector next_length cur_sectors in
        if negb ok then
          let! f := fm_release F f new_sector 1 in Ok (false, d, cur_sectors, f)
        else
          let! d := set_sector d cur_inodes new_sector in
          create_indirect_loop fuel F f (set_length d (length d + next_length))
            (length_left - next_length) (cur_inodes + 1) cur_sectors
      end
    end
  else Ok (true, d, cur_sectors, f).

Definition inode_create_indirect F f (sec len cur_sectors : Z) : outcome (bool * Z * fs St) :=
  assert! 0 <=? len in
  let (ok, f) := calloc f in
  if ok then
    let d := mk_disk (sector zero_disk) 0 0 INODE_MAGIC in
    let! (success, d, cur_sectors, f) :=
      create_indirect_loop index_fuel F f d len 0 (cur_sectors + 1) in
    let! f := if success then write_disk f sec d else Ok f in
    Ok (success, cur_sectors, f)
  else Ok (false, cur_sectors, f).

Fixpoint create_loop (fuel : nat) F f (d : inode_disk) (length_left cur_inodes cur_sectors : Z)
    : outcome (bool * inode_disk * fs St) :=
  if (0 <? length_left) && (cur_inodes <? TOTAL_SECTOR_CNT) && (cur_sectors <? FILESYS_LIMIT_SECTORS) then
    match fuel with
    | O => Err NoFuel
    | S fuel =>
      let! (r, f) := fm_allocate F f 1 in
      match r with
      | None => Ok (false, d, f)
      | Some new_sector =>
        if cur_inodes <? DIRECT_SECTOR_CNT then
          let! d := set_sector d cur_inodes new_sector in
          let! f := fs_write f new_sector zeros in
          let next_length := Z.min length_left BLOCK_SECTOR_SIZE in
          create_loop fuel F f (set_length d (length d + next_length))
            (length_left - next_length) (cur_inodes + 1) (cur_sectors + 1)
        else
          let direct := cur_inodes <? DIRECT_SECTOR_CNT + INDIRECT_SECTOR_CNT in
          let next_length := Z.min length_left
            (if direct then TOTAL_SECTOR_CNT * BLOCK_SECTOR_SIZE
             else TOTAL_SECTOR_CNT * TOTAL_SECTOR_CNT * BLOCK_SECTOR_SIZE) in
          let! (ok, cur_sectors, f) :=
            if direct then inode_create_direct F f new_sector next_length cur_sectors
            else inode_create_indirect F f new_sector next_length cur_sectors in
          if negb ok then
            let! f := fm_release F f new_sector 1 in Ok (false, d, f)
          else
            let! d := set_sector d cur_inodes new_sector in
            create_loop fuel F f (set_length d (length d + next_length))
              (length_left - next_length) (cur_inodes + 1) cur_sectors
      end
    end
  else Ok (true, d, f).

Definition inode_create F f (sec len : Z) : outcome (bool * fs St) :=
  assert! 0 <=? len in
  let (ok, f) := calloc f in
  if ok then
    let d := mk_disk (sector zero_disk) 0 ROOT_DIR_SECTOR INODE_MAGIC in
    let! (success, d, f) := create_loop index_fuel F f d len 0 1 in
    let! f := if success then write_disk f sec d else Ok f in
    Ok (success, f)
  else Ok (false, f).

(** ** Growth *)
Definition INDEX_BYTES : Z := TOTAL_SECTOR_CNT * BLOCK_SECTOR_SIZE.
Definition DIRECT_BYTES : Z := DIRECT_SECTOR_CNT * BLOCK_SECTOR_SIZE.
Definition INDIRECT_BYTES : Z := INDIRECT_SECTOR_CNT * TOTAL_SECTOR_CNT * BLOCK_SECTOR_SIZE.
Definition DOUBLY_BYTES : Z := TOTAL_SECTOR_CNT * TOTAL_SECTOR_CNT * BLOCK_SECTOR_SIZE.

(** What fits in the last, partly filled sector: the "aligning" steps. *)
Definition align_length (len length_left : Z) : Z :=
  Z.min length_left (BLOCK_SECTOR_SIZE - len mod BLOCK_SECTOR_SIZE).

(** The loop that adds data sectors to an index sector [di].  Every level
    above [di] grows by the bytes it consumes from [length_left]. *)
Fixpoint fill_loop (fuel : nat) F f (di : inode_disk) (length_left cur_sectors : Z)
    : outcome (bool * inode_disk * Z * Z * fs St) :=
  if (0 <? length_left) && (cur_sectors <? FILESYS_LIMIT_SECTORS) && (length di <? INDEX_BYTES) then
    match fuel with
    | O => Err NoFuel
    | S fuel =>
      let! (r, f) := fm_allocate F f 1 in
      match r with
      | None => Ok (false, di, length_left, cur_sectors, f)
      | Some new_sector =>
        let! di := set_sector di (length di / BLOCK_SECTOR_SIZE) new_sector in
        let! f := fs_write f new_sector zeros in
        let next_length := Z.min length_left BLOCK_SECTOR_SIZE in
        fill_loop fuel F f (set_length di (length di + next_length))
          (length_left - next_length) (cur_sectors + 1)
      end
    end
  else Ok (true, di, length_left, cur_sectors, f).

(** The aligning step and the loop on one index sector, then its write-back:
    (success, bytes consumed, cur_sectors). *)
Definition fill_index F f (di : inode_disk) (di_sector length_left cur_sectors : Z)
    : outcome (bool * Z * Z * fs St) :=
  let next_length := if length di mod BLOCK_SECTOR_SIZE =? 0 then 0 else align_length (length di) length_left in
  let di := set_length di (length di + next_length) in
  let! (success, di, rest, cur_sectors, f) :=
    fill_loop index_fuel F f di (length_left - next_length) cur_sectors in
  let! f := if success then write_disk f di_sector di else Ok f in
  Ok (success, length_left - rest, cur_sectors, f).

(** One pass of the outer loop of [inode_grow] in each section:
    (success, inode->data, length_left, cur_sectors).  [success = false] is
    the [break]. *)
Definition grow_direct F f (d : inode_disk) (length_left cur_sectors : Z)
    : outcome (bool * inode_disk * Z * Z * fs St) :=
  if negb (length d mod BLOCK_SECTOR_SIZE =? 0) then
    let next_length := align_length (length d) length_left in
    Ok (true, set_length d (length d + next_length), length_left - next_length, cur_sectors, f)
  else
    let! (r, f) := fm_allocate F f 1 in
    match r with
    | None => Ok (false, d, length_left, cur_sectors, f)
    | Some new_sector =>
      let! d := set_sector d (length d / BLOCK_SECTOR_SIZE) new_sector in
      let! f := fs_write f new_sector zeros in
      let next_length := Z.min length_left BLOCK_SECTOR_SIZE in
      Ok (true, set_length d (length d + next_length), length_left - next_length, cur_sectors + 1, f)
    end.

Definition grow_indirect F f (d : inode_disk) (length_left cur_sectors : Z)
    : outcome (bool * inode_disk * Z * Z * fs St) :=
  let sector_idx := (length d - DIRECT_BYTES) / INDEX_BYTES + DIRECT_SECTOR_CNT in
  if negb ((length d - DIRECT_BYTES) mod INDEX_BYTES =? 0) then
    let (ok, f) := calloc f in
    if negb ok then Ok (false, d, length_left, cur_sectors, f) else
    let! s := get_sector d sector_idx in
    let! (di, f) := read_disk f s in
    let! (success, consumed, cur_sectors, f) := fill_index F f di s length_left cur_sectors in
    Ok (success, set_length d (length d + consumed), length_left - consumed, cur_sectors, f)
  else
    let! (r, f) := fm_allocate F f 1 in
    match r with
    | None => Ok (false, d, length_left, cur_sectors, f)
    | Some new_sector =>
      let! d := set_sector d sector_idx new_sector in
      let next_length := Z.min length_left INDEX_BYTES in
      let! (ok, cur_sectors, f) := inode_create_direct F f new_sector next_length (cur_sectors + 1) in
      if negb ok then
        let! f := fm_release F f new_sector 1 in Ok (false, d, length_left, cur_sectors, f)
      else
        Ok (true, set_length d (length d + next_length), length_left - next_length, cur_sectors, f)
    end.

(** Section 3: the loop that adds index sectors to the doubly indirect one. *)
Fixpoint fill_doubly_loop (fuel : nat) F f (di : inode_disk) (length_left cur_sectors : Z)
    : outcome (bool * inode_disk * Z * Z * fs St) :=
  if (0 <? length_left) && (cur_sectors <? FILESYS_LIMIT_SECTORS) && (length di <? DOUBLY_BYTES) then
    match fuel with
    | O => Err NoFuel
    | S fuel =>
      let! (r, f) := fm_allocate F f 1 in
      match r with
      | None => Ok (false, di, length_left, cur_sectors, f)
      | Some new_sector =>
        let! di := set_sector di (length di / INDEX_BYTES) new_sector in
        let next_length := Z.min length_left INDEX_BYTES in
        let! (ok, cur_sectors, f) := inode_create_direct F f new_sector next_length (cur_sectors + 1) in
        if negb ok then
          let! f := fm_release F f new_sector 1 in Ok (false, di, length_left, cur_sectors, f)
        else
          fill_doubly_loop fuel F f (set_length di (length di + next_length))
            (length_left - next_length) cur_sectors
      end
    end
  else Ok (true, di, length_left, cur_sectors, f).

Definition grow_doubly F f (d : inode_disk) (length_left cur_sectors : Z)
    : outcome (bool * inode_disk * Z * Z * fs St) :=
  let rel := length d - DIRECT_BYTES - INDIRECT_BYTES in
  let sector_idx := rel / DOUBLY_BYTES + DIRECT_SECTOR_CNT + INDIRECT_SECTOR_CNT in
  if negb (rel mod DOUBLY_BYTES =? 0) then
    let (ok, f) := calloc f in
    if negb ok then Ok (false, d, length_left, cur_sectors, f) else
    let! s := get_sector d sector_idx in
    let! (di, f) := read_disk f s in
    if negb (length di mod INDEX_BYTES =? 0) then
      let sector_idx2 := length di / INDEX_BYTES in
      let (ok, f) := calloc f in
      if negb ok then Ok (false, d, length_left, cur_sectors, f) else
      let! s2 := get_sector di sector_idx2 in
      let! (di2, f) := read_disk f s2 in
      let! (success, consumed, cur_sectors, f) := fill_index F f di2 s2 length_left cur_sectors in
      (* [continue] before [disk_inode] is written back *)
      Ok (success, set_length d (length d + consumed), length_left - consumed, cur_sectors, f)
    else
      let! (success, di, rest, cur_sectors, f) := fill_doubly_loop index_fuel F f di length_left cur_sectors in
      let! f := if success then write_disk f s di else Ok f in
      Ok (success, set_length d (length d + (length_left - rest)), rest, cur_sectors, f)
  else
    let! (r, f) := fm_allocate F f 1 in
    match r with
    | None => Ok (false, d, length_left, cur_sectors, f)
    | Some new_sector =>
      let! d := set_sector d sector_idx new_sector in
      let next_length := Z.min length_left DOUBLY_BYTES in
      let! (ok, cur_sectors, f) := inode_create_indirect F f new_sector next_length (cur_sectors + 1) in
      if negb ok then
        let! f := fm_release F f new_sector 1 in Ok (false, d, length_left, cur_sectors, f)
      else
        Ok (true, set_length d (length d + next_length), length_left - next_length, cur_sectors, f)
    end.

Fixpoint grow_loop (fuel : nat) F f (d : inode_disk) (length_left cur_sectors : Z)
    : outcome (bool * inode_disk * fs St) :=
  if (0 <? length_left) && (cur_sectors <? FILESYS_LIMIT_SECTORS) then
    match fuel with
    | O => Err NoFuel
    | S fuel =>
      let! (success, d, length_left, cur_sectors, f) :=
        if length d <? DIRECT_BYTES then grow_direct F f d length_left cur_sectors
        else if length d <? DIRECT_BYTES + INDIRECT_BYTES then grow_indirect F f d length_left cur_sectors
        else grow_doubly F f d length_left cur_sectors in
      if success then grow_loop fuel F f d length_left cur_sectors else Ok (false, d, f)
    end
  else Ok (true, d, f).

(** A pass of the loop in sections 1 and 2 consumes at least one byte:
    [len] passes are enough there. *)
Definition inode_grow (fuel : nat) F f (a : Z) (len : Z) : outcome (bool * fs St) :=
  assert! 0 <=? len in
  let! i := get_inode f a in
  let cur_sectors := length_to_total_sectors (length (data i)) in
  let! (success, d, f) := grow_loop fuel F f (data i) len cur_sectors in
  let! i := get_inode f a in
  let f := put_inode f a (set_data i d) in
  let! f := if success then write_disk f (isector i) d else Ok f in
  Ok (success, f).

(** ** Deallocation *)
Fixpoint free_direct (n : nat) F f (d : inode_disk) (i len : Z) : outcome (Z * fs St) :=
  match n with
  | O => Ok (len, f)
  | S n =>
    if 0 <? len then
      let! s := get_sector d i in
      let! f := fm_release F f s 1 in
      free_direct n F f d (i + 1) (len - BLOCK_SECTOR_SIZE)
    else Ok (len, f)
  end.

(** [sector[DIRECT_SECTOR_CNT + i]] is read unchecked: past the end of the
    array it is the memory after it, here a [Fault]. *)
Fixpoint free_indirect (n : nat) F f (d : inode_disk) (i len : Z) : outcome (Z * fs St) :=
  match n with
  | O => Ok (len, f)
  | S n =>
    if 0 <? len then
      let! s := get_sector d (DIRECT_SECTOR_CNT + i) in
      let! (d2, f) := read_disk f s in
      let! (len, f) := free_direct (Z.to_nat TOTAL_SECTOR_CNT) F f d2 0 len in
      let! f := fm_release F f s 1 in
      free_indirect n F f d (i + 1) len
    else Ok (len, f)
  end.

(** [while (length > 0 && j < TOTAL_SECTOR_CNT)] of the third part, whose body
    leaves [j] at 0; a pass consumes at least one sector of [len]. *)
Fixpoint free_doubly_inner (fuel : nat) F f (d2 : inode_disk) (j len : Z) : outcome (Z * fs St) :=
  if (0 <? len) && (j <? TOTAL_SECTOR_CNT) then
    match fuel with
    | O => Err NoFuel
    | S fuel =>
      let! s := get_sector d2 j in
      let! (d3, f) := read_disk f s in
      let! (len, f) := free_direct (Z.to_nat TOTAL_SECTOR_CNT) F f d3 0 len in
      let! s := get_sector d2 j in
      let! f := fm_release F f s 1 in
      free_doubly_inner fuel F f d2 j len
    end
  else Ok (len, f).

Fixpoint free_doubly (n : nat) F f (d : inode_disk) (i len : Z) : outcome (Z * fs St) :=
  match n with
  | O => Ok (len, f)
  | S n =>
    if 0 <? len then
      let! s := get_sector d (DIRECT_SECTOR_CNT + INDIRECT_SECTOR_CNT + i) in
      let! (d2, f) := read_disk f s in
      let! (len, f) := free_doubly_inner (Z.to_nat len) F f d2 0 len in
      let! f := fm_release F f s 1 in
      free_doubly n F f d (i + 1) len
    else Ok (len, f)
  end.

Definition inode_free_all F f (sec : Z) : outcome (fs St) :=
  let (ok1, f) := calloc f in
  let (ok2, f) := calloc f in
  let (ok3, f) := calloc f in
  if negb (ok1 && ok2 && ok3) then Err Panic else
  let! (d, f) := read_disk f sec in
  let! (len, f) := free_direct (Z.to_nat DIRECT_SECTOR_CNT) F f d 0 (length d) in
  let! (len, f) := free_indirect (Z.to_nat (DIRECT_SECTOR_CNT + INDIRECT_SECTOR_CNT)) F f d 0 len in
  let! (len, f) := free_doubly (Z.to_nat TOTAL_SECTOR_CNT) F f d 0 len in
  fm_release F f sec 1.

(** ** Opening and closing *)
Definition inode_init f : fs St := set_open f [].

Definition inode_reopen f (a : option Z) : outcome (option Z * fs St) :=
  match a with
  | None => Ok (None, f)
  | Some a => let! i := get_inode f a in
              Ok (Some a, put_inode f a (set_open_cnt i (s32 (open_cnt i + 1))))
  end.

Fixpoint find_open f (l : list Z) (sec : Z) : outcome (option Z) :=
  match l with
  | [] => Ok None
  | a :: l => let! i := get_inode f a in
              if isector i =? sec then Ok (Some a) else find_open f l sec
  end.

Definition inode_open f (sec : Z) : outcome (option Z * fs St) :=
  let! r := find_open f (open_inodes f) sec in
  match r with
  | Some a => inode_reopen f (Some a)
  | None =>
    let (ok, f) := calloc f in
    if negb ok then Ok (None, f) else
    let a := next_addr f in
    let f := set_open f (a :: open_inodes f) in
    let (ok, f) := calloc f in
    assert! ok in        (* [lock_init (NULL)] *)
    let f := set_next (set_locks f (<[a + 1 := false]> (dir_locks f))) (a + 2) in
    let! (d, f) := read_disk f sec in
    Ok (Some a, put_inode f a (mk_inode sec 1 false 0 false (a + 1) d))
  end.

Definition inode_get_inumber f (a : Z) : outcome Z := let! i := get_inode f a in Ok (isector i).

Definition inode_close F f (a : option Z) : outcome (fs St) :=
  match a with
  | None => Ok f
  | Some a =>
    let! i := get_inode f a in
    let i := set_open_cnt i (s32 (open_cnt i - 1)) in
    let f := put_inode f a i in
    if open_cnt i =? 0 then
      let f := set_open f (filter (fun b => b <> a) (open_inodes f)) in
      let! f := if removed i then inode_free_all F (set_locks f (delete (dir_lockp i) (dir_locks f))) (isector i)
                else Ok f in
      Ok (set_inodes f (delete a (inodes f)))
    else Ok f
  end.

Definition inode_remove f (a : option Z) : outcome (fs St) :=
  match a with
  | None => Err Panic
  | Some a => let! i := get_inode f a in Ok (put_inode f a (set_removed i true))
  end.

(** ** Reading and writing *)
Definition acquire_grow f (a : Z) : outcome (fs St) :=
  let! i := get_inode f a in
  assert! negb (grow_lock i) in Ok (put_inode f a (set_grow_lock i true)).
Definition release_grow f (a : Z) : outcome (fs St) :=
  let! i := get_inode f a in
  assert! grow_lock i in Ok (put_inode f a (set_grow_lock i false)).

Definition inode_length f (a : Z) : outcome Z := let! i := get_inode f a in Ok (length (data i)).

(** Sector and byte offset of [offset], and the bytes left up to the end of
    the sector or of the inode. *)
Definition locate f (a offset : Z) : outcome (Z * Z * Z * fs St) :=
  let! i := get_inode f a in
  let! (sector_idx, f) := byte_to_sector f (data i) offset in
  let sector_ofs := Z.rem offset BLOCK_SECTOR_SIZE in
  let! len := inode_length f a in
  let inode_left := s32 (len - offset) in
  let sector_left := BLOCK_SECTOR_SIZE - sector_ofs in
  Ok (sector_idx, sector_ofs, (if inode_left <? sector_left then inode_left else sector_left), f).

(** A pass copies at least one byte: [size] passes are enough. *)
Fixpoint read_loop (fuel : nat) f (a size offset : Z) (buffer : list Z) : outcome (list Z * fs St) :=
  if 0 <? size then
    match fuel with
    | O => Err NoFuel
    | S fuel =>
      let! f := acquire_grow f a in
      let! (sector_idx, sector_ofs, min_left, f) := locate f a offset in
      let! f := release_grow f a in
      let chunk_size := if size <? min_left then size else min_left in
      if chunk_size <=? 0 then Ok (buffer, f) else
      let! (bs, f) :=
        if (sector_ofs =? 0) && (chunk_size =? BLOCK_SECTOR_SIZE) then fs_read f sector_idx
        else fs_read_at f sector_idx chunk_size sector_ofs in
      read_loop fuel f a (size - chunk_size) (s32 (offset + chunk_size)) (buffer ++ bs)
    end
  else Ok (buffer, f).

(** The bytes stored in [buffer_]; their number is the value returned. *)
Definition inode_read_at f (a size offset : Z) : outcome (list Z * fs St) :=
  read_loop (Z.to_nat size) f a size offset [].

(** [buffer] holds the bytes still to be written. *)
Fixpoint write_loop (fuel : nat) f (a : Z) (locked : bool) (buffer : list Z) (offset bytes_written : Z)
    : outcome (Z * fs St) :=
  let size := Z.of_nat (List.length buffer) in
  if 0 <? size then
    match fuel with
    | O => Err NoFuel
    | S fuel =>
      let! f := if locked then Ok f else acquire_grow f a in
      let! (sector_idx, sector_ofs, min_left, f) := locate f a offset in
      let! f := if locked then Ok f else release_grow f a in
      let chunk_size := if size <? min_left then size else min_left in
      if chunk_size <=? 0 then Ok (bytes_written, f) else
      let chunk := take (Z.to_nat chunk_size) buffer in
      let! f :=
        if (sector_ofs =? 0) && (chunk_size =? BLOCK_SECTOR_SIZE) then fs_write f sector_idx chunk
        else fs_write_at f sector_idx chunk sector_ofs in
      write_loop fuel f a locked (drop (Z.to_nat chunk_size) buffer) (s32 (offset + chunk_size))
        (bytes_written + chunk_size)
    end
  else Ok (bytes_written, f).

Definition grow_fuel (len : Z) : nat := Z.to_nat len.

Definition inode_write_at F f (a : Z) (buffer : list Z) (offset : Z) : outcome (Z * fs St) :=
  let size := Z.of_nat (List.length buffer) in
  let! i := get_inode f a in
  if negb (deny_write_cnt i =? 0) then Ok (0, f) else
  let! f := acquire_grow f a in
  let! (locked, f) :=
    if length (data i) <? s32 (offset + size) then
      let len := s32 (offset + size - length (data i)) in
      let! (ok, f) := inode_grow (grow_fuel len) F f a len in
      if ok then Ok (true, f) else Err Panic
    else let! f := release_grow f a in Ok (false, f) in
  let! (bytes_written, f) := write_loop (Z.to_nat size) f a locked buffer offset 0 in
  let! f := if locked then release_grow f a else Ok f in
  Ok (bytes_written, f).

(** ** Write denial, parent links and the rest *)
Definition inode_deny_write f (a : Z) : outcome (fs St) :=
  let! i := get_inode f a in
  let i := set_deny i (s32 (deny_write_cnt i + 1)) in
  assert! deny_write_cnt i <=? open_cnt i in
  Ok (put_inode f a i).

Definition inode_allow_write f (a : Z) : outcome (fs St) :=
  let! i := get_inode f a in
  assert! 0 <? deny_write_cnt i in
  assert! deny_write_cnt i <=? open_cnt i in
  Ok (put_inode f a (set_deny i (deny_write_cnt i - 1))).

Definition inode_get_parent f (child : Z) : outcome (Z * fs St) :=
  let (ok, f) := calloc f in
  if negb ok then Ok (NO_SECTOR, f) else
  let! (d, f) := read_disk f child in Ok (parent d, f).

Definition inode_set_parent f (child par : Z) : outcome (bool * fs St) :=
  let (ok, f) := calloc f in
  if negb ok then Ok (false, f) else
  let! (d, f) := read_disk f child in
  let! f := write_disk f child (set_parent d par) in
  Ok (true, f).

Definition inode_is_used f (a : Z) : outcome bool := let! i := get_inode f a in Ok (1 <? open_cnt i).
Definition inode_dir_lock f (a : Z) : outcome Z := let! i := get_inode f a in Ok (dir_lockp i).
End inode.
