(* ===== verification/File.v ===== *)
(** * filesys/file.c and filesys/free-map.c

    Open files, and the free map that the inode layer allocates from.  The
    two are mutually dependent with inode.c: [free_map_allocate] writes the
    bitmap to the free-map file with [inode_write_at], which may allocate.  The
    knot is tied by recursion depth ([fm]): the operations of depth 0 fail,
    those of depth [n + 1] write the free-map file with the operations of
    depth [n].  Depth 1 is enough, because the free-map file never grows. *)
From S2P Require Import Prelude Block Bitmap Store Inode.

Section file.
Context {St : Type} `{!SectorOps St}.
Implicit Types (f : fs St) (F : fm_ops St).

(** ** file.c: a [struct file] is passed and returned by value, its inode by address *)
Definition file_open F f (a : option Z) : outcome (option file * fs St) :=
  let (ok, f) := calloc f in
  match a, ok with
  | Some a, true => Ok (Some (mk_file a 0 false), f)
  | _, _ => let! f := inode_close F f a in Ok (None, f)
  end.

Definition file_reopen F f (fl : file) : outcome (option file * fs St) :=
  let! (a, f) := inode_reopen f (Some (finode fl)) in
  file_open F f a.

Definition file_allow_write f (fl : file) : outcome (file * fs St) :=
  if deny_write fl then
    let! f := inode_allow_write f (finode fl) in
    Ok (mk_file (finode fl) (pos fl) false, f)
  else Ok (fl, f).

Definition file_deny_write f (fl : file) : outcome (file * fs St) :=
  if negb (deny_write fl) then
    let! f := inode_deny_write f (finode fl) in
    Ok (mk_file (finode fl) (pos fl) true, f)
  else Ok (fl, f).

Definition file_close F f (fl : option file) : outcome (fs St) :=
  match fl with
  | None => Ok f
  | Some fl =>
    let! (fl, f) := file_allow_write f fl in
    inode_close F f (Some (finode fl))
  end.

Definition file_get_inode (fl : file) : Z := finode fl.

Definition file_read f (fl : file) (size : Z) : outcome (list Z * file * fs St) :=
  let! (bs, f) := inode_read_at f (finode fl) size (pos fl) in
  Ok (bs, mk_file (finode fl) (s32 (pos fl + Z.of_nat (List.length bs))) (deny_write fl), f).

Definition file_read_at f (fl : file) (size file_ofs : Z) : outcome (list Z * fs St) :=
  inode_read_at f (finode fl) size file_ofs.

Definition file_write F f (fl : file) (buffer : list Z) : outcome (Z * file * fs St) :=
  let! (n, f) := inode_write_at F f (finode fl) buffer (pos fl) in
  Ok (n, mk_file (finode fl) (s32 (pos fl + n)) (deny_write fl), f).

Definition file_write_at F f (fl : file) (buffer : list Z) (file_ofs : Z) : outcome (Z * fs St) :=
  inode_write_at F f (finode fl) buffer file_ofs.

Definition file_length f (fl : file) : outcome Z := inode_length f (finode fl).

Definition file_seek (fl : file) (new_pos : Z) : outcome file :=
  assert! 0 <=? new_pos in Ok (mk_file (finode fl) new_pos (deny_write fl)).

Definition file_tell (fl : file) : Z := pos fl.

(** ** free-map.c *)
Definition set_map f (b : bitmap) : fs St :=
  mk_fs (store f) (mem f) b (free_map_lock f) (free_map_file f) (open_inodes f) (inodes f)
    (dir_locks f) (next_addr f).
Definition set_map_lock f (l : bool) : fs St :=
  mk_fs (store f) (mem f) (free_map f) l (free_map_file f) (open_inodes f) (inodes f)
    (dir_locks f) (next_addr f).
Definition set_map_file f (fl : option file) : fs St :=
  mk_fs (store f) (mem f) (free_map f) (free_map_lock f) fl (open_inodes f) (inodes f)
    (dir_locks f) (next_addr f).

(** [bitmap_write (free_map, free_map_file)] *)
Definition write_map F f (b : bitmap) (fl : file) : outcome (bool * fs St) :=
  let bytes := take (Z.to_nat (bitmap_file_size b)) (words_bytes (bits b)) in
  let! (n, f) := file_write_at F f fl bytes 0 in
  Ok (bitmap_write b (fun _ => n), f).

(** [words] is the memory that [bitmap_create] gets for the array. *)
Definition free_map_init f (words : option (list Z)) (device_size : Z) : outcome (fs St) :=
  let (ok, f) := calloc f in
  let! r := bitmap_create ok words device_size in
  match r with
  | None => Err Panic
  | Some b =>
    let! b := bitmap_mark b FREE_MAP_SECTOR in
    let! b := bitmap_mark b ROOT_DIR_SECTOR in
    Ok (set_map_lock (set_map f b) false)
  end.

Definition free_map_allocate F f (cnt : Z) : outcome (option Z * fs St) :=
  assert! negb (free_map_lock f) in
  let f := set_map_lock f true in
  let! (sec, b) := bitmap_scan_and_flip (free_map f) 0 cnt false in
  let f := set_map f b in
  let! (sec, f) :=
    match free_map_file f with
    | Some fl =>
      if negb (sec =? BITMAP_ERROR) then
        let! (ok, f) := write_map F f b fl in
        if negb ok then
          let! b := bitmap_set_multiple b sec cnt false in
          Ok (BITMAP_ERROR, set_map f b)
        else Ok (sec, f)
      else Ok (sec, f)
    | None => Ok (sec, f)
    end in
  Ok (if sec =? BITMAP_ERROR then None else Some sec, set_map_lock f false).

Definition free_map_release F f (sec cnt : Z) : outcome (fs St) :=
  assert! negb (free_map_lock f) in
  let f := set_map_lock f true in
  let! all := bitmap_all (free_map f) sec cnt in
  assert! all in
  let! b := bitmap_set_multiple (free_map f) sec cnt false in
  let f := set_map f b in
  match free_map_file f with
  | None => Err Fault
  | Some fl => let! (_, f) := write_map F f b fl in Ok (set_map_lock f false)
  end.

(** The free map as the inode layer sees it, to recursion depth [n]. *)
Fixpoint fm (n : nat) : fm_ops St :=
  match n with
  | O => mk_fm (fun _ _ => Err NoFuel) (fun _ _ _ => Err NoFuel)
  | S n => mk_fm (free_map_allocate (fm n)) (free_map_release (fm n))
  end.

Definition free_map_open F f : outcome (fs St) :=
  let! (a, f) := inode_open f FREE_MAP_SECTOR in
  let! (fl, f) := file_open F f a in
  match fl with
  | None => Err Panic
  | Some fl =>
    let f := set_map_file f (Some fl) in
    let! (bs, f) := if 0 <? bit_cnt (free_map f)
                    then file_read_at f fl (bitmap_file_size (free_map f)) 0 else Ok ([], f) in
    let! (ok, b) := bitmap_read (free_map f) bs in
    if ok then Ok (set_map f b) else Err Panic
  end.

Definition free_map_close F f : outcome (fs St) := file_close F f (free_map_file f).

Definition free_map_create F f : outcome (fs St) :=
  let! (ok, f) := inode_create F f FREE_MAP_SECTOR (bitmap_file_size (free_map f)) in
  if negb ok then Err Panic else
  let! (a, f) := inode_open f FREE_MAP_SECTOR in
  let! (fl, f) := file_open F f a in
  match fl with
  | None => Err Panic
  | Some fl =>
    let f := set_map_file f (Some fl) in
    let! (ok, f) := write_map F f (free_map f) fl in
    if ok then Ok f else Err Panic
  end.
End file.
