(* ===== verification/InodeIO.v ===== *)
(** * inode.c: reading and writing the contents of an inode

    The index structure of an inode is described by [path], the sectors that
    [byte_to_sector] goes through; [rep] says that an inode represents the
    file whose data sectors are [ds].  The theorems: [byte_to_sector] finds the
    sector of a byte, [inode_read_at] returns a slice of the contents,
    [inode_write_at] inside the file replaces a slice and nothing else. *)
From S2P Require Import Prelude Block Bitmap Store Cache Inode.

(** ** The on-disk layout *)
Definition disk_wf (d : inode_disk) : Prop :=
  List.length (sector d) = Z.to_nat TOTAL_SECTOR_CNT /\
  Forall (fun s => 0 <= s < 2 ^ 32) (sector d) /\
  - 2 ^ 31 <= length d < 2 ^ 31 /\ 0 <= parent d < 2 ^ 32 /\ 0 <= magic d < 2 ^ 32.

Lemma s32_u32 z : - 2 ^ 31 <= z < 2 ^ 31 -> s32 (u32 z) = z.
Proof.
  intros H. rw /swrap /wrap. change (2 ^ (32 - 1)) with (2 ^ 31). change (2 ^ 32) with 4294967296.
  change (2 ^ 31) with 2147483648 in *. dlia.
Qed.

Lemma length_encode d : List.length (sector d) = Z.to_nat TOTAL_SECTOR_CNT -> List.length (encode d) = sector_len.
Proof. intros H. rw /encode length_words_bytes length_app H. reflexivity. Qed.

Lemma decode_encode d : disk_wf d -> decode (encode d) = d.
Proof.
  destruct d as [ss l p m]. intros (Hs & Hr & Hl & Hp & Hm). simpl in *.
  have Hw : bytes_words 128 (encode (mk_disk ss l p m)) = ss ++ [u32 l; p; m].
  { change (encode _) with (words_bytes (ss ++ [u32 l; p; m])).
    rw -(app_nil_r (words_bytes _)).
    replace 128%nat with (List.length (ss ++ [u32 l; p; m])) by by rw length_app Hs.
    apply bytes_words_bytes. apply Forall_app. split; [done|].
    repeat constructor; try done; try lia; apply wrap_range; lia. }
  rw /decode Hw. f_equal.
  - rw take_app_le; [by rw Hs|]. rw take_ge //. by rw Hs.
  - rw lookup_total_app_r Hs; [change (Z.to_nat TOTAL_SECTOR_CNT) with 125%nat; lia|]. by apply s32_u32.
  - rw lookup_total_app_r Hs; [change (Z.to_nat TOTAL_SECTOR_CNT) with 125%nat; lia|]. done.
  - rw lookup_total_app_r Hs; [change (Z.to_nat TOTAL_SECTOR_CNT) with 125%nat; lia|]. done.
Qed.

#[global] Opaque encode decode.

(** ** Paths and representation *)
Definition dsec (bs : list Z) (i : Z) : option Z := sector (decode bs) !! Z.to_nat i.

(** The index sectors on the way to data sector [k] of an inode, and that sector. *)
Definition path (v : Z -> list Z) (d : inode_disk) (k : Z) : option (list Z * Z) :=
  if k <? DIRECT_SECTOR_CNT then
    s ← sector d !! Z.to_nat k; Some ([], s)
  else
    let k1 := k - DIRECT_SECTOR_CNT in
    if k1 <? INDIRECT_SECTOR_CNT * TOTAL_SECTOR_CNT then
      t ← sector d !! Z.to_nat (DIRECT_SECTOR_CNT + k1 / TOTAL_SECTOR_CNT);
      s ← dsec (v t) (k1 mod TOTAL_SECTOR_CNT); Some ([t], s)
    else
      let k2 := k1 - INDIRECT_SECTOR_CNT * TOTAL_SECTOR_CNT in
      t ← sector d !! Z.to_nat (DIRECT_SECTOR_CNT + INDIRECT_SECTOR_CNT + k2 / (TOTAL_SECTOR_CNT * TOTAL_SECTOR_CNT));
      t2 ← dsec (v t) ((k2 / TOTAL_SECTOR_CNT) mod TOTAL_SECTOR_CNT);
      s ← dsec (v t2) (k2 mod TOTAL_SECTOR_CNT); Some ([t; t2], s).

(** [rep v cnt d ds]: on a store of [cnt] sectors with contents [v], inode [d]
    holds the file with data sectors [ds], no two of them the same and none of
    them an index sector. *)
Record rep (v : Z -> list Z) (cnt : Z) (d : inode_disk) (ds : list Z) : Prop := {
  rp_sector : List.length (sector d) = Z.to_nat TOTAL_SECTOR_CNT;
  rp_length : 0 <= length d <= INT_MAX;
  rp_count : DIV_ROUND_UP (length d) BLOCK_SECTOR_SIZE = Z.of_nat (List.length ds);
  rp_nodup : NoDup ds;
  rp_range : forall k s, ds !! k = Some s -> 0 <= s < cnt;
  rp_path : forall k s, ds !! k = Some s -> exists ix, path v d (Z.of_nat k) = Some (ix, s) /\
    forall t, t ∈ ix -> 0 <= t < cnt /\ t ∉ ds;
  rp_sectors : forall s, s ∈ ds -> List.length (v s) = sector_len }.

(** The bytes of the file. *)
Definition contents (v : Z -> list Z) (d : inode_disk) (ds : list Z) : list Z :=
  take (Z.to_nat (length d)) (mjoin (v <$> ds)).

Lemma path_ext v v' d k ix s :
  path v d k = Some (ix, s) -> (forall t, t ∈ ix -> v' t = v t) -> path v' d k = Some (ix, s).
Proof.
  rw /path. destruct (k <? _); [done|]. destruct (_ <? _).
  - destruct (sector d !! _) as [t|]; simpl; [|done]. destruct (dsec (v t) _) eqn:E; simpl; [|done].
    intros [= <- <-] Hv. rw Hv ?E //. by apply list_elem_of_here.
  - destruct (sector d !! _) as [t|]; simpl; [|done]. destruct (dsec (v t) _) as [t2|] eqn:E; simpl; [|done].
    destruct (dsec (v t2) _) eqn:E2; simpl; [|done].
    intros [= <- <-] Hv. rw (Hv t); [by apply list_elem_of_here|]. rw E /= (Hv t2) ?E2 //.
    by apply list_elem_of_further, list_elem_of_here.
Qed.

Lemma lookup_join (ls : list (list Z)) (n : nat) k :
  Forall (fun l => List.length l = n) ls -> (0 < n)%nat ->
  mjoin ls !! k = ls !! (k / n)%nat ≫= (fun l => l !! (k mod n)%nat).
Proof.
  intros H Hn. revert k. induction H as [|l ls Hl H IH]; intros k; [done|]. simpl.
  destruct (decide (k < n)%nat) as [Hk|Hk].
  - rw lookup_app_l ?Hl // Nat.div_small // Nat.mod_small //.
  - rw lookup_app_r ?Hl; [lia|]. rw IH.
    have [Hd Hm] : (k / n = S ((k - n) / n) /\ k mod n = (k - n) mod n)%nat; [|by rw Hd Hm].
    have Hkn : k = ((k - n) + 1 * n)%nat by lia. rw {1 3}Hkn Nat.div_add; [lia|].
    by rw Nat.Div0.mod_add Nat.add_1_r.
Qed.

Section io.
Context {St : Type} {ops : SectorOps St} {laws : SectorStore St}.
Implicit Types (f : fs St).

Abbreviation view f := (sec_view (store f)).
Abbreviation cnt f := (sec_count (store f)).

(** A state reached by reads only. *)
Definition reads (n : Z) f f' : Prop :=
  exists st, f' = set_store f st /\ sec_ok n st /\ sec_count st = cnt f /\ forall t, sec_view st t = view f t.

Lemma reads_refl n f : sec_ok n (store f) -> reads n f f.
Proof. intros H. exists (store f). split; [by destruct f|]. done. Qed.

Lemma reads_trans n f1 f2 f3 : reads n f1 f2 -> reads n f2 f3 -> reads n f1 f3.
Proof.
  intros (s1 & -> & H1 & C1 & V1) (s2 & -> & H2 & C2 & V2). exists s2. simpl in *.
  split_and!; try done; [congruence|]. intros t. by rw V2 V1.
Qed.

Lemma reads_ok n f f' : reads n f f' -> sec_ok n (store f').
Proof. by intros (s & -> & H & _). Qed.

Lemma fs_read_at_ok n f s size ofs :
  sec_ok n (store f) -> 0 <= s < cnt f -> 0 <= ofs -> 0 <= size -> ofs + size <= BLOCK_SECTOR_SIZE ->
  exists f', fs_read_at f s size ofs = Ok (slice (view f s) ofs size, f') /\ reads n f f'.
Proof.
  intros Hok Hs ???. destruct (sec_read_law n (store f) s size ofs) as (st & Hrd & ? & ? & ?); try done.
  exists (set_store f st). rw /fs_read_at Hrd /=. split; [done|]. by exists st.
Qed.

Lemma fs_read_ok n f s :
  sec_ok n (store f) -> 0 <= s < cnt f ->
  exists f', fs_read f s = Ok (view f s, f') /\ reads n f f'.
Proof.
  intros Hok Hs. destruct (fs_read_at_ok n f s BLOCK_SECTOR_SIZE 0) as (f' & H & Hr); try done.
  exists f'. split; [|done]. rw /fs_read H slice_full // (sec_view_len n) //.
Qed.

Lemma read_disk_ok n f s :
  sec_ok n (store f) -> 0 <= s < cnt f ->
  exists f', read_disk f s = Ok (decode (view f s), f') /\ reads n f f'.
Proof. intros Hok Hs. destruct (fs_read_ok n f s Hok Hs) as (f' & H & Hr). exists f'. by rw /read_disk H. Qed.

Lemma get_sector_ok d i s :
  0 <= i < TOTAL_SECTOR_CNT -> sector d !! Z.to_nat i = Some s -> get_sector d i = Ok s.
Proof. intros ? H. rw /get_sector (proj2 (Z.leb_le _ _)) ?(proj2 (Z.ltb_lt _ _)) /= ?H //; lia. Qed.

(** [byte_to_sector] finds the sector of byte [p]. *)
Lemma byte_to_sector_ok n f d ds p s :
  sec_ok n (store f) -> mem f = [] -> rep (view f) (cnt f) d ds ->
  0 <= p < length d -> ds !! Z.to_nat (p / BLOCK_SECTOR_SIZE) = Some s ->
  exists f', byte_to_sector f d p = Ok (s, f') /\ reads n f f'.
Proof.
  intros Hok Hm Hr Hp Hs. have Hl := rp_length _ _ _ _ Hr.
  have [ix [Hpath Hix]] := rp_path _ _ _ _ Hr _ _ Hs.
  have Hk : 0 <= p / BLOCK_SECTOR_SIZE < 2 ^ 32 by rw /BLOCK_SECTOR_SIZE; unfold INT_MAX in *; dlia.
  rw Z2Nat.id in Hpath; [lia|]. rw /byte_to_sector (proj2 (Z.leb_gt _ _)); [lia|].
  rw Z.quot_div_nonneg; [lia|done|]. rw (wrap_small 32) //. rw /path in Hpath.
  set k := p / BLOCK_SECTOR_SIZE in Hk Hpath *.
  destruct (Z.ltb_spec k DIRECT_SECTOR_CNT).
  { destruct (sector d !! Z.to_nat k) as [s'|] eqn:E; simpl in Hpath; [|done]. simplify_eq.
    rw (get_sector_ok d k s) //=; [change TOTAL_SECTOR_CNT with 125; unfold DIRECT_SECTOR_CNT in *; lia|].
    exists f. split; [done|by apply reads_refl]. }
  rw /calloc Hm /=. unfold DIRECT_SECTOR_CNT, INDIRECT_SECTOR_CNT in *.
  change TOTAL_SECTOR_CNT with 125 in *.
  have Htot : forall d' i s', sector d' !! Z.to_nat i = Some s' -> 0 <= i < 125 -> get_sector d' i = Ok s'
    by intros; apply get_sector_ok.
  destruct (Z.ltb_spec (k - 119) (5 * 125)).
  - destruct (sector d !! _) as [t|] eqn:E; simpl in Hpath; [|done]. rw /dsec in Hpath.
    destruct (sector (decode (view f t)) !! _) as [s'|] eqn:E2; simpl in Hpath; [|done]. simplify_eq.
    destruct (Hix t) as [Ht _]; [by apply list_elem_of_here|].
    rw (Htot _ _ _ E) /=; [dlia|]. destruct (read_disk_ok n f t Hok Ht) as (f' & -> & Hf). simpl.
    rw (Htot _ _ _ E2) /=; [dlia|]. by exists f'.
  - destruct (sector d !! _) as [t|] eqn:E; simpl in Hpath; [|done]. rw /dsec in Hpath.
    destruct (sector (decode (view f t)) !! _) as [t2|] eqn:E2; simpl in Hpath; [|done].
    destruct (sector (decode (view f t2)) !! _) as [s'|] eqn:E3; simpl in Hpath; [|done]. simplify_eq.
    destruct (Hix t) as [Ht _]; [by apply list_elem_of_here|].
    destruct (Hix t2) as [Ht2 _]; [by apply list_elem_of_further, list_elem_of_here|].
    have Hlt := lookup_lt_Some _ _ _ E. rw (rp_sector _ _ _ _ Hr) in Hlt.
    change (Z.to_nat TOTAL_SECTOR_CNT) with 125%nat in Hlt.
    rw (Htot _ _ _ E) /=; [dlia|]. destruct (read_disk_ok n f t Hok Ht) as (f1 & -> & Hf1). simpl.
    rw (Htot _ _ _ E2) /=; [dlia|]. destruct Hf1 as (st1 & -> & Hok1 & C1 & V1).
    destruct (read_disk_ok n (set_store f st1) t2 Hok1) as (f2 & -> & Hf2); [by rw /= C1|]. simpl.
    rw V1 (Htot _ _ _ E3) /=; [dlia|]. exists f2. split; [done|].
    eapply reads_trans; [|done]. by exists st1.
Qed.
Lemma rep_ext v v' c d ds :
  rep v c d ds -> (forall t, v' t = v t) -> rep v' c d ds.
Proof.
  intros [H1 H2 H3 H4 H5 H6 H7] Hv. split; auto.
  - intros k s Hk. have [ix [Hp Hix]] := H6 k s Hk. exists ix. split; [|done].
    eapply path_ext; [done|]. intros; apply Hv.
  - intros s Hs. rw Hv. by apply H7.
Qed.

Lemma rep_frame v v' c d ds :
  rep v c d ds -> (forall s, s ∈ ds -> v' s = v s) ->
  (forall k ix s, (k < List.length ds)%nat -> path v d (Z.of_nat k) = Some (ix, s) -> forall t, t ∈ ix -> v' t = v t) ->
  rep v' c d ds /\ contents v' d ds = contents v d ds.
Proof.
  intros [H1 H2 H3 H4 H5 H6 H7] Hds Hix. split; [split; auto|].
  - intros k s Hk. have [ix [Hp Hi]] := H6 k s Hk. exists ix. split; [|done].
    eapply path_ext; [done|]. apply (Hix k ix s); [by eapply lookup_lt_Some|done].
  - intros s Hs. rw Hds //. by apply H7.
  - rw /contents. do 2 f_equal. apply list_fmap_ext. intros k s Hk. apply Hds. by eapply list_elem_of_lookup_2.
Qed.

Lemma contents_ext v v' d ds : (forall t, v' t = v t) -> contents v' d ds = contents v d ds.
Proof. intros H. rw /contents. do 2 f_equal. apply list_fmap_ext. intros _ t _. apply H. Qed.

Lemma length_join (v : Z -> list Z) (ds : list Z) :
  (forall s, s ∈ ds -> List.length (v s) = sector_len) ->
  List.length (mjoin (v <$> ds)) = (List.length ds * sector_len)%nat.
Proof.
  induction ds as [|s ds IH]; intros H; [done|]. rw fmap_cons /= length_app IH.
  - intros; apply H. by apply list_elem_of_further.
  - rw H //. apply list_elem_of_here.
Qed.

Lemma lookup_contents v c d ds k :
  rep v c d ds ->
  contents v d ds !! k =
    if decide (k < Z.to_nat (length d))%nat
    then ds !! (k / sector_len)%nat ≫= (fun s => v s !! (k mod sector_len)%nat) else None.
Proof.
  intros Hr. rw /contents. case_decide.
  - rw lookup_take_lt // (lookup_join _ sector_len); [|rw /sector_len; lia|].
    + apply Forall_fmap, Forall_forall. apply (rp_sectors _ _ _ _ Hr).
    + rw list_lookup_fmap. by destruct (ds !! _).
  - rw lookup_take_ge //. lia.
Qed.

Lemma length_contents v c d ds :
  rep v c d ds -> Z.of_nat (List.length (contents v d ds)) = length d.
Proof.
  intros Hr. have Hl := rp_length _ _ _ _ Hr. have Hc := rp_count _ _ _ _ Hr.
  rw /contents length_take (length_join _ _ (rp_sectors _ _ _ _ Hr)).
  apply DIV_ROUND_UP_spec in Hc; [|done]. rw /sector_len. unfold BLOCK_SECTOR_SIZE in *. lia.
Qed.

(** The data sector of byte [p], and the slice of it that a chunk covers. *)
Lemma rep_sector v c d ds p :
  rep v c d ds -> 0 <= p < length d -> exists s, ds !! Z.to_nat (p / BLOCK_SECTOR_SIZE) = Some s.
Proof.
  intros Hr Hp. have Hc := rp_count _ _ _ _ Hr. apply DIV_ROUND_UP_spec in Hc; [|done].
  apply lookup_lt_is_Some. unfold BLOCK_SECTOR_SIZE in *. dlia.
Qed.

Lemma sector_ofs p (k : nat) :
  0 <= p -> p mod 512 + Z.of_nat k < 512 ->
  ((Z.to_nat p + k) / sector_len)%nat = Z.to_nat (p / 512) /\
  ((Z.to_nat p + k) mod sector_len)%nat = (Z.to_nat (p mod 512) + k)%nat.
Proof.
  intros ??. split; apply Nat2Z.inj; rw ?Nat2Z.inj_div ?Nat2Z.inj_mod ?Nat2Z.inj_add !Z2Nat.id;
    change (Z.of_nat sector_len) with 512; dlia.
Qed.

Lemma chunk_contents v c d ds p n s :
  rep v c d ds -> 0 <= p -> 0 <= n -> p + n <= length d ->
  p mod BLOCK_SECTOR_SIZE + n <= BLOCK_SECTOR_SIZE ->
  ds !! Z.to_nat (p / BLOCK_SECTOR_SIZE) = Some s ->
  slice (v s) (p mod BLOCK_SECTOR_SIZE) n = slice (contents v d ds) p n.
Proof.
  intros Hr ???? Hs. apply list_eq => k. rw !lookup_slice (lookup_contents v c) //.
  case_decide; [|done]. rw decide_True; [lia|]. unfold BLOCK_SECTOR_SIZE in *.
  have [-> ->] := sector_ofs p k ltac:(lia) ltac:(lia). by rw Hs.
Qed.

Lemma acquire_grow_ok f a i :
  inodes f !! a = Some i -> grow_lock i = false ->
  acquire_grow f a = Ok (put_inode f a (set_grow_lock i true)).
Proof. intros H Hl. by rw /acquire_grow /get_inode H /= Hl. Qed.

Lemma release_grow_ok f a i st :
  inodes f !! a = Some i -> grow_lock i = false ->
  release_grow (set_store (put_inode f a (set_grow_lock i true)) st) a = Ok (set_store f st).
Proof.
  intros H Hl. rw /release_grow /get_inode /= lookup_insert_eq /=. f_equal.
  rw /put_inode /set_store /set_inodes /= insert_insert_eq. f_equal. apply insert_id.
  rw H. destruct i; simpl in *. by subst.
Qed.

(** [locate] inside the file. *)
Lemma locate_ok n f a i ds p s :
  sec_ok n (store f) -> mem f = [] -> inodes f !! a = Some i ->
  rep (view f) (cnt f) (data i) ds -> 0 <= p < length (data i) ->
  ds !! Z.to_nat (p / BLOCK_SECTOR_SIZE) = Some s ->
  exists f', locate f a p = Ok (s, p mod BLOCK_SECTOR_SIZE,
      Z.min (length (data i) - p) (BLOCK_SECTOR_SIZE - p mod BLOCK_SECTOR_SIZE), f') /\ reads n f f'.
Proof.
  intros Hok Hm Hi Hr Hp Hs. have Hl := rp_length _ _ _ _ Hr.
  destruct (byte_to_sector_ok n f (data i) ds p s) as (f' & Hb & Hf); try done.
  exists f'. split; [|done]. rw /locate /get_inode Hi /= Hb /=.
  destruct Hf as (st & -> & _). rw /inode_length /get_inode /= Hi /=.
  rw Z.rem_mod_nonneg; [lia|done|]. rw swrap_small; [lia|unfold INT_MAX in *; lia|].
  repeat f_equal. rw Z.min_comm. destruct (Z.ltb_spec (length (data i) - p) (BLOCK_SECTOR_SIZE - p mod BLOCK_SECTOR_SIZE)); lia.
Qed.

(** Past the end of the file nothing is located. *)
Lemma locate_past n f a i ds p :
  sec_ok n (store f) -> inodes f !! a = Some i -> rep (view f) (cnt f) (data i) ds ->
  length (data i) <= p <= INT_MAX ->
  exists m, locate f a p = Ok (NO_SECTOR, Z.rem p BLOCK_SECTOR_SIZE, m, f) /\ m <= 0.
Proof.
  intros Hok Hi Hr Hp. have Hl := rp_length _ _ _ _ Hr.
  rw /locate /get_inode Hi /= /byte_to_sector (proj2 (Z.leb_le _ _)) /=; [lia|].
  rw /inode_length /get_inode /= Hi /=. rw swrap_small; [lia|unfold INT_MAX in *; lia|].
  eexists. split; [done|]. rw Z.rem_mod_nonneg; [lia|done|].
  destruct (Z.ltb_spec (length (data i) - p) (BLOCK_SECTOR_SIZE - p mod BLOCK_SECTOR_SIZE)); [lia|].
  have := Z.mod_pos_bound p BLOCK_SECTOR_SIZE eq_refl. lia.
Qed.

Lemma read_loop_ok n f0 a i ds (fuel : nat) size p buf st :
  mem f0 = [] -> inodes f0 !! a = Some i -> grow_lock i = false ->
  rep (view f0) (cnt f0) (data i) ds ->
  sec_ok n st -> sec_count st = cnt f0 -> (forall t, sec_view st t = view f0 t) ->
  0 <= p <= INT_MAX -> size <= Z.of_nat fuel ->
  exists f', read_loop fuel (set_store f0 st) a size p buf =
      Ok (buf ++ slice (contents (view f0) (data i) ds) p (Z.min size (length (data i) - p)), f') /\
    reads n f0 f'.
Proof.
  intros Hm Hi Hg Hr. revert size p buf st. induction fuel as [|fuel IH]; intros size p buf st Hok Hc Hv Hp Hf.
  all: have Hl := rp_length _ _ _ _ Hr.
  all: simpl; destruct (Z.ltb_spec 0 size) as [Hs|Hs].
  1: lia.
  1, 3: eexists; split; [|by exists st];
    rw /slice (_ : Z.to_nat _ = 0%nat) ?take_0 ?app_nil_r //; lia.
  have Hi' : inodes (set_store f0 st) !! a = Some i by done.
  rw (acquire_grow_ok _ _ i) //. cbn [obind].
  set f1 := put_inode (set_store f0 st) a (set_grow_lock i true).
  have Hi1 : inodes f1 !! a = Some (set_grow_lock i true) by rw /f1 /= lookup_insert_eq.
  have Hr1 : rep (view f1) (cnt f1) (data (set_grow_lock i true)) ds.
  { simpl. rw Hc. by apply (rep_ext (view f0)). }
  destruct (Z.le_gt_cases (length (data i)) p) as [Hpl|Hpl].
  - destruct (locate_past n f1 a _ ds p Hok Hi1 Hr1) as (m & -> & Hm0); [simpl; lia|]. cbn [obind].
    have Hrel := release_grow_ok (set_store f0 st) a i st Hi' Hg.
    rw -/f1 in Hrel. have -> : release_grow f1 a = Ok (set_store f0 st) by exact Hrel. cbn [obind].
    rw (proj2 (Z.leb_le (if size <? m then size else m) 0)); [destruct (Z.ltb_spec size m); lia|].
    eexists. split; [|by exists st]. rw /slice (_ : Z.to_nat _ = 0%nat) ?take_0 ?app_nil_r //. lia.
  - destruct (rep_sector _ _ _ _ p Hr) as (s & Hs'); [lia|].
    destruct (locate_ok n f1 a (set_grow_lock i true) ds p s Hok) as (f2 & -> & (st2 & -> & Hok2 & Hc2 & Hv2)); try done; [simpl; lia|]. cbn [obind].
    have Hc2' : sec_count st2 = cnt f0 := eq_trans Hc2 Hc.
    have Hv2' : forall t, sec_view st2 t = view f0 t := fun t => eq_trans (Hv2 t) (Hv t).
    have Hrel := release_grow_ok (set_store f0 st) a i st2 Hi' Hg.
    have -> : release_grow (set_store f1 st2) a = Ok (set_store f0 st2) by exact Hrel. cbn [obind data].
    have Hmod := Z.mod_pos_bound p BLOCK_SECTOR_SIZE eq_refl.
    set chunk := (if size <? _ then _ else _).
    have Hch : chunk = Z.min size (Z.min (length (data i) - p) (BLOCK_SECTOR_SIZE - p mod BLOCK_SECTOR_SIZE)).
    { subst chunk. simpl. destruct (Z.ltb_spec size (Z.min (length (data i) - p) (BLOCK_SECTOR_SIZE - p mod BLOCK_SECTOR_SIZE))); lia. }
    have Hsz : 0 < chunk by (rw Hch; unfold BLOCK_SECTOR_SIZE in *; lia).
    rw (proj2 (Z.leb_gt chunk 0)) //.
    have Hrd : exists st3, (if (p mod BLOCK_SECTOR_SIZE =? 0) && (chunk =? BLOCK_SECTOR_SIZE)
        then fs_read (set_store f0 st2) s else fs_read_at (set_store f0 st2) s chunk (p mod BLOCK_SECTOR_SIZE)) =
        Ok (slice (contents (view f0) (data i) ds) p chunk, set_store f0 st3) /\
        sec_ok n st3 /\ sec_count st3 = cnt f0 /\ forall t, sec_view st3 t = view f0 t.
    { have Hsr := rp_range _ _ _ _ Hr _ _ Hs'.
      rw -(chunk_contents _ _ _ _ p chunk s Hr); [lia..|done|].
      destruct (fs_read_at_ok n (set_store f0 st2) s chunk (p mod BLOCK_SECTOR_SIZE))
        as (f3 & E3 & (st3 & -> & Hok3 & Hc3 & Hv3)); [done|by rw /= Hc2'|lia|lia|lia|].
      exists st3. split_and!; [|done|by rw Hc3 /= Hc2'|intros t; by rw Hv3 /= Hv2'].
      destruct (_ && _) eqn:Eb.
      - apply andb_true_iff in Eb as [E0%Z.eqb_eq E5%Z.eqb_eq]. rw /fs_read.
        rw E0 E5 in E3. rw E3 E0 E5. by rw /= Hv2'.
      - by rw E3 /= Hv2'. }
    destruct Hrd as (st3 & -> & Hok3 & Hc3 & Hv3). cbn [obind].
    rw swrap_small; [lia|unfold INT_MAX in *; lia|].
    destruct (IH (size - chunk) (p + chunk) (buf ++ slice (contents (view f0) (data i) ds) p chunk) st3)
      as (f' & -> & Hf'); [done|done|done|lia|lia|].
    exists f'. split; [|done]. f_equal. f_equal. rw -app_assoc. f_equal.
    have Hlc := length_contents _ _ _ _ Hr.
    apply list_eq => k. rw lookup_app lookup_slice. case_decide as Hk.
    + destruct (contents _ _ _ !! (Z.to_nat p + k)%nat) eqn:E; [|apply lookup_ge_None in E; lia].
      rw lookup_slice decide_True; [lia|]. done.
    + rw length_slice; [lia..|]. rw !lookup_slice. repeat case_decide; try done; try lia. f_equal. lia.
Qed.

(** [inode_read_at] returns the bytes of the file from [p] on, at most [size] of them. *)
Lemma inode_read_at_ok n f a i ds size p :
  sec_ok n (store f) -> mem f = [] -> inodes f !! a = Some i -> grow_lock i = false ->
  rep (view f) (cnt f) (data i) ds -> 0 <= p <= INT_MAX ->
  exists f', inode_read_at f a size p =
      Ok (slice (contents (view f) (data i) ds) p (Z.min size (length (data i) - p)), f') /\ reads n f f'.
Proof.
  intros Hok Hm Hi Hg Hr Hp. rw /inode_read_at.
  destruct (read_loop_ok n f a i ds (Z.to_nat size) size p [] (store f)) as (f' & H & Hf); try done; [lia|].
  exists f'. split; [|done]. rw -H. by destruct f.
Qed.

(** ** Writing *)
Lemma splice_splice (l : list Z) p (b1 b2 : list Z) :
  0 <= p -> p + Z.of_nat (List.length (b1 ++ b2)) <= Z.of_nat (List.length l) ->
  splice (splice l p b1) (p + Z.of_nat (List.length b1)) b2 = splice l p (b1 ++ b2).
Proof.
  rw length_app. intros ??. apply list_eq => k.
  rw !lookup_splice ?length_splice ?length_app; try lia.
  repeat case_decide; try lia; try done.
  - rw lookup_app_r; [lia|]. f_equal. lia.
  - rw lookup_app_l //. lia.
Qed.

(** Replacing a chunk of one data sector replaces that chunk of the contents. *)
Lemma write_chunk v v' c d ds p s (bs : list Z) :
  rep v c d ds -> 0 <= p -> p + Z.of_nat (List.length bs) <= length d ->
  p mod BLOCK_SECTOR_SIZE + Z.of_nat (List.length bs) <= BLOCK_SECTOR_SIZE ->
  ds !! Z.to_nat (p / BLOCK_SECTOR_SIZE) = Some s ->
  (forall t, v' t = if decide (t = s) then splice (v s) (p mod BLOCK_SECTOR_SIZE) bs else v t) ->
  rep v' c d ds /\ contents v' d ds = splice (contents v d ds) p bs.
Proof.
  intros Hr Hp Hpl Hm Hs Hv.
  have Hsd : s ∈ ds by eapply list_elem_of_lookup_2.
  have Hlen := rp_sectors _ _ _ _ Hr s Hsd.
  have Hm0 := Z.mod_pos_bound p BLOCK_SECTOR_SIZE eq_refl.
  have Hspl : List.length (splice (v s) (p mod BLOCK_SECTOR_SIZE) bs) = sector_len.
  { rw length_splice //; [lia|]. rw Hlen. exact Hm. }
  have Hr' : rep v' c d ds.
  { destruct Hr as [H1 H2 H3 H4 H5 H6 H7]. split; auto.
    - intros k t Hk. have [ix [Hpa Hix]] := H6 k t Hk. exists ix. split; [|done].
      eapply path_ext; [done|]. intros u Hu. rw Hv decide_False //. intros ->.
      by apply (Hix s Hu).
    - intros t Ht. rw Hv. case_decide; [done|by apply H7]. }
  split; [done|]. have Hlc := length_contents _ _ _ _ Hr.
  apply list_eq => k. rw (lookup_contents v' c) //. rw lookup_splice; [lia..|].
  rw (lookup_contents v c) //.
  destruct (decide (Z.to_nat p <= k < Z.to_nat p + List.length bs)%nat) as [Hk|Hk].
  - rw decide_True; [lia|]. unfold BLOCK_SECTOR_SIZE in *.
    have Hkk : k = (Z.to_nat p + (k - Z.to_nat p))%nat by lia. rw {1 2}Hkk.
    have [-> ->] := sector_ofs p (k - Z.to_nat p) ltac:(lia) ltac:(lia).
    rw Hs /= Hv decide_True // lookup_splice; [lia|rw Hlen /sector_len; lia|].
    rw decide_True; [lia|]. f_equal. lia.
  - case_decide as Hkd; [|done]. destruct (ds !! (k / sector_len)%nat) as [t|] eqn:Et; [|done].
    cbn [mbind option_bind]. rw Hv. case_decide as Hts; [|done]. subst t.
    have Hkp : (k / sector_len)%nat = Z.to_nat (p / BLOCK_SECTOR_SIZE).
    { eapply NoDup_lookup; [apply (rp_nodup _ _ _ _ Hr)|done|done]. }
    unfold BLOCK_SECTOR_SIZE in *. rw lookup_splice; [lia|rw Hlen /sector_len; lia|].
    rw decide_False //.
    have Hz : Z.of_nat k / 512 = p / 512 /\ Z.of_nat (k mod sector_len) = Z.of_nat k mod 512.
    { split; [|by rw Nat2Z.inj_mod]. apply (f_equal Z.of_nat) in Hkp.
      rw Nat2Z.inj_div Z2Nat.id in Hkp; [dlia|exact Hkp]. }
    destruct Hz as [Hz1 Hz2]. intros Hb. apply Hk. revert Hb Hz2.
    generalize (k mod sector_len)%nat as r. intros r [Hb1 Hb2] Hz2.
    have := Z.div_mod p 512 ltac:(done). have := Z.div_mod (Z.of_nat k) 512 ltac:(done). lia.
Qed.

Lemma fs_write_at_ok n f s bs ofs :
  sec_ok n (store f) -> 1 <= n -> 0 <= s < cnt f -> 0 <= ofs ->
  ofs + Z.of_nat (List.length bs) <= BLOCK_SECTOR_SIZE ->
  exists st, fs_write_at f s bs ofs = Ok (set_store f st) /\ sec_ok (n - 1) st /\ sec_count st = cnt f /\
    forall t, sec_view st t = if decide (t = s) then splice (view f s) ofs bs else view f t.
Proof.
  intros Hok Hn Hs Ho Hb. destruct (sec_write_law n (store f) s bs ofs) as (st & Hw & ? & ? & ?); try done.
  exists st. by rw /fs_write_at Hw.
Qed.

(** What a run of the loop leaves: the contents changed as specified, the rest as it was. *)
Record wrote (n c : Z) (st st' : St) (d : inode_disk) (ds : list Z) (p : Z) (bs : list Z) : Prop := {
  wr_ok : sec_ok n st';
  wr_count : sec_count st' = c;
  wr_rep : rep (sec_view st') c d ds;
  wr_contents : contents (sec_view st') d ds = splice (contents (sec_view st) d ds) p bs;
  wr_frame : forall t, t ∉ ds -> sec_view st' t = sec_view st t }.

Lemma write_loop_ok n f0 a i ds (locked : bool) (fuel : nat) bs p bw st :
  mem f0 = [] -> inodes f0 !! a = Some i -> (locked = false -> grow_lock i = false) ->
  rep (sec_view st) (sec_count st) (data i) ds ->
  sec_ok (n + Z.of_nat (List.length bs)) st -> 0 <= n ->
  0 <= p -> p + Z.of_nat (List.length bs) <= length (data i) -> (List.length bs <= fuel)%nat ->
  exists st', write_loop fuel (set_store f0 st) a locked bs p bw =
      Ok (bw + Z.of_nat (List.length bs), set_store f0 st') /\
    wrote n (sec_count st) st st' (data i) ds p bs.
Proof.
  intros Hm Hi Hg. revert bs p bw st. induction fuel as [|fuel IH]; intros bs p bw st Hr Hok Hn Hp Hpl Hf.
  all: have Hl := rp_length _ _ _ _ Hr.
  all: destruct bs as [|b0 bs0]; [exists st; simpl; rw Z.add_0_r; split; [done|];
    split; [by rw Z.add_0_r in Hok|done|done|symmetry; by apply splice_nil|done]|simpl in Hf; try lia].
  set bs := b0 :: bs0 in Hok Hpl *.
  have Hbs : 1 <= Z.of_nat (List.length bs) by simpl; lia.
  rw /write_loop -/write_loop. rw (proj2 (Z.ltb_lt 0 (Z.of_nat (List.length bs)))); [lia|].
  destruct (rep_sector _ _ _ _ p Hr) as (s & Hs); [lia|].
  have Hsr := rp_range _ _ _ _ Hr _ _ Hs.
  (* acquire, locate, release *)
  set body := (X in obind X).
  have [st2 [Hloc [Hok2 [Hc2 Hv2]]]] : exists st2,
    (let! f := body in
     let! (sector_idx, sector_ofs, min_left, f) := locate f a p in
     let! f := if locked then Ok f else release_grow f a in Ok (sector_idx, sector_ofs, min_left, f)) =
     Ok (s, p mod BLOCK_SECTOR_SIZE, Z.min (length (data i) - p) (BLOCK_SECTOR_SIZE - p mod BLOCK_SECTOR_SIZE), set_store f0 st2) /\
     sec_ok (n + Z.of_nat (List.length bs)) st2 /\ sec_count st2 = sec_count st /\
     forall t, sec_view st2 t = sec_view st t.
  { subst body. destruct locked; cbn [obind].
    - destruct (locate_ok _ (set_store f0 st) a i ds p s Hok) as (f2 & -> & (st2 & -> & H2)); try done; [lia|].
      by exists st2.
    - rw (acquire_grow_ok (set_store f0 st) a i) //; [by apply Hg|]. cbn [obind].
      set f1 := put_inode _ _ _.
      have Hi1 : inodes f1 !! a = Some (set_grow_lock i true) by rw /f1 /= lookup_insert_eq.
      destruct (locate_ok _ f1 a (set_grow_lock i true) ds p s Hok) as (f2 & -> & (st2 & -> & H2)); try done; [simpl; lia|].
      have Hrel := release_grow_ok (set_store f0 st) a i st2 Hi (Hg eq_refl).
      cbn [obind]. have -> : release_grow (set_store f1 st2) a = Ok (set_store f0 st2) by exact Hrel.
      by exists st2. }
  destruct body as [fb|]; [|done]. cbn [obind] in Hloc |- *.
  destruct (locate fb a p) as [[[[s' o'] m'] f2]|]; [|done]. cbn [obind] in Hloc |- *.
  destruct (if locked then Ok f2 else release_grow f2 a) as [f3|]; [|done]. cbn [obind] in Hloc |- *.
  injection Hloc as -> -> -> ->.
  have Hmod := Z.mod_pos_bound p BLOCK_SECTOR_SIZE eq_refl.
  set chunk := (if _ <? _ then _ else _).
  have Hch : chunk = Z.min (Z.of_nat (List.length bs)) (BLOCK_SECTOR_SIZE - p mod BLOCK_SECTOR_SIZE).
  { subst chunk. destruct (Z.ltb_spec (Z.of_nat (List.length bs))
      (Z.min (length (data i) - p) (BLOCK_SECTOR_SIZE - p mod BLOCK_SECTOR_SIZE))); lia. }
  rw (proj2 (Z.leb_gt chunk 0)); [lia|].
  set cb := take (Z.to_nat chunk) bs.
  have Hcb : Z.of_nat (List.length cb) = chunk by rw /cb length_take; lia.
  have Hwr : exists st3, (if (p mod BLOCK_SECTOR_SIZE =? 0) && (chunk =? BLOCK_SECTOR_SIZE)
      then fs_write (set_store f0 st2) s cb else fs_write_at (set_store f0 st2) s cb (p mod BLOCK_SECTOR_SIZE)) =
      Ok (set_store f0 st3) /\ sec_ok (n + Z.of_nat (List.length bs) - 1) st3 /\ sec_count st3 = sec_count st /\
      forall t, sec_view st3 t = if decide (t = s) then splice (sec_view st s) (p mod BLOCK_SECTOR_SIZE) cb else sec_view st t.
  { destruct (fs_write_at_ok (n + Z.of_nat (List.length bs)) (set_store f0 st2) s cb (p mod BLOCK_SECTOR_SIZE))
      as (st3 & E3 & Hok3 & Hc3 & Hv3); [done|lia|by rw /= Hc2|lia|lia|].
    exists st3. split_and!; [|done|by rw Hc3 /= Hc2|intros t; by rw Hv3 /= !Hv2].
    destruct (_ && _) eqn:Eb; [|done].
    apply andb_true_iff in Eb as [E0%Z.eqb_eq _]. rw /fs_write. by rw E0 in E3. }
  destruct Hwr as (st3 & -> & Hok3 & Hc3 & Hv3). cbn [obind].
  destruct (write_chunk _ _ _ _ _ p s cb Hr Hp ltac:(lia) ltac:(lia) Hs Hv3) as [Hr3 Hcon3].
  rw swrap_small; [lia|unfold INT_MAX in *; lia|].
  have Hdl : List.length (drop (Z.to_nat chunk) bs) = (List.length bs - Z.to_nat chunk)%nat by rw length_drop.
  have Hbsl : List.length bs = S (List.length bs0) by done.
  destruct (IH (drop (Z.to_nat chunk) bs) (p + chunk) (bw + chunk) st3) as (st' & -> & [W1 W2 W3 W4 W5]).
  - by rw Hc3.
  - eapply sec_ok_mono; [done|]. rw Hdl. lia.
  - done.
  - lia.
  - rw Hdl. lia.
  - rw Hdl. lia.
  - exists st'. split; [f_equal; f_equal; rw Hdl; lia|]. rw -Hc3. split; try done.
    + rw W4 Hcon3. have Hlc := length_contents _ _ _ _ Hr.
      have Hss := splice_splice (contents (sec_view st) (data i) ds) p cb (drop (Z.to_nat chunk) bs).
      rw Hcb {2 3}/cb take_drop in Hss. apply Hss; [done|lia].
    + intros t Ht. rw W5 // Hv3 decide_False //. intros ->. apply Ht. by eapply list_elem_of_lookup_2.
Qed.

(** [inode_write_at] inside the file. *)
Lemma inode_write_at_inside n F f a i ds bs p :
  mem f = [] -> inodes f !! a = Some i -> grow_lock i = false -> deny_write_cnt i = 0 ->
  rep (view f) (cnt f) (data i) ds ->
  sec_ok (n + Z.of_nat (List.length bs)) (store f) -> 0 <= n ->
  0 <= p -> p + Z.of_nat (List.length bs) <= length (data i) ->
  exists st', inode_write_at F f a bs p = Ok (Z.of_nat (List.length bs), set_store f st') /\
    wrote n (cnt f) (store f) st' (data i) ds p bs.
Proof.
  intros Hm Hi Hg Hd Hr Hok Hn Hp Hpl. have Hl := rp_length _ _ _ _ Hr.
  rw /inode_write_at /get_inode Hi /= Hd /= (acquire_grow_ok _ _ i) //=.
  rw swrap_small; [lia|unfold INT_MAX in *; lia|]. rw (proj2 (Z.ltb_ge _ _)) //.
  have Hrel := release_grow_ok f a i (store f) Hi Hg.
  have Hf : set_store f (store f) = f by destruct f. rw Hf in Hrel.
  have -> : release_grow (put_inode f a (set_grow_lock i true)) a = Ok f by exact Hrel. cbn [obind].
  destruct (write_loop_ok n f a i ds false (Z.to_nat (Z.of_nat (List.length bs))) bs p 0 (store f))
    as (st' & Hw & Hwr); try done; [lia|]. rw Hf in Hw. exists st'. by rw Hw.
Qed.

(** ** Growth past the first doubly indirect index sector *)

(** The state in which the growth loop makes no progress: the file ends at an
    index-sector boundary of the doubly indirect area, the doubly indirect
    sector still records a length [length di] inside an index sector [s2], and
    [s2] is full.  It arises because the third section of [inode_grow] never
    writes [disk_inode] back after it has filled [disk_inode2]. *)
Record stale f (d : inode_disk) (t s2 : Z) (di di2 : inode_disk) : Prop := {
  sg_zone : DIRECT_BYTES + INDIRECT_BYTES <= length d;
  sg_inside : (length d - DIRECT_BYTES - INDIRECT_BYTES) mod DOUBLY_BYTES <> 0;
  sg_t : get_sector d ((length d - DIRECT_BYTES - INDIRECT_BYTES) / DOUBLY_BYTES
                         + DIRECT_SECTOR_CNT + INDIRECT_SECTOR_CNT) = Ok t;
  sg_tr : 0 <= t < cnt f;
  sg_di : decode (view f t) = di;
  sg_len : length di mod INDEX_BYTES <> 0;
  sg_s2 : get_sector di (length di / INDEX_BYTES) = Ok s2;
  sg_s2r : 0 <= s2 < cnt f /\ s2 <> t;
  sg_di2 : view f s2 = encode di2;
  sg_wf : disk_wf di2;
  sg_full : length di2 = INDEX_BYTES }.

Lemma splice_whole (l bs : list Z) : List.length l = List.length bs -> splice l 0 bs = bs.
Proof. intros H. rw /splice /= -H drop_all app_nil_r //. Qed.

Lemma fill_loop_full fuel F f di left0 cur :
  length di = INDEX_BYTES -> fill_loop fuel F f di left0 cur = Ok (true, di, left0, cur, f).
Proof. intros H. destruct fuel; cbn [fill_loop]; by rw H Z.ltb_irrefl andb_false_r. Qed.

Lemma grow_doubly_stale n F f d t s2 di di2 left0 cur :
  stale f d t s2 di di2 -> mem f = [] -> sec_ok n (store f) -> 1 <= n -> 0 < left0 ->
  exists st, grow_doubly F f d left0 cur = Ok (true, d, left0, cur, set_store f st) /\
    sec_ok (n - 1) st /\ stale (set_store f st) d t s2 di di2.
Proof.
  intros [H1 H2 H3 H4 H5 H6 H7 H8 H9 H10 H11] Hm Hok Hn Hl.
  rw /grow_doubly (proj2 (Z.eqb_neq _ _) H2) /calloc Hm. cbn [negb]. rw H3. cbn [obind].
  destruct (read_disk_ok n f t Hok H4) as (f1 & -> & (st1 & -> & Hok1 & Hc1 & Hv1)). cbn [obind].
  rw H5 (proj2 (Z.eqb_neq _ _) H6). cbn [negb]. rw /= Hm. cbn [negb]. rw H7. cbn [obind].
  destruct (read_disk_ok n (set_store f st1) s2 Hok1) as (f2 & -> & (st2 & -> & Hok2 & Hc2 & Hv2)); [rw /= Hc1; apply H8|].
  cbn [obind store set_store]. rw Hv1 H9 (decode_encode di2 H10) /fill_index H11.
  change (INDEX_BYTES mod BLOCK_SECTOR_SIZE =? 0) with true. cbv iota. rw Z.add_0_r.
  have Hfl : set_length di2 INDEX_BYTES = di2 by rw -H11; destruct di2.
  rw Hfl fill_loop_full //. cbn [obind].
  destruct (fs_write_at_ok n (set_store f st2) s2 (encode di2) 0) as (st3 & Hw & Hok3 & Hc3 & Hv3);
    [done|done|simpl in *; lia|done|rw (length_encode _ (proj1 H10)); done|].
  have -> : write_disk (set_store (set_store f st1) st2) s2 di2 = Ok (set_store f st3) by exact Hw.
  cbn [obind]. rw Z.sub_0_r Z.sub_diag Z.add_0_r Z.sub_0_r. exists st3. split_and!; [|done|].
  - repeat f_equal. by destruct d.
  - have Hv : forall u, sec_view st3 u = view f u.
    { intros u. rw Hv3 /= !Hv2 /= !Hv1. case_decide as Hu; [|done]. subst u. rw H9.
      by apply splice_whole. }
    split; simpl; rw ?Hv; try done; simpl in *; lia.
Qed.
End io.


(** ** Examples: a device with a small file and a stale index *)
Definition ex_di2 : inode_disk := mk_disk (replicate 125 20) INDEX_BYTES 0 INODE_MAGIC.
Definition ex_di : inode_disk := mk_disk (11 :: replicate 124 0) 100 0 INODE_MAGIC.
Definition ex_stale : inode_disk :=
  mk_disk (replicate 124 0 ++ [10]) (DIRECT_BYTES + INDIRECT_BYTES + INDEX_BYTES) 1 INODE_MAGIC.
Definition ex_small : inode_disk := mk_disk (5 :: replicate 124 0) 10 1 INODE_MAGIC.
Definition ex_device : block :=
  mk_block "hdb1" BLOCK_FILESYS 100
    (<[10 := encode ex_di]> (<[11 := encode ex_di2]> (<[5 := [104; 101; 108; 108; 111] ++ replicate 507 0]> ∅))) 0 0.
Definition ex_fs : fs cache_state :=
  mk_fs (cache_init ex_device) [] (mk_bitmap 100 []) false None [7] {[7 := mk_inode 2 1 false 0 false 8 ex_small]} ∅ 9.

(** A full free map: every allocation fails. *)
Definition ex_fm : fm_ops cache_state := mk_fm (fun f _ => Ok (None, f)) (fun _ _ _ => Err Panic).

Lemma ex_disk_wf : disk_wf ex_di /\ disk_wf ex_di2.
Proof.
  rw /disk_wf /ex_di /ex_di2 /=. split_and!; try done.
  - repeat constructor; lia.
  - repeat constructor; lia.
Qed.

Lemma ex_store : cache_ok 0 (store ex_fs) /\ forall n, logical (store ex_fs) n = sector_at ex_device n.
Proof.
  apply cache_init_ok; [done|]. intros n. rw /sector_at /ex_device. cbn [content].
  rw !lookup_insert. destruct ex_disk_wf as [[H1 _] [H2 _]].
  repeat case_decide; simpl; [by apply length_encode|by apply length_encode|reflexivity|].
  apply length_replicate.
Qed.

Lemma ex_ok n : n <= INT_MAX -> sec_ok n (store ex_fs).
Proof. intros. exists 0. split_and!; [apply ex_store|done|lia]. Qed.

Lemma ex_rep : rep (sec_view (store ex_fs)) (sec_count (store ex_fs)) ex_small [5].
Proof.
  have Hv : sec_view (store ex_fs) = logical (store ex_fs) by done.
  split; try done.
  - apply NoDup_singleton.
  - intros [|k] s; [|done]. intros [= <-]. by vm_compute.
  - intros [|k] s; [|done]. intros [= <-]. exists []. split; [by vm_compute|]. by intros t ?%not_elem_of_nil.
  - intros s _. rw Hv. apply (length_logical 0). apply ex_store.
Qed.


(** C11: [inode_read_at] on an open inode that represents a file returns
    exactly the bytes of the file from [p] on, cut at [size] and at the end of
    the file, for every position and size; it changes nothing but the state of
    the buffer cache, and leaves the grow lock as it found it. *)
Theorem inode_read_at_correct {St : Type} {ops : SectorOps St} {laws : SectorStore St}
    (n : Z) (f : fs St) (a : Z) (i : inode) (ds : list Z) (size p : Z) :
  sec_ok n (store f) -> mem f = [] -> inodes f !! a = Some i -> grow_lock i = false ->
  rep (sec_view (store f)) (sec_count (store f)) (data i) ds -> 0 <= p <= INT_MAX ->
  exists f', inode_read_at f a size p =
      Ok (slice (contents (sec_view (store f)) (data i) ds) p (Z.min size (length (data i) - p)), f') /\
    reads n f f'.
Proof. apply inode_read_at_ok. Qed.

Lemma inode_read_at_correct_witness :
  exists f', inode_read_at ex_fs 7 20 2 =
      Ok (slice (contents (sec_view (store ex_fs)) ex_small [5]) 2 8, f') /\ reads 0 ex_fs f'.
Proof.
  apply (inode_read_at_correct 0 ex_fs 7 (mk_inode 2 1 false 0 false 8 ex_small) [5] 20 2);
    [by apply ex_ok|done|done|done|apply ex_rep|by vm_compute].
Defined.

(** C12: [inode_write_at] inside the file writes all the bytes: afterwards the
    contents are the old ones with the slice at [p] replaced, the inode still
    represents the file with the same data sectors, every sector outside the
    file is untouched and so is the rest of the file system state. *)
Theorem inode_write_at_correct {St : Type} {ops : SectorOps St} {laws : SectorStore St}
    (n : Z) (F : fm_ops St) (f : fs St) (a : Z) (i : inode) (ds bs : list Z) (p : Z) :
  mem f = [] -> inodes f !! a = Some i -> grow_lock i = false -> deny_write_cnt i = 0 ->
  rep (sec_view (store f)) (sec_count (store f)) (data i) ds ->
  sec_ok (n + Z.of_nat (List.length bs)) (store f) -> 0 <= n ->
  0 <= p -> p + Z.of_nat (List.length bs) <= length (data i) ->
  exists st', inode_write_at F f a bs p = Ok (Z.of_nat (List.length bs), set_store f st') /\
    rep (sec_view st') (sec_count (store f)) (data i) ds /\
    contents (sec_view st') (data i) ds = splice (contents (sec_view (store f)) (data i) ds) p bs /\
    forall t, t ∉ ds -> sec_view st' t = sec_view (store f) t.
Proof.
  intros Hm Hi Hg Hd Hr Hok Hn Hp Hl.
  destruct (inode_write_at_inside n F f a i ds bs p Hm Hi Hg Hd Hr Hok Hn Hp Hl) as (st' & H & [_ _ H1 H2 H3]).
  by exists st'.
Qed.

Lemma inode_write_at_correct_witness :
  exists st', inode_write_at ex_fm ex_fs 7 [74; 75] 4 =
      Ok (2, set_store ex_fs st') /\
    rep (sec_view st') (sec_count (store ex_fs)) ex_small [5] /\
    contents (sec_view st') ex_small [5] = splice (contents (sec_view (store ex_fs)) ex_small [5]) 4 [74; 75] /\
    forall t, t ∉ [5] -> sec_view st' t = sec_view (store ex_fs) t.
Proof.
  apply (inode_write_at_correct 0 ex_fm ex_fs 7 (mk_inode 2 1 false 0 false 8 ex_small) [5] [74; 75] 4);
    [done|done|done|done|apply ex_rep|by apply ex_ok|done|done|by vm_compute].
Defined.
