(* ===== verification/VmFile.v ===== *)
(** * Files behind memory pages

    Demand paging (Frame.v, Fault.v) uses files through [FileOps] and is proved
    against [FileLaws].  Here the inode layer discharges them: an open file at
    address [p] is a [struct file] whose inode represents the file, and
    [file_read_at] goes through inode.c to the sector store.  [MapOps] and [MapLaws] are
    what memory mapped files (Mmap.v) need besides, discharged in the same way. *)
From S2P Require Import Prelude Block Bitmap Store Cache Inode InodeIO File Spt Frame.

(** ** What mapping a file needs *)
Class MapOps (F : Type) := {
  vm_length : F -> Z -> outcome Z;                           (* [file_length] *)
  vm_reopen : F -> Z -> outcome (option Z * F);              (* [file_reopen] *)
  vm_write_at : F -> Z -> list Z -> Z -> outcome (Z * F) }.  (* file, bytes, position: [file_write_at] *)
Class MapLaws (F : Type) `{FileLaws F, !MapOps F} := {
  length_law : forall f p bs, file_is f p bs -> Z.of_nat (List.length bs) <= INT_MAX -> vm_length f p = Ok (Z.of_nat (List.length bs));
  reopen_law : forall f p bs, file_is f p bs ->
    exists a f', vm_reopen f p = Ok (Some a, f') /\ file_is f' a bs /\ forall q cs, file_is f q cs -> file_is f' q cs }.

Section files.
Context {St : Type} {ops : SectorOps St} {laws : SectorStore St}.

(** The file system and the [struct file] objects by address. *)
Definition open_files : Type := fs St * gmap Z file.

#[export] Instance fs_files : FileOps open_files := {|
  vm_read_at f p size pos :=
    let! fl := oget (f.2 !! p) in
    let! (bs, f1) := file_read_at f.1 fl size pos in
    Ok (bs, (f1, f.2)) |}.

Definition fs_file_is (f : open_files) (p : Z) (bs : list Z) : Prop :=
  sec_ok 0 (store f.1) /\ Inode.mem f.1 = [] /\
  exists fl i ds, f.2 !! p = Some fl /\ inodes f.1 !! finode fl = Some i /\ grow_lock i = false /\
    rep (sec_view (store f.1)) (sec_count (store f.1)) (Inode.data i) ds /\ bs = contents (sec_view (store f.1)) (Inode.data i) ds.

#[export] Instance fs_files_laws : FileLaws open_files.
Proof.
  refine (Build_FileLaws _ _ fs_file_is _).
  intros [f files] p bs size pos (Hok & Hm & fl & i & ds & Hp & Hi & Hg & Hr & ->) Hpos Hsize. simpl in *.
  destruct (inode_read_at_ok 0 f (finode fl) i ds size pos Hok Hm Hi Hg Hr Hpos) as (f' & E & st & -> & Hok' & Hc & Hv).
  exists (set_store f st, files). rewrite Hp /=. rewrite /file_read_at E /=. split.
  - rewrite (length_contents _ _ _ _ Hr) //.
  - intros q cs (_ & _ & fl' & i' & ds' & Hp' & Hi' & Hg' & Hr' & ->). split; [done|]. split; [done|]. exists fl', i', ds'. simpl. split_and!; try done.
    + rewrite Hc. by apply (rep_ext (sec_view (store f))).
    + symmetry. by apply contents_ext.
Defined.

(** ** Mapped files.  [F] are the functions of the free map. *)
Context (F : fm_ops St).
#[export] Instance fs_maps : MapOps open_files := {|
  vm_length f p := let! fl := oget (f.2 !! p) in file_length f.1 fl;
  vm_reopen f p :=
    let! fl := oget (f.2 !! p) in
    let! (r, f1) := file_reopen F f.1 fl in
    match r with
    | Some fl' => let a := fresh (dom f.2 : gset Z) in Ok (Some a, (f1, <[a := fl']> f.2))
    | None => Ok (None, (f1, f.2))
    end;
  vm_write_at f p bs pos :=
    let! fl := oget (f.2 !! p) in
    let! (n, f1) := file_write_at F f.1 fl bs pos in Ok (n, (f1, f.2)) |}.
#[export] Instance fs_maps_laws : MapLaws open_files.
Proof.
  split.
  - intros [f files] p bs (_ & _ & fl & i & ds & Hp & Hi & _ & Hr & ->) _. simpl in *. rewrite Hp. cbn [oget obind]. rewrite /file_length /inode_length /get_inode Hi. cbn [oget obind]. by rewrite (length_contents _ _ _ _ Hr).
  - intros [f files] p bs (Hok & Hm & fl & i & ds & Hp & Hi & Hg & Hr & ->). simpl in *. rewrite Hp. cbn [oget obind]. rewrite /file_reopen /inode_reopen /get_inode Hi. cbn [oget obind]. rewrite /file_open /calloc. cbn [Inode.mem put_inode set_inodes]. rewrite Hm. cbn [obind].
    set i' := set_open_cnt i _. set a := fresh (dom files : gset Z). have Ha : files !! a = None by apply not_elem_of_dom, is_fresh.
    have Hino : forall b j, inodes f !! b = Some j -> exists j', inodes (put_inode f (finode fl) i') !! b = Some j' /\ grow_lock j' = grow_lock j /\ Inode.data j' = Inode.data j.
    { intros b j Hj. simpl. destruct (decide (finode fl = b)) as [<-|Hne]; [rewrite lookup_insert_eq; exists i'; (have <- : i = j by congruence); done|rewrite lookup_insert_ne //; by exists j]. }
    eexists a, _. split; [done|]. split.
    + split; [done|]. split; [done|]. destruct (Hino _ _ Hi) as (j & Hj & Hgj & Hdj). exists (mk_file (finode fl) 0 false), j, ds. cbn [fst snd finode]. rewrite Hgj Hdj lookup_insert_eq. done.
    + intros q cs (_ & _ & flq & iq & dq & Hq & Hiq & Hgq & Hrq & ->). split; [done|]. split; [done|]. destruct (Hino _ _ Hiq) as (j & Hj & Hgj & Hdj). exists flq, j, dq. cbn [fst snd]. rewrite Hgj Hdj. simpl in Hq. rewrite lookup_insert_ne; [congruence|]. done.
Qed.
End files.
