(* ===== verification/Dir.v ===== *)
(** * filesys/directory.c: directories

    A directory is an inode whose contents are entries of 24 bytes.  An entry in
    memory is the list of its bytes, as [struct dir_entry] is laid out: the
    sector of the inode, [is_dir], the name with its terminator, [in_use], and
    padding.  Local entries start out with whatever the stack holds ([stack]).

    The theorems relate the functions to the list of entries that the inode
    holds, through inode.c, for any sector store. *)
From S2P Require Import Prelude Block Bitmap Store Cache Inode InodeIO File.

Definition NAME_MAX : Z := 14.
Definition ENTRY_SIZE : Z := 24.                      (* sizeof (struct dir_entry) *)

(** ** struct dir_entry *)
Definition inode_sector (e : list Z) : Z :=
  e !!! 0%nat + 256 * (e !!! 1%nat) + 65536 * (e !!! 2%nat) + 16777216 * (e !!! 3%nat).
Definition is_dir (e : list Z) : bool := negb (e !!! 4%nat =? 0).
Definition name_bytes (e : list Z) : list Z := drop 5 e.     (* [e.name] and what follows it *)
Definition in_use (e : list Z) : bool := negb (e !!! 20%nat =? 0).
Definition set_inode_sector (e : list Z) (s : Z) : list Z := splice e 0 (word_bytes s).
Definition set_is_dir (e : list Z) (b : bool) : list Z := splice e 4 [if b then 1 else 0].
Definition set_in_use (e : list Z) (b : bool) : list Z := splice e 20 [if b then 1 else 0].
(** [strlcpy (e.name, name, sizeof e.name)] *)
Definition set_name (e : list Z) (name : list Z) : list Z := splice e 5 (take (Z.to_nat NAME_MAX) name ++ [0]).

(** [!strcmp (name, e.name)], for the characters of [name] without its terminator. *)
Fixpoint same_name (name bs : list Z) : outcome bool :=
  match bs with
  | [] => Err Fault
  | b :: bs => match name with
               | [] => Ok (b =? 0)
               | c :: name => if c =? b then same_name name bs else Ok false
               end
  end.
(** The string at [bs], cut at [n] characters: [strlcpy (dst, bs, n + 1)]. *)
Fixpoint string_of (n : nat) (bs : list Z) : outcome (list Z) :=
  match bs with
  | [] => Err Fault
  | b :: bs => if b =? 0 then Ok [] else
               match n with O => Ok [] | S n => let! s := string_of n bs in Ok (b :: s) end
  end.

(** ** struct dir *)
Record dir := mk_dir { dinode : Z; dpos : Z }.

Section directory.
Context {St : Type} `{!SectorOps St}.
Implicit Types (f : fs St) (F : fm_ops St) (d : dir).

Definition dir_create F f (sec entry_cnt : Z) : outcome (bool * fs St) :=
  inode_create F f sec (s32 (entry_cnt * ENTRY_SIZE)).

Definition dir_open F f (a : option Z) : outcome (option dir * fs St) :=
  let (ok, f) := calloc f in
  match a, ok with
  | Some a, true => Ok (Some (mk_dir a 0), f)
  | _, _ => let! f := inode_close F f a in Ok (None, f)
  end.
Definition dir_open_root F f : outcome (option dir * fs St) :=
  let! (a, f) := inode_open f ROOT_DIR_SECTOR in dir_open F f a.
Definition dir_reopen F f d : outcome (option dir * fs St) :=
  let! (a, f) := inode_reopen f (Some (dinode d)) in dir_open F f a.
Definition dir_close F f (d : option dir) : outcome (fs St) :=
  match d with Some d => inode_close F f (Some (dinode d)) | None => Ok f end.
Definition dir_get_inode d : Z := dinode d.

(** [for (ofs = ...; inode_read_at (inode, &e, sizeof e, ofs) == sizeof e; ofs += sizeof e) if (...) break;]
    Was the condition met?  The entry and the offset are those at the end; a
    short read stores what there is.  Offsets stay within the inode, so that
    they do not overflow. *)
Fixpoint scan (fuel : nat) (p : list Z -> outcome bool) f (a ofs : Z) (e : list Z) : outcome (bool * list Z * Z * fs St) :=
  let! (bs, f) := inode_read_at f a ENTRY_SIZE ofs in
  let e := splice e 0 bs in
  if Z.of_nat (List.length bs) =? ENTRY_SIZE then
    let! stop := p e in
    if stop then Ok (true, e, ofs, f)
    else match fuel with O => Err NoFuel | S fuel => scan fuel p f a (ofs + ENTRY_SIZE) e end
  else Ok (false, e, ofs, f).
(** A pass moves on by an entry: one for each byte is enough. *)
Definition scan_dir (p : list Z -> outcome bool) f (a : Z) (stack : list Z) : outcome (bool * list Z * Z * fs St) :=
  let! i := get_inode f a in
  scan (Z.to_nat (length (data i))) p f a 0 stack.

(** [e.in_use && !strcmp (name, e.name)] *)
Definition has_name (name e : list Z) : outcome bool := if in_use e then same_name name (name_bytes e) else Ok false.
(** [e.in_use && child == e.inode_sector] *)
Definition has_sector (child : Z) (e : list Z) : outcome bool := Ok (in_use e && (child =? inode_sector e)).

(** The entry and its offset. *)
Definition lookup f d (name stack : list Z) : outcome (option (list Z * Z) * fs St) :=
  let! (found, e, ofs, f) := scan_dir (has_name name) f (dinode d) stack in
  Ok (if found then Some (e, ofs) else None, f).

(** The inode, when the result is true. *)
Definition dir_lookup f d (name stack : list Z) : outcome (option Z * fs St) :=
  let! (r, f) := lookup f d name stack in
  match r with Some (e, _) => inode_open f (inode_sector e) | None => Ok (None, f) end.

Definition dir_add F f d (name : list Z) (sec : Z) (stack : list Z) : outcome (bool * fs St) :=
  if (Z.of_nat (List.length name) =? 0) || (NAME_MAX <? Z.of_nat (List.length name)) then Ok (false, f) else
  let! (r, f) := lookup f d name stack in
  match r with
  | Some _ => Ok (false, f)
  | None =>
    let! (_, e, ofs, f) := scan_dir (fun e => Ok (negb (in_use e))) f (dinode d) stack in
    let e := set_inode_sector (set_name (set_in_use e true) name) sec in
    let! (n, f) := inode_write_at F f (dinode d) e ofs in
    if n =? ENTRY_SIZE then
      let! par := inode_get_inumber f (dinode d) in
      let! (ok, f) := inode_set_parent f sec par in
      if negb ok then
        let! (_, f) := inode_write_at F f (dinode d) (set_in_use e false) ofs in Ok (false, f)
      else Ok (true, f)
    else Ok (false, f)
  end.

Definition dir_remove F f d (name stack : list Z) : outcome (bool * fs St) :=
  let! (r, f) := lookup f d name stack in
  match r with
  | None => Ok (false, f)              (* [inode_close (NULL)] does nothing *)
  | Some (e, ofs) =>
    let! (a, f) := inode_open f (inode_sector e) in
    match a with
    | None => Ok (false, f)
    | Some a =>
      let! (n, f) := inode_write_at F f (dinode d) (set_in_use e false) ofs in
      let! (success, f) :=
        if negb (n =? ENTRY_SIZE) then Ok (false, f)
        else let! f := inode_remove f (Some a) in Ok (true, f) in
      let! f := inode_close F f (Some a) in
      Ok (success, f)
    end
  end.

(** [while (inode_read_at (...) == sizeof e)] of [dir_readdir]: the name, if there
    is another entry, and the new position. *)
Fixpoint readdir_loop (fuel : nat) f (a pos : Z) (e : list Z) : outcome (option (list Z) * Z * fs St) :=
  let! (bs, f) := inode_read_at f a ENTRY_SIZE pos in
  let e := splice e 0 bs in
  if Z.of_nat (List.length bs) =? ENTRY_SIZE then
    let pos := pos + ENTRY_SIZE in
    if in_use e then let! name := string_of (Z.to_nat NAME_MAX) (name_bytes e) in Ok (Some name, pos, f)
    else match fuel with O => Err NoFuel | S fuel => readdir_loop fuel f a pos e end
  else Ok (None, pos, f).
Definition lock_dir f (lk : Z) (b : bool) : fs St := set_locks f (<[lk := b]> (dir_locks f)).
(** By one thread: a lock that is held is held by it. *)
Definition dir_readdir f d (stack : list Z) : outcome (option (list Z) * dir * fs St) :=
  let! lk := inode_dir_lock f (dinode d) in
  let! held := @oget bool (dir_locks f !! lk) in
  let f := if held then f else lock_dir f lk true in
  let! i := get_inode f (dinode d) in
  let! (name, pos, f) := readdir_loop (Z.to_nat (length (data i))) f (dinode d) (dpos d) stack in
  Ok (name, mk_dir (dinode d) pos, if held then f else lock_dir f lk false).

(** The pointer returned is into a local variable; here, the string it has while
    the stack frame is not reused. *)
Definition dir_get_entry_name f d (child : Z) (stack : list Z) : outcome (list Z * fs St) :=
  let! (found, e, _, f) := scan_dir (has_sector child) f (dinode d) stack in
  if found then let! s := string_of (Z.to_nat ENTRY_SIZE) (name_bytes e) in Ok (s, f) else Err Panic.
Definition dir_entry_is_dir f d (child : Z) (stack : list Z) : outcome (bool * fs St) :=
  let! (found, e, _, f) := scan_dir (has_sector child) f (dinode d) stack in
  if found then Ok (is_dir e, f) else Err Panic.
(** [dir_entry_set_dir] and [dir_entry_clear_dir] *)
Definition dir_entry_put F f d (child : Z) (b : bool) (stack : list Z) : outcome (fs St) :=
  let! (found, e, ofs, f) := scan_dir (has_sector child) f (dinode d) stack in
  if found then let! (_, f) := inode_write_at F f (dinode d) (set_is_dir e b) ofs in Ok f else Err Panic.
Definition dir_entry_set_dir F f d (child : Z) (stack : list Z) : outcome (fs St) := dir_entry_put F f d child true stack.
Definition dir_entry_clear_dir F f d (child : Z) (stack : list Z) : outcome (fs St) := dir_entry_put F f d child false stack.
End directory.

(** ** Entries *)

(** The characters of the string at [bs]. *)
Fixpoint cstr (bs : list Z) : list Z :=
  match bs with [] => [] | b :: bs => if b =? 0 then [] else b :: cstr bs end.
Definition entry_name (e : list Z) : list Z := cstr (name_bytes e).

(** An entry is 24 bytes, and the name of one in use is terminated. *)
Definition entry_wf (e : list Z) : Prop :=
  List.length e = Z.to_nat ENTRY_SIZE /\ (in_use e = true -> 0 ∈ take (Z.to_nat (NAME_MAX + 1)) (name_bytes e)).

Lemma same_name_ok name bs :
  0 ∈ bs -> 0 ∉ name -> same_name name bs = Ok (bool_decide (name = cstr bs)).
Proof.
  revert name. induction bs as [|b bs IH]; intros name Hb Hn; [by apply not_elem_of_nil in Hb|].
  destruct name as [|c name]; simpl.
  - by destruct (Z.eqb_spec b 0).
  - apply not_elem_of_cons in Hn as [Hc Hn]. destruct (Z.eqb_spec c b) as [<-|Hcb].
    + apply elem_of_cons in Hb as [?|Hb]; [congruence|]. rw IH //. destruct (Z.eqb_spec c 0); [congruence|].
      f_equal. apply bool_decide_ext. split; [by intros ->|by intros [= ->]].
    + f_equal. symmetry. apply bool_decide_eq_false. destruct (b =? 0); [done|]. congruence.
Qed.

Lemma cstr_terminated name bs : 0 ∉ name -> cstr (name ++ 0 :: bs) = name.
Proof.
  induction name as [|c name IH]; intros Hn; [done|]. simpl.
  apply not_elem_of_cons in Hn as [Hc Hn]. destruct (Z.eqb_spec c 0); [congruence|]. by rw IH.
Qed.

Lemma entry_terminated e : entry_wf e -> in_use e = true -> 0 ∈ name_bytes e.
Proof. intros [_ H] Hu. apply (elem_of_take _ (Z.to_nat (NAME_MAX + 1)) _ ) in H as (k & Hk & _); [|done]. by eapply list_elem_of_lookup_2. Qed.

Lemma has_name_ok name e :
  entry_wf e -> 0 ∉ name -> has_name name e = Ok (in_use e && bool_decide (name = entry_name e)).
Proof.
  intros He Hn. rw /has_name. destruct (in_use e) eqn:Hu; [|done].
  apply same_name_ok; [by apply entry_terminated|done].
Qed.

(** An entry as a literal list of its bytes. *)
Lemma entry_bytes (e : list Z) : List.length e = Z.to_nat ENTRY_SIZE ->
  exists a b c d t nm u p1 p2 p3, e = a :: b :: c :: d :: t :: nm ++ [u; p1; p2; p3] /\ List.length nm = 15%nat.
Proof.
  intros H. change (Z.to_nat ENTRY_SIZE) with 24%nat in H. do 5 (destruct e as [|? e]; [done|]). 
  have Hs : e = take 15 e ++ drop 15 e by rw take_drop.
  have Hd : List.length (drop 15 e) = 4%nat by rw length_drop; cbn [List.length] in H; lia.
  destruct (drop 15 e) as [|u [|p1 [|p2 [|p3 [|]]]]]; try done.
  do 5 eexists. exists (take 15 e), u, p1, p2, p3. split; [by rw {1}Hs|]. rw length_take. cbn [List.length] in H. lia.
Qed.

Lemma lookup_total_splice (e : list Z) o bs k :
  0 <= o -> o + Z.of_nat (List.length bs) <= Z.of_nat (List.length e) ->
  splice e o bs !!! k = if decide (Z.to_nat o <= k < Z.to_nat o + List.length bs)%nat
                        then bs !!! (k - Z.to_nat o)%nat else e !!! k.
Proof. intros ??. rw !list_lookup_total_alt lookup_splice //. by case_decide. Qed.

Lemma drop_splice_before (e : list Z) o bs (k : nat) :
  0 <= o -> o + Z.of_nat (List.length bs) <= Z.of_nat (List.length e) ->
  (Z.to_nat o + List.length bs <= k)%nat -> drop k (splice e o bs) = drop k e.
Proof.
  intros ???. apply list_eq. intros j. rw !lookup_drop lookup_splice //. case_decide; [lia|done].
Qed.

Lemma length_word_bytes s : List.length (word_bytes s) = 4%nat.
Proof. done. Qed.

Lemma inode_sector_set (e : list Z) s :
  List.length e = Z.to_nat ENTRY_SIZE -> 0 <= s < 2 ^ 32 -> inode_sector (set_inode_sector e s) = s.
Proof.
  intros He Hs. rw /inode_sector /set_inode_sector. rw !lookup_total_splice ?length_word_bytes ?He //.
  have := word_bytes_value s Hs. rw /word_bytes /=. lia.
Qed.

(** What [dir_add] stores in a slot, and what [dir_remove] leaves in it. *)
Definition new_entry (e name : list Z) (sec : Z) : list Z :=
  set_inode_sector (set_name (set_in_use e true) name) sec.

Section new_entry.
Context (e name : list Z) (sec : Z).
Context (Hlen : List.length e = Z.to_nat ENTRY_SIZE) (Hname : Z.of_nat (List.length name) <= NAME_MAX).

Lemma set_in_use_length b : List.length (set_in_use e b) = Z.to_nat ENTRY_SIZE.
Proof. rw /set_in_use length_splice ?Hlen //. Qed.

Lemma set_in_use_in_use b : in_use (set_in_use e b) = b.
Proof. rw /in_use /set_in_use lookup_total_splice ?Hlen //. by destruct b. Qed.

Lemma take_name : take (Z.to_nat NAME_MAX) name = name.
Proof. apply take_ge. lia. Qed.

Lemma set_name_length : List.length (set_name (set_in_use e true) name) = Z.to_nat ENTRY_SIZE.
Proof.
  rw /set_name take_name length_splice ?set_in_use_length //. rw length_app /=.
  unfold NAME_MAX, ENTRY_SIZE in *. lia.
Qed.

Lemma new_entry_length : List.length (new_entry e name sec) = Z.to_nat ENTRY_SIZE.
Proof. rw /new_entry /set_inode_sector length_splice ?length_word_bytes ?set_name_length //. Qed.

Lemma new_entry_sector : 0 <= sec < 2 ^ 32 -> inode_sector (new_entry e name sec) = sec.
Proof.
  apply inode_sector_set, set_name_length.
Qed.

Lemma new_entry_in_use : in_use (new_entry e name sec) = true.
Proof.
  rw /in_use /new_entry /set_inode_sector lookup_total_splice ?length_word_bytes ?set_name_length //.
  rw /set_name take_name lookup_total_splice //.
  - rw set_in_use_length length_app /=. unfold NAME_MAX, ENTRY_SIZE in *. lia.
  - rw decide_False; [rw length_app /=; unfold NAME_MAX in *; lia|]. apply (set_in_use_in_use true).
Qed.

Lemma new_entry_bytes : exists rest, name_bytes (new_entry e name sec) = name ++ 0 :: rest.
Proof.
  exists (drop (Z.to_nat 5 + List.length (name ++ [0])) (set_in_use e true)).
  rw /name_bytes /new_entry /set_inode_sector drop_splice_before ?length_word_bytes ?set_name_length //; [simpl; lia|].
  rw /set_name take_name /splice drop_app_length'; [rw length_take set_in_use_length //|].
  by rw -app_assoc.
Qed.

Lemma new_entry_name : 0 ∉ name -> entry_name (new_entry e name sec) = name.
Proof. intros Hn. rw /entry_name. destruct new_entry_bytes as (rest & ->). by apply cstr_terminated. Qed.

Lemma new_entry_wf : entry_wf (new_entry e name sec).
Proof.
  split; [apply new_entry_length|]. intros _. destruct new_entry_bytes as (rest & ->).
  apply (list_elem_of_lookup_2 _ (List.length name)). rw lookup_take_lt; [unfold NAME_MAX in *; lia|].
  by rw lookup_app_r // Nat.sub_diag.
Qed.

Lemma cleared_wf : entry_wf (set_in_use e false).
Proof. split; [apply set_in_use_length|]. by rw set_in_use_in_use. Qed.
End new_entry.

(** ** The directory as a finite map from names to sectors *)
Definition used (es : list (list Z)) : list (list Z) := filter (fun e => in_use e = true) es.
Definition dir_map (es : list (list Z)) : gmap (list Z) Z :=
  list_to_map ((fun e => (entry_name e, inode_sector e)) <$> used es).

(** Entries of an intact directory: well formed, no name twice. *)
Definition entries_wf (es : list (list Z)) : Prop := Forall entry_wf es /\ NoDup (entry_name <$> used es).

(** The first entry that satisfies [q]: was there one?  The last entry seen and the offset. *)
Fixpoint search (q : list Z -> bool) (es : list (list Z)) (ofs : Z) (e : list Z) : bool * list Z * Z :=
  match es with
  | [] => (false, e, ofs)
  | x :: es => if q x then (true, x, ofs) else search q es (ofs + ENTRY_SIZE) x
  end.

Lemma search_found q es ofs e x o :
  search q es ofs e = (true, x, o) ->
  exists k, es !! k = Some x /\ q x = true /\ o = ofs + ENTRY_SIZE * Z.of_nat k.
Proof.
  revert ofs e. induction es as [|y es IH]; intros ofs e; simpl; [done|].
  destruct (q y) eqn:Hq.
  - intros [= -> ->]. exists 0%nat. split_and!; [done..|]. lia.
  - intros H. apply IH in H as (k & Hk & Hx & ->). exists (S k). split_and!; [done..|]. lia.
Qed.

Lemma search_missing q es ofs e x o :
  search q es ofs e = (false, x, o) -> forall y, y ∈ es -> q y = false.
Proof.
  revert ofs e. induction es as [|z es IH]; intros ofs e; simpl; [by intros _ y ?%not_elem_of_nil|].
  destruct (q z) eqn:Hq; [done|]. intros H y [->|Hy]%elem_of_cons; [done|]. by eapply IH.
Qed.

Lemma dir_map_found es e :
  entries_wf es -> e ∈ es -> in_use e = true -> dir_map es !! entry_name e = Some (inode_sector e).
Proof.
  intros [_ Hnd] He Hu. apply elem_of_list_to_map_1.
  - rw -list_fmap_compose. exact Hnd.
  - apply list_elem_of_fmap. exists e. split; [done|]. by apply list_elem_of_filter.
Qed.

Lemma dir_map_missing es name :
  (forall e, e ∈ es -> in_use e && bool_decide (name = entry_name e) = false) -> dir_map es !! name = None.
Proof.
  intros H. apply not_elem_of_list_to_map_1. rw -list_fmap_compose. intros (e & -> & [Hu He]%list_elem_of_filter)%list_elem_of_fmap.
  have := H e He. rw Hu bool_decide_eq_true_2 //.
Qed.

(** The slice of a sequence of entries that an entry occupies, and what is past the end. *)
Lemma length_entries es : Forall entry_wf es -> List.length (mjoin es) = (List.length es * 24)%nat.
Proof. induction 1 as [|e es [He _] _ IH]; [done|]. simpl. rw length_app IH He. done. Qed.

Lemma slice_entry es1 e es2 : Forall entry_wf es1 -> List.length e = Z.to_nat ENTRY_SIZE ->
  slice (mjoin (es1 ++ e :: es2)) (ENTRY_SIZE * Z.of_nat (List.length es1)) ENTRY_SIZE = e.
Proof.
  intros H1 He. rw join_app /= /slice. rw drop_app_length'.
  - rw (length_entries _ H1) /ENTRY_SIZE. lia.
  - by apply take_app_length'.
Qed.

Lemma splice_entry es1 e es2 x : Forall entry_wf es1 -> List.length e = Z.to_nat ENTRY_SIZE ->
  List.length x = Z.to_nat ENTRY_SIZE ->
  splice (mjoin (es1 ++ e :: es2)) (ENTRY_SIZE * Z.of_nat (List.length es1)) x = mjoin (es1 ++ x :: es2).
Proof.
  intros H1 He Hx. rw !join_app /= /splice. have Hl := length_entries _ H1.
  rw take_app_length'; [rw Hl /ENTRY_SIZE; lia|]. f_equal. f_equal.
  rw -drop_drop drop_app_length'; [rw Hl /ENTRY_SIZE; lia|]. apply drop_app_length'. by rw He Hx.
Qed.

(** One more entry in use. *)
Lemma dir_map_cons es es' x :
  used es' ≡ₚ x :: used es -> NoDup (entry_name <$> used es') ->
  dir_map es' = <[entry_name x := inode_sector x]> (dir_map es) /\ dir_map es !! entry_name x = None.
Proof.
  intros Hp Hnd. have Hnd' := Hnd. rw Hp fmap_cons in Hnd'. apply NoDup_cons in Hnd' as [Hx Hnd']. split.
  - rw /dir_map. etrans; [apply list_to_map_proper; [rw -list_fmap_compose; exact Hnd|by rw Hp]|]. done.
  - apply not_elem_of_list_to_map_1. rw -list_fmap_compose. exact Hx.
Qed.

Lemma used_app es1 e es2 :
  used (es1 ++ e :: es2) ≡ₚ if in_use e then e :: used (es1 ++ es2) else used (es1 ++ es2).
Proof.
  rw /used !filter_app. destruct (in_use e) eqn:E.
  - rw filter_cons_True //. by rw Permutation_middle.
  - rw filter_cons_False //. by rw E.
Qed.

(** Writing an entry with a new name in a free slot adds it to the map. *)
Lemma entries_add es1 e es2 x :
  entries_wf (es1 ++ e :: es2) -> in_use e = false -> entry_wf x -> in_use x = true ->
  dir_map (es1 ++ e :: es2) !! entry_name x = None ->
  entries_wf (es1 ++ x :: es2) /\
  dir_map (es1 ++ x :: es2) = <[entry_name x := inode_sector x]> (dir_map (es1 ++ e :: es2)).
Proof.
  intros [Hf Hnd] He Hx Hux Hm. have Hp := used_app es1 x es2. have Hq := used_app es1 e es2.
  rw Hux in Hp. rw He in Hq. rw -Hq in Hp.
  have Hnd' : NoDup (entry_name <$> used (es1 ++ x :: es2)).
  { rw Hp fmap_cons. apply NoDup_cons. split; [|done]. intros Hin.
    apply not_elem_of_list_to_map_2 in Hm. by rw -list_fmap_compose in Hm. }
  split; [split; [|done]|by apply dir_map_cons].
  apply Forall_app in Hf as [? Hf]. apply Forall_app. split; [done|]. inversion Hf; by constructor.
Qed.

(** Clearing an entry deletes its name. *)
Lemma entries_remove es1 e es2 x :
  entries_wf (es1 ++ e :: es2) -> in_use e = true -> entry_wf x -> in_use x = false ->
  entries_wf (es1 ++ x :: es2) /\ dir_map (es1 ++ x :: es2) = delete (entry_name e) (dir_map (es1 ++ e :: es2)).
Proof.
  intros [Hf Hnd] He Hx Hux. have Hp := used_app es1 x es2. have Hq := used_app es1 e es2.
  rw Hux in Hp. rw He in Hq. rw -Hp in Hq.
  destruct (dir_map_cons _ _ _ Hq Hnd) as [-> Hm]. split; [split|by rw delete_insert_id].
  - apply Forall_app in Hf as [? Hf]. apply Forall_app. split; [done|]. inversion Hf; by constructor.
  - rw Hq fmap_cons in Hnd. by apply NoDup_cons in Hnd as [_ ?].
Qed.

(** ** Directories on the store *)
Section dir_io.
Context {St : Type} {ops : SectorOps St} {laws : SectorStore St}.
Implicit Types (f : fs St) (F : fm_ops St).

(** The open inode at [a] is a directory with entries [es]; the store can take
    [n] more writes. *)
Record directory (n : Z) f (a : Z) (i : inode) (ds : list Z) (es : list (list Z)) : Prop := {
  dr_ok : sec_ok n (store f);
  dr_mem : mem f = [];
  dr_open : inodes f !! a = Some i;
  dr_grow : grow_lock i = false;
  dr_deny : deny_write_cnt i = 0;
  dr_rep : rep (sec_view (store f)) (sec_count (store f)) (data i) ds;
  dr_contents : contents (sec_view (store f)) (data i) ds = mjoin es;
  dr_entries : entries_wf es }.

Lemma directory_reads n f f' a i ds es : directory n f a i ds es -> reads n f f' -> directory n f' a i ds es.
Proof.
  intros [H1 H2 H3 H4 H5 H6 H7 H8] (st & -> & Hok & Hc & Hv). split; try done; simpl.
  - rw Hc. by apply (rep_ext (sec_view (store f))).
  - by rw (contents_ext (sec_view (store f))).
Qed.

Lemma directory_length n f a i ds es :
  directory n f a i ds es -> length (data i) = ENTRY_SIZE * Z.of_nat (List.length es).
Proof.
  intros H. rw -(length_contents _ _ _ _ (dr_rep _ _ _ _ _ _ H)) (dr_contents _ _ _ _ _ _ H).
  have [Hf _] := dr_entries _ _ _ _ _ _ H. rw (length_entries _ Hf) /ENTRY_SIZE. lia.
Qed.

(** One read of the scan: the entry, or nothing at the end. *)
Lemma read_entry n f a i ds es1 e es2 :
  directory n f a i ds (es1 ++ e :: es2) ->
  exists f', inode_read_at f a ENTRY_SIZE (ENTRY_SIZE * Z.of_nat (List.length es1)) = Ok (e, f') /\ reads n f f'.
Proof.
  intros H. have Hl := directory_length _ _ _ _ _ _ H. destruct H as [H1 H2 H3 H4 H5 H6 H7 [Hf _]].
  have Hm := rp_length _ _ _ _ H6. rw length_app /= in Hl.
  destruct (inode_read_at_ok n f a i ds ENTRY_SIZE (ENTRY_SIZE * Z.of_nat (List.length es1))) as (f' & E & Hr); try done; [unfold ENTRY_SIZE in *; lia|].
  exists f'. split; [|done]. rw E H7 Z.min_l; [unfold ENTRY_SIZE in *; lia|].
  apply Forall_app in Hf as [Hf1 Hf2]. inversion Hf2 as [|? ? [He _] _]; subst. by rw slice_entry.
Qed.

Lemma read_end n f a i ds es :
  directory n f a i ds es ->
  exists f', inode_read_at f a ENTRY_SIZE (ENTRY_SIZE * Z.of_nat (List.length es)) = Ok ([], f') /\ reads n f f'.
Proof.
  intros H. have Hl := directory_length _ _ _ _ _ _ H. destruct H as [H1 H2 H3 H4 H5 H6 H7 [Hf _]].
  have Hm := rp_length _ _ _ _ H6.
  destruct (inode_read_at_ok n f a i ds ENTRY_SIZE (ENTRY_SIZE * Z.of_nat (List.length es))) as (f' & E & Hr); try done; [unfold ENTRY_SIZE in *; lia|].
  exists f'. split; [|done]. by rw E Hl Z.sub_diag.
Qed.

Lemma scan_ok n f a i ds (p : list Z -> outcome bool) (q : list Z -> bool) es1 es2 e fuel :
  directory n f a i ds (es1 ++ es2) -> (forall x, x ∈ es2 -> p x = Ok (q x)) ->
  List.length e = Z.to_nat ENTRY_SIZE -> (List.length es2 <= fuel)%nat ->
  exists f', scan fuel p f a (ENTRY_SIZE * Z.of_nat (List.length es1)) e =
      Ok (search q es2 (ENTRY_SIZE * Z.of_nat (List.length es1)) e, f') /\ reads n f f'.
Proof.
  revert f es1 e fuel. induction es2 as [|x es2 IH]; intros f es1 e fuel Hd Hp He Hfuel.
  - rw app_nil_r in Hd. destruct (read_end _ _ _ _ _ _ Hd) as (f' & E & Hr). exists f'.
    destruct fuel; simpl; by rw E /= splice_nil.
  - destruct (read_entry _ _ _ _ _ _ _ _ Hd) as (f' & E & Hr).
    have [Hf _] := dr_entries _ _ _ _ _ _ Hd.
    have [Hx _] : entry_wf x by apply (proj1 (Forall_forall _ _) Hf); apply elem_of_app; right; apply list_elem_of_here.
    have Hsp : splice e 0 x = x by rw splice_whole ?He ?Hx.
    have Hpx : p x = Ok (q x) by apply Hp, list_elem_of_here.
    destruct fuel as [|fuel]; [simpl in Hfuel; lia|]. cbn [scan search]. rw E. cbn [obind]. rw Hsp Hpx Hx Z.eqb_refl. cbn [obind].
    destruct (q x); [by exists f'|].
    destruct (IH f' (es1 ++ [x]) x fuel) as (f'' & E2 & Hr2).
    + rw -app_assoc. by eapply directory_reads.
    + intros y Hy. apply Hp. by apply list_elem_of_further.
    + done.
    + simpl in Hfuel. lia.
    + exists f''. rw length_app /= in E2.
      have Ho : ENTRY_SIZE * Z.of_nat (List.length es1) + ENTRY_SIZE = ENTRY_SIZE * Z.of_nat (List.length es1 + 1) by lia.
      rw Ho E2. split; [done|]. by eapply reads_trans.
Qed.

Lemma scan_dir_ok n f a i ds (p : list Z -> outcome bool) (q : list Z -> bool) es e :
  directory n f a i ds es -> (forall x, x ∈ es -> p x = Ok (q x)) -> List.length e = Z.to_nat ENTRY_SIZE ->
  exists f', scan_dir p f a e = Ok (search q es 0 e, f') /\ reads n f f'.
Proof.
  intros Hd Hp He. rw /scan_dir /get_inode (dr_open _ _ _ _ _ _ Hd). cbn [oget obind].
  apply (scan_ok n f a i ds p q [] es e (Z.to_nat (length (data i)))); try done.
  rw (directory_length _ _ _ _ _ _ Hd) /ENTRY_SIZE. lia.
Qed.

(** [lookup] finds what the map has. *)
Lemma lookup_ok n f d i ds es name stack :
  directory n f (dinode d) i ds es -> 0 ∉ name -> List.length stack = Z.to_nat ENTRY_SIZE ->
  exists r f', lookup f d name stack = Ok (r, f') /\ reads n f f' /\
    match r with
    | Some (e, ofs) => exists es1 es2, es = es1 ++ e :: es2 /\ ofs = ENTRY_SIZE * Z.of_nat (List.length es1) /\
                       in_use e = true /\ entry_name e = name /\ dir_map es !! name = Some (inode_sector e)
    | None => dir_map es !! name = None
    end.
Proof.
  intros Hd Hn Hs. have Hwf := dr_entries _ _ _ _ _ _ Hd.
  destruct (scan_dir_ok n f (dinode d) i ds (has_name name) (fun e => in_use e && bool_decide (name = entry_name e)) es stack)
    as (f' & E & Hr); try done.
  { intros x Hx. apply has_name_ok; [|done]. destruct Hwf as [Hf _]. by apply (proj1 (Forall_forall _ _) Hf). }
  rw /lookup E. cbn [obind]. destruct (search _ es 0 stack) as [[[] x] o] eqn:Es.
  - exists (Some (x, o)), f'. split_and!; [done..|].
    apply search_found in Es as (k & Hk & [Hu Hnm%bool_decide_eq_true]%andb_true_iff & ->).
    exists (take k es), (drop (S k) es). have Hk' := lookup_lt_Some _ _ _ Hk. split_and!; try done.
    + by rw take_drop_middle.
    + rw length_take Z.add_0_l. do 2 f_equal. lia.
    + rw Hnm. apply dir_map_found; try done. by eapply list_elem_of_lookup_2.
  - exists None, f'. split_and!; [done..|]. apply dir_map_missing. by eapply search_missing.
Qed.

(** A sector that is neither a data sector nor an index sector of the file. *)
Definition separate (v : Z -> list Z) (d : inode_disk) (ds : list Z) (s : Z) : Prop :=
  s ∉ ds /\ forall k ix t, (k < List.length ds)%nat -> path v d (Z.of_nat k) = Some (ix, t) -> s ∉ ix.

Lemma separate_frame v v' c d ds s :
  rep v c d ds -> (forall t, t ∉ ds -> v' t = v t) -> separate v d ds s -> separate v' d ds s.
Proof.
  intros Hr Hv [H1 H2]. split; [done|]. intros k ix t Hk Hp.
  destruct (lookup_lt_is_Some_2 ds k Hk) as [x Hx].
  destruct (rp_path _ _ _ _ Hr k x Hx) as (ix0 & Hp0 & Hix).
  have Hp1 : path v' d (Z.of_nat k) = Some (ix0, x) by eapply path_ext; [done|]; intros u Hu; apply Hv, Hix.
  rw Hp1 in Hp. simplify_eq. by eapply H2.
Qed.

(** Writing the slot of an entry. *)
Lemma write_entry n F f a i ds es1 e es2 x :
  directory (n + ENTRY_SIZE) f a i ds (es1 ++ e :: es2) -> 0 <= n -> List.length x = Z.to_nat ENTRY_SIZE ->
  entries_wf (es1 ++ x :: es2) ->
  exists st, inode_write_at F f a x (ENTRY_SIZE * Z.of_nat (List.length es1)) = Ok (ENTRY_SIZE, set_store f st) /\
    directory n (set_store f st) a i ds (es1 ++ x :: es2) /\ sec_count st = sec_count (store f) /\
    forall t, t ∉ ds -> sec_view st t = sec_view (store f) t.
Proof.
  intros H Hn Hx Hwf. have Hl := directory_length _ _ _ _ _ _ H. destruct H as [H1 H2 H3 H4 H5 H6 H7 [Hf _]].
  rw length_app /= in Hl. apply Forall_app in Hf as [Hf1 Hf2]. inversion Hf2 as [|? ? [He _] _]; subst.
  destruct (inode_write_at_inside n F f a i ds x (ENTRY_SIZE * Z.of_nat (List.length es1)))
    as (st & E & [W1 W2 W3 W4 W5]); try done; [by rw Hx|unfold ENTRY_SIZE in *; lia|rw Hx; unfold ENTRY_SIZE in *; lia|].
  exists st. split_and!; [by rw E Hx| |done|done]. split; try done; simpl.
  - by rw W2.
  - by rw W4 H7 splice_entry.
Qed.

(** [inode_set_parent] on a sector outside the directory. *)
Lemma inode_set_parent_ok n f a i ds es sec par d0 :
  directory (n + 1) f a i ds es -> 0 <= n -> 0 <= sec < sec_count (store f) ->
  separate (sec_view (store f)) (data i) ds sec -> sec_view (store f) sec = encode d0 -> disk_wf d0 ->
  exists st, inode_set_parent f sec par = Ok (true, set_store f st) /\
    directory n (set_store f st) a i ds es /\ sec_count st = sec_count (store f) /\
    sec_view st sec = encode (set_parent d0 par) /\ forall t, t <> sec -> sec_view st t = sec_view (store f) t.
Proof.
  intros [H1 H2 H3 H4 H5 H6 H7 H8] Hn Hs [Hds Hix] Hd0 Hwf.
  rw /inode_set_parent /calloc H2. cbn [negb].
  destruct (read_disk_ok (n + 1) f sec) as (f1 & E1 & (st1 & -> & Hok1 & Hc1 & Hv1)); try done.
  rw E1. cbn [obind]. rw Hd0 decode_encode // /write_disk /fs_write.
  have Hlen : List.length (encode (set_parent d0 par)) = sector_len by apply length_encode; destruct Hwf.
  destruct (fs_write_at_ok (n + 1) (set_store f st1) sec (encode (set_parent d0 par)) 0) as (st & E2 & Hok & Hc & Hv);
    try done; simpl; [lia|by rw Hc1|by rw Hlen|].
  rw E2. cbn [obind]. exists st. simpl in *. have Hn1 : n + 1 - 1 = n by lia. rw Hn1 in Hok.
  have Hother : forall t, t <> sec -> sec_view st t = sec_view (store f) t.
  { intros t Ht. by rw Hv decide_False // Hv1. }
  have [Hr' Hcon] : rep (sec_view st) (sec_count (store f)) (data i) ds /\
    contents (sec_view st) (data i) ds = contents (sec_view (store f)) (data i) ds.
  { apply rep_frame; [done| |].
    - intros t Ht. apply Hother. by intros ->.
    - intros k ix t Hk Hp u Hu. apply Hother. intros ->. by eapply Hix. }
  split_and!; [done| |congruence| |done].
  - split; try done; simpl; [congruence|congruence].
  - rw Hv decide_True // splice_whole // Hlen Hv1 Hd0. apply length_encode. by destruct Hwf.
Qed.

Definition valid_name (name : list Z) : bool :=
  negb ((Z.of_nat (List.length name) =? 0) || (NAME_MAX <? Z.of_nat (List.length name))).

(** The first free slot. *)
Lemma free_slot n f a i ds es stack :
  directory n f a i ds es -> List.length stack = Z.to_nat ENTRY_SIZE -> (exists e, e ∈ es /\ in_use e = false) ->
  exists es1 e es2 f', es = es1 ++ e :: es2 /\ in_use e = false /\
    scan_dir (fun e => Ok (negb (in_use e))) f a stack =
      Ok (true, e, ENTRY_SIZE * Z.of_nat (List.length es1), f') /\ reads n f f'.
Proof.
  intros Hd Hs (e0 & He0 & Hu0).
  destruct (scan_dir_ok n f a i ds (fun e => Ok (negb (in_use e))) (fun e => negb (in_use e)) es stack) as (f' & E & Hr); try done.
  destruct (search _ es 0 stack) as [[[] x] o] eqn:Es.
  - apply search_found in Es as (k & Hk & Hu%negb_true_iff & ->). have Hk' := lookup_lt_Some _ _ _ Hk.
    exists (take k es), x, (drop (S k) es), f'. split_and!; try done; [by rw take_drop_middle|].
    rw E length_take Z.add_0_l. do 5 f_equal. lia.
  - have := search_missing _ _ _ _ _ _ Es e0 He0. by rw Hu0.
Qed.

Lemma dir_add_ok n F f d i ds es name sec stack d0 :
  directory (n + 25) f (dinode d) i ds es -> 0 <= n -> 0 ∉ name -> List.length stack = Z.to_nat ENTRY_SIZE ->
  (exists e, e ∈ es /\ in_use e = false) ->
  0 <= sec < sec_count (store f) -> sec < 2 ^ 32 -> separate (sec_view (store f)) (data i) ds sec ->
  sec_view (store f) sec = encode d0 -> disk_wf d0 ->
  valid_name name = true -> dir_map es !! name = None ->
  exists st es', dir_add F f d name sec stack = Ok (true, set_store f st) /\
    directory n (set_store f st) (dinode d) i ds es' /\ sec_count st = sec_count (store f) /\
    dir_map es' = <[name := sec]> (dir_map es) /\
    sec_view st sec = encode (set_parent d0 (isector i)) /\
    (forall t, t ∉ ds -> t <> sec -> sec_view st t = sec_view (store f) t) /\
    exists e, List.length e = Z.to_nat ENTRY_SIZE /\ used es' ≡ₚ new_entry e name sec :: used es.
Proof.
  intros Hd Hn Hnm Hs Hfree Hsec Hsec' Hsep Hd0 Hwf0 Hval Hmap. rw /dir_add.
  apply negb_true_iff in Hval as Hval'. rw Hval'. apply orb_false_iff in Hval' as [_ Hle%Z.ltb_ge].
  destruct (lookup_ok _ _ _ _ _ _ _ stack Hd Hnm Hs) as (r & f1 & E1 & Hr1 & Hres). rw E1. cbn [obind].
  destruct r as [[e0 o0]|]; [destruct Hres as (? & ? & _ & _ & _ & _ & ?); congruence|].
  have Hd1 := directory_reads _ _ _ _ _ _ _ Hd Hr1.
  destruct (free_slot _ _ _ _ _ _ stack Hd1 Hs Hfree) as (es1 & e & es2 & f2 & -> & Hue & E2 & Hr2). rw E2. cbn [obind].
  have Hd2 := directory_reads _ _ _ _ _ _ _ Hd1 Hr2. have Hr := reads_trans _ _ _ _ Hr1 Hr2.
  have Hwf := dr_entries _ _ _ _ _ _ Hd.
  have Hle' : List.length e = Z.to_nat ENTRY_SIZE.
  { destruct Hwf as [Hf _]. apply Forall_app in Hf as [_ Hf]. by inversion Hf as [|? ? [? _] _]. }
  destruct (entries_add es1 e es2 (new_entry e name sec)) as [Hwf' Hmap']; try done;
    [by apply new_entry_wf|by apply new_entry_in_use|by rw new_entry_name|].
  rw new_entry_name // new_entry_sector // in Hmap'; [lia|].
  have H25 : n + 25 = n + 1 + ENTRY_SIZE by rw /ENTRY_SIZE; lia. rw H25 in Hd2.
  destruct (write_entry (n + 1) F f2 (dinode d) i ds es1 e es2 (new_entry e name sec) Hd2) as (st3 & E3 & Hd3 & Hc3 & Hv3);
    [lia|by apply new_entry_length|done|].
  rw -/(new_entry e name sec) E3. cbn [obind]. rw Z.eqb_refl.
  rw /inode_get_inumber /get_inode (dr_open _ _ _ _ _ _ Hd3). cbn [oget obind].
  destruct Hr as (st2 & -> & _ & Hc2 & Hv2). simpl in *.
  have Hv3' : forall t, t ∉ ds -> sec_view st3 t = sec_view (store f) t by intros t Ht; rw Hv3.
  destruct (inode_set_parent_ok n (set_store f st3) (dinode d) i ds (es1 ++ new_entry e name sec :: es2) sec (isector i) d0)
    as (st4 & E4 & Hd4 & Hc4 & Hp4 & Hv4); try done; simpl.
  - rw Hc3 Hc2. lia.
  - eapply separate_frame; [apply (dr_rep _ _ _ _ _ _ Hd)|done|done].
  - rw Hv3'; [by destruct Hsep|done].
  - have Hss : forall s s', set_store (set_store f s) s' = set_store f s' by done. rw Hss E4. cbn [obind negb].
    exists st4, (es1 ++ new_entry e name sec :: es2). split_and!; try done; [simpl in *; congruence| |].
    + intros t Ht Hts. simpl in *. by rw Hv4 // Hv3'.
    + exists e. split; [done|]. have Hp := used_app es1 (new_entry e name sec) es2. rw new_entry_in_use // in Hp.
      have Hq := used_app es1 e es2. rw Hue in Hq. by rw Hp -Hq.
Qed.

(** [dir_remove] on a file that is open elsewhere. *)
Lemma dir_remove_ok n F f d i ds es name stack s b j :
  directory (n + ENTRY_SIZE) f (dinode d) i ds es -> 0 <= n -> 0 ∉ name -> List.length stack = Z.to_nat ENTRY_SIZE ->
  dir_map es !! name = Some s -> find_open f (open_inodes f) s = Ok (Some b) -> b <> dinode d ->
  inodes f !! b = Some j -> 1 <= open_cnt j < INT_MAX ->
  exists f' es', dir_remove F f d name stack = Ok (true, f') /\
    directory n f' (dinode d) i ds es' /\ dir_map es' = delete name (dir_map es) /\
    inodes f' = <[b := set_removed j true]> (inodes f) /\ open_inodes f' = open_inodes f /\
    forall t, t ∉ ds -> sec_view (store f') t = sec_view (store f) t.
Proof.
  intros Hd Hn Hnm Hs Hmap Hfind Hb Hj Hcnt. rw /dir_remove.
  destruct (lookup_ok _ _ _ _ _ _ _ stack Hd Hnm Hs) as (r & f1 & E1 & Hr1 & Hres). rw E1. cbn [obind].
  destruct r as [[e ofs]|]; [|congruence]. destruct Hres as (es1 & es2 & -> & -> & Hu & Hen & Hse).
  have Hs' : inode_sector e = s by congruence. rw Hs'.
  have Hd1 := directory_reads _ _ _ _ _ _ _ Hd Hr1. destruct Hr1 as (st1 & -> & Hok1 & Hc1 & Hv1).
  have Hfind1 : forall l, find_open (set_store f st1) l s = find_open f l s.
  { induction l as [|c l IH]; [done|]. simpl. by rw IH. }
  rw /inode_open Hfind1 Hfind. cbn [obind]. rw /inode_reopen /get_inode. cbn [inodes set_store]. rw Hj. cbn [oget obind].
  rw swrap_small; [lia|unfold INT_MAX in *; lia|].
  set (f2 := put_inode (set_store f st1) b (set_open_cnt j (open_cnt j + 1))).
  have Hd2 : directory (n + ENTRY_SIZE) f2 (dinode d) i ds (es1 ++ e :: es2).
  { destruct Hd1 as [H1 H2 H3 H4 H5 H6 H7 H8]. split; try done. rw lookup_insert_ne //. }
  have Hwf := dr_entries _ _ _ _ _ _ Hd.
  have Hle' : List.length e = Z.to_nat ENTRY_SIZE.
  { destruct Hwf as [Hf _]. apply Forall_app in Hf as [_ Hf]. by inversion Hf as [|? ? [? _] _]. }
  destruct (entries_remove es1 e es2 (set_in_use e false)) as [Hwf' Hmap']; try done;
    [by apply cleared_wf|by apply set_in_use_in_use|].
  destruct (write_entry n F f2 (dinode d) i ds es1 e es2 (set_in_use e false) Hd2) as (st3 & E3 & Hd3 & Hc3 & Hv3);
    [lia|by apply set_in_use_length|done|].
  rw E3. cbn [obind]. rw Z.eqb_refl. cbn [negb].
  rw /inode_remove /get_inode /inode_close /get_inode. cbn [inodes set_store f2 put_inode set_inodes].
  rw lookup_insert_eq. cbn [oget obind]. rw lookup_insert_eq. cbn [oget obind open_cnt set_removed set_open_cnt].
  rw swrap_small; [lia|unfold INT_MAX in *; lia|]. rw (proj2 (Z.eqb_neq _ _)); [lia|].
  eexists _, (es1 ++ set_in_use e false :: es2). split; [reflexivity|]. split_and!; try done.
  - destruct Hd3 as [H1 H2 H3 H4 H5 H6 H7 H8]. split; try done. simpl. rw !lookup_insert_ne //.
    by have := dr_open _ _ _ _ _ _ Hd.
  - by rw Hmap' Hen.
  - simpl. rw !insert_insert_eq. f_equal. destruct j. rw /set_open_cnt /set_removed /=. f_equal. lia.
  - intros t Ht. simpl. simpl in Hv3. by rw Hv3 // Hv1.
Qed.
End dir_io.

(** ** Examples: a directory with one file and one free slot *)
Definition ex_entry (name : list Z) (sec : Z) : list Z := new_entry (replicate 24 0) name sec.
Definition ex_entries : list (list Z) := [ex_entry [102; 111; 111] 20; replicate 24 0].
Definition ex_dir_disk : inode_disk := mk_disk (5 :: replicate 124 0) 48 1 INODE_MAGIC.
Definition ex_child : inode_disk := mk_disk (replicate 125 0) 0 0 INODE_MAGIC.
Definition ex_dir_device : block :=
  mk_block "hdb1" BLOCK_FILESYS 100 (<[20 := encode ex_child]> (<[5 := mjoin ex_entries ++ replicate 464 0]> ∅)) 0 0.
Definition ex_dir_inode : inode := mk_inode 2 1 false 0 false 8 ex_dir_disk.
Definition ex_file_inode : inode := mk_inode 20 1 false 0 false 10 ex_child.
Definition ex_dir_fs : fs cache_state :=
  mk_fs (cache_init ex_dir_device) [] (mk_bitmap 100 []) false None [9; 7]
    (<[9 := ex_file_inode]> {[7 := ex_dir_inode]}) ∅ 11.

Lemma ex_child_wf : disk_wf ex_child.
Proof. rw /disk_wf /ex_child /=. split_and!; try done. repeat constructor; lia. Qed.

Lemma ex_dir_store :
  cache_ok 0 (store ex_dir_fs) /\ forall n, logical (store ex_dir_fs) n = sector_at ex_dir_device n.
Proof.
  apply cache_init_ok; [done|]. intros n. rw /sector_at /ex_dir_device. cbn [content].
  rw !lookup_insert. repeat case_decide; simpl; [apply length_encode, ex_child_wf|reflexivity|].
  apply length_replicate.
Qed.

Lemma ex_dir_ok n : n <= INT_MAX -> sec_ok n (store ex_dir_fs).
Proof. intros. exists 0. split_and!; [apply ex_dir_store|done|lia]. Qed.

Lemma ex_dir_rep : rep (sec_view (store ex_dir_fs)) (sec_count (store ex_dir_fs)) ex_dir_disk [5].
Proof.
  have Hv : sec_view (store ex_dir_fs) = logical (store ex_dir_fs) by done.
  split; try done.
  - apply NoDup_singleton.
  - intros [|k] s; [|done]. intros [= <-]. by vm_compute.
  - intros [|k] s; [|done]. intros [= <-]. exists []. split; [by vm_compute|]. by intros t ?%not_elem_of_nil.
  - intros s _. rw Hv. apply (length_logical 0). apply ex_dir_store.
Qed.

Lemma ex_entries_wf : entries_wf ex_entries.
Proof.
  split.
  - apply Forall_cons. split; [by apply new_entry_wf|]. apply Forall_cons. split; [|constructor].
    split; [done|]. intros H. by vm_compute in H.
  - vm_compute. apply NoDup_singleton.
Qed.

Lemma ex_directory n : n <= INT_MAX -> directory n ex_dir_fs 7 ex_dir_inode [5] ex_entries.
Proof.
  intros Hn. split; [by apply ex_dir_ok|done|done|done|done|apply ex_dir_rep| |apply ex_entries_wf].
  by vm_compute.
Qed.

Lemma ex_separate s : s <> 5 -> separate (sec_view (store ex_dir_fs)) ex_dir_disk [5] s.
Proof.
  intros Hs. split; [by rw list_elem_of_singleton|]. intros [|k] ix t Hk; [|simpl in Hk; lia].
  rw /path /=. intros [= <- <-]. apply not_elem_of_nil.
Qed.

Lemma ex_child_sector : sec_view (store ex_dir_fs) 20 = encode ex_child.
Proof. have [_ H] := ex_dir_store. exact (H 20). Qed.

(** [dir_lookup] on an intact directory opens the inode of exactly the
    sector that the directory maps the name to, and fails without opening
    anything when there is no entry in use with that name. *)
Theorem dir_lookup_correct {St : Type} {ops : SectorOps St} {laws : SectorStore St}
    (n : Z) (f : fs St) (d : dir) (i : inode) (ds : list Z) (es : list (list Z)) (name stack : list Z) :
  directory n f (dinode d) i ds es -> 0 ∉ name -> List.length stack = Z.to_nat ENTRY_SIZE ->
  exists f', reads n f f' /\
    dir_lookup f d name stack =
      match dir_map es !! name with Some s => inode_open f' s | None => Ok (None, f') end.
Proof.
  intros Hd Hn Hs. destruct (lookup_ok _ _ _ _ _ _ _ stack Hd Hn Hs) as (r & f' & E & Hr & Hres).
  exists f'. split; [done|]. rw /dir_lookup E. cbn [obind].
  destruct r as [[e ofs]|]; [destruct Hres as (_ & _ & _ & _ & _ & _ & ->)|rw Hres]; done.
Qed.

Lemma dir_lookup_correct_witness :
  exists f', reads 0 ex_dir_fs f' /\
    dir_lookup ex_dir_fs (mk_dir 7 0) [102; 111; 111] (replicate 24 77) = inode_open f' 20.
Proof.
  apply (dir_lookup_correct 0 ex_dir_fs (mk_dir 7 0) ex_dir_inode [5] ex_entries [102; 111; 111]);
    [by apply ex_directory|by apply (bool_decide_unpack _)|done].
Defined.

(** C14: [dir_add] on a directory with a free slot.  With a valid name that is
    not in use it succeeds: the directory then maps the name to the sector and
    every other name to what it was before, stays intact, and the child's
    inode records the directory as its parent; no other sector changes.  An
    empty or too long name, or one in use, is refused and nothing changes. *)
Theorem dir_add_correct {St : Type} {ops : SectorOps St} {laws : SectorStore St}
    (n : Z) (F : fm_ops St) (f : fs St) (d : dir) (i : inode) (ds : list Z) (es : list (list Z))
    (name : list Z) (sec : Z) (stack : list Z) (d0 : inode_disk) :
  directory (n + 25) f (dinode d) i ds es -> 0 <= n -> 0 ∉ name -> List.length stack = Z.to_nat ENTRY_SIZE ->
  (exists e, e ∈ es /\ in_use e = false) ->
  0 <= sec < sec_count (store f) -> sec < 2 ^ 32 -> separate (sec_view (store f)) (data i) ds sec ->
  sec_view (store f) sec = encode d0 -> disk_wf d0 ->
  (valid_name name = true /\ dir_map es !! name = None ->
    exists f' es', dir_add F f d name sec stack = Ok (true, f') /\
      directory n f' (dinode d) i ds es' /\ dir_map es' = <[name := sec]> (dir_map es) /\
      sec_view (store f') sec = encode (set_parent d0 (isector i)) /\
      forall t, t ∉ ds -> t <> sec -> sec_view (store f') t = sec_view (store f) t) /\
  (valid_name name = false \/ dir_map es !! name <> None ->
    exists f', dir_add F f d name sec stack = Ok (false, f') /\ reads (n + 25) f f').
Proof.
  intros Hd Hn Hnm Hs Hfree Hsec Hsec' Hsep Hd0 Hwf0. split.
  - intros [Hval Hmap].
    destruct (dir_add_ok n F f d i ds es name sec stack d0) as (st & es' & E & Hd' & _ & Hm & Hp & Hv & _); try done.
    by exists (set_store f st), es'.
  - intros Hbad. destruct (valid_name name) eqn:Hval.
    + destruct Hbad as [?|Hin]; [done|]. apply negb_true_iff in Hval. rw /dir_add Hval.
      destruct (lookup_ok _ _ _ _ _ _ _ stack Hd Hnm Hs) as (r & f1 & E1 & Hr1 & Hres).
      exists f1. rw E1. cbn [obind]. by destruct r as [[]|].
    + apply negb_false_iff in Hval. exists f. rw /dir_add Hval. split; [done|]. apply reads_refl.
      by destruct Hd.
Qed.

Lemma dir_add_correct_witness :
  exists f' es', dir_add ex_fm ex_dir_fs (mk_dir 7 0) [98; 97; 114] 20 (replicate 24 77) = Ok (true, f') /\
    directory 0 f' 7 ex_dir_inode [5] es' /\ dir_map es' = <[[98; 97; 114] := 20]> (dir_map ex_entries) /\
    sec_view (store f') 20 = encode (set_parent ex_child 2) /\
    forall t, t ∉ [5] -> t <> 20 -> sec_view (store f') t = sec_view (store ex_dir_fs) t.
Proof.
  apply (dir_add_correct 0 ex_fm ex_dir_fs (mk_dir 7 0) ex_dir_inode [5] ex_entries [98; 97; 114] 20
    (replicate 24 77) ex_child).
  - by apply ex_directory.
  - done.
  - by apply (bool_decide_unpack _).
  - done.
  - exists (replicate 24 0). split; [by apply list_elem_of_further, list_elem_of_here|by vm_compute].
  - by vm_compute.
  - done.
  - by apply ex_separate.
  - apply ex_child_sector.
  - apply ex_child_wf.
  - split; by vm_compute.
Defined.

(** C15: [dir_remove] of a file that is open elsewhere: the directory loses
    exactly that name and stays intact, the inode object stays open and is
    marked as removed, with its open count as it was, and no sector outside the
    directory changes: whoever has the file open can go on using it. *)
Theorem dir_remove_open_file {St : Type} {ops : SectorOps St} {laws : SectorStore St}
    (n : Z) (F : fm_ops St) (f : fs St) (d : dir) (i : inode) (ds : list Z) (es : list (list Z))
    (name stack : list Z) (s b : Z) (j : inode) :
  directory (n + ENTRY_SIZE) f (dinode d) i ds es -> 0 <= n -> 0 ∉ name -> List.length stack = Z.to_nat ENTRY_SIZE ->
  dir_map es !! name = Some s -> find_open f (open_inodes f) s = Ok (Some b) -> b <> dinode d ->
  inodes f !! b = Some j -> 1 <= open_cnt j < INT_MAX ->
  exists f' es', dir_remove F f d name stack = Ok (true, f') /\
    directory n f' (dinode d) i ds es' /\ dir_map es' = delete name (dir_map es) /\
    inodes f' = <[b := set_removed j true]> (inodes f) /\ open_inodes f' = open_inodes f /\
    forall t, t ∉ ds -> sec_view (store f') t = sec_view (store f) t.
Proof. apply dir_remove_ok. Qed.

Lemma dir_remove_open_file_witness :
  exists f' es', dir_remove ex_fm ex_dir_fs (mk_dir 7 0) [102; 111; 111] (replicate 24 77) = Ok (true, f') /\
    directory 0 f' 7 ex_dir_inode [5] es' /\ dir_map es' = delete [102; 111; 111] (dir_map ex_entries) /\
    inodes f' = <[9 := set_removed ex_file_inode true]> (inodes ex_dir_fs) /\
    open_inodes f' = open_inodes ex_dir_fs /\
    forall t, t ∉ [5] -> sec_view (store f') t = sec_view (store ex_dir_fs) t.
Proof.
  apply (dir_remove_open_file 0 ex_fm ex_dir_fs (mk_dir 7 0) ex_dir_inode [5] ex_entries [102; 111; 111]
    (replicate 24 77) 20 9 ex_file_inode).
  - by apply ex_directory.
  - done.
  - by apply (bool_decide_unpack _).
  - done.
  - by vm_compute.
  - by vm_compute.
  - done.
  - by vm_compute.
  - by vm_compute.
Defined.
