(* ===== verification/FreeMap.v ===== *)
(** * The free map on the disk (filesys/free-map.c)

    What [free_map_allocate], [free_map_release] and [free_map_open] do to the
    bitmap in memory and to the file that holds it; opening and closing an inode
    (inode.c).  The operations are in File.v and Inode.v.

    The theorem: what is allocated or released is on the device after a flush of the
    buffer cache, and opening the free map on a machine started from the device finds
    it. *)
From S2P Require Import Prelude Block Bitmap Store Cache Inode InodeIO File Dir.

(** ** Opening and closing inodes *)
Section open.
Context {St : Type} {ops : SectorOps St} {laws : SectorStore St}.
Implicit Types (f : fs St) (F : fm_ops St).

(** No open inode is that of sector [s]. *)
Definition not_open f (s : Z) : Prop := forall a, a ∈ open_inodes f -> exists i, inodes f !! a = Some i /\ isector i <> s.
Lemma find_open_none f s : not_open f s -> find_open f (open_inodes f) s = Ok None.
Proof.
  rw /not_open. generalize (open_inodes f) as l. induction l as [|a l IH]; intros H; [done|]. simpl.
  destruct (H a) as (i & Hi & Hs); [left|]. rw /get_inode Hi. cbn [oget obind]. rw (proj2 (Z.eqb_neq _ _) Hs). apply IH. intros b Hb. apply H. by right.
Qed.

(** The state after [inode_open] of a sector that is not open. *)
Definition with_inode f (st : St) (s : Z) (d : inode_disk) : fs St :=
  mk_fs st (mem f) (free_map f) (free_map_lock f) (free_map_file f) (next_addr f :: open_inodes f)
    (<[next_addr f := mk_inode s 1 false 0 false (next_addr f + 1) d]> (inodes f)) (<[next_addr f + 1 := false]> (dir_locks f)) (next_addr f + 2).

Lemma inode_open_new n f s : sec_ok n (store f) -> mem f = [] -> not_open f s -> 0 <= s < sec_count (store f) ->
  exists st, inode_open f s = Ok (Some (next_addr f), with_inode f st s (decode (sec_view (store f) s))) /\
    sec_ok n st /\ sec_count st = sec_count (store f) /\ forall t, sec_view st t = sec_view (store f) t.
Proof.
  intros Hok Hm Hno Hs. rw /inode_open find_open_none //. cbn [obind]. rw /calloc Hm. cbn [negb ASSERT obind mem set_open]. rw Hm. cbn [negb ASSERT obind].
  match goal with |- context [read_disk ?g s] => destruct (read_disk_ok n g s) as (f' & E & (st & -> & Ho & Hc & Hv)) end; [done..|].
  rw E. cbn [obind]. exists st. by split_and!.
Qed.

(** The last close of an inode that has not been removed. *)
Definition without_inode f (a : Z) : fs St :=
  set_inodes (set_open f (filter (fun b => b <> a) (open_inodes f))) (delete a (inodes f)).
Lemma inode_close_last F f a i : inodes f !! a = Some i -> open_cnt i = 1 -> removed i = false -> inode_close F f (Some a) = Ok (without_inode f a).
Proof.
  intros Hi Hc Hr. rw /inode_close /get_inode Hi. cbn [oget obind open_cnt set_open_cnt]. rw Hc. change (s32 (1 - 1) =? 0) with true. cbn iota.
  cbn [removed set_open_cnt]. rw Hr. cbn [obind]. rw /without_inode /put_inode. simpl. by rw delete_insert_eq.
Qed.
Lemma inode_close_freed F f a : inode_close F (without_inode f a) (Some a) = Err Fault.
Proof. rw /inode_close /get_inode /without_inode. simpl. by rw lookup_delete_eq. Qed.

Lemma inode_get_parent_ok n f s : sec_ok n (store f) -> mem f = [] -> 0 <= s < sec_count (store f) ->
  exists f', inode_get_parent f s = Ok (parent (decode (sec_view (store f) s)), f') /\ reads n f f'.
Proof.
  intros Hok Hm Hs. rw /inode_get_parent /calloc Hm. cbn [negb]. destruct (read_disk_ok n f s Hok Hs) as (f' & E & Hr). rw E. cbn [obind]. by exists f'.
Qed.
End open.

(** ** The bitmap and its file *)
Definition map_bytes (b : bitmap) : list Z := words_bytes (bits b).
Lemma length_map_bytes b : wf b -> Z.of_nat (List.length (map_bytes b)) = bitmap_file_size b.
Proof. intros (_ & Hl & _). rw /map_bytes length_words_bytes /bitmap_file_size /byte_cnt -Hl. lia. Qed.

Section free_map.
Context {St : Type} {ops : SectorOps St} {laws : SectorStore St}.
Implicit Types (f : fs St) (F : fm_ops St).

(** The free map is open as the file [fl] with the inode [i], whose data sectors
    are [ds], and the file holds the bitmap. *)
Record map_file (n : Z) f (fl : file) (i : inode) (ds : list Z) : Prop := {
  mf_ok : sec_ok n (store f);
  mf_mem : mem f = [];
  mf_unlocked : free_map_lock f = false;
  mf_wf : wf (free_map f);
  mf_file : free_map_file f = Some fl;
  mf_open : inodes f !! finode fl = Some i;
  mf_grow : grow_lock i = false;
  mf_deny : deny_write_cnt i = 0;
  mf_rep : rep (sec_view (store f)) (sec_count (store f)) (data i) ds;
  mf_length : length (data i) = bitmap_file_size (free_map f);
  mf_contents : contents (sec_view (store f)) (data i) ds = map_bytes (free_map f) }.

(** [bitmap_write] of a bitmap of the same size. *)
Lemma write_map_ok n F f fl i ds b : inodes f !! finode fl = Some i -> grow_lock i = false -> deny_write_cnt i = 0 -> mem f = [] ->
  rep (sec_view (store f)) (sec_count (store f)) (data i) ds -> length (data i) = bitmap_file_size b -> wf b ->
  sec_ok (n + bitmap_file_size b) (store f) -> 0 <= n ->
  exists st, write_map F f b fl = Ok (true, set_store f st) /\ sec_ok n st /\ sec_count st = sec_count (store f) /\
    rep (sec_view st) (sec_count st) (data i) ds /\ contents (sec_view st) (data i) ds = map_bytes b /\
    forall t, t ∉ ds -> sec_view st t = sec_view (store f) t.
Proof.
  intros Hi Hg Hd Hm Hr Hl Hw Hok Hn. have Hlb := length_map_bytes b Hw. rw /write_map /file_write_at.
  have -> : take (Z.to_nat (bitmap_file_size b)) (words_bytes (bits b)) = map_bytes b by apply take_ge; rw -Hlb Nat2Z.id.
  destruct (inode_write_at_inside n F f (finode fl) i ds (map_bytes b) 0) as (st & E & [Ho Hc Hr' Hco Hfr]); try done; [by rw Hlb|lia..|].
  rw E. cbn [obind]. exists st. split_and!; try done; [by rw /bitmap_write -/(bitmap_file_size b) -Hlb Z.eqb_refl|by rw Hc|].
  rw Hco splice_whole //. apply Nat2Z.inj. by rw (length_contents _ _ _ _ Hr) Hl Hlb.
Qed.

Lemma map_file_after n f fl i ds b st : map_file n f fl i ds -> wf b -> bit_cnt b = bit_cnt (free_map f) ->
  sec_ok n st -> rep (sec_view st) (sec_count st) (data i) ds -> contents (sec_view st) (data i) ds = map_bytes b ->
  map_file n (set_map (set_store f st) b) fl i ds.
Proof. intros [] Hw Hb Hok Hr Hc. split; try done. by rw /bitmap_file_size /= Hb. Qed.

(** [free_map_allocate]: the first free group becomes used, in memory and on the disk. *)
Lemma free_map_allocate_ok n F f fl i ds c : map_file (n + bitmap_file_size (free_map f)) f fl i ds -> 0 <= n -> 0 <= c ->
  exists r b st, free_map_allocate F f c = Ok (r, set_map (set_store f st) b) /\ map_file n (set_map (set_store f st) b) fl i ds /\
    bit_cnt b = bit_cnt (free_map f) /\ sec_count st = sec_count (store f) /\ (forall t, t ∉ ds -> sec_view st t = sec_view (store f) t) /\
    match r with
    | None => b = free_map f /\ forall k, 0 <= k -> k + c <= bit_cnt b -> ~ range_is b k c false
    | Some s => first_fit (free_map f) 0 c false s /\ forall j, 0 <= j -> bit b j = ((s <=? j) && (j <? s + c) || bit (free_map f) j)
    end.
Proof.
  intros H Hn Hc. have Hsz : 0 <= bitmap_file_size (free_map f) by rw -(length_map_bytes _ (mf_wf _ _ _ _ _ H)); lia.
  have H0 : map_file n f fl i ds by destruct H; split; try done; apply (sec_ok_mono (n + bitmap_file_size (free_map f))); [done|lia].
  have Hlk := mf_unlocked _ _ _ _ _ H. rw /free_map_allocate Hlk. cbn [negb ASSERT obind]. have [[Hb _] _] := mf_wf _ _ _ _ _ H.
  destruct (bitmap_scan_and_flip_spec (free_map f) 0 c false (mf_wf _ _ _ _ _ H)) as (r & b & E & Hw & Hbc & Hr); [lia..|].
  simpl. rw E. cbn [obind]. rw (mf_file _ _ _ _ _ H). destruct Hr as [(-> & -> & Hr)|(Hne & Hff & Hbits)].
  - cbn. exists None, (free_map f), (store f). split_and!; try done; [|by destruct H0; split].
    f_equal. f_equal. destruct f; simpl in *. by rw /set_map_lock /set_map /= Hlk.
  - have Hne' : (r =? BITMAP_ERROR) = false by apply Z.eqb_neq. rw Hne'. cbn [negb].
    set g := set_map (set_map_lock f true) b.
    destruct (write_map_ok n F g fl i ds b) as (st & Ew & Hok & Hct & Hrep & Hcon & Hfr); try apply H; try done.
    { by rw (mf_length _ _ _ _ _ H) /bitmap_file_size Hbc. }
    { rw /bitmap_file_size Hbc. apply H. }
    rw Ew. cbn [obind negb]. rw Hne'. exists (Some r), b, st. split_and!; try done.
    + f_equal. f_equal. by rw /set_map_lock /set_map /= Hlk.
    + by eapply map_file_after.
Qed.

(** [free_map_release] of sectors that are all used. *)
Lemma free_map_release_ok n F f fl i ds s c : map_file (n + bitmap_file_size (free_map f)) f fl i ds -> 0 <= n -> 0 <= s -> 0 <= c -> s + c <= bit_cnt (free_map f) ->
  range_is (free_map f) s c true ->
  exists b st, free_map_release F f s c = Ok (set_map (set_store f st) b) /\ map_file n (set_map (set_store f st) b) fl i ds /\
    bit_cnt b = bit_cnt (free_map f) /\ sec_count st = sec_count (store f) /\ (forall t, t ∉ ds -> sec_view st t = sec_view (store f) t) /\
    forall j, 0 <= j -> bit b j = (negb ((s <=? j) && (j <? s + c)) && bit (free_map f) j).
Proof.
  intros H Hn Hs Hc Hle Hrange. have Hsz : 0 <= bitmap_file_size (free_map f) by rw -(length_map_bytes _ (mf_wf _ _ _ _ _ H)); lia.
  have H0 : map_file n f fl i ds by destruct H; split; try done; apply (sec_ok_mono (n + bitmap_file_size (free_map f))); [done|lia].
  have Hlk := mf_unlocked _ _ _ _ _ H. have Hwf := mf_wf _ _ _ _ _ H. rw /free_map_release Hlk. cbn [negb ASSERT obind].
  destruct (bitmap_all_spec (free_map f) s c Hwf) as (all & Ea & Hall); [lia..|]. simpl. rw Ea. cbn [obind]. rw (proj2 Hall Hrange). cbn [ASSERT obind].
  destruct (bitmap_set_multiple_spec (free_map f) s c false Hwf) as (b & E & Hw & Hbc & Hbits); [lia..|]. rw E. cbn [obind]. rw (mf_file _ _ _ _ _ H).
  set g := set_map (set_map_lock f true) b.
  destruct (write_map_ok n F g fl i ds b) as (st & Ew & Hok & Hct & Hrep & Hcon & Hfr); try apply H; try done.
  { by rw (mf_length _ _ _ _ _ H) /bitmap_file_size Hbc. }
  { rw /bitmap_file_size Hbc. apply H. }
  rw Ew. cbn [obind]. exists b, st. split_and!; try done.
  - f_equal. by rw /set_map_lock /set_map /= Hlk.
  - by eapply map_file_after.
  - intros j Hj. rw Hbits //. by destruct ((s <=? j) && (j <? s + c)).
Qed.

(** [free_map_open] on a machine that has just been started. *)
Lemma free_map_open_ok n F f i ds b : sec_ok n (store f) -> mem f = [] -> not_open f FREE_MAP_SECTOR -> wf (free_map f) -> wf b ->
  bit_cnt (free_map f) = bit_cnt b -> 0 < bit_cnt b -> 0 < sec_count (store f) -> sec_view (store f) FREE_MAP_SECTOR = encode (data i) -> disk_wf (data i) ->
  rep (sec_view (store f)) (sec_count (store f)) (data i) ds -> length (data i) = bitmap_file_size b ->
  contents (sec_view (store f)) (data i) ds = map_bytes b ->
  exists f', free_map_open F f = Ok f' /\ bit_cnt (free_map f') = bit_cnt b /\ forall j, 0 <= j < bit_cnt b -> bit (free_map f') j = bit b j.
Proof.
  intros Hok Hm Hno Hwf Hwb Hbc Hpos Hcnt Hdisk Hdw Hr Hl Hcon. rw /free_map_open.
  destruct (inode_open_new n f FREE_MAP_SECTOR Hok Hm Hno) as (st & E & Hok' & Hc' & Hv'); [done|]. rw E Hdisk decode_encode //. cbn [obind].
  rw /file_open /calloc. simpl. rw Hm. cbn [obind]. simpl. rw Hbc (proj2 (Z.ltb_lt _ _) Hpos).
  have Hfs : bitmap_file_size (free_map f) = bitmap_file_size b by rw /bitmap_file_size Hbc. rw Hfs.
  set g := set_map_file _ _. rw /file_read_at.
  destruct (inode_read_at_ok n g (next_addr f) (mk_inode FREE_MAP_SECTOR 1 false 0 false (next_addr f + 1) (data i)) ds (bitmap_file_size b) 0) as (f' & Er & (st2 & -> & _)); try done.
  { simpl. by rw lookup_insert_eq. }
  { simpl. rw Hc'. by apply (rep_ext (sec_view (store f))). }
  rw Er. cbn [obind]. rw Hl Z.sub_0_r Z.min_id. simpl. rw (contents_ext (sec_view (store f))) // Hcon slice_full; [by rw length_map_bytes|].
  destruct (bitmap_read_bytes b (free_map f) Hwb Hwf Hbc) as (b' & Eb & Hbc' & Hbits). rw /map_bytes Eb. cbn [obind]. by exists (set_map (set_store g st2) b').
Qed.
End free_map.

(** ** Example: a volume of 32 sectors

    The free map is the file of sector 0 with its bytes in sector 2; the root
    directory is that of sector 1 with its entries in sector 3, and has one file,
    in sector 20, and a free slot. *)
Definition ex_map_disk : inode_disk := mk_disk (2 :: replicate 124 0) 4 1 INODE_MAGIC.
Definition ex_root_disk : inode_disk := mk_disk (3 :: replicate 124 0) 48 1 INODE_MAGIC.
Definition ex_volume : block :=
  mk_block "hdb1" BLOCK_FILESYS 32 (<[0 := encode ex_map_disk]> (<[1 := encode ex_root_disk]>
    (<[2 := [15; 0; 16; 0] ++ replicate 508 0]> (<[3 := mjoin ex_entries ++ replicate 464 0]> (<[20 := encode ex_child]> ∅))))) 0 0.
Definition ex_map : bitmap := mk_bitmap 32 [1048591].
Definition ex_map_inode : inode := mk_inode 0 1 false 0 false 8 ex_map_disk.
Definition ex_map_file : file := mk_file 7 0 false.
Definition ex_vol_fs : fs cache_state :=
  mk_fs (cache_init ex_volume) [] ex_map false (Some ex_map_file) [7] {[7 := ex_map_inode]} {[8 := false]} 9.

Lemma ex_vol_disks : disk_wf ex_map_disk /\ disk_wf ex_root_disk.
Proof. rw /disk_wf /ex_map_disk /ex_root_disk /=. split_and!; try done; repeat constructor; lia. Qed.
Lemma ex_vol_store : cache_ok 0 (store ex_vol_fs) /\ forall n, logical (store ex_vol_fs) n = sector_at ex_volume n.
Proof.
  apply cache_init_ok; [done|]. intros n. rw /sector_at /ex_volume. cbn [content]. rw !lookup_insert. destruct ex_vol_disks as [[H1 _] [H2 _]].
  repeat case_decide; simpl; [by apply length_encode|by apply length_encode|reflexivity|reflexivity|apply length_encode, ex_child_wf|apply length_replicate].
Qed.
Lemma ex_vol_ok n : n <= INT_MAX -> sec_ok n (store ex_vol_fs).
Proof. intros. exists 0. split_and!; [apply ex_vol_store|done|lia]. Qed.
Lemma ex_vol_view s : sec_view (store ex_vol_fs) s = sector_at ex_volume s.
Proof. have [_ H] := ex_vol_store. exact (H s). Qed.
(** A file in one data sector. *)
Lemma ex_vol_rep (d : inode_disk) (s : Z) : List.length (sector d) = Z.to_nat TOTAL_SECTOR_CNT -> 0 < length d <= BLOCK_SECTOR_SIZE -> sector d !! 0%nat = Some s -> 0 <= s < 32 ->
  rep (sec_view (store ex_vol_fs)) (sec_count (store ex_vol_fs)) d [s].
Proof.
  intros Hs Hl H0 Hr. have Hp : path (sec_view (store ex_vol_fs)) d 0 = Some ([], s) by rw /path /= H0.
  split; try done; [rw /INT_MAX; rw /BLOCK_SECTOR_SIZE in Hl; lia|rw /DIV_ROUND_UP; rw /BLOCK_SECTOR_SIZE in Hl |- *; simpl; dlia|apply NoDup_singleton|..].
  - intros [|k] t; [|done]. by intros [= <-].
  - intros [|k] t; [|done]. intros [= <-]. exists []. split; [done|]. by intros t ?%not_elem_of_nil.
  - intros t _. apply (length_logical 0). apply ex_vol_store.
Qed.
Lemma ex_map_ok n : n <= INT_MAX -> map_file n ex_vol_fs ex_map_file ex_map_inode [2].
Proof.
  intros Hn. split; try done; [by apply ex_vol_ok| |by apply ex_vol_rep].
  rw /wf /SIZE_MAX /=. split_and!; try done. repeat constructor; lia.
Qed.

(** The machine is shut down in state [f]: [cache_flush] succeeds, and on a machine that
    starts with an empty cache and the device as it then is, with whatever bits its new
    bitmap has, [free_map_open] finds the bits of [f]. *)
Definition survives (F : fm_ops cache_state) (f : fs cache_state) : Prop :=
  exists st, cache_flush (store f) = Ok st /\
    forall g, store g = cache_init (fs_device st) -> mem g = [] -> not_open g FREE_MAP_SECTOR -> wf (free_map g) -> bit_cnt (free_map g) = bit_cnt (free_map f) ->
    exists g', free_map_open F g = Ok g' /\ forall j, 0 <= j < bit_cnt (free_map f) -> bit (free_map g') j = bit (free_map f) j.
Lemma map_file_survives n F (f : fs cache_state) fl i ds : map_file n f fl i ds -> 0 < bit_cnt (free_map f) -> 0 < sec_count (store f) ->
  sec_view (store f) FREE_MAP_SECTOR = encode (data i) -> disk_wf (data i) -> survives F f.
Proof.
  intros H Hpos Hcnt Hd Hw. destruct (mf_ok _ _ _ _ _ H) as (k & Hk & Hk0 & Hkn). destruct (cache_flush_spec k (store f) Hk Hk0) as (st & E & [Hci _] & Hsz & Hlog & Hdev).
  exists st. split; [done|]. intros g Hg Hm Hno Hwf Hbc.
  destruct (cache_init_ok (fs_device st)) as [Hco Hcl]; [apply Hci|intros t; rw Hdev; apply (length_logical k), Hk|].
  have Hv : forall t, sec_view (store g) t = sec_view (store f) t by intros t; rw Hg; simpl; rw Hcl Hdev.
  have Hc : sec_count (store g) = sec_count (store f) by rw Hg; simpl; rw Hsz.
  destruct (free_map_open_ok 0 F g i ds (free_map f)) as (g' & E' & _ & Hbits); try done; [| | | | |apply H| |by exists g'].
  - rw Hg. exists 0. by split_and!.
  - apply H.
  - by rw Hc.
  - by rw Hv.
  - rw Hc. apply (rep_ext (sec_view (store f))); [apply H|done].
  - rw (contents_ext (sec_view (store f))) //. apply H.
Qed.

(** C24: the free map survives.  [free_map_allocate] of [c] sectors gives the
    first [c] consecutive free sectors, marks these and no others as used, and
    fails, changing nothing, only when there are none; [free_map_release] makes
    used sectors free again and changes no other bit.  In both cases the map is in
    its file when the call returns: if the buffer cache is flushed then,
    [free_map_open] on a machine started from the device alone, with an empty cache,
    finds exactly the map in memory.  This is for a free map whose file is open, of
    the right length and up to date, a free memory allocation, and fewer than
    [INT_MAX] writes since the last flush. *)
Theorem free_map_durable (n : Z) (F : fm_ops cache_state) (f : fs cache_state) (fl : file) (i : inode) (ds : list Z) (s c : Z) :
  map_file (n + bitmap_file_size (free_map f)) f fl i ds -> 0 <= n -> 0 <= c -> 0 < bit_cnt (free_map f) ->
  sec_view (store f) FREE_MAP_SECTOR = encode (data i) -> disk_wf (data i) -> FREE_MAP_SECTOR ∉ ds -> 0 < sec_count (store f) ->
  (exists r f', free_map_allocate F f c = Ok (r, f') /\ map_file n f' fl i ds /\ survives F f' /\
    match r with
    | None => free_map f' = free_map f /\ forall k, 0 <= k -> k + c <= bit_cnt (free_map f) -> ~ range_is (free_map f) k c false
    | Some s => first_fit (free_map f) 0 c false s /\
        forall j, 0 <= j -> bit (free_map f') j = ((s <=? j) && (j <? s + c) || bit (free_map f) j)
    end) /\
  (0 <= s -> s + c <= bit_cnt (free_map f) -> range_is (free_map f) s c true ->
   exists f', free_map_release F f s c = Ok f' /\ map_file n f' fl i ds /\ survives F f' /\
     forall j, 0 <= j -> bit (free_map f') j = (negb ((s <=? j) && (j <? s + c)) && bit (free_map f) j)).
Proof.
  intros H Hn Hc Hpos Hd Hw H0 Hcnt.
  have Hre : forall st b, map_file n (set_map (set_store f st) b) fl i ds -> bit_cnt b = bit_cnt (free_map f) -> sec_count st = sec_count (store f) ->
    (forall t, t ∉ ds -> sec_view st t = sec_view (store f) t) -> survives F (set_map (set_store f st) b).
  { intros st b Hmf Hb Hct Hv. apply (map_file_survives n F _ fl i ds Hmf); cbn [free_map store set_map set_store]; rw ?Hb ?Hct ?Hv //. }
  split.
  - destruct (free_map_allocate_ok n F f fl i ds c H Hn Hc) as (r & b & st & E & Hm & Hbc & Hct & Hv & Hr). exists r, (set_map (set_store f st) b).
    split_and!; [done|done|by apply Hre|]. destruct r; [done|]. by destruct Hr as [-> Hr].
  - intros Hs Hle Hrange. destruct (free_map_release_ok n F f fl i ds s c H Hn Hs Hc Hle Hrange) as (b & st & E & Hm & Hbc & Hct & Hv & Hr).
    exists (set_map (set_store f st) b). split_and!; [done|done|by apply Hre|done].
Qed.

Lemma free_map_durable_witness :
  (exists r f', free_map_allocate (fm 0) ex_vol_fs 1 = Ok (r, f') /\ (r = Some 4 -> bit (free_map f') 4 = true)) /\
  (exists f', free_map_release (fm 0) ex_vol_fs 20 1 = Ok f' /\ bit (free_map f') 20 = false).
Proof.
  destruct (free_map_durable 100 (fm 0) ex_vol_fs ex_map_file ex_map_inode [2] 20 1) as [(r & f' & E & _ & _ & Hr) Hrel].
  1: apply ex_map_ok; by vm_compute.
  1-3: done. 1: by vm_compute. 1: by apply ex_vol_disks. 1: by rw list_elem_of_singleton. 1: done.
  split.
  - exists r, f'. split; [done|]. intros ->. destruct Hr as [_ Hr]. by rw Hr.
  - destruct Hrel as (g & Eg & _ & _ & Hb); [done|by vm_compute| |].
    { intros j Hj. have -> : j = 20 by lia. by vm_compute. }
    exists g. split; [done|]. by rw Hb.
Defined.
