(* ===== verification/FileSys.v ===== *)
(** * filesys/filesys.c: paths, and the operations on named files

    [filesys_parse] walks a path to the directory that holds its last component;
    [filesys_create], [filesys_open] and [filesys_remove] work there.  Strings are
    lists of characters; the pieces of a path are those that the loop of
    [strtok_r] finds (strtok_r_correct of CString.v).  A [struct dir] is passed by
    value, its inode by address: closing an inode that has been freed is a
    [Fault].  [stack] is what local directory entries hold before they are
    written.  [dead] says what is found later in the stack frame of
    [dir_get_entry_name], to which it returns a pointer.  Locks are those of one
    thread.

    The theorems: opening and creating a file by its name in the root directory;
    paths that fail, or have several components, close an inode twice. *)
From S2P Require Import Prelude CString Palloc Block Bitmap Store Cache Inode InodeIO File Dir FreeMap.

Section filesys.
Context {St : Type} `{!SectorOps St}.
Implicit Types (f : fs St) (F : fm_ops St) (d : dir).
Context (stack : list Z) (dead : list Z -> list Z).

(** [lock_acquire] and [lock_release] on the lock of a directory *)
Definition acquire_dir f (lk : option Z) : outcome (fs St) :=
  match lk with
  | None => Ok f
  | Some lk => let! held := @oget bool (dir_locks f !! lk) in assert! negb held in Ok (lock_dir f lk true)
  end.
Definition release_dir f (lk : option Z) : outcome (fs St) :=
  match lk with
  | None => Ok f
  | Some lk => let! held := @oget bool (dir_locks f !! lk) in assert! held in Ok (lock_dir f lk false)
  end.
(** [(dir == NULL) ? NULL : inode_dir_lock (dir_get_inode (dir))] *)
Definition lock_of f (d : option dir) : outcome (option Z) :=
  match d with None => Ok None | Some d => let! lk := inode_dir_lock f (dinode d) in Ok (Some lk) end.

(** [dir_get_inode (d)] for a pointer that may be null *)
Definition deref (d : option dir) : outcome dir := oget d.

(** [dir_open (inode_open (inode_get_parent (sector)))] *)
Definition open_parent F f (sec : Z) : outcome (option dir * fs St) :=
  let! (par, f) := inode_get_parent f sec in
  let! (a, f) := inode_open f par in
  dir_open F f a.

(** [inode_close (dir_get_inode (temp)); dir_close (temp);] *)
Definition close_twice F f d : outcome (fs St) :=
  let! f := inode_close F f (Some (dinode d)) in
  dir_close F f (Some d).

(** The loop over the components: [dst_ptr] is [None] for a null pointer.  The
    result says whether the loop got to the end. *)
Fixpoint parse_loop F f (tokens : list (list Z)) (dir : option dir) (dst_ptr : option (list Z))
    : outcome (bool * option Dir.dir * option (list Z) * fs St) :=
  match tokens with
  | [] => Ok (true, dir, dst_ptr, f)
  | token :: tokens =>
    if NAME_MAX <? Z.of_nat (List.length token) then Ok (false, dir, dst_ptr, f) else
    if decide (token = [46; 46]) then                       (* ".." *)
      let! temp := deref dir in
      let! n := inode_get_inumber f (dinode temp) in
      let! (dir, f) := open_parent F f n in
      let! (dst_ptr, f) :=
        if n =? ROOT_DIR_SECTOR then Ok (None, f)
        else let! d := deref dir in
             let! (s, f) := dir_get_entry_name f d n stack in Ok (Some (dead s), f) in
      let! f := close_twice F f temp in
      parse_loop F f tokens dir dst_ptr
    else if decide (token = [46]) then parse_loop F f tokens dir dst_ptr       (* "." *)
    else
      match dst_ptr with
      | None => parse_loop F f tokens dir (Some token)
      | Some name =>
        let! temp := deref dir in
        let! (inode, f) := dir_lookup f temp name stack in
        match inode with
        | None => Ok (false, dir, dst_ptr, f)
        | Some a =>
          let! (dir, f) := dir_open F f (Some a) in
          let! f := close_twice F f temp in
          parse_loop F f tokens dir (Some token)
        end
      end
  end.

(** The directory, the name and [is_dir]; [None] when it returns false.  The copy
    of the path goes to one page; a longer path does not fit. *)
Definition filesys_parse F f (cur_dir : Z) (name_ : list Z) : outcome (option (option dir * list Z * bool) * fs St) :=
  let (page, f) := calloc f in
  assert! page in
  if PGSIZE <=? Z.of_nat (List.length name_) then Err Fault else
  match name_ with
  | [] => Ok (None, f)
  | c :: _ =>
    let start := if c =? 47 then ROOT_DIR_SECTOR else cur_dir in
    let! (dir, f) := open_parent F f start in
    let! (dst_ptr, f) :=
      if negb (start =? ROOT_DIR_SECTOR)
      then let! d := deref dir in let! (s, f) := dir_get_entry_name f d start stack in Ok (Some (dead s), f)
      else Ok (None, f) in
    let! (success, dir, dst_ptr, f) := parse_loop F f (tokens [47] name_) dir dst_ptr in
    if success then
      Ok (Some (dir, take (Z.to_nat NAME_MAX) (default [] dst_ptr), bool_decide (last name_ = Some 47)), f)
    else
      let! d := deref dir in
      let! f := close_twice F f d in
      Ok (None, f)
  end.

(** ** Named files *)
Definition filesys_create F f (cur_dir : Z) (name : list Z) (initial_size : Z) : outcome (bool * fs St) :=
  let! (r, f) := filesys_parse F f cur_dir name in
  let dir := match r with Some (dir, _, _) => dir | None => None end in
  let! (success, inode_sector, parsed_name, f) :=
    match r with
    | Some (Some _, parsed_name, is_dir) =>
      if (0 <? Z.of_nat (List.length parsed_name)) && negb is_dir then
        let! (s, f) := free_map_allocate F f 1 in
        match s with
        | None => Ok (false, 0, parsed_name, f)
        | Some s => let! (ok, f) := inode_create F f s initial_size in Ok (ok, s, parsed_name, f)
        end
      else Ok (false, 0, parsed_name, f)
    | _ => Ok (false, 0, [], f)
    end in
  let! lock := lock_of f dir in
  let! f := acquire_dir f lock in
  let! (success, f) :=
    match success, dir with
    | true, Some d => dir_add F f d parsed_name inode_sector stack
    | _, _ => Ok (false, f)
    end in
  let! f := match success, dir with
            | true, Some d => dir_entry_clear_dir F f d inode_sector stack
            | _, _ => Ok f
            end in
  let! f := if negb success && negb (inode_sector =? 0) then free_map_release F f inode_sector 1 else Ok f in
  let! f := dir_close F f dir in
  let! f := release_dir f lock in
  Ok (success, f).

(** What [filesys_open_with_is_dir] returns. *)
Inductive opened := NotOpened | OpenedDir (d : option dir) | OpenedFile (fl : option file).

(** [is_dir] is the value of the caller's variable before the call, and the
    second result its value afterwards. *)
Definition filesys_open_with_is_dir F f (cur_dir : Z) (name : list Z) (is_dir : bool) : outcome (opened * bool * fs St) :=
  let! (r, f) := filesys_parse F f cur_dir name in
  match r with
  | Some (Some d, parsed_name, dummy) =>
    if Z.of_nat (List.length parsed_name) =? 0 then Ok (OpenedDir (Some d), is_dir, f) else
    let! lock := lock_of f (Some d) in
    let! f := acquire_dir f lock in
    let! (inode, f) := dir_lookup f d parsed_name stack in
    let! (is_dir, f) :=
      match inode with
      | Some a => let! n := inode_get_inumber f a in dir_entry_is_dir f d n stack
      | None => Ok (is_dir, f)
      end in
    let! f := dir_close F f (Some d) in
    match inode with
    | None => let! f := release_dir f lock in Ok (NotOpened, is_dir, f)
    | Some a =>
      if negb is_dir && dummy then
        let! f := inode_close F f (Some a) in
        let! f := release_dir f lock in
        Ok (NotOpened, is_dir, f)
      else if is_dir then
        let! f := release_dir f lock in
        let! (d, f) := dir_open F f (Some a) in Ok (OpenedDir d, is_dir, f)
      else
        let! f := release_dir f lock in
        let! (fl, f) := file_open F f (Some a) in Ok (OpenedFile fl, is_dir, f)
    end
  | Some (None, _, _) | None => Ok (NotOpened, is_dir, f)
  end.
Definition filesys_open F f (cur_dir : Z) (name : list Z) (dummy : bool) : outcome (opened * fs St) :=
  let! (r, _, f) := filesys_open_with_is_dir F f cur_dir name dummy in Ok (r, f).

(** [on_dir] is [thread_on_dir] of thread.c (Thread.v). *)
Definition filesys_remove F f (on_dir : Z -> bool) (cur_dir : Z) (name : list Z) : outcome (bool * fs St) :=
  let! (r, f) := filesys_parse F f cur_dir name in
  let dir := match r with Some (dir, _, _) => dir | None => None end in
  let! lock := lock_of f dir in
  let! f := acquire_dir f lock in
  let! (inode, parsed_name, is_dir, f) :=
    match r with
    | Some (Some d, parsed_name, is_dir) =>
      if 0 <? Z.of_nat (List.length parsed_name) then
        let! (inode, f) := dir_lookup f d parsed_name stack in Ok (inode, parsed_name, is_dir, f)
      else Ok (None, parsed_name, is_dir, f)
    | _ => Ok (None, [], false, f)
    end in
  let! (success, f) :=
    match inode, dir with
    | Some a, Some d =>
      let! n := inode_get_inumber f a in
      let! (is_directory, f) := dir_entry_is_dir f d n stack in
      if is_directory then
        let! (temp, f) := dir_open F f (Some a) in
        let! t := deref temp in
        let! (entry, t, f) := dir_readdir f t stack in
        let! used := inode_is_used f a in
        let success := match entry with Some _ => false | None => true end && negb (used || on_dir n) in
        let! f := dir_close F f (Some t) in
        Ok (success, f)
      else Ok (negb is_dir, f)
    | _, _ => Ok (false, f)
    end in
  let! f :=
    match success, dir with
    | true, Some d => let! (ok, f) := dir_remove F f d parsed_name stack in if ok then Ok f else Err Panic
    | _, _ => Ok f
    end in
  let! f := release_dir f lock in
  let! f := inode_close F f inode in
  let! f := dir_close F f dir in
  Ok (success, f).

(** ** Set-up *)
Definition do_format F f : outcome (fs St) :=
  let! f := free_map_create F f in
  let! (ok, f) := dir_create F f ROOT_DIR_SECTOR 16 in
  if negb ok then Err Panic else free_map_close F f.
(** [device_size] is the number of sectors of the device, if there is one, and
    [words] the memory for the free map. *)
Definition filesys_init F f (device_size : option Z) (words : option (list Z)) (format : bool) : outcome (fs St) :=
  match device_size with
  | None => Err Panic
  | Some size =>
    let! f := free_map_init (inode_init f) words size in
    let! f := if format then do_format F f else Ok f in
    free_map_open F f
  end.
(** [cache_flush] of the sector store is a parameter. *)
Definition filesys_done (cache_flush : St -> outcome St) F f : outcome (fs St) :=
  let! st := cache_flush (store f) in
  free_map_close F (set_store f st).
End filesys.

(** ** The kind of an entry *)
Lemma set_is_dir_fields e b : List.length e = Z.to_nat ENTRY_SIZE ->
  List.length (set_is_dir e b) = Z.to_nat ENTRY_SIZE /\ in_use (set_is_dir e b) = in_use e /\ name_bytes (set_is_dir e b) = name_bytes e /\
  inode_sector (set_is_dir e b) = inode_sector e /\ is_dir (set_is_dir e b) = b.
Proof.
  intros H. have Hb : 4 + Z.of_nat (List.length [if b then 1 else 0]) <= Z.of_nat (List.length e) by rw H.
  have Ho : forall k : nat, k <> 4%nat -> set_is_dir e b !!! k = e !!! k.
  { intros k Hne. rw /set_is_dir lookup_total_splice //. case_decide as Hk; [|done]. exfalso. apply Hne. change (Z.to_nat 4) with 4%nat in Hk. simpl in Hk. lia. }
  split_and!.
  - by rw /set_is_dir length_splice.
  - by rw /in_use Ho.
  - by rw /name_bytes /set_is_dir drop_splice_before.
  - by rw /inode_sector !Ho.
  - rw /is_dir /set_is_dir (lookup_total_splice e 4 _ 4) //. by destruct b.
Qed.
Lemma set_is_dir_name e b : List.length e = Z.to_nat ENTRY_SIZE -> entry_name (set_is_dir e b) = entry_name e.
Proof. intros H. rw /entry_name. by destruct (set_is_dir_fields e b H) as (_ & _ & -> & _). Qed.
Lemma set_is_dir_wf e b : entry_wf e -> entry_wf (set_is_dir e b).
Proof. intros [Hl Hw]. destruct (set_is_dir_fields e b Hl) as (Hl' & Hu & Hn & _). split; [done|]. by rw Hu Hn. Qed.

(** Changing the kind of an entry in use. *)
Lemma entries_kind es1 e es2 b : entries_wf (es1 ++ e :: es2) -> in_use e = true ->
  entries_wf (es1 ++ set_is_dir e b :: es2) /\ dir_map (es1 ++ set_is_dir e b :: es2) = dir_map (es1 ++ e :: es2) /\
  used (es1 ++ set_is_dir e b :: es2) ≡ₚ set_is_dir e b :: used (es1 ++ es2).
Proof.
  intros [Hf Hnd] Hu. have Hf' := Hf. apply Forall_app in Hf' as [Hf1 Hf2]. inversion Hf2 as [|? ? He Hf3]; subst. have [Hl _] := He.
  destruct (set_is_dir_fields e b Hl) as (Hl' & Hu' & Hn' & Hs' & _).
  have Hp := used_app es1 e es2. rw Hu in Hp. have Hq := used_app es1 (set_is_dir e b) es2. rw Hu' Hu in Hq.
  have Hnd' : NoDup (entry_name <$> used (es1 ++ set_is_dir e b :: es2)).
  { rw Hq fmap_cons set_is_dir_name //. by rw Hp fmap_cons in Hnd. }
  split_and!; [split; [|done]| |done].
  - apply Forall_app. split; [done|]. constructor; [by apply set_is_dir_wf|done].
  - destruct (dir_map_cons _ _ _ Hq Hnd') as [-> _]. destruct (dir_map_cons _ _ _ Hp Hnd) as [-> _]. by rw set_is_dir_name // Hs'.
Qed.

Section dir_kind.
Context {St : Type} {ops : SectorOps St} {laws : SectorStore St}.
Implicit Types (f : fs St) (F : fm_ops St).

(** The scan for a sector finds the one entry that has it. *)
Lemma scan_sector n f a i ds es e stack : directory n f a i ds es -> NoDup (inode_sector <$> used es) -> e ∈ used es ->
  List.length stack = Z.to_nat ENTRY_SIZE ->
  exists es1 es2 f', es = es1 ++ e :: es2 /\ reads n f f' /\
    scan_dir (has_sector (inode_sector e)) f a stack = Ok (true, e, ENTRY_SIZE * Z.of_nat (List.length es1), f').
Proof.
  intros Hd Hnd He Hs. have [Hu Hin] := proj1 (list_elem_of_filter _ _ _) He.
  destruct (scan_dir_ok n f a i ds (has_sector (inode_sector e)) (fun x => in_use x && (inode_sector e =? inode_sector x)) es stack) as (f' & E & Hr); try done.
  destruct (search _ es 0 stack) as [[[] x] o] eqn:Es.
  - apply search_found in Es as (k & Hk & [Hux Hsx%Z.eqb_eq]%andb_true_iff & ->). have Hx : x ∈ used es by apply list_elem_of_filter; split; [|eapply list_elem_of_lookup_2].
    have ? : x = e. { apply list_elem_of_lookup_1 in Hx as [j Hj]. apply list_elem_of_lookup_1 in He as [j' Hj'].
      have ? : j = j'; [|subst; congruence]. eapply NoDup_lookup; [exact Hnd|rw list_lookup_fmap Hj //|rw list_lookup_fmap Hj' /=; by rw Hsx]. }
    subst x. have Hk' := lookup_lt_Some _ _ _ Hk. exists (take k es), (drop (S k) es), f'. split_and!; [by rw take_drop_middle|done|].
    rw E length_take Z.add_0_l. do 5 f_equal. lia.
  - have := search_missing _ _ _ _ _ _ Es e Hin. by rw Hu Z.eqb_refl.
Qed.

Lemma dir_entry_is_dir_ok n f d i ds es e stack : directory n f (dinode d) i ds es -> NoDup (inode_sector <$> used es) -> e ∈ used es ->
  List.length stack = Z.to_nat ENTRY_SIZE -> exists f', dir_entry_is_dir f d (inode_sector e) stack = Ok (is_dir e, f') /\ reads n f f'.
Proof. intros Hd Hnd He Hs. destruct (scan_sector _ _ _ _ _ _ _ _ Hd Hnd He Hs) as (es1 & es2 & f' & _ & Hr & E). exists f'. by rw /dir_entry_is_dir E. Qed.

Lemma dir_entry_put_ok n F f d i ds es e b stack : directory (n + ENTRY_SIZE) f (dinode d) i ds es -> 0 <= n -> NoDup (inode_sector <$> used es) -> e ∈ used es ->
  List.length stack = Z.to_nat ENTRY_SIZE ->
  exists st es', dir_entry_put F f d (inode_sector e) b stack = Ok (set_store f st) /\ directory n (set_store f st) (dinode d) i ds es' /\
    sec_count st = sec_count (store f) /\ dir_map es' = dir_map es /\ (exists l, used es ≡ₚ e :: l /\ used es' ≡ₚ set_is_dir e b :: l) /\
    forall t, t ∉ ds -> sec_view st t = sec_view (store f) t.
Proof.
  intros Hd Hn Hnd He Hs. destruct (scan_sector _ _ _ _ _ _ _ _ Hd Hnd He Hs) as (es1 & es2 & f' & -> & Hr & E). rw /dir_entry_put E. cbn [obind].
  have [Hu _] := proj1 (list_elem_of_filter _ _ _) He. have Hwf := dr_entries _ _ _ _ _ _ Hd.
  destruct (entries_kind es1 e es2 b Hwf Hu) as (Hwf' & Hm & Hp). have Hl : List.length e = Z.to_nat ENTRY_SIZE.
  { destruct Hwf as [Hf _]. apply Forall_app in Hf as [_ Hf]. by inversion Hf as [|? ? [? _] _]. }
  have Hd' := directory_reads _ _ _ _ _ _ _ Hd Hr. destruct Hr as (st1 & -> & _ & Hc1 & Hv1).
  destruct (write_entry n F (set_store f st1) (dinode d) i ds es1 e es2 (set_is_dir e b) Hd') as (st & E' & Hd2 & Hc & Hv); [done|by apply set_is_dir_fields|done|].
  rw E'. cbn [obind]. exists st, (es1 ++ set_is_dir e b :: es2). simpl in *. split_and!; try done; [congruence| |].
  - exists (used (es1 ++ es2)). split; [|done]. have Hq := used_app es1 e es2. by rw Hu in Hq.
  - intros t Ht. by rw Hv // Hv1.
Qed.
End dir_kind.

(** ** A volume: the root directory and the free map *)
Section volume.
Context {St : Type} {ops : SectorOps St} {laws : SectorStore St}.
Implicit Types (f : fs St) (F : fm_ops St).

(** The root directory is on the disk and not open.  Inodes are open under
    addresses that have been handed out. *)
Record root_closed (n : Z) f (dr : inode_disk) (dsr : list Z) (es : list (list Z)) : Prop := {
  rc_ok : sec_ok n (store f);
  rc_mem : mem f = [];
  rc_count : ROOT_DIR_SECTOR < sec_count (store f);
  rc_shut : not_open f ROOT_DIR_SECTOR;
  rc_fresh : forall a, is_Some (inodes f !! a) -> a < next_addr f;
  rc_disk : sec_view (store f) ROOT_DIR_SECTOR = encode dr;
  rc_wf : disk_wf dr;
  rc_parent : parent dr = ROOT_DIR_SECTOR;
  rc_rep : rep (sec_view (store f)) (sec_count (store f)) dr dsr;
  rc_contents : contents (sec_view (store f)) dr dsr = mjoin es;
  rc_entries : entries_wf es;
  rc_sectors : NoDup (inode_sector <$> used es);
  rc_targets : forall e, e ∈ used es -> ROOT_DIR_SECTOR <> inode_sector e /\ 0 <= inode_sector e < sec_count (store f) }.

(** [open_parent] on the root directory opens it. *)
Lemma open_root n F f dr dsr es : root_closed n f dr dsr es ->
  exists st, open_parent F f ROOT_DIR_SECTOR = Ok (Some (mk_dir (next_addr f) 0), with_inode f st ROOT_DIR_SECTOR dr) /\
    sec_ok n st /\ sec_count st = sec_count (store f) /\ (forall t, sec_view st t = sec_view (store f) t) /\
    directory n (with_inode f st ROOT_DIR_SECTOR dr) (next_addr f) (mk_inode ROOT_DIR_SECTOR 1 false 0 false (next_addr f + 1) dr) dsr es.
Proof.
  intros [Hok Hm Hc Hno Hfr Hd Hwf Hpar Hrep Hcon Hent _ _]. rw /open_parent.
  destruct (inode_get_parent_ok n f ROOT_DIR_SECTOR Hok Hm) as (f1 & E1 & (st1 & -> & Ho1 & Hc1 & Hv1)); [rw /ROOT_DIR_SECTOR in Hc |- *; lia|].
  rw E1 Hd decode_encode // Hpar. cbn [obind].
  destruct (inode_open_new n (set_store f st1) ROOT_DIR_SECTOR) as (st & E & Ho & Hc2 & Hv); try done; [simpl; rw /ROOT_DIR_SECTOR in Hc |- *; lia|].
  rw E. cbn [obind]. rw /dir_open /calloc. simpl. rw Hm. simpl in *. have Hdr : decode (sec_view st1 ROOT_DIR_SECTOR) = dr by rw Hv1 Hd decode_encode.
  exists st. rw Hdr. have Hvv : forall t, sec_view st t = sec_view (store f) t by intros t; rw Hv Hv1. have Hcc : sec_count st = sec_count (store f) by congruence.
  split_and!; try done. split; try done; simpl; [apply lookup_insert_eq|rw Hcc; by apply (rep_ext (sec_view (store f)))|by rw (contents_ext (sec_view (store f)))].
Qed.

(** What a name in a directory is. *)
Definition plain_name (name : list Z) : Prop :=
  0 ∉ name /\ 47 ∉ name /\ name <> [] /\ (List.length name <= Z.to_nat NAME_MAX)%nat /\ name <> [46] /\ name <> [46; 46].
Lemma split_plain name : 0 ∉ name -> 47 ∉ name -> split [47] name = (name, []).
Proof.
  induction name as [|c name IH]; [done|]. intros [H0 Hn0]%not_elem_of_cons [Hc Hn]%not_elem_of_cons. simpl. rw IH //=.
  have -> : member [47] c = false; [|done]. rw /member bool_decide_eq_false_2; [set_solver|]. by rw (proj2 (Z.eqb_neq _ _)).
Qed.
Lemma tokens_plain name : 0 ∉ name -> 47 ∉ name -> name <> [] -> tokens [47] name = [name].
Proof. intros H0 Hn He. rw /tokens split_plain //=. by destruct name. Qed.

(** The path [name] or [/name] of an entry of the root directory. *)
Definition root_path (cur_dir : Z) (path name : list Z) : Prop :=
  plain_name name /\ (path = 47 :: name \/ path = name /\ cur_dir = ROOT_DIR_SECTOR).
Lemma tokens_root cur_dir path name : root_path cur_dir path name -> tokens [47] path = [name].
Proof.
  intros [(H0 & Hn & Hne & _) [->|[-> _]]]; [|by apply tokens_plain]. have E := tokens_plain name H0 Hn Hne. by rw /tokens in E |- *.
Qed.

Lemma parse_plain n F f dr dsr es stack dead cur_dir path name : root_closed n f dr dsr es -> root_path cur_dir path name ->
  exists st, filesys_parse stack dead F f cur_dir path =
      Ok (Some (Some (mk_dir (next_addr f) 0), name, false), with_inode f st ROOT_DIR_SECTOR dr) /\
    sec_ok n st /\ sec_count st = sec_count (store f) /\ (forall t, sec_view st t = sec_view (store f) t) /\
    directory n (with_inode f st ROOT_DIR_SECTOR dr) (next_addr f) (mk_inode ROOT_DIR_SECTOR 1 false 0 false (next_addr f + 1) dr) dsr es.
Proof.
  intros H Hp. have Ht := tokens_root _ _ _ Hp. destruct Hp as [(Hn0 & Hn & Hne & Hl & Hd1 & Hd2) Hp]. rw /filesys_parse /calloc (rc_mem _ _ _ _ _ H). cbn [ASSERT obind].
  have Hlast : last path <> Some 47.
  { have Hx : last name <> Some 47 by rw last_lookup => Hx; apply Hn; by eapply list_elem_of_lookup_2.
    destruct Hp as [->|[-> _]]; [|done]. by destruct name. }
  have Hlen : (List.length path <= S (List.length name))%nat by destruct Hp as [->|[-> _]]; simpl; lia.
  rw (proj2 (Z.leb_gt _ _)); [rw /PGSIZE; rw /NAME_MAX in Hl; lia|]. destruct path as [|c path'] eqn:Hpath; [by destruct Hp as [|[]]; subst|]. rw -Hpath in Hlast Ht |- *.
  have -> : (if c =? 47 then ROOT_DIR_SECTOR else cur_dir) = ROOT_DIR_SECTOR.
  { destruct Hp as [[= -> _]|[_ ->]]; [done|by destruct (c =? 47)]. }
  rw Z.eqb_refl. cbn [negb].
  destruct (open_root n F f dr dsr es H) as (st & E & Hrest). rw E. cbn [obind]. rw Ht. cbn [parse_loop].
  have -> : (NAME_MAX <? Z.of_nat (List.length name)) = false by apply Z.ltb_ge; rw /NAME_MAX in Hl |- *; lia.
  rw !decide_False //. cbn [obind]. exists st. split; [|done]. cbn [default from_option].
  rw take_ge //. by rw bool_decide_eq_false_2.
Qed.
End volume.

(** ** Opening a file by its name *)
Section open_by_name.
Context {St : Type} {ops : SectorOps St} {laws : SectorStore St}.
Implicit Types (f : fs St) (F : fm_ops St).

Lemma root_closed_ext n f f' dr dsr es : root_closed n f dr dsr es -> sec_ok n (store f') -> mem f' = [] ->
  sec_count (store f') = sec_count (store f) -> (forall t, sec_view (store f') t = sec_view (store f) t) ->
  not_open f' ROOT_DIR_SECTOR -> (forall a, is_Some (inodes f' !! a) -> a < next_addr f') -> root_closed n f' dr dsr es.
Proof.
  intros [] Hok Hm Hc Hv Hno Hfr. split; try done; rw ?Hc ?Hv //; [by apply (rep_ext (sec_view (store f)))|by rw (contents_ext (sec_view (store f)))].
Qed.
Lemma root_closed_fresh n f dr dsr es a : root_closed n f dr dsr es -> next_addr f <= a -> inodes f !! a = None /\ a ∉ open_inodes f.
Proof.
  intros H Ha. have Hn : inodes f !! a = None. { destruct (inodes f !! a) eqn:E; [|done]. have := rc_fresh _ _ _ _ _ H a (mk_is_Some _ _ E). lia. }
  split; [done|]. intros Hin. destruct (rc_shut _ _ _ _ _ H a Hin) as (i & Hi & _). congruence.
Qed.

Lemma directory_locks n f a i ds es m : directory n f a i ds es -> directory n (set_locks f m) a i ds es.
Proof. by intros []. Qed.
Lemma directory_with_inode n f a i ds es st s d : directory n f a i ds es -> a <> next_addr f ->
  sec_ok n st -> sec_count st = sec_count (store f) -> (forall t, sec_view st t = sec_view (store f) t) ->
  directory n (with_inode f st s d) a i ds es.
Proof.
  intros [] Ha Hok Hc Hv. split; try done; simpl; [by rw lookup_insert_ne|rw Hc; by apply (rep_ext (sec_view (store f)))|by rw (contents_ext (sec_view (store f)))].
Qed.

(** The state once the name has been parsed and the root directory is locked. *)
Definition at_root f (st : St) (dr : inode_disk) : fs St :=
  lock_dir (with_inode f st ROOT_DIR_SECTOR dr) (next_addr f + 1) true.
Definition root_inode f (dr : inode_disk) : inode := mk_inode ROOT_DIR_SECTOR 1 false 0 false (next_addr f + 1) dr.
Lemma acquire_root f st dr : lock_of (with_inode f st ROOT_DIR_SECTOR dr) (Some (mk_dir (next_addr f) 0)) = Ok (Some (next_addr f + 1)) /\
  acquire_dir (with_inode f st ROOT_DIR_SECTOR dr) (Some (next_addr f + 1)) = Ok (at_root f st dr).
Proof.
  split.
  - rw /lock_of /inode_dir_lock /get_inode. simpl. by rw lookup_insert_eq.
  - rw /acquire_dir. simpl. by rw lookup_insert_eq.
Qed.

(** The root directory is closed and its lock released. *)
Lemma close_root n F f dr dsr es f' : root_closed n f dr dsr es -> inodes f' !! next_addr f = Some (root_inode f dr) -> dir_locks f' !! (next_addr f + 1) = Some true ->
  dir_close F f' (Some (mk_dir (next_addr f) 0)) = Ok (without_inode f' (next_addr f)) /\
  release_dir (without_inode f' (next_addr f)) (Some (next_addr f + 1)) = Ok (lock_dir (without_inode f' (next_addr f)) (next_addr f + 1) false).
Proof. intros H Hi Hl. split; [by apply (inode_close_last _ _ _ _ Hi)|]. rw /release_dir /without_inode /=. by rw Hl. Qed.

Lemma filter_fresh (a : Z) (l : list Z) : a ∉ l -> filter (fun b => b <> a) l = l.
Proof.
  induction l as [|b l IH]; [done|]. intros [Hb Hl]%not_elem_of_cons. rw filter_cons_True; [by intros ->|]. by rw IH.
Qed.

(** A name that is not bound. *)
Lemma open_unbound n F f dr dsr es stack dead cur_dir path name b : root_closed n f dr dsr es -> root_path cur_dir path name ->
  List.length stack = Z.to_nat ENTRY_SIZE -> dir_map es !! name = None ->
  exists f', filesys_open_with_is_dir stack dead F f cur_dir path b = Ok (NotOpened, b, f') /\ root_closed n f' dr dsr es /\
    (forall t, sec_view (store f') t = sec_view (store f) t) /\ inodes f' = inodes f /\ open_inodes f' = open_inodes f.
Proof.
  intros H Hp Hs Hmap. destruct (parse_plain n F f dr dsr es stack dead cur_dir path name H Hp) as (st & E & Hok & Hc & Hv & Hd).
  destruct (root_closed_fresh _ _ _ _ _ (next_addr f) H) as [Hi Ha]; [lia|].
  rw /filesys_open_with_is_dir E. cbn [obind]. destruct Hp as [(Hn0 & _ & Hne & _) _].
  have -> : (Z.of_nat (List.length name) =? 0) = false by apply Z.eqb_neq; destruct name; simpl; [done|lia].
  destruct (acquire_root f st dr) as [El Ea]. rw El. cbn [obind]. rw Ea. cbn [obind]. rw /dir_lookup.
  destruct (lookup_ok n (at_root f st dr) (mk_dir (next_addr f) 0) (root_inode f dr) dsr es name stack) as ([[e o]|] & f3 & E3 & Hr & Hx); try done.
  { by apply directory_locks. }
  { destruct Hx as (? & ? & _ & _ & _ & _ & Hx). congruence. }
  rw E3. cbn [obind]. destruct Hr as (st3 & -> & Hok3 & Hc3 & Hv3).
  destruct (close_root n F f dr dsr es (set_store (at_root f st dr) st3) H) as [Ec Er]; [simpl; by rw lookup_insert_eq..|].
  rw Ec. cbn [obind]. rw Er. cbn [obind]. eexists. split; [done|]. simpl in *. have Hvv : forall t, sec_view st3 t = sec_view (store f) t by intros t; rw Hv3 Hv.
  have Hi' : delete (next_addr f) (<[next_addr f := root_inode f dr]> (inodes f)) = inodes f by rw delete_insert_eq delete_id.
  have Hf' : filter (fun b => b <> next_addr f) (next_addr f :: open_inodes f) = open_inodes f by rw filter_cons_False; [by intros []|apply filter_fresh].
  split_and!; try done. eapply root_closed_ext; try done; simpl; [by apply (rc_mem _ _ _ _ _ H)|congruence| |].
  - rw /not_open /=. rw Hi' Hf'. apply (rc_shut _ _ _ _ _ H).
  - intros a. rw Hi'. intros Hx2. have := rc_fresh _ _ _ _ _ H a Hx2. lia.
Qed.

(** The open inodes and addresses once the root directory is closed again. *)
Lemma without_root n f dr dsr es l (m : gmap Z inode) : root_closed n f dr dsr es -> next_addr f ∉ l -> m !! next_addr f = None ->
  filter (fun b => b <> next_addr f) (l ++ next_addr f :: open_inodes f) = l ++ open_inodes f /\
  delete (next_addr f) (m ∪ <[next_addr f := root_inode f dr]> (inodes f)) = m ∪ inodes f.
Proof.
  intros H Hl Hm. destruct (root_closed_fresh _ _ _ _ _ (next_addr f) H) as [Hi Ha]; [lia|]. split.
  - rw filter_app filter_fresh // filter_cons_False; [by intros []|by rw filter_fresh].
  - apply map_eq. intros j. destruct (decide (j = next_addr f)) as [->|Hne].
    + by rw lookup_delete_eq lookup_union Hm Hi.
    + by rw lookup_delete_ne // !lookup_union lookup_insert_ne.
Qed.

(** A name that is bound to a sector that is not open. *)
Lemma open_bound n F f dr dsr es stack dead cur_dir path name e b : root_closed n f dr dsr es -> root_path cur_dir path name ->
  List.length stack = Z.to_nat ENTRY_SIZE -> e ∈ used es -> entry_name e = name -> not_open f (inode_sector e) ->
  exists f', filesys_open_with_is_dir stack dead F f cur_dir path b =
      Ok (if is_dir e then OpenedDir (Some (mk_dir (next_addr f + 2) 0)) else OpenedFile (Some (mk_file (next_addr f + 2) 0 false)), is_dir e, f') /\
    root_closed n f' dr dsr es /\ (forall t, sec_view (store f') t = sec_view (store f) t) /\ sec_count (store f') = sec_count (store f) /\
    inodes f' = <[next_addr f + 2 := mk_inode (inode_sector e) 1 false 0 false (next_addr f + 3) (decode (sec_view (store f) (inode_sector e)))]> (inodes f) /\
    open_inodes f' = next_addr f + 2 :: open_inodes f.
Proof.
  intros H Hp Hs He Hen Hno. destruct (parse_plain n F f dr dsr es stack dead cur_dir path name H Hp) as (st & E & Hok & Hc & Hv & Hd).
  have [Hu Hin] := proj1 (list_elem_of_filter _ _ _) He. destruct (rc_targets _ _ _ _ _ H e He) as [Hroot Hrange].
  destruct (root_closed_fresh _ _ _ _ _ (next_addr f) H) as [Hi Ha]; [lia|].
  rw /filesys_open_with_is_dir E. cbn [obind]. destruct Hp as [(Hn0 & _ & Hne & _) _].
  have -> : (Z.of_nat (List.length name) =? 0) = false by apply Z.eqb_neq; destruct name; simpl; [done|lia].
  destruct (acquire_root f st dr) as [El Ea]. rw El. cbn [obind]. rw Ea. cbn [obind]. rw /dir_lookup.
  have Hd1 : directory n (at_root f st dr) (next_addr f) (root_inode f dr) dsr es by apply directory_locks.
  destruct (lookup_ok n (at_root f st dr) (mk_dir (next_addr f) 0) (root_inode f dr) dsr es name stack) as (r & f3 & E3 & Hr & Hx); try done.
  have Hmap : dir_map es !! name = Some (inode_sector e) by rw -Hen; apply dir_map_found; [apply (rc_entries _ _ _ _ _ H)|..].
  destruct r as [[x o]|]; [|congruence]. have Hxe : inode_sector x = inode_sector e by destruct Hx as (? & ? & _ & _ & _ & _ & Hx); congruence.
  rw E3. cbn [obind]. rw Hxe. have Hd3 := directory_reads _ _ _ _ _ _ _ Hd1 Hr. destruct Hr as (st3 & -> & Hok3 & Hc3 & Hv3).
  set f3 := set_store (at_root f st dr) st3 in Hd3 |- *.
  destruct (inode_open_new n f3 (inode_sector e)) as (st4 & E4 & Hok4 & Hc4 & Hv4); [done|apply (rc_mem _ _ _ _ _ H)| |simpl in *; by rw Hc3 Hc|].
  { intros a [->|Ha']%elem_of_cons; simpl; [rw lookup_insert_eq; by eexists|]. destruct (Hno a Ha') as (i & Hia & His). exists i. split; [|done].
    rw lookup_insert_ne //. congruence. }
  have Hnx : next_addr f3 = next_addr f + 2 by done. rw E4 Hnx. cbn [obind]. set dt := decode (sec_view (store f3) (inode_sector e)). set f4 := with_inode f3 st4 _ _.
  have Hd4 : directory n f4 (next_addr f) (root_inode f dr) dsr es by apply directory_with_inode; try done; rw Hnx; lia.
  have -> : inode_get_inumber f4 (next_addr f + 2) = Ok (inode_sector e) by rw /inode_get_inumber /get_inode /f4 /with_inode /=; rw lookup_insert_eq.
  cbn [obind]. destruct (dir_entry_is_dir_ok n f4 (mk_dir (next_addr f) 0) (root_inode f dr) dsr es e stack Hd4 (rc_sectors _ _ _ _ _ H) He Hs) as (f5 & E5 & Hr5).
  rw E5. cbn [obind]. destruct Hr5 as (st5 & -> & Hok5 & Hc5 & Hv5).
  destruct (close_root n F f dr dsr es (set_store f4 st5) H) as [Ec Er].
  { apply (dr_open _ _ _ _ _ _ Hd4). }
  { simpl. rw lookup_insert_ne; [lia|]. by rw lookup_insert_eq. }
  rw Ec. cbn [obind]. rw andb_false_r. rw Er. cbn [obind].
  have Hm5 : forall g : fs St, mem g = mem f -> calloc g = (true, g) by intros g Hg; rw /calloc Hg (rc_mem _ _ _ _ _ H).
  exists (lock_dir (without_inode (set_store f4 st5) (next_addr f)) (next_addr f + 1) false).
  split; [destruct (is_dir e); [rw /dir_open|rw /file_open]; by rw Hm5|].
  have Hvv : forall t, sec_view st5 t = sec_view (store f) t by intros t; rw Hv5 Hv4 Hv3 Hv.
  have Hdt : dt = decode (sec_view (store f) (inode_sector e)) by rw /dt /= Hv3 Hv.
  destruct (without_root n f dr dsr es [next_addr f + 2] {[next_addr f + 2 := mk_inode (inode_sector e) 1 false 0 false (next_addr f + 2 + 1) dt]} H) as [Hf' Hi'].
  { intros ?%list_elem_of_singleton. lia. }
  { rw lookup_singleton_ne //. lia. }
  rw -!insert_union_singleton_l in Hi'. have Hn3 : next_addr f + 2 + 1 = next_addr f + 3 by lia. 
  split_and!; simpl; [|done|simpl in *; congruence|by rw -Hdt -Hn3|done].
  eapply root_closed_ext; try done; simpl; [by apply (rc_mem _ _ _ _ _ H)|simpl in *; congruence| |].
  - rw /not_open /=. rw Hi' Hf'. intros a [->|Ha']%elem_of_cons; [rw lookup_insert_eq; eexists; split; [done|]; by apply not_eq_sym|].
    destruct (rc_shut _ _ _ _ _ H a Ha') as (i & Hia & His). exists i. split; [|done]. rw lookup_insert_ne //.
    have := rc_fresh _ _ _ _ _ H a (mk_is_Some _ _ Hia). lia.
  - intros a. rw Hi'. destruct (decide (a = next_addr f + 2)) as [->|]; [lia|]. rw lookup_insert_ne //. intros Hx2. have := rc_fresh _ _ _ _ _ H a Hx2. lia.
Qed.
End open_by_name.

(** What the directory maps a name to comes from an entry in use. *)
Lemma dir_map_entry es name s : entries_wf es -> dir_map es !! name = Some s -> exists e, e ∈ used es /\ entry_name e = name /\ inode_sector e = s.
Proof. intros _ H%elem_of_list_to_map_2. apply list_elem_of_fmap in H as (e & H & He). injection H as -> ->. by exists e. Qed.
Lemma plain_token name : plain_name name -> (NAME_MAX <? Z.of_nat (List.length name)) = false /\ name <> [46; 46] /\ name <> [46].
Proof. intros (_ & _ & _ & Hl & Hd1 & Hd2). split_and!; try done. apply Z.ltb_ge. rw /NAME_MAX in Hl |- *. lia. Qed.

(** ** Example: the root directory of the example volume *)
Lemma ex_root_closed n : n <= INT_MAX -> root_closed n ex_vol_fs ex_root_disk [3] ex_entries.
Proof.
  intros Hn. split; try done; [by apply ex_vol_ok| | |by apply ex_vol_disks|by apply ex_vol_rep|apply ex_entries_wf|vm_compute; apply NoDup_singleton|].
  - intros a ->%list_elem_of_singleton. by exists ex_map_inode.
  - intros a [i Hi]. cbn [inodes ex_vol_fs] in Hi. by apply lookup_singleton_Some in Hi as [<- _].
  - intros e. have -> : used ex_entries = [ex_entry [102; 111; 111] 20] by vm_compute. by intros ->%list_elem_of_singleton.
Qed.
Definition ex_foo : list Z := [102; 111; 111].
Lemma ex_foo_path : root_path 1 ex_foo ex_foo /\ root_path 5 (47 :: ex_foo) ex_foo.
Proof.
  have H : plain_name ex_foo by rw /plain_name /ex_foo !not_elem_of_cons; split_and!; try done; try apply not_elem_of_nil; rw /NAME_MAX; simpl; lia.
  split; split; try done; [by right|by left].
Qed.

(** Opening by name.  On a volume whose root directory is intact and not open,
    [filesys_open] of [name] (from the root directory) or [/name] (from anywhere)
    opens what the directory maps the name to: a new inode for that sector, with
    what the disk holds for it, as a file at position 0 or as a directory, as the
    entry says.  It gives a null pointer, and opens nothing, when the name is not in
    the directory.  In both cases the disk is unchanged and the root directory is
    closed again. *)
Theorem filesys_open_correct {St : Type} {ops : SectorOps St} {laws : SectorStore St} (n : Z) (F : fm_ops St) (f : fs St) (dr : inode_disk) (dsr : list Z) (es : list (list Z))
    (stack : list Z) (dead : list Z -> list Z) (cur_dir : Z) (path name : list Z) (dummy : bool) :
  root_closed n f dr dsr es -> root_path cur_dir path name -> List.length stack = Z.to_nat ENTRY_SIZE ->
  (forall s, dir_map es !! name = Some s -> not_open f s) ->
  exists r f', filesys_open stack dead F f cur_dir path dummy = Ok (r, f') /\ root_closed n f' dr dsr es /\
    (forall t, sec_view (store f') t = sec_view (store f) t) /\
    match dir_map es !! name with
    | None => r = NotOpened /\ inodes f' = inodes f /\ open_inodes f' = open_inodes f
    | Some s => exists a e, inodes f !! a = None /\ e ∈ used es /\ entry_name e = name /\ inode_sector e = s /\
        r = (if is_dir e then OpenedDir (Some (mk_dir a 0)) else OpenedFile (Some (mk_file a 0 false))) /\
        open_inodes f' = a :: open_inodes f /\
        exists lk, inodes f' = <[a := mk_inode s 1 false 0 false lk (decode (sec_view (store f) s))]> (inodes f)
    end.
Proof.
  intros H Hp Hs Hno. rw /filesys_open. destruct (dir_map es !! name) as [s|] eqn:E.
  - destruct (dir_map_entry es name s) as (e & He & Hn & <-); [apply (rc_entries _ _ _ _ _ H)|done|].
    destruct (open_bound n F f dr dsr es stack dead cur_dir path name e dummy H Hp Hs He Hn (Hno _ eq_refl)) as (f' & Ef & Hr & Hv & _ & Hi & Ho).
    rw Ef. cbn [obind]. eexists _, f'. split_and!; try done. exists (next_addr f + 2), e. split_and!; try done; [|by eexists].
    apply (root_closed_fresh _ _ _ _ _ _ H). lia.
  - destruct (open_unbound n F f dr dsr es stack dead cur_dir path name dummy H Hp Hs E) as (f' & Ef & Hr & Hv & Hi & Ho). rw Ef. cbn [obind]. by exists NotOpened, f'.
Qed.
Lemma filesys_open_correct_witness :
  exists r f', filesys_open (replicate 24 0) (fun s => s) (fm 0) ex_vol_fs 5 (47 :: ex_foo) false = Ok (r, f') /\
    root_closed 0 f' ex_root_disk [3] ex_entries /\ open_inodes f' <> open_inodes ex_vol_fs.
Proof.
  destruct (filesys_open_correct 0 (fm 0) ex_vol_fs ex_root_disk [3] ex_entries (replicate 24 0) (fun s => s) 5 (47 :: ex_foo) ex_foo false) as (r & f' & E & Hr & _ & H).
  - by apply ex_root_closed.
  - apply ex_foo_path.
  - done.
  - intros s Hs a ->%list_elem_of_singleton. exists ex_map_inode. split; [done|]. vm_compute in Hs. by simplify_eq.
  - exists r, f'. split_and!; [done..|]. have Hf : dir_map ex_entries !! ex_foo = Some 20 by vm_compute. rw Hf in H.
    destruct H as (a & e & Ha & _ & _ & _ & _ & -> & _). simpl. by intros [=].
Defined.

(** A path that fails, or has several components, closes a directory twice.
    [filesys_parse] closes the inode of the directory it leaves, which frees it, and
    then closes the directory, which reads the freed inode: for a path that starts in
    the root directory, when the first component is longer than 14 characters, and
    whenever the path has two components that are names, whether the first is in the
    directory or not. *)
Theorem filesys_parse_closes_twice {St : Type} {ops : SectorOps St} {laws : SectorStore St} (n : Z) (F : fm_ops St) (f : fs St) (dr : inode_disk) (dsr : list Z) (es : list (list Z))
    (stack : list Z) (dead : list Z -> list Z) (cur_dir c : Z) (path token : list Z) (rest : list (list Z)) :
  root_closed n f dr dsr es -> c = 47 \/ cur_dir = ROOT_DIR_SECTOR -> Z.of_nat (List.length (c :: path)) < PGSIZE -> List.length stack = Z.to_nat ENTRY_SIZE ->
  tokens [47] (c :: path) = token :: rest ->
  NAME_MAX < Z.of_nat (List.length token) \/
    (plain_name token /\ (forall s, dir_map es !! token = Some s -> not_open f s) /\ exists token2 rest', rest = token2 :: rest' /\ plain_name token2) ->
  filesys_parse stack dead F f cur_dir (c :: path) = Err Fault.
Proof.
  intros H Hc Hlen Hs Ht Hcase. rw /filesys_parse /calloc (rc_mem _ _ _ _ _ H). cbn [ASSERT obind]. rw (proj2 (Z.leb_gt _ _) Hlen).
  have -> : (if c =? 47 then ROOT_DIR_SECTOR else cur_dir) = ROOT_DIR_SECTOR by destruct Hc as [-> | ->]; [done|destruct (c =? 47)].
  rw Z.eqb_refl. cbn [negb]. destruct (open_root n F f dr dsr es H) as (st & E & Hok & Hct & Hv & Hd). rw E. cbn [obind]. rw Ht. cbn [parse_loop].
  destruct Hcase as [Hl|(Hp1 & Hno & t2 & rest' & -> & Hp2)].
  - rw (proj2 (Z.ltb_lt _ _) Hl). cbn [obind deref oget]. rw /close_twice. erewrite inode_close_last; [|by apply (dr_open _ _ _ _ _ _ Hd)|done..]. cbn [obind]. by rw /dir_close inode_close_freed.
  - destruct (plain_token _ Hp1) as (-> & Ha1 & Ha2). rw !decide_False //. cbn [parse_loop]. destruct (plain_token _ Hp2) as (-> & Hb1 & Hb2). rw !decide_False //. cbn [deref oget obind].
    rw /dir_lookup. destruct (lookup_ok n _ (mk_dir (next_addr f) 0) _ dsr es token stack Hd) as ([[x o]|] & f2 & E2 & Hr & Hx); [by apply Hp1|done|..]; rw E2; cbn [obind].
    + destruct Hr as (st2 & -> & Hok2 & Hc2 & Hv2). destruct Hx as (es1 & es2 & -> & _ & Hu & _ & Hm).
      destruct (rc_targets _ _ _ _ _ H x) as [Hroot Hrange]; [apply list_elem_of_filter; split; [done|set_solver]|].
      destruct (inode_open_new n (set_store (with_inode f st ROOT_DIR_SECTOR dr) st2) (inode_sector x)) as (st3 & E3 & Hok3 & _); [done|apply (rc_mem _ _ _ _ _ H)| |simpl in *; by rw Hc2 Hct|].
      { intros a [->|Ha']%elem_of_cons; simpl; [rw lookup_insert_eq; by eexists|]. destruct (Hno _ Hm a Ha') as (i & Hia & His). exists i. split; [|done].
        rw lookup_insert_ne //. have := rc_fresh _ _ _ _ _ H a (mk_is_Some _ _ Hia). lia. }
      rw E3. cbn [obind]. rw /dir_open /calloc /=. rw (rc_mem _ _ _ _ _ H). cbn [obind]. rw /close_twice. rw (inode_close_last _ _ _ (root_inode f dr)) //.
      { simpl. rw lookup_insert_ne; [lia|]. by rw lookup_insert_eq. }
      cbn [obind]. by rw /dir_close inode_close_freed.
    + destruct Hr as (st2 & -> & Hok2 & Hc2 & Hv2). cbn [deref oget obind]. rw /close_twice. erewrite inode_close_last; [|by apply (dr_open _ _ _ _ _ _ Hd)|done..]. cbn [obind]. by rw /dir_close inode_close_freed.
Qed.
Lemma filesys_parse_closes_twice_witness :
  filesys_parse (replicate 24 0) (fun s => s) (fm 0) ex_vol_fs 1 (ex_foo ++ 47 :: ex_foo) = Err Fault.
Proof.
  apply (filesys_parse_closes_twice 0 (fm 0) ex_vol_fs ex_root_disk [3] ex_entries (replicate 24 0) (fun s => s) 1 102 [111; 111; 47; 102; 111; 111] ex_foo [ex_foo]); try done.
  - by apply ex_root_closed.
  - by right.
  - right. split; [apply ex_foo_path|]. split; [|exists ex_foo, []; split; [done|apply ex_foo_path]].
    intros s Hs a ->%list_elem_of_singleton. exists ex_map_inode. split; [done|]. vm_compute in Hs. by simplify_eq.
Defined.

(** ** Creating a file *)
(** A change of sectors that a file does not use. *)
Lemma file_frame v v' c d ds (W : list Z) : rep v c d ds -> (forall t, t ∉ W -> v' t = v t) -> (forall t, t ∈ W -> separate v d ds t) ->
  rep v' c d ds /\ contents v' d ds = contents v d ds.
Proof.
  intros Hr Hv HW. have Hu : forall t, ~ separate v d ds t -> v' t = v t by intros t Ht; apply Hv; intros Hin; by apply Ht, HW.
  have Hds : forall s, s ∈ ds -> v' s = v s by intros s Hs; apply Hu; intros [? _].
  have Hix : forall k ix s, (k < List.length ds)%nat -> path v d (Z.of_nat k) = Some (ix, s) -> forall t, t ∈ ix -> v' t = v t.
  { intros k ix s Hk Hp t Ht. apply Hu. intros [_ Hs]. by eapply Hs. }
  by apply rep_frame.
Qed.

(** The sectors that a file does not use stay so when its data sectors, and such sectors, change. *)
Lemma separate_step v v' c d ds (W : list Z) x : rep v c d ds -> (forall t, t ∉ W -> t ∉ ds -> v' t = v t) -> (forall t, t ∈ W -> separate v d ds t) ->
  separate v d ds x -> separate v' d ds x.
Proof.
  intros Hr Hv HW [H1 H2]. split; [done|]. intros k ix t Hk Hp. destruct (lookup_lt_is_Some_2 ds k Hk) as [s Hs]. destruct (rp_path _ _ _ _ Hr k s Hs) as (ix0 & Hp0 & Hix).
  have Hp1 : path v' d (Z.of_nat k) = Some (ix0, s). { eapply path_ext; [done|]. intros u Hu. apply Hv; [|by apply Hix]. intros Hin. destruct (HW u Hin) as [_ Hs2]. by apply (Hs2 k ix0 s Hk Hp0). }
  rw Hp1 in Hp. simplify_eq. by eapply H2.
Qed.

Section create.
Context {St : Type} {ops : SectorOps St} {laws : SectorStore St}.
Implicit Types (f : fs St) (F : fm_ops St).

(** The root directory and the free map are intact and use different sectors; a
    free sector is used by neither, is not open, and is in no entry. *)
Record volume (n : Z) f (dr : inode_disk) (dsr : list Z) (es : list (list Z)) (fl : file) (im : inode) (dsm : list Z) : Prop := {
  vo_root : root_closed n f dr dsr es;
  vo_map : map_file n f fl im dsm;
  vo_count : bit_cnt (free_map f) = sec_count (store f);
  vo_width : sec_count (store f) < 2 ^ 32;
  vo_free : forall s, 0 <= s < sec_count (store f) -> bit (free_map f) s = false ->
    s <> FREE_MAP_SECTOR /\ s <> ROOT_DIR_SECTOR /\ separate (sec_view (store f)) dr dsr s /\ separate (sec_view (store f)) (data im) dsm s /\
    not_open f s /\ forall e, e ∈ used es -> inode_sector e <> s;
  vo_map_apart : forall t, t ∈ dsm -> t <> ROOT_DIR_SECTOR /\ separate (sec_view (store f)) dr dsr t;
  vo_dir_apart : forall t, t ∈ dsr -> t <> ROOT_DIR_SECTOR /\ separate (sec_view (store f)) (data im) dsm t }.

(** The inode of an empty file. *)
Definition empty_disk : inode_disk := mk_disk (sector zero_disk) 0 ROOT_DIR_SECTOR INODE_MAGIC.
Lemma empty_disk_wf : disk_wf empty_disk.
Proof. rw /disk_wf /empty_disk /zero_disk. split_and!; try done. cbn [sector]. apply Forall_replicate. lia. Qed.
Lemma inode_create_empty n F f s : sec_ok n (store f) -> 1 <= n -> mem f = [] -> 0 <= s < sec_count (store f) ->
  exists st, inode_create F f s 0 = Ok (true, set_store f st) /\ sec_ok (n - 1) st /\ sec_count st = sec_count (store f) /\
    sec_view st s = encode empty_disk /\ forall t, t <> s -> sec_view st t = sec_view (store f) t.
Proof.
  intros Hok Hn Hm Hs. rw /inode_create /calloc Hm. cbn [ASSERT Z.leb Z.compare obind].
  have -> : create_loop index_fuel F f (mk_disk (sector zero_disk) 0 ROOT_DIR_SECTOR INODE_MAGIC) 0 0 1 = Ok (true, empty_disk, f) by done.
  cbn [obind]. have Hl : List.length (encode empty_disk) = sector_len by apply length_encode; destruct empty_disk_wf.
  rw /write_disk /fs_write. destruct (fs_write_at_ok n f s (encode empty_disk) 0) as (st & E & Ho & Hc & Hv); try done.
  rw E. cbn [obind]. exists st. split_and!; try done.
  - rw Hv decide_True // splice_whole // Hl. by eapply sec_view_len.
  - intros t Ht. by rw Hv decide_False.
Qed.

(** A directory is not affected by changes elsewhere. *)
Lemma directory_frame n m f f' a i ds es (W : list Z) : directory n f a i ds es -> sec_ok m (store f') -> mem f' = [] -> inodes f' !! a = Some i ->
  sec_count (store f') = sec_count (store f) -> (forall t, t ∉ W -> sec_view (store f') t = sec_view (store f) t) ->
  (forall t, t ∈ W -> separate (sec_view (store f)) (data i) ds t) -> directory m f' a i ds es.
Proof.
  intros [H1 H2 H3 H4 H5 H6 H7 H8] Hok Hm Hi Hc Hv HW. destruct (file_frame _ _ _ _ _ W H6 Hv HW) as (Hr & Hco).
  split; try done; [by rw Hc|by rw Hco].
Qed.

(** When the volume [f] is still one after changes to the sectors of the free map
    and of the root directory and to a sector [s] that was free. *)
Lemma volume_after n m f f' dr dsr es es' fl im dsm s : volume m f dr dsr es fl im dsm ->
  0 <= s < sec_count (store f) -> bit (free_map f) s = false ->
  rep (sec_view (store f')) (sec_count (store f')) dr dsr -> contents (sec_view (store f')) dr dsr = mjoin es' -> entries_wf es' -> NoDup (inode_sector <$> used es') ->
  (forall x, x ∈ used es' -> x ∈ used es \/ inode_sector x = s) -> map_file n f' fl im dsm -> bit_cnt (free_map f') = bit_cnt (free_map f) ->
  (forall j, 0 <= j -> bit (free_map f') j = false -> bit (free_map f) j = false /\ forall x, x ∈ used es' -> inode_sector x <> j) ->
  sec_count (store f') = sec_count (store f) -> (forall t, t ∉ dsm -> t ∉ dsr -> t <> s -> sec_view (store f') t = sec_view (store f) t) ->
  inodes f' = inodes f -> open_inodes f' = open_inodes f -> next_addr f <= next_addr f' -> volume n f' dr dsr es' fl im dsm.
Proof.
  intros [Hroot Hmap Hbc Hw Hfree Hma Hda] Hs Hbit Hr Hco Hwf Hnd Hus Hmap' Hbc' Hbits Hc Hv Hi Ho Hnx.
  destruct (Hfree s Hs Hbit) as (Hs0 & Hs1 & Hs2 & Hs3 & Hs4 & Hs5). destruct Hroot.
  have Hno : forall t, not_open f t -> not_open f' t by intros t; rw /not_open Hi Ho.
  have Hd : forall x, separate (sec_view (store f)) dr dsr x -> separate (sec_view (store f')) dr dsr x.
  { intros x. apply (separate_step _ _ (sec_count (store f)) _ _ (s :: dsm)); [done| |].
    - intros t [? ?]%not_elem_of_cons ?. by apply Hv.
    - intros t [->|Ht]%elem_of_cons; [done|by apply Hma]. }
  have Hm : forall x, separate (sec_view (store f)) (data im) dsm x -> separate (sec_view (store f')) (data im) dsm x.
  { intros x. apply (separate_step _ _ (sec_count (store f)) _ _ (s :: dsr)); [by apply Hmap| |].
    - intros t [? ?]%not_elem_of_cons ?. by apply Hv.
    - intros t [->|Ht]%elem_of_cons; [done|by apply Hda]. }
  split; try done; rw ?Hc ?Hbc' //.
  - split; try done; rw ?Hc //; [by apply Hmap'|by apply Hmap'|by apply Hno|intros a; rw Hi; intros Ha; have := rc_fresh0 a Ha; lia| |].
    + rw Hv //; [by intros Hin; destruct (Hma _ Hin)|by intros Hin; destruct (Hda _ Hin)].
    + intros x [Hx|Hx]%Hus; [by apply rc_targets0|]. rw Hx. split; [by apply not_eq_sym|done].
  - intros t Ht Hb. destruct (Hbits t) as [Hb' Hx]; [lia|done|]. destruct (Hfree t Ht Hb') as (H0 & H1 & H2 & H3 & H4 & H5).
    split_and!; [done|done|by apply Hd|by apply Hm|by apply Hno|done].
  - intros t Ht. destruct (Hma t Ht). split; [done|by apply Hd].
  - intros t Ht. destruct (Hda t Ht). split; [done|by apply Hm].
Qed.

Lemma map_file_ext n m f f' fl i ds : map_file n f fl i ds -> sec_ok m (store f') -> mem f' = [] -> free_map_lock f' = false -> free_map f' = free_map f -> free_map_file f' = free_map_file f ->
  inodes f' !! finode fl = Some i -> rep (sec_view (store f')) (sec_count (store f')) (data i) ds -> contents (sec_view (store f')) (data i) ds = contents (sec_view (store f)) (data i) ds ->
  map_file m f' fl i ds.
Proof. intros [] Hok Hm Hlk Hfm Hff Hi Hr Hco. split; try done; rw ?Hfm ?Hco //. congruence. Qed.

(** The end of [filesys_create], once the inode is on the disk and the directory is locked. *)
Definition enter F f (d : dir) (name : list Z) (s : Z) (lock : Z) (stack : list Z) : outcome (bool * fs St) :=
  let! (success, f) := dir_add F f d name s stack in
  let! f := if success then dir_entry_clear_dir F f d s stack else Ok f in
  let! f := if negb success && negb (s =? 0) then free_map_release F f s 1 else Ok f in
  let! f := dir_close F f (Some d) in
  let! f := release_dir f (Some lock) in
  Ok (success, f).

(** The state in which it runs: the root directory open and locked, the free map
    with [s] used and the new inode on the disk. *)
Definition entering f (dr : inode_disk) (st : St) (b : bitmap) : fs St :=
  lock_dir (set_map (set_store (with_inode f st ROOT_DIR_SECTOR dr) st) b) (next_addr f + 1) true.

Lemma create_inode n F f dr dsr es fl im dsm stack dead cur_dir path name :
  volume (n + 50 + bitmap_file_size (free_map f)) f dr dsr es fl im dsm -> 0 <= n -> root_path cur_dir path name ->
  (exists s, 0 <= s < sec_count (store f) /\ bit (free_map f) s = false) ->
  exists s b st, filesys_create stack dead F f cur_dir path 0 = enter F (entering f dr st b) (mk_dir (next_addr f) 0) name s (next_addr f + 1) stack /\
    directory (n + 49) (entering f dr st b) (next_addr f) (root_inode f dr) dsr es /\ map_file (n + 49) (entering f dr st b) fl im dsm /\
    0 <= s < sec_count (store f) /\ bit (free_map f) s = false /\ (forall j, 0 <= j -> bit b j = (j =? s) || bit (free_map f) j) /\
    bit_cnt b = bit_cnt (free_map f) /\ separate (sec_view st) dr dsr s /\ sec_count st = sec_count (store f) /\
    sec_view st s = encode empty_disk /\ forall t, t ∉ dsm -> t <> s -> sec_view st t = sec_view (store f) t.
Proof.
  intros Hvol Hn Hp (k & Hk & Hkbit). have [Hroot Hmf Hbc Hw Hfree Hma Hda] := Hvol. set nb := n + 50 + bitmap_file_size (free_map f) in Hvol Hroot Hmf.
  destruct (parse_plain nb F f dr dsr es stack dead cur_dir path name Hroot Hp) as (st1 & E1 & Hok1 & Hc1 & Hv1 & Hd1). rw /filesys_create E1. cbn [obind].
  have Hrep := rc_rep _ _ _ _ _ Hroot. have Hrepm := mf_rep _ _ _ _ _ Hmf. destruct Hp as [(_ & _ & Hne & _) _].
  destruct (root_closed_fresh _ _ _ _ _ (next_addr f) Hroot) as [Hia Hoa]; [lia|].
  have Hlen0 : (0 <? Z.of_nat (List.length name)) = true by apply Z.ltb_lt; destruct name; simpl; [done|lia].
  rw Hlen0. cbn [negb andb]. set f1 := with_inode f st1 ROOT_DIR_SECTOR dr in Hd1 |- *.
  have Hmf1 : map_file nb f1 fl im dsm.
  { eapply map_file_ext; try done; [apply Hmf|apply Hmf| | |]; simpl; [rw lookup_insert_ne; [|apply Hmf]; intros E; have := mf_open _ _ _ _ _ Hmf; congruence| |by apply contents_ext].
    rw Hc1. by apply (rep_ext (sec_view (store f))). }
  destruct (free_map_allocate_ok (n + 50) F f1 fl im dsm 1 Hmf1) as (r & b & st2 & E2 & Hmf2 & Hbc2 & Hc2 & Hv2 & Hr); [lia..|]. rw E2. cbn [obind].
  destruct r as [s|]; last first.
  { destruct Hr as [-> Hr]. exfalso. apply (Hr k); [lia|simpl; rw Hbc; lia|]. intros j Hj. have -> : j = k by lia. done. }
  destruct Hr as [(Hs0 & Hs1 & Hs2 & _) Hbits]. have Hsb : bit (free_map f) s = false by apply Hs2; lia. have Hsr : 0 <= s < sec_count (store f) by simpl in Hs1; lia.
  destruct (Hfree s Hsr Hsb) as (Hs00 & Hsroot & Hsd & Hsm & Hsno & Hsent). set f2 := set_map (set_store f1 st2) b in Hmf2 |- *.
  simpl in Hv2, Hc2. destruct (inode_create_empty (n + 50) F f2 s) as (st3 & E3 & Hok3 & Hc3 & Hs3 & Hv3); [apply Hmf2|lia|apply Hmf2|simpl; by rw Hc2 Hc1|]. rw E3. cbn [obind].
  have Hlk : lock_of (set_store f2 st3) (Some (mk_dir (next_addr f) 0)) = Ok (Some (next_addr f + 1)) by rw /lock_of /inode_dir_lock /get_inode /=; rw lookup_insert_eq.
  rw Hlk. cbn [obind]. have Hac : acquire_dir (set_store f2 st3) (Some (next_addr f + 1)) = Ok (entering f dr st3 b) by rw /acquire_dir /=; rw lookup_insert_eq.
  rw Hac. cbn [obind]. have Hn49 : n + 49 = n + 50 - 1 by lia. have Hc : sec_count st3 = sec_count (store f) by simpl in *; congruence.
  have Hv : forall t, t ∉ dsm -> t <> s -> sec_view st3 t = sec_view (store f) t by intros t Ht1 Ht2; rw Hv3 // Hv2 // Hv1.
  have HW : forall t, t ∈ s :: dsm -> separate (sec_view (store f)) dr dsr t by intros t [->|Ht]%elem_of_cons; [done|apply Hma].
  have Hsep1 : forall t, separate (sec_view (store f)) dr dsr t -> separate (sec_view st1) dr dsr t.
  { intros t. apply (separate_step _ _ _ _ _ [] _ Hrep); [by intros|]. by intros ? ?%not_elem_of_nil. }
  exists s, b, st3. split_and!; try done; [| |by apply Hsr| |].
  - apply directory_locks. eapply (directory_frame nb (n + 49) f1 _ _ _ _ _ (s :: dsm)); [done|by rw Hn49|apply Hmf2|simpl; by rw lookup_insert_eq|simpl in *; congruence| |].
    + intros t [? ?]%not_elem_of_cons. simpl. by rw Hv3 // Hv2.
    + intros t Ht. by apply Hsep1, HW.
  - destruct (file_frame (sec_view st2) (sec_view st3) (sec_count st2) (data im) dsm [s]) as [Hr3 Hco3]; [by apply Hmf2| | |].
    { intros t [? _]%not_elem_of_cons. by apply Hv3. }
    { intros t ->%list_elem_of_singleton. apply (separate_step (sec_view (store f)) _ _ _ _ [] _ Hrepm); [|by intros ? ?%not_elem_of_nil|done]. intros t _ Ht. by rw Hv2 // Hv1. }
    eapply (map_file_ext (n + 50) (n + 49) f2); try done; try apply Hmf2; [by rw Hn49|simpl in *; by rw Hc3].
  - intros j Hj. rw Hbits //. f_equal. destruct (Z.eqb_spec j s), (Z.leb_spec s j), (Z.ltb_spec j (s + 1)); simpl; lia.
  - apply (separate_step (sec_view (store f)) _ _ _ _ (s :: dsm) _ Hrep); [|done|done]. intros t [? ?]%not_elem_of_cons _. by apply Hv.
Qed.

(** [filesys_create] of an empty file under a new name. *)
Lemma create_ok n F f dr dsr es fl im dsm stack dead cur_dir path name :
  volume (n + 50 + bitmap_file_size (free_map f)) f dr dsr es fl im dsm -> 0 <= n -> root_path cur_dir path name -> List.length stack = Z.to_nat ENTRY_SIZE ->
  dir_map es !! name = None -> (exists e, e ∈ es /\ in_use e = false) -> (exists s, 0 <= s < sec_count (store f) /\ bit (free_map f) s = false) ->
  exists s e f' es', filesys_create stack dead F f cur_dir path 0 = Ok (true, f') /\ volume n f' dr dsr es' fl im dsm /\
    0 <= s < sec_count (store f) /\ bit (free_map f) s = false /\ (forall j, 0 <= j -> bit (free_map f') j = (j =? s) || bit (free_map f) j) /\
    dir_map es' = <[name := s]> (dir_map es) /\ (used es' ≡ₚ e :: used es /\ entry_name e = name /\ inode_sector e = s /\ is_dir e = false) /\
    sec_view (store f') s = encode empty_disk /\ inodes f' = inodes f /\ open_inodes f' = open_inodes f /\
    forall t, t ∉ dsm -> t ∉ dsr -> t <> s -> sec_view (store f') t = sec_view (store f) t.
Proof.
  intros Hvol Hn Hp Hst Hmap Hslot Hsome. have [Hroot Hmf _ Hw Hfree Hma Hda] := Hvol.
  destruct (create_inode n F f dr dsr es fl im dsm stack dead cur_dir path name Hvol Hn Hp Hsome) as (s & b & st & -> & Hd & Hmf' & Hs & Hsb & Hbits & Hbc & Hsep & Hc & Hse & Hv).
  destruct (Hfree s Hs Hsb) as (Hs00 & Hsroot & Hsd & Hsm & Hsno & Hsent). rw /enter. destruct Hp as [(Hn0 & _ & Hne & Hln & _) _].
  have Hval : valid_name name = true by rw /valid_name; destruct name; [done|]; rw /NAME_MAX in Hln |- *; simpl in *; rw (proj2 (Z.ltb_ge _ _)) //; lia.
  destruct (dir_add_ok (n + 24) F (entering f dr st b) (mk_dir (next_addr f) 0) (root_inode f dr) dsr es name s stack empty_disk) as (st1 & es1 & E1 & Hd1 & Hc1 & Hm1 & Hs1 & Hv1 & e0 & He0 & Hu1); try done.
  { by have -> : n + 24 + 25 = n + 49 by lia. }
  { lia. }
  { simpl. by rw Hc. }
  { lia. }
  { apply empty_disk_wf. }
  rw E1. cbn [obind]. have Hnl : Z.of_nat (List.length name) <= NAME_MAX by rw /NAME_MAX in Hln |- *; lia.
  have Hsec : inode_sector (new_entry e0 name s) = s by apply new_entry_sector; try done; lia.
  have Hnd : NoDup (inode_sector <$> used es1).
  { rw Hu1 fmap_cons NoDup_cons Hsec. split; [|by apply (rc_sectors _ _ _ _ _ Hroot)]. intros (x & Hx & Hin)%list_elem_of_fmap. by apply (Hsent x). }
  destruct (dir_entry_put_ok n F (set_store (entering f dr st b) st1) (mk_dir (next_addr f) 0) (root_inode f dr) dsr es1 (new_entry e0 name s) false stack Hd1 Hn Hnd) as (st2 & es2 & E2 & Hd2 & Hc2 & Hm2 & (l & Hl1 & Hl2) & Hv2); [rw Hu1; left|done|].
  rw Hsec in E2. rw /dir_entry_clear_dir E2. cbn [obind negb andb].
  destruct (close_root _ F f dr dsr es (set_store (set_store (entering f dr st b) st1) st2) Hroot) as [Ec Er]; [apply Hd2|simpl; by rw lookup_insert_eq|].
  rw Ec. cbn [obind]. rw Er. cbn [obind]. have Hne_l := new_entry_length e0 name s He0 Hnl. destruct (set_is_dir_fields (new_entry e0 name s) false Hne_l) as (_ & _ & _ & Hes & Hed).
  have Hll : l ≡ₚ used es by apply (Permutation_cons_inv (a := new_entry e0 name s)); rw -Hl1 -Hu1. rw Hll in Hl2. rw Hsec in Hes.
  have Hvv : forall t, t ∉ dsm -> t ∉ dsr -> t <> s -> sec_view st2 t = sec_view (store f) t by intros t H1 H2 H3; rw Hv2 // Hv1 // Hv.
  have Hs2 : sec_view st2 s = encode empty_disk by rw Hv2; [apply Hsd|]; rw Hs1.
  have Hcc : sec_count st2 = sec_count (store f) by simpl in *; congruence.
  destruct (without_root _ f dr dsr es [] ∅ Hroot) as [Hf' Hi']; [apply not_elem_of_nil|done|]. rw !left_id_L in Hi'. cbn [app] in Hf'.
  have Hen : entry_name (set_is_dir (new_entry e0 name s) false) = name by rw set_is_dir_name // new_entry_name.
  exists s, (set_is_dir (new_entry e0 name s) false), (lock_dir (without_inode (set_store (set_store (entering f dr st b) st1) st2) (next_addr f)) (next_addr f + 1) false), es2.
  split; [done|]. split; [|split_and!; try done; [apply Hs|apply Hs|congruence]].
  have Hnd2 : NoDup (inode_sector <$> used es2) by rw Hl2 fmap_cons Hes -Hsec -fmap_cons -Hu1.
  eapply (volume_after n _ f _ dr dsr es es2 fl im dsm s Hvol Hs Hsb); simpl; try done; [by apply Hd2|by apply Hd2|by apply Hd2| | | |lia].
  { intros x. rw Hl2. intros [->|Hx]%elem_of_cons; [by right|by left]. }
  2: { intros j Hj. rw Hbits //. intros [Hjs%Z.eqb_neq Hjb]%orb_false_iff. split; [done|]. intros x. rw Hl2. intros [->|Hx]%elem_of_cons; [by rw Hes; apply not_eq_sym|].
       intros <-. destruct (rc_targets _ _ _ _ _ Hroot x Hx) as [_ Hxr]. destruct (Hfree _ Hxr Hjb) as (_ & _ & _ & _ & _ & Hent). by apply (Hent x). }
  destruct (file_frame (sec_view st) (sec_view st2) (sec_count st) (data im) dsm (s :: dsr)) as [Hr3 Hco3]; [by apply Hmf'| | |].
  { intros t [? ?]%not_elem_of_cons. by rw Hv2 // Hv1. }
  { intros t Ht. apply (separate_step (sec_view (store f)) _ _ _ _ [s] _ (mf_rep _ _ _ _ _ Hmf)); [intros t' [? _]%not_elem_of_cons ?; by apply Hv|by intros t' ->%list_elem_of_singleton|].
    apply elem_of_cons in Ht as [->|Ht]; [done|by apply Hda]. }
  eapply (map_file_ext (n + 49) n (entering f dr st b)); try done; try apply Hmf'; [by apply Hd2| |simpl in *; by rw Hcc -Hc].
  simpl. have Ho := mf_open _ _ _ _ _ Hmf. have Hia : inodes f !! next_addr f = None by apply (root_closed_fresh _ _ _ _ _ (next_addr f) Hroot); lia.
  rw Hi'. done.
Qed.

(** [filesys_create] under a name that is in the directory gives the sector back. *)
Lemma create_exists n F f dr dsr es fl im dsm stack dead cur_dir path name t0 : let size := bitmap_file_size (free_map f) in
  volume (n + size + 50 + size) f dr dsr es fl im dsm -> 0 <= n -> root_path cur_dir path name -> List.length stack = Z.to_nat ENTRY_SIZE ->
  dir_map es !! name = Some t0 -> (exists s, 0 <= s < sec_count (store f) /\ bit (free_map f) s = false) ->
  exists f' s, filesys_create stack dead F f cur_dir path 0 = Ok (false, f') /\ volume n f' dr dsr es fl im dsm /\ bit (free_map f) s = false /\
    (forall j, 0 <= j -> bit (free_map f') j = bit (free_map f) j) /\ inodes f' = inodes f /\ open_inodes f' = open_inodes f /\
    forall t, t ∉ dsm -> t <> s -> sec_view (store f') t = sec_view (store f) t.
Proof.
  intros size Hvol Hn Hp Hst Hmap Hsome. have [Hroot Hmf _ Hw Hfree Hma Hda] := Hvol. have Hsize : 0 <= size by rw /size -(length_map_bytes _ (mf_wf _ _ _ _ _ Hmf)); lia.
  destruct (create_inode (n + size) F f dr dsr es fl im dsm stack dead cur_dir path name Hvol) as (s & b & st & -> & Hd & Hmf' & Hs & Hsb & Hbits & Hbc & Hsep & Hc & Hse & Hv); [lia|done|done|].
  destruct (Hfree s Hs Hsb) as (Hs00 & Hsroot & Hsd & Hsm & Hsno & Hsent). rw /enter /dir_add. destruct Hp as [(Hn0 & _ & Hne & Hln & _) _].
  have Hval : (Z.of_nat (List.length name) =? 0) || (NAME_MAX <? Z.of_nat (List.length name)) = false.
  { destruct name; [done|]. rw /NAME_MAX in Hln |- *. simpl in *. rw (proj2 (Z.ltb_ge _ _)) //. lia. }
  rw Hval. destruct (lookup_ok _ _ (mk_dir (next_addr f) 0) _ _ _ _ stack Hd Hn0 Hst) as (r & f1 & E1 & (st1 & -> & Hok1 & Hc1 & Hv1) & Hres). rw E1. cbn [obind].
  destruct r as [[e o]|]; [|congruence]. cbn [obind negb andb]. rw (proj2 (Z.eqb_neq _ _) Hs00). cbn [negb]. simpl in Hc1, Hv1.
  have Hmf1 : map_file (n + 49 + size) (set_store (entering f dr st b) st1) fl im dsm.
  { have -> : n + 49 + size = n + size + 49 by lia. eapply (map_file_ext _ _ (entering f dr st b)); try done; try apply Hmf'; simpl; [|by apply contents_ext].
    rw Hc1. apply (rep_ext (sec_view st)); [|done]. apply Hmf'. }
  destruct (free_map_release_ok (n + 49) F (set_store (entering f dr st b) st1) fl im dsm s 1) as (b2 & st2 & E2 & Hmf2 & Hbc2 & Hc2 & Hv2 & Hb2); try done; [|lia..| | |].
  { simpl. by have -> : bitmap_file_size b = size by rw /bitmap_file_size Hbc. }
  { simpl. rw Hbc. have := vo_count _ _ _ _ _ _ _ _ Hvol. lia. }
  { intros j Hj. have -> : j = s by lia. simpl. rw Hbits; [lia|]. by rw Z.eqb_refl. }
  rw E2. cbn [obind].
  destruct (close_root _ F f dr dsr es (set_map (set_store (set_store (entering f dr st b) st1) st2) b2) Hroot) as [Ec Er]; [apply Hd|simpl; by rw lookup_insert_eq|].
  rw Ec. cbn [obind]. rw Er. cbn [obind]. simpl in Hb2, Hbc2, Hc2, Hv2.
  have Hvv : forall t, t ∉ dsm -> t <> s -> sec_view st2 t = sec_view (store f) t by intros t H1 H2; rw Hv2 // Hv1 Hv.
  have Hbb : forall j, 0 <= j -> bit b2 j = bit (free_map f) j.
  { intros j Hj. rw Hb2 // Hbits //. destruct (decide (j = s)) as [->|]; [by rw Z.leb_refl (proj2 (Z.ltb_lt s (s + 1))) ?Hsb //; lia|].
    destruct (Z.eqb_spec j s), (Z.leb_spec s j), (Z.ltb_spec j (s + 1)); simpl; try done; lia. }
  have Hcc : sec_count st2 = sec_count (store f) by congruence.
  destruct (without_root _ f dr dsr es [] ∅ Hroot) as [Hf' Hi']; [apply not_elem_of_nil|done|]. rw !left_id_L in Hi'. cbn [app] in Hf'.
  exists (lock_dir (without_inode (set_map (set_store (set_store (entering f dr st b) st1) st2) b2) (next_addr f)) (next_addr f + 1) false), s.
  split; [done|]. split; [|by split_and!].
  destruct (file_frame (sec_view (store f)) (sec_view st2) (sec_count (store f)) dr dsr (s :: dsm)) as [Hr3 Hco3]; [by apply Hroot| | |].
  { intros t [? ?]%not_elem_of_cons. by apply Hvv. }
  { intros t [->|Ht]%elem_of_cons; [done|by apply Hma]. }
  eapply (volume_after n _ f _ dr dsr es es fl im dsm s Hvol Hs Hsb); simpl; try done; try apply Hroot; [by rw Hcc|rw Hco3; apply Hroot|by left| |congruence| | |lia].
  - eapply (map_file_ext (n + 49) n _ _ fl im dsm Hmf2); try done; simpl; try apply Hmf2; [|by rw Hi'; apply Hmf].
    eapply sec_ok_mono; [by apply Hmf2|lia].
  - intros j Hj. rw Hbb //. intros Hjb. split; [done|]. intros x Hx <-. destruct (rc_targets _ _ _ _ _ Hroot x Hx) as [_ Hxr]. destruct (Hfree _ Hxr Hjb) as (_ & _ & _ & _ & _ & Hent). by apply (Hent x).
  - intros t H1 _ H3. by apply Hvv.
Qed.
End create.

Section volume_mono.
Context {St : Type} {ops : SectorOps St} {laws : SectorStore St}.
Lemma volume_mono n m (f : fs St) dr dsr es fl im dsm : volume n f dr dsr es fl im dsm -> m <= n -> volume m f dr dsr es fl im dsm.
Proof. intros [[] [] ? ? ? ? ?] Hm. split; try done; split; try done; by eapply sec_ok_mono. Qed.
End volume_mono.

Lemma ex_separate_one (v : Z -> list Z) (d : inode_disk) s t : s <> t -> separate v d [s] t.
Proof.
  intros Hs. split; [by intros ->%list_elem_of_singleton|]. intros [|k] ix x Hk; [|simpl in Hk; lia]. rw /path /=.
  destruct (sector d !! _); simpl; [|done]. intros [= <- _]. apply not_elem_of_nil.
Qed.
Lemma ex_vol_volume n : n <= INT_MAX -> volume n ex_vol_fs ex_root_disk [3] ex_entries ex_map_file ex_map_inode [2].
Proof.
  intros Hn. split; [by apply ex_root_closed|by apply ex_map_ok|done|done|..].
  - intros s Hs Hb. have Hne : forall k, bit ex_map k = true -> s <> k by intros k Hk ->; simpl in Hb; congruence.
    have H2 : s <> 2 by apply Hne. have H3 : s <> 3 by apply Hne. split_and!; [by apply Hne|by apply Hne|by apply ex_separate_one, not_eq_sym|by apply ex_separate_one, not_eq_sym| |].
    + intros a ->%list_elem_of_singleton. exists ex_map_inode. split; [done|]. apply not_eq_sym. by apply Hne.
    + have -> : used ex_entries = [ex_entry [102; 111; 111] 20] by vm_compute. intros e ->%list_elem_of_singleton. apply not_eq_sym. by apply Hne.
  - intros t ->%list_elem_of_singleton. split; [done|]. by apply ex_separate_one.
  - intros t ->%list_elem_of_singleton. split; [done|]. by apply ex_separate_one.
Qed.

(** C6: creating a file.  On a volume that is intact, with a free slot in the root
    directory and a free sector, [filesys_create] of an empty file [name] (from the
    root directory) or [/name] (from anywhere) succeeds when the name is not in the
    directory: a sector that was free is used now, and no other changes its state; the
    directory maps the name to it and every other name to what it was; outside the
    free map, the directory and the new sector the disk is as it was; the volume is
    intact, and [filesys_open] of the same path then opens a file of length 0.  When
    the name is in the directory the call fails: the volume is intact with the same
    directory entries and open inodes, and all bits of the free map are as they were.
    The call has overwritten one sector by then, that of the new inode: it was free and
    is free again; outside it and the file of the free map the disk is as it was. *)
Theorem filesys_create_correct {St : Type} {ops : SectorOps St} {laws : SectorStore St} (n : Z) (F : fm_ops St) (f : fs St) (dr : inode_disk) (dsr : list Z) (es : list (list Z))
    (fl : file) (im : inode) (dsm : list Z) (stack : list Z) (dead : list Z -> list Z) (cur_dir : Z) (path name : list Z) : let size := bitmap_file_size (free_map f) in
  volume (n + size + 50 + size) f dr dsr es fl im dsm -> 0 <= n -> root_path cur_dir path name -> List.length stack = Z.to_nat ENTRY_SIZE ->
  (exists e, e ∈ es /\ in_use e = false) -> (exists s, 0 <= s < sec_count (store f) /\ bit (free_map f) s = false) ->
  match dir_map es !! name with
  | None => exists s f' es', filesys_create stack dead F f cur_dir path 0 = Ok (true, f') /\ volume n f' dr dsr es' fl im dsm /\
      bit (free_map f) s = false /\ (forall j, 0 <= j -> bit (free_map f') j = (j =? s) || bit (free_map f) j) /\
      dir_map es' = <[name := s]> (dir_map es) /\ (forall t, t ∉ dsm -> t ∉ dsr -> t <> s -> sec_view (store f') t = sec_view (store f) t) /\
      exists a f'', filesys_open stack dead F f' cur_dir path false = Ok (OpenedFile (Some (mk_file a 0 false)), f'') /\
        file_length f'' (mk_file a 0 false) = Ok 0
  | Some _ => exists f' s, filesys_create stack dead F f cur_dir path 0 = Ok (false, f') /\ volume n f' dr dsr es fl im dsm /\
      (forall j, 0 <= j -> bit (free_map f') j = bit (free_map f) j) /\ inodes f' = inodes f /\ open_inodes f' = open_inodes f /\
      bit (free_map f) s = false /\ forall t, t ∉ dsm -> t <> s -> sec_view (store f') t = sec_view (store f) t
  end.
Proof.
  intros size Hvol Hn Hp Hst Hslot Hsome. have Hsize : 0 <= size by rw /size -(length_map_bytes _ (mf_wf _ _ _ _ _ (vo_map _ _ _ _ _ _ _ _ Hvol))); lia.
  destruct (dir_map es !! name) as [t0|] eqn:Hmap.
  - destruct (create_exists n F f dr dsr es fl im dsm stack dead cur_dir path name t0 Hvol Hn Hp Hst Hmap Hsome) as (f' & s & E & Hv & Hs & Hb & Hi & Ho & Hfr). by exists f', s.
  - destruct (create_ok (n + size) F f dr dsr es fl im dsm stack dead cur_dir path name Hvol) as (s & e & f' & es' & E & Hv & Hs & Hsb & Hb & Hm & (Hu & He1 & He2 & He3) & Hse & Hi & Ho & Hfr); try done; [lia|].
    exists s, f', es'. split_and!; try done; [eapply volume_mono; [done|lia]|]. subst s.
    destruct (open_bound (n + size) F f' dr dsr es' stack dead cur_dir path name e false (vo_root _ _ _ _ _ _ _ _ Hv) Hp Hst) as (f'' & Eo & _ & _ & _ & Hi2 & _); [rw Hu; left|done| |].
    { destruct (vo_free _ _ _ _ _ _ _ _ Hvol _ Hs Hsb) as (_ & _ & _ & _ & Hno & _). rw /not_open Hi Ho. exact Hno. }
    exists (next_addr f' + 2), f''. rw /filesys_open Eo He3. cbn [obind]. split; [done|].
    rw /file_length /inode_length /get_inode Hi2 /=. rw lookup_insert_eq. cbn [oget obind data]. rw Hse decode_encode //. apply empty_disk_wf.
Qed.
Lemma filesys_create_correct_witness :
  exists f' es' a f'', filesys_create (replicate 24 0) (fun s => s) (fm 0) ex_vol_fs 1 [98] 0 = Ok (true, f') /\ volume 0 f' ex_root_disk [3] es' ex_map_file ex_map_inode [2] /\
    filesys_open (replicate 24 0) (fun s => s) (fm 0) f' 1 [98] false = Ok (OpenedFile (Some (mk_file a 0 false)), f'').
Proof.
  pose proof (filesys_create_correct 0 (fm 0) ex_vol_fs ex_root_disk [3] ex_entries ex_map_file ex_map_inode [2] (replicate 24 0) (fun s => s) 1 [98] [98]) as H.
  have Hb : dir_map ex_entries !! [98] = None by vm_compute. rw Hb in H.
  have Hp : root_path 1 [98] [98].
  { split; [|by right]. rw /plain_name !not_elem_of_cons. split_and!; try done; try apply not_elem_of_nil. rw /NAME_MAX. simpl. lia. }
  have Hv : volume (0 + 4 + 50 + 4) ex_vol_fs ex_root_disk [3] ex_entries ex_map_file ex_map_inode [2] by apply ex_vol_volume.
  have He : exists e, e ∈ ex_entries /\ in_use e = false.
  { exists (replicate 24 0). split; [by apply list_elem_of_further, list_elem_of_here|by vm_compute]. }
  have Hs : exists s, 0 <= s < sec_count (store ex_vol_fs) /\ bit (free_map ex_vol_fs) s = false by exists 4.
  destruct (H Hv (Z.le_refl 0) Hp eq_refl He Hs) as (s & f' & es' & E & Hv' & _ & _ & _ & _ & a & f'' & Eo & _). exists f', es', a, f''. exact (conj E (conj Hv' Eo)).
Defined.
