(* ===== verification/Thread.v ===== *)
(** * threads/thread.c: threads and the scheduler

    The kernel state and the operations of thread.c.  A thread is named by the
    address of its page; the kernel lists are lists of these addresses (KList.v
    shows what lib/kernel/list.c does with them).  [schedule] gives the
    processor to another thread: what the old one still has to do is the stack
    [todo] of its pending frames, which run when it is scheduled again.  Every
    operation below is one section that runs with interrupts off. *)
From S2P Require Import Prelude.

Definition THREAD_MAGIC : Z := 0xcd6abf4b.
Definition TIME_SLICE : Z := 4.
Definition PRI_MIN : Z := 0.
Definition PRI_DEFAULT : Z := 31.
Definition PRI_MAX : Z := 63.
Definition TID_ERROR : Z := -1.
Definition MAX_FILE_CNT : Z := 20.
Definition MAX_MAP_CNT : Z := 10.
Definition THREAD_ROOT_DIR : Z := 1.

Inductive thread_status := THREAD_RUNNING | THREAD_READY | THREAD_BLOCKED | THREAD_DYING.
#[export] Instance thread_status_eq_dec : EqDecision thread_status.
Proof. solve_decision. Defined.

(** The rest of a function whose thread lost the processor, or of one that
    runs with interrupts on after an atomic section. *)
Inductive frame :=
| F_start                          (* kernel_thread *)
| F_idle                           (* idle: sti; hlt *)
| F_block                          (* idle: intr_disable (); thread_block () *)
| F_intr (old_level : bool)        (* intr_set_level (old_level) after schedule *)
| F_sema_down (s : Z) (old_level : bool)   (* the loop of sema_down after thread_block *)
| F_holder (l : Z)                 (* lock_acquire after sema_down *)
| F_sema_up (s : Z)                (* lock_release after holder = NULL *)
| F_cond_down (w l : Z)            (* cond_wait after lock_release *)
| F_acquire (l : Z)                (* cond_wait after sema_down *)
| F_broadcast (c l : Z)            (* the loop of cond_broadcast *)
| F_exit_up                        (* thread_exit: the loop over the children, then sema_up (wait_sema) *)
| F_exit_down                      (* thread_exit: sema_down (exit_sema) *)
| F_exit_end.                      (* thread_exit after sema_down *)

Record thread := mk_thread {
  tid : Z;
  status : thread_status;
  name : string;
  priority : Z;
  alarm_ticks : Z;
  child_list : list Z;
  parent : option Z;
  pagedir : option Z;
  file_list : option (list (option Z));
  map_list : option (list (option Z));
  is_dir_list : list bool;
  cur_dir : Z;
  exit_status : Z;
  exec_status : bool;
  magic : Z;
  todo : list frame }.

Record semaphore := mk_sema { value : Z; waiters : list Z }.
Record lock := mk_lock { holder : option Z; semaphore_of : Z }.

Record kernel := mk_kernel {
  threads : gmap Z thread;
  current : Z;
  ready_list : list Z;
  sleep_list : list Z;
  all_list : list Z;
  idle_thread : option Z;
  initial_thread : Z;
  next_tid : Z;
  intr_level : bool;
  intr_context : bool;
  yield_on_return : bool;
  ticks : Z;
  thread_ticks : Z;
  idle_ticks : Z;
  kernel_ticks : Z;
  user_ticks : Z;
  semas : gmap Z semaphore;
  locks : gmap Z lock;
  conds : gmap Z (list Z) }.

(** ** Record updates *)
Definition set_status (s : thread_status) (t : thread) : thread :=
  mk_thread (tid t) s (name t) (priority t) (alarm_ticks t) (child_list t) (parent t) (pagedir t)
    (file_list t) (map_list t) (is_dir_list t) (cur_dir t) (exit_status t) (exec_status t) (magic t) (todo t).
Definition set_todo (k : list frame) (t : thread) : thread :=
  mk_thread (tid t) (status t) (name t) (priority t) (alarm_ticks t) (child_list t) (parent t) (pagedir t)
    (file_list t) (map_list t) (is_dir_list t) (cur_dir t) (exit_status t) (exec_status t) (magic t) k.
Definition set_alarm (n : Z) (t : thread) : thread :=
  mk_thread (tid t) (status t) (name t) (priority t) n (child_list t) (parent t) (pagedir t)
    (file_list t) (map_list t) (is_dir_list t) (cur_dir t) (exit_status t) (exec_status t) (magic t) (todo t).
Definition set_priority (p : Z) (t : thread) : thread :=
  mk_thread (tid t) (status t) (name t) p (alarm_ticks t) (child_list t) (parent t) (pagedir t)
    (file_list t) (map_list t) (is_dir_list t) (cur_dir t) (exit_status t) (exec_status t) (magic t) (todo t).
Definition set_children (l : list Z) (t : thread) : thread :=
  mk_thread (tid t) (status t) (name t) (priority t) (alarm_ticks t) l (parent t) (pagedir t)
    (file_list t) (map_list t) (is_dir_list t) (cur_dir t) (exit_status t) (exec_status t) (magic t) (todo t).
Definition set_files (l : option (list (option Z))) (t : thread) : thread :=
  mk_thread (tid t) (status t) (name t) (priority t) (alarm_ticks t) (child_list t) (parent t) (pagedir t)
    l (map_list t) (is_dir_list t) (cur_dir t) (exit_status t) (exec_status t) (magic t) (todo t).
Definition set_maps (l : option (list (option Z))) (t : thread) : thread :=
  mk_thread (tid t) (status t) (name t) (priority t) (alarm_ticks t) (child_list t) (parent t) (pagedir t)
    (file_list t) l (is_dir_list t) (cur_dir t) (exit_status t) (exec_status t) (magic t) (todo t).
Definition set_dirs (l : list bool) (t : thread) : thread :=
  mk_thread (tid t) (status t) (name t) (priority t) (alarm_ticks t) (child_list t) (parent t) (pagedir t)
    (file_list t) (map_list t) l (cur_dir t) (exit_status t) (exec_status t) (magic t) (todo t).

Definition set_threads (m : gmap Z thread) (k : kernel) : kernel :=
  mk_kernel m (current k) (ready_list k) (sleep_list k) (all_list k) (idle_thread k) (initial_thread k)
    (next_tid k) (intr_level k) (intr_context k) (yield_on_return k) (ticks k) (thread_ticks k)
    (idle_ticks k) (kernel_ticks k) (user_ticks k) (semas k) (locks k) (conds k).
Definition set_current (a : Z) (k : kernel) : kernel :=
  mk_kernel (threads k) a (ready_list k) (sleep_list k) (all_list k) (idle_thread k) (initial_thread k)
    (next_tid k) (intr_level k) (intr_context k) (yield_on_return k) (ticks k) (thread_ticks k)
    (idle_ticks k) (kernel_ticks k) (user_ticks k) (semas k) (locks k) (conds k).
Definition set_ready (l : list Z) (k : kernel) : kernel :=
  mk_kernel (threads k) (current k) l (sleep_list k) (all_list k) (idle_thread k) (initial_thread k)
    (next_tid k) (intr_level k) (intr_context k) (yield_on_return k) (ticks k) (thread_ticks k)
    (idle_ticks k) (kernel_ticks k) (user_ticks k) (semas k) (locks k) (conds k).
Definition set_sleep (l : list Z) (k : kernel) : kernel :=
  mk_kernel (threads k) (current k) (ready_list k) l (all_list k) (idle_thread k) (initial_thread k)
    (next_tid k) (intr_level k) (intr_context k) (yield_on_return k) (ticks k) (thread_ticks k)
    (idle_ticks k) (kernel_ticks k) (user_ticks k) (semas k) (locks k) (conds k).
Definition set_all (l : list Z) (k : kernel) : kernel :=
  mk_kernel (threads k) (current k) (ready_list k) (sleep_list k) l (idle_thread k) (initial_thread k)
    (next_tid k) (intr_level k) (intr_context k) (yield_on_return k) (ticks k) (thread_ticks k)
    (idle_ticks k) (kernel_ticks k) (user_ticks k) (semas k) (locks k) (conds k).
Definition set_next_tid (n : Z) (k : kernel) : kernel :=
  mk_kernel (threads k) (current k) (ready_list k) (sleep_list k) (all_list k) (idle_thread k) (initial_thread k)
    n (intr_level k) (intr_context k) (yield_on_return k) (ticks k) (thread_ticks k)
    (idle_ticks k) (kernel_ticks k) (user_ticks k) (semas k) (locks k) (conds k).
Definition set_intr (b : bool) (k : kernel) : kernel :=
  mk_kernel (threads k) (current k) (ready_list k) (sleep_list k) (all_list k) (idle_thread k) (initial_thread k)
    (next_tid k) b (intr_context k) (yield_on_return k) (ticks k) (thread_ticks k)
    (idle_ticks k) (kernel_ticks k) (user_ticks k) (semas k) (locks k) (conds k).
Definition set_slice (n : Z) (k : kernel) : kernel :=
  mk_kernel (threads k) (current k) (ready_list k) (sleep_list k) (all_list k) (idle_thread k) (initial_thread k)
    (next_tid k) (intr_level k) (intr_context k) (yield_on_return k) (ticks k) n
    (idle_ticks k) (kernel_ticks k) (user_ticks k) (semas k) (locks k) (conds k).
Definition set_semas (m : gmap Z semaphore) (k : kernel) : kernel :=
  mk_kernel (threads k) (current k) (ready_list k) (sleep_list k) (all_list k) (idle_thread k) (initial_thread k)
    (next_tid k) (intr_level k) (intr_context k) (yield_on_return k) (ticks k) (thread_ticks k)
    (idle_ticks k) (kernel_ticks k) (user_ticks k) m (locks k) (conds k).
Definition set_locks (m : gmap Z lock) (k : kernel) : kernel :=
  mk_kernel (threads k) (current k) (ready_list k) (sleep_list k) (all_list k) (idle_thread k) (initial_thread k)
    (next_tid k) (intr_level k) (intr_context k) (yield_on_return k) (ticks k) (thread_ticks k)
    (idle_ticks k) (kernel_ticks k) (user_ticks k) (semas k) m (conds k).
Definition set_conds (m : gmap Z (list Z)) (k : kernel) : kernel :=
  mk_kernel (threads k) (current k) (ready_list k) (sleep_list k) (all_list k) (idle_thread k) (initial_thread k)
    (next_tid k) (intr_level k) (intr_context k) (yield_on_return k) (ticks k) (thread_ticks k)
    (idle_ticks k) (kernel_ticks k) (user_ticks k) (semas k) (locks k) m.

(** [t->... = ...] for the thread at [a]; the page must hold a thread. *)
Definition upd (a : Z) (f : thread -> thread) (k : kernel) : outcome kernel :=
  let! t := oget (threads k !! a) in Ok (set_threads (<[a := f t]> (threads k)) k).

(** Push a pending frame of the current thread. *)
Definition push (fr : frame) (k : kernel) : outcome kernel :=
  upd (current k) (fun t => set_todo (fr :: todo t) t) k.

(** ** thread.c *)
Definition is_thread (k : kernel) (a : Z) : bool :=
  match threads k !! a with Some t => magic t =? THREAD_MAGIC | None => false end.

(** [running_thread] is [current]; [thread_current] checks it. *)
Definition thread_current (k : kernel) : outcome Z :=
  assert! is_thread k (current k) in
  let! t := oget (threads k !! current k) in
  assert! bool_decide (status t = THREAD_RUNNING) in
  Ok (current k).

Definition next_thread_to_run (k : kernel) : option Z * kernel :=
  match ready_list k with
  | [] => (idle_thread k, k)
  | a :: l => (Some a, set_ready l k)
  end.

Definition thread_schedule_tail (prev : option Z) (k : kernel) : outcome kernel :=
  let cur := current k in
  assert! negb (intr_level k) in
  let! k := upd cur (set_status THREAD_RUNNING) k in
  let k := set_slice 0 k in
  match prev with
  | Some p =>
    let! t := oget (threads k !! p) in
    if bool_decide (status t = THREAD_DYING) && negb (p =? initial_thread k) then
      assert! negb (p =? cur) in
      Ok (set_threads (delete p (threads k)) k)
    else Ok k
  | None => Ok k
  end.

Definition schedule (k : kernel) : outcome kernel :=
  let cur := current k in
  let (next, k) := next_thread_to_run k in
  assert! negb (intr_level k) in
  let! t := oget (threads k !! cur) in
  assert! negb (bool_decide (status t = THREAD_RUNNING)) in
  let! n := match next with Some n => Ok n | None => Err Panic end in
  assert! is_thread k n in
  if negb (cur =? n) then thread_schedule_tail (Some cur) (set_current n k)
  else thread_schedule_tail None k.

Definition thread_block (k : kernel) : outcome kernel :=
  assert! negb (intr_context k) in
  assert! negb (intr_level k) in
  let! cur := thread_current k in
  let! k := upd cur (set_status THREAD_BLOCKED) k in
  schedule k.

Definition thread_unblock (a : Z) (k : kernel) : outcome kernel :=
  assert! is_thread k a in
  let! t := oget (threads k !! a) in
  assert! bool_decide (status t = THREAD_BLOCKED) in
  let k := set_ready (ready_list k ++ [a]) k in
  upd a (set_status THREAD_READY) k.

Definition thread_yield (k : kernel) : outcome kernel :=
  let! cur := thread_current k in
  assert! negb (intr_context k) in
  let! k := push (F_intr (intr_level k)) k in
  let k := set_intr false k in
  let k := if bool_decide (idle_thread k = Some cur) then k else set_ready (ready_list k ++ [cur]) k in
  let! k := upd cur (set_status THREAD_READY) k in
  schedule k.

(** [list_insert_ordered (&sleep_list, ..., thread_less_alarm_ticks, NULL)] *)
Definition thread_less_alarm_ticks (k : kernel) (a b : Z) : bool :=
  match threads k !! a, threads k !! b with
  | Some t, Some u => alarm_ticks t <? alarm_ticks u
  | _, _ => false
  end.
Fixpoint insert_sleep (k : kernel) (a : Z) (l : list Z) : list Z :=
  match l with
  | [] => [a]
  | b :: l => if thread_less_alarm_ticks k a b then a :: b :: l else b :: insert_sleep k a l
  end.

Definition thread_sleep (k : kernel) : outcome kernel :=
  assert! negb (intr_context k) in
  let! k := push (F_intr (intr_level k)) k in
  let k := set_intr false k in
  let! cur := thread_current k in
  let! k := upd cur (set_status THREAD_BLOCKED) k in
  let k := set_sleep (insert_sleep k cur (sleep_list k)) k in
  schedule k.

Definition is_sleep_list_empty (k : kernel) : bool :=
  match sleep_list k with [] => true | _ => false end.

Definition thread_slept_first (k : kernel) : outcome Z :=
  assert! negb (is_sleep_list_empty k) in oget (head (sleep_list k)).

Definition thread_awake (k : kernel) : outcome kernel :=
  assert! negb (is_sleep_list_empty k) in
  let! a := oget (head (sleep_list k)) in
  let k := set_sleep (tail (sleep_list k)) k in
  assert! is_thread k a in
  let! t := oget (threads k !! a) in
  assert! bool_decide (status t = THREAD_BLOCKED) in
  let k := set_ready (ready_list k ++ [a]) k in
  upd a (set_status THREAD_READY) k.

Definition thread_tick (k : kernel) : outcome kernel :=
  let! cur := thread_current k in
  let! t := oget (threads k !! cur) in
  let idle := bool_decide (idle_thread k = Some cur) in
  let user := negb idle && bool_decide (is_Some (pagedir t)) in
  let n := u32 (thread_ticks k + 1) in
  Ok (mk_kernel (threads k) (current k) (ready_list k) (sleep_list k) (all_list k) (idle_thread k)
        (initial_thread k) (next_tid k) (intr_level k) (intr_context k)
        (if TIME_SLICE <=? n then true else yield_on_return k) (ticks k) n
        (if idle then s64 (idle_ticks k + 1) else idle_ticks k)
        (if idle || user then kernel_ticks k else s64 (kernel_ticks k + 1))
        (if user then s64 (user_ticks k + 1) else user_ticks k)
        (semas k) (locks k) (conds k)).

(** ** Creation and exit *)
Definition exec_sema (a : Z) : Z := a + 1.
Definition wait_sema (a : Z) : Z := a + 2.
Definition exit_sema (a : Z) : Z := a + 3.

Definition init_thread (a : Z) (nm : string) (prio : Z) (k : kernel) : outcome kernel :=
  assert! (PRI_MIN <=? prio) && (prio <=? PRI_MAX) in
  let t := mk_thread 0 THREAD_BLOCKED (String.substring 0 15 nm) prio 0 [] None None None None
             (replicate (Z.to_nat MAX_FILE_CNT) false) THREAD_ROOT_DIR (-1) true THREAD_MAGIC [] in
  let k := set_threads (<[a := t]> (threads k)) k in
  let k := set_semas (<[exec_sema a := mk_sema 0 []]> (<[wait_sema a := mk_sema 0 []]>
             (<[exit_sema a := mk_sema 0 []]> (semas k)))) k in
  Ok (set_all (all_list k ++ [a]) k).

(** The section under [tid_lock], as one step. *)
Definition allocate_tid (k : kernel) : Z * kernel :=
  (next_tid k, set_next_tid (s32 (next_tid k + 1)) k).

(** [page] is what [palloc_get_page (PAL_ZERO)] returns. *)
Definition thread_create (nm : string) (prio : Z) (page : option Z) (k : kernel) : outcome (Z * kernel) :=
  match page with
  | None => Ok (TID_ERROR, k)
  | Some a =>
    let! k := init_thread a nm prio k in
    let (id, k) := allocate_tid k in
    let! cur := thread_current k in
    let! c := oget (threads k !! cur) in
    let! k := upd a (fun t => mk_thread id (status t) (name t) (priority t) (alarm_ticks t) (child_list t)
                (Some cur) (pagedir t) (file_list t) (map_list t) (is_dir_list t) (cur_dir c)
                (exit_status t) (exec_status t) (magic t) [F_start]) k in
    let! k := upd cur (fun t => set_children (child_list t ++ [a]) t) k in
    let! k := thread_unblock a k in
    Ok (id, k)
  end.

(** The end of [thread_exit]. *)
Definition thread_exit_end (k : kernel) : outcome kernel :=
  let k := set_intr false k in
  let! cur := thread_current k in
  let k := set_all (filter (fun b => b <> cur) (all_list k)) k in
  let! k := upd cur (set_status THREAD_DYING) k in
  schedule k.

(** ** Searches and simple accessors *)
Definition thread_tid (k : kernel) : outcome Z :=
  let! cur := thread_current k in let! t := oget (threads k !! cur) in Ok (tid t).
Definition thread_name (k : kernel) : outcome string :=
  let! cur := thread_current k in let! t := oget (threads k !! cur) in Ok (name t).
Definition thread_set_priority (p : Z) (k : kernel) : outcome kernel :=
  let! cur := thread_current k in upd cur (set_priority p) k.
Definition thread_get_priority (k : kernel) : outcome Z :=
  let! cur := thread_current k in let! t := oget (threads k !! cur) in Ok (priority t).

Fixpoint from_tid_loop (k : kernel) (l : list Z) (id : Z) : outcome (option Z) :=
  match l with
  | [] => Ok None
  | a :: l => let! t := oget (threads k !! a) in
              if tid t =? id then Ok (Some a) else from_tid_loop k l id
  end.
Definition thread_from_tid (id : Z) (k : kernel) : outcome (option Z) := from_tid_loop k (all_list k) id.

Fixpoint on_dir_loop (k : kernel) (l : list Z) (sector : Z) : outcome bool :=
  match l with
  | [] => Ok false
  | a :: l => let! t := oget (threads k !! a) in
              if cur_dir t =? sector then Ok true else on_dir_loop k l sector
  end.
Definition thread_on_dir (sector : Z) (k : kernel) : outcome bool := on_dir_loop k (all_list k) sector.

(** [thread_foreach] with [func] as an effect on the kernel state. *)
Fixpoint foreach_loop (func : Z -> kernel -> outcome kernel) (l : list Z) (k : kernel) : outcome kernel :=
  match l with
  | [] => Ok k
  | a :: l => let! k := func a k in foreach_loop func l k
  end.
Definition thread_foreach (func : Z -> kernel -> outcome kernel) (k : kernel) : outcome kernel :=
  assert! negb (intr_level k) in foreach_loop func (all_list k) k.
