(* ===== verification/FdTable.v ===== *)
(** * threads/thread.c: the tables of open files and of mapped files

    [file_list] is a zeroed page of pointers, of which entries 3 to
    [MAX_FILE_CNT - 1] are used; [map_list] likewise from 0.  [page] is whether
    [palloc_get_page] finds a page: the code does not test its result, so a
    missing page is a store through a null pointer. *)
From S2P Require Import Prelude Thread.

Definition page_slots : nat := 1024.
Definition zero_page : list (option Z) := replicate page_slots None.

(** [for (int i = ...; i < ...; i++) if (list[i] == NULL) ...] *)
Fixpoint free_slot (fuel : nat) (l : list (option Z)) (i : Z) : outcome (option Z) :=
  match fuel with
  | O => Ok None
  | S fuel => let! e := oget (l !! Z.to_nat i) in
              match e with None => Ok (Some i) | Some _ => free_slot fuel l (i + 1) end
  end.

Definition thread_push_file (page : bool) (file : Z) (k : kernel) : outcome (Z * kernel) :=
  let! cur := thread_current k in
  let! t := oget (threads k !! cur) in
  match file_list t with
  | None =>
    if page then
      let! k := upd cur (set_files (Some (<[3%nat := Some file]> zero_page))) k in Ok (3, k)
    else Err Fault
  | Some l =>
    let! r := free_slot (Z.to_nat (MAX_FILE_CNT - 3)) l 3 in
    match r with
    | Some i => let! k := upd cur (set_files (Some (<[Z.to_nat i := Some file]> l))) k in Ok (i, k)
    | None => Ok (-1, k)
    end
  end.

Definition thread_remove_file (fd : Z) (k : kernel) : outcome (option Z * kernel) :=
  assert! (2 <? fd) && (fd <? MAX_FILE_CNT) in
  let! cur := thread_current k in
  let! t := oget (threads k !! cur) in
  match file_list t with
  | None => Ok (None, k)
  | Some l =>
    let! file := oget (l !! Z.to_nat fd) in
    let! k := upd cur (set_files (Some (<[Z.to_nat fd := None]> l))) k in
    Ok (file, k)
  end.

Definition thread_get_file (fd : Z) (k : kernel) : outcome (option Z) :=
  assert! (2 <? fd) && (fd <? MAX_FILE_CNT) in
  let! cur := thread_current k in
  let! t := oget (threads k !! cur) in
  match file_list t with
  | None => Ok None
  | Some l => oget (l !! Z.to_nat fd)
  end.

Definition thread_push_map (page : bool) (map : Z) (k : kernel) : outcome (Z * kernel) :=
  let! cur := thread_current k in
  let! t := oget (threads k !! cur) in
  match map_list t with
  | None =>
    if page then
      let! k := upd cur (set_maps (Some (<[O := Some map]> zero_page))) k in Ok (0, k)
    else Err Fault
  | Some l =>
    let! r := free_slot (Z.to_nat MAX_MAP_CNT) l 0 in
    match r with
    | Some i => let! k := upd cur (set_maps (Some (<[Z.to_nat i := Some map]> l))) k in Ok (i, k)
    | None => Ok (-1, k)
    end
  end.

Definition thread_remove_map (id : Z) (k : kernel) : outcome (option Z * kernel) :=
  assert! (0 <=? id) && (id <? MAX_MAP_CNT) in
  let! cur := thread_current k in
  let! t := oget (threads k !! cur) in
  match map_list t with
  | None => Ok (None, k)
  | Some l =>
    let! map := oget (l !! Z.to_nat id) in
    let! k := upd cur (set_maps (Some (<[Z.to_nat id := None]> l))) k in
    Ok (map, k)
  end.

Definition thread_get_map (id : Z) (k : kernel) : outcome (option Z) :=
  assert! (0 <=? id) && (id <? MAX_MAP_CNT) in
  let! cur := thread_current k in
  let! t := oget (threads k !! cur) in
  match map_list t with
  | None => Ok None
  | Some l => oget (l !! Z.to_nat id)
  end.

(** [is_dir_list[fd]], an array of [MAX_FILE_CNT] elements. *)
Definition dir_index (fd : Z) : outcome nat :=
  if (0 <=? fd) && (fd <? MAX_FILE_CNT) then Ok (Z.to_nat fd) else Err Fault.

Definition thread_fd_is_dir (fd : Z) (k : kernel) : outcome bool :=
  let! cur := thread_current k in
  let! t := oget (threads k !! cur) in
  let! i := dir_index fd in oget (is_dir_list t !! i).
Definition thread_fd_clear_dir (fd : Z) (k : kernel) : outcome kernel :=
  let! cur := thread_current k in
  let! i := dir_index fd in
  upd cur (fun t => set_dirs (<[i := false]> (is_dir_list t)) t) k.
Definition thread_fd_set_dir (fd : Z) (k : kernel) : outcome kernel :=
  let! cur := thread_current k in
  let! i := dir_index fd in
  upd cur (fun t => set_dirs (<[i := true]> (is_dir_list t)) t) k.

(** ** The table as a partial map from descriptors to files *)

(** The file behind [fd] for the current thread. *)
Definition fd_lookup (k : kernel) (fd : Z) : option Z :=
  if (2 <? fd) && (fd <? MAX_FILE_CNT) then
    t ← threads k !! current k; l ← file_list t; mjoin (l !! Z.to_nat fd)
  else None.

(** A thread whose table, if it has one, is a page. *)
Definition fd_ok (k : kernel) : Prop :=
  exists t, threads k !! current k = Some t /\ magic t = THREAD_MAGIC /\ status t = THREAD_RUNNING /\
    forall l, file_list t = Some l -> List.length l = page_slots.

Lemma thread_current_ok k t :
  threads k !! current k = Some t -> magic t = THREAD_MAGIC -> status t = THREAD_RUNNING ->
  thread_current k = Ok (current k).
Proof.
  intros H Hm Hs. rw /thread_current /is_thread H Hm Z.eqb_refl /= bool_decide_eq_true_2 //.
Qed.

Lemma free_slot_spec n l i :
  0 <= i -> (Z.to_nat i + n <= List.length l)%nat ->
  (exists j, free_slot n l i = Ok (Some j) /\ i <= j < i + Z.of_nat n /\ l !! Z.to_nat j = Some None /\
     forall m, i <= m < j -> exists x, l !! Z.to_nat m = Some (Some x)) \/
  (free_slot n l i = Ok None /\ forall m, i <= m < i + Z.of_nat n -> exists x, l !! Z.to_nat m = Some (Some x)).
Proof.
  revert i. induction n as [|n IH]; intros i Hi Hl; [right; split; [done|lia]|]. simpl.
  destruct (lookup_lt_is_Some_2 l (Z.to_nat i)) as [[x|] Hx]; [lia| |].
  - rw Hx /=. destruct (IH (i + 1)) as [(j & -> & Hj & Hjn & Hm)|[-> Hm]]; [lia|lia| |].
    + left. exists j. split_and!; [done|lia|lia|done|]. intros m Hmj.
      destruct (decide (m = i)) as [->|]; [by exists x|apply Hm; lia].
    + right. split; [done|]. intros m Hmj. destruct (decide (m = i)) as [->|]; [by exists x|apply Hm; lia].
  - rw Hx /=. left. exists i. split_and!; [done|lia|lia|done|lia].
Qed.

Lemma fd_lookup_insert k t l i (o : option Z) fd :
  threads k !! current k = Some t -> List.length l = page_slots -> 0 <= i < 1024 ->
  fd_lookup (set_threads (<[current k := set_files (Some (<[Z.to_nat i := o]> l)) t]> (threads k)) k) fd =
    if (2 <? fd) && (fd <? MAX_FILE_CNT) then
      (if decide (fd = i) then o else mjoin (l !! Z.to_nat fd)) else None.
Proof.
  intros Ht Hl Hi. rw /fd_lookup /= lookup_insert_eq /=. destruct (_ && _) eqn:E; [|done].
  apply andb_true_iff in E. destruct (decide (fd = i)) as [->|Hne].
  - rw list_lookup_insert_eq //. rw Hl /page_slots. lia.
  - rw list_lookup_insert_ne //. lia.
Qed.

#[local] Arguments free_slot : simpl never.
#[local] Arguments zero_page : simpl never.
#[local] Arguments replicate : simpl never.

Lemma fd_lookup_none k t fd :
  threads k !! current k = Some t -> file_list t = None -> fd_lookup k fd = None.
Proof. intros Ht Hf. rw /fd_lookup Ht /= Hf. by destruct (_ && _). Qed.

Lemma fd_lookup_some k t l fd :
  threads k !! current k = Some t -> file_list t = Some l -> (2 <? fd) && (fd <? MAX_FILE_CNT) = true ->
  fd_lookup k fd = mjoin (l !! Z.to_nat fd).
Proof. intros Ht Hf He. by rw /fd_lookup He Ht /= Hf. Qed.

(** The kernel with the table of the current thread replaced. *)
Definition with_files (k : kernel) (t : thread) (l : list (option Z)) : kernel :=
  set_threads (<[current k := set_files (Some l) t]> (threads k)) k.

Lemma upd_files k t l :
  threads k !! current k = Some t -> upd (current k) (set_files (Some l)) k = Ok (with_files k t l).
Proof. intros Ht. by rw /upd Ht. Qed.

Lemma fd_ok_with k t l :
  magic t = THREAD_MAGIC -> status t = THREAD_RUNNING -> List.length l = page_slots -> fd_ok (with_files k t l).
Proof.
  intros Hm Hs Hl. exists (set_files (Some l) t). rw /= lookup_insert_eq. split_and!; try done.
  by intros l' [= <-].
Qed.

Lemma thread_push_file_spec file k :
  fd_ok k ->
  exists fd k', thread_push_file true file k = Ok (fd, k') /\ fd_ok k' /\
    ((fd = -1 /\ k' = k /\ forall n, 3 <= n < MAX_FILE_CNT -> is_Some (fd_lookup k n)) \/
     (3 <= fd < MAX_FILE_CNT /\ fd_lookup k fd = None /\ (forall n, 3 <= n < fd -> is_Some (fd_lookup k n)) /\
      forall n, fd_lookup k' n = if decide (n = fd) then Some file else fd_lookup k n)).
Proof.
  intros Hok. have [t [Ht [Hm [Hs Hl]]]] := Hok. rw /thread_push_file (thread_current_ok k t) //= Ht /=.
  destruct (file_list t) as [l|] eqn:Hf.
  - have Hll := Hl l eq_refl. unfold MAX_FILE_CNT in *.
    have Hin : forall n, 3 <= n < 20 -> fd_lookup k n = mjoin (l !! Z.to_nat n).
    { intros n Hn. apply (fd_lookup_some k t); [done|done|]. rw /MAX_FILE_CNT. lia. }
    have Hb : (Z.to_nat 3 + Z.to_nat (20 - 3) <= List.length l)%nat by rw Hll /page_slots; lia.
    destruct (free_slot_spec (Z.to_nat (20 - 3)) l 3 ltac:(lia) Hb) as [(j & -> & Hj & Hjn & Hmin)|[-> Hall]].
    + simpl. rw (upd_files k t) //=. exists j, (with_files k t (<[Z.to_nat j := Some file]> l)).
      split_and!; [done|by apply fd_ok_with; [| |rw length_insert]|]. right. split_and!; [lia|lia| | |].
      * by rw Hin ?Hjn; [lia|].
      * intros n Hn. rw Hin; [lia|]. destruct (Hmin n Hn) as [x ->]. by eexists.
      * intros n. rw /with_files (fd_lookup_insert k t) //; [lia|].
        destruct ((2 <? n) && (n <? MAX_FILE_CNT)) eqn:E.
        -- case_decide; [done|]. symmetry. by apply (fd_lookup_some k t).
        -- rw decide_False; [rw /MAX_FILE_CNT in E; lia|]. by rw /fd_lookup E.
    + exists (-1), k. split_and!; [done|done|]. left. split_and!; [done|done|].
      intros n Hn. rw Hin //. destruct (Hall n) as [x ->]; [lia|]. by eexists.
  - rw (upd_files k t) //=. exists 3, (with_files k t (<[3%nat := Some file]> zero_page)).
    split_and!; [done|by apply fd_ok_with; [| |rw length_insert length_replicate]|]. right.
    split_and!; [try done; try lia; try (by apply (fd_lookup_none k t)).. |].
    intros n. rw (fd_lookup_none k t n) //. change 3%nat with (Z.to_nat 3).
    rw /with_files (fd_lookup_insert k t) //.
    destruct ((2 <? n) && (n <? MAX_FILE_CNT)) eqn:E; case_decide as Hn; try done.
    + rw /zero_page. by destruct (replicate _ _ !! _) as [[]|] eqn:El; [apply lookup_replicate in El as [? _]| |].
    + subst. done.
Qed.

Lemma thread_get_file_spec fd k :
  fd_ok k -> 3 <= fd < MAX_FILE_CNT -> thread_get_file fd k = Ok (fd_lookup k fd).
Proof.
  intros Hok Hfd. have [t [Ht [Hm [Hs Hl]]]] := Hok.
  have He : (2 <? fd) && (fd <? MAX_FILE_CNT) = true by lia.
  rw /thread_get_file He /= (thread_current_ok k t) //= Ht /=. destruct (file_list t) as [l|] eqn:Hf.
  - rw (fd_lookup_some k t l fd) //. destruct (lookup_lt_is_Some_2 l (Z.to_nat fd)) as [x Hx].
    + rw (Hl l eq_refl) /page_slots. unfold MAX_FILE_CNT in *. lia.
    + by rw Hx.
  - by rw (fd_lookup_none k t).
Qed.

Lemma thread_remove_file_spec fd k :
  fd_ok k -> 3 <= fd < MAX_FILE_CNT ->
  exists k', thread_remove_file fd k = Ok (fd_lookup k fd, k') /\ fd_ok k' /\
    forall n, fd_lookup k' n = if decide (n = fd) then None else fd_lookup k n.
Proof.
  intros Hok Hfd. have [t [Ht [Hm [Hs Hl]]]] := Hok.
  have He : (2 <? fd) && (fd <? MAX_FILE_CNT) = true by lia.
  rw /thread_remove_file He /= (thread_current_ok k t) //= Ht /=. destruct (file_list t) as [l|] eqn:Hf.
  - have Hll := Hl l eq_refl. rw (fd_lookup_some k t l fd) //.
    destruct (lookup_lt_is_Some_2 l (Z.to_nat fd)) as [x Hx].
    { rw Hll /page_slots. unfold MAX_FILE_CNT in *. lia. }
    rw Hx /= (upd_files k t) //=. eexists. split_and!; [done|by apply fd_ok_with; [| |rw length_insert]|].
    intros n. rw /with_files (fd_lookup_insert k t) //; [unfold MAX_FILE_CNT in *; lia|].
    destruct ((2 <? n) && (n <? MAX_FILE_CNT)) eqn:E; case_decide as Hn; try done.
    + symmetry. by apply (fd_lookup_some k t).
    + by rw /fd_lookup E.
  - rw (fd_lookup_none k t) //. exists k. split_and!; [done|done|].
    intros n. rw (fd_lookup_none k t n) //. by case_decide.
Qed.

(** Descriptors.  Opening gives the least free descriptor, 3 to 19, and
    -1 exactly when all are taken; looking the descriptor up returns the file;
    closing it returns the file and makes it free again, and no other
    descriptor is affected by any of this. *)
Theorem fd_table_correct (file : Z) (k : kernel) :
  fd_ok k ->
  exists fd k1, thread_push_file true file k = Ok (fd, k1) /\
    ((fd = -1 /\ k1 = k /\ forall n, 3 <= n < MAX_FILE_CNT -> is_Some (fd_lookup k n)) \/
     (3 <= fd < MAX_FILE_CNT /\ fd_lookup k fd = None /\ (forall n, 3 <= n < fd -> is_Some (fd_lookup k n)) /\
      thread_get_file fd k1 = Ok (Some file) /\
      (forall n, 3 <= n < MAX_FILE_CNT -> n <> fd -> thread_get_file n k1 = thread_get_file n k) /\
      exists k2, thread_remove_file fd k1 = Ok (Some file, k2) /\
        forall n, 3 <= n < MAX_FILE_CNT -> thread_get_file n k2 = thread_get_file n k)).
Proof.
  intros Hk. destruct (thread_push_file_spec file k Hk) as (fd & k1 & Hp & Hk1 & [H|(Hr & Hn & Hmin & Hl)]).
  { exists fd, k1. split; [done|by left]. }
  exists fd, k1. split; [done|]. right.
  destruct (thread_remove_file_spec fd k1 Hk1 Hr) as (k2 & Hrm & Hk2 & Hl2).
  split_and!; [lia|lia|done|done| | |].
  - by rw thread_get_file_spec // Hl decide_True.
  - intros n Hn1 Hne. by rw !thread_get_file_spec // Hl decide_False.
  - exists k2. split; [by rw Hrm Hl decide_True|]. intros n Hn1.
    rw !thread_get_file_spec // Hl2 Hl. by case_decide; subst; rw ?Hn.
Qed.

Definition ex_thread : thread :=
  mk_thread 1 THREAD_RUNNING "main" 31 0 [] None None None None (replicate 20 false) 1 (-1) true THREAD_MAGIC [].
Definition ex_kernel : kernel :=
  mk_kernel {[4096 := ex_thread]} 4096 [] [] [4096] None 4096 2 true false false 0 0 0 0 0 ∅ ∅ ∅.

Lemma fd_table_correct_witness :
  fd_ok ex_kernel /\
  exists fd k1, thread_push_file true 77 ex_kernel = Ok (fd, k1) /\
    ((fd = -1 /\ k1 = ex_kernel /\ forall n, 3 <= n < MAX_FILE_CNT -> is_Some (fd_lookup ex_kernel n)) \/
     (3 <= fd < MAX_FILE_CNT /\ fd_lookup ex_kernel fd = None /\
      (forall n, 3 <= n < fd -> is_Some (fd_lookup ex_kernel n)) /\
      thread_get_file fd k1 = Ok (Some 77) /\
      (forall n, 3 <= n < MAX_FILE_CNT -> n <> fd -> thread_get_file n k1 = thread_get_file n ex_kernel) /\
      exists k2, thread_remove_file fd k1 = Ok (Some 77, k2) /\
        forall n, 3 <= n < MAX_FILE_CNT -> thread_get_file n k2 = thread_get_file n ex_kernel)).
Proof.
  have H : fd_ok ex_kernel by exists ex_thread.
  split; [done|]. exact (fd_table_correct 77 ex_kernel H).
Defined.
