(* ===== verification/Syscall.v ===== *)
(** * userprog/syscall.c: the calls on files and directories

    The calls of one process on the file system.  [objects] is the kernel memory
    that holds the [struct file] and [struct dir] objects, by address; the table of
    descriptors is that of the current thread (FdTable.v).  A directory used as a
    file, or the converse, and a null pointer that is read, is a [Fault].  User
    memory is passed by value: the bytes a call reads, and the bytes it stores.
    [junk] is what an uninitialised variable holds; [page] whether there is a page
    for the table.

    The theorems: the calls on a file through its descriptor, descriptors that
    share a file; what descriptors that are not open do; opening and closing. *)
From S2P Require Import Prelude Thread FdTable CString Printf Block Bitmap Store Cache Inode InodeIO File Dir FreeMap FileSys.

Inductive object := FileObj (fl : file) | DirObj (d : dir).
(** How a call ends: it returns, the process ends, or it waits for input. *)
Inductive reply (A : Type) := Returns (a : A) | Exits | Waits.
Arguments Returns {A}.
Arguments Exits {A}.
Arguments Waits {A}.

Section calls.
Context {St : Type} `{!SectorOps St}.
Implicit Types (F : fm_ops St).

(** [console] is what [putbuf] has written; [input] the keys that [input_getc] will find. *)
Record sys := mk_sys { kern : kernel; fsys : fs St; objects : gmap Z object; console : list Z; input : list Z }.
Implicit Types (s : sys).

Definition set_kern s k : sys := mk_sys k (fsys s) (objects s) (console s) (input s).
Definition set_fsys s f : sys := mk_sys (kern s) f (objects s) (console s) (input s).
Definition put_object s (a : Z) (o : object) : sys := mk_sys (kern s) (fsys s) (<[a := o]> (objects s)) (console s) (input s).
Definition free_object s (a : Z) : sys := mk_sys (kern s) (fsys s) (delete a (objects s)) (console s) (input s).
(** The memory for a new object comes from the heap that inodes come from. *)
Definition new_object s (o : object) : Z * sys :=
  let a := next_addr (fsys s) in (a, put_object (set_fsys s (set_next (fsys s) (a + 1))) a o).
Definition current_thread s : outcome thread := let! cur := thread_current (kern s) in oget (threads (kern s) !! cur).

(** A pointer used as a [struct file *] or a [struct dir *]. *)
Definition as_file s (a : Z) : outcome file := match objects s !! a with Some (FileObj fl) => Ok fl | _ => Err Fault end.
Definition as_dir s (a : Z) : outcome dir := match objects s !! a with Some (DirObj d) => Ok d | _ => Err Fault end.
(** [ASSERT (file != NULL)] *)
Definition not_null (a : option Z) : outcome Z := match a with Some a => Ok a | None => Err Panic end.

Context (F : fm_ops St) (stack : list Z) (dead : list Z -> list Z).

Definition create s (file : list Z) (initial_size : Z) : outcome (bool * sys) :=
  let! t := current_thread s in
  let! (ok, f) := filesys_create stack dead F (fsys s) (cur_dir t) file (s32 initial_size) in
  Ok (ok, set_fsys s f).

Definition remove s (on_dir : Z -> bool) (file : list Z) : outcome (bool * sys) :=
  let! t := current_thread s in
  let! (ok, f) := filesys_remove stack dead F (fsys s) on_dir (cur_dir t) file in
  Ok (ok, set_fsys s f).

(** [strcmp (thread_name (), file) == 0] *)
Definition is_running (t : thread) (file : list Z) : bool := bool_decide (chars (name t) = file).
Definition open s (page junk : bool) (file : list Z) : outcome (Z * sys) :=
  let! t := current_thread s in
  let! (r, is_dir, f) := filesys_open_with_is_dir stack dead F (fsys s) (cur_dir t) file junk in
  let s := set_fsys s f in
  let o := match r with
           | OpenedDir (Some d) => Some (DirObj d)
           | OpenedFile (Some fl) => Some (FileObj fl)
           | _ => None
           end in
  match o with
  | None => Ok (-1, s)
  | Some o =>
    let (a, s) := new_object s o in
    let! (result, k) := thread_push_file page a (kern s) in
    let s := set_kern s k in
    if is_dir then
      let! k := thread_fd_set_dir result (kern s) in Ok (result, set_kern s k)
    else
      let! s := if is_running t file then
                  let! fl := as_file s a in
                  let! (fl, f) := file_deny_write (fsys s) fl in
                  Ok (put_object (set_fsys s f) a (FileObj fl))
                else Ok s in
      let! k := thread_fd_clear_dir result (kern s) in Ok (result, set_kern s k)
  end.

Definition filesize s (fd : Z) : outcome (reply Z * sys) :=
  if (fd <? 3) || (MAX_FILE_CNT <=? fd) then Ok (Exits, s) else
  let! d := thread_fd_is_dir fd (kern s) in
  assert! negb d in
  let! p := thread_get_file fd (kern s) in
  let! a := not_null p in
  let! fl := as_file s a in
  let! n := file_length (fsys s) fl in
  Ok (Returns n, s).

(** The bytes stored at [buffer].  The keys read from descriptor 0 are not stored. *)
Definition read s (fd size : Z) : outcome (reply (Z * list Z) * sys) :=
  if fd =? 0 then
    if size <=? Z.of_nat (List.length (input s))
    then Ok (Returns (s32 size, []), mk_sys (kern s) (fsys s) (objects s) (console s) (drop (Z.to_nat size) (input s)))
    else Ok (Waits, s)
  else if (fd <? 0) || (fd =? 1) || (fd =? 2) || (MAX_FILE_CNT <=? fd) then Ok (Exits, s) else
  let! d := thread_fd_is_dir fd (kern s) in
  if d then Ok (Exits, s) else
  let! p := thread_get_file fd (kern s) in
  let! a := oget p in
  let! fl := as_file s a in
  let! (bs, fl, f) := file_read (fsys s) fl (s32 size) in
  Ok (Returns (Z.of_nat (List.length bs), bs), put_object (set_fsys s f) a (FileObj fl)).

(** [buffer] has [size] bytes, less than 2^31. *)
Definition write s (fd : Z) (buffer : list Z) : outcome (reply Z * sys) :=
  if fd =? 1 then
    Ok (Returns (Z.of_nat (List.length buffer)), mk_sys (kern s) (fsys s) (objects s) (console s ++ buffer) (input s))
  else if (fd <? 1) || (fd =? 2) || (MAX_FILE_CNT <=? fd) then Ok (Exits, s) else
  let! d := thread_fd_is_dir fd (kern s) in
  if d then Ok (Exits, s) else
  let! p := thread_get_file fd (kern s) in
  let! a := oget p in
  let! fl := as_file s a in
  let! (n, fl, f) := file_write F (fsys s) fl buffer in
  Ok (Returns n, put_object (set_fsys s f) a (FileObj fl)).

Definition seek s (fd position : Z) : outcome (reply unit * sys) :=
  if (fd <? 3) || (MAX_FILE_CNT <=? fd) then Ok (Exits, s) else
  let! d := thread_fd_is_dir fd (kern s) in
  assert! negb d in
  let! p := thread_get_file fd (kern s) in
  let! a := not_null p in
  let! fl := as_file s a in
  let! fl := file_seek fl (s32 position) in
  Ok (Returns tt, put_object s a (FileObj fl)).

Definition tell s (fd : Z) : outcome (reply Z * sys) :=
  if (fd <? 3) || (MAX_FILE_CNT <=? fd) then Ok (Exits, s) else
  let! d := thread_fd_is_dir fd (kern s) in
  assert! negb d in
  let! p := thread_get_file fd (kern s) in
  let! a := not_null p in
  let! fl := as_file s a in
  Ok (Returns (file_tell fl), s).

Definition close s (fd : Z) : outcome (reply unit * sys) :=
  if (fd <? 3) || (MAX_FILE_CNT <=? fd) then Ok (Exits, s) else
  let! (p, k) := thread_remove_file fd (kern s) in
  let s := set_kern s k in
  match p with
  | None => Ok (Returns tt, s)
  | Some a =>
    let! d := thread_fd_is_dir fd (kern s) in
    let! f := if d then let! d := as_dir s a in dir_close F (fsys s) (Some d)
              else let! fl := as_file s a in file_close F (fsys s) (Some fl) in
    Ok (Returns tt, free_object (set_fsys s f) a)
  end.

(** [thread_current ()->cur_dir = ...] *)
Definition set_cur_dir (d : Z) (t : thread) : thread :=
  mk_thread (tid t) (status t) (name t) (priority t) (alarm_ticks t) (child_list t) (Thread.parent t) (pagedir t)
    (file_list t) (map_list t) (is_dir_list t) d (exit_status t) (exec_status t) (Thread.magic t) (todo t).
(** After an empty name [dir] is not initialised. *)
Definition chdir s (name : list Z) : outcome (bool * sys) :=
  let! t := current_thread s in
  let! (r, f) := filesys_parse stack dead F (fsys s) (cur_dir t) name in
  if bool_decide (name = []) then Err Fault else
  let dir := match r with Some (dir, _, _) => dir | None => None end in
  let! lock := lock_of f dir in
  let! f := acquire_dir f lock in
  let! (success, inode, new_dir, f) :=
    match r with
    | Some (Some d, parsed_name, _) =>
      if Z.of_nat (List.length parsed_name) =? 0 then Ok (true, None, Some ROOT_DIR_SECTOR, f) else
      let! (inode, f) := dir_lookup f d parsed_name stack in
      match inode with
      | None => Ok (false, None, None, f)
      | Some a => let! n := inode_get_inumber f a in Ok (true, Some a, Some n, f)
      end
    | _ => Ok (false, None, None, f)
    end in
  let! k := match new_dir with Some n => upd (current (kern s)) (set_cur_dir n) (kern s) | None => Ok (kern s) end in
  let! f := inode_close F f inode in
  let! f := dir_close F f dir in
  let! f := release_dir f lock in
  Ok (success, set_kern (set_fsys s f) k).

Definition mkdir s (name : list Z) : outcome (bool * sys) :=
  let! t := current_thread s in
  let! (r, f) := filesys_parse stack dead F (fsys s) (cur_dir t) name in
  let dir := match r with Some (dir, _, _) => dir | None => None end in
  let! (success, inode_sector, parsed_name, f) :=
    match r with
    | Some (Some _, parsed_name, _) =>
      if 0 <? Z.of_nat (List.length parsed_name) then
        let! (sec, f) := free_map_allocate F f 1 in
        match sec with
        | None => Ok (false, 0, parsed_name, f)
        | Some sec => let! (ok, f) := inode_create F f sec 0 in Ok (ok, sec, parsed_name, f)
        end
      else Ok (false, 0, parsed_name, f)
    | _ => Ok (false, 0, [], f)
    end in
  let! lock := lock_of f dir in
  let! f := acquire_dir f lock in
  let! (success, f) :=
    match success, dir with
    | true, Some d => dir_add F f d parsed_name inode_sector stack
    | _, _ => Ok (false, f)
    end in
  let! f := match success, dir with
            | true, Some d => dir_entry_set_dir F f d inode_sector stack
            | _, _ => Ok f
            end in
  let! f := if negb success && negb (inode_sector =? 0) then free_map_release F f inode_sector 1 else Ok f in
  let! f := dir_close F f dir in
  let! f := release_dir f lock in
  Ok (success, set_fsys s f).

(** The name stored, when the result is true. *)
Definition readdir s (fd : Z) : outcome (option (list Z) * sys) :=
  let! d := thread_fd_is_dir fd (kern s) in
  if negb d then Ok (None, s) else
  let! p := thread_get_file fd (kern s) in
  let! a := oget p in
  let! d := as_dir s a in
  let! (name, d, f) := dir_readdir (fsys s) d stack in
  Ok (name, put_object (set_fsys s f) a (DirObj d)).

Definition isdir s (fd : Z) : outcome (bool * sys) :=
  let! p := thread_get_file fd (kern s) in
  let! _ := not_null p in
  let! d := thread_fd_is_dir fd (kern s) in
  Ok (d, s).

Definition inumber s (fd : Z) : outcome (Z * sys) :=
  let! p := thread_get_file fd (kern s) in
  let! a := not_null p in
  let! d := thread_fd_is_dir fd (kern s) in
  let! inode := if d then let! d := as_dir s a in Ok (dir_get_inode d)
                else let! fl := as_file s a in Ok (file_get_inode fl) in
  let! n := inode_get_inumber (fsys s) inode in
  Ok (n, s).
End calls.
Arguments sys : clear implicits.

(** ** Open files of the process *)
Section open_files.
Context {St : Type} {ops : SectorOps St} {laws : SectorStore St}.
Implicit Types (s : sys St) (F : fm_ops St).

(** Descriptor [fd] stands for the file object [fl] at address [a]. *)
Record fd_file s (fd a : Z) (fl : file) : Prop := {
  ff_ok : fd_ok (kern s);
  ff_range : 3 <= fd < MAX_FILE_CNT;
  ff_table : fd_lookup (kern s) fd = Some a;
  ff_kind : thread_fd_is_dir fd (kern s) = Ok false;
  ff_object : objects s !! a = Some (FileObj fl) }.
(** The inode [b] of [s] represents a file with data sectors [ds]. *)
Record open_inode (n : Z) s (b : Z) (i : inode) (ds : list Z) : Prop := {
  oi_ok : sec_ok n (store (fsys s));
  oi_mem : mem (fsys s) = [];
  oi_open : inodes (fsys s) !! b = Some i;
  oi_grow : grow_lock i = false;
  oi_deny : deny_write_cnt i = 0;
  oi_rep : rep (sec_view (store (fsys s))) (sec_count (store (fsys s))) (data i) ds }.
(** What the file holds. *)
Definition file_bytes s (i : inode) (ds : list Z) : list Z := contents (sec_view (store (fsys s))) (data i) ds.

Lemma range_low fd : 3 <= fd < MAX_FILE_CNT -> (fd <? 3) || (MAX_FILE_CNT <=? fd) = false /\ (fd =? 0) = false /\ (fd =? 1) = false /\
  (fd <? 0) || (fd =? 1) || (fd =? 2) || (MAX_FILE_CNT <=? fd) = false /\ (fd <? 1) || (fd =? 2) || (MAX_FILE_CNT <=? fd) = false.
Proof. rw /MAX_FILE_CNT. lia. Qed.

Lemma fd_file_put s fd a fl f fl' : fd_file s fd a fl -> fd_file (put_object (set_fsys s f) a (FileObj fl')) fd a fl'.
Proof. intros []. split; try done. apply lookup_insert_eq. Qed.
Lemma fd_file_other s fd a fl f a' o : fd_file s fd a fl -> a' <> a -> fd_file (put_object (set_fsys s f) a' o) fd a fl.
Proof. intros [] Ha. split; try done. simpl. by rw lookup_insert_ne. Qed.

Lemma write_ok n F s fd a b p dw i ds bs : fd_file s fd a (mk_file b p dw) -> open_inode (n + Z.of_nat (List.length bs)) s b i ds -> 0 <= n ->
  0 <= p -> p + Z.of_nat (List.length bs) <= length (data i) ->
  exists st, write F s fd bs = Ok (Returns (Z.of_nat (List.length bs)), put_object (set_fsys s (set_store (fsys s) st)) a (FileObj (mk_file b (p + Z.of_nat (List.length bs)) dw))) /\
    open_inode n (put_object (set_fsys s (set_store (fsys s) st)) a (FileObj (mk_file b (p + Z.of_nat (List.length bs)) dw))) b i ds /\
    contents (sec_view st) (data i) ds = splice (file_bytes s i ds) p bs.
Proof.
  intros [Hok Hr Ht Hk Ho] [H1 H2 H3 H4 H5 H6] Hn Hp Hl. destruct (range_low fd Hr) as (_ & _ & E1 & _ & E2). rw /write E1 E2 Hk. cbn [obind].
  rw thread_get_file_spec // Ht. cbn [obind oget]. rw /as_file Ho. cbn [obind]. rw /file_write. cbn [finode pos].
  destruct (inode_write_at_inside n F (fsys s) b i ds bs p) as (st & E & [Hw1 Hw2 Hw3 Hw4 _]); try done. rw E. cbn [obind]. have Hli := rp_length _ _ _ _ H6.
  have -> : s32 (p + Z.of_nat (List.length bs)) = p + Z.of_nat (List.length bs) by rw swrap_small; [lia|rw /INT_MAX in Hli; lia|done].
  exists st. split_and!; try done. split; try done. simpl. by rw Hw2.
Qed.

Lemma read_ok n s fd a b p dw i ds size : fd_file s fd a (mk_file b p dw) -> open_inode n s b i ds -> 0 <= p <= INT_MAX -> 0 <= size <= INT_MAX ->
  let bs := slice (file_bytes s i ds) p (Z.min size (length (data i) - p)) in
  exists f', read s fd size = Ok (Returns (Z.of_nat (List.length bs), bs), put_object (set_fsys s f') a (FileObj (mk_file b (p + Z.of_nat (List.length bs)) dw))) /\
    open_inode n (put_object (set_fsys s f') a (FileObj (mk_file b (p + Z.of_nat (List.length bs)) dw))) b i ds /\
    forall t, sec_view (store f') t = sec_view (store (fsys s)) t.
Proof.
  intros [Hok Hr Ht Hk Ho] [H1 H2 H3 H4 H5 H6] Hp Hs bs. destruct (range_low fd Hr) as (_ & E0 & _ & E1 & _). rw /read E0 E1 Hk. cbn [obind].
  rw thread_get_file_spec // Ht. cbn [obind oget]. rw /as_file Ho. cbn [obind]. rw /file_read. cbn [finode pos Inode.deny_write].
  have -> : s32 size = size by rw swrap_small; [lia|rw /INT_MAX in Hs; lia|done].
  destruct (inode_read_at_ok n (fsys s) b i ds size p H1 H2 H3 H4 H6 Hp) as (f' & E & (st & -> & Ho' & Hc & Hv)). rw E. cbn [obind]. rw -/bs.
  have Hli := rp_length _ _ _ _ H6. have Hlc := length_contents _ _ _ _ H6.
  have Hlb : p + Z.of_nat (List.length bs) <= INT_MAX.
  { have Hle : Z.of_nat (List.length bs) <= Z.max 0 (length (data i) - p); [|lia]. rw /bs /slice length_take length_drop. rw /file_bytes. lia. }
  have -> : s32 (p + Z.of_nat (List.length bs)) = p + Z.of_nat (List.length bs) by rw swrap_small; [lia|rw /INT_MAX in Hlb; lia|done].
  exists (set_store (fsys s) st). split_and!; try done. split; try done. simpl. rw Hc. by apply (rep_ext (sec_view (store (fsys s)))).
Qed.
End open_files.

(** ** Descriptors that are not open *)
Section errors.
Context {St : Type} {ops : SectorOps St} {laws : SectorStore St}.
Implicit Types (s : sys St) (F : fm_ops St).

(** A descriptor in range that is free and not marked as a directory. *)
Record fd_free s (fd : Z) : Prop := {
  fr_ok : fd_ok (kern s);
  fr_range : 3 <= fd < MAX_FILE_CNT;
  fr_table : fd_lookup (kern s) fd = None;
  fr_kind : thread_fd_is_dir fd (kern s) = Ok false }.
End errors.

(** ** Examples: a process with two descriptors for the file of the example volume *)
Definition ex_small_inode : inode := mk_inode 2 1 false 0 false 8 ex_small.
Definition ex_calls_thread : thread :=
  mk_thread 1 THREAD_RUNNING "main" 31 0 [] None None (Some (<[4%nat := Some 51]> (<[3%nat := Some 50]> zero_page))) None (replicate 20 false) 1 (-1) true THREAD_MAGIC [].
Definition ex_calls_kernel : kernel :=
  mk_kernel {[4096 := ex_calls_thread]} 4096 [] [] [4096] None 4096 2 true false false 0 0 0 0 0 ∅ ∅ ∅.
Definition ex_sys : sys cache_state :=
  mk_sys ex_calls_kernel ex_fs (<[51 := FileObj (mk_file 7 3 false)]> {[50 := FileObj (mk_file 7 0 false)]}) [] [].
Lemma ex_sys_ok : fd_ok (kern ex_sys).
Proof. exists ex_calls_thread. split_and!; try done. by intros l [= <-]. Qed.
Lemma ex_sys_fds : fd_file ex_sys 3 50 (mk_file 7 0 false) /\ fd_file ex_sys 4 51 (mk_file 7 3 false).
Proof. split; (split; [apply ex_sys_ok|rw /MAX_FILE_CNT; lia|done|done|done]). Qed.
Lemma ex_sys_inode n : n <= INT_MAX -> open_inode n ex_sys 7 ex_small_inode [5].
Proof. intros Hn. split; try done; [by apply ex_ok|apply ex_rep]. Qed.

(** ** Sessions of file calls *)
Inductive fcall := FWrite (fd : Z) (bs : list Z) | FRead (fd size : Z) | FSeek (fd position : Z) | FTell (fd : Z) | FSize (fd : Z).
Inductive freply := Num (n : Z) | Bytes (n : Z) (bs : list Z) | Done.
Definition reply_map {A B : Type} (g : A -> B) (r : reply A) : reply B := match r with Returns a => Returns (g a) | Exits => Exits | Waits => Waits end.

(** What a file promises: its bytes, and a position for each descriptor.  Nothing is
    said of a write beyond the end, of a position or a size above [INT_MAX], or of other
    descriptors. *)
Definition fspec : Type := list Z * gmap Z Z.
Definition spec_fcall (sp : fspec) (c : fcall) : option (freply * fspec) :=
  let '(bytes, pos) := sp in
  match c with
  | FWrite fd bs => p ← pos !! fd;
      if p + Z.of_nat (List.length bs) <=? Z.of_nat (List.length bytes)
      then Some (Num (Z.of_nat (List.length bs)), (splice bytes p bs, <[fd := p + Z.of_nat (List.length bs)]> pos)) else None
  | FRead fd size => p ← pos !! fd;
      let out := take (Z.to_nat size) (drop (Z.to_nat p) bytes) in
      if (0 <=? size) && (size <=? INT_MAX)
      then Some (Bytes (Z.of_nat (List.length out)) out, (bytes, <[fd := p + Z.of_nat (List.length out)]> pos)) else None
  | FSeek fd q => _ ← pos !! fd; if (0 <=? q) && (q <=? INT_MAX) then Some (Done, (bytes, <[fd := q]> pos)) else None
  | FTell fd => p ← pos !! fd; Some (Num p, sp)
  | FSize fd => _ ← pos !! fd; Some (Num (Z.of_nat (List.length bytes)), sp)
  end.
Fixpoint spec_fcalls (sp : fspec) (cs : list fcall) : option (list (reply freply) * fspec) :=
  match cs with
  | [] => Some ([], sp)
  | c :: cs => '(r, sp) ← spec_fcall sp c; '(rs, sp) ← spec_fcalls sp cs; Some (Returns r :: rs, sp)
  end.

Section sessions.
Context {St : Type} {ops : SectorOps St} {laws : SectorStore St} (F : fm_ops St).
Implicit Types (s : sys St).

Definition fcall_run s (c : fcall) : outcome (reply freply * sys St) :=
  match c with
  | FWrite fd bs => let! (r, s) := write F s fd bs in Ok (reply_map Num r, s)
  | FRead fd size => let! (r, s) := read s fd size in Ok (reply_map (fun '(n, bs) => Bytes n bs) r, s)
  | FSeek fd q => let! (r, s) := seek s fd q in Ok (reply_map (fun _ => Done) r, s)
  | FTell fd => let! (r, s) := tell s fd in Ok (reply_map Num r, s)
  | FSize fd => let! (r, s) := filesize s fd in Ok (reply_map Num r, s)
  end.
(** The calls in order, until one does not return. *)
Fixpoint fcalls_run s (cs : list fcall) : outcome (list (reply freply) * sys St) :=
  match cs with
  | [] => Ok ([], s)
  | c :: cs =>
    let! (r, s) := fcall_run s c in
    match r with Returns _ => let! (rs, s) := fcalls_run s cs in Ok (r :: rs, s) | _ => Ok ([r], s) end
  end.
(** The bytes that a call stores. *)
Definition fcall_cost (c : fcall) : Z := match c with FWrite _ bs => Z.of_nat (List.length bs) | _ => 0 end.
Definition fcalls_cost (cs : list fcall) : Z := foldr (fun c n => n + fcall_cost c) 0 cs.

(** The descriptors [own], each with a file object of its own, on the inode [b]. *)
Context (own : gmap Z (Z * bool)) (b : Z) (i : inode) (ds : list Z).
Definition own_apart : Prop := forall fd fd' a d d', own !! fd = Some (a, d) -> own !! fd' = Some (a, d') -> fd = fd'.
Record shared_file (n : Z) s (sp : fspec) : Prop := {
  sf_inode : open_inode n s b i ds;
  sf_bytes : file_bytes s i ds = sp.1;
  sf_fd : forall fd p, sp.2 !! fd = Some p -> exists a dw, own !! fd = Some (a, dw) /\ fd_file s fd a (mk_file b p dw) /\ 0 <= p <= INT_MAX }.

Lemma shared_length n s sp : shared_file n s sp -> Z.of_nat (List.length sp.1) = length (data i) /\ length (data i) <= INT_MAX.
Proof. intros [Hi <- _]. have Hr := oi_rep _ _ _ _ _ Hi. rw /file_bytes (length_contents _ _ _ _ Hr). split; [done|]. apply Hr. Qed.
(** A call has used the position of [fd]. *)
Lemma shared_move (Hown : own_apart) n n' s bytes bytes' pos fd a dw p p' f' : let s' := put_object (set_fsys s f') a (FileObj (mk_file b p' dw)) in
  shared_file n s (bytes, pos) -> own !! fd = Some (a, dw) -> pos !! fd = Some p -> fd_file s fd a (mk_file b p dw) ->
  open_inode n' s' b i ds -> file_bytes s' i ds = bytes' -> 0 <= p' <= INT_MAX -> shared_file n' s' (bytes', <[fd := p']> pos).
Proof.
  intros s' [_ _ Hfd] Ho Hp Hff Hi Hb Hp'. split; [done|done|]. cbn [snd]. intros m q [[<- <-]|[Hne Hq]]%lookup_insert_Some.
  - exists a, dw. split_and!; [done|by eapply fd_file_put|lia..].
  - destruct (Hfd m q Hq) as (a2 & d2 & Ho2 & Hf2 & Hq2). exists a2, d2. split_and!; [done| |lia..]. apply fd_file_other; [done|]. intros ->. apply Hne. by eapply Hown.
Qed.

(** The file object behind a descriptor. *)
Lemma fd_get s fd a fl : fd_file s fd a fl -> ((fd <? 3) || (MAX_FILE_CNT <=? fd) = false) /\ thread_get_file fd (kern s) = Ok (Some a) /\ as_file s a = Ok fl.
Proof.
  intros H. split_and!; [apply (range_low fd (ff_range _ _ _ _ H))| |by rw /as_file (ff_object _ _ _ _ H)].
  rw thread_get_file_spec; [apply H|apply H|]. by rw (ff_table _ _ _ _ H).
Qed.
Lemma fcall_refines (Hown : own_apart) n s sp c r sp' : shared_file (n + fcall_cost c) s sp -> 0 <= n -> spec_fcall sp c = Some (r, sp') ->
  exists s', fcall_run s c = Ok (Returns r, s') /\ shared_file n s' sp'.
Proof.
  intros Hs Hn. destruct (shared_length _ _ _ Hs) as [Hlen Hmax]. destruct sp as [bytes pos]. cbn [fst] in Hlen. destruct c as [fd bs|fd size|fd q|fd|fd]; cbn [spec_fcall fcall_cost] in Hs |- *;
    destruct (pos !! fd) as [p|] eqn:Hp; cbn [mbind option_bind]; try done; destruct (sf_fd _ _ _ Hs fd p Hp) as (a & dw & Ho & Hff & Hpr); destruct (fd_get _ _ _ _ Hff) as (E0 & E1 & E2);
    have Hi := sf_inode _ _ _ Hs; have Hb := sf_bytes _ _ _ Hs; cbn [fst] in Hb; rw ?Z.add_0_r in Hs, Hi.
  - destruct (Z.leb_spec (p + Z.of_nat (List.length bs)) (Z.of_nat (List.length bytes))) as [Hle|]; [|done]. intros [= <- <-].
    destruct (write_ok n F s fd a b p dw i ds bs Hff Hi Hn) as (st & E & Hi1 & Hc); [lia|lia|]. cbn [fcall_run]. rw E. eexists. split; [done|]. eapply shared_move; try done; [|lia]. by rw -Hb.
  - destruct ((0 <=? size) && (size <=? INT_MAX)) eqn:Ez; [|done]. intros [= <- <-]. have Hsz : 0 <= size <= INT_MAX by lia.
    destruct (read_ok n s fd a b p dw i ds size Hff Hi Hpr Hsz) as (f' & E & Hi1 & Hv).
    have Eb : slice (file_bytes s i ds) p (Z.min size (length (data i) - p)) = take (Z.to_nat size) (drop (Z.to_nat p) bytes).
    { rw Hb /slice. destruct (Z.le_gt_cases size (length (data i) - p)); [by rw Z.min_l|]. rw Z.min_r; [lia|]. rw !firstn_all2 //; rw length_drop; lia. }
    rw Eb in E, Hi1. set out := take _ _ in E, Hi1 |- *. cbn [fcall_run]. rw E. eexists. split; [done|]. eapply shared_move; try done.
    + rw -Hb. rw /file_bytes /=. by apply contents_ext.
    + have Hlo : Z.of_nat (List.length out) <= Z.max 0 (length (data i) - p) by rw /out length_take length_drop; lia. lia.
  - destruct ((0 <=? q) && (q <=? INT_MAX)) eqn:Ez; [|done]. intros [= <- <-]. have Hq : 0 <= q <= INT_MAX by lia.
    have E : seek s fd q = Ok (Returns tt, put_object s a (FileObj (mk_file b q dw))).
    { rw /seek E0 (ff_kind _ _ _ _ Hff). cbn [obind negb ASSERT]. rw E1. cbn [obind not_null]. rw E2. cbn [obind]. rw /file_seek swrap_small; [lia|rw /INT_MAX in Hq; lia|]. by rw (proj2 (Z.leb_le 0 q)); [lia|]. }
    cbn [fcall_run]. rw E. eexists. split; [done|]. apply (shared_move Hown n n s bytes bytes pos fd a dw p q (fsys s)); try done. by destruct Hi.
  - intros [= <- <-]. exists s. split; [|done]. cbn [fcall_run]. by rw /tell E0 (ff_kind _ _ _ _ Hff); cbn [obind negb ASSERT]; rw E1; cbn [obind not_null]; rw E2.
  - intros [= <- <-]. exists s. split; [|done]. cbn [fcall_run]. rw /filesize E0 (ff_kind _ _ _ _ Hff). cbn [obind negb ASSERT]. rw E1. cbn [obind not_null]. rw E2. cbn [obind].
    rw /file_length /inode_length /get_inode /= (oi_open _ _ _ _ _ Hi). cbn [oget obind reply_map]. by rw Hlen.
Qed.
Lemma fcalls_refine (Hown : own_apart) n cs : 0 <= n -> forall s sp rs sp', shared_file (n + fcalls_cost cs) s sp -> spec_fcalls sp cs = Some (rs, sp') ->
  exists s', fcalls_run s cs = Ok (rs, s') /\ shared_file n s' sp'.
Proof.
  intros Hn. induction cs as [|c cs IH] => s sp rs sp' Hs; cbn [spec_fcalls fcalls_run].
  { intros [= <- <-]. exists s. split; [done|]. by rw /fcalls_cost /= Z.add_0_r in Hs. }
  destruct (spec_fcall sp c) as [[r sp1]|] eqn:E1; [|done]. cbn [mbind option_bind]. destruct (spec_fcalls sp1 cs) as [[rs1 sp2]|] eqn:E2; [|done]. cbn [mbind option_bind]. intros [= <- <-].
  have Hc : forall l, 0 <= fcalls_cost l by (induction l as [|x l IHl]; [done|]; rw /fcalls_cost /= -/(fcalls_cost l); destruct x; cbn [fcall_cost]; lia).
  have Hs1 : shared_file (n + fcalls_cost cs + fcall_cost c) s sp by (rw -Z.add_assoc; exact Hs).
  destruct (fcall_refines Hown (n + fcalls_cost cs) s sp c r sp1 Hs1) as (s1 & -> & Hf); [have := Hc cs; lia|done|]. cbn [obind].
  destruct (IH s1 sp1 rs1 sp2 Hf E2) as (s2 & -> & Hf2). by exists s2.
Qed.
End sessions.

(** C7: files through descriptors.  Any number of descriptors have file objects of their
    own on one open inode.  Any sequence of [write], [read], [seek], [tell] and [filesize]
    through them, in any order, returns what a plain list of bytes with a position for each
    descriptor gives, and leaves the file and the positions as that model does: a write
    stores its bytes at the position of its descriptor, a read returns the bytes from there
    up to the end of the file, and each call moves the position of its own descriptor and no
    other.  This is for sequences in which every write ends within the file (growing it is
    [inode_write_at]), every position and size is at most [INT_MAX], writing is not denied and
    the store can take that many writes; other descriptors are in [wrong_descriptors]. *)
Theorem file_calls_correct {St : Type} {ops : SectorOps St} {laws : SectorStore St} (n : Z) (F : fm_ops St) (s : sys St) (own : gmap Z (Z * bool)) (b : Z) (i : inode) (ds : list Z)
    (bytes : list Z) (pos : gmap Z Z) (cs : list fcall) (rs : list (reply freply)) (sp : fspec) :
  own_apart own -> shared_file own b i ds (n + fcalls_cost cs) s (bytes, pos) -> 0 <= n -> spec_fcalls (bytes, pos) cs = Some (rs, sp) ->
  exists s', fcalls_run F s cs = Ok (rs, s') /\ shared_file own b i ds n s' sp.
Proof. intros Ho Hs Hn. by apply fcalls_refine. Qed.

Definition ex_own : gmap Z (Z * bool) := {[3 := (50, false); 4 := (51, false)]}.
Definition ex_pos : gmap Z Z := {[3 := 0; 4 := 3]}.
Definition ex_calls : list fcall := [FWrite 3 [1; 2; 3; 4]; FRead 4 2; FSeek 3 1; FRead 3 3; FTell 4; FSize 3].
Definition ex_bytes : list Z := file_bytes ex_sys ex_small_inode [5].
Lemma file_calls_correct_witness :
  exists x y s', fcalls_run ex_fm ex_sys ex_calls = Ok ([Returns (Num 4); Returns (Bytes 2 [4; x]); Returns Done; Returns (Bytes 3 [2; 3; 4]); Returns (Num 5); Returns (Num y)], s').
Proof.
  have E : exists x y sp, spec_fcalls (ex_bytes, ex_pos) ex_calls = Some ([Returns (Num 4); Returns (Bytes 2 [4; x]); Returns Done; Returns (Bytes 3 [2; 3; 4]); Returns (Num 5); Returns (Num y)], sp).
  { vm_compute. by eexists _, _, _. }
  destruct E as (x & y & sp & E). edestruct (file_calls_correct 0 ex_fm ex_sys ex_own 7 ex_small_inode [5] ex_bytes ex_pos ex_calls) as (s' & E' & _); [| | |exact E|].
  - rw /own_apart /ex_own. intros fd fd' a d d' [[<- [= <- <-]]|[_ [<- [= <- <-]]%lookup_singleton_Some]]%lookup_insert_Some [[<- H]|[_ [<- H]%lookup_singleton_Some]]%lookup_insert_Some; congruence.
  - split; [by apply ex_sys_inode|done|]. destruct ex_sys_fds as [H3 H4]. cbn [snd]. rw /ex_pos /ex_own. intros fd p [[<- <-]|[_ [<- <-]%lookup_singleton_Some]]%lookup_insert_Some.
    + exists 50, false. split_and!; [done|exact H3|done|done].
    + exists 51, false. split_and!; [done|exact H4|done|done].
  - done.
  - by exists x, y, s'.
Defined.

(** Descriptors that are not open.  A descriptor outside the table ends the
    process in [filesize], [read], [write], [seek], [tell] and [close], but fails an
    assertion of the kernel in [isdir] and [inumber].  A descriptor in the table that
    is not open is ignored by [close]; in [filesize], [seek], [tell], [isdir] and
    [inumber] it fails an assertion, and [read] and [write] read through the null
    pointer: a process can stop the machine with a wrong number.  A position of 2^31
    or more fails an assertion as well. *)
Theorem wrong_descriptors {St : Type} {ops : SectorOps St} {laws : SectorStore St} (F : fm_ops St) (s : sys St) (fd size position : Z) (bs : list Z) :
  (fd < 0 \/ fd = 2 \/ MAX_FILE_CNT <= fd ->
    filesize s fd = Ok (Exits, s) /\ read s fd size = Ok (Exits, s) /\ write F s fd bs = Ok (Exits, s) /\ seek s fd position = Ok (Exits, s) /\
    tell s fd = Ok (Exits, s) /\ close F s fd = Ok (Exits, s) /\ isdir s fd = Err Panic /\ inumber s fd = Err Panic) /\
  (fd_free s fd ->
    filesize s fd = Err Panic /\ seek s fd position = Err Panic /\ tell s fd = Err Panic /\ isdir s fd = Err Panic /\ inumber s fd = Err Panic /\
    read s fd size = Err Fault /\ write F s fd bs = Err Fault /\
    exists s', close F s fd = Ok (Returns tt, s') /\ fsys s' = fsys s /\ objects s' = objects s /\ forall m, fd_lookup (kern s') m = fd_lookup (kern s) m) /\
  (forall a fl, fd_file s fd a fl -> 2 ^ 31 <= position < 2 ^ 32 -> seek s fd position = Err Panic).
Proof.
  split_and!.
  - intros Hfd. have H : (fd <? 3) || (MAX_FILE_CNT <=? fd) = true /\ (fd =? 0) = false /\ (fd =? 1) = false /\ (fd <? 0) || false || (fd =? 2) || (MAX_FILE_CNT <=? fd) = true /\
      (fd <? 1) || (fd =? 2) || (MAX_FILE_CNT <=? fd) = true /\ (2 <? fd) && (fd <? MAX_FILE_CNT) = false by rw /MAX_FILE_CNT in Hfd |- *; lia.
    destruct H as (H1 & H2 & H3 & H4 & H5 & H6). rw /filesize /read /write /seek /tell /close /isdir /inumber /thread_get_file H1 H2 H3 H4 H5 H6. done.
  - intros [Hok Hr Ht Hk]. destruct (range_low fd Hr) as (E0 & E1 & E2 & E3 & E4). destruct (thread_remove_file_spec fd (kern s) Hok Hr) as (k' & Er & _ & Hl).
    rw /filesize /read /write /seek /tell /close /isdir /inumber E0 E3 E4 E1 E2 Hk thread_get_file_spec // Ht Er Ht. split_and!; try done.
    exists (set_kern s k'). split_and!; try done. intros m. simpl. rw Hl. case_decide; [by subst|done].
  - intros a fl [Hok Hr Ht Hk Ho] Hp. destruct (range_low fd Hr) as (E0 & _). rw /seek E0 Hk. cbn [obind negb ASSERT]. rw thread_get_file_spec // Ht. cbn [obind not_null]. rw /as_file Ho. cbn [obind].
    rw /file_seek. have -> : (0 <=? s32 position) = false; [|done]. apply Z.leb_gt. rw /swrap. change (2 ^ (32 - 1)) with (2 ^ 31). change (2 ^ 32) with (2 ^ 31 + 2 ^ 31) in Hp |- *.
    have -> : (position + 2 ^ 31) mod (2 ^ 31 + 2 ^ 31) = position - 2 ^ 31; [|lia]. rw -(Z.mod_add _ (-1)); [lia|]. rw Z.mod_small; lia.
Qed.
Lemma wrong_descriptors_witness : filesize ex_sys 20 = Ok (Exits, ex_sys) /\ filesize ex_sys 5 = Err Panic /\ seek ex_sys 3 (2 ^ 31) = Err Panic.
Proof.
  split_and!.
  - apply (wrong_descriptors ex_fm ex_sys 20 0 0 []). rw /MAX_FILE_CNT. lia.
  - apply (wrong_descriptors ex_fm ex_sys 5 0 0 []). split; [apply ex_sys_ok|rw /MAX_FILE_CNT; lia|done|done].
  - by apply (wrong_descriptors ex_fm ex_sys 3 0 (2 ^ 31) [] ) with 50 (mk_file 7 0 false); [apply ex_sys_fds|].
Defined.

(** ** Opening and closing *)
(** Changing the table of files does not change which descriptors are directories. *)
Lemma is_dir_with_files k t l fd : threads k !! current k = Some t -> Thread.magic t = THREAD_MAGIC -> status t = THREAD_RUNNING ->
  thread_fd_is_dir fd (with_files k t l) = thread_fd_is_dir fd k.
Proof.
  intros Ht Hm Hs. rw /thread_fd_is_dir (thread_current_ok k t) //= (thread_current_ok (with_files k t l) (set_files (Some l) t)) //= ?lookup_insert_eq //. by rw Ht.
Qed.
Lemma push_file_shape page a k fd k' : fd_ok k -> thread_push_file page a k = Ok (fd, k') -> k' = k \/ exists t l, threads k !! current k = Some t /\ k' = with_files k t l.
Proof.
  intros (t & Ht & Hm & Hs & _). rw /thread_push_file (thread_current_ok k t) //. cbn [obind]. rw Ht. cbn [obind oget]. destruct (file_list t) as [l|].
  - destruct (FdTable.free_slot (Z.to_nat (MAX_FILE_CNT - 3)) l 3) as [[i|]|]; simpl; [|intros [= _ <-]; by left|done]. rw (upd_files k t) //=. intros [= _ <-]. right. by eexists _, _.
  - destruct page; [|done]. rw (upd_files k t) //=. intros [= _ <-]. right. by eexists _, _.
Qed.
Lemma remove_file_shape k fd p k' : fd_ok k -> thread_remove_file fd k = Ok (p, k') -> k' = k \/ exists t l, threads k !! current k = Some t /\ k' = with_files k t l.
Proof.
  intros (t & Ht & Hm & Hs & _). rw /thread_remove_file. destruct (_ && _); [|done]. cbn [ASSERT obind]. rw (thread_current_ok k t) //= Ht /=. destruct (file_list t) as [l|]; [|intros [= _ <-]; by left].
  destruct (l !! _) as [o|]; [|done]. simpl. rw (upd_files k t) //=. intros [= _ <-]. right. by eexists _, _.
Qed.
Lemma is_dir_shape k k' fd : fd_ok k -> k' = k \/ (exists t l, threads k !! current k = Some t /\ k' = with_files k t l) -> thread_fd_is_dir fd k' = thread_fd_is_dir fd k.
Proof. intros (t & Ht & Hm & Hs & _) [->|(t' & l & Ht' & ->)]; [done|]. simplify_eq. by apply is_dir_with_files. Qed.

(** [thread_fd_clear_dir] clears the mark of the descriptor and changes nothing else. *)
Lemma clear_dir_ok k fd : fd_ok k -> 3 <= fd < MAX_FILE_CNT -> (exists b, thread_fd_is_dir fd k = Ok b) ->
  exists k', thread_fd_clear_dir fd k = Ok k' /\ fd_ok k' /\ thread_fd_is_dir fd k' = Ok false /\ forall n, fd_lookup k' n = fd_lookup k n.
Proof.
  intros (t & Ht & Hm & Hs & Hl) Hfd [b Hb]. have Hi : dir_index fd = Ok (Z.to_nat fd) by rw /dir_index; have -> : (0 <=? fd) && (fd <? MAX_FILE_CNT) = true by lia.
  rw /thread_fd_is_dir (thread_current_ok k t) //= Ht /= Hi /= in Hb. destruct (is_dir_list t !! Z.to_nat fd) eqn:E; [|done].
  rw /thread_fd_clear_dir (thread_current_ok k t) //= Hi /= /upd Ht /=. eexists. split; [done|]. split_and!.
  - exists (set_dirs (<[Z.to_nat fd := false]> (is_dir_list t)) t). rw /= lookup_insert_eq. by split_and!.
  - set k' := set_threads _ k. rw /thread_fd_is_dir (thread_current_ok k' (set_dirs (<[Z.to_nat fd := false]> (is_dir_list t)) t)) //= ?lookup_insert_eq //=. rw Hi /= list_lookup_insert_eq //. by eapply lookup_lt_Some.
  - intros n. rw /fd_lookup /= lookup_insert_eq Ht. done.
Qed.

(** The process [s], with current thread [t]; the root directory of its file system is intact and not open. *)
Record at_rest {St : Type} {ops : SectorOps St} {laws : SectorStore St} (n : Z) (s : sys St) (t : thread) (dr : inode_disk) (dsr : list Z) (es : list (list Z)) : Prop := {
  ar_ok : fd_ok (kern s);
  ar_thread : threads (kern s) !! current (kern s) = Some t;
  ar_dirs : List.length (is_dir_list t) = Z.to_nat MAX_FILE_CNT;
  ar_root : root_closed n (fsys s) dr dsr es;
  ar_fresh : forall a, is_Some (objects s !! a) -> a < next_addr (fsys s) }.

Section open_close.
Context {St : Type} {ops : SectorOps St} {laws : SectorStore St}.
Implicit Types (s : sys St) (F : fm_ops St).

Lemma current_thread_ok n s t dr dsr es : at_rest n s t dr dsr es -> current_thread s = Ok t.
Proof. intros H. destruct (ar_ok _ _ _ _ _ _ H) as (t' & Ht & Hm & Hs & _). have Hx := ar_thread _ _ _ _ _ _ H. simplify_eq. rw /current_thread (thread_current_ok _ t') //=. by rw Ht. Qed.
Lemma at_rest_is_dir n s t dr dsr es fd : at_rest n s t dr dsr es -> 3 <= fd < MAX_FILE_CNT -> exists b, thread_fd_is_dir fd (kern s) = Ok b.
Proof.
  intros H Hfd. destruct (ar_ok _ _ _ _ _ _ H) as (t' & Ht & Hm & Hs & _). have Hx := ar_thread _ _ _ _ _ _ H. simplify_eq.
  rw /thread_fd_is_dir (thread_current_ok _ t') //=. rw Ht. cbn [obind oget]. rw /dir_index. have -> : (0 <=? fd) && (fd <? MAX_FILE_CNT) = true by lia. cbn [obind].
  destruct (lookup_lt_is_Some_2 (is_dir_list t') (Z.to_nat fd)) as [b Hb]; [rw (ar_dirs _ _ _ _ _ _ H); lia|]. rw Hb. by exists b.
Qed.

(** [open] of a file of the root directory that is not open, by a process that does not run it. *)
Lemma open_ok n F s t dr dsr es stack dead junk path nm e : at_rest n s t dr dsr es -> root_path (cur_dir t) path nm -> List.length stack = Z.to_nat ENTRY_SIZE ->
  e ∈ used es -> entry_name e = nm -> is_dir e = false -> not_open (fsys s) (inode_sector e) -> chars (name t) <> path ->
  (exists fd, 3 <= fd < MAX_FILE_CNT /\ fd_lookup (kern s) fd = None) ->
  exists fd s1 a b lk, open F stack dead s true junk path = Ok (fd, s1) /\ fd_file s1 fd a (mk_file b 0 false) /\
    fd_lookup (kern s) fd = None /\ (forall m, 3 <= m < fd -> is_Some (fd_lookup (kern s) m)) /\ (forall m, m <> fd -> fd_lookup (kern s1) m = fd_lookup (kern s) m) /\
    objects s !! a = None /\ objects s1 = <[a := FileObj (mk_file b 0 false)]> (objects s) /\
    inodes (fsys s) !! b = None /\ b ∉ open_inodes (fsys s) /\ open_inodes (fsys s1) = b :: open_inodes (fsys s) /\
    inodes (fsys s1) = <[b := mk_inode (inode_sector e) 1 false 0 false lk (decode (sec_view (store (fsys s)) (inode_sector e)))]> (inodes (fsys s)) /\
    forall t, sec_view (store (fsys s1)) t = sec_view (store (fsys s)) t.
Proof.
  intros H Hp Hst He Hn Hd Hno Hrun Hfree. have Hroot := ar_root _ _ _ _ _ _ H. rw /open (current_thread_ok _ _ _ _ _ _ H). cbn [obind].
  destruct (open_bound n F (fsys s) dr dsr es stack dead (cur_dir t) path nm e junk Hroot Hp Hst He Hn Hno) as (f' & Eo & Hroot' & Hv & _ & Hi & Ho). rw Eo Hd. cbn [obind].
  have Hnx : next_addr (fsys s) + 2 < next_addr f' by apply (rc_fresh _ _ _ _ _ Hroot'); rw Hi lookup_insert_eq; eexists.
  destruct (root_closed_fresh _ _ _ _ _ (next_addr (fsys s) + 2) Hroot) as [Hb1 Hb2]; [lia|].
  have Ha : objects s !! next_addr f' = None. { destruct (objects s !! next_addr f') eqn:E; [|done]. have := ar_fresh _ _ _ _ _ _ H _ (mk_is_Some _ _ E). lia. }
  cbn [new_object set_fsys fsys]. destruct (thread_push_file_spec (next_addr f') (kern s) (ar_ok _ _ _ _ _ _ H)) as (fd & k1 & Ep & Hk1 & Hcase). cbn [kern put_object set_fsys]. rw Ep. cbn [obind].
  destruct Hcase as [(-> & _ & Hall)|(Hr & Hnone & Hleast & Hl)]. { destruct Hfree as (fd & Hfd & Hfn). have [x Hx] := Hall fd Hfd. congruence. }
  have Hsh := push_file_shape _ _ _ _ _ (ar_ok _ _ _ _ _ _ H) Ep. have Hid := is_dir_shape _ _ fd (ar_ok _ _ _ _ _ _ H) Hsh.
  have Hrf : is_running t path = false by apply bool_decide_eq_false_2. rw Hrf. cbn [obind kern set_kern].
  destruct (clear_dir_ok k1 fd Hk1 Hr) as (k2 & Ec & Hk2 & Hd2 & Hl2). { rw Hid. by eapply at_rest_is_dir. }
  rw Ec. cbn [obind]. eexists fd, _, (next_addr f'), (next_addr (fsys s) + 2), _. split; [done|]. split; [|split_and!; try done].
  - split; try done; simpl; [by rw Hl2 Hl decide_True|by rw lookup_insert_eq].
  - intros m Hm. simpl. by rw Hl2 Hl decide_False.
Qed.

(** [close] of a descriptor whose file is open once. *)
Lemma close_ok F s fd a b i : fd_file s fd a (mk_file b 0 false) -> inodes (fsys s) !! b = Some i -> open_cnt i = 1 -> removed i = false ->
  exists k', close F s fd = Ok (Returns tt, mk_sys k' (without_inode (fsys s) b) (delete a (objects s)) (console s) (input s)) /\
    forall m, fd_lookup k' m = if decide (m = fd) then None else fd_lookup (kern s) m.
Proof.
  intros [Hok Hr Ht Hk Ho] Hi Hc Hrm. destruct (range_low fd Hr) as (E0 & _). rw /close E0. destruct (thread_remove_file_spec fd (kern s) Hok Hr) as (k' & Er & _ & Hl). rw Er Ht. cbn [obind kern set_kern].
  rw (is_dir_shape _ _ fd Hok (remove_file_shape _ _ _ _ Hok Er)) Hk. cbn [obind]. rw /as_file. cbn [objects set_kern]. rw Ho. cbn [obind]. rw /file_close /file_allow_write. cbn [Inode.deny_write obind finode fsys set_kern]. have Ec := inode_close_last F _ _ _ Hi Hc Hrm. rw Ec. cbn [obind].
  by exists k'.
Qed.
End open_close.

(** ** Example: a process on the example volume *)
Definition ex_vol_kernel : kernel :=
  mk_kernel {[4096 := ex_thread]} 4096 [] [] [4096] None 4096 2 true false false 0 0 0 0 0 ∅ ∅ ∅.
Definition ex_vol_sys : sys cache_state := mk_sys ex_vol_kernel ex_vol_fs ∅ [] [].
Lemma ex_at_rest n : n <= INT_MAX -> at_rest n ex_vol_sys ex_thread ex_root_disk [3] ex_entries.
Proof.
  intros Hn. split; try done; [by exists ex_thread|by apply ex_root_closed|]. intros a [o Ho]. by rw lookup_empty in Ho.
Qed.

(** C25: [open] and [close].  Let a regular file be directly in the root directory, not open
    yet and not the program that runs, and the process have a free descriptor.  [open], by
    [name] or [/name], returns the least free descriptor; it stands for a new file object,
    at position 0, on a new inode with what the disk has for the file.  No other descriptor
    is affected.  [close] of it gives everything back: the table of descriptors, the objects
    and the open inodes are as before the [open], and the disk has not changed. *)
Theorem open_close_correct {St : Type} {ops : SectorOps St} {laws : SectorStore St} (n : Z) (F : fm_ops St) (s : sys St) (t : thread) (dr : inode_disk) (dsr : list Z) (es : list (list Z))
    (stack : list Z) (dead : list Z -> list Z) (junk : bool) (path nm e : list Z) :
  at_rest n s t dr dsr es -> root_path (cur_dir t) path nm -> List.length stack = Z.to_nat ENTRY_SIZE ->
  e ∈ used es -> entry_name e = nm -> is_dir e = false -> not_open (fsys s) (inode_sector e) -> chars (name t) <> path ->
  (exists fd, 3 <= fd < MAX_FILE_CNT /\ fd_lookup (kern s) fd = None) ->
  exists fd s1 a b, open F stack dead s true junk path = Ok (fd, s1) /\ fd_file s1 fd a (mk_file b 0 false) /\
    fd_lookup (kern s) fd = None /\ (forall m, 3 <= m < fd -> is_Some (fd_lookup (kern s) m)) /\ (forall m, m <> fd -> fd_lookup (kern s1) m = fd_lookup (kern s) m) /\
    filesize s1 fd = Ok (Returns (length (decode (sec_view (store (fsys s)) (inode_sector e)))), s1) /\
    inumber s1 fd = Ok (inode_sector e, s1) /\
    exists s2, close F s1 fd = Ok (Returns tt, s2) /\ (forall m, fd_lookup (kern s2) m = fd_lookup (kern s) m) /\ objects s2 = objects s /\
      inodes (fsys s2) = inodes (fsys s) /\ open_inodes (fsys s2) = open_inodes (fsys s) /\ forall t, sec_view (store (fsys s2)) t = sec_view (store (fsys s)) t.
Proof.
  intros H Hp Hst He Hn Hd Hno Hrun Hfree.
  destruct (open_ok n F s t dr dsr es stack dead junk path nm e H Hp Hst He Hn Hd Hno Hrun Hfree) as (fd & s1 & a & b & lk & Eo & Hff & Hnone & Hleast & Hoth & Ha & Hob & Hb & Hbo & Hop & Hin & Hv).
  have Hbi : inodes (fsys s1) !! b = Some (mk_inode (inode_sector e) 1 false 0 false lk (decode (sec_view (store (fsys s)) (inode_sector e)))) by rw Hin lookup_insert_eq.
  have Hff' := Hff. destruct Hff' as [Hok Hr Ht Hk Hobj]. destruct (range_low fd Hr) as (E0 & _).
  destruct (close_ok F s1 fd a b _ Hff Hbi eq_refl eq_refl) as (k' & Ec & Hl). exists fd, s1, a, b. split_and!; try done.
  - rw /filesize E0 Hk. cbn [obind negb ASSERT]. rw thread_get_file_spec // Ht. cbn [obind not_null]. rw /as_file Hobj. cbn [obind]. by rw /file_length /inode_length /get_inode /= Hbi.
  - rw /inumber thread_get_file_spec // Ht. cbn [obind not_null]. rw Hk. cbn [obind]. rw /as_file Hobj. cbn [obind]. by rw /inode_get_inumber /get_inode /= Hbi.
  - eexists. split; [exact Ec|]. simpl. split_and!.
    + intros m. rw Hl. case_decide as Hm; [by subst|]. by apply Hoth.
    + by rw Hob delete_insert_id.
    + by rw Hin delete_insert_id.
    + rw Hop filter_cons_False; [by intros []|]. by apply filter_fresh.
    + done.
Qed.
Lemma open_close_correct_witness :
  exists fd s1, open (fm 0) (replicate 24 0) (fun s => s) ex_vol_sys true true (47 :: ex_foo) = Ok (fd, s1) /\ inumber s1 fd = Ok (20, s1).
Proof.
  destruct (open_close_correct 0 (fm 0) ex_vol_sys ex_thread ex_root_disk [3] ex_entries (replicate 24 0) (fun s => s) true (47 :: ex_foo) ex_foo (ex_entry [102; 111; 111] 20))
    as (fd & s1 & a & b & E & _ & _ & _ & _ & _ & Ei & _).
  - by apply ex_at_rest.
  - split; [apply ex_foo_path|by left].
  - done.
  - have -> : used ex_entries = [ex_entry [102; 111; 111] 20] by vm_compute. by apply list_elem_of_singleton.
  - by vm_compute.
  - by vm_compute.
  - intros a ->%list_elem_of_singleton. exists ex_map_inode. split; [done|by vm_compute].
  - by vm_compute.
  - exists 3. split; [rw /MAX_FILE_CNT; lia|done].
  - exists fd, s1. exact (conj E Ei).
Defined.
