(* ===== verification/Life.v ===== *)
(** * Processes that start, wait and exit (userprog/process.c, syscall.c, threads/thread.c)

    [exec], [wait] and [exit] of syscall.c with what they call: [process_execute]
    and the end of [start_process], [process_wait], and the part of [thread_exit]
    that meets the parent.  Three semaphores in [struct thread] order these steps.
    A step is one statement that touches shared data, with what the process then does by
    itself; the steps of different processes are interleaved in any order.  A [struct
    thread] is freed when the process has got past [sema_down (&exit_sema)]: a later access
    to it is a [Fault].  A process is known by its thread identifier.  The kernel's own
    threads, which never exit, are left out; so is what [process_exit] frees.  Thread
    identifiers are taken not to wrap around: [allocate_tid] counts in an int, and the
    model is that of fewer than 2^31 threads started.

    The theorems: no process touches the thread of one that is gone, whatever the
    interleaving; [wait] returns the status with which that child exited, and once
    only; [exec] returns the child exactly when it was loaded; as long as threads can be
    created, there is no deadlock: a process that has to wait is at the start of a chain of
    waiting processes that leads to one that can step; [exec] never returns when a thread
    cannot be created. *)
From S2P Require Import Prelude.

(** ** Data *)
(** Where a process is: in its program, or before the named statement. *)
Inductive pc :=
| User
| Loading                         (* [load] in start_process *)
| Loaded (success : bool)         (* [sema_up (&parent->exec_sema)] *)
| Exec_down (pid : Z)             (* [sema_down (&exec_sema)] in exec *)
| Wait_down (child : Z)           (* [sema_down (&child->wait_sema)] in process_wait *)
| Wait_remove (child : Z)         (* [list_remove (&child->childelem)] *)
| Wait_status (child : Z)         (* [status = child->exit_status] *)
| Wait_up (child status : Z)      (* [sema_up (&child->exit_sema); return status] *)
| Exit_pop                        (* [while (!list_empty (&child_list)) list_pop_front (...)] in thread_exit *)
| Exit_up (child : Z)             (* [sema_up (&child->exit_sema)] *)
| Exit_signal                     (* [sema_up (&wait_sema)] *)
| Exit_down.                      (* [sema_down (&exit_sema)] *)
#[export] Instance pc_eq_dec : EqDecision pc.
Proof. solve_decision. Defined.

Record proc := mk_proc {
  parent : option Z; child_list : list Z; exit_status : Z; exec_status : bool;
  exec_sema : Z; wait_sema : Z; exit_sema : Z; at_pc : pc }.
Record state := mk_state { procs : gmap Z proc; next_tid : Z }.

(** What becomes known outside. *)
Inductive event :=
| Started (p u : Z)               (* [p] has created [u] *)
| Load_done (u : Z) (b : bool)    (* [u] has tried to load its program *)
| Exec_returns (p v : Z)
| Wait_returns (p u v : Z)        (* for a child *)
| Not_child (p u : Z)             (* [wait] returns -1 without waiting *)
| Exited (u v : Z)                (* [u] leaves its program with status [v] *)
| Gone (u : Z).                   (* its [struct thread] is freed *)
#[export] Instance event_eq_dec : EqDecision event.
Proof. solve_decision. Defined.

(** ** Operations *)
Definition set_pc (x : pc) (r : proc) : proc :=
  mk_proc (parent r) (child_list r) (exit_status r) (exec_status r) (exec_sema r) (wait_sema r) (exit_sema r) x.
Definition set_children (l : list Z) (r : proc) : proc :=
  mk_proc (parent r) l (exit_status r) (exec_status r) (exec_sema r) (wait_sema r) (exit_sema r) (at_pc r).
Definition set_exit_status (v : Z) (r : proc) : proc :=
  mk_proc (parent r) (child_list r) v (exec_status r) (exec_sema r) (wait_sema r) (exit_sema r) (at_pc r).
Definition set_exec (b : bool) (n : Z) (r : proc) : proc :=
  mk_proc (parent r) (child_list r) (exit_status r) b n (wait_sema r) (exit_sema r) (at_pc r).
Definition set_wait_sema (n : Z) (r : proc) : proc :=
  mk_proc (parent r) (child_list r) (exit_status r) (exec_status r) (exec_sema r) n (exit_sema r) (at_pc r).
Definition set_exit_sema (n : Z) (r : proc) : proc :=
  mk_proc (parent r) (child_list r) (exit_status r) (exec_status r) (exec_sema r) (wait_sema r) n (at_pc r).

Definition get (s : state) (u : Z) : outcome proc := oget (procs s !! u).
Definition put (s : state) (u : Z) (r : proc) : state := mk_state (<[u := r]> (procs s)) (next_tid s).

(** [init_thread], and the parent of [thread_create] *)
Definition new_proc (p : Z) : proc := mk_proc (Some p) [] (-1) true 0 0 0 Loading.
(** [thread_create (..., start_process, ...)] by [p] *)
Definition thread_create (s : state) (p : Z) : outcome (Z * state) :=
  let u := next_tid s in
  let! r := get s p in
  Ok (u, mk_state (<[u := new_proc p]> (<[p := set_children (child_list r ++ [u]) r]> (procs s))) (u + 1)).

(** The loop of [process_wait]: is there such a child? *)
Fixpoint find_child (s : state) (l : list Z) (tid : Z) : outcome bool :=
  match l with
  | [] => Ok false
  | u :: l => let! _ := get s u in if u =? tid then Ok true else find_child s l tid
  end.

(** What the program does next, or whether the program could be loaded. *)
Inductive choice := Exec (created : bool) | Run | Exit (status : Z) | Killed | Wait (tid : Z) | Load (success : bool).

(** A system call of a program, or [process_wait (process_execute (task))] by the
    initial thread of the kernel, which has no parent. *)
Definition user_step (s : state) (p : Z) (r : proc) (c : choice) : outcome (option (list event * state)) :=
  match c with
  | Exec true => let! (u, s) := thread_create s p in
                 let! r := get s p in Ok (Some ([Started p u], put s p (set_pc (Exec_down u) r)))
  | Exec false => Ok (Some ([], put s p (set_pc (Exec_down (-1)) r)))
  | Run => let! (u, s) := thread_create s p in
           let! r := get s p in Ok (Some ([Started p u], put s p (set_pc (Wait_down u) r)))
  | Exit v => Ok (Some ([Exited p v], put s p (set_pc Exit_pop (set_exit_status v r))))
  | Killed => Ok (Some ([Exited p (exit_status r)], put s p (set_pc Exit_pop r)))
  | Wait u => let! found := find_child s (child_list r) u in
              if found then Ok (Some ([], put s p (set_pc (Wait_down u) r))) else Ok (Some ([Not_child p u], s))
  | Load _ => Ok None
  end.

(** The end of [start_process]: what it tells the parent. *)
Definition start_process_end (s : state) (p : Z) (r : proc) (c : choice) : outcome (option (list event * state)) :=
  match at_pc r, c, parent r with
  | Loading, Load b, Some q =>
    let! rq := get s q in
    let s := put s q (set_exec b (exec_sema rq) rq) in
    let! r := get s p in Ok (Some ([Load_done p b], put s p (set_pc (Loaded b) r)))
  | Loaded b, _, Some q =>
    let! rq := get s q in
    let s := put s q (set_exec (exec_status rq) (exec_sema rq + 1) rq) in
    let! r := get s p in
    if b then Ok (Some ([], put s p (set_pc User r)))
    else Ok (Some ([Exited p (exit_status r)], put s p (set_pc Exit_pop r)))
  | _, _, _ => Ok None
  end.
(** The end of [exec]. *)
Definition exec_end (s : state) (p : Z) (r : proc) (u : Z) : outcome (option (list event * state)) :=
  if exec_sema r <=? 0 then Ok None
  else Ok (Some ([Exec_returns p (if exec_status r then u else -1)], put s p (set_pc User (set_exec (exec_status r) (exec_sema r - 1) r)))).
(** [process_wait] once it has found the child. *)
Definition process_wait_step (s : state) (p : Z) (r : proc) : outcome (option (list event * state)) :=
  match at_pc r with
  | Wait_down u =>
    let! ru := get s u in
    if wait_sema ru <=? 0 then Ok None
    else let s := put s u (set_wait_sema (wait_sema ru - 1) ru) in
         let! r := get s p in Ok (Some ([], put s p (set_pc (Wait_remove u) r)))
  | Wait_remove u => let! _ := get s u in Ok (Some ([], put s p (set_pc (Wait_status u) (set_children (filter (fun x => x <> u) (child_list r)) r))))
  | Wait_status u => let! ru := get s u in Ok (Some ([], put s p (set_pc (Wait_up u (exit_status ru)) r)))
  | Wait_up u v =>
    let! ru := get s u in
    let s := put s u (set_exit_sema (exit_sema ru + 1) ru) in
    let! r := get s p in Ok (Some ([Wait_returns p u v], put s p (set_pc User r)))
  | _ => Ok None
  end.
(** [thread_exit], after [process_exit]. *)
Definition thread_exit_step (s : state) (p : Z) (r : proc) : outcome (option (list event * state)) :=
  match at_pc r with
  | Exit_pop =>
    match child_list r with
    | [] => Ok (Some ([], put s p (set_pc Exit_signal r)))
    | u :: l => let! _ := get s u in Ok (Some ([], put s p (set_pc (Exit_up u) (set_children l r))))
    end
  | Exit_up u =>
    let! ru := get s u in
    let s := put s u (set_exit_sema (exit_sema ru + 1) ru) in
    let! r := get s p in Ok (Some ([], put s p (set_pc Exit_pop r)))
  | Exit_signal => Ok (Some ([], put s p (set_pc Exit_down (set_wait_sema (wait_sema r + 1) r))))
  | Exit_down =>
    if exit_sema r <=? 0 then Ok None
    else Ok (Some ([Gone p], mk_state (delete p (procs s)) (next_tid s)))
  | _ => Ok None
  end.

Definition is_run (c : choice) : bool := match c with Run => true | _ => false end.
(** One step of process [p]; no result when it has to wait. *)
Definition step (s : state) (p : Z) (c : choice) : outcome (option (list event * state)) :=
  let! r := get s p in
  match at_pc r with
  | User => if Bool.eqb (is_run c) (bool_decide (parent r = None)) then user_step s p r c else Ok None
  | Loading | Loaded _ => start_process_end s p r c
  | Exec_down u => exec_end s p r u
  | Wait_down _ | Wait_remove _ | Wait_status _ | Wait_up _ _ => process_wait_step s p r
  | Exit_pop | Exit_up _ | Exit_signal | Exit_down => thread_exit_step s p r
  end.

(** ** Runs *)
(** The first process, which has no parent. *)
Definition init (p : Z) : state := mk_state {[p := mk_proc None [] (-1) true 0 0 0 User]} (p + 1).
Inductive reaches (p0 : Z) : state -> list event -> Prop :=
| reaches_init : reaches p0 (init p0) []
| reaches_step s tr p c es s' : reaches p0 s tr -> is_Some (procs s !! p) -> step s p c = Ok (Some (es, s')) -> reaches p0 s' (tr ++ es).

(** ** What a program counter says *)
(** The child that the process must release. *)
Definition holds (x : pc) : option Z := match x with Wait_status u | Wait_up u _ | Exit_up u => Some u | _ => None end.
Definition waits (x : pc) : option Z := match x with Wait_down u | Wait_remove u => Some u | _ => None end.
(** The child that has been waited for and not yet released. *)
Definition reaping (x : pc) : option Z := match x with Wait_remove u | Wait_status u | Wait_up u _ => Some u | _ => None end.
Definition exiting (x : pc) : bool := match x with Exit_pop | Exit_up _ | Exit_signal | Exit_down => true | _ => false end.
(** The children have been released. *)
Definition alone (x : pc) : bool := match x with Exit_signal | Exit_down => true | _ => false end.
Definition loading (x : pc) : bool := match x with Loading | Loaded _ => true | _ => false end.

(** The statuses with which [u] has exited, and those that [wait] has returned for it. *)
Definition exits (u : Z) (tr : list event) : list Z := omap (fun e => match e with Exited x v => if decide (x = u) then Some v else None | _ => None end) tr.
Definition reaps (u : Z) (tr : list event) : list Z := omap (fun e => match e with Wait_returns _ x v => if decide (x = u) then Some v else None | _ => None end) tr.

(** A child [u] of the live process [p]. *)
Record child_ok (p : Z) (rp : proc) (u : Z) (ru : proc) : Prop := {
  co_listed : u ∈ child_list rp -> exit_sema ru = 0 /\ holds (at_pc rp) <> Some u;
  co_held : holds (at_pc rp) = Some u -> exit_sema ru = 0 /\ u ∉ child_list rp;
  co_free : u ∉ child_list rp -> holds (at_pc rp) <> Some u -> exit_sema ru = 1;
  co_waits : waits (at_pc rp) = Some u -> u ∈ child_list rp;
  co_reaping : reaping (at_pc rp) = Some u -> at_pc ru = Exit_down /\ wait_sema ru = 0;
  co_reaped : at_pc ru = Exit_down -> wait_sema ru = 0 -> exit_sema ru = 0 -> reaping (at_pc rp) = Some u;
  co_status : forall v, at_pc rp = Wait_up u v -> v = exit_status ru;
  co_loading : loading (at_pc ru) = true -> u ∈ child_list rp /\
    (at_pc rp = Exec_down u /\ exec_sema rp = 0 /\ is_Some (parent rp) \/ at_pc rp = Wait_down u /\ parent rp = None);
  co_loaded : forall b, at_pc ru = Loaded b -> exec_status rp = b }.

(** The children that the process may still touch. *)
Definition mine (r : proc) (u : Z) : Prop := u ∈ child_list r \/ holds (at_pc r) = Some u \/ waits (at_pc r) = Some u.
(** What holds of the process [u] by itself. *)
Record proc_ok (s : state) (tr : list event) (u : Z) (r : proc) : Prop := {
  po_tid : 0 <= u < next_tid s;
  po_nodup : NoDup (child_list r);
  po_alone : alone (at_pc r) = true -> child_list r = [];
  po_mine : forall w, mine r w -> exists rw, procs s !! w = Some rw /\ parent rw = Some u;
  po_orphan : forall p, parent r = Some p -> p < u /\ Started p u ∈ tr /\ (procs s !! p = None -> exit_sema r = 1 /\ loading (at_pc r) = false);
  po_wsema : wait_sema r = 0 \/ wait_sema r = 1 /\ at_pc r = Exit_down;
  po_exec : is_Some (parent r) -> exec_sema r = 0 \/
    exec_sema r = 1 /\ exists w, at_pc r = Exec_down w /\ 0 <= w < next_tid s /\ Load_done w (exec_status r) ∈ tr /\ forall rw, procs s !! w = Some rw -> loading (at_pc rw) = false;
  po_root : parent r = None -> loading (at_pc r) = false;
  po_loaded : forall b, at_pc r = Loaded b -> Load_done u b ∈ tr;
  po_exits : exits u tr = if exiting (at_pc r) then [exit_status r] else [];
  po_reaps : exit_sema r = 0 -> reaps u tr = [] }.
Record inv (s : state) (tr : list event) : Prop := {
  i_proc : forall u r, procs s !! u = Some r -> proc_ok s tr u r;
  i_child : forall p rp u ru, procs s !! u = Some ru -> parent ru = Some p -> procs s !! p = Some rp -> child_ok p rp u ru;
  i_once : forall u, reaps u tr = [] \/ exists v, reaps u tr = [v] /\ exits u tr = [v];
  i_new : forall u, next_tid s <= u -> exits u tr = [] /\ reaps u tr = [] }.

Lemma exits_app u tr tr' : exits u (tr ++ tr') = exits u tr ++ exits u tr'.
Proof. apply omap_app. Qed.
Lemma reaps_app u tr tr' : reaps u (tr ++ tr') = reaps u tr ++ reaps u tr'.
Proof. apply omap_app. Qed.

(** A step that replaces the thread [r] of [p] by [r'] and no other. *)
Lemma inv_single s tr p r r' es : inv s tr -> procs s !! p = Some r -> parent r' = parent r -> exit_sema r' = exit_sema r ->
  (forall u ru, procs s !! u = Some ru -> parent ru = Some p -> child_ok p r u ru -> child_ok p r' u ru) ->
  (forall q rq, procs s !! q = Some rq -> child_ok q rq p r -> child_ok q rq p r') ->
  NoDup (child_list r') -> (alone (at_pc r') = true -> child_list r' = []) -> (forall w, mine r' w -> mine r w) -> (loading (at_pc r') = true -> loading (at_pc r) = true) ->
  (wait_sema r' = 0 \/ wait_sema r' = 1 /\ at_pc r' = Exit_down) -> (is_Some (parent r) -> exec_sema r' = 0) ->
  (forall b, at_pc r' = Loaded b -> Load_done p b ∈ tr ++ es) -> (forall u, reaps u es = []) -> (forall u, u <> p -> exits u es = []) ->
  exits p tr ++ exits p es = (if exiting (at_pc r') then [exit_status r'] else []) -> (exiting (at_pc r) = true -> exits p es = []) ->
  inv (put s p r') (tr ++ es).
Proof.
  intros [H1 H2 H3 H4] Hp Hpar Hes Hch Hup Hnd Hal Hmine Hload Hws Hex Hld Hre Hexo Hexp Hexx. have Hpp := H1 _ _ Hp.
  have Hne : forall u ru, procs s !! u = Some ru -> parent ru = Some p -> u <> p by intros u ru Hu Hpu ->; simplify_eq; have := po_orphan _ _ _ _ Hpp _ Hpu; lia.
  have Hlk : forall x rx, <[p := r']> (procs s) !! x = Some rx -> exists r0, procs s !! x = Some r0 /\ parent r0 = parent rx /\ (loading (at_pc rx) = true -> loading (at_pc r0) = true) /\ (x = p /\ rx = r' \/ x <> p /\ rx = r0).
  { intros x rx [[<- <-]|[Hx Hl]]%lookup_insert_Some; [exists r; split_and!; try done; by left|exists rx; split_and!; try done; by right]. }
  split.
  - intros u ru Hu. destruct (Hlk u ru Hu) as (r0 & Hu0 & Hpu & Hlu & Hcase). have Hok := H1 _ _ Hu0.
    have Hmi : forall w, mine ru w -> exists rw, <[p := r']> (procs s) !! w = Some rw /\ parent rw = Some u.
    { intros w Hw. have Hw' : mine r0 w by destruct Hcase as [[-> ->]|[_ ->]]; [simplify_eq; by apply Hmine|done].
      destruct (po_mine _ _ _ _ Hok w Hw') as (rw & Hw0 & Hw1). destruct (decide (w = p)) as [->|Hwp]; [exists r'; rw lookup_insert_eq; simplify_eq; by rw Hpar|exists rw; by rw lookup_insert_ne]. }
    have Hor : forall q, parent ru = Some q -> q < u /\ Started q u ∈ tr ++ es /\ (<[p := r']> (procs s) !! q = None -> exit_sema ru = 1 /\ loading (at_pc ru) = false).
    { intros q Hq. rw -Hpu in Hq. destruct (po_orphan _ _ _ _ Hok q Hq) as (Ho1 & Ho2 & Ho3). split_and!; [done|apply elem_of_app; by left|]. intros [Hq1 Hq2]%lookup_insert_None. destruct (Ho3 Hq1) as [Ho4 Ho5].
      destruct Hcase as [[-> ->]|[_ ->]]; [|done]. simplify_eq. split; [by rw Hes|]. destruct (loading (at_pc r')); [|done]. rw Hload in Ho5; done. }
    destruct Hcase as [[-> ->]|[Hup' ->]].
    + simplify_eq. destruct Hok. split; try done.
      * intros Hx. left. apply Hex. by rw -Hpar.
      * rw Hpar. intros Hx. destruct (loading (at_pc r')) eqn:E; [|done]. rw -(po_root0 Hx). symmetry. by apply Hload.
      * by rw exits_app Hexp.
      * rw Hes reaps_app Hre app_nil_r. done.
    + destruct Hok. split; try done.
      * intros Hx. destruct (po_exec0 Hx) as [?|(He1 & w & He2 & [He3 He3'] & He4 & He5)]; [by left|right]. split; [done|]. exists w. split_and!; try done; [apply elem_of_app; by left|].
        intros rw Hrw. destruct (Hlk w rw Hrw) as (r1 & Hr1 & _ & Hl1 & _). have := He5 _ Hr1. destruct (loading (at_pc rw)); [|done]. by rw Hl1.
      * intros b Hb. apply elem_of_app. left. by apply po_loaded0.
      * by rw exits_app Hexo // app_nil_r.
      * intros Hx. by rw reaps_app Hre app_nil_r po_reaps0.
  - intros q rq u ru Hu Hpu Hq. destruct (Hlk u ru Hu) as (r0 & Hu0 & Hpu0 & _ & Hcu). destruct (Hlk q rq Hq) as (r1 & Hq0 & _ & _ & Hcq). rw -Hpu0 in Hpu. have Hok := H2 _ _ _ _ Hu0 Hpu Hq0.
    destruct Hcu as [[-> ->]|[Hu1 ->]]; destruct Hcq as [[-> ->]|[Hq1 ->]]; [by destruct (Hne _ _ Hu0 Hpu)| | |done].
    + have ? : r0 = r by congruence. subst r0. by apply Hup.
    + have ? : r1 = r by congruence. subst r1. by apply Hch.
  - intros u. rw reaps_app Hre app_nil_r exits_app. destruct (H3 u) as [?|(v & Hv1 & Hv2)]; [by left|right]. exists v. split; [done|]. rw Hv2. destruct (decide (u = p)) as [->|Hu]; [|by rw Hexo].
    rw Hexx //. have := po_exits _ _ _ _ Hpp. rw Hv2. by destruct (exiting (at_pc r)).
  - intros u Hu. rw exits_app reaps_app Hre. have [-> ->] := H4 u Hu. rw Hexo //. have := po_tid _ _ _ _ Hpp. simpl in Hu. lia.
Qed.

Definition same_exec (r r' : proc) : Prop := at_pc r' = at_pc r /\ exec_sema r' = exec_sema r /\ exec_status r' = exec_status r.
(** A step that replaces the threads of [p] and of its child [u]. *)
Lemma inv_double s tr p r r' u ru ru' es : inv s tr -> procs s !! p = Some r -> procs s !! u = Some ru -> parent ru = Some p -> parent r' = parent r -> parent ru' = parent ru ->
  exit_sema r' = exit_sema r -> child_ok p r' u ru' ->
  (forall w rw, w <> u -> procs s !! w = Some rw -> parent rw = Some p -> child_ok p r w rw -> child_ok p r' w rw) ->
  (forall w rw, procs s !! w = Some rw -> parent rw = Some u -> child_ok u ru w rw -> child_ok u ru' w rw) ->
  (forall q rq, procs s !! q = Some rq -> child_ok q rq p r -> child_ok q rq p r') ->
  NoDup (child_list r') -> NoDup (child_list ru') -> (alone (at_pc r') = true -> child_list r' = []) -> (alone (at_pc ru') = true -> child_list ru' = []) -> (forall w, mine r' w -> mine r w) -> (forall w, mine ru' w -> mine ru w) ->
  (loading (at_pc r') = true -> loading (at_pc r) = true) -> (loading (at_pc ru') = true -> loading (at_pc ru) = true) ->
  (wait_sema r' = 0 \/ wait_sema r' = 1 /\ at_pc r' = Exit_down) -> (wait_sema ru' = 0 \/ wait_sema ru' = 1 /\ at_pc ru' = Exit_down) ->
  (is_Some (parent r) -> exec_sema r' = 0 \/ exec_sema r' = 1 /\ at_pc r' = Exec_down u /\ Load_done u (exec_status r') ∈ tr ++ es /\ loading (at_pc ru') = false) ->
  (same_exec ru ru' \/ exec_sema ru' = 0) -> (forall b, at_pc r' = Loaded b -> Load_done p b ∈ tr ++ es) -> (forall b, at_pc ru' = Loaded b -> Load_done u b ∈ tr ++ es) ->
  (forall x, x <> u -> reaps x es = []) -> (forall x, x <> u -> exits x es = []) ->
  exits p tr = (if exiting (at_pc r') then [exit_status r'] else []) -> exits u tr ++ exits u es = (if exiting (at_pc ru') then [exit_status ru'] else []) ->
  (exit_sema ru' = 0 -> reaps u tr ++ reaps u es = []) -> (reaps u tr ++ reaps u es = [] \/ exists v, reaps u tr ++ reaps u es = [v] /\ exits u tr ++ exits u es = [v]) ->
  inv (put (put s u ru') p r') (tr ++ es).
Proof.
  intros [H1 H2 H3 H4] Hp Hu Hpu Hpar Hparu Hes Hc Hch Hchu Hup Hnd Hndu Hal Halu Hmi Hmiu Hlo Hlou Hws Hwsu Hex Hexu Hld Hldu Hre Hexi Hep Heu Hreu Honce.
  have Hpp := H1 _ _ Hp. have Huu := H1 _ _ Hu. have Hlt : p < u by apply (po_orphan _ _ _ _ Huu). set m := <[p := r']> (<[u := ru']> (procs s)).
  have Hlk : forall x rx, m !! x = Some rx -> exists r0, procs s !! x = Some r0 /\ parent r0 = parent rx /\ (loading (at_pc rx) = true -> loading (at_pc r0) = true) /\ (forall w, mine rx w -> mine r0 w) /\
      (x = p /\ r0 = r /\ rx = r' \/ x = u /\ r0 = ru /\ rx = ru' \/ x <> p /\ x <> u /\ rx = r0).
  { intros x rx [[<- <-]|[Hx [[<- <-]|[Hx' Hl]]%lookup_insert_Some]]%lookup_insert_Some; [exists r; split_and!; try done; by left|exists ru; split_and!; try done; by right; left|exists rx; split_and!; try done; right; right; split_and!; [by apply not_eq_sym..|done]]. }
  have Hdom : forall w rw, procs s !! w = Some rw -> exists rw', m !! w = Some rw' /\ parent rw' = parent rw.
  { intros w rw Hw. destruct (decide (w = p)) as [->|]; [exists r'; rw lookup_insert_eq; split; [done|congruence]|]. destruct (decide (w = u)) as [->|]; [exists ru'; rw lookup_insert_ne // lookup_insert_eq; split; [done|congruence]|]. exists rw. by rw !lookup_insert_ne. }
  split.
  - intros x rx Hx. destruct (Hlk x rx Hx) as (r0 & Hx0 & Hpx & Hlx & Hmx & Hcase). have Hok := H1 _ _ Hx0.
    have Hmi' : forall w, mine rx w -> exists rw, m !! w = Some rw /\ parent rw = Some x.
    { intros w Hw. destruct (po_mine _ _ _ _ Hok w (Hmx w Hw)) as (rw & Hw0 & Hw1). destruct (Hdom w rw Hw0) as (rw' & Hw2 & Hw3). exists rw'. split; [done|congruence]. }
    have Hor : forall q, parent rx = Some q -> q < x /\ Started q x ∈ tr ++ es /\ (m !! q = None -> exit_sema rx = 1 /\ loading (at_pc rx) = false).
    { intros q Hq. rw -Hpx in Hq. destruct (po_orphan _ _ _ _ Hok q Hq) as (Ho1 & Ho2 & Ho3). split_and!; [done|apply elem_of_app; by left|]. intros Hq1. have Hq2 : procs s !! q = None by destruct (procs s !! q) eqn:E; [destruct (Hdom _ _ E) as (? & ? & _); congruence|].
      destruct (Ho3 Hq2) as [Ho4 Ho5]. split; [|destruct (loading (at_pc rx)); [|done]; rw Hlx in Ho5; done]. destruct Hcase as [(-> & -> & ->)|[(-> & -> & ->)|(_ & _ & ->)]]; [by rw Hes|congruence|done]. }
    have Htid := po_tid _ _ _ _ Hok. have Hroot : parent rx = None -> loading (at_pc rx) = false by intros Hn; rw -Hpx in Hn; have Hl0 := po_root _ _ _ _ Hok Hn; destruct (loading (at_pc rx)); [rw Hlx in Hl0|].
    have Hexo : forall rz, same_exec r0 rz -> is_Some (parent r0) -> exec_sema rz = 0 \/ exec_sema rz = 1 /\ exists w, at_pc rz = Exec_down w /\ 0 <= w < next_tid s /\ Load_done w (exec_status rz) ∈ tr ++ es /\ forall rw, m !! w = Some rw -> loading (at_pc rw) = false.
    { intros rz (E1 & E2 & E3) Hs. rw E1 E2 E3. destruct (po_exec _ _ _ _ Hok Hs) as [?|(He1 & w & He2 & [He3 He3'] & He4 & He5)]; [by left|right]. split; [done|]. exists w. split_and!; try done; [apply elem_of_app; by left|].
      intros rw Hrw. destruct (Hlk w rw Hrw) as (r1 & Hr1 & _ & Hl1 & _). have := He5 _ Hr1. destruct (loading (at_pc rw)); [|done]. by rw Hl1. }
    destruct Hcase as [(-> & -> & ->)|[(-> & -> & ->)|(Hxp & Hxu & ->)]].
    + split; try done.
      * rw Hpar. intros Hs. destruct (Hex Hs) as [?|(He1 & He2 & He3 & He4)]; [by left|right]. split; [done|]. exists u. split_and!; try done; [apply (po_tid _ _ _ _ Huu)|apply (po_tid _ _ _ _ Huu)|]. intros rw. rw lookup_insert_ne; [lia|]. rw lookup_insert_eq. by intros [= <-].
      * rw exits_app Hexi; [lia|]. by rw app_nil_r Hep.
      * rw Hes reaps_app Hre; [lia|]. rw app_nil_r. apply Hpp.
    + split; try done.
      * rw Hparu. intros Hs. destruct Hexu as [Hse|?]; [by apply Hexo|by left].
      * by rw exits_app Heu.
      * rw reaps_app. done.
    + split; try done; [apply Hok|apply Hok|apply Hok| | | |].
      * by apply Hexo.
      * intros b Hb. apply elem_of_app. left. by apply (po_loaded _ _ _ _ Hok).
      * rw exits_app Hexi // app_nil_r. apply Hok.
      * rw reaps_app Hre // app_nil_r. apply Hok.
  - intros q rq x rx Hx Hpx Hq. destruct (Hlk x rx Hx) as (r0 & Hx0 & Hpx0 & _ & _ & Hcx). destruct (Hlk q rq Hq) as (r1 & Hq0 & _ & _ & _ & Hcq). rw -Hpx0 in Hpx. have Hok := H2 _ _ _ _ Hx0 Hpx Hq0.
    have Hltx := po_orphan _ _ _ _ (H1 _ _ Hx0) _ Hpx.
    destruct Hcx as [(-> & -> & ->)|[(-> & -> & ->)|(Hx1 & Hx2 & ->)]]; destruct Hcq as [(-> & -> & ->)|[(-> & -> & ->)|(Hq1 & Hq2 & ->)]]; try done; try lia; [by apply Hup|congruence|by apply Hch|by apply Hchu].
  - intros x. rw reaps_app exits_app. destruct (decide (x = u)) as [->|Hx]; [done|]. rw Hre // Hexi // !app_nil_r. done.
  - intros x Hx. have Htu := po_tid _ _ _ _ Huu. have Hxu : x <> u by simpl in Hx; lia. rw exits_app reaps_app Hre // Hexi // !app_nil_r. by apply H4.
Qed.

(** The thread of [p] is freed. *)
Lemma inv_gone s tr p r : inv s tr -> procs s !! p = Some r -> at_pc r = Exit_down -> 0 < exit_sema r -> inv (mk_state (delete p (procs s)) (next_tid s)) (tr ++ [Gone p]).
Proof.
  intros [H1 H2 H3 H4] Hp Hpc Hes. have Hpp := H1 _ _ Hp. have Hnil : child_list r = [] by apply (po_alone _ _ _ _ Hpp); rw Hpc.
  have Hx : forall u, exits u (tr ++ [Gone p]) = exits u tr /\ reaps u (tr ++ [Gone p]) = reaps u tr by intros u; rw exits_app reaps_app /= !app_nil_r.
  have Hfree : forall u ru, procs s !! u = Some ru -> parent ru = Some p -> exit_sema ru = 1 /\ loading (at_pc ru) = false.
  { intros u ru Hu Hpu. have Hc := H2 _ _ _ _ Hu Hpu Hp. split; [apply (co_free _ _ _ _ Hc); rw ?Hnil ?Hpc //; apply not_elem_of_nil|].
    destruct (loading (at_pc ru)) eqn:E; [|done]. destruct (co_loading _ _ _ _ Hc E) as [Hin _]. rw Hnil in Hin. by apply not_elem_of_nil in Hin. }
  have Hnot : forall q rq, procs s !! q = Some rq -> ~ mine rq p.
  { intros q rq Hq Hm. destruct (po_mine _ _ _ _ (H1 _ _ Hq) p Hm) as (r1 & Hr1 & Hpar). simplify_eq. have Hc := H2 _ _ _ _ Hp Hpar Hq.
    destruct Hm as [Hm|[Hm|Hm]]; [have := co_listed _ _ _ _ Hc Hm|have := co_held _ _ _ _ Hc Hm|have := co_listed _ _ _ _ Hc (co_waits _ _ _ _ Hc Hm)]; lia. }
  split; simpl.
  - intros u ru [Hu Hl]%lookup_delete_Some. have Hok := H1 _ _ Hl. destruct Hok. split; try done; rw ?(proj1 (Hx u)) ?(proj2 (Hx u)) //=.
    + intros w Hw. destruct (po_mine0 w Hw) as (rw & Hw1 & Hw2). exists rw. split; [|done]. rw lookup_delete_ne //. intros <-. by apply (Hnot _ _ Hl).
    + intros q Hq. destruct (po_orphan0 q Hq) as (Ho1 & Ho2 & Ho3). split_and!; [done|apply elem_of_app; by left|]. intros Hd. destruct (decide (q = p)) as [->|Hqp]; [by apply Hfree with u|]. apply Ho3. by rewrite lookup_delete_ne in Hd.
    + intros Hs. destruct (po_exec0 Hs) as [?|(He1 & w & He2 & [He3 He3'] & He4 & He5)]; [by left|right]. split; [done|]. exists w. split_and!; try done; [apply elem_of_app; by left|]. intros rw [_ Hrw]%lookup_delete_Some. by apply He5.
    + intros b Hb. apply elem_of_app. left. by apply po_loaded0.
  - intros q rq u ru [_ Hu]%lookup_delete_Some Hpu [_ Hq]%lookup_delete_Some. by apply H2.
  - intros u. rw (proj1 (Hx u)) (proj2 (Hx u)). apply H3.
  - intros u Hu. rw (proj1 (Hx u)) (proj2 (Hx u)). by apply H4.
Qed.

(** [p] creates a process and waits, for it to be loaded or to exit. *)
Lemma inv_create s tr p r x : inv s tr -> procs s !! p = Some r -> at_pc r = User ->
  let u := next_tid s in (x = Exec_down u /\ is_Some (parent r) \/ x = Wait_down u /\ parent r = None) ->
  inv (mk_state (<[p := set_pc x (set_children (child_list r ++ [u]) r)]> (<[u := new_proc p]> (procs s))) (u + 1)) (tr ++ [Started p u]).
Proof.
  intros [H1 H2 H3 H4] Hp Hpc u Hx. have Hpp := H1 _ _ Hp. have Htid := po_tid _ _ _ _ Hpp.
  have Hev : forall w, exits w (tr ++ [Started p u]) = exits w tr /\ reaps w (tr ++ [Started p u]) = reaps w tr by intros w; rw exits_app reaps_app /= !app_nil_r.
  set r' := set_pc x (set_children (child_list r ++ [u]) r). set m := <[p := r']> _.
  have Hold : forall w rw, procs s !! w = Some rw -> w < u by intros w rw Hw; have := po_tid _ _ _ _ (H1 _ _ Hw); lia.
  have Hum : m !! u = Some (new_proc p) by rw /m lookup_insert_ne; [rw /u; lia|apply lookup_insert_eq].
  have Hlk : forall w rw, m !! w = Some rw -> w = p /\ rw = r' \/ w = u /\ rw = new_proc p \/ w <> p /\ w <> u /\ procs s !! w = Some rw.
  { intros w rw [[<- <-]|[Hw [[<- <-]|[Hw' Hl]]%lookup_insert_Some]]%lookup_insert_Some; [by left|by right; left|right; right; split_and!; [by apply not_eq_sym..|done]]. }
  have Hdom : forall w rw, procs s !! w = Some rw -> exists rw', m !! w = Some rw' /\ parent rw' = parent rw /\ (loading (at_pc rw) = false -> loading (at_pc rw') = false).
  { intros w rw Hw. have := Hold _ _ Hw. intros Hlt. destruct (decide (w = p)) as [->|]; [exists r'; rw lookup_insert_eq; simplify_eq; split_and!; try done; intros _; destruct Hx as [[-> _]|[-> _]]; done|]. exists rw. rw !lookup_insert_ne //; lia. }
  have Hnew : u ∉ child_list r. { intros Hin. destruct (po_mine _ _ _ _ Hpp u) as (rw & Hw & _); [by left|]. have := Hold _ _ Hw. lia. }
  have Hnone : procs s !! u = None. { destruct (procs s !! u) eqn:E; [|done]. have := Hold _ _ E. lia. }
  have Hh' : holds x = None /\ loading x = false /\ exiting x = false /\ alone x = false /\ reaping x = None by destruct Hx as [[-> _]|[-> _]].
  destruct Hh' as (Hh1 & Hh2 & Hh3 & Hh4 & Hh5).
  split; simpl.
  - intros w rw Hw. destruct (Hlk _ _ Hw) as [[-> ->]|[[-> ->]|(Hwp & Hwu & Hl)]].
    + split; simpl; rw ?(proj1 (Hev p)) ?(proj2 (Hev p)).
      * lia.
      * apply NoDup_app. split_and!; [apply Hpp| |apply NoDup_singleton]. intros w Hw1 ->%list_elem_of_singleton. done.
      * by rw Hh4.
      * intros w Hm. have Hm' : w = u \/ mine r w.
        { destruct Hm as [[Hm| ->%list_elem_of_singleton]%elem_of_app|[Hm|Hm]]; [by right; left|by left|simpl in Hm; congruence|]. left. destruct Hx as [[-> _]|[-> _]]; simpl in Hm; congruence. }
        destruct Hm' as [->|Hm']; [by eexists|]. destruct (po_mine _ _ _ _ Hpp w Hm') as (rw & Hw1 & Hw2). destruct (Hdom _ _ Hw1) as (rw' & Hw3 & Hw4 & _). exists rw'. split; [done|congruence].
      * intros q Hq. destruct (po_orphan _ _ _ _ Hpp q Hq) as (Ho1 & Ho2 & Ho3). split_and!; [done|apply elem_of_app; by left|]. intros Hd. split; [|done]. apply Ho3. destruct (procs s !! q) eqn:E; [|done]. destruct (Hdom _ _ E) as (? & ? & _). congruence.
      * destruct (po_wsema _ _ _ _ Hpp) as [?|[_ ?]]; [by left|congruence].
      * intros Hs. left. destruct (po_exec _ _ _ _ Hpp Hs) as [?|(_ & y & Hy & _)]; [done|congruence].
      * done.
      * intros b Hb. destruct Hx as [[-> _]|[-> _]]; done.
      * rw Hh3 (po_exits _ _ _ _ Hpp) Hpc //.
      * apply Hpp.
    + have [Hn1 Hn2] := H4 u ltac:(rewrite /u; lia). split; simpl; rw ?(proj1 (Hev u)) ?(proj2 (Hev u)) ?Hn1 ?Hn2 //; [lia|apply NoDup_nil_2| |intros q [= <-]; split_and!; [rw /u; lia|set_solver|by rw lookup_insert_eq]|by left|by left].
      intros w [Hm|[Hm|Hm]]; [by apply not_elem_of_nil in Hm|done|done].
    + have Hok := H1 _ _ Hl. split; simpl; rw ?(proj1 (Hev w)) ?(proj2 (Hev w)); try apply Hok.
      * have := po_tid _ _ _ _ Hok. lia.
      * intros y Hm. destruct (po_mine _ _ _ _ Hok y Hm) as (ry & Hy1 & Hy2). destruct (Hdom _ _ Hy1) as (ry' & Hy3 & Hy4 & _). exists ry'. split; [done|congruence].
      * intros q Hq. destruct (po_orphan _ _ _ _ Hok q Hq) as (Ho1 & Ho2 & Ho3). split_and!; [done|apply elem_of_app; by left|]. intros Hd. apply Ho3. destruct (procs s !! q) eqn:E; [|done]. destruct (Hdom _ _ E) as (? & ? & _). congruence.
      * intros Hs. destruct (po_exec _ _ _ _ Hok Hs) as [?|(He1 & y & He2 & [He3 He3'] & He4 & He5)]; [by left|right]. split; [done|]. exists y. split_and!; try done; [lia|apply elem_of_app; by left|].
        intros ry Hry. destruct (Hlk _ _ Hry) as [[-> ->]|[[-> ->]|(_ & _ & Hl')]]; [simpl; by rw Hh2|lia|by apply He5].
      * intros b Hb. apply elem_of_app. left. by apply (po_loaded _ _ _ _ Hok).
  - intros q rq w rw Hw Hpw Hq. destruct (Hlk _ _ Hw) as [[-> ->]|[[-> ->]|(Hwp & Hwu & Hwl)]]; destruct (Hlk _ _ Hq) as [[-> ->]|[[-> ->]|(Hqp & Hqu & Hql)]].
    + have := po_orphan _ _ _ _ Hpp p Hpw. lia.
    + have := po_orphan _ _ _ _ Hpp u Hpw. lia.
    + have Hc := H2 _ _ _ _ Hp Hpw Hql. destruct Hc. split; simpl; try done; [intros Hr; destruct (co_reaping0 Hr); congruence|by destruct Hx as [[-> _]|[-> _]]|by rw Hh2|by destruct Hx as [[-> _]|[-> _]]].
    + split; simpl; try done; rw ?Hh1 ?Hh5 //; [intros Hin; exfalso; apply Hin; set_solver|by intros _; set_solver|intros v Hv; by destruct Hx as [[-> _]|[-> _]]|].
      intros _. split; [set_solver|]. destruct Hx as [[-> Hs]|[-> Hs]]; [left|by right]. split_and!; try done. destruct (po_exec _ _ _ _ Hpp Hs) as [?|(_ & y & Hy & _)]; [done|congruence].
    + exfalso. simpl in Hpw. injection Hpw as Hpw. lia.
    + simpl in Hpw. congruence.
    + have Hc := H2 _ _ _ _ Hwl Hpw Hp. destruct Hc. rw Hpc in co_listed0, co_held0, co_free0, co_reaping0, co_reaped0, co_loading0. split; simpl; rw ?Hh1 ?Hh5 //.
      * intros [Hin| ->%list_elem_of_singleton]%elem_of_app; [by split; [apply co_listed0|]|done].
      * intros Hin _. apply co_free0; [set_solver|done].
      * intros Hwt. exfalso. apply Hwu. destruct Hx as [[-> _]|[-> _]]; simpl in Hwt; congruence.
      * intros v Hv. by destruct Hx as [[-> _]|[-> _]].
      * intros Hl. destruct (co_loading0 Hl) as [_ [(? & _)|(? & _)]]; done.
    + have := po_orphan _ _ _ _ (H1 _ _ Hwl) _ Hpw. have := Hold _ _ Hwl. lia.
    + by apply H2.
  - intros w. rw (proj1 (Hev w)) (proj2 (Hev w)). apply H3.
  - intros w Hw. rw (proj1 (Hev w)) (proj2 (Hev w)). apply H4. lia.
Qed.

(** ** Steps *)
(** The link to a child when the parent goes on, with the same children. *)
Lemma link_down p r r' u ru : child_ok p r u ru -> child_list r' = child_list r -> holds (at_pc r') = holds (at_pc r) -> reaping (at_pc r') = reaping (at_pc r) ->
  (waits (at_pc r') = Some u -> u ∈ child_list r) -> loading (at_pc ru) = false -> (forall v, at_pc r' = Wait_up u v -> v = exit_status ru) -> child_ok p r' u ru.
Proof. intros [] E1 E2 E3 Hw Hl Hv. split; rewrite ?E1 ?E2 ?E3 //; [by rewrite Hl|intros b Hb; by rewrite Hb in Hl]. Qed.
(** The link to the parent when the child goes on, before its end. *)
Lemma link_up q rq p r r' : child_ok q rq p r -> exit_sema r' = exit_sema r -> at_pc r <> Exit_down -> (at_pc r' = Exit_down -> wait_sema r' <> 0) -> loading (at_pc r') = false -> child_ok q rq p r'.
Proof.
  intros [] E1 H1 H2 Hl. split; rewrite ?E1 //.
  - by intros [? _]%co_reaping0.
  - intros Ha Hb. by destruct (H2 Ha).
  - intros v Hv. rewrite Hv in co_reaping0. by destruct co_reaping0.
  - by rewrite Hl.
  - intros b Hb. by rewrite Hb in Hl.
Qed.
(** A process that is in its program, or exiting, has no child that is being loaded. *)
Lemma no_loading p r u ru : child_ok p r u ru -> (forall w, at_pc r <> Exec_down w) -> (forall w, at_pc r <> Wait_down w) -> loading (at_pc ru) = false.
Proof. intros [] H1 H2. destruct (loading (at_pc ru)); [|done]. destruct co_loading0 as [_ [[? _]|[? _]]]; [done|by destruct (H1 u)|by destruct (H2 u)]. Qed.

Section steps.
Context (s : state) (tr : list event) (p : Z) (r : proc) (Hinv : inv s tr) (Hp : procs s !! p = Some r).

Lemma exec_sema_zero : (forall u, at_pc r <> Exec_down u) -> is_Some (parent r) -> exec_sema r = 0.
Proof. intros Hn Hs. destruct (po_exec _ _ _ _ (i_proc _ _ Hinv _ _ Hp) Hs) as [?|(_ & w & Hw & _)]; [done|]. by destruct (Hn w). Qed.
Lemma wait_sema_zero : at_pc r <> Exit_down -> wait_sema r = 0.
Proof. intros Hn. by destruct (po_wsema _ _ _ _ (i_proc _ _ Hinv _ _ Hp)) as [?|[_ ?]]. Qed.
Lemma get_mine u : mine r u -> exists ru, procs s !! u = Some ru /\ parent ru = Some p /\ child_ok p r u ru.
Proof. intros Hm. destruct (po_mine _ _ _ _ (i_proc _ _ Hinv _ _ Hp) u Hm) as (ru & Hu & Hpu). exists ru. split_and!; try done. by apply (i_child _ _ Hinv). Qed.
Lemma exits_now : exits p tr = if exiting (at_pc r) then [exit_status r] else [].
Proof. apply (i_proc _ _ Hinv _ _ Hp). Qed.

(** The steps that change the program counter only, outside of exiting, loading and executing. *)
Lemma inv_move x : at_pc r <> Exit_down -> x <> Exit_down -> alone x = false -> loading x = false -> exiting x = exiting (at_pc r) -> (forall u, at_pc r <> Exec_down u) ->
  (forall w, mine (set_pc x r) w -> mine r w) ->
  (forall u ru, procs s !! u = Some ru -> parent ru = Some p -> child_ok p r u ru -> child_ok p (set_pc x r) u ru) -> inv (put s p (set_pc x r)) (tr ++ []).
Proof.
  intros H1 H1' H2 H3 H4 H5 H6 H7. have Hok := i_proc _ _ Hinv _ _ Hp. eapply inv_single; try done; simpl; rewrite ?H2 ?H3 ?H4 //.
  - intros q rq Hq Hc. by apply link_up with r.
  - apply Hok.
  - left. by apply wait_sema_zero.
  - by apply exec_sema_zero.
  - by intros b ->.
  - rewrite app_nil_r. apply exits_now.
Qed.

Lemma step_exec_fails : at_pc r = User -> inv (put s p (set_pc (Exec_down (-1)) r)) (tr ++ []).
Proof.
  intros Hpc. apply inv_move; rewrite ?Hpc //; [intros w [Hm|[Hm|Hm]]; [by left|done|done]|].
  intros u ru _ _ Hc. apply link_down with r; rewrite ?Hpc //. apply no_loading with p r u; by rewrite ?Hpc.
Qed.
Lemma step_wait u : at_pc r = User -> u ∈ child_list r -> inv (put s p (set_pc (Wait_down u) r)) (tr ++ []).
Proof.
  intros Hpc Hu. apply inv_move; rewrite ?Hpc //; [intros w [Hm|[Hm|Hm]]; [by left|done|left; simpl in Hm; by simplify_eq]|].
  intros w rw _ _ Hc. apply link_down with r; rewrite ?Hpc //=; [by intros [= <-]|]. apply no_loading with p r w; by rewrite ?Hpc.
Qed.
(** The program ends, or could not be loaded. *)
Lemma step_exit v : at_pc r = User -> inv (put s p (set_pc Exit_pop (set_exit_status v r))) (tr ++ [Exited p v]).
Proof.
  intros Hpc. have Hok := i_proc _ _ Hinv _ _ Hp. eapply inv_single; try done; simpl.
  - intros u ru _ _ Hc. apply link_down with r; rewrite ?Hpc //. apply no_loading with p r u; by rewrite ?Hpc.
  - intros q rq _ Hc. apply link_up with r; by rewrite ?Hpc.
  - apply Hok.
  - intros w [Hm|[Hm|Hm]]; [by left|done|done].
  - left. apply wait_sema_zero. by rewrite Hpc.
  - intros. apply exec_sema_zero; [by rewrite Hpc|done].
  - intros u Hu. by rewrite decide_False.
  - rewrite exits_now Hpc decide_True //.
  - by rewrite Hpc.
Qed.

Lemma step_exec_returns u v : at_pc r = Exec_down u -> 0 < exec_sema r -> inv (put s p (set_pc User (set_exec (exec_status r) (exec_sema r - 1) r))) (tr ++ [Exec_returns p v]).
Proof.
  intros Hpc Hs. have Hok := i_proc _ _ Hinv _ _ Hp. eapply inv_single; try done; simpl; rewrite ?Hpc //.
  - intros w rw _ _ Hc. apply link_down with r; rewrite ?Hpc //. destruct (loading (at_pc rw)) eqn:E; [|done]. destruct (co_loading _ _ _ _ Hc E) as [_ [(_ & ? & _)|(? & _)]]; [lia|congruence].
  - intros q rq _ Hc. apply link_up with r; by rewrite ?Hpc.
  - apply Hok.
  - intros w [Hm|[Hm|Hm]]; [by left|done|done].
  - left. apply wait_sema_zero. by rewrite Hpc.
  - intros Hx. destruct (po_exec _ _ _ _ Hok Hx) as [?|[? _]]; lia.
  - rewrite exits_now Hpc //.
Qed.
Lemma step_wait_remove u : at_pc r = Wait_remove u -> inv (put s p (set_pc (Wait_status u) (set_children (filter (fun x => x <> u) (child_list r)) r))) (tr ++ []).
Proof.
  intros Hpc. have Hok := i_proc _ _ Hinv _ _ Hp. eapply inv_single; try done; simpl; rewrite ?Hpc //.
  - intros w rw _ _ Hc. have Hl : loading (at_pc rw) = false by (apply no_loading with p r w; by rewrite ?Hpc). destruct Hc. rewrite Hpc in co_listed0, co_held0, co_free0, co_waits0, co_reaping0, co_reaped0. split; simpl.
    + intros [Hw Hin]%list_elem_of_filter. split; [by apply co_listed0|congruence].
    + intros [= <-]. split; [by apply co_listed0, co_waits0|]. intros [Hw _]%list_elem_of_filter. done.
    + intros Hin Hw. apply co_free0; [|done]. intros Hx. apply Hin, list_elem_of_filter. split; [congruence|done].
    + done.
    + done.
    + done.
    + done.
    + by rewrite Hl.
    + intros b Hb. by rewrite Hb in Hl.
  - intros q rq _ Hc. apply link_up with r; by rewrite ?Hpc.
  - apply NoDup_filter, Hok.
  - intros w [Hm|[Hm|Hm]]; [left|right; right|done]; [by apply list_elem_of_filter in Hm as [_ ?]|simpl in *; by rewrite Hpc].
  - left. apply wait_sema_zero. by rewrite Hpc.
  - intros Hx. apply exec_sema_zero; [by rewrite Hpc|done].
  - rewrite exits_now Hpc //.
Qed.
Lemma step_wait_status u ru : at_pc r = Wait_status u -> procs s !! u = Some ru -> inv (put s p (set_pc (Wait_up u (exit_status ru)) r)) (tr ++ []).
Proof.
  intros Hpc Hu. apply inv_move; rewrite ?Hpc //.
  - intros w [Hm|[Hm|Hm]]; [by left|right; left; by rewrite Hpc|done].
  - intros w rw Hw _ Hc. apply link_down with r; rewrite ?Hpc //; [apply no_loading with p r w; by rewrite ?Hpc|]. intros v [= -> <-]. congruence.
Qed.
Lemma step_exit_signal : at_pc r = Exit_pop -> child_list r = [] -> inv (put s p (set_pc Exit_signal r)) (tr ++ []).
Proof.
  intros Hpc Hn. have Hok := i_proc _ _ Hinv _ _ Hp. eapply inv_single; try done; simpl; rewrite ?Hpc //.
  - intros w rw _ _ Hc. apply link_down with r; rewrite ?Hpc //. apply no_loading with p r w; by rewrite ?Hpc.
  - intros q rq _ Hc. apply link_up with r; by rewrite ?Hpc.
  - apply Hok.
  - intros w [Hm|[Hm|Hm]]; [by left|done|done].
  - left. apply wait_sema_zero. by rewrite Hpc.
  - intros Hx. apply exec_sema_zero; [by rewrite Hpc|done].
  - rewrite exits_now Hpc //.
Qed.
Lemma step_exit_pop u l : at_pc r = Exit_pop -> child_list r = u :: l -> inv (put s p (set_pc (Exit_up u) (set_children l r))) (tr ++ []).
Proof.
  intros Hpc Hn. have Hok := i_proc _ _ Hinv _ _ Hp. have Hnd := po_nodup _ _ _ _ Hok. rewrite Hn in Hnd. apply NoDup_cons in Hnd as [Hu Hnd]. eapply inv_single; try done; simpl; rewrite ?Hpc //.
  - intros w rw _ _ Hc. have Hl : loading (at_pc rw) = false by (apply no_loading with p r w; by rewrite ?Hpc). destruct Hc. rewrite Hpc Hn in co_listed0, co_held0, co_free0, co_waits0, co_reaping0, co_reaped0. split; simpl.
    + intros Hin. split; [apply co_listed0; by right|congruence].
    + intros [= <-]. split; [apply co_listed0; by left|done].
    + intros Hin Hw. apply co_free0; [|done]. intros [->|?]%elem_of_cons; done.
    + done.
    + done.
    + done.
    + done.
    + by rewrite Hl.
    + intros b Hb. by rewrite Hb in Hl.
  - intros q rq _ Hc. apply link_up with r; by rewrite ?Hpc.
  - rewrite /mine /= Hn. intros w [Hm|[[= <-]|Hm]]; [left; by right|left; by left|done].
  - left. apply wait_sema_zero. by rewrite Hpc.
  - intros Hx. apply exec_sema_zero; [by rewrite Hpc|done].
  - rewrite exits_now Hpc //.
Qed.
Lemma step_exit_signalled : at_pc r = Exit_signal -> inv (put s p (set_pc Exit_down (set_wait_sema (wait_sema r + 1) r))) (tr ++ []).
Proof.
  intros Hpc. have Hok := i_proc _ _ Hinv _ _ Hp. have Hw0 : wait_sema r = 0 by apply wait_sema_zero; rewrite Hpc. eapply inv_single; try done; simpl; rewrite ?Hpc //.
  - intros w rw _ _ Hc. apply link_down with r; rewrite ?Hpc //. apply no_loading with p r w; by rewrite ?Hpc.
  - intros q rq _ Hc. apply link_up with r; rewrite ?Hpc //=. lia.
  - apply Hok.
  - intros _. apply (po_alone _ _ _ _ Hok). by rewrite Hpc.
  - intros w [Hm|[Hm|Hm]]; [by left|done|done].
  - right. by rewrite Hw0.
  - intros Hx. apply exec_sema_zero; [by rewrite Hpc|done].
  - rewrite exits_now Hpc //.
Qed.

Lemma step_waited u ru : at_pc r = Wait_down u -> procs s !! u = Some ru -> 0 < wait_sema ru -> inv (put (put s u (set_wait_sema (wait_sema ru - 1) ru)) p (set_pc (Wait_remove u) r)) (tr ++ []).
Proof.
  intros Hpc Hu Hs. have Hok := i_proc _ _ Hinv _ _ Hp. have Hoku := i_proc _ _ Hinv _ _ Hu.
  destruct (get_mine u) as (ru' & Hu' & Hpu & Hc); [right; right; by rewrite Hpc|]. simplify_eq.
  have [Hw1 Hd] : wait_sema ru = 1 /\ at_pc ru = Exit_down by destruct (po_wsema _ _ _ _ Hoku) as [?|?]; [lia|done].
  eapply inv_double; try done; simpl; rewrite ?Hpc ?Hd //.
  - destruct Hc. rewrite Hpc in co_listed0, co_free0, co_waits0. have Hin := co_waits0 eq_refl. split; simpl; rewrite ?Hd ?Hw1 //.
  - intros w rw Hwu _ _ Hw. have Hl : loading (at_pc rw) = false by destruct (loading (at_pc rw)) eqn:E; [destruct (co_loading _ _ _ _ Hw E) as [_ [(? & _)|(? & _)]]; congruence|done].
    destruct Hw. rewrite Hpc in co_listed0, co_held0, co_free0, co_waits0, co_reaping0, co_reaped0. split; simpl; try done; [congruence|intros Ha Hb Hx; by specialize (co_reaped0 Ha Hb Hx)|by rewrite Hl].
  - intros w rw _ _ []. split; try done.
  - intros q rq _ Hq. apply link_up with r; by rewrite ?Hpc.
  - apply Hok.
  - apply Hoku.
  - intros _. apply (po_alone _ _ _ _ Hoku). by rewrite Hd.
  - intros w [Hm|[Hm|Hm]]; [by left|done|right; right; by rewrite Hpc].
  - left. apply wait_sema_zero. by rewrite Hpc.
  - left. lia.
  - intros Hx. left. apply exec_sema_zero; [by rewrite Hpc|done].
  - left. by rewrite /same_exec.
  - rewrite exits_now Hpc //.
  - rewrite app_nil_r (po_exits _ _ _ _ Hoku) Hd //.
  - intros Hx. rewrite app_nil_r. by apply Hoku.
  - rewrite !app_nil_r. apply Hinv.
Qed.

(** [sema_up (&child->exit_sema)] for a child that was taken from the list. *)
Lemma protocol_release u ru x es : holds (at_pc r) = Some u -> procs s !! u = Some ru -> holds x = None -> reaping x = None -> waits x = None -> alone x = false -> loading x = false -> x <> Exit_down ->
  exiting x = exiting (at_pc r) -> (forall w, exits w es = []) -> (forall w, w <> u -> reaps w es = []) -> (reaps u es = [] \/ exists v, reaps u es = [v] /\ exits u tr = [v]) ->
  inv (put (put s u (set_exit_sema (exit_sema ru + 1) ru)) p (set_pc x r)) (tr ++ es).
Proof.
  intros Hh Hu H1 H2 H3 H4 H5 H6 H7 He1 He2 He3. have Hok := i_proc _ _ Hinv _ _ Hp. have Hoku := i_proc _ _ Hinv _ _ Hu.
  destruct (get_mine u) as (ru' & Hu' & Hpu & Hc); [right; by left|]. simplify_eq.
  have [Hx1 Hx2] : (forall w, at_pc r <> Exec_down w) /\ (forall w, at_pc r <> Wait_down w) by split; intros w Hw; rewrite Hw in Hh.
  have Hx3 : at_pc r <> Exit_down by intros Hw; rewrite Hw in Hh.
  have [Hz Hnin] := co_held _ _ _ _ Hc Hh. have Hr0 := po_reaps _ _ _ _ Hoku Hz.
  have Hl : forall w rw, child_ok p r w rw -> loading (at_pc rw) = false by intros; by apply no_loading with p r w.
  have Hrp : forall w, reaping (at_pc r) = Some w -> w = u by destruct (at_pc r); simpl in *; congruence.
  have Hnup : forall w v, x <> Wait_up w v by intros w v ->.
  eapply inv_double; try done; simpl; rewrite ?H4 ?H5 ?H7 //.
  - have Hlu := Hl _ _ Hc. destruct Hc. split; simpl; rewrite ?H1 ?H2 ?H3 ?Hz ?Hlu //. intros v Hv. by destruct (Hnup u v).
  - intros w rw Hwu _ _ Hw. have Hlw := Hl _ _ Hw. destruct Hw. split; simpl; rewrite ?H1 ?H2 ?H3 ?Hlw //.
    + intros Hin. by split; [apply co_listed0|].
    + intros Hin _. apply co_free0; [done|congruence].
    + intros Ha Hb Hy. have := Hrp _ (co_reaped0 Ha Hb Hy). done.
    + intros v Hv. by destruct (Hnup w v).
  - intros w rw _ _ []. split; done.
  - intros q rq _ Hq. by apply link_up with r.
  - apply Hok.
  - apply Hoku.
  - apply Hoku.
  - rewrite /mine /= H1 H3. intros w [Hm|[Hm|Hm]]; [by left|done|done].
  - left. by apply wait_sema_zero.
  - apply Hoku.
  - intros Hs. left. by apply exec_sema_zero.
  - left. by rewrite /same_exec.
  - intros b Hb. by rewrite Hb in H5.
  - intros b Hb. apply elem_of_app. left. by apply (po_loaded _ _ _ _ Hoku).
  - apply exits_now.
  - rewrite He1 app_nil_r. apply Hoku.
  - lia.
  - rewrite Hr0 He1 app_nil_r. destruct He3 as [?|?]; [by left|by right].
Qed.

(** The steps of a process that is being loaded, with its parent [q]. *)
Context (q : Z) (rq : proc) (Hpar : parent r = Some q) (Hq : procs s !! q = Some rq).
Lemma loading_parent : loading (at_pc r) = true -> at_pc rq = Exec_down p /\ exec_sema rq = 0 /\ is_Some (parent rq) \/ at_pc rq = Wait_down p /\ parent rq = None.
Proof. intros Hl. apply (co_loading _ _ _ _ (i_child _ _ Hinv _ _ _ _ Hp Hpar Hq) Hl). Qed.
Lemma other_not_loading w rw : loading (at_pc r) = true -> w <> p -> child_ok q rq w rw -> loading (at_pc rw) = false.
Proof.
  intros Hl Hw Hc. destruct (loading (at_pc rw)) eqn:E; [|done]. destruct (co_loading _ _ _ _ Hc E) as [_ Hd].
  destruct (loading_parent Hl) as [(H1 & _)|(H1 & _)], Hd as [(H2 & _)|(H2 & _)]; congruence.
Qed.
Lemma put_swap (a b : proc) : put (put s q a) p b = put (put s p b) q a.
Proof.
  have Hne : p <> q by have := po_orphan _ _ _ _ (i_proc _ _ Hinv _ _ Hp) _ Hpar; lia. rewrite /put /=. f_equal. by apply insert_insert_ne.
Qed.

(** The two steps with which a child reports to its parent. *)
Lemma inv_report b n x es : loading (at_pc r) = true -> x <> Exit_down -> alone x = false -> holds x = None -> waits x = None -> reaping x = None ->
  (loading x = true -> n = exec_sema rq) -> (forall c, x = Loaded c -> c = b) -> (loading x = false -> n = exec_sema rq + 1) ->
  Load_done p b ∈ tr ++ es -> (forall w, reaps w es = []) -> (forall w, w <> p -> exits w es = []) ->
  exits p es = (if exiting x then [exit_status r] else []) -> inv (put (put s q (set_exec b n rq)) p (set_pc x r)) (tr ++ es).
Proof.
  intros Hl H1 H2 H3 H4 H5 Hn1 Hb Hn2 Hld He1 He2 He3. rewrite put_swap. have Hok := i_proc _ _ Hinv _ _ Hp. have Hokq := i_proc _ _ Hinv _ _ Hq.
  have [Ha Hb'] : (forall w, at_pc r <> Exec_down w) /\ (forall w, at_pc r <> Wait_down w) by split; intros w Hw; rewrite Hw in Hl.
  have [Hh [Hr Hx]] : holds (at_pc r) = None /\ reaping (at_pc r) = None /\ exiting (at_pc r) = false by destruct (at_pc r).
  have Hx3 : at_pc r <> Exit_down by intros Hw; rewrite Hw in Hl. have Hc := i_child _ _ Hinv _ _ _ _ Hp Hpar Hq.
  have Hxp := exits_now. rewrite Hx in Hxp.
  eapply inv_double; try done; simpl; rewrite ?H2 ?Hxp //.
  - destruct Hc. split; simpl; try done; try by intros ?%co_reaping0.
    + by intros [? _]%co_reaping0.
    + intros Hlx. destruct (co_loading0 Hl) as [Hin Hd]. rewrite (Hn1 Hlx). done.
    + intros c Hcx. by rewrite (Hb _ Hcx).
  - intros w rw Hw _ _ Hcw. have Hlw := other_not_loading _ _ Hl Hw Hcw. destruct Hcw. split; simpl; try done; [by rewrite Hlw|intros c Hcx; by rewrite Hcx in Hlw].
  - intros w rw _ _ Hw. apply link_down with r; simpl; rewrite ?Hh ?Hr ?H4 //; [by apply no_loading with p r w|]. intros v Hv. by rewrite Hv in H3.
  - intros z rz _ []. split; done.
  - apply Hokq.
  - apply Hok.
  - apply Hokq.
  - rewrite /mine /= H3 H4. intros w [Hm|[Hm|Hm]]; [by left|done|done].
  - apply Hokq.
  - left. by apply wait_sema_zero.
  - intros Hs. destruct (loading_parent Hl) as [(E1 & E2 & _)|(_ & E2)]; [|by rewrite E2 in Hs; destruct Hs]. destruct (loading x) eqn:E; [left; rewrite Hn1 //|right; rewrite Hn2 //]. split_and!; [lia|done|done|done].
  - right. apply exec_sema_zero; [done|by eexists].
  - intros c Hc'. apply elem_of_app. left. by apply (po_loaded _ _ _ _ Hokq).
  - intros c Hc'. by rewrite (Hb _ Hc').
  - apply Hokq.
  - rewrite He1 app_nil_r. apply Hok.
  - rewrite He1 app_nil_r. left. apply Hok. apply (co_listed _ _ _ _ Hc). apply (co_loading _ _ _ _ Hc Hl).
Qed.
End steps.

Lemma get_put_eq s u r : get (put s u r) u = Ok r.
Proof. by rewrite /get /put /= lookup_insert_eq. Qed.
Lemma get_put_ne s u v r : u <> v -> get (put s v r) u = get s u.
Proof. intros H. by rewrite /get /put /= lookup_insert_ne. Qed.
Lemma get_ok s u r : procs s !! u = Some r -> get s u = Ok r.
Proof. by rewrite /get => ->. Qed.
Lemma find_child_ok s l tid : (forall u, u ∈ l -> is_Some (procs s !! u)) -> find_child s l tid = Ok (bool_decide (tid ∈ l)).
Proof.
  induction l as [|u l IH] => Hl; [done|]. destruct (Hl u) as [ru Hu]; [by left|]. rewrite /= (get_ok _ _ _ Hu) /=. destruct (Z.eqb_spec u tid) as [->|Hne]; [rewrite bool_decide_eq_true_2 //; by left|].
  rewrite IH; [intros w Hw; apply Hl; by right|]. do 2 f_equal. apply bool_decide_ext. rewrite elem_of_cons. split; [by right|by intros [?|?]].
Qed.
(** [thread_create], and the next statement of the process that called it. *)
Lemma create_put s p r x : procs s !! p = Some r -> p <> next_tid s -> exists s1, thread_create s p = Ok (next_tid s, s1) /\ get s1 p = Ok (set_children (child_list r ++ [next_tid s]) r) /\
  put s1 p (set_pc x (set_children (child_list r ++ [next_tid s]) r)) =
    mk_state (<[p := set_pc x (set_children (child_list r ++ [next_tid s]) r)]> (<[next_tid s := new_proc p]> (procs s))) (next_tid s + 1).
Proof.
  intros Hp Hne. rewrite /thread_create (get_ok _ _ _ Hp) /=. eexists. split; [done|]. rewrite /get /put /=. split; [by rewrite lookup_insert_ne // lookup_insert_eq|].
  f_equal. rewrite (insert_insert_ne _ (next_tid s) p) //. by rewrite insert_insert_eq.
Qed.

Section step_ok.
Context (s : state) (tr : list event) (p : Z) (r : proc) (Hinv : inv s tr) (Hp : procs s !! p = Some r).
(** The result of a step: it does not fail, and the process goes on or has to wait. *)
Definition good (o : outcome (option (list event * state))) : Prop := exists res, o = Ok res /\ forall es s', res = Some (es, s') -> inv s' (tr ++ es).
Lemma good_none : good (Ok None).
Proof. by exists None. Qed.
Lemma good_some es s' : inv s' (tr ++ es) -> good (Ok (Some (es, s'))).
Proof. intros H. exists (Some (es, s')). split; [done|]. by intros ?? [= <- <-]. Qed.

Lemma user_step_ok c : at_pc r = User -> Bool.eqb (is_run c) (bool_decide (parent r = None)) = true -> good (user_step s p r c).
Proof.
  intros Hpc Hc. have Hok := i_proc _ _ Hinv _ _ Hp. have Hne : p <> next_tid s by have := po_tid _ _ _ _ Hok; lia.
  have Hm : forall u, u ∈ child_list r -> is_Some (procs s !! u) by intros u Hu; destruct (po_mine _ _ _ _ Hok u (or_introl Hu)) as (ru & -> & _).
  destruct c as [[] | | v | | u | b]; simpl.
  - destruct (create_put s p r (Exec_down (next_tid s)) Hp Hne) as (s1 & -> & Hg & Hput). simpl. rewrite Hg /= Hput. apply good_some. apply inv_create; try done. left. split; [done|].
    destruct (parent r); [by eexists|done].
  - by apply good_some, step_exec_fails.
  - destruct (create_put s p r (Wait_down (next_tid s)) Hp Hne) as (s1 & -> & Hg & Hput). simpl. rewrite Hg /= Hput. apply good_some. apply inv_create; try done. right. split; [done|].
    by destruct (parent r).
  - by apply good_some, step_exit.
  - apply good_some. have H := step_exit _ _ _ _ Hinv Hp (exit_status r) Hpc. by destruct r.
  - rewrite find_child_ok //=. destruct (bool_decide (u ∈ child_list r)) eqn:E; [apply bool_decide_eq_true_1 in E; by apply good_some, step_wait|]. apply good_some.
    have [H1 H2 H3 H4] := Hinv. have Hx : forall w, exits w (tr ++ [Not_child p u]) = exits w tr /\ reaps w (tr ++ [Not_child p u]) = reaps w tr by intros w; rewrite exits_app reaps_app /= !app_nil_r.
    split; [|done|by intros w; rewrite (proj1 (Hx w)) (proj2 (Hx w))|by intros w; rewrite (proj1 (Hx w)) (proj2 (Hx w)); apply H4].
    intros w rw Hw. destruct (H1 _ _ Hw). split; try done; rewrite ?(proj1 (Hx w)) ?(proj2 (Hx w)) //.
    + intros q Hq. destruct (po_orphan0 q Hq) as (? & ? & ?). split_and!; try done. apply elem_of_app. by left.
    + intros Hs. destruct (po_exec0 Hs) as [?|(He1 & y & He2 & [He3 He3'] & He4 & He5)]; [by left|right]. split; [done|]. exists y. split_and!; try done. apply elem_of_app. by left.
    + intros b Hb. apply elem_of_app. left. by apply po_loaded0.
  - apply good_none.
Qed.

Lemma step_ok c : good (step s p c).
Proof.
  have Hok := i_proc _ _ Hinv _ _ Hp. rewrite /step /start_process_end /exec_end /process_wait_step /thread_exit_step (get_ok _ _ _ Hp). cbn [obind].
  have Hmine : forall u, holds (at_pc r) = Some u \/ waits (at_pc r) = Some u -> exists ru, procs s !! u = Some ru /\ get s u = Ok ru /\ u <> p.
  { intros u Hu. destruct (po_mine _ _ _ _ Hok u (or_intror Hu)) as (ru & Hru & Hpu). exists ru. split_and!; [done|by apply get_ok|]. have := po_orphan _ _ _ _ (i_proc _ _ Hinv _ _ Hru) _ Hpu. lia. }
  have Hpar : loading (at_pc r) = true -> forall q, parent r = Some q -> exists rq, procs s !! q = Some rq /\ get s q = Ok rq /\ p <> q.
  { intros Hl q Hq. destruct (po_orphan _ _ _ _ Hok q Hq) as (Hlt & _ & Ho). destruct (procs s !! q) as [rq|] eqn:E; [|destruct (Ho eq_refl); congruence]. exists rq. split_and!; [done|by apply get_ok|lia]. }
  destruct (at_pc r) as [| |b|u|u|u|u|u v| |u| |] eqn:Hpc.
  - destruct (Bool.eqb _ _) eqn:E; [by apply user_step_ok|apply good_none].
  - destruct c; try apply good_none. destruct (parent r) as [q|] eqn:Eq; [|apply good_none]. destruct (Hpar eq_refl q eq_refl) as (rq & Hq & -> & Hne). cbn [obind]. rewrite get_put_ne // (get_ok _ _ _ Hp). cbn [obind].
    apply good_some. apply inv_report; rewrite ?Hpc //; [by intros c [= <-]|apply elem_of_app; right; by left].
  - destruct (parent r) as [q|] eqn:Eq; [|apply good_none]. destruct (Hpar eq_refl q eq_refl) as (rq & Hq & -> & Hne). cbn [obind]. rewrite get_put_ne // (get_ok _ _ _ Hp). cbn [obind].
    have Hst : exec_status rq = b by apply (co_loaded _ _ _ _ (i_child _ _ Hinv _ _ _ _ Hp Eq Hq)). rewrite Hst.
    have Hld : forall es, Load_done p b ∈ tr ++ es by intros es; apply elem_of_app; left; apply (po_loaded _ _ _ _ Hok).
    destruct b; apply good_some; apply inv_report; rewrite ?Hpc //; [intros w Hw; by rewrite /= decide_False|by rewrite /= decide_True].
  - destruct (Z.leb_spec (exec_sema r) 0); [apply good_none|]. apply good_some. by apply step_exec_returns with u.
  - destruct (Hmine u) as (ru & Hu & -> & Hne); [by right|]. cbn [obind]. destruct (Z.leb_spec (wait_sema ru) 0); [apply good_none|]. rewrite get_put_ne // (get_ok _ _ _ Hp). cbn [obind]. by apply good_some, step_waited.
  - destruct (Hmine u) as (ru & Hu & -> & Hne); [by right|]. cbn [obind]. by apply good_some, step_wait_remove.
  - destruct (Hmine u) as (ru & Hu & -> & Hne); [by left|]. cbn [obind]. by apply good_some, step_wait_status.
  - destruct (Hmine u) as (ru & Hu & -> & Hne); [by left|]. cbn [obind]. rewrite get_put_ne // (get_ok _ _ _ Hp). cbn [obind]. apply good_some. apply protocol_release; rewrite ?Hpc //; [intros w Hw; by rewrite /= decide_False|right].
    exists v. rewrite /= decide_True //. split; [done|]. have Hpu : parent ru = Some p. { destruct (po_mine _ _ _ _ Hok u) as (ru' & Hu' & ?); [right; left; by rewrite Hpc|congruence]. }
    have Hc := i_child _ _ Hinv _ _ _ _ Hu Hpu Hp. rewrite (po_exits _ _ _ _ (i_proc _ _ Hinv _ _ Hu)) (co_status _ _ _ _ Hc v Hpc). destruct (co_reaping _ _ _ _ Hc) as [-> _]; by rewrite ?Hpc.
  - destruct (child_list r) as [|u l] eqn:El; [by apply good_some, step_exit_signal|]. destruct (po_mine _ _ _ _ Hok u) as (ru & Hu & _); [left; rewrite El; by left|]. rewrite (get_ok _ _ _ Hu). cbn [obind]. by apply good_some, step_exit_pop.
  - destruct (Hmine u) as (ru & Hu & -> & Hne); [by left|]. cbn [obind]. rewrite get_put_ne // (get_ok _ _ _ Hp). cbn [obind]. apply good_some. apply protocol_release; rewrite ?Hpc //. by left.
  - by apply good_some, step_exit_signalled.
  - destruct (Z.leb_spec (exit_sema r) 0); [apply good_none|]. apply good_some. by apply inv_gone with r.
Qed.
End step_ok.

Lemma protocol_init p0 : 0 <= p0 -> inv (init p0) [].
Proof.
  intros Hp0. have Hlk : forall u r, procs (init p0) !! u = Some r -> u = p0 /\ r = mk_proc None [] (-1) true 0 0 0 User by rewrite /init /=; intros u r [-> <-]%lookup_singleton_Some.
  split.
  - intros u r [-> ->]%Hlk. split; simpl; try done; [lia|apply NoDup_nil_2| |by left].
    intros w [Hw|[Hw|Hw]]; [by apply not_elem_of_nil in Hw|done|done].
  - by intros p rp u ru [-> ->]%Hlk.
  - by left.
  - done.
Qed.
Lemma reaches_inv p0 s tr : 0 <= p0 -> reaches p0 s tr -> inv s tr.
Proof.
  intros Hp0. induction 1 as [|s tr p c es s' _ IH [r Hp] Hs]; [by apply protocol_init|]. destruct (step_ok s tr p r IH Hp c) as (res & Hr & Hi). apply Hi. congruence.
Qed.

(** ** What a step does to the process itself and to the others *)
Lemma get_inv s u r : get s u = Ok r -> procs s !! u = Some r.
Proof. rewrite /get. by destruct (procs s !! u) => // -[->]. Qed.
Ltac step_cases H := unfold step, start_process_end, exec_end, process_wait_step, thread_exit_step, user_step, thread_create in H; repeat (inv_ok || case_match); simplify_eq; repeat match goal with E : get _ _ = Ok _ |- _ => apply get_inv in E; simpl in E end; simplify_map_eq;
  repeat match goal with E : <[_ := _]> _ !! _ = Some _ |- _ => apply lookup_insert_Some in E as [[? ?]|[? ?]]; simplify_eq end.

Record own_step (s : state) (p : Z) (r : proc) (es : list event) (s' : state) (r' : proc) : Prop := {
  os_parent : parent r' = parent r;
  os_exiting : exiting (at_pc r') = true -> exiting (at_pc r) = true \/ is_Some (parent r);
  os_loading : at_pc r = Loading -> loading (at_pc r') = true;
  os_exec : forall u, at_pc r' = Exec_down u -> is_Some (parent r) /\ (u = -1 \/ u = next_tid s /\ procs s' !! u = Some (new_proc p) /\ Started p u ∈ es) }.
Lemma step_own s tr p r c es s' : inv s tr -> procs s !! p = Some r -> step s p c = Ok (Some (es, s')) ->
  at_pc r = Exit_down /\ procs s' !! p = None \/ exists r', procs s' !! p = Some r' /\ own_step s p r es s' r'.
Proof.
  intros Hinv Hp H. have Hne : next_tid s <> p by have := po_tid _ _ _ _ (i_proc _ _ Hinv _ _ Hp); lia.
  have Hpar : bool_decide (parent r = None) = false -> is_Some (parent r) by destruct (parent r); [by eexists|rewrite bool_decide_eq_true_2].
  step_cases H; try (by left); right; eexists; (split; [done|]); split; simpl in *; try done; try (intros; congruence); 
    try (intros _; first [by right; apply Hpar|by right; eexists|left; by match goal with E : at_pc _ = _ |- _ => rewrite E end]).
  - intros u [= <-]. split; [by apply Hpar|right]. split_and!; [done|by rewrite lookup_insert_ne // lookup_insert_eq|by left].
  - intros u [= <-]. split; [by apply Hpar|by left].
Qed.

(** A process other than the one that steps and the one that is new. *)
Record other_step (p : Z) (r : proc) (x : Z) (rx rx' : proc) : Prop := {
  ot_parent : parent rx' = parent rx;
  ot_pc : at_pc rx' = at_pc rx;
  ot_exec : exec_sema rx' = exec_sema rx \/ parent r = Some x /\ exec_sema rx' = exec_sema rx + 1;
  ot_report : (exists b, at_pc r = Loaded b) -> parent r = Some x -> exec_sema rx' = exec_sema rx + 1 }.
Lemma step_other s p r c es s' x : procs s !! p = Some r -> step s p c = Ok (Some (es, s')) -> x <> p -> x <> next_tid s ->
  procs s !! x = None /\ procs s' !! x = None \/ exists rx rx', procs s !! x = Some rx /\ procs s' !! x = Some rx' /\ other_step p r x rx rx'.
Proof.
  intros Hp H Hx1 Hx2. destruct (procs s !! x) as [rx|] eqn:Ex; step_cases H; simpl;
    repeat match goal with |- context [<[?a := _]> _ !! ?b] => destruct (decide (a = b)); [subst; rewrite lookup_insert_eq|rewrite lookup_insert_ne //] end; simplify_eq; rewrite ?Ex;
    try (by left); right; do 2 eexists; (split_and!; [done|done|]); split; simpl in *; try done; try (by left); try (by right); try (intros [? ?]; congruence).
Qed.

Lemma step_new s p r c es s' : procs s !! p = Some r -> step s p c = Ok (Some (es, s')) -> procs s !! next_tid s = None ->
  procs s' !! next_tid s = None \/ procs s' !! next_tid s = Some (new_proc p).
Proof.
  intros Hp H Hn. step_cases H; simpl;
    repeat match goal with |- context [<[?a := _]> _ !! ?b] => destruct (decide (a = b)); [subst; rewrite lookup_insert_eq|rewrite lookup_insert_ne //] end; simplify_eq; rewrite ?lookup_insert_eq; try (by left); by right.
Qed.
Lemma step_returns s p r c es s' q v : procs s !! p = Some r -> step s p c = Ok (Some (es, s')) -> Exec_returns q v ∈ es ->
  q = p /\ exists u, at_pc r = Exec_down u /\ v = (if exec_status r then u else -1) /\ 0 < exec_sema r.
Proof.
  intros Hp H Hin. step_cases H; try by apply not_elem_of_nil in Hin.
  all: apply elem_of_cons in Hin as [?|?%not_elem_of_nil]; simplify_eq; try done.
  all: try congruence.
  all: split; [done|]; eexists; split_and!; [done|done|by apply Z.leb_gt].
Qed.
Lemma step_waits s p r c es s' q u v : procs s !! p = Some r -> step s p c = Ok (Some (es, s')) -> Wait_returns q u v ∈ es -> q = p /\ at_pc r = Wait_up u v.
Proof.
  intros Hp H Hin. step_cases H; try by apply not_elem_of_nil in Hin.
  all: apply elem_of_cons in Hin as [?|?%not_elem_of_nil]; simplify_eq; done.
Qed.

(** ** Who waits for whom *)
Record waits_ok (p0 : Z) (s : state) (tr : list event) : Prop := {
  w_first : exists r0, procs s !! p0 = Some r0 /\ parent r0 = None;
  w_root : forall p r, procs s !! p = Some r -> parent r = None -> exiting (at_pc r) = false /\ forall u, at_pc r <> Exec_down u;
  w_exec : forall p r u, procs s !! p = Some r -> at_pc r = Exec_down u -> u = -1 \/ 0 <= u /\ Started p u ∈ tr /\
             (exec_sema r = 0 -> exists ru, procs s !! u = Some ru /\ parent ru = Some p /\ loading (at_pc ru) = true);
  w_returns : forall p v, Exec_returns p v ∈ tr -> Started p v ∈ tr /\ Load_done v true ∈ tr \/ v = -1 /\ exists u, Started p u ∈ tr /\ Load_done u false ∈ tr;
  w_waited : forall p u v, Wait_returns p u v ∈ tr -> Started p u ∈ tr }.

Lemma waits_init p0 : waits_ok p0 (init p0) [].
Proof.
  have Hlk : forall u r, procs (init p0) !! u = Some r -> u = p0 /\ r = mk_proc None [] (-1) true 0 0 0 User by rewrite /init /=; intros u r [-> <-]%lookup_singleton_Some.
  split.
  - eexists. split; [apply lookup_singleton_eq|done].
  - by intros p r [-> ->]%Hlk.
  - by intros p r u [-> ->]%Hlk.
  - intros p v Hin. by apply not_elem_of_nil in Hin.
  - intros p u v Hin. by apply not_elem_of_nil in Hin.
Qed.

Section waits_step.
Context (p0 : Z) (s : state) (tr : list event) (p : Z) (r : proc) (c : choice) (es : list event) (s' : state).
Context (Hinv : inv s tr) (Hw : waits_ok p0 s tr) (Hp : procs s !! p = Some r) (Hs : step s p c = Ok (Some (es, s'))).
Let Hnone : procs s !! next_tid s = None.
Proof. destruct (procs s !! next_tid s) eqn:E; [|done]. have := po_tid _ _ _ _ (i_proc _ _ Hinv _ _ E). lia. Qed.
(** Where a process of the new state comes from. *)
Lemma from_where x rx' : procs s' !! x = Some rx' ->
  x = p /\ own_step s p r es s' rx' \/ x = next_tid s /\ rx' = new_proc p \/ x <> p /\ x <> next_tid s /\ exists rx, procs s !! x = Some rx /\ other_step p r x rx rx'.
Proof.
  intros Hx. destruct (decide (x = p)) as [->|Hxp].
  { left. destruct (step_own _ _ _ _ _ _ _ Hinv Hp Hs) as [[_ ?]|(r' & ? & ?)]; [congruence|]. by simplify_eq. }
  destruct (decide (x = next_tid s)) as [->|Hxn]; right; [left|right].
  { split; [done|]. destruct (step_new _ _ _ _ _ _ Hp Hs Hnone) as [?|?]; congruence. }
  split_and!; try done. destruct (step_other _ _ _ _ _ _ x Hp Hs Hxp Hxn) as [[_ ?]|(rx & rx1 & ? & ? & ?)]; [congruence|]. exists rx. by simplify_eq.
Qed.
(** A process that is being loaded stays, and is loaded until it reports. *)
Lemma still_loading q rq rq' u ru : procs s !! q = Some rq -> procs s' !! q = Some rq' -> q <> p -> exec_sema rq' = 0 -> 0 <= exec_sema rq -> procs s !! u = Some ru -> parent ru = Some q -> loading (at_pc ru) = true ->
  exists ru', procs s' !! u = Some ru' /\ parent ru' = Some q /\ loading (at_pc ru') = true.
Proof.
  intros Hq Hq' Hqp Hz Hge Hu Hpu Hl. destruct (decide (u = p)) as [->|Hup].
  - simplify_eq. destruct (step_own _ _ _ _ _ _ _ Hinv Hp Hs) as [[E _]|(r' & Hr' & Hown)]; [by rewrite E in Hl|]. exists r'. split_and!; [done|by rewrite (os_parent _ _ _ _ _ _ Hown)|].
    destruct (at_pc r) eqn:Hpc; try done; [by apply (os_loading _ _ _ _ _ _ Hown)|]. exfalso.
    destruct (from_where _ _ Hq') as [[? _]|[[-> ->]|(_ & _ & rx & Hx & Hot)]]; [done|congruence|]. simplify_eq. have := ot_report _ _ _ _ _ Hot (ex_intro _ _ Hpc) Hpu. lia.
  - have Hun : u <> next_tid s by intros ->; congruence. destruct (step_other _ _ _ _ _ _ u Hp Hs Hup Hun) as [[? _]|(rx & rx1 & Hx & Hx1 & Hot)]; [congruence|]. simplify_eq.
    exists rx1. split_and!; [done|by rewrite (ot_parent _ _ _ _ _ Hot)|by rewrite (ot_pc _ _ _ _ _ Hot)].
Qed.
Lemma exec_sema_pos x rx : procs s !! x = Some rx -> (exists u, at_pc rx = Exec_down u) -> 0 <= exec_sema rx.
Proof.
  intros Hx [u Hu]. destruct (parent rx) eqn:E; [|destruct (w_root _ _ _ Hw _ _ Hx E) as [_ Hn]; by destruct (Hn u)].
  destruct (po_exec _ _ _ _ (i_proc _ _ Hinv _ _ Hx)) as [?|[? _]]; [by eexists|lia|lia].
Qed.
Lemma waits_step : waits_ok p0 s' (tr ++ es).
Proof.
  have [H1 H2 H3 H4 H5] := Hw. split.
  - destruct H1 as (r0 & Hr0 & Hn0). destruct (decide (p0 = p)) as [->|Hp0].
    + simplify_eq. destruct (step_own _ _ _ _ _ _ _ Hinv Hp Hs) as [[E _]|(r' & Hr' & Hown)]; [destruct (H2 _ _ Hp Hn0) as [He _]; by rewrite E in He|]. exists r'. by rewrite (os_parent _ _ _ _ _ _ Hown).
    + have Hpn : p0 <> next_tid s by intros ->; congruence. destruct (step_other _ _ _ _ _ _ p0 Hp Hs Hp0 Hpn) as [[? _]|(rx & rx1 & Hx & Hx1 & Hot)]; [congruence|]. exists rx1. rewrite (ot_parent _ _ _ _ _ Hot). by simplify_eq.
  - intros x rx' Hx Hn. destruct (from_where _ _ Hx) as [[-> Hown]|[[-> ->]|(_ & _ & rx & Hx0 & Hot)]]; [|done|].
    + rewrite (os_parent _ _ _ _ _ _ Hown) in Hn. destruct (H2 _ _ Hp Hn) as [He _]. split.
      * destruct (exiting (at_pc rx')) eqn:E; [|done]. destruct (os_exiting _ _ _ _ _ _ Hown E) as [?|[? ?]]; congruence.
      * intros u Hu. destruct (os_exec _ _ _ _ _ _ Hown u Hu) as [[? ?] _]. congruence.
    + rewrite (ot_parent _ _ _ _ _ Hot) in Hn. rewrite (ot_pc _ _ _ _ _ Hot). by apply (H2 x).
  - intros x rx' u Hx Hpc. destruct (from_where _ _ Hx) as [[-> Hown]|[[-> ->]|(Hxp & _ & rx & Hx0 & Hot)]]; [|done|].
    + destruct (os_exec _ _ _ _ _ _ Hown u Hpc) as [_ [?|(-> & Hu & Hst)]]; [by left|right]. split_and!; [have := po_tid _ _ _ _ (i_proc _ _ Hinv _ _ Hp); lia|apply elem_of_app; by right|]. intros _. by eexists.
    + rewrite (ot_pc _ _ _ _ _ Hot) in Hpc. destruct (H3 _ _ _ Hx0 Hpc) as [?|(Hge & Hst & Hld)]; [by left|right]. split_and!; [done|apply elem_of_app; by left|].
      intros Hz. have Hpos : 0 <= exec_sema rx by apply exec_sema_pos with x; [|exists u].
      destruct Hld as (ru & Hu & Hpu & Hl); [destruct (ot_exec _ _ _ _ _ Hot) as [?|[_ ?]]; lia|]. by apply still_loading with rx rx' ru.
  - intros q v [Hin|Hin]%elem_of_app.
    + destruct (H4 q v Hin) as [[? ?]|(? & u & ? & ?)]; [left|right]; [by split; apply elem_of_app; left|]. split; [done|]. exists u. by split; apply elem_of_app; left.
    + destruct (step_returns _ _ _ _ _ _ _ _ Hp Hs Hin) as (-> & u & Hpc & -> & Hpos). have Hsome : is_Some (parent r) by destruct (parent r) eqn:E; [by eexists|]; destruct (H2 _ _ Hp E) as [_ Hx]; by destruct (Hx u).
      destruct (po_exec _ _ _ _ (i_proc _ _ Hinv _ _ Hp) Hsome) as [?|(_ & w & Hw1 & Hw2 & Hw3 & _)]; [lia|]. rewrite Hpc in Hw1. injection Hw1 as <-.
      destruct (H3 _ _ _ Hp Hpc) as [?|(_ & Hst & _)]; [lia|]. destruct (exec_status r); [left|right]; [by split; apply elem_of_app; left|]. split; [done|]. exists u. by split; apply elem_of_app; left.
  - intros q u v [Hin|Hin]%elem_of_app; apply elem_of_app; left; [by apply H5 with v|]. destruct (step_waits _ _ _ _ _ _ _ _ _ Hp Hs Hin) as [-> Hpc].
    destruct (get_mine _ _ _ _ Hinv Hp u) as (ru & Hu & Hpu & _); [right; left; by rewrite Hpc|]. apply (po_orphan _ _ _ _ (i_proc _ _ Hinv _ _ Hu) _ Hpu).
Qed.
End waits_step.

Lemma reaches_ok p0 s tr : 0 <= p0 -> reaches p0 s tr -> inv s tr /\ waits_ok p0 s tr.
Proof.
  intros Hp0 Hr. split; [by apply reaches_inv with p0|]. induction Hr as [|s tr p c es s' Hr IH [r Hp] Hs]; [apply waits_init|]. eapply waits_step; try done. by apply reaches_inv with p0.
Qed.

(** ** Theorems *)
Lemma step_blocked p0 s tr p r c : 0 <= p0 -> reaches p0 s tr -> procs s !! p = Some r -> at_pc r = Exec_down (-1) -> step s p c = Ok None.
Proof.
  intros Hp0 Hr Hp Hpc. destruct (reaches_ok _ _ _ Hp0 Hr) as [Hinv Hw]. rewrite /step /start_process_end /exec_end /process_wait_step /thread_exit_step (get_ok _ _ _ Hp). cbn [obind]. rewrite Hpc.
  have Hs : is_Some (parent r) by destruct (parent r) eqn:E; [by eexists|]; destruct (w_root _ _ _ Hw _ _ Hp E) as [_ Hn]; by destruct (Hn (-1)).
  destruct (po_exec _ _ _ _ (i_proc _ _ Hinv _ _ Hp) Hs) as [->|(_ & w & E & [Hge _] & _)]; [done|]. rewrite Hpc in E. injection E as <-. lia.
Qed.

(** C4: the steps of [exec], [wait] and [exit] touch the thread of a process only while it
    exists: in every state that processes reach from the first one, in whatever order their
    steps are taken, a step of a live process either is made or has to wait; it never reads
    or writes the [struct thread] of a process that is gone. *)
Theorem exec_wait_exit_safe p0 s tr p c : 0 <= p0 -> reaches p0 s tr -> is_Some (procs s !! p) -> exists res, step s p c = Ok res.
Proof. intros Hp0 Hr [r Hp]. destruct (step_ok s tr p r (reaches_inv _ _ _ Hp0 Hr) Hp c) as (res & ? & _). by exists res. Qed.

(** C5: [wait] returns the exit status of the child, once: when [wait (u)] has returned [v]
    to [p], then [p] had started [u], [u] has exited, with [v] and no other status, and no
    other call of [wait] has returned for [u]; a later [wait (u)] by the program of [p]
    returns -1 at once. *)
Theorem wait_returns_status p0 s tr p u v : 0 <= p0 -> reaches p0 s tr -> Wait_returns p u v ∈ tr ->
  Started p u ∈ tr /\ exits u tr = [v] /\ reaps u tr = [v] /\
  forall r, procs s !! p = Some r -> is_Some (parent r) -> at_pc r = User -> step s p (Wait u) = Ok (Some ([Not_child p u], s)).
Proof.
  intros Hp0 Hr Hin. destruct (reaches_ok _ _ _ Hp0 Hr) as [Hinv Hw]. have Hv : v ∈ reaps u tr by apply list_elem_of_omap; exists (Wait_returns p u v); rewrite decide_True.
  destruct (i_once _ _ Hinv u) as [E|(v' & E1 & E2)]; [rewrite E in Hv; by apply not_elem_of_nil in Hv|]. rewrite E1 in Hv. apply list_elem_of_singleton in Hv as ->.
  split_and!; [by apply (w_waited _ _ _ Hw) with v'|done|done|]. intros r Hp Hs Hpc. rewrite /step /start_process_end /exec_end /process_wait_step /thread_exit_step (get_ok _ _ _ Hp). cbn [obind]. rewrite Hpc /= bool_decide_eq_false_2; [by destruct Hs as [? ->]|]. simpl.
  have Hok := i_proc _ _ Hinv _ _ Hp. rewrite find_child_ok; [intros w Hm; destruct (po_mine _ _ _ _ Hok w (or_introl Hm)) as (rw & -> & _); by eexists|]. rewrite bool_decide_eq_false_2 //.
  intros Hl. destruct (get_mine _ _ _ _ Hinv Hp u) as (ru & Hu & _ & Hc); [by left|]. have := po_reaps _ _ _ _ (i_proc _ _ Hinv _ _ Hu) (proj1 (co_listed _ _ _ _ Hc Hl)). by rewrite E1.
Qed.

(** [exec] returns after the child has tried to load its program, and tells how that
    went: it returns the identifier of a process that [p] started and that was loaded, or -1
    when the process that [p] started could not be loaded. *)
Theorem exec_returns_loaded p0 s tr p v : 0 <= p0 -> reaches p0 s tr -> Exec_returns p v ∈ tr ->
  Started p v ∈ tr /\ Load_done v true ∈ tr \/ v = -1 /\ exists u, Started p u ∈ tr /\ Load_done u false ∈ tr.
Proof. intros Hp0 Hr. apply (w_returns _ _ _ (proj2 (reaches_ok _ _ _ Hp0 Hr))). Qed.

(** [exec] never returns when the thread cannot be created: [process_execute] gives
    TID_ERROR and [exec] goes down on [exec_sema] all the same, which nobody will raise.
    The process cannot step, and no step of another process changes that. *)
Theorem exec_failure_blocks p0 s tr p r : 0 <= p0 -> reaches p0 s tr -> procs s !! p = Some r -> at_pc r = Exec_down (-1) ->
  (forall c, step s p c = Ok None) /\
  forall q c es s', is_Some (procs s !! q) -> step s q c = Ok (Some (es, s')) -> exists r', procs s' !! p = Some r' /\ at_pc r' = Exec_down (-1) /\ forall c, step s' p c = Ok None.
Proof.
  intros Hp0 Hr Hp Hpc. split; [intros c; by apply step_blocked with p0 tr r|]. intros q c es s' [rq Hq] Hs.
  have Hqp : p <> q by intros ->; rewrite (step_blocked p0 s tr q r c) in Hs.
  have Hn : p <> next_tid s by have := po_tid _ _ _ _ (i_proc _ _ (reaches_inv _ _ _ Hp0 Hr) _ _ Hp); lia.
  destruct (step_other _ _ _ _ _ _ p Hq Hs Hqp Hn) as [[? _]|(rx & r' & Hx & Hr' & Hot)]; [congruence|]. simplify_eq. have Hpc' : at_pc r' = Exec_down (-1) by rewrite (ot_pc _ _ _ _ _ Hot).
  exists r'. split_and!; [done|done|]. intros c'. apply step_blocked with p0 (tr ++ es) r'; try done. by apply reaches_step with s q c.
Qed.

(** [p] can make a step. *)
Definition can_step (s : state) (p : Z) : Prop := exists c es s', step s p c = Ok (Some (es, s')).
Lemma can_step_intro s tr p r c : inv s tr -> procs s !! p = Some r -> step s p c <> Ok None -> can_step s p.
Proof. intros Hinv Hp Hn. destruct (step_ok s tr p r Hinv Hp c) as ([[es s']|] & E & _); [|done]. by exists c, es, s'. Qed.

(** [p] is stopped at the [sema_down] of a semaphore that only a step of [q] raises:
    its own [exec_sema], raised by the child it has started; the [wait_sema] of its child;
    its own [exit_sema], raised by its parent. *)
Inductive waits_for (s : state) : Z -> Z -> Prop :=
| wf_exec p r q : procs s !! p = Some r -> at_pc r = Exec_down q -> exec_sema r <= 0 -> waits_for s p q
| wf_wait p r q rq : procs s !! p = Some r -> at_pc r = Wait_down q -> procs s !! q = Some rq -> wait_sema rq <= 0 -> waits_for s p q
| wf_exit p r q : procs s !! p = Some r -> at_pc r = Exit_down -> exit_sema r <= 0 -> parent r = Some q -> waits_for s p q.
Lemma waits_for_stopped s p q : waits_for s p q -> ~ can_step s p.
Proof.
  intros H (c & es & s' & Hs). rewrite /step /exec_end /process_wait_step /thread_exit_step in Hs.
  destruct H as [p r q Hp Hpc Hz|p r q rq Hp Hpc Hq Hz|p r q Hp Hpc Hz _]; rewrite (get_ok _ _ _ Hp) in Hs; cbn [obind] in Hs; rewrite Hpc in Hs; cbn [obind] in Hs.
  - by rewrite (proj2 (Z.leb_le _ _) Hz) in Hs.
  - rewrite (get_ok _ _ _ Hq) in Hs. cbn [obind] in Hs. by rewrite (proj2 (Z.leb_le _ _) Hz) in Hs.
  - by rewrite (proj2 (Z.leb_le _ _) Hz) in Hs.
Qed.
(** From [p], the processes that wait for one another lead to one that can step. *)
Definition leads_to_step (s : state) (p : Z) : Prop := exists q, rtc (waits_for s) p q /\ is_Some (procs s !! q) /\ can_step s q.
Lemma leads_self s tr p r c : inv s tr -> procs s !! p = Some r -> step s p c <> Ok None -> leads_to_step s p.
Proof. intros Hinv Hp Hc. exists p. split_and!; [done|by eexists|by apply can_step_intro with tr r c]. Qed.
Lemma leads_edge s p q : waits_for s p q -> leads_to_step s q -> leads_to_step s p.
Proof. intros He (x & Hc & Hx). exists x. split; [by apply rtc_l with q|done]. Qed.

Section progress.
Context (p0 : Z) (s : state) (tr : list event) (Hinv : inv s tr) (Hw : waits_ok p0 s tr).
Context (Hnb : forall p r, procs s !! p = Some r -> at_pc r <> Exec_down (-1)).

Lemma loading_steps u ru : procs s !! u = Some ru -> loading (at_pc ru) = true -> can_step s u.
Proof.
  intros Hu Hl. apply can_step_intro with tr ru (Load true); try done. rewrite /step /start_process_end /exec_end /process_wait_step /thread_exit_step (get_ok _ _ _ Hu). cbn [obind].
  destruct (parent ru) as [q|] eqn:Eq; [|rewrite (po_root _ _ _ _ (i_proc _ _ Hinv _ _ Hu) Eq) in Hl; done].
  destruct (at_pc ru) as [| |b| | | | | | | | |]; try done; destruct (get s q); try done; cbn [obind]; destruct (get _ u); try done; by destruct b.
Qed.
(** A child that is waited for has signalled its end, or is not at its end. *)
Lemma waited_child p r u : procs s !! p = Some r -> at_pc r = Wait_down u -> exists ru, procs s !! u = Some ru /\ p < u /\ (0 < wait_sema ru \/ at_pc ru <> Exit_down).
Proof.
  intros Hp Hpc. destruct (get_mine _ _ _ _ Hinv Hp u) as (ru & Hu & Hpu & Hc); [right; right; by rewrite Hpc|]. have Hok := i_proc _ _ Hinv _ _ Hu. exists ru. split_and!; [done|apply (po_orphan _ _ _ _ Hok _ Hpu)|].
  destruct (po_wsema _ _ _ _ Hok) as [Hz|[-> _]]; [right|by left]. intros Hd. have Hin : u ∈ child_list r by apply (co_waits _ _ _ _ Hc); rewrite Hpc.
  have := co_reaped _ _ _ _ Hc Hd Hz (proj1 (co_listed _ _ _ _ Hc Hin)). by rewrite Hpc.
Qed.
Lemma progress_aux n p r : next_tid s - p <= Z.of_nat n -> procs s !! p = Some r -> at_pc r <> Exit_down -> leads_to_step s p.
Proof.
  revert p r. induction n as [|n IH] => p r Hn Hp Hd; [have := po_tid _ _ _ _ (i_proc _ _ Hinv _ _ Hp); lia|].
  have Hself := leads_self s tr p r. have Hload : loading (at_pc r) = true -> leads_to_step s p by intros Hl; exists p; split_and!; [done|by eexists|by apply loading_steps with r].
  rewrite /step /start_process_end /exec_end /process_wait_step /thread_exit_step (get_ok _ _ _ Hp) in Hself. cbn [obind] in Hself. destruct (at_pc r) as [| |b|u|u|u|u|u v| |u| |] eqn:Hpc; try done; try (by apply Hload);
    try by (apply (Hself Run); [done..|]; destruct (get s u); try done; cbn [obind]; destruct (get _ p)).
  - destruct (parent r) eqn:E; [apply (Hself Killed); [done..|]; by rewrite bool_decide_eq_false_2|apply (Hself Run); [done..|]].
    rewrite bool_decide_eq_true_2 //= /thread_create. destruct (get s p); try done. cbn [obind]. by destruct (get _ p).
  - destruct (Z.leb_spec (exec_sema r) 0); [|by apply (Hself Run)]. destruct (w_exec _ _ _ Hw _ _ _ Hp Hpc) as [->|(Hge & _ & Hx)]; [by destruct (Hnb _ _ Hp)|].
    have Hz : exec_sema r = 0 by have := exec_sema_pos p0 s tr Hinv Hw _ _ Hp (ex_intro _ _ Hpc); lia. destruct (Hx Hz) as (ru & Hu & Hpu & Hl).
    apply (leads_edge _ _ u); [by apply wf_exec with r|]. exists u. split_and!; [done|by eexists|by apply loading_steps with ru].
  - destruct (waited_child _ _ _ Hp Hpc) as (ru & Hu & Hlt & Hor). destruct (Z.leb_spec (wait_sema ru) 0) as [Hz|Hpos].
    + apply (leads_edge _ _ u); [by apply wf_wait with r ru|]. apply (IH u ru); [lia|done|]. by destruct Hor; [lia|].
    + apply (Hself Run); [done..|]. rewrite (get_ok _ _ _ Hu). cbn [obind]. destruct (Z.leb_spec (wait_sema ru) 0); [lia|]. by destruct (get _ p).
  - destruct (child_list r); [by apply (Hself Run)|]. apply (Hself Run); [done..|]. by destruct (get s z).
  - by apply (Hself Run).
Qed.
Lemma progress_live p r : procs s !! p = Some r -> at_pc r <> Exit_down -> leads_to_step s p.
Proof. intros Hp. apply (progress_aux (Z.to_nat (next_tid s - p)) p r); [|done]. have := po_tid _ _ _ _ (i_proc _ _ Hinv _ _ Hp). lia. Qed.
Lemma progress_end p r : procs s !! p = Some r -> at_pc r = Exit_down -> leads_to_step s p.
Proof.
  intros Hp Hd. destruct (Z.leb_spec (exit_sema r) 0) as [Hz|Hpos].
  2:{ apply (leads_self s tr p r Run); [done..|]. rewrite /step /thread_exit_step (get_ok _ _ _ Hp). cbn [obind]. rewrite Hd. destruct (Z.leb_spec (exit_sema r) 0); [lia|done]. }
  destruct (parent r) as [q|] eqn:Eq; [|destruct (w_root _ _ _ Hw _ _ Hp Eq) as [He _]; by rewrite Hd in He].
  destruct (procs s !! q) as [rq|] eqn:Hq; [|destruct (po_orphan _ _ _ _ (i_proc _ _ Hinv _ _ Hp) _ Eq) as (_ & _ & Ho); destruct (Ho Hq); lia].
  apply (leads_edge _ _ q); [by apply wf_exit with r|]. apply (progress_live q rq); [done|]. intros Hdq. have Hc := i_child _ _ Hinv _ _ _ _ Hp Eq Hq.
  have Hone : exit_sema r = 1; [|lia]. apply (co_free _ _ _ _ Hc); [|by rewrite Hdq]. rewrite (po_alone _ _ _ _ (i_proc _ _ Hinv _ _ Hq)); [by rewrite Hdq|apply not_elem_of_nil].
Qed.
End progress.

(** C22: no deadlock among [exec], [wait] and [exit], as long as every thread asked for could
    be created.  In every state that is reached and for every process in it, the processes
    that wait for one another, starting from it, lead to a process that can step: the process
    itself or, along [waits_for], the child whose loading or exit it waits for, the parent
    whose release it waits for, and so on.  A process that [waits_for] another cannot step
    itself.  That the scheduler lets the process at the end of the chain run, and that its
    program makes the step, is not part of this. *)
Theorem exec_wait_exit_progress p0 s tr p r : 0 <= p0 -> reaches p0 s tr -> (forall q rq, procs s !! q = Some rq -> at_pc rq <> Exec_down (-1)) -> procs s !! p = Some r ->
  (exists q, rtc (waits_for s) p q /\ is_Some (procs s !! q) /\ can_step s q) /\
  forall q, waits_for s p q -> ~ can_step s p.
Proof.
  intros Hp0 Hr Hnb Hp. destruct (reaches_ok _ _ _ Hp0 Hr) as [Hinv Hw]. split; [|intros q; apply waits_for_stopped].
  destruct (decide (at_pc r = Exit_down)); [by apply (progress_end p0 s tr Hinv Hw Hnb p r)|by apply (progress_live p0 s tr Hinv Hw Hnb p r)].
Qed.

(** ** Witnesses *)
(** The steps of the processes, in the order given. *)
Fixpoint run (s : state) (tr : list event) (l : list (Z * choice)) : option (state * list event) :=
  match l with
  | [] => Some (s, tr)
  | (p, c) :: l =>
    match procs s !! p, step s p c with Some _, Ok (Some (es, s')) => run s' (tr ++ es) l | _, _ => None end
  end.
Lemma run_reaches p0 l : forall s tr s' tr', reaches p0 s tr -> run s tr l = Some (s', tr') -> reaches p0 s' tr'.
Proof.
  induction l as [|[p c] l IH] => s tr s' tr' Hr H; simpl in H; [by simplify_eq|]. destruct (procs s !! p) eqn:Hp; [|done].
  destruct (step s p c) as [[[es s1]|]|] eqn:Hs; try done. apply (IH _ _ _ _ (reaches_step _ _ _ _ _ _ _ Hr (ex_intro _ _ Hp) Hs) H).
Qed.
(** The first process runs process 2, which starts process 3, waits for it and ends. *)
Definition script : list (Z * choice) :=
  [(1, Run); (2, Load true); (2, Load true); (2, Exec true); (3, Load true); (3, Load true); (2, Run); (2, Wait 3); (3, Exit 7); (3, Run); (3, Run); (2, Run); (2, Run); (2, Run); (2, Run)].
Definition after : state * list event := Eval vm_compute in default (init 1, []) (run (init 1) [] script).
Lemma after_reached : reaches 1 (fst after) (snd after).
Proof. eapply (run_reaches 1 script); [apply reaches_init|]. by vm_compute. Qed.
(** Process 2 cannot create a thread. *)
Definition after_fail : state * list event := Eval vm_compute in default (init 1, []) (run (init 1) [] (take 3 script ++ [(2, Exec false)])).
Lemma after_fail_reached : reaches 1 (fst after_fail) (snd after_fail).
Proof. eapply (run_reaches 1 (take 3 script ++ [(2, Exec false)])); [apply reaches_init|]. by vm_compute. Qed.

Lemma exec_wait_exit_safe_witness : exists res, step (fst after) 3 Run = Ok res.
Proof. apply (exec_wait_exit_safe 1 (fst after) (snd after) 3 Run); [lia|apply after_reached|by eexists]. Defined.
Lemma wait_returns_status_witness : exits 3 (snd after) = [7].
Proof. refine (proj1 (proj2 (wait_returns_status 1 (fst after) (snd after) 2 3 7 _ after_reached _))); [lia|]. apply (bool_decide_unpack _). by vm_compute. Defined.
Lemma exec_returns_loaded_witness : Started 2 3 ∈ snd after /\ Load_done 3 true ∈ snd after.
Proof.
  destruct (exec_returns_loaded 1 (fst after) (snd after) 2 3) as [H|[H _]]; [lia|apply after_reached|apply (bool_decide_unpack _); by vm_compute|exact H|done].
Defined.
Lemma exec_failure_blocks_witness : step (fst after_fail) 2 Run = Ok None.
Proof.
  destruct (procs (fst after_fail) !! 2) as [r|] eqn:E; [|done]. refine (proj1 (exec_failure_blocks 1 (fst after_fail) (snd after_fail) 2 r _ after_fail_reached E _) Run); [lia|].
  vm_compute in E. by injection E as <-.
Defined.
Lemma exec_wait_exit_progress_witness : exists q, rtc (waits_for (fst after)) 1 q /\ is_Some (procs (fst after) !! q) /\ can_step (fst after) q.
Proof.
  have Hall : map_Forall (fun _ rq => at_pc rq <> Exec_down (-1)) (procs (fst after)) by apply (bool_decide_unpack _); vm_compute.
  destruct (procs (fst after) !! 1) as [r|] eqn:E; [|done]. refine (proj1 (exec_wait_exit_progress 1 (fst after) (snd after) 1 r _ after_reached Hall E)). lia.
Defined.
