(* ===== verification/Synch.v ===== *)
(** * threads/synch.c: semaphores, locks, condition variables

    Semaphores, locks and conditions are named by address.  An operation that
    may sleep pushes what is left of it as a frame of the current thread
    (Thread.v) before it gives the processor away; [resume] runs the top frame
    of the thread that has the processor.  Between the frames of a function
    interrupts are on, so that other threads may be interleaved there. *)
From S2P Require Import Prelude Thread.

Definition get_sema (s : Z) (k : kernel) : outcome semaphore := oget (semas k !! s).
Definition put_sema (s : Z) (x : semaphore) (k : kernel) : kernel := set_semas (<[s := x]> (semas k)) k.
Definition get_lock (l : Z) (k : kernel) : outcome lock := oget (locks k !! l).
Definition put_lock (l : Z) (x : lock) (k : kernel) : kernel := set_locks (<[l := x]> (locks k)) k.

(** ** Semaphores *)
Definition sema_init (s v : Z) (k : kernel) : kernel := put_sema s (mk_sema v []) k.

(** One turn of [while (sema->value == 0)], then the rest of [sema_down] when
    the value is positive.  Interrupts are off. *)
Definition sema_down_body (s : Z) (old_level : bool) (k : kernel) : outcome kernel :=
  let! x := get_sema s k in
  if value x =? 0 then
    let! cur := thread_current k in
    let k := put_sema s (mk_sema (value x) (waiters x ++ [cur])) k in
    let! k := push (F_sema_down s old_level) k in
    thread_block k
  else Ok (set_intr old_level (put_sema s (mk_sema (value x - 1) (waiters x)) k)).

Definition sema_down (s : Z) (k : kernel) : outcome kernel :=
  assert! negb (intr_context k) in
  sema_down_body s (intr_level k) (set_intr false k).

Definition sema_try_down (s : Z) (k : kernel) : outcome (bool * kernel) :=
  let! x := get_sema s k in
  if 0 <? value x then Ok (true, put_sema s (mk_sema (value x - 1) (waiters x)) k)
  else Ok (false, k).

Definition sema_up (s : Z) (k : kernel) : outcome kernel :=
  let! x := get_sema s k in
  match waiters x with
  | [] => Ok (put_sema s (mk_sema (u32 (value x + 1)) []) k)
  | a :: l =>
    let k := put_sema s (mk_sema (value x) l) k in
    let! k := thread_unblock a k in
    let! x := get_sema s k in
    Ok (put_sema s (mk_sema (u32 (value x + 1)) (waiters x)) k)
  end.

(** ** Locks *)
Definition lock_init (l s : Z) (k : kernel) : kernel :=
  sema_init s 1 (put_lock l (mk_lock None s) k).

Definition lock_held_by_current_thread (l : Z) (k : kernel) : outcome bool :=
  let! x := get_lock l k in
  let! cur := thread_current k in
  Ok (bool_decide (holder x = Some cur)).

Definition lock_acquire (l : Z) (k : kernel) : outcome kernel :=
  assert! negb (intr_context k) in
  let! held := lock_held_by_current_thread l k in
  assert! negb held in
  let! x := get_lock l k in
  let! k := push (F_holder l) k in
  sema_down (semaphore_of x) k.

(** [lock->holder = thread_current ()] *)
Definition lock_set_holder (l : Z) (k : kernel) : outcome kernel :=
  let! x := get_lock l k in
  let! cur := thread_current k in
  Ok (put_lock l (mk_lock (Some cur) (semaphore_of x)) k).

Definition lock_try_acquire (l : Z) (k : kernel) : outcome (bool * kernel) :=
  let! held := lock_held_by_current_thread l k in
  assert! negb held in
  let! x := get_lock l k in
  let! (success, k) := sema_try_down (semaphore_of x) k in
  if success then let! k := push (F_holder l) k in Ok (true, k) else Ok (false, k).

Definition lock_release (l : Z) (k : kernel) : outcome kernel :=
  let! held := lock_held_by_current_thread l k in
  assert! held in
  let! x := get_lock l k in
  push (F_sema_up (semaphore_of x)) (put_lock l (mk_lock None (semaphore_of x)) k).

(** ** Condition variables *)
Definition cond_init (c : Z) (k : kernel) : kernel := set_conds (<[c := []]> (conds k)) k.

(** [w] is the address of the local [waiter.semaphore]. *)
Definition cond_wait (c l w : Z) (k : kernel) : outcome kernel :=
  assert! negb (intr_context k) in
  let! held := lock_held_by_current_thread l k in
  assert! held in
  let k := sema_init w 0 k in
  let! ws := oget (conds k !! c) in
  let k := set_conds (<[c := ws ++ [w]]> (conds k)) k in
  let! k := push (F_cond_down w l) k in
  lock_release l k.

Definition cond_signal (c l : Z) (k : kernel) : outcome kernel :=
  assert! negb (intr_context k) in
  let! held := lock_held_by_current_thread l k in
  assert! held in
  let! ws := oget (conds k !! c) in
  match ws with
  | [] => Ok k
  | w :: ws => sema_up w (set_conds (<[c := ws]> (conds k)) k)
  end.

(** One turn of [while (!list_empty (&cond->waiters)) cond_signal (cond, lock);] *)
Definition cond_broadcast (c l : Z) (k : kernel) : outcome kernel :=
  let! ws := oget (conds k !! c) in
  match ws with
  | [] => Ok k
  | _ => let! k := cond_signal c l k in push (F_broadcast c l) k
  end.

(** ** thread_exit (USERPROG part), after process_exit: wake the children,
    then the parent, wait for the parent to collect the exit status *)
Definition thread_exit (k : kernel) : outcome kernel :=
  assert! negb (intr_context k) in push F_exit_up k.
(** One turn of [while (!list_empty (&child_list)) sema_up (...)], or what follows the loop. *)
Definition thread_exit_up (k : kernel) : outcome kernel :=
  let! cur := thread_current k in
  let! t := oget (threads k !! cur) in
  match child_list t with
  | a :: l =>
    let! k := upd cur (set_children l) k in
    let! k := push F_exit_up k in sema_up (exit_sema a) k
  | [] => let! k := push F_exit_down k in sema_up (wait_sema cur) k
  end.

(** ** Running the frames *)
Definition pop (k : kernel) : outcome (option frame * kernel) :=
  let! t := oget (threads k !! current k) in
  match todo t with
  | [] => Ok (None, k)
  | fr :: fs => let! k := upd (current k) (set_todo fs) k in Ok (Some fr, k)
  end.

Definition run_frame (fr : frame) (k : kernel) : outcome kernel :=
  match fr with
  | F_start => Ok (set_intr true k)
  | F_idle => push F_block (set_intr true k)     (* [hlt] may end at any time *)
  | F_block => let! k := push F_idle (set_intr false k) in thread_block k
  | F_intr old_level => Ok (set_intr old_level k)
  | F_sema_down s old_level => sema_down_body s old_level k
  | F_holder l => lock_set_holder l k
  | F_sema_up s => sema_up s k
  | F_cond_down w l => let! k := push (F_acquire l) k in sema_down w k
  | F_acquire l => lock_acquire l k
  | F_broadcast c l => cond_broadcast c l k
  | F_exit_up => thread_exit_up k
  | F_exit_down =>
    let! cur := thread_current k in
    let! k := push F_exit_end k in sema_down (exit_sema cur) k
  | F_exit_end => thread_exit_end k
  end.

Definition resume (k : kernel) : outcome kernel :=
  let! (fr, k) := pop k in
  match fr with None => Ok k | Some fr => run_frame fr k end.

(** [idle ()] up to its first [thread_block]. *)
Definition idle (idle_started : Z) (k : kernel) : outcome kernel :=
  let! cur := thread_current k in
  let k := mk_kernel (threads k) (current k) (ready_list k) (sleep_list k) (all_list k) (Some cur)
             (initial_thread k) (next_tid k) (intr_level k) (intr_context k) (yield_on_return k) (ticks k)
             (thread_ticks k) (idle_ticks k) (kernel_ticks k) (user_ticks k) (semas k) (locks k) (conds k) in
  let! k := sema_up idle_started k in
  let! k := push F_idle (set_intr false k) in
  thread_block k.
