(* ===== verification/Timer.v ===== *)
(** * devices/timer.c: the timer and the alarm clock *)
From S2P Require Import Prelude Thread.

Definition TIMER_FREQ : Z := 100.

Definition set_ticks (n : Z) (k : kernel) : kernel :=
  mk_kernel (threads k) (current k) (ready_list k) (sleep_list k) (all_list k) (idle_thread k) (initial_thread k)
    (next_tid k) (intr_level k) (intr_context k) (yield_on_return k) n (thread_ticks k)
    (idle_ticks k) (kernel_ticks k) (user_ticks k) (semas k) (locks k) (conds k).

Definition timer_ticks (k : kernel) : Z := ticks k.
Definition timer_elapsed (before : Z) (k : kernel) : Z := s64 (timer_ticks k - before).

Definition timer_sleep (n : Z) (k : kernel) : outcome kernel :=
  let start := timer_ticks k in
  assert! intr_level k in
  let! cur := thread_current k in
  let! k := upd cur (set_alarm (s64 (start + n))) k in
  thread_sleep k.

(** [while (!is_sleep_list_empty () && ticks >= thread_slept_first ()->alarm_ticks)
    thread_awake ();]: a pass shortens the list. *)
Fixpoint awake_loop (fuel : nat) (k : kernel) : outcome kernel :=
  if is_sleep_list_empty k then Ok k else
  let! a := thread_slept_first k in
  let! t := oget (threads k !! a) in
  if alarm_ticks t <=? ticks k then
    match fuel with
    | O => Err NoFuel
    | S fuel => let! k := thread_awake k in awake_loop fuel k
    end
  else Ok k.

Definition timer_interrupt (k : kernel) : outcome kernel :=
  let k := set_ticks (s64 (ticks k + 1)) k in
  let! k := thread_tick k in
  awake_loop (List.length (sleep_list k)) k.

(** ** Delays

    [elapse n] says how many ticks pass during [n] turns of the busy loop. *)
Section calibrate.
Variable too_many_loops : Z -> bool.

(** [loops_per_tick] doubles until a tick passes; at 2^31 the shift gives 0. *)
Fixpoint calibrate_double (fuel : nat) (loops_per_tick : Z) : outcome Z :=
  if too_many_loops (u32 (Z.shiftl loops_per_tick 1)) then Ok loops_per_tick
  else match fuel with
       | O => Err NoFuel
       | S fuel => let loops_per_tick := u32 (Z.shiftl loops_per_tick 1) in
                   assert! negb (loops_per_tick =? 0) in calibrate_double fuel loops_per_tick
       end.

Fixpoint calibrate_refine (fuel : nat) (high_bit test_bit loops_per_tick : Z) : outcome Z :=
  if test_bit =? Z.shiftr high_bit 10 then Ok loops_per_tick
  else match fuel with
       | O => Err NoFuel
       | S fuel =>
         let loops_per_tick := if too_many_loops (Z.lor loops_per_tick test_bit) then loops_per_tick
                               else Z.lor loops_per_tick test_bit in
         calibrate_refine fuel high_bit (Z.shiftr test_bit 1) loops_per_tick
       end.

(** 22 doublings lead from 2^10 to 0, and 9 bits are tested. *)
Definition timer_calibrate : outcome Z :=
  let! high_bit := calibrate_double 22 (Z.shiftl 1 10) in
  calibrate_refine 9 high_bit (Z.shiftr high_bit 1) high_bit.
End calibrate.

(** The number of turns [busy_wait] is asked for, and the choice between
    sleeping and busy waiting. *)
Definition real_time_delay (loops_per_tick num denom : Z) : outcome Z :=
  assert! Z.rem denom 1000 =? 0 in
  Ok (s64 (Z.quot (s64 (Z.quot (s64 (loops_per_tick * num)) 1000 * TIMER_FREQ)) (Z.quot denom 1000))).

Definition real_time_sleep (loops_per_tick num denom : Z) (k : kernel) : outcome (Z * kernel) :=
  let t := Z.quot (s64 (num * TIMER_FREQ)) denom in
  assert! intr_level k in
  if 0 <? t then let! k := timer_sleep t k in Ok (0, k)
  else let! n := real_time_delay loops_per_tick num denom in Ok (n, k).

Definition timer_msleep (loops_per_tick ms : Z) := real_time_sleep loops_per_tick ms 1000.
Definition timer_usleep (loops_per_tick us : Z) := real_time_sleep loops_per_tick us (1000 * 1000).
Definition timer_nsleep (loops_per_tick ns : Z) := real_time_sleep loops_per_tick ns (1000 * 1000 * 1000).
Definition timer_mdelay (loops_per_tick ms : Z) := real_time_delay loops_per_tick ms 1000.
Definition timer_udelay (loops_per_tick us : Z) := real_time_delay loops_per_tick us (1000 * 1000).
Definition timer_ndelay (loops_per_tick ns : Z) := real_time_delay loops_per_tick ns (1000 * 1000 * 1000).
