(* ===== verification/Sched.v ===== *)
(** * The scheduler: queues, states and the alarm clock

    The invariant that ties the run queue, the sleep list and the wait lists to
    the states of the threads (the comment on [elem] in thread.h), and that
    every operation of thread.c, synch.c and timer.c preserves it.  [step] is
    the interleaving semantics: the thread that has the processor runs its next
    frame or starts a call, or the timer interrupts it. *)
From S2P Require Import Prelude Thread Synch Timer.

(** ** threads/interrupt.c: [intr_handler] for the timer interrupt *)
Definition set_context (ctx yield : bool) (k : kernel) : kernel :=
  mk_kernel (threads k) (current k) (ready_list k) (sleep_list k) (all_list k) (idle_thread k) (initial_thread k)
    (next_tid k) (intr_level k) ctx yield (ticks k) (thread_ticks k)
    (idle_ticks k) (kernel_ticks k) (user_ticks k) (semas k) (locks k) (conds k).

(** The processor disables interrupts on entry and restores them on return. *)
Definition intr_handler (k : kernel) : outcome kernel :=
  let k := set_intr false k in
  assert! negb (intr_context k) in
  let k := set_context true false k in
  let! k := timer_interrupt k in
  let again := yield_on_return k in
  let k := set_context false again k in
  if again then let! k := push (F_intr true) k in thread_yield k
  else Ok (set_intr true k).

(** ** Steps *)
Inductive call :=
| Down (s : Z) | Up (s : Z) | Acquire (l : Z) | Release (l : Z) | TryAcquire (l : Z)
| Wait (c l w : Z) | Signal (c l : Z) | Broadcast (c l : Z)
| Yield | Sleep (n : Z) | Exit.

Definition exec (c : call) (k : kernel) : outcome kernel :=
  match c with
  | Down s => sema_down s k
  | Up s => sema_up s k
  | Acquire l => lock_acquire l k
  | Release l => lock_release l k
  | TryAcquire l => let! (_, k) := lock_try_acquire l k in Ok k
  | Wait c l w => cond_wait c l w k
  | Signal c l => cond_signal c l k
  | Broadcast c l => cond_broadcast c l k
  | Yield => thread_yield k
  | Sleep n => timer_sleep n k
  | Exit => thread_exit k
  end.

(** The frames the current thread still has to run. *)
Definition pending (k : kernel) : list frame :=
  match threads k !! current k with Some t => todo t | None => [] end.

(** The local semaphore of [cond_wait] is not in use. *)
Definition call_ok (c : call) (k : kernel) : Prop :=
  match c with
  | Wait _ _ w => forall x, semas k !! w = Some x -> waiters x = []
  | _ => True
  end.

Inductive step : kernel -> kernel -> Prop :=
| step_frame k k' : pending k <> [] -> resume k = Ok k' -> step k k'
| step_call c k k' : pending k = [] -> intr_level k = true -> intr_context k = false ->
    idle_thread k <> Some (current k) -> call_ok c k -> exec c k = Ok k' -> step k k'
| step_timer k k' : intr_level k = true -> intr_handler k = Ok k' -> step k k'.

(** ** The invariant *)
Definition stat (k : kernel) (a : Z) : option thread_status := status <$> threads k !! a.
Definition alarm (k : kernel) (a : Z) : Z :=
  match threads k !! a with Some t => alarm_ticks t | None => 0 end.
Definition waits (k : kernel) (s a : Z) : Prop := exists x, semas k !! s = Some x /\ a ∈ waiters x.

Record queues (k : kernel) : Prop := {
  q_magic : forall a t, threads k !! a = Some t -> magic t = THREAD_MAGIC;
  q_ready : forall a, a ∈ ready_list k -> stat k a = Some THREAD_READY;
  q_ready_nd : NoDup (ready_list k);
  q_ready_all : forall a, stat k a = Some THREAD_READY -> idle_thread k <> Some a -> a ∈ ready_list k;
  q_sleep : forall a, a ∈ sleep_list k -> stat k a = Some THREAD_BLOCKED;
  q_sleep_nd : NoDup (sleep_list k);
  q_sorted : StronglySorted (fun a b => alarm k a <= alarm k b) (sleep_list k);
  q_wait : forall s a, waits k s a -> stat k a = Some THREAD_BLOCKED;
  q_wait_nd : forall s x, semas k !! s = Some x -> NoDup (waiters x);
  q_wait_one : forall s s' a, waits k s a -> waits k s' a -> s = s';
  q_sleep_wait : forall s a, a ∈ sleep_list k -> ~ waits k s a;
  q_idle : exists i, idle_thread k = Some i /\ is_Some (stat k i) /\ stat k i <> Some THREAD_DYING /\
    i ∉ ready_list k /\ i ∉ sleep_list k /\ forall s, ~ waits k s i }.

(** The idle thread runs nothing but its loop. *)
Definition idle_frame (fr : frame) : bool := match fr with F_idle | F_block | F_intr _ => true | _ => false end.
Definition idle_frames (k : kernel) : Prop :=
  forall i t fr, idle_thread k = Some i -> threads k !! i = Some t -> fr ∈ todo t -> idle_frame fr = true.

Record inv (k : kernel) : Prop := {
  i_queues : queues k;
  i_frames : idle_frames k;
  i_current : stat k (current k) = Some THREAD_RUNNING;
  i_running : forall a, stat k a = Some THREAD_RUNNING -> a = current k }.

(** The state in which [schedule] is called: nobody is running. *)
Record descheduled (k : kernel) : Prop := {
  d_queues : queues k;
  d_frames : idle_frames k;
  d_current : is_Some (stat k (current k));
  d_running : forall a, stat k a <> Some THREAD_RUNNING }.

(** ** Updates that the invariant does not see *)
Definition view (k : kernel) (a : Z) : option (thread_status * Z * Z) :=
  (fun t => (status t, magic t, alarm_ticks t)) <$> threads k !! a.

Lemma view_stat k k' a : view k' a = view k a -> stat k' a = stat k a.
Proof. rw /view /stat. destruct (threads k' !! a), (threads k !! a); simpl; intros; by simplify_eq/=; f_equal. Qed.
Lemma view_alarm k k' a : view k' a = view k a -> alarm k' a = alarm k a.
Proof. rw /view /alarm. destruct (threads k' !! a), (threads k !! a); simpl; intros; by simplify_eq/=. Qed.

Lemma stat_lookup k a s : stat k a = Some s -> exists t, threads k !! a = Some t /\ status t = s.
Proof. rw /stat. destruct (threads k !! a) as [t|]; simpl; intros; simplify_eq/=. by exists t. Qed.

Lemma sorted_ext (R R' : Z -> Z -> Prop) (l : list Z) :
  StronglySorted R l -> (forall a b, a ∈ l -> b ∈ l -> R a b -> R' a b) -> StronglySorted R' l.
Proof.
  induction 1 as [|a l Hs IH Hf]; intros HR; constructor.
  - apply IH. intros x y Hx Hy. apply HR; by apply list_elem_of_further.
  - apply Forall_forall. intros x Hx. apply HR; [apply list_elem_of_here|by apply list_elem_of_further|].
    by apply (proj1 (Forall_forall _ _) Hf).
Qed.

(** [queues] depends on the threads only through [view]. *)
Lemma queues_ext k k' :
  (forall a, view k' a = view k a) -> ready_list k' = ready_list k -> sleep_list k' = sleep_list k ->
  semas k' = semas k -> idle_thread k' = idle_thread k -> queues k -> queues k'.
Proof.
  intros Hv Hr Hs Hm Hi [Q1 Q2 Q3 Q4 Q5 Q6 Q7 Q8 Q9 Q10 Q11 Q12].
  have Hst : forall a, stat k' a = stat k a by intros a; apply view_stat.
  have Hal : forall a, alarm k' a = alarm k a by intros a; apply view_alarm.
  have Hw : forall s a, waits k' s a <-> waits k s a by intros s a; rw /waits Hm.
  split.
  - intros a t Ha. have := Hv a. rw /view Ha. destruct (threads k !! a) as [u|] eqn:Eu; [|done].
    intros [= _ -> _]. by eapply Q1.
  - intros a. rw Hr Hst. apply Q2.
  - by rw Hr.
  - intros a. rw Hr Hst Hi. apply Q4.
  - intros a. rw Hs Hst. apply Q5.
  - by rw Hs.
  - rw Hs. apply (sorted_ext _ _ _ Q7). intros a b _ _. by rw !Hal.
  - intros s a. rw Hst Hw. apply Q8.
  - intros s x. rw Hm. apply Q9.
  - intros s s' a. rw !Hw. apply Q10.
  - intros s a. rw Hs Hw. apply Q11.
  - destruct Q12 as (i & H1 & H2 & H3 & H4 & H5 & H6). exists i. rw Hi Hst Hr Hs.
    split_and!; try done. intros s. by rw Hw.
Qed.

(** Only the status of [a] changes. *)
Definition restat (a : Z) (s : thread_status) (k k' : kernel) : Prop :=
  forall b, stat k' b = if decide (b = a) then Some s else stat k b.

Lemma upd_ok k a f :
  is_Some (stat k a) -> exists t, threads k !! a = Some t /\ upd a f k = Ok (set_threads (<[a := f t]> (threads k)) k).
Proof. intros [s Hs]. apply stat_lookup in Hs as (t & Ht & _). exists t. by rw /upd Ht. Qed.

Lemma stat_insert k a t b :
  stat (set_threads (<[a := t]> (threads k)) k) b = if decide (b = a) then Some (status t) else stat k b.
Proof. rw /stat /=. case_decide; [subst; by rw lookup_insert_eq|by rw lookup_insert_ne]. Qed.

Lemma alarm_insert k a t b :
  alarm (set_threads (<[a := t]> (threads k)) k) b = if decide (b = a) then alarm_ticks t else alarm k b.
Proof. rw /alarm /=. case_decide; [subst; by rw lookup_insert_eq|by rw lookup_insert_ne]. Qed.

Lemma thread_current_inv k : inv k -> thread_current k = Ok (current k).
Proof.
  intros [Q _ Hc _]. apply stat_lookup in Hc as (t & Ht & Hs).
  rw /thread_current /is_thread Ht (q_magic _ Q _ _ Ht) Z.eqb_refl /= bool_decide_eq_true_2 //.
Qed.

Lemma is_thread_ok k a : queues k -> is_Some (stat k a) -> is_thread k a = true.
Proof.
  intros Q [s Hs]. apply stat_lookup in Hs as (t & Ht & _). by rw /is_thread Ht (q_magic _ Q _ _ Ht) Z.eqb_refl.
Qed.

(** ** Scheduling *)

(** The thread that [next_thread_to_run] picks becomes RUNNING and leaves the queue. *)
Lemma run_next k n l :
  descheduled k -> is_Some (stat k n) -> stat k n <> Some THREAD_DYING ->
  (ready_list k = n :: l \/ (ready_list k = [] /\ l = [] /\ idle_thread k = Some n)) ->
  forall t, threads k !! n = Some t ->
  queues (set_slice 0 (set_threads (<[n := set_status THREAD_RUNNING t]> (threads k))
     (set_current n (set_ready l k)))).
Proof.
  intros [Q Hf Hc Hr] Hn Hnd Hl t Ht. set k' := set_slice _ _.
  destruct Q as [Q1 Q2 Q3 Q4 Q5 Q6 Q7 Q8 Q9 Q10 Q11 Q12].
  have Hst : forall b, stat k' b = if decide (b = n) then Some THREAD_RUNNING else stat k b.
  { intros b. rw /k'. exact (stat_insert k n (set_status THREAD_RUNNING t) b). }
  have Hal : forall b, alarm k' b = alarm k b.
  { intros b. have -> : alarm k' b = _ := alarm_insert k n (set_status THREAD_RUNNING t) b.
    case_decide; [subst; by rw /alarm Ht|done]. }
  have Hw : forall s a, waits k' s a <-> waits k s a by done.
  have Hnb : stat k n <> Some THREAD_BLOCKED \/ idle_thread k = Some n.
  { destruct Hl as [Hl|(_ & _ & Hi)]; [left|by right]. rw Q2 // Hl. apply list_elem_of_here. }
  destruct Q12 as (i & I1 & I2 & I3 & I4 & I5 & I6).
  have Hsub : forall a, a ∈ l -> a ∈ ready_list k.
  { intros a Ha. destruct Hl as [->|(_ & -> & _)]; [by apply list_elem_of_further|]. by apply not_elem_of_nil in Ha. }
  have Hnl : n ∉ l.
  { destruct Hl as [Hl|(_ & -> & _)]; [|apply not_elem_of_nil]. rw Hl in Q3. by apply NoDup_cons in Q3 as [? _]. }
  have Hblk : forall a, stat k a = Some THREAD_BLOCKED -> (a ∈ sleep_list k \/ exists s, waits k s a) -> a <> n.
  { intros a Ha Hq ->. destruct Hnb as [|Hi]; [done|]. rw I1 in Hi. simplify_eq.
    destruct Hq as [|[s Hq]]; [done|by apply I6 in Hq]. }
  split.
  - intros a u. rw /k' /= lookup_insert. case_decide; [intros [= <-]; exact (Q1 n t Ht)|apply Q1].
  - intros a Ha. rw Hst decide_False; [by intros ->|]. by apply Q2, Hsub.
  - destruct Hl as [Hl|(_ & -> & _)]; [|apply NoDup_nil_2]. rw Hl in Q3. by apply NoDup_cons in Q3 as [_ ?].
  - intros a. rw Hst. case_decide as Ha; [done|]. intros H1 H2. have := Q4 a H1 H2.
    destruct Hl as [->|(-> & -> & _)]; [|done]. rw elem_of_cons. naive_solver.
  - intros a Ha. have Hb := Q5 a Ha. rw Hst decide_False //. by apply Hblk; [|left].
  - done.
  - apply (sorted_ext _ _ _ Q7). intros a b _ _. by rw !Hal.
  - intros s a Ha%Hw. have Hb := Q8 s a Ha. rw Hst decide_False //. apply Hblk; [done|right; by exists s].
  - done.
  - intros s s' a Ha%Hw Hb%Hw. by eapply Q10.
  - intros s a Ha Hb%Hw. by eapply Q11.
  - exists i. rw Hst. split_and!; try done; [by case_decide|by case_decide|by intros ?%Hsub].
Qed.

(** What a thread switch leaves alone. *)
Record switched (k k' : kernel) : Prop := {
  sw_intr : intr_level k' = intr_level k;
  sw_context : intr_context k' = intr_context k;
  sw_ticks : ticks k' = ticks k;
  sw_sleep : sleep_list k' = sleep_list k;
  sw_semas : semas k' = semas k;
  sw_locks : locks k' = locks k;
  sw_conds : conds k' = conds k;
  sw_alarm : forall a, stat k a <> Some THREAD_DYING -> alarm k' a = alarm k a;
  sw_todo : forall a, todo <$> threads k' !! a = todo <$> threads k !! a \/
    (a = current k /\ stat k a = Some THREAD_DYING /\ threads k' !! a = None) }.

Lemma idle_frames_ext k k' :
  idle_thread k' = idle_thread k ->
  (forall a t', threads k' !! a = Some t' -> exists t, threads k !! a = Some t /\ todo t' = todo t) ->
  idle_frames k -> idle_frames k'.
Proof.
  intros Hi Ht Hf i t' fr. rw Hi. intros H1 (t & H2 & ->)%Ht H3. by eapply Hf.
Qed.

(** A dying thread is in no queue: its page can be freed. *)
Lemma queues_delete k p :
  queues k -> stat k p = Some THREAD_DYING -> queues (set_threads (delete p (threads k)) k).
Proof.
  intros [Q1 Q2 Q3 Q4 Q5 Q6 Q7 Q8 Q9 Q10 Q11 Q12] Hp. set k' := set_threads _ _.
  have Hne : forall a s, stat k a = Some s -> s <> THREAD_DYING -> a <> p by intros a s Ha Hs ->; congruence.
  have Hst : forall a, a <> p -> stat k' a = stat k a by intros a Ha; rw /stat /= lookup_delete_ne.
  have Hp' : stat k' p = None by rw /stat /= lookup_delete_eq.
  have Hst' : forall a s, stat k' a = Some s -> a <> p /\ stat k a = Some s.
  { intros a s Ha. destruct (decide (a = p)) as [->|Hn]; [congruence|]. by rw -Hst. }
  have Hal : forall a, a <> p -> alarm k' a = alarm k a by intros a Ha; rw /alarm /= lookup_delete_ne.
  have Hw : forall s a, waits k' s a <-> waits k s a by done.
  have Hs : forall a, a ∈ sleep_list k -> a <> p by intros a Ha; apply (Hne a _ (Q5 a Ha)).
  split; try done.
  - intros a t. rw /k' /= lookup_delete_Some. intros [_ ?]. by eapply Q1.
  - intros a Ha. have := Q2 a Ha. intros H. rw Hst //. by apply (Hne a _ H).
  - intros a [Ha H]%Hst'. by apply Q4.
  - intros a Ha. rw Hst; [by apply Hs|by apply Q5].
  - apply (sorted_ext _ _ _ Q7). intros a b Ha Hb. rw !Hal //; by apply Hs.
  - intros s a Ha. have H := Q8 s a Ha. rw Hst //. by apply (Hne a _ H).
  - destruct Q12 as (i & I1 & I2 & I3 & I4 & I5 & I6). have Hip : i <> p by congruence.
    exists i. by rw Hst.
Qed.

Lemma schedule_ok k :
  descheduled k -> intr_level k = false -> exists k', schedule k = Ok k' /\ inv k' /\ switched k k'.
Proof.
  intros Hd Hi. have [Q Hf Hc Hr] := Hd.
  have [n [l [Hnext [Hl [Hn Hnd]]]]] : exists n l,
      next_thread_to_run k = (Some n, set_ready l k) /\
      (ready_list k = n :: l \/ (ready_list k = [] /\ l = [] /\ idle_thread k = Some n)) /\
      is_Some (stat k n) /\ stat k n <> Some THREAD_DYING.
  { rw /next_thread_to_run. destruct (ready_list k) as [|n l] eqn:El.
    - have [i [I1 [I2 [I3 _]]]] := q_idle _ Q. exists i, []. rw I1. split_and!; try done; [|by right].
      f_equal. destruct k; simpl in *. by subst.
    - exists n, l. have H : stat k n = Some THREAD_READY by apply (q_ready _ Q); rw El; apply list_elem_of_here.
      rw H. split_and!; try done. by left. }
  have [t Ht] : exists t, threads k !! n = Some t.
  { destruct Hn as [s Hn]. apply stat_lookup in Hn as (t & ? & _). by exists t. }
  have [tc Htc] : exists t, threads k !! current k = Some t.
  { destruct Hc as [s Hc']. apply stat_lookup in Hc' as (t' & ? & _). by exists t'. }
  have Hq := run_next k n l Hd Hn Hnd Hl t Ht. set k1 := set_slice _ _ in Hq.
  have Hst1 : forall b, stat k1 b = if decide (b = n) then Some THREAD_RUNNING else stat k b
    := stat_insert k n (set_status THREAD_RUNNING t).
  have Htodo1 : forall a, todo <$> threads k1 !! a = todo <$> threads k !! a.
  { intros a. rw /k1 /= lookup_insert. case_decide; [subst; by rw Ht|done]. }
  have Hal1 : forall a, alarm k1 a = alarm k a.
  { intros a. etrans; [exact (alarm_insert k n (set_status THREAD_RUNNING t) a)|].
    case_decide; [subst; by rw /alarm Ht|done]. }
  have Hf1 : idle_frames k1.
  { apply (idle_frames_ext k); try done. intros a t' Ha. have := Htodo1 a. rw Ha.
    destruct (threads k !! a) as [u|]; [|done]. intros [= ->]. by exists u. }
  have Hinv1 : inv k1.
  { split; try done; [by rw Hst1 decide_True|]. intros a. rw Hst1. case_decide; [done|]. by intros ?%Hr. }
  rw /schedule Hnext /= Hi /= Htc /=. rw bool_decide_eq_false_2 /=.
  { intros H. apply (Hr (current k)). by rw /stat Htc /= H. }
  have -> : is_thread (set_ready l k) n = true by apply (is_thread_ok k n Q Hn).
  simpl. destruct (Z.eqb_spec (current k) n) as [Heq|Hne]; simpl.
  - rw /thread_schedule_tail /= Hi /= /upd /= Heq Ht /=. exists k1. split; [|split; [done|]].
    + do 2 f_equal. rw /k1 /set_threads /set_slice /=. by rw Heq.
    + split; try done. intros a. left. apply Htodo1.
  - rw /thread_schedule_tail /= Hi /= /upd /= Ht /=.
    rw lookup_insert_ne // Htc /=.
    destruct (bool_decide _ && _) eqn:Edy.
    + apply andb_true_iff in Edy as [Edy%bool_decide_eq_true _].
      rw (proj2 (Z.eqb_neq (current k) n)) //=.
      have Hdy : stat k1 (current k) = Some THREAD_DYING by rw Hst1 decide_False // /stat Htc /= Edy.
      have Hq2 := queues_delete k1 (current k) Hq Hdy. set k2 := set_threads _ k1 in Hq2.
      exists k2. split; [done|split; [split; try done|]].
      * apply (idle_frames_ext k1); try done. intros a u. rw /k2 /= lookup_delete_Some. intros [_ ?]. by exists u.
      * rw /stat /k2 /= lookup_delete_ne // lookup_insert_eq //.
      * intros a. rw /stat /k2 /=. destruct (decide (a = current k)) as [->|]; [by rw lookup_delete_eq|].
        rw lookup_delete_ne; [done|]. exact (i_running _ Hinv1 a).
      * split; try done.
        { intros a Ha. etrans; [|apply Hal1]. rw /alarm /k2 /= lookup_delete_ne //. intros <-. by rw /stat Htc /= Edy in Ha. }
        intros a. rw /k2 /=. destruct (decide (a = current k)) as [->|].
        -- right. rw lookup_delete_eq. split_and!; try done. by rw /stat Htc /= Edy.
        -- left. rw lookup_delete_ne; [done|]. exact (Htodo1 a).
    + exists k1. split; [done|split; [done|]]. split; try done. intros a. left. apply Htodo1.
Qed.

(** ** Giving the processor up *)
Lemma current_free k :
  inv k -> current k ∉ ready_list k /\ current k ∉ sleep_list k /\ forall s, ~ waits k s (current k).
Proof.
  intros [Q _ Hc _]. split_and!.
  - intros H%(q_ready _ Q). congruence.
  - intros H%(q_sleep _ Q). congruence.
  - intros s H%(q_wait _ Q). congruence.
Qed.

(** The current thread leaves the processor with status [s], perhaps for the
    end of the run queue, the sleep list or the wait list of [s1]. *)
Lemma requeue k k' s s1 :
  inv k -> current k' = current k -> restat (current k) s k k' -> s <> THREAD_RUNNING ->
  (forall a t, threads k' !! a = Some t -> magic t = THREAD_MAGIC) ->
  idle_thread k' = idle_thread k -> idle_frames k' ->
  (s = THREAD_DYING -> idle_thread k <> Some (current k)) ->
  (forall a, a ∈ ready_list k' <->
     a ∈ ready_list k \/ (a = current k /\ s = THREAD_READY /\ idle_thread k <> Some (current k))) ->
  NoDup (ready_list k') ->
  (forall a, a ∈ sleep_list k' ->
     a ∈ sleep_list k \/ (a = current k /\ s = THREAD_BLOCKED /\ idle_thread k <> Some (current k))) ->
  NoDup (sleep_list k') -> StronglySorted (fun a b => alarm k' a <= alarm k' b) (sleep_list k') ->
  (forall s0 a, waits k' s0 a ->
     waits k s0 a \/ (a = current k /\ s = THREAD_BLOCKED /\ idle_thread k <> Some (current k) /\ s0 = s1)) ->
  (forall s0 x, semas k' !! s0 = Some x -> NoDup (waiters x)) ->
  (current k ∈ sleep_list k' -> forall s0, ~ waits k' s0 (current k)) ->
  descheduled k'.
Proof.
  intros Hinv Hcur Hst Hs Hmg Hid Hfr Hdy Hr Hrn Hsl Hsn Hso Hw Hwn Hsw.
  have [F1 [F2 F3]] := current_free k Hinv. have [Q _ Hc Hrun] := Hinv.
  have Hne : forall a, a <> current k -> stat k' a = stat k a by intros a Ha; rw Hst decide_False.
  have Hcs : stat k' (current k) = Some s by rw Hst decide_True.
  split; [|done|by rw Hcur Hcs|].
  2:{ intros a. rw Hst. case_decide; [congruence|]. by intros ?%Hrun. }
  split; try done.
  - intros a [Ha|(-> & -> & _)]%Hr; [|done]. rw Hne; [by intros ->|]. by apply (q_ready _ Q).
  - intros a. destruct (decide (a = current k)) as [->|Ha].
    + rw Hcs Hid. intros [= ->] Hi. apply Hr. by right.
    + rw Hne // Hid. intros H1 H2. apply Hr. left. by apply (q_ready_all _ Q).
  - intros a [Ha|(-> & -> & _)]%Hsl; [|done]. rw Hne; [by intros ->|]. by apply (q_sleep _ Q).
  - intros s0 a [Ha|(-> & -> & _)]%Hw; [|done]. rw Hne; [by intros ->; apply F3 in Ha|]. by apply (q_wait _ Q s0).
  - intros s0 s0' a [Ha|(-> & _ & _ & ->)]%Hw [Hb|(Hb & _ & _ & ->)]%Hw; try done.
    + by apply (q_wait_one _ Q _ _ a).
    + subst. by apply F3 in Ha.
    + by apply F3 in Hb.
  - intros s0 a Ha Hb. destruct (decide (a = current k)) as [->|Hac]; [by apply (Hsw Ha s0)|].
    destruct (Hsl a Ha) as [Ha'|[? _]]; [|done]. destruct (Hw s0 a Hb) as [Hb'|[? _]]; [|done].
    by apply (q_sleep_wait _ Q s0 a).
  - have [i [I1 [I2 [I3 [I4 [I5 I6]]]]]] := q_idle _ Q. exists i. rw Hid.
    have Hii : i ∉ ready_list k' /\ i ∉ sleep_list k' /\ forall s0, ~ waits k' s0 i.
    { split_and!.
      - by intros [?|(-> & _ & ?)]%Hr.
      - by intros [?|(-> & _ & ?)]%Hsl.
      - by intros s0 [?%I6|(-> & _ & ? & _)]%Hw. }
    destruct Hii as (? & ? & ?).
    destruct (decide (i = current k)) as [->|Hic]; [|by rw Hne].
    rw Hcs. split_and!; try done. intros [= ->]. by apply Hdy.
Qed.

(** Changing [todo] is invisible to [queues]. *)
Lemma push_ok k fr :
  inv k -> (idle_thread k = Some (current k) -> idle_frame fr = true) ->
  exists t, threads k !! current k = Some t /\
    push fr k = Ok (set_threads (<[current k := set_todo (fr :: todo t) t]> (threads k)) k) /\
    inv (set_threads (<[current k := set_todo (fr :: todo t) t]> (threads k)) k).
Proof.
  intros Hinv Hfr. have [Q Hf Hc Hr] := Hinv. have [t [Ht Hs]] := stat_lookup _ _ _ Hc.
  exists t. split; [done|]. split; [by rw /push /upd Ht|]. set k' := set_threads _ _.
  have Hv : forall a, view k' a = view k a.
  { intros a. rw /view /k' /= lookup_insert. case_decide; [subst; by rw Ht|done]. }
  split.
  - by apply (queues_ext k).
  - intros i u fr' Hi. rw /k' /= lookup_insert. case_decide as Hic.
    + intros [= <-]. simpl. intros [->|Hin]%elem_of_cons; [apply Hfr; by rw Hic|].
      apply (Hf i t fr' Hi); [by rw -Hic|done].
    + intros Hu Hin. by apply (Hf i u fr').
  - change (current k') with (current k). by rw (view_stat _ _ _ (Hv _)).
  - intros a. rw (view_stat _ _ _ (Hv a)). apply Hr.
Qed.

Lemma inv_ext k k' :
  (forall a, view k' a = view k a) ->
  (forall a t', threads k' !! a = Some t' -> exists t, threads k !! a = Some t /\ todo t' = todo t) ->
  ready_list k' = ready_list k -> sleep_list k' = sleep_list k ->
  semas k' = semas k -> idle_thread k' = idle_thread k -> current k' = current k -> inv k -> inv k'.
Proof.
  intros Hv Ht Hr Hs Hm Hi Hc [Q Hf Hcu Hru]. split.
  - by apply (queues_ext k).
  - by apply (idle_frames_ext k).
  - by rw Hc (view_stat _ _ _ (Hv _)).
  - intros a. rw Hc (view_stat _ _ _ (Hv a)). apply Hru.
Qed.

(** Fields the invariant does not mention. *)
Lemma inv_same k k' :
  threads k' = threads k -> ready_list k' = ready_list k -> sleep_list k' = sleep_list k ->
  semas k' = semas k -> idle_thread k' = idle_thread k -> current k' = current k -> inv k -> inv k'.
Proof.
  intros Ht ?????. apply inv_ext; try done; rw /view Ht //. intros a t ?. by exists t.
Qed.

(** The status of the current thread, and nothing else, changes to [s]. *)
Lemma restat_current k s :
  inv k -> exists t, threads k !! current k = Some t /\
    upd (current k) (set_status s) k = Ok (set_threads (<[current k := set_status s t]> (threads k)) k) /\
    restat (current k) s k (set_threads (<[current k := set_status s t]> (threads k)) k) /\
    (forall a u, <[current k := set_status s t]> (threads k) !! a = Some u -> magic u = THREAD_MAGIC) /\
    idle_frames (set_threads (<[current k := set_status s t]> (threads k)) k) /\
    (forall a, alarm (set_threads (<[current k := set_status s t]> (threads k)) k) a = alarm k a).
Proof.
  intros Hinv. have [Q Hf Hc Hr] := Hinv. have [t [Ht Hs]] := stat_lookup _ _ _ Hc.
  exists t. split_and!; try done.
  - by rw /upd Ht.
  - intros b. apply stat_insert.
  - intros a u. rw lookup_insert. case_decide; [intros [= <-]; exact (q_magic _ Q _ _ Ht)|apply (q_magic _ Q)].
  - apply (idle_frames_ext k); try done. intros a u. rw /= lookup_insert. case_decide as Ha.
    + intros [= <-]. exists t. by rw -Ha.
    + by exists u.
  - intros a. rw alarm_insert. case_decide; [subst; by rw /alarm Ht|done].
Qed.

Lemma sorted_alarm k k' l :
  (forall a, alarm k' a = alarm k a) -> StronglySorted (fun a b => alarm k a <= alarm k b) l ->
  StronglySorted (fun a b => alarm k' a <= alarm k' b) l.
Proof. intros Ha Hs. apply (sorted_ext _ _ _ Hs). intros a b _ _. by rw !Ha. Qed.

(** ** Every operation succeeds and preserves the invariant *)
Lemma thread_block_ok k :
  inv k -> intr_level k = false -> intr_context k = false ->
  exists k', thread_block k = Ok k' /\ inv k' /\ intr_context k' = false.
Proof.
  intros Hinv Hi Hx. rw /thread_block Hx Hi /= thread_current_inv //=.
  have [t [Ht [-> [H1 [H2 [H3 H4]]]]]] := restat_current k THREAD_BLOCKED Hinv. simpl.
  set kb := set_threads _ k. have [Q _ _ _] := Hinv.
  have Hd : descheduled kb.
  { apply (requeue k kb THREAD_BLOCKED 0); try done.
    - intros a. split; [by left|]. intros [?|(_ & ? & _)]; done.
    - apply (q_ready_nd _ Q).
    - by left.
    - apply (q_sleep_nd _ Q).
    - apply (sorted_alarm _ _ _ H4 (q_sorted _ Q)).
    - by left.
    - apply (q_wait_nd _ Q).
    - intros ? s0. apply (current_free k Hinv). }
  destruct (schedule_ok kb Hd Hi) as (k' & -> & Hinv' & Hsw). exists k'. split_and!; try done.
  by rw (sw_context _ _ Hsw).
Qed.

Lemma thread_yield_ok k :
  inv k -> intr_context k = false ->
  exists k', thread_yield k = Ok k' /\ inv k' /\ intr_context k' = false.
Proof.
  intros Hinv Hx. rw /thread_yield thread_current_inv //= Hx /=.
  destruct (push_ok k (F_intr (intr_level k)) Hinv) as (t & Ht & -> & Hinv1); [done|]. simpl.
  set k1 := set_threads _ k in Hinv1. set k2 := set_intr false k1.
  have Hinv2 : inv k2 by apply (inv_same k1).
  set k3 := (X in upd _ _ X).
  have [u [Hu [_ [H1 [H2 [H3 H4]]]]]] := restat_current k2 THREAD_READY Hinv2.
  have Hupd : upd (current k) (set_status THREAD_READY) k3 =
      Ok (set_threads (<[current k2 := set_status THREAD_READY u]> (threads k2)) k3).
  { rw /upd /k3. by case_bool_decide; rw /= Hu. }
  rw Hupd /=. set k4 := set_threads _ k3. have [Q _ _ _] := Hinv2.
  have [F1 [F2 F3]] := current_free k2 Hinv2.
  have Hd : descheduled k4.
  { rw /k4 /k3. case_bool_decide as Hid.
    - apply (requeue k2 _ THREAD_READY 0); try done.
      + intros a. split; [by left|]. intros [?|(_ & _ & ?)]; done.
      + apply (q_ready_nd _ Q).
      + by left.
      + apply (q_sleep_nd _ Q).
      + apply (sorted_alarm _ _ _ H4 (q_sorted _ Q)).
      + by left.
      + apply (q_wait_nd _ Q).
    - apply (requeue k2 _ THREAD_READY 0); try done.
      + intros a. rw /= elem_of_app list_elem_of_singleton. split.
        * intros [?| ->]; [by left|by right].
        * intros [?|(-> & _)]; [by left|by right].
      + apply NoDup_app. split_and!; [apply (q_ready_nd _ Q)| |apply NoDup_singleton].
        intros a Ha ->%list_elem_of_singleton. by apply F1.
      + by left.
      + apply (q_sleep_nd _ Q).
      + apply (sorted_alarm _ _ _ H4 (q_sorted _ Q)).
      + by left.
      + apply (q_wait_nd _ Q). }
  have Hi4 : intr_level k4 = false by rw /k4 /k3; case_bool_decide.
  destruct (schedule_ok k4 Hd Hi4) as (k' & -> & Hinv' & Hsw). exists k'. split_and!; try done.
  rw (sw_context _ _ Hsw) /k4 /k3. by case_bool_decide.
Qed.

(** Inserting in alarm order. *)
Lemma insert_sleep_elem k a l b : b ∈ insert_sleep k a l <-> b = a \/ b ∈ l.
Proof.
  induction l as [|c l IH]; simpl; [rw list_elem_of_singleton elem_of_nil; tauto|].
  destruct (thread_less_alarm_ticks k a c); rw !elem_of_cons ?IH; tauto.
Qed.

Lemma insert_sleep_nodup k a l : NoDup l -> a ∉ l -> NoDup (insert_sleep k a l).
Proof.
  induction 1 as [|c l Hc Hl IH]; simpl; intros Ha; [apply NoDup_singleton|].
  apply not_elem_of_cons in Ha as [Hac Ha].
  destruct (thread_less_alarm_ticks k a c).
  - rw !NoDup_cons not_elem_of_cons. by split_and!.
  - apply NoDup_cons. split; [|by apply IH]. rw insert_sleep_elem. intros [-> | ?]; done.
Qed.

Lemma insert_sleep_sorted k a l :
  is_Some (stat k a) -> (forall b, b ∈ l -> is_Some (stat k b)) ->
  StronglySorted (fun x y => alarm k x <= alarm k y) l ->
  StronglySorted (fun x y => alarm k x <= alarm k y) (insert_sleep k a l).
Proof.
  intros Ha Hl. induction 1 as [|c l Hs IH Hf]; simpl; [repeat constructor|].
  have Hcmp : thread_less_alarm_ticks k a c = (alarm k a <? alarm k c).
  { destruct Ha as [s1 (t & Ht & _)%stat_lookup].
    destruct (Hl c (list_elem_of_here _ _)) as [s2 (u & Hu & _)%stat_lookup].
    by rw /thread_less_alarm_ticks /alarm Ht Hu. }
  rw Hcmp. destruct (Z.ltb_spec (alarm k a) (alarm k c)).
  - constructor; [by constructor|]. constructor; [lia|].
    eapply Forall_impl; [done|]. simpl. intros; lia.
  - constructor.
    + apply IH. intros b Hb. by apply Hl, list_elem_of_further.
    + apply Forall_forall. intros b [-> | Hb]%insert_sleep_elem; [lia|]. by apply (proj1 (Forall_forall _ _) Hf).
Qed.

Lemma thread_sleep_ok k :
  inv k -> intr_context k = false -> idle_thread k <> Some (current k) ->
  exists k', thread_sleep k = Ok k' /\ inv k' /\ intr_context k' = false /\ ticks k' = ticks k /\
    (forall a, a ∈ sleep_list k' <-> a = current k \/ a ∈ sleep_list k) /\
    (forall a, a ∈ sleep_list k' -> alarm k' a = alarm k a).
Proof.
  intros Hinv Hx Hid. rw /thread_sleep Hx /=.
  destruct (push_ok k (F_intr (intr_level k)) Hinv) as (t & Ht & -> & Hinv1); [done|]. simpl.
  set k1 := set_threads _ k in Hinv1. set k2 := set_intr false k1.
  have Hinv2 : inv k2 by apply (inv_same k1).
  rw thread_current_inv //=.
  have [u [Hu [Hupd [H1 [H2 [H3 H4]]]]]] := restat_current k2 THREAD_BLOCKED Hinv2.
  change (current k) with (current k2). rw Hupd /=. set k3 := set_threads _ k2 in H1 H3 H4 *.
  set k4 := set_sleep _ k3. have [Q _ _ _] := Hinv2. have [F1 [F2 F3]] := current_free k2 Hinv2.
  have Hd : descheduled k4.
  { apply (requeue k2 _ THREAD_BLOCKED 0); try done.
    - intros a. split; [by left|]. intros [?|(_ & ? & _)]; done.
    - apply (q_ready_nd _ Q).
    - intros a [-> | ?]%insert_sleep_elem; [by right|by left].
    - by apply insert_sleep_nodup; [apply (q_sleep_nd _ Q)|].
    - refine (insert_sleep_sorted k3 (current k) (sleep_list k) _ _ _).
      + rw H1 decide_True //.
      + intros b Hb. rw H1. case_decide; [done|]. by rw (q_sleep _ Q).
      + apply (sorted_alarm _ _ _ H4 (q_sorted _ Q)).
    - by left.
    - apply (q_wait_nd _ Q). }
  destruct (schedule_ok k4 Hd eq_refl) as (k' & -> & Hinv' & Hsw). exists k'. split_and!; try done.
  - by rw (sw_context _ _ Hsw).
  - by rw (sw_ticks _ _ Hsw).
  - intros a. rw (sw_sleep _ _ Hsw). apply insert_sleep_elem.
  - intros a. rw (sw_sleep _ _ Hsw). intros Ha. rw (sw_alarm _ _ Hsw).
    + by rw (q_sleep _ (d_queues _ Hd) a Ha).
    + etrans; [exact (H4 a)|]. rw /alarm /k2 /k1 /= lookup_insert. case_decide; [subst; by rw Ht|done].
Qed.

Lemma timer_sleep_ok k n :
  inv k -> intr_context k = false -> intr_level k = true -> idle_thread k <> Some (current k) ->
  exists k', timer_sleep n k = Ok k' /\ inv k' /\ intr_context k' = false /\ ticks k' = ticks k /\
    (forall a, a ∈ sleep_list k' <-> a = current k \/ a ∈ sleep_list k) /\
    alarm k' (current k) = s64 (ticks k + n) /\
    (forall a, a ∈ sleep_list k -> alarm k' a = alarm k a).
Proof.
  intros Hinv Hx Hi Hid. rw /timer_sleep Hi /= thread_current_inv //=.
  have [Q Hf Hc Hr] := Hinv. have [t [Ht Hs]] := stat_lookup _ _ _ Hc.
  rw /upd Ht /=. set k1 := set_threads _ k.
  have [F1' [F2' _]] := current_free k Hinv.
  have Hmain : inv k1 -> exists k', thread_sleep k1 = Ok k' /\ inv k' /\ intr_context k' = false /\ ticks k' = ticks k /\
    (forall a, a ∈ sleep_list k' <-> a = current k \/ a ∈ sleep_list k) /\
    alarm k' (current k) = s64 (ticks k + n) /\ (forall a, a ∈ sleep_list k -> alarm k' a = alarm k a).
  { intros Hinv1. destruct (thread_sleep_ok k1 Hinv1 Hx Hid) as (k' & -> & H1 & H2 & H3 & H4 & H5).
    exists k'. split_and!; try done.
    - rw H5; [apply H4; by left|]. by rw /alarm /= lookup_insert_eq.
    - intros a Ha. rw H5; [apply H4; by right|]. rw /k1 alarm_insert decide_False //. by intros ->. }
  apply Hmain.
  have [F1 [F2 F3]] := current_free k Hinv.
  have Hst : forall b, stat k1 b = stat k b.
  { intros b. rw /k1 stat_insert. case_decide; [subst; by rw /stat Ht|done]. }
  split; [|apply (idle_frames_ext k); try done|by rw Hst|intros a; rw Hst; apply Hr].
  2:{ intros a u. rw /= lookup_insert. case_decide as Ha; [intros [= <-]; exists t; by rw -Ha|by exists u]. }
  destruct Q as [Q1 Q2 Q3 Q4 Q5 Q6 Q7 Q8 Q9 Q10 Q11 Q12]. split; try done.
  - intros a u. rw /k1 /= lookup_insert. case_decide; [intros [= <-]; exact (Q1 _ _ Ht)|apply Q1].
  - intros a. rw Hst. apply Q2.
  - intros a. rw Hst. apply Q4.
  - intros a. rw Hst. apply Q5.
  - apply (sorted_ext _ _ _ Q7). intros a b Ha Hb. rw /k1 !alarm_insert !decide_False //; by intros ->.
  - intros s a. rw Hst. apply Q8.
  - destruct Q12 as (i & I). exists i. by rw Hst.
Qed.

(** Replacing the value of a semaphore, with the same waiters. *)
Lemma put_sema_value k s x v :
  inv k -> semas k !! s = Some x -> inv (put_sema s (mk_sema v (waiters x)) k).
Proof.
  intros [Q Hf Hc Hr] Hx. set k' := put_sema _ _ _.
  have Hw : forall s0 a, waits k' s0 a <-> waits k s0 a.
  { intros s0 a. rw /waits /k' /=. destruct (decide (s0 = s)) as [->|].
    - rw lookup_insert_eq. split; [intros (y & [= <-] & ?); by exists x|].
      intros (y & Hy & ?). rw Hx in Hy. simplify_eq. by eexists.
    - by rw lookup_insert_ne. }
  split; try done. destruct Q as [Q1 Q2 Q3 Q4 Q5 Q6 Q7 Q8 Q9 Q10 Q11 Q12]. split; try done.
  - intros s0 a. rw Hw. apply Q8.
  - intros s0 y. rw /k' /= lookup_insert. case_decide; [intros [= <-]; exact (Q9 _ _ Hx)|apply Q9].
  - intros s0 s1 a. rw !Hw. apply Q10.
  - intros s0 a. rw Hw. apply Q11.
  - destruct Q12 as (i & I1 & I2 & I3 & I4 & I5 & I6). exists i. split_and!; try done. intros s0. by rw Hw.
Qed.

(** A semaphore nobody waits for may be created or replaced. *)
Lemma sema_init_inv k s v :
  inv k -> (forall x, semas k !! s = Some x -> waiters x = []) -> inv (sema_init s v k).
Proof.
  intros [Q Hf Hc Hr] Hx. set k' := sema_init _ _ _.
  have Hw : forall s0 a, waits k' s0 a -> waits k s0 a.
  { intros s0 a (y & Hy & Ha). rw /k' /sema_init /put_sema /= in Hy. destruct (decide (s0 = s)) as [->|].
    - rw lookup_insert_eq in Hy. simplify_eq. by apply not_elem_of_nil in Ha.
    - rw lookup_insert_ne // in Hy. by exists y. }
  split; try done. destruct Q as [Q1 Q2 Q3 Q4 Q5 Q6 Q7 Q8 Q9 Q10 Q11 Q12]. split; try done.
  - intros s0 a ?%Hw. by apply (Q8 s0).
  - intros s0 y. rw /k' /= lookup_insert. case_decide; [intros [= <-]; apply NoDup_nil_2|apply Q9].
  - intros s0 s1 a ?%Hw ?%Hw. by apply (Q10 _ _ a).
  - intros s0 a ? ?%Hw. by apply (Q11 s0 a).
  - destruct Q12 as (i & I1 & I2 & I3 & I4 & I5 & I6). exists i. split_and!; try done. by intros s0 ?%Hw%I6.
Qed.

Lemma sema_down_body_ok k s old x :
  inv k -> intr_level k = false -> intr_context k = false -> semas k !! s = Some x ->
  idle_thread k <> Some (current k) ->
  exists k', sema_down_body s old k = Ok k' /\ inv k' /\ intr_context k' = false.
Proof.
  intros Hinv Hi Hc Hx Hid. rw /sema_down_body /get_sema Hx /=. destruct (Z.eqb_spec (value x) 0) as [Hv|Hv].
  2:{ eexists. split; [done|]. split; [|done]. by apply (inv_same (put_sema s (mk_sema (value x - 1) (waiters x)) k)); [..|apply put_sema_value]. }
  rw thread_current_inv //=. set k1 := put_sema _ _ k.
  have [Q Hf Hcu Hr] := Hinv. have [t [Ht Hs]] := stat_lookup _ _ _ Hcu.
  rw /push /upd Ht /=. set k2 := set_threads _ k1.
  have Hv2 : forall a, view k2 a = view k a.
  { intros a. rw /view /k2 /= lookup_insert. case_decide; [subst; by rw Ht|done]. }
  have Hst2 : forall a, stat k2 a = stat k a by intros a; apply view_stat.
  have Hc2 : thread_current k2 = Ok (current k).
  { rw /thread_current /is_thread /k2 /= lookup_insert_eq /= (q_magic _ Q _ _ Ht) Z.eqb_refl /=.
    by rw Hs bool_decide_eq_true_2. }
  rw /thread_block Hc Hi /= Hc2 /= /upd /k2 /= lookup_insert_eq /=. set k3 := set_threads _ _.
  have [F1 [F2 F3]] := current_free k Hinv.
  have Hst3 : restat (current k) THREAD_BLOCKED k k3.
  { intros b. have -> := stat_insert k2 (current k) (set_status THREAD_BLOCKED (set_todo (F_sema_down s old :: todo t) t)) b.
    by case_decide. }
  have Hal3 : forall a, alarm k3 a = alarm k a.
  { intros a. rw /alarm /k3 /k2 /= !lookup_insert. case_decide; [subst; by rw Ht|done]. }
  have Hw3 : forall s0 a, waits k3 s0 a -> waits k s0 a \/ (a = current k /\ s0 = s).
  { intros s0 a (y & Hy & Ha). rw /k3 /= in Hy. destruct (decide (s0 = s)) as [->|].
    - rw lookup_insert_eq in Hy. simplify_eq. apply elem_of_app in Ha as [Ha| ->%list_elem_of_singleton]; [|by right].
      left. by exists x.
    - rw lookup_insert_ne // in Hy. left. by exists y. }
  have Hd : descheduled k3.
  { apply (requeue k k3 THREAD_BLOCKED s); try done.
    - intros a u. rw /k3 /k2 /= !lookup_insert. case_decide; [intros [= <-]; exact (q_magic _ Q _ _ Ht)|].
      apply (q_magic _ Q).
    - intros i u fr Hii. rw /k3 /k2 /= !lookup_insert. case_decide as Hic; [subst; done|]. by apply Hf.
    - intros a. split; [by left|]. intros [?|(_ & ? & _)]; done.
    - apply (q_ready_nd _ Q).
    - by left.
    - apply (q_sleep_nd _ Q).
    - apply (sorted_alarm _ _ _ Hal3 (q_sorted _ Q)).
    - intros s0 a [?|[-> ->]]%Hw3; [by left|by right].
    - intros s0 y. rw /k3 /= lookup_insert. case_decide; [|apply (q_wait_nd _ Q)]. intros [= <-]. simpl.
      apply NoDup_app. split_and!; [exact (q_wait_nd _ Q _ _ Hx)| |apply NoDup_singleton].
      intros a Ha ->%list_elem_of_singleton. apply (F3 s). by exists x. }
  destruct (schedule_ok k3 Hd Hi) as (k' & -> & Hinv' & Hsw). exists k'. split_and!; try done.
  by rw (sw_context _ _ Hsw).
Qed.

Lemma sema_down_ok k s x :
  inv k -> intr_context k = false -> semas k !! s = Some x -> idle_thread k <> Some (current k) ->
  exists k', sema_down s k = Ok k' /\ inv k' /\ intr_context k' = false.
Proof.
  intros Hinv Hc Hx Hid. rw /sema_down Hc /=.
  apply (sema_down_body_ok (set_intr false k) s _ x); try done. by apply (inv_same k).
Qed.

(** ** Waking a thread up *)

(** A blocked thread that leaves its wait list, or the head of the sleep list,
    goes to the end of the run queue. *)
Lemma wake_inv k k' a :
  inv k -> stat k a = Some THREAD_BLOCKED -> idle_thread k <> Some a -> current k' = current k ->
  restat a THREAD_READY k k' ->
  (forall b t, threads k' !! b = Some t -> exists u, threads k !! b = Some u /\ magic t = magic u /\ todo t = todo u) ->
  (forall b, alarm k' b = alarm k b) ->
  idle_thread k' = idle_thread k -> ready_list k' = ready_list k ++ [a] ->
  (forall b, b ∈ sleep_list k' -> b ∈ sleep_list k /\ b <> a) -> NoDup (sleep_list k') ->
  StronglySorted (fun x y => alarm k x <= alarm k y) (sleep_list k') ->
  (forall s b, waits k' s b -> waits k s b /\ b <> a) ->
  (forall s x, semas k' !! s = Some x -> NoDup (waiters x)) ->
  inv k'.
Proof.
  intros Hinv Ha Hid Hcur Hst Hth Hal Hidle Hr Hsl Hsn Hso Hw Hwn. have [Q Hf Hc Hrun] := Hinv.
  have Hca : current k <> a by intros <-; congruence.
  have Hne : forall b, b <> a -> stat k' b = stat k b by intros b Hb; rw Hst decide_False.
  have Har : a ∉ ready_list k by intros H%(q_ready _ Q); congruence.
  split.
  - split; try done.
    + intros b t (u & Hu & -> & _)%Hth. exact (q_magic _ Q _ _ Hu).
    + intros b. rw Hr elem_of_app list_elem_of_singleton Hst. case_decide as Hb; [done|].
      intros [?|?]; [|done]. by apply (q_ready _ Q).
    + rw Hr. apply NoDup_app. split_and!; [apply (q_ready_nd _ Q)| |apply NoDup_singleton].
      by intros b Hb ->%list_elem_of_singleton.
    + intros b. rw Hst Hidle Hr elem_of_app list_elem_of_singleton. case_decide; [by right|].
      intros H1 H2. left. by apply (q_ready_all _ Q).
    + intros b [Hb Hba]%Hsl. rw Hne //. by apply (q_sleep _ Q).
    + apply (sorted_alarm k); done.
    + intros s b [Hb Hba]%Hw. rw Hne //. by apply (q_wait _ Q s).
    + intros s s' b [? _]%Hw [? _]%Hw. by apply (q_wait_one _ Q _ _ b).
    + intros s b [? _]%Hsl [? _]%Hw. by apply (q_sleep_wait _ Q s b).
    + have [i [I1 [I2 [I3 [I4 [I5 I6]]]]]] := q_idle _ Q. have Hia : i <> a by congruence.
      exists i. rw Hidle Hr Hne //. split_and!; try done.
      * rw elem_of_app list_elem_of_singleton. tauto.
      * by intros [? _]%Hsl.
      * by intros s [?%I6 _]%Hw.
  - intros i t fr. rw Hidle. intros H1 (u & H2 & _ & ->)%Hth H3. by apply (Hf i u).
  - rw Hcur Hne //.
  - intros b. rw Hst Hcur. case_decide; [done|apply Hrun].
Qed.

Lemma sema_up_ok k s x :
  inv k -> semas k !! s = Some x -> exists k', sema_up s k = Ok k' /\ inv k' /\ intr_context k' = intr_context k /\
    intr_level k' = intr_level k /\ current k' = current k /\ idle_thread k' = idle_thread k /\
    (forall s0, is_Some (semas k !! s0) -> is_Some (semas k' !! s0)).
Proof.
  intros Hinv Hx. rw /sema_up /get_sema Hx /=. destruct (waiters x) as [|a l] eqn:Ew.
  { eexists. split; [done|]. split_and!; try done.
    - rw -Ew. exact (put_sema_value k s x _ Hinv Hx).
    - intros s0 [y Hy]. rw /= lookup_insert_is_Some'. by right. }
  have [Q Hf Hc Hr] := Hinv.
  have Hwa : waits k s a by exists x; rw Ew; split; [done|apply list_elem_of_here].
  have Ha := q_wait _ Q _ _ Hwa. have [t [Ht Hs]] := stat_lookup _ _ _ Ha.
  have Hnd := q_wait_nd _ Q _ _ Hx. rw Ew in Hnd. apply NoDup_cons in Hnd as [Hal Hnd].
  rw /thread_unblock /is_thread /= Ht (q_magic _ Q _ _ Ht) Z.eqb_refl /= Hs bool_decide_eq_true_2 //=.
  rw /upd /= Ht /=. rw lookup_insert_eq /=. eexists. split; [done|].
  have Hidle : idle_thread k <> Some a.
  { have [i [I1 [_ [_ [_ [_ I6]]]]]] := q_idle _ Q. rw I1. intros [= ->]. by apply (I6 s). }
  split_and!; try done.
  - apply (wake_inv k _ a); try done.
    + intros b. exact (stat_insert k a (set_status THREAD_READY t) b).
    + intros b u. rw /= lookup_insert. case_decide as Hb; [subst; intros [= <-]; by exists t|by exists u].
    + intros b. etrans; [exact (alarm_insert k a (set_status THREAD_READY t) b)|].
      case_decide; [subst; by rw /alarm Ht|done].
    + intros b Hb. split; [done|]. intros ->. by apply (q_sleep_wait _ Q s a).
    + apply (q_sleep_nd _ Q).
    + apply (q_sorted _ Q).
    + intros s0 b (y & Hy & Hb). simpl in Hy. rw insert_insert_eq in Hy. destruct (decide (s0 = s)) as [->|Hss].
      * rw lookup_insert_eq in Hy. simplify_eq/=. split; [exists x; rw Ew; split; [done|by apply list_elem_of_further]|].
        by intros ->.
      * rw lookup_insert_ne // in Hy. split; [by exists y|]. intros ->. apply Hss.
        apply (q_wait_one _ Q s0 s a); [by exists y|done].
    + intros s0 y. rw /= insert_insert_eq lookup_insert. case_decide; [by intros [= <-]|apply (q_wait_nd _ Q)].
  - intros s0 [y Hy]. rw /= !lookup_insert_is_Some'. by right; right.
Qed.

(** ** The alarm clock *)

(** What waking sleepers does not change. *)
Record woken (k k' : kernel) : Prop := {
  wk_alarm : forall a, alarm k' a = alarm k a;
  wk_ticks : ticks k' = ticks k;
  wk_semas : semas k' = semas k;
  wk_locks : locks k' = locks k;
  wk_conds : conds k' = conds k;
  wk_current : current k' = current k;
  wk_idle : idle_thread k' = idle_thread k;
  wk_intr : intr_level k' = intr_level k;
  wk_context : intr_context k' = intr_context k;
  wk_yield : yield_on_return k' = yield_on_return k;
  wk_todo : forall a, todo <$> threads k' !! a = todo <$> threads k !! a }.

Lemma woken_refl k : woken k k.
Proof. by split. Qed.
Lemma woken_trans k1 k2 k3 : woken k1 k2 -> woken k2 k3 -> woken k1 k3.
Proof. intros [] []. split; try congruence; intros a; congruence. Qed.

Lemma thread_awake_ok k a l :
  inv k -> sleep_list k = a :: l ->
  exists k', thread_awake k = Ok k' /\ inv k' /\ woken k k' /\ sleep_list k' = l /\ ready_list k' = ready_list k ++ [a].
Proof.
  intros Hinv Hsl. have [Q Hf Hc Hr] := Hinv.
  have Hin : a ∈ sleep_list k by rw Hsl; apply list_elem_of_here.
  have Ha := q_sleep _ Q a Hin. have [t [Ht Hs]] := stat_lookup _ _ _ Ha.
  rw /thread_awake /is_sleep_list_empty Hsl /= /is_thread /= Ht (q_magic _ Q _ _ Ht) Z.eqb_refl /=.
  rw Hs bool_decide_eq_true_2 //= /upd /= Ht /=. eexists. split; [done|].
  have Hnd := q_sleep_nd _ Q. rw Hsl in Hnd. apply NoDup_cons in Hnd as [Hal Hnd].
  have Halarm : forall b, alarm (set_threads (<[a := set_status THREAD_READY t]> (threads k)) k) b = alarm k b.
  { intros b. rw alarm_insert. case_decide; [subst; by rw /alarm Ht|done]. }
  have Hidle : idle_thread k <> Some a.
  { have [i [I1 [_ [_ [_ [I5 _]]]]]] := q_idle _ Q. rw I1. by intros [= ->]. }
  split_and!; try done.
  - apply (wake_inv k _ a); try done.
    + intros b. exact (stat_insert k a (set_status THREAD_READY t) b).
    + intros b u. rw /= lookup_insert. case_decide as Hb; [subst; intros [= <-]; by exists t|by exists u].
    + intros b Hb. split; [rw Hsl; by apply list_elem_of_further|]. by intros ->.
    + have := q_sorted _ Q. rw Hsl. by inversion 1.
    + intros s b Hb. split; [done|]. intros ->. by apply (q_sleep_wait _ Q s a).
    + apply (q_wait_nd _ Q).
  - split; try done. intros b. rw /= lookup_insert. case_decide; [subst; by rw Ht|done].
Qed.

Lemma sorted_filter_head k a l (P : Z -> Prop) `{!forall x, Decision (P x)} :
  StronglySorted (fun x y => alarm k x <= alarm k y) (a :: l) ->
  (forall x y, alarm k x <= alarm k y -> P x -> P y) -> P a -> filter P (a :: l) = a :: l.
Proof.
  intros Hs HP Ha. apply filter_Forall_true. inversion Hs as [|? ? ? Hf]; subst. constructor; [done|].
  eapply Forall_impl; [done|]. simpl. intros x Hx. by apply (HP a).
Qed.

Lemma awake_loop_ok fuel k :
  inv k -> (List.length (sleep_list k) <= fuel)%nat ->
  exists k', awake_loop fuel k = Ok k' /\ inv k' /\ woken k k' /\
    sleep_list k' = filter (fun a => ticks k < alarm k a) (sleep_list k) /\
    ready_list k' = ready_list k ++ filter (fun a => alarm k a <= ticks k) (sleep_list k).
Proof.
  revert k. induction fuel as [|fuel IH]; intros k Hinv Hl.
  all: destruct (sleep_list k) as [|a l] eqn:Hsl.
  1, 3: exists k; rw /awake_loop /is_sleep_list_empty Hsl /= app_nil_r; by split_and!.
  { simpl in Hl. lia. }
  have Q := i_queues _ Hinv. have Hso := q_sorted _ Q. rw Hsl in Hso.
  have [t [Ht Hs]] : exists t, threads k !! a = Some t /\ status t = THREAD_BLOCKED.
  { apply stat_lookup, (q_sleep _ Q). rw Hsl. apply list_elem_of_here. }
  have Hta : alarm_ticks t = alarm k a by rw /alarm Ht.
  rw /awake_loop -/awake_loop /thread_slept_first /is_sleep_list_empty Hsl /= Ht /= Hta.
  destruct (Z.leb_spec (alarm k a) (ticks k)) as [Hle|Hgt].
  - destruct (thread_awake_ok k a l Hinv Hsl) as (k1 & -> & Hinv1 & Hw1 & Hs1 & Hr1). simpl.
    destruct (IH k1 Hinv1) as (k' & -> & Hinv' & Hw' & Hs' & Hr'); [rw Hs1; simpl in Hl; lia|].
    exists k'. split_and!; try done.
    + by eapply woken_trans.
    + rw Hs' Hs1 filter_cons_False; [lia|]. apply list_filter_iff. intros x. by rw (wk_alarm _ _ Hw1) (wk_ticks _ _ Hw1).
    + rw Hr' Hs1 Hr1 filter_cons_True // -app_assoc /=. do 2 f_equal.
      apply list_filter_iff. intros x. by rw (wk_alarm _ _ Hw1) (wk_ticks _ _ Hw1).
  - exists k. split_and!; try done.
    + rw Hsl. symmetry. apply (sorted_filter_head k); [done|intros; lia|lia].
    + rw filter_Forall_false ?app_nil_r //. inversion Hso as [|? ? ? Hf]; subst. constructor; [lia|].
      eapply Forall_impl; [done|]. simpl. intros; lia.
Qed.

Lemma thread_tick_ok k :
  inv k -> exists k', thread_tick k = Ok k' /\ inv k' /\ threads k' = threads k /\ ready_list k' = ready_list k /\
    sleep_list k' = sleep_list k /\ ticks k' = ticks k /\ semas k' = semas k /\ current k' = current k /\
    idle_thread k' = idle_thread k /\ intr_level k' = intr_level k /\ intr_context k' = intr_context k /\
    locks k' = locks k /\ conds k' = conds k.
Proof.
  intros Hinv. have [t [Ht Hs]] := stat_lookup _ _ _ (i_current _ Hinv).
  rw /thread_tick thread_current_inv //= Ht /=. eexists. split; [done|]. split_and!; try done.
  by apply (inv_same k).
Qed.

(** A timer tick: the sleepers whose time has come move, in the order of their
    alarms, to the end of the run queue; the others stay. *)
Lemma timer_interrupt_ok k :
  inv k ->
  exists k', timer_interrupt k = Ok k' /\ inv k' /\ ticks k' = s64 (ticks k + 1) /\
    sleep_list k' = filter (fun a => s64 (ticks k + 1) < alarm k a) (sleep_list k) /\
    ready_list k' = ready_list k ++ filter (fun a => alarm k a <= s64 (ticks k + 1)) (sleep_list k) /\
    intr_context k' = intr_context k /\ current k' = current k /\ idle_thread k' = idle_thread k /\
    intr_level k' = intr_level k /\ (forall a, alarm k' a = alarm k a).
Proof.
  intros Hinv. rw /timer_interrupt. set k0 := set_ticks _ k.
  have Hinv0 : inv k0 by apply (inv_same k).
  destruct (thread_tick_ok k0 Hinv0) as (k1 & -> & Hinv1 & T1 & T2 & T3 & T4 & T5 & T6 & T7 & T8 & T9 & T10 & T11).
  simpl. destruct (awake_loop_ok (List.length (sleep_list k1)) k1 Hinv1) as (k' & -> & Hinv' & Hw & Hs & Hr); [done|].
  have Hal : forall a, alarm k1 a = alarm k a by intros a; rw /alarm T1.
  exists k'. destruct Hw as [W1 W2 W3 W4 W5 W6 W7 W8 W9 W10]. split_and!; try done.
  - by rw W2 T4.
  - rw Hs T3. apply list_filter_iff. intros x. by rw Hal T4.
  - rw Hr T2 T3. f_equal. apply list_filter_iff. intros x. by rw Hal T4.
  - by rw W9 T9.
  - by rw W6 T6.
  - by rw W7 T7.
  - by rw W8 T8.
  - intros a. by rw W1 Hal.
Qed.

Lemma intr_handler_ok k :
  inv k -> intr_context k = false ->
  exists k', intr_handler k = Ok k' /\ inv k' /\ intr_context k' = false.
Proof.
  intros Hinv Hx. rw /intr_handler /= Hx /=. set k0 := set_context _ _ _.
  have Hinv0 : inv k0 by apply (inv_same k).
  destruct (timer_interrupt_ok k0 Hinv0) as (k1 & -> & Hinv1 & _). simpl.
  set k2 := set_context false _ k1. have Hinv2 : inv k2 by apply (inv_same k1).
  destruct (yield_on_return k1).
  - destruct (push_ok k2 (F_intr true) Hinv2) as (t & Ht & -> & Hinv3); [done|]. simpl.
    by apply thread_yield_ok.
  - eexists. split; [done|]. split; [|done]. by apply (inv_same k2).
Qed.

(** ** Results of successful runs

    [good k]: the invariant, outside interrupt context; [busy k]: and a thread
    other than the idle thread has the processor. *)
Definition good (k : kernel) : Prop := inv k /\ intr_context k = false.
Definition busy (k : kernel) : Prop := good k /\ idle_thread k <> Some (current k).

Lemma push_good fr k k' : busy k -> push fr k = Ok k' ->
  busy k' /\ intr_level k' = intr_level k /\ semas k' = semas k /\ locks k' = locks k /\ conds k' = conds k /\
  current k' = current k.
Proof.
  intros [[Hinv Hx] Hid] Hp. destruct (push_ok k fr Hinv) as (t & Ht & Hp' & Hinv'); [by intros ?%Hid|].
  rw Hp in Hp'. injection Hp' as ->. by split_and!.
Qed.

Lemma sema_down_body_good s old k k' : busy k -> sema_down_body s old k = Ok k' -> good k'.
Proof.
  intros [[Hinv Hx] Hid] H. destruct (semas k !! s) as [x|] eqn:Es; [|by rw /sema_down_body /get_sema Es in H].
  destruct (intr_level k) eqn:Hi.
  - rw /sema_down_body /get_sema Es /= in H. destruct (Z.eqb_spec (value x) 0).
    + apply obind_Ok_inv in H as (cur & _ & H). apply obind_Ok_inv in H as (k1 & Hp & H).
      rw /push /upd /= in Hp. destruct (threads k !! current k) as [t|]; [|done]. injection Hp as <-.
      rw /thread_block /= Hx /= Hi in H. done.
    + injection H as <-. split; [|done].
      by apply (inv_same (put_sema s (mk_sema (value x - 1) (waiters x)) k)); [..|apply put_sema_value].
  - destruct (sema_down_body_ok k s old x) as (k1 & H1 & Hi1 & Hc1); try done. by rw H in H1; simplify_eq.
Qed.

Lemma sema_down_good s k k' : busy k -> sema_down s k = Ok k' -> good k'.
Proof.
  intros [[Hinv Hx] Hid]. rw /sema_down Hx /=. apply sema_down_body_good.
  split; [split|]; try done. by apply (inv_same k).
Qed.

Lemma sema_up_good s k k' : good k -> sema_up s k = Ok k' ->
  good k' /\ current k' = current k /\ idle_thread k' = idle_thread k.
Proof.
  intros [Hinv Hx] H. destruct (semas k !! s) as [x|] eqn:Es; [|by rw /sema_up /get_sema Es in H].
  destruct (sema_up_ok k s x) as (k1 & H1 & H2 & H3 & H4 & H5 & H6 & _); try done.
  rw H in H1. simplify_eq. split_and!; try done. split; [done|congruence].
Qed.

Lemma put_lock_busy l x k : busy k -> busy (put_lock l x k).
Proof. intros [[Hinv Hx] Hid]. split; [split|]; try done. by apply (inv_same k). Qed.

Lemma held_pure l k b : lock_held_by_current_thread l k = Ok b -> is_Some (locks k !! l).
Proof. rw /lock_held_by_current_thread /get_lock. by destruct (locks k !! l). Qed.

Lemma lock_acquire_good l k k' : busy k -> lock_acquire l k = Ok k' -> good k'.
Proof.
  intros Hb. rw /lock_acquire. intros H. inv_ok.
  match goal with Hp : push _ _ = Ok ?k1 |- _ => destruct (push_good _ _ _ Hb Hp) as [Hb1 _]; eapply sema_down_good end; done.
Qed.

Lemma lock_release_good l k k' : busy k -> lock_release l k = Ok k' -> good k' /\ current k' = current k.
Proof.
  intros Hb. rw /lock_release. intros H. inv_ok.
  match goal with Hp : push _ (put_lock _ ?x _) = Ok _ |- _ =>
    destruct (push_good _ _ _ (put_lock_busy l x k Hb) Hp) as [[Hb1 _] (_ & _ & _ & _ & Hc)] end. done.
Qed.

Lemma cond_signal_good c l k k' : busy k -> cond_signal c l k = Ok k' -> busy k'.
Proof.
  intros [[Hinv Hx] Hid]. rw /cond_signal. intros H. inv_ok.
  match type of H with (match ?ws with _ => _ end) = _ => destruct ws end; [by simplify_eq|].
  set k1 := set_conds _ k in H. have Hg : good k1 by split; [apply (inv_same k)|].
  destruct (sema_up_good _ _ _ Hg H) as ([??] & Hc & Hi). split; [done|]. rw Hi Hc. done.
Qed.

Lemma cond_broadcast_good c l k k' : busy k -> cond_broadcast c l k = Ok k' -> good k'.
Proof.
  intros Hb. rw /cond_broadcast. intros H. inv_ok.
  match type of H with (match ?ws with _ => _ end) = _ => destruct ws end; [simplify_eq; apply Hb|].
  inv_ok. match goal with Hs : cond_signal _ _ _ = Ok _ |- _ => have Hb1 := cond_signal_good _ _ _ _ Hb Hs end.
  by destruct (push_good _ _ _ Hb1 H) as [[? _] _].
Qed.

Lemma cond_wait_good c l w k k' :
  busy k -> (forall x, semas k !! w = Some x -> waiters x = []) -> cond_wait c l w k = Ok k' -> good k'.
Proof.
  intros [[Hinv Hx] Hid] Hw. rw /cond_wait. intros H. inv_ok.
  match goal with Hp : push _ ?k1 = Ok _ |- _ => have Hb1 : busy k1; [|destruct (push_good _ _ _ Hb1 Hp) as [Hb2 _]] end.
  - split; [split|]; try done. apply (inv_same (sema_init w 0 k)); try done. by apply sema_init_inv.
  - by destruct (lock_release_good _ _ _ Hb2 H) as [? _].
Qed.

(** Updating a field of a thread that no queue looks at. *)
Lemma upd_good a f k k' :
  good k -> (forall t, status (f t) = status t /\ magic (f t) = magic t /\ alarm_ticks (f t) = alarm_ticks t) ->
  (forall t, todo (f t) = todo t \/ (idle_thread k <> Some a)) ->
  upd a f k = Ok k' -> good k' /\ current k' = current k /\ idle_thread k' = idle_thread k.
Proof.
  intros [Hinv Hx] Hf Htd H. rw /upd in H. destruct (threads k !! a) as [t|] eqn:Ht; [|done]. injection H as <-.
  split_and!; try done. split; [|done]. have [Q Hfr Hc Hr] := Hinv.
  have Hv : forall b, view (set_threads (<[a := f t]> (threads k)) k) b = view k b.
  { intros b. rw /view /= lookup_insert. case_decide; [subst|done].
    destruct (Hf t) as (H1 & H2 & H3). by rw Ht /= H1 H2 H3. }
  split.
  - by apply (queues_ext k).
  - intros i u fr Hi. rw /= lookup_insert. case_decide as Hai; [|by apply Hfr]. subst a.
    intros [= <-]. destruct (Htd t) as [->|]; [by apply (Hfr i t)|done].
  - by rw (view_stat _ _ _ (Hv _)).
  - intros b. rw (view_stat _ _ _ (Hv b)). apply Hr.
Qed.

Lemma thread_exit_good k k' : busy k -> thread_exit k = Ok k' -> good k'.
Proof.
  intros Hb H. rw /thread_exit in H. apply obind_Ok_inv in H as (? & _ & H). by destruct (push_good _ _ _ Hb H) as [[? _] _].
Qed.
Lemma thread_exit_up_good k k' : busy k -> thread_exit_up k = Ok k' -> good k'.
Proof.
  intros [Hg Hid]. rw /thread_exit_up (thread_current_inv k (proj1 Hg)). cbn [obind]. intros H.
  apply obind_Ok_inv in H as (t & _ & H). destruct (child_list t) as [|a l]; apply obind_Ok_inv in H as (k1 & H1 & H).
  - have Hb : busy k by split. destruct (push_good _ _ _ Hb H1) as [[Hg1 _] _]. by destruct (sema_up_good _ _ _ Hg1 H) as [? _].
  - apply obind_Ok_inv in H as (k2 & H2 & H). destruct (upd_good (current k) (set_children l) k k1 Hg ltac:(done) ltac:(by left) H1) as (Hg1 & Hc1 & Hi1).
    have Hb : busy k1 by split; [done|rw Hi1 Hc1]. destruct (push_good _ _ _ Hb H2) as [[Hg2 _] _]. by destruct (sema_up_good _ _ _ Hg2 H) as [? _].
Qed.

Lemma thread_exit_end_good k k' : busy k -> thread_exit_end k = Ok k' -> good k'.
Proof.
  intros [[Hinv Hx] Hid]. rw /thread_exit_end. set k0 := set_intr false k.
  have Hinv0 : inv k0 by apply (inv_same k). rw thread_current_inv //=.
  set k1 := set_all _ k0. have Hinv1 : inv k1 by apply (inv_same k0).
  have [t [Ht [-> [H1 [H2 [H3 H4]]]]]] := restat_current k1 THREAD_DYING Hinv1. simpl.
  set kd := set_threads _ k1. have [Q _ _ _] := Hinv1.
  have Hd : descheduled kd.
  { apply (requeue k1 kd THREAD_DYING 0); try done.
    - intros a. split; [by left|]. intros [?|(_ & ? & _)]; done.
    - apply (q_ready_nd _ Q).
    - by left.
    - apply (q_sleep_nd _ Q).
    - apply (sorted_alarm _ _ _ H4 (q_sorted _ Q)).
    - by left.
    - apply (q_wait_nd _ Q).
    - intros ? s0. apply (current_free k1 Hinv1). }
  destruct (schedule_ok kd Hd eq_refl) as (k2 & -> & Hinv' & Hsw). intros [= <-]. split; [done|].
  by rw (sw_context _ _ Hsw).
Qed.

Lemma pop_good k o k' :
  good k -> pop k = Ok (o, k') ->
  good k' /\ current k' = current k /\ idle_thread k' = idle_thread k /\ intr_level k' = intr_level k /\
  (forall fr, o = Some fr -> idle_thread k = Some (current k) -> idle_frame fr = true).
Proof.
  intros [Hinv Hx] H. rw /pop in H. have [t [Ht _]] := stat_lookup _ _ _ (i_current _ Hinv). rw Ht /= in H.
  destruct (todo t) as [|fr fs] eqn:Etd; [by simplify_eq|]. rw /upd Ht /= in H. injection H as <- <-.
  have [Q Hf Hc Hr] := Hinv. set k1 := set_threads _ k.
  have Hv : forall b, view k1 b = view k b.
  { intros b. rw /view /k1 /= lookup_insert. case_decide; [subst; by rw Ht|done]. }
  split_and!; try done.
  - split; [|done]. split.
    + by apply (queues_ext k).
    + intros i u fr' Hi. rw /k1 /= lookup_insert. case_decide as Hci; [|by apply Hf].
      intros [= <-] Hin. apply (Hf i t fr' Hi); [by rw -Hci|]. rw Etd. by apply list_elem_of_further.
    + change (current k1) with (current k). by rw (view_stat _ _ _ (Hv _)).
    + intros b. rw (view_stat _ _ _ (Hv b)). apply Hr.
  - intros fr' [= <-] Hid. apply (Hf _ t fr Hid Ht). rw Etd. apply list_elem_of_here.
Qed.

Lemma set_intr_good b k : good k -> good (set_intr b k).
Proof. intros [Hinv Hx]. split; [by apply (inv_same k)|done]. Qed.

Lemma run_frame_good fr k k' :
  good k -> (idle_thread k = Some (current k) -> idle_frame fr = true) ->
  run_frame fr k = Ok k' -> good k'.
Proof.
  intros Hg Hid. have [Hinv Hx] := Hg.
  have Hb : idle_frame fr = false -> busy k by intros Hn; split; [done|]; intros Hc; rw (Hid Hc) in Hn.
  destruct fr; simpl; intros H.
  - injection H as <-. by apply set_intr_good.
  - have [Hinv0 Hx0] := set_intr_good true k Hg.
    destruct (push_ok (set_intr true k) F_block Hinv0) as (t & Ht & Hp & Hinv1); [done|]. rw Hp in H. by injection H as <-.
  - have [Hinv0 Hx0] := set_intr_good false k Hg.
    destruct (push_ok (set_intr false k) F_idle Hinv0) as (t & Ht & Hp & Hinv1); [done|].
    rw Hp /= in H. destruct (thread_block_ok _ Hinv1) as (k2 & H2 & ? & ?); [done|done|].
    rw H2 in H. by injection H as <-.
  - injection H as <-. by apply set_intr_good.
  - by apply sema_down_body_good in H; [|apply Hb].
  - rw /lock_set_holder in H. inv_ok. apply put_lock_busy. by apply Hb.
  - by destruct (sema_up_good _ _ _ Hg H) as [? _].
  - apply obind_Ok_inv in H as (k1 & H1 & H). destruct (push_good _ _ _ (Hb eq_refl) H1) as [Hb1 _].
    by apply sema_down_good in H.
  - by apply lock_acquire_good in H; [|apply Hb].
  - by apply cond_broadcast_good in H; [|apply Hb].
  - apply thread_exit_up_good in H; [done|by apply Hb].
  - rw thread_current_inv //= in H. apply obind_Ok_inv in H as (k1 & H1 & H).
    destruct (push_good _ _ _ (Hb eq_refl) H1) as [Hb1 _]. by apply sema_down_good in H.
  - by apply thread_exit_end_good in H; [|apply Hb].
Qed.

Lemma resume_good k k' : good k -> resume k = Ok k' -> good k'.
Proof.
  intros Hg H. rw /resume in H. apply obind_Ok_inv in H as ([o k1] & Hp & H).
  destruct (pop_good _ _ _ Hg Hp) as (Hg1 & Hc & Hi & _ & Hfr). destruct o as [fr|]; [|by injection H as <-].
  apply (run_frame_good fr k1 k' Hg1); [|done]. rw Hi Hc. by apply Hfr.
Qed.

Lemma exec_good c k k' : busy k -> call_ok c k -> intr_level k = true -> exec c k = Ok k' -> good k'.
Proof.
  intros Hb Hc Hi H. have [Hg Hid] := Hb. have [Hinv Hx] := Hg. destruct c; simpl in H.
  - by apply sema_down_good in H.
  - by destruct (sema_up_good _ _ _ Hg H) as [? _].
  - by apply lock_acquire_good in H.
  - by destruct (lock_release_good _ _ _ Hb H) as [? _].
  - rw /lock_try_acquire in H. apply obind_Ok_inv in H as ([b k1] & H1 & [= <-]). inv_ok.
    match goal with Ht : sema_try_down _ _ = Ok ?r |- _ => destruct r as [ok k2] end. simpl in *.
    have Hb2 : busy k2.
    { match goal with Ht : sema_try_down _ _ = Ok _ |- _ => rw /sema_try_down /get_sema in Ht;
        destruct (semas k !! _) as [x|] eqn:Ex; [|done]; simpl in Ht; destruct (0 <? value x); injection Ht as <- <- end; [|done].
      split; [split|]; try done. by apply put_sema_value. }
    destruct ok; inv_ok; [|apply Hb2].
    match goal with Hp : push _ _ = Ok _ |- _ => by destruct (push_good _ _ _ Hb2 Hp) as [[? _] _] end.
  - by apply cond_wait_good in H.
  - by destruct (cond_signal_good _ _ _ _ Hb H) as [? _].
  - by apply cond_broadcast_good in H.
  - destruct (thread_yield_ok k Hinv Hx) as (k1 & H1 & ? & ?). rw H in H1. by injection H1 as ->.
  - destruct (timer_sleep_ok k n Hinv Hx Hi Hid) as (k1 & H1 & ? & ? & _). rw H in H1. by injection H1 as ->.
  - by apply thread_exit_good in H.
Qed.

Lemma step_good k k' : good k -> step k k' -> good k'.
Proof.
  intros Hg. destruct 1 as [k k' _ H|c k k' _ Hi Hx Hid Hc H|k k' Hi H].
  - by apply (resume_good k).
  - by apply (exec_good c k).
  - have [Hinv Hx] := Hg. destruct (intr_handler_ok k Hinv Hx) as (k1 & H1 & ? & ?). rw H in H1. by injection H1 as ->.
Qed.

(** C2: the queue invariant holds in every reachable state, whatever the
    interleaving of threads and timer interrupts.  A thread is on the run queue
    exactly when it is READY (the idle thread apart), a thread on the sleep
    list or on a wait list is BLOCKED and on no other list, one thread is
    RUNNING and it is the current one, the sleep list is sorted by alarm, and
    the idle thread is on no list. *)
Theorem sched_invariant (k k' : kernel) :
  inv k -> intr_context k = false -> rtc step k k' -> inv k' /\ intr_context k' = false.
Proof.
  intros Hi Hx Hs. have Hg : good k by done. clear Hi Hx.
  induction Hs as [|k1 k2 k3 H12 _ IH]; [done|]. apply IH. by apply (step_good k1).
Qed.

(** [timer_sleep] takes the thread off the processor and leaves it on the
    sleep list with its alarm set [n] ticks ahead; nobody else's alarm or place
    on the list changes, and the invariant is kept. *)
Theorem timer_sleep_correct (k : kernel) (n : Z) :
  inv k -> intr_context k = false -> intr_level k = true -> idle_thread k <> Some (current k) ->
  exists k', timer_sleep n k = Ok k' /\ inv k' /\ ticks k' = ticks k /\
    (forall a, a ∈ sleep_list k' <-> a = current k \/ a ∈ sleep_list k) /\
    alarm k' (current k) = s64 (ticks k + n) /\
    (forall a, a ∈ sleep_list k -> alarm k' a = alarm k a).
Proof.
  intros Hinv Hx Hi Hid. destruct (timer_sleep_ok k n Hinv Hx Hi Hid) as (k' & H1 & H2 & _ & H3 & H4 & H5 & H6).
  by exists k'.
Qed.

(** A timer interrupt wakes exactly the sleepers whose alarm has come:
    they move to the end of the run queue, in the order of their alarms; every
    other sleeper stays, and the loop that does it terminates. *)
Theorem timer_interrupt_wakes_due (k : kernel) :
  inv k ->
  exists k', timer_interrupt k = Ok k' /\ inv k' /\ ticks k' = s64 (ticks k + 1) /\
    sleep_list k' = filter (fun a => ticks k' < alarm k a) (sleep_list k) /\
    ready_list k' = ready_list k ++ filter (fun a => alarm k a <= ticks k') (sleep_list k).
Proof.
  intros Hinv. destruct (timer_interrupt_ok k Hinv) as (k' & H1 & H2 & H3 & H4 & H5 & _).
  exists k'. by rw H3.
Qed.

(** ** An example: two threads, the idle thread, a semaphore *)
Definition ex_th (st : thread_status) (al : Z) (fs : list frame) : thread :=
  mk_thread 1 st "t" 31 al [] None None None None [] 1 (-1) true THREAD_MAGIC fs.
Definition ex_sched : kernel :=
  mk_kernel (<[4096 := ex_th THREAD_RUNNING 0 []]> (<[8192 := ex_th THREAD_BLOCKED 0 [F_idle]]>
              (<[12288 := ex_th THREAD_BLOCKED 11 [F_intr true]]>
              (<[16384 := ex_th THREAD_BLOCKED 12 [F_intr true]]> ∅))))
    4096 [] [12288; 16384] [4096; 8192; 12288; 16384] (Some 8192) 4096 5 true false false 10 0 0 0 0
    {[1 := mk_sema 0 []]} ∅ ∅.

Lemma ex_sched_inv : inv ex_sched.
Proof.
  have Hst : forall a s, stat ex_sched a = Some s ->
    (a = 4096 /\ s = THREAD_RUNNING) \/ (a = 8192 /\ s = THREAD_BLOCKED) \/
    (a = 12288 /\ s = THREAD_BLOCKED) \/ (a = 16384 /\ s = THREAD_BLOCKED).
  { intros a s. rw /stat /ex_sched /= !lookup_insert. repeat case_decide; simpl; intros; simplify_eq; tauto. }
  have Hw : forall s a, ~ waits ex_sched s a.
  { intros s a (x & Hx & Ha). rw /ex_sched /= in Hx. apply lookup_singleton_Some in Hx as [_ <-].
    by apply not_elem_of_nil in Ha. }
  split.
  - split; try done; try (by intros *; intros ?%Hw).
    + intros a t. rw /ex_sched /= !lookup_insert. repeat case_decide; intros; by simplify_eq.
    + by intros a ?%not_elem_of_nil.
    + apply NoDup_nil_2.
    + intros a [[_ ?]|[[_ ?]|[[_ ?]|[_ ?]]]]%Hst; done.
    + intros a. simpl. rw !elem_of_cons elem_of_nil. by intros [->|[->|[]]].
    + apply NoDup_cons. split; [rw list_elem_of_singleton; done|apply NoDup_singleton].
    + repeat constructor. by vm_compute.
    + intros s x. rw /ex_sched /=. intros [_ <-]%lookup_singleton_Some. apply NoDup_nil_2.
    + exists 8192. split_and!; try done; [apply not_elem_of_nil|].
      simpl. rw !elem_of_cons elem_of_nil. intros [?|[?|[]]]; done.
  - intros i t fr [= <-] Ht. have -> : t = ex_th THREAD_BLOCKED 0 [F_idle].
    { change (threads ex_sched !! 8192 = Some t) in Ht. have He : threads ex_sched !! 8192 = Some (ex_th THREAD_BLOCKED 0 [F_idle]) by done. congruence. }
    simpl. rw list_elem_of_singleton. by intros ->.
  - done.
  - by intros a [[-> _]|[[_ ?]|[[_ ?]|[_ ?]]]]%Hst.
Qed.

(** The main thread waits on the semaphore: the idle thread gets the processor. *)
Lemma sched_invariant_witness :
  exists k', exec (Down 1) ex_sched = Ok k' /\ current k' = 8192 /\ inv k' /\ intr_context k' = false.
Proof.
  eexists. split; [vm_compute; reflexivity|]. split; [reflexivity|].
  apply (sched_invariant ex_sched _ ex_sched_inv eq_refl).
  apply rtc_once, (step_call (Down 1)); [done|done|done|done|done|]. vm_compute. reflexivity.
Defined.

Lemma timer_sleep_correct_witness :
  exists k', timer_sleep 7 ex_sched = Ok k' /\ inv k' /\ ticks k' = ticks ex_sched /\
    (forall a, a ∈ sleep_list k' <-> a = current ex_sched \/ a ∈ sleep_list ex_sched) /\
    alarm k' (current ex_sched) = s64 (ticks ex_sched + 7) /\
    (forall a, a ∈ sleep_list ex_sched -> alarm k' a = alarm ex_sched a).
Proof. exact (timer_sleep_correct ex_sched 7 ex_sched_inv eq_refl eq_refl ltac:(done)). Defined.

Lemma timer_interrupt_wakes_due_witness :
  filter (fun a => alarm ex_sched a <= 11) (sleep_list ex_sched) = [12288] /\
  exists k', timer_interrupt ex_sched = Ok k' /\ inv k' /\ ticks k' = s64 (ticks ex_sched + 1) /\
    sleep_list k' = filter (fun a => ticks k' < alarm ex_sched a) (sleep_list ex_sched) /\
    ready_list k' = ready_list ex_sched ++ filter (fun a => alarm ex_sched a <= ticks k') (sleep_list ex_sched).
Proof. split; [by vm_compute|]. exact (timer_interrupt_wakes_due ex_sched ex_sched_inv). Defined.
