(* ===== verification/Mutex.v ===== *)
(** * Locks give mutual exclusion

    The step relation of Sched.v, with any number of threads, timer interrupts
    and calls interleaved.  A lock's semaphore carries one token: it is in the
    semaphore, or the lock has a holder, or it is in the hands of a thread that
    is inside [lock_acquire] (between [sema_down] and the assignment of
    [holder]) or inside [lock_release] (between clearing [holder] and
    [sema_up]).  Counting these places over the frames of all threads gives one
    in every reachable state, so that a thread that gets the lock never takes it
    from a holder. *)
From S2P Require Import Prelude Thread Synch Timer Sched.

(** ** What a step does to frames, semaphores, locks and conditions *)
Definition stacks (k : kernel) : gmap Z (list frame * list Z) := (fun t => (todo t, child_list t)) <$> threads k.

Definition quiet (k k' : kernel) : Prop :=
  semas k' = semas k /\ locks k' = locks k /\ conds k' = conds k /\ stacks k' = stacks k.
(** The current thread has a new list of frames. *)
Definition restack (fs : list frame) (k k' : kernel) : Prop :=
  semas k' = semas k /\ locks k' = locks k /\ conds k' = conds k /\ current k' = current k /\
  exists old cs, stacks k !! current k = Some (old, cs) /\ stacks k' = <[current k := (fs, cs)]> (stacks k).

Lemma quiet_refl k : quiet k k.
Proof. by split_and!. Qed.
Lemma quiet_trans k1 k2 k3 : quiet k1 k2 -> quiet k2 k3 -> quiet k1 k3.
Proof. intros (A1 & A2 & A3 & A4) (B1 & B2 & B3 & B4). split_and!; congruence. Qed.

Lemma stacks_insert a t u k : threads k !! a = Some u -> todo t = todo u -> child_list t = child_list u ->
  stacks (set_threads (<[a := t]> (threads k)) k) = stacks k.
Proof.
  intros Hu Ht Hc. rewrite /stacks /= fmap_insert Ht Hc. apply insert_id. by rewrite lookup_fmap Hu.
Qed.
Lemma upd_quiet a f k k' : upd a f k = Ok k' -> (forall t, todo (f t) = todo t /\ child_list (f t) = child_list t) ->
  quiet k k' /\ current k' = current k.
Proof.
  rewrite /upd. intros Hu Hf. destruct (threads k !! a) as [t|] eqn:Ht; [|done]. cbn [oget obind] in Hu.
  injection Hu as <-. destruct (Hf t) as [H1 H2]. split; [|done].
  split_and!; try done. by apply (stacks_insert a _ t).
Qed.
Lemma push_restack fr k k' : push fr k = Ok k' -> exists fs cs, stacks k !! current k = Some (fs, cs) /\ restack (fr :: fs) k k'.
Proof.
  rewrite /push /upd. destruct (threads k !! current k) as [t|] eqn:Ht; [|done]. cbn [oget obind]. intros [= <-].
  have Hs : stacks k !! current k = Some (todo t, child_list t) by rewrite lookup_fmap Ht.
  exists (todo t), (child_list t). split; [done|]. split_and!; try done. eexists _, _. split; [done|]. by rewrite /stacks /= fmap_insert.
Qed.
Lemma pop_restack fr k k' : pop k = Ok (Some fr, k') -> exists fs cs, stacks k !! current k = Some (fr :: fs, cs) /\ restack fs k k'.
Proof.
  rewrite /pop. destruct (threads k !! current k) as [t|] eqn:Ht; [|done]. cbn [oget obind].
  have Hs : stacks k !! current k = Some (todo t, child_list t) by rewrite lookup_fmap Ht.
  destruct (todo t) as [|g fs] eqn:Hfs; [done|]. rewrite /upd Ht. cbn [oget obind]. intros [= <- <-].
  exists fs, (child_list t). split; [done|]. split_and!; try done. eexists _, _. split; [done|]. by rewrite /stacks /= fmap_insert.
Qed.

Lemma schedule_stacks k k' : schedule k = Ok k' ->
  semas k' = semas k /\ locks k' = locks k /\ conds k' = conds k /\
  (stacks k' = stacks k \/ (stacks k' = delete (current k) (stacks k) /\ stat k (current k) = Some THREAD_DYING)).
Proof.
  rewrite /schedule. destruct (next_thread_to_run k) as [next k1] eqn:Hn.
  have H1 : quiet k k1 /\ threads k1 = threads k.
  { rewrite /next_thread_to_run in Hn. destruct (ready_list k); injection Hn as <- <-; by split_and!. }
  destruct H1 as ((Hs & Hl & Hc & Hf) & Ht). intros Hk.
  apply obind_Ok_inv in Hk as (_ & _ & Hk). apply obind_Ok_inv in Hk as (t & Hcur & Hk). apply obind_Ok_inv in Hk as (_ & _ & Hk).
  apply obind_Ok_inv in Hk as (n & _ & Hk). apply obind_Ok_inv in Hk as (_ & _ & Hk). rewrite Ht in Hcur.
  have Htail : forall prev k2, threads k2 = threads k1 -> semas k2 = semas k1 -> locks k2 = locks k1 -> conds k2 = conds k1 ->
    (prev = None \/ (prev = Some (current k) /\ current k <> current k2)) -> thread_schedule_tail prev k2 = Ok k' ->
    semas k' = semas k /\ locks k' = locks k /\ conds k' = conds k /\
    (stacks k' = stacks k \/ (stacks k' = delete (current k) (stacks k) /\ stat k (current k) = Some THREAD_DYING)).
  { intros prev k2 E1 E2 E3 E4 Hprev Hk2. rewrite /thread_schedule_tail in Hk2.
    apply obind_Ok_inv in Hk2 as (_ & _ & Hk2). apply obind_Ok_inv in Hk2 as (k3 & Hu & Hk2).
    have Hst : stat k3 (current k) = stat k (current k) \/ current k = current k2.
    { destruct (decide (current k = current k2)) as [?|Hne]; [by right|left]. rewrite /upd in Hu.
      destruct (threads k2 !! current k2) as [u|]; [|done]. injection Hu as <-. by rewrite stat_insert decide_False // /stat E1 Ht. }
    apply upd_quiet in Hu as ((F1 & F2 & F3 & F4) & _); [|done].
    have Hst2 : stacks k2 = stacks k by rewrite /stacks E1 -/(stacks k1) Hf. destruct prev as [p|].
    - destruct Hprev as [?|[[= ->] Hne]]; [done|]. apply obind_Ok_inv in Hk2 as (u & Hu & Hk2).
      destruct (bool_decide _ && _) eqn:Hd.
      + apply obind_Ok_inv in Hk2 as (_ & _ & Hk2). injection Hk2 as <-. apply andb_true_iff in Hd as [Hd%bool_decide_eq_true _].
        split_and!; [simpl; congruence..|]. right. split; [by rewrite /stacks /= fmap_delete -/(stacks k3) F4 Hst2|].
        destruct Hst as [<- | ?]; [|done]. rewrite /stat. destruct (threads k3 !! current k) as [v|] eqn:Hv; [|by rewrite /= Hv in Hu].
        rewrite /= Hv in Hu. injection Hu as ->. by rewrite /= Hd.
      + injection Hk2 as <-. split_and!; [simpl; congruence..|]. left. by rewrite -Hst2 -F4.
    - injection Hk2 as <-. split_and!; [simpl; congruence..|]. left. by rewrite -Hst2 -F4. }
  destruct (negb (current k =? n)) eqn:Hcn.
  - apply (Htail (Some (current k)) (set_current n k1)); try done. right. split; [done|]. simpl.
    apply negb_true_iff, Z.eqb_neq in Hcn. done.
  - apply (Htail None k1); try done. by left.
Qed.

(** After the status of the current thread was set to [s], not DYING. *)
Lemma schedule_quiet s k k1 k' : upd (current k) (set_status s) k = Ok k1 -> s <> THREAD_DYING -> 
  forall k2, threads k2 = threads k1 -> semas k2 = semas k1 -> locks k2 = locks k1 -> conds k2 = conds k1 -> current k2 = current k ->
  schedule k2 = Ok k' -> quiet k k'.
Proof.
  intros Hu Hs k2 E1 E2 E3 E4 E5 Hk. apply schedule_stacks in Hk as (F1 & F2 & F3 & F4).
  have Hst : stat k2 (current k) = Some s.
  { rewrite /upd in Hu. destruct (threads k !! current k) as [u|] eqn:Hcu; [|done]. injection Hu as <-.
    rewrite /stat E1 /= lookup_insert_eq. done. }
  apply upd_quiet in Hu as ((G1 & G2 & G3 & G4) & _); [|done].
  have G5 : stacks k2 = stacks k by rewrite /stacks E1 -/(stacks k1).
  rewrite E5 Hst in F4. destruct F4 as [F4|[_ [= ?]]]; [|done]. split_and!; congruence.
Qed.

Lemma thread_current_eq k a : thread_current k = Ok a -> a = current k.
Proof.
  rewrite /thread_current. intros H. apply obind_Ok_inv in H as (_ & _ & H). apply obind_Ok_inv in H as (t & _ & H).
  apply obind_Ok_inv in H as (_ & _ & H). by injection H.
Qed.
Lemma thread_block_quiet k k' : thread_block k = Ok k' -> quiet k k'.
Proof.
  rewrite /thread_block. intros H. apply obind_Ok_inv in H as (_ & _ & H). apply obind_Ok_inv in H as (_ & _ & H).
  apply obind_Ok_inv in H as (cur & ->%thread_current_eq & H). apply obind_Ok_inv in H as (k1 & Hu & H).
  have Hcur : current k1 = current k by apply upd_quiet in Hu as [_ ?].
  by apply (schedule_quiet THREAD_BLOCKED k k1 k' Hu ltac:(done) k1).
Qed.
Lemma thread_unblock_quiet a k k' : thread_unblock a k = Ok k' -> quiet k k' /\ current k' = current k.
Proof.
  rewrite /thread_unblock. intros H. apply obind_Ok_inv in H as (_ & _ & H). apply obind_Ok_inv in H as (t & _ & H).
  apply obind_Ok_inv in H as (_ & _ & H). by apply upd_quiet in H.
Qed.
Lemma thread_awake_quiet k k' : thread_awake k = Ok k' -> quiet k k' /\ current k' = current k.
Proof.
  rewrite /thread_awake. intros H. apply obind_Ok_inv in H as (_ & _ & H). apply obind_Ok_inv in H as (a & _ & H).
  apply obind_Ok_inv in H as (_ & _ & H). apply obind_Ok_inv in H as (t & _ & H).
  apply obind_Ok_inv in H as (_ & _ & H). by apply upd_quiet in H.
Qed.
(** Yielding and sleeping push a frame that restores the interrupt level. *)
Lemma thread_yield_effect k k' : thread_yield k = Ok k' ->
  exists k1, push (F_intr (intr_level k)) k = Ok k1 /\ quiet k1 k'.
Proof.
  rewrite /thread_yield. intros H. apply obind_Ok_inv in H as (cur & ->%thread_current_eq & H). apply obind_Ok_inv in H as (_ & _ & H).
  apply obind_Ok_inv in H as (k1 & Hp & H). exists k1. split; [done|].
  have Hc1 : current k1 = current k by apply push_restack in Hp as (fs & cs & _ & (_ & _ & _ & ? & _)).
  apply obind_Ok_inv in H as (k2 & Hu & H). rewrite -Hc1 in Hu.
  set k3 := if bool_decide _ then _ else _ in Hu.
  have H3 : quiet k1 k3 /\ current k3 = current k1 by rewrite /k3; destruct (bool_decide _).
  destruct H3 as [Hq3 Hc3]. rewrite -Hc3 in Hu. eapply quiet_trans; [exact Hq3|].
  apply (schedule_quiet THREAD_READY k3 k2 k' Hu ltac:(done) k2); try done. by apply upd_quiet in Hu as [_ ?].
Qed.
Lemma thread_sleep_effect k k' : thread_sleep k = Ok k' ->
  exists k1, push (F_intr (intr_level k)) k = Ok k1 /\ quiet k1 k'.
Proof.
  rewrite /thread_sleep. intros H. apply obind_Ok_inv in H as (_ & _ & H). apply obind_Ok_inv in H as (k1 & Hp & H). exists k1. split; [done|].
  apply obind_Ok_inv in H as (cur & Hcur%thread_current_eq & H). apply obind_Ok_inv in H as (k2 & Hu & H). subst cur.
  have Hq : quiet k1 (set_intr false k1) by done. eapply quiet_trans; [exact Hq|].
  eapply (schedule_quiet THREAD_BLOCKED (set_intr false k1) k2 k' Hu); [done| | | | | |exact H]; try done. by apply upd_quiet in Hu as [_ ?].
Qed.

Lemma timer_interrupt_quiet k k' : timer_interrupt k = Ok k' -> quiet k k' /\ current k' = current k.
Proof.
  rewrite /timer_interrupt. intros H. apply obind_Ok_inv in H as (k1 & Ht & H).
  have H1 : quiet k k1 /\ current k1 = current k.
  { rewrite /thread_tick in Ht. apply obind_Ok_inv in Ht as (c & _ & Ht). apply obind_Ok_inv in Ht as (t & _ & Ht). by injection Ht as <-. }
  have Hloop : forall n k1 k2, awake_loop n k1 = Ok k2 -> quiet k1 k2 /\ current k2 = current k1.
  { induction n as [|n IH]; intros j1 j2 Hj; cbn [awake_loop] in Hj.
    all: destruct (is_sleep_list_empty j1); [injection Hj as <-; by split; [apply quiet_refl|]|].
    all: apply obind_Ok_inv in Hj as (a & _ & Hj); apply obind_Ok_inv in Hj as (t & _ & Hj).
    all: destruct (alarm_ticks t <=? ticks j1); [|injection Hj as <-; by split; [apply quiet_refl|]].
    { done. }
    apply obind_Ok_inv in Hj as (j3 & Ha & Hj). apply thread_awake_quiet in Ha as [Hq Hc]. apply IH in Hj as [Hq' Hc'].
    split; [by eapply quiet_trans|congruence]. }
  apply Hloop in H as [Hq Hc]. destruct H1 as [Hq1 Hc1]. split; [by eapply quiet_trans|congruence].
Qed.

(** ** The token of a lock *)
Section token.
(** The lock, its semaphore, and the addresses of all threads: the semaphores
    inside a thread are not the lock's. *)
Context (l s : Z) (T : gset Z) (HT : forall a, a ∈ T -> wait_sema a <> s /\ exit_sema a <> s).

(** What a pending frame contributes. *)
Definition weight (fr : frame) : Z :=
  match fr with
  | F_holder l' => if l' =? l then 1 else 0
  | F_sema_up s' => if s' =? s then 1 else 0
  | F_sema_down s' _ => if s' =? s then -1 else 0
  | _ => 0
  end.
Definition weights (fs : list frame) : Z := foldr (fun fr n => weight fr + n) 0 fs.
Definition total (m : gmap Z (list frame * list Z)) : Z := map_fold (fun _ p n => weights p.1 + n) 0 m.

(** Waiting for the lock's semaphore is always part of [lock_acquire]; the
    frames of [thread_exit] are the last ones of a thread. *)
Fixpoint stack_ok (fs : list frame) : Prop :=
  match fs with
  | [] => True
  | F_sema_down s' _ :: r => (s' = s -> exists r', r = F_holder l :: r') /\ stack_ok r
  | F_cond_down w _ :: r => w <> s /\ stack_ok r
  | F_exit_up :: r => r = []
  | F_exit_down :: r => r = []
  | F_exit_end :: r => r = []
  | _ :: r => stack_ok r
  end.

Definition sema_value (m : gmap Z semaphore) : Z := match m !! s with Some x => value x | None => 0 end.
Definition held (m : gmap Z lock) : Z := match m !! l with Some x => if holder x then 1 else 0 | None => 0 end.

Record tokens (n : Z) (k : kernel) : Prop := {
  t_lock : exists x, locks k !! l = Some x /\ semaphore_of x = s;
  t_one : forall l' x, locks k !! l' = Some x -> semaphore_of x = s -> l' = l;
  t_sema : exists x, semas k !! s = Some x /\ 0 <= value x;
  t_count : sema_value (semas k) + held (locks k) + total (stacks k) = n;
  t_stack : forall a fs cs, stacks k !! a = Some (fs, cs) -> stack_ok fs /\ a ∈ T /\ forall c, c ∈ cs -> c ∈ T;
  t_cond : forall c ws, conds k !! c = Some ws -> s ∉ ws }.

Lemma weights_bound fs : stack_ok fs -> 0 <= weights fs /\ forall r, fs = F_holder l :: r -> 1 <= weights fs.
Proof.
  induction fs as [|fr fs IH]; [done|]. change (weights (fr :: fs)) with (weight fr + weights fs).
  destruct fr; cbn [weight stack_ok]; intros Hs.
  all: try (destruct (IH Hs) as [Hw _]; split; [lia|done]).
  all: try (subst fs; split; [done|done]).
  - destruct Hs as [Hd Hs]. destruct (IH Hs) as [Hw Hh]. split; [|done]. destruct (Z.eqb_spec s0 s) as [-> | Hne]; [|lia].
    destruct (Hd eq_refl) as (r' & Hr). specialize (Hh r' Hr). lia.
  - destruct (IH Hs) as [Hw _]. split.
    + destruct (l0 =? l); lia.
    + intros r [= -> ->]. rewrite Z.eqb_refl. lia.
  - destruct (IH Hs) as [Hw _]. split; [|done]. destruct (s0 =? s); lia.
  - destruct Hs as [_ Hs]. destruct (IH Hs) as [Hw _]. split; [lia|done].
Qed.

(** ** Counting over all threads *)
Lemma total_insert_new m a p : m !! a = None -> total (<[a := p]> m) = weights p.1 + total m.
Proof. intros Ha. rewrite /total map_fold_insert_L //. intros j1 j2 z1 z2 y _ _ _. lia. Qed.
Lemma total_lookup m a p : m !! a = Some p -> total m = weights p.1 + total (delete a m).
Proof. intros Ha. rewrite -{1}(insert_delete_id m a p Ha) total_insert_new // lookup_delete_eq //. Qed.
Lemma total_insert m a p q : m !! a = Some p -> total (<[a := q]> m) = total m - weights p.1 + weights q.1.
Proof.
  intros Ha. rewrite (total_lookup m a p Ha) -insert_delete_eq total_insert_new; [by rewrite lookup_delete_eq|]. lia.
Qed.
Lemma total_nonneg m : (forall a fs cs, m !! a = Some (fs, cs) -> stack_ok fs) -> 0 <= total m.
Proof.
  induction m as [|a p m Ha IH] using map_ind; intros Hm; [done|]. rewrite total_insert_new //.
  have Hp : 0 <= weights p.1.
  { destruct p as [fs cs]. apply weights_bound. apply (Hm a fs cs). by rewrite lookup_insert_eq. }
  have : 0 <= total m; [|lia]. apply IH. intros b fs cs Hb. apply (Hm b fs cs). rewrite lookup_insert_ne //. congruence.
Qed.

(** ** How the count moves *)
Lemma tokens_quiet n k k' : quiet k k' -> tokens n k -> tokens n k'.
Proof. intros (H1 & H2 & H3 & H4) [T1 T2 T3 T4 T5 T6]. split; rewrite ?H1 ?H2 ?H3 ?H4; done. Qed.

Lemma tokens_restack n k k' fs old cs : stacks k !! current k = Some (old, cs) -> restack fs k k' -> stack_ok fs ->
  tokens n k -> tokens (n - weights old + weights fs) k'.
Proof.
  intros Hold (H1 & H2 & H3 & H4 & old' & cs' & Hold' & H5) Hok [T1 T2 T3 T4 T5 T6].
  have Heq : Some (old, cs) = Some (old', cs') by congruence. injection Heq as <- <-.
  split; rewrite ?H1 ?H2 ?H3 ?H5; try done.
  - rewrite (total_insert _ _ (old, cs)) //=. lia.
  - intros a fs' cs'. destruct (decide (a = current k)) as [-> | Hne].
    + rewrite lookup_insert_eq. intros [= <- <-]. split; [done|]. by apply (T5 _ old).
    + rewrite lookup_insert_ne //. apply T5.
Qed.
Lemma tokens_push n fr k k' fs cs : push fr k = Ok k' -> stacks k !! current k = Some (fs, cs) ->
  (stack_ok fs -> stack_ok (fr :: fs)) -> tokens n k ->
  tokens (n + weight fr) k' /\ current k' = current k /\ stacks k' !! current k' = Some (fr :: fs, cs).
Proof.
  intros Hp Hs Hok Ht. apply push_restack in Hp as (fs' & cs' & Hs' & Hr). have Heq : Some (fs, cs) = Some (fs', cs') by congruence. injection Heq as <- <-.
  have Hr' := Hr. destruct Hr' as (_ & _ & _ & Hc & old & cs2 & Hold & Hst). have Heq : Some (fs, cs) = Some (old, cs2) by congruence. injection Heq as <- <-.
  split_and!; [|done|by rewrite Hc Hst lookup_insert_eq].
  have := tokens_restack n k k' (fr :: fs) fs cs Hs Hr. change (weights (fr :: fs)) with (weight fr + weights fs).
  have -> : n - weights fs + (weight fr + weights fs) = n + weight fr by lia. intros H. apply H; [|done]. apply Hok. by destruct (t_stack n k Ht _ fs cs Hs) as (? & _).
Qed.
(** Frames that have nothing to do with the token. *)
Lemma tokens_push_neutral n fr k k' : push fr k = Ok k' -> weight fr = 0 -> (forall fs, stack_ok fs -> stack_ok (fr :: fs)) ->
  tokens n k -> tokens n k' /\ current k' = current k.
Proof.
  intros Hp Hw Hok Ht. destruct (push_restack _ _ _ Hp) as (fs & cs & Hs & _).
  destruct (tokens_push n fr k k' fs cs Hp Hs (Hok fs) Ht) as (H1 & H2 & _). rewrite Hw Z.add_0_r in H1. done.
Qed.
Lemma tokens_pop n fr k k' : pop k = Ok (Some fr, k') -> tokens n k ->
  exists fs (cs : list Z), stacks k !! current k = Some (fr :: fs, cs) /\ stack_ok (fr :: fs) /\ current k ∈ T /\ (forall c, c ∈ cs -> c ∈ T) /\ current k' = current k /\ stacks k' !! current k' = Some (fs, cs) /\ (stack_ok fs -> tokens (n - weight fr) k') /\ semas k' = semas k /\ locks k' = locks k /\ conds k' = conds k.
Proof.
  intros Hp Ht. destruct (pop_restack _ _ _ Hp) as (fs & cs & Hs & Hr). exists fs, cs.
  destruct (t_stack n k Ht _ _ _ Hs) as (Hok & HcT & Hch). have Hr' := Hr.
  destruct Hr' as (E1 & E2 & E3 & Hc & old & cs2 & Hold & Hst). have Heq : Some (fr :: fs, cs) = Some (old, cs2) by congruence. injection Heq as <- <-.
  split_and!; try done; [by rewrite Hc Hst lookup_insert_eq|].
  intros Hfs. have := tokens_restack n k k' fs (fr :: fs) cs Hs Hr Hfs Ht. change (weights (fr :: fs)) with (weight fr + weights fs).
  by have -> : n - (weight fr + weights fs) + weights fs = n - weight fr by lia.
Qed.

(** Another semaphore. *)
Lemma tokens_put_sema n s' x k : s' <> s -> tokens n k -> tokens n (put_sema s' x k).
Proof.
  intros Hne [T1 T2 T3 T4 T5 T6]. split; try done; rewrite /put_sema /=.
  - by rewrite lookup_insert_ne.
  - by rewrite /sema_value lookup_insert_ne.
Qed.
(** The value of the lock's semaphore. *)
Lemma tokens_put_value n v ws k x : semas k !! s = Some x -> 0 <= v -> tokens n k -> tokens (n - value x + v) (put_sema s (mk_sema v ws) k).
Proof.
  intros Hx Hv [T1 T2 T3 T4 T5 T6]. split; try done; rewrite /put_sema /=.
  - rewrite lookup_insert_eq. eauto.
  - rewrite /sema_value lookup_insert_eq. rewrite /sema_value Hx in T4.
    change (stacks (set_semas _ k)) with (stacks k). simpl. lia.
Qed.

(** ** Semaphores *)
Lemma sema_down_body_other n s' b k k' : s' <> s -> sema_down_body s' b k = Ok k' -> tokens n k ->
  tokens n k' /\ locks k' = locks k.
Proof.
  intros Hne H Ht. rewrite /sema_down_body in H. apply obind_Ok_inv in H as (x & Hx & H). destruct (value x =? 0).
  - apply obind_Ok_inv in H as (cur & _ & H). apply obind_Ok_inv in H as (k1 & Hp & H).
    have Ht0 := tokens_put_sema n s' (mk_sema (value x) (waiters x ++ [cur])) k Hne Ht.
    have Hl1 : locks k1 = locks k by apply push_restack in Hp as (fs & cs & _ & (_ & -> & _)).
    apply (tokens_push_neutral n) in Hp as [Ht1 _]; [|by rewrite /= (proj2 (Z.eqb_neq s' s))|by simpl|done].
    apply thread_block_quiet in H. split; [by eapply tokens_quiet|]. destruct H as (_ & -> & _). done.
  - injection H as <-. split; [|done]. by apply (tokens_quiet n (put_sema s' (mk_sema (value x - 1) (waiters x)) k)), tokens_put_sema.
Qed.

(** Inside [lock_acquire], with the frame that will set the holder pushed. *)
Lemma sema_down_body_lock b k k' r cs : sema_down_body s b k = Ok k' -> stacks k !! current k = Some (F_holder l :: r, cs) ->
  tokens 2 k -> tokens 1 k' /\ locks k' = locks k.
Proof.
  intros H Hs Ht. rewrite /sema_down_body /get_sema in H. destruct (t_sema 2 k Ht) as (x & Hx & Hv). rewrite Hx in H.
  cbn [oget obind] in H. destruct (Z.eqb_spec (value x) 0) as [H0|H0].
  - apply obind_Ok_inv in H as (cur & _ & H). apply obind_Ok_inv in H as (k1 & Hp & H).
    have Ht0 := tokens_put_value 2 (value x) (waiters x ++ [cur]) k x Hx Hv Ht.
    have -> : 1 = 2 - value x + value x + weight (F_sema_down s b) by rewrite /= Z.eqb_refl; lia.
    have Hl1 : locks k1 = locks k by apply push_restack in Hp as (fs & cs' & _ & (_ & -> & _)).
    destruct (tokens_push (2 - value x + value x) _ _ _ (F_holder l :: r) cs Hp Hs) as (Ht1 & _); [simpl; eauto|done|].
    apply thread_block_quiet in H. split; [by eapply tokens_quiet|]. destruct H as (_ & -> & _). done.
  - injection H as <-. split; [|done]. have := tokens_put_value 2 (value x - 1) (waiters x) k x Hx ltac:(lia) Ht.
    have -> : 2 - value x + (value x - 1) = 1 by lia. by apply tokens_quiet.
Qed.

Lemma sema_up_other n s' k k' : s' <> s -> sema_up s' k = Ok k' -> tokens n k ->
  tokens n k' /\ locks k' = locks k /\ conds k' = conds k /\ stacks k' = stacks k /\ current k' = current k.
Proof.
  intros Hne H Ht. rewrite /sema_up in H. apply obind_Ok_inv in H as (x & Hx & H). destruct (waiters x) as [|a ws].
  - injection H as <-. split_and!; try done. by apply tokens_put_sema.
  - apply obind_Ok_inv in H as (k1 & Hu & H). apply thread_unblock_quiet in Hu as [Hq Hc]. apply obind_Ok_inv in H as (y & _ & H).
    injection H as <-. destruct (Hq) as (_ & Hl & Hcd & Hst). split_and!; try done.
    apply tokens_put_sema; [done|]. eapply tokens_quiet; [exact Hq|]. by apply tokens_put_sema.
Qed.

Lemma tokens_bounds n k : tokens n k -> 0 <= sema_value (semas k) /\ 0 <= held (locks k) <= 1 /\ 0 <= total (stacks k).
Proof.
  intros [_ _ (x & Hx & Hv) _ Hst _]. rewrite /sema_value Hx /held. split_and!; [done| | |].
  - destruct (locks k !! l) as [y|]; [|lia]. destruct (holder y); lia.
  - destruct (locks k !! l) as [y|]; [|lia]. destruct (holder y); lia.
  - apply total_nonneg. intros a fs cs Ha. by destruct (Hst a fs cs Ha) as (? & _).
Qed.

Lemma sema_up_lock k k' : sema_up s k = Ok k' -> tokens 0 k -> tokens 1 k' /\ locks k' = locks k.
Proof.
  intros H Ht. rewrite /sema_up /get_sema in H. destruct (t_sema 0 k Ht) as (x & Hx & Hv). rewrite Hx in H. cbn [oget obind] in H.
  have Hb := tokens_bounds 0 k Ht. have Hc := t_count 0 k Ht. rewrite /sema_value Hx in Hb Hc.
  have Hv0 : value x = 0 by lia. rewrite Hv0 in H. destruct (waiters x) as [|a ws].
  - injection H as <-. split; [|done]. have := tokens_put_value 0 1 [] k x Hx ltac:(lia) Ht. by rewrite Hv0.
  - apply obind_Ok_inv in H as (k1 & Hu & H). apply thread_unblock_quiet in Hu as [Hq _].
    have Ht1 := tokens_put_value 0 0 ws k x Hx ltac:(lia) Ht. rewrite Hv0 in Ht1.
    have Ht2 := tokens_quiet _ _ _ Hq Ht1. destruct (Hq) as (Hsm & Hl & _).
    have Hy : semas k1 !! s = Some (mk_sema 0 ws) by rewrite Hsm /= lookup_insert_eq.
    rewrite Hy in H. cbn [oget obind] in H. injection H as <-. split; [|done].
    by have := tokens_put_value _ 1 ws k1 _ Hy ltac:(lia) Ht2.
Qed.

(** ** Locks *)

(** The holder changes only when there was none, or when it is the running
    thread that lets go. *)
Definition excl (k k' : kernel) : Prop :=
  forall x, locks k !! l = Some x -> exists x', locks k' !! l = Some x' /\
    (holder x' = holder x \/ holder x = None \/ (holder x = Some (current k) /\ holder x' = None)).

Lemma excl_same k k' : locks k' = locks k -> excl k k'.
Proof. intros H x Hx. exists x. rewrite H. split; [done|by left]. Qed.

Lemma sema_down_intr n k : tokens n k -> tokens n (set_intr false k).
Proof. by apply tokens_quiet. Qed.

Lemma lock_acquire_ok l' k k' : lock_acquire l' k = Ok k' -> tokens 1 k -> tokens 1 k' /\ locks k' = locks k.
Proof.
  intros H Ht. rewrite /lock_acquire in H. apply obind_Ok_inv in H as (_ & _ & H). apply obind_Ok_inv in H as (h & _ & H).
  apply obind_Ok_inv in H as (_ & _ & H). apply obind_Ok_inv in H as (x & Hx & H). apply obind_Ok_inv in H as (k1 & Hp & H).
  rewrite /get_lock in Hx. destruct (locks k !! l') as [x'|] eqn:Hx'; [injection Hx as ->|done].
  apply obind_Ok_inv in H as (_ & _ & H).
  have Hl1 : locks k1 = locks k by apply push_restack in Hp as (fs & cs & _ & (_ & -> & _)).
  destruct (decide (l' = l)) as [-> | Hne].
  - destruct (t_lock 1 k Ht) as (y & Hy & Hsy). have Hxy : x = y by congruence. subst y. rewrite Hsy in H.
    destruct (push_restack _ _ _ Hp) as (fs & cs & Hs & _).
    destruct (tokens_push 1 _ k k1 fs cs Hp Hs) as (Ht1 & _ & Hs1); [done|done|]. rewrite /= Z.eqb_refl in Ht1.
    rewrite -Hl1. by eapply (sema_down_body_lock _ (set_intr false k1)); [exact H|exact Hs1|apply sema_down_intr].
  - apply (tokens_push_neutral 1) in Hp as [Ht1 _]; [|by rewrite /= (proj2 (Z.eqb_neq l' l))|done|done].
    rewrite -Hl1. eapply (sema_down_body_other 1 _ _ (set_intr false k1)); [|exact H|by apply sema_down_intr].
    intros Hs'. by apply Hne, (t_one 1 k Ht l' x).
Qed.

Lemma lock_set_holder_ok l' k k' : lock_set_holder l' k = Ok k' ->
  (l' = l -> tokens 0 k /\ held (locks k) = 0) -> (l' <> l -> tokens 1 k) -> tokens 1 k' /\ excl k k'.
Proof.
  intros H H1 H2. rewrite /lock_set_holder in H. apply obind_Ok_inv in H as (x & Hx & H). apply obind_Ok_inv in H as (cur & _ & H).
  injection H as <-. rewrite /get_lock in Hx. destruct (locks k !! l') as [x'|] eqn:Hx'; [injection Hx as ->|done].
  destruct (decide (l' = l)) as [-> | Hne].
  - destruct (H1 eq_refl) as [[T1 T2 T3 T4 T5 T6] Hh]. have Hno : holder x = None by rewrite /held Hx' in Hh; destruct (holder x). split.
    + split; try done; rewrite /put_lock /=.
      * rewrite lookup_insert_eq. destruct T1 as (y & Hy & Hsy). exists (mk_lock (Some cur) (semaphore_of x)). split; [done|]. simpl. congruence.
      * intros l2 y. destruct (decide (l2 = l)) as [-> | Hne]; [done|]. rewrite lookup_insert_ne //. apply T2.
      * rewrite Hh in T4. rewrite /held lookup_insert_eq. change (stacks (set_locks _ k)) with (stacks k). simpl. lia.
    + intros y Hy. have Hxy : y = x by congruence. subst y. rewrite /put_lock /= lookup_insert_eq. eexists. split; [done|]. right. by left.
  - destruct (H2 Hne) as [T1 T2 T3 T4 T5 T6]. split.
    + split; try done; rewrite /put_lock /=.
      * by rewrite lookup_insert_ne.
      * intros l2 y. destruct (decide (l2 = l')) as [-> | Hne2]; [rewrite lookup_insert_eq; intros [= <-]; by apply (T2 l' x)|].
        rewrite lookup_insert_ne //. apply T2.
      * by rewrite /held lookup_insert_ne.
    + intros y Hy. exists y. rewrite /put_lock /= lookup_insert_ne //. split; [done|by left].
Qed.

Lemma lock_try_acquire_ok l' ok k k' : lock_try_acquire l' k = Ok (ok, k') -> tokens 1 k -> tokens 1 k' /\ locks k' = locks k.
Proof.
  intros H Ht. rewrite /lock_try_acquire in H. apply obind_Ok_inv in H as (h & _ & H). apply obind_Ok_inv in H as (_ & _ & H).
  apply obind_Ok_inv in H as (x & Hx & H). rewrite /get_lock in Hx. destruct (locks k !! l') as [x'|] eqn:Hx'; [injection Hx as ->|done].
  apply obind_Ok_inv in H as ([b k1] & Hd & H). rewrite /sema_try_down in Hd. apply obind_Ok_inv in Hd as (y & Hy & Hd).
  rewrite /get_sema in Hy. destruct (semas k !! semaphore_of x) as [y'|] eqn:Hy'; [injection Hy as ->|done].
  destruct (Z.ltb_spec 0 (value y)) as [Hpos|Hz]; injection Hd as <- <-; [|by injection H as _ <-].
  apply obind_Ok_inv in H as (k2 & Hp & H). injection H as _ <-.
  have Hl2 : locks k2 = locks k by apply push_restack in Hp as (fs & cs & _ & (_ & -> & _)). split; [|done].
  destruct (decide (l' = l)) as [-> | Hne].
  - destruct (t_lock 1 k Ht) as (x2 & Hx2 & Hs2). have Hxx : x2 = x by congruence. subst x2. rewrite Hs2 in Hy', Hp.
    have Ht1 := tokens_put_value 1 (value y - 1) (waiters y) k y Hy' ltac:(lia) Ht.
    destruct (push_restack _ _ _ Hp) as (fs & cs & Hs & _). destruct (tokens_push _ _ _ _ fs cs Hp Hs ltac:(done) Ht1) as (Ht2 & _).
    rewrite /= Z.eqb_refl in Ht2. by have <- : 1 - value y + (value y - 1) + 1 = 1 by lia.
  - have Hns : semaphore_of x <> s by intros Hs'; apply Hne, (t_one 1 k Ht l' x).
    have Ht1 := tokens_put_sema 1 (semaphore_of x) (mk_sema (value y - 1) (waiters y)) k Hns Ht.
    by apply (tokens_push_neutral 1) in Hp as [Ht2 _]; [|by rewrite /= (proj2 (Z.eqb_neq l' l))|done|done].
Qed.

Lemma lock_release_ok l' k k' : lock_release l' k = Ok k' -> tokens 1 k -> tokens 1 k' /\ excl k k'.
Proof.
  intros H Ht. rewrite /lock_release in H. apply obind_Ok_inv in H as (h & Hh & H).
  apply obind_Ok_inv in H as (u & Ha & H). apply obind_Ok_inv in H as (x & Hx & H).
  rewrite /get_lock in Hx. destruct (locks k !! l') as [x'|] eqn:Hx'; [injection Hx as ->|done].
  have Hmine : holder x = Some (current k).
  { destruct h; [|done]. rewrite /lock_held_by_current_thread /get_lock Hx' in Hh. cbn [oget obind] in Hh.
    apply obind_Ok_inv in Hh as (cur & ->%thread_current_eq & Hh). injection Hh as Hh. by apply bool_decide_eq_true in Hh. }
  set k0 := put_lock l' (mk_lock None (semaphore_of x)) k in H.
  have Hl' : locks k' = <[l' := mk_lock None (semaphore_of x)]> (locks k) by apply push_restack in H as (fs & cs & _ & (_ & -> & _)).
  destruct (push_restack _ _ _ H) as (fs & cs & Hs & _). destruct (decide (l' = l)) as [-> | Hne].
  - split.
    + destruct (Ht) as [T1 T2 T3 T4 T5 T6]. destruct T1 as (y & Hy & Hsy). have Hxy : y = x by congruence. subst y.
      have Ht0 : tokens 0 k0.
      { split; try done; rewrite /k0 /put_lock /=.
        - rewrite lookup_insert_eq. by eexists.
        - intros l2 y. destruct (decide (l2 = l)) as [-> | Hne]; [done|]. rewrite lookup_insert_ne //. apply T2.
        - rewrite /held lookup_insert_eq. rewrite /held Hx' Hmine in T4. change (stacks (set_locks _ k)) with (stacks k). simpl. lia. }
      destruct (tokens_push 0 _ k0 k' fs cs H Hs ltac:(done) Ht0) as (Ht1 & _). by rewrite /= Hsy Z.eqb_refl in Ht1.
    + intros y Hy. have Hxy : y = x by congruence. subst y. rewrite Hl' lookup_insert_eq. eexists. split; [done|]. right. by right.
  - have Hns : semaphore_of x <> s by intros Hs'; apply Hne, (t_one 1 k Ht l' x).
    destruct (Ht) as [T1 T2 T3 T4 T5 T6].
    have Ht0 : tokens 1 k0.
    { split; try done; rewrite /k0 /put_lock /=.
      - by rewrite lookup_insert_ne.
      - intros l2 y. destruct (decide (l2 = l')) as [-> | Hne2]; [by rewrite lookup_insert_eq; intros [= <-]|]. rewrite lookup_insert_ne //. apply T2.
      - by rewrite /held lookup_insert_ne. }
    split.
    + by apply (tokens_push_neutral 1) in H as [Ht2 _]; [|by rewrite /= (proj2 (Z.eqb_neq _ s))|done|done].
    + intros y Hy. exists y. rewrite Hl' lookup_insert_ne //. split; [done|by left].
Qed.


(** ** Conditions and exit *)
Lemma tokens_conds n c ws k : s ∉ ws -> tokens n k -> tokens n (set_conds (<[c := ws]> (conds k)) k).
Proof.
  intros Hws [T1 T2 T3 T4 T5 T6]. split; try done. intros c' ws'. simpl. destruct (decide (c' = c)) as [-> | Hne].
  - rewrite lookup_insert_eq. by intros [= <-].
  - rewrite lookup_insert_ne //. apply T6.
Qed.
Lemma cond_signal_ok c l' k k' : cond_signal c l' k = Ok k' -> tokens 1 k ->
  tokens 1 k' /\ locks k' = locks k /\ stacks k' = stacks k /\ current k' = current k.
Proof.
  intros H Ht. rewrite /cond_signal in H. apply obind_Ok_inv in H as (_ & _ & H). apply obind_Ok_inv in H as (h & _ & H).
  apply obind_Ok_inv in H as (_ & _ & H). apply obind_Ok_inv in H as (ws & Hws & H).
  destruct (conds k !! c) as [ws'|] eqn:Hc; [injection Hws as ->|done]. have Hs := t_cond 1 k Ht c ws Hc.
  destruct ws as [|w ws]; [by injection H as <-|]. rewrite not_elem_of_cons in Hs. destruct Hs as [Hw Hs].
  apply (sema_up_other 1) in H as (H1 & H2 & _ & H3 & H4); [|by apply not_eq_sym|by apply tokens_conds]. done.
Qed.
Lemma cond_wait_ok c l' w k k' : w <> s -> cond_wait c l' w k = Ok k' -> tokens 1 k -> tokens 1 k' /\ excl k k'.
Proof.
  intros Hw H Ht. rewrite /cond_wait in H. apply obind_Ok_inv in H as (_ & _ & H). apply obind_Ok_inv in H as (h & _ & H).
  apply obind_Ok_inv in H as (_ & _ & H). apply obind_Ok_inv in H as (ws & Hws & H). apply obind_Ok_inv in H as (k1 & Hp & H).
  have Ht0 : tokens 1 (sema_init w 0 k) by apply tokens_put_sema.
  have Hs : s ∉ ws by destruct (conds (sema_init w 0 k) !! c) as [ws'|] eqn:Hc; [injection Hws as ->; by apply (t_cond 1 _ Ht0 c)|done].
  have Ht1 : tokens 1 (set_conds (<[c := ws ++ [w]]> (conds (sema_init w 0 k))) (sema_init w 0 k)).
  { apply tokens_conds; [|done]. rewrite not_elem_of_app list_elem_of_singleton. split; [done|]. by apply not_eq_sym. }
  have Hl1 : locks k1 = locks k by apply push_restack in Hp as (fs & cs & _ & (_ & -> & _)).
  apply (tokens_push_neutral 1) in Hp as [Ht2 Hc2]; [|done|by intros fs Hfs; split|done].
  destruct (lock_release_ok l' k1 k' H Ht2) as [Ht3 He]. split; [done|]. intros x Hx. rewrite -Hl1 in Hx.
  destruct (He x Hx) as (x' & Hx' & Hor). exists x'. split; [done|]. by rewrite Hc2 in Hor.
Qed.

Lemma thread_exit_ok k k' : thread_exit k = Ok k' -> pending k = [] -> tokens 1 k -> tokens 1 k' /\ locks k' = locks k.
Proof.
  intros H Hp Ht. rewrite /thread_exit in H. apply obind_Ok_inv in H as (_ & _ & H). have Hr := H. apply push_restack in Hr as (fs & cs & Hs & (_ & Hl & _)).
  have Efs : fs = []. { move: Hs Hp. rewrite lookup_fmap /pending. destruct (threads k !! current k) as [t|]; [|done]. cbn [fmap option_fmap option_map]. by intros [= -> _]. }
  subst fs. destruct (tokens_push 1 _ k k' [] cs H Hs ltac:(done) Ht) as (Ht2 & _). done.
Qed.
(** Forgetting a child. *)
Lemma tokens_children n l' k k' cs : stacks k !! current k = Some ([], cs) -> (forall c, c ∈ l' -> c ∈ cs) -> upd (current k) (set_children l') k = Ok k' -> tokens n k ->
  tokens n k' /\ locks k' = locks k /\ current k' = current k /\ stacks k' !! current k' = Some ([], l').
Proof.
  intros Hs Hsub H [T1 T2 T3 T4 T5 T6]. rewrite /upd in H. destruct (threads k !! current k) as [t|] eqn:Et; [|done]. injection H as <-.
  have Hst := Hs. rewrite lookup_fmap Et /= in Hst. injection Hst as Htd _.
  have E5 : stacks (set_threads (<[current k := set_children l' t]> (threads k)) k) = <[current k := ([], l')]> (stacks k) by rewrite /stacks /= fmap_insert /= Htd.
  destruct (T5 _ _ _ Hs) as (_ & HcT & Hch). split_and!; try done; [|by rewrite E5 lookup_insert_eq]. split; rewrite ?E5; try done.
  - rewrite (total_insert _ _ ([], cs)) //=. lia.
  - intros a fs' cs'. destruct (decide (a = current k)) as [-> | Hne]; [|rewrite lookup_insert_ne //; apply T5].
    rewrite lookup_insert_eq. intros [= <- <-]. split_and!; try done. intros c Hc. by apply Hch, Hsub.
Qed.
Lemma thread_exit_up_ok k k' cs : stacks k !! current k = Some ([], cs) -> thread_exit_up k = Ok k' -> tokens 1 k -> tokens 1 k' /\ locks k' = locks k.
Proof.
  intros Hs H Ht. rewrite /thread_exit_up in H. apply obind_Ok_inv in H as (cur & Hcur%thread_current_eq & H). subst cur. apply obind_Ok_inv in H as (t & Htk & H).
  destruct (threads k !! current k) as [t'|] eqn:Et; [injection Htk as ->|done]. have Ec : cs = child_list t by rewrite lookup_fmap Et /= in Hs; congruence. subst cs.
  destruct (t_stack 1 k Ht _ _ _ Hs) as (_ & HcT & Hch). destruct (HT _ HcT) as [Hws _]. destruct (child_list t) as [|a l'] eqn:El; apply obind_Ok_inv in H as (k1 & H1 & H).
  - destruct (tokens_push 1 _ k k1 [] [] H1 Hs ltac:(done) Ht) as (Ht1 & _). have Hl1 : locks k1 = locks k by apply push_restack in H1 as (? & ? & _ & (_ & -> & _)).
    apply (sema_up_other 1) in H as (H2 & H3 & _); [|done|done]. split; [done|congruence].
  - apply obind_Ok_inv in H as (k2 & H2 & H). destruct (tokens_children 1 l' k k1 (a :: l') Hs) as (Ht1 & Hl1 & Hc1 & Hs1); [by intros c Hc; apply list_elem_of_further|done|done|].
    destruct (tokens_push 1 _ k1 k2 [] l' H2 Hs1 ltac:(done) Ht1) as (Ht2 & _). have Hl2 : locks k2 = locks k1 by apply push_restack in H2 as (? & ? & _ & (_ & -> & _)).
    destruct (HT a) as [_ Hes]; [by apply Hch, list_elem_of_here|]. apply (sema_up_other 1) in H as (H3 & H4 & _); [|done|done]. split; [done|congruence].
Qed.
Lemma thread_exit_end_ok k k' cs : thread_exit_end k = Ok k' -> stacks k !! current k = Some ([], cs) -> tokens 1 k ->
  tokens 1 k' /\ locks k' = locks k.
Proof.
  intros H Hs Ht. rewrite /thread_exit_end in H. apply obind_Ok_inv in H as (cur & Hcur%thread_current_eq & H). subst cur.
  apply obind_Ok_inv in H as (k1 & Hu & H). apply upd_quiet in Hu as [Hq Hc]; [|done].
  have Ht1 : tokens 1 k1 by eapply tokens_quiet; [exact Hq|]; eapply tokens_quiet; [|exact Ht]. simpl in Hc.
  destruct (Hq) as (_ & Hl & _ & Hst). apply schedule_stacks in H as (E1 & E2 & E3 & E4). split; [|by rewrite E2 Hl].
  have Hs1 : stacks k1 !! current k1 = Some ([], cs) by rewrite Hst Hc.
  destruct Ht1 as [T1 T2 T3 T4 T5 T6]. split; rewrite ?E1 ?E2 ?E3; try done.
  - destruct E4 as [-> | [-> _]]; [done|]. rewrite (total_lookup _ _ _ Hs1) /= in T4. lia.
  - intros a fs cs' Ha. apply (T5 a fs cs'). destruct E4 as [E4|[E4 _]]; rewrite E4 in Ha; [done|]. by apply lookup_delete_Some in Ha as [_ Ha].
Qed.

(** ** Steps *)

(** Clients use the lock's semaphore through the lock only. *)
Definition disciplined (c : call) : Prop :=
  match c with Down s' => s' <> s | Up s' => s' <> s | Wait _ _ w => w <> s | _ => True end.

Lemma exec_ok c k k' : exec c k = Ok k' -> disciplined c -> pending k = [] -> tokens 1 k -> tokens 1 k' /\ excl k k'.
Proof.
  intros H Hd Hp Ht. destruct c as [s'|s'|l'|l'|l'|c l' w|c l'|c l'| |n|]; simpl in H, Hd.
  - apply obind_Ok_inv in H as (_ & _ & H). apply (sema_down_body_other 1) in H as [H1 H2]; [|done|by apply sema_down_intr]. by split; [|apply excl_same].
  - apply (sema_up_other 1) in H as (H1 & H2 & _); [|done|done]. by split; [|apply excl_same].
  - apply lock_acquire_ok in H as [H1 H2]; [|done]. by split; [|apply excl_same].
  - by apply lock_release_ok in H.
  - apply obind_Ok_inv in H as ([ok k1] & Hl & H). injection H as <-. apply lock_try_acquire_ok in Hl as [H1 H2]; [|done]. by split; [|apply excl_same].
  - by apply cond_wait_ok in H.
  - apply cond_signal_ok in H as (H1 & H2 & _); [|done]. by split; [|apply excl_same].
  - rewrite /cond_broadcast in H. apply obind_Ok_inv in H as (ws & _ & H). destruct ws as [|w ws]; [injection H as <-; by split; [|apply excl_same]|].
    apply obind_Ok_inv in H as (k1 & Hs & H). apply cond_signal_ok in Hs as (H1 & H2 & _); [|done].
    have Hl1 : locks k' = locks k1 by apply push_restack in H as (fs & cs & _ & (_ & -> & _)).
    apply (tokens_push_neutral 1) in H as [Ht2 _]; [|done..]. split; [done|]. apply excl_same. congruence.
  - apply thread_yield_effect in H as (k1 & Hpu & Hq). have Hl1 : locks k1 = locks k by apply push_restack in Hpu as (fs & cs & _ & (_ & -> & _)).
    apply (tokens_push_neutral 1) in Hpu as [Ht2 _]; [|done..]. split; [by eapply tokens_quiet|]. apply excl_same. destruct Hq as (_ & -> & _). done.
  - rewrite /timer_sleep in H. apply obind_Ok_inv in H as (_ & _ & H). apply obind_Ok_inv in H as (cur & _ & H). apply obind_Ok_inv in H as (k0 & Hu & H).
    apply upd_quiet in Hu as [Hq0 _]; [|done]. apply thread_sleep_effect in H as (k1 & Hpu & Hq).
    have Hl1 : locks k1 = locks k0 by apply push_restack in Hpu as (fs & cs & _ & (_ & -> & _)).
    apply (tokens_push_neutral 1) in Hpu as [Ht2 _]; [|done|done|by eapply tokens_quiet]. split; [by eapply tokens_quiet|]. apply excl_same.
    destruct Hq as (_ & -> & _). destruct Hq0 as (_ & Hl0 & _). congruence.
  - apply thread_exit_ok in H as [H1 H2]; [|done|done]. by split; [|apply excl_same].
Qed.

Lemma resume_ok k k' : resume k = Ok k' -> tokens 1 k -> tokens 1 k' /\ excl k k'.
Proof.
  intros H Ht. rewrite /resume in H. apply obind_Ok_inv in H as ([fr k1] & Hpop & H). destruct fr as [fr|].
  2: { injection H as <-. rewrite /pop in Hpop. apply obind_Ok_inv in Hpop as (t & _ & Hpop). destruct (todo t); [|by apply obind_Ok_inv in Hpop as (? & _ & ?)].
       injection Hpop as <-. by split; [|apply excl_same]. }
  destruct (tokens_pop 1 fr k k1 Hpop Ht) as (fs & cs & Hs & Hok & HcT & Hch & Hc & Hs1 & Htok & E1 & E2 & E3).
  have Hex : forall k2, excl k1 k2 -> excl k k2 by intros k2 He x Hx; rewrite -E2 in Hx; rewrite -Hc; by apply He.
  destruct fr as [| | |b|s' b|l'|s'|w l'|l'|c l'| | |]; cbn [run_frame weight stack_ok] in H, Hok, Htok; rewrite ?Z.sub_0_r in Htok.
  - injection H as <-. split; [|by apply excl_same]. eapply tokens_quiet; [|by apply Htok]. done.
  - have Hl2 : locks k' = locks k by apply push_restack in H as (fs' & cs' & _ & (_ & -> & _)); rewrite -E2.
    apply (tokens_push_neutral 1) in H as [Ht2 _]; [|done|done|by eapply tokens_quiet; [|by apply Htok]]. by split; [|apply excl_same].
  - apply obind_Ok_inv in H as (k2 & Hp & H). have Hl2 : locks k2 = locks k by apply push_restack in Hp as (fs' & cs' & _ & (_ & -> & _)); rewrite -E2.
    apply (tokens_push_neutral 1) in Hp as [Ht2 _]; [|done|done|by eapply tokens_quiet; [|by apply Htok]].
    apply thread_block_quiet in H. split; [by eapply tokens_quiet|]. apply excl_same. destruct H as (_ & -> & _). done.
  - injection H as <-. split; [|by apply excl_same]. eapply tokens_quiet; [|by apply Htok]. done.
  - destruct Hok as [Hh Hok]. destruct (Z.eqb_spec s' s) as [-> | Hne].
    + destruct (Hh eq_refl) as (r & ->). apply (sema_down_body_lock _ _ _ r cs) in H as [H1 H2]; [|done|by apply Htok].
      split; [done|]. apply excl_same. congruence.
    + rewrite Z.sub_0_r in Htok. apply (sema_down_body_other 1) in H as [H1 H2]; [|done|by apply Htok]. split; [done|]. apply excl_same. congruence.
  - apply lock_set_holder_ok in H as [H1 H2].
    + split; [done|by apply Hex].
    + intros ->. rewrite Z.eqb_refl in Htok. have Ht1 := Htok Hok. split; [done|].
      have [Hb1 [Hb2 Hb3]] := tokens_bounds _ _ Ht1. have := t_count _ _ Ht1. lia.
    + intros Hne. rewrite (proj2 (Z.eqb_neq l' l)) // Z.sub_0_r in Htok. by apply Htok.
  - destruct (Z.eqb_spec s' s) as [-> | Hne].
    + apply sema_up_lock in H as [H1 H2]; [|by apply Htok]. split; [done|]. apply excl_same. congruence.
    + rewrite Z.sub_0_r in Htok. apply (sema_up_other 1) in H as (H1 & H2 & _); [|done|by apply Htok]. split; [done|]. apply excl_same. congruence.
  - destruct Hok as [Hw Hok]. apply obind_Ok_inv in H as (k2 & Hp & H).
    have Hl2 : locks k2 = locks k by apply push_restack in Hp as (fs' & cs' & _ & (_ & -> & _)); rewrite -E2.
    apply (tokens_push_neutral 1) in Hp as [Ht2 _]; [|done|done|by apply Htok].
    apply obind_Ok_inv in H as (_ & _ & H). apply (sema_down_body_other 1) in H as [H1 H2]; [|done|by apply sema_down_intr]. split; [done|]. apply excl_same. by rewrite H2.
  - apply lock_acquire_ok in H as [H1 H2]; [|by apply Htok]. split; [done|]. apply excl_same. congruence.
  - rewrite /cond_broadcast in H. apply obind_Ok_inv in H as (ws & _ & H). destruct ws as [|w ws]; [injection H as <-; by split; [apply Htok|apply excl_same]|].
    apply obind_Ok_inv in H as (k2 & Hsg & H). apply cond_signal_ok in Hsg as (H1 & H2 & _); [|by apply Htok].
    have Hl3 : locks k' = locks k2 by apply push_restack in H as (fs' & cs' & _ & (_ & -> & _)).
    apply (tokens_push_neutral 1) in H as [Ht2 _]; [|done..]. split; [done|]. apply excl_same. congruence.
  - subst fs. apply (thread_exit_up_ok k1 k' cs) in H as [H1 H2]; [|done|by apply Htok]. split; [done|]. apply excl_same. congruence.
  - subst fs. apply obind_Ok_inv in H as (cur & Hcur%thread_current_eq & H). subst cur. apply obind_Ok_inv in H as (k2 & Hp & H).
    destruct (HT (current k) HcT) as [_ Hes]. rewrite -Hc in Hes.
    have Hl2 : locks k2 = locks k by apply push_restack in Hp as (fs' & cs' & _ & (_ & -> & _)); rewrite -E2.
    destruct (tokens_push 1 _ k1 k2 [] cs Hp Hs1 ltac:(done) (Htok I)) as (Ht2 & _).
    apply obind_Ok_inv in H as (_ & _ & H). apply (sema_down_body_other 1) in H as [H1 H2]; [|done|by apply sema_down_intr]. split; [done|]. apply excl_same. by rewrite H2.
  - subst fs. apply (thread_exit_end_ok k1 k' cs) in H as [H1 H2]; [|done|by apply Htok]. split; [done|]. apply excl_same. congruence.
Qed.

Lemma intr_handler_tokens k k' : intr_handler k = Ok k' -> tokens 1 k -> tokens 1 k' /\ locks k' = locks k.
Proof.
  intros H Ht. rewrite /intr_handler in H. apply obind_Ok_inv in H as (_ & _ & H). apply obind_Ok_inv in H as (k1 & Hti & H).
  apply timer_interrupt_quiet in Hti as [Hq _]. have Ht1 : tokens 1 k1 by eapply tokens_quiet; [exact Hq|]; eapply tokens_quiet; [|exact Ht].
  destruct (Hq) as (_ & Hl & _). destruct (yield_on_return k1).
  - apply obind_Ok_inv in H as (k2 & Hp & H). have Hl2 : locks k2 = locks k by apply push_restack in Hp as (fs & cs & _ & (_ & -> & _)); rewrite -Hl.
    apply (tokens_push_neutral 1) in Hp as [Ht2 _]; [|done|done|by eapply tokens_quiet; [|exact Ht1]].
    apply thread_yield_effect in H as (k3 & Hp & Hq3). have Hl3 : locks k3 = locks k2 by apply push_restack in Hp as (fs & cs & _ & (_ & -> & _)).
    apply (tokens_push_neutral 1) in Hp as [Ht3 _]; [|done..]. split; [by eapply tokens_quiet|]. destruct Hq3 as (_ & -> & _). congruence.
  - injection H as <-. split; [|by rewrite -Hl]. by eapply tokens_quiet; [|exact Ht1].
Qed.
End token.

(** Steps of clients that use the lock's semaphore through the lock only. *)
Inductive lstep (s : Z) : kernel -> kernel -> Prop :=
| l_frame k k' : resume k = Ok k' -> lstep s k k'
| l_call c k k' : pending k = [] -> disciplined s c -> exec c k = Ok k' -> lstep s k k'
| l_timer k k' : intr_handler k = Ok k' -> lstep s k k'.

Lemma lstep_ok l s T (HT : forall a, a ∈ T -> wait_sema a <> s /\ exit_sema a <> s) k k' :
  lstep s k k' -> tokens l s T 1 k -> tokens l s T 1 k' /\ excl l k k'.
Proof.
  intros [k0 k1 H|c k0 k1 Hp Hd H|k0 k1 H] Ht.
  - by apply (resume_ok l s T HT).
  - by apply (exec_ok l s T c).
  - apply (intr_handler_tokens l s T) in H as [H1 H2]; [|done]. by split; [|apply excl_same].
Qed.

(** A pending frame that has to do with the lock. *)
Definition uses_lock (l s : Z) (fr : frame) : bool :=
  match fr with
  | F_holder l' => l' =? l
  | F_sema_up s' | F_sema_down s' _ => s' =? s
  | _ => false
  end.

(** A free lock and its semaphore among threads that are not using them. *)
Record lock_ready (l s : Z) (T : gset Z) (k : kernel) : Prop := {
  lr_lock : locks k !! l = Some (mk_lock None s);
  lr_one : forall l' x, locks k !! l' = Some x -> semaphore_of x = s -> l' = l;
  lr_sema : semas k !! s = Some (mk_sema 1 []);
  lr_threads : forall a t, threads k !! a = Some t ->
    stack_ok l s (todo t) /\ existsb (uses_lock l s) (todo t) = false /\ (a ∈ T) /\ forall c : Z, c ∈ child_list t -> c ∈ T;
  lr_cond : forall c ws, conds k !! c = Some ws -> s ∉ ws;
  lr_addr : forall a, a ∈ T -> wait_sema a <> s /\ exit_sema a <> s }.

Lemma weights_unused l s fs : existsb (uses_lock l s) fs = false -> weights l s fs = 0.
Proof.
  induction fs as [|fr fs IH]; [done|]. intros [Hf Hr]%orb_false_elim. change (weights l s (fr :: fs)) with (weight l s fr + weights l s fs).
  rewrite (IH Hr). destruct fr; simpl in Hf |- *; try rewrite Hf; done.
Qed.
Lemma total_unused l s m : (forall a p, m !! a = Some p -> weights l s p.1 = 0) -> total l s m = 0.
Proof.
  induction m as [|a p m Ha IH] using map_ind; intros Hm; [done|].
  rewrite total_insert_new; [done|]. rewrite (Hm a p); [by rewrite lookup_insert_eq|]. rewrite IH; [|done].
  intros b q Hb. apply (Hm b). rewrite lookup_insert_ne //. congruence.
Qed.
Lemma lock_ready_tokens l s T k : lock_ready l s T k -> tokens l s T 1 k.
Proof.
  intros [H1 H2 H3 H4 H5 H6]. split.
  - eauto.
  - done.
  - eexists. split; [exact H3|]. simpl. lia.
  - rewrite /sema_value H3 /held H1 /= total_unused; [|lia].
    intros a p. rewrite lookup_fmap. destruct (threads k !! a) as [t|] eqn:Ht; [|done]. intros [= <-].
    destruct (H4 a t Ht) as (_ & Hu & _). by apply weights_unused.
  - intros a fs cs. rewrite lookup_fmap. destruct (threads k !! a) as [t|] eqn:Ht; [|done]. intros [= <- <-].
    by destruct (H4 a t Ht) as (? & _ & ?).
  - done.
Qed.

(** C3: locks are mutually exclusive.  From any state in which a lock is free,
    after any interleaving of thread steps, calls and timer interrupts, if a
    thread holds the lock then whatever runs next leaves it the holder, except
    that the holder itself, when it is the running thread, may let go: no other
    thread's [lock_acquire], [lock_try_acquire], [cond_wait] or [lock_release]
    ever takes the lock from it. *)
Theorem lock_mutual_exclusion (l s : Z) (T : gset Z) (k0 k k' : kernel) (x : lock) (a : Z) :
  lock_ready l s T k0 -> rtc (lstep s) k0 k -> locks k !! l = Some x -> holder x = Some a -> lstep s k k' ->
  exists x', locks k' !! l = Some x' /\ (holder x' = Some a \/ (holder x' = None /\ a = current k)).
Proof.
  intros H0 Hr Hx Ha Hstep. have HT := lr_addr l s T k0 H0. have Ht0 := lock_ready_tokens l s T k0 H0.
  have Ht : tokens l s T 1 k.
  { clear -HT Hr Ht0. induction Hr as [|k1 k2 k3 H12 H23 IH]; [done|]. apply IH. by apply (lstep_ok l s T HT k1 k2). }
  destruct (lstep_ok l s T HT k k' Hstep Ht) as [_ He]. destruct (He x Hx) as (x' & Hx' & Hor). exists x'. split; [done|].
  destruct Hor as [-> | [?|[Hc ->]]]; [by left|congruence|right]. split; [done|congruence].
Qed.

(** ** An example: two threads and the idle thread compete for a lock *)
Definition ex_lock : kernel :=
  mk_kernel (<[4096 := ex_th THREAD_RUNNING 0 []]> (<[8192 := ex_th THREAD_BLOCKED 0 [F_idle]]>
              (<[12288 := ex_th THREAD_READY 0 [F_intr true]]> ∅)))
    4096 [12288] [] [4096; 8192; 12288] (Some 8192) 4096 5 true false false 10 0 0 0 0
    {[51 := mk_sema 1 []]} {[50 := mk_lock None 51]} ∅.
Definition ex_threads : gset Z := {[4096; 8192; 12288]}.

(** The first thread takes the lock and yields; the second one is about to ask
    for it. *)
Definition ex_taken : outcome kernel :=
  let! k := exec (Acquire 50) ex_lock in
  let! k := resume k in
  let! k := exec Yield k in
  resume k.

Lemma ex_lock_ready : lock_ready 50 51 ex_threads ex_lock.
Proof.
  split; try done.
  - intros l x. rewrite /ex_lock /=. by intros [<- _]%lookup_singleton_Some.
  - intros a t. rewrite /ex_lock /= !lookup_insert. repeat case_decide; intros; simplify_eq;
      (split_and!; [done|done|by vm_compute|by intros c ?%not_elem_of_nil]).
  - intros a Ha. rewrite /ex_threads in Ha. have [-> | [-> | ->]] : a = 4096 \/ a = 8192 \/ a = 12288 by set_solver.
    all: by vm_compute.
Qed.
Lemma ex_taken_reached k : ex_taken = Ok k -> rtc (lstep 51) ex_lock k.
Proof.
  intros H. rewrite /ex_taken in H. apply obind_Ok_inv in H as (k1 & H1 & H). apply obind_Ok_inv in H as (k2 & H2 & H).
  apply obind_Ok_inv in H as (k3 & H3 & H). eapply rtc_l; [exact (l_call 51 (Acquire 50) ex_lock k1 eq_refl I H1)|].
  eapply rtc_l; [exact (l_frame 51 _ _ H2)|]. vm_compute in H1. injection H1 as <-. vm_compute in H2. injection H2 as <-.
  eapply rtc_l; [refine (l_call 51 Yield _ _ _ I H3); reflexivity|]. exact (rtc_once _ _ (l_frame 51 _ _ H)).
Qed.

(** The second thread's [lock_acquire] leaves the lock with the first. *)
Lemma lock_mutual_exclusion_witness :
  exists k k', ex_taken = Ok k /\ current k = 12288 /\ exec (Acquire 50) k = Ok k' /\
    exists x', locks k' !! 50 = Some x' /\ (holder x' = Some 4096 \/ (holder x' = None /\ 4096 = current k)).
Proof.
  eexists _, _. split; [vm_compute; reflexivity|]. split; [reflexivity|]. split; [vm_compute; reflexivity|].
  eapply (lock_mutual_exclusion 50 51 ex_threads ex_lock _ _ (mk_lock (Some 4096) 51) 4096 ex_lock_ready).
  - apply ex_taken_reached. vm_compute. reflexivity.
  - vm_compute. reflexivity.
  - reflexivity.
  - apply (l_call 51 (Acquire 50)); [reflexivity|exact I|vm_compute; reflexivity].
Defined.
