(* ===== verification/Intq.v ===== *)
(** * devices/intq.c: interrupt queues

    A circular buffer between threads and interrupt handlers.  The functions
    run with interrupts off, so that a thread gives the processor away at two
    points only: in [thread_block], called by [wait], and inside [lock_acquire]
    when another thread has the queue's lock.  [pc] says where a thread inside
    the queue has stopped; [exec] runs one uninterrupted section.  What is
    shown: the bytes come out in the order in which they went in, whatever the
    interleaving; a thread sleeps only while its condition holds and is then
    the one that the next [signal] wakes; with one thread on the queue no
    assertion fails; with two, the one in [wait] can. *)
From S2P Require Import Prelude.

Definition INTQ_BUFSIZE : Z := 64.

(** Threads are named by numbers; [lock] is the holder of [q->lock]. *)
Record intq := mk_intq {
  lock : option Z; not_full : option Z; not_empty : option Z; buf : list Z; head : Z; tail : Z }.

(** The two ways to use a queue. *)
Inductive op := Get | Put (byte : Z).

(** A thread inside [intq_getc] or [intq_putc] that is not running: in
    [lock_acquire], in [thread_block] under [wait], or made ready again by
    [signal], to go on with [lock_release]. *)
Inductive pc := At_lock (o : op) | In_wait (o : op) | Woken (o : op).

Record state := mk_state { q : intq; procs : gmap Z pc }.

Inductive event := Got (byte : Z) | Did_put (byte : Z).

(** ** Operations *)
Definition intq_init (b : list Z) : intq := mk_intq None None None b 0 0.

Definition next (pos : Z) : Z := Z.rem (pos + 1) INTQ_BUFSIZE.

Definition intq_empty (x : intq) : bool := head x =? tail x.
Definition intq_full (x : intq) : bool := next (head x) =? tail x.

(** The condition of the [while] loop. *)
Definition blocked (o : op) (x : intq) : bool :=
  match o with Get => intq_empty x | Put _ => intq_full x end.

Definition set_q (x : intq) (s : state) : state := mk_state x (procs s).
Definition set_pc (t : Z) (p : pc) (s : state) : state := mk_state (q s) (<[t := p]> (procs s)).
Definition leave (t : Z) (s : state) : state := mk_state (q s) (delete t (procs s)).
Definition set_lock (l : option Z) (x : intq) : intq :=
  mk_intq l (not_full x) (not_empty x) (buf x) (head x) (tail x).

(** [*waiter], for [&q->not_empty] and [&q->not_full]. *)
Definition waiter (o : op) (x : intq) : option Z := match o with Get => not_empty x | Put _ => not_full x end.
Definition set_waiter (o : op) (w : option Z) (x : intq) : intq :=
  match o with
  | Get => mk_intq (lock x) (not_full x) w (buf x) (head x) (tail x)
  | Put _ => mk_intq (lock x) w (not_empty x) (buf x) (head x) (tail x)
  end.

(** [wait (q, &q->not_empty)] for [Get], [wait (q, &q->not_full)] for [Put],
    by thread [t]; [None] is an interrupt handler. *)
Definition wait (t : Z) (o : op) (s : state) : outcome state :=
  assert! blocked o (q s) in
  Ok (set_pc t (In_wait o) (set_q (set_waiter o (Some t) (q s)) s)).

(** [thread_unblock]: the thread must be blocked. *)
Definition thread_unblock (t : Z) (s : state) : outcome state :=
  match procs s !! t with
  | Some (In_wait o) => Ok (set_pc t (Woken o) s)
  | _ => Err Panic
  end.

(** [signal (q, &q->not_empty)] for [Get], [signal (q, &q->not_full)] for [Put]. *)
Definition signal (o : op) (s : state) : outcome state :=
  assert! negb (blocked o (q s)) in
  match waiter o (q s) with
  | None => Ok s
  | Some t => let! s := thread_unblock t s in Ok (set_q (set_waiter o None (q s)) s)
  end.

(** What follows the loop. *)
Definition intq_take (s : state) : outcome (event * state) :=
  let x := q s in
  let! byte := oget (buf x !! Z.to_nat (tail x)) in
  let x := mk_intq (lock x) (not_full x) (not_empty x) (buf x) (head x) (next (tail x)) in
  let! s := signal (Put 0) (set_q x s) in
  Ok (Got byte, s).
Definition intq_store (byte : Z) (s : state) : outcome (event * state) :=
  let x := q s in
  let x := mk_intq (lock x) (not_full x) (not_empty x) (<[Z.to_nat (head x) := byte]> (buf x)) (next (head x)) (tail x) in
  let! s := signal Get (set_q x s) in
  Ok (Did_put byte, s).

(** [intq_getc], [intq_putc] from the test of the loop on.  A thread whose
    condition does not hold takes the lock and waits, or stops in [lock_acquire];
    a handler fails the assertion. *)
Definition run (who : option Z) (o : op) (s : state) : outcome (option event * state) :=
  if blocked o (q s) then
    match who with
    | None => Err Panic
    | Some t =>
      match lock (q s) with
      | None => let! s := wait t o (set_q (set_lock (Some t) (q s)) s) in Ok (None, s)
      | Some _ => Ok (None, set_pc t (At_lock o) s)
      end
    end
  else
    let! (e, s) := match o with Get => intq_take s | Put b => intq_store b s end in
    Ok (Some e, match who with Some t => leave t s | None => s end).
Definition intq_getc (who : option Z) (s : state) : outcome (option event * state) := run who Get s.
Definition intq_putc (who : option Z) (byte : Z) (s : state) : outcome (option event * state) := run who (Put byte) s.

(** ** Interleaving *)
Inductive action :=
| Call (t : Z) (o : op)     (* a thread calls *)
| Lock (t : Z)              (* [lock_acquire] goes on: the lock has been released *)
| Resume (t : Z)            (* the woken thread runs: [lock_release], then the loop *)
| Intr (o : op).            (* an interrupt handler calls *)

Definition call (who : option Z) (o : op) (s : state) : outcome (option event * state) :=
  match o with Get => intq_getc who s | Put b => intq_putc who b s end.

Definition exec (a : action) (s : state) : outcome (option event * state) :=
  match a with
  | Call t o => call (Some t) o s
  | Lock t =>
    match procs s !! t with
    | Some (At_lock o) => let! s := wait t o (set_q (set_lock (Some t) (q s)) s) in Ok (None, s)
    | _ => Err Fault
    end
  | Resume t =>
    match procs s !! t with
    | Some (Woken o) =>
      assert! bool_decide (lock (q s) = Some t) in
      call (Some t) o (set_q (set_lock None (q s)) s)
    | _ => Err Fault
    end
  | Intr o => call None o s
  end.

(** When the scheduler, a thread or a device can take an action: handlers look
    first whether they can proceed, as [serial_interrupt] and
    [keyboard_interrupt] do with [intq_full], [intq_empty] and [input_full]. *)
Definition enabled (a : action) (s : state) : Prop :=
  match a with
  | Call t _ => procs s !! t = None
  | Lock t => (exists o, procs s !! t = Some (At_lock o)) /\ lock (q s) = None
  | Resume t => exists o, procs s !! t = Some (Woken o)
  | Intr o => blocked o (q s) = false
  end.

(** Runs, with the events they produce. *)
Inductive runs : state -> list event -> state -> Prop :=
| runs_nil s : runs s [] s
| runs_step s tr s1 a e s2 : runs s tr s1 -> enabled a s1 -> exec a s1 = Ok (e, s2) ->
    runs s (tr ++ option_list e) s2.

(** ** What the queue contains *)
Definition count (x : intq) : nat := Z.to_nat ((head x - tail x) mod INTQ_BUFSIZE).
Definition contents (x : intq) : list Z :=
  (fun i => buf x !!! Z.to_nat ((tail x + Z.of_nat i) mod INTQ_BUFSIZE)) <$> seq 0 (count x).

Definition gets (tr : list event) : list Z := omap (fun e => match e with Got b => Some b | _ => None end) tr.
Definition puts (tr : list event) : list Z := omap (fun e => match e with Did_put b => Some b | _ => None end) tr.

(** ** Positions *)
Record qwf (x : intq) : Prop := {
  w_buf : length (buf x) = 64%nat;
  w_head : 0 <= head x < INTQ_BUFSIZE;
  w_tail : 0 <= tail x < INTQ_BUFSIZE }.

Lemma next_mod pos : 0 <= pos < INTQ_BUFSIZE -> next pos = (pos + 1) mod INTQ_BUFSIZE.
Proof. intros H. rewrite /next Z.rem_mod_nonneg; rewrite /INTQ_BUFSIZE in H |- *; lia. Qed.
Lemma next_range pos : 0 <= pos < INTQ_BUFSIZE -> 0 <= next pos < INTQ_BUFSIZE.
Proof. intros H. rewrite next_mod //. apply Z.mod_pos_bound. done. Qed.

Lemma empty_count x : qwf x -> intq_empty x = bool_decide (count x = 0%nat).
Proof.
  intros [_ Hh Ht]. rewrite /intq_empty /count /INTQ_BUFSIZE in Hh, Ht |- *.
  case_bool_decide; destruct (Z.eqb_spec (head x) (tail x)); try done; exfalso; dlia.
Qed.
Lemma full_count x : qwf x -> intq_full x = bool_decide (count x = 63%nat).
Proof.
  intros [_ Hh Ht]. rewrite /intq_full next_mod // /count /INTQ_BUFSIZE. rewrite /INTQ_BUFSIZE in Hh, Ht.
  case_bool_decide; destruct (Z.eqb_spec ((head x + 1) mod 64) (tail x)); try done; exfalso; dlia.
Qed.
Lemma count_bound x : (count x < 64)%nat.
Proof. rewrite /count /INTQ_BUFSIZE. have := Z.mod_pos_bound (head x - tail x) 64. lia. Qed.

(** Removing the oldest byte, adding a newest one. *)
Lemma contents_take x : qwf x -> intq_empty x = false ->
  exists b, buf x !! Z.to_nat (tail x) = Some b /\
    contents x = b :: contents (mk_intq (lock x) (not_full x) (not_empty x) (buf x) (head x) (next (tail x))).
Proof.
  intros H He. destruct (H) as [Hb Hh Ht]. destruct (lookup_lt_is_Some_2 (buf x) (Z.to_nat (tail x))) as [b Hlb].
  { rewrite Hb. rewrite /INTQ_BUFSIZE in Ht. lia. }
  exists b. split; [done|]. rewrite empty_count // in He. apply bool_decide_eq_false in He.
  rewrite /contents. set x' := mk_intq _ _ _ _ _ _.
  have Hc : count x = S (count x').
  { rewrite /count /x' /= next_mod //. rewrite /count /INTQ_BUFSIZE in He Hh Ht |- *. dlia. }
  rewrite Hc -cons_seq fmap_cons Z.add_0_r Z.mod_small // (list_lookup_total_correct _ _ _ Hlb). f_equal.
  rewrite -fmap_S_seq. rewrite -list_fmap_compose. apply list_fmap_ext. intros _ i _. cbn [compose buf tail x'].
  do 2 f_equal. rewrite next_mod //. rewrite /INTQ_BUFSIZE in Ht |- *. dlia.
Qed.
Lemma contents_store x b : qwf x -> intq_full x = false ->
  contents (mk_intq (lock x) (not_full x) (not_empty x) (<[Z.to_nat (head x) := b]> (buf x)) (next (head x)) (tail x)) =
  contents x ++ [b].
Proof.
  intros H Hf. destruct (H) as [Hb Hh Ht]. rewrite full_count // in Hf. apply bool_decide_eq_false in Hf. have Hcb := count_bound x.
  rewrite /contents. set x' := mk_intq _ _ _ _ _ _.
  have Hc : count x' = S (count x).
  { rewrite /count /x' /= next_mod //. rewrite /count /INTQ_BUFSIZE in Hf Hh Ht Hcb |- *. dlia. }
  rewrite Hc seq_S fmap_app /=. cbn [x' buf tail]. f_equal.
  - apply list_fmap_ext. intros j i Hi. apply lookup_seq in Hi as [-> Hlt]. rewrite list_lookup_total_insert_ne //.
    rewrite /count /INTQ_BUFSIZE in Hcb, Hf, Hlt, Hh, Ht |- *. dlia.
  - f_equal. have -> : Z.to_nat ((tail x + Z.of_nat (count x)) mod INTQ_BUFSIZE) = Z.to_nat (head x).
    { rewrite /count /INTQ_BUFSIZE in Hcb, Hh, Ht |- *. dlia. }
    rewrite list_lookup_total_insert_eq // Hb. rewrite /INTQ_BUFSIZE in Hh. lia.
Qed.

(** ** The invariant *)
Record inv (s : state) : Prop := {
  i_wf : qwf (q s);
  i_wait : forall t o, procs s !! t = Some (In_wait o) ->
    waiter o (q s) = Some t /\ lock (q s) = Some t /\ blocked o (q s) = true;
  i_not_empty : forall t, not_empty (q s) = Some t -> procs s !! t = Some (In_wait Get);
  i_not_full : forall t, not_full (q s) = Some t -> exists b, procs s !! t = Some (In_wait (Put b));
  i_woken : forall t o, procs s !! t = Some (Woken o) -> lock (q s) = Some t;
  i_lock : forall t, lock (q s) = Some t -> exists o, procs s !! t = Some (In_wait o) \/ procs s !! t = Some (Woken o) }.

Lemma inv_init b : length b = 64%nat -> inv (mk_state (intq_init b) ∅).
Proof. by intros Hb; split; [split|..]; simpl. Qed.

(** ** Signalling *)
Lemma waiter_in_wait o s t : inv s -> waiter o (q s) = Some t -> exists o', procs s !! t = Some (In_wait o').
Proof. intros H. destruct o as [|b]; simpl; [intros Hw; exists Get; by apply (i_not_empty s H)|]. intros (b' & ?)%(i_not_full s H). by exists (Put b'). Qed.

(** The queue [x] of [s] has been changed so that the condition of [o] holds;
    whoever waits, waits for it. *)
Lemma signal_ok o x s : inv s -> qwf x -> blocked o x = false ->
  lock x = lock (q s) -> not_full x = not_full (q s) -> not_empty x = not_empty (q s) ->
  (forall t o', procs s !! t = Some (In_wait o') -> waiter o (q s) = Some t) ->
  exists s', signal o (set_q x s) = Ok s' /\ inv s' /\ q s' = set_waiter o None x.
Proof.
  intros H Hx Hb Hl Hf He Honly. destruct H as [I1 I2 I3 I4 I5 I6]. have Hw : waiter o x = waiter o (q s) by destruct o.
  rewrite /signal /= Hb /= Hw.
  have Hnw : forall o', waiter o' (set_waiter o None x) = None \/ (waiter o' (set_waiter o None x) = waiter o' (q s)
      /\ forall w, waiter o' (q s) = Some w -> waiter o (q s) = Some w).
  { intros o'. destruct o, o'; simpl; auto; right; (split; [done|]); intros w Hw'; [destruct (I4 w Hw') as (b' & Hp)|have Hp := I3 w Hw']; by apply Honly in Hp. }
  have Hnone : waiter o (set_waiter o None x) = None by destruct o.
  destruct (waiter o (q s)) as [t|] eqn:Ht.
  - have [o' Ho] : exists o', procs s !! t = Some (In_wait o').
    { destruct o as [|b]; simpl in Ht; [exists Get; by apply I3|]. apply I4 in Ht as (b' & ?). by exists (Put b'). }
    rewrite /thread_unblock /= Ho /=. eexists. split; [done|]. split; [|done].
    have Hu : forall t' o2, <[t:=Woken o']> (procs s) !! t' = Some (In_wait o2) -> False.
    { intros t' o2. destruct (decide (t' = t)) as [-> | Hne]; [by rewrite lookup_insert_eq|]. rewrite lookup_insert_ne //.
      intros Hp%Honly. congruence. }
    have Hlk : lock (set_waiter o None x) = Some t by destruct o; simpl; rewrite Hl; by apply (I2 t o').
    split; cbn [q procs set_q set_pc].
    + destruct Hx. by destruct o.
    + intros t' o2 Hp. by apply Hu in Hp.
    + intros t' Hne. exfalso. destruct o as [|b]; [by simpl in Hne|]. simpl in Hne. rewrite He in Hne. have Hp := I3 t' Hne. 
      have Heq := Honly _ _ Hp. destruct (I2 _ _ Hp) as (_ & _ & Hbl). 
      have Htt : t' = t by congruence. subst t'. 
      simpl in Ht. destruct (I4 _ Ht) as (b2 & Hp2). congruence.
    + intros t' Hne. exfalso. destruct o as [|b]; [|by simpl in Hne]. simpl in Hne. rewrite Hf in Hne. destruct (I4 _ Hne) as (b2 & Hp).
      have Heq := Honly _ _ Hp. have Htt : t' = t by congruence. subst t'. simpl in Ht. rewrite (I3 _ Ht) in Hp. done.
    + intros t' o2. destruct (decide (t' = t)) as [-> | Hne]; [by rewrite lookup_insert_eq|]. rewrite lookup_insert_ne //.
      intros Hp%I5. rewrite Hlk. destruct (I2 t o' Ho) as (_ & Hl' & _). congruence.
    + intros t' Hl'. have Htt : t' = t by congruence. subst t'. exists o'. right. by rewrite lookup_insert_eq.
  - eexists. split; [done|]. have Hq : x = set_waiter o None x by destruct o, x; simpl in *; congruence.
    have Hu : forall t' o2, procs s !! t' = Some (In_wait o2) -> False by intros t' o2 Hp%Honly.
    split; [|done]. split; cbn [q procs set_q].
    + done.
    + by intros t o2 Hp%Hu.
    + intros t. rewrite He. apply I3.
    + intros t. rewrite Hf. apply I4.
    + intros t o2. rewrite Hl. apply I5.
    + intros t. rewrite Hl. apply I6.
Qed.

(** ** One section *)
Definition track (e : option event) (x x' : intq) : Prop :=
  match e with
  | None => contents x' = contents x
  | Some (Got b) => contents x = b :: contents x'
  | Some (Did_put b) => contents x' = contents x ++ [b]
  end.

Lemma contents_data x x' : buf x' = buf x -> head x' = head x -> tail x' = tail x -> contents x' = contents x.
Proof. intros H1 H2 H3. by rewrite /contents /count H1 H2 H3. Qed.
Lemma contents_waiter o w x : contents (set_waiter o w x) = contents x.
Proof. by destruct o. Qed.

Lemma intq_take_ok s : inv s -> intq_empty (q s) = false ->
  exists b s', intq_take s = Ok (Got b, s') /\ inv s' /\ contents (q s) = b :: contents (q s').
Proof.
  intros H He. destruct (contents_take _ (i_wf s H) He) as (b & Hb & Hc). rewrite /intq_take Hb. cbn [oget obind].
  destruct (i_wf s H) as [W1 W2 W3].
  have Hwf : qwf (mk_intq (lock (q s)) (not_full (q s)) (not_empty (q s)) (buf (q s)) (head (q s)) (next (tail (q s)))).
  { split; [done|done|]. by apply next_range. }
  destruct (signal_ok (Put 0) _ s H Hwf) as (s' & Hs & Hi & Hq); try done.
  - simpl. rewrite full_count //. apply bool_decide_eq_false. intros Hcnt.
    have := count_bound (q s). have := length_seq. intros _ Hlt. have Hl := f_equal length Hc. rewrite /contents /= !length_fmap !length_seq in Hl. lia.
  - intros t o' Hp. destruct (i_wait s H t o' Hp) as (Hw & _ & Hbl). destruct o'; [|done]. simpl in Hbl. congruence.
  - exists b, s'. rewrite Hs. split; [done|]. split; [done|]. by rewrite Hq contents_waiter.
Qed.
Lemma intq_store_ok b s : inv s -> intq_full (q s) = false ->
  exists s', intq_store b s = Ok (Did_put b, s') /\ inv s' /\ contents (q s') = contents (q s) ++ [b].
Proof.
  intros H Hf. have Hc := contents_store _ b (i_wf s H) Hf. rewrite /intq_store. destruct (i_wf s H) as [W1 W2 W3].
  set x := mk_intq _ _ _ _ _ _ in Hc |- *.
  have Hwf : qwf x. { split; [by rewrite length_insert|by apply next_range|done]. }
  destruct (signal_ok Get x s H Hwf) as (s' & Hs & Hi & Hq); try done.
  - intros t o' Hp. destruct (i_wait s H t o' Hp) as (Hw & _ & Hbl). destruct o'; [done|]. simpl in Hbl. congruence.
  - exists s'. rewrite Hs. split; [done|]. split; [done|]. by rewrite Hq contents_waiter.
Qed.

Lemma signal_leave o t s : waiter o (q s) <> Some t ->
  signal o (leave t s) = match signal o s with Ok s' => Ok (leave t s') | Err e => Err e end.
Proof.
  intros Hw. rewrite /signal /=. destruct (blocked o (q s)); [done|]. simpl. destruct (waiter o (q s)) as [w|]; [|done].
  have Hne : w <> t by congruence. rewrite /thread_unblock /= lookup_delete_ne //.
  destruct (procs s !! w) as [[]|]; try done. simpl. rewrite /set_pc /leave /set_q /=. by rewrite delete_insert_ne.
Qed.
Lemma no_waiter_left o t s : inv (leave t s) -> waiter o (q s) <> Some t.
Proof. intros H Hw. destruct (waiter_in_wait o (leave t s) t H Hw) as (o' & Hp). by rewrite /= lookup_delete_eq in Hp. Qed.

Lemma run_leave o t s : inv (leave t s) -> blocked o (q s) = false -> run (Some t) o s = run None o (leave t s).
Proof.
  intros H Hb. rewrite /run /= Hb. destruct o as [|b]; rewrite /intq_take /intq_store /=.
  - destruct (buf (q s) !! Z.to_nat (tail (q s))); [|done]. simpl. set x := mk_intq _ _ _ _ _ _.
    change (set_q x (leave t s)) with (leave t (set_q x s)). rewrite signal_leave; [|by destruct (signal (Put 0) (set_q x s))].
    exact (no_waiter_left (Put 0) t s H).
  - set x := mk_intq _ _ _ _ _ _.
    change (set_q x (leave t s)) with (leave t (set_q x s)). rewrite signal_leave; [|by destruct (signal Get (set_q x s))].
    exact (no_waiter_left Get t s H).
Qed.

Lemma run_none_ok o s : inv s -> blocked o (q s) = false ->
  exists e s', run None o s = Ok (Some e, s') /\ inv s' /\ track (Some e) (q s) (q s').
Proof.
  intros H Hb. rewrite /run Hb. destruct o as [|b].
  - destruct (intq_take_ok s H Hb) as (b & s' & -> & Hi & Hc). by exists (Got b), s'.
  - destruct (intq_store_ok b s H Hb) as (s' & -> & Hi & Hc). by exists (Did_put b), s'.
Qed.

(** The thread [t] takes the free lock and waits. *)
Lemma wait_ok t o s : inv (leave t s) -> lock (q s) = None -> blocked o (q s) = true ->
  exists s', wait t o (set_q (set_lock (Some t) (q s)) s) = Ok s' /\ inv s' /\ contents (q s') = contents (q s) /\ procs s' = <[t := In_wait o]> (procs s).
Proof.
  intros H Hl Hb. destruct H as [I1 I2 I3 I4 I5 I6]. rewrite /wait. have -> : blocked o (q (set_q (set_lock (Some t) (q s)) s)) = true by destruct o.
  simpl. eexists. split; [done|]. split; [|split; [by destruct o|done]].
  have Hn : forall t' o', t' <> t -> procs s !! t' <> Some (In_wait o').
  { intros t' o' Hne Hp. destruct (I2 t' o') as (_ & Hl' & _); [by rewrite /= lookup_delete_ne|]. simpl in Hl'. congruence. }
  have Hne : not_empty (q s) = None.
  { destruct (not_empty (q s)) as [w|] eqn:Hw; [|done]. have Hp := I3 w Hw. simpl in Hp. rewrite lookup_delete_Some in Hp. destruct Hp as [Hwt Hp]. by apply Hn in Hp. }
  have Hnf : not_full (q s) = None.
  { destruct (not_full (q s)) as [w|] eqn:Hw; [|done]. destruct (I4 w Hw) as (b & Hp). simpl in Hp. rewrite lookup_delete_Some in Hp. destruct Hp as [Hwt Hp]. by apply Hn in Hp. }
  split; cbn [q procs set_q set_pc].
  - destruct I1. by destruct o.
  - intros t' o'. destruct (decide (t' = t)) as [-> | Hd]; [|rewrite lookup_insert_ne //; by intros ?%Hn].
    rewrite lookup_insert_eq. intros [= <-]. by destruct o.
  - intros t'. destruct o as [|b]; simpl; [|congruence]. intros [= <-]. by rewrite lookup_insert_eq.
  - intros t'. destruct o as [|b]; simpl; [congruence|]. intros [= <-]. exists b. by rewrite lookup_insert_eq.
  - intros t' o'. destruct (decide (t' = t)) as [-> | Hd]; [by rewrite lookup_insert_eq|]. rewrite lookup_insert_ne // => Hp.
    have Hl' := I5 t' o'. simpl in Hl'. rewrite lookup_delete_ne // Hl in Hl'. by apply Hl' in Hp.
  - intros t' Hlk. have Ht : t' = t by destruct o; simpl in Hlk; congruence. subst t'. exists o. left. by rewrite lookup_insert_eq.
Qed.

(** A thread stops in [lock_acquire]. *)
Lemma inv_At_lock t o s : inv (leave t s) -> inv (set_pc t (At_lock o) s).
Proof.
  intros [I1 I2 I3 I4 I5 I6]. cbn [q procs leave] in *. split; cbn [q procs set_pc].
  - done.
  - intros t' o'. destruct (decide (t' = t)) as [-> | Hd]; [by rewrite lookup_insert_eq|]. rewrite lookup_insert_ne // => Hp. apply I2. by rewrite lookup_delete_ne.
  - intros t' Hp%I3. apply lookup_delete_Some in Hp as [? ?]. by rewrite lookup_insert_ne.
  - intros t' (b & Hp)%I4. exists b. apply lookup_delete_Some in Hp as [? ?]. by rewrite lookup_insert_ne.
  - intros t' o'. destruct (decide (t' = t)) as [-> | Hd]; [by rewrite lookup_insert_eq|]. rewrite lookup_insert_ne // => Hp. apply (I5 t' o'). by rewrite lookup_delete_ne.
  - intros t' (o' & Hp)%I6. exists o'. rewrite !lookup_delete_Some in Hp. destruct Hp as [[? ?]|[? ?]]; rewrite lookup_insert_ne //; auto.
Qed.
Lemma run_some_ok t o s : inv (leave t s) ->
  exists e s', run (Some t) o s = Ok (e, s') /\ inv s' /\ track e (q s) (q s').
Proof.
  intros H. destruct (blocked o (q s)) eqn:Hb.
  - rewrite /run Hb. destruct (lock (q s)) as [h|] eqn:Hl.
    + eexists _, _. split; [done|]. split; [by apply inv_At_lock|done].
    + destruct (wait_ok t o s H Hl Hb) as (s' & -> & Hi & Hc & _). by exists None, s'.
  - rewrite run_leave //. destruct (run_none_ok o (leave t s) H Hb) as (e & s' & -> & Hi & Ht). by exists (Some e), s'.
Qed.

(** Threads that are not in a wait can be taken out. *)
Lemma inv_leave_free t s : inv s -> procs s !! t = None \/ (exists o, procs s !! t = Some (At_lock o)) -> inv (leave t s).
Proof.
  intros [I1 I2 I3 I4 I5 I6] Ht.
  have Hne : forall t' p, procs s !! t' = Some p -> (forall o, p <> At_lock o) -> t' <> t.
  { intros t' p Hp Hn ->. destruct Ht as [Ht|[o Ht]]; [congruence|]. rewrite Ht in Hp. injection Hp as <-. by apply (Hn o). }
  split; cbn [q procs leave].
  - done.
  - intros t' o' [_ Hp]%lookup_delete_Some. by apply I2.
  - intros t' Hp%I3. rewrite lookup_delete_ne //. by apply not_eq_sym, (Hne t' _ Hp).
  - intros t' (b & Hp)%I4. exists b. rewrite lookup_delete_ne //. by apply not_eq_sym, (Hne t' _ Hp).
  - intros t' o' [_ Hp]%lookup_delete_Some. by apply (I5 t' o').
  - intros t' (o' & Hp)%I6. exists o'. have Hd : t' <> t by destruct Hp as [Hp|Hp]; by apply (Hne t' _ Hp). by rewrite lookup_delete_ne.
Qed.
(** The woken thread releases the lock. *)
Lemma inv_release t o s : inv s -> procs s !! t = Some (Woken o) ->
  lock (q s) = Some t /\ inv (leave t (set_q (set_lock None (q s)) s)).
Proof.
  intros [I1 I2 I3 I4 I5 I6] Ht. have Hl := I5 t o Ht. split; [done|].
  have Hn : forall t' o', procs s !! t' <> Some (In_wait o').
  { intros t' o' Hp. destruct (I2 t' o' Hp) as (_ & Hl' & _). have Htt : t' = t by congruence. subst. congruence. }
  split; cbn [q procs leave set_q set_lock lock not_empty not_full].
  - destruct I1. by split.
  - intros t' o' [_ Hp]%lookup_delete_Some. by apply Hn in Hp.
  - by intros t' Hp%I3%Hn.
  - intros t' (b & Hp)%I4. by apply Hn in Hp.
  - intros t' o' [Hne Hp]%lookup_delete_Some. apply I5 in Hp. congruence.
  - done.
Qed.

(** No section fails, except that of a thread that gets the lock when the
    condition it waited for holds already. *)
Lemma intq_exec_ok a s : inv s -> enabled a s ->
  (exists e s', exec a s = Ok (e, s') /\ inv s' /\ track e (q s) (q s')) \/
  (exec a s = Err Panic /\ exists t o, a = Lock t /\ procs s !! t = Some (At_lock o) /\ blocked o (q s) = false).
Proof.
  intros H Hen. destruct a as [t o|t|t|o]; simpl in Hen.
  - left. have -> : exec (Call t o) s = run (Some t) o s by destruct o. apply run_some_ok, inv_leave_free; auto.
  - destruct Hen as [(o & Ho) Hl]. simpl. rewrite Ho. destruct (blocked o (q s)) eqn:Hb.
    + left. destruct (wait_ok t o s) as (s' & -> & Hi & Hc & _); [apply inv_leave_free; eauto|done|done|]. by exists None, s'.
    + right. split; [|eauto]. rewrite /wait. by have -> : blocked o (q (set_q (set_lock (Some t) (q s)) s)) = false by destruct o.
  - left. destruct Hen as [o Ho]. simpl. rewrite Ho. destruct (inv_release t o s H Ho) as [Hl Hi]. rewrite Hl bool_decide_eq_true_2 //. cbn [obind ASSERT].
    destruct (run_some_ok t o _ Hi) as (e & s' & Hr & Hi' & Ht). exists e, s'. split; [by destruct o|]. split; [done|].
    have Hd : contents (q (set_q (set_lock None (q s)) s)) = contents (q s) by done. rewrite /track in Ht |- *. by rewrite Hd in Ht.
  - left. have -> : exec (Intr o) s = run None o s by destruct o. destruct (run_none_ok o s H Hen) as (e & s' & Hr & ?). by exists (Some e), s'.
Qed.

Lemma runs_inv s tr s' : runs s tr s' -> inv s -> inv s'.
Proof.
  induction 1 as [|s tr s1 a e s2 Hr IH Hen Hx]; intros Hi; [done|]. specialize (IH Hi).
  destruct (intq_exec_ok a s1 IH Hen) as [(e' & s' & Hx' & Hi' & _)|(Hx' & _)]; congruence.
Qed.
Lemma runs_fifo s tr s' : runs s tr s' -> inv s -> contents (q s) = [] -> puts tr = gets tr ++ contents (q s').
Proof.
  intros Hr Hi H0. induction Hr as [s|s tr s1 a e s2 Hr IH Hen Hx]; [by rewrite H0|]. specialize (IH Hi H0).
  destruct (intq_exec_ok a s1 (runs_inv _ _ _ Hr Hi) Hen) as [(e' & s' & Hx' & _ & Ht)|(Hx' & _)]; [|congruence].
  have Heq : e' = e /\ s' = s2 by split; congruence. destruct Heq as [-> ->]. rewrite /puts /gets in IH |- *. rewrite !omap_app IH.
  destruct e as [[b|b]|]; simpl in Ht |- *; rewrite ?Ht ?app_nil_r -?app_assoc //=.
Qed.

(** The threads that use the queue. *)
Definition user (a : action) : option Z := match a with Call t _ | Lock t | Resume t => Some t | Intr _ => None end.
Inductive runs_by (t : Z) : state -> state -> Prop :=
| by_nil s : runs_by t s s
| by_step s s1 a e s2 : runs_by t s s1 -> enabled a s1 -> (user a = None \/ user a = Some t) -> exec a s1 = Ok (e, s2) -> runs_by t s s2.

Lemma signal_procs o s s' : signal o s = Ok s' ->
  forall t, procs s' !! t = procs s !! t \/ exists o', procs s' !! t = Some (Woken o').
Proof.
  rewrite /signal. intros H t. apply obind_Ok_inv in H as (_ & _ & H). destruct (waiter o (q s)) as [w|]; [|injection H as <-; by left].
  apply obind_Ok_inv in H as (s1 & Hu & H). injection H as <-. rewrite /thread_unblock in Hu. destruct (procs s !! w) as [[]|] eqn:Hw; try done.
  injection Hu as <-. simpl. destruct (decide (t = w)) as [-> | Hne]; [rewrite lookup_insert_eq; eauto|]. rewrite lookup_insert_ne; auto.
Qed.
(** A thread that is alone on the queue never stops in [lock_acquire], and
    leaves no other thread on it. *)
Definition alone (t : Z) (s : state) : Prop := forall t' p, procs s !! t' = Some p -> t' = t /\ forall o, p <> At_lock o.

Lemma alone_lock t s : inv s -> alone t s -> procs s !! t = None -> lock (q s) = None.
Proof.
  intros H Ha Hn. destruct (lock (q s)) as [h|] eqn:Hl; [|done]. destruct (i_lock s H h Hl) as (o & [Hp|Hp]); destruct (Ha h _ Hp); congruence.
Qed.
Lemma signal_alone t o s s' : signal o s = Ok s' -> alone t s -> alone t s'.
Proof.
  intros H Ha t' p Hp. destruct (signal_procs o s s' H t') as [Heq|(o' & Hw)].
  - rewrite Heq in Hp. by apply Ha.
  - split; [|congruence]. revert Hw. rewrite /signal in H. apply obind_Ok_inv in H as (_ & _ & H). destruct (waiter o (q s)) as [w|]; [|injection H as <-; intros Hw; by apply (Ha t' _ Hw)].
    apply obind_Ok_inv in H as (s1 & Hu & H). injection H as <-. rewrite /thread_unblock in Hu. destruct (procs s !! w) as [[]|] eqn:Hw; try done.
    injection Hu as <-. simpl. destruct (decide (t' = w)) as [-> | Hne]; [by intros _; apply (Ha w _ Hw)|]. rewrite lookup_insert_ne; [by apply not_eq_sym|]. intros Hp'. by apply (Ha t' _ Hp').
Qed.
Lemma run_alone t who o s e s' : run who o s = Ok (e, s') -> alone t s -> (who = None \/ (who = Some t /\ lock (q s) = None)) -> alone t s'.
Proof.
  intros H Ha Hw. rewrite /run in H. destruct (blocked o (q s)).
  - destruct Hw as [-> | [-> Hl]]; [done|]. rewrite Hl in H. apply obind_Ok_inv in H as (s1 & Hwt & H). injection H as <- <-.
    rewrite /wait in Hwt. apply obind_Ok_inv in Hwt as (_ & _ & Hwt). injection Hwt as <-. intros t' p. simpl.
    destruct (decide (t' = t)) as [-> | Hne]; [rewrite lookup_insert_eq; by intros [= <-]|]. rewrite lookup_insert_ne; [by apply not_eq_sym|]. apply Ha.
  - apply obind_Ok_inv in H as ([e' s1] & Hb & H). injection H as <- <-. have Ha1 : alone t s1.
    { destruct o as [|b]; rewrite /intq_take /intq_store in Hb.
      - apply obind_Ok_inv in Hb as (b & _ & Hb). apply obind_Ok_inv in Hb as (s2 & Hs & Hb). injection Hb as _ <-. by apply (signal_alone t) in Hs.
      - apply obind_Ok_inv in Hb as (s2 & Hs & Hb). injection Hb as _ <-. by apply (signal_alone t) in Hs. }
    destruct who as [t0|]; [|done]. intros t' p. simpl. intros [_ Hp]%lookup_delete_Some. by apply Ha1.
Qed.
Lemma runs_by_alone t s s' : runs_by t s s' -> inv s -> alone t s -> inv s' /\ alone t s'.
Proof.
  induction 1 as [|s s1 a e s2 Hr IH Hen Hu Hx]; intros Hi Ha; [done|]. destruct (IH Hi Ha) as [Hi1 Ha1]. split.
  { destruct (intq_exec_ok a s1 Hi1 Hen) as [(e' & s' & Hx' & Hi' & _)|(Hx' & _)]; congruence. }
  destruct a as [t1 o|t1|t1|o]; simpl in Hu, Hen.
  - destruct Hu as [|[= ->]]; [done|]. have Hx' : run (Some t) o s1 = Ok (e, s2) by destruct o.
    apply (run_alone t) in Hx'; [done|done|right; split; [done|by apply (alone_lock t)]].
  - destruct Hen as [[o Ho] _]. destruct (Ha1 _ _ Ho) as [_ Hn]. by destruct (Hn o).
  - destruct Hu as [|[= ->]]; [done|]. destruct Hen as [o Ho]. simpl in Hx. rewrite Ho in Hx. apply obind_Ok_inv in Hx as (_ & _ & Hx).
    have Hx' : run (Some t) o (set_q (set_lock None (q s1)) s1) = Ok (e, s2) by destruct o.
    apply (run_alone t) in Hx'; [done|done|by right].
  - have Hx' : run None o s1 = Ok (e, s2) by destruct o. apply (run_alone t) in Hx'; [done|done|by left].
Qed.

(** Interrupt queues are first-in first-out.  After any interleaving of
    calls by any number of threads and of interrupt handlers that look before
    they call, the bytes put are the bytes got followed by what is in the
    queue, at most 63 bytes; a thread asleep in [wait] is the one recorded for
    the next [signal] and the condition it sleeps for does not hold, so that no
    wake-up is lost. *)
Theorem intq_fifo (b : list Z) (tr : list event) (s : state) :
  length b = 64%nat -> runs (mk_state (intq_init b) ∅) tr s ->
  puts tr = gets tr ++ contents (q s) /\ (length (contents (q s)) <= 63)%nat /\
  forall t o, procs s !! t = Some (In_wait o) -> waiter o (q s) = Some t /\ blocked o (q s) = true.
Proof.
  intros Hb Hr. have Hi := inv_init b Hb. split_and!.
  - by apply (runs_fifo _ _ _ Hr).
  - rewrite /contents length_fmap length_seq. have := count_bound (q s). lia.
  - intros t o Hp. by destruct (i_wait s (runs_inv _ _ _ Hr Hi) t o Hp) as (? & _ & ?).
Qed.
(** A thread waits on the empty queue; a handler puts two bytes; the thread
    gets the first. *)
Lemma intq_fifo_witness :
  exists s, runs (mk_state (intq_init (replicate 64 0)) ∅) [Did_put 65; Did_put 66; Got 65] s /\
  puts [Did_put 65; Did_put 66; Got 65] = gets [Did_put 65; Did_put 66; Got 65] ++ contents (q s) /\
  (length (contents (q s)) <= 63)%nat /\
  forall t o, procs s !! t = Some (In_wait o) -> waiter o (q s) = Some t /\ blocked o (q s) = true.
Proof.
  eexists. match goal with |- ?P /\ _ => assert (Hr : P) end.
  { eapply (runs_step _ [Did_put 65; Did_put 66] _ (Resume 7) (Some (Got 65))).
    - eapply (runs_step _ [Did_put 65] _ (Intr (Put 66)) (Some (Did_put 66))).
      + eapply (runs_step _ [] _ (Intr (Put 65)) (Some (Did_put 65))).
        * eapply (runs_step _ [] _ (Call 7 Get) None); [apply runs_nil|reflexivity|vm_compute; reflexivity].
        * reflexivity.
        * vm_compute; reflexivity.
      + reflexivity.
      + vm_compute; reflexivity.
    - eexists. reflexivity.
    - vm_compute; reflexivity. }
  split; [exact Hr|]. exact (intq_fifo (replicate 64 0) _ _ eq_refl Hr).
Defined.

(** With one thread on a queue no assertion of intq.c fails, whatever the
    interrupt handlers do: every action that is possible succeeds. *)
Theorem intq_one_thread_safe (b : list Z) (t : Z) (s : state) (a : action) :
  length b = 64%nat -> runs_by t (mk_state (intq_init b) ∅) s -> enabled a s -> user a = None \/ user a = Some t ->
  exists e s', exec a s = Ok (e, s').
Proof.
  intros Hb Hr Hen Hu. destruct (runs_by_alone t _ _ Hr (inv_init b Hb)) as [Hi Ha]; [by intros t' p|].
  destruct (intq_exec_ok a s Hi Hen) as [(e & s' & H & _)|(_ & t' & o & _ & Hp & _)]; [eauto|]. destruct (Ha _ _ Hp) as [_ Hn]. by destruct (Hn o).
Qed.
Lemma intq_one_thread_safe_witness :
  exists s e s', exec (Call 7 Get) (mk_state (intq_init (replicate 64 0)) ∅) = Ok (None, s) /\ exec (Intr (Put 65)) s = Ok (e, s').
Proof.
  eexists. assert (H : exists e s', exec (Intr (Put 65)) (mk_state (mk_intq (Some 7) None (Some 7) (replicate 64 0) 0 0) {[7 := In_wait Get]}) = Ok (e, s')).
  { eapply (intq_one_thread_safe (replicate 64 0) 7); [reflexivity| |reflexivity|by left].
    eapply (by_step _ _ _ (Call 7 Get)); [apply by_nil|reflexivity|by right|vm_compute; reflexivity]. }
  destruct H as (e & s' & H). exists e, s'. split; [vm_compute; reflexivity|exact H].
Defined.

(** Two threads in [intq_getc] can bring the kernel down.  Thread 1 waits
    on the empty queue with the lock held, thread 2 stops in [lock_acquire];
    two bytes arrive and thread 1 takes the first.  Thread 2 then gets the lock
    with a byte in the queue, and the assertion of [wait] that the queue is
    empty fails. *)
Theorem intq_two_threads_panic (b : list Z) (s : state) :
  length b = 64%nat -> s = mk_state (intq_init b) ∅ -> exists tr s', runs s tr s' /\ enabled (Lock 2) s' /\ exec (Lock 2) s' = Err Panic.
Proof.
  intros Hb ->. do 64 (destruct b as [|? b]; [done|]). destruct b; [|done].
  eexists _, _. split_and!.
  - eapply (runs_step _ _ _ (Resume 1) (Some (Got 66))).
    + eapply (runs_step _ _ _ (Intr (Put 67)) (Some (Did_put 67))).
      * eapply (runs_step _ _ _ (Intr (Put 66)) (Some (Did_put 66))).
        { eapply (runs_step _ _ _ (Call 2 Get) None).
          - eapply (runs_step _ _ _ (Call 1 Get) None); [apply runs_nil|reflexivity|vm_compute; reflexivity].
          - reflexivity.
          - vm_compute; reflexivity. }
        { reflexivity. }
        { vm_compute; reflexivity. }
      * reflexivity.
      * vm_compute; reflexivity.
    + eexists. reflexivity.
    + vm_compute; reflexivity.
  - split; [eexists; reflexivity|reflexivity].
  - reflexivity.
Qed.
Lemma intq_two_threads_panic_witness :
  exists tr s', runs (mk_state (intq_init (replicate 64 0)) ∅) tr s' /\ enabled (Lock 2) s' /\ exec (Lock 2) s' = Err Panic.
Proof. exact (intq_two_threads_panic (replicate 64 0) _ eq_refl eq_refl). Defined.
