(* ===== verification/Kbd.v ===== *)
(** * devices/kbd.c, devices/input.c: the keyboard and the input buffer

    Scan codes come from port [DATA_REG]; [port] is what reading it will return.
    The interrupt handler turns them into characters in the input buffer, an
    interrupt queue (Intq.v).  A thread takes keys from it with [input_getc].
    [serial_notify] talks to the serial port and is left out.

    The theorem: every printable character can be typed, with and without Caps
    Lock, and text that fits arrives as typed. *)
From S2P Require Import Prelude Intq Printf.

(** ** devices/input.c *)
Definition input_init (b : list Z) : state := mk_state (intq_init b) ∅.
Definition input_full (s : state) : bool := intq_full (q s).
(** By an interrupt handler. *)
Definition input_putc (key : Z) (s : state) : outcome state :=
  assert! negb (intq_full (q s)) in let! (_, s) := intq_putc None key s in Ok s.
(** By thread [t]; no event when the thread has to wait. *)
Definition input_getc (t : Z) (s : state) : outcome (option event * state) := intq_getc (Some t) s.

(** ** devices/kbd.c *)
Record modifiers := mk_mods {
  left_shift : bool; right_shift : bool; left_alt : bool; right_alt : bool; left_ctrl : bool; right_ctrl : bool; caps_lock : bool }.
Record kbd := mk_kbd { mods : modifiers; key_cnt : Z; buffer : state }.

(** [struct keymap]: the first scan code, and the characters from there on. *)
Definition invariant_keymap : list (Z * list Z) :=
  [(0x01, [27]); (0x0e, [8]); (0x0f, 9 :: chars "QWERTYUIOP"); (0x1c, [13]); (0x1e, chars "ASDFGHJKL");
   (0x2c, chars "ZXCVBNM"); (0x37, chars "*"); (0x39, chars " "); (0x53, [127])].
Definition unshifted_keymap : list (Z * list Z) :=
  [(0x02, chars "1234567890-="); (0x1a, chars "[]"); (0x27, chars ";'`"); (0x2b, chars "\"); (0x33, chars ",./")].
Definition shifted_keymap : list (Z * list Z) :=
  [(0x02, chars "!@#$%^&*()_+"); (0x1a, chars "{}"); (0x27, [58; 34; 126]); (0x2b, chars "|"); (0x33, chars "<>?")].
Fixpoint map_key (k : list (Z * list Z)) (scancode : Z) : option Z :=
  match k with
  | [] => None
  | (first, cs) :: k =>
    if (first <=? scancode) && (scancode <? first + Z.of_nat (List.length cs)) then cs !! Z.to_nat (scancode - first) else map_key k scancode
  end.
Definition tolower (c : Z) : Z := if (65 <=? c) && (c <=? 90) then c - 65 + 97 else c.

(** The shift variable that a scan code stands for, with a new value. *)
Definition shift_keys (m : modifiers) (code : Z) (v : bool) : modifiers :=
  let 'mk_mods ls rs la ra lc rc caps := m in
  if code =? 0x2a then mk_mods v rs la ra lc rc caps else if code =? 0x36 then mk_mods ls v la ra lc rc caps
  else if code =? 0x38 then mk_mods ls rs v ra lc rc caps else if code =? 0xe038 then mk_mods ls rs la v lc rc caps
  else if code =? 0x1d then mk_mods ls rs la ra v rc caps else if code =? 0xe01d then mk_mods ls rs la ra lc v caps else m.

(** What a key means. *)
Inductive meaning := Shifts (m : modifiers) | Char (c : Z) | Nothing | Reboots.
#[export] Instance modifiers_eq_dec : EqDecision modifiers.
Proof. solve_decision. Defined.
#[export] Instance meaning_eq_dec : EqDecision meaning.
Proof. solve_decision. Defined.
Definition interpret (m : modifiers) (code : Z) (release : bool) : meaning :=
  let shift := left_shift m || right_shift m in
  let alt := left_alt m || right_alt m in
  let ctrl := left_ctrl m || right_ctrl m in
  if code =? 0x3a then
    if release then Nothing
    else Shifts (mk_mods (left_shift m) (right_shift m) (left_alt m) (right_alt m) (left_ctrl m) (right_ctrl m) (negb (caps_lock m)))
  else
    match match map_key invariant_keymap code with
          | Some c => Some c
          | None => if negb shift then map_key unshifted_keymap code else map_key shifted_keymap code
          end with
    | Some c =>
      if release then Nothing else
      if (c =? 127) && ctrl && alt then Reboots else
      let c := if ctrl && (0x40 <=? c) && (c <? 0x60) then c - 0x40 else if Bool.eqb shift (caps_lock m) then tolower c else c in
      Char (if alt then (c + 0x80) mod 256 else c)
    | None => Shifts (shift_keys m code (negb release))
    end.

(** [inb (DATA_REG)] *)
Definition inb (port : list Z) : outcome (Z * list Z) := match port with [] => Err Fault | b :: port => Ok (b, port) end.
(** No new state when the machine reboots. *)
Definition keyboard_interrupt (k : kbd) (port : list Z) : outcome (option kbd * list Z) :=
  let! (code, port) := inb port in
  let! (code, port) := if code =? 0xe0 then let! (b, port) := inb port in Ok (Z.lor (Z.shiftl code 8) b, port) else Ok (code, port) in
  let release := negb (Z.land code 0x80 =? 0) in
  let code := Z.land code (u32 (Z.lnot 0x80)) in
  match interpret (mods k) code release with
  | Shifts m => Ok (Some (mk_kbd m (key_cnt k) (buffer k)), port)
  | Nothing => Ok (Some k, port)
  | Reboots => Ok (None, port)
  | Char c =>
    if input_full (buffer k) then Ok (Some k, port)
    else let! b := input_putc c (buffer k) in Ok (Some (mk_kbd (mods k) (swrap 64 (key_cnt k + 1)) b), port)
  end.
(** The interrupts for all that the port holds. *)
Fixpoint interrupts (fuel : nat) (k : kbd) (port : list Z) : outcome (option kbd) :=
  match port with
  | [] => Ok (Some k)
  | _ => match fuel with
         | O => Err NoFuel
         | S fuel => let! (k, port) := keyboard_interrupt k port in
                     match k with Some k => interrupts fuel k port | None => Ok None end
         end
  end.
Definition typed (k : kbd) (port : list Z) : outcome (option kbd) := interrupts (List.length port) k port.

(** ** Typing *)
Definition held (shift caps : bool) : modifiers := mk_mods shift false false false false false caps.
(** A key and whether Shift must be down for the character. *)
Definition key_for (caps : bool) (c : Z) : option (nat * bool) :=
  list_find (fun x : nat * bool => interpret (held x.2 caps) (Z.of_nat x.1) false = Char c) (n ← seq 1 90; [(n, false); (n, true)]) ≫= fun r => Some r.2.
(** The scan codes of pressing and releasing the key, and Shift around it. *)
Definition keystroke (caps : bool) (c : Z) : list Z :=
  match key_for caps c with
  | Some (n, false) => [Z.of_nat n; Z.of_nat n + 128]
  | Some (n, true) => [0x2a; Z.of_nat n; Z.of_nat n + 128; 0xaa]
  | None => []
  end.
(** A scan code below 128, and its release. *)
Lemma interrupt_press k code port : 0 <= code < 128 -> keyboard_interrupt k (code :: port) =
  match interpret (mods k) code false with
  | Shifts m => Ok (Some (mk_kbd m (key_cnt k) (buffer k)), port)
  | Nothing => Ok (Some k, port)
  | Reboots => Ok (None, port)
  | Char c => if input_full (buffer k) then Ok (Some k, port) else let! b := input_putc c (buffer k) in Ok (Some (mk_kbd (mods k) (swrap 64 (key_cnt k + 1)) b), port)
  end.
Proof.
  intros Hc. have H : forallb (fun n => (Z.land (Z.of_nat n) 0x80 =? 0) && (Z.land (Z.of_nat n) (u32 (Z.lnot 0x80)) =? Z.of_nat n)) (seq 0 128) = true by vm_compute.
  rewrite forallb_forall in H. specialize (H (Z.to_nat code)). rewrite in_seq Z2Nat.id in H; [lia|]. specialize (H ltac:(lia)). apply andb_true_iff in H as [H1 H2%Z.eqb_eq].
  rw /keyboard_interrupt. cbn [inb obind]. rw (proj2 (Z.eqb_neq code 0xe0)); [lia|]. cbn [obind]. by rw H1 H2.
Qed.
Lemma interrupt_release k code port : 0 <= code < 96 -> keyboard_interrupt k ((code + 128) :: port) =
  match interpret (mods k) code true with
  | Shifts m => Ok (Some (mk_kbd m (key_cnt k) (buffer k)), port)
  | Nothing => Ok (Some k, port)
  | Reboots => Ok (None, port)
  | Char c => if input_full (buffer k) then Ok (Some k, port) else let! b := input_putc c (buffer k) in Ok (Some (mk_kbd (mods k) (swrap 64 (key_cnt k + 1)) b), port)
  end.
Proof.
  intros Hc. have H : forallb (fun n => negb (Z.land (Z.of_nat n + 128) 0x80 =? 0) && (Z.land (Z.of_nat n + 128) (u32 (Z.lnot 0x80)) =? Z.of_nat n)) (seq 0 96) = true by vm_compute.
  rewrite forallb_forall in H. specialize (H (Z.to_nat code)). rewrite in_seq Z2Nat.id in H; [lia|]. specialize (H ltac:(lia)). apply andb_true_iff in H as [H1 H2%Z.eqb_eq].
  rw /keyboard_interrupt. cbn [inb obind]. rw (proj2 (Z.eqb_neq (code + 128) 0xe0)); [lia|]. cbn [obind]. by rw H1 H2.
Qed.

(** What the keys of a printable character mean. *)
Lemma key_for_ok caps c : 32 <= c < 127 -> exists n sh, key_for caps c = Some (n, sh) /\ (n < 96)%nat /\
  interpret (held sh caps) (Z.of_nat n) false = Char c /\ interpret (held sh caps) (Z.of_nat n) true = Nothing.
Proof.
  intros Hc. have H : forallb (fun k => forallb (fun caps => match key_for caps (Z.of_nat k) with
      | Some (n, sh) => bool_decide ((n < 96)%nat /\ interpret (held sh caps) (Z.of_nat n) false = Char (Z.of_nat k) /\ interpret (held sh caps) (Z.of_nat n) true = Nothing)
      | None => false end) [false; true]) (seq 32 95) = true by vm_compute.
  rewrite forallb_forall in H. specialize (H (Z.to_nat c)). rewrite in_seq Z2Nat.id in H; [lia|]. specialize (H ltac:(lia)). rewrite forallb_forall in H.
  specialize (H caps ltac:(destruct caps; simpl; auto)). destruct (key_for caps c) as [[n sh]|]; [|done]. exists n, sh. split; [done|]. by apply bool_decide_eq_true in H.
Qed.

Lemma put_ok k c : inv (buffer k) -> input_full (buffer k) = false ->
  exists b, input_putc c (buffer k) = Ok b /\ inv b /\ contents (q b) = contents (q (buffer k)) ++ [c].
Proof.
  intros Hi Hf. rw /input_full in Hf. rw /input_putc Hf. cbn [negb ASSERT obind]. rw /intq_putc /run. cbn [blocked]. rw Hf. destruct (intq_store_ok c (buffer k) Hi Hf) as (b & -> & Hb & Hc). cbn [obind]. by exists b.
Qed.

(** One character. *)
Lemma keystroke_ok caps c k fuel rest : 32 <= c < 127 -> mods k = held false caps -> inv (buffer k) -> input_full (buffer k) = false ->
  exists b, interrupts (List.length (keystroke caps c) + fuel) k (keystroke caps c ++ rest) = interrupts fuel (mk_kbd (held false caps) (swrap 64 (key_cnt k + 1)) b) rest /\
    inv b /\ contents (q b) = contents (q (buffer k)) ++ [c].
Proof.
  intros Hc Hm Hi Hf. destruct (key_for_ok caps c Hc) as (n & sh & Hk & Hn & Hp & Hr). destruct (put_ok k c Hi Hf) as (b & Eb & Hb & Hcb). exists b. split; [|done]. rw /keystroke Hk. destruct sh.
  - cbn [List.length Nat.add app interrupts]. rw interrupt_press //. rw Hm. have -> : interpret (held false caps) 0x2a false = Shifts (held true caps) by destruct caps. cbn [obind interrupts].
    rw interrupt_press; [lia|]. cbn [mods buffer key_cnt]. rw Hp Hf Eb. cbn [obind interrupts]. rw interrupt_release; [lia|]. cbn [mods]. rw Hr. cbn [obind interrupts].
    change 0xaa with (42 + 128). by rw interrupt_release //.
  - cbn [List.length Nat.add app interrupts]. rw interrupt_press; [lia|]. rw Hm Hp Hf Eb. cbn [obind interrupts]. rw interrupt_release; [lia|]. cbn [mods]. by rw Hr.
Qed.

(** Typing.  For every text of printable characters that fits the input buffer,
    with Caps Lock on or off, there are keys to press for it, with Shift where it is
    needed, such that the interrupts they cause leave exactly that text at the end of
    the buffer, all shift keys up again and the keys counted; none is lost. *)
Theorem typing_correct (caps : bool) (text : list Z) (k : kbd) :
  Forall (fun c => 32 <= c < 127) text -> mods k = held false caps -> inv (buffer k) -> (count (q (buffer k)) + List.length text <= 63)%nat ->
  0 <= key_cnt k -> key_cnt k + Z.of_nat (List.length text) < 2 ^ 63 ->
  exists k', typed k (mjoin (keystroke caps <$> text)) = Ok (Some k') /\ mods k' = held false caps /\ inv (buffer k') /\
    contents (q (buffer k')) = contents (q (buffer k)) ++ text /\ key_cnt k' = key_cnt k + Z.of_nat (List.length text).
Proof.
  rw /typed. revert k. induction text as [|c text IH]; intros k Ht Hm Hi Hc Hk1 Hk2; [exists k; by rw app_nil_r Z.add_0_r|]. inversion Ht as [|? ? Ht1 Ht2]; subst.
  rw fmap_cons. change (mjoin (keystroke caps c :: (keystroke caps <$> text))) with (keystroke caps c ++ mjoin (keystroke caps <$> text)). rw length_app. simpl in Hc, Hk2.
  have Hf : input_full (buffer k) = false by rw /input_full full_count; [apply Hi|apply bool_decide_eq_false_2; lia].
  destruct (keystroke_ok caps c k (List.length (mjoin (keystroke caps <$> text))) (mjoin (keystroke caps <$> text)) Ht1 Hm Hi Hf) as (b & -> & Hb & Hcb).
  have Hlen : forall x, List.length (contents x) = count x by intros x; rw /contents length_fmap length_seq.
  have Hcnt : count (q b) = S (count (q (buffer k))) by rw -!Hlen Hcb length_app /=; lia.
  rw swrap_small; [lia|lia|]. destruct (IH (mk_kbd (held false caps) (key_cnt k + 1) b)) as (k' & E & H1 & H2 & H3 & H4); try done; simpl; [lia..|].
  exists k'. split_and!; try done; [by rw H3 /= Hcb -app_assoc|rw H4 /=; lia].
Qed.
Lemma typing_correct_witness : exists k', typed (mk_kbd (held false false) 0 (input_init (replicate 64 0))) (mjoin (keystroke false <$> chars "Hi!")) = Ok (Some k') /\ contents (q (buffer k')) = chars "Hi!".
Proof.
  destruct (typing_correct false (chars "Hi!") (mk_kbd (held false false) 0 (input_init (replicate 64 0)))) as (k' & E & _ & _ & H & _).
  - repeat constructor; by vm_compute.
  - done.
  - by apply inv_init.
  - vm_compute. lia.
  - done.
  - by vm_compute.
  - exists k'. split; [exact E|exact H].
Defined.
