(* ===== verification/Descr.v ===== *)
(** * Descriptors of the processor (userprog/gdt.c, userprog/tss.c, threads/interrupt.c)

    The segment descriptors of the global descriptor table, the task state segment, and
    the gates of the interrupt descriptor table, as the code assembles them from fields,
    and as the processor takes them apart.

    The theorem: what the code assembles the processor reads back, for every base,
    limit, type and privilege level, and what cannot be encoded fails an assertion. *)
From S2P Require Import Prelude.

(** ** What the code assembles *)
Definition CLS_SYSTEM : Z := 0.
Definition CLS_CODE_DATA : Z := 1.
Definition GRAN_BYTE : Z := 0.
Definition GRAN_PAGE : Z := 1.
Definition SEL_KCSEG : Z := 0x08.
Definition SEL_KDSEG : Z := 0x10.

Definition make_seg_desc (base limit class type dpl granularity : Z) : outcome Z :=
  assert! limit <=? 0xfffff in
  assert! (class =? CLS_SYSTEM) || (class =? CLS_CODE_DATA) in
  assert! (0 <=? type) && (type <=? 15) in
  assert! (0 <=? dpl) && (dpl <=? 3) in
  assert! (granularity =? GRAN_BYTE) || (granularity =? GRAN_PAGE) in
  let e0 := Z.lor (Z.land limit 0xffff) (u32 (Z.shiftl base 16)) in
  let e1 := Z.lor (Z.lor (Z.lor (Z.lor (Z.lor (Z.lor (Z.lor (Z.lor
              (Z.land (Z.shiftr base 16) 0xff)
              (Z.shiftl type 8)) (Z.shiftl class 12)) (Z.shiftl dpl 13)) (Z.shiftl 1 15))
              (Z.land limit 0xf0000)) (Z.shiftl 1 22)) (Z.shiftl granularity 23)) (Z.land base 0xff000000) in
  Ok (Z.lor e0 (Z.shiftl e1 32)).
Definition make_code_desc (dpl : Z) : outcome Z := make_seg_desc 0 0xfffff CLS_CODE_DATA 10 dpl GRAN_PAGE.
Definition make_data_desc (dpl : Z) : outcome Z := make_seg_desc 0 0xfffff CLS_CODE_DATA 2 dpl GRAN_PAGE.
Definition make_tss_desc (laddr : Z) : outcome Z := make_seg_desc laddr 0x67 CLS_SYSTEM 9 0 GRAN_BYTE.
Definition make_gdtr_operand (limit base : Z) : Z := Z.lor limit (Z.shiftl base 16).

(** [struct tss], the members that are used *)
Record tss := mk_tss { esp0 : Z; ss0 : Z; bitmap : Z }.
Definition PGSIZE : Z := 4096.
Definition tss_update (t : option tss) (thread_current : Z) : outcome (option tss) :=
  match t with None => Err Panic | Some t => Ok (Some (mk_tss (u32 (thread_current + PGSIZE)) (ss0 t) (bitmap t))) end.
(** [page] tells whether [palloc_get_page (PAL_ASSERT | PAL_ZERO)] finds one. *)
Definition tss_init (page : bool) (thread_current : Z) : outcome (option tss) :=
  if page then tss_update (Some (mk_tss 0 SEL_KDSEG 0xdfff)) thread_current else Err Panic.

(** The table that [gdt_init] makes, and the operand of [lgdt]. *)
Definition gdt_init (tss gdt : Z) : outcome (list Z * Z) :=
  let! kc := make_code_desc 0 in
  let! kd := make_data_desc 0 in
  let! uc := make_code_desc 3 in
  let! ud := make_data_desc 3 in
  let! ts := make_tss_desc tss in
  Ok ([0; kc; kd; uc; ud; ts], make_gdtr_operand (6 * 8 - 1) gdt).

Definition make_gate (function dpl type : Z) : outcome Z :=
  assert! negb (function =? 0) in
  assert! (0 <=? dpl) && (dpl <=? 3) in
  assert! (0 <=? type) && (type <=? 15) in
  let e0 := Z.lor (Z.land function 0xffff) (Z.shiftl SEL_KCSEG 16) in
  let e1 := Z.lor (Z.lor (Z.lor (Z.lor (Z.land function 0xffff0000) (Z.shiftl 1 15)) (Z.shiftl dpl 13)) (Z.shiftl 0 12)) (Z.shiftl type 8) in
  Ok (Z.lor e0 (Z.shiftl e1 32)).
Definition make_intr_gate (function dpl : Z) : outcome Z := make_gate function dpl 14.
Definition make_trap_gate (function dpl : Z) : outcome Z := make_gate function dpl 15.
Definition make_idtr_operand (limit base : Z) : Z := Z.lor limit (Z.shiftl base 16).

(** ** What the processor reads *)
Definition field (d lo width : Z) : Z := d / 2 ^ lo mod 2 ^ width.
Record segment := mk_seg { s_base : Z; s_limit : Z; s_type : Z; s_class : Z; s_dpl : Z; s_present : Z; s_32bit : Z; s_gran : Z }.
Definition read_segment (d : Z) : segment :=
  mk_seg (field d 16 24 + 2 ^ 24 * field d 56 8) (field d 0 16 + 2 ^ 16 * field d 48 4) (field d 40 4) (field d 44 1) (field d 45 2) (field d 47 1) (field d 54 1) (field d 55 1).
Record gate := mk_gate { g_offset : Z; g_selector : Z; g_type : Z; g_system : Z; g_dpl : Z; g_present : Z }.
Definition read_gate (d : Z) : gate :=
  mk_gate (field d 0 16 + 2 ^ 16 * field d 48 16) (field d 16 16) (field d 40 4) (field d 44 1) (field d 45 2) (field d 47 1).

(** ** Disjoint fields *)
Lemma lor_add k a b : 0 <= k -> 0 <= a < 2 ^ k -> 0 <= b -> Z.lor a (2 ^ k * b) = a + 2 ^ k * b.
Proof.
  intros Hk Ha Hb. rewrite -Z.lxor_lor; [|symmetry; apply Z.add_nocarry_lxor]; apply Z.bits_inj_0; intros n; rewrite Z.land_spec.
  all: destruct (Z.lt_ge_cases n k) as [Hn|Hn]; [rewrite Z.mul_comm Z.mul_pow2_bits_low //; apply andb_false_r|].
  all: destruct (decide (a = 0)) as [->|]; [by rewrite Z.bits_0|]; rewrite (Z.bits_above_log2 a) //; [lia|]; apply Z.lt_le_trans with k; [apply Z.log2_lt_pow2; lia|done].
Qed.
Lemma land_field x k n : 0 <= k -> 0 <= n -> Z.land x (Z.shiftl (Z.ones n) k) = 2 ^ k * field x k n.
Proof.
  intros Hk Hn. rewrite /field -Z.shiftr_div_pow2 // -Z.land_ones // Z.mul_comm -Z.shiftl_mul_pow2 //. apply Z.bits_inj'. intros i Hi. rewrite Z.land_spec.
  destruct (Z.lt_ge_cases i k) as [Hik|Hik]; [rewrite !Z.shiftl_spec_low // andb_false_r //|]. rewrite !Z.shiftl_spec // Z.land_spec Z.shiftr_spec; [lia|]. do 2 f_equal. lia.
Qed.
Lemma field_range x k n : 0 <= n -> 0 <= field x k n < 2 ^ n.
Proof. intros Hn. apply Z.mod_pos_bound. lia. Qed.

(** A word of 32 bits in pieces. *)
Lemma word_split x : 0 <= x < 2 ^ 32 -> x = field x 0 16 + 2 ^ 16 * field x 16 8 + 2 ^ 24 * field x 24 8 /\ field x 0 16 + 2 ^ 16 * field x 16 16 = x.
Proof. intros Hx. rewrite /field. change (2 ^ 0) with 1. change (2 ^ 16) with 65536. change (2 ^ 24) with 16777216. change (2 ^ 8) with 256. dlia. Qed.

(** The descriptor as a sum. *)
Lemma seg_sum base limit class type dpl g : 0 <= base < 2 ^ 32 -> 0 <= limit <= 0xfffff -> 0 <= class <= 1 -> 0 <= type <= 15 -> 0 <= dpl <= 3 -> 0 <= g <= 1 ->
  make_seg_desc base limit class type dpl g = Ok (field limit 0 16 + 2 ^ 16 * field base 0 16 + 2 ^ 32 * (field base 16 8 + 2 ^ 8 * type + 2 ^ 12 * class + 2 ^ 13 * dpl + 2 ^ 15 + 2 ^ 16 * field limit 16 4 + 2 ^ 22 + 2 ^ 23 * g + 2 ^ 24 * field base 24 8)).
Proof.
  intros Hb Hl Hc Ht Hd Hg. rewrite /make_seg_desc /CLS_SYSTEM /CLS_CODE_DATA /GRAN_BYTE /GRAN_PAGE.
  rewrite (proj2 (Z.leb_le limit _)); [lia|]. rewrite (proj2 (orb_true_iff (class =? 0) _)); [rewrite !Z.eqb_eq; lia|]. rewrite (proj2 (Z.leb_le 0 type)); [lia|]. rewrite (proj2 (Z.leb_le type 15)); [lia|].
  rewrite (proj2 (Z.leb_le 0 dpl)); [lia|]. rewrite (proj2 (Z.leb_le dpl 3)); [lia|]. rewrite (proj2 (orb_true_iff (g =? 0) _)); [rewrite !Z.eqb_eq; lia|]. cbn [ASSERT obind andb]. f_equal.
  have F1 := field_range limit 0 16. have F2 := field_range base 0 16. have F3 := field_range base 16 8. have F4 := field_range limit 16 4. have F5 := field_range base 24 8.
  have E1 : Z.land limit 0xffff = field limit 0 16 by rewrite -(Z.mul_1_l (field limit 0 16)); apply (land_field limit 0 16).
  have E2 : u32 (Z.shiftl base 16) = 2 ^ 16 * field base 0 16. { rewrite /wrap Z.shiftl_mul_pow2 // /field. change (2 ^ 0) with 1. change (2 ^ 32) with (2 ^ 16 * 2 ^ 16). rewrite Z.div_1_r Z.mul_comm Z.mul_mod_distr_l //. }
  have E3 : Z.land (Z.shiftr base 16) 0xff = field base 16 8 by rewrite /field -Z.shiftr_div_pow2 //; apply (Z.land_ones (Z.shiftr base 16) 8).
  have E4 : Z.land limit 0xf0000 = 2 ^ 16 * field limit 16 4 by apply (land_field limit 16 4).
  have E5 : Z.land base 0xff000000 = 2 ^ 24 * field base 24 8 by apply (land_field base 24 8).
  rewrite E1 E2 E3 E4 E5 !Z.shiftl_mul_pow2 //. rewrite !(Z.mul_comm _ (2 ^ _)) !Z.mul_1_r.
  rewrite (lor_add 8); [lia..|]. rewrite (lor_add 12); [lia..|]. rewrite (lor_add 13); [lia..|].
  rewrite -(Z.mul_1_r (2 ^ 15)) (lor_add 15); [lia..|]. rewrite (lor_add 16); [lia..|]. rewrite (lor_add 16); [lia..|]. rewrite -(Z.mul_1_r (2 ^ 22)) (lor_add 22); [lia..|]. rewrite (lor_add 23); [lia..|]. rewrite (lor_add 24); [lia..|].
  rewrite (lor_add 32); [lia..|]. lia.
Qed.
Lemma gate_sum function dpl type : 0 < function < 2 ^ 32 -> 0 <= type <= 15 -> 0 <= dpl <= 3 ->
  make_gate function dpl type = Ok (field function 0 16 + 2 ^ 16 * SEL_KCSEG + 2 ^ 32 * (2 ^ 8 * type + 2 ^ 13 * dpl + 2 ^ 15 + 2 ^ 16 * field function 16 16)).
Proof.
  intros Hf Ht Hd. rewrite /make_gate. rewrite (proj2 (Z.eqb_neq function 0)); [lia|]. rewrite (proj2 (Z.leb_le 0 type)); [lia|]. rewrite (proj2 (Z.leb_le type 15)); [lia|].
  rewrite (proj2 (Z.leb_le 0 dpl)); [lia|]. rewrite (proj2 (Z.leb_le dpl 3)); [lia|]. cbn [ASSERT obind andb negb]. f_equal. have F1 := field_range function 0 16. have F2 := field_range function 16 16.
  have E1 : Z.land function 0xffff = field function 0 16 by rewrite -(Z.mul_1_l (field function 0 16)); apply (land_field function 0 16).
  have E2 : Z.land function 0xffff0000 = 2 ^ 16 * field function 16 16 by apply (land_field function 16 16).
  rewrite E1 E2 !Z.shiftl_mul_pow2 //. rewrite !(Z.mul_comm _ (2 ^ _)) Z.mul_0_r Z.lor_0_r Z.mul_1_r. rewrite (Z.lor_comm _ (2 ^ 8 * type)) (Z.lor_comm (Z.lor _ _) (2 ^ 13 * dpl)) (Z.lor_comm (2 ^ 16 * _) (2 ^ 15)).
  rewrite (lor_add 16 (2 ^ 15)); [lia..|]. rewrite (lor_add 16 (field function 0 16)); [lia|lia|rewrite /SEL_KCSEG; lia|].
  replace (2 ^ 15 + 2 ^ 16 * field function 16 16) with (2 ^ 15 * (1 + 2 * field function 16 16)) by lia. rewrite (lor_add 15); [lia..|].
  replace (2 ^ 13 * dpl + 2 ^ 15 * (1 + 2 * field function 16 16)) with (2 ^ 13 * (dpl + 4 * (1 + 2 * field function 16 16))) by lia. rewrite (lor_add 13); [lia..|].
  rewrite (lor_add 32); [lia|rewrite /SEL_KCSEG; lia|lia|]. lia.
Qed.

Lemma field_at d k n lo f hi : 0 <= k -> 0 <= n -> 0 <= lo < 2 ^ k -> 0 <= f < 2 ^ n -> d = lo + 2 ^ k * (f + 2 ^ n * hi) -> field d k n = f.
Proof.
  intros Hk Hn Hlo Hf ->. rewrite /field (Z.mul_comm (2 ^ k)) Z.div_add; [lia|]. rewrite (Z.div_small lo) // Z.add_0_l (Z.mul_comm (2 ^ n)) Z.mod_add; [lia|]. by apply Z.mod_small.
Qed.
Lemma bit_test x : (x =? 0) || (x =? 1) = bool_decide (0 <= x <= 1).
Proof. case_bool_decide; zbool; try done; lia. Qed.
Lemma range_test x n : (0 <=? x) && (x <=? n) = bool_decide (0 <= x <= n).
Proof. case_bool_decide; zbool; try done; lia. Qed.

Lemma gate_reads function dpl type : 0 < function < 2 ^ 32 -> 0 <= type <= 15 -> 0 <= dpl <= 3 ->
  exists d, make_gate function dpl type = Ok d /\ 0 <= d < 2 ^ 64 /\ read_gate d = mk_gate function SEL_KCSEG type 0 dpl 1.
Proof.
  intros Hf Ht Hd. rewrite gate_sum //.
  have F1 := field_range function 0 16 ltac:(lia). have F2 := field_range function 16 16 ltac:(lia). destruct (word_split function) as [_ Ef]; [lia|]. set f0 := field function 0 16 in F1, Ef |- *. set f1 := field function 16 16 in F2, Ef |- *.
  match goal with |- context [2 ^ 32 * ?x] => set e := x end. set d := f0 + _ + 2 ^ 32 * e. exists d. split; [done|]. split; [rewrite /d /e /SEL_KCSEG; lia|]. rewrite /read_gate.
  rewrite (field_at d 0 16 (0) (f0) (8 + 2 ^ 16 * e)); [rewrite /SEL_KCSEG; lia..|rewrite /d /e /SEL_KCSEG; lia|].
  rewrite (field_at d 48 16 (f0 + 2 ^ 16 * 8 + 2 ^ 40 * type + 2 ^ 45 * dpl + 2 ^ 47) (f1) (0)); [rewrite /SEL_KCSEG; lia..|rewrite /d /e /SEL_KCSEG; lia|].
  rewrite (field_at d 16 16 (f0) (SEL_KCSEG) (e)); [rewrite /SEL_KCSEG; lia..|rewrite /d /e /SEL_KCSEG; lia|].
  rewrite (field_at d 40 4 (f0 + 2 ^ 16 * 8) (type) (2 * dpl + 2 ^ 3 + 2 ^ 4 * f1)); [rewrite /SEL_KCSEG; lia..|rewrite /d /e /SEL_KCSEG; lia|].
  rewrite (field_at d 44 1 (f0 + 2 ^ 16 * 8 + 2 ^ 40 * type) (0) (dpl + 2 ^ 2 + 2 ^ 3 * f1)); [rewrite /SEL_KCSEG; lia..|rewrite /d /e /SEL_KCSEG; lia|].
  rewrite (field_at d 45 2 (f0 + 2 ^ 16 * 8 + 2 ^ 40 * type) (dpl) (1 + 2 * f1)); [rewrite /SEL_KCSEG; lia..|rewrite /d /e /SEL_KCSEG; lia|].
  rewrite (field_at d 47 1 (f0 + 2 ^ 16 * 8 + 2 ^ 40 * type + 2 ^ 45 * dpl) (1) (f1)); [rewrite /SEL_KCSEG; lia..|rewrite /d /e /SEL_KCSEG; lia|].
  f_equal; lia.
Qed.

(** Descriptors.  For every base, limit of 20 bits, class, type, privilege level and
    granularity the processor reads from the descriptor that [make_seg_desc] makes exactly
    these, as a present 32-bit segment; a limit, type or level out of range fails an
    assertion.  From the gate that [make_gate] makes for a function it reads the address of
    that function in the kernel's code segment, the level and the type, as a present system
    gate. *)
Theorem descriptors_read_back base limit class type dpl g function :
  0 <= base < 2 ^ 32 -> 0 <= limit < 2 ^ 32 -> 0 <= function < 2 ^ 32 ->
  (if (limit <=? 0xfffff) && bool_decide (0 <= class <= 1) && bool_decide (0 <= type <= 15) && bool_decide (0 <= dpl <= 3) && bool_decide (0 <= g <= 1)
   then exists d, make_seg_desc base limit class type dpl g = Ok d /\ 0 <= d < 2 ^ 64 /\ read_segment d = mk_seg base limit type class dpl 1 1 g
   else make_seg_desc base limit class type dpl g = Err Panic) /\
  (if negb (function =? 0) && bool_decide (0 <= type <= 15) && bool_decide (0 <= dpl <= 3)
   then exists d, make_gate function dpl type = Ok d /\ 0 <= d < 2 ^ 64 /\ read_gate d = mk_gate function SEL_KCSEG type 0 dpl 1
   else make_gate function dpl type = Err Panic).
Proof.
  intros Hb Hl Hf. split.
  - destruct (limit <=? 0xfffff) eqn:E1; cbn [andb]; [apply Z.leb_le in E1|by rewrite /make_seg_desc E1]. destruct (bool_decide (0 <= class <= 1) && _ && _ && _) eqn:E; last first.
    { rewrite /make_seg_desc /CLS_SYSTEM /CLS_CODE_DATA /GRAN_BYTE /GRAN_PAGE (proj2 (Z.leb_le _ _) E1) !bit_test !range_test. cbn [ASSERT obind]. by do 4 (destruct (bool_decide _); [|done]; cbn [ASSERT obind andb] in E |- * ). }
    apply andb_true_iff in E as [[[Hc%bool_decide_eq_true_1 Ht%bool_decide_eq_true_1]%andb_true_iff Hd%bool_decide_eq_true_1]%andb_true_iff Hg%bool_decide_eq_true_1].
    rewrite seg_sum //; [lia|]. have F1 := field_range limit 0 16 ltac:(lia). have F2 := field_range base 0 16 ltac:(lia). have F3 := field_range base 16 8 ltac:(lia). have F4 := field_range limit 16 4 ltac:(lia). have F5 := field_range base 24 8 ltac:(lia).
    destruct (word_split base Hb) as [Eb _]. have El : limit = field limit 0 16 + 2 ^ 16 * field limit 16 4 by rewrite /field; change (2 ^ 0) with 1; change (2 ^ 16) with 65536; change (2 ^ 4) with 16; dlia.
    set l0 := field limit 0 16 in F1, El |- *. set l1 := field limit 16 4 in F4, El |- *. set b0 := field base 0 16 in F2, Eb |- *. set b1 := field base 16 8 in F3, Eb |- *. set b2 := field base 24 8 in F5, Eb |- *.
    match goal with |- context [2 ^ 32 * ?x] => set e := x end. set d := l0 + _ + 2 ^ 32 * e. exists d. split; [done|]. split; [rewrite /d /e; lia|]. rewrite /read_segment.
    rewrite (field_at d 16 24 (l0) (b0 + 2 ^ 16 * b1) (type + 2 ^ 4 * class + 2 ^ 5 * dpl + 2 ^ 7 + 2 ^ 8 * l1 + 2 ^ 14 + 2 ^ 15 * g + 2 ^ 16 * b2)); [lia..|rewrite /d /e; lia|].
    rewrite (field_at d 56 8 (l0 + 2 ^ 16 * b0 + 2 ^ 32 * b1 + 2 ^ 40 * type + 2 ^ 44 * class + 2 ^ 45 * dpl + 2 ^ 47 + 2 ^ 48 * l1 + 2 ^ 54 + 2 ^ 55 * g) (b2) (0)); [lia..|rewrite /d /e; lia|].
    rewrite (field_at d 0 16 (0) (l0) (b0 + 2 ^ 16 * e)); [lia..|rewrite /d /e; lia|].
    rewrite (field_at d 48 4 (l0 + 2 ^ 16 * b0 + 2 ^ 32 * b1 + 2 ^ 40 * type + 2 ^ 44 * class + 2 ^ 45 * dpl + 2 ^ 47) (l1) (2 ^ 2 + 2 ^ 3 * g + 2 ^ 4 * b2)); [lia..|rewrite /d /e; lia|].
    rewrite (field_at d 40 4 (l0 + 2 ^ 16 * b0 + 2 ^ 32 * b1) (type) (class + 2 * dpl + 2 ^ 3 + 2 ^ 4 * l1 + 2 ^ 10 + 2 ^ 11 * g + 2 ^ 12 * b2)); [lia..|rewrite /d /e; lia|].
    rewrite (field_at d 44 1 (l0 + 2 ^ 16 * b0 + 2 ^ 32 * b1 + 2 ^ 40 * type) (class) (dpl + 2 ^ 2 + 2 ^ 3 * l1 + 2 ^ 9 + 2 ^ 10 * g + 2 ^ 11 * b2)); [lia..|rewrite /d /e; lia|].
    rewrite (field_at d 45 2 (l0 + 2 ^ 16 * b0 + 2 ^ 32 * b1 + 2 ^ 40 * type + 2 ^ 44 * class) (dpl) (1 + 2 * l1 + 2 ^ 7 + 2 ^ 8 * g + 2 ^ 9 * b2)); [lia..|rewrite /d /e; lia|].
    rewrite (field_at d 47 1 (l0 + 2 ^ 16 * b0 + 2 ^ 32 * b1 + 2 ^ 40 * type + 2 ^ 44 * class + 2 ^ 45 * dpl) (1) (l1 + 2 ^ 6 + 2 ^ 7 * g + 2 ^ 8 * b2)); [lia..|rewrite /d /e; lia|].
    rewrite (field_at d 54 1 (l0 + 2 ^ 16 * b0 + 2 ^ 32 * b1 + 2 ^ 40 * type + 2 ^ 44 * class + 2 ^ 45 * dpl + 2 ^ 47 + 2 ^ 48 * l1) (1) (g + 2 * b2)); [lia..|rewrite /d /e; lia|].
    rewrite (field_at d 55 1 (l0 + 2 ^ 16 * b0 + 2 ^ 32 * b1 + 2 ^ 40 * type + 2 ^ 44 * class + 2 ^ 45 * dpl + 2 ^ 47 + 2 ^ 48 * l1 + 2 ^ 54) (g) (b2)); [lia..|rewrite /d /e; lia|].
    f_equal; lia.
  - destruct (negb (function =? 0) && _ && _) eqn:E; last first.
    { rewrite /make_gate !range_test. destruct (negb (function =? 0)); [|done]. cbn [ASSERT obind andb] in E |- *. destruct (bool_decide (0 <= dpl <= 3)); [|done]. cbn [ASSERT obind andb] in E |- *. rewrite andb_true_r in E. by rewrite E. }
    apply andb_true_iff in E as [[Hn%negb_true_iff%Z.eqb_neq Ht%bool_decide_eq_true_1]%andb_true_iff Hd%bool_decide_eq_true_1]. apply gate_reads; [lia|done|done].
Qed.
Lemma descriptors_read_back_witness : exists d, make_gate 0xc0021a3c 3 15 = Ok d /\ read_gate d = mk_gate 0xc0021a3c SEL_KCSEG 15 0 3 1.
Proof. destruct (descriptors_read_back 0 0xfffff 1 15 3 1 0xc0021a3c) as [_ (d & E & _ & H)]; [lia|lia|lia|]. by exists d. Defined.
