(* ===== verification/Intr.v ===== *)
(** * threads/interrupt.c: the interrupt table and the dispatch of interrupts

    The interrupt descriptor table holds a gate for each of the 256 vectors; handlers
    are registered by vector.  [intr_handler] calls the handler, and for an interrupt
    of a device acknowledges it and yields if the handler asked for that.  The entry
    points of assembly code, [stubs], and the rest of the kernel's state are parameters,
    and so are what a handler does and [thread_yield].

    The theorems: the table always sends vector [v] to stub [v], user programs can enter
    only the vectors registered for them, never those of devices; a device interrupt is
    acknowledged once and cannot nest; the messages about unexpected interrupts are as
    many as the number of interrupts has binary digits. *)
From S2P Require Import Prelude Descr.

Definition INTR_CNT : Z := 256.
Definition PIC0_CTRL : Z := 0x20.
Definition PIC0_DATA : Z := 0x21.
Definition PIC1_CTRL : Z := 0xa0.
Definition PIC1_DATA : Z := 0xa1.

(** [level] is the interrupt flag of the processor; [ports] the bytes written to the
    interrupt controllers; [printed] the vectors of the messages of [unexpected_interrupt]. *)
Record intr := mk_intr {
  idt : list Z; intr_handlers : list (option Z); intr_names : list string; unexpected_cnt : list Z;
  in_external_intr : bool; yield_on_return : bool; level : bool; ports : list (Z * Z); printed : list Z }.

Definition outb (s : intr) (port b : Z) : intr :=
  mk_intr (idt s) (intr_handlers s) (intr_names s) (unexpected_cnt s) (in_external_intr s) (yield_on_return s) (level s) (ports s ++ [(port, b)]) (printed s).
Definition set_level (s : intr) (l : bool) : intr :=
  mk_intr (idt s) (intr_handlers s) (intr_names s) (unexpected_cnt s) (in_external_intr s) (yield_on_return s) l (ports s) (printed s).
Definition set_context (s : intr) (ext y : bool) : intr :=
  mk_intr (idt s) (intr_handlers s) (intr_names s) (unexpected_cnt s) ext y (level s) (ports s) (printed s).
Definition set_tables (s : intr) (t : list Z) (h : list (option Z)) (n : list string) : intr :=
  mk_intr t h n (unexpected_cnt s) (in_external_intr s) (yield_on_return s) (level s) (ports s) (printed s).

(** ** Enabling and disabling *)
Definition intr_context (s : intr) : bool := in_external_intr s.
Definition intr_get_level (s : intr) : bool := level s.
Definition intr_enable (s : intr) : outcome (bool * intr) :=
  let old_level := intr_get_level s in
  assert! negb (intr_context s) in Ok (old_level, set_level s true).
Definition intr_disable (s : intr) : bool * intr := (intr_get_level s, set_level s false).
Definition intr_set_level (s : intr) (l : bool) : outcome (bool * intr) := if l then intr_enable s else Ok (intr_disable s).

(** ** The controllers *)
Definition pic_init (s : intr) : intr :=
  let s := outb s PIC0_DATA 0xff in
  let s := outb s PIC1_DATA 0xff in
  let s := outb s PIC0_CTRL 0x11 in
  let s := outb s PIC0_DATA 0x20 in
  let s := outb s PIC0_DATA 0x04 in
  let s := outb s PIC0_DATA 0x01 in
  let s := outb s PIC1_CTRL 0x11 in
  let s := outb s PIC1_DATA 0x28 in
  let s := outb s PIC1_DATA 0x02 in
  let s := outb s PIC1_DATA 0x01 in
  let s := outb s PIC0_DATA 0x00 in
  outb s PIC1_DATA 0x00.
Definition pic_end_of_interrupt (s : intr) (irq : Z) : outcome intr :=
  assert! (0x20 <=? irq) && (irq <? 0x30) in
  let s := outb s 0x20 0x20 in
  Ok (if 0x28 <=? irq then outb s 0xa0 0x20 else s).

(** ** The table *)
Section table.
(** The address of [intr_stubs[v]]. *)
Context (stubs : Z -> Z).
Fixpoint idt_loop (n : nat) (i : Z) : outcome (list Z) :=
  match n with O => Ok [] | S n => let! g := make_intr_gate (stubs i) 0 in let! l := idt_loop n (i + 1) in Ok (g :: l) end.
Definition exception_names : list (nat * string) :=
  [(0, "#DE Divide Error"%string); (1, "#DB Debug Exception"%string); (2, "NMI Interrupt"%string); (3, "#BP Breakpoint Exception"%string); (4, "#OF Overflow Exception"%string);
   (5, "#BR BOUND Range Exceeded Exception"%string); (6, "#UD Invalid Opcode Exception"%string); (7, "#NM Device Not Available Exception"%string);
   (8, "#DF Double Fault Exception"%string); (9, "Coprocessor Segment Overrun"%string); (10, "#TS Invalid TSS Exception"%string); (11, "#NP Segment Not Present"%string);
   (12, "#SS Stack Fault Exception"%string); (13, "#GP General Protection Exception"%string); (14, "#PF Page-Fault Exception"%string); (16, "#MF x87 FPU Floating-Point Error"%string);
   (17, "#AC Alignment Check Exception"%string); (18, "#MC Machine-Check Exception"%string); (19, "#XF SIMD Floating-Point Exception"%string)]%nat.
(** From zeroed memory; the operand of [lidt] is the second component. *)
Definition intr_init (s : intr) (idt_addr : Z) : outcome (intr * Z) :=
  let s := pic_init s in
  let! t := idt_loop (Z.to_nat INTR_CNT) 0 in
  let names := foldl (fun l '(i, n) => <[i := n]> l) (replicate (Z.to_nat INTR_CNT) "unknown"%string) exception_names in
  Ok (set_tables s t (intr_handlers s) names, make_idtr_operand (8 * INTR_CNT - 1) idt_addr).

Definition register_handler (s : intr) (vec_no dpl : Z) (level : bool) (handler : Z) (name : string) : outcome intr :=
  let v := Z.to_nat vec_no in
  let! old := @oget (option Z) (intr_handlers s !! v) in
  assert! bool_decide (old = None) in
  let! g := if level then make_trap_gate (stubs vec_no) dpl else make_intr_gate (stubs vec_no) dpl in
  Ok (set_tables s (<[v := g]> (idt s)) (<[v := Some handler]> (intr_handlers s)) (<[v := name]> (intr_names s))).
Definition intr_register_ext (s : intr) (vec_no handler : Z) (name : string) : outcome intr :=
  assert! (0x20 <=? vec_no) && (vec_no <=? 0x2f) in register_handler s vec_no 0 false handler name.
Definition intr_register_int (s : intr) (vec_no dpl : Z) (level : bool) (handler : Z) (name : string) : outcome intr :=
  assert! (vec_no <? 0x20) || (0x2f <? vec_no) in register_handler s vec_no dpl level handler name.
End table.
Definition intr_name (s : intr) (vec : Z) : outcome string := @oget string (intr_names s !! Z.to_nat vec).
Definition intr_yield_on_return (s : intr) : outcome intr :=
  assert! intr_context s in Ok (set_context s (in_external_intr s) true).

(** ** Dispatch *)
Definition unexpected_interrupt (s : intr) (vec_no : Z) : outcome intr :=
  let! c := @oget Z (unexpected_cnt s !! Z.to_nat vec_no) in
  let n := u32 (c + 1) in
  Ok (mk_intr (idt s) (intr_handlers s) (intr_names s) (<[Z.to_nat vec_no := n]> (unexpected_cnt s)) (in_external_intr s) (yield_on_return s) (level s) (ports s)
        (if Z.land n (u32 (n - 1)) =? 0 then printed s ++ [vec_no] else printed s)).

Section handler.
Context {W : Type} (invoke : Z -> intr * W -> outcome (intr * W)) (thread_yield : intr * W -> outcome (intr * W)).
Definition intr_handler (sw : intr * W) (vec_no : Z) : outcome (intr * W) :=
  let (s, w) := sw in
  let external := (0x20 <=? vec_no) && (vec_no <? 0x30) in
  let! s := if external then
              assert! negb (intr_get_level s) in
              assert! negb (intr_context s) in
              Ok (set_context s true false)
            else Ok s in
  let! handler := @oget (option Z) (intr_handlers s !! Z.to_nat vec_no) in
  let! (s, w) := match handler with
                 | Some h => invoke h (s, w)
                 | None => if (vec_no =? 0x27) || (vec_no =? 0x2f) then Ok (s, w)
                           else let! s := unexpected_interrupt s vec_no in Ok (s, w)
                 end in
  if external then
    assert! negb (intr_get_level s) in
    assert! intr_context s in
    let s := set_context s false (yield_on_return s) in
    let! s := pic_end_of_interrupt s vec_no in
    if yield_on_return s then thread_yield (s, w) else Ok (s, w)
  else Ok (s, w).
End handler.

(** ** The table stays right *)
Inductive configured (stubs : Z -> Z) : intr -> Prop :=
| conf_init s a s' o : intr_handlers s = replicate 256 None -> intr_init stubs s a = Ok (s', o) -> configured stubs s'
| conf_ext s v h n s' : configured stubs s -> 0 <= v < 256 -> intr_register_ext stubs s v h n = Ok s' -> configured stubs s'
| conf_int s v dpl l h n s' : configured stubs s -> 0 <= v < 256 -> intr_register_int stubs s v dpl l h n = Ok s' -> configured stubs s'.

Section table_proofs.
Context (stubs : Z -> Z) (Hstubs : forall v, 0 <= v < 256 -> 0 < stubs v < 2 ^ 32).

(** What the processor does for vector [v]. *)
Record vector_ok (v : Z) (g : Z) (h : option Z) : Prop := {
  vo_gate : exists type dpl, read_gate g = Descr.mk_gate (stubs v) SEL_KCSEG type 0 dpl 1 /\ (type = 14 \/ type = 15) /\ 0 <= dpl <= 3;
  vo_closed : h = None \/ 0x20 <= v <= 0x2f -> g_type (read_gate g) = 14 /\ g_dpl (read_gate g) = 0 }.
Definition table_ok (s : intr) : Prop :=
  List.length (idt s) = 256%nat /\ List.length (intr_handlers s) = 256%nat /\ List.length (intr_names s) = 256%nat /\
  forall v g h, 0 <= v < 256 -> idt s !! Z.to_nat v = Some g -> intr_handlers s !! Z.to_nat v = Some h -> vector_ok v g h.

Lemma gate_ok v dpl type : 0 <= v < 256 -> 0 <= type <= 15 -> 0 <= dpl <= 3 -> exists g, make_gate (stubs v) dpl type = Ok g /\ read_gate g = Descr.mk_gate (stubs v) SEL_KCSEG type 0 dpl 1.
Proof.
  intros Hv Ht Hd. have Hs := Hstubs v Hv. destruct (gate_reads (stubs v) dpl type) as (g & E & _ & R); [lia|lia|lia|]. by exists g.
Qed.
Lemma gate_level dpl type v g : make_gate (stubs v) dpl type = Ok g -> 0 <= dpl <= 3.
Proof. rewrite /make_gate. intros H. inv_ok. zbool; try done; lia. Qed.
Lemma idt_loop_ok n : forall i, 0 <= i -> i + Z.of_nat n <= 256 -> exists l, idt_loop stubs n i = Ok l /\ List.length l = n /\
  forall j g, l !! j = Some g -> read_gate g = Descr.mk_gate (stubs (i + Z.of_nat j)) SEL_KCSEG 14 0 0 1.
Proof.
  induction n as [|n IH] => i Hi Hn; [by exists []|]. destruct (gate_ok i 0 14) as (g & E & R); [lia..|]. destruct (IH (i + 1)) as (l & El & Hl & Hr); [lia|lia|].
  exists (g :: l). rewrite /= /make_intr_gate E. cbn [obind]. rewrite El /=. split_and!; [done|by rewrite Hl|]. intros [|j] g' Hg; [simplify_eq/=; by rewrite Z.add_0_r|]. rewrite (Hr j g' Hg). do 2 f_equal. lia.
Qed.
Lemma init_ok s a s' o : intr_handlers s = replicate 256 None -> intr_init stubs s a = Ok (s', o) -> table_ok s'.
Proof.
  intros Hh. rewrite /intr_init. change (Z.to_nat INTR_CNT) with 256%nat. destruct (idt_loop_ok 256 0) as (l & El & Hl & Hr); [lia|lia|]. rewrite El. cbn [obind]. intros [= <- _]. rewrite /table_ok. cbn [idt intr_handlers intr_names set_tables].
  change (intr_handlers (pic_init s)) with (intr_handlers s). rewrite Hh. split_and!; [done|done|by vm_compute|]. intros v g h Hv Hg Hx. have R := Hr _ _ Hg. rewrite Z.add_0_l Z2Nat.id in R; [lia|].
  split; [exists 14, 0; split_and!; [done|by left|lia|lia]|by rewrite R].
Qed.

(** What registering handler [h] under the name [n] for vector [v] must do, [r] being the
    result: panic if the vector has a handler; otherwise give this vector, and no other, the
    handler, the name and a gate of the type and the level asked for, and nothing else. *)
Definition registers (s : intr) (r : outcome intr) (v dpl type h : Z) (n : string) : Prop :=
  (intr_handlers s !! Z.to_nat v <> Some None -> r = Err Panic) /\
  (intr_handlers s !! Z.to_nat v = Some None -> exists s' g, r = Ok s' /\
     intr_handlers s' !! Z.to_nat v = Some (Some h) /\ intr_names s' !! Z.to_nat v = Some n /\
     idt s' !! Z.to_nat v = Some g /\ g_offset (read_gate g) = stubs v /\ g_type (read_gate g) = type /\ g_dpl (read_gate g) = dpl /\
     (forall u, u <> Z.to_nat v -> idt s' !! u = idt s !! u /\ intr_handlers s' !! u = intr_handlers s !! u /\ intr_names s' !! u = intr_names s !! u) /\
     s' = set_tables s (idt s') (intr_handlers s') (intr_names s')).
Lemma register_registers s v dpl (l : bool) h n : table_ok s -> 0 <= v < 256 -> 0 <= dpl <= 3 ->
  registers s (register_handler stubs s v dpl l h n) v dpl (if l then 15 else 14) h n.
Proof.
  intros (Hl1 & Hl2 & Hl3 & Hok) Hv Hd. destruct (lookup_lt_is_Some_2 (intr_handlers s) (Z.to_nat v)) as [o Ho]; [lia|]. split; intros Hn.
  - rewrite /register_handler Ho. cbn [oget obind]. destruct o; [done|]. by destruct Hn.
  - set type := if l then 15 else 14. destruct (gate_ok v dpl type) as (g & Eg & R); [done|rewrite /type; destruct l; lia|done|].
    have Et : (if l then make_trap_gate (stubs v) dpl else make_intr_gate (stubs v) dpl) = Ok g by rewrite /type in Eg; destruct l.
    rewrite /register_handler Hn. cbn [oget obind]. rewrite bool_decide_eq_true_2 //. cbn [ASSERT obind]. rewrite Et. cbn [obind].
    eexists _, g. split; [done|]. cbn [idt intr_handlers intr_names set_tables]. rewrite !list_lookup_insert_eq; [lia..|]. rewrite R. cbn [g_offset g_type g_dpl].
    split_and!; try done. intros u Hu. by rewrite !list_lookup_insert_ne.
Qed.
Lemma register_ok s v dpl l h n s' : table_ok s -> 0 <= v < 256 -> (0x20 <= v <= 0x2f -> dpl = 0 /\ l = false) -> register_handler stubs s v dpl l h n = Ok s' ->
  table_ok s'.
Proof.
  intros (Hl1 & Hl2 & Hl3 & Hok) Hv Hext H. rewrite /register_handler in H. destruct (intr_handlers s !! Z.to_nat v) as [old|] eqn:Eo; [|done]. cbn [oget obind] in H. case_bool_decide; [|done]. subst old. cbn [ASSERT obind] in H.
  set type := if l then 15 else 14. have Eg : (if l then make_trap_gate (stubs v) dpl else make_intr_gate (stubs v) dpl) = make_gate (stubs v) dpl type by rewrite /type; destruct l. rewrite Eg in H. inv_ok.
  have Hd := gate_level _ _ _ _ E. destruct (gate_ok v dpl type) as (g & E' & R); [done|rewrite /type; destruct l; lia|done|]. rewrite E in E'. injection E' as ->.
  rewrite /table_ok. cbn [idt intr_handlers intr_names set_tables]. rewrite !length_insert. split_and!; try done.
  intros u g' h' Hu Hg' Hh'. destruct (decide (u = v)) as [->|Hne].
  - rewrite list_lookup_insert_eq in Hg'; [lia|]. simplify_eq. split; [exists type, dpl; split; [done|]; split; [rewrite /type; destruct l; [by right|by left]|done]|].
    rewrite list_lookup_insert_eq in Hh'; [lia|]. intros [?|He]; [congruence|]. destruct (Hext He) as [-> ->]. by rewrite R.
  - rewrite !list_lookup_insert_ne in Hg', Hh'; try lia. by apply Hok.
Qed.
Lemma configured_ok s : configured stubs s -> table_ok s.
Proof.
  induction 1 as [s a s' o Hh Hi|s v h n s' _ IH Hv H|s v dpl l h n s' _ IH Hv H]; [by apply (init_ok s a s' o)| |].
  - rewrite /intr_register_ext in H. inv_ok. by apply (register_ok s v 0 false h n s').
  - rewrite /intr_register_int in H. inv_ok. apply (register_ok s v dpl l h n s' IH Hv); [|done]. intros He. exfalso. zbool; try done; lia.
Qed.
End table_proofs.

(** ** How often an unexpected interrupt is reported *)
Lemma power_test n : 0 < n < 2 ^ 32 -> (Z.land n (u32 (n - 1)) =? 0) = (n =? 2 ^ Z.log2 n).
Proof.
  intros Hn. rewrite wrap_small; [lia|]. have Hk := Z.log2_nonneg n. destruct (Z.log2_spec n) as [H1 H2]; [lia|]. destruct (Z.eqb_spec n (2 ^ Z.log2 n)) as [E|E].
  - apply Z.eqb_eq. rewrite {2}E. have -> : 2 ^ Z.log2 n - 1 = Z.ones (Z.log2 n) by rewrite Z.ones_equiv; lia. rewrite Z.land_ones // {1}E. apply Z.mod_same. lia.
  - apply Z.eqb_neq. intros H0. have Hb : Z.testbit (Z.land n (n - 1)) (Z.log2 n) = true; [|by rewrite H0 Z.bits_0 in Hb].
    rewrite Z.land_spec Z.bit_log2; [lia|]. have -> : Z.log2 n = Z.log2 (n - 1); [|rewrite Z.bit_log2 //; lia]. symmetry. apply Z.log2_unique; lia.
Qed.
Fixpoint unexpected (n : nat) (s : intr) (vec : Z) : outcome intr :=
  match n with O => Ok s | S n => let! s := unexpected n s vec in unexpected_interrupt s vec end.

(** Messages about unexpected interrupts.  When an interrupt without a handler has come
    [n] times, fewer than 2^32, it has been counted [n] times and there have been as many
    messages as [n] has binary digits; nothing but the counter has changed. *)
Theorem unexpected_messages s vec n : 0 <= vec < 256 -> unexpected_cnt s !! Z.to_nat vec = Some 0 -> (0 < n)%nat -> Z.of_nat n < 2 ^ 32 ->
  exists s', unexpected n s vec = Ok s' /\ unexpected_cnt s' !! Z.to_nat vec = Some (Z.of_nat n) /\
    printed s' = printed s ++ replicate (Z.to_nat (Z.log2 (Z.of_nat n)) + 1) vec /\ idt s' = idt s /\ intr_handlers s' = intr_handlers s /\ ports s' = ports s.
Proof.
  intros Hv H0 Hpos. induction n as [|n IH] => Hn; [lia|]. cbn [unexpected]. destruct (decide (n = 0%nat)) as [->|Hne].
  { cbn [unexpected obind]. rewrite /unexpected_interrupt H0. cbn [oget obind]. eexists. split; [done|]. cbn [unexpected_cnt printed idt intr_handlers ports]. rewrite list_lookup_insert_eq; [by apply lookup_lt_Some in H0|]. split_and!; done. }
  destruct IH as (s1 & -> & Hc & Hp & H1 & H2 & H3); [lia|lia|]. cbn [obind]. rewrite /unexpected_interrupt Hc. cbn [oget obind]. eexists. split; [done|]. cbn [unexpected_cnt printed idt intr_handlers ports].
  rewrite list_lookup_insert_eq; [by apply lookup_lt_Some in Hc|]. rewrite (wrap_small 32 (Z.of_nat n + 1)); [lia|]. replace (Z.of_nat n + 1) with (Z.of_nat (S n)) by lia. rewrite power_test; [lia|]. split_and!; try done. rewrite Hp.
  have Hk := Z.log2_nonneg (Z.of_nat n). destruct (Z.log2_spec (Z.of_nat n)) as [L1 L2]; [lia|]. destruct (Z.eqb_spec (Z.of_nat (S n)) (2 ^ Z.log2 (Z.of_nat (S n)))) as [E|E].
  - have -> : Z.log2 (Z.of_nat (S n)) = Z.succ (Z.log2 (Z.of_nat n)).
    { apply Z.log2_unique; [lia|]. split; [|rewrite Z.pow_succ_r; lia]. destruct (Z.le_gt_cases (2 ^ Z.succ (Z.log2 (Z.of_nat n))) (Z.of_nat (S n))) as [?|Hlt]; [done|]. exfalso.
      have Hl : Z.log2 (Z.of_nat (S n)) = Z.log2 (Z.of_nat n) by apply Z.log2_unique; lia. rewrite Hl in E. lia. }
    rewrite -app_assoc. f_equal. rewrite Z2Nat.inj_succ //. cbn [replicate Nat.add]. by rewrite -replicate_cons_app.
  - have -> : Z.log2 (Z.of_nat (S n)) = Z.log2 (Z.of_nat n); [|done]. apply Z.log2_unique; [lia|]. split; [lia|]. destruct (Z.le_gt_cases (2 ^ Z.succ (Z.log2 (Z.of_nat n))) (Z.of_nat (S n))) as [Hle|?]; [|done]. exfalso.
    apply E. have Heq : Z.of_nat (S n) = 2 ^ Z.succ (Z.log2 (Z.of_nat n)) by lia. rewrite {2}Heq Z.log2_pow2 //. lia.
Qed.

(** C37: the interrupt table.  After [intr_init] and any registrations that succeed, the gate
    of every vector leads to the stub of that vector in the kernel's code segment; a vector
    without a handler and a vector of a device has an interrupt gate, which disables
    interrupts, of privilege level 0, so that no user program can enter it with an [int]
    instruction.  [intr_register_ext] panics for a vector outside 0x20 to 0x2f and
    [intr_register_int] for one inside.  For the other vectors both panic if the vector has
    a handler, which is never replaced, and otherwise give this vector, and no other, the
    handler, the name and the gate, and change nothing else: an interrupt gate of level 0
    for a device, the level and the kind asked for otherwise. *)
Theorem interrupt_table_correct stubs s : (forall v, 0 <= v < 256 -> 0 < stubs v < 2 ^ 32) -> configured stubs s ->
  (forall v, 0 <= v < 256 -> exists g h, idt s !! Z.to_nat v = Some g /\ intr_handlers s !! Z.to_nat v = Some h /\
     g_offset (read_gate g) = stubs v /\ g_selector (read_gate g) = SEL_KCSEG /\ g_present (read_gate g) = 1 /\
     (h = None \/ 0x20 <= v <= 0x2f -> g_type (read_gate g) = 14 /\ g_dpl (read_gate g) = 0)) /\
  forall v h n, 0 <= v < 256 ->
    if (0x20 <=? v) && (v <=? 0x2f) then
      registers stubs s (intr_register_ext stubs s v h n) v 0 14 h n /\
      forall dpl l, intr_register_int stubs s v dpl l h n = Err Panic
    else
      intr_register_ext stubs s v h n = Err Panic /\
      forall dpl (l : bool), 0 <= dpl <= 3 -> registers stubs s (intr_register_int stubs s v dpl l h n) v dpl (if l then 15 else 14) h n.
Proof.
  intros Hst Hc. have Hok := configured_ok stubs Hst s Hc. destruct (Hok) as (L1 & L2 & L3 & Hv). split.
  - intros v Hr. destruct (lookup_lt_is_Some_2 (idt s) (Z.to_nat v)) as [g Hg]; [lia|]. destruct (lookup_lt_is_Some_2 (intr_handlers s) (Z.to_nat v)) as [h Hh]; [lia|]. exists g, h.
    destruct (Hv v g h Hr Hg Hh) as [(type & dpl & R & _) Hcl]. by rewrite R in Hcl |- *.
  - intros v h n Hr. destruct ((0x20 <=? v) && (v <=? 0x2f)) eqn:E; rewrite /intr_register_ext /intr_register_int E.
    + split; [by apply (register_registers stubs Hst s v 0 false)|]. intros dpl l. by have -> : (v <? 0x20) || (0x2f <? v) = false by (zbool; try done; lia).
    + split; [done|]. intros dpl l Hd. have -> : (v <? 0x20) || (0x2f <? v) = true by (zbool; try done; lia). by apply register_registers.
Qed.

(** ** Witnesses *)
Definition ex_stubs (v : Z) : Z := 0xc0020000 + 16 * v.
Definition ex_blank : intr := mk_intr [] (replicate 256 None) [] (replicate 256 0) false false false [] [].
Definition ex_intr : intr := match intr_init ex_stubs ex_blank 0xc0030000 with Ok (s, _) => s | Err _ => ex_blank end.
Lemma ex_configured : configured ex_stubs ex_intr.
Proof. eapply (conf_init _ ex_blank 0xc0030000); [done|]. by vm_compute. Qed.
Lemma interrupt_table_correct_witness :
  (exists s' g, intr_register_int ex_stubs ex_intr 0x30 3 true 0xc0040000 "syscall"%string = Ok s' /\ idt s' !! 48%nat = Some g /\ g_dpl (read_gate g) = 3) /\
  exists s' g, intr_register_ext ex_stubs ex_intr 0x21 0xc0050000 "8042 Keyboard"%string = Ok s' /\ idt s' !! 33%nat = Some g /\ g_dpl (read_gate g) = 0.
Proof.
  destruct (interrupt_table_correct ex_stubs ex_intr) as [_ H]; [intros v Hv; rewrite /ex_stubs; lia|apply ex_configured|]. split.
  - destruct (H 0x30 0xc0040000 "syscall"%string) as [_ H']; [lia|]. destruct (H' 3 true) as [_ H1]; [lia|].
    destruct H1 as (s' & g & E & _ & _ & Hg & _ & _ & Hd & _); [by vm_compute|]. by exists s', g.
  - destruct (H 0x21 0xc0050000 "8042 Keyboard"%string) as [[_ H1] _]; [lia|].
    destruct H1 as (s' & g & E & _ & _ & Hg & _ & _ & Hd & _); [by vm_compute|]. by exists s', g.
Defined.
Lemma unexpected_messages_witness : exists s', unexpected 5 ex_blank 0x21 = Ok s' /\ printed s' = [0x21; 0x21; 0x21].
Proof. destruct (unexpected_messages ex_blank 0x21 5) as (s' & E & _ & Hp & _); [lia|done|lia|lia|]. by exists s'. Defined.
