(* ===== verification/Pit.v ===== *)
(** * devices/pit.c: the programmable timer

    [pit_configure_channel] turns a frequency into a count of 16 bits and sends it to
    the chip a byte at a time.  The result is the list of bytes written to ports.

    The theorem: the count is the one nearest to the frequency asked for; from 795454 Hz
    on it is 1, which the comment of the code calls illegal in mode 2. *)
From S2P Require Import Prelude.

Definition PIT_PORT_CONTROL : Z := 0x43.
Definition PIT_PORT_COUNTER (channel : Z) : Z := 0x40 + channel.
Definition PIT_HZ : Z := 1193180.

Definition pit_configure_channel (channel mode frequency : Z) : outcome (list (Z * Z)) :=
  assert! (channel =? 0) || (channel =? 2) in
  assert! (mode =? 2) || (mode =? 3) in
  let count := u16 (if frequency <? 19 then 0
                    else if PIT_HZ <? frequency then 2
                    else Z.quot (PIT_HZ + Z.quot frequency 2) frequency) in
  Ok [(PIT_PORT_CONTROL, u8 (Z.lor (Z.lor (Z.shiftl channel 6) 0x30) (Z.shiftl mode 1)));
      (PIT_PORT_COUNTER channel, u8 count);
      (PIT_PORT_COUNTER channel, u8 (Z.shiftr count 8))].

(** ** The chip *)
(** The command byte: channel, low byte then high byte, mode, binary. *)
Definition command (channel mode : Z) : Z := 64 * channel + 16 * 3 + 2 * mode.
(** The number of clock cycles of a period: a count of 0 stands for 65536. *)
Definition cycles (lo hi : Z) : Z := if lo + 256 * hi =? 0 then 65536 else lo + 256 * hi.

Lemma bytes_of_count c : 0 <= c < 65536 -> 0 <= u8 c < 256 /\ 0 <= u8 (Z.shiftr c 8) < 256 /\ u8 c + 256 * u8 (Z.shiftr c 8) = c.
Proof. intros Hc. rewrite /wrap Z.shiftr_div_pow2 //. change (2 ^ 8) with 256. dlia. Qed.
(** The nearest count. *)
Lemma nearest f : 19 <= f <= PIT_HZ -> let c := Z.quot (PIT_HZ + Z.quot f 2) f in
  1 <= c <= 62799 /\ 2 * Z.abs (c * f - PIT_HZ) <= f /\ (c = 1 <-> 795453 < f).
Proof.
  intros Hf c. rewrite /PIT_HZ in Hf. rewrite /c /PIT_HZ !Z.quot_div_nonneg; try lia; [dlia|]. set h := f / 2. have Hh : 2 * h <= f < 2 * h + 2 by rewrite /h; dlia.
  set q := (1193180 + h) / f. have Hq : q * f <= 1193180 + h < q * f + f by rewrite /q; pose proof (Z.div_mod (1193180 + h) f); pose proof (Z.mod_pos_bound (1193180 + h) f); lia.
  split_and!; [nia|nia|lia|]. split; intros; nia.
Qed.

(** The timer.  For a channel and a mode that it accepts, [pit_configure_channel] sends the
    command for them and the two bytes of a count.  From 19 Hz to the frequency of the
    clock the period of the chip is the number of cycles that is nearest to the one asked
    for, and it is one cycle exactly above 795453 Hz; below 19 Hz it is the longest period
    and above the clock's frequency two cycles.  Other channels and modes fail an assertion. *)
Theorem pit_configure_correct channel mode f :
  if ((channel =? 0) || (channel =? 2)) && ((mode =? 2) || (mode =? 3)) then
    exists lo hi, 0 <= lo < 256 /\ 0 <= hi < 256 /\
      pit_configure_channel channel mode f = Ok [(0x43, command channel mode); (0x40 + channel, lo); (0x40 + channel, hi)] /\
      if f <? 19 then cycles lo hi = 65536
      else if PIT_HZ <? f then cycles lo hi = 2
      else 2 * Z.abs (cycles lo hi * f - PIT_HZ) <= f /\ (cycles lo hi = 1 <-> 795453 < f)
  else pit_configure_channel channel mode f = Err Panic.
Proof.
  rewrite /pit_configure_channel. destruct ((channel =? 0) || (channel =? 2)) eqn:Ec; [|done]. destruct ((mode =? 2) || (mode =? 3)) eqn:Em; [|done]. cbn [ASSERT obind andb].
  set c := (if f <? 19 then 0 else _). have Hc : 0 <= c < 65536 /\ if f <? 19 then c = 0 else if PIT_HZ <? f then c = 2 else 1 <= c /\ 2 * Z.abs (c * f - PIT_HZ) <= f /\ (c = 1 <-> 795453 < f).
  { rewrite /c. destruct (Z.ltb_spec f 19); [done|]. destruct (Z.ltb_spec PIT_HZ f); [done|]. destruct (nearest f) as (H1 & H2 & H3); [lia|]. split; [lia|]. split; [lia|done]. }
  destruct Hc as [Hr Hc]. rewrite (wrap_small 16 c); [done|]. destruct (bytes_of_count c Hr) as (Hlo & Hhi & E). exists (u8 c), (u8 (Z.shiftr c 8)). split_and!; [lia|lia|lia|lia| |].
  - rewrite /PIT_PORT_COUNTER. do 2 f_equal. f_equal. apply orb_true_iff in Ec as [->%Z.eqb_eq| ->%Z.eqb_eq]; apply orb_true_iff in Em as [->%Z.eqb_eq| ->%Z.eqb_eq]; reflexivity.
  - rewrite /cycles E. destruct (f <? 19); [by rewrite Hc|]. destruct (PIT_HZ <? f); [by rewrite Hc|]. destruct Hc as (H1 & H2 & H3). rewrite (proj2 (Z.eqb_neq c 0)); [lia|done].
Qed.
