(* ===== verification/Rtc.v ===== *)
(** * devices/rtc.c: the time of the real-time clock

    [rtc_get_time] reads the registers of the clock until the second is the same
    before and after, and converts the date to seconds since 1970.  The clock is a
    function from the number of the read and the register to the byte read.

    The theorem: for every date from 1970 to 2037 the function returns, and its result
    is 27 to 32 days ahead of the time that its comment promises. *)
From S2P Require Import Prelude.

Definition RTC_REG_SEC : Z := 0.
Definition RTC_REG_MIN : Z := 2.
Definition RTC_REG_HOUR : Z := 4.
Definition RTC_REG_MDAY : Z := 7.
Definition RTC_REG_MON : Z := 8.
Definition RTC_REG_YEAR : Z := 9.

Definition bcd_to_bin (x : Z) : Z := Z.land x 0x0f + Z.shiftr x 4 * 10.

Section rtc.
(** The byte that read number [n] of register [index] gives. *)
Context (cmos : nat -> Z -> Z).
Definition cmos_read (n : nat) (index : Z) : Z * nat := (cmos n index, S n).

Record tm := mk_tm { sec : Z; min : Z; hour : Z; mday : Z; mon : Z; year : Z }.
(** The loop that reads the components. *)
Fixpoint read_loop (fuel : nat) (n : nat) : outcome (tm * nat) :=
  match fuel with
  | O => Err NoFuel
  | S fuel =>
    let (s, n) := cmos_read n RTC_REG_SEC in
    let (mi, n) := cmos_read n RTC_REG_MIN in
    let (h, n) := cmos_read n RTC_REG_HOUR in
    let (d, n) := cmos_read n RTC_REG_MDAY in
    let (mo, n) := cmos_read n RTC_REG_MON in
    let (y, n) := cmos_read n RTC_REG_YEAR in
    let (s', n) := cmos_read n RTC_REG_SEC in
    if bcd_to_bin s =? bcd_to_bin s'
    then Ok (mk_tm (bcd_to_bin s) (bcd_to_bin mi) (bcd_to_bin h) (bcd_to_bin d) (bcd_to_bin mo) (bcd_to_bin y), n)
    else read_loop fuel n
  end.

Definition days_per_month : list Z := [31; 28; 31; 30; 31; 30; 31; 31; 30; 31; 30; 31].
(** [for (i = 1; i <= mon; i++)], with [k] turns left *)
Fixpoint month_loop (k : nat) (i : nat) (time : Z) : outcome Z :=
  match k with
  | O => Ok time
  | S k => let! d := @oget Z (days_per_month !! (i - 1)%nat) in month_loop k (S i) (u32 (time + s32 (d * 24 * 60 * 60)))
  end.
(** The rest of [rtc_get_time]. *)
Definition time_of (t : tm) : outcome Z :=
  let y := (if year t <? 70 then year t + 100 else year t) - 70 in
  let time := u32 (s32 ((y * 365 + Z.quot (y - 1) 4) * 24 * 60 * 60)) in
  let! time := month_loop (Z.to_nat (mon t)) 1 time in
  let time := if (2 <? mon t) && (Z.rem y 4 =? 0) then u32 (time + 24 * 60 * 60) else time in
  let time := u32 (time + (mday t - 1) * 24 * 60 * 60) in
  let time := u32 (time + hour t * 60 * 60) in
  let time := u32 (time + min t * 60) in
  Ok (u32 (time + sec t)).
Definition rtc_get_time (fuel n : nat) : outcome (Z * nat) :=
  let! (t, n) := read_loop fuel n in let! time := time_of t in Ok (time, n).
End rtc.

(** ** The reference *)
Definition is_leap (y : Z) : bool := (y mod 4 =? 0) && (negb (y mod 100 =? 0) || (y mod 400 =? 0)).
Definition year_days (y : Z) : Z := if is_leap y then 366 else 365.
Definition month_days (y m : Z) : Z :=
  match m with 2 => if is_leap y then 29 else 28 | 4 | 6 | 9 | 11 => 30 | _ => 31 end.
Definition sum (l : list Z) : Z := foldr Z.add 0 l.
(** Days from the first of January 1970 to the first of month [m] of year [y]. *)
Definition days_before (y m : Z) : Z := sum (year_days <$> seqZ 1970 (y - 1970)) + sum (month_days y <$> seqZ 1 (m - 1)).
Definition unix_time (y m d h mi s : Z) : Z := ((days_before y m + d - 1) * 24 + h) * 3600 + mi * 60 + s.
Definition bin_to_bcd (x : Z) : Z := 16 * (x / 10) + x mod 10.
(** The registers of a clock that shows this date and time. *)
Definition registers (y m d h mi s : Z) (index : Z) : Z :=
  bin_to_bcd (if index =? RTC_REG_SEC then s else if index =? RTC_REG_MIN then mi else if index =? RTC_REG_HOUR then h
              else if index =? RTC_REG_MDAY then d else if index =? RTC_REG_MON then m else y mod 100).

Lemma bcd_roundtrip x : 0 <= x < 100 -> bcd_to_bin (bin_to_bcd x) = x.
Proof.
  intros Hx. have Hall : Forall (fun x => bcd_to_bin (bin_to_bcd x) = x) (seqZ 0 100) by apply (bool_decide_unpack _); vm_compute.
  rewrite Forall_forall in Hall. apply Hall. by apply elem_of_seqZ.
Qed.

(** What the year and the month contribute, against the calendar. *)
Definition date_part (y m : Z) : outcome Z := time_of (mk_tm 0 0 0 1 m (y mod 100)).
Definition date_ok (y m : Z) : bool :=
  match date_part y m with
  | Ok t => let k := t / 86400 - days_before y m in (t =? (days_before y m + k) * 86400) && (27 <=? k) && (k <=? 32) && (0 <=? days_before y m) && (days_before y m <=? 24837)
  | Err _ => false
  end.
Lemma date_part_ok y m : 1970 <= y < 2038 -> 1 <= m <= 12 ->
  exists k, 27 <= k <= 32 /\ date_part y m = Ok ((days_before y m + k) * 86400) /\ 0 <= days_before y m <= 24837.
Proof.
  intros Hy Hm. have Hall : forallb (fun y => forallb (date_ok y) (seqZ 1 12)) (seqZ 1970 68) = true by vm_compute.
  rewrite forallb_forall in Hall. have H1 := Hall y ltac:(apply list_elem_of_In, elem_of_seqZ; lia). rewrite forallb_forall in H1. have H2 := H1 m ltac:(apply list_elem_of_In, elem_of_seqZ; lia).
  move: H2. rewrite /date_ok. destruct (date_part y m) as [t|]; [|done]. rewrite !andb_true_iff. intros [[[[E%Z.eqb_eq ?%Z.leb_le] ?%Z.leb_le] ?%Z.leb_le] ?%Z.leb_le].
  exists (t / 86400 - days_before y m). split_and!; [done|done|by rewrite -E|done|done].
Qed.
(** The day of the month and the time of the day are added, without overflow. *)
Lemma time_of_ok y m d h mi s t : 0 <= mi < 60 -> 0 <= s < 60 -> 0 <= h < 24 -> 1 <= d <= 31 -> 0 <= t < 24870 * 86400 ->
  date_part y m = Ok t -> time_of (mk_tm s mi h d m (y mod 100)) = Ok (t + ((d - 1) * 24 + h) * 3600 + mi * 60 + s).
Proof.
  intros Hmi Hs Hh Hd Ht. rewrite /date_part /time_of. cbn [year mon mday hour min sec]. intros H. apply obind_Ok_inv in H as (a & -> & E). cbn [obind].
  injection E as E. f_equal. match type of E with u32 (u32 (u32 (u32 (?x + _) + _) + _) + _) = _ => set b := x in E |- * end.
  have Ha : forall x z, u32 (u32 x + z) = u32 (x + z) by intros x z; rewrite /wrap; apply Zplus_mod_idemp_l.
  do 4 rewrite ?Ha -?Z.add_assoc in E |- *. clearbody b. replace (t + ((d - 1) * 24 + h) * 3600 + mi * 60 + s) with (t + ((d - 1) * 86400 + h * 3600 + mi * 60 + s)) by lia.
  rewrite -(wrap_small 32 (t + _)); [lia|]. rewrite -E Ha. f_equal. lia.
Qed.
Lemma month_days_31 y m : month_days y m <= 31.
Proof. rewrite /month_days. repeat case_match; lia. Qed.

(** The time of day.  When the clock shows a date from 1970 to 2037 and does not change
    while it is read, [rtc_get_time] reads each register once and the second twice, and
    returns the seconds since 1970 of a date that is [k] days after the date shown, with [k]
    from 27 to 32: the loop over the months includes the current month, and the test for leap
    years counts from 1970, which is not a leap year. *)
Theorem rtc_get_time_ahead cmos n y m d h mi s : 1970 <= y < 2038 -> 1 <= m <= 12 -> 1 <= d <= month_days y m -> 0 <= h < 24 -> 0 <= mi < 60 -> 0 <= s < 60 ->
  (forall i index, (n <= i < n + 7)%nat -> cmos i index = registers y m d h mi s index) ->
  exists k, 27 <= k <= 32 /\ rtc_get_time cmos 1 n = Ok (unix_time y m d h mi s + k * 86400, (n + 7)%nat).
Proof.
  intros Hy Hm Hd Hh Hmi Hs Hc. have H31 := month_days_31 y m. destruct (date_part_ok y m Hy Hm) as (k & Hk & E & Hb). exists k. split; [done|].
  have Hreg : read_loop cmos 1 n = Ok (mk_tm s mi h d m (y mod 100), (n + 7)%nat).
  { rewrite /read_loop /cmos_read !Hc; try lia. cbn [registers]. rewrite /registers /=. rewrite !bcd_roundtrip; try lia; [by apply Z.mod_pos_bound|]. rewrite Z.eqb_refl. do 2 f_equal. lia. }
  rewrite /rtc_get_time Hreg. cbn [obind]. rewrite (time_of_ok y m d h mi s ((days_before y m + k) * 86400)) //; try lia. cbn [obind]. do 2 f_equal. rewrite /unix_time. lia.
Qed.
Lemma rtc_get_time_ahead_witness : exists k, 27 <= k <= 32 /\ rtc_get_time (fun _ => registers 2024 3 1 12 30 59) 1 0 = Ok (unix_time 2024 3 1 12 30 59 + k * 86400, 7%nat).
Proof. apply (rtc_get_time_ahead (fun _ => registers 2024 3 1 12 30 59) 0 2024 3 1 12 30 59); try lia; try done. Defined.
