(* ===== verification/Vga.v ===== *)
(** * devices/vga.c: the text screen

    The screen is the frame buffer [fb] of 25 rows of 80 cells, with the cursor of
    the driver and that of the hardware, which [move_cursor] sets through a pair of
    ports.  An access outside the frame buffer is a [Fault].

    The theorem: after any text, written from a cleared screen, the screen shows the
    last 25 lines of a roll of paper on which that text was typed, and both cursors
    are where the typing goes on. *)
From S2P Require Import Prelude.

(** ** The driver *)
Definition COL_CNT : Z := 80.
Definition ROW_CNT : Z := 25.
Definition GRAY_ON_BLACK : Z := 0x07.

(** A cell: character and attribute. *)
Abbreviation cell := (Z * Z)%type.
(** [port] is what the cursor registers 0x0e and 0x0f hold. *)
Record vga := mk_vga { fb : list (list cell); cx : Z; cy : Z; port : Z * Z; beeps : Z }.

Definition set_fb (v : vga) (f : list (list cell)) : vga := mk_vga f (cx v) (cy v) (port v) (beeps v).
Definition set_cursor (v : vga) (x y : Z) : vga := mk_vga (fb v) x y (port v) (beeps v).

(** [fb[y][x][0] = c; fb[y][x][1] = GRAY_ON_BLACK;] *)
Definition set_cell (v : vga) (y x c : Z) : outcome vga :=
  if (0 <=? x) && (x <? COL_CNT) && (0 <=? y) then
    let! row := @oget (list cell) (fb v !! Z.to_nat y) in
    Ok (set_fb v (<[Z.to_nat y := <[Z.to_nat x := (c, GRAY_ON_BLACK)]> row]> (fb v)))
  else Err Fault.

(** The loop of [clear_row] from column [x], with [n] columns left. *)
Fixpoint clear_row_loop (n : nat) (v : vga) (y x : Z) : outcome vga :=
  match n with O => Ok v | S n => let! v := set_cell v y x 32 in clear_row_loop n v y (x + 1) end.
Definition clear_row (v : vga) (y : Z) : outcome vga := clear_row_loop (Z.to_nat COL_CNT) v y 0.

(** [outw (0x3d4, w)] stores the high byte of [w] in the register that its low byte names. *)
Definition outw_3d4 (v : vga) (w : Z) : vga :=
  let b := Z.shiftr w 8 mod 256 in
  let (hi, lo) := port v in
  mk_vga (fb v) (cx v) (cy v) (if w mod 256 =? 0x0e then (b, lo) else if w mod 256 =? 0x0f then (hi, b) else (hi, lo)) (beeps v).
Definition move_cursor (v : vga) : vga :=
  let cp := wrap 16 (cx v + COL_CNT * cy v) in
  let v := outw_3d4 v (Z.lor 0x0e (Z.land cp 0xff00)) in
  outw_3d4 v (wrap 16 (Z.lor 0x0f (Z.shiftl cp 8))).
Definition find_cursor (v : vga) : Z * Z :=
  let cp := Z.lor (wrap 16 (Z.shiftl (fst (port v)) 8)) (snd (port v)) in (cp mod COL_CNT, cp / COL_CNT).

Fixpoint cls_loop (n : nat) (v : vga) (y : Z) : outcome vga :=
  match n with O => Ok v | S n => let! v := clear_row v y in cls_loop n v (y + 1) end.
Definition cls (v : vga) : outcome vga :=
  let! v := cls_loop (Z.to_nat ROW_CNT) v 0 in Ok (move_cursor (set_cursor v 0 0)).

Definition newline (v : vga) : outcome vga :=
  let v := set_cursor v 0 (cy v + 1) in
  if ROW_CNT <=? cy v then
    let v := set_cursor v (cx v) (ROW_CNT - 1) in
    (* [memmove (&fb[0], &fb[1], sizeof fb[0] * (ROW_CNT - 1))] *)
    let v := set_fb v (take (Z.to_nat (ROW_CNT - 1)) (drop 1 (fb v)) ++ drop (Z.to_nat (ROW_CNT - 1)) (fb v)) in
    clear_row v (ROW_CNT - 1)
  else Ok v.

Definition round_up (x step : Z) : Z := (x + step - 1) / step * step.
(** [vga_putc], after [init] *)
Definition vga_putc (v : vga) (c : Z) : outcome vga :=
  let! v :=
    if c =? 10 then newline v
    else if c =? 12 then cls v
    else if c =? 8 then Ok (if 0 <? cx v then set_cursor v (cx v - 1) (cy v) else v)
    else if c =? 13 then Ok (set_cursor v 0 (cy v))
    else if c =? 9 then
      let v := set_cursor v (round_up (cx v + 1) 8) (cy v) in
      if COL_CNT <=? cx v then newline v else Ok v
    else if c =? 7 then Ok (mk_vga (fb v) (cx v) (cy v) (port v) (beeps v + 1))
    else
      let! v := set_cell v (cy v) (cx v) (c mod 256) in
      let v := set_cursor v (cx v + 1) (cy v) in
      if COL_CNT <=? cx v then newline v else Ok v in
  Ok (move_cursor v).
(** [init] at the first call *)
Definition init (f : list (list cell)) (p : Z * Z) : vga :=
  let v := mk_vga f 0 0 p 0 in let (x, y) := find_cursor v in set_cursor v x y.

Fixpoint putc_all (v : vga) (text : list Z) : outcome vga :=
  match text with [] => Ok v | c :: text => let! v := vga_putc v c in putc_all v text end.

(** ** The reference: a roll of paper *)
Definition blank : cell := (32, GRAY_ON_BLACK).
Definition blank_row : list cell := replicate 80 blank.
(** The lines above the current one, the current line, the column of the next character. *)
Record paper := mk_paper { above : list (list cell); line : list cell; column : Z }.
Definition fresh : paper := mk_paper [] blank_row 0.
Definition feed (q : paper) : paper := mk_paper (above q ++ [line q]) blank_row 0.
(** Beyond the last column the next line begins. *)
Definition go_to (q : paper) (x : Z) : paper := if x <? 80 then mk_paper (above q) (line q) x else feed q.
Definition type_char (q : paper) (c : Z) : paper :=
  if c =? 10 then feed q
  else if c =? 12 then fresh
  else if c =? 8 then mk_paper (above q) (line q) (Z.max 0 (column q - 1))
  else if c =? 13 then mk_paper (above q) (line q) 0
  else if c =? 9 then go_to q (8 * (column q / 8 + 1))
  else if c =? 7 then q
  else go_to (mk_paper (above q) (<[Z.to_nat (column q) := (c mod 256, GRAY_ON_BLACK)]> (line q)) (column q)) (column q + 1).
Definition typed (text : list Z) : paper := foldl type_char fresh text.
(** What is in view: the last 25 lines, or all lines and blank ones below. *)
Definition view (q : paper) : list (list cell) :=
  let l := above q ++ [line q] in
  let k := List.length l in
  if (k <=? 25)%nat then l ++ replicate (25 - k) blank_row else drop (k - 25) l.

(** ** Proofs *)
Definition rows_ok (f : list (list cell)) : Prop := List.length f = 25%nat /\ Forall (fun row => List.length row = 80%nat) f.

Lemma rows_row f (y : nat) : rows_ok f -> (y < 25)%nat -> exists row, f !! y = Some row /\ List.length row = 80%nat.
Proof. intros [Hl Hf] Hy. destruct (lookup_lt_is_Some_2 f y) as [row Hr]; [lia|]. exists row. split; [done|]. by apply (Forall_lookup_1 _ _ _ _ Hf Hr). Qed.
Lemma rows_insert f (y : nat) row : rows_ok f -> List.length row = 80%nat -> rows_ok (<[y := row]> f).
Proof. intros [Hl Hf] Hr. split; [by rewrite length_insert|]. by apply Forall_insert. Qed.

Lemma set_cell_ok v y x c row : 0 <= x < 80 -> 0 <= y -> fb v !! Z.to_nat y = Some row -> set_cell v y x c = Ok (set_fb v (<[Z.to_nat y := <[Z.to_nat x := (c, GRAY_ON_BLACK)]> row]> (fb v))).
Proof.
  intros Hx Hy Hr. rewrite /set_cell (proj2 (Z.leb_le 0 x)); [lia|]. rewrite (proj2 (Z.ltb_lt x COL_CNT)); [rewrite /COL_CNT; lia|]. rewrite (proj2 (Z.leb_le 0 y)); [lia|]. by rewrite /= Hr.
Qed.
Lemma clear_row_loop_ok n : forall v y x row, 0 <= x -> x + Z.of_nat n <= 80 -> 0 <= y -> fb v !! Z.to_nat y = Some row -> List.length row = 80%nat ->
  exists row', clear_row_loop n v y x = Ok (set_fb v (<[Z.to_nat y := row']> (fb v))) /\ List.length row' = 80%nat /\
    (forall i, (Z.to_nat x <= i < Z.to_nat x + n)%nat -> row' !! i = Some blank) /\ forall i, (i < Z.to_nat x)%nat -> row' !! i = row !! i.
Proof.
  induction n as [|n IH] => v y x row Hx Hn Hy Hr Hl; simpl.
  { exists row. rewrite list_insert_id //. split_and!; [by destruct v|done|lia|done]. }
  rewrite (set_cell_ok v y x 32 row) //; [lia|]. cbn [obind]. have Hlt : (Z.to_nat y < List.length (fb v))%nat by apply lookup_lt_Some in Hr.
  destruct (IH (set_fb v (<[Z.to_nat y := <[Z.to_nat x := (32, GRAY_ON_BLACK)]> row]> (fb v))) y (x + 1) (<[Z.to_nat x := (32, GRAY_ON_BLACK)]> row)) as (row' & E & Hl' & Hb & Hs); try lia; [by rewrite list_lookup_insert_eq|by rewrite length_insert|].
  exists row'. rewrite E /set_fb /= list_insert_insert_eq. split_and!; [done|done| |].
  - intros i Hi. destruct (decide (i = Z.to_nat x)) as [->|Hne]; [rewrite Hs; [lia|]; rewrite list_lookup_insert_eq //; lia|apply Hb; lia].
  - intros i Hi. rewrite Hs; [lia|]. rewrite list_lookup_insert_ne //. lia.
Qed.
Lemma clear_row_ok v y : 0 <= y < 25 -> rows_ok (fb v) -> clear_row v y = Ok (set_fb v (<[Z.to_nat y := blank_row]> (fb v))).
Proof.
  intros Hy Hf. destruct (rows_row _ (Z.to_nat y) Hf) as (row & Hr & Hl); [lia|]. destruct (clear_row_loop_ok 80 v y 0 row) as (row' & E & Hl' & Hb & _); try done; [lia|].
  rewrite /clear_row. change (Z.to_nat COL_CNT) with 80%nat. rewrite E. do 4 f_equal. apply list_eq. intros i. destruct (decide (i < 80)%nat) as [Hi|Hi].
  - rewrite Hb; [lia|]. symmetry. by apply lookup_replicate_2.
  - rewrite (lookup_ge_None_2 row'); [lia|]. symmetry. apply lookup_ge_None_2. rewrite length_replicate. lia.
Qed.

Lemma cls_loop_ok n : forall v y, 0 <= y -> y + Z.of_nat n <= 25 -> rows_ok (fb v) -> exists f, cls_loop n v y = Ok (set_fb v f) /\ rows_ok f /\
  (forall i, (Z.to_nat y <= i < Z.to_nat y + n)%nat -> f !! i = Some blank_row) /\ forall i, (i < Z.to_nat y)%nat -> f !! i = fb v !! i.
Proof.
  induction n as [|n IH] => v y Hy Hn Hf; simpl.
  { exists (fb v). split_and!; [by destruct v|done|lia|done]. }
  rewrite clear_row_ok //; [lia|]. cbn [obind]. destruct (IH (set_fb v (<[Z.to_nat y := blank_row]> (fb v))) (y + 1)) as (f & E & Hf' & Hb & Hs); [lia|lia|by apply rows_insert|].
  exists f. rewrite E. split_and!; [done|done| |].
  - intros i Hi. destruct (decide (i = Z.to_nat y)) as [->|Hne]; [rewrite Hs; [lia|]; apply list_lookup_insert_eq; destruct Hf as [-> _]; lia|apply Hb; lia].
  - intros i Hi. rewrite Hs; [lia|]. apply list_lookup_insert_ne. lia.
Qed.
Lemma cls_ok v : rows_ok (fb v) -> cls v = Ok (move_cursor (set_cursor (set_fb v (replicate 25 blank_row)) 0 0)).
Proof.
  intros Hf. rewrite /cls. change (Z.to_nat ROW_CNT) with 25%nat. destruct (cls_loop_ok 25 v 0) as (f & -> & [Hl _] & Hb & _); [lia|lia|done|]. cbn [obind]. do 4 f_equal. apply list_eq. intros i. destruct (decide (i < 25)%nat) as [Hi|Hi].
  - rewrite Hb; [lia|]. symmetry. by apply lookup_replicate_2.
  - rewrite (lookup_ge_None_2 f); [lia|]. symmetry. apply lookup_ge_None_2. rewrite length_replicate. lia.
Qed.

(** ** The hardware cursor *)
Definition cursor_regs (cp : Z) (p : Z * Z) : Z * Z := port (outw_3d4 (outw_3d4 (mk_vga [] 0 0 p 0) (Z.lor 0x0e (Z.land cp 0xff00))) (wrap 16 (Z.lor 0x0f (Z.shiftl cp 8)))).
Lemma cursor_regs_ok cp hi lo : 0 <= cp < 2000 -> cursor_regs cp (hi, lo) = (cp / 256, cp mod 256).
Proof.
  intros Hcp. have Hall : Forall (fun cp => Z.lor 14 (Z.land cp 65280) mod 256 = 14 /\ wrap 16 (Z.lor 15 (Z.shiftl cp 8)) mod 256 = 15 /\
     Z.shiftr (Z.lor 14 (Z.land cp 65280)) 8 mod 256 = cp / 256 /\ Z.shiftr (wrap 16 (Z.lor 15 (Z.shiftl cp 8))) 8 mod 256 = cp mod 256) (seqZ 0 2000) by apply (bool_decide_unpack _); vm_compute.
  rewrite Forall_forall in Hall. destruct (Hall cp) as (E1 & E2 & E3 & E4); [by apply elem_of_seqZ|]. rewrite /cursor_regs /outw_3d4 /= E1 E2 E3 E4 //.
Qed.
Lemma find_cursor_ok v : 0 <= cx v < 80 -> 0 <= cy v < 25 -> find_cursor (move_cursor v) = (cx v, cy v).
Proof.
  intros Hx Hy. have E : port (move_cursor v) = cursor_regs (wrap 16 (cx v + COL_CNT * cy v)) (port v).
  { destruct v as [f x y [hi lo] b]. rewrite /move_cursor /cursor_regs /outw_3d4. cbn [port fb cx cy beeps fst snd]. by repeat case_match. }
  rewrite /find_cursor E. destruct (port v) as [hi lo]. rewrite (wrap_small 16 (cx v + COL_CNT * cy v)); [rewrite /COL_CNT; lia|]. set cp := cx v + COL_CNT * cy v. have Hcp : 0 <= cp < 2000 by rewrite /cp /COL_CNT; lia.
  rewrite cursor_regs_ok //. have Hall : Forall (fun cp => Z.lor (wrap 16 (Z.shiftl (cp / 256) 8)) (cp mod 256) = cp) (seqZ 0 2000) by apply (bool_decide_unpack _); vm_compute.
  rewrite Forall_forall in Hall. rewrite /= Hall; [by apply elem_of_seqZ|]. rewrite /cp /COL_CNT. f_equal; dlia.
Qed.

(** ** The simulation *)
Definition height (q : paper) : nat := S (List.length (above q)).
Record shows (v : vga) (q : paper) : Prop := {
  sh_fb : fb v = view q;
  sh_cx : cx v = column q;
  sh_cy : cy v = Z.of_nat (Nat.min (height q) 25) - 1;
  sh_col : 0 <= column q < 80;
  sh_line : List.length (line q) = 80%nat;
  sh_above : Forall (fun row => List.length row = 80%nat) (above q) }.

Lemma view_ok q : List.length (line q) = 80%nat -> Forall (fun row => List.length row = 80%nat) (above q) -> rows_ok (view q).
Proof.
  intros Hl Ha. rewrite /view. have Hall : Forall (fun row => List.length row = 80%nat) (above q ++ [line q]) by apply Forall_app; split; [done|by constructor].
  set l := above q ++ [line q] in Hall |- *. destruct (Nat.leb_spec (List.length l) 25) as [H|H]; split.
  - rewrite length_app length_replicate. lia.
  - apply Forall_app. split; [done|]. apply Forall_replicate. by rewrite length_replicate.
  - rewrite length_drop. lia.
  - by apply Forall_drop.
Qed.
Lemma shows_rows v q : shows v q -> rows_ok (fb v).
Proof. intros []. rewrite sh_fb0. by apply view_ok. Qed.
(** The current line on the screen. *)
Lemma view_line q row : <[(Nat.min (height q) 25 - 1)%nat := row]> (view q) = view (mk_paper (above q) row (column q)).
Proof.
  rewrite /view /height. cbn [above line]. rewrite !length_app. cbn [List.length]. set n := List.length (above q). have Hn : List.length (above q) = n by done. destruct (Nat.leb_spec (n + 1) 25) as [H|H].
  - rewrite -!app_assoc. rewrite insert_app_r_alt; [lia|]. rewrite Hn. by replace (Nat.min (S n) 25 - 1 - n)%nat with 0%nat by lia.
  - rewrite !drop_app_le; [lia..|]. rewrite insert_app_r_alt; rewrite length_drop Hn; [lia|]. by replace (Nat.min (S n) 25 - 1 - (n - (n + 1 - 25)))%nat with 0%nat by lia.
Qed.
(** The view when the paper has at least 25 lines, and after a line feed. *)
Lemma view_full q : (24 <= List.length (above q))%nat -> view q = drop (List.length (above q) - 24) (above q ++ [line q]).
Proof.
  intros H. rewrite /view length_app. cbn [List.length]. destruct (Nat.leb_spec (List.length (above q) + 1) 25); [|f_equal; lia].
  replace (25 - (List.length (above q) + 1))%nat with 0%nat by lia. replace (List.length (above q) - 24)%nat with 0%nat by lia. by rewrite app_nil_r.
Qed.
Lemma view_feed_full q : (24 <= List.length (above q))%nat -> <[24%nat := blank_row]> (take 24 (drop 1 (view q)) ++ drop 24 (view q)) = view (feed q).
Proof.
  intros H. rewrite (view_full q) // (view_full (feed q)); cbn [above line feed]; rewrite length_app; cbn [List.length]; [lia|].
  set l := above q ++ [line q]. have Hl : List.length l = S (List.length (above q)) by rewrite /l length_app /=; lia. set n := List.length (above q) in H, Hl |- *.
  rewrite !drop_drop. rewrite take_ge; [rewrite length_drop; lia|]. rewrite insert_app_r_alt; rewrite length_drop Hl; [lia|]. replace (24 - _)%nat with 0%nat by lia.
  rewrite (drop_app_le l); [lia|]. f_equal; [f_equal; lia|].
  destruct (drop (n - 24 + 24) l) as [|a [|b rest]] eqn:E; [|done|]; exfalso; apply (f_equal List.length) in E; rewrite length_drop Hl in E; cbn [List.length] in E; lia.
Qed.
Lemma view_feed_part q : (List.length (above q) < 24)%nat -> view (feed q) = view q.
Proof.
  intros H. rewrite /view. cbn [above line feed]. rewrite !length_app. cbn [List.length]. rewrite !(proj2 (Nat.leb_le _ _)); [lia..|]. rewrite -!app_assoc. do 2 f_equal.
  replace (25 - (List.length (above q) + 1))%nat with (S (25 - (List.length (above q) + 1 + 1))) by lia. done.
Qed.
Lemma newline_ok v q : shows v q -> exists v', newline v = Ok v' /\ shows v' (feed q).
Proof.
  intros Hs. have Hr := shows_rows _ _ Hs. destruct Hs. rewrite /newline. cbn [cy set_cursor].
  have Hab : Forall (fun row => List.length row = 80%nat) (above q ++ [line q]) by apply Forall_app; split; [done|by constructor].
  have Hh : height (feed q) = S (height q) by rewrite /height; cbn [above feed]; rewrite length_app; cbn [List.length]; lia.
  destruct (Z.leb_spec ROW_CNT (cy v + 1)) as [H|H]; rewrite sh_cy0 /ROW_CNT /height in H.
  - change (Z.to_nat (ROW_CNT - 1)) with 24%nat. rewrite clear_row_ok; [done| |].
    + cbn [fb set_fb]. destruct Hr as [Hl Hf]. split; [rewrite length_app length_take !length_drop Hl //|]. apply Forall_app. split; [by apply Forall_take, Forall_drop|by apply Forall_drop].
    + eexists. split; [done|]. split; try done; cbn [fb set_fb cy cx set_cursor].
      * rewrite sh_fb0. apply view_feed_full. lia.
      * rewrite Hh /ROW_CNT /height. lia.
  - eexists. split; [done|]. split; try done; cbn [fb set_fb cy cx set_cursor].
    + rewrite sh_fb0 view_feed_part //. lia.
    + rewrite sh_cy0 Hh /height. lia.
Qed.
Lemma go_to_ok v q x : shows v q -> 0 <= x <= 80 -> exists v', (let v := set_cursor v x (cy v) in if COL_CNT <=? cx v then newline v else Ok v) = Ok v' /\ shows v' (go_to q x).
Proof.
  intros Hs Hx. rewrite /go_to. cbn [cx set_cursor]. rewrite /COL_CNT. destruct (Z.leb_spec 80 x), (Z.ltb_spec x 80); try lia.
  - destruct (newline_ok v q Hs) as (v' & E & Hv'). exists v'. split; [|done]. exact E.
  - eexists. split; [done|]. destruct Hs. split; try done. simpl. lia.
Qed.
Lemma outw_same v w : fb (outw_3d4 v w) = fb v /\ cx (outw_3d4 v w) = cx v /\ cy (outw_3d4 v w) = cy v.
Proof. rewrite /outw_3d4. by destruct (port v). Qed.
Lemma move_same v : fb (move_cursor v) = fb v /\ cx (move_cursor v) = cx v /\ cy (move_cursor v) = cy v.
Proof. rewrite /move_cursor. cbv zeta. destruct (outw_same (outw_3d4 v (Z.lor 14 (Z.land (wrap 16 (cx v + COL_CNT * cy v)) 65280))) (wrap 16 (Z.lor 15 (Z.shiftl (wrap 16 (cx v + COL_CNT * cy v)) 8)))) as (-> & -> & ->). apply outw_same. Qed.
Lemma shows_move v q : shows v q -> shows (move_cursor v) q.
Proof. intros []. destruct (move_same v) as (E1 & E2 & E3). split; congruence. Qed.
Lemma vga_putc_ok v q c : shows v q -> exists v', vga_putc v c = Ok v' /\ shows v' (type_char q c) /\ find_cursor v' = (cx v', cy v').
Proof.
  intros Hs. suff [v1 [E Hv1]] : exists v1, vga_putc v c = Ok (move_cursor v1) /\ shows v1 (type_char q c).
  { exists (move_cursor v1). split_and!; [done|by apply shows_move|]. destruct (move_same v1) as (_ & -> & ->). destruct Hv1. apply find_cursor_ok; [lia|rewrite sh_cy0 /height; lia]. }
  have Hr := shows_rows _ _ Hs. rewrite /vga_putc /type_char. have [Hfb Hx Hy Hc Hl Ha] := Hs.
  destruct (c =? 10); [destruct (newline_ok v q Hs) as (v1 & -> & ?); by exists v1|].
  destruct (c =? 12). { rewrite cls_ok //. cbn [obind]. eexists. split; [done|]. apply shows_move. by split. }
  destruct (c =? 8). { eexists. split; [done|]. destruct (Z.ltb_spec 0 (cx v)); split; try done; simpl; lia. }
  destruct (c =? 13). { eexists. split; [done|]. split; done. }
  destruct (c =? 9).
  { destruct (go_to_ok v q (round_up (cx v + 1) 8) Hs) as (v1 & E & Hv1); [rewrite /round_up; dlia|]. cbv zeta in E |- *. rewrite E. exists v1. split; [done|]. replace (8 * (column q / 8 + 1)) with (round_up (cx v + 1) 8); [done|]. rewrite /round_up. dlia. }
  destruct (c =? 7). { eexists. split; [done|]. split; done. }
  destruct (rows_row _ (Z.to_nat (cy v)) Hr) as (row & Hrow & Hlr); [rewrite Hy /height; lia|]. rewrite (set_cell_ok v (cy v) (cx v) (c mod 256) row) //; [lia|rewrite Hy /height; lia|]. cbn [obind].
  have Hrl : row = line q. { rewrite Hfb in Hrow. have E := view_line q (line q). replace (mk_paper (above q) (line q) (column q)) with q in E by by destruct q. rewrite -E in Hrow. rewrite Hy in Hrow. replace (Z.to_nat (Z.of_nat (Nat.min (height q) 25) - 1)) with (Nat.min (height q) 25 - 1)%nat in Hrow by lia. rewrite list_lookup_insert_eq in Hrow; [|congruence]. destruct (view_ok q Hl Ha) as [-> _]. lia. }
  subst row. set q1 := mk_paper (above q) (<[Z.to_nat (column q) := (c mod 256, GRAY_ON_BLACK)]> (line q)) (column q).
  have Hs1 : shows (set_fb v (<[Z.to_nat (cy v) := <[Z.to_nat (cx v) := (c mod 256, GRAY_ON_BLACK)]> (line q)]> (fb v))) q1.
  { split; try done; cbn [fb set_fb line q1]; [|by rewrite length_insert]. rewrite Hfb Hy Hx. replace (Z.to_nat (Z.of_nat (Nat.min (height q) 25) - 1)) with (Nat.min (height q) 25 - 1)%nat by lia. by rewrite view_line. }
  destruct (go_to_ok _ q1 (cx v + 1) Hs1) as (v1 & E & Hv1); [lia|]. cbv zeta in E |- *. cbn [cx cy set_fb] in E |- *. rewrite E. exists v1. split; [done|]. by rewrite -Hx.
Qed.

Lemma putc_all_ok text : forall v q, shows v q -> find_cursor v = (cx v, cy v) -> exists v', putc_all v text = Ok v' /\ shows v' (foldl type_char q text) /\ find_cursor v' = (cx v', cy v').
Proof. induction text as [|c text IH] => v q Hs Hf; simpl; [by exists v|]. destruct (vga_putc_ok v q c Hs) as (v1 & -> & Hv1 & Hf1). cbn [obind]. by apply IH. Qed.

(** C36: the screen.  Whatever was on the screen and wherever its cursor was, after a form
    feed and any text, with new lines, carriage returns, tabs, backspaces and further form
    feeds, no access leaves the frame buffer; the screen shows the last 25 lines of the roll
    of paper on which the text was typed, in lines of 80 characters; the driver's cursor is
    at the column where typing goes on, in the last line, and so is the hardware's. *)
Theorem vga_shows_text v text : rows_ok (fb v) ->
  exists v', putc_all v (12 :: text) = Ok v' /\ fb v' = view (typed text) /\
    cx v' = column (typed text) /\ cy v' = Z.of_nat (Nat.min (height (typed text)) 25) - 1 /\ find_cursor v' = (cx v', cy v').
Proof.
  intros Hr. set w := move_cursor (set_cursor (set_fb v (replicate 25 blank_row)) 0 0).
  have Hs : shows w fresh by apply shows_move; split. have E0 : vga_putc v 12 = Ok (move_cursor w) by rewrite /vga_putc; change (12 =? 10) with false; change (12 =? 12) with true; cbv iota; rewrite cls_ok.
  have Hw : cx w = 0 /\ cy w = 0 by destruct Hs. destruct (move_same w) as (_ & Hx & Hy).
  destruct (putc_all_ok text (move_cursor w) fresh) as (v' & E & [] & Hf); [by apply shows_move|rewrite find_cursor_ok ?Hx ?Hy //; lia|].
  exists v'. split_and!; [by rewrite /= E0|done|done|done|done].
Qed.
Lemma vga_shows_text_witness : exists v', putc_all (mk_vga (replicate 25 (replicate 80 (0, 0))) 300 900 (7, 7) 0) [12; 72; 105; 10; 33] = Ok v' /\ cx v' = 1 /\ cy v' = 1.
Proof.
  destruct (vga_shows_text (mk_vga (replicate 25 (replicate 80 (0, 0))) 300 900 (7, 7) 0) [72; 105; 10; 33]) as (v' & E & _ & Hx & Hy & _).
  - split; [done|]. by apply Forall_replicate.
  - exists v'. split_and!; [exact E|exact Hx|exact Hy].
Defined.
