(* ===== verification/Boot.v ===== *)
(** * threads/init.c: the kernel command line

    The loader leaves the words of the command line in 128 bytes of memory.
    [read_command_line] finds them, [parse_options] takes the options in front,
    [locate_block_devices] gives the devices their roles and [run_actions] runs the
    actions that follow.  Words are lists of characters; the pieces of an option are those
    that [strtok_r] finds (strtok_r_correct of CString.v).  What an action does is a
    parameter.  Messages are not modelled.

    The theorems: the words that the loader stored are read back, and more than fit make the
    kernel panic; a command line made of options and actions sets exactly these options and
    runs exactly these actions in order, except that the seed of an option -rs is lost. *)
From S2P Require Import Prelude CString StdLib Random Block Printf.

(** ** The words *)
Definition LOADER_ARGS_LEN : Z := 128.
(** The loop of [read_command_line], with [argc] words left from [p] on. *)
Fixpoint words_loop (argc : nat) (m : list Z) (p end_ : Z) : outcome (list Z) :=
  match argc with
  | O => Ok []
  | S argc =>
    if end_ <=? p then Err Panic
    else let! n := strnlen m p (end_ - p) in
         let! argv := words_loop argc m (p + (n + 1)) end_ in Ok (p :: argv)
  end.
(** [args] is the address of the words; the result is the array of pointers. *)
Definition read_command_line (m : list Z) (args : Z) (argc : nat) : outcome (list Z) :=
  words_loop argc m args (args + LOADER_ARGS_LEN).

(** ** The options *)
Inductive shutdown_type := SHUTDOWN_NONE | SHUTDOWN_POWER_OFF | SHUTDOWN_REBOOT.
Abbreviation word := (list Z).
Record settings := mk_settings {
  how : shutdown_type; format_filesys : bool; filesys_bdev_name : option word; scratch_bdev_name : option word; swap_bdev_name : option word;
  thread_mlfqs : bool; user_page_limit : Z; rng : option rc4 }.
(** The values before the command line is read. *)
Definition defaults : settings := mk_settings SHUTDOWN_NONE false None None None false SIZE_MAX None.

(** The first [strtok_r], at the sign =, of a word that starts with -, and what is left. *)
Fixpoint token (w : word) : word * word :=
  match w with
  | [] => ([], [])
  | c :: w => if c =? 61 then ([], w) else let (a, b) := token w in (c :: a, b)
  end.
(** The second [strtok_r], with no delimiters *)
Definition value_of (rest : word) : option word := match rest with [] => None | _ => Some rest end.
(** [atoi (value)], for a pointer that may be null *)
Definition atoi_word (v : option word) : outcome Z :=
  match v with None => Err Panic | Some v => atoi (0 :: v ++ [0]) 1 end.

Definition option_is (name : word) (s : string) : bool := bool_decide (name = chars s).
(** One option; no result when [usage] powers the machine off. *)
Definition parse_option (st : settings) (w : word) : outcome (option settings) :=
  let (name, rest) := token w in
  let value := value_of rest in
  if option_is name "-h" then Ok None
  else if option_is name "-q" then
    Ok (Some (mk_settings SHUTDOWN_POWER_OFF (format_filesys st) (filesys_bdev_name st) (scratch_bdev_name st) (swap_bdev_name st) (thread_mlfqs st) (user_page_limit st) (rng st)))
  else if option_is name "-r" then
    Ok (Some (mk_settings SHUTDOWN_REBOOT (format_filesys st) (filesys_bdev_name st) (scratch_bdev_name st) (swap_bdev_name st) (thread_mlfqs st) (user_page_limit st) (rng st)))
  else if option_is name "-f" then
    Ok (Some (mk_settings (how st) true (filesys_bdev_name st) (scratch_bdev_name st) (swap_bdev_name st) (thread_mlfqs st) (user_page_limit st) (rng st)))
  else if option_is name "-filesys" then
    Ok (Some (mk_settings (how st) (format_filesys st) value (scratch_bdev_name st) (swap_bdev_name st) (thread_mlfqs st) (user_page_limit st) (rng st)))
  else if option_is name "-scratch" then
    Ok (Some (mk_settings (how st) (format_filesys st) (filesys_bdev_name st) value (swap_bdev_name st) (thread_mlfqs st) (user_page_limit st) (rng st)))
  else if option_is name "-swap" then
    Ok (Some (mk_settings (how st) (format_filesys st) (filesys_bdev_name st) (scratch_bdev_name st) value (thread_mlfqs st) (user_page_limit st) (rng st)))
  else if option_is name "-rs" then
    let! n := atoi_word value in
    let! r := random_init (u32 n) in
    Ok (Some (mk_settings (how st) (format_filesys st) (filesys_bdev_name st) (scratch_bdev_name st) (swap_bdev_name st) (thread_mlfqs st) (user_page_limit st) (Some r)))
  else if option_is name "-mlfqs" then
    Ok (Some (mk_settings (how st) (format_filesys st) (filesys_bdev_name st) (scratch_bdev_name st) (swap_bdev_name st) true (user_page_limit st) (rng st)))
  else if option_is name "-ul" then
    let! n := atoi_word value in
    Ok (Some (mk_settings (how st) (format_filesys st) (filesys_bdev_name st) (scratch_bdev_name st) (swap_bdev_name st) (thread_mlfqs st) (u32 n) (rng st)))
  else Err Panic.
(** The test of the first character *)
Definition is_option (w : word) : bool := match w with c :: _ => c =? 45 | [] => false end.
Fixpoint options_loop (st : settings) (argv : list word) : outcome (option (settings * list word)) :=
  match argv with
  | [] => Ok (Some (st, []))
  | w :: rest =>
    if is_option w then let! r := parse_option st w in match r with None => Ok None | Some st => options_loop st rest end
    else Ok (Some (st, argv))
  end.
(** [clock] is the result of [rtc_get_time]. *)
Definition parse_options (clock : Z) (st : settings) (argv : list word) : outcome (option (settings * list word)) :=
  let! r := options_loop st argv in
  match r with
  | None => Ok None
  | Some (st, argv) =>
    let! g := random_init clock in
    Ok (Some (mk_settings (how st) (format_filesys st) (filesys_bdev_name st) (scratch_bdev_name st) (swap_bdev_name st) (thread_mlfqs st) (user_page_limit st) (Some g), argv))
  end.

(** ** The devices *)
Definition to_string (w : word) : string := String.string_of_list_ascii ((fun c => Ascii.ascii_of_nat (Z.to_nat c)) <$> w).
Definition block_type_of (t : block_table) (i : nat) : outcome block_type := let! b := @oget block (all_blocks t !! i) in Ok (Block.type b).
(** [for (block = block_first (); ...; block = block_next (block))], with [fuel] turns *)
Fixpoint find_role (fuel : nat) (t : block_table) (i : option nat) (role : block_type) : outcome (option nat) :=
  match fuel, i with
  | _, None => Ok None
  | O, Some _ => Err NoFuel
  | S fuel, Some i => let! ty := block_type_of t i in
                      if block_type_no ty =? block_type_no role then Ok (Some i) else find_role fuel t (block_next t i) role
  end.
Definition locate_block_device (t : block_table) (role : block_type) (name : option word) : outcome block_table :=
  let! b := match name with
            | Some n => match block_get_by_name t (to_string n) with Some i => Ok (Some i) | None => Err Panic end
            | None => find_role (List.length (all_blocks t)) t (block_first t) role
            end in
  match b with Some i => block_set_role t role (Some i) | None => Ok t end.
Definition locate_block_devices (t : block_table) (st : settings) : outcome block_table :=
  let! t := locate_block_device t BLOCK_FILESYS (filesys_bdev_name st) in
  let! t := locate_block_device t BLOCK_SCRATCH (scratch_bdev_name st) in
  locate_block_device t BLOCK_SWAP (swap_bdev_name st).

(** ** The actions *)
Definition actions : list (string * nat) := [("run", 2%nat); ("ls", 1%nat); ("cat", 2%nat); ("rm", 2%nat); ("extract", 1%nat); ("append", 2%nat)]%string.
Fixpoint find_action (l : list (string * nat)) (w : word) : outcome (string * nat) :=
  match l with [] => Err Panic | a :: l => if bool_decide (w = chars (fst a)) then Ok a else find_action l w end.
Section run.
Context {W : Type} (invoke : string -> list word -> W -> outcome W).
Fixpoint run_actions (fuel : nat) (w : W) (argv : list word) : outcome W :=
  match fuel, argv with
  | _, [] => Ok w
  | O, _ => Err NoFuel
  | S fuel, x :: _ =>
    let! (name, argc) := find_action actions x in
    if (List.length argv <? argc)%nat then Err Panic else
    let! w := invoke name (take argc argv) w in
    run_actions fuel w (drop argc argv)
  end.
End run.

(** ** The words are read back *)
(** The words [ws], each with its terminator, from [p] to [e]. *)
Inductive stored (m : list Z) : Z -> list word -> Z -> Prop :=
| stored_nil p : stored m p [] p
| stored_cons p w ws e : cstr m p w -> stored m (p + len w + 1) ws e -> stored m p (w :: ws) e.

Lemma strnlen_loop_ok m p k w : forall n i, cstr m (p + i) w -> 0 <= i <= k -> (List.length w < n)%nat -> strnlen_loop n m p k i = Ok (i + Z.min (len w) (k - i)).
Proof.
  induction w as [|c w IH]; intros [|n] i Hs Hi Hn; simpl in *; try lia.
  - rewrite Hs /=. f_equal. lia.
  - destruct Hs as (-> & Hc & Hs). cbn [obind]. rewrite (proj2 (Z.eqb_neq c 0)); [lia|]. cbn [negb andb]. destruct (Z.ltb_spec i k); [|f_equal; lia]. rewrite -Z.add_assoc in Hs. rewrite IH //; try lia. f_equal. lia.
Qed.
Lemma strnlen_ok m p w k : cstr m p w -> 0 <= k -> strnlen m p k = Ok (Z.min (len w) k).
Proof.
  intros Hs Hk. have Hf := cstr_fuel _ _ _ Hs. rewrite /strnlen (strnlen_loop_ok m p k w) //; [by rewrite Z.add_0_r|]. f_equal. lia.
Qed.
Lemma words_loop_S n m p e : words_loop (S n) m p e = if e <=? p then Err Panic else let! k := strnlen m p (e - p) in let! argv := words_loop n m (p + (k + 1)) e in Ok (p :: argv).
Proof. done. Qed.
Lemma words_loop_ok m p ws e end_ : stored m p ws e ->
  (e <= end_ -> exists argv, words_loop (List.length ws) m p end_ = Ok argv /\ Forall2 (cstr m) argv ws) /\
  (end_ <= e -> words_loop (S (List.length ws)) m p end_ = Err Panic).
Proof.
  induction 1 as [p|p w ws e Hw Hs [IH1 IH2]].
  - split; [by exists []|]. intros H. cbn [words_loop List.length]. by rewrite (proj2 (Z.leb_le _ _)).
  - have Hle : p + len w + 1 <= e by clear -Hs; induction Hs; lia. split.
    + intros He. destruct (IH1 He) as (argv & E & HF). exists (p :: argv). cbn [words_loop List.length]. rewrite (proj2 (Z.leb_gt _ _)); [lia|]. rewrite (strnlen_ok _ _ _ _ Hw); [lia|]. cbn [obind]. rewrite Z.min_l; [lia|]. rewrite Z.add_assoc E /=. split; [done|by constructor].
    + intros He. cbn [List.length]. rewrite words_loop_S. destruct (Z.leb_spec end_ p); [done|]. rewrite (strnlen_ok _ _ _ _ Hw); [lia|]. cbn [obind]. destruct (Z.le_gt_cases (len w) (end_ - p)) as [Hl|Hl].
      * rewrite Z.min_l // Z.add_assoc. rewrite (IH2 He). done.
      * rewrite Z.min_r; [lia|]. rewrite words_loop_S (proj2 (Z.leb_le _ _)) //. lia.
Qed.

(** Reading the command line.  When the loader has stored words one after the other, each
    with its terminator, and they end inside the 128 bytes for them, [read_command_line]
    finds exactly these words; when they fill the bytes or go beyond them, a further
    word makes the kernel panic instead of being read from elsewhere. *)
Theorem read_command_line_correct m args ws e : stored m args ws e ->
  (e <= args + LOADER_ARGS_LEN -> exists argv, read_command_line m args (List.length ws) = Ok argv /\ Forall2 (cstr m) argv ws) /\
  (args + LOADER_ARGS_LEN <= e -> read_command_line m args (S (List.length ws)) = Err Panic).
Proof. apply words_loop_ok. Qed.

(** ** Options and actions *)
Inductive bopt := Power_off | Reboot | Format | Filesys (v : word) | Scratch (v : word) | Swap (v : word) | Seed (v : word) | Mlfqs | Limit (v : word).
Definition print_opt (o : bopt) : word :=
  match o with
  | Power_off => chars "-q" | Reboot => chars "-r" | Format => chars "-f" | Mlfqs => chars "-mlfqs"
  | Filesys v => chars "-filesys=" ++ v | Scratch v => chars "-scratch=" ++ v | Swap v => chars "-swap=" ++ v
  | Seed v => chars "-rs=" ++ v | Limit v => chars "-ul=" ++ v
  end.
Definition opt_ok (o : bopt) : Prop :=
  match o with
  | Filesys v | Scratch v | Swap v => v <> []
  | Seed v => v <> [] /\ exists n, atoi_word (Some v) = Ok n
  | Limit v => v <> [] /\ exists n, atoi_word (Some v) = Ok n
  | _ => True
  end.
(** What an option means; a seed has no effect. *)
Definition apply_opt (st : settings) (o : bopt) : settings :=
  let '(mk_settings h f n1 n2 n3 q l g) := st in
  match o with
  | Power_off => mk_settings SHUTDOWN_POWER_OFF f n1 n2 n3 q l g
  | Reboot => mk_settings SHUTDOWN_REBOOT f n1 n2 n3 q l g
  | Format => mk_settings h true n1 n2 n3 q l g
  | Filesys v => mk_settings h f (Some v) n2 n3 q l g
  | Scratch v => mk_settings h f n1 (Some v) n3 q l g
  | Swap v => mk_settings h f n1 n2 (Some v) q l g
  | Seed _ => st
  | Mlfqs => mk_settings h f n1 n2 n3 true l g
  | Limit v => mk_settings h f n1 n2 n3 q (match atoi_word (Some v) with Ok n => u32 n | Err _ => l end) g
  end.
Definition with_rng (st : settings) (g : option rc4) : settings :=
  mk_settings (how st) (format_filesys st) (filesys_bdev_name st) (scratch_bdev_name st) (swap_bdev_name st) (thread_mlfqs st) (user_page_limit st) g.

(** An action with its arguments. *)
Definition act_ok (a : string * list word) : Prop := (fst a, S (List.length (snd a))) ∈ actions.
Definition print_act (a : string * list word) : list word := chars (fst a) :: snd a.
Fixpoint run_all {W} (invoke : string -> list word -> W -> outcome W) (w : W) (acts : list (string * list word)) : outcome W :=
  match acts with [] => Ok w | a :: acts => let! w := invoke (fst a) (print_act a) w in run_all invoke w acts end.

Lemma random_init_total seed : exists g, random_init seed = Ok g.
Proof. rewrite /random_init. destruct (init_loop_ok 256 (seqZ 0 256) 0 0 seed) as (l & E & _); [done|lia|lia|]. rewrite E. by eexists. Qed.
Lemma value_some v : v <> [] -> value_of v = Some v.
Proof. by destruct v. Qed.
(** The pieces of an option with a value. *)
Lemma token_value name v : forallb (fun c => negb (c =? 61)) name = true -> token (name ++ 61 :: v) = (name, v).
Proof. induction name as [|c name IH] => H; simpl in *; [done|]. apply andb_true_iff in H as [H1 H2]. apply negb_true_iff in H1. by rewrite H1 IH. Qed.
Lemma parse_option_ok st o : opt_ok o -> exists g, parse_option st (print_opt o) = Ok (Some (with_rng (apply_opt st o) g)).
Proof.
  intros Ho. destruct st as [h f n1 n2 n3 q l g]. destruct o as [| | |v|v|v|v| |v]; cbn [opt_ok] in Ho; cbn [print_opt]; try (by exists g); unfold parse_option.
  - change (chars "-filesys=" ++ v) with (chars "-filesys" ++ 61 :: v). rewrite token_value // value_some //. by exists g.
  - change (chars "-scratch=" ++ v) with (chars "-scratch" ++ 61 :: v). rewrite token_value // value_some //. by exists g.
  - change (chars "-swap=" ++ v) with (chars "-swap" ++ 61 :: v). rewrite token_value // value_some //. by exists g.
  - destruct Ho as [Hv [n Hn]]. change (chars "-rs=" ++ v) with (chars "-rs" ++ 61 :: v). rewrite token_value // value_some // Hn. destruct (random_init_total (u32 n)) as [g' Hg]. exists (Some g').
    repeat match goal with |- context [option_is (chars ?a) ?b] => let x := eval vm_compute in (option_is (chars a) b) in change (option_is (chars a) b) with x end. cbv iota. cbn [obind]. rewrite Hg. done.
  - destruct Ho as [Hv [n Hn]]. change (chars "-ul=" ++ v) with (chars "-ul" ++ 61 :: v). rewrite token_value // value_some // Hn. exists g. cbn [apply_opt]. rewrite Hn. done.
Qed.
Lemma with_rng_apply st o g : with_rng (apply_opt st o) g = apply_opt (with_rng st g) o.
Proof. destruct st, o; done. Qed.
Lemma with_rng_fold opts : forall st g g', with_rng (foldl apply_opt (with_rng st g) opts) g' = with_rng (foldl apply_opt st opts) g'.
Proof. induction opts as [|o opts IH]; intros st g g'; cbn [foldl]; [done|]. by rewrite -with_rng_apply IH. Qed.
Lemma is_option_print o : is_option (print_opt o) = true.
Proof. by destruct o. Qed.
Lemma options_loop_ok opts : forall st rest, Forall opt_ok opts -> (forall w, head rest = Some w -> is_option w = false) ->
  exists g, options_loop st (map print_opt opts ++ rest) = Ok (Some (with_rng (foldl apply_opt st opts) g, rest)).
Proof.
  induction opts as [|o opts IH] => st rest Ho Hr; simpl.
  - exists (rng st). replace (with_rng st (rng st)) with st by by destruct st. destruct rest as [|w rest]; [done|]. simpl. by rewrite Hr.
  - apply Forall_cons in Ho as [Ho Hos]. rewrite is_option_print. destruct (parse_option_ok st o Ho) as [g ->]. cbn [obind]. destruct (IH (with_rng (apply_opt st o) g) rest Hos Hr) as [g' ->]. exists g'. by rewrite with_rng_fold.
Qed.

Lemma act_ok_inv a : act_ok a -> find_action actions (chars (fst a)) = Ok (fst a, S (List.length (snd a))) /\ is_option (chars (fst a)) = false.
Proof.
  destruct a as [name args]. rewrite /act_ok. cbn [fst snd]. intros H. have Hall : Forall (fun x => find_action actions (chars (fst x)) = Ok x /\ is_option (chars (fst x)) = false) actions by repeat constructor.
  rewrite Forall_forall in Hall. apply (Hall _ H).
Qed.
Lemma run_actions_ok {W} (invoke : string -> list word -> W -> outcome W) acts : forall w, Forall act_ok acts -> run_actions invoke (List.length acts) w (concat (map print_act acts)) = run_all invoke w acts.
Proof.
  induction acts as [|a acts IH]; intros w Ha; [done|]. apply Forall_cons in Ha as [H Ha]. destruct (act_ok_inv a H) as [E _]. cbn [List.length map concat].
  set rest := concat (map print_act acts). have Hl : List.length (print_act a) = S (List.length (snd a)) by done.
  change (print_act a ++ rest) with (chars (fst a) :: (snd a ++ rest)). cbn [run_actions]. rewrite E. cbn [obind]. change (chars (fst a) :: (snd a ++ rest)) with (print_act a ++ rest).
  rewrite (proj2 (Nat.ltb_ge _ _)); [rewrite length_app Hl; lia|]. rewrite take_app_length' // drop_app_length' //. cbn [run_all]. destruct (invoke _ _ w); cbn [obind]; [by apply IH|done].
Qed.

(** C38: the command line.  For any options of [bopt], with the value that they need, a number
    that [atoi] reads for -rs and -ul, and any actions with all their arguments:
    [parse_options] takes exactly the options, each with the meaning that [apply_opt] gives,
    and leaves the words of the actions, which [run_actions] then runs in order, each with its
    arguments.  The random number generator is in every case seeded by the clock: the seed of
    an option -rs is lost, although the comment says that the option has priority.  The
    option -h, which does not return, unknown options and options without their value are
    not covered. *)
Theorem command_line_correct clock opts acts : Forall opt_ok opts -> Forall act_ok acts ->
  exists g, random_init clock = Ok g /\
    parse_options clock defaults (map print_opt opts ++ concat (map print_act acts)) = Ok (Some (with_rng (foldl apply_opt defaults opts) (Some g), concat (map print_act acts))) /\
    forall (W : Type) (invoke : string -> list word -> W -> outcome W) (w : W), run_actions invoke (List.length acts) w (concat (map print_act acts)) = run_all invoke w acts.
Proof.
  intros Ho Ha. destruct (random_init_total clock) as [g Hg]. exists g. split; [done|]. split; [|intros; by apply run_actions_ok].
  destruct (options_loop_ok opts defaults (concat (map print_act acts)) Ho) as [g' E].
  { intros w Hw. destruct acts as [|a acts]; [done|]. apply Forall_cons in Ha as [Ha _]. destruct (act_ok_inv a Ha) as [_ Hn]. simpl in Hw. by simplify_eq. }
  by rewrite /parse_options E /= Hg.
Qed.

(** ** Witnesses *)
Lemma read_command_line_correct_witness : exists argv, read_command_line [9; 45; 113; 0; 108; 115; 0] 1 2 = Ok argv /\ Forall2 (cstr [9; 45; 113; 0; 108; 115; 0]) argv [[45; 113]; [108; 115]].
Proof.
  destruct (read_command_line_correct [9; 45; 113; 0; 108; 115; 0] 1 [[45; 113]; [108; 115]] 7) as [H _]; [|apply H; rewrite /LOADER_ARGS_LEN; lia].
  apply stored_cons; [repeat split|]. apply stored_cons; [repeat split|]. apply stored_nil.
Defined.
Definition ex_opts : list bopt := [Power_off; Seed [52; 50]; Swap (chars "hdb1")].
Definition ex_acts : list (string * list word) := [("run"%string, [chars "echo x"]); ("ls"%string, [])].
Lemma command_line_correct_witness : exists g, random_init 5 = Ok g /\
  parse_options 5 defaults (map print_opt ex_opts ++ concat (map print_act ex_acts)) = Ok (Some (with_rng (foldl apply_opt defaults ex_opts) (Some g), concat (map print_act ex_acts))).
Proof.
  destruct (command_line_correct 5 ex_opts ex_acts) as (g & Hg & H & _).
  - repeat constructor; try discriminate. by exists 42.
  - repeat constructor; apply (bool_decide_unpack _); by vm_compute.
  - exact (ex_intro _ g (conj Hg H)).
Defined.

(** ** Roles *)
Definition has_type (t : block_table) (role : block_type) (i : nat) : Prop := exists b, all_blocks t !! i = Some b /\ Block.type b = role.
Lemma find_role_ok t role n : forall i, (List.length (all_blocks t) <= i + n)%nat -> (i <= List.length (all_blocks t))%nat -> (forall k, (k < i)%nat -> ~ has_type t role k) ->
  exists r, find_role n t (if bool_decide (i < List.length (all_blocks t))%nat then Some i else None) role = Ok r /\
    match r with Some j => has_type t role j /\ forall k, (k < j)%nat -> ~ has_type t role k | None => forall k, ~ has_type t role k end.
Proof.
  have Hend : forall i, (List.length (all_blocks t) <= i)%nat -> (forall k, (k < i)%nat -> ~ has_type t role k) -> forall k, ~ has_type t role k.
  { intros i Hi Hk k Ht. destruct (decide (k < i)%nat) as [Hlt|]; [by apply (Hk k)|]. destruct Ht as (b & Hb & _). apply lookup_lt_Some in Hb. lia. }
  induction n as [|n IH]; intros i Hn Hi Hk; case_bool_decide as Hc; try lia; try (exists None; split; [done|]; apply (Hend i); [lia|done]).
  destruct (lookup_lt_is_Some_2 (all_blocks t) i Hc) as [b Hb]. cbn [find_role]. rewrite /block_type_of Hb. cbn [oget obind].
  destruct (Z.eqb_spec (block_type_no (Block.type b)) (block_type_no role)) as [E|E].
  - exists (Some i). split; [done|]. split; [|done]. exists b. split; [done|]. by destruct (Block.type b), role.
  - destruct (IH (S i)) as (r & Er & Hr); [lia|lia| |by exists r]. intros k Hk'. destruct (decide (k = i)) as [->|]; [|apply Hk; lia]. intros (b' & Hb' & Ht). by simplify_eq.
Qed.

(** [locate_block_device]: a name must be that of a device; without a name the first device
    of the type of the role gets the role, and none if there is no such device. *)
Theorem locate_block_device_correct t role name : block_type_no role < 4 ->
  match name with
  | Some n => match block_get_by_name t (to_string n) with
              | Some i => locate_block_device t role name = Ok (mk_table (all_blocks t) (<[Z.to_nat (block_type_no role) := Some i]> (block_by_role t)))
              | None => locate_block_device t role name = Err Panic
              end
  | None => (exists i, has_type t role i /\ (forall k, (k < i)%nat -> ~ has_type t role k) /\
               locate_block_device t role name = Ok (mk_table (all_blocks t) (<[Z.to_nat (block_type_no role) := Some i]> (block_by_role t)))) \/
            ((forall k, ~ has_type t role k) /\ locate_block_device t role name = Ok t)
  end.
Proof.
  intros Hr. have Hset : forall i, block_set_role t role i = Ok (mk_table (all_blocks t) (<[Z.to_nat (block_type_no role) := i]> (block_by_role t))) by intros i; rewrite /block_set_role (proj2 (Z.ltb_lt _ _) Hr).
  destruct name as [n|]; rewrite /locate_block_device; [destruct (block_get_by_name t (to_string n)); [by rewrite /= Hset|done]|].
  destruct (find_role_ok t role (List.length (all_blocks t)) 0) as (r & E & Hm); [lia|lia|lia|]. have Hf : block_first t = if bool_decide (0 < List.length (all_blocks t))%nat then Some 0%nat else None by rewrite /block_first; destruct (all_blocks t).
  rewrite Hf E. cbn [obind]. destruct r as [i|]; [left; exists i|by right]. destruct Hm. by rewrite Hset.
Qed.
