(* ===== verification/Handler.v ===== *)
(** * userprog/syscall.c: the system call handler

    [syscall_handler] reads the number of the call and its arguments from the stack of the
    program, with the checks of Uptr, makes the call, and releases the frames that the
    checks have pinned.  The calls themselves are a parameter here: those on files are
    modelled in Syscall, exec, wait and exit in Life.

    The theorems: whatever of the program's memory is in frames, on swap or in files, a
    call gets exactly the words that the program has on its stack; the strings and
    buffers it points to are then in pinned frames, and no page of any process has
    changed.  The kernel panics only if swap is full when one of these addresses is
    touched, and the process is ended only if no frame or no memory for a page table can
    be had for one of them.  Afterwards exactly the pages of the arguments, the characters
    and the buffer stop being pinned. *)
From S2P Require Import Prelude Bitmap Palloc PageDir UserMem Block Swap Spt Frame Fault Uptr.

(** lib/syscall-nr.h *)
Definition SYS_HALT : Z := 0.
Definition SYS_EXIT : Z := 1.
Definition SYS_EXEC : Z := 2.
Definition SYS_WAIT : Z := 3.
Definition SYS_CREATE : Z := 4.
Definition SYS_REMOVE : Z := 5.
Definition SYS_OPEN : Z := 6.
Definition SYS_FILESIZE : Z := 7.
Definition SYS_READ : Z := 8.
Definition SYS_WRITE : Z := 9.
Definition SYS_SEEK : Z := 10.
Definition SYS_TELL : Z := 11.
Definition SYS_CLOSE : Z := 12.
Definition SYS_MMAP : Z := 13.
Definition SYS_MUNMAP : Z := 14.
Definition SYS_CHDIR : Z := 15.
Definition SYS_MKDIR : Z := 16.
Definition SYS_READDIR : Z := 17.
Definition SYS_ISDIR : Z := 18.
Definition SYS_INUMBER : Z := 19.

(** A call with its arguments; strings and buffers are addresses of the program. *)
Inductive call :=
| Halt | Exit (status : Z) | Exec (cmd_line : Z) | Wait (pid : Z) | Create (file initial_size : Z) | Remove (file : Z) | Open (file : Z)
| Filesize (fd : Z) | Read (fd buffer size : Z) | Write (fd buffer size : Z) | Seek (fd position : Z) | Tell (fd : Z) | Close (fd : Z)
| Mmap (fd addr : Z) | Munmap (mapping : Z)
| Chdir (name : Z) | Mkdir (name : Z) | Readdir (fd name : Z) | Isdir (fd : Z) | Inumber (fd : Z).
#[export] Instance call_eq_dec : EqDecision call.
Proof. solve_decision. Defined.

Section handler.
Context {T F : Type} {spt_ops : SptOps T} {file_ops : FileOps F}.
Context (init_page_dir init_ram_pages : Z).
Implicit Types c : ctx T F.
Abbreviation valid := (valid init_page_dir init_ram_pages).
Abbreviation valid_str := (valid_str init_page_dir init_ram_pages).
Abbreviation valid_buf := (valid_buf init_page_dir init_ram_pages).
Abbreviation load_word := (load_word init_page_dir init_ram_pages).

Definition set_esp c (e : Z) : ctx T F := mk_ctx (c_vm c) (pf_sema c) e (saved_esp c).

(** A word of the stack that [valid] has checked, and the word as a signed integer. *)
Definition arg c (a : Z) : outcome (option Z * ctx T F) := ubind (valid c a) (fun a c => load_word c a).
Definition arg_int c (a : Z) : outcome (option Z * ctx T F) := ubind (arg c a) (fun w c => Ok (Some (s32 w), c)).
(** A word of the stack as the address of a string, which [valid_str] checks. *)
Definition arg_str (fuel : nat) c (a : Z) : outcome (option Z * ctx T F) := ubind (arg c a) (fun w c => valid_str fuel c w).

(** The first switch, up to the calls; a number that is not a call does nothing. *)
Definition arguments (fuel : nat) c (sp sysnum : Z) : outcome (option (option call) * ctx T F) :=
  let a1 := u32 (sp + 4) in let a2 := u32 (sp + 8) in let a3 := u32 (sp + 12) in
  let returns k c := Ok (Some (Some k), c) in
  let int1 k := ubind (arg_int c a1) (fun i c => returns (k i) c) in
  let str1 k := ubind (arg_str fuel c a1) (fun s c => returns (k s) c) in
  let buf3 k := ubind (arg c a3) (fun n c => ubind (arg c a2) (fun w c => ubind (valid_buf c w n) (fun b c =>
                ubind (arg_int c a1) (fun i c => returns (k i b n) c)))) in
  if sysnum =? SYS_HALT then returns Halt c
  else if sysnum =? SYS_EXIT then int1 Exit
  else if sysnum =? SYS_EXEC then str1 Exec
  else if sysnum =? SYS_WAIT then int1 Wait
  else if sysnum =? SYS_CREATE then ubind (arg c a2) (fun n c => ubind (arg_str fuel c a1) (fun s c => returns (Create s n) c))
  else if sysnum =? SYS_REMOVE then str1 Remove
  else if sysnum =? SYS_OPEN then str1 Open
  else if sysnum =? SYS_FILESIZE then int1 Filesize
  else if sysnum =? SYS_READ then buf3 Read
  else if sysnum =? SYS_WRITE then buf3 Write
  else if sysnum =? SYS_SEEK then ubind (arg c a2) (fun n c => ubind (arg_int c a1) (fun i c => returns (Seek i n) c))
  else if sysnum =? SYS_TELL then int1 Tell
  else if sysnum =? SYS_CLOSE then int1 Close
  else if sysnum =? SYS_MMAP then ubind (arg c a2) (fun b c => ubind (arg_int c a1) (fun i c => returns (Mmap i b) c))
  else if sysnum =? SYS_MUNMAP then int1 Munmap
  else if sysnum =? SYS_CHDIR then str1 Chdir
  else if sysnum =? SYS_MKDIR then str1 Mkdir
  else if sysnum =? SYS_READDIR then ubind (arg_str fuel c a2) (fun s c => ubind (arg_int c a1) (fun i c => returns (Readdir i s) c))
  else if sysnum =? SYS_ISDIR then int1 Isdir
  else if sysnum =? SYS_INUMBER then int1 Inumber
  else Ok (Some None, c).

(** The second switch: what is unpinned.  [length] is the variable [unsigned_]. *)
Definition unpin_at c (a : Z) : outcome (option unit * ctx T F) := let! c := unpin c a in Ok (Some tt, c).
Definition unpin_str_at (fuel : nat) c (a : Z) : outcome (option unit * ctx T F) :=
  ubind (load_word c a) (fun s c => unpin_str init_page_dir init_ram_pages fuel c s).
Definition unpin_buf_at c (a length : Z) : outcome (option unit * ctx T F) :=
  ubind (load_word c a) (fun b c => let! c := unpin_buf c b length in Ok (Some tt, c)).
Definition release (fuel : nat) c (sp sysnum length : Z) : outcome (option unit * ctx T F) :=
  let a1 := u32 (sp + 4) in let a2 := u32 (sp + 8) in let a3 := u32 (sp + 12) in
  let str1 c := ubind (unpin_str_at fuel c a1) (fun _ c => unpin_at c a1) in
  let rest c :=
    if sysnum =? SYS_HALT then Ok (Some tt, c)
    else if (sysnum =? SYS_EXEC) || (sysnum =? SYS_REMOVE) || (sysnum =? SYS_OPEN) || (sysnum =? SYS_CHDIR) || (sysnum =? SYS_MKDIR) then str1 c
    else if sysnum =? SYS_CREATE then ubind (unpin_at c a2) (fun _ c => str1 c)
    else if (sysnum =? SYS_READ) || (sysnum =? SYS_WRITE) then
      ubind (unpin_at c a3) (fun _ c => ubind (unpin_buf_at c a2 length) (fun _ c => ubind (unpin_at c a2) (fun _ c => unpin_at c a1)))
    else if (sysnum =? SYS_SEEK) || (sysnum =? SYS_MMAP) then ubind (unpin_at c a2) (fun _ c => unpin_at c a1)
    else if sysnum =? SYS_READDIR then ubind (unpin_str_at fuel c a2) (fun _ c => ubind (unpin_at c a2) (fun _ c => unpin_at c a1))
    else if (0 <=? sysnum) && (sysnum <=? SYS_INUMBER) then unpin_at c a1
    else Ok (Some tt, c) in
  ubind (rest c) (fun _ c => unpin_at c sp).

(** [syscall_handler]: the calls are given with the part [W] of the state that they use
    besides the program's memory.  A call that ends the process gives [None]; the value
    is what is stored in eax, if any. *)
Context {W : Type} (perform : call -> ctx T F -> W -> outcome (option (option Z) * ctx T F * W)).

Definition length_of (k : option call) : Z := match k with Some (Create _ n) | Some (Read _ _ n) | Some (Write _ _ n) | Some (Seek _ n) => n | _ => 0 end.
(** The call, and what follows it. *)
Definition complete (fuel : nat) c (w : W) (sp eax sysnum : Z) (k : option call) : outcome (option Z * ctx T F * W) :=
  let! (r, c, w) := match k with Some k => perform k c w | None => Ok (Some None, c, w) end in
  match r with
  | None => Ok (None, c, w)
  | Some r =>
    let! (o, c) := release fuel c sp sysnum (length_of k) in
    Ok (match o with Some _ => Some (default eax r) | None => None end, c, w)
  end.
Definition syscall_handler (fuel : nat) c (w : W) (sp eax : Z) : outcome (option Z * ctx T F * W) :=
  let! (n, c) := arg_int c sp in
  match n with
  | None => Ok (None, c, w)
  | Some sysnum =>
    let c := set_esp c sp in
    let! (k, c) := arguments fuel c sp sysnum in
    match k with None => Ok (None, c, w) | Some k => complete fuel c w sp eax sysnum k end
  end.
End handler.

(** ** What the program has in its memory *)
Definition byte_at (m : gmap (Z * Z) (list Z)) (p x : Z) : option Z := m !! (p, pg_round_down x) ≫= fun bs => bs !! Z.to_nat (pg_ofs x).
Fixpoint num_at (n : nat) (m : gmap (Z * Z) (list Z)) (p a : Z) : option Z :=
  match n with O => Some 0 | S n => b ← byte_at m p a; w ← num_at n m p (a + 1); Some (b + 256 * w) end.

Lemma num_at_some n m p a : (forall x, a <= x < a + Z.of_nat n -> is_Some (byte_at m p x)) -> is_Some (num_at n m p a).
Proof.
  revert a. induction n as [|n IH]; intros a H; simpl; [eauto|]. destruct (H a) as [b ->]; [lia|]. destruct (IH (a + 1)) as [w ->]; [intros x Hx; apply H; lia|]. simpl. eauto.
Qed.

Lemma num_at_byte n m p a w x : num_at n m p a = Some w -> a <= x < a + Z.of_nat n -> is_Some (byte_at m p x).
Proof.
  revert a w. induction n as [|n IH]; intros a w Hw Hx; [lia|]. simpl in Hw. destruct (byte_at m p a) as [b|] eqn:Hb; [|done]. simpl in Hw.
  destruct (num_at n m p (a + 1)) as [w1|] eqn:E; [|done]. destruct (decide (x = a)) as [->|]; [by exists b|]. eapply IH; [exact E|lia].
Qed.

(** ** Steps of the kernel on user memory *)
Section steps.
Context {T F : Type} {spt_ops : SptOps T} {file_ops : FileOps F} {spt_laws : SptTable T} {file_laws : FileLaws F}.
Context (init_page_dir init_ram_pages : Z) (D : gset Z).
Implicit Types (c : ctx T F).
Abbreviation peek := (peek init_page_dir init_ram_pages).
Abbreviation load_bytes := (load_bytes init_page_dir init_ram_pages).
Abbreviation valid := (valid init_page_dir init_ram_pages).
Abbreviation stuck := Fault.stuck.

(** The states between the accesses of the kernel to addresses in [P]. *)
Inductive walk (P : Z -> Prop) c : ctx T F -> Prop :=
| walk_refl : walk P c c
| walk_pin c1 va paddr c2 : walk P c c1 -> P va -> get_page c1 va = Ok paddr -> pin c1 paddr = Ok c2 -> walk P c c2
| walk_peek c1 va b c2 : walk P c c1 -> P va -> peek c1 va = Ok (Some b, c2) -> walk P c c2
| walk_vars c1 c2 : walk P c c1 -> c_vm c2 = c_vm c1 -> walk P c c2.
Lemma walk_trans P c c1 c2 : walk P c c1 -> walk P c1 c2 -> walk P c c2.
Proof. intros H1 H2. induction H2; [done|by eapply walk_pin|by eapply walk_peek|by eapply walk_vars]. Qed.

Definition ready (n : nat) (m : gmap (Z * Z) (list Z)) c : Prop := 0 < pf_sema c /\ exists tm sm, paged init_page_dir init_ram_pages D false None n (c_vm c) tm m sm.

(** Only swap that is full makes the kernel panic, only a page that is [stuck] ends the process. *)
Definition runs_by {A : Type} (R : relation (ctx T F)) (P : Z -> Prop) (n : nat) (m : gmap (Z * Z) (list Z)) c (r : outcome (option A * ctx T F)) (Q : A -> ctx T F -> Prop) : Prop :=
  (r = Err Panic /\ exists c1, walk P c c1 /\ swap_full (sw (c_vm c1))) \/
  exists o c', r = Ok (o, c') /\ ready n m c' /\ R c c' /\
    match o with Some a => walk P c c' /\ Q a c' | None => exists x, P x /\ stuck (c_vm c') (pg_round_down x) end.
Abbreviation runs := (runs_by goes_on).

Lemma ready_le n n' m c : (n <= n')%nat -> ready n' m c -> ready n m c.
Proof. intros Hn (Hs & tm & sm & H). split; [done|]. exists tm, sm. by eapply paged_le. Qed.

Section relation.
Context {A B : Type} (R : relation (ctx T F)) `{!PreOrder R}.
Lemma runs_ret P n m c c' (a : A) (Q : A -> ctx T F -> Prop) : ready n m c' -> R c c' -> walk P c c' -> Q a c' -> runs_by R P n m c (Ok (Some a, c')) Q.
Proof using Type. intros. right. exists (Some a), c'. by split_and!. Qed.

Lemma runs_bind P n n' m c (r : outcome (option A * ctx T F)) (f : A -> ctx T F -> outcome (option B * ctx T F)) Q Q' :
  runs_by R P n m c r Q ->
  (forall a c', Q a c' -> ready n m c' -> R c c' -> runs_by R P n' m c' (f a c') Q') -> (n' <= n)%nat -> runs_by R P n' m c (ubind r f) Q'.
Proof using PreOrder0.
  intros [[-> Hw]|(o & c' & -> & Hr & Hg & Ho)] Hf Hn; [by left|]. cbn [ubind obind]. destruct o as [a|]; last first.
  { right. exists None, c'. split_and!; try done. by eapply ready_le. }
  destruct Ho as [Hw HQ]. destruct (Hf a c' HQ Hr Hg) as [(-> & c1 & Hw1 & Hfull)|(o & c2 & -> & Hr2 & Hg2 & Ho)].
  - left. split; [done|]. exists c1. split; [by eapply walk_trans|done].
  - right. exists o, c2. split_and!; try done; [by etrans|]. destruct o; [|done]. destruct Ho. split; [by eapply walk_trans|done].
Qed.

Lemma runs_mono P n m c (r : outcome (option A * ctx T F)) (Q Q' : A -> ctx T F -> Prop) : runs_by R P n m c r Q -> (forall a c', Q a c' -> R c c' -> Q' a c') -> runs_by R P n m c r Q'.
Proof using Type.
  intros [[-> Hw]|(o & c' & -> & Hr & Hg & Ho)] H; [by left|right]. exists o, c'. split_and!; try done. destruct o; [|done]. destruct Ho. split; [done|by apply H].
Qed.

(** From an earlier state. *)
Lemma runs_from P n m c c1 (r : outcome (option A * ctx T F)) Q : R c c1 -> walk P c c1 -> runs_by R P n m c1 r Q -> runs_by R P n m c r Q.
Proof using PreOrder0.
  intros Hg Hw [(-> & c2 & Hw2 & Hf)|(o & c2 & -> & Hr & Hg2 & Ho)]; [left|right].
  - split; [done|]. exists c2. split; [by eapply walk_trans|done].
  - exists o, c2. split_and!; try done; [by etrans|]. destruct o; [|done]. destruct Ho. split; [by eapply walk_trans|done].
Qed.
Lemma runs_weaken (R' : relation (ctx T F)) P n m c (r : outcome (option A * ctx T F)) Q : runs_by R P n m c r Q -> (forall c c', R c c' -> R' c c') -> runs_by R' P n m c r Q.
Proof using Type. intros [[-> Hw]|(o & c' & -> & Hr & Hg & Ho)] H; [by left|right]. exists o, c'. split_and!; try done. by apply H. Qed.
End relation.

Lemma byte_user n m c p x b : ready n m c -> byte_at m p x = Some b -> (user_page x /\ 0 < x) /\ exists bs, m !! (p, pg_round_down x) = Some bs /\ bs !! Z.to_nat (pg_ofs x) = Some b.
Proof.
  intros (_ & tm & sm & H) Hb. rewrite /byte_at in Hb. destruct (m !! _) as [bs|] eqn:Hm; [|done]. simpl in Hb. split; [|by exists bs].
  destruct (proj2 (g_dom _ _ _ _ _ _ _ _ _ _ H _) (mk_is_Some _ _ Hm)) as [e He]. destruct (g_page _ _ _ _ _ _ _ _ _ _ H _ _ _ _ He Hm) as [Hup _].
  destruct Hup as (H0 & Hu & Hmod). rewrite /is_user_vaddr in Hu. apply Z.ltb_lt in Hu. split; [split; [|apply Z.ltb_lt]|]; rewrite pg_round_down_eq /PGSIZE /PHYS_BASE in H0, Hu, Hmod |- *; dlia.
Qed.

Lemma runs_peek (P : Z -> Prop) k m c va b : ready (4 + k) m c -> byte_at m (running (c_vm c)) va = Some b -> P va ->
  runs P k m c (peek c va) (fun b' c' => b' = b /\ (translate (ms (c_vm c)) (active (ms (c_vm c))) va = None -> held (c_vm c') (running (c_vm c)) (pg_round_down va))).
Proof.
  intros Hr Hb HP. destruct (byte_user _ _ _ _ _ _ Hr Hb) as ([Hva _] & bs & Hm & Hbs). destruct Hr as (Hs & tm & sm & H).
  destruct (peek_ok _ _ D k c tm m sm va bs H Hs Hva Hm) as [[E Hf]|(o & c' & tm' & sm' & E & H' & Hg & Ho)]; rewrite E.
  - left. split; [done|]. exists c. split; [apply walk_refl|done].
  - right. exists o, c'. split_and!; [done|split; [by rewrite (go_sema _ _ Hg)|by exists tm', sm']|done|]. destruct o as [b'|]; [|by exists va].
    split; [eapply walk_peek; [apply walk_refl|done|exact E]|]. destruct Ho as [? ?]. split; [congruence|done].
Qed.

Lemma runs_load n : forall (P : Z -> Prop) k m c va w, ready (4 * n + k) m c -> num_at n m (running (c_vm c)) va = Some w -> (forall x, va <= x < va + Z.of_nat n -> P x) ->
  runs P k m c (load_bytes n c va) (fun w' c' => w' = w /\ ((0 < n)%nat -> translate (ms (c_vm c)) (active (ms (c_vm c))) va = None -> held (c_vm c') (running (c_vm c)) (pg_round_down va))).
Proof.
  induction n as [|n IH]; intros P k m c va w Hr Hw HP; cbn [Uptr.load_bytes].
  { injection Hw as <-. apply runs_ret; [by eapply ready_le; [|done]; lia|done|apply walk_refl|]. split; [done|lia]. }
  simpl in Hw. destruct (byte_at m _ va) as [b|] eqn:Hb; [|done]. simpl in Hw. destruct (num_at n m _ (va + 1)) as [w1|] eqn:Hw1; [|done]. injection Hw as <-.
  destruct (byte_user _ _ _ _ _ _ Hr Hb) as ([[Hv0 Hvu] _] & _). apply Z.ltb_lt in Hvu.
  eapply (runs_bind goes_on P (4 * n + k)); [apply runs_peek; [eapply ready_le; [|done]; lia|done|apply HP; lia]| |lia]. cbn beta. intros b' c1 [-> Hh] Hr1 Hg1.
  rewrite wrap_small; [rewrite /PHYS_BASE in Hvu; lia|]. eapply (runs_bind goes_on); [apply IH; [done|by rewrite (go_run _ _ Hg1)|intros x Hx; apply HP; lia]| |lia]. cbn beta. intros w' c2 [-> _] Hr2 Hg2.
  apply runs_ret; [done|done|apply walk_refl|]. split; [done|]. intros _ Hn. eapply pins_held; [apply Hg2|]. by apply Hh.
Qed.

(** The pins at the beginning of the checks. *)
Lemma pin_step (P : Z -> Prop) n m c tm sm va : paged init_page_dir init_ram_pages D false None n (c_vm c) tm m sm -> user_page va -> P va ->
  exists a c', get_page c va = Ok a /\ pin c a = Ok c' /\ paged init_page_dir init_ram_pages D false None n (c_vm c') tm m sm /\ goes_on c c' /\ walk P c c' /\
    ms (c_vm c') = ms (c_vm c) /\ (translate (ms (c_vm c)) (active (ms (c_vm c))) va = None \/ held (c_vm c') (running (c_vm c)) (pg_round_down va)).
Proof.
  intros H Hva HP. have E := get_page_spec _ _ D _ _ _ _ _ _ H Hva. destruct (translate _ _ va) as [w|] eqn:Hw.
  - destruct (pin_ok _ _ D _ _ _ _ _ _ _ H Hva Hw) as (c1 & E1 & H1 & Hg & Hms & Hsw & _ & Hh). exists (frame_of w + pg_ofs va), c1. split_and!; try done; [|by right].
    by eapply walk_pin; [apply walk_refl|..].
  - exists 0, c. split_and!; try done; [apply walk_refl|by left].
Qed.

Lemma runs_valid (P : Z -> Prop) k m c a : ready (32 + k) m c -> (forall x, a <= x < a + 7 -> is_Some (byte_at m (running (c_vm c)) x) /\ P x) ->
  runs P k m c (valid c a) (fun a' c' => a' = a /\ held (c_vm c') (running (c_vm c)) (pg_round_down a)).
Proof.
  intros Hr Hx. have Hb x : a <= x < a + 7 -> is_Some (byte_at m (running (c_vm c)) x) by intros H; apply Hx. have HP x : a <= x < a + 7 -> P x by intros H; apply Hx.
  have Hu x : a <= x < a + 7 -> user_page x /\ 0 < x by intros [b H]%Hb; eapply byte_user. have [Ha0 Ha1] : 0 < a /\ a + 6 < PHYS_BASE. { split; [apply (Hu a); lia|]. destruct (Hu (a + 6)) as [[_ H] _]; [lia|]. by apply Z.ltb_lt in H. }
  have Hlim : PHYS_BASE < 2 ^ 32 by reflexivity. destruct Hr as (Hs & tm & sm & H).
  rewrite /Uptr.valid (proj2 (Z.eqb_neq a 0)); [lia|]. rewrite (wrap_small 32 (a + 3)); [lia|]. rewrite user_not_kernel; [apply Hu; lia|]. rewrite /down (proj2 (Z.ltb_lt _ _) Hs). cbn [ASSERT obind].
  set c0 := set_sema c (pf_sema c - 1). have H0 : paged init_page_dir init_ram_pages D false None (32 + k) (c_vm c0) tm m sm by done.
  have [Hua _] := Hu a ltac:(lia). have [Hu3 _] := Hu (a + 3) ltac:(lia).
  destruct (pin_step P _ _ _ _ _ a H0 Hua) as (p1 & c1 & E1 & E1' & H1 & G1 & W1 & M1 & Hh1); [apply HP; lia|].
  destruct (pin_step P _ _ _ _ _ (a + 3) H1 Hu3) as (p2 & c2 & E2 & E2' & H2 & G2 & W2 & M2 & _); [apply HP; lia|].
  rewrite (get_page_spec _ _ D _ _ _ _ _ _ H1 Hu3) M1 in E2. rewrite E1. cbn [obind]. rewrite (get_page_spec _ _ D _ _ _ _ _ _ H0 Hu3) E2. cbn [obind]. rewrite E1'. cbn [obind]. rewrite E2'. cbn [obind].
  have G12 : goes_on c0 c2 by etrans. have [Gn Hv] := note_esp_ok (up c2) a. set c3 := note_esp (up c2) a in Gn, Hv |- *.
  have G3 : goes_on c c3. { etrans; [|exact Gn]. have Hse := go_sema _ _ G12. destruct G12. split; try done. cbn [pf_sema up set_sema]. rewrite Hse. cbn [c0 pf_sema set_sema]. lia. }
  have W3 : walk P c c3. { apply (walk_vars P c c2 c3); [|by rewrite Hv]. eapply walk_trans; [|exact W2]. eapply walk_trans; [|exact W1]. eapply walk_vars; [apply walk_refl|done]. }
  have R3 : ready (4 * 4 + (4 * 4 + k)) m c3. { split; [by rewrite (go_sema _ _ G3)|]. exists tm, sm. by rewrite Hv. }
  eapply (runs_from goes_on); [exact G3|exact W3|]. have Hrun := go_run _ _ G3.
  destruct (num_at_some 4 m (running (c_vm c3)) a) as [w1 Hw1]; [intros x ?; rewrite Hrun; apply Hb; lia|]. destruct (num_at_some 4 m (running (c_vm c3)) (a + 3)) as [w2 Hw2]; [intros x ?; rewrite Hrun; apply Hb; lia|].
  eapply (runs_bind goes_on); [apply (runs_load 4 P _ _ _ _ _ R3 Hw1); intros; apply HP; lia| |lia]. cbn beta. intros _ c4 [_ Hh4] R4 G4.
  eapply (runs_bind goes_on); [apply (runs_load 4 P _ _ _ _ w2 R4); [by rewrite (go_run _ _ G4)|intros; apply HP; lia]| |lia]. cbn beta. intros _ c5 _ R5 G5.
  apply runs_ret; [done|done|apply walk_refl|]. split; [done|]. eapply pins_held; [apply G5|]. rewrite -Hrun. destruct Hh1 as [Hn|Hh1].
  - apply Hh4; [lia|]. rewrite Hv. cbn [up c_vm set_sema]. by rewrite M2 M1.
  - eapply pins_held; [apply G4|]. rewrite Hv. cbn [up c_vm set_sema]. eapply pins_held; [apply G2|]. by rewrite (go_run _ _ G12).
Qed.

(** A word of the stack. *)
Lemma runs_arg (P : Z -> Prop) k m c a w : ready (48 + k) m c -> (forall x, a <= x < a + 7 -> is_Some (byte_at m (running (c_vm c)) x) /\ P x) -> num_at 4 m (running (c_vm c)) a = Some w ->
  runs P k m c (arg init_page_dir init_ram_pages c a) (fun w' c' => w' = w /\ held (c_vm c') (running (c_vm c)) (pg_round_down a)).
Proof.
  intros Hr Hx Hw. eapply (runs_bind goes_on P (16 + k)); [apply runs_valid; [done|exact Hx]| |lia]. cbn beta. intros _ c1 [-> Hh] R1 G1.
  eapply runs_mono; [apply (runs_load 4 P _ _ _ _ w R1); [by rewrite (go_run _ _ G1)|intros; apply Hx; lia]|]. cbn beta. intros w' c2 [-> _] G2. split; [done|]. by eapply pins_held; [apply G2|].
Qed.

(** ** Strings and buffers *)
Definition string_at (m : gmap (Z * Z) (list Z)) (p a : Z) (n : nat) : Prop :=
  (forall x, a <= x < a + Z.of_nat n -> exists b, byte_at m p x = Some b /\ b <> 0) /\ byte_at m p (a + Z.of_nat n) = Some 0.

(** A byte that is pinned and then read. *)
Lemma runs_pin_byte (P : Z -> Prop) k m c va b : ready k m c -> byte_at m (running (c_vm c)) va = Some b -> P va ->
  exists c', pin_byte c va = Ok c' /\ ready k m c' /\ goes_on c c' /\ walk P c c' /\
    (translate (ms (c_vm c')) (active (ms (c_vm c'))) va = None \/ held (c_vm c') (running (c_vm c)) (pg_round_down va)).
Proof.
  intros Hr Hb HP. destruct (byte_user _ _ _ _ _ _ Hr Hb) as ([Hva _] & _). destruct Hr as (Hs & tm & sm & H). rewrite /pin_byte /down (proj2 (Z.ltb_lt _ _) Hs). cbn [ASSERT obind].
  set c0 := set_sema c (pf_sema c - 1). destruct (pin_step P k m c0 tm sm va H Hva HP) as (a & c1 & E & E' & H1 & G1 & W1 & M1 & Hh). rewrite E. cbn [obind]. rewrite E'. cbn [obind].
  have [Gn Hv] := note_esp_ok (up c1) va. set c3 := note_esp (up c1) va in Gn, Hv |- *. exists c3.
  have G3 : goes_on c c3. { etrans; [|exact Gn]. have Hse := go_sema _ _ G1. destruct G1. split; try done. cbn [pf_sema up set_sema]. rewrite Hse. cbn [c0 pf_sema set_sema]. lia. }
  split_and!; [done|split; [by rewrite (go_sema _ _ G3)|exists tm, sm; by rewrite Hv]|done| |].
  - apply (walk_vars P c c1 c3); [|by rewrite Hv]. eapply walk_trans; [|exact W1]. eapply walk_vars; [apply walk_refl|done].
  - rewrite Hv. cbn [up c_vm set_sema]. by rewrite M1.
Qed.

Lemma runs_str_loop n : forall (P : Z -> Prop) k m c a fuel, ready (4 * S n + k) m c -> string_at m (running (c_vm c)) a n -> (forall x, a <= x <= a + Z.of_nat n -> P x) -> (n < fuel)%nat ->
  runs P k m c (str_loop init_page_dir init_ram_pages fuel c a) (fun _ c' => forall x, a <= x <= a + Z.of_nat n -> held (c_vm c') (running (c_vm c)) (pg_round_down x)).
Proof.
  induction n as [|n IH]; intros P k m c a [|fuel] Hr [Hch H0] HP Hf; try lia; cbn [str_loop]; rewrite /str_step.
  - rewrite Z.add_0_r in H0. destruct (byte_user _ _ _ _ _ _ Hr H0) as ([Hva _] & _). rewrite user_not_kernel //.
    destruct (runs_pin_byte P _ _ _ _ _ Hr H0) as (c1 & E & R1 & G1 & W1 & Hh); [apply HP; lia|]. rewrite E. cbn [obind]. eapply (runs_from goes_on); [exact G1|exact W1|].
    eapply (runs_bind goes_on); [apply (runs_peek P k m c1 a 0); [done|by rewrite (go_run _ _ G1)|apply HP; lia]| |lia]. cbn beta. intros _ c2 [-> Hh2] R2 G2. rewrite Z.eqb_refl.
    apply runs_ret; [done|done|apply walk_refl|]. intros x Hx. have -> : x = a by lia. destruct Hh as [Hn|Hh]; [rewrite -(go_run _ _ G1); by apply Hh2|by eapply pins_held; [apply G2|]].
  - destruct (Hch a) as (b & Hb & Hb0); [lia|]. destruct (byte_user _ _ _ _ _ _ Hr Hb) as ([Hva _] & _). rewrite user_not_kernel //.
    destruct (runs_pin_byte P _ _ _ _ _ Hr Hb) as (c1 & E & R1 & G1 & W1 & Hh); [apply HP; lia|]. rewrite E. cbn [obind]. eapply (runs_from goes_on); [exact G1|exact W1|].
    eapply (runs_bind goes_on P (4 * S n + k)); [apply (runs_peek P _ m c1 a b); [by eapply ready_le; [|done]; lia|by rewrite (go_run _ _ G1)|apply HP; lia]| |lia]. cbn beta. intros _ c2 [-> Hh2] R2 G2. rewrite (proj2 (Z.eqb_neq _ _) Hb0).
    have Hw : u32 (a + 1) = a + 1. { apply wrap_small. destruct Hva as [? Hu]. apply Z.ltb_lt in Hu. rewrite /PHYS_BASE in Hu. lia. } rewrite Hw.
    have Hrun : running (c_vm c2) = running (c_vm c) by rewrite (go_run _ _ G2) (go_run _ _ G1).
    eapply runs_mono; [apply (IH P k m c2 (a + 1) fuel R2); [|intros; apply HP; lia|lia]|].
    + rewrite Hrun. split; [intros x Hx; apply Hch; lia|]. by replace (a + 1 + Z.of_nat n) with (a + Z.of_nat (S n)) by lia.
    + cbn beta. intros [] c3 Hall G3 x Hx. destruct (decide (x = a)) as [->|]; [|rewrite -Hrun; apply Hall; lia]. eapply pins_held; [apply G3|].
      destruct Hh as [Hn|Hh]; [rewrite -(go_run _ _ G1); by apply Hh2|by eapply pins_held; [apply G2|]].
Qed.

Lemma runs_buf_loop n : forall (P : Z -> Prop) k m c a, ready (16 * n + k) m c -> (forall x, a <= x < a + Z.of_nat n + 3 -> is_Some (byte_at m (running (c_vm c)) x) /\ P x) ->
  runs P k m c (buf_loop init_page_dir init_ram_pages n c a) (fun _ c' => forall x, a <= x < a + Z.of_nat n -> held (c_vm c') (running (c_vm c)) (pg_round_down x)).
Proof.
  induction n as [|n IH]; intros P k m c a Hr Hx; cbn [buf_loop]. { apply runs_ret; [done|done|apply walk_refl|]. intros; lia. }
  destruct (Hx a) as [[b Hb] Pa]; [lia|]. destruct (byte_user _ _ _ _ _ _ Hr Hb) as ([Hva _] & _). destruct (runs_pin_byte P _ _ _ _ _ Hr Hb Pa) as (c1 & E & R1 & G1 & W1 & Hh). rewrite E. cbn [obind]. eapply (runs_from goes_on); [exact G1|exact W1|].
  destruct (num_at_some 4 m (running (c_vm c1)) a) as [w Hw]; [intros x ?; rewrite (go_run _ _ G1); apply Hx; lia|].
  eapply (runs_bind goes_on P (16 * n + k)); [apply (runs_load 4 P _ _ _ _ w); [by eapply ready_le; [|done]; lia|done|intros; apply Hx; lia]| |lia]. cbn beta. intros _ c2 [_ Hh2] R2 G2.
  have Hw1 : u32 (a + 1) = a + 1. { apply wrap_small. destruct Hva as [? Hu]. apply Z.ltb_lt in Hu. rewrite /PHYS_BASE in Hu. lia. } rewrite Hw1.
  have Hrun : running (c_vm c2) = running (c_vm c) by rewrite (go_run _ _ G2) (go_run _ _ G1).
  eapply runs_mono; [apply (IH P k m c2 (a + 1) R2); intros x ?; rewrite Hrun; apply Hx; lia|]. cbn beta. intros [] c3 Hall G3 x Hxa. destruct (decide (x = a)) as [->|]; [|rewrite -Hrun; apply Hall; lia]. eapply pins_held; [apply G3|].
  destruct Hh as [Hn|Hh]; [rewrite -(go_run _ _ G1); apply Hh2; [lia|done]|by eapply pins_held; [apply G2|]].
Qed.

Lemma runs_valid_str (P : Z -> Prop) k m c a n fuel : ready (4 * S n + k) m c -> string_at m (running (c_vm c)) a n -> (forall x, a <= x <= a + Z.of_nat n -> P x) -> (n < fuel)%nat ->
  runs P k m c (valid_str init_page_dir init_ram_pages fuel c a) (fun a' c' => a' = a /\ forall x, a <= x <= a + Z.of_nat n -> held (c_vm c') (running (c_vm c)) (pg_round_down x)).
Proof.
  intros Hr Hs HP Hf. have H0 : 0 < a. { destruct Hs as [Hch H0]. destruct n as [|n]; [rewrite Z.add_0_r in H0|destruct (Hch a) as (b & Hb & _); [lia|]]; by eapply byte_user. }
  rewrite /valid_str (proj2 (Z.eqb_neq a 0)); [lia|]. eapply (runs_bind goes_on); [by apply runs_str_loop| |lia]. cbn beta. intros [] c1 Hall R1 G1. by apply runs_ret; [|..|apply walk_refl|].
Qed.
Lemma runs_valid_buf (P : Z -> Prop) k m c b l : ready (16 * Z.to_nat l + k) m c -> 0 < b -> 0 <= l -> b + l <= PHYS_BASE -> (forall x, b <= x < b + l + 3 -> is_Some (byte_at m (running (c_vm c)) x) /\ P x) ->
  runs P k m c (valid_buf init_page_dir init_ram_pages c b l) (fun b' c' => b' = b /\ forall x, b <= x < b + l -> held (c_vm c') (running (c_vm c)) (pg_round_down x)).
Proof.
  intros Hr H0 Hl He Hx. rewrite /valid_buf (proj2 (Z.eqb_neq b 0)); [lia|]. rewrite wrap_small; [rewrite /PHYS_BASE in He; lia|]. rewrite /is_kernel_vaddr (proj2 (Z.leb_gt _ _)); [lia|].
  have Hz : Z.of_nat (Z.to_nat l) = l by lia. eapply (runs_bind goes_on); [apply (runs_buf_loop _ P k m c b Hr); by rewrite Hz| |lia]. cbn beta. rewrite Hz. intros [] c1 Hall R1 G1. by apply runs_ret; [|..|apply walk_refl|].
Qed.

(** ** The request of a program *)

(** The calls by their numbers, with the words of the stack as arguments. *)
Definition call_of (n w1 w2 w3 : Z) : option call :=
  if n <? 0 then None else
  [Halt; Exit (s32 w1); Exec w1; Wait (s32 w1); Create w1 w2; Remove w1; Open w1; Filesize (s32 w1); Read (s32 w1) w2 w3; Write (s32 w1) w2 w3;
   Seek (s32 w1) w2; Tell (s32 w1); Close (s32 w1); Mmap (s32 w1) w2; Munmap (s32 w1); Chdir w1; Mkdir w1; Readdir (s32 w1) w2; Isdir (s32 w1); Inumber (s32 w1)] !! Z.to_nat n.
Definition arity (k : option call) : Z :=
  match k with
  | None | Some Halt => 0
  | Some (Create _ _) | Some (Seek _ _) | Some (Mmap _ _) | Some (Readdir _ _) => 2
  | Some (Read _ _ _) | Some (Write _ _ _) => 3
  | _ => 1
  end.
Definition string_of (k : option call) : option Z :=
  match k with
  | Some (Exec s) | Some (Create s _) | Some (Remove s) | Some (Open s) | Some (Chdir s) | Some (Mkdir s) | Some (Readdir _ s) => Some s
  | _ => None
  end.
Definition buffer_of (k : option call) : option (Z * Z) := match k with Some (Read _ b l) | Some (Write _ b l) => Some (b, l) | _ => None end.

(** The stack of process [p] at [sp] holds the call [k]: the number [n] and the words of the
    arguments; [len] is the length of the string. *)
Record request (m : gmap (Z * Z) (list Z)) (p sp n : Z) (k : option call) (len : nat) : Prop := {
  q_num : exists w, num_at 4 m p sp = Some w /\ s32 w = n;
  q_bytes : forall x, sp <= x < sp + 4 * arity k + 7 -> is_Some (byte_at m p x);
  q_words : exists w1 w2 w3, k = call_of n w1 w2 w3 /\ (1 <= arity k -> num_at 4 m p (sp + 4) = Some w1) /\ (2 <= arity k -> num_at 4 m p (sp + 8) = Some w2) /\ (3 <= arity k -> num_at 4 m p (sp + 12) = Some w3);
  q_str : forall s, string_of k = Some s -> string_at m p s len;
  q_buf : forall b l, buffer_of k = Some (b, l) -> 0 < b /\ 0 <= l /\ b + l <= PHYS_BASE /\ forall x, b <= x < b + l + 3 -> is_Some (byte_at m p x) }.
(** The addresses that the kernel touches. *)
Definition touched (sp : Z) (k : option call) (len : nat) (x : Z) : Prop :=
  sp <= x < sp + 4 * arity k + 7 \/ (exists s, string_of k = Some s /\ s <= x <= s + Z.of_nat len) \/ exists b l, buffer_of k = Some (b, l) /\ b <= x < b + l + 3.
(** The arguments are in pinned frames. *)
Record secured (v : vm T F) (p sp : Z) (k : option call) (len : nat) : Prop := {
  s_args : forall i, 1 <= i <= arity k -> held v p (pg_round_down (sp + 4 * i));
  s_str : forall s x, string_of k = Some s -> s <= x <= s + Z.of_nat len -> held v p (pg_round_down x);
  s_buf : forall b l x, buffer_of k = Some (b, l) -> b <= x < b + l -> held v p (pg_round_down x) }.
Definition length_of_buffer (k : option call) : nat := match buffer_of k with Some (_, l) => Z.to_nat l | None => O end.

Lemma runs_arg_at k m c sp n q len i w j : request m (running (c_vm c)) sp n q len -> ready (48 + k) m c -> 1 <= i <= arity q -> num_at 4 m (running (c_vm c)) (sp + 4 * i) = Some w -> j = 4 * i ->
  runs (touched sp q len) k m c (arg init_page_dir init_ram_pages c (u32 (sp + j))) (fun w' c' => w' = w /\ held (c_vm c') (running (c_vm c)) (pg_round_down (sp + 4 * i))).
Proof.
  intros Hq Hr Hi Hw ->. destruct (q_bytes _ _ _ _ _ _ Hq sp) as [b0 Hb0]; [lia|]. destruct (q_bytes _ _ _ _ _ _ Hq (sp + 4 * i + 6)) as [b1 Hb1]; [lia|].
  destruct (byte_user _ _ _ _ _ _ Hr Hb0) as ([[Hv0 _] _] & _). destruct (byte_user _ _ _ _ _ _ Hr Hb1) as ([[_ Hv1] _] & _). apply Z.ltb_lt in Hv1.
  rewrite wrap_small; [rewrite /PHYS_BASE in Hv1; lia|]. apply runs_arg; [done| |done]. intros x Hx. split; [apply (q_bytes _ _ _ _ _ _ Hq); lia|left; lia].
Qed.

Lemma runs_arg_int k m c sp n q len i w j : request m (running (c_vm c)) sp n q len -> ready (48 + k) m c -> 1 <= i <= arity q -> num_at 4 m (running (c_vm c)) (sp + 4 * i) = Some w -> j = 4 * i ->
  runs (touched sp q len) k m c (arg_int init_page_dir init_ram_pages c (u32 (sp + j))) (fun w' c' => w' = s32 w /\ held (c_vm c') (running (c_vm c)) (pg_round_down (sp + 4 * i))).
Proof.
  intros Hq Hr Hi Hw Hj. eapply (runs_bind goes_on); [by eapply runs_arg_at| |lia]. cbn beta. intros w' c1 [-> Hh] R1 G1. by apply runs_ret; [|..|apply walk_refl|].
Qed.
Lemma runs_arg_str k m c sp n q len i w j fuel : request m (running (c_vm c)) sp n q len -> ready (48 + (4 * S len + k)) m c -> 1 <= i <= arity q -> num_at 4 m (running (c_vm c)) (sp + 4 * i) = Some w -> j = 4 * i ->
  string_of q = Some w -> (len < fuel)%nat ->
  runs (touched sp q len) k m c (arg_str init_page_dir init_ram_pages fuel c (u32 (sp + j))) (fun w' c' => w' = w /\ held (c_vm c') (running (c_vm c)) (pg_round_down (sp + 4 * i)) /\
    forall x, w <= x <= w + Z.of_nat len -> held (c_vm c') (running (c_vm c)) (pg_round_down x)).
Proof.
  intros Hq Hr Hi Hw Hj Hs Hf. eapply (runs_bind goes_on); [by eapply runs_arg_at| |lia]. cbn beta. intros w' c1 [-> Hh] R1 G1. have Hst := q_str _ _ _ _ _ _ Hq _ Hs. rewrite -(go_run _ _ G1) in Hst.
  eapply runs_mono; [apply (runs_valid_str (touched sp q len) k m c1 w len fuel R1 Hst); [intros x Hx; right; left; by exists w|done]|]. cbn beta. intros w' c2 [-> Hall] G2.
  split_and!; [done|by eapply pins_held; [apply G2|]|]. intros x Hx. rewrite -(go_run _ _ G1). by apply Hall.
Qed.

Lemma request_run m c c' sp n q len : goes_on c c' -> request m (running (c_vm c)) sp n q len -> request m (running (c_vm c')) sp n q len.
Proof. intros G. by rewrite (go_run _ _ G). Qed.


(** The shapes of the argument lists. *)
Section shapes.
Context (k fuel : nat) (m : gmap (Z * Z) (list Z)) (c : ctx T F) (sp n : Z) (q : option call) (len : nat) (w1 w2 w3 : Z).
Hypothesis (Hq : request m (running (c_vm c)) sp n q len) (Hf : (len < fuel)%nat).
Hypothesis (Hr : ready (144 + (4 * S len + (16 * length_of_buffer q + k))) m c).
Hypothesis (Hw1 : 1 <= arity q -> num_at 4 m (running (c_vm c)) (sp + 4 * 1) = Some w1) (Hw2 : 2 <= arity q -> num_at 4 m (running (c_vm c)) (sp + 4 * 2) = Some w2)
  (Hw3 : 3 <= arity q -> num_at 4 m (running (c_vm c)) (sp + 4 * 3) = Some w3).
Abbreviation arg := (arg init_page_dir init_ram_pages).
Abbreviation arg_int := (arg_int init_page_dir init_ram_pages).
Abbreviation arg_str := (arg_str init_page_dir init_ram_pages).
Abbreviation done_with r := (runs (touched sp q len) k m c r (fun q' c' => q' = q /\ secured (c_vm c') (running (c_vm c)) sp q len)).

Ltac go := intros; first [exact Hf | lia | done | eapply ready_le; [|eassumption]; lia].
Ltac ret := apply runs_ret; [go|done|apply walk_refl|split; [congruence|]]; split; [intros j Hj|intros s x Es Hx|intros b l x Eb Hx].

Lemma shape_int K : q = Some (K (s32 w1)) -> arity q = 1 -> string_of q = None -> buffer_of q = None ->
  done_with (ubind (arg_int c (u32 (sp + 4))) (fun i c => Ok (Some (Some (K i)), c))).
Proof.
  intros Hk Ha Hs Hb. eapply (runs_bind goes_on _ k); [eapply (runs_arg_int _ m c sp n q len 1 w1); go || (apply Hw1; lia)| |lia]. cbn beta. intros i c1 [-> Hh] R1 G1. ret; try congruence. by have -> : j = 1 by lia.
Qed.
Lemma shape_str K : q = Some (K w1) -> arity q = 1 -> string_of q = Some w1 -> buffer_of q = None ->
  done_with (ubind (arg_str fuel c (u32 (sp + 4))) (fun s c => Ok (Some (Some (K s)), c))).
Proof.
  intros Hk Ha Hs Hb. eapply (runs_bind goes_on _ k); [eapply (runs_arg_str _ m c sp n q len 1 w1); go || (apply Hw1; lia)| |lia]. cbn beta. intros i c1 (-> & Hh & Hall) R1 G1. ret; try congruence; [by have -> : j = 1 by lia|].
  apply Hall. congruence.
Qed.
Lemma shape_two K : q = Some (K (s32 w1) w2) -> arity q = 2 -> string_of q = None -> buffer_of q = None ->
  done_with (ubind (arg c (u32 (sp + 8))) (fun n c => ubind (arg_int c (u32 (sp + 4))) (fun i c => Ok (Some (Some (K i n)), c)))).
Proof.
  intros Hk Ha Hs Hb. eapply (runs_bind goes_on _ (48 + k)); [eapply (runs_arg_at _ m c sp n q len 2 w2); go || (apply Hw2; lia)| |lia]. cbn beta. intros i c1 [-> Hh] R1 G1.
  eapply (runs_bind goes_on _ k); [eapply (runs_arg_int _ m c1 sp n q len 1 w1); go || (rewrite (go_run _ _ G1); done || (apply Hw1; lia))| |lia]. cbn beta. intros i c2 [-> Hh2] R2 G2. rewrite (go_run _ _ G1) in Hh2.
  ret; try congruence. have [-> | ->] : j = 1 \/ j = 2 by lia. { done. } by eapply pins_held; [apply G2|].
Qed.
Lemma shape_create K : q = Some (K w1 w2) -> arity q = 2 -> string_of q = Some w1 -> buffer_of q = None ->
  done_with (ubind (arg c (u32 (sp + 8))) (fun n c => ubind (arg_str fuel c (u32 (sp + 4))) (fun s c => Ok (Some (Some (K s n)), c)))).
Proof.
  intros Hk Ha Hs Hb. eapply (runs_bind goes_on _ (48 + (4 * S len + k))); [eapply (runs_arg_at _ m c sp n q len 2 w2); go || (apply Hw2; lia)| |lia]. cbn beta. intros i c1 [-> Hh] R1 G1.
  eapply (runs_bind goes_on _ k); [eapply (runs_arg_str _ m c1 sp n q len 1 w1); go || (rewrite (go_run _ _ G1); done || (apply Hw1; lia))| |lia]. cbn beta. rewrite (go_run _ _ G1). intros i c2 (-> & Hh2 & Hall) R2 G2.
  ret; try congruence; [|apply Hall; congruence]. have [-> | ->] : j = 1 \/ j = 2 by lia. { done. } by eapply pins_held; [apply G2|].
Qed.
Lemma shape_readdir K : q = Some (K (s32 w1) w2) -> arity q = 2 -> string_of q = Some w2 -> buffer_of q = None ->
  done_with (ubind (arg_str fuel c (u32 (sp + 8))) (fun s c => ubind (arg_int c (u32 (sp + 4))) (fun i c => Ok (Some (Some (K i s)), c)))).
Proof.
  intros Hk Ha Hs Hb. eapply (runs_bind goes_on _ (48 + k)); [eapply (runs_arg_str _ m c sp n q len 2 w2); go || (apply Hw2; lia)| |lia]. cbn beta. intros i c1 (-> & Hh & Hall) R1 G1.
  eapply (runs_bind goes_on _ k); [eapply (runs_arg_int _ m c1 sp n q len 1 w1); go || (rewrite (go_run _ _ G1); done || (apply Hw1; lia))| |lia]. cbn beta. rewrite (go_run _ _ G1). intros i c2 [-> Hh2] R2 G2.
  ret; try congruence; [|eapply pins_held; [apply G2|]; apply Hall; congruence]. have [-> | ->] : j = 1 \/ j = 2 by lia. { done. } by eapply pins_held; [apply G2|].
Qed.
Lemma shape_buf K : q = Some (K (s32 w1) w2 w3) -> arity q = 3 -> string_of q = None -> buffer_of q = Some (w2, w3) ->
  done_with (ubind (arg c (u32 (sp + 12))) (fun n c => ubind (arg c (u32 (sp + 8))) (fun w c => ubind (valid_buf init_page_dir init_ram_pages c w n) (fun b c =>
                ubind (arg_int c (u32 (sp + 4))) (fun i c => Ok (Some (Some (K i b n)), c)))))).
Proof.
  intros Hk Ha Hs Hb. have El : length_of_buffer q = Z.to_nat w3 by rewrite /length_of_buffer Hb. destruct (q_buf _ _ _ _ _ _ Hq _ _ Hb) as (Hb0 & Hl0 & He & Hbs).
  eapply (runs_bind goes_on _ (48 + (16 * Z.to_nat w3 + (48 + k)))); [eapply (runs_arg_at _ m c sp n q len 3 w3); go || (apply Hw3; lia)| |lia]. cbn beta. intros i c1 [-> Hh] R1 G1.
  eapply (runs_bind goes_on _ (16 * Z.to_nat w3 + (48 + k))); [eapply (runs_arg_at _ m c1 sp n q len 2 w2); go || (rewrite (go_run _ _ G1); done || (apply Hw2; lia))| |lia]. cbn beta. rewrite (go_run _ _ G1). intros i c2 [-> Hh2] R2 G2.
  have G12 : goes_on c c2 by etrans. eapply (runs_bind goes_on _ (48 + k)); [apply (runs_valid_buf (touched sp q len) (48 + k) m c2 w2 w3 R2); try done| |lia].
  { intros x Hx. rewrite (go_run _ _ G12). split; [by apply Hbs|]. right; right. exists w2, w3. done. }
  cbn beta. rewrite (go_run _ _ G12). intros b c3 [-> Hall] R3 G3. have G13 : goes_on c c3 by etrans.
  eapply (runs_bind goes_on _ k); [eapply (runs_arg_int _ m c3 sp n q len 1 w1); go || (rewrite (go_run _ _ G13); done || (apply Hw1; lia))| |lia]. cbn beta. rewrite (go_run _ _ G13). intros i c4 [-> Hh4] R4 G4. have G24 : goes_on c2 c4 by etrans.
  ret; try congruence; [|eapply pins_held; [apply G4|]; apply Hall; congruence]. have [-> |[-> | ->]] : j = 1 \/ j = 2 \/ j = 3 by lia. { done. } { by eapply pins_held; [apply G24|]. } eapply pins_held; [apply G24|]. by eapply pins_held; [apply G2|].
Qed.
End shapes.

Lemma runs_arguments k m c sp n q len fuel : request m (running (c_vm c)) sp n q len -> ready (144 + (4 * S len + (16 * length_of_buffer q + k))) m c -> (len < fuel)%nat ->
  runs (touched sp q len) k m c (arguments init_page_dir init_ram_pages fuel c sp n) (fun q' c' => q' = q /\ secured (c_vm c') (running (c_vm c)) sp q len).
Proof.
  intros Hq Hr Hf. destruct (q_words _ _ _ _ _ _ Hq) as (w1 & w2 & w3 & Hk & Hw1 & Hw2 & Hw3).
  have Hnone : q = None \/ q = Some Halt -> runs (touched sp q len) k m c (Ok (Some q, c)) (fun q' c' => q' = q /\ secured (c_vm c') (running (c_vm c)) sp q len).
  { intros Hn. apply runs_ret; [eapply ready_le; [|done]; lia|done|apply walk_refl|]. split; [done|]. destruct Hn as [-> | ->]; split; simpl; intros; try done; lia. }
  destruct (decide (0 <= n < 20)) as [Hn|Hn]; last first.
  { have Hq0 : q = None. { rewrite Hk /call_of. destruct (Z.ltb_spec n 0); [done|]. apply lookup_ge_None. simpl. lia. }
    rewrite /arguments !(proj2 (Z.eqb_neq n _)); try (rewrite /SYS_HALT /SYS_EXIT /SYS_EXEC /SYS_WAIT /SYS_CREATE /SYS_REMOVE /SYS_OPEN /SYS_FILESIZE /SYS_READ /SYS_WRITE /SYS_SEEK /SYS_TELL /SYS_CLOSE /SYS_MMAP /SYS_MUNMAP /SYS_CHDIR /SYS_MKDIR /SYS_READDIR /SYS_ISDIR /SYS_INUMBER; lia).
    rewrite -Hq0. apply Hnone. by left. }
  have Hc : n ∈ seqZ 0 20 by apply elem_of_seqZ; lia. clear Hn.
  change (seqZ 0 20) with [0; 1; 2; 3; 4; 5; 6; 7; 8; 9; 10; 11; 12; 13; 14; 15; 16; 17; 18; 19] in Hc.
  rewrite /arguments. repeat (apply elem_of_cons in Hc as [->|Hc]; [cbn [Z.eqb Pos.eqb SYS_HALT SYS_EXIT SYS_EXEC SYS_WAIT SYS_CREATE SYS_REMOVE SYS_OPEN SYS_FILESIZE SYS_READ SYS_WRITE SYS_SEEK SYS_TELL SYS_CLOSE SYS_MMAP SYS_MUNMAP SYS_CHDIR SYS_MKDIR SYS_READDIR SYS_ISDIR SYS_INUMBER]|]); last by apply not_elem_of_nil in Hc.
  { have E : q = Some Halt by rewrite Hk. rewrite -E. apply Hnone. by right. }
  all: first
    [ eapply (shape_int k fuel m c sp _ q len w1 Hq Hf Hr Hw1); by rewrite Hk
    | eapply (shape_str k fuel m c sp _ q len w1 Hq Hf Hr Hw1); by rewrite Hk
    | eapply (shape_two k fuel m c sp _ q len w1 w2 Hq Hf Hr Hw1 Hw2); by rewrite Hk
    | eapply (shape_create k fuel m c sp _ q len w1 w2 Hq Hf Hr Hw1 Hw2); by rewrite Hk
    | eapply (shape_readdir k fuel m c sp _ q len w1 w2 Hq Hf Hr Hw1 Hw2); by rewrite Hk
    | eapply (shape_buf k fuel m c sp _ q len w1 w2 w3 Hq Hf Hr Hw1 Hw2 Hw3); by rewrite Hk ].
Qed.

(** ** Releasing the frames *)

(** Exactly the pages [G] of the running process stop being pinned; what was in memory still is. *)
Record lets_go (G : Z -> Prop) c c' : Prop := {
  lg_run : running (c_vm c') = running (c_vm c); lg_vars : (pf_sema c', esp c', saved_esp c') = (pf_sema c, esp c, saved_esp c);
  lg_held : forall p x, held (c_vm c') p x <-> held (c_vm c) p x /\ ~ (p = running (c_vm c) /\ G x);
  lg_mem : forall x, user_page x -> in_memory c x -> in_memory c' x }.
Abbreviation pages n c tm m sm := (paged init_page_dir init_ram_pages D false None n (c_vm c) tm m sm).

Lemma lets_go_refl c : lets_go (fun _ => False) c c.
Proof. split; [done..| |done]. intros p x. split; [intros H; split; [done|by intros []]|by intros []]. Qed.
Lemma lets_go_trans G1 G2 (G : Z -> Prop) c c1 c2 : lets_go G1 c c1 -> lets_go G2 c1 c2 -> (forall x, G x <-> G1 x \/ G2 x) -> lets_go G c c2.
Proof.
  intros [R1 V1 H1 M1] [R2 V2 H2 M2] HG. split; [congruence..| |auto]. intros p x. rewrite H2 H1 R1 HG. tauto.
Qed.
Lemma lets_go_ext (G G' : Z -> Prop) c c' : lets_go G c c' -> (forall x, G' x <-> G x) -> lets_go G' c c'.
Proof. intros [R1 V1 H1 M1] HG. split; [done..| |done]. intros p x. by rewrite H1 HG. Qed.

(** A page that is pinned is in memory. *)
Lemma held_in_memory n c tm m sm x : pages n c tm m sm -> user_page x -> held (c_vm c) (running (c_vm c)) (pg_round_down x) -> in_memory c x.
Proof.
  intros H Hx (j & e & Hj & Hu & He & Hp & Hup & _). destruct (g_used _ _ _ _ _ _ _ _ _ _ H j Hj Hu) as (e' & pd & w & He' & _ & Hd & _ & Hw & _); [done|]. have ? : e' = e by congruence. subst e'.
  have Hrun := g_run _ _ _ _ _ _ _ _ _ _ H. have ? : pd = active (ms (c_vm c)) by congruence. subst pd. destruct (round_down_page x Hx) as (Hpn & _ & _). rewrite Hup (translate_page _ _ _ x) // in Hw. by exists w.
Qed.

Lemma peek_here n c tm m sm va b : pages n c tm m sm -> user_page va -> byte_at m (running (c_vm c)) va = Some b -> in_memory c va ->
  exists c', peek c va = Ok (Some b, c') /\ pages n c' tm m sm /\ lets_go (fun _ => False) c c'.
Proof.
  intros H Hva Hb [w Hw]. rewrite /Uptr.peek user_not_kernel //. cbn [touch]. have Hc := g_coh _ _ _ _ _ _ _ _ _ _ H.
  destruct (access (ms (c_vm c)) va false) as [[a s]|] eqn:Ha; last first. { by destruct (access_faults _ _ _ _ _ Hc Hva Hw Ha). }
  destruct (access_paged _ _ _ _ _ _ _ _ _ _ _ _ H Hva Ha) as (H1 & Hre & _). cbn [obind option_map]. rewrite /byte_at in Hb. destruct (m !! _) as [bs|] eqn:Hm; [|done]. simpl in Hb.
  have Hb1 := page_byte _ _ D _ _ _ _ _ _ _ _ bs H1 Hva Hre Hm. have Eb : mem (pal (ms (set_ms (c_vm c) s))) a = b by congruence. rewrite Eb. eexists. split; [done|]. split; [done|].
  have Hu := to_user _ _ (access_tables D _ _ _ _ _ Hc Hva Ha). split; [done..| |].
  - intros p x. cbn [c_vm set_vm set_sema]. rewrite /held /cnt /uses /used /upool /= Hu. split; [intros Hx; split; [done|by intros []]|by intros []].
  - intros x Hx [wx Hwx]. rewrite /in_memory. simpl. have Hact : active s = active (ms (c_vm c)). { have := g_run _ _ _ _ _ _ _ _ _ _ H1. rewrite /= (g_run _ _ _ _ _ _ _ _ _ _ H). by intros [= ->]. }
    rewrite Hact. destruct (access_flags D _ _ _ _ _ Hc Hva Ha (active (ms (c_vm c))) x (c_active _ _ Hc) Hx) as [[? _]|(w1 & w2 & _ & E & _)]; [congruence|eauto].
Qed.

Lemma byte_page n c tm m sm p x b : pages n c tm m sm -> byte_at m p x = Some b -> user_page x /\ 0 <= x /\ x + 1 < 2 ^ 32.
Proof.
  intros H Hb. destruct (byte_user n m (set_sema c 1) p x b) as ([Hu _] & _); [split; [done|by exists tm, sm]|done|]. split; [done|]. destruct Hu as [Hv0 Hvu]. apply Z.ltb_lt in Hvu. rewrite /PHYS_BASE in Hvu. lia.
Qed.

Lemma load_here j : forall n c tm m sm va w, pages n c tm m sm -> num_at j m (running (c_vm c)) va = Some w -> (forall x, va <= x < va + Z.of_nat j -> in_memory c x) ->
  exists c', load_bytes j c va = Ok (Some w, c') /\ pages n c' tm m sm /\ lets_go (fun _ => False) c c'.
Proof.
  induction j as [|j IH]; intros n c tm m sm va w H Hw Hin; simpl in Hw |- *. { injection Hw as <-. exists c. split_and!; [done..|apply lets_go_refl]. }
  destruct (byte_at m _ va) as [b|] eqn:Hb; [|done]. simpl in Hw. destruct (num_at j m _ (va + 1)) as [w1|] eqn:Hw1; [|done]. injection Hw as <-. destruct (byte_page _ _ _ _ _ _ _ _ H Hb) as (Hu & Hv).
  destruct (peek_here _ _ _ _ _ _ _ H Hu Hb) as (c1 & -> & H1 & L1); [apply Hin; lia|]. cbn [ubind obind]. rewrite wrap_small; [lia|].
  destruct (IH n c1 tm m sm (va + 1) w1 H1) as (c2 & -> & H2 & L2); [by rewrite (lg_run _ _ _ L1)| |].
  { intros x Hx. destruct (num_at_byte _ _ _ _ _ _ Hw1 Hx) as [bx Hbx].
    apply (lg_mem _ _ _ L1); [by eapply byte_page|apply Hin; lia]. }
  cbn [ubind obind]. eexists. split; [done|]. split; [done|]. eapply lets_go_trans; [exact L1|exact L2|tauto].
Qed.

Lemma strlen_here len : forall fuel n c tm m sm a, pages n c tm m sm -> string_at m (running (c_vm c)) a len -> (len < fuel)%nat -> (forall x, a <= x <= a + Z.of_nat len -> in_memory c x) ->
  exists c', user_strlen init_page_dir init_ram_pages fuel c a = Ok (Some (Z.of_nat len), c') /\ pages n c' tm m sm /\ lets_go (fun _ => False) c c'.
Proof.
  induction len as [|len IH]; intros [|fuel] n c tm m sm a H [Hch H0] Hf Hin; try lia; cbn [user_strlen].
  - rewrite Z.add_0_r in H0. destruct (byte_page _ _ _ _ _ _ _ _ H H0) as (Hu & _). destruct (peek_here _ _ _ _ _ _ _ H Hu H0) as (c1 & -> & H1 & L1); [apply Hin; lia|]. cbn [ubind obind]. rewrite Z.eqb_refl. by exists c1.
  - destruct (Hch a) as (b & Hb & Hb0); [lia|]. destruct (byte_page _ _ _ _ _ _ _ _ H Hb) as (Hu & Hv). destruct (peek_here _ _ _ _ _ _ _ H Hu Hb) as (c1 & -> & H1 & L1); [apply Hin; lia|]. cbn [ubind obind].
    rewrite (proj2 (Z.eqb_neq _ _) Hb0) wrap_small; [lia|]. have Hs : string_at m (running (c_vm c)) (a + 1) len by split; [intros x Hx; apply Hch; lia|replace (a + 1 + Z.of_nat len) with (a + Z.of_nat (S len)) by lia].
    destruct (IH fuel n c1 tm m sm (a + 1) H1) as (c2 & -> & H2 & L2); [by rewrite (lg_run _ _ _ L1)|lia| |].
    { intros x Hx. apply (lg_mem _ _ _ L1); [|apply Hin; lia]. destruct (decide (x = a + Z.of_nat (S len))) as [->|]; [by eapply byte_page|]. destruct (Hch x) as (bx & Hbx & _); [lia|]. by eapply byte_page. }
    cbn [ubind obind]. eexists. split; [do 3 f_equal; lia|]. split; [done|]. eapply lets_go_trans; [exact L1|exact L2|tauto].
Qed.

(** The frame of one page, if it has one. *)
Lemma unpin_frame_here n c tm m sm va a : pages n c tm m sm -> user_page va -> get_page c va = Ok a ->
  exists c', unpin_frame c a = Ok c' /\ pages n c' tm m sm /\ ms (c_vm c') = ms (c_vm c) /\ lets_go (eq (pg_round_down va)) c c'.
Proof.
  intros H Hva. rewrite (get_page_spec _ _ D _ _ _ _ _ _ H Hva). intros [= <-]. have Hrun := g_run _ _ _ _ _ _ _ _ _ _ H. destruct (round_down_page va Hva) as (Hpn & _ & _).
  have Hone : forall j e, 0 <= j < cnt (c_vm c) -> uses (c_vm c) j = true -> ft (c_vm c) !! Z.to_nat j = Some e -> f_pid e = running (c_vm c) -> f_upage e = pg_round_down va ->
    exists w, translate (ms (c_vm c)) (active (ms (c_vm c))) va = Some w /\ frame_of w = kaddr (c_vm c) j.
  { intros j e Hj Hu He Hp Hup. destruct (g_used _ _ _ _ _ _ _ _ _ _ H j Hj Hu) as (e' & pd & w & He' & _ & Hd & _ & Hw & Hf); [done|]. have ? : e' = e by congruence. subst e'.
    have ? : pd = active (ms (c_vm c)) by congruence. subst pd. rewrite Hup (translate_page _ _ _ va) // in Hw. by exists w. }
  destruct (translate (ms (c_vm c)) (active (ms (c_vm c))) va) as [w|] eqn:Hw; last first.
  { exists c. split_and!; try done. split; [done..| |done]. intros p x. split; [|by intros []]. intros (j & e & Hj & Hu & He & Hp & Hup & Hpin). split; [by exists j, e|]. intros [-> <-]. destruct (Hone j e Hj Hu He Hp Hup) as (w & ? & _). done. }
  destruct (set_pinned_ok _ _ D false _ _ _ _ _ _ _ H Hva Hw) as (H0 & i & e & Hi & Hu & He & Hp & Hup & E & Hpg). rewrite /unpin_frame (proj2 (Z.eqb_neq _ _) H0) /ft_unpin E. cbn [obind].
  have Hlen := lookup_lt_Some _ _ _ He. eexists. split; [done|]. cbn [c_vm set_vm]. split_and!; try done. split; [done..| |done]. intros p x. split.
  - intros (j & ej & Hj & Huj & Hej & Hpj & Hupj & Hpin). simpl in Hej. destruct (decide (j = i)) as [->|Hne]; [rewrite list_lookup_insert_eq // in Hej; simplify_eq; done|].
    rewrite list_lookup_insert_ne // in Hej; [lia|]. split; [by exists j, ej|]. intros [-> <-].
    destruct (Hone j ej Hj Huj Hej Hpj Hupj) as (w' & [= <-] & Hf). destruct (Hone i e Hi Hu He Hp Hup) as (w' & [= <-] & Hf'). rewrite Hf in Hf'. by apply kaddr_inj in Hf'.
  - intros [(j & ej & Hj & Huj & Hej & Hpj & Hupj & Hpin) Hno]. exists j, ej. split; [done|]. split; [done|]. split; [|done]. simpl. rewrite list_lookup_insert_ne //. intros Heq. have ? : j = i by lia. subst j.
    have ? : ej = e by congruence. subst ej. apply Hno. by rewrite -Hpj -Hupj.
Qed.

Lemma unpin_loop_here j : forall n c tm m sm va, pages n c tm m sm -> (forall x, va <= x < va + Z.of_nat j -> user_page x) ->
  exists c', unpin_loop j c va = Ok c' /\ pages n c' tm m sm /\ lets_go (fun x => exists y, va <= y < va + Z.of_nat j /\ pg_round_down y = x) c c'.
Proof.
  induction j as [|j IH]; intros n c tm m sm va H Hu; cbn [unpin_loop].
  { exists c. split_and!; [done..|]. eapply lets_go_ext; [apply lets_go_refl|]. intros x. split; [|done]. intros (y & Hy & _). lia. }
  have Hua : user_page va by apply Hu; lia. have Eg := get_page_spec _ _ D _ _ _ _ _ _ H Hua. destruct (unpin_frame_here _ _ _ _ _ _ _ H Hua Eg) as (c1 & E1 & H1 & _ & L1). rewrite Eg. cbn [obind]. rewrite E1. cbn [obind].
  rewrite wrap_small; [destruct Hua as [? Hk]; apply Z.ltb_lt in Hk; rewrite /PHYS_BASE in Hk; lia|]. destruct (IH n c1 tm m sm (va + 1) H1) as (c2 & E2 & H2 & L2); [intros; apply Hu; lia|].
  exists c2. split_and!; [done..|]. eapply lets_go_trans; [exact L1|exact L2|]. intros x. split.
  - intros (y & Hy & <-). destruct (decide (y = va)) as [->|]; [by left|right]. exists y. split; [lia|done].
  - intros [<- |(y & Hy & <-)]; [exists va|exists y]; split; [lia|done..|lia|done].
Qed.

Section release.
Context (n : nat) (tm : gmap (Z * Z) entry) (m : gmap (Z * Z) (list Z)) (sm : gmap Z (list Z)) (p sp num : Z) (q : option call) (len : nat).
Context (Hq : request m p sp num q len) (Hal : sp mod 4 = 0).

(** The arguments and the string are in memory. *)
Record usable c : Prop := {
  u_pages : pages n c tm m sm; u_run : running (c_vm c) = p;
  u_args : forall x, sp <= x < sp + 4 * arity q + 4 -> in_memory c x;
  u_str : forall s x, string_of q = Some s -> s <= x <= s + Z.of_nat len -> in_memory c x }.
Definition releases c (r : outcome (option unit * ctx T F)) (G : Z -> Prop) : Prop := exists c', r = Ok (Some tt, c') /\ usable c' /\ lets_go G c c'.
Definition word_page (i x : Z) : Prop := pg_round_down (sp + 4 * i) = x.
Definition string_page (x : Z) : Prop := exists s y, string_of q = Some s /\ s <= y < s + Z.of_nat len /\ pg_round_down y = x.
Definition buffer_page (x : Z) : Prop := exists b l y, buffer_of q = Some (b, l) /\ b <= y < b + l /\ pg_round_down y = x.

Lemma usable_step G c c' : usable c -> pages n c' tm m sm -> lets_go G c c' -> usable c'.
Proof using Hq Hal.
  intros [H Hr Ha Hs] H' L. split; [done|by rewrite (lg_run _ _ _ L)| |].
  - intros x Hx. apply (lg_mem _ _ _ L); [|by apply Ha]. destruct (q_bytes _ _ _ _ _ _ Hq x) as [b Hb]; [lia|]. by eapply byte_page.
  - intros s x Es Hx. apply (lg_mem _ _ _ L); [|by eapply Hs]. destruct (q_str _ _ _ _ _ _ Hq _ Es) as [Hch H0]. destruct (decide (x = s + Z.of_nat len)) as [->|]; [by eapply byte_page|]. destruct (Hch x) as (b & Hb & _); [lia|]. by eapply byte_page.
Qed.
Lemma releases_bind c r f G1 G2 (G : Z -> Prop) : releases c r G1 -> (forall c', usable c' -> releases c' (f tt c') G2) -> (forall x, G x <-> G1 x \/ G2 x) -> releases c (ubind r f) G.
Proof using Type.
  intros (c1 & -> & U1 & L1) H2 HG. destruct (H2 c1 U1) as (c2 & E2 & U2 & L2). cbn [ubind obind]. exists c2. split_and!; [done..|]. by eapply lets_go_trans.
Qed.

Lemma word_bytes i : 0 <= i <= arity q -> forall x, sp + 4 * i <= x < sp + 4 * i + 7 -> is_Some (byte_at m p x).
Proof using Hq Hal. intros Hi x Hx. apply (q_bytes _ _ _ _ _ _ Hq). lia. Qed.
Lemma word_addr c i : usable c -> 0 <= i <= arity q -> u32 (sp + 4 * i) = sp + 4 * i /\ u32 (sp + 4 * i + 3) = sp + 4 * i + 3 /\ user_page (sp + 4 * i) /\ user_page (sp + 4 * i + 3) /\ pg_round_down (sp + 4 * i + 3) = pg_round_down (sp + 4 * i).
Proof using Hq Hal.
  intros U Hi. destruct (word_bytes i Hi (sp + 4 * i)) as [b0 Hb0]; [lia|]. destruct (word_bytes i Hi (sp + 4 * i + 3)) as [b1 Hb1]; [lia|].
  destruct (byte_page _ _ _ _ _ _ _ _ (u_pages _ U) Hb0) as (? & ? & ?). destruct (byte_page _ _ _ _ _ _ _ _ (u_pages _ U) Hb1) as (? & ? & ?). split_and!; try done; try (apply wrap_small; lia). rewrite !pg_round_down_eq /PGSIZE. dlia.
Qed.

Lemma release_word c i : usable c -> 0 <= i <= arity q -> releases c (unpin_at c (u32 (sp + 4 * i))) (word_page i).
Proof using Hq Hal.
  intros U Hi. destruct (word_addr c i U Hi) as (-> & W3 & Hu0 & Hu3 & Hp3). rewrite /unpin_at /unpin W3. have H := u_pages _ U.
  have E0 := get_page_spec _ _ D _ _ _ _ _ _ H Hu0. have E3 := get_page_spec _ _ D _ _ _ _ _ _ H Hu3. destruct (unpin_frame_here _ _ _ _ _ _ _ H Hu0 E0) as (c1 & E1 & H1 & M1 & L1).
  have E3' := get_page_spec _ _ D _ _ _ _ _ _ H1 Hu3. rewrite M1 in E3'. destruct (unpin_frame_here _ _ _ _ _ _ _ H1 Hu3 E3') as (c2 & E2 & H2 & _ & L2).
  rewrite E0 E3. cbn [obind]. rewrite E1. cbn [obind]. rewrite E2. cbn [obind]. have L : lets_go (word_page i) c c2. { eapply lets_go_trans; [exact L1|exact L2|]. intros x. rewrite /word_page Hp3. tauto. }
  exists c2. split; [done|]. split; [by eapply usable_step|done].
Qed.

(** A word that is read again. *)
Lemma word_again c i w : usable c -> 0 <= i <= arity q -> num_at 4 m p (sp + 4 * i) = Some w -> exists c', load_bytes 4 c (u32 (sp + 4 * i)) = Ok (Some w, c') /\ usable c' /\ lets_go (fun _ => False) c c'.
Proof using Hq Hal.
  intros U Hi Hw. destruct (word_addr c i U Hi) as (-> & _). rewrite -(u_run _ U) in Hw. destruct (load_here 4 n c tm m sm _ w (u_pages _ U) Hw) as (c1 & E & H1 & L1); [intros x Hx; apply (u_args _ U); lia|].
  exists c1. split; [done|]. split; [by eapply usable_step|done].
Qed.
Lemma release_string fuel c i s : (len < fuel)%nat -> usable c -> 0 <= i <= arity q -> num_at 4 m p (sp + 4 * i) = Some s -> string_of q = Some s -> releases c (unpin_str_at init_page_dir init_ram_pages fuel c (u32 (sp + 4 * i))) string_page.
Proof using Hq Hal.
  intros Hf U Hi Hw Hs. rewrite /unpin_str_at /Uptr.load_word. destruct (word_again c i s U Hi Hw) as (c1 & -> & U1 & L1). cbn [ubind obind]. rewrite /unpin_str.
  have Hst := q_str _ _ _ _ _ _ Hq _ Hs. have Hst1 := Hst. rewrite -(u_run _ U1) in Hst1. destruct (strlen_here len fuel n c1 tm m sm s (u_pages _ U1) Hst1 Hf) as (c2 & -> & H2 & L2); [intros; by eapply u_str|]. cbn [ubind obind]. rewrite /unpin_buf Nat2Z.id.
  destruct (unpin_loop_here len n c2 tm m sm s H2) as (c3 & -> & H3 & L3). { intros x Hx. destruct (proj1 Hst x Hx) as (b & Hb & _). by eapply byte_page. }
  cbn [obind]. have L12 : lets_go (fun _ => False) c c2 by eapply lets_go_trans; [exact L1|exact L2|tauto]. have L : lets_go string_page c c3.
  { eapply lets_go_trans; [exact L12|exact L3|]. intros x. rewrite /string_page. split; [intros (s' & y & Es & Hy & Hx); right; exists y; simplify_eq; done|]. intros [[]|(y & Hy & Hx)]. by exists s, y. }
  exists c3. split; [done|]. split; [exact (usable_step _ c c3 U H3 L)|done].
Qed.
Lemma release_buffer c i b l : usable c -> 0 <= i <= arity q -> num_at 4 m p (sp + 4 * i) = Some b -> buffer_of q = Some (b, l) -> releases c (unpin_buf_at init_page_dir init_ram_pages c (u32 (sp + 4 * i)) l) buffer_page.
Proof using Hq Hal.
  intros U Hi Hw Hb. rewrite /unpin_buf_at /Uptr.load_word. destruct (word_again c i b U Hi Hw) as (c1 & -> & U1 & L1). cbn [ubind obind]. rewrite /unpin_buf. destruct (q_buf _ _ _ _ _ _ Hq _ _ Hb) as (_ & Hl & _ & Hbs).
  destruct (unpin_loop_here (Z.to_nat l) n c1 tm m sm b (u_pages _ U1)) as (c2 & -> & H2 & L2). { intros x Hx. destruct (Hbs x) as [bx Hbx]; [lia|]. by eapply byte_page; [apply (u_pages _ U1)|]. }
  cbn [obind]. have L : lets_go buffer_page c c2.
  { eapply lets_go_trans; [exact L1|exact L2|]. intros x. rewrite /buffer_page. split; [intros (b' & l' & y & Es & Hy & Hx); right; exists y; simplify_eq; split; [lia|done]|]. intros [[]|(y & Hy & Hx)]. exists b, l, y. split; [done|]. split; [lia|done]. }
  exists c2. split; [done|]. split; [exact (usable_step _ c c2 U H2 L)|done].
Qed.

Definition released (x : Z) : Prop := (exists i, 0 <= i <= arity q /\ word_page i x) \/ string_page x \/ buffer_page x.

Lemma release_first c : usable c -> releases c (unpin_at c sp) (word_page 0).
Proof using Hq Hal.
  intros U. have Ha : 0 <= arity q by destruct q as [[]|]. have := release_word c 0 U ltac:(lia). destruct (word_addr c 0 U ltac:(lia)) as (-> & _). by rewrite Z.add_0_r.
Qed.
Lemma no_string x : string_of q = None -> string_page x <-> False.
Proof using Type. intros E. split; [|done]. intros (s & y & Es & _). congruence. Qed.
Lemma no_buffer x : buffer_of q = None -> buffer_page x <-> False.
Proof using Type. intros E. split; [|done]. intros (b & l & y & Es & _). congruence. Qed.
Lemma words_0 x : arity q = 0 -> (exists i, 0 <= i <= arity q /\ word_page i x) <-> word_page 0 x.
Proof using Type. intros ->. split; [intros (i & Hi & Hx); (have ? : i = 0 by lia); by subst i|intros H; by exists 0]. Qed.
Lemma words_1 x : arity q = 1 -> (exists i, 0 <= i <= arity q /\ word_page i x) <-> word_page 0 x \/ word_page 1 x.
Proof using Type. intros ->. split; [intros (i & Hi & Hx); (have [?|?] : i = 0 \/ i = 1 by lia); subst i; tauto|intros [H|H]; [by exists 0|by exists 1]]. Qed.
Lemma words_2 x : arity q = 2 -> (exists i, 0 <= i <= arity q /\ word_page i x) <-> word_page 0 x \/ word_page 1 x \/ word_page 2 x.
Proof using Type. intros ->. split; [intros (i & Hi & Hx); (have [?|[?|?]] : i = 0 \/ i = 1 \/ i = 2 by lia); subst i; tauto|intros [H|[H|H]]; [by exists 0|by exists 1|by exists 2]]. Qed.
Lemma words_3 x : arity q = 3 -> (exists i, 0 <= i <= arity q /\ word_page i x) <-> word_page 0 x \/ word_page 1 x \/ word_page 2 x \/ word_page 3 x.
Proof using Type. intros ->. split; [intros (i & Hi & Hx); (have [?|[?|[?|?]]] : i = 0 \/ i = 1 \/ i = 2 \/ i = 3 by lia); subst i; tauto|intros [H|[H|[H|H]]]; [by exists 0|by exists 1|by exists 2|by exists 3]]. Qed.

(** A sequence of releases: the set of pages is the union. *)
Lemma releases_seq c r f G1 G2 : releases c r G1 -> (forall c', usable c' -> releases c' (f tt c') G2) -> releases c (ubind r f) (fun x => G1 x \/ G2 x).
Proof using Type. intros H1 H2. by eapply releases_bind. Qed.
Ltac rel Hw1 Hw2 := lazymatch goal with
  | |- releases _ (ubind _ _) _ => eapply releases_seq; [rel Hw1 Hw2|intros ? ?; rel Hw1 Hw2]
  | |- releases ?c (unpin_at ?c (u32 (sp + 4))) _ => apply (release_word c 1); [done|lia]
  | |- releases ?c (unpin_at ?c (u32 (sp + 8))) _ => apply (release_word c 2); [done|lia]
  | |- releases ?c (unpin_at ?c (u32 (sp + 12))) _ => apply (release_word c 3); [done|lia]
  | |- releases ?c (unpin_str_at _ _ _ _ (u32 (sp + 4))) _ => eapply (release_string _ c 1); [done|done|lia|apply Hw1; lia|done]
  | |- releases ?c (unpin_str_at _ _ _ _ (u32 (sp + 8))) _ => eapply (release_string _ c 2); [done|done|lia|apply Hw2; lia|done]
  | |- releases ?c (unpin_buf_at _ _ _ _ _) _ => eapply (release_buffer c 2); [done|lia|apply Hw2; lia|done]
  end.
Ltac facts Hk := match type of Hk with ?q = _ =>
  first [have Ha : arity q = 0 by rewrite Hk|have Ha : arity q = 1 by rewrite Hk|have Ha : arity q = 2 by rewrite Hk|have Ha : arity q = 3 by rewrite Hk] end.

Lemma handler_release_ok fuel c : (len < fuel)%nat -> usable c -> releases c (release init_page_dir init_ram_pages fuel c sp num (length_of q)) released.
Proof using Hq Hal.
  intros Hf U. destruct (q_words _ _ _ _ _ _ Hq) as (w1 & w2 & w3 & Hk & Hw1 & Hw2 & Hw3). change (sp + 4) with (sp + 4 * 1) in Hw1. change (sp + 8) with (sp + 4 * 2) in Hw2.
  have Hskip : forall c, usable c -> releases c (Ok (Some tt, c)) (fun _ => False) by intros c0 U0; exists c0; split_and!; [done..|apply lets_go_refl].
  have Hend : forall r G, releases c r G -> (forall x, released x <-> G x \/ word_page 0 x) -> releases c (ubind r (fun _ c => unpin_at c sp)) released.
  { intros r G H1 HG. eapply releases_bind; [exact H1|intros; by apply release_first|done]. }
  rewrite /release. destruct (decide (0 <= num < 20)) as [Hn|Hn]; last first.
  { have Hq0 : q = None. { rewrite Hk /call_of. destruct (Z.ltb_spec num 0); [done|]. apply lookup_ge_None. simpl. lia. }
    have -> : (0 <=? num) && (num <=? SYS_INUMBER) = false. { apply not_true_iff_false. rewrite andb_true_iff !Z.leb_le /SYS_INUMBER. lia. }
    rewrite !(proj2 (Z.eqb_neq num _)); try (rewrite /SYS_HALT /SYS_EXEC /SYS_CREATE /SYS_REMOVE /SYS_OPEN /SYS_READ /SYS_WRITE /SYS_SEEK /SYS_MMAP /SYS_CHDIR /SYS_MKDIR /SYS_READDIR; lia). cbn [orb].
    eapply Hend; [by apply Hskip|]. intros x. rewrite /released words_0 ?no_string ?no_buffer; try by rewrite Hq0. tauto. }
  have Hc : num ∈ seqZ 0 20 by apply elem_of_seqZ; lia. clear Hn. change (seqZ 0 20) with [0; 1; 2; 3; 4; 5; 6; 7; 8; 9; 10; 11; 12; 13; 14; 15; 16; 17; 18; 19] in Hc.
  repeat (apply elem_of_cons in Hc as [E|Hc]; [move: Hk; rewrite E => Hk|]); last by apply not_elem_of_nil in Hc.
  all: cbn [Z.eqb Pos.eqb Z.leb Z.compare Pos.compare Pos.compare_cont andb orb SYS_HALT SYS_EXIT SYS_EXEC SYS_WAIT SYS_CREATE SYS_REMOVE SYS_OPEN SYS_FILESIZE SYS_READ SYS_WRITE SYS_SEEK SYS_TELL SYS_CLOSE SYS_MMAP SYS_MUNMAP SYS_CHDIR SYS_MKDIR SYS_READDIR SYS_ISDIR SYS_INUMBER].
  { have Ha : arity q = 0 by rewrite Hk. eapply Hend; [by apply Hskip|]. intros x. rewrite /released words_0 // no_string ?no_buffer; try by rewrite Hk. tauto. }
  all: facts Hk; first [have Hst : string_of q = None by rewrite Hk|have Hst : string_of q = Some w1 by rewrite Hk|have Hst : string_of q = Some w2 by rewrite Hk];
    first [have Hbu : buffer_of q = None by rewrite Hk|have Hbu : buffer_of q = Some (w2, w3) by rewrite Hk].
  all: try (have -> : length_of q = w3 by rewrite Hk).
  all: eapply Hend; [rel Hw1 Hw2|]; intros x; cbn beta; rewrite /released.
  all: rewrite ?(no_string x Hst) ?(no_buffer x Hbu); first [rewrite (words_1 x Ha)|rewrite (words_2 x Ha)|rewrite (words_3 x Ha)]; tauto.
Qed.
End release.
End steps.

(** C17: what a system call gets.  Let the stack of the running process hold a call [q]: its
    number, the words of its arguments, and behind the pointers among them a string or a
    buffer; the three bytes behind the last argument and behind the buffer must belong to
    the process as well, since the kernel looks at words ([valid_buf_kills] is what happens
    otherwise).  Any part of this may be in frames, on swap or in files.  Unless the kernel
    panics because swap is full when it touches one of these addresses, or the process is
    ended because one of their pages gets no frame or no page table, [syscall_handler] goes
    on with exactly the call [q].  Then no page of any process has changed, the number and
    the arguments are in pinned frames, and so is every byte of the string, with its
    terminator, and of the buffer. *)
Theorem syscall_arguments_correct {T F : Type} {spt_ops : SptOps T} {file_ops : FileOps F} {spt_laws : SptTable T} {file_laws : FileLaws F}
    (init_page_dir init_ram_pages : Z) (D : gset Z) {W : Type} (perform : call -> ctx T F -> W -> outcome (option (option Z) * ctx T F * W)) (fuel k len : nat)
    (c : ctx T F) (w : W) (tm : gmap (Z * Z) entry) (m : gmap (Z * Z) (list Z)) (sm : gmap Z (list Z)) (sp eax num : Z) (q : option call) :
  paged init_page_dir init_ram_pages D false None (192 + (4 * S len + (16 * length_of_buffer q + k))) (c_vm c) tm m sm -> 0 < pf_sema c ->
  request m (running (c_vm c)) sp num q len -> (len < fuel)%nat ->
  (syscall_handler init_page_dir init_ram_pages perform fuel c w sp eax = Err Panic /\
     exists c1, walk init_page_dir init_ram_pages (touched sp q len) c c1 /\ swap_full (sw (c_vm c1))) \/
  exists c' tm' sm', paged init_page_dir init_ram_pages D false None k (c_vm c') tm' m sm' /\ running (c_vm c') = running (c_vm c) /\
    ((syscall_handler init_page_dir init_ram_pages perform fuel c w sp eax = Ok (None, c', w) /\ exists x, touched sp q len x /\ stuck (c_vm c') (pg_round_down x)) \/
     (syscall_handler init_page_dir init_ram_pages perform fuel c w sp eax = complete init_page_dir init_ram_pages perform fuel c' w sp eax num q /\
      held (c_vm c') (running (c_vm c)) (pg_round_down sp) /\ secured (c_vm c') (running (c_vm c)) sp q len)).
Proof.
  intros H Hs Hq Hf. have Ha : 0 <= arity q by destruct q as [[]|]. destruct (q_num _ _ _ _ _ _ Hq) as (w0 & Hw0 & Hnum).
  have Hr : ready init_page_dir init_ram_pages D (48 + (144 + (4 * S len + (16 * length_of_buffer q + k)))) m c by split; [done|exists tm, sm].
  have Harg := runs_arg init_page_dir init_ram_pages D (touched sp q len) _ m c sp w0 Hr. rewrite /syscall_handler /arg_int.
  destruct Harg as [(-> & Hp)|(o & c1 & -> & (Hs1 & tm1 & sm1 & H1) & G1 & Ho)]; [|done|by left|].
  { intros x Hx. split; [apply (q_bytes _ _ _ _ _ _ Hq); lia|left; lia]. }
  destruct o as [w'|]; cbn [ubind obind]; last first.
  { right. exists c1, tm1, sm1. split_and!; [eapply paged_le; [|exact H1]; lia|apply G1|by left]. }
  destruct Ho as (W1 & -> & Hh). rewrite Hnum. set c2 := set_esp c1 sp.
  have W2 : walk init_page_dir init_ram_pages (touched sp q len) c c2 by eapply walk_vars; [exact W1|].
  have Hrun : running (c_vm c2) = running (c_vm c) by apply (go_run _ _ G1).
  destruct (runs_arguments init_page_dir init_ram_pages D k m c2 sp num q len fuel) as [(-> & c3 & W3 & Hfull)|(o & c3 & -> & (Hs3 & tm3 & sm3 & H3) & G3 & Ho)];
    [by rewrite Hrun|split; [done|by exists tm1, sm1]|done| |].
  - left. split; [done|]. exists c3. split; [by eapply walk_trans|done].
  - right. exists c3, tm3, sm3. split; [done|]. split; [by rewrite (go_run _ _ G3)|]. destruct o as [q'|]; cbn [obind]; [right|by left].
    destruct Ho as (_ & -> & Hsec). rewrite Hrun in Hsec. split; [done|]. split; [by eapply pins_held; [apply G3|]|done].
Qed.

(** C18: what a system call leaves.  Let a call return with the number, the arguments, the
    string and the buffer still in the memory of the process as they were, in pinned
    frames, and the stack pointer a multiple of 4; a call that writes over its own arguments
    is not covered, as the handler reads them again.  Then [syscall_handler] returns, with
    the result of the call in eax; no page of any process changes; and exactly the pages of
    the number and the arguments, of the characters of the string and of the bytes of the
    buffer stop being pinned.  A page that only holds the terminator of the string stays
    pinned. *)
Theorem syscall_release_correct {T F : Type} {spt_ops : SptOps T} {file_ops : FileOps F} {spt_laws : SptTable T} {file_laws : FileLaws F}
    (init_page_dir init_ram_pages : Z) (D : gset Z) {W : Type} (perform : call -> ctx T F -> W -> outcome (option (option Z) * ctx T F * W)) (fuel n len : nat)
    (c0 c : ctx T F) (w0 w : W) (tm : gmap (Z * Z) entry) (m : gmap (Z * Z) (list Z)) (sm : gmap Z (list Z)) (sp eax num : Z) (q : option call) (r : option Z) :
  match q with Some k => perform k c0 w0 | None => Ok (Some None, c0, w0) end = Ok (Some r, c, w) ->
  paged init_page_dir init_ram_pages D false None n (c_vm c) tm m sm -> request m (running (c_vm c)) sp num q len -> sp mod 4 = 0 -> (len < fuel)%nat ->
  held (c_vm c) (running (c_vm c)) (pg_round_down sp) -> secured (c_vm c) (running (c_vm c)) sp q len ->
  exists c', complete init_page_dir init_ram_pages perform fuel c0 w0 sp eax num q = Ok (Some (default eax r), c', w) /\
    paged init_page_dir init_ram_pages D false None n (c_vm c') tm m sm /\
    forall p x, held (c_vm c') p x <-> held (c_vm c) p x /\ ~ (p = running (c_vm c) /\ released sp q len x).
Proof.
  intros E H Hq Hal Hf Hh Hsec. have Hpage i x : 0 <= i <= arity q -> sp + 4 * i <= x < sp + 4 * i + 4 -> pg_round_down x = pg_round_down (sp + 4 * i) by intros; rewrite !pg_round_down_eq /PGSIZE; dlia.
  have U : usable init_page_dir init_ram_pages D n tm m sm (running (c_vm c)) sp q len c.
  { split; [done|done| |].
    - intros x Hx. destruct (q_bytes _ _ _ _ _ _ Hq x) as [b Hb]; [lia|]. destruct (byte_page _ _ _ _ _ _ _ _ _ _ _ H Hb) as (Hu & _). eapply held_in_memory; [exact H|done|].
      rewrite (Hpage ((x - sp) / 4)); [dlia|dlia|]. destruct (decide ((x - sp) / 4 = 0)) as [->|Hne]; [by rewrite Z.add_0_r|]. apply (s_args _ _ _ _ _ Hsec). dlia.
    - intros s x Es Hx. destruct (q_str _ _ _ _ _ _ Hq _ Es) as [Hch H0]. have [b Hb] : is_Some (byte_at m (running (c_vm c)) x).
      { destruct (decide (x = s + Z.of_nat len)) as [->|]; [by eexists|]. destruct (Hch x) as (b & Hb & _); [lia|]. by exists b. }
      destruct (byte_page _ _ _ _ _ _ _ _ _ _ _ H Hb) as (Hu & _). eapply held_in_memory; [exact H|done|]. by eapply (s_str _ _ _ _ _ Hsec). }
  destruct (handler_release_ok _ _ D n tm m sm (running (c_vm c)) sp num q len Hq Hal fuel c Hf U) as (c' & Er & U' & L). exists c'. rewrite /complete E. cbn [obind]. rewrite Er. cbn [obind].
  split; [done|]. split; [apply U'|apply L].
Qed.

(** ** An example: process 4 opens the file whose name is at the start of its page *)
Abbreviation ex_handler := (syscall_handler (spt_ops := table_ops (fun _ => true)) 0xc0300000 4096).
Lemma ex_byte x b : 0x8048000 <= x < 0x8049000 -> page_of ex_data 0 !! Z.to_nat (x - 0x8048000) = Some b -> byte_at ex_pages 4 x = Some b.
Proof.
  intros Hx Hb. have Hp : pg_round_down x = 0x8048000 by rewrite pg_round_down_eq /PGSIZE; dlia. have Ho : pg_ofs x = x - 0x8048000 by rewrite pg_ofs_mod /PGSIZE; dlia.
  rewrite /byte_at Hp Ho /ex_pages lookup_insert_ne; [done|]. rewrite lookup_insert_eq. exact Hb.
Qed.
Lemma ex_byte_some x : 0x8048000 <= x < 0x8049000 -> is_Some (byte_at ex_pages 4 x).
Proof.
  intros Hx. have [b Hb] : is_Some (page_of ex_data 0 !! Z.to_nat (x - 0x8048000)). { apply lookup_lt_is_Some_2. have -> : length (page_of ex_data 0) = Z.to_nat 4096 by vm_compute. lia. }
  exists b. by apply ex_byte.
Qed.
Lemma ex_request : request ex_pages 4 0x8048008 6 (Some (Open 0x8048000)) 6.
Proof.
  have B : forall i b, 0 <= i < 4096 -> page_of ex_data 0 !! Z.to_nat i = Some b -> byte_at ex_pages 4 (0x8048000 + i) = Some b by intros; apply ex_byte; [lia|by replace (0x8048000 + i - 0x8048000) with i by lia].
  split.
  - exists 6. split; [|reflexivity]. cbn [num_at Z.add Pos.add Pos.succ Pos.add_carry]. rewrite (B 8 6) // (B 9 0) // (B 10 0) // (B 11 0) //.
  - cbn [arity]. intros x Hx. apply ex_byte_some. lia.
  - exists 0x8048000, 0, 0. cbn [arity]. split; [reflexivity|]. split; [|split; intros; lia]. intros _. cbn [num_at Z.add Pos.add Pos.succ Pos.add_carry]. rewrite (B 12 0) // (B 13 128) // (B 14 4) // (B 15 8) //.
  - cbn [string_of]. intros s [= <-]. split; [|by apply (B 6 0)]. intros x Hx. have Hi : x - 0x8048000 ∈ [0; 1; 2; 3; 4; 5] by rewrite !elem_of_cons; lia.
    have Hb : forall i b, x - 0x8048000 = i -> 0 <= i < 4096 -> b <> 0 -> page_of ex_data 0 !! Z.to_nat i = Some b -> exists b, byte_at ex_pages 4 x = Some b /\ b <> 0.
    { intros i b Ei Hr Hb0 Hb. exists b. split; [|done]. replace x with (0x8048000 + i) by lia. by apply B. }
    rewrite !elem_of_cons in Hi. destruct Hi as [E|[E|[E|[E|[E|[E|E]]]]]]; [by eapply Hb; [exact E|..|reflexivity]..|by apply not_elem_of_nil in E].
  - by cbn [buffer_of].
Qed.

Definition ex_perform (k : call) (c : ctx sptab (gmap Z (list Z))) (w : nat) : outcome (option (option Z) * ctx sptab (gmap Z (list Z)) * nat) := Ok (Some (Some 3), c, S w).
Lemma ex_ready n : (n <= 238)%nat -> paged (spt_laws := table_spt (fun _ => true)) 0xc0300000 4096 ex_frame_dirs false None n (c_vm ex_ctx) ex_tm ex_pages ∅ /\ running (c_vm ex_ctx) = 4.
Proof. intros Hn. destruct ex_run_paged as [H Hr]. split; [by eapply paged_le|exact Hr]. Qed.

Lemma syscall_arguments_correct_witness :
  exists c', ex_handler ex_perform 7 ex_ctx O 0x8048008 0 = complete (spt_ops := table_ops (fun _ => true)) 0xc0300000 4096 ex_perform 7 c' O 0x8048008 0 6 (Some (Open 0x8048000)) /\ held (c_vm c') 4 0x8048000.
Proof.
  destruct (ex_ready 238 ltac:(lia)) as [H Hr].
  destruct (syscall_arguments_correct (spt_laws := table_spt (fun _ => true)) 0xc0300000 4096 ex_frame_dirs ex_perform 7 18 6 ex_ctx O ex_tm ex_pages ∅ 0x8048008 0 6 (Some (Open 0x8048000)))
    as [[E _]|(c' & tm' & sm' & _ & _ & [[E _]|(E & _ & Hsec)])].
  - exact H.
  - reflexivity.
  - rewrite Hr. exact ex_request.
  - lia.
  - exfalso. have Hb : (match ex_handler ex_perform 7 ex_ctx O 0x8048008 0 with Ok _ => true | Err _ => false end) = true by vm_compute. by rewrite E in Hb.
  - exfalso. have Hb : (match ex_handler ex_perform 7 ex_ctx O 0x8048008 0 with Ok (o, _, _) => o | Err _ => None end) = Some 3 by vm_compute. by rewrite E in Hb.
  - exists c'. split; [exact E|]. rewrite Hr in Hsec. apply (s_str _ _ _ _ _ Hsec 0x8048000 0x8048000); [reflexivity|lia].
Defined.

(** The state in which the call is made. *)
Definition ex_entered : ctx sptab (gmap Z (list Z)) :=
  match arg_int (spt_ops := table_ops (fun _ => true)) 0xc0300000 4096 ex_ctx 0x8048008 with Ok (_, c) => set_esp c 0x8048008 | Err _ => ex_ctx end.
Definition ex_secured : ctx sptab (gmap Z (list Z)) :=
  match arguments (spt_ops := table_ops (fun _ => true)) 0xc0300000 4096 7 ex_entered 0x8048008 6 with Ok (_, c) => c | Err _ => ex_entered end.
Lemma ex_entered_ok : ready (spt_laws := table_spt (fun _ => true)) 0xc0300000 4096 ex_frame_dirs (144 + (4 * 7 + (0 + 18))) ex_pages ex_entered /\ running (c_vm ex_entered) = 4 /\ held (c_vm ex_entered) 4 0x8048000.
Proof.
  destruct (ex_ready 238 ltac:(lia)) as [H Hr]. destruct (q_num _ _ _ _ _ _ ex_request) as (w0 & Hw0 & _). rewrite -Hr in Hw0.
  destruct (runs_arg (spt_laws := table_spt (fun _ => true)) 0xc0300000 4096 ex_frame_dirs (fun _ => True) (144 + (4 * 7 + (0 + 18))) ex_pages ex_ctx 0x8048008 w0) as [(E & _)|(o & c' & E & R & G & Ho)].
  - split; [reflexivity|]. exists ex_tm, ∅. exact H.
  - intros x Hx. split; [|done]. rewrite Hr. apply ex_byte_some. lia.
  - exact Hw0.
  - exfalso. have Hb : (match arg (spt_ops := table_ops (fun _ => true)) 0xc0300000 4096 ex_ctx 0x8048008 with Ok _ => true | Err _ => false end) = true by vm_compute. by rewrite E in Hb.
  - have Hb : (match arg (spt_ops := table_ops (fun _ => true)) 0xc0300000 4096 ex_ctx 0x8048008 with Ok (Some _, _) => true | _ => false end) = true by vm_compute. rewrite E in Hb. destruct o as [w|]; [|done].
    have Ee : ex_entered = set_esp c' 0x8048008 by rewrite /ex_entered /arg_int E. rewrite Ee. destruct Ho as (_ & _ & Hh). rewrite Hr in Hh. split; [exact R|]. split; [rewrite -Hr; apply (go_run _ _ G)|exact Hh].
Qed.
Lemma ex_secured_ok : exists tm sm, paged (spt_laws := table_spt (fun _ => true)) 0xc0300000 4096 ex_frame_dirs false None 18 (c_vm ex_secured) tm ex_pages sm /\ running (c_vm ex_secured) = 4 /\
  held (c_vm ex_secured) 4 0x8048000 /\ secured (c_vm ex_secured) 4 0x8048008 (Some (Open 0x8048000)) 6.
Proof.
  destruct ex_entered_ok as (R & Hr & Hh). destruct (runs_arguments (spt_laws := table_spt (fun _ => true)) 0xc0300000 4096 ex_frame_dirs 18 ex_pages ex_entered 0x8048008 6 (Some (Open 0x8048000)) 6 7) as [(E & _)|(o & c' & E & (_ & tm & sm & H) & G & Ho)].
  - rewrite Hr. exact ex_request.
  - exact R.
  - lia.
  - exfalso. have Hb : (match arguments (spt_ops := table_ops (fun _ => true)) 0xc0300000 4096 7 ex_entered 0x8048008 6 with Ok _ => true | Err _ => false end) = true by vm_compute. by rewrite E in Hb.
  - have Hb : (match arguments (spt_ops := table_ops (fun _ => true)) 0xc0300000 4096 7 ex_entered 0x8048008 6 with Ok (Some _, _) => true | _ => false end) = true by vm_compute. rewrite E in Hb. destruct o as [w|]; [|done].
    have Ee : ex_secured = c' by rewrite /ex_secured E. rewrite Ee. destruct Ho as (_ & _ & Hsec). rewrite Hr in Hsec. exists tm, sm. split; [exact H|]. split; [rewrite -Hr; apply (go_run _ _ G)|]. split; [|exact Hsec].
    eapply pins_held; [apply G|exact Hh].
Qed.
Lemma syscall_release_correct_witness : exists c', complete (spt_ops := table_ops (fun _ => true)) 0xc0300000 4096 ex_perform 7 ex_secured O 0x8048008 0 6 (Some (Open 0x8048000)) = Ok (Some 3, c', 1%nat) /\
  ~ held (c_vm c') 4 0x8048000.
Proof.
  destruct ex_secured_ok as (tm & sm & H & Hr & Hh & Hsec).
  destruct (syscall_release_correct (spt_laws := table_spt (fun _ => true)) 0xc0300000 4096 ex_frame_dirs ex_perform 7 18 6 ex_secured ex_secured O 1%nat tm ex_pages sm 0x8048008 0 6 (Some (Open 0x8048000)) (Some 3)) as (c' & E & _ & Hrel).
  - reflexivity.
  - exact H.
  - rewrite Hr. exact ex_request.
  - reflexivity.
  - lia.
  - rewrite Hr. exact Hh.
  - rewrite Hr. exact Hsec.
  - exists c'. split; [exact E|]. intros Hc. apply Hrel in Hc as [_ Hno]. apply Hno. split; [by rewrite Hr|]. left. exists 0. split; [cbn [arity]; lia|reflexivity].
Defined.
