(* ===== verification/Mmap.v ===== *)
(** * userprog/syscall.c: memory mapped files

    [mmap] enters a page for every page of a file into the supplemental page table,
    and page faults read them (Fault); [munmap] writes the pages that were changed back
    to the file and takes all of them away.  The state is that of virtual memory, with
    the descriptors of the process (FdTable) and the blocks of [struct map].

    The theorems: a successful [mmap] adds exactly the pages of the file to the memory
    of the process, and fails without any change on a bad address, an empty file or
    pages that are in use; [munmap] of pages that were not written to removes exactly
    these again, and their frames are free. *)
From S2P Require Import Prelude Bitmap Palloc PageDir UserMem Block Swap Spt Frame Fault Uptr VmFile Thread FdTable.

(** ** What mapping needs of the supplemental page table; of files it needs [MapOps] of VmFile *)
Class SptRemove (T : Type) := { vm_spt_remove : T -> Z -> Z -> outcome (Z * T) }.
Class SptRemoveLaw (T : Type) `{SptTable T, !SptRemove T} := {
  spt_remove_law : forall n t m p va e, spt_is (S n) t m -> pg_ofs va = 0 -> m !! (p, va) = Some e ->
    exists t', vm_spt_remove t p va = Ok (ref e, t') /\ spt_is (S n) t' (delete (p, va) m) }.

Section mmap.
Context {T F : Type} {spt_ops : SptOps T} {spt_rem : SptRemove T} {file_ops : FileOps F} {map_ops : MapOps F}.
Context (init_page_dir : Z).

(** [maps]: the members [upage] and [fd] of the [struct map] blocks. *)
Record mm := mk_mm { m_vm : vm T F; m_sema : Z; m_kern : kernel; maps : gmap Z (Z * Z) }.
Implicit Types s : mm.
Definition with_vm s (v : vm T F) : mm := mk_mm v (m_sema s) (m_kern s) (maps s).
Definition with_sema s (n : Z) : mm := mk_mm (m_vm s) n (m_kern s) (maps s).
Definition with_kern s (k : kernel) : mm := mk_mm (m_vm s) (m_sema s) k (maps s).
Definition with_maps s (h : gmap Z (Z * Z)) : mm := mk_mm (m_vm s) (m_sema s) (m_kern s) h.
Definition pf_down s : outcome mm := assert! 0 <? m_sema s in Ok (with_sema s (m_sema s - 1)).
Definition pf_up s : mm := with_sema s (m_sema s + 1).

(** The calls of page.c for the current process. *)
Definition spt_get_flag (v : vm T F) (va : Z) : outcome (spte_flag * vm T F) :=
  let! (f, t) := spt_get_flag_kernel (tb v) (running v) va in Ok (f, set_tb v t).
Definition spt_get_ref (v : vm T F) (va : Z) : outcome (Z * vm T F) :=
  let! (r, t) := spt_get_ref_kernel (tb v) (running v) va in Ok (r, set_tb v t).

(** [for (int i = 0; i < size; i = i + PGSIZE)]: are all pages free? *)
Fixpoint free_loop (fuel : nat) (v : vm T F) (addr size i : Z) (success : bool) : outcome (bool * vm T F) :=
  if i <? size then
    match fuel with
    | O => Err NoFuel
    | S fuel =>
      let! (f, v) := spt_get_flag v (u32 (addr + i)) in
      free_loop fuel v addr size (s32 (i + PGSIZE)) (if bool_decide (f = SPTE_INVALID) then success else false)
    end
  else Ok (success, v).
(** The entries of the pages. *)
Fixpoint map_loop (fuel : nat) (v : vm T F) (addr file size i : Z) : outcome (vm T F) :=
  if i <? size then
    match fuel with
    | O => Err NoFuel
    | S fuel =>
      let! t := spt_set_kernel (tb v) (running v) (u32 (addr + i)) file SPTE_FILE true in
      let! t := spte_file_seek t (running v) (u32 (addr + i)) i in
      map_loop fuel (set_tb v t) addr file size (s32 (i + PGSIZE))
    end
  else Ok v.
Definition page_fuel (size : Z) : nat := S (Z.to_nat (size / PGSIZE)).

(** [thread_get_file] and [file_length], with a file that is not there of length 0. *)
Definition length_of_file (v : vm T F) (file : option Z) : outcome Z :=
  match file with Some p => vm_length (fl v) p | None => Ok 0 end.

(** [mmap] after its checks.  [block] is what [malloc (sizeof *map)] returns, which is not
    tested; [page] whether [thread_push_map] finds a page for its table. *)
Definition map_file s (block : option Z) (page : bool) (fd addr : Z) (file : option Z) (size : Z) : outcome (Z * mm) :=
  let! (success, v) := free_loop (page_fuel size) (m_vm s) addr size 0 true in
  let s := with_vm s v in
  if negb success then Ok (-1, pf_up s) else
  let! p := oget file in
  let! (file, f) := vm_reopen (fl (m_vm s)) p in
  let! v := map_loop (page_fuel size) (set_fl (m_vm s) f) addr (default 0 file) size 0 in
  let s := with_vm s v in
  let! map := oget block in
  let s := with_maps s (<[map := (addr, fd)]> (maps s)) in
  let! (result, k) := thread_push_map page map (m_kern s) in
  Ok (result, pf_up (with_kern s k)).
Definition mmap s (block : option Z) (page : bool) (fd addr : Z) : outcome (Z * mm) :=
  let! d := thread_fd_is_dir fd (m_kern s) in
  assert! negb d in
  let! s := pf_down s in
  let! file := if (fd <=? 2) || (MAX_FILE_CNT <=? fd) then Ok None else thread_get_file fd (m_kern s) in
  let! size := length_of_file (m_vm s) file in
  if (size =? 0) || negb (pg_ofs addr =? 0) || (addr =? 0) || is_kernel_vaddr addr then Ok (-1, pf_up s)
  else map_file s block page fd addr file size.

(** One page of [munmap]; [file] is not null.  [junk] is what the block of [malloc (PGSIZE)]
    holds, which [swap_in] leaves alone when the slot is not in use. *)
Context (junk : list Z).
Definition unmap_page (v : vm T F) (pd file va : Z) : outcome (vm T F) :=
  let! kpage := pagedir_get_page (ms v) pd va in
  let! v :=
    if negb (kpage =? 0) then
      let! dirty := pagedir_is_dirty (ms v) pd va in
      let! v :=
        if dirty : bool then
          let! (pos, t) := spte_file_tell (tb v) (running v) va in
          let! (write_bytes, f) := vm_write_at (fl v) file (page_bytes (mem (pal (ms v))) kpage) pos in
          assert! negb (write_bytes =? 0) in
          Ok (set_fl (set_tb v t) f)
        else Ok v in
      let! m := pagedir_clear_page init_page_dir (ms v) pd va in
      let! v := falloc_free_frame (set_ms v m) kpage in
      let! (_, v) := ft_remove v kpage in
      Ok v
    else
      let! (flag, v) := spt_get_flag v va in
      if bool_decide (flag = SPTE_SWAP) then
        let! (slot, v) := spt_get_ref v va in
        let! (bs, x) := swap_in (sw v) slot in
        let! (pos, t) := spte_file_tell (tb v) (running v) va in
        let! (_, f) := vm_write_at (fl v) file (default junk bs) pos in
        Ok (set_fl (set_tb (set_sw v x) t) f)
      else Ok v in
  let! (_, t) := vm_spt_remove (tb v) (running v) va in
  Ok (set_tb v t).
Fixpoint unmap_loop (fuel : nat) (v : vm T F) (pd file addr size i : Z) : outcome (vm T F) :=
  if i <? size then
    match fuel with
    | O => Err NoFuel
    | S fuel => let! v := unmap_page v pd file (u32 (addr + i)) in unmap_loop fuel v pd file addr size (s32 (i + PGSIZE))
    end
  else Ok v.

Definition munmap s (mapping : Z) : outcome mm :=
  let! s := pf_down s in
  let! (map, k) := thread_remove_map mapping (m_kern s) in
  let s := with_kern s k in
  match map with
  | None => Ok (pf_up s)
  | Some map =>
    let! (addr, fd) := @oget (Z * Z) (maps s !! map) in
    let! file := thread_get_file fd (m_kern s) in
    let! size := length_of_file (m_vm s) file in
    let s := with_maps s (delete map (maps s)) in
    if size =? 0 then Ok (pf_up s) else
    let! p := oget file in
    let! pd := oget (dirs (m_vm s) !! running (m_vm s)) in
    let! v := unmap_loop (page_fuel size) (m_vm s) pd p addr size 0 in
    Ok (pf_up (with_vm s v))
  end.
End mmap.
Arguments mm T F : clear implicits.

(** ** Pages that are entered and removed *)
Section pages.
Context {T F : Type} {spt_ops : SptOps T} {file_ops : FileOps F} {spt_laws : SptTable T} {file_laws : FileLaws F}.
Context (init_page_dir init_ram_pages : Z) (D : gset Z).
Implicit Types v : vm T F.
Abbreviation paged := (paged init_page_dir init_ram_pages D false None).

Lemma paged_fl n v tm m sm f : paged n v tm m sm -> (forall q cs, file_is (fl v) q cs -> file_is f q cs) -> paged n (set_fl v f) tm m sm.
Proof.
  intros H Hf. have Hb : forall e bs, backed v sm e bs -> backed (set_fl v f) sm e bs.
  { intros e bs. rewrite /backed. destruct (eflag e); try done. intros (data & Hd & ?). exists data. split; [by apply Hf|done]. }
  destruct H. split; try done. intros p va e bs He Hbs. destruct (g_page p va e bs He Hbs) as (? & ? & pd & Hpd & Hx). split; [done|]. split; [done|]. exists pd. split; [done|]. simpl.
  destruct (translate _ _ va) as [w|]; [|by apply Hb]. destruct Hx as [Hfb Hr]. split; [done|]. destruct (eflag e) eqn:Ee; try done; intros Hd; apply Hb; by apply Hr.
Qed.

(** A page that a process does not have is not mapped. *)
Lemma not_mapped n v tm m sm p pd va : paged n v tm m sm -> dirs v !! p = Some pd -> upage_ok va -> m !! (p, va) = None -> translate (ms v) pd va = None.
Proof.
  intros H Hp Hva Hm. destruct (translate (ms v) pd va) as [w|] eqn:Hw; [|done]. destruct (g_mapped _ _ _ _ _ _ _ _ _ _ H p pd va w Hp Hva Hw) as [[? ?] _]. congruence.
Qed.
Lemma paged_add n n' v tm m sm p pd va t' e bs : paged n v tm m sm -> dirs v !! p = Some pd -> upage_ok va -> m !! (p, va) = None -> eflag e <> SPTE_SWAP ->
  spt_is n' t' (<[(p, va) := e]> tm) -> length bs = Z.to_nat PGSIZE -> backed v sm e bs -> paged n' (set_tb v t') (<[(p, va) := e]> tm) (<[(p, va) := bs]> m) sm.
Proof.
  intros H Hp Hva Hm Hs Ht Hl Hb. have Hn := not_mapped _ _ _ _ _ _ _ _ H Hp Hva Hm. destruct H. split; try done; simpl.
  - intros p' pd' va' w Hp' Hva' Hw. destruct (g_mapped p' pd' va' w Hp' Hva' Hw) as [Hi Hx]. split; [|done]. destruct (decide ((p, va) = (p', va'))) as [[= <- <-]|]; [rewrite lookup_insert_eq; eauto|by rewrite lookup_insert_ne].
  - intros k. destruct (decide ((p, va) = k)) as [<-|]; [rewrite !lookup_insert_eq; split; eauto|by rewrite !lookup_insert_ne].
  - intros p' va' e' bs' He' Hbs'. destruct (decide ((p, va) = (p', va'))) as [[= <- <-]|Hne].
    + rewrite lookup_insert_eq in He'. rewrite lookup_insert_eq in Hbs'. injection He' as <-. injection Hbs' as <-. split; [done|]. split; [done|]. exists pd. split; [done|]. by rewrite Hn.
    + rewrite lookup_insert_ne // in He'. rewrite lookup_insert_ne // in Hbs'. by apply g_page.
  - intros k k' e1 e2 H1 H2 F1 F2 Hr. rewrite lookup_insert_Some in H1. rewrite lookup_insert_Some in H2. destruct H1 as [[_ <-]|[_ H1]]; [done|]. destruct H2 as [[_ <-]|[_ H2]]; [done|]. by eapply g_slots.
Qed.
Lemma paged_del n n' v tm m sm p pd va t' : paged n v tm m sm -> dirs v !! p = Some pd -> upage_ok va -> translate (ms v) pd va = None ->
  spt_is n' t' (delete (p, va) tm) -> paged n' (set_tb v t') (delete (p, va) tm) (delete (p, va) m) sm.
Proof.
  intros H Hp Hva Hn Ht. destruct H. split; try done; simpl.
  - intros p' pd' va' w Hp' Hva' Hw. destruct (g_mapped p' pd' va' w Hp' Hva' Hw) as [Hi Hx]. split; [|done]. rewrite lookup_delete_ne //. intros [= <- <-]. have ? : pd' = pd by congruence. subst pd'. congruence.
  - intros k. destruct (decide ((p, va) = k)) as [<-|]; [rewrite !lookup_delete_eq; split; by intros []|by rewrite !lookup_delete_ne].
  - intros p' va' e' bs' He' Hbs'. rewrite lookup_delete_Some in He'. rewrite lookup_delete_Some in Hbs'. destruct He' as [_ He'], Hbs' as [_ Hbs']. by apply g_page.
  - intros k k' e1 e2 H1 H2 F1 F2 Hr. rewrite lookup_delete_Some in H1. rewrite lookup_delete_Some in H2. destruct H1, H2. by eapply g_slots.
Qed.

(** An entry is never invalid. *)
Lemma flag_free n v tm m sm p va : paged n v tm m sm -> bool_decide (default SPTE_INVALID (eflag <$> tm !! (p, va)) = SPTE_INVALID) = bool_decide (m !! (p, va) = None).
Proof.
  intros H. apply bool_decide_ext. destruct (tm !! (p, va)) as [e|] eqn:He; simpl; last first.
  { split; [|done]. intros _. destruct (m !! (p, va)) eqn:Hm; [|done]. destruct (proj2 (g_dom _ _ _ _ _ _ _ _ _ _ H _) (mk_is_Some _ _ Hm)). congruence. }
  destruct (proj1 (g_dom _ _ _ _ _ _ _ _ _ _ H _) (mk_is_Some _ _ He)) as [bs Hbs]. rewrite Hbs. split; [|done]. intros Hi. destruct (g_page _ _ _ _ _ _ _ _ _ _ H _ _ _ _ He Hbs) as (_ & _ & pd & _ & Hx).
  destruct (translate _ _ va); [destruct Hx as [_ Hx]|]; [|rewrite /backed in Hx]; by rewrite Hi in Hx.
Qed.
End pages.

(** ** Mapping a file *)
Definition pages_of (size : Z) : nat := Z.to_nat ((size + PGSIZE - 1) / PGSIZE).
(** The memory with [r] pages of a file, from page [j] on, mapped at [addr]. *)
Fixpoint mapped (p addr : Z) (data : list Z) (r : nat) (j : Z) (m : gmap (Z * Z) (list Z)) : gmap (Z * Z) (list Z) :=
  match r with O => m | S r => mapped p addr data r (j + 1) (<[(p, addr + PGSIZE * j) := page_of data (PGSIZE * j)]> m) end.
Fixpoint unmapped (p addr : Z) (r : nat) (j : Z) (m : gmap (Z * Z) (list Z)) : gmap (Z * Z) (list Z) :=
  match r with O => m | S r => unmapped p addr r (j + 1) (delete (p, addr + PGSIZE * j) m) end.

Lemma mapped_out p addr data r : forall j m k, (forall i, j <= i < j + Z.of_nat r -> k <> (p, addr + PGSIZE * i)) -> mapped p addr data r j m !! k = m !! k.
Proof.
  induction r as [|r IH]; intros j m k Hk; cbn [mapped]; [done|]. rewrite IH; [intros i Hi; apply Hk; lia|]. rewrite lookup_insert_ne //. intros E. apply (Hk j); [lia|done].
Qed.
Lemma mapped_in p addr data r : forall j m i, j <= i < j + Z.of_nat r -> mapped p addr data r j m !! (p, addr + PGSIZE * i) = Some (page_of data (PGSIZE * i)).
Proof.
  induction r as [|r IH]; intros j m i Hi; [lia|]. cbn [mapped]. destruct (decide (i = j)) as [->|]; [|apply IH; lia]. rewrite mapped_out; [intros i' Hi' E; injection E as E; rewrite /PGSIZE in E; lia|]. apply lookup_insert_eq.
Qed.
Lemma unmapped_out p addr r : forall j m k, (forall i, j <= i < j + Z.of_nat r -> k <> (p, addr + PGSIZE * i)) -> unmapped p addr r j m !! k = m !! k.
Proof.
  induction r as [|r IH]; intros j m k Hk; cbn [unmapped]; [done|]. rewrite IH; [intros i Hi; apply Hk; lia|]. rewrite lookup_delete_ne //. intros E. apply (Hk j); [lia|done].
Qed.
Lemma unmapped_in p addr r : forall j m i, j <= i < j + Z.of_nat r -> unmapped p addr r j m !! (p, addr + PGSIZE * i) = None.
Proof.
  induction r as [|r IH]; intros j m i Hi; [lia|]. cbn [unmapped]. destruct (decide (i = j)) as [->|]; [|apply IH; lia]. rewrite unmapped_out; [intros i' Hi' E; injection E as E; rewrite /PGSIZE in E; lia|]. apply lookup_delete_eq.
Qed.
Lemma unmapped_mapped p addr data r j m : (forall i, j <= i < j + Z.of_nat r -> m !! (p, addr + PGSIZE * i) = None) -> unmapped p addr r j (mapped p addr data r j m) = m.
Proof.
  intros Hf. apply map_eq. intros k. destruct (decide (Exists (fun i => k = (p, addr + PGSIZE * i)) (seqZ j (Z.of_nat r)))) as [Hk|Hk].
  - apply Exists_exists in Hk as (i & Hi & ->). apply elem_of_seqZ in Hi. rewrite unmapped_in; [lia|]. rewrite Hf; [lia|done].
  - have Hne : forall i, j <= i < j + Z.of_nat r -> k <> (p, addr + PGSIZE * i). { intros i Hi ->. apply Hk, Exists_exists. exists i. split; [apply elem_of_seqZ; lia|done]. } rewrite unmapped_out // mapped_out //.
Qed.

Section mapping.
Context {T F : Type} {spt_ops : SptOps T} {spt_rem : SptRemove T} {file_ops : FileOps F} {map_ops : MapOps F}.
Context {spt_laws : SptTable T} {rem_laws : SptRemoveLaw T} {file_laws : FileLaws F} {map_laws : MapLaws F}.
Context (init_page_dir init_ram_pages : Z) (D : gset Z).
Implicit Types v : vm T F.
Abbreviation paged := (paged init_page_dir init_ram_pages D false None).

(** The turn [j] of a loop over the pages of a file of [size] bytes. *)
Definition turn (addr size j : Z) (r : nat) : Prop :=
  0 < addr /\ addr mod PGSIZE = 0 /\ 0 <= j /\ PGSIZE * (j + Z.of_nat r) - PGSIZE < size <= PGSIZE * (j + Z.of_nat r) /\ size <= INT_MAX - PGSIZE /\ addr + size <= PHYS_BASE.
Lemma turn_end addr size j : turn addr size j 0 -> (PGSIZE * j <? size) = false.
Proof. intros (_ & _ & _ & Hs & _). apply Z.ltb_ge. lia. Qed.
Lemma turn_next addr size j r : turn addr size j (S r) ->
  (PGSIZE * j <? size) = true /\ u32 (addr + PGSIZE * j) = addr + PGSIZE * j /\ s32 (PGSIZE * j + PGSIZE) = PGSIZE * (j + 1) /\ upage_ok (addr + PGSIZE * j) /\ turn addr size (j + 1) r.
Proof.
  intros (Ha & Hm & Hj & Hs & Hi & He). rewrite /turn /PGSIZE /PHYS_BASE /INT_MAX in Hm, Hs, Hi, He |- *. split_and!; try lia.
  - apply wrap_small. lia.
  - rewrite swrap_small; lia.
  - split; [lia|]. split; [apply Z.ltb_lt; rewrite /PHYS_BASE; lia|]. rewrite /PGSIZE. dlia.
Qed.
Lemma turn_first addr size : 0 < addr -> addr mod PGSIZE = 0 -> 0 < size <= INT_MAX - PGSIZE -> addr + size <= PHYS_BASE -> turn addr size 0 (pages_of size) /\ (pages_of size <= page_fuel size)%nat.
Proof. intros. rewrite /turn /pages_of /page_fuel. split; [split_and!; try done; try lia|]; rewrite /PGSIZE in H1 |- *; dlia. Qed.

Lemma free_loop_ok r : forall fuel n v tm m sm addr size j b, turn addr size j r -> (r <= fuel)%nat -> paged (S n) v tm m sm ->
  exists v', free_loop fuel v addr size (PGSIZE * j) b = Ok (b && forallb (fun i => bool_decide (m !! (running v, addr + PGSIZE * i) = None)) (seqZ j (Z.of_nat r)), v') /\
    paged (S n) v' tm m sm /\ running v' = running v /\ fl v' = fl v /\ dirs v' = dirs v.
Proof.
  induction r as [|r IH]; intros fuel n v tm m sm addr size j b Ht Hf H.
  { exists v. destruct fuel; cbn [free_loop]; rewrite (turn_end _ _ _ Ht) seqZ_nil // andb_true_r. all: by split_and!. }
  destruct fuel as [|fuel]; [lia|]. destruct (turn_next _ _ _ _ Ht) as (E1 & E2 & E3 & Hup & Ht'). cbn [free_loop]. rewrite E1 E2 E3 /spt_get_flag.
  destruct (spt_flag_law n (tb v) tm (running v) (addr + PGSIZE * j) (g_spt _ _ _ _ _ _ _ _ _ _ H)) as (t & -> & Hs); [by apply upage_ofs|]. cbn [obind].
  have H1 : paged (S n) (set_tb v t) tm m sm by apply (paged_tb _ _ _ _ _ _ _ _ _ _ _ _ H Hs).
  destruct (IH fuel n (set_tb v t) tm m sm addr size (j + 1) (if bool_decide (default SPTE_INVALID (eflag <$> tm !! (running v, addr + PGSIZE * j)) = SPTE_INVALID) then b else false) Ht') as (v' & -> & H' & Hr & Hfl & Hd); [lia|done|].
  exists v'. split_and!; try done. rewrite (flag_free _ _ _ _ _ _ _ _ _ _ H). rewrite (seqZ_cons j); [lia|]. cbn [forallb]. replace (Z.pred (Z.of_nat (S r))) with (Z.of_nat r) by lia. replace (Z.succ j) with (j + 1) by lia.
  cbn [running set_tb]. by destruct (bool_decide _), b.
Qed.

Lemma map_loop_ok r : forall fuel k v tm m sm addr size j a data, turn addr size j r -> (r <= fuel)%nat -> paged (S (r + k)) v tm m sm ->
  file_is (fl v) a data -> size = Z.of_nat (length data) -> (forall i, j <= i < j + Z.of_nat r -> m !! (running v, addr + PGSIZE * i) = None) ->
  exists t tm', map_loop fuel v addr a size (PGSIZE * j) = Ok (set_tb v t) /\ paged (S k) (set_tb v t) tm' (mapped (running v) addr data r j m) sm.
Proof.
  induction r as [|r IH]; intros fuel k v tm m sm addr size j a data Ht Hf H Ha Hsz Hm.
  { exists (tb v), tm. have -> : set_tb v (tb v) = v by destruct v. destruct fuel; cbn [map_loop]; by rewrite (turn_end _ _ _ Ht). }
  destruct fuel as [|fuel]; [lia|]. destruct (turn_next _ _ _ _ Ht) as (E1 & E2 & E3 & Hup & Ht'). destruct (upage_ofs _ Hup) as [Ho H0]. destruct Ht as (_ & _ & Hj & _ & Hi & _). apply Z.ltb_lt in E1 as Hlt.
  destruct (spt_set_law (S (r + k)) (tb v) tm (running v) (addr + PGSIZE * j) a SPTE_FILE true (g_spt _ _ _ _ _ _ _ _ _ _ H)) as (t1 & pos & Es & Hs1); [done..|].
  destruct (spt_seek_law (r + k) t1 _ (running v) (addr + PGSIZE * j) _ (PGSIZE * j) Hs1 Ho (lookup_insert_eq _ _ _)) as (t2 & Ek & Hs2); [rewrite /PGSIZE; lia|]. rewrite insert_insert_eq in Hs2. cbn [ref eflag writable] in Hs2.
  have Hpos : 0 <= PGSIZE * j by rewrite /PGSIZE; lia. set e := mk_entry a (PGSIZE * j) SPTE_FILE true. set key := (running v, addr + PGSIZE * j).
  have H1 : paged (S (r + k)) (set_tb v t2) (<[key := e]> tm) (<[key := page_of data (PGSIZE * j)]> m) sm.
  { eapply paged_add; [exact H|apply (g_run _ _ _ _ _ _ _ _ _ _ H)|done|apply Hm; lia|done|exact Hs2|apply length_page_of; lia|].
    exists data. split_and!; try done; [simpl; lia|]. rewrite -Hsz. rewrite /PGSIZE in Hi. lia. }
  cbn [map_loop]. rewrite E1 E2 Es. cbn [obind]. rewrite Ek. cbn [obind]. rewrite E3. cbn [mapped].
  destruct (IH fuel k (set_tb v t2) (<[key := e]> tm) (<[key := page_of data (PGSIZE * j)]> m) sm addr size (j + 1) a data Ht') as (t & tm' & E & H'); try done; [lia| |].
  - intros i Hir. cbn [running set_tb]. rewrite lookup_insert_ne; [intros [= E]; rewrite /PGSIZE in E; lia|]. apply Hm. lia.
  - exists t, tm'. done.
Qed.

(** ** Taking the pages away *)
Lemma ft_remove_ok n v tm m sm i : paged n v tm m sm -> 0 <= i < cnt v -> exists r l, ft_remove v (kaddr v i) = Ok (r, set_ft v l) /\ paged n (set_ft v l) tm m sm.
Proof.
  intros H Hi. destruct (kaddr_ok _ _ _ _ _ _ _ _ _ _ H i Hi) as (Hkm & Hk & _). have Hlen := g_len _ _ _ _ _ _ _ _ _ _ H. have Hlk := g_lock _ _ _ _ _ _ _ _ _ _ H.
  destruct (lookup_lt_is_Some_2 (ft v) (Z.to_nat i)) as [e He]; [lia|]. rewrite /ft_remove pg_ofs_mod Hkm /is_kernel_vaddr (proj2 (Z.leb_le _ _) (proj1 Hk)) /acquire_ft Hlk. cbn [Z.eqb ASSERT obind negb].
  rewrite /ft_entry. change (ft_index (set_ft_lock v true) (kaddr v i)) with (ft_index v (kaddr v i)). rewrite ft_index_kaddr. destruct (Z.ltb_spec i 0); [lia|]. change (ft (set_ft_lock v true)) with (ft v). rewrite He. cbn [oget obind].
  rewrite /ft_put. change (ft_index (set_ft_lock v true) (kaddr v i)) with (ft_index v (kaddr v i)). rewrite ft_index_kaddr /release_ft. cbn [ft_lock set_ft set_ft_lock ASSERT obind].
  eexists _, (<[Z.to_nat i := mk_fte (f_kpage e) (f_pid e) (f_upage e) false (pinned e)]> (ft v)). split; [rewrite /set_ft /set_ft_lock /=; by rewrite Hlk|].
  apply paged_ft; [done|]. apply Forall2_same_length_lookup. split; [by rewrite length_insert|]. intros j x y Hx. have Hl := lookup_lt_Some _ _ _ He.
  destruct (decide (j = Z.to_nat i)) as [->|Hne]; [rewrite list_lookup_insert_eq //|rewrite list_lookup_insert_ne //]; intros Hy; [injection Hy as <-|]; rewrite ?He in Hx; simplify_eq; by split_and!.
Qed.

(** Clearing the mapping of a page whose contents are in its file. *)
Lemma clear_ok n v tm m sm pd va e w : paged n v tm m sm -> upage_ok va -> dirs v !! running v = Some pd -> tm !! (running v, va) = Some e -> eflag e = SPTE_FILE ->
  translate (ms v) pd va = Some w -> has w PTE_D = false ->
  exists i s', frame_of w = kaddr v i /\ pagedir_clear_page init_page_dir (ms v) pd va = Ok s' /\ Frame.paged init_page_dir init_ram_pages D false (Some i) n (set_ms v s') tm m sm /\ cnt (set_ms v s') = cnt v /\ kaddr (set_ms v s') i = kaddr v i /\ 0 <= i < cnt v /\
    forall va', user_page va' -> translate s' pd va' = if bool_decide (pg_no va' = pg_no va) then None else translate (ms v) pd va'.
Proof.
  intros H Hup Hd He Hfl Hw HD. destruct (g_mapped _ _ _ _ _ _ _ _ _ _ H _ _ _ _ Hd Hup Hw) as ([bs Hbs] & i & f & Hi & Hu & _ & Hf & Hp & Hva & Hk).
  destruct (g_page _ _ _ _ _ _ _ _ _ _ H _ _ _ _ He Hbs) as (_ & _ & pd' & Hd' & Hres). have ? : pd' = pd by congruence. subst pd'. rewrite Hw in Hres. destruct Hres as [_ Hb]. rewrite Hfl in Hb. have Hbk := Hb HD.
  have H1 := paged_lock _ _ _ _ _ _ _ _ _ _ true H. have Hid : <[(f_pid f, f_upage f) := e]> tm = tm by apply insert_id; rewrite Hp Hva.
  destruct (unmap_ok init_page_dir init_ram_pages D n n (set_ft_lock v true) tm m sm i f e bs (sw v) (tb v) sm H1 Hi Hu Hf) as (pd' & s' & Hd2 & Ec & Hto & _ & H2); try done.
  - by rewrite Hp Hva.
  - apply H.
  - rewrite Hid. apply H.
  - intros Hs. congruence.
  - rewrite Hp in Hd2. have ? : pd' = pd by simpl in Hd2; congruence. subst pd'. rewrite Hva in Ec. exists i, s'. destruct Hto as [Hus _ _ _]. split; [done|]. split; [exact Ec|].
    rewrite Hid in H2. have H3 := paged_lock _ _ _ _ _ _ _ _ _ _ false H2. have Hlk := g_lock _ _ _ _ _ _ _ _ _ _ H. split.
    { have -> : set_ms v s' = set_ft_lock (set_ms (set_tb (set_sw (set_ft_lock v true) (sw v)) (tb v)) s') false; [|exact H3]. by rewrite /set_ft_lock /set_ms /= Hlk. }
    split; [by rewrite /cnt /upool /= Hus|]. split; [by rewrite /kaddr /upool /= Hus|]. split; [lia|]. destruct (g_dirs _ _ _ _ _ _ _ _ _ _ H _ _ Hd) as [HpD _]. intros va' Hu'.
    destruct (clear_page_ok init_page_dir D (ms v) pd va (g_coh _ _ _ _ _ _ _ _ _ _ H) HpD (upage_user _ Hup)) as (s2 & E2 & _ & _ & Ht); [apply Hup|]. have Es : s' = s2 by simpl in Ec; congruence. rewrite Es Ht //.
    have -> : bool_decide (pd = pd /\ pg_no va' = pg_no va) = bool_decide (pg_no va' = pg_no va); [|done]. apply bool_decide_ext. tauto.
Qed.
(** One page that has not been written to. *)
Definition clean v (pd va : Z) : Prop := forall w, translate (ms v) pd va = Some w -> has w PTE_D = false.
Lemma unmap_page_ok junk n v tm m sm pd va e file : paged (S n) v tm m sm -> upage_ok va -> dirs v !! running v = Some pd -> tm !! (running v, va) = Some e -> eflag e = SPTE_FILE -> clean v pd va ->
  exists v', unmap_page init_page_dir junk v pd file va = Ok v' /\ paged (S n) v' (delete (running v, va) tm) (delete (running v, va) m) sm /\ running v' = running v /\ dirs v' = dirs v /\ fl v' = fl v /\
    forall va', upage_ok va' -> clean v pd va' -> clean v' pd va'.
Proof.
  intros H Hup Hd He Hfl Hcl. destruct (upage_ofs _ Hup) as [Ho H0]. destruct (g_dirs _ _ _ _ _ _ _ _ _ _ H _ _ Hd) as [HpD _]. have Hua := upage_user _ Hup. have Hact : active (ms v) = pd by have := g_run _ _ _ _ _ _ _ _ _ _ H; congruence.
  (* the entry goes *)
  have Hend : forall v1, paged (S n) v1 tm m sm -> running v1 = running v -> dirs v1 = dirs v -> fl v1 = fl v -> translate (ms v1) pd va = None -> (forall va', upage_ok va' -> clean v pd va' -> clean v1 pd va') ->
    exists v', (let! (_, t) := vm_spt_remove (tb v1) (running v1) va in Ok (set_tb v1 t)) = Ok v' /\ paged (S n) v' (delete (running v, va) tm) (delete (running v, va) m) sm /\ running v' = running v /\ dirs v' = dirs v /\ fl v' = fl v /\
      forall va', upage_ok va' -> clean v pd va' -> clean v' pd va'.
  { intros v1 H1 Hr1 Hd1 Hf1 Ht1 Hc1. destruct (spt_remove_law n (tb v1) tm (running v1) va e (g_spt _ _ _ _ _ _ _ _ _ _ H1) Ho) as (t & -> & Hs); [by rewrite Hr1|]. cbn [obind]. rewrite Hr1 in Hs. eexists. split; [done|]. split; [|done].
    eapply paged_del; [exact H1|by rewrite Hd1|done|done|done]. }
  rewrite /unmap_page. have Eg := get_page_spec _ _ D _ (mk_ctx v 1 0 0) _ _ _ va H Hua. rewrite /get_page /= Hd /= Hact Ho in Eg. rewrite Eg. cbn [obind]. destruct (translate (ms v) pd va) as [w|] eqn:Hw; last first.
  { rewrite Z.eqb_refl. cbn [negb]. rewrite /spt_get_flag. destruct (spt_flag_law n (tb v) tm (running v) va (g_spt _ _ _ _ _ _ _ _ _ _ H) Ho) as (t & -> & Hs). rewrite He. cbn [obind fmap option_fmap option_map default]. rewrite Hfl bool_decide_eq_false_2 //.
    cbn [obind]. apply Hend; try done. apply (paged_tb _ _ _ _ _ _ _ _ _ _ _ _ H Hs). }
  have HDw := Hcl w Hw. destruct (clear_ok _ _ _ _ _ _ _ _ _ H Hup Hd He Hfl Hw HDw) as (i & s' & Hk & Ec & H2 & Hcnt & Hka & Hi & Ht).
  destruct (kaddr_ok _ _ _ _ _ _ _ _ _ _ H i Hi) as (_ & Hkp & _). rewrite Z.add_0_r Hk (proj2 (Z.eqb_neq _ 0)); [rewrite /PHYS_BASE in Hkp; lia|]. cbn [negb].
  rewrite /pagedir_is_dirty (pagedir_is_ok D _ _ _ _ w) //; [apply (g_coh _ _ _ _ _ _ _ _ _ _ H)|]. rewrite HDw. cbn [obind]. rewrite Ec. cbn [obind].
  destruct (falloc_free_frame_ok init_page_dir init_ram_pages D i _ _ _ _ _ H2) as (v3 & E3 & H3 & Kv & Fo & _). rewrite Hka in E3. rewrite E3. cbn [obind].
  destruct Kv as [Kd Kr Kf Kt Kb Kc Kn]. destruct (ft_remove_ok _ _ _ _ _ i H3) as (r & l & E4 & H4); [by rewrite Kc Hcnt|].
  have Hka3 : kaddr v3 i = kaddr v i by rewrite /kaddr Kb. rewrite Hka3 in E4. rewrite E4. cbn [obind].
  have Htr : forall va', user_page va' -> translate (ms v3) pd va' = translate s' pd va'.
  { intros va' Hu'. destruct Fo as [_ _ _ Hm]. apply (frames_translate D (ms (set_ms v s'))); try done. apply (g_coh _ _ _ _ _ _ _ _ _ _ H2). }
  apply Hend; try done.
  - simpl. rewrite Htr // Ht // bool_decide_eq_true_2 //.
  - intros va' Hu' Hc' w' Hw'. simpl in Hw'. rewrite Htr in Hw'; [by apply upage_user|]. rewrite Ht in Hw'; [by apply upage_user|]. case_bool_decide; [done|]. by apply Hc'.
Qed.

Lemma unmap_loop_ok junk r : forall fuel n v tm m sm addr size j pd file, turn addr size j r -> (r <= fuel)%nat -> paged (S n) v tm m sm -> dirs v !! running v = Some pd ->
  (forall i, j <= i < j + Z.of_nat r -> (exists e, tm !! (running v, addr + PGSIZE * i) = Some e /\ eflag e = SPTE_FILE) /\ clean v pd (addr + PGSIZE * i)) ->
  exists v' tm', unmap_loop init_page_dir junk fuel v pd file addr size (PGSIZE * j) = Ok v' /\ paged (S n) v' tm' (unmapped (running v) addr r j m) sm.
Proof.
  induction r as [|r IH]; intros fuel n v tm m sm addr size j pd file Ht Hf H Hd He.
  { exists v, tm. destruct fuel; cbn [unmap_loop]; by rewrite (turn_end _ _ _ Ht). }
  destruct fuel as [|fuel]; [lia|]. destruct (turn_next _ _ _ _ Ht) as (E1 & E2 & E3 & Hup & Ht'). cbn [unmap_loop]. rewrite E1 E2. destruct (He j) as [(e & Hej & Hfl) Hcl]; [lia|].
  destruct (unmap_page_ok junk n v tm m sm pd _ e file H Hup Hd Hej Hfl Hcl) as (v1 & -> & H1 & Hr1 & Hd1 & _ & Hc1). cbn [obind]. rewrite E3.
  have Hall : forall i, j + 1 <= i < j + 1 + Z.of_nat r -> upage_ok (addr + PGSIZE * i) /\ addr + PGSIZE * i <> addr + PGSIZE * j.
  { intros i Hi. split; [|rewrite /PGSIZE; lia]. destruct Ht as (Ha & Hm & Hj & Hs & _ & Hend). rewrite /PGSIZE in Hm, Hs |- *. split; [lia|]. split; [apply Z.ltb_lt; lia|]. rewrite /PGSIZE. dlia. }
  destruct (IH fuel n v1 _ _ sm addr size (j + 1) pd file Ht' ltac:(lia) H1) as (v' & tm' & E & H'); [by rewrite Hr1 Hd1| |].
  - intros i Hi. destruct (Hall i Hi) as [Hui Hne]. destruct (He i) as [(ei & Hei & Hfi) Hci]; [lia|]. split; [|by apply Hc1]. exists ei. split; [|done]. rewrite Hr1 lookup_delete_ne //. intros [= Eq]. lia.
  - exists v', tm'. rewrite Hr1 in H'. done.
Qed.
End mapping.


(** C20: removing a mapping.  When the descriptor of mapping [id] is still open and still is
    its file ([munmap_after_close] is about the other case) and none of its pages has been
    written to, whether they have been loaded into frames or not, [munmap] takes exactly the
    pages of the file away from the process and frees the record; the contents of all other
    pages stay as they are. *)
Theorem munmap_correct {T F : Type} {spt_ops : SptOps T} {spt_rem : SptRemove T} {file_ops : FileOps F} {map_ops : MapOps F}
    {spt_laws : SptTable T} {rem_laws : SptRemoveLaw T} {file_laws : FileLaws F} {map_laws : MapLaws F}
    (init_page_dir init_ram_pages : Z) (D : gset Z) (junk : list Z) (s : mm T F) (tm : gmap (Z * Z) entry) (m : gmap (Z * Z) (list Z)) (sm : gmap Z (list Z)) (n : nat)
    (data : list Z) (id block addr fd p : Z) (kern' : kernel) :
  paged init_page_dir init_ram_pages D false None (S n) (m_vm s) tm m sm -> 0 < m_sema s ->
  thread_remove_map id (m_kern s) = Ok (Some block, kern') -> maps s !! block = Some (addr, fd) -> thread_get_file fd kern' = Ok (Some p) ->
  file_is (fl (m_vm s)) p data -> 0 < Z.of_nat (length data) <= INT_MAX - PGSIZE -> 0 < addr -> addr mod PGSIZE = 0 -> addr + Z.of_nat (length data) <= PHYS_BASE ->
  let me := running (m_vm s) in let pages i := 0 <= i < Z.of_nat (pages_of (Z.of_nat (length data))) in
  (forall i, pages i -> (exists e, tm !! (me, addr + PGSIZE * i) = Some e /\ eflag e = SPTE_FILE) /\ clean (m_vm s) (active (ms (m_vm s))) (addr + PGSIZE * i)) ->
  exists v' tm' m', munmap init_page_dir junk s id = Ok (mk_mm v' (m_sema s) kern' (delete block (maps s))) /\
    paged init_page_dir init_ram_pages D false None (S n) v' tm' m' sm /\
    (forall i, pages i -> m' !! (me, addr + PGSIZE * i) = None) /\
    forall key, (forall i, pages i -> key <> (me, addr + PGSIZE * i)) -> m' !! key = m !! key.
Proof.
  intros H Hs Hrm Hmap Hget Hfile Hlen H0 Hm Hend me pages Hcl. set size := Z.of_nat (length data) in Hlen, Hend, pages, Hcl |- *. have Hrun := g_run _ _ _ _ _ _ _ _ _ _ H.
  have Hl : vm_length (fl (m_vm s)) p = Ok size by apply length_law; [done|rewrite /INT_MAX /PGSIZE in Hlen |- *; lia].
  rewrite /munmap /pf_down (proj2 (Z.ltb_lt _ _) Hs). cbn [ASSERT obind m_kern with_sema]. rewrite Hrm. cbn [obind maps with_kern with_sema]. rewrite Hmap. cbn [oget obind m_kern with_kern]. rewrite Hget. cbn [obind length_of_file m_vm with_kern with_sema]. rewrite Hl. cbn [obind].
  rewrite (proj2 (Z.eqb_neq size 0)); [lia|]. cbn [oget obind m_vm with_maps with_kern with_sema]. rewrite Hrun. cbn [oget obind]. destruct (turn_first addr size) as [Ht Hfu]; [done..|].
  destruct (unmap_loop_ok init_page_dir init_ram_pages D junk (pages_of size) (page_fuel size) n (m_vm s) tm m sm addr size 0 _ p Ht Hfu H Hrun Hcl) as (v' & tm' & E & H'). rewrite E. cbn [obind].
  exists v', tm', (unmapped me addr (pages_of size) 0 m). split; [rewrite /pf_up /with_vm /with_maps /with_kern /with_sema /=; do 2 f_equal; lia|]. split; [done|]. split; [intros i Hi; by apply unmapped_in|intros key Hk; by apply unmapped_out].
Qed.

(** When the descriptor has been closed in between, [munmap] frees the record of the mapping
    and leaves its pages where they are: what was written to them never reaches the file. *)
Theorem munmap_after_close {T F : Type} {spt_ops : SptOps T} {spt_rem : SptRemove T} {file_ops : FileOps F} {map_ops : MapOps F}
    (init_page_dir : Z) (junk : list Z) (s : mm T F) (id block addr fd : Z) (kern' : kernel) :
  0 < m_sema s -> thread_remove_map id (m_kern s) = Ok (Some block, kern') -> maps s !! block = Some (addr, fd) -> thread_get_file fd kern' = Ok None ->
  munmap init_page_dir junk s id = Ok (mk_mm (m_vm s) (m_sema s) kern' (delete block (maps s))).
Proof.
  intros Hs Hrm Hmap Hget. rewrite /munmap /pf_down (proj2 (Z.ltb_lt _ _) Hs). cbn [ASSERT obind m_kern with_sema]. rewrite Hrm. cbn [obind maps with_kern with_sema]. rewrite Hmap. cbn [oget obind m_kern with_kern]. rewrite Hget. cbn [obind length_of_file].
  rewrite Z.eqb_refl. rewrite /pf_up /with_maps /with_kern /with_sema /=. do 2 f_equal. lia.
Qed.

(** ** Instances: the hash table of Spt.v, and files that are plain lists *)
#[export] Instance table_remove (mem : Hash.hash -> bool) : SptRemove sptab := {| vm_spt_remove := spt_remove mem |}.
#[export] Instance table_remove_law (mem : Hash.hash -> bool) : SptRemoveLaw (H := table_ops mem) (H0 := table_spt mem) (SptRemove0 := table_remove mem) sptab.
Proof. split. intros n t m p va e H Ho He. destruct (spt_remove_ok mem n t m p va e H Ho He) as (t' & E & H'). exists t'. split; [exact E|]. by apply (spt_mono (SptTable := table_spt mem)). Qed.

#[export] Instance plain_maps : MapOps (gmap Z (list Z)) := {|
  vm_length f p := match f !! p with Some bs => Ok (Z.of_nat (length bs)) | None => Err Fault end;
  vm_reopen f p := match f !! p with Some bs => let a := fresh (dom f : gset Z) in Ok (Some a, <[a := bs]> f) | None => Err Fault end;
  vm_write_at f p bs pos := match f !! p with Some cs => Ok (Z.of_nat (length bs), <[p := take (Z.to_nat pos) cs ++ bs ++ drop (Z.to_nat pos + length bs) cs]> f) | None => Err Fault end |}.
#[export] Instance plain_maps_laws : MapLaws (gmap Z (list Z)).
Proof.
  split.
  - intros f p bs Hf _. simpl in *. by rewrite Hf.
  - intros f p bs Hf. simpl in *. rewrite Hf. set a := fresh (dom f : gset Z). have Ha : f !! a = None by apply not_elem_of_dom, is_fresh.
    exists a, (<[a := bs]> f). split; [done|]. split; [apply lookup_insert_eq|]. intros q cs Hq. rewrite lookup_insert_ne //. congruence.
Qed.

(** ** An example: process 4 has the file at 0x77 open as descriptor 3 *)
Definition ex_map_thread : thread := set_maps (Some (<[O := Some 0x500]> FdTable.zero_page)) (set_files (Some (<[3%nat := Some 0x77]> FdTable.zero_page)) ex_thread).
Definition ex_map_kernel : kernel := set_threads {[4096 := ex_map_thread]} FdTable.ex_kernel.
(** It has mapped the file at the page 0x8048000. *)
Definition ex_mm : mm sptab (gmap Z (list Z)) := mk_mm (ex_run 4) 1 ex_map_kernel {[0x500 := (0x8048000, 3)]}.

Abbreviation ex_mmap := (mmap (spt_ops := table_ops (fun _ => true))).

Lemma munmap_correct_witness : exists v' tm' m' kern', munmap (spt_ops := table_ops (fun _ => true)) (spt_rem := table_remove (fun _ => true)) 0xc0300000 [] ex_mm 0 = Ok (mk_mm v' 1 kern' (delete 0x500 {[0x500 := (0x8048000, 3)]})) /\
  paged (spt_laws := table_spt (fun _ => true)) 0xc0300000 4096 ex_frame_dirs false None 238 v' tm' m' ∅ /\ m' !! (4, 0x8048000) = None.
Proof.
  destruct ex_run_paged as [H Hr]. have [k' Hk] : exists k', thread_remove_map 0 ex_map_kernel = Ok (Some 0x500, k') /\ thread_get_file 3 k' = Ok (Some 0x77) by eexists; split; vm_compute; reflexivity. destruct Hk as [Hk Hg].
  destruct (munmap_correct (spt_laws := table_spt (fun _ => true)) (rem_laws := table_remove_law (fun _ => true)) 0xc0300000 4096 ex_frame_dirs [] ex_mm ex_tm ex_pages ∅ 237 ex_data 0 0x500 0x8048000 3 0x77 k') as (v' & tm' & m' & E & H' & Hin & _).
  - exact H.
  - reflexivity.
  - exact Hk.
  - reflexivity.
  - exact Hg.
  - reflexivity.
  - vm_compute. split; [reflexivity|discriminate].
  - reflexivity.
  - reflexivity.
  - vm_compute. discriminate.
  - intros i Hi. change (Z.of_nat (pages_of _)) with 1 in Hi. have -> : i = 0 by lia. change (running (m_vm ex_mm)) with (running (ex_run 4)). rewrite Hr. split; [exists (mk_entry 0x77 0 SPTE_FILE true); split; reflexivity|].
    intros w Hw. vm_compute in Hw. discriminate.
  - exists v', tm', m', k'. split; [exact E|]. split; [exact H'|]. have Hm := Hin 0 ltac:(vm_compute; split; [discriminate|reflexivity]). change (running (m_vm ex_mm)) with (running (ex_run 4)) in Hm. rewrite Hr in Hm. exact Hm.
Defined.
