(* ===== verification/Serial.v ===== *)
(** * devices/serial.c: the serial port

    Bytes to send wait in an interrupt queue (Intq.v); the interrupt of the UART sends
    them on and moves what it receives to the input buffer (Kbd.v).  Before interrupts
    are set up, and when they are off and the queue is full, bytes are sent by polling.
    The UART is a parameter: what its line status register and its receive register
    answer at each read; [wire] are the bytes it was given to send.

    The theorems: whatever threads and interrupts do, the bytes sent followed by the bytes
    in the queue are the bytes that [serial_putc] was called with, in order; the transmit
    interrupt is enabled as long as there are bytes to send and the receive interrupt
    as long as there is room; the interrupt handler returns, and empties the queue of a
    UART that is ready. *)
From S2P Require Import Prelude Intq Kbd.

Definition IO_BASE : Z := 0x3f8.
Definition THR_REG : Z := IO_BASE + 0.
Definition IER_REG : Z := IO_BASE + 1.
Definition LS_REG : Z := IO_BASE + 0.
Definition MS_REG : Z := IO_BASE + 1.
Definition FCR_REG : Z := IO_BASE + 2.
Definition LCR_REG : Z := IO_BASE + 3.
Definition MCR_REG : Z := IO_BASE + 4.
Definition IER_RECV : Z := 0x01.
Definition IER_XMIT : Z := 0x02.
Definition LCR_N81 : Z := 0x03.
Definition LCR_DLAB : Z := 0x80.
Definition MCR_OUT2 : Z := 0x08.
Definition LSR_DR : Z := 0x01.
Definition LSR_THRE : Z := 0x20.

Inductive tx_mode := UNINIT | POLL | QUEUE.
#[export] Instance tx_mode_eq_dec : EqDecision tx_mode.
Proof. solve_decision. Defined.

(** [rx] is the buffer of devices/input.c, [ier] the last value of the interrupt enable
    register, [setup] what was written to the others; [polls] and [recvs] count the
    reads of the status and the receive register. *)
Record serial := mk_serial { mode : tx_mode; txq : state; rx : state; wire : list Z; ier : Z; setup : list (Z * Z); polls : nat; recvs : nat }.
Implicit Types s : serial.
Definition set_mode s m := mk_serial m (txq s) (rx s) (wire s) (ier s) (setup s) (polls s) (recvs s).
Definition set_txq s x := mk_serial (mode s) x (rx s) (wire s) (ier s) (setup s) (polls s) (recvs s).
Definition set_rx s x := mk_serial (mode s) (txq s) x (wire s) (ier s) (setup s) (polls s) (recvs s).
Definition send s b := mk_serial (mode s) (txq s) (rx s) (wire s ++ [b]) (ier s) (setup s) (polls s) (recvs s).
Definition outb s (port b : Z) := mk_serial (mode s) (txq s) (rx s) (wire s) (ier s) (setup s ++ [(port, b)]) (polls s) (recvs s).
(** A write to [IER_REG]. *)
Definition outb_ier s (b : Z) := mk_serial (mode s) (txq s) (rx s) (wire s) b (setup s) (polls s) (recvs s).

Section serial.
Context (lsr rbr : nat -> Z).
Definition inb_lsr s : Z * serial := (lsr (polls s), mk_serial (mode s) (txq s) (rx s) (wire s) (ier s) (setup s) (S (polls s)) (recvs s)).
Definition inb_rbr s : Z * serial := (rbr (recvs s), mk_serial (mode s) (txq s) (rx s) (wire s) (ier s) (setup s) (polls s) (S (recvs s))).

Definition write_ier s : serial :=
  let i := if negb (intq_empty (q (txq s))) then IER_XMIT else 0 in
  let i := if negb (input_full (rx s)) then Z.lor i IER_RECV else i in
  outb_ier s i.

Fixpoint putc_poll (fuel : nat) s (byte : Z) : outcome serial :=
  match fuel with
  | O => Err NoFuel
  | S fuel => let (l, s) := inb_lsr s in if Z.land l LSR_THRE =? 0 then putc_poll fuel s byte else Ok (send s byte)
  end.

Definition set_serial s (bps : Z) : outcome serial :=
  let base_rate := 1843200 / 16 in
  let divisor := wrap 16 (base_rate / bps) in
  assert! (300 <=? bps) && (bps <=? 115200) in
  let s := outb s LCR_REG (Z.lor LCR_N81 LCR_DLAB) in
  let s := outb s LS_REG (Z.land divisor 0xff) in
  let s := outb s MS_REG (Z.shiftr divisor 8) in
  Ok (outb s LCR_REG LCR_N81).

Definition init_poll s : outcome serial :=
  assert! bool_decide (mode s = UNINIT) in
  let s := outb (outb_ier s 0) FCR_REG 0 in
  let! s := set_serial s 9600 in
  let s := outb s MCR_REG MCR_OUT2 in
  Ok (set_mode (set_txq s (set_q (intq_init (buf (q (txq s)))) (txq s))) POLL).

Definition serial_init_queue s : outcome serial :=
  let! s := if bool_decide (mode s = UNINIT) then init_poll s else Ok s in
  assert! bool_decide (mode s = POLL) in
  Ok (write_ier (set_mode s QUEUE)).

(** [intq_getc (&txq)] where the queue is not empty. *)
Definition txq_getc (who : option Z) s : outcome (Z * serial) :=
  let! (e, x) := intq_getc who (txq s) in
  match e with Some (Got b) => Ok (b, set_txq s x) | _ => Err Panic end.

(** [serial_putc] by thread [who], or a handler; [on] is whether interrupts were on.  The
    result [false]: the thread sleeps in [intq_putc]. *)
Definition serial_putc (fuel : nat) (who : option Z) (on : bool) s (byte : Z) : outcome (bool * serial) :=
  if bool_decide (mode s = QUEUE) then
    let! s := if negb on && intq_full (q (txq s)) then let! (b, s) := txq_getc who s in putc_poll fuel s b else Ok s in
    let! (e, x) := intq_putc who byte (txq s) in
    let s := set_txq s x in
    match e with Some _ => Ok (true, write_ier s) | None => Ok (false, s) end
  else
    let! s := if bool_decide (mode s = UNINIT) then init_poll s else Ok s in
    let! s := putc_poll fuel s byte in Ok (true, s).
(** The thread goes on in [intq_putc]. *)
Definition serial_putc_goes_on (a : action) s : outcome (bool * serial) :=
  let! (e, x) := exec a (txq s) in
  let s := set_txq s x in
  match e with Some _ => Ok (true, write_ier s) | None => Ok (false, s) end.

Fixpoint serial_flush (n fuel : nat) (who : option Z) s : outcome serial :=
  if intq_empty (q (txq s)) then Ok s else
  match n with O => Err NoFuel | S n => let! (b, s) := txq_getc who s in let! s := putc_poll fuel s b in serial_flush n fuel who s end.

Definition serial_notify s : serial := if bool_decide (mode s = QUEUE) then write_ier s else s.

(** [input_putc] of devices/input.c with its [serial_notify]. *)
Definition input_putc_notify (key : Z) s : outcome serial :=
  let! x := input_putc key (rx s) in Ok (serial_notify (set_rx s x)).

(** The loops of [serial_interrupt]. *)
Fixpoint receive_loop (n : nat) s : outcome serial :=
  if input_full (rx s) then Ok s else
  let (l, s) := inb_lsr s in
  if Z.land l LSR_DR =? 0 then Ok s else
  match n with
  | O => Err NoFuel
  | S n => let (b, s) := inb_rbr s in let! s := input_putc_notify b s in receive_loop n s
  end.
Fixpoint transmit_loop (n : nat) s : outcome serial :=
  if intq_empty (q (txq s)) then Ok s else
  let (l, s) := inb_lsr s in
  if Z.land l LSR_THRE =? 0 then Ok s else
  match n with O => Err NoFuel | S n => let! (b, s) := txq_getc None s in transmit_loop n (send s b) end.
Definition serial_interrupt (n : nat) s : outcome serial :=
  let! s := receive_loop n s in
  let! s := transmit_loop n s in
  Ok (write_ier s).

(** [input_getc] of devices/input.c with its [serial_notify]. *)
Definition input_getc_notify (t : Z) s : outcome (option event * serial) :=
  let! (e, x) := input_getc t (rx s) in
  let s := set_rx s x in
  match e with Some _ => Ok (e, serial_notify s) | None => Ok (None, s) end.
(** The thread goes on in [intq_getc]. *)
Definition input_getc_goes_on (a : action) s : outcome (option event * serial) :=
  let! (e, x) := exec a (rx s) in
  let s := set_rx s x in
  match e with Some _ => Ok (e, serial_notify s) | None => Ok (None, s) end.


(** ** Everything that happens to the port *)
(** A thread that can call: it is not inside the queue [x]. *)
Definition outside (who : option Z) (x : state) : Prop := match who with Some t => procs x !! t = None | None => True end.

(** One uninterrupted section, with the byte that a call of [serial_putc] finished with. *)
Inductive step : serial -> list Z -> serial -> Prop :=
| step_putc fuel who on b (d : bool) s s' : outside who (txq s) -> serial_putc fuel who on s b = Ok (d, s') -> step s (if d then [b] else []) s'
| step_resume t b (d : bool) s s' : procs (txq s) !! t = Some (Woken (Put b)) -> serial_putc_goes_on (Resume t) s = Ok (d, s') -> step s (if d then [b] else []) s'
| step_lock t b (d : bool) s s' : procs (txq s) !! t = Some (At_lock (Put b)) -> lock (q (txq s)) = None -> serial_putc_goes_on (Lock t) s = Ok (d, s') -> step s (if d then [b] else []) s'
| step_init s s' : serial_init_queue s = Ok s' -> step s [] s'
| step_flush n fuel who s s' : outside who (txq s) -> serial_flush n fuel who s = Ok s' -> step s [] s'
| step_interrupt n s s' : mode s = QUEUE -> serial_interrupt n s = Ok s' -> step s [] s'
| step_key c s s' : input_putc_notify c s = Ok s' -> step s [] s'
| step_getc t e s s' : procs (rx s) !! t = None -> input_getc_notify t s = Ok (e, s') -> step s [] s'
| step_getc_goes_on a e s s' : enabled a (rx s) -> input_getc_goes_on a s = Ok (e, s') -> step s [] s'.
Inductive steps : serial -> list Z -> serial -> Prop :=
| steps_nil s : steps s [] s
| steps_more s bs s1 b s2 : steps s bs s1 -> step s1 b s2 -> steps s (bs ++ b) s2.
End serial.

(** The state at boot: the static variables are zero, and [input_init] has run. *)
Definition at_boot : serial := mk_serial UNINIT (mk_state (intq_init (replicate 64 0)) ∅) (input_init (replicate 64 0)) [] 0 [] 0 0.

(** ** The invariant *)
(** [sent] are the bytes of the calls that have finished. *)
Record sinv s (sent : list Z) : Prop := {
  v_tx : inv (txq s);
  v_rx : inv (rx s);
  v_sent : wire s ++ contents (q (txq s)) = sent;
  v_ier : mode s = QUEUE -> (intq_empty (q (txq s)) = false -> Z.testbit (ier s) 1 = true) /\ Z.testbit (ier s) 0 = negb (input_full (rx s));
  v_poll : mode s <> QUEUE -> contents (q (txq s)) = [] /\ procs (txq s) = ∅ }.

(** What is left of it while a section runs: the register is behind. *)
Record sinv_data s (sent : list Z) : Prop := {
  d_tx : inv (txq s);
  d_rx : inv (rx s);
  d_sent : wire s ++ contents (q (txq s)) = sent;
  d_mode : mode s = QUEUE }.

Lemma sinv_data_of s sent : sinv s sent -> mode s = QUEUE -> sinv_data s sent.
Proof. by intros [] ?. Qed.
Lemma write_ier_ok s sent : sinv_data s sent -> sinv (write_ier s) sent.
Proof.
  intros [H1 H2 H3 H4]. split; try done; rw /write_ier /=.
  intros _. split.
  - intros He. rw He. by destruct (input_full (rx s)).
  - by destruct (intq_empty (q (txq s))), (input_full (rx s)).
Qed.
Lemma notify_ok s sent : sinv s sent \/ sinv_data s sent -> forall x, inv x -> sinv (serial_notify (set_rx s x)) sent.
Proof.
  intros H x Hx. rw /serial_notify /=. case_bool_decide as Hm.
  - apply write_ier_ok. destruct H as [[]|[]]; by split.
  - destruct H as [[]|[]]; by split.
Qed.
(** The input buffer has changed without more or less room. *)
Lemma rx_same s sent x : sinv s sent -> inv x -> contents (q x) = contents (q (rx s)) -> sinv (set_rx s x) sent.
Proof.
  intros [H1 H2 H3 H4 H5] Hx Hc. split; try done. intros Hm. destruct (H4 Hm) as [? H6]. split; [done|]. cbn [set_rx rx ier]. rw H6. f_equal.
  have Hl := f_equal length Hc. rw /contents !length_fmap !length_seq in Hl. rw /input_full !full_count; [apply H2|apply Hx|]. by rw Hl.
Qed.
Lemma empty_contents x : qwf x -> intq_empty x = bool_decide (contents x = []).
Proof.
  intros Hx. rw empty_count //. apply bool_decide_ext. rw /contents. split; [by intros ->|]. intros H. have Hl := f_equal length H.
  by rw length_fmap length_seq in Hl.
Qed.
(** The transmit queue has changed without becoming empty. *)
Lemma txq_same s sent x : sinv s sent -> mode s = QUEUE -> inv x -> contents (q x) = contents (q (txq s)) -> sinv (set_txq s x) sent.
Proof.
  intros [H1 H2 H3 H4 H5] Hm Hx Hc. split; try done; [by rw /= Hc|]. intros _. destruct (H4 Hm) as [H6 ?]. split; [|done]. cbn [set_txq txq ier].
  rw (empty_contents (q x)); [apply Hx|]. rw Hc -empty_contents; [apply H1|]. done.
Qed.

(** ** The operations *)
Lemma leave_outside t x : procs x !! t = None -> leave t x = x.
Proof. intros H. destruct x as [y m]. rw /leave /=. f_equal. by apply delete_id. Qed.
(** Who is not inside the queue and need not wait runs as a handler does, and is not inside it afterwards. *)
Lemma run_outside who o x : inv x -> outside who x -> blocked o (q x) = false -> run who o x = run None o x.
Proof.
  intros Hi Ho Hb. destruct who as [t|]; [|done]. rw run_leave //; rw leave_outside //.
Qed.
Lemma run_outside_after who o x e y : run who o x = Ok (Some e, y) -> outside who y.
Proof.
  rw /run. destruct (blocked o (q x)).
  - destruct who as [t|]; [|done]. destruct (lock (q x)); [done|]. rw /wait. by destruct (blocked o _).
  - destruct who as [t|]; [|done]. intros H. apply obind_Ok_inv in H as ([e' z] & _ & H). injection H as _ <-. by rw /outside /= lookup_delete_eq.
Qed.

Lemma run_put_event who b x e y : run who (Put b) x = Ok (e, y) -> e = None \/ e = Some (Did_put b).
Proof.
  rw /run. destruct (blocked _ _).
  - destruct who as [t|]; [|done]. destruct (lock (q x)); [by intros [= <- _]; left|]. intros H. inv_ok. by left.
  - intros H. apply obind_Ok_inv in H as ([e' z] & Hs & H). injection H as <- _. rw /intq_store in Hs. apply obind_Ok_inv in Hs as (z' & _ & Hs). injection Hs as <- _. by right.
Qed.

Section serial_ok.
Context (lsr rbr : nat -> Z).
Lemma putc_poll_wire fuel s b s' : putc_poll lsr fuel s b = Ok s' ->
  mode s' = mode s /\ txq s' = txq s /\ rx s' = rx s /\ ier s' = ier s /\ wire s' = wire s ++ [b].
Proof.
  revert s. induction fuel as [|fuel IH]; intros s; [done|]. cbn [putc_poll inb_lsr]. destruct (_ =? 0); [|by intros [= <-]].
  by intros H%IH.
Qed.
(** [intq_getc] by whoever is not inside the queue. *)
Lemma txq_getc_ok who s : inv (txq s) -> outside who (txq s) -> intq_empty (q (txq s)) = false ->
  exists b x, txq_getc who s = Ok (b, set_txq s x) /\ inv x /\ contents (q (txq s)) = b :: contents (q x) /\ outside who x.
Proof.
  intros Hi Ho He. rw /txq_getc /intq_getc. destruct (run who Get (txq s)) as [[e x]|er] eqn:Hr.
  - have Hr' := Hr. rw run_outside // /run /= He in Hr'. destruct (intq_take_ok _ Hi He) as (b & y & E & Hx & Hc). rw E in Hr'. injection Hr' as <- <-.
    cbn [obind]. exists b, y. split_and!; try done. by apply (run_outside_after who Get (txq s) (Got b)).
  - exfalso. rw run_outside // /run /= He in Hr. destruct (intq_take_ok _ Hi He) as (b & y & E & Hx & Hc). by rw E in Hr.
Qed.
(** The oldest byte goes from the queue to the wire: the register need not change. *)
Lemma sent_ok s sent b x p w : sinv s sent -> intq_empty (q (txq s)) = false -> inv x -> contents (q (txq s)) = b :: contents (q x) ->
  sinv (mk_serial (mode s) x (rx s) (wire s ++ [b]) (ier s) (setup s) p w) sent.
Proof.
  intros [H1 H2 H3 H4 H5] He Hx Hc. split; cbn [txq rx wire mode ier]; try done.
  - by rw -H3 Hc -app_assoc.
  - intros Hm. destruct (H4 Hm) as [H6 ?]. split; [|done]. intros _. by apply H6.
  - intros Hm. destruct (H5 Hm) as [Hn _]. congruence.
Qed.
Lemma sinv_queue s sent : sinv s sent -> intq_empty (q (txq s)) = false -> mode s = QUEUE.
Proof.
  intros H He. destruct (decide (mode s = QUEUE)) as [|Hn]; [done|]. destruct (v_poll _ _ H Hn) as [Hc _].
  rw empty_contents ?Hc // in He. apply (v_tx _ _ H).
Qed.
Lemma getc_poll_ok fuel who s sent b s1 s' : sinv s sent -> outside who (txq s) -> intq_empty (q (txq s)) = false ->
  txq_getc who s = Ok (b, s1) -> putc_poll lsr fuel s1 b = Ok s' -> sinv s' sent /\ outside who (txq s') /\ mode s' = QUEUE.
Proof.
  intros Hs Ho He Ht Hp. have Hm := sinv_queue _ _ Hs He. destruct (txq_getc_ok who s (v_tx _ _ Hs) Ho He) as (b' & x & E & Hx & Hc & Ho'). rw E in Ht. injection Ht as <- <-.
  destruct (putc_poll_wire _ _ _ _ Hp) as (P1 & P2 & P3 & P4 & P5). cbn [set_txq mode txq rx ier wire] in P1, P2, P3, P4, P5. split_and!; [|by rw P2|congruence].
  have := sent_ok s sent b' x (polls s') (recvs s') Hs He Hx Hc. destruct s'. cbn in P1, P2, P3, P4, P5 |- *. subst. intros []. by split.
Qed.
(** A byte is put in the queue, or its thread waits. *)
Lemma put_step a b s sent e x : sinv_data s sent -> enabled a (txq s) -> exec a (txq s) = Ok (e, x) ->
  (e = None \/ e = Some (Did_put b)) ->
  inv x /\ match e with Some _ => sinv_data (set_txq s x) (sent ++ [b]) | None => contents (q x) = contents (q (txq s)) end.
Proof.
  intros [H1 H2 H3 H4] Hen Hx He. destruct (intq_exec_ok a _ H1 Hen) as [(e' & y & E & Hi & Ht)|(E & _)]; [|congruence].
  have [Ee Ey] : e' = e /\ y = x by split; congruence. subst e' y. split; [done|]. destruct He as [-> | ->]; [done|]. split; try done. by rw /= Ht app_assoc H3.
Qed.
(** What follows [intq_putc] in [serial_putc]. *)
Lemma put_finish a b s sent d s' e x : sinv s sent -> mode s = QUEUE -> enabled a (txq s) -> exec a (txq s) = Ok (e, x) ->
  (e = None \/ e = Some (Did_put b)) ->
  match e with Some _ => Ok (true, write_ier (set_txq s x)) | None => Ok (false, set_txq s x) end = Ok (d, s') ->
  sinv s' (sent ++ if d then [b] else []).
Proof.
  intros Hs Hm Hen Hx He H. destruct (put_step a b s sent e x (sinv_data_of _ _ Hs Hm) Hen Hx He) as [Hi Hd].
  destruct e as [e|]; injection H as <- <-; [by apply write_ier_ok|]. rw app_nil_r. by apply txq_same.
Qed.
Lemma init_poll_ok s sent s' : sinv s sent -> init_poll s = Ok s' -> sinv s' sent /\ mode s' = POLL.
Proof.
  intros [H1 H2 H3 H4 H5] H. rw /init_poll in H. case_bool_decide as Hm; [|done]. injection H as <-. split; [|done]. destruct H5 as [Hc Hp]; [by rw Hm|]. rw Hc app_nil_r in H3.
  have Hx : inv (set_q (intq_init (buf (q (txq s)))) (txq s)). { rw /set_q Hp. apply inv_init, H1. }
  split; try done; cbn. by rw app_nil_r.
Qed.
Lemma serial_putc_ok fuel who on b s sent d s' : sinv s sent -> outside who (txq s) -> serial_putc lsr fuel who on s b = Ok (d, s') ->
  sinv s' (sent ++ if d then [b] else []).
Proof.
  intros Hs Ho H. rw /serial_putc in H. case_bool_decide as Hm.
  - apply obind_Ok_inv in H as (s1 & H0 & H). apply obind_Ok_inv in H as ([e x] & Hx & H).
    have [Hs1 [Ho1 Hm1]] : sinv s1 sent /\ outside who (txq s1) /\ mode s1 = QUEUE.
    { destruct (negb on && intq_full (q (txq s))) eqn:Hf; [|by injection H0 as <-]. apply andb_true_iff in Hf as [_ Hf].
      apply obind_Ok_inv in H0 as ([b' s2] & Ht & Hp). apply (getc_poll_ok fuel who s sent b' s2 s1 Hs Ho); [|done|done].
      have Hw := i_wf _ (v_tx _ _ Hs). rw full_count // in Hf. apply bool_decide_eq_true in Hf. rw empty_count // Hf //. }
    have Hev := run_put_event _ _ _ _ _ Hx. destruct who as [t|].
    + by apply (put_finish (Call t (Put b)) b s1 sent d s' e x Hs1 Hm1).
    + apply (put_finish (Intr (Put b)) b s1 sent d s' e x Hs1 Hm1); try done. rw /intq_putc /run in Hx. rw /enabled. by destruct (blocked _ _).
  - apply obind_Ok_inv in H as (s1 & H0 & H). apply obind_Ok_inv in H as (s2 & Hp & H). injection H as <- <-.
    have [Hs1 Hm1] : sinv s1 sent /\ mode s1 <> QUEUE.
    { case_bool_decide as Hu; [|by injection H0 as <-]. destruct (init_poll_ok _ _ _ Hs H0) as [? ->]. done. }
    destruct Hs1 as [H1 H2 H3 H4 H5]. destruct (H5 Hm1) as [Hc Hpr]. rw Hc app_nil_r in H3. destruct (putc_poll_wire _ _ _ _ Hp) as (P1 & P2 & P3 & P4 & P5).
    split; rw ?P1 ?P2 ?P3 ?P4 ?P5 //. by rw Hc app_nil_r H3.
Qed.
Lemma serial_flush_ok n fuel who s sent s' : sinv s sent -> outside who (txq s) -> serial_flush lsr n fuel who s = Ok s' ->
  sinv s' sent /\ contents (q (txq s')) = [].
Proof.
  revert s. induction n as [|n IH]; intros s Hs Ho H; cbn [serial_flush] in H; destruct (intq_empty (q (txq s))) eqn:He; try done.
  1,2: injection H as <-; (split; [done|]); rw empty_contents in He; [apply (v_tx _ _ Hs)|]; by apply bool_decide_eq_true in He.
  apply obind_Ok_inv in H as ([b s1] & Ht & H). apply obind_Ok_inv in H as (s2 & Hp & H).
  destruct (getc_poll_ok fuel who s sent b s1 s2 Hs Ho He Ht Hp) as (Hs2 & Ho2 & _). by apply (IH s2).
Qed.
Lemma putc_notify_ok c s sent : sinv s sent -> input_full (rx s) = false ->
  exists s', input_putc_notify c s = Ok s' /\ sinv s' sent /\ mode s' = mode s /\ contents (q (rx s')) = contents (q (rx s)) ++ [c].
Proof.
  intros Hs Hf. destruct (put_ok (mk_kbd (held false false) 0 (rx s)) c (v_rx _ _ Hs) Hf) as (x & E & Hx & Hc). cbn [buffer] in E, Hc.
  rw /input_putc_notify E. cbn [obind]. eexists. split; [done|]. split; [by apply notify_ok; auto|]. rw /serial_notify. by case_bool_decide.
Qed.
Lemma full_contents x : qwf x -> intq_full x = bool_decide (length (contents x) = 63%nat).
Proof. intros Hx. by rw full_count // /contents length_fmap length_seq. Qed.
(** The reads of the status register do not matter. *)
Lemma sinv_reads s sent p r : sinv s sent -> sinv (mk_serial (mode s) (txq s) (rx s) (wire s) (ier s) (setup s) p r) sent.
Proof. by intros []. Qed.

(** The first loop of the handler ends when the buffer has no room or the UART no byte; it adds to the input buffer only. *)
Lemma receive_loop_ok n s sent : sinv s sent ->
  match receive_loop lsr rbr n s with
  | Ok s' => sinv s' sent /\ mode s' = mode s /\ txq s' = txq s /\ exists new, contents (q (rx s')) = contents (q (rx s)) ++ new
  | Err _ => (n + length (contents (q (rx s))) < 63)%nat
  end.
Proof.
  revert s. induction n as [|n IH]; intros s Hs; cbn [receive_loop inb_lsr]; destruct (input_full (rx s)) eqn:Hf.
  1,3: split_and!; try done; exists []; by rw app_nil_r.
  all: destruct (_ =? 0); [split_and!; [by apply sinv_reads|done|done|exists []; by rw app_nil_r]|].
  - have Hb := count_bound (q (rx s)). rw /input_full full_contents in Hf; [apply (v_rx _ _ Hs)|]. apply bool_decide_eq_false in Hf.
    rw /contents length_fmap length_seq in Hf |- *. lia.
  - cbn [inb_rbr mode txq rx wire ier setup polls recvs].
    set s1 := mk_serial _ _ _ _ _ _ _ _. destruct (putc_notify_ok (rbr (recvs s)) s1 sent) as (s2 & E & Hs2 & Hm & Hc); [by apply sinv_reads|done|].
    rw E. cbn [obind]. specialize (IH s2 Hs2). have Ht : txq s2 = txq s.
    { rw /input_putc_notify in E. inv_ok. rw /serial_notify. by case_bool_decide. }
    destruct (receive_loop lsr rbr n s2) as [s'|e].
    + destruct IH as (? & Hm2 & ? & new & Hn). split_and!; [done|by rw Hm2 Hm|congruence|]. exists (rbr (recvs s) :: new). by rw Hn Hc -app_assoc.
    + rw Hc length_app /= in IH. change (rx s1) with (rx s) in IH. lia.
Qed.
(** The second ends when the queue is empty or the UART is not ready. *)
Lemma transmit_loop_ok n s sent : sinv s sent ->
  match transmit_loop lsr n s with
  | Ok s' => sinv s' sent /\ mode s' = mode s /\ rx s' = rx s /\ ((forall i, Z.land (lsr i) LSR_THRE <> 0) -> contents (q (txq s')) = [])
  | Err _ => (n < length (contents (q (txq s))))%nat
  end.
Proof.
  revert s. induction n as [|n IH]; intros s Hs; cbn [transmit_loop inb_lsr]; destruct (intq_empty (q (txq s))) eqn:He.
  1,3: split_and!; try done; intros _; rw empty_contents in He; [apply (v_tx _ _ Hs)|]; by apply bool_decide_eq_true in He.
  all: destruct (Z.eqb_spec (Z.land (lsr (polls s)) LSR_THRE) 0) as [Hz|Hz]; [split_and!; [by apply sinv_reads|done|done|by intros Hr; destruct (Hr (polls s))]|].
  all: pose s1 := mk_serial (mode s) (txq s) (rx s) (wire s) (ier s) (setup s) (S (polls s)) (recvs s); fold s1; destruct (txq_getc_ok None s1) as (b & x & E & Hx & Hc & _); [apply (v_tx _ _ Hs)|done|done|].
  all: change (contents (q (txq s))) with (contents (q (txq s1))).
  - rw Hc /=. lia.
  - rw E. cbn [obind]. have Hs2 := sent_ok s1 sent b x (polls s1) (recvs s1) (sinv_reads _ _ _ _ Hs) He Hx Hc.
    change (mk_serial _ _ _ _ _ _ _ _) with (send (set_txq s1 x) b) in Hs2. specialize (IH _ Hs2).
    destruct (transmit_loop lsr n (send (set_txq s1 x) b)) as [s'|e]; [done|]. rw Hc. simpl in IH |- *. lia.
Qed.
Lemma serial_interrupt_ok n s sent : sinv s sent -> mode s = QUEUE ->
  match serial_interrupt lsr rbr n s with
  | Ok s' => sinv s' sent /\ mode s' = QUEUE /\ (exists new, contents (q (rx s')) = contents (q (rx s)) ++ new) /\
      ((forall i, Z.land (lsr i) LSR_THRE <> 0) -> contents (q (txq s')) = [] /\ wire s' = sent)
  | Err _ => (n < 63)%nat
  end.
Proof.
  intros Hs Hm. rw /serial_interrupt. have H1 := receive_loop_ok n s sent Hs. destruct (receive_loop lsr rbr n s) as [s1|e]; [|simpl; lia].
  destruct H1 as (Hs1 & Hm1 & Ht1 & new & Hn). cbn [obind]. have H2 := transmit_loop_ok n s1 sent Hs1.
  destruct (transmit_loop lsr n s1) as [s2|e]; [|have Hb := count_bound (q (txq s1)); rw /contents length_fmap length_seq in H2; simpl; lia].
  destruct H2 as (Hs2 & Hm2 & Hr2 & Hw). cbn [obind]. split_and!.
  - apply write_ier_ok, sinv_data_of; [done|congruence].
  - rw /write_ier /=. congruence.
  - exists new. by rw /write_ier /= Hr2.
  - intros Hr. specialize (Hw Hr). rw /write_ier /=. split; [done|]. have := v_sent _ _ Hs2. by rw Hw app_nil_r.
Qed.

(** A section of [input_getc]. *)
Lemma rx_step a s sent e x : sinv s sent -> enabled a (rx s) -> exec a (rx s) = Ok (e, x) ->
  sinv (match e with Some _ => serial_notify (set_rx s x) | None => set_rx s x end) sent.
Proof.
  intros Hs Hen Hx. destruct (intq_exec_ok a _ (v_rx _ _ Hs) Hen) as [(e' & y & E & Hi & Ht)|(E & _)]; [|congruence].
  have [Ee Ey] : e' = e /\ y = x by split; congruence. subst e' y. destruct e as [e|]; [by apply notify_ok; auto|by apply rx_same].
Qed.

(** ** Every step *)
Lemma steps_one s bs s' sent : step lsr rbr s bs s' -> sinv s sent -> sinv s' (sent ++ bs).
Proof.
  destruct 1 as [fuel who on b d s s' Ho E|t b d s s' Hp E|t b d s s' Hp Hl E|s s' E|n fuel who s s' Ho E|n s s' Hm E|c s s' E|t e s s' Hp E|a e s s' Hen E]; intros Hs; rw ?app_nil_r.
  - by apply (serial_putc_ok fuel who on b s sent d s').
  - have Hm : mode s = QUEUE. { destruct (decide (mode s = QUEUE)) as [|Hn]; [done|]. destruct (v_poll _ _ Hs Hn) as [_ He]. by rw He in Hp. }
    rw /serial_putc_goes_on in E. apply obind_Ok_inv in E as ([e x] & Hx & E). apply (put_finish (Resume t) b s sent d s' e x); try done; [by eexists|].
    simpl in Hx. rw Hp in Hx. apply obind_Ok_inv in Hx as (_ & _ & Hx). by apply run_put_event in Hx.
  - have Hm : mode s = QUEUE. { destruct (decide (mode s = QUEUE)) as [|Hn]; [done|]. destruct (v_poll _ _ Hs Hn) as [_ He]. by rw He in Hp. }
    rw /serial_putc_goes_on in E. apply obind_Ok_inv in E as ([e x] & Hx & E). apply (put_finish (Lock t) b s sent d s' e x); try done; [by split; [eexists|]|].
    simpl in Hx. rw Hp in Hx. left. by inv_ok.
  - rw /serial_init_queue in E. apply obind_Ok_inv in E as (s1 & H1 & E). case_bool_decide as Hm; [|done]. injection E as <-.
    have Hs1 : sinv s1 sent. { destruct (bool_decide _); [by destruct (init_poll_ok _ _ _ Hs H1)|by injection H1 as <-]. }
    apply write_ier_ok. by destruct Hs1.
  - by destruct (serial_flush_ok n fuel who s sent s' Hs Ho E).
  - have := serial_interrupt_ok n s sent Hs Hm. rw E. by intros [? _].
  - destruct (input_full (rx s)) eqn:Hf; [rw /input_putc_notify /input_putc in E; rw /input_full in Hf; by rw Hf in E|].
    destruct (putc_notify_ok c s sent Hs Hf) as (s2 & E' & ? & _). congruence.
  - rw /input_getc_notify in E. apply obind_Ok_inv in E as ([e' x] & Hx & E).
    have := rx_step (Call t Get) s sent e' x Hs Hp Hx. by destruct e'; injection E as _ <-.
  - rw /input_getc_goes_on in E. apply obind_Ok_inv in E as ([e' x] & Hx & E).
    have := rx_step a s sent e' x Hs Hen Hx. by destruct e'; injection E as _ <-.
Qed.
Lemma at_boot_inv : sinv at_boot [].
Proof. split; try done; by apply inv_init. Qed.
Lemma steps_inv bs s : steps lsr rbr at_boot bs s -> sinv s bs.
Proof.
  remember at_boot as s0 eqn:E0. induction 1 as [s0|s0 bs s1 b s2 Hr IH Hst]; [subst; apply at_boot_inv|].
  apply (steps_one _ _ _ _ Hst). by apply IH.
Qed.
End serial_ok.

(** C34: serial output keeps its order and is not lost.  Whatever threads, [input_getc],
    keyboard and serial interrupts and [serial_flush] do, with any UART: the bytes given to the
    UART followed by those in the queue are the bytes of the finished calls of [serial_putc],
    in order.  In interrupt mode the transmit interrupt is enabled while a byte waits and the
    receive interrupt exactly while the input buffer has room; the handler returns, and with a
    UART that is ready every byte has then been sent. *)
Theorem serial_port_correct (lsr rbr : nat -> Z) (bs : list Z) s :
  steps lsr rbr at_boot bs s ->
  wire s ++ contents (q (txq s)) = bs /\
  (mode s = QUEUE ->
   (intq_empty (q (txq s)) = false -> Z.testbit (ier s) 1 = true) /\ Z.testbit (ier s) 0 = negb (input_full (rx s)) /\
   exists s', serial_interrupt lsr rbr 63 s = Ok s' /\ wire s' ++ contents (q (txq s')) = bs /\
     ((forall i, Z.land (lsr i) LSR_THRE <> 0) -> wire s' = bs)).
Proof.
  intros Hst. have Hs := steps_inv _ _ _ _ Hst. split; [apply Hs|]. intros Hm. destruct (v_ier _ _ Hs Hm) as [Hx Hr]. split_and!; [done|done|]. clear Hx Hr.
  have H := serial_interrupt_ok lsr rbr 63 s bs Hs Hm. destruct (serial_interrupt lsr rbr 63 s) as [s'|e]; [|lia].
  destruct H as (Hs' & _ & _ & Hw). exists s'. split_and!; [done|apply Hs'|]. intros Hr. by apply Hw.
Qed.
(** Two bytes are queued, of which the first is sent by polling before there are interrupts. *)
Lemma serial_port_correct_witness : exists s s', steps (fun _ => 0x20) (fun _ => 0) at_boot [65; 66; 67] s /\ contents (q (txq s)) = [66; 67] /\ ier s = 3 /\
  serial_interrupt (fun _ => 0x20) (fun _ => 0) 63 s = Ok s' /\ wire s' = [65; 66; 67].
Proof.
  assert (H : exists s, steps (fun _ => 0x20) (fun _ => 0) at_boot [65; 66; 67] s /\ contents (q (txq s)) = [66; 67] /\ ier s = 3 /\ mode s = QUEUE).
  { eexists. split_and!.
    - eapply (steps_more _ _ _ [65; 66]).
      + eapply (steps_more _ _ _ [65]).
        * eapply (steps_more _ _ _ [65] _ []).
          { eapply (steps_more _ _ _ []); [apply steps_nil|]. eapply (step_putc _ _ 1 (Some 7) false 65 true); [|vm_compute; reflexivity]. done. }
          eapply step_init. vm_compute; reflexivity.
        * eapply (step_putc _ _ 1 None false 66 true); [|vm_compute; reflexivity]. done.
      + eapply (step_putc _ _ 1 (Some 7) true 67 true); [|vm_compute; reflexivity]. reflexivity.
    - vm_compute; reflexivity.
    - reflexivity.
    - reflexivity. }
  destruct H as (s & Hst & Hc & Hi & Hm). destruct (serial_port_correct _ _ _ s Hst) as [_ H]. destruct (H Hm) as (_ & _ & s' & E & _ & Hw).
  exists s, s'. split_and!; [exact Hst|exact Hc|exact Hi|exact E|]. apply Hw. intros i. discriminate.
Defined.

(** Polling ends once the UART is ready, and sends the byte. *)
Lemma putc_poll_returns (lsr : nat -> Z) (k : nat) s b : Z.land (lsr (polls s + k)%nat) LSR_THRE <> 0 -> exists s', putc_poll lsr (S k) s b = Ok s' /\ wire s' = wire s ++ [b].
Proof.
  revert s. induction k as [|k IH]; intros s Hr; cbn [putc_poll inb_lsr]; destruct (Z.eqb_spec (Z.land (lsr (polls s)) LSR_THRE) 0) as [Hz|Hz]; try by eexists.
  - by rw Nat.add_0_r in Hr.
  - refine (IH (inb_lsr lsr s).2 _). cbn. by rw -Nat.add_succ_r.
Qed.
(** [serial_flush] with a ready UART returns when all bytes have been sent. *)
Lemma serial_flush_returns (lsr rbr : nat -> Z) (bs : list Z) who s : (forall i, Z.land (lsr i) LSR_THRE <> 0) ->
  sinv s bs -> outside who (txq s) -> exists s', serial_flush lsr 63 1 who s = Ok s' /\ wire s' = bs.
Proof.
  intros Hr Hs Ho. have Hl : (length (contents (q (txq s))) <= 63)%nat by (rw /contents length_fmap length_seq; have := count_bound (q (txq s)); lia).
  revert s Hs Ho Hl. generalize 63%nat. intros n. induction n as [|n IH]; intros s Hs Ho Hl; cbn [serial_flush]; destruct (intq_empty (q (txq s))) eqn:He.
  1,3: exists s; (split; [done|]); rw empty_contents in He; [apply (v_tx _ _ Hs)|]; apply bool_decide_eq_true in He; have := v_sent _ _ Hs; by rw He app_nil_r.
  all: destruct (txq_getc_ok who s (v_tx _ _ Hs) Ho He) as (b & x & E & Hx & Hc & Ho'); rw Hc in Hl; simpl in Hl. 1: lia.
  rw E. cbn [obind]. destruct (putc_poll_returns lsr 0 (set_txq s x) b) as (s2 & E2 & _); [apply Hr|]. rw E2. cbn [obind].
  destruct (getc_poll_ok lsr 1 who s bs b _ s2 Hs Ho He E E2) as (Hs2 & Ho2 & _). apply IH; [done..|].
  destruct (putc_poll_wire _ _ _ _ _ E2) as (_ & -> & _). simpl. lia.
Qed.
