(* ===== verification/Ide.v ===== *)
(** * devices/ide.c: the ATA disks

    The driver talks to a controller through ports; the ports are an interface ([Ports]),
    and [Ata] states what the code relies on of a controller with two disks that follows
    the PIO protocols of ATA-3.  [sema_down] waits for the interrupt of the channel and
    runs [interrupt_handler].

    The theorems: on such a controller, any sequence of [ide_read] and [ide_write] on both
    disks of a channel returns what a plain array of sectors would return, and leaves on the
    disks what it would hold; a disk that does not answer in time makes the transfer panic;
    [descramble_ata_string] gives back the text that the disk had padded and swapped. *)
From S2P Require Import Prelude StdLib Block.

(** ** The ports *)
(** [insw] and [outsw] transfer 16-bit words.  [sleep] lets so many nanoseconds pass;
    [interrupt] lets time pass until the interrupt comes, [None] when it never does. *)
Class Ports (hw : Type) := {
  inb : Z -> hw -> Z * hw;
  outb : Z -> Z -> hw -> hw;
  insw : Z -> nat -> hw -> list Z * hw;
  outsw : Z -> list Z -> hw -> hw;
  sleep : Z -> hw -> hw;
  interrupt : Z -> hw -> option hw }.

Definition STA_BSY : Z := 0x80.
Definition STA_DRDY : Z := 0x40.
Definition STA_DRQ : Z := 0x08.
Definition CTL_SRST : Z := 0x04.
Definition DEV_MBS : Z := 0xa0.
Definition DEV_LBA : Z := 0x40.
Definition DEV_DEV : Z := 0x10.
Definition CMD_IDENTIFY_DEVICE : Z := 0xec.
Definition CMD_READ_SECTOR_RETRY : Z := 0x20.
Definition CMD_WRITE_SECTOR_RETRY : Z := 0x30.

(** [d->channel] is the channel that has the disk. *)
Record ata_disk := mk_disk { d_name : string; dev_no : Z; is_ata : bool }.
Record channel := mk_channel {
  c_name : string; reg_base : Z; irq : Z; lock : bool; expecting_interrupt : bool; completion_wait : Z; devices : list ata_disk }.
Definition CHANNEL_CNT : nat := 2.

Definition reg_data (c : channel) : Z := reg_base c + 0.
Definition reg_error (c : channel) : Z := reg_base c + 1.
Definition reg_nsect (c : channel) : Z := reg_base c + 2.
Definition reg_lbal (c : channel) : Z := reg_base c + 3.
Definition reg_lbam (c : channel) : Z := reg_base c + 4.
Definition reg_lbah (c : channel) : Z := reg_base c + 5.
Definition reg_device (c : channel) : Z := reg_base c + 6.
Definition reg_status (c : channel) : Z := reg_base c + 7.
Definition reg_command (c : channel) : Z := reg_status c.
Definition reg_ctl (c : channel) : Z := reg_base c + 0x206.
Definition reg_alt_status (c : channel) : Z := reg_ctl c.

Definition set_lock (c : channel) (b : bool) : channel := mk_channel (c_name c) (reg_base c) (irq c) b (expecting_interrupt c) (completion_wait c) (devices c).
Definition set_expecting (c : channel) (b : bool) : channel := mk_channel (c_name c) (reg_base c) (irq c) (lock c) b (completion_wait c) (devices c).
Definition set_completion (c : channel) (n : Z) : channel := mk_channel (c_name c) (reg_base c) (irq c) (lock c) (expecting_interrupt c) n (devices c).
Definition set_device (c : channel) (i : nat) (d : ata_disk) : channel := mk_channel (c_name c) (reg_base c) (irq c) (lock c) (expecting_interrupt c) (completion_wait c) (<[i := d]> (devices c)).
Definition set_is_ata (d : ata_disk) (b : bool) : ata_disk := mk_disk (d_name d) (dev_no d) b.

(** What is printed. *)
Inductive msg := Idle_timeout (d : string) | Busy_waiting (d : string) | Busy_ok | Busy_failed | Unexpected (c : string) | Ignoring (d : string) (bytes : Z).
(** The arguments of [block_register] for a disk. *)
Record found := mk_found { f_name : string; f_model : list Z; f_serial : list Z; f_capacity : Z }.

(** ** Words and bytes *)
(** Memory is little-endian. *)
Definition bytes_of_words (ws : list Z) : list Z := ws ≫= (fun w => [w mod 256; w / 256]).
Fixpoint words_of_bytes (bs : list Z) : list Z :=
  match bs with a :: b :: bs => (a + 256 * b) :: words_of_bytes bs | _ => [] end.

(** ** The text of IDENTIFY DEVICE *)
Fixpoint swap_pairs (l : list Z) : list Z := match l with a :: b :: l => b :: a :: swap_pairs l | _ => l end.
(** The second loop, from [size] down. *)
Fixpoint trim (l : list Z) (size : nat) : nat :=
  match size with O => O | S k => let c := l !!! k in if negb (c =? 0) && negb (isspace c) then size else trim l k end.
Definition descramble_ata_string (string : list Z) : list Z :=
  let string := swap_pairs string in
  <[trim string (length string - 1) := 0]> string.
(** What [%s] prints of it. *)
Fixpoint c_string (l : list Z) : list Z := match l with [] => [] | c :: l => if c =? 0 then [] else c :: c_string l end.

(** ** Low-level primitives *)
Section ide.
Context {hw : Type} {ports : Ports hw}.
(** The ports, and what has been printed. *)
Abbreviation io := (hw * list msg)%type.
Implicit Types (c : channel) (d : ata_disk) (w : io).
Definition out w (r v : Z) : io := (outb r v w.1, w.2).
Definition inp w (r : Z) : Z * io := let (v, h) := inb r w.1 in (v, (h, w.2)).
Definition nap w (ns : Z) : io := (sleep ns w.1, w.2).
Definition printf w (m : msg) : io := (w.1, w.2 ++ [m]).
Definition usec : Z := 1000.
Definition msec : Z := 1000000.

Fixpoint idle_loop (n : nat) c d w : io :=
  match n with
  | O => printf w (Idle_timeout (d_name d))
  | S n => let (v, w) := inp w (reg_status c) in if Z.land v (Z.lor STA_BSY STA_DRQ) =? 0 then w else idle_loop n c d (nap w (10 * usec))
  end.
Definition wait_until_idle c d w : io := idle_loop (Z.to_nat 1000) c d w.

Fixpoint busy_loop (n : nat) (i : Z) c d w : bool * io :=
  match n with
  | O => (false, printf w Busy_failed)
  | S n =>
    let w := if i =? 700 then printf w (Busy_waiting (d_name d)) else w in
    let (v, w) := inp w (reg_alt_status c) in
    if Z.land v STA_BSY =? 0 then
      let w := if 700 <=? i then printf w Busy_ok else w in
      let (v, w) := inp w (reg_alt_status c) in (negb (Z.land v STA_DRQ =? 0), w)
    else busy_loop n (i + 1) c d (nap w (10 * msec))
  end.
Definition wait_while_busy c d w : bool * io := busy_loop (Z.to_nat 3000) 0 c d w.

Definition select_device c d w : io :=
  let dev := if dev_no d =? 1 then Z.lor DEV_MBS DEV_DEV else DEV_MBS in
  let w := out w (reg_device c) dev in
  let (_, w) := inp w (reg_alt_status c) in
  nap w 400.
Definition select_device_wait c d w : io := wait_until_idle c d (select_device c d (wait_until_idle c d w)).

Definition select_sector c d (sec_no : Z) w : outcome io :=
  assert! sec_no <? 2 ^ 28 in
  let w := select_device_wait c d w in
  let w := out w (reg_nsect c) 1 in
  let w := out w (reg_lbal c) (u8 sec_no) in
  let w := out w (reg_lbam c) (u8 (Z.shiftr sec_no 8)) in
  let w := out w (reg_lbah c) (u8 (Z.shiftr sec_no 16)) in
  Ok (out w (reg_device c) (u8 (Z.lor (Z.lor (Z.lor DEV_MBS DEV_LBA) (if dev_no d =? 1 then DEV_DEV else 0)) (Z.shiftr sec_no 24)))).

Definition input_sector c w : list Z * io :=
  let (ws, h) := insw (reg_data c) (Z.to_nat (BLOCK_SECTOR_SIZE / 2)) w.1 in (bytes_of_words ws, (h, w.2)).
Definition output_sector c (sector : list Z) w : io :=
  (outsw (reg_data c) (words_of_bytes (take (Z.to_nat BLOCK_SECTOR_SIZE) sector)) w.1, w.2).

(** ** The channels *)
(** [level] is whether interrupts are on; [disks] the disks registered so far. *)
Record ide := mk_ide { channels : list channel; world : io; level : bool; disks : list found }.
Implicit Types s : ide.
Definition set_channel s (cn : nat) c : ide := mk_ide (<[cn := c]> (channels s)) (world s) (level s) (disks s).
Definition set_world s w : ide := mk_ide (channels s) w (level s) (disks s).
Definition get_channel s (cn : nat) : outcome channel := oget (channels s !! cn).
Definition get_device c (dn : nat) : outcome ata_disk := oget (devices c !! dn).

(** The loop of [interrupt_handler] from channel [cn]. *)
Fixpoint handler_loop (cs : list channel) (cn : nat) (vec_no : Z) s : outcome ide :=
  match cs with
  | [] => Err Panic
  | c :: cs =>
    if vec_no =? irq c then
      if expecting_interrupt c then
        let (_, w) := inp (world s) (reg_status c) in
        Ok (set_channel (set_world s w) cn (set_completion c (completion_wait c + 1)))
      else Ok (set_world s (printf (world s) (Unexpected (c_name c))))
    else handler_loop cs (S cn) vec_no s
  end.
Definition interrupt_handler (vec_no : Z) s : outcome ide := handler_loop (channels s) O vec_no s.

(** [sema_down (&c->completion_wait)].  [NoFuel]: the thread sleeps on. *)
Fixpoint sema_down (fuel : nat) (cn : nat) s : outcome ide :=
  let! c := get_channel s cn in
  if 0 <? completion_wait c then Ok (set_channel s cn (set_completion c (completion_wait c - 1))) else
  match fuel with
  | O => Err NoFuel
  | S fuel =>
    match interrupt (irq c) (world s).1 with
    | None => Err NoFuel
    | Some h => let! s := interrupt_handler (irq c) (set_world s (h, (world s).2)) in sema_down fuel cn s
    end
  end.

(** The lock of a channel, taken by the thread that runs. *)
Definition lock_acquire (cn : nat) s : outcome ide :=
  let! c := get_channel s cn in assert! negb (lock c) in Ok (set_channel s cn (set_lock c true)).
Definition lock_release (cn : nat) s : outcome ide :=
  let! c := get_channel s cn in assert! lock c in Ok (set_channel s cn (set_lock c false)).

Definition issue_pio_command (cn : nat) (command : Z) s : outcome ide :=
  assert! level s in
  let! c := get_channel s cn in
  let s := set_channel s cn (set_expecting c true) in
  Ok (set_world s (out (world s) (reg_command c) command)).

Definition ide_read (cn dn : nat) (sec_no : Z) s : outcome (list Z * ide) :=
  let! c := get_channel s cn in
  let! d := get_device c dn in
  let! s := lock_acquire cn s in
  let! w := select_sector c d sec_no (world s) in
  let! s := issue_pio_command cn CMD_READ_SECTOR_RETRY (set_world s w) in
  let! s := sema_down 1 cn s in
  let (ready, w) := wait_while_busy c d (world s) in
  if negb ready then Err Panic else
  let (buffer, w) := input_sector c w in
  let! s := lock_release cn (set_world s w) in
  Ok (buffer, s).

Definition ide_write (cn dn : nat) (sec_no : Z) (buffer : list Z) s : outcome ide :=
  let! c := get_channel s cn in
  let! d := get_device c dn in
  let! s := lock_acquire cn s in
  let! w := select_sector c d sec_no (world s) in
  let! s := issue_pio_command cn CMD_WRITE_SECTOR_RETRY (set_world s w) in
  let (ready, w) := wait_while_busy c d (world s) in
  if negb ready then Err Panic else
  let s := set_world s (output_sector c buffer w) in
  let! s := sema_down 1 cn s in
  lock_release cn s.

(** ** Detection *)
(** One round of the first loop of [reset_channel]. *)
Definition present c d w : bool * io :=
  let w := select_device c d w in
  let w := out (out w (reg_nsect c) 0x55) (reg_lbal c) 0xaa in
  let w := out (out w (reg_nsect c) 0xaa) (reg_lbal c) 0x55 in
  let w := out (out w (reg_nsect c) 0x55) (reg_lbal c) 0xaa in
  let (n, w) := inp w (reg_nsect c) in
  if n =? 0x55 then let (l, w) := inp w (reg_lbal c) in (l =? 0xaa, w) else (false, w).
Fixpoint slave_loop (n : nat) c w : io :=
  match n with
  | O => w
  | S n =>
    let (v, w) := inp w (reg_nsect c) in
    let (done, w) := if v =? 1 then let (l, w) := inp w (reg_lbal c) in (l =? 1, w) else (false, w) in
    if done then w else slave_loop n c (nap w (10 * msec))
  end.
Definition reset_channel (cn : nat) s : outcome ide :=
  let! c := get_channel s cn in
  let! d0 := get_device c 0 in
  let! d1 := get_device c 1 in
  let (present0, w) := present c d0 (world s) in
  let (present1, w) := present c d1 w in
  let w := nap (out w (reg_ctl c) 0) (10 * usec) in
  let w := nap (out w (reg_ctl c) CTL_SRST) (10 * usec) in
  let w := nap (out w (reg_ctl c) 0) (150 * msec) in
  let w := if present0 then (wait_while_busy c d0 (select_device c d0 w)).2 else w in
  let w := if present1 then (wait_while_busy c d1 (slave_loop (Z.to_nat 3000) c (select_device c d1 w))).2 else w in
  Ok (set_world s w).

Definition check_device_type (cn dn : nat) s : outcome (bool * ide) :=
  let! c := get_channel s cn in
  let! d := get_device c dn in
  let w := select_device c d (world s) in
  let (error, w) := inp w (reg_error c) in
  let (lbam, w) := inp w (reg_lbam c) in
  let (lbah, w) := inp w (reg_lbah c) in
  let (status, w) := inp w (reg_status c) in
  let s := set_world s w in
  if (negb (error =? 1) && (negb (error =? 0x81) || (dev_no d =? 1))) || (Z.land status STA_DRDY =? 0) || negb (Z.land status STA_BSY =? 0) then
    Ok (negb (error =? 0x81), set_channel s cn (set_device c dn (set_is_ata d false)))
  else
    Ok (true, set_channel s cn (set_device c dn (set_is_ata d (((lbam =? 0) && (lbah =? 0)) || ((lbam =? 0x3c) && (lbah =? 0xc3)))))).

(** [capacity = *(uint32_t * ) &id[60 * 2]]. *)
Definition le32 (l : list Z) (i : nat) : Z := l !!! i + 256 * (l !!! S i) + 65536 * (l !!! S (S i)) + 16777216 * (l !!! S (S (S i))).
Definition identify_ata_device (cn dn : nat) s : outcome ide :=
  let! c := get_channel s cn in
  let! d := get_device c dn in
  assert! is_ata d in
  let s := set_world s (select_device_wait c d (world s)) in
  let! s := issue_pio_command cn CMD_IDENTIFY_DEVICE s in
  let! s := sema_down 1 cn s in
  let! c := get_channel s cn in
  let (ready, w) := wait_while_busy c d (world s) in
  if negb ready then Ok (set_channel (set_world s w) cn (set_device c dn (set_is_ata d false))) else
  let (id, w) := input_sector c w in
  let s := set_world s w in
  let capacity := le32 id 120 in
  let model := descramble_ata_string (take 20 (drop 20 id)) in
  let serial := descramble_ata_string (take 40 (drop 54 id)) in
  if 1024 * 1024 * 1024 / BLOCK_SECTOR_SIZE <=? capacity then
    Ok (set_channel (set_world s (printf (world s) (Ignoring (d_name d) (u32 (capacity * 512))))) cn (set_device c dn (set_is_ata d false)))
  else Ok (mk_ide (channels s) (world s) (level s) (disks s ++ [mk_found (d_name d) (c_string model) (c_string serial) capacity])).

Definition new_channel (chan_no : nat) : channel :=
  match chan_no with
  | O => mk_channel "ide0" 0x1f0 (14 + 0x20) false false 0 [mk_disk "hda" 0 false; mk_disk "hdb" 1 false]
  | _ => mk_channel "ide1" 0x170 (15 + 0x20) false false 0 [mk_disk "hdc" 0 false; mk_disk "hdd" 1 false]
  end.
(** One round of the last loop of [ide_init]. *)
Definition identify_if (cn dn : nat) s : outcome ide :=
  let! c := get_channel s cn in
  let! d := get_device c dn in
  if is_ata d then identify_ata_device cn dn s else Ok s.
Definition init_channel (cn : nat) s : outcome ide :=
  let s := set_channel s cn (new_channel cn) in
  let! s := reset_channel cn s in
  let! (slave, s) := check_device_type cn 0 s in
  let! s := if slave then let! (_, s) := check_device_type cn 1 s in Ok s else Ok s in
  let! s := identify_if cn 0 s in
  identify_if cn 1 s.
Definition ide_init s : outcome ide := let! s := init_channel 0 s in init_channel 1 s.
End ide.
Arguments ide hw : clear implicits.

(** ** What the driver relies on: the PIO protocols of ATA-3 *)
(** Waiting for a command; fetching a sector; with a sector to be read from the data register;
    waiting until it can take a sector; storing one. *)
Inductive phase := Idle | Fetching (dev : bool) (lba : Z) | Data_in (words : list Z) | Wants_data (dev : bool) (lba : Z) | Storing (dev : bool) (lba : Z) (words : list Z).
(** The registers of the command block, the sectors of the two disks in words. *)
Record ata := mk_ata { nsect : Z; lbal : Z; lbam : Z; lbah : Z; device : Z; sectors : bool -> Z -> list Z; ph : phase }.
Definition set_ph (a : ata) (p : phase) : ata := mk_ata (nsect a) (lbal a) (lbam a) (lbah a) (device a) (sectors a) p.
Definition store (f : bool -> Z -> list Z) (dev : bool) (lba : Z) (ws : list Z) : bool -> Z -> list Z :=
  fun dev' lba' => if bool_decide (dev' = dev /\ lba' = lba) then ws else f dev' lba'.
Definition set_sectors (a : ata) (f : bool -> Z -> list Z) : ata := mk_ata (nsect a) (lbal a) (lbam a) (lbah a) (device a) f (ph a).
Definition write_nsect (a : ata) (v : Z) : ata := mk_ata v (lbal a) (lbam a) (lbah a) (device a) (sectors a) (ph a).
Definition write_lbal (a : ata) (v : Z) : ata := mk_ata (nsect a) v (lbam a) (lbah a) (device a) (sectors a) (ph a).
Definition write_lbam (a : ata) (v : Z) : ata := mk_ata (nsect a) (lbal a) v (lbah a) (device a) (sectors a) (ph a).
Definition write_lbah (a : ata) (v : Z) : ata := mk_ata (nsect a) (lbal a) (lbam a) v (device a) (sectors a) (ph a).
Definition write_device (a : ata) (v : Z) : ata := mk_ata (nsect a) (lbal a) (lbam a) (lbah a) v (sectors a) (ph a).
(** The disk and the sector that the registers name. *)
Definition dev_of (a : ata) : bool := Z.testbit (device a) 4.
Definition lba_of (a : ata) : Z := lbal a + 2 ^ 8 * lbam a + 2 ^ 16 * lbah a + 2 ^ 24 * Z.land (device a) 0x0f.
Definition one_sector (a : ata) : Prop := ph a = Idle /\ nsect a = 1 /\ Z.testbit (device a) 6 = true.

(** [view] is what the controller at [base] holds; [busy] how many more sleeps of 10 ms the
    disk needs before it can take a sector. *)
Class Ata (hw : Type) {ports : Ports hw} (base irq : Z) (view : hw -> ata) (busy : hw -> nat) : Prop := {
  at_idle h : ph (view h) = Idle -> exists v h', inb (base + 7) h = (v, h') /\ Z.land v (Z.lor STA_BSY STA_DRQ) = 0 /\ view h' = view h;
  at_alt h : exists v h', inb (base + 0x206) h = (v, h') /\ view h' = view h /\ busy h' = busy h;
  at_sleep h ns : ph (view h) = Idle -> view (sleep ns h) = view h;
  at_nsect h v : ph (view h) = Idle -> view (outb (base + 2) v h) = write_nsect (view h) v;
  at_lbal h v : ph (view h) = Idle -> view (outb (base + 3) v h) = write_lbal (view h) v;
  at_lbam h v : ph (view h) = Idle -> view (outb (base + 4) v h) = write_lbam (view h) v;
  at_lbah h v : ph (view h) = Idle -> view (outb (base + 5) v h) = write_lbah (view h) v;
  at_device h v : ph (view h) = Idle -> view (outb (base + 6) v h) = write_device (view h) v;
  (* READ SECTOR *)
  at_read h : one_sector (view h) -> view (outb (base + 7) CMD_READ_SECTOR_RETRY h) = set_ph (view h) (Fetching (dev_of (view h)) (lba_of (view h)));
  at_fetched h dev lba : ph (view h) = Fetching dev lba -> exists h', interrupt irq h = Some h' /\ view h' = set_ph (view h) (Data_in (sectors (view h) dev lba));
  at_ack h ws : ph (view h) = Data_in ws -> exists v h', inb (base + 7) h = (v, h') /\ view h' = view h;
  at_data h ws : ph (view h) = Data_in ws -> exists v h', inb (base + 0x206) h = (v, h') /\ Z.land v STA_BSY = 0 /\ Z.land v STA_DRQ <> 0;
  at_insw h ws : ph (view h) = Data_in ws -> exists h', insw base (length ws) h = (ws, h') /\ view h' = set_ph (view h) Idle;
  (* WRITE SECTOR *)
  at_write h : one_sector (view h) -> view (outb (base + 7) CMD_WRITE_SECTOR_RETRY h) = set_ph (view h) (Wants_data (dev_of (view h)) (lba_of (view h))) /\
    (busy (outb (base + 7) CMD_WRITE_SECTOR_RETRY h) < Z.to_nat 3000)%nat;
  at_wants h dev lba : ph (view h) = Wants_data dev lba -> exists v h', inb (base + 0x206) h = (v, h') /\
    if (busy h =? 0)%nat then Z.land v STA_BSY = 0 /\ Z.land v STA_DRQ <> 0 else Z.land v STA_BSY <> 0;
  at_nap h dev lba : ph (view h) = Wants_data dev lba -> view (sleep (10 * msec) h) = view h /\ busy (sleep (10 * msec) h) = pred (busy h);
  at_outsw h dev lba ws : ph (view h) = Wants_data dev lba -> busy h = O -> length ws = 256%nat -> view (outsw base ws h) = set_ph (view h) (Storing dev lba ws);
  at_stored h dev lba ws : ph (view h) = Storing dev lba ws -> exists h', interrupt irq h = Some h' /\ view h' = set_ph (set_sectors (view h) (store (sectors (view h)) dev lba ws)) Idle }.

(** ** Words and bytes *)
Definition word_ok (x : Z) : Prop := 0 <= x < 65536.
Definition byte_ok (x : Z) : Prop := 0 <= x < 256.
Lemma bytes_words ws : Forall word_ok ws -> words_of_bytes (bytes_of_words ws) = ws.
Proof. induction 1 as [|x ws Hx Hws IH]; [done|]. rw /bytes_of_words bind_cons /=. f_equal; [rw /word_ok in Hx; dlia|done]. Qed.
Lemma words_bytes (n : nat) bs : Forall byte_ok bs -> length bs = (2 * n)%nat ->
  bytes_of_words (words_of_bytes bs) = bs /\ length (words_of_bytes bs) = n /\ Forall word_ok (words_of_bytes bs).
Proof.
  revert bs. induction n as [|n IH]; intros bs Hb Hl; [by destruct bs|].
  destruct bs as [|a [|b bs]]; simpl in Hl; [lia|lia|]. apply Forall_cons in Hb as [Ha Hb]. apply Forall_cons in Hb as [Hb Hbs].
  destruct (IH bs Hbs ltac:(lia)) as (H1 & H2 & H3). cbn [words_of_bytes]. rw /bytes_of_words bind_cons /=. rw /byte_ok in Ha Hb. split_and!.
  - f_equal; [dlia|]. f_equal; [dlia|done].
  - by rw H2.
  - constructor; [rw /word_ok; lia|done].
Qed.
Lemma length_bytes ws : length (bytes_of_words ws) = (2 * length ws)%nat.
Proof. induction ws as [|x ws IH]; [done|]. rw /bytes_of_words bind_cons /=. rw /bytes_of_words in IH. rw IH. lia. Qed.

(** ** The primitives on such a controller *)
Section ata_ok.
Context {hw : Type} {ports : Ports hw} (base ir : Z) (view : hw -> ata) (busy : hw -> nat) {laws : Ata hw base ir view busy}.
Implicit Types (c : channel) (d : ata_disk) (w : hw * list msg) (s : ide hw).

(** The controller waits for a command, with these registers and sectors. *)
Definition idles w (a : ata) : Prop := view w.1 = a /\ ph a = Idle.

Lemma wait_until_idle_ok c d w a : reg_base c = base -> idles w a -> exists h, wait_until_idle c d w = (h, w.2) /\ idles (h, w.2) a.
Proof.
  intros Hc [Hv Hp]. destruct (at_idle w.1) as (v & h & E & Hz & Hh); [by rw Hv|]. exists h. rw /wait_until_idle (_ : Z.to_nat 1000 = S (Z.to_nat 999)); [lia|]. generalize (Z.to_nat 999) => n. cbn [idle_loop].
  rw /inp /reg_status Hc E Hz. cbn. split; [done|]. split; [by rw /= Hh|done].
Qed.
Lemma select_device_ok c d w a : reg_base c = base -> idles w a ->
  exists h, select_device c d w = (h, w.2) /\
    idles (h, w.2) (write_device a (if dev_no d =? 1 then Z.lor DEV_MBS DEV_DEV else DEV_MBS)).
Proof.
  intros Hc [Hv Hp]. rw /select_device /out /inp /nap /reg_device /reg_alt_status /reg_ctl Hc /=. set dev := if dev_no d =? 1 then _ else _.
  have Hd := @at_device _ _ _ _ _ _ laws w.1 dev ltac:(by rw Hv). destruct (at_alt (outb (base + 6) dev w.1)) as (v & h & E & Hh & _). rw E.
  eexists. split; [done|]. split; [|done]. cbn. rw at_sleep; rw Hh Hd Hv //.
Qed.
Lemma out_ok w a (r v : Z) (f : ata -> Z -> ata) : idles w a -> (forall h v, ph (view h) = Idle -> view (outb r v h) = f (view h) v) -> (forall a v, ph (f a v) = ph a) ->
  idles (out w r v) (f a v).
Proof. intros [Hv Hp] Hf Hi. split; [|by rw Hi]. rw /out /= Hf; by rw Hv. Qed.

(** The registers name the sector that was asked for. *)
Lemma sector_bytes (sec : Z) : 0 <= sec < 2 ^ 28 ->
  u8 sec + 2 ^ 8 * u8 (Z.shiftr sec 8) + 2 ^ 16 * u8 (Z.shiftr sec 16) + 2 ^ 24 * Z.shiftr sec 24 = sec.
Proof. intros H. rw /wrap !Z.shiftr_div_pow2 //. dlia. Qed.
Lemma device_reg (x : Z) (b : bool) : 0 <= x < 16 ->
  let v := u8 (Z.lor (Z.lor (Z.lor DEV_MBS DEV_LBA) (if b then DEV_DEV else 0)) x) in
  Z.land v 0x0f = x /\ Z.testbit v 4 = b /\ Z.testbit v 6 = true.
Proof.
  intros Hx. have [Hx1|[Hx1|[Hx1|Hx1]]] : x / 4 = 0 \/ x / 4 = 1 \/ x / 4 = 2 \/ x / 4 = 3 by dlia.
  all: have [Hx2|[Hx2|[Hx2|Hx2]]] : x mod 4 = 0 \/ x mod 4 = 1 \/ x mod 4 = 2 \/ x mod 4 = 3 by dlia.
  all: rw (Z.div_mod x 4) // Hx1 Hx2; by destruct b.
Qed.
Lemma select_sector_ok c d (sec : Z) w a : reg_base c = base -> 0 <= sec < 2 ^ 28 -> idles w a ->
  exists h, select_sector c d sec w = Ok (h, w.2) /\ one_sector (view h) /\ dev_of (view h) = (dev_no d =? 1) /\ lba_of (view h) = sec /\ sectors (view h) = sectors a.
Proof.
  intros Hc Hs Ha. rw /select_sector. rw (proj2 (Z.ltb_lt _ _)); [lia|]. cbn [ASSERT obind]. rw /select_device_wait.
  destruct (wait_until_idle_ok c d w a Hc Ha) as (h1 & -> & H1). destruct (select_device_ok c d _ _ Hc H1) as (h2 & -> & H2).
  destruct (wait_until_idle_ok c d _ _ Hc H2) as (h3 & -> & H3). cbn [snd] in H3 |- *.
  rw /reg_nsect /reg_lbal /reg_lbam /reg_lbah /reg_device Hc.
  set w4 := out _ (base + 2) 1. have H4 := out_ok _ _ (base + 2) 1 write_nsect H3 (@at_nsect _ _ _ _ _ _ laws) (fun _ _ => eq_refl). change (out (h3, w.2) (base + 2) 1) with w4 in H4.
  set w5 := out w4 _ _. have H5 := out_ok _ _ _ (u8 sec) write_lbal H4 (@at_lbal _ _ _ _ _ _ laws) (fun _ _ => eq_refl). change (out w4 _ _) with w5 in H5.
  set w6 := out w5 _ _. have H6 := out_ok _ _ _ (u8 (Z.shiftr sec 8)) write_lbam H5 (@at_lbam _ _ _ _ _ _ laws) (fun _ _ => eq_refl). change (out w5 _ _) with w6 in H6.
  set w7 := out w6 _ _. have H7 := out_ok _ _ _ (u8 (Z.shiftr sec 16)) write_lbah H6 (@at_lbah _ _ _ _ _ _ laws) (fun _ _ => eq_refl). change (out w6 _ _) with w7 in H7.
  have H8 := out_ok _ _ _ (u8 (Z.lor (Z.lor (Z.lor DEV_MBS DEV_LBA) (if dev_no d =? 1 then DEV_DEV else 0)) (Z.shiftr sec 24))) write_device H7 (@at_device _ _ _ _ _ _ laws) (fun _ _ => eq_refl).
  eexists. split; [done|]. destruct H8 as [Hv Hi]. cbn [fst out] in Hv. rw Hv.
  destruct (device_reg (Z.shiftr sec 24) (dev_no d =? 1)) as (D1 & D2 & D3); [rw Z.shiftr_div_pow2 //; dlia|].
  split_and!; [split_and!; [exact Hi|done|exact D3]|exact D2| |done]. rw /lba_of /= D1. by apply sector_bytes.
Qed.


(** ** Waiting *)
Lemma busy_data c d w ws : reg_base c = base -> ph (view w.1) = Data_in ws ->
  exists h, wait_while_busy c d w = (true, (h, w.2)) /\ view h = view w.1.
Proof.
  intros Hc Hp. rw /wait_while_busy (_ : Z.to_nat 3000 = S (Z.to_nat 2999)); [lia|]. generalize (Z.to_nat 2999) => n. cbn [busy_loop]. rw /inp /reg_alt_status /reg_ctl Hc /=.
  destruct (@at_data _ _ _ _ _ _ laws w.1 ws Hp) as (v & h & E & Hb & Hd). destruct (@at_alt _ _ _ _ _ _ laws w.1) as (v' & h' & E' & Hv & _).
  have [Ev Eh] : v' = v /\ h' = h by split; congruence. subst v' h'. rw E Hb /=.
  destruct (@at_data _ _ _ _ _ _ laws h ws ltac:(by rw Hv)) as (v2 & h2 & E2 & _ & Hd2). destruct (@at_alt _ _ _ _ _ _ laws h) as (v' & h' & E2' & Hv2 & _).
  have [Ev Eh] : v' = v2 /\ h' = h2 by split; congruence. subst v' h'. rw E2. rw (proj2 (Z.eqb_neq _ _) Hd2). exists h2. split; [done|]. by rw Hv2.
Qed.
Lemma alt_wants h dev lba : ph (view h) = Wants_data dev lba -> exists v h', inb (base + 0x206) h = (v, h') /\ view h' = view h /\ busy h' = busy h /\
  if (busy h =? 0)%nat then Z.land v STA_BSY = 0 /\ Z.land v STA_DRQ <> 0 else Z.land v STA_BSY <> 0.
Proof.
  intros Hp. destruct (@at_wants _ _ _ _ _ _ laws h dev lba Hp) as (v & h1 & E & Hb). destruct (@at_alt _ _ _ _ _ _ laws h) as (v' & h' & E' & Hv & Hy).
  have [Ev Eh] : v' = v /\ h' = h1 by split; congruence. subst. by exists v, h1.
Qed.
Lemma busy_wants n i c d w dev lba : reg_base c = base -> ph (view w.1) = Wants_data dev lba -> (busy w.1 < n)%nat ->
  exists w', busy_loop n i c d w = (true, w') /\ view w'.1 = view w.1 /\ busy w'.1 = O.
Proof.
  intros Hc. revert i w. induction n as [|n IH]; intros i w Hp Hn; [lia|]. cbn [busy_loop]. set w0 := if i =? 700 then _ else _.
  have Hw0 : w0.1 = w.1 by rw /w0; destruct (i =? 700). clearbody w0. rw -Hw0. rw -Hw0 in Hp. rw -Hw0 in Hn. clear Hw0 w. rw /inp /reg_alt_status /reg_ctl Hc.
  destruct (alt_wants _ dev lba Hp) as (v & h & E & Hv & Hy & Hb). rw E. destruct (busy w0.1) as [|k] eqn:Hk; cbn [Nat.eqb] in Hb.
  - destruct Hb as [Hb _]. rw Hb /=. set w1 := if 700 <=? i then _ else _. have Hw1 : w1.1 = h by rw /w1; destruct (700 <=? i). rw Hw1.
    destruct (alt_wants h dev lba) as (v2 & h2 & E2 & Hv2 & Hy2 & Hb2); [by rw Hv|]. rw Hy /= in Hb2. destruct Hb2 as [_ Hd]. rw E2 (proj2 (Z.eqb_neq _ _) Hd).
    eexists. split; [done|]. cbn. split; congruence.
  - rw (proj2 (Z.eqb_neq _ _) Hb). destruct (@at_nap _ _ _ _ _ _ laws h dev lba) as [Hs Hn']; [by rw Hv|].
    destruct (IH (i + 1) (nap (h, w0.2) (10 * msec))) as (w' & E' & Hv' & Hz); cbn [nap fst].
    + by rw Hs Hv.
    + rw Hn' Hy /=. lia.
    + exists w'. split; [done|]. split; [|done]. rw Hv' /= Hs Hv //.
Qed.
(** A disk that stays busy: the driver gives up after 3000 sleeps of 10 ms. *)
Lemma busy_gives_up n i c d w : (forall h, Z.land (inb (reg_alt_status c) h).1 STA_BSY <> 0) -> (busy_loop n i c d w).1 = false.
Proof.
  intros Hb. revert i w. induction n as [|n IH]; intros i w; [done|]. cbn [busy_loop]. rw /inp. set w0 := if i =? 700 then _ else _.
  have := Hb w0.1. destruct (inb _ w0.1) as [v h]. cbn [fst]. intros Hv. rw (proj2 (Z.eqb_neq _ _) Hv). apply IH.
Qed.

(** ** The interrupt *)
(** Channel [cn] is [c], and the first one with its interrupt. *)
Definition at_channel (cs : list channel) (cn : nat) c : Prop := cs !! cn = Some c /\ forall j c', (j < cn)%nat -> cs !! j = Some c' -> irq c' <> irq c.

Lemma handler_ok cs s (k cn : nat) c v h : at_channel cs cn c -> expecting_interrupt c = true -> inb (reg_status c) (world s).1 = (v, h) ->
  handler_loop cs k (irq c) s = Ok (set_channel (set_world s (h, (world s).2)) (k + cn) (set_completion c (completion_wait c + 1))).
Proof.
  revert k cn. induction cs as [|c0 cs IH]; intros k cn [Hl Hf] He Hi; [done|]. cbn [handler_loop]. destruct cn as [|cn].
  - injection Hl as ->. rw Z.eqb_refl He /inp Hi Nat.add_0_r. done.
  - have Hne : irq c0 <> irq c by apply (Hf O); [lia|done]. rw (proj2 (Z.eqb_neq _ _)); [congruence|]. rw (IH (S k) cn) //; [|by rw Nat.add_succ_r].
    split; [done|]. intros j c' Hj Hc'. apply (Hf (S j)); [lia|done].
Qed.
Lemma completion_ok s cn c h v h' : at_channel (channels s) cn c -> expecting_interrupt c = true -> completion_wait c = 0 ->
  interrupt (irq c) (world s).1 = Some h -> inb (reg_status c) h = (v, h') -> sema_down 1 cn s = Ok (set_world s (h', (world s).2)).
Proof.
  intros Hc He Hz Hi Hb. destruct Hc as [Hl Hf]. cbn [sema_down]. rw /get_channel Hl. cbn [oget obind]. rw Hz /= Hi /interrupt_handler /=.
  rw (handler_ok _ (set_world s (h, (world s).2)) 0 cn c v h') //. cbn [obind]. have Hlt := lookup_lt_Some _ _ _ Hl. cbn [set_channel set_world channels Nat.add].
  rw list_lookup_insert_eq //. cbn [oget obind set_completion completion_wait]. rw Hz /=. f_equal.
  rw /set_channel /set_world /=. f_equal. rw list_insert_insert_eq. apply list_insert_id. rw Hl. f_equal. destruct c. rw /set_completion /=. simpl in Hz. by rw Hz.
Qed.


(** ** Transfers *)
Record can_run s (cn : nat) c : Prop := {
  r_chan : at_channel (channels s) cn c;
  r_base : reg_base c = base;
  r_irq : irq c = ir;
  r_lock : lock c = false;
  r_done : completion_wait c = 0;
  r_level : level s = true;
  r_devs : exists n0 n1 a0 a1, devices c = [mk_disk n0 0 a0; mk_disk n1 1 a1] }.

Lemma at_channel_insert cs cn c c' : at_channel cs cn c -> irq c' = irq c -> at_channel (<[cn := c']> cs) cn c'.
Proof.
  intros [Hl Hf] Hi. split; [apply list_lookup_insert_eq; by eapply lookup_lt_Some|]. intros j c2 Hj. rw list_lookup_insert_ne; [lia|]. rw Hi. by apply Hf.
Qed.
Lemma get_channel_at s cn c : at_channel (channels s) cn c -> get_channel s cn = Ok c.
Proof. intros [Hl _]. by rw /get_channel Hl. Qed.
Lemma get_device_ok s cn c (dn : nat) : can_run s cn c -> (dn < 2)%nat -> exists d, get_device c dn = Ok d /\ (dev_no d =? 1) = (dn =? 1)%nat.
Proof. intros Hr Hd. destruct (r_devs _ _ _ Hr) as (n0 & n1 & a0 & a1 & E). rw /get_device E. destruct dn as [|[|dn]]; [by eexists|by eexists|lia]. Qed.

Lemma obind3 {A B C D} (m : outcome A) (f : A -> outcome B) (g : A -> B -> outcome C) (k : C -> outcome D) :
  (let! x := m in let! y := f x in let! z := g x y in k z) = (let! z := (let! x := m in let! y := f x in g x y) in k z).
Proof. destruct m as [a|]; [|done]. cbn. by destruct (f a). Qed.

(** The sector has been named and the command given; the lock is held. *)
Definition commanded s cn c (h : hw) log : ide hw :=
  mk_ide (<[cn := set_expecting (set_lock c true) true]> (channels s)) (h, log) (level s) (disks s).
Lemma start_ok s cn c d (sec cmd : Z) a : can_run s cn c -> 0 <= sec < 2 ^ 28 -> idles (world s) a ->
  exists h, (let! s := lock_acquire cn s in let! w := select_sector c d sec (world s) in issue_pio_command cn cmd (set_world s w)) = Ok (commanded s cn c (outb (base + 7) cmd h) (world s).2) /\
    one_sector (view h) /\ dev_of (view h) = (dev_no d =? 1) /\ lba_of (view h) = sec /\ sectors (view h) = sectors a.
Proof.
  intros Hr Hs Ha. have Hc := r_chan _ _ _ Hr. rw /lock_acquire (get_channel_at _ _ _ Hc). cbn [obind]. rw (r_lock _ _ _ Hr). cbn [negb ASSERT obind set_channel world].
  destruct (select_sector_ok c d sec (world s) a (r_base _ _ _ Hr) Hs Ha) as (h & -> & H). cbn [obind]. exists h. split; [|done].
  rw /issue_pio_command /= (r_level _ _ _ Hr). cbn [ASSERT obind]. have Hc' := at_channel_insert _ _ _ (set_lock c true) Hc eq_refl.
  rw (_ : get_channel _ _ = Ok (set_lock c true)); [by apply get_channel_at|]. cbn [obind]. f_equal. rw /commanded /set_world /set_channel /out /reg_command /reg_status /= (r_base _ _ _ Hr) (r_level _ _ _ Hr) /=. by rw list_insert_insert_eq.
Qed.
(** The end of both transfers. *)
Lemma finish_ok s cn c h log : can_run s cn c -> exists s', lock_release cn (commanded s cn c h log) = Ok s' /\ world s' = (h, log) /\ can_run s' cn (set_expecting c true).
Proof.
  intros Hr. have Hc := r_chan _ _ _ Hr. have Hc' := at_channel_insert _ _ _ (set_expecting (set_lock c true) true) Hc eq_refl.
  rw /lock_release (_ : get_channel _ _ = Ok (set_expecting (set_lock c true) true)); [by apply get_channel_at|]. cbn. eexists. split; [done|]. split; [done|].
  have E : set_lock (set_expecting (set_lock c true) true) false = set_expecting c true by rw /set_lock /set_expecting /= -(r_lock _ _ _ Hr).
  rw E. split; cbn; try apply Hr. rw list_insert_insert_eq. by apply (at_channel_insert _ _ c).
Qed.
Lemma commanded_at s cn c h log : can_run s cn c -> at_channel (channels (commanded s cn c h log)) cn (set_expecting (set_lock c true) true).
Proof. intros Hr. by apply (at_channel_insert _ _ c); [apply Hr|]. Qed.

Lemma ide_read_ok s cn c (dn : nat) (sec : Z) a : can_run s cn c -> (dn < 2)%nat -> 0 <= sec < 2 ^ 28 -> idles (world s) a ->
  length (sectors a (dn =? 1)%nat sec) = 256%nat ->
  exists s' a', ide_read cn dn sec s = Ok (bytes_of_words (sectors a (dn =? 1)%nat sec), s') /\ can_run s' cn (set_expecting c true) /\ idles (world s') a' /\ sectors a' = sectors a.
Proof.
  intros Hr Hd Hs Ha Hlen. rw /ide_read (get_channel_at _ _ _ (r_chan _ _ _ Hr)). cbn [obind]. destruct (get_device_ok s cn c dn Hr Hd) as (d & -> & Hdev). cbn [obind].
  destruct (start_ok s cn c d sec CMD_READ_SECTOR_RETRY a Hr Hs Ha) as (h & E & Ho & Hdv & Hlba & Hsec).
  rw (obind3 (lock_acquire cn s) (fun s => select_sector c d sec (world s)) (fun s w => issue_pio_command cn CMD_READ_SECTOR_RETRY (set_world s w))) E. cbn [obind].
  have Hf := @at_read _ _ _ _ _ _ laws h Ho. rw Hdv Hdev Hlba in Hf. set h1 := outb _ _ h in Hf |- *.
  destruct (@at_fetched _ _ _ _ _ _ laws h1 _ _ (f_equal ph Hf)) as (h2 & Ei & Hv2). rw Hf /set_ph /= Hsec in Hv2.
  destruct (@at_ack _ _ _ _ _ _ laws h2 _ (f_equal ph Hv2)) as (v3 & h3 & Ea & Hv3). rw Hv2 in Hv3.
  rw (completion_ok _ cn _ h2 v3 h3 (commanded_at s cn c h1 _ Hr)) //; [apply Hr|by rw /= (r_irq _ _ _ Hr)|by rw /reg_status /= (r_base _ _ _ Hr)|]. cbn [obind].
  destruct (busy_data c d (h3, (world s).2) _ (r_base _ _ _ Hr) (f_equal ph Hv3)) as (h4 & Eb & Hv4). cbn [set_world world commanded snd]. rw Eb. cbn [negb].
  cbn [fst] in Hv4. rw Hv3 in Hv4. destruct (@at_insw _ _ _ _ _ _ laws h4 _ (f_equal ph Hv4)) as (h5 & E5 & Hv5). cbn [ph] in E5. rw Hlen in E5.
  rw /input_sector /reg_data (r_base _ _ _ Hr) Z.add_0_r. change (Z.to_nat (BLOCK_SECTOR_SIZE / 2)) with 256%nat. rw E5.
  destruct (finish_ok s cn c h5 (world s).2 Hr) as (s' & Es & Hw & Hr'). change (set_world _ _) with (commanded s cn c h5 (world s).2). rw Es. cbn [obind].
  rw Hv4 in Hv5. eexists s', _. split; [done|]. split; [done|]. rw /idles Hw. by split; [split; [exact Hv5|]|].
Qed.
(** The bytes of the buffer are stored. *)
Lemma ide_write_ok s cn c (dn : nat) (sec : Z) (buffer : list Z) a : can_run s cn c -> (dn < 2)%nat -> 0 <= sec < 2 ^ 28 -> idles (world s) a ->
  length buffer = 512%nat -> Forall byte_ok buffer ->
  exists s' a', ide_write cn dn sec buffer s = Ok s' /\ can_run s' cn (set_expecting c true) /\ idles (world s') a' /\ sectors a' = store (sectors a) (dn =? 1)%nat sec (words_of_bytes buffer).
Proof.
  intros Hr Hd Hs Ha Hlen Hbuf. rw /ide_write (get_channel_at _ _ _ (r_chan _ _ _ Hr)). cbn [obind]. destruct (get_device_ok s cn c dn Hr Hd) as (d & -> & Hdev). cbn [obind].
  destruct (start_ok s cn c d sec CMD_WRITE_SECTOR_RETRY a Hr Hs Ha) as (h & E & Ho & Hdv & Hlba & Hsec).
  rw (obind3 (lock_acquire cn s) (fun s => select_sector c d sec (world s)) (fun s w => issue_pio_command cn CMD_WRITE_SECTOR_RETRY (set_world s w))) E. cbn [obind].
  have [Hf Hbusy] := @at_write _ _ _ _ _ _ laws h Ho. rw Hdv Hdev Hlba in Hf. set h1 := outb _ _ h in Hf, Hbusy |- *.
  destruct (busy_wants (Z.to_nat 3000) 0 c d (h1, (world s).2) _ _ (r_base _ _ _ Hr) (f_equal ph Hf) Hbusy) as ([h2 log] & Eb & Hv2 & Hz).
  cbn [commanded world]. rw /wait_while_busy Eb. cbn [negb]. cbn [fst] in Hv2, Hz. rw Hf in Hv2.
  destruct (words_bytes 256 buffer Hbuf Hlen) as (_ & Hwl & _).
  have Hv3 := @at_outsw _ _ _ _ _ _ laws h2 _ _ (words_of_bytes buffer) (f_equal ph Hv2) Hz Hwl. rw Hv2 /set_ph /= Hsec in Hv3.
  rw /output_sector /reg_data (r_base _ _ _ Hr) Z.add_0_r. change (Z.to_nat BLOCK_SECTOR_SIZE) with 512%nat. rw firstn_all2; [lia|]. cbn [fst snd].
  set h3 := outsw _ _ _ in Hv3 |- *. destruct (@at_stored _ _ _ _ _ _ laws h3 _ _ _ (f_equal ph Hv3)) as (h4 & Ei & Hv4). rw Hv3 /set_ph /set_sectors /= in Hv4.
  destruct (@at_idle _ _ _ _ _ _ laws h4 (f_equal ph Hv4)) as (v5 & h5 & E5 & _ & Hv5). rw Hv4 in Hv5.
  change (set_world _ _) with (commanded s cn c h3 log).
  rw (completion_ok _ cn _ h4 v5 h5 (commanded_at s cn c h3 _ Hr)) //; [apply Hr|by rw /= (r_irq _ _ _ Hr)|by rw /reg_status /= (r_base _ _ _ Hr)|]. cbn [obind].
  destruct (finish_ok s cn c h5 log Hr) as (s' & Es & Hw & Hr'). change (set_world _ _) with (commanded s cn c h5 log). rw Es.
  eexists s', _. split; [done|]. split; [done|]. rw /idles Hw. by split; [split; [exact Hv5|]|].
Qed.


(** ** Sessions *)
(** Requests to the master ([false]) and the slave ([true]) of a channel. *)
Inductive request := Read (dev : bool) (sec_no : Z) | Write (dev : bool) (sec_no : Z) (buffer : list Z).
Definition request_ok (r : request) : Prop :=
  match r with Read _ sec => 0 <= sec | Write _ sec buffer => 0 <= sec /\ length buffer = 512%nat /\ Forall byte_ok buffer end.
(** The driver: what the reads return. *)
Fixpoint session (cn : nat) (rs : list request) s : outcome (list (list Z) * ide hw) :=
  match rs with
  | [] => Ok ([], s)
  | Read dev sec :: rs => let! (b, s) := ide_read cn (Nat.b2n dev) sec s in let! (bs, s) := session cn rs s in Ok (b :: bs, s)
  | Write dev sec buffer :: rs => let! s := ide_write cn (Nat.b2n dev) sec buffer s in session cn rs s
  end.
(** The block devices of Block.v. *)
Definition set_block (bl : bool -> block) (dev : bool) (b : block) : bool -> block := fun dev' => if Bool.eqb dev' dev then b else bl dev'.
Fixpoint block_session (rs : list request) (bl : bool -> block) : outcome (list (list Z) * (bool -> block)) :=
  match rs with
  | [] => Ok ([], bl)
  | Read dev sec :: rs => let! (b, x) := block_read (bl dev) sec in let! (bs, bl) := block_session rs (set_block bl dev x) in Ok (b :: bs, bl)
  | Write dev sec buffer :: rs => let! x := block_write (bl dev) sec buffer in block_session rs (set_block bl dev x)
  end.

(** The sectors of the block devices are those of the disks. *)
Definition same_sectors (a : ata) (bl : bool -> block) : Prop := forall dev sec, 0 <= sec < size (bl dev) ->
  length (sectors a dev sec) = 256%nat /\ sector_at (bl dev) sec = bytes_of_words (sectors a dev sec).

Lemma b2n_dev dev : (Nat.b2n dev =? 1)%nat = dev.
Proof. by destruct dev. Qed.
Lemma b2n_lt dev : (Nat.b2n dev < 2)%nat.
Proof. destruct dev; simpl; lia. Qed.
Lemma same_read a a' bl dev (d : block) : same_sectors a bl -> sectors a' = sectors a -> size d = size (bl dev) -> content d = content (bl dev) -> same_sectors a' (set_block bl dev d).
Proof.
  intros Hs Ha Hz Hc dev' sec. rw Ha /set_block. destruct (Bool.eqb_spec dev' dev) as [-> | Hne]; [|apply Hs]. rw Hz /sector_at Hc. apply Hs.
Qed.
Lemma same_write a a' bl dev (d : block) sec buffer : same_sectors a bl -> length buffer = 512%nat -> Forall byte_ok buffer -> sectors a' = store (sectors a) dev sec (words_of_bytes buffer) ->
  size d = size (bl dev) -> (forall n, sector_at d n = if decide (n = sec) then buffer else sector_at (bl dev) n) -> same_sectors a' (set_block bl dev d).
Proof.
  intros Hs Hl Hb Ha Hz Hd dev' n. destruct (words_bytes 256 buffer Hb Hl) as (W1 & W2 & _). rw Ha /set_block /store. destruct (Bool.eqb_spec dev' dev) as [-> | Hne].
  - rw Hz Hd. case_decide as Hn; [rw bool_decide_eq_true_2 //|rw bool_decide_eq_false_2; [naive_solver|]; apply Hs].
  - rw bool_decide_eq_false_2; [naive_solver|]. apply Hs.
Qed.

Lemma session_ok rs : forall s cn c a bl xs bl', can_run s cn c -> idles (world s) a -> same_sectors a bl -> (forall dev, size (bl dev) <= 2 ^ 28) ->
  Forall request_ok rs -> block_session rs bl = Ok (xs, bl') ->
  exists s' c' a', session cn rs s = Ok (xs, s') /\ can_run s' cn c' /\ idles (world s') a' /\ same_sectors a' bl'.
Proof.
  induction rs as [|r rs IH]; intros s cn c a bl xs bl' Hr Ha Hs Hz Hok H; [injection H as <- <-; by exists s, c, a|].
  apply Forall_cons in Hok as [Hr0 Hok]. have Hz' : forall dev (d : block), size d = size (bl dev) -> forall dev', size (set_block bl dev d dev') <= 2 ^ 28.
  { intros dev d Hd dev'. rw /set_block. destruct (Bool.eqb dev' dev); [rw Hd|]; apply Hz. }
  destruct r as [dev sec|dev sec buffer]; cbn [block_session session request_ok] in H, Hr0 |- *; have Hzd := Hz dev.
  - apply obind_Ok_inv in H as ([b d] & Eb & H). apply obind_Ok_inv in H as ([bs bl2] & E2 & H). injection H as <- <-.
    have Hlt : sec < size (bl dev). { rw /block_read /check_sector in Eb. destruct (Z.leb_spec (size (bl dev)) sec); [done|lia]. }
    destruct (block_read_ok (bl dev) sec Hlt) as (d' & E' & Hd1 & _ & Hd2). rw E' in Eb. injection Eb as <- <-.
    destruct (Hs dev sec) as [Hlen ->]; [lia|]. destruct (ide_read_ok s cn c (Nat.b2n dev) sec a Hr (b2n_lt dev)) as (s1 & a1 & E1 & Hr1 & Ha1 & Hse); [lia|done|by rw b2n_dev|].
    rw b2n_dev in E1. rw E1. cbn [obind]. destruct (IH s1 cn _ a1 _ bs bl2 Hr1 Ha1 (same_read a a1 bl dev d' Hs Hse Hd1 Hd2) (Hz' dev d' Hd1) Hok E2) as (s' & c' & a' & -> & H').
    by exists s', c', a'.
  - destruct Hr0 as (Hsec & Hl & Hb). apply obind_Ok_inv in H as (d & Eb & H).
    have Hlt : sec < size (bl dev). { rw /block_write /check_sector in Eb. destruct (Z.leb_spec (size (bl dev)) sec); [done|lia]. }
    have Hd := sector_at_write (bl dev) sec buffer. have Hsz : size d = size (bl dev). { rw /block_write in Eb. by inv_ok. }
    destruct (ide_write_ok s cn c (Nat.b2n dev) sec buffer a Hr (b2n_lt dev)) as (s1 & a1 & -> & Hr1 & Ha1 & Hse); [lia|done|done|done|].
    rw b2n_dev in Hse. cbn [obind]. apply (IH s1 cn _ a1 (set_block bl dev d) xs bl' Hr1 Ha1); [|by apply Hz'|done|done].
    apply (same_write a a1 bl dev d sec buffer Hs Hl Hb Hse Hsz). intros n. by apply Hd.
Qed.
End ata_ok.

(** ** A controller *)
(** One that has its sectors at once, and takes a sector after two sleeps; an identity is
    kept as sector -1. *)
Record emu := mk_emu { e_ata : ata; e_busy : nat }.
Definition emu_base : Z := 0x1f0.
Definition emu_status (e : emu) : Z :=
  match ph (e_ata e) with
  | Idle => 0x40
  | Data_in _ => 0x48
  | Wants_data _ _ => if (e_busy e =? 0)%nat then 0x48 else 0x80
  | Fetching _ _ | Storing _ _ _ => 0x80
  end.
Definition emu_outb (r v : Z) (e : emu) : emu :=
  let a := e_ata e in
  match ph a with
  | Idle =>
    if r =? emu_base + 2 then mk_emu (write_nsect a v) (e_busy e)
    else if r =? emu_base + 3 then mk_emu (write_lbal a v) (e_busy e)
    else if r =? emu_base + 4 then mk_emu (write_lbam a v) (e_busy e)
    else if r =? emu_base + 5 then mk_emu (write_lbah a v) (e_busy e)
    else if r =? emu_base + 6 then mk_emu (write_device a v) (e_busy e)
    else if r =? emu_base + 0x206 then (if v =? CTL_SRST then mk_emu (mk_ata 1 1 0 0 0 (sectors a) Idle) 0 else e)
    else if r =? emu_base + 7 then
      if v =? CMD_READ_SECTOR_RETRY then mk_emu (set_ph a (Fetching (dev_of a) (lba_of a))) 0
      else if v =? CMD_WRITE_SECTOR_RETRY then mk_emu (set_ph a (Wants_data (dev_of a) (lba_of a))) 2
      else if v =? CMD_IDENTIFY_DEVICE then mk_emu (set_ph a (Fetching (dev_of a) (-1))) 0 else e
    else e
  | _ => e
  end.
Definition emu_inb (r : Z) (e : emu) : Z * emu :=
  let a := e_ata e in
  (if (r =? emu_base + 7) || (r =? emu_base + 0x206) then emu_status e
   else if r =? emu_base + 1 then 1 else if r =? emu_base + 2 then nsect a else if r =? emu_base + 3 then lbal a
   else if r =? emu_base + 4 then lbam a else if r =? emu_base + 5 then lbah a else 0xff, e).
#[export] Instance emu_ports : Ports emu := {|
  inb := emu_inb;
  outb := emu_outb;
  insw := fun r n e => match ph (e_ata e) with Data_in ws => (take n ws, mk_emu (set_ph (e_ata e) Idle) 0) | _ => (replicate n 0xffff, e) end;
  outsw := fun r ws e => match ph (e_ata e), e_busy e with Wants_data dev lba, O => mk_emu (set_ph (e_ata e) (Storing dev lba ws)) 0 | _, _ => e end;
  sleep := fun _ e => mk_emu (e_ata e) (pred (e_busy e));
  interrupt := fun i e =>
    if i =? 14 + 0x20 then
      match ph (e_ata e) with
      | Fetching dev lba => Some (mk_emu (set_ph (e_ata e) (Data_in (sectors (e_ata e) dev lba))) 0)
      | Storing dev lba ws => Some (mk_emu (set_ph (set_sectors (e_ata e) (store (sectors (e_ata e)) dev lba ws)) Idle) 0)
      | _ => None
      end
    else None |}.
#[export] Instance emu_laws : Ata emu emu_base (14 + 0x20) e_ata e_busy.
Proof.
  split.
  - intros e He. eexists _, e. split; [done|]. by rw /= /emu_status He.
  - intros e. by eexists _, e.
  - done.
  - intros e v He. by rw /= /emu_outb He.
  - intros e v He. by rw /= /emu_outb He.
  - intros e v He. by rw /= /emu_outb He.
  - intros e v He. by rw /= /emu_outb He.
  - intros e v He. by rw /= /emu_outb He.
  - intros e (He & _). by rw /= /emu_outb He.
  - intros e dev lba He. eexists. cbn. by rw He.
  - intros e ws He. by eexists _, e.
  - intros e ws He. eexists _, e. split; [done|]. by rw /= /emu_status He.
  - intros e ws He. eexists. cbn. rw He. by rw firstn_all.
  - intros e (He & _). rw /= /emu_outb He /=. split; [done|lia].
  - intros e dev lba He. eexists _, e. split; [done|]. rw /= /emu_status He. by destruct (e_busy e =? 0)%nat.
  - done.
  - intros e dev lba ws He Hb Hl. cbn. by rw He Hb.
  - intros e dev lba ws He. eexists. cbn. by rw He.
Qed.

(** C21: disk transfers are exact.  On a controller that follows the PIO protocols of ATA-3,
    whose two disks hold what two block devices of Block.v hold: for any sequence of reads
    and writes that succeeds on the block devices, the driver succeeds too, with sector
    numbers up to 2^28 sent through the four address registers; its reads return the same
    bytes, and in the end the disks hold what the block devices hold. *)
Theorem ide_refines_block {hw : Type} {ports : Ports hw} (base ir : Z) (view : hw -> ata) (busy : hw -> nat) {laws : Ata hw base ir view busy}
    (s : ide hw) (cn : nat) (c : channel) (bl bl' : bool -> block) (rs : list request) (xs : list (list Z)) :
  can_run base ir s cn c -> ph (view (world s).1) = Idle -> same_sectors (view (world s).1) bl -> (forall dev, size (bl dev) <= 2 ^ 28) ->
  Forall request_ok rs -> block_session rs bl = Ok (xs, bl') ->
  exists s', session cn rs s = Ok (xs, s') /\ ph (view (world s').1) = Idle /\ same_sectors (view (world s').1) bl'.
Proof.
  intros Hr Hp Hs Hz Hok H. destruct (session_ok base ir view busy rs s cn c _ bl xs bl' Hr (conj eq_refl Hp) Hs Hz Hok H) as (s' & c' & a' & E & _ & [Hv Hi] & Hs').
  exists s'. by rw E Hv.
Qed.
Definition ex_emu : emu := mk_emu (mk_ata 0 0 0 0 0 (fun _ _ => replicate 256 0) Idle) 0.
Definition ex_ide : ide emu := mk_ide [new_channel 0; new_channel 1] (ex_emu, []) true [].
Definition ex_block : block := mk_block "hda" BLOCK_RAW 0x2000000 ∅ 0 0.
(** A sector of the slave far behind is written and read back; the same one of the master is zero. *)
Lemma ide_refines_block_witness : exists s', session 0 [Write true 0x1234567 (replicate 512 7); Read false 0x1234567; Read true 0x1234567] ex_ide = Ok ([replicate 512 0; replicate 512 7], s').
Proof.
  set rs := [_; _; _]. assert (H : exists bl', block_session rs (fun _ => ex_block) = Ok ([replicate 512 0; replicate 512 7], bl')) by (eexists; vm_compute; reflexivity).
  destruct H as [bl' H]. destruct (ide_refines_block emu_base (14 + 0x20) e_ata e_busy ex_ide 0 (new_channel 0) (fun _ => ex_block) bl' rs [replicate 512 0; replicate 512 7]) as (s' & E & _).
  - split; try reflexivity; [|by eexists _, _, _, _]. split; [reflexivity|]. intros j c' Hj. lia.
  - reflexivity.
  - intros dev sec Hsec. split; [reflexivity|]. rw /sector_at lookup_empty. vm_compute. reflexivity.
  - intros dev. vm_compute. discriminate.
  - repeat constructor; try reflexivity; try (vm_compute; discriminate); apply Forall_replicate; rw /byte_ok; lia.
  - exact H.
  - exists s'. exact E.
Defined.

(** ** Disks that fail *)
(** A disk that stays busy makes the transfer panic, or never end: no bytes are returned. *)
Theorem ide_read_busy_fails {hw : Type} {ports : Ports hw} (s : ide hw) (cn dn : nat) (sec : Z) :
  (forall r h, Z.land (inb r h).1 STA_BSY <> 0) -> exists e, ide_read cn dn sec s = Err e.
Proof.
  intros Hb. destruct (ide_read cn dn sec s) as [[b s']|e] eqn:H; [|by exists e]. exfalso. rw /ide_read in H.
  apply obind_Ok_inv in H as (c & _ & H). apply obind_Ok_inv in H as (d & _ & H). apply obind_Ok_inv in H as (s1 & _ & H). apply obind_Ok_inv in H as (w & _ & H).
  apply obind_Ok_inv in H as (s2 & _ & H). apply obind_Ok_inv in H as (s3 & _ & H). have := busy_gives_up (Z.to_nat 3000) 0 c d (world s3) (Hb _). rw /wait_while_busy in H.
  destruct (busy_loop _ _ _ _ _) as [ready w']. cbn [fst]. intros E. by rw E in H.
Qed.
(** [expecting_interrupt] is never reset, so that the handler counts a spurious interrupt after the first transfer: the
    next [ide_write] returns before the disk has stored the sector. *)
Example ide_write_early :
  (let! s := ide_write 0 0 5 (replicate 512 1) ex_ide in
   let! s := interrupt_handler (14 + 0x20) s in
   let! s := ide_write 0 0 6 (replicate 512 2) s in Ok (ph (e_ata (world s).1))) = Ok (Storing false 6 (replicate 256 0x202)).
Proof. vm_compute. reflexivity. Qed.

(** ** The text of IDENTIFY DEVICE *)
Lemma swap_pairs_twice l : swap_pairs (swap_pairs l) = l.
Proof.
  have [n Hn] : exists n, (length l <= n)%nat by exists (length l). revert l Hn. induction n as [|n IH]; intros l Hn; [by destruct l; [|simpl in Hn; lia]|].
  destruct l as [|a [|b l]]; [done|done|]. simpl. simpl in Hn. rw IH //. lia.
Qed.
Lemma trim_spaces t (k n : nat) : (forall c, last t = Some c -> c <> 0 /\ isspace c = false) -> (k <= n)%nat -> trim (t ++ replicate n 32) (length t + k) = length t.
Proof.
  intros Hl. revert n. induction k as [|k IH]; intros n Hk.
  - rw Nat.add_0_r. destruct (last t) as [c|] eqn:El; [|apply last_None in El; by subst]. apply last_Some in El as [t' ->]. rw length_app Nat.add_comm. cbn [length Nat.add trim].
    have -> : ((t' ++ [c]) ++ replicate n 32) !!! length t' = c.
    { apply list_lookup_total_correct. rw -app_assoc list_lookup_middle //. }
    destruct (Hl c) as [H1 H2]; [done|]. by rw (proj2 (Z.eqb_neq _ _) H1) H2.
  - rw Nat.add_succ_r. cbn [trim]. have -> : (t ++ replicate n 32) !!! (length t + k)%nat = 32.
    { apply list_lookup_total_correct. rw lookup_app_r; [lia|]. rw Nat.add_sub_swap // Nat.sub_diag. apply lookup_replicate_2. lia. }
    cbn. apply IH. lia.
Qed.
Lemma c_string_app t l : Forall (fun c => c <> 0) t -> c_string (t ++ 0 :: l) = t.
Proof. induction 1 as [|c t Hc Ht IH]; [done|]. cbn. rw (proj2 (Z.eqb_neq _ _) Hc). by f_equal. Qed.

(** The text of a disk comes back: padded with spaces to the field, its bytes swapped in pairs, it is read by
    [descramble_ata_string] as it was, when it is shorter than the field. *)
Theorem descramble_roundtrip (t : list Z) (n : nat) :
  Forall (fun c => c <> 0) t -> (forall c, last t = Some c -> isspace c = false) -> (0 < n)%nat ->
  c_string (descramble_ata_string (swap_pairs (t ++ replicate n 32))) = t.
Proof.
  intros Ht Hl Hn. rw /descramble_ata_string swap_pairs_twice length_app length_replicate.
  have -> : (length t + n - 1 = length t + (n - 1))%nat by lia.
  rw trim_spaces; [|lia|].
  - intros c Hc. split; [|by apply Hl]. apply last_Some in Hc as [l' ->]. apply Forall_app in Ht as [_ Ht]. by apply Forall_cons in Ht as [? _].
  - destruct n as [|n]; [lia|]. cbn [replicate]. rw insert_app_r_alt //. rw Nat.sub_diag. cbn. by apply c_string_app.
Qed.

Definition ascii (s : string) : list Z := (fun c => Z.of_nat (Ascii.nat_of_ascii c)) <$> String.list_ascii_of_string s.
(** A text that fills the field loses its last character. *)
Example descramble_full_field : c_string (descramble_ata_string (swap_pairs (ascii "ABCDEFGH"))) = ascii "ABCDEFG".
Proof. reflexivity. Qed.

(** Detection on the controller: both disks are found and registered.  The driver takes the serial number for the model. *)
Definition ex_identity : list Z := replicate 10 0 ++ words_of_bytes (swap_pairs (ascii "SN1" ++ replicate 17 32)) ++ replicate 7 0 ++
  words_of_bytes (swap_pairs (ascii "TEST DISK" ++ replicate 31 32)) ++ replicate 13 0 ++ [8192; 0] ++ replicate 194 0.
Example ide_init_finds :
  (let! s := ide_init (mk_ide [new_channel 0; new_channel 0] (mk_emu (mk_ata 0 0 0 0 0 (fun _ _ => ex_identity) Idle) 0, []) true []) in Ok (disks s)) =
  Ok [mk_found "hda" (ascii "SN1") (ascii "TEST DISK") 8192; mk_found "hdb" (ascii "SN1") (ascii "TEST DISK") 8192].
Proof. vm_compute. reflexivity. Qed.
