(* ===== verification/Console.v ===== *)
(** * lib/kernel/console.c: the console

    Text goes to the serial port (Serial.v) and to the screen (Vga.v).  Threads take the
    console lock around a text; a thread that has it already counts how deep it is.

    The theorem: whatever threads print, sleeping in the serial port and preempting each
    other between characters, the console refines a printer that one thread has at a time: it prints the
    texts of that thread character by character, a text begun within another one first, and
    takes the next thread after the end of the outermost one.  The serial port has been given
    just these characters and the screen has shown them; for a text begun between the two
    halves of a character the orders differ. *)
From S2P Require Import Prelude Intq Kbd Serial Vga.

(** [holder] is the thread that has [console_lock]. *)
Record console := mk_console { holder : option Z; use_console_lock : bool; console_lock_depth : Z; write_cnt : Z; serial_port : serial; screen : vga }.
Implicit Types k : console.
Definition set_holder k (h : option Z) : console := mk_console h (use_console_lock k) (console_lock_depth k) (write_cnt k) (serial_port k) (screen k).
Definition set_depth k (n : Z) : console := mk_console (holder k) (use_console_lock k) n (write_cnt k) (serial_port k) (screen k).
Definition set_port k (s : serial) : console := mk_console (holder k) (use_console_lock k) (console_lock_depth k) (write_cnt k) s (screen k).
Definition set_screen k (v : vga) : console := mk_console (holder k) (use_console_lock k) (console_lock_depth k) (write_cnt k) (serial_port k) v.

Definition console_init k : console := mk_console None true (console_lock_depth k) (write_cnt k) (serial_port k) (screen k).
Definition console_panic k : console := mk_console (holder k) false (console_lock_depth k) (write_cnt k) (serial_port k) (screen k).

(** By the thread [who], or a handler.  [None]: the thread waits for the lock. *)
Definition acquire_console (who : option Z) k : option console :=
  match who with
  | Some t =>
    if use_console_lock k then
      if bool_decide (holder k = Some t) then Some (set_depth k (s32 (console_lock_depth k + 1)))
      else match holder k with None => Some (set_holder k (Some t)) | Some _ => None end
    else Some k
  | None => Some k
  end.
Definition release_console (who : option Z) k : outcome console :=
  match who with
  | Some t =>
    if use_console_lock k then
      if 0 <? console_lock_depth k then Ok (set_depth k (console_lock_depth k - 1))
      else assert! bool_decide (holder k = Some t) in Ok (set_holder k None)
    else Ok k
  | None => Ok k
  end.
Definition console_locked_by_current_thread (who : option Z) k : bool :=
  match who with Some t => negb (use_console_lock k) || bool_decide (holder k = Some t) | None => true end.

(** ** Printing threads *)
(** The functions that print; [Vprintf] with what [__vprintf] gives to its helper. *)
Inductive call := Puts (s : list Z) | Putbuf (buffer : list Z) (n : nat) | Putchar (c : Z) | Vprintf (output : list Z).
Definition text (x : call) : list Z :=
  match x with Puts s => s ++ [10] | Putbuf buffer n => take n buffer | Putchar c => [wrap 8 c] | Vprintf output => output end.

(** What is left of a call: the character that the serial port has and the screen has not,
    and the characters to come. *)
Abbreviation level := (option Z * list Z)%type.
(** The calls a thread is in, the innermost first; [asleep] in [serial_putc]. *)
Record job := mk_job { asleep : bool; levels : list level }.
Record printing := mk_printing { con : console; jobs : gmap Z job }.
Definition set_job (p : printing) k (t : Z) (j : job) : printing := mk_printing k (<[t := j]> (jobs p)).
Definition job_of (p : printing) (t : Z) : job := default (mk_job false []) (jobs p !! t).

Inductive ev := Begin (t : Z) (s : list Z) | Sent (t c : Z) | Shown (t c : Z) | End (t : Z).

Section console.
Context (lsr rbr : nat -> Z).
(** [putchar_have_lock] up to the end of [serial_putc], which may be left later. *)
Definition putchar_serial (fuel : nat) (who : option Z) (on : bool) k (c : Z) : outcome (bool * console) :=
  assert! console_locked_by_current_thread who k in
  let k := mk_console (holder k) (use_console_lock k) (console_lock_depth k) (s64 (write_cnt k + 1)) (serial_port k) (screen k) in
  let! (d, s) := serial_putc lsr fuel who on (serial_port k) c in
  Ok (d, set_port k s).
(** The thread goes on in [serial_putc]. *)
Definition putchar_goes_on (a : action) k : outcome (bool * console) :=
  let! (d, s) := serial_putc_goes_on a (serial_port k) in Ok (d, set_port k s).
Definition putchar_vga k (c : Z) : outcome console := let! v := vga_putc (screen k) c in Ok (set_screen k v).

(** One section of a thread, of the serial interrupt or of the input buffer.  A thread can
    begin to print wherever it can be preempted, inside a text of its own too, as deep as an
    [int] counts. *)
Inductive prints : printing -> list ev -> printing -> Prop :=
| p_begin p t x ls k : job_of p t = mk_job false ls -> Z.of_nat (length ls) < 2 ^ 31 -> acquire_console (Some t) (con p) = Some k ->
    prints p [Begin t (text x)] (set_job p k t (mk_job false ((None, text x) :: ls)))
| p_put p t c s ls fuel on (d : bool) k : job_of p t = mk_job false ((None, c :: s) :: ls) -> outside (Some t) (txq (serial_port (con p))) ->
    putchar_serial fuel (Some t) on (con p) c = Ok (d, k) ->
    prints p (if d then [Sent t c] else []) (set_job p k t (if d then mk_job false ((Some c, s) :: ls) else mk_job true ((None, c :: s) :: ls)))
| p_goes_on p t c s ls (d : bool) k : job_of p t = mk_job true ((None, c :: s) :: ls) -> procs (txq (serial_port (con p))) !! t = Some (Woken (Put c)) ->
    putchar_goes_on (Resume t) (con p) = Ok (d, k) ->
    prints p (if d then [Sent t c] else []) (set_job p k t (if d then mk_job false ((Some c, s) :: ls) else mk_job true ((None, c :: s) :: ls)))
| p_show p t c s ls k : job_of p t = mk_job false ((Some c, s) :: ls) -> putchar_vga (con p) c = Ok k ->
    prints p [Shown t c] (set_job p k t (mk_job false ((None, s) :: ls)))
| p_end p t ls k : job_of p t = mk_job false ((None, []) :: ls) -> release_console (Some t) (con p) = Ok k ->
    prints p [End t] (set_job p k t (mk_job false ls))
| p_queue p s : serial_init_queue (serial_port (con p)) = Ok s -> prints p [] (mk_printing (set_port (con p) s) (jobs p))
| p_interrupt p n s : mode (serial_port (con p)) = QUEUE -> serial_interrupt lsr rbr n (serial_port (con p)) = Ok s ->
    prints p [] (mk_printing (set_port (con p) s) (jobs p))
| p_key p c s : input_putc_notify c (serial_port (con p)) = Ok s -> prints p [] (mk_printing (set_port (con p) s) (jobs p))
| p_getc p t e s : procs (rx (serial_port (con p))) !! t = None -> input_getc_notify t (serial_port (con p)) = Ok (e, s) ->
    prints p [] (mk_printing (set_port (con p) s) (jobs p))
| p_getc_goes_on p a e s : enabled a (rx (serial_port (con p))) -> input_getc_goes_on a (serial_port (con p)) = Ok (e, s) ->
    prints p [] (mk_printing (set_port (con p) s) (jobs p)).
Inductive run_prints : printing -> list ev -> printing -> Prop :=
| r_nil p : run_prints p [] p
| r_step p tr p1 l p2 : run_prints p tr p1 -> prints p1 l p2 -> run_prints p (tr ++ l) p2.
End console.

(** The start of [main]: [console_init] has run, nothing has been printed. *)
Definition console_boot (v : vga) : printing := mk_printing (console_init (mk_console None false 0 0 at_boot v)) ∅.

(** ** The printer *)
(** Who has it, with the calls it is in. *)
Definition printer := option (Z * list level).
Definition print (q : printer) (e : ev) : option printer :=
  match e, q with
  | Begin t s, None => Some (Some (t, [(None, s)]))
  | Begin t s, Some (t', ls) => if t =? t' then Some (Some (t, (None, s) :: ls)) else None
  | Sent t c, Some (t', (None, c' :: s) :: ls) => if (t =? t') && (c =? c') then Some (Some (t, (Some c, s) :: ls)) else None
  | Shown t c, Some (t', (Some c', s) :: ls) => if (t =? t') && (c =? c') then Some (Some (t, (None, s) :: ls)) else None
  | End t, Some (t', (None, []) :: ls) => if t =? t' then Some (match ls with [] => None | _ => Some (t, ls) end) else None
  | _, _ => None
  end.
Fixpoint print_all (q : printer) (tr : list ev) : option printer :=
  match tr with [] => Some q | e :: tr => match print q e with Some q => print_all q tr | None => None end end.
Definition sent (tr : list ev) : list Z := omap (fun e => match e with Sent _ c => Some c | _ => None end) tr.
Definition shown (tr : list ev) : list Z := omap (fun e => match e with Shown _ c => Some c | _ => None end) tr.

(** ** The invariant *)
Definition printer_of (p : printing) : printer := match holder (con p) with None => None | Some t => Some (t, levels (job_of p t)) end.
(** [v] is the screen at the start. *)
Record cinv (v : vga) (p : printing) (tr : list ev) : Prop := {
  ci_lock : use_console_lock (con p) = true;
  ci_idle : forall t, holder (con p) <> Some t -> job_of p t = mk_job false [];
  ci_depth : forall t, holder (con p) = Some t -> Z.of_nat (length (levels (job_of p t))) = console_lock_depth (con p) + 1 /\ 0 <= console_lock_depth (con p);
  ci_free : holder (con p) = None -> console_lock_depth (con p) = 0;
  ci_print : print_all None tr = Some (printer_of p);
  ci_serial : sinv (serial_port (con p)) (sent tr);
  ci_screen : putc_all v (shown tr) = Ok (screen (con p)) }.

Lemma print_all_app q tr l : print_all q (tr ++ l) = match print_all q tr with Some q => print_all q l | None => None end.
Proof. revert q. induction tr as [|e tr IH]; intros q; [done|]. cbn. by destruct (print q e). Qed.
Lemma putc_all_app v l l' : putc_all v (l ++ l') = let! v := putc_all v l in putc_all v l'.
Proof. revert v. induction l as [|c l IH]; intros v; [done|]. cbn. by destruct (vga_putc v c); cbn. Qed.
Lemma job_of_set p k t j t' : job_of (set_job p k t j) t' = if decide (t' = t) then j else job_of p t'.
Proof. rw /job_of /=. case_decide as H; [subst; by rw lookup_insert_eq|]. by rw lookup_insert_ne. Qed.

(** A thread that prints has the lock. *)
Lemma has_lock v p tr t j : cinv v p tr -> job_of p t = j -> j <> mk_job false [] -> holder (con p) = Some t.
Proof. intros H Hj Hn. destruct (decide (holder (con p) = Some t)) as [|Hh]; [done|]. destruct Hn. rw -Hj. by apply (ci_idle _ _ _ H). Qed.

(** A step of the thread that has the lock which keeps it: how the parts change. *)
Lemma keeps v p tr t j j' k l : cinv v p tr -> job_of p t = j -> holder (con p) = Some t -> holder k = Some t -> use_console_lock k = true ->
  Z.of_nat (length (levels j')) = console_lock_depth k + 1 -> 0 <= console_lock_depth k -> print_all (Some (t, levels j)) l = Some (Some (t, levels j')) ->
  sinv (serial_port k) (sent tr ++ sent l) -> (let! v := Ok (screen (con p)) in putc_all v (shown l)) = Ok (screen k) ->
  cinv v (set_job p k t j') (tr ++ l).
Proof.
  intros H Hj Hh Hk Hu Hd Hd0 Hp Hs Hv. split; cbn [con set_job].
  - done.
  - intros t' Hne. rw job_of_set. case_decide as Ht; [subst; congruence|]. apply (ci_idle _ _ _ H). congruence.
  - intros t' Ht'. rw job_of_set. case_decide as Ht; [done|congruence].
  - congruence.
  - rw print_all_app (ci_print _ _ _ H) /printer_of Hh Hj /= Hk job_of_set decide_True //.
  - by rw /sent omap_app.
  - by rw /shown omap_app putc_all_app (ci_screen _ _ _ H).
Qed.

Section console_ok.
Context (lsr rbr : nat -> Z).
(** Only the serial port changes. *)
Lemma port_only v p tr s : cinv v p tr -> sinv s (sent tr) -> cinv v (mk_printing (set_port (con p) s) (jobs p)) tr.
Proof. by intros [] Hs. Qed.

Lemma begin_ok v p tr t x ls k : cinv v p tr -> job_of p t = mk_job false ls -> Z.of_nat (length ls) < 2 ^ 31 -> acquire_console (Some t) (con p) = Some k ->
  cinv v (set_job p k t (mk_job false ((None, x) :: ls))) (tr ++ [Begin t x]).
Proof.
  intros H Hj Hn Ha. rw /acquire_console (ci_lock _ _ _ H) in Ha. case_bool_decide as Hh.
  - injection Ha as <-. destruct (ci_depth _ _ _ H t Hh) as [Hd Hd0]. rw Hj /= in Hd.
    have Hs : s32 (console_lock_depth (con p) + 1) = console_lock_depth (con p) + 1 by apply swrap_small; lia.
    apply (keeps v p tr t (mk_job false ls)); try done; cbn [set_depth console_lock_depth levels].
    + apply (ci_lock _ _ _ H).
    + rw Hs /=. lia.
    + lia.
    + by rw /= Z.eqb_refl.
    + rw app_nil_r. apply (ci_serial _ _ _ H).
  - destruct (holder (con p)) as [t'|] eqn:Hnone; [done|]. injection Ha as <-.
    have Hl := ci_idle _ _ _ H t. rw Hnone Hj in Hl. injection (Hl ltac:(done)) as ->. split; cbn [con set_job set_holder holder use_console_lock console_lock_depth].
    + apply (ci_lock _ _ _ H).
    + intros t' Ht. rw job_of_set. case_decide; [congruence|]. apply (ci_idle _ _ _ H). by rw Hnone.
    + intros t' [= <-]. rw job_of_set decide_True //= (ci_free _ _ _ H) //.
    + done.
    + rw print_all_app (ci_print _ _ _ H) /printer_of Hnone /= job_of_set decide_True //.
    + rw /sent omap_app app_nil_r. apply (ci_serial _ _ _ H).
    + rw /shown omap_app app_nil_r. apply (ci_screen _ _ _ H).
Qed.
(** A character for the serial port: its thread has sent it or sleeps. *)
Lemma sent_step v p tr t c s ls b (d : bool) k : cinv v p tr -> job_of p t = mk_job b ((None, c :: s) :: ls) ->
  holder k = holder (con p) -> use_console_lock k = true -> console_lock_depth k = console_lock_depth (con p) -> screen k = screen (con p) ->
  sinv (serial_port k) (sent tr ++ if d then [c] else []) ->
  cinv v (set_job p k t (if d then mk_job false ((Some c, s) :: ls) else mk_job true ((None, c :: s) :: ls))) (tr ++ if d then [Sent t c] else []).
Proof.
  intros H Hj Hh Hu Hd Hv Hs. have Ht := has_lock v p tr t _ H Hj ltac:(done). destruct (ci_depth _ _ _ H t Ht) as [Hd1 Hd0]. rw Hj /= in Hd1.
  eapply keeps; try done; [congruence|..].
  - destruct d; rw Hd -Hd1 //.
  - by rw Hd.
  - by destruct d; rw /= ?Z.eqb_refl.
  - by destruct d.
  - by destruct d; rw /= Hv.
Qed.
Lemma put_char_ok v p tr t c s ls fuel on (d : bool) k : cinv v p tr -> job_of p t = mk_job false ((None, c :: s) :: ls) -> outside (Some t) (txq (serial_port (con p))) ->
  putchar_serial lsr fuel (Some t) on (con p) c = Ok (d, k) ->
  cinv v (set_job p k t (if d then mk_job false ((Some c, s) :: ls) else mk_job true ((None, c :: s) :: ls))) (tr ++ if d then [Sent t c] else []).
Proof.
  intros H Hj Ho E. rw /putchar_serial in E. apply obind_Ok_inv in E as (_ & _ & E). apply obind_Ok_inv in E as ([d' s'] & Es & E). injection E as <- <-.
  apply (sent_step v p tr t c s ls false d'); try done; [apply (ci_lock _ _ _ H)|].
  exact (steps_one lsr rbr _ _ _ _ (step_putc lsr rbr fuel (Some t) on c d' _ _ Ho Es) (ci_serial _ _ _ H)).
Qed.
Lemma goes_on_ok v p tr t c s ls (d : bool) k : cinv v p tr -> job_of p t = mk_job true ((None, c :: s) :: ls) -> procs (txq (serial_port (con p))) !! t = Some (Woken (Put c)) ->
  putchar_goes_on (Resume t) (con p) = Ok (d, k) ->
  cinv v (set_job p k t (if d then mk_job false ((Some c, s) :: ls) else mk_job true ((None, c :: s) :: ls))) (tr ++ if d then [Sent t c] else []).
Proof.
  intros H Hj Hp E. rw /putchar_goes_on in E. apply obind_Ok_inv in E as ([d' s'] & Es & E). injection E as <- <-.
  apply (sent_step v p tr t c s ls true d'); try done; [apply (ci_lock _ _ _ H)|].
  exact (steps_one lsr rbr _ _ _ _ (step_resume lsr rbr t c d' _ _ Hp Es) (ci_serial _ _ _ H)).
Qed.
Lemma show_ok v p tr t c s ls k : cinv v p tr -> job_of p t = mk_job false ((Some c, s) :: ls) -> putchar_vga (con p) c = Ok k ->
  cinv v (set_job p k t (mk_job false ((None, s) :: ls))) (tr ++ [Shown t c]).
Proof.
  intros H Hj E. rw /putchar_vga in E. apply obind_Ok_inv in E as (v' & Ev & E). injection E as <-. have Ht := has_lock v p tr t _ H Hj ltac:(done). destruct (ci_depth _ _ _ H t Ht) as [Hd1 Hd0].
  rw Hj /= in Hd1. eapply keeps; try done; cbn.
  - apply (ci_lock _ _ _ H).
  - by rw !Z.eqb_refl.
  - rw app_nil_r. apply (ci_serial _ _ _ H).
  - by rw Ev.
Qed.
Lemma end_ok v p tr t ls k : cinv v p tr -> job_of p t = mk_job false ((None, []) :: ls) -> release_console (Some t) (con p) = Ok k ->
  cinv v (set_job p k t (mk_job false ls)) (tr ++ [End t]).
Proof.
  intros H Hj E. have Ht := has_lock v p tr t _ H Hj ltac:(done). destruct (ci_depth _ _ _ H t Ht) as [Hd1 Hd0]. rw Hj /= in Hd1. rw /release_console (ci_lock _ _ _ H) in E.
  destruct (Z.ltb_spec 0 (console_lock_depth (con p))) as [Hd|Hd].
  - injection E as <-. destruct ls as [|lv ls]; [simpl in Hd1; lia|]. eapply keeps; try done; cbn [set_depth console_lock_depth holder use_console_lock serial_port screen levels].
    + apply (ci_lock _ _ _ H).
    + simpl in Hd1 |- *. lia.
    + lia.
    + by rw /= Z.eqb_refl.
    + rw app_nil_r. apply (ci_serial _ _ _ H).
  - rw bool_decide_eq_true_2 // in E. injection E as <-. destruct ls as [|lv ls]; [|simpl in Hd1; lia]. split; cbn [con set_job set_holder holder use_console_lock console_lock_depth].
    + apply (ci_lock _ _ _ H).
    + intros t' _. rw job_of_set. case_decide as Hc; [done|]. apply (ci_idle _ _ _ H). congruence.
    + done.
    + intros _. lia.
    + by rw print_all_app (ci_print _ _ _ H) /printer_of Ht Hj /= Z.eqb_refl.
    + rw /sent omap_app app_nil_r. apply (ci_serial _ _ _ H).
    + rw /shown omap_app app_nil_r. apply (ci_screen _ _ _ H).
Qed.
Lemma prints_ok v p tr l p' : prints lsr rbr p l p' -> cinv v p tr -> cinv v p' (tr ++ l).
Proof.
  destruct 1 as [p t x ls k Hj Hn E|p t c s ls fuel on d k Hj Ho E|p t c s ls d k Hj Hp E|p t c s ls k Hj E|p t ls k Hj E|p s E|p n s Hm E|p c s E|p t e s Hp E|p a e s Ha E]; intros H.
  - by apply begin_ok.
  - by apply (put_char_ok v p tr t c s ls fuel on d k).
  - by apply (goes_on_ok v p tr t c s ls d k).
  - by apply show_ok.
  - by apply end_ok.
  - rw app_nil_r. apply port_only; [done|]. rw -(app_nil_r (sent tr)). exact (steps_one lsr rbr _ _ _ _ (step_init lsr rbr _ _ E) (ci_serial _ _ _ H)).
  - rw app_nil_r. apply port_only; [done|]. rw -(app_nil_r (sent tr)). exact (steps_one lsr rbr _ _ _ _ (step_interrupt lsr rbr n _ _ Hm E) (ci_serial _ _ _ H)).
  - rw app_nil_r. apply port_only; [done|]. rw -(app_nil_r (sent tr)). exact (steps_one lsr rbr _ _ _ _ (step_key lsr rbr c _ _ E) (ci_serial _ _ _ H)).
  - rw app_nil_r. apply port_only; [done|]. rw -(app_nil_r (sent tr)). exact (steps_one lsr rbr _ _ _ _ (step_getc lsr rbr t e _ _ Hp E) (ci_serial _ _ _ H)).
  - rw app_nil_r. apply port_only; [done|]. rw -(app_nil_r (sent tr)). exact (steps_one lsr rbr _ _ _ _ (step_getc_goes_on lsr rbr a e _ _ Ha E) (ci_serial _ _ _ H)).
Qed.
Lemma run_prints_ok v p tr0 tr p' : run_prints lsr rbr p tr p' -> cinv v p tr0 -> cinv v p' (tr0 ++ tr).
Proof.
  induction 1 as [p|p tr p1 l p2 Hr IH Hp]; intros H; [by rw app_nil_r|]. rw app_assoc. apply (prints_ok v p1 _ l p2 Hp). by apply IH.
Qed.
End console_ok.

(** What the printer has sent it has shown, but for the character between the two. *)
Definition between (q : printer) : list Z := match q with None => [] | Some (_, ls) => omap fst ls end.
Lemma print_between q e q' : print q e = Some q' -> between q ++ sent [e] ≡ₚ shown [e] ++ between q'.
Proof.
  destruct e as [t x|t c|t c|t], q as [[t' ls]|]; cbn; try done.
  - destruct (t =? t'); [|done]. intros [= <-]. cbn. by rw app_nil_r.
  - by intros [= <-].
  - destruct ls as [|[[c1|] [|c' s]] ls]; try done. destruct (_ && _); [|done]. intros [= <-]. cbn. by rw Permutation_app_comm.
  - destruct ls as [|[[c1|] s] ls]; try done. destruct (t =? t') eqn:?; [|done]. destruct (Z.eqb_spec c c1) as [-> |]; [|done]. intros [= <-]. cbn. by rw app_nil_r.
  - destruct ls as [|[[c1|] [|? ?]] ls]; try done. destruct (t =? t'); [|done]. intros [= <-]. cbn. rw app_nil_r. by destruct ls.
Qed.
Lemma print_all_between q tr q' : print_all q tr = Some q' -> between q ++ sent tr ≡ₚ shown tr ++ between q'.
Proof.
  revert q. induction tr as [|e tr IH]; intros q; cbn [print_all]; [intros [= <-]; by rw /sent /shown /= app_nil_r|].
  destruct (print q e) as [q1|] eqn:E; [|done]. intros H. have H1 := print_between _ _ _ E. have H2 := IH _ H.
  change (e :: tr) with ([e] ++ tr). rw /sent /shown !omap_app. rw /sent /shown in H1 H2. rw app_assoc H1 -app_assoc H2. by rw app_assoc.
Qed.
Lemma console_boot_inv v : cinv v (console_boot v) [].
Proof. have := at_boot_inv. by split. Qed.

(** C35: printing threads do not mix their texts.  From boot, for any UART and screen and whatever the threads print, the
    console refines a printer that one thread has at a time, and that prints the texts of this thread character by character,
    texts begun inside others first.  The serial port has been given the characters that it has sent and the screen those it
    has shown, in order; when no thread prints these are the same characters. *)
Theorem console_refines_printer (lsr rbr : nat -> Z) (v : vga) (tr : list ev) (p : printing) :
  run_prints lsr rbr (console_boot v) tr p ->
  print_all None tr = Some (printer_of p) /\
  wire (serial_port (con p)) ++ contents (q (txq (serial_port (con p)))) = sent tr /\
  putc_all v (shown tr) = Ok (screen (con p)) /\
  (holder (con p) = None -> sent tr ≡ₚ shown tr).
Proof.
  intros Hr. have H := run_prints_ok lsr rbr v _ [] tr p Hr (console_boot_inv v). cbn [app] in H. have Hp := ci_print _ _ _ H. split_and!.
  - exact Hp.
  - apply (ci_serial _ _ _ H).
  - apply (ci_screen _ _ _ H).
  - intros Hn. have := print_all_between _ _ _ Hp. by rw /printer_of Hn /= app_nil_r.
Qed.
(** Thread 1 prints a line; inside it, it prints a character; thread 2 has to wait. *)
Definition ex_screen : vga := init (replicate 25 blank_row) (0, 0).
Lemma console_refines_printer_witness : exists tr p, run_prints (fun _ => 0x20) (fun _ => 0) (console_boot ex_screen) tr p /\
  acquire_console (Some 2) (con p) = None /\ sent tr = [72; 33] /\ shown tr = [72; 33] /\ wire (serial_port (con p)) ++ contents (q (txq (serial_port (con p)))) = [72; 33].
Proof.
  assert (H : exists p, run_prints (fun _ => 0x20) (fun _ => 0) (console_boot ex_screen)
    [Begin 1 [72; 10]; Sent 1 72; Shown 1 72; Begin 1 [33]; Sent 1 33; Shown 1 33; End 1] p /\ acquire_console (Some 2) (con p) = None).
  { eexists. split.
    - eapply (r_step _ _ _ [Begin 1 [72; 10]; Sent 1 72; Shown 1 72; Begin 1 [33]; Sent 1 33; Shown 1 33] _ [End 1]).
      1: eapply (r_step _ _ _ [Begin 1 [72; 10]; Sent 1 72; Shown 1 72; Begin 1 [33]; Sent 1 33] _ [Shown 1 33]).
      1: eapply (r_step _ _ _ [Begin 1 [72; 10]; Sent 1 72; Shown 1 72; Begin 1 [33]] _ [Sent 1 33]).
      1: eapply (r_step _ _ _ [Begin 1 [72; 10]; Sent 1 72; Shown 1 72] _ [Begin 1 [33]]).
      1: eapply (r_step _ _ _ [Begin 1 [72; 10]; Sent 1 72] _ [Shown 1 72]).
      1: eapply (r_step _ _ _ [Begin 1 [72; 10]] _ [Sent 1 72]).
      1: eapply (r_step _ _ _ [] _ [Begin 1 [72; 10]]); [apply r_nil|].
      + eapply (p_begin _ _ _ 1 (Puts [72])); reflexivity.
      + eapply (p_put _ _ _ 1 72 _ _ 1 true true); vm_compute; reflexivity.
      + eapply (p_show _ _ _ 1 72); vm_compute; reflexivity.
      + eapply (p_begin _ _ _ 1 (Putbuf [33] 1) [(None, [10])]); [vm_compute; reflexivity|reflexivity|vm_compute; reflexivity].
      + eapply (p_put _ _ _ 1 33 _ _ 1 true true); vm_compute; reflexivity.
      + eapply (p_show _ _ _ 1 33); vm_compute; reflexivity.
      + eapply (p_end _ _ _ 1); vm_compute; reflexivity.
    - vm_compute; reflexivity. }
  destruct H as (p & Hr & Hw). destruct (console_refines_printer _ _ _ _ p Hr) as (_ & Hs & _ & _).
  eexists _, p. split_and!; [exact Hr|exact Hw|reflexivity|reflexivity|exact Hs].
Defined.
