(* ===== verification/Exc.v ===== *)
(** * userprog/exception.c: which exceptions the kernel takes, and what becomes of a process

    [exception_init] and [syscall_init] register handlers in the interrupt table of
    Intr.v; [kill] ends the process that caused an exception.  The page fault handler is in
    Fault.v.  The addresses of the handlers are parameters.

    The theorem: in a table without handlers below 32 and at 48, exactly the named exceptions and the
    system call get handlers; user programs can raise only breakpoint, overflow, bound range
    and the system call with an [int] instruction; only page faults are taken with interrupts off. *)
From S2P Require Import Prelude Descr Intr.

Definition SEL_UCSEG : Z := 0x1b.

Section exceptions.
Context (stubs : Z -> Z) (kill_addr page_fault_addr syscall_handler_addr : Z).
(** The second result is the value of [pf_sema]. *)
Definition exception_init (s : intr) : outcome (intr * Z) :=
  let! s := intr_register_int stubs s 3 3 true kill_addr "#BP Breakpoint Exception"%string in
  let! s := intr_register_int stubs s 4 3 true kill_addr "#OF Overflow Exception"%string in
  let! s := intr_register_int stubs s 5 3 true kill_addr "#BR BOUND Range Exceeded Exception"%string in
  let! s := intr_register_int stubs s 0 0 true kill_addr "#DE Divide Error"%string in
  let! s := intr_register_int stubs s 1 0 true kill_addr "#DB Debug Exception"%string in
  let! s := intr_register_int stubs s 6 0 true kill_addr "#UD Invalid Opcode Exception"%string in
  let! s := intr_register_int stubs s 7 0 true kill_addr "#NM Device Not Available Exception"%string in
  let! s := intr_register_int stubs s 11 0 true kill_addr "#NP Segment Not Present"%string in
  let! s := intr_register_int stubs s 12 0 true kill_addr "#SS Stack Fault Exception"%string in
  let! s := intr_register_int stubs s 13 0 true kill_addr "#GP General Protection Exception"%string in
  let! s := intr_register_int stubs s 16 0 true kill_addr "#MF x87 FPU Floating-Point Error"%string in
  let! s := intr_register_int stubs s 19 0 true kill_addr "#XF SIMD Floating-Point Exception"%string in
  let! s := intr_register_int stubs s 14 0 false page_fault_addr "#PF Page-Fault Exception"%string in
  Ok (s, 1).
Definition syscall_init (s : intr) : outcome intr := intr_register_int stubs s 0x30 3 true syscall_handler_addr "syscall"%string.
End exceptions.

(** [kill] ends the thread that runs, or panics.  [cs] is the code segment of the interrupt frame. *)
Inductive verdict := Thread_exits.
Definition kill (cs : Z) : outcome verdict :=
  if cs =? SEL_UCSEG then Ok Thread_exits else if cs =? SEL_KCSEG then Err Panic else Ok Thread_exits.

(** ** Registering a list *)
Record entry := mk_entry { vec : Z; dpl : Z; on : bool; handler : Z; label : string }.
Definition killing (k : Z) (v d : Z) (n : string) : entry := mk_entry v d true k n.
Definition exceptions (k pf : Z) : list entry :=
  [killing k 3 3 "#BP Breakpoint Exception"%string; killing k 4 3 "#OF Overflow Exception"%string; killing k 5 3 "#BR BOUND Range Exceeded Exception"%string;
   killing k 0 0 "#DE Divide Error"%string; killing k 1 0 "#DB Debug Exception"%string; killing k 6 0 "#UD Invalid Opcode Exception"%string;
   killing k 7 0 "#NM Device Not Available Exception"%string; killing k 11 0 "#NP Segment Not Present"%string; killing k 12 0 "#SS Stack Fault Exception"%string;
   killing k 13 0 "#GP General Protection Exception"%string; killing k 16 0 "#MF x87 FPU Floating-Point Error"%string; killing k 19 0 "#XF SIMD Floating-Point Exception"%string;
   mk_entry 14 0 false pf "#PF Page-Fault Exception"%string].
Fixpoint register_all (stubs : Z -> Z) (l : list entry) (s : intr) : outcome intr :=
  match l with [] => Ok s | e :: l => let! s := intr_register_int stubs s (vec e) (dpl e) (on e) (handler e) (label e) in register_all stubs l s end.
(** The vector of [e] leads to its handler, with the gate asked for. *)
Definition entered (s : intr) (e : entry) : Prop :=
  intr_handlers s !! Z.to_nat (vec e) = Some (Some (handler e)) /\
  exists g, idt s !! Z.to_nat (vec e) = Some g /\ g_type (read_gate g) = (if on e then 15 else 14) /\ g_dpl (read_gate g) = dpl e.
Definition entry_ok (e : entry) : Prop := (0 <= vec e < 0x20 \/ vec e = 0x30) /\ 0 <= dpl e <= 3.

Section register_proofs.
Context (stubs : Z -> Z) (Hstubs : forall v, 0 <= v < 256 -> 0 < stubs v < 2 ^ 32).
Lemma register_one s e : table_ok stubs s -> entry_ok e -> intr_handlers s !! Z.to_nat (vec e) = Some None ->
  exists s', intr_register_int stubs s (vec e) (dpl e) (on e) (handler e) (label e) = Ok s' /\ table_ok stubs s' /\ entered s' e /\
    forall u, u <> Z.to_nat (vec e) -> idt s' !! u = idt s !! u /\ intr_handlers s' !! u = intr_handlers s !! u.
Proof.
  intros Ht [Hv Hd] Hn. destruct (register_registers stubs Hstubs s (vec e) (dpl e) (on e) (handler e) (label e) Ht) as [_ Hr]; [lia|done|].
  destruct (Hr Hn) as (s' & g & Es & H1 & _ & Hg & _ & Hty & Hdp & Hu & _). exists s'. split_and!.
  - rw /intr_register_int. have -> : (vec e <? 0x20) || (0x2f <? vec e) = true; [|done]. destruct (Z.ltb_spec (vec e) 0x20), (Z.ltb_spec 0x2f (vec e)); try done; lia.
  - by apply (register_ok stubs Hstubs s (vec e) (dpl e) (on e) (handler e) (label e) s' Ht); [lia|lia|].
  - split; [done|]. by exists g.
  - intros u Hne. by destruct (Hu u Hne) as (? & ? & _).
Qed.
Lemma register_all_ok l s : table_ok stubs s -> Forall entry_ok l -> NoDup (vec <$> l) -> Forall (fun e => intr_handlers s !! Z.to_nat (vec e) = Some None) l ->
  exists s', register_all stubs l s = Ok s' /\ table_ok stubs s' /\ Forall (entered s') l /\
    forall u, u ∉ Z.to_nat ∘ vec <$> l -> idt s' !! u = idt s !! u /\ intr_handlers s' !! u = intr_handlers s !! u.
Proof.
  revert s. induction l as [|e l IH]; intros s Ht Hok Hnd Hn; [by exists s|]. apply Forall_cons in Hok as [He Hok]. apply Forall_cons in Hn as [Hn0 Hn]. apply NoDup_cons in Hnd as [Hni Hnd].
  have Hne : forall e', e' ∈ l -> Z.to_nat (vec e') <> Z.to_nat (vec e).
  { intros e' Hin Heq. have He' := proj1 (Forall_forall _ _) Hok e' Hin. destruct He as [He _], He' as [He' _]. apply Hni. have -> : vec e = vec e' by lia. by apply list_elem_of_fmap_2. }
  destruct (register_one s e Ht He Hn0) as (s1 & E1 & Ht1 & Hen & Hu). cbn [register_all]. rw E1. cbn [obind].
  destruct (IH s1 Ht1 Hok Hnd) as (s' & E & Ht' & Hen' & Hu').
  { apply Forall_forall. intros e' Hin. rw (proj2 (Hu (Z.to_nat (vec e')) (Hne e' Hin))). by apply (proj1 (Forall_forall _ _) Hn). }
  exists s'. split; [done|]. split; [done|]. have Hnot : Z.to_nat (vec e) ∉ Z.to_nat ∘ vec <$> l.
  { intros (e' & Heq & Hin)%list_elem_of_fmap. by apply (Hne e' Hin). }
  split.
  - constructor; [|done]. rw /entered. destruct (Hu' _ Hnot) as [-> ->]. exact Hen.
  - intros u Hni'. rw fmap_cons not_elem_of_cons in Hni'. destruct Hni' as [Hue Hul]. destruct (Hu' u Hul) as [-> ->]. by apply Hu.
Qed.
End register_proofs.

Lemma exception_init_all stubs k pf s : exception_init stubs k pf s = let! s := register_all stubs (exceptions k pf) s in Ok (s, 1).
Proof. rw /exception_init. cbn [register_all exceptions killing vec dpl on handler label]. repeat (rw obind_assoc; match goal with |- obind ?m _ = obind ?m _ => destruct m as [?|]; [cbn [obind]|done] end). done. Qed.
Definition syscall_entry (h : Z) : entry := mk_entry 0x30 3 true h "syscall"%string.

Lemma register_all_app stubs l l' s : register_all stubs (l ++ l') s = let! s := register_all stubs l s in register_all stubs l' s.
Proof. revert s. induction l as [|e l IH]; intros s; [done|]. cbn [register_all app]. rw obind_assoc. destruct (intr_register_int _ _ _ _ _ _ _); [apply IH|done]. Qed.
Lemma user_entries k pf sc : Forall (fun e => dpl e = 3 <-> vec e ∈ [3; 4; 5; 48]) (exceptions k pf ++ [syscall_entry sc]).
Proof. cbn. repeat constructor; cbn; try done; try (by intros _; repeat first [apply list_elem_of_here|apply list_elem_of_further]); by rw !elem_of_cons; intuition; try lia; by apply not_elem_of_nil in H. Qed.

(** Exceptions and system calls reach their handlers.  When the table has no handlers below 32 and at 48 yet,
    [exception_init] and [syscall_init] succeed; each exception then leads to [kill], page faults, with interrupts
    off, to the page fault handler, and vector 48 to the system call handler, no other vector changes, and of the
    vectors below 32 and 48 a user program can raise with [int] just 3, 4, 5 and 48. *)
Theorem exceptions_registered stubs (k pf sc : Z) (s : intr) : (forall v, 0 <= v < 256 -> 0 < stubs v < 2 ^ 32) -> configured stubs s ->
  (forall v, 0 <= v < 32 \/ v = 48 -> intr_handlers s !! Z.to_nat v = Some None) ->
  exists s1 s2, exception_init stubs k pf s = Ok (s1, 1) /\ syscall_init stubs sc s1 = Ok s2 /\
    Forall (entered s2) (syscall_entry sc :: exceptions k pf) /\
    (forall u, u ∉ Z.to_nat ∘ vec <$> (syscall_entry sc :: exceptions k pf) -> idt s2 !! u = idt s !! u /\ intr_handlers s2 !! u = intr_handlers s !! u) /\
    forall v g, 0 <= v < 32 \/ v = 48 -> idt s2 !! Z.to_nat v = Some g -> (g_dpl (read_gate g) = 3 <-> v ∈ [3; 4; 5; 48]).
Proof.
  intros Hst Hc Hn. have Ht := configured_ok stubs Hst s Hc.
  have Hok : Forall entry_ok (exceptions k pf ++ [syscall_entry sc]) by rw /entry_ok /exceptions /killing; repeat constructor; simpl; lia.
  destruct (register_all_ok stubs Hst (exceptions k pf ++ [syscall_entry sc]) s Ht Hok) as (s2 & E & Ht2 & Hen & Hu).
  { apply (bool_decide_unpack _). by vm_compute. }
  { apply Forall_forall. intros e He. apply Hn. have [He' _] := proj1 (Forall_forall _ _) Hok e He. lia. }
  rw register_all_app in E. apply obind_Ok_inv in E as (s1 & E1 & E2). cbn [register_all] in E2. apply obind_Ok_inv in E2 as (s2' & E2 & E3). injection E3 as ->.
  have Hperm : forall e, e ∈ exceptions k pf ++ [syscall_entry sc] <-> e ∈ syscall_entry sc :: exceptions k pf by intros e; rw elem_of_app list_elem_of_singleton elem_of_cons; tauto.
  exists s1, s2. split_and!; [by rw exception_init_all E1|done| | |].
  - apply Forall_forall. intros e He%Hperm. by apply (proj1 (Forall_forall _ _) Hen).
  - intros u Hu'. apply Hu. intros (e & -> & He%Hperm)%list_elem_of_fmap. apply Hu'. by apply (list_elem_of_fmap_2 (Z.to_nat ∘ vec)).
  - intros v g Hv Hg. destruct (decide (v ∈ vec <$> exceptions k pf ++ [syscall_entry sc])) as [(e & -> & He)%list_elem_of_fmap|Hnot].
    + destruct (proj1 (Forall_forall _ _) Hen e He) as (_ & g' & Hg' & _ & Hd). rw Hg in Hg'. injection Hg' as <-. rw Hd. by apply (proj1 (Forall_forall _ _) (user_entries k pf sc)).
    + destruct (Hu (Z.to_nat v)) as [Hi Hh].
      { intros (e & Heq & He)%list_elem_of_fmap. apply Hnot. have [He' _] := proj1 (Forall_forall _ _) Hok e He. have -> : v = vec e by simpl in Heq; lia. by apply list_elem_of_fmap_2. }
      rw Hi in Hg. have Hcl := vo_closed _ _ _ _ (proj2 (proj2 (proj2 Ht)) v g None ltac:(lia) Hg (Hn v Hv)) (or_introl eq_refl). rw (proj2 Hcl). split; [done|]. intros Hin. exfalso. apply Hnot.
      revert Hin. rw !elem_of_cons. intros Hin. destruct Hin as [-> | [-> | [-> | [-> | []%not_elem_of_nil]]]]; repeat first [left; reflexivity|right].
Qed.
(** From the table that [intr_init] leaves. *)
Lemma exceptions_registered_witness : exists s1 s2, exception_init ex_stubs 0xc0041000 0xc0042000 ex_intr = Ok (s1, 1) /\ syscall_init ex_stubs 0xc0043000 s1 = Ok s2 /\
  intr_handlers s2 !! 14%nat = Some (Some 0xc0042000).
Proof.
  destruct (exceptions_registered ex_stubs 0xc0041000 0xc0042000 0xc0043000 ex_intr) as (s1 & s2 & E1 & E2 & He & _).
  - intros v Hv. rw /ex_stubs. lia.
  - apply ex_configured.
  - intros v Hv. have -> : intr_handlers ex_intr = replicate 256 None by vm_compute. apply lookup_replicate_2. lia.
  - exists s1, s2. split_and!; [done|done|]. apply (proj1 (Forall_forall _ _) He (mk_entry 14 0 false 0xc0042000 "#PF Page-Fault Exception"%string)).
    do 13 apply list_elem_of_further. apply list_elem_of_here.
Defined.

(** A process that causes an exception ends; the kernel panics for one of its own. *)
Theorem kill_verdict (cs : Z) : kill cs = if cs =? SEL_KCSEG then Err Panic else Ok Thread_exits.
Proof. rw /kill. by destruct (Z.eqb_spec cs SEL_UCSEG) as [-> |]. Qed.
