(* ===== verification/Fsutil.v ===== *)
(** * filesys/fsutil.c: commands on files

    The commands of the kernel command line that list, print and delete files and move
    them from and to an archive on the scratch device, on the file system of FileSys.v,
    the headers of Ustar.v and the block devices of Block.v.  What is printed is left out, but for
    the results of [ls] and [cat].

    The theorems: [fsutil_append] of a file in the root directory writes to the scratch
    device a header that is read back with name and size of the file, and then the bytes
    of the file, filled up with zeros to whole sectors; of the two sectors of zeros behind them
    it writes one, the last byte of which is whatever lies behind its buffer in memory.  When this byte is not zero
    [fsutil_extract] panics when it gets there. *)
From S2P Require Import Prelude Block Bitmap Store Cache Inode InodeIO File FreeMap Dir FileSys Printf Ustar.

Section fsutil.
Context {St : Type} {ops : SectorOps St}.
(** [stack] and [dead] as in FileSys.v. *)
Context (stack : list Z) (dead : list Z -> list Z) (F : fm_ops St).
Implicit Types (f : fs St) (d : block).

(** The names that are printed. *)
Fixpoint ls_loop (fuel : nat) f (dr : dir) : outcome (list (list Z) * dir * fs St) :=
  match fuel with
  | O => Err NoFuel
  | S fuel =>
    let! (name, dr, f) := dir_readdir f dr stack in
    match name with
    | Some name => let! (names, dr, f) := ls_loop fuel f dr in Ok (name :: names, dr, f)
    | None => Ok ([], dr, f)
    end
  end.
Definition fsutil_ls (fuel : nat) f : outcome (list (list Z) * fs St) :=
  let! (dir, f) := dir_open_root F f in
  match dir with
  | None => Err Panic
  | Some dr =>
    let! (names, dr, f) := ls_loop fuel f dr in
    let! f := dir_close F f (Some dr) in
    Ok (names, f)
  end.

(** [filesys_open] as the commands use it: the result is taken for a file. *)
Definition open_file f (cur_dir : Z) (file_name : list Z) (dummy : bool) : outcome (file * fs St) :=
  let! (r, f) := filesys_open stack dead F f cur_dir file_name dummy in
  match r with
  | OpenedFile (Some fl) => Ok (fl, f)
  | OpenedFile None | OpenedDir None | NotOpened => Err Panic
  | OpenedDir (Some _) => Err Fault
  end.

(** What [hex_dump] prints of each page. *)
Fixpoint cat_loop (fuel : nat) f (fl : file) : outcome (list Z * file * fs St) :=
  match fuel with
  | O => Err NoFuel
  | S fuel =>
    let pos := file_tell fl in
    let! (bs, fl, f) := file_read f fl 4096 in
    if Z.of_nat (List.length bs) =? 0 then Ok ([], fl, f) else
    let! dump := hex_dump pos bs true in
    let! (rest, fl, f) := cat_loop fuel f fl in Ok (dump ++ rest, fl, f)
  end.
Definition fsutil_cat (fuel : nat) f (cur_dir : Z) (file_name : list Z) (dummy : bool) : outcome (list Z * fs St) :=
  let! (fl, f) := open_file f cur_dir file_name dummy in
  let! (out, fl, f) := cat_loop fuel f fl in
  let! f := file_close F f (Some fl) in
  Ok (out, f).

Definition fsutil_rm f (on_dir : Z -> bool) (cur_dir : Z) (file_name : list Z) : outcome (fs St) :=
  let! (ok, f) := filesys_remove stack dead F f on_dir cur_dir file_name in
  if ok then Ok f else Err Panic.

(** ** Extracting *)
Definition chunk_of (size : Z) : Z := if BLOCK_SECTOR_SIZE <? size then BLOCK_SECTOR_SIZE else size.
Fixpoint extract_copy (fuel : nat) (size sector : Z) (src : block) (dst : file) f : outcome (Z * block * file * fs St) :=
  if 0 <? size then
    match fuel with
    | O => Err NoFuel
    | S fuel =>
      let chunk_size := chunk_of size in
      let! (data, src) := block_read src sector in
      let! (n, dst, f) := file_write F f dst (take (Z.to_nat chunk_size) data) in
      if negb (n =? chunk_size) then Err Panic else
      extract_copy fuel (size - chunk_size) (u32 (sector + 1)) src dst f
    end
  else Ok (sector, src, dst, f).
Fixpoint extract_loop (fuel : nat) (cur_dir : Z) (dummy : bool) (sector : Z) (src : block) f : outcome (Z * block * fs St) :=
  match fuel with
  | O => Err NoFuel
  | S fuel =>
    let! (header, src) := block_read src sector in
    let sector := u32 (sector + 1) in
    let! r := ustar_parse_header header in
    match r with
    | inl _ => Err Panic
    | inr (name, type, size) =>
      if type =? USTAR_EOF then Ok (sector, src, f)
      else if type =? USTAR_DIRECTORY then extract_loop fuel cur_dir dummy sector src f
      else if type =? USTAR_REGULAR then
        let! file_name := oget name in
        let! (ok, f) := filesys_create stack dead F f cur_dir file_name size in
        if negb ok then Err Panic else
        let! (dst, f) := open_file f cur_dir file_name dummy in
        let! (sector, src, dst, f) := extract_copy (Z.to_nat size) size sector src dst f in
        let! f := file_close F f (Some dst) in
        extract_loop fuel cur_dir dummy sector src f
      else extract_loop fuel cur_dir dummy sector src f
    end
  end.
(** [sector] is the static variable; [src] the scratch device. *)
Definition fsutil_extract (cur_dir : Z) (dummy : bool) (sector : Z) (src : option block) f : outcome (Z * block * fs St) :=
  let (h, f) := calloc f in
  let (b, f) := calloc f in
  if negb h || negb b then Err Panic else
  match src with
  | None => Err Panic
  | Some src =>
    let! (sector, src, f) := extract_loop (S (Z.to_nat (block_size src))) cur_dir dummy sector src f in
    let! src := block_write src 0 zero_sector in
    let! src := block_write src 1 zero_sector in
    Ok (sector, src, f)
  end.

(** ** Appending *)
Fixpoint append_copy (fuel : nat) (size sector : Z) (src : file) d f : outcome (Z * block * file * fs St) :=
  if 0 <? size then
    match fuel with
    | O => Err NoFuel
    | S fuel =>
      let chunk_size := chunk_of size in
      if block_size d <=? sector then Err Panic else
      let! (bs, src, f) := file_read f src chunk_size in
      if negb (Z.of_nat (List.length bs) =? chunk_size) then Err Panic else
      let! d := block_write d sector (bs ++ replicate (Z.to_nat (BLOCK_SECTOR_SIZE - chunk_size)) 0) in
      append_copy fuel (size - chunk_size) (u32 (sector + 1)) src d f
    end
  else Ok (sector, d, src, f).
(** [behind] is the byte in memory behind the buffer. *)
Definition fsutil_append (cur_dir : Z) (dummy : bool) (behind : Z) (sector : Z) (dst : option block) f (file_name : list Z) : outcome (Z * block * fs St) :=
  let (b, f) := calloc f in
  if negb b then Err Panic else
  let! (src, f) := open_file f cur_dir file_name dummy in
  let! size := file_length f src in
  match dst with
  | None => Err Panic
  | Some d =>
    let! h := ustar_make_header file_name USTAR_REGULAR size in
    match h with
    | None => Err Panic
    | Some h =>
      let! d := block_write d sector h in
      let! (sector, d, src, f) := append_copy (Z.to_nat size) size (u32 (sector + 1)) src d f in
      let! d := block_write d sector zero_sector in
      let! d := block_write d sector (replicate 511 0 ++ [behind]) in
      let! f := file_close F f (Some src) in
      Ok (sector, d, f)
    end
  end.
End fsutil.

(** ** The archive *)
(** The sector with the bytes of [bs] from [o] on. *)
Definition piece (bs : list Z) (o : Z) : list Z := slice bs o 512 ++ replicate (512 - List.length (slice bs o 512)) 0.
Lemma piece_chunk bs o size : 0 <= o -> 0 < size -> o + size = Z.of_nat (List.length bs) ->
  Z.of_nat (List.length (slice bs o (chunk_of size))) = chunk_of size /\ slice bs o (chunk_of size) ++ replicate (Z.to_nat (BLOCK_SECTOR_SIZE - chunk_of size)) 0 = piece bs o.
Proof.
  intros Ho Hs Hl. have Hc : 0 < chunk_of size <= size /\ chunk_of size <= 512 by rw /chunk_of /BLOCK_SECTOR_SIZE; destruct (Z.ltb_spec 512 size); lia.
  have Hlen : List.length (slice bs o (chunk_of size)) = Z.to_nat (chunk_of size) by apply length_slice; lia.
  split; [lia|]. have E : slice bs o 512 = slice bs o (chunk_of size).
  { rw /chunk_of /BLOCK_SECTOR_SIZE. destruct (Z.ltb_spec 512 size); [done|]. rw /slice !take_ge // length_drop; lia. }
  rw /piece E Hlen. do 2 f_equal. rw /BLOCK_SECTOR_SIZE. lia.
Qed.
Definition sectors_of (size : Z) : Z := DIV_ROUND_UP size 512.
Lemma sectors_of_step size : 0 < size -> sectors_of size = sectors_of (size - chunk_of size) + 1.
Proof. intros H. rw /sectors_of /DIV_ROUND_UP /chunk_of /BLOCK_SECTOR_SIZE. destruct (Z.ltb_spec 512 size); dlia. Qed.
Lemma sectors_of_0 : sectors_of 0 = 0.
Proof. done. Qed.
Lemma sectors_of_nonneg size : 0 <= size -> 0 <= sectors_of size.
Proof. intros H. rw /sectors_of /DIV_ROUND_UP. dlia. Qed.

Section append.
Context {St : Type} {ops : SectorOps St} {laws : SectorStore St}.
(** The open inode at [a] represents a file of the bytes [bs]. *)
Record source (n : Z) (f : fs St) (a : Z) (i : inode) (bs : list Z) : Prop := {
  sr_ok : sec_ok n (store f);
  sr_mem : mem f = [];
  sr_inode : inodes f !! a = Some i;
  sr_lock : grow_lock i = false;
  sr_rep : exists ds, rep (sec_view (store f)) (sec_count (store f)) (data i) ds /\ bs = contents (sec_view (store f)) (data i) ds }.
Lemma source_reads n f f' a i bs : source n f a i bs -> reads n f f' -> source n f' a i bs.
Proof.
  intros [H1 H2 H3 H4 (ds & H5 & H6)] (st & -> & Hok & Hc & Hv). split; try done. exists ds. split.
  - rw /= Hc. by apply (rep_ext (sec_view (store f))).
  - rw H6. symmetry. by apply contents_ext.
Qed.
Lemma source_read n f a i bs size p fl : source n f a i bs -> finode fl = a -> pos fl = p -> 0 <= p -> 0 <= size -> p + size <= Z.of_nat (List.length bs) <= INT_MAX ->
  exists f', file_read f fl size = Ok (slice bs p size, mk_file a (p + size) (deny_write fl), f') /\ reads n f f'.
Proof.
  intros Hs Ha Hp H0 Hz Hl. destruct (sr_rep _ _ _ _ _ Hs) as (ds & Hr & Hb). have Hlen := length_contents _ _ _ _ Hr. rw -Hb in Hlen.
  destruct (inode_read_at_ok n f a i ds size p (sr_ok _ _ _ _ _ Hs) (sr_mem _ _ _ _ _ Hs) (sr_inode _ _ _ _ _ Hs) (sr_lock _ _ _ _ _ Hs) Hr) as (f' & E & Hrd); [rw /INT_MAX in Hl |- *; lia|].
  exists f'. split; [|done]. rw /file_read Ha Hp E. cbn [obind]. rw -Hb Z.min_l; [lia|]. rw length_slice; [lia|lia|lia|]. do 4 f_equal. rw Z2Nat.id; [lia|]. apply swrap_small; [lia|]. rw /INT_MAX in Hl. lia.
Qed.

(** The loop writes the rest of the file. *)
Lemma append_copy_ok n a i bs : Z.of_nat (List.length bs) <= INT_MAX -> forall fuel size s fl d f,
  source n f a i bs -> finode fl = a -> 0 <= pos fl -> pos fl + size = Z.of_nat (List.length bs) -> 0 <= size -> (Z.to_nat size <= fuel)%nat ->
  0 <= s -> s + sectors_of size <= Block.size d < 2 ^ 32 -> Block.type d <> BLOCK_FOREIGN ->
  exists d' fl' f', append_copy fuel size s fl d f = Ok (s + sectors_of size, d', fl', f') /\ finode fl' = a /\ deny_write fl' = deny_write fl /\ reads n f f' /\
    Block.size d' = Block.size d /\ Block.type d' = Block.type d /\
    forall t, sector_at d' t = if decide (s <= t < s + sectors_of size) then piece bs (pos fl + 512 * (t - s)) else sector_at d t.
Proof.
  intros Hmax. induction fuel as [|fuel IH]; intros size s fl d f Hs Ha Hp Hl Hz Hf Hs0 Hd Ht; cbn [append_copy].
  all: destruct (Z.ltb_spec 0 size) as [Hlt|Hge]; [|have -> : size = 0 by lia].
  2,4: rw sectors_of_0 Z.add_0_r; exists d, fl, f; split_and!; try done; [apply reads_refl, (sr_ok _ _ _ _ _ Hs)|intros t; rw decide_False //; lia].
  { lia. }
  have Hst := sectors_of_step size Hlt. have Hc : 0 < chunk_of size <= size by rw /chunk_of /BLOCK_SECTOR_SIZE; destruct (Z.ltb_spec 512 size); lia.
  have Hnn := sectors_of_nonneg (size - chunk_of size) ltac:(lia). rw /block_size (proj2 (Z.leb_gt _ _)); [lia|].
  destruct (piece_chunk bs (pos fl) size Hp Hlt Hl) as [Hlen Hpiece].
  destruct (source_read n f a i bs (chunk_of size) (pos fl) fl Hs Ha eq_refl Hp) as (f1 & E1 & Hr1); [lia|lia|]. rw E1. cbn [obind]. rw Hlen Z.eqb_refl. cbn [negb].
  rw Hpiece. destruct (block_write_ok d s (piece bs (pos fl))) as (d1 & Ew & Hsz & Hty & Hsec); [lia|done|]. rw Ew. cbn [obind].
  have Hu : u32 (s + 1) = s + 1 by apply wrap_small; lia. rw Hu.
  destruct (IH (size - chunk_of size) (s + 1) (mk_file a (pos fl + chunk_of size) (deny_write fl)) d1 f1) as (d' & fl' & f' & E & Ha' & Hdw & Hr & Hsz' & Hty' & Hsec'); try (cbn [pos]; lia); [by apply (source_reads n f)|done|congruence|].
  exists d', fl', f'. rw E. split_and!; [do 4 f_equal; lia|done|done|by apply (reads_trans n f f1)|lia|congruence|].
  intros t. rw Hsec'. cbn [pos]. repeat case_decide; try lia.
  - have Hcs : chunk_of size = 512. { rw /chunk_of /BLOCK_SECTOR_SIZE. destruct (Z.ltb_spec 512 size) as [|Hle]; [done|]. exfalso. rw /chunk_of /BLOCK_SECTOR_SIZE in H. destruct (Z.ltb_spec 512 size); [lia|]. rw Z.sub_diag sectors_of_0 in H. lia. }
    rw Hcs. f_equal. lia.
  - have -> : t = s by lia. rw Hsec decide_True //. f_equal. lia.
  - rw Hsec decide_False //. intros ->. lia.
Qed.

(** Opening the file of an entry, as the command does. *)
Lemma open_file_ok n F (f : fs St) dr dsr es stack dead cur_dir path name e dummy ds : root_closed n f dr dsr es -> root_path cur_dir path name ->
  List.length stack = Z.to_nat ENTRY_SIZE -> e ∈ used es -> entry_name e = name -> is_dir e = false -> not_open f (inode_sector e) ->
  rep (sec_view (store f)) (sec_count (store f)) (decode (sec_view (store f) (inode_sector e))) ds ->
  let a := next_addr f + 2 in let i := mk_inode (inode_sector e) 1 false 0 false (next_addr f + 3) (decode (sec_view (store f) (inode_sector e))) in
  exists f', open_file stack dead F f cur_dir path dummy = Ok (mk_file a 0 false, f') /\
    source n f' a i (contents (sec_view (store f)) (data i) ds) /\ (forall t, sec_view (store f') t = sec_view (store f) t) /\
    inodes f' = <[a := i]> (inodes f) /\ open_inodes f' = a :: open_inodes f.
Proof.
  intros H Hp Hs He Hn Hd Hno Hr a i. destruct (open_bound n F f dr dsr es stack dead cur_dir path name e dummy H Hp Hs He Hn Hno) as (f' & E & Hroot & Hv & Hc & Hi & Ho).
  exists f'. rw /open_file /filesys_open E Hd. split; [done|]. split_and!; try done. split; [apply (rc_ok _ _ _ _ _ Hroot)|apply (rc_mem _ _ _ _ _ Hroot)|by rw Hi lookup_insert_eq|done|].
  exists ds. split; [rw Hc; by apply (rep_ext (sec_view (store f)))|symmetry; by apply contents_ext].
Qed.
(** Closing it again. *)
Lemma close_source n F (f f' : fs St) a i bs fl : source n f' a i bs -> open_cnt i = 1 -> removed i = false -> finode fl = a -> deny_write fl = false ->
  inodes f !! a = None -> a ∉ open_inodes f -> inodes f' = <[a := i]> (inodes f) -> open_inodes f' = a :: open_inodes f ->
  exists f'', file_close F f' (Some fl) = Ok f'' /\ store f'' = store f' /\ inodes f'' = inodes f /\ open_inodes f'' = open_inodes f.
Proof.
  intros Hs Hc Hr Ha Hd Hn Hno Hi Ho. rw /file_close /file_allow_write Hd. cbn [obind]. rw Ha (inode_close_last _ _ _ _ (sr_inode _ _ _ _ _ Hs) Hc Hr).
  eexists. split; [done|]. rw /without_inode. cbn. split_and!; [done|by rw Hi delete_insert_id|]. rw Ho filter_cons_False; [tauto|]. by apply filter_fresh.
Qed.
End append.

(** The header and the sectors of a file of the bytes [bs] named [nm], from sector [s] on. *)
Definition archived (d : block) (s : Z) (nm bs : list Z) : Prop :=
  ustar_parse_header (sector_at d s) = Ok (inr (Some nm, USTAR_REGULAR, Z.of_nat (List.length bs))) /\
  forall j, 0 <= j < sectors_of (Z.of_nat (List.length bs)) -> sector_at d (s + 1 + j) = piece bs (512 * j).

(** C23: appending to an archive.  On a volume whose root directory is intact and not open, [fsutil_append] of a regular file of
    the root directory writes to the scratch device a header that [ustar_parse_header] reads back with name and size of the file, then the bytes
    of the file in whole sectors filled up with zeros, and then one sector of zeros whose last byte is the byte behind the
    buffer in memory; it changes no other sector of the device and nothing of the volume, advances the position to the sector
    of zeros and leaves the file closed. *)
Theorem fsutil_append_correct {St : Type} {ops : SectorOps St} {laws : SectorStore St} (n : Z) (F : fm_ops St) (f : fs St) (dr : inode_disk) (dsr : list Z) (es : list (list Z))
    (stack : list Z) (dead : list Z -> list Z) (cur_dir : Z) (path name nm e : list Z) (ds : list Z) (dummy : bool) (behind s : Z) (d : block) :
  root_closed n f dr dsr es -> root_path cur_dir path name -> List.length stack = Z.to_nat ENTRY_SIZE ->
  e ∈ used es -> entry_name e = name -> is_dir e = false -> not_open f (inode_sector e) ->
  rep (sec_view (store f)) (sec_count (store f)) (decode (sec_view (store f) (inode_sector e))) ds ->
  let bs := contents (sec_view (store f)) (decode (sec_view (store f) (inode_sector e))) ds in
  let k := sectors_of (Z.of_nat (List.length bs)) in
  Forall (fun c => 0 < c < 256) path -> strip_antisocial_prefixes path = Ok nm -> (List.length nm <= 99)%nat ->
  0 <= s -> s + 2 + k <= Block.size d < 2 ^ 32 -> Block.type d <> BLOCK_FOREIGN ->
  exists d' f', fsutil_append stack dead F cur_dir dummy behind s (Some d) f path = Ok (s + 1 + k, d', f') /\
    archived d' s nm bs /\ sector_at d' (s + 1 + k) = replicate 511 0 ++ [behind] /\
    (forall t, t < s \/ s + 1 + k < t -> sector_at d' t = sector_at d t) /\
    (forall t, sec_view (store f') t = sec_view (store f) t) /\ inodes f' = inodes f /\ open_inodes f' = open_inodes f.
Proof.
  intros H Hp Hstk He Hn Hdir Hno Hr bs k Hpath Hstrip Hnm Hs Hd Hty. have Hlen := length_contents _ _ _ _ Hr. have Hmax := rp_length _ _ _ _ Hr.
  have HL : 0 <= Z.of_nat (List.length bs) <= INT_MAX by rw /bs Hlen. have Hk : 0 <= k by apply sectors_of_nonneg; lia. rw /fsutil_append /calloc (rc_mem _ _ _ _ _ H). cbn [negb].
  destruct (open_file_ok n F f dr dsr es stack dead cur_dir path name e dummy ds H Hp Hstk He Hn Hdir Hno Hr) as (f1 & -> & Hsrc & Hv1 & Hi1 & Ho1). cbn [obind].
  rw /file_length /inode_length /get_inode (sr_inode _ _ _ _ _ Hsrc). cbn [oget obind data]. rw -Hlen. change (Z.of_nat _) with (Z.of_nat (List.length bs)).
  destruct (ustar_roundtrip path USTAR_REGULAR (Z.of_nat (List.length bs)) Hpath (or_introl eq_refl)) as (nm' & Es & Hh & _); [lia|]. rw Hstrip in Es. injection Es as <-.
  destruct (Hh Hnm) as (h & -> & Hlh & Hparse). cbn [obind].
  destruct (block_write_ok d s h) as (d1 & -> & Hsz1 & Hty1 & Hsec1); [lia|done|]. cbn [obind]. rw (wrap_small 32); [lia|].
  destruct (append_copy_ok n _ _ bs ltac:(lia) (Z.to_nat (Z.of_nat (List.length bs))) (Z.of_nat (List.length bs)) (s + 1) (mk_file (next_addr f + 2) 0 false) d1 f1 Hsrc) as (d2 & fl2 & f2 & -> & Ha2 & Hdw & Hr2 & Hsz2 & Hty2 & Hsec2); try (cbn [pos]; fold k; lia); try done; [congruence|].
  fold k in Hsec2 |- *. cbn [obind pos] in Hsec2 |- *. destruct (block_write_ok d2 (s + 1 + k) zero_sector) as (d3 & -> & Hsz3 & Hty3 & Hsec3); [lia|congruence|]. cbn [obind].
  destruct (block_write_ok d3 (s + 1 + k) (replicate 511 0 ++ [behind])) as (d4 & -> & Hsz4 & Hty4 & Hsec4); [lia|congruence|]. cbn [obind].
  have Hsrc2 := source_reads _ _ _ _ _ _ Hsrc Hr2. destruct Hr2 as (st2 & -> & _ & _ & Hv2).
  destruct (root_closed_fresh _ _ _ _ _ (next_addr f + 2) H) as [Hfi Hfo]; [lia|].
  destruct (close_source n F f (set_store f1 st2) _ _ bs fl2 Hsrc2 eq_refl eq_refl Ha2 Hdw Hfi Hfo Hi1 Ho1) as (f3 & -> & Hst3 & Hi3 & Ho3). cbn [obind].
  exists d4, f3. split; [done|]. split; [split|].
  - rw Hsec4 decide_False; [lia|]. rw Hsec3 decide_False; [lia|]. rw Hsec2 decide_False; [lia|]. rw Hsec1 decide_True //.
  - intros j Hj. fold k in Hj. rw Hsec4 decide_False; [lia|]. rw Hsec3 decide_False; [lia|]. rw Hsec2 decide_True; [lia|]. f_equal. lia.
  - split_and!; [by rw Hsec4 decide_True| |intros t; by rw Hst3 /= Hv2 Hv1|done|done].
    intros t Ht. rw Hsec4 decide_False; [lia|]. rw Hsec3 decide_False; [lia|]. rw Hsec2 decide_False; [lia|]. rw Hsec1 decide_False //. lia.
Qed.

(** ** Example: a volume with a file of five bytes *)
Definition ex_hello : inode_disk := mk_disk (21 :: replicate 124 0) 5 1 INODE_MAGIC.
Definition ex_hello_volume : block :=
  mk_block "hdb1" BLOCK_FILESYS 32 (<[20 := encode ex_hello]> (<[21 := chars "Hello" ++ replicate 507 0]> (content ex_volume))) 0 0.
Definition ex_hello_fs : fs cache_state :=
  mk_fs (cache_init ex_hello_volume) [] (mk_bitmap 32 [3145743]) false (Some ex_map_file) [7] {[7 := ex_map_inode]} {[8 := false]} 9.
Definition ex_scratch : block := mk_block "hdc" BLOCK_SCRATCH 8 ∅ 0 0.
Lemma ex_hello_wf : disk_wf ex_hello.
Proof. rw /disk_wf /ex_hello /=. split_and!; try done; repeat constructor; lia. Qed.
Lemma ex_hello_store : cache_ok 0 (store ex_hello_fs) /\ forall n, logical (store ex_hello_fs) n = sector_at ex_hello_volume n.
Proof.
  apply cache_init_ok; [done|]. intros n. rw /sector_at /ex_hello_volume /ex_volume. cbn [content]. rw !lookup_insert. destruct ex_vol_disks as [[H1 _] [H2 _]]. destruct ex_hello_wf as [H3 _].
  repeat case_decide; simpl; try done; first [by apply length_encode|apply length_replicate].
Qed.
Lemma ex_hello_view s : sec_view (store ex_hello_fs) s = sector_at ex_hello_volume s.
Proof. have [_ H] := ex_hello_store. exact (H s). Qed.
Lemma ex_hello_rep (d : inode_disk) (s : Z) : List.length (sector d) = Z.to_nat TOTAL_SECTOR_CNT -> 0 < Inode.length d <= BLOCK_SECTOR_SIZE -> sector d !! 0%nat = Some s -> 0 <= s < 32 ->
  rep (sec_view (store ex_hello_fs)) (sec_count (store ex_hello_fs)) d [s].
Proof.
  intros Hs Hl H0 Hr. have Hp : InodeIO.path (sec_view (store ex_hello_fs)) d 0 = Some ([], s) by rw /InodeIO.path /= H0.
  split; try done; [rw /INT_MAX; rw /BLOCK_SECTOR_SIZE in Hl; lia|rw /DIV_ROUND_UP; rw /BLOCK_SECTOR_SIZE in Hl |- *; simpl; dlia|apply NoDup_singleton|..].
  - intros [|k] t; [|done]. by intros [= <-].
  - intros [|k] t; [|done]. intros [= <-]. exists []. split; [done|]. by intros t ?%not_elem_of_nil.
  - intros t _. apply (length_logical 0). apply ex_hello_store.
Qed.
Lemma ex_hello_root : root_closed 0 ex_hello_fs ex_root_disk [3] ex_entries.
Proof.
  split; try done; [exists 0; split_and!; [apply ex_hello_store|done|rw /INT_MAX; lia]| | |by apply ex_vol_disks|by apply ex_hello_rep|apply ex_entries_wf|vm_compute; apply NoDup_singleton|].
  - intros a ->%list_elem_of_singleton. by exists ex_map_inode.
  - intros a [i Hi]. cbn [inodes ex_hello_fs] in Hi. by apply lookup_singleton_Some in Hi as [<- _].
  - intros e. have -> : used ex_entries = [ex_entry [102; 111; 111] 20] by vm_compute. by intros ->%list_elem_of_singleton.
Qed.
(** The volume is archived at sector 1 of the scratch device. *)
Lemma fsutil_append_correct_witness : exists d' f', fsutil_append (replicate 24 0) (fun s => s) (fm 0) 1 false 7 1 (Some ex_scratch) ex_hello_fs ex_foo = Ok (3, d', f') /\
  archived d' 1 ex_foo (chars "Hello") /\ sector_at d' 3 = replicate 511 0 ++ [7].
Proof.
  assert (Hdec : decode (sec_view (store ex_hello_fs) 20) = ex_hello) by (rw ex_hello_view; vm_compute; reflexivity).
  assert (Hbs : contents (sec_view (store ex_hello_fs)) ex_hello [21] = chars "Hello") by (rw /contents; cbn [fmap list_fmap mjoin list_join]; rw ex_hello_view; vm_compute; reflexivity).
  pose proof (fsutil_append_correct 0 (fm 0) ex_hello_fs ex_root_disk [3] ex_entries (replicate 24 0) (fun s => s) 1 ex_foo ex_foo ex_foo (ex_entry [102; 111; 111] 20) [21] false 7 1 ex_scratch) as H.
  change (inode_sector (ex_entry [102; 111; 111] 20)) with 20 in H. rw Hdec Hbs in H. cbv zeta in H.
  destruct H as (d' & f' & E & Ha & Hm & _).
  - exact ex_hello_root.
  - apply ex_foo_path.
  - reflexivity.
  - apply list_elem_of_filter. split; [reflexivity|left].
  - reflexivity.
  - reflexivity.
  - intros a ->%list_elem_of_singleton. exists ex_map_inode. done.
  - by apply ex_hello_rep.
  - rw /ex_foo. repeat constructor; lia.
  - reflexivity.
  - vm_compute. lia.
  - lia.
  - vm_compute. split; [discriminate|reflexivity].
  - discriminate.
  - exists d', f'. split; [exact E|]. split; [exact Ha|exact Hm].
Defined.

(** ** What the sector of zeros becomes *)
(** When the byte behind the buffer is not zero, the end of the archive is not recognised: extracting panics there. *)
Theorem fsutil_marker_panics {St : Type} {ops : SectorOps St} (F : fm_ops St) (f : fs St) (stack : list Z) (dead : list Z -> list Z) (cur_dir : Z) (dummy : bool) (fuel : nat) (behind s : Z) (d : block) :
  behind <> 0 -> 0 <= s < Block.size d -> sector_at d s = replicate 511 0 ++ [behind] ->
  extract_loop stack dead F (S fuel) cur_dir dummy s d f = Err Panic.
Proof.
  intros Hb Hs Hd. cbn [extract_loop]. destruct (block_read_ok d s) as (d' & E & _); [lia|]. rw E Hd. cbn [obind].
  have -> : ustar_parse_header (replicate 511 0 ++ [behind]) = Ok (inl "not a ustar archive"%string); [|done].
  rw /ustar_parse_header. have -> : is_all_zeros (replicate 511 0 ++ [behind]) = false; [|done].
  have Hz : forall k, is_all_zeros (replicate k 0 ++ [behind]) = false; [|apply Hz]. induction k as [|k IH]; cbn; [by rw (proj2 (Z.eqb_neq _ _) Hb)|done].
Qed.
(** A whole archive: what [fsutil_append] wrote, with a zero behind the buffer, is extracted to the volume again. *)
Example fsutil_extract_runs :
  (let! (s, d, f) := fsutil_append (replicate 24 0) (fun s => s) (fm 2) 1 false 0 0 (Some ex_scratch) ex_hello_fs ex_foo in
   let! f := fsutil_rm (replicate 24 0) (fun s => s) (fm 2) f (fun _ => false) 1 ex_foo in
   let! (s, d, f) := fsutil_extract (replicate 24 0) (fun s => s) (fm 2) 1 false 0 (Some d) f in
   let! (out, f) := fsutil_cat (replicate 24 0) (fun s => s) (fm 2) 2 f 1 ex_foo false in
   let! (names, f) := fsutil_ls (replicate 24 0) (fm 2) 5 f in
   Ok (s, names, take 5 (drop 59 out))) = Ok (3, [ex_foo], chars "Hello").
Proof. vm_compute. reflexivity. Qed.
